(* ===== verification/_CoqProject ===== *)
-Q . S2P
Prelude.v
RustStr.v
Utf8.v
NetAddr.v
Model.v
Base64.v
Cidr.v
AddrText.v
Split.v
Domain.v
Routing.v
Protobuf.v
Geo.v
FakeIp.v
NetIo.v
Dns.v
Config.v
Secret.v
Uri.v
Link.v
Awg.v
F64.v
Json.v
Import.v
Singbox.v
Xray.v
Clash.v
Subscription.v
TuicProto.v
Reassembly.v
Hy2Proto.v
UdpRelay.v
VisionPad.v
TlsRecords.v
FuzzyTls.v
VisionFilter.v
Outbound.v
Engine.v
DnsResolver.v
Conn.v
Socks.v
UdpAssoc.v
StreamHeaders.v
AsyncRead.v
FrameReader.v
VisionBlocks.v
VisionPlain.v
HttpText.v
HttpProxy.v
SubFetch.v
Nodes.v
RuleEdit.v
Export.v
Store.v
Commands.v
LocalWg.v
Obfs.v
SlideBuffer.v
Aead.v
RealityRecords.v
RealityKeys.v
RealityMessages.v
RealityClient.v
RealityPeer.v
RealityAuth.v
RealityData.v
RealityStream.v
RealityHandshake.v
RealityPanics.v
RealityConfig.v
Shadowsocks.v
SsStream.v
Ss2022.v
Ss2022Udp.v
VlessXor.v
VlessEnc.v
VlessHandshake.v
VisionStream.v
VisionWrite.v
VisionRead.v
