(* ===== verification/Prelude.v ===== *)
(** * JammVPN: verification library (root file)

    JammVPN is a client for proxy protocols (VLESS with REALITY and Vision,
    Trojan, Shadowsocks, TUIC, Hysteria2, WireGuard and AmneziaWG, SOCKS5 and
    HTTP). A local SOCKS5 and HTTP listener accepts the connections of
    applications, rules decide for each whether it goes through a node, directly
    or nowhere, and an outbound carries it. Nodes are imported from share links
    and subscriptions; a decision engine says which connections of the machine
    are captured at all. This library models the logic of the Rust crates
    [crates/core], [crates/net] and [crates/cli]; the operations keep the names
    they have in the sources, and every definition stands for the lines the
    manifest maps it to.

    ** How the program is put together, and where each part is modelled

    A text of configuration or a share link becomes a [ServerProfile]
    ([Link.v], [Subscription.v]); the commands of the command-line crate edit the
    configuration that holds profiles, rules, listeners and subscriptions
    ([Nodes.v], [RuleEdit.v]), which is kept on disk with its secrets protected
    ([Config.v], [Secret.v]). Starting a session turns the profiles into
    outbounds ([Outbound.v]) and the configuration into an engine ([Engine.v],
    [RuleEdit.v]). A connection arrives through a front end ([Socks.v],
    [HttpProxy.v], [UdpAssoc.v]), the engine routes it ([Engine.v], with
    [Routing.v], [Geo.v], [FakeIp.v], [DnsResolver.v]), and the protocol of the
    outbound frames its bytes ([StreamHeaders.v], [VisionPad.v], [TuicProto.v],
    [Hy2Proto.v] and the files they use).

    - Foundations: [Prelude.v] (results and panics, loops with fuel, machine
      integers, bytes), [RustStr.v], [Utf8.v] and [NetAddr.v] ([str],
      [String::from_utf8], [std::net] of the Rust library), [NetIo.v]
      ([io::Error], slices, [net/src/target.rs]), [Conn.v] (a conversation over
      a byte stream as a state monad).
    - Data model: [Model.v] ([core/src/model/], [error.rs]), [Config.v]
      ([core/src/config.rs]), [Secret.v] ([core/src/secret.rs]; a class of stores
      with laws, an instance, and a round trip through a file).
    - Split tunnelling: [Cidr.v], [AddrText.v] ([core/src/split/cidr.rs] and the
      text of addresses), [Split.v] ([split/config.rs], [split/engine.rs]).
    - Routing: [Domain.v], [Routing.v] ([core/src/routing/]), [Protobuf.v],
      [Geo.v] ([core/src/geo/]).
    - Import: [Base64.v], [Uri.v], [Link.v], [Awg.v], [F64.v], [Json.v],
      [Import.v], [Singbox.v], [Xray.v], [Clash.v], [Subscription.v]
      ([core/src/base64.rs], [util.rs], [json.rs], [parse/]).
    - Names: [FakeIp.v] ([net/src/fakeip.rs]), [Dns.v] ([dns/message.rs]),
      [DnsResolver.v] ([dns/mod.rs]: tasks that share a cache, as a step relation).
    - Engine: [Outbound.v] ([from_profile.rs], the types of [outbound.rs] and the
      configurations they hold), [Engine.v] ([engine.rs]: routing, retries, the
      fallback).
    - Front ends and conversations: [Socks.v] ([inbound.rs], [socks5_connect], the
      codec of [udp.rs]), [UdpAssoc.v] ([udp_associate] as a state machine),
      [HttpText.v], [HttpProxy.v] ([handle_http], [http_connect]), [SubFetch.v]
      ([subscription.rs], the HTTP side).
    - Protocols: [StreamHeaders.v] ([vless.rs], [trojan.rs], addresses of
      Shadowsocks), [AsyncRead.v] ([VlessRespStrip] as a polled reader),
      [TuicProto.v], [Hy2Proto.v], [Reassembly.v], [UdpRelay.v] ([tuic/],
      [hysteria2/]), [VisionPad.v], [TlsRecords.v], [FuzzyTls.v],
      [VisionFilter.v] ([vision/], [buf_reader.rs]),
      [FrameReader.v] (readers of frames and writers of records over the polled
      streams of [AsyncRead.v], which the streams below share),
      [Shadowsocks.v], [SsStream.v], [Ss2022.v], [Ss2022Udp.v] ([shadowsocks/]),
      [VlessXor.v], [VlessEnc.v], [VlessHandshake.v] ([vless_encryption/]),
      [VisionBlocks.v] (what the deframers cut and what blocks say),
      [VisionPlain.v] ([vision/vision_plain_stream.rs]),
      [Obfs.v] ([wireguard/obfs.rs])
    - REALITY: [SlideBuffer.v] ([slide_buffer.rs]), [Aead.v] (ciphers, hashes and
      key exchange as classes with laws, and instances), [RealityRecords.v],
      [RealityKeys.v], [RealityMessages.v] ([reality/], file by file),
      [RealityClient.v] (the client connection: every method, as a state
      machine over its two buffers), [RealityPeer.v] (a server, for the
      theorems), [RealityAuth.v] (what the client has checked), [RealityData.v]
      and [RealityStream.v] (records of data, the asynchronous stream),
      [RealityHandshake.v] (the handshake completes), [RealityPanics.v] (what
      makes it panic), [RealityConfig.v] ([reality_transport.rs] and the
      helpers that read keys and ids); on top of it [VisionStream.v]
      ([vision/vision_stream.rs], every method as a step of a monad over the
      stream and the TCP connection) [VisionWrite.v] (its writing side through
      the three modes) and [VisionRead.v] (its reading side).
    - Commands: [Nodes.v] (nodes and subscriptions), [RuleEdit.v] (rules,
      listeners, the split configuration, the engine of a session), of
      [cli/src/lib.rs],
      [Export.v] (nodes as links and files), [Store.v] (the database and what
      overlapping commands do to it), [Commands.v] (settings, imports, lists for
      the UI), [LocalWg.v] (the local WireGuard server: [wgserver.rs] and its
      commands).

    ** Conventions

    A fallible function returns [res E A]: [Ok], [Err], or [Panic] for an
    unwinding panic, so that the absence of panics is a theorem. Integers are [Z]
    with their bounds and their wrap-around written out; bytes, and the bytes of
    a [String], are [list ascii]; hash maps are [gmap], and where the iteration
    order of a [HashMap] shows it is a parameter. Objects shared between tasks
    are one state of a step relation. Code that is not in the repository (the
    cipher suites, the random source, substring search of [memchr], DPAPI, TOML,
    sockets) is an argument, and what is relied on is a hypothesis or a class of
    laws which an instance satisfies.

    ** What the theorems show

    - Decisions: the split engine follows its priority ladder, local addresses
      are never captured; routing is by the first rule that applies, a
      connection leaves the proxy only by a direct rule, a block rule that cannot
      be checked refuses, the synchronous decision agrees with the asynchronous
      one where no rule needs an unknown address and the target is not a fake
      address (on which it differs), and the engine of a session has a listener's
      node or the default one behind it.
    - Authentication: a REALITY handshake completes, and plaintext is handed
      out, only after a certificate that is coded under the agreed key and a
      signature by its key; a Shadowsocks 2022 stream hands out nothing before a
      header that answers its own request; a datagram of Shadowsocks 2022 is
      received once, and its window is the set of the numbers seen.
    - Delivery: the handshake of REALITY, with a server that groups its messages
      into records in any way, and that of VLESS Encryption end with the same
      keys, and masks, at both ends (the servers are those the protocols
      describe, in [RealityPeer.v] and [VlessHandshake.v]); what is written to a REALITY, Shadowsocks or VLESS
      Encryption stream is what is read, for any calls, any pieces, any buffers
      and any partial writes below; an AmneziaWG packet is unwrapped as the
      WireGuard packet it was; the sliding buffer is a bounded queue.
    - Storage: what is saved is loaded, secrets are protected on disk, exported
      nodes are imported as they were, but for the verification of certificates
      of Shadowsocks, and what goes wrong when commands overlap.
    - Concurrency: at most one DNS query per name is in flight in every
      interleaving, answers are within their lifetime, everybody that waits can
      finish; and if the future of a leader is dropped, nobody does. A UDP
      association serves one client and keeps one session per destination.
    - Round trips: share links, addresses, rules in their edited form, DNS
      messages, SOCKS5 and HTTP conversations of both ends, VLESS headers, TUIC
      and Hysteria2 fragments in any order, Vision blocks under any chunking, TLS
      records, chunked bodies, protected configurations.
    - Refinement: a FakeIP address is routed as its domain, a subscription of any
      kind yields the nodes written into it, the QUIC relays deliver what was
      sent to the flow that sent it.
    - Safety of parsers: no input of the geo readers, of the JSON parser or of the
      deframers panics, and their buffers are bounded.
    - Flaws: the findings of the manifest, each with the theorem or example that
      exhibits it where there is one.

    ** Fuel and bounds

    Recursion that is not structural takes fuel, and each use has a lemma that it
    is enough: [loop] and [loop_no_panic] of this file (a measure that decreases
    along the body), as many steps as bytes for the scanners of [RustStr.v],
    [Utf8.v] and [HttpText.v], as many digits as the logarithm for printing,
    twice the length of the input for [Json.v], three times its length for the
    unpadder ([unpad_terminates]), 260 turns for [VlessRespStrip] (a header has at
    most 257 bytes), the bytes needed and one for [fill] of [FrameReader.v], the
    number of stages and one for the loops over stages (4 and 6), the length of
    the buffer and one for [transform] of [VlessXor.v], the bytes of the key for
    [evp_loop] of [Shadowsocks.v], the answers that TCP has left and two for the
    draining loops of [VisionStream.v], the bytes held by its deframer and one for
    the loops over what it cuts, the bytes that arrive and one for its reading loops. Where the code itself has a limit (redirects, the size of a
    head, waiting rounds) the model has that limit.

    ** Not modelled

    Sockets, TLS sessions, QUIC connections, drivers, the registry and the file
    system: they are calls into other crates and the operating system. Of the
    crates modelled: the tunnels of WireGuard, TUIC and Hysteria2
    and the TUN stack (they drive boringtun, smoltcp and quinn), the accept loop
    and the transparent redirect of [engine.rs], the registry of connections,
    network probes ([urltest.rs], [diagnose.rs]), the generation of test
    certificates, and the platform crate (drivers, registry, DPAPI).
    The desktop shell ([app/src-tauri], [app/ui]) calls the operations of
    [cli/src/lib.rs]; the kernel driver ([wfp-driver]) is in C.

    ** Plan

    What is left that is logic rather than input and output, in order of
    weight: the registry of connections; the rewriting of packets and the IPC encoding of the Windows
    drivers; the flow tables of the TUN stack. *)

From stdpp Require Export base tactics list strings numbers option gmap.
From Stdlib Require Export ZArith Lia Ascii.
From Stdlib Require String.
#[export] Set Default Proof Using "Type".
Open Scope Z_scope.

(** ** Fallible computations

    A Rust function returning [Result<A, E>] is a [res E A]; [Panic] is an
    unwinding panic (an index out of range, an [unwrap] of [None]), kept
    apart so that its absence is a theorem. *)

Inductive res (E A : Type) : Type :=
| Ok (a : A)
| Err (e : E)
| Panic.
Arguments Ok {E A} a.
Arguments Err {E A} e.
Arguments Panic {E A}.

#[export] Instance res_ret E : MRet (res E) := fun A a => Ok a.

#[export] Instance res_bind E : MBind (res E) := fun A B f m =>
  match m with Ok a => f a | Err e => Err e | Panic => Panic end.

#[export] Instance res_fmap E : FMap (res E) := fun A B f m =>
  match m with Ok a => Ok (f a) | Err e => Err e | Panic => Panic end.

(** [opt.ok_or(e)] *)
Definition ok_or {E A} (o : option A) (e : E) : res E A :=
  match o with Some a => Ok a | None => Err e end.

(** [r.map_err(f)] *)
Definition map_err {E F A} (f : E -> F) (r : res E A) : res F A :=
  match r with Ok a => Ok a | Err e => Err (f e) | Panic => Panic end.

(** [r.ok()] *)
Definition res_ok {E A} (r : res E A) : option A :=
  match r with Ok a => Some a | _ => None end.

(** [r.is_ok()] *)
Definition is_ok {E A} (r : res E A) : bool :=
  match r with Ok _ => true | _ => false end.

(** An index expression [v[i]] and [opt.unwrap()]: they panic. *)
Definition unwrap {E A} (o : option A) : res E A :=
  match o with Some a => Ok a | None => Panic end.

Definition no_panic {E A} (r : res E A) : Prop := r <> Panic.

(** A [while] loop whose body continues with [inl] and leaves with [inr]. Out of
    fuel is [Panic], so that the absence of panics also says that the fuel
    chosen is enough. *)
Fixpoint loop {E T A} (fuel : nat) (body : T -> res E (T + A)) (s : T) : res E A :=
  match fuel with
  | O => Panic
  | S f => r ← body s; match r with inl s' => loop f body s' | inr a => Ok a end
  end.

(** ** Bytes

    A [u8] is an [ascii], so a Rust string and its bytes share their
    elements and no range hypothesis is needed on a byte. *)

Abbreviation u8 := Ascii.ascii.
Abbreviation bytes := (list Ascii.ascii).

Definition val8 (b : u8) : Z := Z.of_N (N_of_ascii b).

(** [z as u8]: truncation. *)
Definition to_u8 (z : Z) : u8 := ascii_of_N (Z.to_N (z mod 256)).

(** [x.to_be_bytes()] of an [n]-byte integer. *)
Fixpoint be_bytes (n : nat) (z : Z) : bytes :=
  match n with
  | O => []
  | S k => to_u8 (z / 256 ^ Z.of_nat k) :: be_bytes k z
  end.

(** [uN::from_be_bytes(..)]: most significant byte first. *)
Fixpoint be_value_from (acc : Z) (l : bytes) : Z :=
  match l with
  | [] => acc
  | b :: l' => be_value_from (acc * 256 + val8 b) l'
  end.

Definition be_value (l : bytes) : Z := be_value_from 0 l.

(** [x.to_le_bytes()] and [uN::from_le_bytes(..)]. *)
Definition le_bytes (n : nat) (z : Z) : bytes := reverse (be_bytes n z).
Definition le_value (l : bytes) : Z := be_value (reverse l).

(** [v.is_empty()] *)
Definition is_nil {A} (l : list A) : bool := match l with [] => true | _ => false end.

(** [a[i] ^ b[i]] for every index of both. *)
Definition xor_bytes (a b : bytes) : bytes := zip_with (fun x y => to_u8 (Z.lxor (val8 x) (val8 y))) a b.

(** [&buf[a..b]] when [a <= b <= buf.len()]. *)
Definition slice {A} (a b : nat) (l : list A) : list A := take (b - a) (drop a l).

(** [buf.chunks(n)] *)
Fixpoint chunks_fuel {A} (fuel n : nat) (l : list A) : list (list A) :=
  match fuel, l with
  | _, [] => []
  | O, _ => []
  | S f, _ => take n l :: chunks_fuel f n (drop n l)
  end.

Definition chunks {A} (n : nat) (l : list A) : list (list A) :=
  chunks_fuel (length l) n l.

(** Byte lists written as numbers or as text. *)
Definition of_zs (l : list Z) : bytes := map to_u8 l.

(** A Rust [str] or [String] is its UTF-8 bytes, so [s.as_bytes()] is [s]; a
    string literal is coerced. *)
Abbreviation str := (list Ascii.ascii).
Definition lit (s : String.string) : list Ascii.ascii := String.list_ascii_of_string s.
Coercion lit : String.string >-> list.

Create Rewrite HintDb bytesdb.
Create HintDb resdb.

(** ** Tactics *)

(** Linear arithmetic with quotients and remainders by constants. *)
Ltac dlia := Z.div_mod_to_equations; lia.

(** Destructs the scrutinee of the first [match] of the goal. *)
Ltac case_res :=
  match goal with
  | |- context [match ?x with _ => _ end] => destruct x eqn:?
  end.


(** ** Lemmas on results *)

Lemma Ok_inj {E A} (a b : A) : Ok (E := E) a = Ok b -> a = b.
Proof. by intros [= ->]. Qed.

Lemma ok_bind {E A B} (m : res E A) (f : A -> res E B) b :
  (m ≫= f) = Ok b <-> exists a, m = Ok a /\ f a = Ok b.
Proof.
  destruct m as [a|e|]; cbn; split; [eauto| |discriminate| |discriminate|];
    intros (a' & Ha & Hb); congruence.
Qed.

Lemma no_panic_bind {E A B} (m : res E A) (f : A -> res E B) :
  no_panic m -> (forall a, m = Ok a -> no_panic (f a)) -> no_panic (m ≫= f).
Proof. unfold no_panic. destruct m; cbn; intros; [eauto|discriminate|done]. Qed.

Lemma no_panic_ok {E A} (a : A) : no_panic (E := E) (Ok a).
Proof. discriminate. Qed.

Lemma no_panic_err {E A} (e : E) : no_panic (A := A) (Err e).
Proof. discriminate. Qed.

Lemma no_panic_ok_or {E A} (o : option A) (e : E) : no_panic (ok_or o e).
Proof. destruct o; discriminate. Qed.

Lemma no_panic_map_err {E F A} (f : E -> F) (m : res E A) :
  no_panic m -> no_panic (map_err f m).
Proof. unfold no_panic. destruct m; cbn; [discriminate..|done]. Qed.

(** A loop whose body keeps an invariant and lowers a measure ends. *)
Lemma loop_no_panic {E T A} (body : T -> res E (T + A)) (Inv : T -> Prop) (m : T -> nat) :
  (forall s, Inv s -> no_panic (body s)) ->
  (forall s s', Inv s -> body s = Ok (inl s') -> Inv s' /\ (m s' < m s)%nat) ->
  forall fuel s, Inv s -> (m s < fuel)%nat -> no_panic (loop fuel body s).
Proof.
  intros Hb Hs. induction fuel as [|f IH]; intros s Hi Hm; [lia|]. cbn [loop].
  apply no_panic_bind; [by apply Hb|]. intros [s'|a] E1; [|discriminate].
  destruct (Hs s s' Hi E1). apply IH; [done|lia].
Qed.

(** What holds of the result of a loop. *)
Lemma loop_post {E T A} (body : T -> res E (T + A)) (Inv : T -> Prop) (Post : A -> Prop) :
  (forall s s', Inv s -> body s = Ok (inl s') -> Inv s') ->
  (forall s a, Inv s -> body s = Ok (inr a) -> Post a) ->
  forall fuel s a, Inv s -> loop fuel body s = Ok a -> Post a.
Proof.
  intros Hs Hp. induction fuel as [|f IH]; intros s a Hi H; [done|]. cbn [loop] in H.
  apply ok_bind in H as ([s'|b] & Hb & H); [eauto|]. simplify_eq. eauto.
Qed.

(** More fuel does not change a result. *)
Lemma loop_mono {E T A} (body : T -> res E (T + A)) : forall fuel fuel' s,
  loop fuel body s <> Panic -> (fuel <= fuel')%nat -> loop fuel' body s = loop fuel body s.
Proof.
  induction fuel as [|f IH]; intros fuel' s H Hle; [done|].
  destruct fuel' as [|f']; [lia|]. cbn [loop] in *. destruct (body s) as [[s'|a]| |]; cbn in *; try done.
  apply IH; [done|lia].
Qed.

#[export] Hint Resolve no_panic_ok no_panic_err no_panic_ok_or no_panic_map_err : resdb.

(** ** Lemmas on bytes *)

Lemma val8_range b : 0 <= val8 b < 256.
Proof. unfold val8. pose proof (N_ascii_bounded b). lia. Qed.

Lemma val8_to_u8 z : val8 (to_u8 z) = z mod 256.
Proof.
  unfold val8, to_u8. pose proof (Z.mod_pos_bound z 256 eq_refl).
  rewrite N_ascii_embedding; lia.
Qed.

Lemma to_u8_val8 b : to_u8 (val8 b) = b.
Proof.
  unfold to_u8. rewrite Z.mod_small by apply val8_range.
  unfold val8. rewrite N2Z.id. apply ascii_N_embedding.
Qed.

Lemma val8_inj a b : val8 a = val8 b -> a = b.
Proof. intros H. rewrite <- (to_u8_val8 a), <- (to_u8_val8 b). by f_equal. Qed.

Lemma to_u8_eq z b : z mod 256 = val8 b -> to_u8 z = b.
Proof. intros H. apply val8_inj. by rewrite val8_to_u8. Qed.

Lemma to_u8_mod z w : z mod 256 = w mod 256 -> to_u8 z = to_u8 w.
Proof. intros H. apply val8_inj. by rewrite !val8_to_u8. Qed.

#[export] Hint Rewrite val8_to_u8 to_u8_val8 : bytesdb.

(** Puts the range of every byte of the context within [lia]'s reach. *)
Ltac byte_bounds :=
  repeat match goal with
  | |- context [val8 ?b] =>
      lazymatch goal with H : 0 <= val8 b < 256 |- _ => fail | _ => pose proof (val8_range b) end
  | _ : context [val8 ?b] |- _ =>
      lazymatch goal with H : 0 <= val8 b < 256 |- _ => fail | _ => pose proof (val8_range b) end
  end.
Ltac byte_lia := autorewrite with bytesdb in *; byte_bounds; first [lia | dlia].

Lemma length_be_bytes n z : length (be_bytes n z) = n.
Proof. induction n as [|n IH]; cbn; auto. Qed.

Lemma length_le_bytes n z : length (le_bytes n z) = n.
Proof. unfold le_bytes. by rewrite length_reverse, length_be_bytes. Qed.

Lemma pow256_S k : 256 ^ Z.of_nat (S k) = 256 * 256 ^ Z.of_nat k.
Proof. rewrite Nat2Z.inj_succ, Z.pow_succ_r; lia. Qed.

Lemma pow256_pos k : 0 < 256 ^ Z.of_nat k.
Proof. apply Z.pow_pos_nonneg; lia. Qed.

Lemma be_value_from_add l : forall acc,
  be_value_from acc l = acc * 256 ^ Z.of_nat (length l) + be_value l.
Proof.
  unfold be_value. induction l as [|b l IH]; intros acc; cbn [be_value_from length].
  - rewrite Z.pow_0_r. lia.
  - rewrite IH, (IH (0 * 256 + val8 b)), pow256_S. ring.
Qed.

Lemma be_value_cons b l :
  be_value (b :: l) = val8 b * 256 ^ Z.of_nat (length l) + be_value l.
Proof. unfold be_value at 1. cbn. rewrite be_value_from_add. ring. Qed.

Lemma be_value_nil : be_value [] = 0.
Proof. reflexivity. Qed.

Lemma be_value_range l : 0 <= be_value l < 256 ^ Z.of_nat (length l).
Proof.
  induction l as [|b l IH]; [cbn; lia|].
  rewrite be_value_cons. cbn [length]. rewrite pow256_S.
  pose proof (val8_range b). pose proof (pow256_pos (length l)). nia.
Qed.

Lemma be_value_be_bytes n z : be_value (be_bytes n z) = z mod 256 ^ Z.of_nat n.
Proof.
  induction n as [|n IH].
  - cbn. by rewrite Z.mod_1_r.
  - cbn [be_bytes]. rewrite be_value_cons, IH, val8_to_u8, length_be_bytes, pow256_S.
    pose proof (pow256_pos n) as Hp.
    rewrite (Z.mul_comm 256), Z.rem_mul_r by lia. ring.
Qed.

Lemma be_value_be_bytes_small n z :
  0 <= z < 256 ^ Z.of_nat n -> be_value (be_bytes n z) = z.
Proof. intros. rewrite be_value_be_bytes. by apply Z.mod_small. Qed.

Lemma be_bytes_be_value l : be_bytes (length l) (be_value l) = l.
Proof.
  assert (forall n z w, z mod 256 ^ Z.of_nat n = w mod 256 ^ Z.of_nat n ->
            be_bytes n z = be_bytes n w) as Hmod.
  { induction n as [|n IH]; intros z w H; [done|]. cbn [be_bytes].
    rewrite pow256_S, (Z.mul_comm 256) in H. pose proof (pow256_pos n).
    rewrite !Z.rem_mul_r in H by lia.
    pose proof (Z.mod_pos_bound z (256 ^ Z.of_nat n)). pose proof (Z.mod_pos_bound w (256 ^ Z.of_nat n)).
    assert ((z / 256 ^ Z.of_nat n) mod 256 = (w / 256 ^ Z.of_nat n) mod 256) by nia.
    f_equal; [by apply to_u8_mod | apply IH; nia]. }
  induction l as [|b l IH]; [done|]. cbn [length be_bytes].
  rewrite be_value_cons. pose proof (be_value_range l) as Hr. pose proof (pow256_pos (length l)).
  f_equal.
  - apply to_u8_eq. rewrite Z.div_add_l, Z.div_small by lia.
    rewrite Z.add_0_r, Z.mod_small; [done|apply val8_range].
  - etransitivity; [|exact IH]. apply Hmod. rewrite Z.add_comm, Z.mod_add by lia. done.
Qed.

Lemma le_value_le_bytes_small n z :
  0 <= z < 256 ^ Z.of_nat n -> le_value (le_bytes n z) = z.
Proof. intros. unfold le_value, le_bytes. rewrite reverse_involutive. by apply be_value_be_bytes_small. Qed.

Lemma le_bytes_le_value l : le_bytes (length l) (le_value l) = l.
Proof.
  unfold le_bytes, le_value. rewrite <- length_reverse, be_bytes_be_value.
  apply reverse_involutive.
Qed.

#[export] Hint Rewrite length_be_bytes length_le_bytes : bytesdb.

(** ** Exclusive or of bytes *)

Lemma length_xor_bytes a b : length (xor_bytes a b) = Nat.min (length a) (length b).
Proof. apply length_zip_with. Qed.

Lemma val8_lxor x y : 0 <= Z.lxor (val8 x) (val8 y) < 256.
Proof.
  pose proof (val8_range x). pose proof (val8_range y).
  assert (forall v, 0 <= v < 256 -> Z.log2 v < 8) as Hlog.
  { intros v ?. destruct (Z.eq_dec v 0) as [->|]; [done|]. apply Z.log2_lt_pow2; lia. }
  assert (0 <= Z.lxor (val8 x) (val8 y)) by (apply Z.lxor_nonneg; lia).
  split; [done|]. destruct (Z.eq_dec (Z.lxor (val8 x) (val8 y)) 0) as [->|]; [done|].
  change 256 with (2 ^ 8). apply Z.log2_lt_pow2; [lia|].
  eapply Z.le_lt_trans; [apply Z.log2_lxor; lia|]. apply Z.max_lub_lt; by apply Hlog.
Qed.

(** Xor with the same bytes twice changes nothing; so it loses nothing. *)
Lemma xor_bytes_twice a b : length a = length b -> xor_bytes a (xor_bytes a b) = b.
Proof.
  revert b. induction a as [|x a IH]; intros [|y b] H; try done. injection H as H. cbn. f_equal; [|by apply IH].
  rewrite val8_to_u8, (Z.mod_small _ _ (val8_lxor x y)).
  rewrite <- Z.lxor_assoc, Z.lxor_nilpotent, Z.lxor_0_l. apply to_u8_val8.
Qed.

Lemma xor_bytes_inj a b c : length a = length b -> length a = length c -> xor_bytes a b = xor_bytes a c -> b = c.
Proof. intros Hb Hc H. by rewrite <- (xor_bytes_twice a b Hb), H, xor_bytes_twice. Qed.

(** ** Bit operations as arithmetic *)

Lemma land_shifted_0 a b k : 0 <= k -> 0 <= b < 2 ^ k -> Z.land (a * 2 ^ k) b = 0.
Proof.
  intros Hk Hb. apply Z.bits_inj_0. intros n. rewrite Z.land_spec, <- Z.shiftl_mul_pow2 by lia.
  destruct (Z.ltb_spec n k); [by rewrite Z.shiftl_spec_low by lia|].
  destruct (decide (b = 0)) as [->|Hb0]; [by rewrite Z.testbit_0_l, andb_false_r|].
  rewrite (Z.bits_above_log2 b), andb_false_r; [done|lia|].
  apply (Z.lt_le_trans _ k); [|lia]. apply Z.log2_lt_pow2; lia.
Qed.

(** [(a << k) | b] for [b < 2 ^ k] *)
Lemma lor_add a b k : 0 <= k -> 0 <= b < 2 ^ k -> Z.lor (a * 2 ^ k) b = a * 2 ^ k + b.
Proof.
  intros Hk Hb. pose proof (land_shifted_0 a b k Hk Hb) as H0.
  by rewrite <- Z.lxor_lor, <- Z.add_nocarry_lxor by done.
Qed.

(** ** Lemmas on lists *)

Lemma slice_app_l {A} (l k : list A) n : length l = n -> slice 0 n (l ++ k) = l.
Proof. intros <-. unfold slice. by rewrite Nat.sub_0_r, drop_0, take_app_length. Qed.

Lemma slice_length {A} a b (l : list A) :
  (b <= length l)%nat -> length (slice a b l) = (b - a)%nat.
Proof. intros. unfold slice. rewrite length_take, length_drop. lia. Qed.

Lemma chunks_fuel_concat {A} n : (0 < n)%nat -> forall fuel (l : list A),
  (length l <= fuel)%nat -> concat (chunks_fuel fuel n l) = l.
Proof.
  intros Hn. induction fuel as [|f IH]; intros l Hl.
  - by destruct l; cbn in Hl |- *; [|lia].
  - destruct l as [|x l]; [done|]. cbn [chunks_fuel concat].
    rewrite IH; [apply take_drop|]. rewrite length_drop. cbn in *. lia.
Qed.

Lemma chunks_concat {A} n (l : list A) : (0 < n)%nat -> concat (chunks n l) = l.
Proof. intros. unfold chunks. by apply chunks_fuel_concat. Qed.

Lemma chunks_fuel_bound {A} n : (0 < n)%nat -> forall fuel (l : list A),
  Forall (fun c => (0 < length c <= n)%nat) (chunks_fuel fuel n l).
Proof.
  intros Hn. induction fuel as [|f IH]; intros [|x l]; cbn [chunks_fuel]; constructor; auto.
  rewrite length_take. cbn. lia.
Qed.

Lemma chunks_bound {A} n (l : list A) :
  (0 < n)%nat -> Forall (fun c => (0 < length c <= n)%nat) (chunks n l).
Proof. intros. by apply chunks_fuel_bound. Qed.

Lemma chunks_fuel_length {A} n : (0 < n)%nat -> forall fuel (l : list A),
  (length l <= fuel)%nat -> length (chunks_fuel fuel n l) = ((length l + n - 1) / n)%nat.
Proof.
  intros Hn. induction fuel as [|f IH]; intros l Hl.
  - destruct l; cbn in Hl |- *; [|lia]. rewrite Nat.div_small; lia.
  - destruct l as [|x l]; [cbn; rewrite Nat.div_small; lia|]. cbn [chunks_fuel length].
    rewrite IH by (rewrite length_drop; cbn in *; lia). rewrite length_drop. cbn [length].
    destruct (decide (S (length l) <= n)%nat) as [Hle|Hgt].
    + replace (S (length l) - n)%nat with O by lia.
      rewrite (Nat.div_small (0 + n - 1)) by lia.
      replace (S (length l) + n - 1)%nat with (1 * n + length l)%nat by lia.
      rewrite Nat.div_add_l by lia. rewrite Nat.div_small; lia.
    + replace (S (length l) + n - 1)%nat with (1 * n + (S (length l) - n + n - 1))%nat by lia.
      rewrite Nat.div_add_l by lia. lia.
Qed.

(** [len.div_ceil(n)] is the number of chunks. *)
Lemma chunks_length {A} n (l : list A) :
  (0 < n)%nat -> length (chunks n l) = ((length l + n - 1) / n)%nat.
Proof. intros. by apply chunks_fuel_length. Qed.

Lemma elem_concat_length {A} (c : list A) ls : c ∈ ls -> (length c <= length (concat ls))%nat.
Proof.
  induction ls as [|l ls IH]; intros H; [by apply elem_of_nil in H|].
  cbn. rewrite length_app. apply elem_of_cons in H as [->|H]; [lia|]. specialize (IH H). lia.
Qed.

Lemma imap_map_seq {A B} (h : nat -> A -> B) (g : nat -> A) n : forall s,
  imap (fun i => h (s + i)%nat) (map g (seq s n)) = map (fun j => h j (g j)) (seq s n).
Proof.
  induction n as [|n IH]; intros s; [done|]. cbn [seq map imap]. rewrite Nat.add_0_r. f_equal.
  rewrite <- IH. apply imap_ext. intros i x _. cbn. f_equal. lia.
Qed.
