(* ===== verification/RustStr.v ===== *)
(** * The part of [str] and of integer parsing and printing the sources use

    Definitions of the standard library's string functions over the bytes of a
    string, and their lemmas. An ASCII pattern never matches inside a multi-byte
    UTF-8 sequence, so the byte-level definitions are those of [str]. *)

From S2P Require Import Prelude.

(** [s.strip_prefix(p)], [s.starts_with(p)] *)
Fixpoint strip_prefix (p s : str) : option str :=
  match p, s with
  | [], _ => Some s
  | c :: p', d :: s' => if decide (c = d) then strip_prefix p' s' else None
  | _ :: _, [] => None
  end.

Definition starts_with (p s : str) : bool :=
  match strip_prefix p s with Some _ => true | None => false end.

(** [s.strip_suffix(p)], [s.ends_with(p)] *)
Definition strip_suffix (p s : str) : option str :=
  reverse <$> strip_prefix (reverse p) (reverse s).

Definition ends_with (p s : str) : bool :=
  match strip_suffix p s with Some _ => true | None => false end.

(** [s.find(p)]: index of the first occurrence. *)
Fixpoint find_str (p s : str) : option nat :=
  if starts_with p s then Some O
  else match s with [] => None | _ :: s' => S <$> find_str p s' end.

Definition contains (p s : str) : bool :=
  match find_str p s with Some _ => true | None => false end.

(** [s.find(pred)] and [s.rfind(pred)] for a test on bytes *)
Fixpoint find_byte (f : u8 -> bool) (s : str) : option nat :=
  match s with
  | [] => None
  | c :: s' => if f c then Some O else S <$> find_byte f s'
  end.

Fixpoint rfind_byte (f : u8 -> bool) (s : str) : option nat :=
  match s with
  | [] => None
  | c :: s' =>
      match rfind_byte f s' with
      | Some i => Some (S i)
      | None => if f c then Some O else None
      end
  end.

Definition is_char (c : u8) (d : u8) : bool := bool_decide (c = d).

(** [s.split_once(c)], [s.rsplit_once(c)] *)
Definition split_once (c : u8) (s : str) : option (str * str) :=
  i ← find_byte (is_char c) s; Some (take i s, drop (S i) s).

Definition rsplit_once (c : u8) (s : str) : option (str * str) :=
  i ← rfind_byte (is_char c) s; Some (take i s, drop (S i) s).

(** [s.split(f)]: at least one piece. *)
Fixpoint split_by (f : u8 -> bool) (s : str) : list str :=
  match s with
  | [] => [[]]
  | c :: s' =>
      if f c then [] :: split_by f s'
      else match split_by f s' with
           | [] => [[c]]
           | w :: ws => (c :: w) :: ws
           end
  end.

Definition split_char (c : u8) (s : str) : list str := split_by (is_char c) s.

(** [pieces.join(sep)] *)
Fixpoint join (sep : str) (l : list str) : str :=
  match l with
  | [] => []
  | [w] => w
  | w :: l' => w ++ sep ++ join sep l'
  end.

(** [s.trim_end_matches(c)], [s.trim_start_matches(c)] *)
Fixpoint trim_start_char (c : u8) (s : str) : str :=
  match s with
  | [] => []
  | d :: s' => if decide (c = d) then trim_start_char c s' else s
  end.

Definition trim_end_char (c : u8) (s : str) : str :=
  reverse (trim_start_char c (reverse s)).

(** The characters of the Unicode property White_Space, encoded. *)
Definition whitespace : list str :=
  map of_zs
    ([[9]; [10]; [11]; [12]; [13]; [32]; [194; 133]; [194; 160]; [225; 154; 128]]
     ++ map (fun k => [226; 128; k]) [128; 129; 130; 131; 132; 133; 134; 135; 136; 137; 138; 168; 169; 175]
     ++ [[226; 129; 159]; [227; 128; 128]]).

Fixpoint strip_any (ps : list str) (s : str) : option str :=
  match ps with
  | [] => None
  | p :: ps' => match strip_prefix p s with Some r => Some r | None => strip_any ps' s end
  end.

(** [s.trim_start()], [s.trim_end()], [s.trim()]; each round of the loop
    removes at least one byte, so [length s] rounds are enough. *)
Fixpoint trim_loop (ps : list str) (fuel : nat) (s : str) : str :=
  match fuel with
  | O => s
  | S f => match strip_any ps s with Some r => trim_loop ps f r | None => s end
  end.

Definition trim_start (s : str) : str := trim_loop whitespace (length s) s.
Definition trim_end (s : str) : str :=
  reverse (trim_loop (map reverse whitespace) (length s) (reverse s)).
Definition trim (s : str) : str := trim_end (trim_start s).

(** [s.lines()]: pieces ended by a line feed, which is dropped with the
    carriage return before it; a last empty piece is no line. *)
Definition strip_cr (s : str) : str :=
  match strip_suffix (of_zs [13]) s with Some r => r | None => s end.

Fixpoint lines_of (ps : list str) : list str :=
  match ps with
  | [] => []
  | [p] => match p with [] => [] | _ => [p] end
  | p :: ps' => strip_cr p :: lines_of ps'
  end.

Definition lines (s : str) : list str := lines_of (split_char (to_u8 10) s).

(** [to_ascii_lowercase], [eq_ignore_ascii_case] *)
Definition lower_byte (c : u8) : u8 :=
  if (65 <=? val8 c) && (val8 c <=? 90) then to_u8 (val8 c + 32) else c.

Definition to_ascii_lowercase (s : str) : str := map lower_byte s.

Definition eq_ignore_ascii_case (s t : str) : bool :=
  bool_decide (to_ascii_lowercase s = to_ascii_lowercase t).

(** [s.replace(p, r)] for a non-empty pattern *)
Fixpoint replace_fuel (fuel : nat) (p r s : str) : str :=
  match fuel with
  | O => s
  | S f =>
      match s with
      | [] => []
      | c :: s' =>
          match strip_prefix p s with
          | Some t => r ++ replace_fuel f p r t
          | None => c :: replace_fuel f p r s'
          end
      end
  end.

Definition replace (p r s : str) : str := replace_fuel (S (length s)) p r s.

(** Unsigned decimal integers: [s.parse::<uN>()] accepts one leading [+]. *)
Definition is_digit (c : u8) : bool := (48 <=? val8 c) && (val8 c <=? 57).

Fixpoint parse_digits (max acc : Z) (s : str) : option Z :=
  match s with
  | [] => Some acc
  | c :: s' =>
      if is_digit c then
        let v := acc * 10 + (val8 c - 48) in
        if v <=? max then parse_digits max v s' else None
      else None
  end.

Definition parse_uint (max : Z) (s : str) : option Z :=
  match s with
  | [] => None
  | c :: s' =>
      if decide (c = "+"%char)
      then match s' with [] => None | _ => parse_digits max 0 s' end
      else parse_digits max 0 s
  end.

Definition parse_u8 : str -> option Z := parse_uint 255.
Definition parse_u16 : str -> option Z := parse_uint 65535.

(** [format!("{}", z)] of an unsigned integer *)
Definition digit_char (d : Z) : u8 := to_u8 (48 + d).

Fixpoint show_fuel (fuel : nat) (z : Z) : str :=
  match fuel with
  | O => []
  | S f => if z <? 10 then [digit_char z] else show_fuel f (z / 10) ++ [digit_char (z mod 10)]
  end.

Definition show_uint (z : Z) : str := show_fuel (S (Z.to_nat (Z.log2 z))) z.

(** [format!("{:x}", z)] and [format!("{:02x}", z)] *)
Definition hex_char (d : Z) : u8 := to_u8 (if d <? 10 then 48 + d else 87 + d).

Fixpoint show_hex_fuel (fuel : nat) (z : Z) : str :=
  match fuel with
  | O => []
  | S f => if z <? 16 then [hex_char z] else show_hex_fuel f (z / 16) ++ [hex_char (z mod 16)]
  end.

Definition show_hex (z : Z) : str := show_hex_fuel (S (Z.to_nat (Z.log2 z))) z.
Definition show_hex2 (z : Z) : str :=
  match show_hex z with [d] => "0"%char :: [d] | s => s end.

(** [format!("{:04x}", z)] *)
Definition show_hex4 (z : Z) : str := let s := show_hex z in replicate (4 - length s) "0"%char ++ s.

(** ** Lemmas *)

Lemma strip_prefix_Some p s r : strip_prefix p s = Some r <-> s = p ++ r.
Proof.
  revert s. induction p as [|c p IH]; intros s; cbn; [naive_solver|].
  destruct s as [|d s]; [naive_solver|]. case_decide; [rewrite IH|]; naive_solver.
Qed.

Lemma starts_with_spec p s : starts_with p s = true <-> p `prefix_of` s.
Proof.
  unfold starts_with, prefix. destruct (strip_prefix p s) as [r|] eqn:E.
  - apply strip_prefix_Some in E. naive_solver.
  - split; [done|]. intros [k Hk]. apply strip_prefix_Some in Hk. congruence.
Qed.

Lemma strip_suffix_Some p s r : strip_suffix p s = Some r <-> s = r ++ p.
Proof.
  unfold strip_suffix. rewrite fmap_Some. split.
  - intros (x & Hx & ->). apply strip_prefix_Some in Hx.
    rewrite <- (reverse_involutive s), Hx, reverse_app, reverse_involutive. done.
  - intros ->. exists (reverse r). rewrite reverse_involutive.
    split; [|done]. apply strip_prefix_Some. by rewrite reverse_app.
Qed.

Lemma ends_with_spec p s : ends_with p s = true <-> p `suffix_of` s.
Proof.
  unfold ends_with, suffix. destruct (strip_suffix p s) as [r|] eqn:E.
  - apply strip_suffix_Some in E. naive_solver.
  - split; [done|]. intros [k Hk]. apply strip_suffix_Some in Hk. congruence.
Qed.

Lemma find_byte_Some f s i :
  find_byte f s = Some i ->
  exists a c b, s = a ++ c :: b /\ length a = i /\ f c = true /\ Forall (fun d => f d = false) a.
Proof.
  revert i. induction s as [|c s IH]; intros i; cbn; [done|].
  destruct (f c) eqn:E.
  - intros [= <-]. by exists [], c, s.
  - rewrite fmap_Some. intros (j & Hj & ->). destruct (IH _ Hj) as (a & d & b & -> & <- & ? & ?).
    exists (c :: a), d, b. split_and!; auto.
Qed.

Lemma find_byte_app f a c b :
  Forall (fun d => f d = false) a -> f c = true -> find_byte f (a ++ c :: b) = Some (length a).
Proof.
  intros Ha Hc. induction Ha as [|d a Hd _ IH]; cbn; [by rewrite Hc|]. by rewrite Hd, IH.
Qed.

Lemma find_byte_None f s : find_byte f s = None <-> Forall (fun d => f d = false) s.
Proof.
  split.
  - induction s as [|c s IH]; cbn; [constructor|]. destruct (f c) eqn:E; [done|].
    rewrite fmap_None. auto.
  - induction 1 as [|c s Hc _ IH]; cbn; [done|]. by rewrite Hc, IH.
Qed.

Lemma rfind_byte_app f a c b :
  Forall (fun d => f d = false) b -> f c = true -> rfind_byte f (a ++ c :: b) = Some (length a).
Proof.
  intros Hb Hc.
  assert (rfind_byte f b = None) as Hn.
  { clear -Hb. induction Hb as [|d b Hd _ IH]; cbn; [done|]. by rewrite IH, Hd. }
  induction a as [|d a IH]; cbn; [by rewrite Hn, Hc|]. by rewrite IH.
Qed.

Lemma rfind_byte_None f s : rfind_byte f s = None <-> Forall (fun d => f d = false) s.
Proof.
  split.
  - induction s as [|c s IH]; cbn; [constructor|].
    destruct (rfind_byte f s); [done|]. destruct (f c) eqn:E; [done|]. auto.
  - induction 1 as [|c s Hc _ IH]; cbn; [done|]. by rewrite IH, Hc.
Qed.

Lemma is_char_true c d : is_char c d = true <-> c = d.
Proof. unfold is_char. apply bool_decide_eq_true. Qed.

Lemma is_char_false c d : is_char c d = false <-> c <> d.
Proof. unfold is_char. apply bool_decide_eq_false. Qed.

Lemma Forall_is_char_false c s : c ∉ s -> Forall (fun d => is_char c d = false) s.
Proof. intros H. apply Forall_forall. intros d Hd. apply is_char_false. intros ->. done. Qed.

Lemma drop_S_app {A} (a : list A) c b : drop (S (length a)) (a ++ c :: b) = b.
Proof. induction a; cbn; auto. Qed.

Lemma split_once_app c a b : c ∉ a -> split_once c (a ++ c :: b) = Some (a, b).
Proof.
  intros Ha. unfold split_once.
  rewrite find_byte_app; [|by apply Forall_is_char_false|by apply is_char_true].
  cbn [mbind option_bind]. by rewrite take_app_length, drop_S_app.
Qed.

Lemma split_once_None c s : c ∉ s -> split_once c s = None.
Proof.
  intros H. unfold split_once. by rewrite (proj2 (find_byte_None _ _)) by by apply Forall_is_char_false.
Qed.

Lemma rsplit_once_app c a b : c ∉ b -> rsplit_once c (a ++ c :: b) = Some (a, b).
Proof.
  intros Hb. unfold rsplit_once.
  rewrite rfind_byte_app; [|by apply Forall_is_char_false|by apply is_char_true].
  cbn [mbind option_bind]. by rewrite take_app_length, drop_S_app.
Qed.

Lemma rsplit_once_None c s : c ∉ s -> rsplit_once c s = None.
Proof.
  intros H. unfold rsplit_once. by rewrite (proj2 (rfind_byte_None _ _)) by by apply Forall_is_char_false.
Qed.

Lemma split_by_nonempty f s : split_by f s <> [].
Proof. induction s as [|c s IH]; cbn; [done|]. destruct (f c); [done|]. by destruct (split_by f s). Qed.

Lemma split_char_none c s : c ∉ s -> split_char c s = [s].
Proof.
  unfold split_char. induction s as [|d s IH]; intros H; cbn; [done|].
  apply not_elem_of_cons in H as [Hd Hs]. rewrite (proj2 (is_char_false c d)) by done.
  by rewrite IH.
Qed.

Lemma split_char_app c a b : c ∉ a -> split_char c (a ++ c :: b) = a :: split_char c b.
Proof.
  unfold split_char. induction a as [|d a IH]; intros H; cbn.
  - by rewrite (proj2 (is_char_true c c)).
  - apply not_elem_of_cons in H as [Hd Hs]. rewrite (proj2 (is_char_false c d)) by done.
    by rewrite IH.
Qed.

Lemma lower_byte_idem c : lower_byte (lower_byte c) = lower_byte c.
Proof.
  unfold lower_byte. destruct ((65 <=? val8 c) && (val8 c <=? 90)) eqn:E; rewrite ?E; [|done].
  apply andb_true_iff in E as [?%Z.leb_le ?%Z.leb_le].
  rewrite val8_to_u8, Z.mod_small by lia.
  destruct (Z.leb_spec (val8 c + 32) 90); [lia|]. by rewrite andb_false_r.
Qed.

Lemma to_ascii_lowercase_idem s : to_ascii_lowercase (to_ascii_lowercase s) = to_ascii_lowercase s.
Proof. unfold to_ascii_lowercase. rewrite map_map. apply map_ext, lower_byte_idem. Qed.

Lemma to_ascii_lowercase_app s t :
  to_ascii_lowercase (s ++ t) = to_ascii_lowercase s ++ to_ascii_lowercase t.
Proof. apply map_app. Qed.

(** *** Decimal printing and parsing *)

Lemma is_digit_char d : 0 <= d < 10 -> is_digit (digit_char d) = true /\ val8 (digit_char d) = 48 + d.
Proof.
  intros Hd. unfold is_digit, digit_char. rewrite val8_to_u8, Z.mod_small by lia.
  split; [|done]. apply andb_true_iff. split; apply Z.leb_le; lia.
Qed.

Lemma parse_digits_app max s t : forall acc v,
  parse_digits max acc s = Some v -> parse_digits max acc (s ++ t) = parse_digits max v t.
Proof.
  induction s as [|c s IH]; cbn; intros acc v H; [congruence|].
  destruct (is_digit c); [|done]. destruct (_ <=? max); [|done]. eauto.
Qed.

Lemma show_fuel_parse max : forall fuel z,
  0 <= z <= max -> z < 2 ^ Z.of_nat fuel -> (0 < fuel)%nat ->
  parse_digits max 0 (show_fuel fuel z) = Some z.
Proof.
  induction fuel as [|f IH]; intros z Hz Hf Hpos; [lia|]. cbn [show_fuel].
  destruct (Z.ltb_spec z 10).
  - cbn. destruct (is_digit_char z) as [-> ->]; [lia|].
    rewrite (proj2 (Z.leb_le _ _)) by lia. f_equal. lia.
  - rewrite Nat2Z.inj_succ, Z.pow_succ_r in Hf by lia.
    assert (f <> O) by (intros ->; cbn in Hf; lia).
    erewrite parse_digits_app by (apply IH; [dlia|dlia|lia]). cbn.
    destruct (is_digit_char (z mod 10)) as [-> ->]; [dlia|].
    replace (z / 10 * 10 + (48 + z mod 10 - 48)) with z by dlia.
    by rewrite (proj2 (Z.leb_le _ _)) by lia.
Qed.

Lemma show_fuel_digits : forall fuel z c,
  0 <= z -> c ∈ show_fuel fuel z -> is_digit c = true.
Proof.
  induction fuel as [|f IH]; intros z c Hz; cbn [show_fuel]; [by rewrite elem_of_nil|].
  destruct (Z.ltb_spec z 10).
  - rewrite list_elem_of_singleton. intros ->. by apply is_digit_char.
  - rewrite elem_of_app, list_elem_of_singleton. intros [Hc| ->].
    + eapply IH; [|done]. dlia.
    + apply is_digit_char. dlia.
Qed.

Lemma show_uint_digits z c : 0 <= z -> c ∈ show_uint z -> is_digit c = true.
Proof. apply show_fuel_digits. Qed.

Lemma show_uint_nonempty z : show_uint z <> [].
Proof. unfold show_uint. cbn. destruct (z <? 10); [done|]. by destruct (show_fuel _ _). Qed.

Lemma show_uint_no c z : 0 <= z -> is_digit c = false -> c ∉ show_uint z.
Proof. intros Hz Hc Hin. apply show_uint_digits in Hin; [congruence|done]. Qed.

(** Parsing what was printed: [format!("{n}").parse::<uN>() == Ok(n)]. *)
Lemma parse_show_uint max z : 0 <= z <= max -> parse_uint max (show_uint z) = Some z.
Proof.
  intros Hz. unfold parse_uint.
  assert (parse_digits max 0 (show_uint z) = Some z) as Hp.
  { unfold show_uint. apply show_fuel_parse; [done| |lia].
    rewrite Nat2Z.inj_succ, Z2Nat.id by apply Z.log2_nonneg.
    destruct (decide (z = 0)) as [->|]; [done|]. apply Z.log2_spec. lia. }
  destruct (show_uint z) as [|c s] eqn:E; [by destruct (show_uint_nonempty z)|].
  case_decide as Hc; [|done]. exfalso.
  eapply (show_uint_no c z); [lia| |rewrite E; left]. by subst c.
Qed.

Lemma parse_digits_bound max : forall s acc v,
  0 <= acc <= max -> parse_digits max acc s = Some v -> 0 <= v <= max.
Proof.
  induction s as [|c s IH]; cbn; intros acc v Ha H; [congruence|].
  unfold is_digit in H. destruct ((48 <=? val8 c) && (val8 c <=? 57)) eqn:E; [|done].
  apply andb_true_iff in E as [?%Z.leb_le ?%Z.leb_le].
  destruct (Z.leb_spec (acc * 10 + (val8 c - 48)) max); [|done]. eapply IH; [|done]. lia.
Qed.

(** A parsed [uN] fits its width. *)
Lemma parse_uint_bound max s v : 0 <= max -> parse_uint max s = Some v -> 0 <= v <= max.
Proof.
  intros Hm. unfold parse_uint. destruct s as [|c s]; [done|].
  case_decide; [destruct s; [done|]|]; apply parse_digits_bound; lia.
Qed.

Lemma contains_spec_str p s : contains p s = true <-> exists a b, s = a ++ p ++ b.
Proof.
  assert (forall s, starts_with p s = true <-> exists b, s = p ++ b) as Hsw
    by (intros t; apply starts_with_spec).
  unfold contains. induction s as [|c s IH]; cbn [find_str].
  - destruct (starts_with p []) eqn:E.
    + split; [|done]. intros _. apply Hsw in E as (b & E). by exists [], b.
    + split; [done|]. intros (a & b & Hab). symmetry in Hab. apply app_eq_nil in Hab as [-> Hab].
      by rewrite (proj2 (Hsw []) (ex_intro _ b (eq_sym Hab))) in E.
  - destruct (starts_with p (c :: s)) eqn:E.
    + split; [|done]. intros _. apply Hsw in E as (b & E). by exists [], b.
    + destruct (find_str p s); cbn [fmap option_fmap option_map].
      * split; [|done]. intros _. destruct (proj1 IH eq_refl) as (a & b & ->). by exists (c :: a), b.
      * split; [done|]. intros ([|d a] & b & Hab); cbn in Hab.
        { by rewrite (proj2 (Hsw _) (ex_intro _ b Hab)) in E. }
        simplify_eq. apply IH. eauto.
Qed.

(** Splitting at a character, in general. *)
Lemma split_char_cons c s : split_char c (c :: s) = [] :: split_char c s.
Proof. unfold split_char. cbn. by rewrite (proj2 (is_char_true c c)). Qed.

Lemma split_char_app_gen c a b : split_char c (a ++ c :: b) = split_char c a ++ split_char c b.
Proof.
  induction a as [|d a IH]; [apply split_char_cons|].
  unfold split_char in *. cbn. rewrite IH. destruct (is_char c d); [done|].
  pose proof (split_by_nonempty (is_char c) a). by destruct (split_by (is_char c) a).
Qed.

Lemma join_split_char c s : join [c] (split_char c s) = s.
Proof.
  unfold split_char. induction s as [|d s IH]; [done|]. cbn.
  pose proof (split_by_nonempty (is_char c) s). destruct (split_by (is_char c) s) as [|w l] eqn:E; [done|].
  destruct (is_char c d) eqn:Ec.
  - apply is_char_true in Ec as ->. cbn in IH |- *. by rewrite IH.
  - destruct l; cbn in IH |- *; by rewrite <- IH.
Qed.

Lemma join_app sep l k : l <> [] -> k <> [] -> join sep (l ++ k) = join sep l ++ sep ++ join sep k.
Proof.
  intros Hl Hk. induction l as [|w l IH]; [done|]. destruct l as [|v l].
  - cbn. by destruct k.
  - cbn [app join] in *. rewrite IH by done. by rewrite <- !app_assoc.
Qed.

(** ** Trimming *)

(** Characters from [!] to [~] are not white space. *)
Definition graphic (c : u8) : bool := (33 <=? val8 c) && (val8 c <=? 126).

Definition blank_head (p : str) : bool := match p with [] => false | d :: _ => negb (graphic d) end.

Lemma strip_any_none ps c s : forallb blank_head ps = true -> graphic c = true -> strip_any ps (c :: s) = None.
Proof.
  intros Hps Hc. induction ps as [|p ps IH]; [done|]. cbn [forallb strip_any] in *.
  apply andb_true_iff in Hps as [Hp Hps]. destruct p as [|d p]; [done|]. cbn [strip_prefix].
  rewrite decide_False; [auto|]. intros ->. cbn in Hp. by rewrite Hc in Hp.
Qed.

Lemma trim_loop_none ps fuel c s : forallb blank_head ps = true -> graphic c = true ->
  trim_loop ps fuel (c :: s) = c :: s.
Proof. intros Hps Hc. destruct fuel; [done|]. cbn [trim_loop]. by rewrite strip_any_none. Qed.

Lemma whitespace_heads : forallb blank_head whitespace = true /\ forallb blank_head (map reverse whitespace) = true.
Proof. by vm_compute. Qed.

Lemma trim_start_graphic c s : graphic c = true -> trim_start (c :: s) = c :: s.
Proof. intros H. unfold trim_start. apply trim_loop_none; [apply whitespace_heads|done]. Qed.

Lemma trim_end_graphic c s : graphic c = true -> trim_end (s ++ [c]) = s ++ [c].
Proof.
  intros H. unfold trim_end. rewrite reverse_snoc. rewrite trim_loop_none; [|apply whitespace_heads|done].
  by rewrite reverse_cons, reverse_involutive.
Qed.

(** A text that starts and ends with such characters is left by [trim]. *)
Lemma trim_graphic s : (exists c t, s = c :: t /\ graphic c = true) -> (exists c t, s = t ++ [c] /\ graphic c = true) ->
  trim s = s.
Proof.
  intros (c & t & -> & Hc) (d & u & E & Hd). unfold trim. rewrite trim_start_graphic by done. rewrite E.
  by apply trim_end_graphic.
Qed.

Lemma trim_start_space s : trim_start (" "%char :: s) = trim_start s.
Proof. unfold trim_start. cbn [length trim_loop]. by rewrite (eq_refl : strip_any whitespace (" "%char :: s) = Some s). Qed.

Lemma trim_end_space s : trim_end (s ++ lit " ") = trim_end s.
Proof.
  unfold trim_end. rewrite length_app, Nat.add_comm, reverse_app. 
  change (reverse (lit " ") ++ reverse s) with (" "%char :: reverse s). change (length (lit " ") + length s)%nat with (S (length s)). cbn [trim_loop].
  by rewrite (eq_refl : strip_any (map reverse whitespace) (" "%char :: reverse s) = Some (reverse s)).
Qed.

(** A text with graphic ends. *)
Definition trimmed (s : str) : Prop :=
  (exists c t, s = c :: t /\ graphic c = true) /\ (exists c t, s = t ++ [c] /\ graphic c = true).

Lemma trim_trimmed s : trimmed s -> trim s = s.
Proof. intros [H1 H2]. by apply trim_graphic. Qed.

Lemma trim_space_l s : trimmed s -> trim (" "%char :: s) = s.
Proof. intros H. unfold trim. rewrite trim_start_space. by apply trim_trimmed. Qed.

Lemma trim_space_r s : trimmed s -> trim (s ++ lit " ") = s.
Proof.
  intros H. pose proof H as [(c & t & -> & Hc) _]. unfold trim. cbn [app]. rewrite trim_start_graphic by done.
  change (c :: t ++ lit " ") with ((c :: t) ++ lit " "). rewrite trim_end_space.
  rewrite <- (trim_trimmed _ H) at 2. unfold trim. by rewrite trim_start_graphic.
Qed.

Lemma trimmed_app a b c : trimmed a -> trimmed b -> trimmed (a ++ c ++ b).
Proof.
  intros [(x & t & -> & Hx) _] [_ (y & u & -> & Hy)]. split; [by exists x, (t ++ c ++ u ++ [y])|].
  exists y, ((x :: t) ++ c ++ u). split; [by rewrite <- !app_assoc|done].
Qed.

Lemma all_graphic_trimmed s : s <> [] -> Forall (fun c => graphic c = true) s -> trimmed s.
Proof.
  intros Hne H. split.
  - destruct H as [|c t Hc Ht]; [done|eauto].
  - destruct (exists_last Hne) as (t & c & ->). exists c, t. split; [done|]. apply Forall_app in H as [_ H]. by apply Forall_cons in H as [? _].
Qed.

(** A text is trimmed up to a graphic character of it, and no further. *)
Lemma strip_any_keeps ps s c r : forallb (forallb (fun d => negb (graphic d))) ps = true -> graphic c = true ->
  strip_any ps (s ++ [c]) = Some r -> exists s', r = s' ++ [c].
Proof.
  intros Hps Hc. induction ps as [|p ps IH]; cbn [strip_any forallb] in *; [done|].
  apply andb_true_iff in Hps as [Hp Hps]. destruct (strip_prefix p (s ++ [c])) as [r'|] eqn:E; [|by auto].
  intros [= <-]. apply strip_prefix_Some in E. destruct (decide (r' = [])) as [->|Hn].
  - rewrite app_nil_r in E. exfalso. assert (c ∈ p) as Hin by (rewrite <- E; rewrite elem_of_app; right; left).
    apply list_elem_of_In in Hin. apply (proj1 (List.forallb_forall _ _) Hp) in Hin. by rewrite Hc in Hin.
  - destruct (exists_last Hn) as (s' & d & ->). rewrite app_assoc in E. apply app_inj_tail in E as [_ ->]. by exists s'.
Qed.

Lemma trim_loop_keeps ps c : forallb (forallb (fun d => negb (graphic d))) ps = true -> graphic c = true ->
  forall fuel s, exists s', trim_loop ps fuel (s ++ [c]) = s' ++ [c].
Proof.
  intros Hps Hc. induction fuel as [|fuel IH]; intros s; cbn [trim_loop]; [by exists s|].
  destruct (strip_any ps (s ++ [c])) as [r|] eqn:E; [|by exists s].
  apply strip_any_keeps in E as [s' ->]; [apply IH|done..].
Qed.

Lemma trim_nonempty c s : graphic c = true -> trim (c :: s) <> [].
Proof.
  intros Hc. unfold trim. rewrite trim_start_graphic by done. unfold trim_end. cbn [rev].
  destruct (trim_loop_keeps (map reverse whitespace) c ltac:(by vm_compute) Hc (length (c :: s)) (reverse s)) as [s' E].
  rewrite reverse_cons, E, reverse_snoc. done.
Qed.

(** ** Lines *)

Definition ends_cr (s : str) : bool := ends_with (of_zs [13]) s.

Lemma strip_cr_id s : ends_cr s = false -> strip_cr s = s.
Proof. unfold ends_cr, ends_with, strip_cr. by destruct (strip_suffix _ s). Qed.

(** A text of terminated lines is read line by line. *)
Lemma lines_terminated ls : Forall (fun l => to_u8 10 ∉ l) ls -> Forall (fun l => ends_cr l = false) ls ->
  lines (concat (map (fun l => l ++ [to_u8 10]) ls)) = ls.
Proof.
  intros H1 H2. unfold lines. induction H1 as [|l ls Hl _ IH]; [done|]. apply Forall_cons in H2 as [Hc H2].
  cbn [map concat]. rewrite <- app_assoc. change ([to_u8 10] ++ ?x) with (to_u8 10 :: x). rewrite split_char_app by done.
  specialize (IH H2). pose proof (split_by_nonempty (is_char (to_u8 10)) (concat (map (fun l => l ++ [to_u8 10]) ls))) as Hne.
  fold (split_char (to_u8 10) (concat (map (fun l => l ++ [to_u8 10]) ls))) in Hne.
  destruct (split_char (to_u8 10) (concat (map (fun l => l ++ [to_u8 10]) ls))) as [|w ws]; [done|].
  cbn [lines_of]. f_equal; [by apply strip_cr_id|exact IH].
Qed.

(** ** Lists of pairs with text keys: the first pair of a key counts *)

Definition assoc {A} (l : list (str * A)) (key : str) : option A :=
  '(_, e) ← list_find (fun e : str * A => fst e = key) l; Some (snd e).

(** The pairs that are there, of fields that may be absent. *)
Definition opt_fields {A} (fs : list (str * option A)) : list (str * A) := omap (fun '(k, o) => v ← o; Some (k, v)) fs.

Definition field {A} (fs : list (str * option A)) (key : str) : option A :=
  match list_find (fun e : str * option A => fst e = key) fs with Some (_, (_, o)) => o | None => None end.

Lemma assoc_cons {A} k (v : A) l key : assoc ((k, v) :: l) key = if decide (k = key) then Some v else assoc l key.
Proof.
  unfold assoc. cbn [list_find fst]. destruct (decide (k = key)); [done|]. by destruct (list_find _ l) as [[i e]|].
Qed.

Lemma field_cons {A} k (o : option A) fs key : field ((k, o) :: fs) key = if decide (k = key) then o else field fs key.
Proof.
  unfold field. cbn [list_find fst]. destruct (decide (k = key)); [done|]. by destruct (list_find _ fs) as [[i [k' e]]|].
Qed.

Lemma opt_fields_cons {A} k (o : option A) fs :
  opt_fields ((k, o) :: fs) = match o with Some v => (k, v) :: opt_fields fs | None => opt_fields fs end.
Proof. unfold opt_fields. by destruct o. Qed.

Lemma opt_fields_keys {A} (fs : list (str * option A)) k v : (k, v) ∈ opt_fields fs -> k ∈ map fst fs.
Proof.
  induction fs as [|[k' o] fs IH]; intros Hin; [by apply elem_of_nil in Hin|]. rewrite opt_fields_cons in Hin. cbn [map fst].
  destruct o as [w|]; [|right; auto]. apply elem_of_cons in Hin as [[= -> ->]|Hin]; [by left|right; auto].
Qed.

Lemma assoc_absent {A} (l : list (str * A)) key : (forall v, (key, v) ∉ l) -> assoc l key = None.
Proof.
  induction l as [|[k v] l IH]; intros H; [done|]. rewrite assoc_cons, decide_False.
  - apply IH. intros w Hw. apply (H w). by right.
  - intros ->. apply (H v). by left.
Qed.

Lemma assoc_opt_fields {A} (fs : list (str * option A)) key : NoDup (map fst fs) -> assoc (opt_fields fs) key = field fs key.
Proof.
  induction fs as [|[k o] fs IH]; intros Hnd; [done|]. apply NoDup_cons in Hnd as [Hk Hnd]. specialize (IH Hnd).
  rewrite field_cons, opt_fields_cons. destruct o as [v|]; [by rewrite assoc_cons, IH|]. case_decide as Hd; [|done]. subst key.
  apply assoc_absent. intros v Hv. apply Hk. by eapply opt_fields_keys.
Qed.
