(* ===== verification/Utf8.v ===== *)
(** * UTF-8: [String::from_utf8], [String::from_utf8_lossy], [str::chars]

    The validity table of the standard library (RFC 3629), the replacement of
    each maximal invalid part by U+FFFD, and the decoding into characters. *)

From S2P Require Import Prelude RustStr.

Definition between (a b x : Z) : bool := (a <=? x) && (x <=? b).

Definition is_cont (c : u8) : bool := between 128 191 (val8 c).

(** The bytes allowed after a leading byte of a 3- or 4-byte sequence. *)
Definition second3 (v : Z) (c : u8) : bool :=
  if v =? 224 then between 160 191 (val8 c)
  else if v =? 237 then between 128 159 (val8 c)
  else is_cont c.

Definition second4 (v : Z) (c : u8) : bool :=
  if v =? 240 then between 144 191 (val8 c)
  else if v =? 244 then between 128 143 (val8 c)
  else is_cont c.

(** What a sequence starts with: a character and its length, or an invalid
    part and its length. *)
Inductive utf8_head : Type :=
| Char (cp : Z) (n : nat)
| Bad (n : nat).

Definition low6 (c : u8) : Z := val8 c - 128.

Definition utf8_step (b : u8) (rest : bytes) : utf8_head :=
  let v := val8 b in
  if v <? 128 then Char v 1
  else if between 194 223 v then
    match rest with
    | c :: _ => if is_cont c then Char ((v - 192) * 64 + low6 c) 2 else Bad 1
    | [] => Bad 1
    end
  else if between 224 239 v then
    match rest with
    | c :: rest' =>
        if second3 v c then
          match rest' with
          | d :: _ => if is_cont d then Char ((v - 224) * 4096 + low6 c * 64 + low6 d) 3 else Bad 2
          | [] => Bad 2
          end
        else Bad 1
    | [] => Bad 1
    end
  else if between 240 244 v then
    match rest with
    | c :: rest' =>
        if second4 v c then
          match rest' with
          | d :: rest'' =>
              if is_cont d then
                match rest'' with
                | e :: _ =>
                    if is_cont e
                    then Char ((v - 240) * 262144 + low6 c * 4096 + low6 d * 64 + low6 e) 4
                    else Bad 3
                | [] => Bad 3
                end
              else Bad 2
          | [] => Bad 2
          end
        else Bad 1
    | [] => Bad 1
    end
  else Bad 1.

(** [s.chars()], or [None] where the bytes are not UTF-8. Every step takes at
    least one byte, so [length s] steps are enough. *)
Fixpoint decode_fuel (fuel : nat) (s : bytes) : option (list Z) :=
  match s with
  | [] => Some []
  | b :: rest =>
      match fuel with
      | O => None
      | S f =>
          match utf8_step b rest with
          | Char cp n => cons cp <$> decode_fuel f (drop n s)
          | Bad _ => None
          end
      end
  end.

Definition utf8_decode (s : bytes) : option (list Z) := decode_fuel (length s) s.

Definition utf8_valid (s : bytes) : bool :=
  match utf8_decode s with Some _ => true | None => false end.

(** [String::from_utf8(v)] *)
Definition from_utf8 (s : bytes) : option str := if utf8_valid s then Some s else None.

Definition chars (s : str) : list Z := default [] (utf8_decode s).

Definition replacement : str := of_zs [239; 191; 189].

Fixpoint lossy_fuel (fuel : nat) (s : bytes) : str :=
  match s with
  | [] => []
  | b :: rest =>
      match fuel with
      | O => []
      | S f =>
          match utf8_step b rest with
          | Char _ n => take n s ++ lossy_fuel f (drop n s)
          | Bad n => replacement ++ lossy_fuel f (drop n s)
          end
      end
  end.

(** [String::from_utf8_lossy(v).into_owned()] *)
Definition from_utf8_lossy (s : bytes) : str := lossy_fuel (length s) s.

(** A Unicode scalar value, and [String::push(c)]'s encoding of it. *)
Definition is_scalar (c : Z) : bool := between 0 55295 c || between 57344 1114111 c.

Definition encode_char (c : Z) : str :=
  if c <? 128 then of_zs [c]
  else if c <? 2048 then of_zs [192 + c / 64; 128 + c mod 64]
  else if c <? 65536 then of_zs [224 + c / 4096; 128 + c / 64 mod 64; 128 + c mod 64]
  else of_zs [240 + c / 262144; 128 + c / 4096 mod 64; 128 + c / 64 mod 64; 128 + c mod 64].

Definition encode_chars (l : list Z) : str := concat (map encode_char l).

(** ** Lemmas *)

Lemma between_true a b x : between a b x = true <-> a <= x <= b.
Proof. unfold between. rewrite andb_true_iff, !Z.leb_le. done. Qed.

Lemma between_false a b x : between a b x = false <-> x < a \/ b < x.
Proof. unfold between. rewrite andb_false_iff, !Z.leb_gt. done. Qed.

Ltac btw := rewrite ?between_true, ?between_false, ?Z.ltb_lt, ?Z.ltb_ge, ?Z.eqb_eq, ?Z.eqb_neq in *.

Definition head_len (h : utf8_head) : nat := match h with Char _ n => n | Bad n => n end.

Lemma utf8_step_len b rest :
  (1 <= head_len (utf8_step b rest) <= length (b :: rest))%nat.
Proof.
  unfold utf8_step. repeat (case_match; cbn [head_len length]; try lia).
Qed.

Lemma utf8_step_char_app b rest t cp n :
  utf8_step b rest = Char cp n -> utf8_step b (rest ++ t) = Char cp n.
Proof.
  unfold utf8_step. repeat (case_match; cbn; try done).
Qed.

Lemma decode_fuel_app : forall f1 f2 s t cs ds,
  decode_fuel f1 s = Some cs -> decode_fuel f2 t = Some ds ->
  exists f, (f <= f1 + f2)%nat /\ decode_fuel f (s ++ t) = Some (cs ++ ds).
Proof.
  induction f1 as [|f1 IH]; intros f2 s t cs ds Hs Ht.
  - destruct s; cbn in Hs; [|done]. simplify_eq. exists f2. auto with lia.
  - destruct s as [|b rest]; cbn [decode_fuel] in Hs; [simplify_eq; exists f2; auto with lia|].
    destruct (utf8_step b rest) as [cp n|] eqn:E; [|done].
    apply fmap_Some in Hs as (cs' & Hs & ->).
    destruct (IH _ _ _ _ _ Hs Ht) as (f & Hf & Hd). exists (S f). split; [lia|].
    cbn [decode_fuel app]. rewrite (utf8_step_char_app _ _ _ _ _ E).
    pose proof (utf8_step_len b rest) as Hl. rewrite E in Hl. cbn [head_len] in Hl.
    change (b :: rest ++ t) with ((b :: rest) ++ t). rewrite drop_app_le by lia.
    rewrite Hd. done.
Qed.

Lemma decode_fuel_mono : forall f s cs f',
  decode_fuel f s = Some cs -> (f <= f')%nat -> decode_fuel f' s = Some cs.
Proof.
  induction f as [|f IH]; intros s cs f' H Hle.
  - destruct s; cbn in H; [|done]. by destruct f'.
  - destruct s as [|b rest]; [by destruct f'|]. destruct f' as [|f']; [lia|].
    cbn [decode_fuel] in *. destruct (utf8_step b rest); [|done].
    apply fmap_Some in H as (cs' & H & ->). rewrite (IH _ _ f' H); [done|lia].
Qed.

Lemma decode_fuel_enough : forall f s, (length s <= f)%nat -> decode_fuel f s = utf8_decode s.
Proof.
  unfold utf8_decode.
  assert (forall f g s, (length s <= f)%nat -> (length s <= g)%nat ->
    decode_fuel f s = decode_fuel g s) as H.
  { induction f as [|f IH]; intros g s Hf Hg.
    - destruct s; cbn in Hf; [|lia]. by destruct g.
    - destruct s as [|b rest]; [by destruct g|]. destruct g as [|g]; [cbn in Hg; lia|].
      cbn [decode_fuel]. pose proof (utf8_step_len b rest) as Hl.
      destruct (utf8_step b rest) as [cp n|]; [|done]. cbn [head_len] in Hl.
      rewrite (IH g); [done|..]; rewrite length_drop; cbn [length] in *; lia. }
  intros. by apply H.
Qed.

Lemma utf8_decode_app s t cs ds :
  utf8_decode s = Some cs -> utf8_decode t = Some ds -> utf8_decode (s ++ t) = Some (cs ++ ds).
Proof.
  intros Hs Ht. destruct (decode_fuel_app _ _ _ _ _ _ Hs Ht) as (f & Hf & Hd).
  unfold utf8_decode. rewrite length_app. by eapply decode_fuel_mono.
Qed.

Lemma utf8_valid_app s t : utf8_valid s = true -> utf8_valid t = true -> utf8_valid (s ++ t) = true.
Proof.
  unfold utf8_valid. destruct (utf8_decode s) eqn:Hs; [|done].
  destruct (utf8_decode t) eqn:Ht; [|done]. by erewrite utf8_decode_app.
Qed.

Lemma utf8_valid_concat l : Forall (fun s => utf8_valid s = true) l -> utf8_valid (concat l) = true.
Proof. induction 1; cbn; [done|]. by apply utf8_valid_app. Qed.

Lemma decode_one b rest cp :
  utf8_step b rest = Char cp (S (length rest)) -> utf8_decode (b :: rest) = Some [cp].
Proof.
  intros H. unfold utf8_decode. cbn [length decode_fuel]. rewrite H.
  cbn [drop]. rewrite drop_all. by destruct (length rest).
Qed.

Lemma btw_dec a b x : {between a b x = true /\ a <= x <= b} + {between a b x = false /\ (x < a \/ b < x)}.
Proof. destruct (between a b x) eqn:E; [left|right]; split; auto; by btw. Qed.

Lemma is_cont_bits z : 0 <= z < 64 -> is_cont (to_u8 (128 + z)) = true /\ low6 (to_u8 (128 + z)) = z.
Proof.
  intros Hz. unfold is_cont, low6. rewrite val8_to_u8, Z.mod_small by lia. split; [btw|]; lia.
Qed.

Lemma step2 h l : 2 <= h < 32 -> 0 <= l < 64 ->
  utf8_step (to_u8 (192 + h)) [to_u8 (128 + l)] = Char (h * 64 + l) 2.
Proof.
  intros Hh Hl. destruct (is_cont_bits l Hl) as [Hc Hv]. unfold utf8_step.
  rewrite val8_to_u8, Z.mod_small, Hc, Hv by lia.
  rewrite (proj2 (Z.ltb_ge _ _)), (proj2 (between_true 194 223 _)) by lia.
  f_equal. lia.
Qed.

Lemma step3 h m l : 0 <= h < 16 -> 0 <= m < 64 -> 0 <= l < 64 ->
  (h = 0 -> 32 <= m) -> (h = 13 -> m < 32) ->
  utf8_step (to_u8 (224 + h)) [to_u8 (128 + m); to_u8 (128 + l)] = Char (h * 4096 + m * 64 + l) 3.
Proof.
  intros Hh Hm Hl H0 H13. destruct (is_cont_bits l Hl) as [Hc Hv].
  destruct (is_cont_bits m Hm) as [Hcm Hvm]. unfold utf8_step.
  rewrite val8_to_u8, Z.mod_small, Hc, Hv, Hvm by lia.
  rewrite (proj2 (Z.ltb_ge _ _)), (proj2 (between_false 194 223 _)), (proj2 (between_true 224 239 _)) by lia.
  assert (second3 (224 + h) (to_u8 (128 + m)) = true) as ->; [|f_equal; lia].
  unfold second3. rewrite Hcm, val8_to_u8, Z.mod_small by lia.
  destruct (Z.eqb_spec (224 + h) 224); [btw; lia|]. destruct (Z.eqb_spec (224 + h) 237); [btw; lia|done].
Qed.

Lemma step4 h n m l : 0 <= h < 5 -> 0 <= n < 64 -> 0 <= m < 64 -> 0 <= l < 64 ->
  (h = 0 -> 16 <= n) -> (h = 4 -> n < 16) ->
  utf8_step (to_u8 (240 + h)) [to_u8 (128 + n); to_u8 (128 + m); to_u8 (128 + l)]
  = Char (h * 262144 + n * 4096 + m * 64 + l) 4.
Proof.
  intros Hh Hn Hm Hl H0 H4. destruct (is_cont_bits l Hl) as [Hc Hv].
  destruct (is_cont_bits m Hm) as [Hcm Hvm]. destruct (is_cont_bits n Hn) as [Hcn Hvn]. unfold utf8_step.
  rewrite val8_to_u8, Z.mod_small, Hc, Hv, Hvm, Hvn, Hcm by lia.
  rewrite (proj2 (Z.ltb_ge _ _)), (proj2 (between_false 194 223 _)), (proj2 (between_false 224 239 _)),
    (proj2 (between_true 240 244 _)) by lia.
  assert (second4 (240 + h) (to_u8 (128 + n)) = true) as ->; [|f_equal; lia].
  unfold second4. rewrite Hcn, val8_to_u8, Z.mod_small by lia.
  destruct (Z.eqb_spec (240 + h) 240); [btw; lia|]. destruct (Z.eqb_spec (240 + h) 244); [btw; lia|done].
Qed.

(** A single character is decoded from its encoding. *)
Lemma encode_char_decode c : is_scalar c = true -> utf8_decode (encode_char c) = Some [c].
Proof.
  intros Hc. unfold is_scalar in Hc. apply orb_true_iff in Hc. rewrite !between_true in Hc.
  unfold encode_char, of_zs.
  destruct (Z.ltb_spec c 128); [|destruct (Z.ltb_spec c 2048); [|destruct (Z.ltb_spec c 65536)]];
    cbn [map]; apply decode_one; cbn [length].
  - unfold utf8_step. rewrite val8_to_u8, Z.mod_small, (proj2 (Z.ltb_lt _ _)) by lia. done.
  - rewrite step2 by dlia. f_equal. dlia.
  - rewrite step3 by dlia. f_equal. dlia.
  - rewrite step4 by dlia. f_equal. dlia.
Qed.

Lemma encode_char_valid c : is_scalar c = true -> utf8_valid (encode_char c) = true.
Proof. intros. unfold utf8_valid. by rewrite encode_char_decode. Qed.

(** Decoding the encoding of a string of scalar values gives it back. *)
Lemma encode_chars_decode l :
  Forall (fun c => is_scalar c = true) l -> utf8_decode (encode_chars l) = Some l.
Proof.
  induction 1 as [|c l Hc _ IH]; [done|]. unfold encode_chars. cbn.
  by apply (utf8_decode_app _ _ [c] l); [apply encode_char_decode|].
Qed.

Lemma chars_encode_chars l :
  Forall (fun c => is_scalar c = true) l -> chars (encode_chars l) = l.
Proof. intros H. unfold chars. by rewrite encode_chars_decode. Qed.

Lemma utf8_valid_cons c s : val8 c < 128 -> utf8_valid s = true -> utf8_valid (c :: s) = true.
Proof.
  intros Hc Hs. apply (utf8_valid_app [c] s); [|done].
  unfold utf8_valid. erewrite decode_one; [done|]. unfold utf8_step.
  by rewrite (proj2 (Z.ltb_lt _ _)) by done.
Qed.

Lemma ascii_valid s : Forall (fun c => val8 c < 128) s -> utf8_valid s = true.
Proof. induction 1; [done|]. by apply utf8_valid_cons. Qed.

(** A character's bytes are valid on their own. *)
Lemma step_take_valid b rest cp n :
  utf8_step b rest = Char cp n -> utf8_valid (take n (b :: rest)) = true.
Proof.
  intros H. pose proof (utf8_step_len b rest) as Hl. rewrite H in Hl. cbn [head_len] in Hl.
  destruct n as [|n]; [lia|]. cbn [take]. unfold utf8_valid.
  enough (utf8_step b (take n rest) = Char cp (S (length (take n rest)))) as Hs
    by by rewrite (decode_one _ _ _ Hs).
  rewrite length_take, Nat.min_l by (cbn in Hl; lia). clear Hl. revert H.
  unfold utf8_step. destruct (val8 b <? 128); [done|]. destruct (between 194 223 (val8 b)).
  { destruct rest as [|c rest]; [done|]. destruct (is_cont c) eqn:Hc; [|done].
    intros [= <- <-]. cbn. by rewrite Hc. }
  destruct (between 224 239 (val8 b)).
  { destruct rest as [|c [|d rest]]; try (by repeat case_match).
    destruct (second3 (val8 b) c) eqn:Hc; [|done]. destruct (is_cont d) eqn:Hd; [|done].
    intros [= <- <-]. cbn. by rewrite Hc, Hd. }
  destruct (between 240 244 (val8 b)); [|done].
  destruct rest as [|c [|d [|e rest]]]; try (by repeat case_match).
  destruct (second4 (val8 b) c) eqn:Hc; [|done]. destruct (is_cont d) eqn:Hd; [|done].
  destruct (is_cont e) eqn:He; [|done]. intros [= <- <-]. cbn. by rewrite Hc, Hd, He.
Qed.

(** The output of [from_utf8_lossy] is always UTF-8. *)
Lemma lossy_valid s : utf8_valid (from_utf8_lossy s) = true.
Proof.
  unfold from_utf8_lossy. generalize (length s). intros f. revert s.
  induction f as [|f IH]; intros [|b rest]; try done. cbn [lossy_fuel].
  destruct (utf8_step b rest) as [cp n|n] eqn:E; apply utf8_valid_app; auto.
  by eapply step_take_valid.
Qed.

(** On UTF-8 input it is the identity. *)
Lemma lossy_id s : utf8_valid s = true -> from_utf8_lossy s = s.
Proof.
  unfold utf8_valid, utf8_decode, from_utf8_lossy. generalize (length s). intros f. revert s.
  induction f as [|f IH]; intros [|b rest]; try done. cbn [lossy_fuel decode_fuel].
  destruct (utf8_step b rest) as [cp n|n]; [|done].
  destruct (decode_fuel f _) eqn:E; [|done]. intros _. rewrite IH by by rewrite E.
  apply (take_drop n (b :: rest)).
Qed.

#[export] Hint Resolve lossy_valid encode_char_valid utf8_valid_app : resdb.
