(* ===== verification/NetAddr.v ===== *)
(** * [std::net]: IP and socket addresses, their parsing and printing *)

From S2P Require Import Prelude RustStr.

(** An address is the unsigned integer of its octets, most significant first:
    32 bits for IPv4 and 128 bits for IPv6. *)
Inductive IpAddr : Type :=
| V4 (a : Z)
| V6 (a : Z).

#[export] Instance IpAddr_eq_dec : EqDecision IpAddr.
Proof. solve_decision. Defined.

Definition is_ipv4 (ip : IpAddr) : bool := match ip with V4 _ => true | V6 _ => false end.

(** The width of the address family, and the invariant of the type. *)
Definition ip_width (ip : IpAddr) : Z := if is_ipv4 ip then 32 else 128.
Definition ip_bits (ip : IpAddr) : Z := match ip with V4 a => a | V6 a => a end.
Definition ip_ok (ip : IpAddr) : Prop := 0 <= ip_bits ip < 2 ^ ip_width ip.

(** The octets in network order, and [IpAddr::from(octets)]. *)
Definition ip_octets (ip : IpAddr) : bytes :=
  match ip with V4 a => be_bytes 4 a | V6 a => be_bytes 16 a end.

Definition v4_of_octets (l : bytes) : IpAddr := V4 (be_value l).
Definition v6_of_octets (l : bytes) : IpAddr := V6 (be_value l).

(** [SocketAddr::from((ip, port))]: no flow information, no scope. *)
Record SocketAddr : Type := { sa_ip : IpAddr; sa_port : Z }.

#[export] Instance SocketAddr_eq_dec : EqDecision SocketAddr.
Proof. solve_decision. Defined.

(** ** Parsing (the standard library's [Parser]) *)

Definition hex_digit (c : u8) : option Z :=
  let v := val8 c in
  if (48 <=? v) && (v <=? 57) then Some (v - 48)
  else if (97 <=? v) && (v <=? 102) then Some (v - 87)
  else if (65 <=? v) && (v <=? 70) then Some (v - 55)
  else None.

Definition to_digit (radix : Z) (c : u8) : option Z :=
  match hex_digit c with
  | Some d => if d <? radix then Some d else None
  | None => None
  end.

(** [read_number]: the digits read so far in [n], with value [acc]. *)
Fixpoint read_digits (radix : Z) (max_digits n : nat) (acc : Z) (s : str)
  : option (nat * Z * str) :=
  match s with
  | [] => Some (n, acc, [])
  | c :: s' =>
      match to_digit radix c with
      | None => Some (n, acc, s)
      | Some d =>
          if (max_digits <? S n)%nat then None
          else read_digits radix max_digits (S n) (acc * radix + d) s'
      end
  end.

Definition read_number (radix : Z) (max_digits : nat) (allow_zero_prefix : bool) (max : Z) (s : str)
  : option (Z * str) :=
  '(n, v, r) ← read_digits radix max_digits O 0 s;
  if (n =? 0)%nat then None
  else if negb allow_zero_prefix && starts_with "0" s && (1 <? n)%nat then None
  else if v <=? max then Some (v, r) else None.

Definition read_octet : str -> option (Z * str) := read_number 10 3 false 255.

Definition read_ipv4 (s : str) : option (Z * str) :=
  '(a, s) ← read_octet s;
  s ← strip_prefix "." s; '(b, s) ← read_octet s;
  s ← strip_prefix "." s; '(c, s) ← read_octet s;
  s ← strip_prefix "." s; '(d, s) ← read_octet s;
  Some (((a * 256 + b) * 256 + c) * 256 + d, s).

(** [read_separator(':', i, inner)] *)
Definition with_colon {A} (i : nat) (p : str -> option (A * str)) (s : str) : option (A * str) :=
  match i with O => p s | S _ => s ← strip_prefix ":" s; p s end.

(** [read_groups] over [limit] slots, [i] of them read: the groups read and
    whether an embedded IPv4 address ended them. *)
Fixpoint read_groups (left i : nat) (s : str) : list Z * bool * str :=
  match left with
  | O => ([], false, s)
  | S left' =>
      let group :=
        match with_colon i (read_number 16 4 true 65535) s with
        | Some (g, s') => let '(gs, v4, r) := read_groups left' (S i) s' in (g :: gs, v4, r)
        | None => ([], false, s)
        end in
      match left' with
      | O => group
      | S _ =>
          match with_colon i read_ipv4 s with
          | Some (a, s') => ([a / 65536; a mod 65536], true, s')
          | None => group
          end
      end
  end.

Definition of_groups (l : list Z) : Z := fold_left (fun acc g => acc * 65536 + g) l 0.

Definition read_ipv6 (s : str) : option (Z * str) :=
  let '(head, head_v4, s1) := read_groups 8 0 s in
  if (length head =? 8)%nat then Some (of_groups head, s1)
  else if head_v4 then None
  else
    s2 ← strip_prefix "::" s1;
    let '(tail, _, s3) := read_groups (7 - length head) 0 s2 in
    Some (of_groups (head ++ replicate (8 - length head - length tail) 0 ++ tail), s3).

(** [s.parse::<IpAddr>().ok()] *)
Definition parse_ip (s : str) : option IpAddr :=
  match read_ipv4 s with
  | Some (a, r) => match r with [] => Some (V4 a) | _ => None end
  | None =>
      match read_ipv6 s with
      | Some (a, []) => Some (V6 a)
      | _ => None
      end
  end.

(** ** Printing *)

Definition show_v4 (a : Z) : str :=
  show_uint (a / 16777216 mod 256) ++ "." ++ show_uint (a / 65536 mod 256) ++ "."
  ++ show_uint (a / 256 mod 256) ++ "." ++ show_uint (a mod 256).

Fixpoint groups_of (n : nat) (a : Z) : list Z :=
  match n with O => [] | S k => a / 65536 ^ Z.of_nat k mod 65536 :: groups_of k a end.

(** The first longest run of zero groups: start and length. *)
Fixpoint zero_run (i cs cl bs bl : nat) (l : list Z) : nat * nat :=
  match l with
  | [] => (bs, bl)
  | g :: l' =>
      if g =? 0 then
        let cs' := if (cl =? 0)%nat then i else cs in
        let cl' := S cl in
        if (bl <? cl')%nat then zero_run (S i) cs' cl' cs' cl' l' else zero_run (S i) cs' cl' bs bl l'
      else zero_run (S i) O O bs bl l'
  end.

Definition show_groups (l : list Z) : str := join ":" (map show_hex l).

Definition show_v6 (a : Z) : str :=
  if a / 2 ^ 32 =? 65535 then "::ffff:" ++ show_v4 (a mod 2 ^ 32)
  else
    let gs := groups_of 8 a in
    let '(start, len) := zero_run 0 0 0 0 0 gs in
    if (1 <? len)%nat
    then show_groups (take start gs) ++ "::" ++ show_groups (drop (start + len) gs)
    else show_groups gs.

Definition show_ip (ip : IpAddr) : str := match ip with V4 a => show_v4 a | V6 a => show_v6 a end.

Definition show_socket (a : SocketAddr) : str :=
  match sa_ip a with
  | V4 x => show_v4 x ++ ":" ++ show_uint (sa_port a)
  | V6 x => "[" ++ show_v6 x ++ "]:" ++ show_uint (sa_port a)
  end.

(** ** Lemmas *)

Lemma v4_octets a : 0 <= a < 2 ^ 32 -> v4_of_octets (be_bytes 4 a) = V4 a.
Proof. intros. unfold v4_of_octets. rewrite be_value_be_bytes_small; [done|]. done. Qed.

Lemma v6_octets a : 0 <= a < 2 ^ 128 -> v6_of_octets (be_bytes 16 a) = V6 a.
Proof. intros. unfold v6_of_octets. rewrite be_value_be_bytes_small; [done|]. done. Qed.

Lemma v4_of_octets_ok l : length l = 4%nat -> ip_ok (v4_of_octets l).
Proof. intros H. pose proof (be_value_range l) as Hr. rewrite H in Hr. exact Hr. Qed.

Lemma v6_of_octets_ok l : length l = 16%nat -> ip_ok (v6_of_octets l).
Proof. intros H. pose proof (be_value_range l) as Hr. rewrite H in Hr. exact Hr. Qed.

Lemma length_ip_octets ip : length (ip_octets ip) = if is_ipv4 ip then 4%nat else 16%nat.
Proof. destruct ip; cbn -[be_bytes]; apply length_be_bytes. Qed.

Lemma hex_digit_range c d : hex_digit c = Some d -> 0 <= d < 16.
Proof.
  unfold hex_digit. intros H.
  repeat match type of H with (if ?b && ?c then _ else _) = _ =>
    destruct (b && c) eqn:E; [apply andb_true_iff in E as [?%Z.leb_le ?%Z.leb_le]; simplify_eq; lia|];
    clear E end.
  done.
Qed.

Lemma to_digit_range r c d : to_digit r c = Some d -> 0 <= d < r.
Proof.
  unfold to_digit. destruct (hex_digit c) eqn:E; [|done].
  destruct (Z.ltb_spec z r); [|done]. intros [= <-]. apply hex_digit_range in E. lia.
Qed.

Lemma read_digits_nonneg r md : 0 < r -> forall s n acc k v t,
  0 <= acc -> read_digits r md n acc s = Some (k, v, t) -> 0 <= v.
Proof.
  intros Hr. induction s as [|c s IH]; cbn; intros n acc k v t Ha H; [congruence|].
  destruct (to_digit r c) as [d|] eqn:E; [|congruence].
  destruct (_ <=? _)%nat; [done|]. apply to_digit_range in E. eapply IH; [|done]. nia.
Qed.

Lemma read_number_range r md z max s v t : 0 < r ->
  read_number r md z max s = Some (v, t) -> 0 <= v <= max.
Proof.
  unfold read_number. intros Hr H. destruct (read_digits r md 0 0 s) as [[[k w] u]|] eqn:E; [|done].
  cbn in H. destruct (k =? 0)%nat; [done|]. destruct (_ && _); [done|].
  destruct (Z.leb_spec w max); [|done]. simplify_eq.
  apply read_digits_nonneg in E; lia.
Qed.

Lemma read_ipv4_range s a r : read_ipv4 s = Some (a, r) -> 0 <= a < 2 ^ 32.
Proof.
  unfold read_ipv4. intros H.
  repeat match type of H with
  | (read_octet ?x ≫= _) = _ =>
      destruct (read_octet x) as [[? ?]|] eqn:?; [|done]; cbn [mbind option_bind] in H
  | (strip_prefix ?p ?x ≫= _) = _ =>
      destruct (strip_prefix p x) as [?|] eqn:?; [|done]; cbn [mbind option_bind] in H
  end.
  repeat match goal with Hn : read_octet _ = Some _ |- _ =>
    apply read_number_range in Hn; [|lia] end.
  simplify_eq. lia.
Qed.

Lemma of_groups_snoc l : forall acc, 0 <= acc -> Forall (fun g => 0 <= g < 65536) l ->
  acc * 65536 ^ Z.of_nat (length l) <= fold_left (fun acc g => acc * 65536 + g) l acc
    < (acc + 1) * 65536 ^ Z.of_nat (length l).
Proof.
  induction l as [|g l IH]; intros acc Ha Hl; cbn [fold_left length]; [lia|].
  inversion Hl; subst. specialize (IH (acc * 65536 + g) ltac:(lia) H2).
  rewrite Nat2Z.inj_succ, Z.pow_succ_r by lia.
  assert (0 < 65536 ^ Z.of_nat (length l)) by (apply Z.pow_pos_nonneg; lia). nia.
Qed.

Lemma with_colon_inv {A} i (p : str -> option (A * str)) s r :
  with_colon i p s = Some r -> exists x, p x = Some r.
Proof.
  unfold with_colon. destruct i; [eauto|]. destruct (strip_prefix ":" s); [|done].
  cbn [mbind option_bind]. eauto.
Qed.

Lemma read_groups_range : forall left i s gs v4 r,
  read_groups left i s = (gs, v4, r) ->
  Forall (fun g => 0 <= g < 65536) gs /\ (length gs <= left)%nat.
Proof.
  induction left as [|left IH]; intros i s gs v4 r H; [cbn in H; by simplify_eq|].
  cbn [read_groups] in H.
  assert (forall gs v4 r,
    match with_colon i (read_number 16 4 true 65535) s with
    | Some (g, s') => let '(gs, v4, r) := read_groups left (S i) s' in (g :: gs, v4, r)
    | None => ([], false, s)
    end = (gs, v4, r) -> Forall (fun g => 0 <= g < 65536) gs /\ (length gs <= S left)%nat) as Hg.
  { clear H gs v4 r. intros gs v4 r H. destruct (with_colon _ _ s) as [[g s']|] eqn:E.
    - destruct (read_groups left (S i) s') as [[gs' v4'] r'] eqn:E'. simplify_eq.
      apply IH in E' as [HF Hl]. cbn. split; [|lia]. constructor; [|done].
      apply with_colon_inv in E as [x Hx].
      apply read_number_range in Hx; lia.
    - simplify_eq. cbn. split; [constructor|lia]. }
  destruct left as [|left]; [eauto|].
  destruct (with_colon i read_ipv4 s) as [[a s']|] eqn:E; [|eauto]. simplify_eq.
  apply with_colon_inv in E as [x Hx].
  apply read_ipv4_range in Hx. split; [|cbn; lia].
  repeat constructor; dlia.
Qed.

(** Whatever [parse] accepts is an address of its family's width. *)
Lemma parse_ip_ok s ip : parse_ip s = Some ip -> ip_ok ip.
Proof.
  unfold parse_ip. destruct (read_ipv4 s) as [[a r]|] eqn:E4.
  - destruct r; [|done]. intros [= <-]. apply read_ipv4_range in E4. exact E4.
  - destruct (read_ipv6 s) as [[a r]|] eqn:E6; [|done]. destruct r; [|done]. intros [= <-].
    unfold read_ipv6 in E6.
    destruct (read_groups 8 0 s) as [[head hv4] s1] eqn:Eh.
    apply read_groups_range in Eh as [Hh Hhl].
    assert (forall l, Forall (fun g => 0 <= g < 65536) l -> length l = 8%nat -> ip_ok (V6 (of_groups l))) as Hof.
    { intros l Hl Hlen. pose proof (of_groups_snoc l 0 ltac:(lia) Hl) as Hb. rewrite Hlen in Hb. exact Hb. }
    destruct (Nat.eqb_spec (length head) 8) as [H8|H8]; [simplify_eq; auto|].
    destruct hv4; [done|].
    destruct (strip_prefix "::" s1) as [s2|]; [|done]. cbn [mbind option_bind] in E6.
    destruct (read_groups (7 - length head) 0 s2) as [[tail tv4] s3] eqn:Et.
    apply read_groups_range in Et as [Ht Htl]. simplify_eq. apply Hof.
    + apply Forall_app_2; [done|]. apply Forall_app_2; [|done]. apply Forall_replicate. lia.
    + rewrite !length_app, length_replicate. lia.
Qed.

(** *** The printed form of an IPv4 address parses back. *)

Lemma to_digit_digit_char d : 0 <= d < 10 -> to_digit 10 (digit_char d) = Some d.
Proof.
  intros Hd. unfold to_digit, hex_digit. destruct (is_digit_char d Hd) as [Hi Hv].
  unfold is_digit in Hi. rewrite Hi, Hv. replace (48 + d - 48) with d by lia.
  by rewrite (proj2 (Z.ltb_lt _ _)) by lia.
Qed.

(** What follows a number does not continue it. *)
Definition ends_number (s : str) : Prop :=
  match s with [] => True | c :: _ => to_digit 10 c = None end.

Lemma read_digits_end md n acc s :
  ends_number s -> read_digits 10 md n acc s = Some (n, acc, s).
Proof. destruct s as [|c s]; cbn; [done|]. by intros ->. Qed.

Lemma show_octet z : 0 <= z < 256 ->
  show_uint z = (if z <? 10 then [digit_char z]
                 else if z <? 100 then [digit_char (z / 10); digit_char (z mod 10)]
                 else [digit_char (z / 100); digit_char (z / 10 mod 10); digit_char (z mod 10)]).
Proof.
  intros Hz. unfold show_uint.
  destruct (Z.ltb_spec z 10) as [|H10]; [cbn; by rewrite (proj2 (Z.ltb_lt _ _))|].
  assert (3 <= Z.log2 z) as Hl3 by (apply (Z.log2_le_mono 8 z); lia).
  destruct (Z.ltb_spec z 100) as [|H100].
  - destruct (Z.to_nat (Z.log2 z)) as [|k] eqn:Ek; [lia|]. cbn [show_fuel].
    rewrite !(proj2 (Z.ltb_ge z 10)), (proj2 (Z.ltb_lt (z / 10) 10)) by dlia. done.
  - assert (6 <= Z.log2 z) as Hl6 by (apply (Z.log2_le_mono 64 z); lia).
    destruct (Z.to_nat (Z.log2 z)) as [|[|k]] eqn:Ek; [lia..|]. cbn [show_fuel].
    rewrite (proj2 (Z.ltb_ge z 10)), (proj2 (Z.ltb_ge (z / 10) 10)), (proj2 (Z.ltb_lt (z / 10 / 10) 10)) by dlia.
    cbn. by replace (z / 10 / 10) with (z / 100) by dlia.
Qed.

Lemma digit_char_zero d : 0 <= d < 10 -> digit_char d = "0"%char -> d = 0.
Proof.
  intros Hd H. destruct (is_digit_char d Hd) as [_ Hv]. rewrite H in Hv.
  change (val8 "0"%char) with 48 in Hv. lia.
Qed.

Lemma starts_with_zero d s : 0 < d < 10 -> starts_with "0" (digit_char d :: s) = false.
Proof.
  intros Hd. unfold starts_with. cbn [lit String.list_ascii_of_string strip_prefix].
  case_decide as H; [|done]. symmetry in H. apply digit_char_zero in H; lia.
Qed.

Lemma read_octet_show z s : 0 <= z < 256 -> ends_number s ->
  read_octet (show_uint z ++ s) = Some (z, s).
Proof.
  intros Hz Hs. rewrite show_octet by done. unfold read_octet, read_number.
  destruct (Z.ltb_spec z 10); [|destruct (Z.ltb_spec z 100)]; cbn [app read_digits];
    rewrite !to_digit_digit_char by dlia; cbn [Nat.ltb Nat.leb];
    rewrite read_digits_end by done; cbn [mbind option_bind Nat.eqb negb andb Nat.ltb Nat.leb].
  - rewrite andb_false_r. rewrite (proj2 (Z.leb_le _ _)) by lia. do 2 f_equal; lia.
  - rewrite starts_with_zero by dlia. cbn [andb].
    rewrite (proj2 (Z.leb_le _ _)) by dlia. do 2 f_equal; dlia.
  - rewrite starts_with_zero by dlia. cbn [andb].
    rewrite (proj2 (Z.leb_le _ _)) by dlia. do 2 f_equal; dlia.
Qed.

Lemma strip_dot s : strip_prefix "." (lit "." ++ s) = Some s.
Proof. by apply strip_prefix_Some. Qed.

Lemma read_ipv4_show a s : 0 <= a < 2 ^ 32 -> ends_number s ->
  read_ipv4 (show_v4 a ++ s) = Some (a, s).
Proof.
  intros Ha Hs. unfold show_v4, read_ipv4. rewrite <- !app_assoc.
  rewrite read_octet_show by (done || dlia). cbn [mbind option_bind]. rewrite strip_dot.
  cbn [mbind option_bind]. rewrite read_octet_show by (done || dlia). cbn [mbind option_bind].
  rewrite strip_dot. cbn [mbind option_bind]. rewrite read_octet_show by (done || dlia).
  cbn [mbind option_bind]. rewrite strip_dot. cbn [mbind option_bind].
  rewrite read_octet_show by (done || dlia). cbn [mbind option_bind]. do 2 f_equal. dlia.
Qed.

Lemma parse_ip_show_v4 a : 0 <= a < 2 ^ 32 -> parse_ip (show_v4 a) = Some (V4 a).
Proof.
  intros Ha. unfold parse_ip. rewrite <- (app_nil_r (show_v4 a)).
  by rewrite read_ipv4_show by done.
Qed.

Lemma show_v4_bytes a c : c ∈ show_v4 a -> is_digit c = true \/ c = "."%char.
Proof.
  unfold show_v4. rewrite !elem_of_app.
  assert (c ∈ lit "." -> c = "."%char) as Hdot 
    by (intros Hc; apply list_elem_of_singleton in Hc; done).
  intros H. decompose [or] H; auto; left; eapply show_uint_digits; try eassumption; dlia.
Qed.

(** A byte that is neither a digit nor a dot is not in a printed address. *)
Lemma show_v4_no a c : is_digit c = false -> c <> "."%char -> c ∉ show_v4 a.
Proof. intros Hd Hc H. apply show_v4_bytes in H as [?| ?]; congruence. Qed.

(** ** Lemmas: the characters of a printed address *)

Definition addr_char (c : u8) : bool :=
  is_digit c || ((97 <=? val8 c) && (val8 c <=? 102)) || bool_decide (c = ":"%char) || bool_decide (c = "."%char).

Lemma hex_char_addr d : 0 <= d < 16 -> addr_char (hex_char d) = true.
Proof.
  intros Hd. assert (forallb (fun k => addr_char (hex_char (Z.of_nat k))) (seq 0 16) = true) as H by by vm_compute.
  rewrite forallb_forall in H. specialize (H (Z.to_nat d)). rewrite in_seq, Z2Nat.id in H by lia. apply H. lia.
Qed.

Lemma show_hex_chars z c : 0 <= z -> c ∈ show_hex z -> addr_char c = true.
Proof.
  unfold show_hex. generalize (S (Z.to_nat (Z.log2 z))). intros fuel. revert z.
  induction fuel as [|f IH]; intros z Hz; cbn [show_hex_fuel]; [by rewrite elem_of_nil|].
  destruct (Z.ltb_spec z 16).
  - rewrite list_elem_of_singleton. intros ->. by apply hex_char_addr.
  - rewrite elem_of_app, list_elem_of_singleton. intros [Hc| ->].
    + eapply IH; [|done]. dlia.
    + apply hex_char_addr. dlia.
Qed.

Lemma join_elem sep l c : c ∈ join sep l -> c ∈ sep \/ exists w, w ∈ l /\ c ∈ w.
Proof.
  induction l as [|w [|v l] IH]; cbn [join]; [by rewrite elem_of_nil| |].
  - intros H. right. exists w. split; [left|done].
  - rewrite !elem_of_app. intros [H|[H|H]]; [right; exists w; split; [left|done]|by left|].
    destruct (IH H) as [|(u & Hu & Hc)]; [by left|right; exists u; split; [by right|done]].
Qed.

Lemma show_groups_chars l c : Forall (fun g => 0 <= g) l -> c ∈ show_groups l -> addr_char c = true.
Proof.
  intros Hl H. apply join_elem in H as [H|(w & Hw & Hc)].
  - apply list_elem_of_singleton in H. by subst.
  - apply list_elem_of_fmap in Hw as (g & -> & Hg). apply (show_hex_chars g); [|done].
    exact (proj1 (Forall_forall _ _) Hl g Hg).
Qed.

Lemma show_v4_chars a c : c ∈ show_v4 a -> addr_char c = true.
Proof. intros H. unfold addr_char. apply show_v4_bytes in H as [->| ->]; [done|]. by rewrite orb_true_r. Qed.

Lemma groups_of_nonneg n a : Forall (fun g => 0 <= g) (groups_of n a).
Proof. induction n as [|n IH]; cbn [groups_of]; constructor; [dlia|done]. Qed.

Lemma show_v6_chars a c : c ∈ show_v6 a -> addr_char c = true.
Proof.
  unfold show_v6. pose proof (groups_of_nonneg 8 a) as Hg.
  assert (forall p, forallb addr_char p = true -> c ∈ p -> addr_char c = true) as Hp
    by (intros p Hf Hc; refine (proj1 (List.forallb_forall addr_char p) Hf c _); by apply list_elem_of_In).
  case_match.
  - rewrite elem_of_app. intros [Hin|Hin]; [|by apply (show_v4_chars _ _ Hin)]. by apply (Hp "::ffff:").
  - destruct (zero_run _ _ _ _ _ _) as [start len]. case_match.
    + rewrite !elem_of_app. intros [Hin|[Hin|Hin]]; [|by apply (Hp "::")|]; (eapply show_groups_chars; [|exact Hin]).
      * by apply Forall_take.
      * by apply Forall_drop.
    + by apply show_groups_chars.
Qed.

Lemma show_ip_chars ip : Forall (fun c => addr_char c = true) (show_ip ip).
Proof. apply Forall_forall. intros c. destruct ip as [a|a]; [apply show_v4_chars|apply show_v6_chars]. Qed.

Lemma addr_char_not s c : Forall (fun c => addr_char c = true) s -> addr_char c = false -> c ∉ s.
Proof. intros H Hc Hin. pose proof (proj1 (Forall_forall _ _) H c Hin) as Ht. cbn beta in Ht. congruence. Qed.

Lemma addr_char_graphic c : addr_char c = true -> graphic c = true.
Proof.
  unfold addr_char, is_digit, graphic. intros H.
  apply orb_true_iff in H as [H|H%bool_decide_eq_true]; [|by subst].
  apply orb_true_iff in H as [H|H%bool_decide_eq_true]; [|by subst]. lia.
Qed.
