(* ===== verification/Model.v ===== *)
(** * Data model: protocols, server profiles and parse errors
    ([crates/core/src/model/], [crates/core/src/error.rs]) *)

From S2P Require Import Prelude RustStr.

Inductive ProtocolKind : Type :=
| Vless | Shadowsocks | Trojan | Wireguard | AmneziaWg | Socks5 | Http | Hysteria2 | Tuic.

#[export] Instance ProtocolKind_eq_dec : EqDecision ProtocolKind.
Proof. solve_decision. Defined.

Definition protocol_as_str (p : ProtocolKind) : str :=
  match p with
  | Vless => "vless"
  | Shadowsocks => "shadowsocks"
  | Trojan => "trojan"
  | Wireguard => "wireguard"
  | AmneziaWg => "amneziawg"
  | Socks5 => "socks5"
  | Http => "http"
  | Hysteria2 => "hysteria2"
  | Tuic => "tuic"
  end.

(** [BTreeMap<String, String>] *)
Abbreviation str_map := (gmap (list Ascii.ascii) (list Ascii.ascii)).

Record ServerProfile : Type := {
  sp_name : str;
  sp_protocol : ProtocolKind;
  sp_address : str;
  sp_port : Z;
  sp_params : str_map;
  sp_tags : list str
}.

#[export] Instance ServerProfile_eq_dec : EqDecision ServerProfile.
Proof. solve_decision. Defined.

Definition sp_param (p : ServerProfile) (key : str) : option str := sp_params p !! key.

Inductive ParseError : Type :=
| EmptyInput
| MalformedUrl (s : str)
| UnknownScheme (s : str)
| MissingHost
| MissingPort
| InvalidPort (s : str)
| MissingField (s : str)
| Base64Error (s : str)
| Utf8Error
| InvalidCidr (s : str)
| JsonError (s : str).

#[export] Instance ParseError_eq_dec : EqDecision ParseError.
Proof. solve_decision. Defined.

(** [impl Display for ParseError] *)
Definition show_parse_error (e : ParseError) : str :=
  match e with
  | EmptyInput => "пустой ввод"
  | MalformedUrl s => "некорректный URL: " ++ s
  | UnknownScheme s => "неизвестная схема: " ++ s
  | MissingHost => "отсутствует хост"
  | MissingPort => "отсутствует порт"
  | InvalidPort s => "некорректный порт: " ++ s
  | MissingField s => "отсутствует поле: " ++ s
  | Base64Error s => "ошибка base64: " ++ s
  | Utf8Error => "некорректный UTF-8"
  | InvalidCidr s => "некорректный CIDR/IP: " ++ s
  | JsonError s => "ошибка JSON: " ++ s
  end.

(** The port of a profile is a [u16]. *)
Definition profile_ok (p : ServerProfile) : Prop := 0 <= sp_port p <= 65535.

(** ** Lemmas *)

Lemma protocol_as_str_inj p q : protocol_as_str p = protocol_as_str q -> p = q.
Proof. by destruct p, q. Qed.

(** ** Maps of parameters *)

(** An insertion that is skipped when there is nothing to insert. *)
Definition insert_some_ (m : str_map) (key : str) (o : option str) : str_map :=
  match o with Some v => <[key := v]> m | None => m end.

(** A map restored key by key. *)
Definition rebuild (m : str_map) (keys : list str) : str_map :=
  fold_left (fun acc k => insert_some_ acc k (m !! k)) keys ∅.

Lemma rebuild_lookup (m : str_map) (keys : list str) (acc : str_map) key :
  fold_left (fun acc k => insert_some_ acc k (m !! k)) keys acc !! key
  = if decide (key ∈ keys) then match m !! key with Some v => Some v | None => acc !! key end else acc !! key.
Proof.
  revert acc. induction keys as [|k keys IH]; intros acc; [by rewrite decide_False by apply not_elem_of_nil|].
  cbn [fold_left]. rewrite IH. unfold insert_some_.
  destruct (decide (key = k)) as [->|Hne].
  - rewrite (decide_True (P := k ∈ k :: keys)) by left. case_decide; destruct (m !! k) as [v|]; try done. apply lookup_insert_eq.
  - assert ((match m !! k with Some v => <[k := v]> acc | None => acc end) !! key = acc !! key) as ->.
    { destruct (m !! k); [by apply lookup_insert_ne|done]. }
    destruct (decide (key ∈ keys)) as [Hin|Hin].
    + by rewrite decide_True by (by right).
    + rewrite decide_False; [done|]. by intros [?|?]%elem_of_cons.
Qed.

(** A map with no key outside [keys] is the one rebuilt from [keys]. *)
Lemma rebuild_id (m : str_map) keys : map_Forall (fun k _ => k ∈ keys) m -> rebuild m keys = m.
Proof.
  intros H. apply map_eq. intros key. unfold rebuild. rewrite rebuild_lookup, lookup_empty.
  destruct (m !! key) as [v|] eqn:E; case_decide as Hd; try done. exfalso. apply Hd. by apply (H key v).
Qed.
