(* ===== verification/Base64.v ===== *)
(** * Base64 ([crates/core/src/base64.rs]) *)

From S2P Require Import Prelude RustStr Utf8 Model.

Definition INVALID : Z := 255.

Definition ALPHABET : str := "ABCDEFGHIJKLMNOPQRSTUVWXYZabcdefghijklmnopqrstuvwxyz0123456789+/".

(** [ALPHABET[i]] for [i < 64] *)
Definition alphabet_at (i : Z) : u8 := nth (Z.to_nat i) ALPHABET "A"%char.

(** The table is built by 64 stores and two more for the URL-safe aliases. *)
Definition store (t : list Z) (c : u8) (i : Z) : list Z := <[Z.to_nat (val8 c) := i]> t.

Definition decode_table : list Z :=
  let t := fold_left (fun t ic => store t (snd ic) (Z.of_nat (fst ic)))
             (combine (seq 0 64) ALPHABET) (replicate 256 INVALID) in
  store (store t "-"%char 62) "_"%char 63.

(** [table[b as usize]] *)
Definition table_at (b : u8) : Z := nth (Z.to_nat (val8 b)) decode_table INVALID.

(** [b'=' | b'\r' | b'\n' | b' ' | b'\t'] *)
Definition skipped (b : u8) : bool :=
  let v := val8 b in (v =? 61) || (v =? 13) || (v =? 10) || (v =? 32) || (v =? 9).

(** The loop of [decode_loose]: [buf] is a [u32], shifted left with the top
    bits lost; [bits] is what it holds that is not output yet. *)
Fixpoint decode_loop (input : bytes) (buf bits : Z) (out : bytes) : res ParseError bytes :=
  match input with
  | [] => Ok out
  | b :: rest =>
      if skipped b then decode_loop rest buf bits out
      else
        let v := table_at b in
        if v =? INVALID then Err (Base64Error ("недопустимый байт: 0x" ++ show_hex2 (val8 b)))
        else
          let buf := Z.lor ((Z.shiftl buf 6) mod 2 ^ 32) v in
          let bits := bits + 6 in
          if 8 <=? bits then decode_loop rest buf (bits - 8) (out ++ [to_u8 (Z.shiftr buf (bits - 8))])
          else decode_loop rest buf bits out
  end.

Definition decode_loose (input : str) : res ParseError bytes := decode_loop input 0 0 [].

Definition decode_to_string (input : str) : res ParseError str :=
  b ← decode_loose input; ok_or (from_utf8 b) Utf8Error.

(** One iteration of [encode_standard]: a chunk of one to three bytes. *)
Definition encode_chunk (chunk : bytes) : str :=
  let b0 := val8 (nth 0 chunk (to_u8 0)) in
  let b1 := if (1 <? length chunk)%nat then val8 (nth 1 chunk (to_u8 0)) else 0 in
  let b2 := if (2 <? length chunk)%nat then val8 (nth 2 chunk (to_u8 0)) else 0 in
  let n := Z.lor (Z.lor (Z.shiftl b0 16) (Z.shiftl b1 8)) b2 in
  [alphabet_at (Z.land (Z.shiftr n 18) 63); alphabet_at (Z.land (Z.shiftr n 12) 63)]
  ++ [if (1 <? length chunk)%nat then alphabet_at (Z.land (Z.shiftr n 6) 63) else "="%char]
  ++ [if (2 <? length chunk)%nat then alphabet_at (Z.land n 63) else "="%char].

Definition encode_standard (input : bytes) : str := concat (map encode_chunk (chunks 3 input)).

(** ** Lemmas *)

(** Every symbol of the alphabet is decoded to its index. *)
Lemma alphabet_facts i : 0 <= i < 64 ->
  skipped (alphabet_at i) = false /\ table_at (alphabet_at i) = i /\ val8 (alphabet_at i) < 128.
Proof.
  intros Hi.
  assert (forallb (fun k => let i := Z.of_nat k in
            negb (skipped (alphabet_at i)) && (table_at (alphabet_at i) =? i)
            && (val8 (alphabet_at i) <? 128)) (seq 0 64) = true) as H by (vm_compute; reflexivity).
  rewrite forallb_forall in H. specialize (H (Z.to_nat i)).
  rewrite in_seq, Z2Nat.id in H by lia.
  assert (0 <= Z.to_nat i < 0 + 64)%nat as Hr by lia. apply H in Hr.
  apply andb_true_iff in Hr as [[?%negb_true_iff ?%Z.eqb_eq]%andb_true_iff ?%Z.ltb_lt]. auto.
Qed.

Lemma table_at_range b : table_at b = INVALID \/ 0 <= table_at b < 64.
Proof.
  assert (forallb (fun v => (v =? INVALID) || ((0 <=? v) && (v <? 64))) decode_table = true) as H
    by (vm_compute; reflexivity).
  unfold table_at. destruct (nth_in_or_default (Z.to_nat (val8 b)) decode_table INVALID) as [Hin|Hd]; [|by left].
  rewrite forallb_forall in H. apply H in Hin.
  apply orb_true_iff in Hin as [?%Z.eqb_eq|[?%Z.leb_le ?%Z.ltb_lt]%andb_true_iff]; auto.
Qed.

(** The reference decoder: the bits read and not output yet are kept exactly,
    as a number below [2 ^ bits]. *)
Fixpoint decode_ref (input : bytes) (p bits : Z) (out : bytes) : res ParseError bytes :=
  match input with
  | [] => Ok out
  | b :: rest =>
      if skipped b then decode_ref rest p bits out
      else
        let v := table_at b in
        if v =? INVALID then Err (Base64Error ("недопустимый байт: 0x" ++ show_hex2 (val8 b)))
        else
          let q := p * 64 + v in
          if 8 <=? bits + 6
          then decode_ref rest (q mod 2 ^ (bits - 2)) (bits - 2) (out ++ [to_u8 (q / 2 ^ (bits - 2))])
          else decode_ref rest q (bits + 6) out
  end.

(** The 32-bit accumulator with lost high bits computes the reference. *)
Lemma decode_loop_ref input : forall buf bits out, 0 <= buf -> 0 <= bits < 8 ->
  decode_loop input buf bits out = decode_ref input (buf mod 2 ^ bits) bits out.
Proof.
  induction input as [|b rest IH]; intros buf bits out Hbuf Hbits; [done|].
  cbn [decode_loop decode_ref]. destruct (skipped b); [by apply IH|].
  destruct (table_at_range b) as [Hv|Hv].
  { by rewrite (proj2 (Z.eqb_eq _ _)). }
  rewrite (proj2 (Z.eqb_neq _ _)) by (unfold INVALID; lia).
  set (v := table_at b) in *.
  assert (Z.lor (Z.shiftl buf 6 mod 2 ^ 32) v = (buf mod 2 ^ 26) * 64 + v) as ->.
  { rewrite Z.shiftl_mul_pow2 by lia. replace (buf * 2 ^ 6 mod 2 ^ 32) with (buf mod 2 ^ 26 * 2 ^ 6) by dlia.
    rewrite lor_add by lia. done. }
  assert (forall k, 0 <= k <= 6 ->
    (buf mod 2 ^ 26 * 64 + v) mod 2 ^ (k + 6) = (buf mod 2 ^ k) * 64 + v) as Hmod.
  { intros k Hk. rewrite Z.pow_add_r by lia. change (2 ^ 6) with 64.
    assert (0 < 2 ^ k) by (apply Z.pow_pos_nonneg; lia).
    rewrite (Z.mul_comm (2 ^ k) 64), Z.rem_mul_r by lia.
    replace ((buf mod 2 ^ 26 * 64 + v) mod 64) with v by dlia.
    replace ((buf mod 2 ^ 26 * 64 + v) / 64) with (buf mod 2 ^ 26) by dlia.
    replace (2 ^ 26) with (2 ^ k * 2 ^ (26 - k)) by (rewrite <- Z.pow_add_r by lia; f_equal; lia).
    assert (0 < 2 ^ (26 - k)) by (apply Z.pow_pos_nonneg; lia).
    rewrite (Z.rem_mul_r buf), (Z.mul_comm (2 ^ k)), Z.mod_add, Z.mod_mod by lia. lia. }
  replace (bits + 6 - 8) with (bits - 2) by lia.
  destruct (Z.leb_spec 8 (bits + 6)).
  2: { rewrite IH by (dlia || lia). f_equal. rewrite Hmod by lia. done. }
  assert (bits <= 6 \/ bits = 7) as [Hb| ->] by lia.
  2: { rewrite IH by (dlia || lia). cbn [Z.sub Z.add]. f_equal; [dlia|]. do 2 f_equal.
       apply to_u8_mod. rewrite Z.shiftr_div_pow2 by lia. dlia. }
  rewrite IH by (dlia || lia).
  assert (0 < 2 ^ (bits - 2)) by (apply Z.pow_pos_nonneg; lia).
  set (q := buf mod 2 ^ 26 * 64 + v) in *.
  specialize (Hmod bits ltac:(lia)). rewrite <- Hmod.
  replace (2 ^ (bits + 6)) with (2 ^ (bits - 2) * 256)
    by (replace (bits + 6) with (bits - 2 + 8) by lia; rewrite Z.pow_add_r; lia).
  rewrite Z.rem_mul_r by lia.
  f_equal.
  - rewrite (Z.mul_comm (2 ^ _)), Z.mod_add, Z.mod_mod by lia. done.
  - do 2 f_equal. apply to_u8_mod. rewrite Z.shiftr_div_pow2 by lia.
    set (A := 2 ^ (bits - 2)) in *. pose proof (Z.mod_pos_bound q A ltac:(lia)).
    replace ((q mod A + A * ((q / A) mod 256)) / A) with ((q / A) mod 256).
    { by rewrite Z.mod_mod by lia. }
    by rewrite (Z.mul_comm A), Z.div_add, (Z.div_small (q mod A)), Z.add_0_l by lia.
Qed.

Lemma decode_loose_ref input : decode_loose input = decode_ref input 0 0 [].
Proof. unfold decode_loose. rewrite decode_loop_ref by lia. done. Qed.

Lemma decode_ref_push i rest p bits out : 0 <= i < 64 -> bits < 2 ->
  decode_ref (alphabet_at i :: rest) p bits out = decode_ref rest (p * 64 + i) (bits + 6) out.
Proof.
  intros Hi Hb. cbn [decode_ref]. destruct (alphabet_facts i Hi) as (-> & -> & _).
  rewrite (proj2 (Z.eqb_neq _ _)) by (unfold INVALID; lia).
  by rewrite (proj2 (Z.leb_gt _ _)) by lia.
Qed.

Lemma decode_ref_emit i rest p bits out : 0 <= i < 64 -> 2 <= bits ->
  decode_ref (alphabet_at i :: rest) p bits out =
    decode_ref rest ((p * 64 + i) mod 2 ^ (bits - 2)) (bits - 2)
      (out ++ [to_u8 ((p * 64 + i) / 2 ^ (bits - 2))]).
Proof.
  intros Hi Hb. cbn [decode_ref]. destruct (alphabet_facts i Hi) as (-> & -> & _).
  rewrite (proj2 (Z.eqb_neq _ _)) by (unfold INVALID; lia).
  by rewrite (proj2 (Z.leb_le _ _)) by lia.
Qed.

Lemma decode_ref_pad rest p bits out : decode_ref ("="%char :: rest) p bits out = decode_ref rest p bits out.
Proof. done. Qed.

Lemma sextets n : 0 <= n < 2 ^ 24 ->
  Z.land (Z.shiftr n 18) 63 = n / 262144 /\ Z.land (Z.shiftr n 12) 63 = n / 4096 mod 64 /\
  Z.land (Z.shiftr n 6) 63 = n / 64 mod 64 /\ Z.land n 63 = n mod 64.
Proof.
  intros Hn. change 63 with (Z.ones 6). rewrite !Z.land_ones, !Z.shiftr_div_pow2 by lia.
  change (2 ^ 6) with 64. split_and!; try done. apply Z.mod_small. dlia.
Qed.

Lemma group_value a b c : 0 <= a < 256 -> 0 <= b < 256 -> 0 <= c < 256 ->
  Z.lor (Z.lor (Z.shiftl a 16) (Z.shiftl b 8)) c = (a * 256 + b) * 256 + c.
Proof.
  intros. rewrite !Z.shiftl_mul_pow2 by lia.
  rewrite lor_add by lia.
  replace (a * 2 ^ 16 + b * 2 ^ 8) with ((a * 2 ^ 8 + b) * 2 ^ 8) by lia.
  rewrite lor_add by lia. lia.
Qed.

#[local] Arguments alphabet_at : simpl never.

(** The state after the first two symbols of a group [n]. *)
Lemma decode_two n rest out : 0 <= n < 2 ^ 24 ->
  decode_ref (alphabet_at (n / 262144) :: alphabet_at (n / 4096 mod 64) :: rest) 0 0 out
  = decode_ref rest (n / 4096 mod 16) 4 (out ++ [to_u8 (n / 65536)]).
Proof.
  intros Hn. rewrite decode_ref_push, decode_ref_emit by dlia. change (0 + 6 - 2) with 4.
  f_equal; [dlia|]. do 2 f_equal. apply to_u8_mod. dlia.
Qed.

(** Decoding the symbols of a last, shorter chunk. *)
Lemma decode_chunk_last c out : (length c < 3)%nat -> c <> [] ->
  decode_ref (encode_chunk c) 0 0 out = Ok (out ++ c).
Proof.
  intros Hc Hne. destruct c as [|a [|b [|? ?]]]; cbn in Hc; try lia; try done;
    unfold encode_chunk; cbn [length Nat.ltb Nat.leb nth]; pose proof (val8_range a).
  - rewrite group_value by lia.
    destruct (sextets ((val8 a * 256 + 0) * 256 + 0)) as (-> & -> & _ & _); [lia|]. cbn [app].
    rewrite decode_two, !decode_ref_pad by lia. cbn. do 3 f_equal. apply to_u8_eq. dlia.
  - pose proof (val8_range b). rewrite group_value by lia.
    destruct (sextets ((val8 a * 256 + val8 b) * 256 + 0)) as (-> & -> & -> & _); [lia|]. cbn [app].
    rewrite decode_two, decode_ref_emit, decode_ref_pad by dlia. cbn. rewrite <- app_assoc. cbn [app].
    do 2 f_equal. f_equal; [|f_equal]; apply to_u8_eq; change (2 ^ (4 - 2)) with 4; dlia.
Qed.

Lemma decode_chunk3 a b c rest out :
  decode_ref (encode_chunk [a; b; c] ++ rest) 0 0 out = decode_ref rest 0 0 (out ++ [a; b; c]).
Proof.
  unfold encode_chunk; cbn [length Nat.ltb Nat.leb nth].
  pose proof (val8_range a). pose proof (val8_range b). pose proof (val8_range c).
  rewrite group_value by lia.
  destruct (sextets ((val8 a * 256 + val8 b) * 256 + val8 c)) as (-> & -> & -> & ->); [lia|].
  cbn [app]. rewrite decode_two, decode_ref_emit, decode_ref_emit by dlia.
  change (4 - 2) with 2. change (2 ^ (2 - 2)) with 1. change (2 - 2) with 0.
  rewrite <- !app_assoc. cbn [app]. f_equal; [dlia|]. f_equal.
  f_equal; [|f_equal; [|f_equal]]; apply to_u8_eq; change (2 ^ 2) with 4; dlia.
Qed.

Lemma decode_encode_ref input : forall fuel out, (length input <= fuel)%nat ->
  decode_ref (concat (map encode_chunk (chunks_fuel fuel 3 input))) 0 0 out = Ok (out ++ input).
Proof.
  assert (forall n, forall input fuel out, (length input <= n)%nat -> (length input <= fuel)%nat ->
    decode_ref (concat (map encode_chunk (chunks_fuel fuel 3 input))) 0 0 out = Ok (out ++ input)) as H.
  { induction n as [|n IH]; intros l fuel out Hl Hf.
    - destruct l; [|cbn in Hl; lia]. destruct fuel; cbn; by rewrite app_nil_r.
    - destruct fuel as [|f]; [destruct l; [cbn; by rewrite app_nil_r|cbn in Hf; lia]|].
      destruct l as [|a [|b [|c l]]]; cbn [chunks_fuel take drop map concat].
      + cbn. by rewrite app_nil_r.
      + destruct f; cbn [map concat]; rewrite app_nil_r; apply decode_chunk_last; cbn; (lia || done).
      + destruct f; cbn [map concat]; rewrite app_nil_r; apply decode_chunk_last; cbn; (lia || done).
      + change (take 0 l) with (@nil u8). cbn [app] in *. rewrite decode_chunk3.
        change (drop 0 l) with l. rewrite IH by (cbn in *; lia). by rewrite <- app_assoc. }
  intros fuel out Hf. by apply (H (length input)).
Qed.

Lemma decode_encode input : decode_loose (encode_standard input) = Ok input.
Proof. rewrite decode_loose_ref. by apply decode_encode_ref. Qed.

(** The symbols of an encoding are ASCII. *)
Lemma encode_chunk_ascii c : Forall (fun b => val8 b < 128) (encode_chunk c).
Proof.
  assert (forall n, val8 (alphabet_at (Z.land n 63)) < 128) as H.
  { intros n. apply alphabet_facts. change 63 with (Z.ones 6). rewrite Z.land_ones by lia. dlia. }
  unfold encode_chunk. repeat case_match; cbn [app]; repeat (constructor; try apply H); done.
Qed.

Lemma encode_ascii input : Forall (fun b => val8 b < 128) (encode_standard input).
Proof.
  unfold encode_standard. apply Forall_concat, Forall_map, Forall_forall.
  intros c _. apply encode_chunk_ascii.
Qed.


(** They are printable: no white space, no line break. *)
Lemma encode_graphic input : Forall (fun b => graphic b = true) (encode_standard input).
Proof.
  assert (Forall (fun b => graphic b = true) ALPHABET) as Ha
    by (apply Forall_forall; intros c Hc%list_elem_of_In;
        refine (proj1 (List.forallb_forall graphic ALPHABET) _ c Hc); vm_compute; reflexivity).
  assert (forall n, graphic (alphabet_at n) = true) as H.
  { intros n. unfold alphabet_at. destruct (nth_in_or_default (Z.to_nat n) ALPHABET "A"%char) as [Hin| ->]; [|done].
    by apply (proj1 (Forall_forall _ _) Ha), list_elem_of_In. }
  unfold encode_standard. apply Forall_concat, Forall_map, Forall_forall. intros c _.
  unfold encode_chunk. repeat case_match; cbn [app]; repeat (constructor; try apply H); done.
Qed.

Lemma decode_ref_no_panic input : forall p bits out, no_panic (decode_ref input p bits out).
Proof.
  induction input as [|b rest IH]; intros; cbn; [auto with resdb|].
  destruct (skipped b); [auto|]. destruct (table_at b =? INVALID); [apply no_panic_err|].
  destruct (8 <=? bits + 6); auto.
Qed.

Lemma decode_loose_no_panic s : no_panic (decode_loose s).
Proof. rewrite decode_loose_ref. apply decode_ref_no_panic. Qed.

#[export] Hint Resolve decode_loose_no_panic : resdb.

(** The number of output bytes: three for four symbols, rounded down. *)
Lemma decode_ref_length input : forall p bits out r, 0 <= bits < 8 ->
  decode_ref input p bits out = Ok r ->
  8 * Z.of_nat (length r) <= 8 * Z.of_nat (length out) + bits
     + 6 * Z.of_nat (length (filter (fun b => skipped b = false) input))
     < 8 * Z.of_nat (length r) + 8.
Proof.
  induction input as [|b rest IH]; intros p bits out r Hb H; cbn [decode_ref] in H.
  - simplify_eq. cbn. lia.
  - rewrite filter_cons. destruct (skipped b) eqn:E; case_decide; try done; [eauto|].
    destruct (table_at b =? INVALID); [done|]. cbn [length].
    destruct (Z.leb_spec 8 (bits + 6)); apply IH in H; try lia.
    rewrite length_app in H. cbn [length] in H. lia.
Qed.

(** ** Insensitivity to layout and alphabet *)

(** The standard symbol of a URL-safe alias. *)
Definition standard_symbol (c : u8) : u8 :=
  if decide (c = "-"%char) then "+"%char else if decide (c = "_"%char) then "/"%char else c.

(** What is left of an input without padding and white space, in the standard
    alphabet. *)
Definition payload (s : str) : str := filter (fun b => skipped b = false) (map standard_symbol s).

Lemma standard_symbol_spec c :
  skipped (standard_symbol c) = skipped c /\ table_at (standard_symbol c) = table_at c
  /\ (standard_symbol c <> c -> table_at c <> INVALID).
Proof.
  unfold standard_symbol. case_decide as H; [subst; by vm_compute|].
  case_decide as H'; [subst; by vm_compute|]. done.
Qed.

Lemma decode_ref_payload s : forall p bits out, decode_ref s p bits out = decode_ref (payload s) p bits out.
Proof.
  unfold payload. induction s as [|b s IH]; intros p bits out; [done|]. cbn [map]. rewrite filter_cons.
  destruct (standard_symbol_spec b) as (Hs & Ht & Hi). cbn [decode_ref].
  destruct (skipped b) eqn:E; case_decide; try congruence. cbn [decode_ref]. rewrite Hs, Ht.
  destruct (Z.eqb_spec (table_at b) INVALID) as [Hinv|].
  - destruct (decide (standard_symbol b = b)) as [->|Hne]; [done|]. by apply Hi in Hne.
  - destruct (8 <=? bits + 6); apply IH.
Qed.

(** ** Properties *)

(** Decoding inverts encoding whatever the layout: any text whose payload is
    that of the encoding (padding dropped, line breaks inserted, URL-safe symbols
    for the standard ones) is decoded to the encoded bytes. *)
Theorem base64_roundtrip (input : bytes) (s : str)
    (Hs : payload s = payload (encode_standard input)) : decode_loose s = Ok input.
Proof. by rewrite decode_loose_ref, decode_ref_payload, Hs, <- decode_ref_payload, <- decode_loose_ref, decode_encode. Qed.

(** The [u32] accumulator with its wrapping shifts computes what the
    unbounded accumulator does, on every input; three output bytes come from four
    symbols, incomplete bits at the end being dropped; and nothing panics. *)
Theorem base64_accumulator (s : str) :
  decode_loose s = decode_ref s 0 0 [] /\ no_panic (decode_loose s)
  /\ forall out, decode_loose s = Ok out -> length out = (6 * length (payload s) / 8)%nat.
Proof.
  split; [apply decode_loose_ref|]. split; [auto with resdb|]. intros out H.
  rewrite decode_loose_ref, decode_ref_payload in H. apply decode_ref_length in H; [|lia].
  cbn [length] in H. revert H. unfold payload. rewrite list_filter_filter.
  rewrite (list_filter_iff _ (fun b => skipped b = false)) by tauto.
  set (n := length (filter _ _)). intros H. apply (Nat.div_unique _ _ _ (6 * n - 8 * length out)); lia.
Qed.

Lemma base64_roundtrip_witness :
  decode_loose ("-_" ++ of_zs [13; 10] ++ lit "8") = Ok (of_zs [251; 255]).
Proof. apply base64_roundtrip. vm_compute. reflexivity. Defined.
