(* ===== verification/Cidr.v ===== *)
(** * CIDR ranges ([crates/core/src/split/cidr.rs]) *)

From S2P Require Import Prelude RustStr NetAddr Model.

Record IpCidr : Type := { cidr_base : IpAddr; cidr_prefix : Z }.

#[export] Instance IpCidr_eq_dec : EqDecision IpCidr.
Proof. solve_decision. Defined.

(** [if base.is_ipv4() { 32 } else { 128 }] *)
Definition max_prefix (base : IpAddr) : Z := if is_ipv4 base then 32 else 128.

(** [IpCidr::parse] *)
Definition cidr_parse (s : str) : res ParseError IpCidr :=
  '(ip_str, prefix_opt) ←
    (match split_once "/" s with
     | Some (ip, p) => pfx ← ok_or (parse_u8 p) (InvalidCidr s); Ok (ip, Some pfx)
     | None => Ok (s, None)
     end);
  base ← ok_or (parse_ip ip_str) (InvalidCidr s);
  let max := max_prefix base in
  let prefix := default max prefix_opt in
  if max <? prefix then Err (InvalidCidr s)
  else Ok {| cidr_base := base; cidr_prefix := prefix |}.

(** [impl Display for IpCidr] *)
Definition show_cidr_parts (base : IpAddr) (prefix : Z) : str :=
  show_ip base ++ "/" ++ show_uint prefix.

Definition show_cidr (c : IpCidr) : str := show_cidr_parts (cidr_base c) (cidr_prefix c).

(** [IpCidr::new] *)
Definition cidr_new (base : IpAddr) (prefix : Z) : res ParseError IpCidr :=
  if max_prefix base <? prefix then Err (InvalidCidr (show_cidr_parts base prefix))
  else Ok {| cidr_base := base; cidr_prefix := prefix |}.

(** [v4_match] and [v6_match]: the mask of a [w]-bit family, with the left
    shift losing its high bits. *)
Definition v4_match (base addr prefix : Z) : bool :=
  let mask :=
    if prefix =? 0 then 0
    else if 32 <=? prefix then 2 ^ 32 - 1
    else Z.shiftl (2 ^ 32 - 1) (32 - prefix) mod 2 ^ 32 in
  Z.land base mask =? Z.land addr mask.

Definition v6_match (base addr prefix : Z) : bool :=
  let mask :=
    if prefix =? 0 then 0
    else if 128 <=? prefix then 2 ^ 128 - 1
    else Z.shiftl (2 ^ 128 - 1) (128 - prefix) mod 2 ^ 128 in
  Z.land base mask =? Z.land addr mask.

(** [IpCidr::contains] *)
Definition cidr_contains (c : IpCidr) (ip : IpAddr) : bool :=
  match cidr_base c, ip with
  | V4 base, V4 addr => v4_match base addr (cidr_prefix c)
  | V6 base, V6 addr => v6_match base addr (cidr_prefix c)
  | _, _ => false
  end.

(** The type invariant the private fields maintain. *)
Definition cidr_ok (c : IpCidr) : Prop :=
  ip_ok (cidr_base c) /\ 0 <= cidr_prefix c <= ip_width (cidr_base c).

(** ** The specification: equality of the leading [prefix] bits *)

Definition same_network (w base addr prefix : Z) : Prop :=
  base / 2 ^ (w - prefix) = addr / 2 ^ (w - prefix).

Definition in_cidr (c : IpCidr) (ip : IpAddr) : Prop :=
  is_ipv4 (cidr_base c) = is_ipv4 ip /\
  same_network (ip_width ip) (ip_bits (cidr_base c)) (ip_bits ip) (cidr_prefix c).

(** ** Lemmas *)

(** [u_w::MAX << k] keeps the bits from [k] to [w - 1]. *)
Lemma mask_bits w k n : 0 <= k < w -> 0 <= n ->
  Z.testbit (Z.shiftl (2 ^ w - 1) k mod 2 ^ w) n = (k <=? n) && (n <? w).
Proof.
  intros Hk Hn. destruct (Z.ltb_spec n w).
  2: { rewrite Z.mod_pow2_bits_high by lia. by rewrite andb_false_r. }
  rewrite Z.mod_pow2_bits_low by lia. rewrite Z.sub_1_r, <- Z.ones_equiv.
  destruct (Z.leb_spec k n); cbn [andb].
  - rewrite Z.shiftl_spec by lia. apply Z.ones_spec_low. lia.
  - by rewrite Z.shiftl_spec_low by lia.
Qed.

Lemma land_mask w k a : 0 <= k < w -> 0 <= a < 2 ^ w ->
  Z.land a (Z.shiftl (2 ^ w - 1) k mod 2 ^ w) = a / 2 ^ k * 2 ^ k.
Proof.
  intros Hk Ha. rewrite <- Z.shiftr_div_pow2, <- Z.shiftl_mul_pow2 by lia.
  apply Z.bits_inj'. intros n Hn. rewrite Z.land_spec, mask_bits by lia.
  destruct (Z.leb_spec k n); cbn [andb].
  - rewrite Z.shiftl_spec, Z.shiftr_spec by lia. replace (n - k + k) with n by lia.
    destruct (Z.ltb_spec n w); [apply andb_true_r|]. rewrite andb_false_r.
    destruct (decide (a = 0)) as [->|]; [by rewrite Z.testbit_0_l|].
    symmetry. apply Z.bits_above_log2; [lia|]. apply (Z.lt_le_trans _ w); [|lia].
    apply Z.log2_lt_pow2; lia.
  - by rewrite andb_false_r, Z.shiftl_spec_low by lia.
Qed.

Lemma masked_eq w p a b : 0 < p < w -> 0 <= a < 2 ^ w -> 0 <= b < 2 ^ w ->
  let mask := Z.shiftl (2 ^ w - 1) (w - p) mod 2 ^ w in
  (Z.land a mask =? Z.land b mask) = true <-> same_network w a b p.
Proof.
  intros Hp Ha Hb mask. unfold mask, same_network. rewrite Z.eqb_eq, !land_mask by lia.
  assert (0 < 2 ^ (w - p)) by (apply Z.pow_pos_nonneg; lia).
  rewrite Z.mul_cancel_r by lia. done.
Qed.

Lemma land_all w a : 0 <= w -> 0 <= a < 2 ^ w -> Z.land a (2 ^ w - 1) = a.
Proof.
  intros Hw Ha. rewrite Z.sub_1_r, <- Z.ones_equiv, Z.land_ones by lia. by apply Z.mod_small.
Qed.

Lemma v4_match_spec a b p : 0 <= p <= 32 -> 0 <= a < 2 ^ 32 -> 0 <= b < 2 ^ 32 ->
  v4_match a b p = true <-> same_network 32 a b p.
Proof.
  intros Hp Ha Hb. unfold v4_match. destruct (Z.eqb_spec p 0) as [->|].
  { unfold same_network. rewrite !Z.land_0_r, !Z.div_small by lia. done. }
  destruct (Z.leb_spec 32 p); [|apply masked_eq; [lia|done..]].
  assert (p = 32) as -> by lia. unfold same_network.
  rewrite !land_all, Z.eqb_eq, !Z.div_1_r by lia. done.
Qed.

Lemma v6_match_spec a b p : 0 <= p <= 128 -> 0 <= a < 2 ^ 128 -> 0 <= b < 2 ^ 128 ->
  v6_match a b p = true <-> same_network 128 a b p.
Proof.
  intros Hp Ha Hb. unfold v6_match. destruct (Z.eqb_spec p 0) as [->|].
  { unfold same_network. rewrite !Z.land_0_r, !Z.div_small by lia. done. }
  destruct (Z.leb_spec 128 p); [|apply masked_eq; [lia|done..]].
  assert (p = 128) as -> by lia. unfold same_network.
  rewrite !land_all, Z.eqb_eq, !Z.div_1_r by lia. done.
Qed.

(** The masked comparison decides the specification. *)
Lemma contains_spec c ip : cidr_ok c -> ip_ok ip ->
  cidr_contains c ip = true <-> in_cidr c ip.
Proof.
  intros [Hb Hp] Hi. unfold in_cidr, cidr_contains. destruct c as [base prefix].
  cbn [cidr_base cidr_prefix] in *. destruct base as [b|b], ip as [a|a]; cbn in *.
  - rewrite v4_match_spec by done. split; [auto|by intros [_ ?]].
  - split; [done|by intros [? _]].
  - split; [done|by intros [? _]].
  - rewrite v6_match_spec by done. split; [auto|by intros [_ ?]].
Qed.

Lemma cidr_new_ok base prefix c : ip_ok base -> 0 <= prefix -> cidr_new base prefix = Ok c -> cidr_ok c.
Proof.
  unfold cidr_new. intros Hb Hp H. destruct (Z.ltb_spec (max_prefix base) prefix); [done|].
  simplify_eq. split; cbn; [done|].
  unfold max_prefix, ip_width in *. destruct (is_ipv4 base); lia.
Qed.

Lemma cidr_parse_ok s c : cidr_parse s = Ok c -> cidr_ok c.
Proof.
  unfold cidr_parse. rewrite ok_bind. intros ([ip_str po] & Hs & H).
  apply ok_bind in H as (base & Hb & H).
  destruct (parse_ip ip_str) eqn:E; [|done]. cbn in Hb. simplify_eq.
  apply parse_ip_ok in E.
  assert (0 <= default (max_prefix base) po) as Hpos.
  { destruct (split_once "/" s) as [[ip p]|].
    - destruct (parse_u8 p) eqn:Ep; [|done]. cbn in Hs. simplify_eq.
      apply parse_uint_bound in Ep; [|lia]. cbn. lia.
    - simplify_eq. cbn. unfold max_prefix. destruct (is_ipv4 base); lia. }
  destruct (Z.ltb_spec (max_prefix base) (default (max_prefix base) po)); [done|].
  simplify_eq. split; cbn [cidr_base cidr_prefix]; [done|].
  unfold max_prefix, ip_width in *. destruct (is_ipv4 base); lia.
Qed.

Lemma cidr_parse_no_panic s : no_panic (cidr_parse s).
Proof.
  unfold cidr_parse. apply no_panic_bind.
  - destruct (split_once "/" s) as [[ip p]|]; [|discriminate].
    apply no_panic_bind; [auto with resdb|discriminate].
  - intros [ip_str po] _. apply no_panic_bind; [auto with resdb|]. intros base _.
    destruct (_ <? _); discriminate.
Qed.

(** Printing and parsing an IPv4 range. *)
Lemma cidr_parse_show_v4 a p : 0 <= a < 2 ^ 32 -> 0 <= p <= 32 ->
  cidr_parse (show_cidr {| cidr_base := V4 a; cidr_prefix := p |})
  = Ok {| cidr_base := V4 a; cidr_prefix := p |}.
Proof.
  intros Ha Hp. unfold cidr_parse, show_cidr, show_cidr_parts. cbn [cidr_base cidr_prefix show_ip].
  change (lit "/" ++ show_uint p) with ("/"%char :: show_uint p).
  rewrite split_once_app by by apply show_v4_no.
  unfold parse_u8. rewrite parse_show_uint by lia. cbn -[parse_ip show_v4 Z.ltb].
  rewrite parse_ip_show_v4 by done. cbn -[Z.ltb].
  by rewrite (proj2 (Z.ltb_ge _ _)) by lia.
Qed.

(** ** Properties *)

(** A range built from text or by its constructor satisfies the type
    invariant (an address of its family, a prefix within the family's width), and
    it contains exactly the addresses of the same family that share its leading
    [prefix] bits: the shifted mask computes the intended arithmetic for every
    prefix, [0] and the full width included. *)
Theorem cidr_membership (s : str) (base : IpAddr) (prefix : Z) (c : IpCidr) (ip : IpAddr)
    (Hc : cidr_parse s = Ok c \/ (ip_ok base /\ 0 <= prefix /\ cidr_new base prefix = Ok c))
    (Hip : ip_ok ip) :
  cidr_ok c /\ (cidr_contains c ip = true <-> in_cidr c ip).
Proof.
  assert (cidr_ok c) as H.
  { destruct Hc as [Hc|(Hb & Hp & Hc)]; [exact (cidr_parse_ok _ _ Hc)|exact (cidr_new_ok _ _ _ Hb Hp Hc)]. }
  split; [done|by apply contains_spec].
Qed.

(** Parsing never panics; it inverts the printed form of every IPv4 range;
    and a parsed text without a prefix denotes a single address. *)
Theorem cidr_text (s : str) (a p : Z) (Ha : 0 <= a < 2 ^ 32) (Hp : 0 <= p <= 32) :
  no_panic (cidr_parse s)
  /\ cidr_parse (show_cidr {| cidr_base := V4 a; cidr_prefix := p |})
     = Ok {| cidr_base := V4 a; cidr_prefix := p |}
  /\ exists c, cidr_parse (show_v4 a) = Ok c
     /\ forall ip, ip_ok ip -> cidr_contains c ip = true <-> ip = V4 a.
Proof.
  split; [apply cidr_parse_no_panic|]. split; [by apply cidr_parse_show_v4|].
  exists {| cidr_base := V4 a; cidr_prefix := 32 |}. split.
  - unfold cidr_parse. rewrite split_once_None by by apply show_v4_no. cbn -[parse_ip show_v4].
    by rewrite parse_ip_show_v4.
  - intros ip Hip. rewrite contains_spec; [|split; [exact Ha|cbn; lia]|done].
    unfold in_cidr, same_network. destruct ip as [b|b]; cbn; [|split; [by intros []|done]].
    rewrite !Z.div_1_r. naive_solver.
Qed.

Lemma cidr_membership_witness :
  cidr_contains {| cidr_base := V4 (10 * 2 ^ 24); cidr_prefix := 8 |} (V4 (10 * 2 ^ 24 + 77)) = true.
Proof.
  apply (cidr_membership "10.0.0.0/8" (V4 0) 0 _ (V4 (10 * 2 ^ 24 + 77))).
  - left. vm_compute. reflexivity.
  - unfold ip_ok. cbn. lia.
  - split; reflexivity.
Defined.

Lemma cidr_text_witness :
  cidr_parse "192.168.1.0/24" = Ok {| cidr_base := V4 3232235776; cidr_prefix := 24 |}.
Proof. exact (proj1 (proj2 (cidr_text "" 3232235776 24 ltac:(lia) ltac:(lia)))). Defined.
