(* ===== verification/AddrText.v ===== *)
(** * The text of an address is read back
    ([std::net]'s printing and parsing, [crates/core/src/split/cidr.rs])

    The printed form of IPv6 abbreviates the longest run of zero groups and
    shows mapped IPv4 addresses in dotted form; the parser undoes both. *)

From S2P Require Import Prelude RustStr NetAddr Model Cidr.

(** ** Hexadecimal groups *)

Lemma to_digit_hex d : 0 <= d < 16 -> to_digit 16 (hex_char d) = Some d.
Proof.
  intros Hd. assert (forallb (fun k => bool_decide (to_digit 16 (hex_char (Z.of_nat k)) = Some (Z.of_nat k))) (seq 0 16) = true) as H by by vm_compute.
  rewrite forallb_forall in H. specialize (H (Z.to_nat d)). rewrite in_seq, Z2Nat.id in H by lia.
  apply (bool_decide_eq_true_1 _), H. lia.
Qed.

Lemma show_group g : 0 <= g < 65536 ->
  show_hex g = (if g <? 16 then [hex_char g]
                else if g <? 256 then [hex_char (g / 16); hex_char (g mod 16)]
                else if g <? 4096 then [hex_char (g / 256); hex_char (g / 16 mod 16); hex_char (g mod 16)]
                else [hex_char (g / 4096); hex_char (g / 256 mod 16); hex_char (g / 16 mod 16); hex_char (g mod 16)]).
Proof.
  intros Hg. unfold show_hex.
  assert (forall k, 2 ^ k <= g -> 0 <= k -> k <= Z.log2 g) as Hlog by (intros k Hk Hk0; by apply Z.log2_le_pow2; lia).
  destruct (Z.ltb_spec g 16) as [|H1]; [cbn; by rewrite (proj2 (Z.ltb_lt _ _))|].
  pose proof (Hlog 4 H1 ltac:(lia)). destruct (Z.ltb_spec g 256) as [|H2].
  - destruct (Z.to_nat (Z.log2 g)) as [|k] eqn:Ek; [lia|]. cbn [show_hex_fuel].
    rewrite (proj2 (Z.ltb_ge g 16)), (proj2 (Z.ltb_lt (g / 16) 16)) by dlia. done.
  - pose proof (Hlog 8 H2 ltac:(lia)). destruct (Z.ltb_spec g 4096) as [|H3].
    + destruct (Z.to_nat (Z.log2 g)) as [|[|k]] eqn:Ek; [lia..|]. cbn [show_hex_fuel].
      rewrite (proj2 (Z.ltb_ge g 16)), (proj2 (Z.ltb_ge (g / 16) 16)), (proj2 (Z.ltb_lt (g / 16 / 16) 16)) by dlia.
      cbn [app]. by replace (g / 16 / 16) with (g / 256) by dlia.
    + pose proof (Hlog 12 H3 ltac:(lia)). destruct (Z.to_nat (Z.log2 g)) as [|[|[|k]]] eqn:Ek; [lia..|]. cbn [show_hex_fuel].
      rewrite (proj2 (Z.ltb_ge g 16)), (proj2 (Z.ltb_ge (g / 16) 16)), (proj2 (Z.ltb_ge (g / 16 / 16) 16)),
        (proj2 (Z.ltb_lt (g / 16 / 16 / 16) 16)) by dlia.
      cbn [app]. replace (g / 16 / 16 / 16) with (g / 4096) by dlia. by replace (g / 16 / 16) with (g / 256) by dlia.
Qed.

(** What follows a group does not continue it. *)
Definition ends_group (s : str) : Prop := match s with [] => True | c :: _ => to_digit 16 c = None end.

Lemma read_digits_stop md n acc s : ends_group s -> read_digits 16 md n acc s = Some (n, acc, s).
Proof. destruct s as [|c s]; cbn; [done|]. by intros ->. Qed.

Lemma read_group_show g s : 0 <= g < 65536 -> ends_group s -> read_number 16 4 true 65535 (show_hex g ++ s) = Some (g, s).
Proof.
  intros Hg Hs. rewrite show_group by done. unfold read_number.
  destruct (Z.ltb_spec g 16); [|destruct (Z.ltb_spec g 256); [|destruct (Z.ltb_spec g 4096)]]; cbn [app read_digits];
    rewrite !to_digit_hex by dlia; cbn [Nat.ltb Nat.leb];
    rewrite read_digits_stop by done; cbn [mbind option_bind Nat.eqb negb andb];
    rewrite (proj2 (Z.leb_le _ _)) by dlia; do 2 f_equal; dlia.
Qed.

(** ** No dot, no IPv4 address *)

Lemma read_digits_suffix radix md : forall s n acc n' v r, read_digits radix md n acc s = Some (n', v, r) -> r `suffix_of` s.
Proof.
  induction s as [|c s IH]; intros n acc n' v r; cbn [read_digits]; [by intros [= _ _ <-]|].
  destruct (to_digit radix c); [|by intros [= _ _ <-]]. destruct (_ <? _)%nat; [done|].
  intros H. apply IH in H. by apply suffix_cons_r.
Qed.

Lemma read_ipv4_no_dot s : "."%char ∉ s -> read_ipv4 s = None.
Proof.
  intros H. unfold read_ipv4. destruct (read_octet s) as [[a r]|] eqn:E; [|done]. cbn [mbind option_bind].
  unfold read_octet, read_number in E. destruct (read_digits _ _ _ _ s) as [[[n v] r']|] eqn:Ed; [|done]. cbn [mbind option_bind] in E.
  assert (r' = r) as -> by (repeat case_match; simplify_eq; done).
  apply read_digits_suffix in Ed as [p ->]. destruct (strip_prefix "." r) as [r'|] eqn:Es; [|done].
  apply strip_prefix_Some in Es as ->. exfalso. apply H. rewrite elem_of_app. right. left.
Qed.

(** ** Groups are read back *)

Definition groups_ok (gs : list Z) : Prop := Forall (fun g => 0 <= g < 65536) gs.

(** What may follow the last group read. *)
Definition after_groups (rest : str) : Prop := rest = [] \/ exists t, rest = lit "::" ++ t.

Lemma after_groups_ends rest : after_groups rest -> ends_group rest.
Proof. intros [->|[t ->]]; done. Qed.

Definition colon (i : nat) : str := match i with O => [] | S _ => lit ":" end.

Lemma with_colon_show {A} i (p : str -> option (A * str)) s : with_colon i p (colon i ++ s) = p s.
Proof. destruct i; [done|]. unfold with_colon, colon. by rewrite (proj2 (strip_prefix_Some (lit ":") _ s)). Qed.

Lemma stop_groups left i rest : after_groups rest -> read_groups left i rest = ([], false, rest).
Proof.
  intros H. destruct left as [|left]; [done|]. cbn [read_groups].
  assert (with_colon i (read_number 16 4 true 65535) rest = None /\ with_colon i read_ipv4 rest = None) as [-> ->].
  { destruct H as [->|[t ->]]; destruct i; split; reflexivity. }
  by destruct left.
Qed.

Lemma show_groups_cons g gs : gs <> [] -> show_groups (g :: gs) = show_hex g ++ lit ":" ++ show_groups gs.
Proof. destruct gs; [done|]. reflexivity. Qed.

Lemma read_groups_show rest : after_groups rest -> forall gs left i,
  groups_ok gs -> gs <> [] -> (length gs <= left)%nat -> "."%char ∉ show_groups gs ++ rest ->
  read_groups left i (colon i ++ show_groups gs ++ rest) = (gs, false, rest).
Proof.
  intros Hr. induction gs as [|g gs IH]; intros left i Hg Hn Hl Hd; [done|]. apply Forall_cons in Hg as [Hg Hgs].
  destruct left as [|left]; [cbn in Hl; lia|]. cbn [read_groups]. rewrite !with_colon_show, read_ipv4_no_dot by done.
  assert (exists t, show_groups (g :: gs) ++ rest = show_hex g ++ t /\ ends_group t /\
            read_groups left (S i) t = (gs, false, rest)) as (t & Heq & Ht & Hrec).
  { destruct (decide (gs = [])) as [->|Hne].
    - exists rest. split; [done|]. split; [by apply after_groups_ends|]. by apply stop_groups.
    - rewrite show_groups_cons in * by done. exists (lit ":" ++ show_groups gs ++ rest).
      rewrite <- !app_assoc. split; [done|]. split; [done|].
      apply (IH left (S i)); [done|done|cbn in Hl; lia|]. intros Hin. apply Hd. rewrite <- !app_assoc, !elem_of_app.
      rewrite elem_of_app in Hin. naive_solver. }
  rewrite Heq, read_group_show by done. rewrite Hrec. by destruct left.
Qed.

(** ** The run of zeros *)

Definition zeros_at (gs : list Z) (s n : nat) : Prop := forall k, (s <= k < s + n)%nat -> gs !! k = Some 0.

Lemma zero_run_spec gs : forall l i cs cl bs bl s n,
  (forall k, l !! k = gs !! (i + k)%nat) ->
  zeros_at gs bs bl -> zeros_at gs cs cl -> (cl = 0%nat \/ cs + cl = i)%nat ->
  zero_run i cs cl bs bl l = (s, n) -> zeros_at gs s n.
Proof.
  induction l as [|g l IH]; intros i cs cl bs bl s n Hl Hb Hc Hi; cbn [zero_run]; [by intros [= <- <-]|].
  assert (forall k, l !! k = gs !! (S i + k)%nat) as Hl' by (intros k; change (l !! k) with ((g :: l) !! S k); rewrite Hl; f_equal; lia).
  assert (gs !! i = Some g) as Hgi by (rewrite <- (Nat.add_0_r i), <- Hl; done).
  destruct (Z.eqb_spec g 0) as [->|Hg].
  - set (cs' := if (cl =? 0)%nat then i else cs).
    assert (zeros_at gs cs' (S cl)) as Hc'.
    { unfold cs'. destruct (Nat.eqb_spec cl 0) as [->|Hne]; intros k Hk.
      - by replace k with i by lia.
      - destruct (decide (k = i)) as [->|]; [done|]. apply Hc. lia. }
    assert (S cl = 0 \/ cs' + S cl = S i)%nat as Hi' by (unfold cs'; destruct (Nat.eqb_spec cl 0); lia).
    destruct (bl <? S cl)%nat; apply IH; done.
  - apply IH; [done|done| |by left]. intros k Hk. lia.
Qed.

Lemma zeros_split gs s n : zeros_at gs s n -> (s + n <= length gs)%nat ->
  gs = take s gs ++ replicate n 0 ++ drop (s + n) gs.
Proof.
  intros Hz Hl. rewrite <- (take_drop s gs) at 1. f_equal. rewrite <- (take_drop n (drop s gs)) at 1. rewrite drop_drop. f_equal.
  apply list_eq. intros k. destruct (decide (k < n)%nat) as [Hk|Hk].
  - rewrite lookup_take_lt, lookup_drop, lookup_replicate_2 by done. apply Hz. lia.
  - rewrite lookup_take_ge by lia. symmetry. apply lookup_ge_None. rewrite length_replicate. lia.
Qed.

Lemma zeros_bound gs s n : zeros_at gs s n -> n <> 0%nat -> (s + n <= length gs)%nat.
Proof.
  intros Hz Hn. specialize (Hz (s + n - 1)%nat ltac:(lia)). apply lookup_lt_Some in Hz. lia.
Qed.

(** ** An address from its groups *)

Lemma of_groups_of n a : 0 <= a -> of_groups (groups_of n a) = a mod 65536 ^ Z.of_nat n.
Proof.
  intros Ha. unfold of_groups.
  assert (forall acc, fold_left (fun acc g => acc * 65536 + g) (groups_of n a) acc = acc * 65536 ^ Z.of_nat n + a mod 65536 ^ Z.of_nat n) as H.
  { induction n as [|n IH]; intros acc; cbn [groups_of fold_left].
    - rewrite Z.mod_1_r. change (65536 ^ Z.of_nat 0) with 1. lia.
    - rewrite IH. rewrite Nat2Z.inj_succ, Z.pow_succ_r by lia.
      assert (0 < 65536 ^ Z.of_nat n) as Hp by (apply Z.pow_pos_nonneg; lia).
      rewrite (Z.mul_comm 65536 (65536 ^ Z.of_nat n)), (Z.rem_mul_r a (65536 ^ Z.of_nat n) 65536) by lia. lia. }
  rewrite H. lia.
Qed.

Lemma groups_of_ok n a : groups_ok (groups_of n a) /\ length (groups_of n a) = n.
Proof. induction n as [|n [IH1 IH2]]; cbn; [by split; [constructor|]|]. split; [constructor; [dlia|done]|by rewrite IH2]. Qed.

Lemma hex_no_dot g : 0 <= g -> "."%char ∉ show_hex g.
Proof.
  intros Hg Hin. unfold show_hex in Hin. revert Hin Hg. generalize (S (Z.to_nat (Z.log2 g))). intros fuel. revert g.
  assert (forall d, 0 <= d < 16 -> "."%char <> hex_char d) as Hc.
  { intros d Hd E. pose proof (to_digit_hex d Hd) as Ht. by rewrite <- E in Ht. }
  induction fuel as [|f IH]; intros g; cbn [show_hex_fuel]; [by rewrite elem_of_nil|].
  destruct (Z.ltb_spec g 16).
  - intros Hin%list_elem_of_singleton Hg. by apply (Hc g ltac:(lia)).
  - intros [Hin|Hin%list_elem_of_singleton]%elem_of_app Hg; [by apply (IH (g / 16)); [|dlia]|]. by apply (Hc (g mod 16) ltac:(dlia)).
Qed.

Lemma groups_no_dot gs : groups_ok gs -> "."%char ∉ show_groups gs.
Proof.
  intros Hg Hin. apply join_elem in Hin as [H|(w & Hw & H)].
  - by apply list_elem_of_singleton in H.
  - apply list_elem_of_fmap in Hw as (g & -> & Hin). pose proof (proj1 (Forall_forall _ _) Hg g Hin). cbn in *.
    by apply (hex_no_dot g ltac:(lia)).
Qed.

Lemma render_ok gs left rest : after_groups rest -> groups_ok gs -> (length gs <= left)%nat -> "."%char ∉ rest ->
  read_groups left 0 (show_groups gs ++ rest) = (gs, false, rest).
Proof.
  intros Hr Hg Hl Hd. destruct (decide (gs = [])) as [->|Hn]; [by apply stop_groups|].
  apply (read_groups_show rest Hr gs left 0); [done|done|done|]. rewrite elem_of_app. intros [H|H]; [by apply groups_no_dot in H|done].
Qed.

(** Any eight groups, with a run of zeros left out or not. *)
Lemma read_v6_groups gs s n : groups_ok gs -> length gs = 8%nat -> zeros_at gs s n -> (1 < n)%nat ->
  read_ipv6 (show_groups (take s gs) ++ "::" ++ show_groups (drop (s + n) gs)) = Some (of_groups gs, []).
Proof.
  intros Hg Hl Hz Hn. pose proof (zeros_bound gs s n Hz ltac:(lia)) as Hb.
  assert (groups_ok (take s gs) /\ groups_ok (drop (s + n) gs)) as [Hg1 Hg2] by (split; [by apply Forall_take|by apply Forall_drop]).
  assert (length (take s gs) = s) as Hl1 by (rewrite length_take; lia).
  assert (length (drop (s + n) gs) = (8 - s - n)%nat) as Hl2 by (rewrite length_drop; lia).
  unfold read_ipv6. rewrite (render_ok _ 8 _); [|by right; eexists|done|lia|].
  - rewrite Hl1. destruct (Nat.eqb_spec s 8); [lia|].
    rewrite (proj2 (strip_prefix_Some (lit "::") _ (show_groups (drop (s + n) gs)))) by done. cbn [mbind option_bind].
    rewrite <- (app_nil_r (show_groups (drop (s + n) gs))).
    rewrite render_ok; [|by left|done|lia|apply not_elem_of_nil]. rewrite Hl2.
    replace (8 - s - (8 - s - n))%nat with n by lia. by rewrite <- (zeros_split gs s n Hz Hb).
  - rewrite elem_of_app. intros [H|H]; [|by apply groups_no_dot in H].
    apply list_elem_of_In in H. cbn in H. intuition discriminate.
Qed.

Lemma read_v6_full gs : groups_ok gs -> length gs = 8%nat -> read_ipv6 (show_groups gs) = Some (of_groups gs, []).
Proof.
  intros Hg Hl. unfold read_ipv6. rewrite <- (app_nil_r (show_groups gs)).
  rewrite render_ok; [|by left|done|lia|apply not_elem_of_nil]. by rewrite Hl.
Qed.

(** A mapped IPv4 address. *)
Lemma read_mapped a : 0 <= a < 2 ^ 32 -> read_ipv6 ("::ffff:" ++ show_v4 a) = Some (65535 * 2 ^ 32 + a, []).
Proof.
  intros Ha. unfold read_ipv6.
  assert (read_groups 8 0 ("::ffff:" ++ show_v4 a) = ([], false, "::ffff:" ++ show_v4 a)) as ->
    by (apply stop_groups; right; by exists (lit "ffff:" ++ show_v4 a)).
  cbn [length Nat.eqb Nat.sub].
  assert (strip_prefix "::" ("::ffff:" ++ show_v4 a) = Some (show_hex 65535 ++ lit ":" ++ show_v4 a)) as -> by reflexivity.
  cbn [mbind option_bind].
  assert (read_groups 7 0 (show_hex 65535 ++ lit ":" ++ show_v4 a) = ([65535; a / 65536; a mod 65536], true, [])) as ->.
  { cbn [read_groups with_colon]. rewrite read_group_show by (done || lia).
    assert (read_ipv4 (show_hex 65535 ++ lit ":" ++ show_v4 a) = None) as -> by reflexivity.
    rewrite (proj2 (strip_prefix_Some (lit ":") _ (show_v4 a))) by done. cbn [mbind option_bind].
    rewrite <- (app_nil_r (show_v4 a)), read_ipv4_show by done. done. }
  cbn [length Nat.sub replicate app]. unfold of_groups. cbn [fold_left]. do 2 f_equal. dlia.
Qed.

Lemma parse_show_v6 a : 0 <= a < 2 ^ 128 -> parse_ip (show_v6 a) = Some (V6 a).
Proof.
  intros Ha. unfold parse_ip.
  assert (read_ipv4 (show_v6 a) = None /\ read_ipv6 (show_v6 a) = Some (a, [])) as [-> ->]; [|done].
  unfold show_v6. destruct (Z.eqb_spec (a / 2 ^ 32) 65535) as [Hm|Hm].
  - split; [reflexivity|]. rewrite read_mapped by dlia. do 2 f_equal. dlia.
  - destruct (groups_of_ok 8 a) as [Hg Hl]. pose proof (of_groups_of 8 a ltac:(lia)) as Hof.
    change (65536 ^ Z.of_nat 8) with (2 ^ 128) in Hof. rewrite Z.mod_small in Hof by lia.
    destruct (zero_run 0 0 0 0 0 (groups_of 8 a)) as [s n] eqn:Ez.
    assert (zeros_at (groups_of 8 a) s n) as Hz
      by (eapply zero_run_spec in Ez; [exact Ez|done|intros k Hk; lia|intros k Hk; lia|by left]).
    destruct (Nat.ltb_spec 1 n).
    + rewrite read_v6_groups by done. rewrite Hof. split; [|done]. apply read_ipv4_no_dot.
      rewrite !elem_of_app. intros [Hin|[Hin|Hin]].
      * apply groups_no_dot in Hin; [done|by apply Forall_take].
      * apply list_elem_of_In in Hin. cbn in Hin. intuition discriminate.
      * apply groups_no_dot in Hin; [done|by apply Forall_drop].
    + rewrite read_v6_full, Hof by done. split; [|done]. apply read_ipv4_no_dot. by apply groups_no_dot.
Qed.

Lemma parse_show_ip ip : ip_ok ip -> parse_ip (show_ip ip) = Some ip.
Proof. destruct ip as [a|a]; cbn [ip_ok show_ip]; [apply parse_ip_show_v4|apply parse_show_v6]. Qed.

Lemma cidr_parse_show c : cidr_ok c -> cidr_parse (show_cidr c) = Ok c.
Proof.
  destruct c as [ip p]. intros [Hip Hp]. cbn [cidr_base cidr_prefix] in *.
  unfold cidr_parse, show_cidr, show_cidr_parts. cbn [cidr_base cidr_prefix].
  change (lit "/" ++ show_uint p) with ("/"%char :: show_uint p).
  rewrite split_once_app by (by apply addr_char_not; [apply show_ip_chars|]).
  assert (ip_width ip <= 128) by (unfold ip_width; destruct ip; cbn; lia).
  unfold parse_u8. rewrite parse_show_uint by lia. cbn [ok_or mbind res_bind].
  rewrite parse_show_ip by done. cbn [ok_or mbind res_bind default from_option id].
  rewrite (proj2 (Z.ltb_ge _ _)); [done|]. unfold max_prefix. unfold ip_width in Hp. lia.
Qed.

(** The printed forms are read back: every IPv4 and IPv6 address, whatever
    its run of zero groups, and every range of a valid prefix; and what the
    parser accepts it prints in a form it accepts again. *)
Theorem address_text_reads_back (ip : IpAddr) (c : IpCidr) (s : str) (Hip : ip_ok ip) (Hc : cidr_ok c) :
  parse_ip (show_ip ip) = Some ip /\ cidr_parse (show_cidr c) = Ok c /\
  (forall ip', parse_ip s = Some ip' -> parse_ip (show_ip ip') = Some ip') /\
  (forall c', cidr_parse s = Ok c' -> cidr_parse (show_cidr c') = Ok c').
Proof.
  split; [by apply parse_show_ip|]. split; [by apply cidr_parse_show|]. split.
  - intros ip' H%parse_ip_ok. by apply parse_show_ip.
  - intros c' H%cidr_parse_ok. by apply cidr_parse_show.
Qed.

Lemma address_text_reads_back_witness :
  let ip := V6 (0x20010db8 * 2 ^ 96 + 1) in
  let c := {| cidr_base := V6 (0xfe80 * 2 ^ 112); cidr_prefix := 10 |} in
  show_ip ip = lit "2001:db8::1" /\ show_cidr c = lit "fe80::/10" /\
  parse_ip (show_ip ip) = Some ip /\ cidr_parse (show_cidr c) = Ok c.
Proof.
  intros ip c. assert (ip_ok ip) as Hip by (unfold ip, ip_ok; cbn; lia).
  assert (cidr_ok c) as Hc by (unfold c; split; unfold ip_ok, ip_width; cbn; lia).
  split; [by vm_compute|]. split; [by vm_compute|].
  pose proof (address_text_reads_back ip c [] Hip Hc) as (H1 & H2 & _). by split.
Defined.
