(* ===== verification/Split.v ===== *)
(** * Split tunnelling: configuration and the decision engine
    ([crates/core/src/split/config.rs], [crates/core/src/split/engine.rs]) *)

From S2P Require Import Prelude RustStr NetAddr Model Cidr.

Inductive SplitMode : Type := Inclusive | Exclusive.
Inductive SplitDriver : Type := WinpkFilter | WinDivert.

Inductive AppMatcher : Type :=
| ExePath (p : str)
| ProcessName (n : str).

Record ConnApp : Type := { exe_path : option str; process_name : option str }.

#[export] Instance SplitMode_eq_dec : EqDecision SplitMode.
Proof. solve_decision. Defined.
#[export] Instance SplitDriver_eq_dec : EqDecision SplitDriver.
Proof. solve_decision. Defined.
#[export] Instance AppMatcher_eq_dec : EqDecision AppMatcher.
Proof. solve_decision. Defined.

Definition is_separator (c : u8) : bool := is_char "\"%char c || is_char "/"%char c.

(** [path.rsplit(['\\', '/']).next()] *)
Definition file_name (path : str) : str :=
  match rfind_byte is_separator path with
  | Some i => drop (S i) path
  | None => path
  end.

Definition effective_name (app : ConnApp) : option str :=
  match process_name app with
  | Some n => Some n
  | None => file_name <$> exe_path app
  end.

(** [AppMatcher::matches] *)
Definition app_matches (m : AppMatcher) (app : ConnApp) : bool :=
  match m with
  | ExePath p =>
      match exe_path app with Some e => eq_ignore_ascii_case e p | None => false end
  | ProcessName n =>
      match effective_name app with Some x => eq_ignore_ascii_case x n | None => false end
  end.

Record SplitConfig : Type := {
  sc_mode : SplitMode;
  sc_apps : list AppMatcher;
  sc_inherit_children : bool;
  sc_kill_switch : bool;
  sc_force_direct_cidrs : list str;
  sc_force_tunnel_cidrs : list str;
  sc_server_endpoints : list str;
  sc_driver : SplitDriver
}.

#[export] Instance SplitConfig_eq_dec : EqDecision SplitConfig.
Proof. solve_decision. Defined.

Definition split_default : SplitConfig := {|
  sc_mode := Inclusive; sc_apps := []; sc_inherit_children := true; sc_kill_switch := false;
  sc_force_direct_cidrs := []; sc_force_tunnel_cidrs := []; sc_server_endpoints := [];
  sc_driver := WinpkFilter
|}.

Definition app_selected (cfg : SplitConfig) (app : ConnApp) : bool :=
  existsb (fun m => app_matches m app) (sc_apps cfg).

Definition ALWAYS_BYPASS_CIDRS : list str :=
  [ "10.0.0.0/8" : str; "172.16.0.0/12" : str; "192.168.0.0/16" : str; "127.0.0.0/8" : str;
    "169.254.0.0/16" : str; "224.0.0.0/4" : str; "255.255.255.255/32" : str;
    "::1/128" : str; "fe80::/10" : str; "fc00::/7" : str; "ff00::/8" : str ].

Inductive Action : Type := Direct | Tunnel | Block.

#[export] Instance Action_eq_dec : EqDecision Action.
Proof. solve_decision. Defined.

Record ConnRequest : Type := { cr_app : ConnApp; cr_dst_ip : IpAddr; cr_dst_port : Z }.

Inductive Route : Type := RouteDirect | RouteTunnel.

(** [cidrs_contain]: unparsable entries are skipped. *)
Definition cidrs_contain (l : list str) (ip : IpAddr) : bool :=
  existsb (fun c => cidr_contains c ip) (omap (fun s => res_ok (cidr_parse s)) l).

(** [endpoint_ip]: ["ip"] or ["ip:port"] *)
Definition endpoint_ip (e : str) : option IpAddr :=
  match parse_ip e with
  | Some ip => Some ip
  | None => '(host, _) ← rsplit_once ":" e; parse_ip host
  end.

(** [decide] *)
Definition split_decide (req : ConnRequest) (cfg : SplitConfig) (tunnel_up : bool) : Action :=
  if existsb (fun e => bool_decide (endpoint_ip e = Some (cr_dst_ip req))) (sc_server_endpoints cfg)
  then Direct
  else if cidrs_contain ALWAYS_BYPASS_CIDRS (cr_dst_ip req) then Direct
  else if cidrs_contain (sc_force_direct_cidrs cfg) (cr_dst_ip req) then Direct
  else
    let intended :=
      if cidrs_contain (sc_force_tunnel_cidrs cfg) (cr_dst_ip req) then RouteTunnel
      else
        let selected := app_selected cfg (cr_app req) in
        match sc_mode cfg with
        | Inclusive => if selected then RouteTunnel else RouteDirect
        | Exclusive => if selected then RouteDirect else RouteTunnel
        end in
    match intended with
    | RouteDirect => Direct
    | RouteTunnel =>
        if tunnel_up then Tunnel else if sc_kill_switch cfg then Block else Direct
    end.

(** ** Specification *)

(** An address listed by a range list: some entry denotes a range holding it. *)
Definition listed (l : list str) (ip : IpAddr) : Prop :=
  exists s c, s ∈ l /\ cidr_parse s = Ok c /\ in_cidr c ip.

(** The addresses that must never be captured, as arithmetic on the address:
    private, loopback, link-local, multicast and broadcast IPv4; loopback,
    link-local, unique-local and multicast IPv6. *)
Definition local_address (ip : IpAddr) : Prop :=
  match ip with
  | V4 a =>
      a / 2 ^ 24 = 10 \/ a / 2 ^ 20 = 172 * 16 + 1 \/ a / 2 ^ 16 = 192 * 256 + 168
      \/ a / 2 ^ 24 = 127 \/ a / 2 ^ 16 = 169 * 256 + 254 \/ a / 2 ^ 28 = 14 \/ a = 2 ^ 32 - 1
  | V6 a => a = 1 \/ a / 2 ^ 118 = 1018 \/ a / 2 ^ 121 = 126 \/ a / 2 ^ 120 = 255
  end.

(** The matcher's meaning: equality of the path, or of the process name (the
    last component of the path when no name is known), up to ASCII case. *)
Definition app_named (m : AppMatcher) (app : ConnApp) : Prop :=
  match m with
  | ExePath p => exists e, exe_path app = Some e /\ to_ascii_lowercase e = to_ascii_lowercase p
  | ProcessName n => exists x, effective_name app = Some x /\ to_ascii_lowercase x = to_ascii_lowercase n
  end.

Definition selected (cfg : SplitConfig) (app : ConnApp) : Prop :=
  exists m, m ∈ sc_apps cfg /\ app_named m app.

(** A destination exempted from capture. *)
Definition exempt (cfg : SplitConfig) (ip : IpAddr) : Prop :=
  (exists e, e ∈ sc_server_endpoints cfg /\ endpoint_ip e = Some ip)
  \/ local_address ip \/ listed (sc_force_direct_cidrs cfg) ip.

(** A connection meant for the tunnel when it is not exempted. *)
Definition intended (cfg : SplitConfig) (req : ConnRequest) : Prop :=
  listed (sc_force_tunnel_cidrs cfg) (cr_dst_ip req)
  \/ match sc_mode cfg with
     | Inclusive => selected cfg (cr_app req)
     | Exclusive => ~ selected cfg (cr_app req)
     end.

(** ** Lemmas *)

Lemma existsb_elem {A} (f : A -> bool) l : existsb f l = true <-> exists x, x ∈ l /\ f x = true.
Proof. rewrite existsb_exists. by setoid_rewrite list_elem_of_In. Qed.

Lemma cidrs_contain_spec l ip : ip_ok ip -> cidrs_contain l ip = true <-> listed l ip.
Proof.
  intros Hip. unfold cidrs_contain, listed. rewrite existsb_elem. split.
  - intros (c & Hc & Hin). apply list_elem_of_omap in Hc as (s & Hs & Hp).
    destruct (cidr_parse s) eqn:E; cbn in Hp; simplify_eq. exists s, c. split_and!; [done..|].
    apply contains_spec; [by eapply cidr_parse_ok|done|done].
  - intros (s & c & Hs & Hp & Hin). exists c. split.
    + apply list_elem_of_omap. exists s. by rewrite Hp.
    + apply contains_spec; [by eapply cidr_parse_ok|done|done].
Qed.

Lemma bypass_parsed :
  omap (fun s => res_ok (cidr_parse s)) ALWAYS_BYPASS_CIDRS =
  [ {| cidr_base := V4 (10 * 2 ^ 24); cidr_prefix := 8 |};
    {| cidr_base := V4 ((172 * 16 + 1) * 2 ^ 20); cidr_prefix := 12 |};
    {| cidr_base := V4 ((192 * 256 + 168) * 2 ^ 16); cidr_prefix := 16 |};
    {| cidr_base := V4 (127 * 2 ^ 24); cidr_prefix := 8 |};
    {| cidr_base := V4 ((169 * 256 + 254) * 2 ^ 16); cidr_prefix := 16 |};
    {| cidr_base := V4 (14 * 2 ^ 28); cidr_prefix := 4 |};
    {| cidr_base := V4 (2 ^ 32 - 1); cidr_prefix := 32 |};
    {| cidr_base := V6 1; cidr_prefix := 128 |};
    {| cidr_base := V6 (1018 * 2 ^ 118); cidr_prefix := 10 |};
    {| cidr_base := V6 (126 * 2 ^ 121); cidr_prefix := 7 |};
    {| cidr_base := V6 (255 * 2 ^ 120); cidr_prefix := 8 |} ].
Proof. vm_compute. reflexivity. Qed.

Lemma v4_block k s a p : s = 32 - p -> 0 <= p <= 32 -> 0 <= k * 2 ^ s < 2 ^ 32 -> 0 <= a < 2 ^ 32 ->
  v4_match (k * 2 ^ s) a p = true <-> a / 2 ^ s = k.
Proof.
  intros -> Hp Hk Ha. rewrite v4_match_spec by done. unfold same_network.
  assert (0 < 2 ^ (32 - p)) by (apply Z.pow_pos_nonneg; lia).
  rewrite Z.div_mul by lia. split; congruence.
Qed.

Lemma v6_block k s a p : s = 128 - p -> 0 <= p <= 128 -> 0 <= k * 2 ^ s < 2 ^ 128 -> 0 <= a < 2 ^ 128 ->
  v6_match (k * 2 ^ s) a p = true <-> a / 2 ^ s = k.
Proof.
  intros -> Hp Hk Ha. rewrite v6_match_spec by done. unfold same_network.
  assert (0 < 2 ^ (128 - p)) by (apply Z.pow_pos_nonneg; lia).
  rewrite Z.div_mul by lia. split; congruence.
Qed.

(** The built-in list covers exactly the local addresses. *)
Lemma bypass_spec ip : ip_ok ip -> cidrs_contain ALWAYS_BYPASS_CIDRS ip = true <-> local_address ip.
Proof.
  intros Hip. unfold cidrs_contain. rewrite bypass_parsed. unfold local_address.
  destruct ip as [a|a]; cbn [existsb cidr_contains cidr_base cidr_prefix];
    rewrite ?orb_false_r, ?orb_false_l, !orb_true_iff; unfold ip_ok in Hip; cbn in Hip.
  - rewrite !v4_block by (reflexivity || lia).
    replace (2 ^ 32 - 1) with ((2 ^ 32 - 1) * 2 ^ 0) at 1 by lia.
    rewrite v4_block by (reflexivity || lia). by rewrite Z.div_1_r.
  - rewrite !v6_block by (reflexivity || lia).
    replace 1 with (1 * 2 ^ 0) at 1 by lia.
    rewrite v6_block by (reflexivity || lia). by rewrite Z.div_1_r.
Qed.

Lemma eq_ignore_case_spec s t :
  eq_ignore_ascii_case s t = true <-> to_ascii_lowercase s = to_ascii_lowercase t.
Proof. apply bool_decide_eq_true. Qed.

Lemma app_matches_spec m app : app_matches m app = true <-> app_named m app.
Proof.
  unfold app_matches, app_named. destruct m as [p|n].
  - destruct (exe_path app) as [e|]; [rewrite eq_ignore_case_spec; split; [eauto|]|split; [done|]];
      by intros (x & [= <-] & ?).
  - destruct (effective_name app) as [e|]; [rewrite eq_ignore_case_spec; split; [eauto|]|split; [done|]];
      by intros (x & [= <-] & ?).
Qed.

Lemma app_selected_spec cfg app : app_selected cfg app = true <-> selected cfg app.
Proof. unfold app_selected, selected. rewrite existsb_elem. by setoid_rewrite app_matches_spec. Qed.

Lemma hairpin_spec ip l :
  existsb (fun e => bool_decide (endpoint_ip e = Some ip)) l = true
  <-> exists e, e ∈ l /\ endpoint_ip e = Some ip.
Proof. rewrite existsb_elem. by setoid_rewrite bool_decide_eq_true. Qed.

Lemma bool_spec (b : bool) (P : Prop) : (b = true <-> P) -> (b = true /\ P) \/ (b = false /\ ~ P).
Proof. destruct b; intuition congruence. Qed.

(** Splits on a boolean test and the proposition it decides. *)
Ltac split_test H := destruct (bool_spec _ _ H) as [[-> ?]|[-> ?]].

(** The three outcomes of the decision, in one statement. *)
Lemma decide_outcome req cfg up : ip_ok (cr_dst_ip req) ->
  split_decide req cfg up = Direct /\ (exempt cfg (cr_dst_ip req) \/ ~ intended cfg req \/ (up = false /\ sc_kill_switch cfg = false))
  \/ split_decide req cfg up = Tunnel /\ ~ exempt cfg (cr_dst_ip req) /\ intended cfg req /\ up = true
  \/ split_decide req cfg up = Block /\ ~ exempt cfg (cr_dst_ip req) /\ intended cfg req /\ up = false
      /\ sc_kill_switch cfg = true.
Proof.
  intros Hip. unfold split_decide, exempt, intended.
  split_test (hairpin_spec (cr_dst_ip req) (sc_server_endpoints cfg)); [left; split; [done|left; tauto]|].
  split_test (bypass_spec _ Hip); [left; split; [done|left; tauto]|].
  split_test (cidrs_contain_spec (sc_force_direct_cidrs cfg) _ Hip); [left; split; [done|left; tauto]|].
  assert (~ exempt cfg (cr_dst_ip req)) as Hex by (unfold exempt; tauto).
  fold (exempt cfg (cr_dst_ip req)).
  split_test (cidrs_contain_spec (sc_force_tunnel_cidrs cfg) _ Hip);
    [destruct up, (sc_kill_switch cfg); tauto|].
  pose proof (app_selected_spec cfg (cr_app req)) as Hs.
  destruct (sc_mode cfg); split_test Hs; destruct up, (sc_kill_switch cfg); tauto.
Qed.

(** ** Properties *)

(** C1. The decision is the priority ladder: an exempted destination (the VPN
    server itself, a local address, a user's direct range) goes out directly;
    otherwise a connection meant for the tunnel enters it when the tunnel is
    up, is blocked when it is down under the kill-switch, and goes out directly
    when it is down without one; anything else goes out directly. *)
Theorem decide_ladder (req : ConnRequest) (cfg : SplitConfig) (up : bool)
    (Hip : ip_ok (cr_dst_ip req)) :
  (split_decide req cfg up = Tunnel <->
     ~ exempt cfg (cr_dst_ip req) /\ intended cfg req /\ up = true)
  /\ (split_decide req cfg up = Block <->
     ~ exempt cfg (cr_dst_ip req) /\ intended cfg req /\ up = false /\ sc_kill_switch cfg = true)
  /\ (split_decide req cfg up = Direct <->
     exempt cfg (cr_dst_ip req) \/ ~ intended cfg req \/ (up = false /\ sc_kill_switch cfg = false)).
Proof.
  assert (up = true -> up = false -> False) as Hup by congruence.
  assert (sc_kill_switch cfg = true -> sc_kill_switch cfg = false -> False) as Hks by congruence.
  destruct (decide_outcome req cfg up Hip) as [[-> H]|[[-> H]|[-> H]]];
    (split; [|split]); split; intros Hi; first [reflexivity | discriminate Hi | tauto].
Qed.

(** C2. Whatever the configuration, local and VPN-server addresses are never
    captured or blocked. *)
Theorem local_never_captured (ip : IpAddr) (cfg : SplitConfig) (app : ConnApp) (port : Z) (up : bool)
    (Hip : ip_ok ip) (Hl : local_address ip \/ exists e, e ∈ sc_server_endpoints cfg /\ endpoint_ip e = Some ip) :
  split_decide {| cr_app := app; cr_dst_ip := ip; cr_dst_port := port |} cfg up = Direct.
Proof.
  unfold split_decide. cbn [cr_dst_ip]. split_test (hairpin_spec ip (sc_server_endpoints cfg)); [done|].
  split_test (bypass_spec _ Hip); [done|]. tauto.
Qed.

(** The two modes are opposite: for a destination that no list decides and a
    tunnel that is up, one mode captures exactly the connections the other lets
    out directly. *)
Theorem modes_are_opposite (req : ConnRequest) (cfg : SplitConfig)
    (Hip : ip_ok (cr_dst_ip req)) (Hex : ~ exempt cfg (cr_dst_ip req))
    (Hf : ~ listed (sc_force_tunnel_cidrs cfg) (cr_dst_ip req)) :
  let with_mode m := {| sc_mode := m; sc_apps := sc_apps cfg; sc_inherit_children := sc_inherit_children cfg;
    sc_kill_switch := sc_kill_switch cfg; sc_force_direct_cidrs := sc_force_direct_cidrs cfg;
    sc_force_tunnel_cidrs := sc_force_tunnel_cidrs cfg; sc_server_endpoints := sc_server_endpoints cfg;
    sc_driver := sc_driver cfg |} in
  split_decide req (with_mode Inclusive) true = Tunnel <->
  split_decide req (with_mode Exclusive) true = Direct.
Proof.
  intros with_mode. unfold split_decide, exempt, with_mode in *.
  cbn [sc_mode sc_apps sc_kill_switch sc_force_direct_cidrs sc_force_tunnel_cidrs sc_server_endpoints].
  split_test (hairpin_spec (cr_dst_ip req) (sc_server_endpoints cfg)); [tauto|].
  split_test (bypass_spec _ Hip); [tauto|].
  split_test (cidrs_contain_spec (sc_force_direct_cidrs cfg) _ Hip); [tauto|].
  split_test (cidrs_contain_spec (sc_force_tunnel_cidrs cfg) _ Hip); [tauto|].
  unfold app_selected. cbn [sc_apps]. by destruct (existsb _ _).
Qed.

(** ** Witnesses *)

Definition witness_app : ConnApp := {| exe_path := Some ("C:\Apps\Chrome.exe" : str); process_name := None |}.

Definition witness_cfg : SplitConfig := {|
  sc_mode := Inclusive; sc_apps := [ProcessName "chrome.EXE"]; sc_inherit_children := true;
  sc_kill_switch := true; sc_force_direct_cidrs := ["1.2.3.0/24" : str]; sc_force_tunnel_cidrs := [];
  sc_server_endpoints := ["9.9.9.9:443" : str]; sc_driver := WinpkFilter |}.

Definition witness_req : ConnRequest := {| cr_app := witness_app; cr_dst_ip := V4 (8 * 2 ^ 24 + 8); cr_dst_port := 443 |}.

Lemma witness_req_ok : ip_ok (cr_dst_ip witness_req).
Proof. unfold ip_ok. cbn. lia. Qed.

Lemma witness_not_exempt : ~ exempt witness_cfg (cr_dst_ip witness_req).
Proof.
  intros [(e & He & Hp)|[H|H]].
  - apply list_elem_of_singleton in He as ->. vm_compute in Hp. discriminate.
  - vm_compute in H. intuition discriminate.
  - apply (cidrs_contain_spec _ _ witness_req_ok) in H. vm_compute in H. discriminate.
Qed.

Lemma decide_ladder_witness :
  split_decide witness_req witness_cfg true = Tunnel /\ split_decide witness_req witness_cfg false = Block
  /\ intended witness_cfg witness_req.
Proof.
  split; [reflexivity|]. split; [reflexivity|].
  apply (proj1 (decide_ladder witness_req witness_cfg true witness_req_ok)). reflexivity.
Defined.

Lemma local_never_captured_witness :
  split_decide {| cr_app := witness_app; cr_dst_ip := V4 (10 * 2 ^ 24 + 7); cr_dst_port := 443 |} witness_cfg true = Direct.
Proof. apply local_never_captured; [vm_compute; split; congruence|left; left; reflexivity]. Defined.

Lemma modes_are_opposite_witness :
  split_decide witness_req {| sc_mode := Exclusive; sc_apps := sc_apps witness_cfg; sc_inherit_children := true;
    sc_kill_switch := true; sc_force_direct_cidrs := ["1.2.3.0/24" : str]; sc_force_tunnel_cidrs := [];
    sc_server_endpoints := ["9.9.9.9:443" : str]; sc_driver := WinpkFilter |} true = Direct.
Proof.
  refine (proj1 (modes_are_opposite witness_req witness_cfg witness_req_ok witness_not_exempt _) _); [|reflexivity].
  intros (s & c & Hs & _). apply elem_of_nil in Hs. done.
Defined.
