(* ===== verification/Domain.v ===== *)
(** * Domain rules of the routing engine ([crates/core/src/routing/domain.rs])
    and what it means for a host name to lie under a domain, which the geosite
    sets share. *)

From S2P Require Import Prelude RustStr.

Inductive DomainRule : Type :=
| Full (d : str)
| Suffix (d : str)
| Keyword (k : str).

#[export] Instance DomainRule_eq_dec : EqDecision DomainRule.
Proof. solve_decision. Defined.

(** The host as compared: no trailing dots, lower case. *)
Definition norm_host (host : str) : str := to_ascii_lowercase (trim_end_char "." host).

(** [DomainRule::matches] *)
Definition domain_matches (r : DomainRule) (host : str) : bool :=
  let h := norm_host host in
  match r with
  | Full d => bool_decide (h = to_ascii_lowercase d)
  | Suffix d =>
      let d := to_ascii_lowercase (trim_start_char "." d) in
      bool_decide (h = d) || ends_with ("." ++ d) h
  | Keyword k => contains (to_ascii_lowercase k) h
  end.

(** ** Specification *)

Definition labels (s : str) : list str := split_char "." s.

(** [h] is [d] or one of its subdomains: [d]'s labels end [h]'s. *)
Definition under (d h : str) : Prop := labels d `suffix_of` labels h.

Definition domain_means (r : DomainRule) (host : str) : Prop :=
  match r with
  | Full d => norm_host host = to_ascii_lowercase d
  | Suffix d => under (to_ascii_lowercase (trim_start_char "." d)) (norm_host host)
  | Keyword k => exists a b, norm_host host = a ++ to_ascii_lowercase k ++ b
  end.

(** ** Lemmas *)

Lemma labels_nonempty s : labels s <> [].
Proof. apply split_by_nonempty. Qed.

Lemma labels_inj s t : labels s = labels t -> s = t.
Proof.
  intros H. etransitivity; [symmetry; apply (join_split_char ".")|].
  unfold labels in H. rewrite H. apply join_split_char.
Qed.

Lemma labels_dot a d : labels (a ++ "."%char :: d) = labels a ++ labels d.
Proof. apply split_char_app_gen. Qed.

(** The label-wise meaning is the textual one. *)
Lemma under_iff d h : under d h <-> h = d \/ exists a, h = a ++ "."%char :: d.
Proof.
  unfold under. split.
  - intros ([|w L] & H); [left; by apply labels_inj|right].
    exists (join ["."%char] (w :: L)). rewrite <- (join_split_char "." h).
    fold (labels h). rewrite H, join_app by (done || apply labels_nonempty).
    unfold labels. by rewrite join_split_char.
  - intros [->|(a & ->)]; [done|]. rewrite labels_dot. by exists (labels a).
Qed.

Lemma under_dec_bool d h :
  bool_decide (h = d) || ends_with ("." ++ d) h = true <-> under d h.
Proof.
  rewrite under_iff, orb_true_iff, bool_decide_eq_true, ends_with_spec. done.
Qed.

Lemma domain_matches_spec r host : domain_matches r host = true <-> domain_means r host.
Proof.
  destruct r; cbn [domain_matches domain_means].
  - apply bool_decide_eq_true.
  - apply under_dec_bool.
  - apply contains_spec_str.
Qed.
