(* ===== verification/Routing.v ===== *)
(** * Routing rules, their evaluation and the presets
    ([crates/core/src/routing/rule.rs], [engine.rs], [preset.rs]) *)

From S2P Require Import Prelude RustStr NetAddr Model Cidr Split Domain.

Inductive RouteAction : Type :=
| ADirect
| AProxy (tag : option str)
| ABlock.

#[export] Instance RouteAction_eq_dec : EqDecision RouteAction.
Proof. solve_decision. Defined.

Record Rule : Type := {
  r_domains : list DomainRule;
  r_ip_cidrs : list IpCidr;
  r_processes : list AppMatcher;
  r_ports : list Z;
  r_geosite : list str;
  r_geoip : list str;
  r_action : RouteAction
}.

#[export] Instance Rule_eq_dec : EqDecision Rule.
Proof. solve_decision. Defined.

(** [Rule { action, ..Default::default() }] *)
Definition catch_all (a : RouteAction) : Rule := {|
  r_domains := []; r_ip_cidrs := []; r_processes := []; r_ports := []; r_geosite := [];
  r_geoip := []; r_action := a |}.

Record RouteRequest : Type := {
  q_domain : option str;
  q_ip : option IpAddr;
  q_port : Z;
  q_app : ConnApp
}.

Definition is_empty {A} (l : list A) : bool := match l with [] => true | _ => false end.

(** [match opt { Some(x) if pred(x) => {}, _ => return false }] *)
Definition some_and {A} (o : option A) (f : A -> bool) : bool :=
  match o with Some x => f x | None => false end.

(** [Rule::matches] *)
Definition rule_matches (r : Rule) (q : RouteRequest) : bool :=
  if negb (is_empty (r_geosite r)) || negb (is_empty (r_geoip r)) then false
  else if negb (is_empty (r_domains r))
          && negb (some_and (q_domain q) (fun h => existsb (fun d => domain_matches d h) (r_domains r)))
  then false
  else if negb (is_empty (r_ip_cidrs r))
          && negb (some_and (q_ip q) (fun ip => existsb (fun c => cidr_contains c ip) (r_ip_cidrs r)))
  then false
  else if negb (is_empty (r_processes r)) && negb (existsb (fun m => app_matches m (q_app q)) (r_processes r))
  then false
  else if negb (is_empty (r_ports r)) && negb (existsb (fun p => p =? q_port q) (r_ports r))
  then false
  else true.

(** [Rule::matches_sans_ip] *)
Definition rule_matches_sans_ip (r : Rule) (q : RouteRequest) : bool :=
  if negb (is_empty (r_geosite r)) || negb (is_empty (r_geoip r)) then false
  else if negb (is_empty (r_domains r))
          && negb (some_and (q_domain q) (fun h => existsb (fun d => domain_matches d h) (r_domains r)))
  then false
  else if negb (is_empty (r_processes r)) && negb (existsb (fun m => app_matches m (q_app q)) (r_processes r))
  then false
  else if negb (is_empty (r_ports r)) && negb (existsb (fun p => p =? q_port q) (r_ports r))
  then false
  else true.

(** [evaluate] *)
Fixpoint evaluate (rules : list Rule) (q : RouteRequest) (dflt : RouteAction) : RouteAction :=
  match rules with
  | [] => dflt
  | r :: rs => if rule_matches r q then r_action r else evaluate rs q dflt
  end.

(** ** Presets *)

Definition all_proxy : list Rule := [catch_all (AProxy None)].
Definition all_direct : list Rule := [catch_all ADirect].

Definition suffix_rule (suffixes : list str) (a : RouteAction) : Rule := {|
  r_domains := map Suffix suffixes; r_ip_cidrs := []; r_processes := []; r_ports := [];
  r_geosite := []; r_geoip := []; r_action := a |}.

Definition direct_domains (suffixes : list str) : list Rule :=
  map (fun s => suffix_rule [s] ADirect) suffixes.

Definition bypass_ru : list Rule :=
  [ suffix_rule ["ru" : str; "su" : str; "xn--p1ai" : str; "vk.com" : str; "vk.cc" : str;
                 "userapi.com" : str; "mycdn.me" : str] ADirect;
    catch_all (AProxy None) ].

Definition discord_only : list Rule :=
  [ suffix_rule ["discord.com" : str; "discord.gg" : str; "discordapp.com" : str;
                 "discordapp.net" : str; "discord.media" : str; "discordcdn.com" : str] (AProxy None);
    catch_all ADirect ].

Definition presets : list (str * str * str * list Rule) :=
  [ ("all-proxy" : str, "Всё через прокси" : str, "Весь трафик идёт через выбранный узел." : str, all_proxy);
    ("all-direct" : str, "Всё напрямую" : str,
     "Весь трафик идёт напрямую (прокси отключён правилами)." : str, all_direct);
    ("bypass-ru" : str, "Обход РФ" : str,
     "Российские домены (.ru/.рф, VK и др.) — напрямую, остальное — в прокси." : str, bypass_ru);
    ("discord" : str, "Только Discord" : str, "Discord — через прокси, остальной трафик — напрямую." : str,
     discord_only) ].

(** ** Specification *)

(** A category of criteria holds when it is empty or one of its values does. *)
Definition category {A} (l : list A) (holds : A -> Prop) : Prop := l = [] \/ exists x, x ∈ l /\ holds x.

(** The categories that do not look at the address. *)
Definition applies_sans_ip (r : Rule) (q : RouteRequest) : Prop :=
  r_geosite r = [] /\ r_geoip r = []
  /\ category (r_domains r) (fun d => exists h, q_domain q = Some h /\ domain_means d h)
  /\ category (r_processes r) (fun m => app_named m (q_app q))
  /\ category (r_ports r) (fun p => p = q_port q).

Definition applies (r : Rule) (q : RouteRequest) : Prop :=
  applies_sans_ip r q
  /\ category (r_ip_cidrs r) (fun c => exists ip, q_ip q = Some ip /\ in_cidr c ip).

(** The type invariants of a rule and a request: addresses fit their family. *)
Definition rule_ok (r : Rule) : Prop := Forall cidr_ok (r_ip_cidrs r).
Definition request_ok (q : RouteRequest) : Prop := forall ip, q_ip q = Some ip -> ip_ok ip.

(** The request with the address that a resolution gives. *)
Definition with_ip (q : RouteRequest) (ip : IpAddr) : RouteRequest :=
  {| q_domain := q_domain q; q_ip := Some ip; q_port := q_port q; q_app := q_app q |}.

(** ** Lemmas *)

Lemma category_test {A} (l : list A) (f : A -> bool) (P : A -> Prop) :
  (forall x, x ∈ l -> f x = true <-> P x) ->
  negb (is_empty l) && negb (existsb f l) = false <-> category l P.
Proof.
  intros H. unfold category. rewrite andb_false_iff, !negb_false_iff, existsb_elem.
  destruct l as [|x l]; cbn [is_empty]; [by intuition|].
  split; [intros [?|(y & Hy & Hf)]; [done|right; exists y; split; [done|by apply H]]|].
  intros [?|(y & Hy & Hp)]; [done|]. right. exists y. split; [done|by apply H].
Qed.

Lemma category_test_opt {A B} (l : list A) (o : option B) (f : A -> B -> bool) (P : A -> B -> Prop) :
  (forall x b, x ∈ l -> o = Some b -> f x b = true <-> P x b) ->
  negb (is_empty l) && negb (some_and o (fun b => existsb (fun x => f x b) l)) = false
  <-> category l (fun x => exists b, o = Some b /\ P x b).
Proof.
  intros H. destruct o as [b|]; cbn [some_and].
  - rewrite (category_test l (fun x => f x b) (fun x => exists b', Some b = Some b' /\ P x b')); [done|].
    intros x Hx. rewrite (H x b Hx eq_refl). split; [eauto|]. by intros (? & [= <-] & ?).
  - unfold category. destruct l as [|x l]; cbn; [by intuition|]. split; [done|].
    intros [?|(y & _ & b & ? & _)]; done.
Qed.

Lemma if_false_else (b c : bool) : (if b then false else c) = true <-> b = false /\ c = true.
Proof. destruct b, c; intuition congruence. Qed.

Lemma geo_test (r : Rule) :
  negb (is_empty (r_geosite r)) || negb (is_empty (r_geoip r)) = false
  <-> r_geosite r = [] /\ r_geoip r = [].
Proof. destruct (r_geosite r), (r_geoip r); cbn; intuition congruence. Qed.

(** The criteria tests of a rule, each as its category. *)
Lemma rule_matches_sans_ip_spec r q : rule_matches_sans_ip r q = true <-> applies_sans_ip r q.
Proof.
  unfold rule_matches_sans_ip, applies_sans_ip. rewrite !if_false_else, geo_test.
  rewrite (category_test_opt _ _ domain_matches domain_means) by (intros; apply domain_matches_spec).
  rewrite (category_test _ _ (fun m => app_named m (q_app q))) by (intros; apply app_matches_spec).
  rewrite (category_test _ _ (fun p => p = q_port q)) by (intros; apply Z.eqb_eq). tauto.
Qed.

Lemma rule_matches_spec r q : rule_ok r -> request_ok q -> rule_matches r q = true <-> applies r q.
Proof.
  intros Hr Hq. unfold rule_matches, applies, applies_sans_ip. rewrite !if_false_else, geo_test.
  rewrite (category_test_opt _ _ domain_matches domain_means) by (intros; apply domain_matches_spec).
  rewrite (category_test _ _ (fun m => app_named m (q_app q))) by (intros; apply app_matches_spec).
  rewrite (category_test _ _ (fun p => p = q_port q)) by (intros; apply Z.eqb_eq).
  rewrite (category_test_opt _ _ cidr_contains in_cidr); [tauto|].
  intros c ip Hc Hip. apply contains_spec; [|by apply Hq].
  unfold rule_ok in Hr. rewrite Forall_forall in Hr. by apply Hr.
Qed.

Lemma evaluate_app rs r ss q a : Forall (fun s => rule_matches s q = false) rs -> rule_matches r q = true ->
  evaluate (rs ++ r :: ss) q a = r_action r.
Proof. intros Hrs Hr. induction Hrs as [|s rs Hs _ IH]; cbn; [by rewrite Hr|by rewrite Hs]. Qed.

Lemma evaluate_none rs q a : Forall (fun s => rule_matches s q = false) rs -> evaluate rs q a = a.
Proof. induction 1 as [|s rs Hs _ IH]; cbn; [done|by rewrite Hs]. Qed.

(** Either no rule matches or there is a first one that does. *)
Lemma first_match (rs : list Rule) (f : Rule -> bool) :
  Forall (fun s => f s = false) rs
  \/ exists pre r post, rs = pre ++ r :: post /\ Forall (fun s => f s = false) pre /\ f r = true.
Proof.
  induction rs as [|r rs IH]; [by left|]. destruct (f r) eqn:E.
  - right. by exists [], r, rs.
  - destruct IH as [IH|(pre & s & post & -> & Hp & Hs)]; [left; by constructor|].
    right. exists (r :: pre), s, post. split; [done|]. split; [by constructor|done].
Qed.

(** Suffix rules and catch-alls, as the presets use them: no address is looked at. *)
Lemma suffix_rule_matches ds a q : ds <> [] ->
  rule_matches (suffix_rule ds a) q = true
  <-> exists h d, q_domain q = Some h /\ d ∈ ds /\ domain_means (Suffix d) h.
Proof.
  intros Hne.
  assert (rule_matches (suffix_rule ds a) q = rule_matches_sans_ip (suffix_rule ds a) q) as ->
    by reflexivity.
  rewrite rule_matches_sans_ip_spec. unfold applies_sans_ip, category. cbn [suffix_rule r_geosite r_geoip
    r_domains r_processes r_ports]. split.
  - intros (_ & _ & [H|(x & Hx & h & Hh & Hm)] & _); [by destruct ds|].
    apply list_elem_of_In, in_map_iff in Hx as (d & <- & Hd%list_elem_of_In). by exists h, d.
  - intros (h & d & Hh & Hd & Hm). split_and!; auto. right. exists (Suffix d).
    split; [apply list_elem_of_In, in_map_iff; exists d; by rewrite <- list_elem_of_In|by exists h].
Qed.

Lemma catch_all_matches a q : rule_matches (catch_all a) q = true.
Proof. reflexivity. Qed.

Lemma evaluate_two r a q d :
  evaluate [r; catch_all a] q d = if rule_matches r q then r_action r else a.
Proof. cbn [evaluate]. by rewrite catch_all_matches. Qed.

(** ** Properties *)

(** A rule matches exactly when every non-empty category of criteria has a
    value that holds (AND between categories, OR inside one), with a domain
    suffix meaning the domain or any of its subdomains, label by label, and an
    address range its leading bits; a rule with geo criteria is never confirmed
    here; and a list of rules gives the action of the first rule that applies,
    the default when none does. *)
Theorem evaluate_first_match (rules : list Rule) (q : RouteRequest) (dflt : RouteAction)
    (Hr : Forall rule_ok rules) (Hq : request_ok q) :
  (evaluate rules q dflt = dflt /\ Forall (fun r => ~ applies r q) rules)
  \/ exists pre r post, rules = pre ++ r :: post /\ Forall (fun s => ~ applies s q) pre /\ applies r q
       /\ evaluate rules q dflt = r_action r.
Proof.
  assert (forall l, Forall rule_ok l -> Forall (fun s => rule_matches s q = false) l ->
            Forall (fun s => ~ applies s q) l) as Hno.
  { intros l Hl Hf. rewrite Forall_forall in Hl, Hf |- *. intros s Hs.
    rewrite <- rule_matches_spec by auto. by rewrite Hf. }
  destruct (first_match rules (fun s => rule_matches s q)) as [H|(pre & r & post & -> & Hp & Hm)].
  - left. split; [by apply evaluate_none|by apply Hno].
  - apply Forall_app in Hr as [Hpre Hr]. apply Forall_cons in Hr as [Hr _].
    right. exists pre, r, post. split_and!; [done|by apply Hno|by apply rule_matches_spec|by apply evaluate_app].
Qed.

(** Lazy resolution is sound and complete: a rule with address ranges matches
    a request whose address is only known after resolution exactly when it
    matches without the ranges and the resolved address lies in one of them; the
    unresolved request it never matches; and without ranges the two matchers
    agree. *)
Theorem lazy_resolution (r : Rule) (q : RouteRequest) (ip : IpAddr) :
  (r_ip_cidrs r <> [] ->
     rule_matches r (with_ip q ip)
     = rule_matches_sans_ip r q && existsb (fun c => cidr_contains c ip) (r_ip_cidrs r)
     /\ (q_ip q = None -> rule_matches r q = false))
  /\ (r_ip_cidrs r = [] -> rule_matches r q = rule_matches_sans_ip r q).
Proof.
  unfold rule_matches, rule_matches_sans_ip. cbn [with_ip q_ip q_domain q_app q_port some_and].
  destruct (r_ip_cidrs r) as [|c cs]; cbn [is_empty negb andb].
  - split; [done|]. by intros _.
  - split; [|done]. intros _. split.
    + destruct (existsb _ (c :: cs)); cbn [negb]; [by rewrite andb_true_r|].
      rewrite andb_false_r. by repeat case_match.
    + intros ->. cbn. by repeat case_match.
Qed.

(** The presets decide every request themselves (the engine's default is
    never used): [bypass-ru] sends a request out directly exactly when its host
    is one of the listed domains or below one of them, and [discord] proxies
    exactly the listed domains. *)
Theorem presets_decide (q : RouteRequest) (dflt : RouteAction) :
  let named ds := exists h d, q_domain q = Some h /\ d ∈ map (lit : String.string -> str) ds /\ under d (norm_host h) in
  evaluate all_proxy q dflt = AProxy None /\ evaluate all_direct q dflt = ADirect
  /\ (evaluate bypass_ru q dflt = ADirect
        <-> named ["ru"; "su"; "xn--p1ai"; "vk.com"; "vk.cc"; "userapi.com"; "mycdn.me"]%string)
  /\ (evaluate bypass_ru q dflt = AProxy None \/ evaluate bypass_ru q dflt = ADirect)
  /\ (evaluate discord_only q dflt = AProxy None
        <-> named ["discord.com"; "discord.gg"; "discordapp.com"; "discordapp.net"; "discord.media";
                  "discordcdn.com"]%string)
  /\ (evaluate discord_only q dflt = AProxy None \/ evaluate discord_only q dflt = ADirect).
Proof.
  intros named. split; [done|]. split; [done|]. unfold bypass_ru, discord_only. rewrite !evaluate_two.
  assert (forall ds a, Forall (fun d => to_ascii_lowercase (trim_start_char "." d) = d) ds -> ds <> [] ->
    rule_matches (suffix_rule ds a) q = true <->
    exists h d, q_domain q = Some h /\ d ∈ ds /\ under d (norm_host h)) as H.
  { intros ds a Hds Hne. rewrite suffix_rule_matches by done. rewrite Forall_forall in Hds.
    split; intros (h & d & Hh & Hd & Hm); exists h, d; split_and!; try done; cbn [domain_means] in *;
      by rewrite (Hds d Hd) in *. }
  unfold named. cbn [map].
  split_and!; [rewrite <- (H _ ADirect) by (by repeat constructor)| |
    rewrite <- (H _ (AProxy None)) by (by repeat constructor)|]; destruct (rule_matches _ q); cbn; intuition (try congruence).
Qed.

(** ** Witnesses *)

Definition witness_rules : list Rule :=
  [ {| r_domains := [Keyword "ads"]; r_ip_cidrs := []; r_processes := []; r_ports := [443]; r_geosite := [];
       r_geoip := []; r_action := ABlock |};
    {| r_domains := []; r_ip_cidrs := [{| cidr_base := V4 0; cidr_prefix := 1 |}]; r_processes := []; r_ports := [];
       r_geosite := []; r_geoip := []; r_action := AProxy None |} ].

Definition witness_request : RouteRequest :=
  {| q_domain := Some ("cdn.example.com" : str); q_ip := Some (V4 7); q_port := 443;
     q_app := {| exe_path := None; process_name := None |} |}.

Lemma evaluate_first_match_witness : exists r, evaluate witness_rules witness_request ADirect = r_action r /\ applies r witness_request.
Proof.
  destruct (evaluate_first_match witness_rules witness_request ADirect) as [[H _]|(pre & r & post & _ & _ & Ha & H)].
  - repeat constructor; cbn; lia.
  - intros ip [= <-]. unfold ip_ok. cbn. lia.
  - vm_compute in H. discriminate.
  - by exists r.
Defined.
