(* ===== verification/Protobuf.v ===== *)
(** * The protobuf reader of the geo databases
    ([crates/core/src/geo/protobuf.rs], error type of [geo/mod.rs]) *)

From S2P Require Import Prelude RustStr Utf8.

Inductive GeoError : Type :=
| Truncated
| Malformed (s : str)
| Io (s : str).

(** [impl Display for GeoError] *)
Definition show_geo_error (e : GeoError) : str :=
  match e with
  | Truncated => "geo: данные оборваны"
  | Malformed s => lit "geo: некорректный формат: " ++ s
  | Io s => lit "geo: ошибка ввода-вывода: " ++ s
  end.

Record Reader : Type := { rd_buf : bytes; rd_pos : nat }.

Definition WIRE_VARINT : Z := 0.
Definition WIRE_I64 : Z := 1.
Definition WIRE_LEN : Z := 2.
Definition WIRE_I32 : Z := 5.

Definition reader_new (buf : bytes) : Reader := {| rd_buf := buf; rd_pos := 0 |}.

Definition eof (r : Reader) : bool := (length (rd_buf r) <=? rd_pos r)%nat.

(** [self.pos += n] *)
Definition move (n : nat) (r : Reader) : Reader := {| rd_buf := rd_buf r; rd_pos := rd_pos r + n |}.

(** [read_varint]: at most ten bytes carry a value, the eleventh is refused. *)
Definition varint_body (st : Reader * Z * Z) : res GeoError (Reader * Z * Z + Z * Reader) :=
  let '(r, result, shift) := st in
  if (length (rd_buf r) <=? rd_pos r)%nat then Err Truncated
  else
    byte ← unwrap (rd_buf r !! rd_pos r);
    let r := move 1 r in
    if 64 <=? shift then Err (Malformed "varint длиннее 10 байт")
    else
      let result := Z.lor result (Z.shiftl (Z.land (val8 byte) 127) shift mod 2 ^ 64) in
      if Z.land (val8 byte) 128 =? 0 then Ok (inr (result, r))
      else Ok (inl (r, result, shift + 7)).

Definition read_varint (r : Reader) : res GeoError (Z * Reader) := loop 12 varint_body (r, 0, 0).

Definition read_tag (r : Reader) : res GeoError (Z * Z * Reader) :=
  '(key, r) ← read_varint r;
  let field := Z.shiftr key 3 in
  let wire := Z.land key 7 in
  if field =? 0 then Err (Malformed "нулевой номер поля") else Ok (field, wire, r).

(** [self.pos.checked_add(n).ok_or(Truncated)] and the bound check; a [usize]
    has 64 bits. *)
Definition checked_end (n : Z) (r : Reader) : res GeoError nat :=
  end_ ← ok_or (if Z.of_nat (rd_pos r) + n <? 2 ^ 64 then Some (Z.of_nat (rd_pos r) + n) else None) Truncated;
  if Z.of_nat (length (rd_buf r)) <? end_ then Err Truncated else Ok (Z.to_nat end_).

Definition read_bytes (r : Reader) : res GeoError (bytes * Reader) :=
  '(len, r) ← read_varint r;
  end_ ← checked_end len r;
  Ok (slice (rd_pos r) end_ (rd_buf r), {| rd_buf := rd_buf r; rd_pos := end_ |}).

Definition read_string (r : Reader) : res GeoError (str * Reader) :=
  '(b, r) ← read_bytes r; Ok (from_utf8_lossy b, r).

Definition advance (n : Z) (r : Reader) : res GeoError Reader :=
  end_ ← checked_end n r; Ok {| rd_buf := rd_buf r; rd_pos := end_ |}.

Definition skip (wire : Z) (r : Reader) : res GeoError Reader :=
  if wire =? WIRE_VARINT then '(_, r) ← read_varint r; Ok r
  else if wire =? WIRE_I64 then advance 8 r
  else if wire =? WIRE_LEN then '(_, r) ← read_bytes r; Ok r
  else if wire =? WIRE_I32 then advance 4 r
  else Err (Malformed "неизвестный wire type").

(** The loop [while !r.eof() { let (field, wire) = r.read_tag()?; .. }] that
    every message parser has; [handle] is the [match] on the tag. *)
Definition message_loop {T} (handle : Z -> Z -> T -> Reader -> res GeoError (T * Reader))
    (buf : bytes) (init : T) : res GeoError T :=
  loop (S (length buf))
    (fun '(st, r) =>
       if eof r then Ok (inr st)
       else '(field, wire, r) ← read_tag r; '(st, r) ← handle field wire st r; Ok (inl (st, r)))
    (init, reader_new buf).

(** ** Specification: encoding of fields *)

Fixpoint encode_varint_fuel (fuel : nat) (z : Z) : bytes :=
  match fuel with
  | O => []
  | S f => if z <? 128 then [to_u8 z] else to_u8 (z mod 128 + 128) :: encode_varint_fuel f (z / 128)
  end.

Definition encode_varint (z : Z) : bytes := encode_varint_fuel 10 z.

Inductive field_value : Type :=
| FVarint (z : Z)
| FBytes (b : bytes)
| FFixed64 (b : bytes)
| FFixed32 (b : bytes).

Definition wire_of (v : field_value) : Z :=
  match v with FVarint _ => 0 | FFixed64 _ => 1 | FBytes _ => 2 | FFixed32 _ => 5 end.

Definition payload_of (v : field_value) : bytes :=
  match v with
  | FVarint z => encode_varint z
  | FBytes b => encode_varint (Z.of_nat (length b)) ++ b
  | FFixed64 b => b
  | FFixed32 b => b
  end.

Definition encode_field (f : Z * field_value) : bytes :=
  encode_varint (fst f * 8 + wire_of (snd f)) ++ payload_of (snd f).

Definition encode_fields (fs : list (Z * field_value)) : bytes := concat (map encode_field fs).

Definition value_ok (v : field_value) : Prop :=
  match v with
  | FVarint z => 0 <= z < 2 ^ 64
  | FBytes b => True
  | FFixed64 b => length b = 8%nat
  | FFixed32 b => length b = 4%nat
  end.

Definition field_ok (f : Z * field_value) : Prop := 0 < fst f < 2 ^ 61 /\ value_ok (snd f).

(** [for f in fs { st = g(f, st)?; }] *)
Fixpoint fold_res {E T F} (g : F -> T -> res E T) (fs : list F) (st : T) : res E T :=
  match fs with
  | [] => Ok st
  | f :: fs' => st ← g f st; fold_res g fs' st
  end.

(** ** Safety: the position stays inside the buffer and only grows *)

Definition reader_ok (r : Reader) : Prop := (rd_pos r <= length (rd_buf r))%nat.

(** [r'] is a later state of [r], at least [n] bytes on. *)
Definition later (n : nat) (r r' : Reader) : Prop :=
  rd_buf r' = rd_buf r /\ (rd_pos r + n <= rd_pos r')%nat /\ reader_ok r'.

Lemma later_trans a b r r' r'' : later a r r' -> later b r' r'' -> later (a + b) r r''.
Proof. unfold later. intros (H1 & ? & ?) (H2 & ? & ?). split_and!; [congruence|lia|done]. Qed.

Lemma varint_body_spec r result shift :
  reader_ok r ->
  no_panic (varint_body (r, result, shift))
  /\ (forall x, varint_body (r, result, shift) = Ok x -> 0 <= result -> 0 <= shift ->
        shift < 64 /\ later 1 r (move 1 r)
        /\ exists v, 0 <= v /\ (x = inl (move 1 r, v, shift + 7) \/ x = inr (v, move 1 r))).
Proof.
  intros Hr. unfold varint_body, reader_ok in *. destruct (Nat.leb_spec (length (rd_buf r)) (rd_pos r)).
  { split; [discriminate|done]. }
  destruct (lookup_lt_is_Some_2 (rd_buf r) (rd_pos r)) as [b Hb]; [lia|]. rewrite Hb. cbn.
  destruct (Z.leb_spec 64 shift); [split; [discriminate|done]|].
  set (v := Z.lor _ _). assert (0 <= result -> 0 <= v) as Hv.
  { intros. apply Z.lor_nonneg. split; [done|]. apply Z.mod_pos_bound. lia. }
  split; [by destruct (_ =? 0)|]. intros x Hx Hres Hs.
  split; [done|]. split; [unfold later, reader_ok; cbn; split_and!; [done|lia|lia]|].
  exists v. split; [auto|]. destruct (_ =? 0); simplify_eq; auto.
Qed.

Lemma read_varint_no_panic r : reader_ok r -> no_panic (read_varint r).
Proof.
  intros Hr. unfold read_varint.
  apply (loop_no_panic _ (fun '(r, result, shift) => reader_ok r /\ 0 <= result /\ 0 <= shift <= 70)
           (fun '(r, result, shift) => Z.to_nat (70 - shift) / 7)%nat); [| |by split_and!|by apply Nat.ltb_lt].
  - intros [[r' v] s] (H & _). by apply varint_body_spec.
  - intros [[r' v] s] [[r'' v'] s'] (H & Hv & Hs) E. apply varint_body_spec in E; [|done|done|lia].
    destruct E as (Hlt & (_ & _ & Hok) & w & Hw & [E|E]); simplify_eq.
    split; [split_and!; [done|done|lia|lia]|].
    replace (Z.to_nat (70 - s)) with (Z.to_nat (70 - (s + 7)) + 1 * 7)%nat by lia.
    rewrite Nat.div_add by lia. lia.
Qed.

Lemma read_varint_later r v r' : reader_ok r -> read_varint r = Ok (v, r') -> later 1 r r' /\ 0 <= v.
Proof.
  intros Hr. unfold read_varint. cbn [loop].
  set (Inv := fun st : Reader * Z * Z =>
    let '(q, res, sh) := st in (q = r \/ later 1 r q) /\ reader_ok q /\ 0 <= res /\ 0 <= sh).
  intros H. apply (loop_post varint_body Inv (fun '(v, q) => later 1 r q /\ 0 <= v)) with (fuel := 12%nat) (s := (r, 0, 0))
    (a := (v, r')); [| |unfold Inv; split_and!; auto; lia|exact H]; clear H.
  - intros [[q w] s] x (Hq & Hok & Hw & Hs) E. apply varint_body_spec in E; [|done..].
    destruct E as (_ & Hl & u & Hu & [E|E]); simplify_eq. unfold Inv.
    assert (later 1 r (move 1 q)) by (destruct Hq as [->|Hq]; [done|]; destruct (later_trans _ _ _ _ _ Hq Hl) as (? & ? & ?); split_and!; auto; lia).
    split_and!; [by right|by destruct Hl as (_ & _ & ?)|done|lia].
  - intros [[q w] s] [u q'] (Hq & Hok & Hw & Hs) E. apply varint_body_spec in E; [|done..].
    destruct E as (_ & Hl & u' & Hu & [E|E]); simplify_eq. split; [|done].
    destruct Hq as [->|Hq]; [done|]; destruct (later_trans _ _ _ _ _ Hq Hl) as (? & ? & ?); split_and!; auto; lia.
Qed.

Lemma checked_end_spec n r :
  no_panic (checked_end n r) /\
  forall e, checked_end n r = Ok e -> 0 <= n ->
    e = (rd_pos r + Z.to_nat n)%nat /\ (e <= length (rd_buf r))%nat.
Proof.
  unfold checked_end. destruct (Z.ltb_spec (Z.of_nat (rd_pos r) + n) (2 ^ 64)); cbn; [|by split].
  destruct (Z.ltb_spec (Z.of_nat (length (rd_buf r))) (Z.of_nat (rd_pos r) + n)); [by split|].
  split; [done|]. intros e [= <-] Hn. lia.
Qed.

Lemma read_bytes_no_panic r : reader_ok r -> no_panic (read_bytes r).
Proof.
  intros Hr. apply no_panic_bind; [by apply read_varint_no_panic|]. intros [n q] _.
  apply no_panic_bind; [apply checked_end_spec|]. done.
Qed.

Lemma read_bytes_later r b r' : reader_ok r -> read_bytes r = Ok (b, r') -> later 1 r r'.
Proof.
  intros Hr H. apply ok_bind in H as ([n q] & Hq & H). apply ok_bind in H as (e & He & H). simplify_eq.
  apply read_varint_later in Hq as [(Hb & Hp & Hok) Hn]; [|done].
  destruct (proj2 (checked_end_spec n q) e He Hn) as [-> Hle]. unfold later, reader_ok. cbn.
  split_and!; [done|lia|done].
Qed.

Lemma read_tag_later r f w r' : reader_ok r -> read_tag r = Ok (f, w, r') -> later 1 r r'.
Proof.
  intros Hr H. apply ok_bind in H as ([k q] & Hq & H). apply read_varint_later in Hq as [Hl _]; [|done].
  cbn in H. by destruct (_ =? 0); simplify_eq.
Qed.

Lemma read_tag_no_panic r : reader_ok r -> no_panic (read_tag r).
Proof.
  intros Hr. apply no_panic_bind; [by apply read_varint_no_panic|]. intros [k q] _. cbn. by destruct (_ =? 0).
Qed.

Lemma later_weaken n r r' : later n r r' -> later 0 r r'.
Proof. unfold later. intros (? & ? & ?). split_and!; [done|lia|done]. Qed.

(** What the loop needs of a handler: it does not panic and does not go back. *)
Definition handler_safe {T} (handle : Z -> Z -> T -> Reader -> res GeoError (T * Reader)) : Prop :=
  forall f w st r, reader_ok r ->
    no_panic (handle f w st r) /\ forall st' r', handle f w st r = Ok (st', r') -> later 0 r r'.

Lemma advance_safe n r : reader_ok r -> 0 <= n ->
  no_panic (advance n r) /\ forall r', advance n r = Ok r' -> later 0 r r'.
Proof.
  intros Hr Hn. destruct (checked_end_spec n r) as [Hp Hs]. split.
  - apply no_panic_bind; [done|]. done.
  - intros r' H. apply ok_bind in H as (e & He & H). simplify_eq. destruct (Hs e He Hn) as [-> Hle].
    unfold later, reader_ok. cbn. split_and!; [done|lia|done].
Qed.

Lemma skip_safe w r : reader_ok r -> no_panic (skip w r) /\ forall r', skip w r = Ok r' -> later 0 r r'.
Proof.
  intros Hr. unfold skip. destruct (_ =? _).
  { split; [apply no_panic_bind; [by apply read_varint_no_panic|by intros []]|].
    intros r' H. apply ok_bind in H as ([v q] & Hq & H). simplify_eq.
    apply read_varint_later in Hq as [Hl _]; [by eapply later_weaken|done]. }
  destruct (_ =? _); [by apply advance_safe|]. destruct (_ =? _).
  { split; [apply no_panic_bind; [by apply read_bytes_no_panic|by intros []]|].
    intros r' H. apply ok_bind in H as ([v q] & Hq & H). simplify_eq.
    eapply later_weaken, read_bytes_later; done. }
  destruct (_ =? _); [by apply advance_safe|done].
Qed.

Lemma message_loop_no_panic {T} handle buf (init : T) :
  handler_safe handle -> no_panic (message_loop handle buf init).
Proof.
  intros Hh. unfold message_loop.
  apply (loop_no_panic _ (fun '(st, r) => reader_ok r /\ rd_buf r = buf)
           (fun '(st, r) => length buf - rd_pos r)%nat); [| |split; [unfold reader_ok; cbn; lia|done]|cbn; lia].
  - intros [st r] [Hr Hb]. destruct (eof r); [discriminate|].
    apply no_panic_bind; [by apply read_tag_no_panic|]. intros [[f w] q] Hq.
    apply read_tag_later in Hq as (_ & _ & Hq); [|done].
    apply no_panic_bind; [by apply Hh|]. by intros [].
  - intros [st r] [st' r'] [Hr Hb] H. unfold eof in H. destruct (Nat.leb_spec (length (rd_buf r)) (rd_pos r)) as [|Hlt]; [done|].
    apply ok_bind in H as ([[f w] q] & Hq & H). apply ok_bind in H as ([st2 r2] & H2 & H). simplify_eq.
    apply read_tag_later in Hq as (Hb & Hp & Hok); [|done].
    apply Hh in H2 as (Hb2 & Hp2 & Hok2); [|done]. split; [split; [done|congruence]|].
    unfold reader_ok in *. rewrite Hb2, Hb in Hok2. lia.
Qed.

(** An invariant of the state kept by the handler holds of the result. *)
Lemma message_loop_inv {T} handle buf (init st : T) (Inv : T -> Prop) :
  handler_safe handle ->
  (forall f w st r st' r', reader_ok r -> Inv st -> handle f w st r = Ok (st', r') -> Inv st') ->
  Inv init -> message_loop handle buf init = Ok st -> Inv st.
Proof.
  intros Hs Hh Hi H. unfold message_loop in H.
  refine (loop_post _ (fun '(st, r) => Inv st /\ reader_ok r) Inv _ _ _ (init, reader_new buf) st _ H).
  - intros [s r] [s' r'] [Hst Hr] E. destruct (eof r); [done|].
    apply ok_bind in E as ([[f w] q] & Hq & E). apply ok_bind in E as ([st2 r2] & E2 & E). simplify_eq.
    apply read_tag_later in Hq as (_ & _ & Hq); [|done]. split; [by eapply Hh|]. by apply Hs in E2 as (_ & _ & ?).
  - intros [s r] a [Hst Hr] E. destruct (eof r); [by simplify_eq|].
    apply ok_bind in E as ([[f w] q] & _ & E). apply ok_bind in E as ([st2 r2] & E2 & E). simplify_eq.
  - split; [done|]. unfold reader_ok. cbn. lia.
Qed.

(** ** Reading what was encoded *)

(** The bytes a reader has not read. *)
Definition rest (r : Reader) : bytes := drop (rd_pos r) (rd_buf r).

Lemma rest_move n r a b : rest r = a ++ b -> length a = n -> rest (move n r) = b.
Proof.
  unfold rest, move. cbn. intros H Hn. rewrite <- drop_drop, H, <- Hn. apply drop_app_length.
Qed.

Lemma rest_bound r a b : rest r = a ++ b -> a <> [] \/ reader_ok r -> (rd_pos r + length a <= length (rd_buf r))%nat.
Proof.
  unfold rest, reader_ok. intros H Ha. apply (f_equal length) in H. rewrite length_drop, length_app in H.
  destruct Ha as [Ha|Ha]; [|lia]. destruct a; [done|]. cbn in *. lia.
Qed.

Lemma rest_cons r b t : rest r = b :: t -> (rd_pos r < length (rd_buf r))%nat /\ rd_buf r !! rd_pos r = Some b.
Proof.
  intros H. assert (rd_pos r + length [b] <= length (rd_buf r))%nat as Hb by (apply (rest_bound r [b] t H); by left).
  cbn in Hb. split; [lia|].
  unfold rest in H. rewrite <- (Nat.add_0_r (rd_pos r)), <- lookup_drop, H. done.
Qed.

(** One byte of a varint. *)
Lemma varint_step r b t result shift : rest r = b :: t -> 0 <= shift < 64 -> 0 <= result < 2 ^ shift ->
  val8 b mod 128 * 2 ^ shift < 2 ^ 64 ->
  varint_body (r, result, shift) =
  (let v := val8 b mod 128 * 2 ^ shift + result in
   if val8 b <? 128 then Ok (inr (v, move 1 r)) else Ok (inl (move 1 r, v, shift + 7))).
Proof.
  intros Hr Hs Hres Hb. destruct (rest_cons _ _ _ Hr) as [Hlt Hl]. unfold varint_body.
  destruct (Nat.leb_spec (length (rd_buf r)) (rd_pos r)); [lia|]. rewrite Hl. cbn [unwrap mbind res_bind].
  rewrite (proj2 (Z.leb_gt _ _)) by lia. pose proof (val8_range b) as Hv.
  change 127 with (Z.ones 7). rewrite Z.land_ones by lia. change (2 ^ 7) with 128.
  rewrite Z.shiftl_mul_pow2 by lia. assert (0 < 2 ^ shift) by (apply Z.pow_pos_nonneg; lia).
  rewrite Z.mod_small by (split; [apply Z.mul_nonneg_nonneg; [apply Z.mod_pos_bound|]|]; lia).
  rewrite Z.lor_comm, lor_add by lia.
  assert (Z.land (val8 b) 128 =? 0 = (val8 b <? 128)) as ->; [|by destruct (_ <? _)].
  change 128 with (2 ^ 7) at 1. rewrite <- (Z.shiftl_1_l 7).
  destruct (Z.ltb_spec (val8 b) 128) as [Hlow|Hhigh].
  - apply Z.eqb_eq. rewrite Z.shiftl_1_l, Z.land_comm, <- (Z.mul_1_l (2 ^ 7)). apply land_shifted_0; lia.
  - apply Z.eqb_neq. intros E0. apply (f_equal (fun z => Z.testbit z 7)) in E0.
    rewrite Z.land_spec, Z.testbit_0_l, Z.shiftl_1_l, Z.pow2_bits_true, andb_true_r in E0 by lia.
    rewrite Z.testbit_odd, Z.shiftr_div_pow2 in E0 by lia.
    replace (val8 b / 2 ^ 7) with 1 in E0; [done|]. change (2 ^ 7) with 128. dlia.
Qed.

Lemma read_varint_loop : forall f fuel z r t result shift,
  0 <= z < 128 ^ Z.of_nat f -> (0 < f <= fuel)%nat -> rest r = encode_varint_fuel f z ++ t ->
  0 <= shift < 64 -> 0 <= result < 2 ^ shift -> z * 2 ^ shift < 2 ^ 64 ->
  loop fuel varint_body (r, result, shift)
  = Ok (z * 2 ^ shift + result, move (length (encode_varint_fuel f z)) r).
Proof.
  induction f as [|f IH]; intros fuel z r t result shift Hz Hf Hr Hs Hres Hb; [lia|].
  destruct fuel as [|fuel]; [lia|]. cbn [loop encode_varint_fuel] in *.
  assert (0 < 2 ^ shift) by (apply Z.pow_pos_nonneg; lia).
  destruct (Z.ltb_spec z 128) as [Hlow|Hhigh].
  - cbn [app] in Hr. rewrite (varint_step _ _ _ _ _ Hr) by
      (rewrite ?val8_to_u8, ?(Z.mod_small z 256), ?(Z.mod_small z 128) by lia; lia).
    rewrite val8_to_u8, (Z.mod_small z 256), (Z.mod_small z 128) by lia.
    by rewrite (proj2 (Z.ltb_lt _ _)) by lia.
  - cbn [app] in Hr. pose proof (Z.mod_pos_bound z 128 eq_refl) as Hm.
    assert (val8 (to_u8 (z mod 128 + 128)) = z mod 128 + 128) as Hv
      by (rewrite val8_to_u8; apply Z.mod_small; lia).
    assert ((z mod 128 + 128) mod 128 = z mod 128) as Hv2 by dlia.
    assert (z = 128 * (z / 128) + z mod 128) as Hdiv by dlia.
    assert (z mod 128 * 2 ^ shift <= z * 2 ^ shift) by (apply Z.mul_le_mono_nonneg_r; dlia).
    rewrite (varint_step _ _ _ _ _ Hr) by (rewrite ?Hv, ?Hv2; lia).
    rewrite Hv, Hv2, (proj2 (Z.ltb_ge _ _)) by lia. cbn [mbind res_bind length].
    assert (2 ^ (shift + 7) = 2 ^ shift * 128) as Hp by (rewrite Z.pow_add_r by lia; done).
    assert (1 <= z / 128) by dlia.
    assert (shift + 7 < 64).
    { apply Z.nle_gt. intros Hge.
      assert (2 ^ 64 <= 2 ^ (shift + 7)) by (apply Z.pow_le_mono_r; lia). nia. }
    destruct f as [|f]; [cbn in Hz; lia|].
    rewrite (IH fuel (z / 128) (move 1 r) t); [|split; [dlia|rewrite Nat2Z.inj_succ, Z.pow_succ_r in Hz by lia; dlia]|lia|
      apply (rest_move 1 _ [to_u8 (z mod 128 + 128)]); [exact Hr|done]|lia|nia|nia].
    f_equal. f_equal; [nia|]. unfold move. cbn. f_equal. lia.
Qed.

Lemma read_varint_encode z r t : 0 <= z < 2 ^ 64 -> rest r = encode_varint z ++ t ->
  read_varint r = Ok (z, move (length (encode_varint z)) r).
Proof.
  intros Hz Hr. unfold read_varint, encode_varint in *.
  assert (128 ^ Z.of_nat 10 = 2 ^ 70) as E by reflexivity.
  rewrite (read_varint_loop 10 12 z r t) by (exact Hr || (rewrite ?E; lia)). by rewrite Z.mul_1_r, Z.add_0_r.
Qed.

Lemma encode_varint_length z : 0 <= z < 128 -> length (encode_varint z) = 1%nat.
Proof. intros. unfold encode_varint. cbn. by rewrite (proj2 (Z.ltb_lt _ _)) by lia. Qed.

Lemma encode_varint_nonempty z : encode_varint z <> [].
Proof. unfold encode_varint. cbn [encode_varint_fuel]. by destruct (_ <? _). Qed.

Lemma read_tag_encode n w r t : 0 < n < 2 ^ 61 -> 0 <= w < 8 -> rest r = encode_varint (n * 8 + w) ++ t ->
  read_tag r = Ok (n, w, move (length (encode_varint (n * 8 + w))) r).
Proof.
  intros Hn Hw Hr. unfold read_tag. rewrite (read_varint_encode (n * 8 + w) r t) by (done || lia). cbn [mbind res_bind].
  rewrite Z.shiftr_div_pow2 by lia. replace ((n * 8 + w) / 2 ^ 3) with n by dlia.
  rewrite (proj2 (Z.eqb_neq _ _)) by lia. change 7 with (Z.ones 3). rewrite Z.land_ones by lia.
  by replace ((n * 8 + w) mod 2 ^ 3) with w by dlia.
Qed.

(** A buffer of fewer than [2 ^ 64] bytes, as all are. *)
Definition sized (r : Reader) : Prop := Z.of_nat (length (rd_buf r)) < 2 ^ 64.

Lemma checked_end_rest r a t n : sized r -> reader_ok r -> rest r = a ++ t -> Z.of_nat (length a) = n ->
  checked_end n r = Ok (rd_pos r + length a)%nat.
Proof.
  intros Hs Hr H <-. pose proof (rest_bound r a t H (or_intror Hr)) as Hb. unfold checked_end, sized in *.
  rewrite (proj2 (Z.ltb_lt _ _)) by lia. cbn [ok_or mbind res_bind].
  rewrite (proj2 (Z.ltb_ge _ _)) by lia. f_equal. lia.
Qed.

Lemma read_bytes_encode b r t : sized r -> reader_ok r ->
  rest r = encode_varint (Z.of_nat (length b)) ++ b ++ t ->
  read_bytes r = Ok (b, move (length (encode_varint (Z.of_nat (length b))) + length b) r).
Proof.
  intros Hs Hr H. unfold read_bytes. set (l := encode_varint _) in *.
  pose proof (rest_bound _ _ _ H (or_intror Hr)) as Hb.
  pose proof (f_equal length H) as Hlen. unfold rest, sized in Hlen, Hs.
  rewrite length_drop, !length_app in Hlen.
  rewrite (read_varint_encode (Z.of_nat (length b)) r (b ++ t)) by (done || lia). fold l. cbn [mbind res_bind].
  assert (rest (move (length l) r) = b ++ t) as H' by (eapply rest_move; [exact H|done]).
  rewrite (checked_end_rest _ b t); [|done|exact Hb|done|done]. cbn [mbind res_bind].
  f_equal. f_equal.
  - unfold slice. replace (_ - _)%nat with (length b) by lia.
    change (drop _ _) with (rest (move (length l) r)). rewrite H'. apply take_app_length.
  - unfold move. cbn. f_equal. lia.
Qed.

Lemma advance_encode b r t n : sized r -> reader_ok r -> rest r = b ++ t -> Z.of_nat (length b) = n ->
  advance n r = Ok (move (length b) r).
Proof. intros Hs Hr H Hn. unfold advance. by rewrite (checked_end_rest _ b t). Qed.

(** Any field of the format is skipped as a whole. *)
Lemma skip_encode v r t : sized r -> reader_ok r -> value_ok v -> rest r = payload_of v ++ t ->
  skip (wire_of v) r = Ok (move (length (payload_of v)) r).
Proof.
  intros Hs Hr Hv H. destruct v as [z|b|b|b]; unfold skip; cbn [wire_of payload_of Z.eqb WIRE_VARINT WIRE_I64 WIRE_LEN WIRE_I32 Pos.eqb] in *.
  - by rewrite (read_varint_encode z _ _ Hv H).
  - rewrite <- app_assoc in H. rewrite (read_bytes_encode b _ _ Hs Hr H). cbn [mbind res_bind].
    by rewrite length_app.
  - by rewrite (advance_encode b _ t) by (done || rewrite Hv; done).
  - by rewrite (advance_encode b _ t) by (done || rewrite Hv; done).
Qed.

(** A handler that treats each field as [g] does, on encoded fields. *)
Definition handles {T} (handle : Z -> Z -> T -> Reader -> res GeoError (T * Reader))
    (g : Z * field_value -> T -> res GeoError T) : Prop :=
  forall n v st r t, sized r -> reader_ok r -> value_ok v -> rest r = payload_of v ++ t ->
    handle n (wire_of v) st r = (st' ← g (n, v) st; Ok (st', move (length (payload_of v)) r)).

Lemma move_move a b r : move b (move a r) = move (a + b) r.
Proof. unfold move. cbn. f_equal. lia. Qed.

Lemma move_ok r a b : reader_ok r -> rest r = a ++ b -> reader_ok (move (length a) r).
Proof. intros Hr H. pose proof (rest_bound r a b H (or_intror Hr)) as Hb. exact Hb. Qed.

(** The message loop on an encoded message folds the handler over its fields. *)
Lemma message_loop_fields {T} handle g (Hh : handles (T := T) handle g) : forall fs fuel st r,
  Forall field_ok fs -> sized r -> reader_ok r -> rest r = encode_fields fs -> (length fs < fuel)%nat ->
  loop fuel (fun '(st, r) =>
       if eof r then Ok (inr st)
       else '(field, wire, r) ← read_tag r; '(st, r) ← handle field wire st r; Ok (inl (st, r))) (st, r)
  = fold_res g fs st.
Proof.
  induction fs as [|[n v] fs IH]; intros fuel st r Hfs Hs Hr H Hf; (destruct fuel as [|fuel]; [cbn in Hf; lia|]); cbn [loop].
  - unfold eof, rest in *. apply (f_equal length) in H. rewrite length_drop in H. cbn in H.
    by rewrite (proj2 (Nat.leb_le _ _)) by lia.
  - apply Forall_cons in Hfs as [[Hn Hv] Hfs]. cbn [fst snd] in Hn, Hv.
    unfold encode_fields in H. cbn [map concat] in H. fold (encode_fields fs) in H.
    unfold encode_field in H. cbn [fst snd] in H. rewrite <- app_assoc in H.
    assert (eof r = false) as ->.
    { apply Nat.leb_gt. pose proof (rest_bound r _ _ H (or_intror Hr)) as Hb.
      pose proof (encode_varint_nonempty (n * 8 + wire_of v)). destruct (encode_varint _); [done|]. cbn in Hb. lia. }
    assert (0 <= wire_of v < 8) as Hw by (destruct v; cbn; lia).
    rewrite (read_tag_encode n (wire_of v) r _ Hn Hw H). cbn [mbind res_bind].
    set (r1 := move _ r). assert (rest r1 = payload_of v ++ encode_fields fs) as H1
      by (eapply rest_move; [exact H|done]).
    assert (reader_ok r1) as Hr1 by (eapply move_ok; done).
    assert (sized r1) as Hs1 by done.
    rewrite (Hh n v st r1 _ Hs1 Hr1 Hv H1). cbn [fold_res]. destruct (g (n, v) st) as [st'| |]; [|done..].
    cbn [mbind res_bind]. apply IH; [done|done|by eapply move_ok|by eapply rest_move|cbn in Hf; lia].
Qed.

Lemma encode_field_length f : (1 <= length (encode_field f))%nat.
Proof.
  unfold encode_field. rewrite length_app. pose proof (encode_varint_nonempty (fst f * 8 + wire_of (snd f))) as H.
  destruct (encode_varint (fst f * 8 + wire_of (snd f))); [done|]. cbn [length]. lia.
Qed.

Lemma encode_fields_length fs : (length fs <= length (encode_fields fs))%nat.
Proof.
  unfold encode_fields. induction fs as [|f fs IH]; cbn [map concat length]; [lia|]. rewrite length_app.
  pose proof (encode_field_length f). lia.
Qed.

Lemma message_loop_encode {T} handle g fs (init : T) :
  handles handle g -> Forall field_ok fs -> Z.of_nat (length (encode_fields fs)) < 2 ^ 64 ->
  message_loop handle (encode_fields fs) init = fold_res g fs init.
Proof.
  intros Hh Hfs Hs. unfold message_loop. apply message_loop_fields; try done.
  - unfold reader_ok. cbn. lia.
  - pose proof (encode_fields_length fs). lia.
Qed.
