(* ===== verification/Geo.v ===== *)
(** * The geoip and geosite databases
    ([crates/core/src/geo/geoip.rs], [crates/core/src/geo/geosite.rs]) *)

From S2P Require Import Prelude RustStr Utf8 NetAddr Model Cidr Split Domain Protobuf.

(** ** geoip *)

(** [HashMap<String, Vec<IpCidr>>] *)
Abbreviation GeoIpDb := (gmap (list Ascii.ascii) (list IpCidr)).

(** The [match] on the tag in [parse_cidr]. *)
Definition cidr_field (f w : Z) (st : option bytes * option Z) (r : Reader)
    : res GeoError ((option bytes * option Z) * Reader) :=
  if (f =? 1) && (w =? WIRE_LEN) then '(b, r) ← read_bytes r; Ok ((Some b, snd st), r)
  else if (f =? 2) && (w =? WIRE_VARINT) then '(v, r) ← read_varint r; Ok ((fst st, Some v), r)
  else r ← skip w r; Ok (st, r).

(** What [parse_cidr] makes of the two fields it read. *)
Definition cidr_of_fields (ip_bytes : option bytes) (prefix : option Z) : option IpCidr :=
  b ← ip_bytes;
  ip ← (if (length b =? 4)%nat then Some (v4_of_octets b)
        else if (length b =? 16)%nat then Some (v6_of_octets b) else None);
  p ← prefix;
  if p <=? max_prefix ip then res_ok (cidr_new ip (p mod 256)) else None.

Definition parse_cidr (buf : bytes) : res GeoError (option IpCidr) :=
  '(ip_bytes, prefix) ← message_loop cidr_field buf (None, None);
  Ok (cidr_of_fields ip_bytes prefix).

Definition geoip_field (f w : Z) (st : str * list IpCidr) (r : Reader)
    : res GeoError ((str * list IpCidr) * Reader) :=
  if (f =? 1) && (w =? WIRE_LEN) then '(s, r) ← read_string r; Ok ((to_ascii_lowercase s, snd st), r)
  else if (f =? 2) && (w =? WIRE_LEN) then
    '(b, r) ← read_bytes r;
    c ← parse_cidr b;
    Ok ((fst st, match c with Some c => snd st ++ [c] | None => snd st end), r)
  else r ← skip w r; Ok (st, r).

Definition parse_geoip (buf : bytes) : res GeoError (str * list IpCidr) :=
  message_loop geoip_field buf ([], []).

Definition geoip_entry (f w : Z) (db : GeoIpDb) (r : Reader) : res GeoError (GeoIpDb * Reader) :=
  if (f =? 1) && (w =? WIRE_LEN) then
    '(b, r) ← read_bytes r;
    '(code, cidrs) ← parse_geoip b;
    Ok (if decide (code = []) then db else <[code := cidrs]> db, r)
  else r ← skip w r; Ok (db, r).

(** [GeoIpDb::parse] *)
Definition geoip_parse (buf : bytes) : res GeoError GeoIpDb := message_loop geoip_entry buf ∅.

(** [GeoIpDb::country], [matches], [len] *)
Definition geoip_country (db : GeoIpDb) (code : str) : option (list IpCidr) := db !! to_ascii_lowercase code.

Definition geoip_matches (db : GeoIpDb) (country : str) (ip : IpAddr) : bool :=
  match geoip_country db country with
  | Some cidrs => existsb (fun c => cidr_contains c ip) cidrs
  | None => false
  end.

Definition geoip_len (db : GeoIpDb) : nat := size db.

(** ** geosite *)

Definition TYPE_PLAIN : Z := 0.
Definition TYPE_REGEX : Z := 1.
Definition TYPE_DOMAIN : Z := 2.
Definition TYPE_FULL : Z := 3.

Record DomainSet : Type := {
  ds_full : gset str;
  ds_suffix : gset str;
  ds_keyword : list str;
  ds_skipped_regex : nat
}.

Definition ds_empty : DomainSet :=
  {| ds_full := ∅; ds_suffix := ∅; ds_keyword := []; ds_skipped_regex := 0 |}.

(** The loop over the parent suffixes: [rest] loses its first label at a time. *)
Fixpoint suffix_scan (suffix : gset str) (fuel : nat) (rest : str) : bool :=
  match fuel with
  | O => false
  | S f =>
      match find_byte (is_char ".") rest with
      | Some pos => let rest := drop (S pos) rest in bool_decide (rest ∈ suffix) || suffix_scan suffix f rest
      | None => false
      end
  end.

(** [DomainSet::matches] *)
Definition ds_matches (s : DomainSet) (host : str) : bool :=
  let h := norm_host host in
  if bool_decide (h ∈ ds_full s) then true
  else if bool_decide (ds_suffix s <> ∅)
          && (bool_decide (h ∈ ds_suffix s) || suffix_scan (ds_suffix s) (length h) h) then true
  else existsb (fun k => contains k h) (ds_keyword s).

Definition ds_len (s : DomainSet) : nat := size (ds_full s) + size (ds_suffix s) + length (ds_keyword s).

(** [DomainSet::add] *)
Definition ds_add (dtype : Z) (value : str) (s : DomainSet) : DomainSet :=
  let v := to_ascii_lowercase (trim_end_char "." value) in
  if decide (v = []) then s
  else if dtype =? TYPE_FULL then
    {| ds_full := {[ v ]} ∪ ds_full s; ds_suffix := ds_suffix s; ds_keyword := ds_keyword s;
       ds_skipped_regex := ds_skipped_regex s |}
  else if dtype =? TYPE_DOMAIN then
    {| ds_full := ds_full s; ds_suffix := {[ v ]} ∪ ds_suffix s; ds_keyword := ds_keyword s;
       ds_skipped_regex := ds_skipped_regex s |}
  else if dtype =? TYPE_PLAIN then
    {| ds_full := ds_full s; ds_suffix := ds_suffix s; ds_keyword := ds_keyword s ++ [v];
       ds_skipped_regex := ds_skipped_regex s |}
  else if dtype =? TYPE_REGEX then
    {| ds_full := ds_full s; ds_suffix := ds_suffix s; ds_keyword := ds_keyword s;
       ds_skipped_regex := S (ds_skipped_regex s) |}
  else s.

Definition domain_field (f w : Z) (st : Z * str) (r : Reader) : res GeoError ((Z * str) * Reader) :=
  if (f =? 1) && (w =? WIRE_VARINT) then '(v, r) ← read_varint r; Ok ((v, snd st), r)
  else if (f =? 2) && (w =? WIRE_LEN) then '(s, r) ← read_string r; Ok ((fst st, s), r)
  else r ← skip w r; Ok (st, r).

Definition parse_domain (buf : bytes) : res GeoError (Z * str) :=
  message_loop domain_field buf (TYPE_PLAIN, []).

Definition geosite_field (f w : Z) (st : str * DomainSet) (r : Reader)
    : res GeoError ((str * DomainSet) * Reader) :=
  if (f =? 1) && (w =? WIRE_LEN) then '(s, r) ← read_string r; Ok ((to_ascii_lowercase s, snd st), r)
  else if (f =? 2) && (w =? WIRE_LEN) then
    '(b, r) ← read_bytes r;
    '(dtype, value) ← parse_domain b;
    Ok ((fst st, ds_add dtype value (snd st)), r)
  else r ← skip w r; Ok (st, r).

Definition parse_geosite (buf : bytes) : res GeoError (str * DomainSet) :=
  message_loop geosite_field buf ([], ds_empty).

(** [HashMap<String, DomainSet>] *)
Abbreviation GeoSiteDb := (gmap (list Ascii.ascii) DomainSet).

Definition geosite_entry (f w : Z) (db : GeoSiteDb) (r : Reader) : res GeoError (GeoSiteDb * Reader) :=
  if (f =? 1) && (w =? WIRE_LEN) then
    '(b, r) ← read_bytes r;
    '(code, set) ← parse_geosite b;
    Ok (if decide (code = []) then db else <[code := set]> db, r)
  else r ← skip w r; Ok (db, r).

(** [GeoSiteDb::parse] *)
Definition geosite_parse (buf : bytes) : res GeoError GeoSiteDb := message_loop geosite_entry buf ∅.

(** [GeoSiteDb::category], [matches], [len] *)
Definition geosite_category (db : GeoSiteDb) (name : str) : option DomainSet := db !! to_ascii_lowercase name.

Definition geosite_matches (db : GeoSiteDb) (category host : str) : bool :=
  match geosite_category db category with Some s => ds_matches s host | None => false end.

Definition geosite_len (db : GeoSiteDb) : nat := size db.

(** ** Specification *)

(** What a set built from typed entries means for a host. *)
Definition entry_matches (host : str) (e : Z * str) : Prop :=
  let v := norm_host (snd e) in
  v <> [] /\ (fst e = TYPE_FULL /\ norm_host host = v
              \/ fst e = TYPE_DOMAIN /\ under v (norm_host host)
              \/ fst e = TYPE_PLAIN /\ exists a b, norm_host host = a ++ v ++ b).

(** The databases as the tools that write them see them. *)
Definition cidr_fields (c : bytes * Z) : list (Z * field_value) := [(1, FBytes (fst c)); (2, FVarint (snd c))].

Definition domain_fields (d : Z * str) : list (Z * field_value) := [(1, FVarint (fst d)); (2, FBytes (snd d))].

Definition entry_fields {A} (fields : A -> list (Z * field_value)) (e : str * list A) : list (Z * field_value) :=
  (1, FBytes (fst e)) :: map (fun x => (2, FBytes (encode_fields (fields x)))) (snd e).

Definition db_fields {A} (fields : A -> list (Z * field_value)) (l : list (str * list A)) : list (Z * field_value) :=
  map (fun e => (1, FBytes (encode_fields (entry_fields fields e)))) l.

(** The entry a code denotes: the last of that name, case ignored. *)
Fixpoint last_named {A} (code : str) (l : list (str * A)) : option A :=
  match l with
  | [] => None
  | (c, x) :: l' =>
      match last_named code l' with
      | Some y => Some y
      | None => if decide (to_ascii_lowercase c = to_ascii_lowercase code) then Some x else None
      end
  end.

(** ** Safety *)

Definition read_safe {A} (m : res GeoError (A * Reader)) (r : Reader) : Prop :=
  no_panic m /\ forall a r', m = Ok (a, r') -> later 0 r r'.

Lemma read_varint_safe r : reader_ok r -> read_safe (read_varint r) r.
Proof.
  intros Hr. split; [by apply read_varint_no_panic|]. intros a r' H.
  apply read_varint_later in H as [H _]; [by eapply later_weaken|done].
Qed.

Lemma read_bytes_safe r : reader_ok r -> read_safe (read_bytes r) r.
Proof.
  intros Hr. split; [by apply read_bytes_no_panic|]. intros a r' H.
  eapply later_weaken, read_bytes_later; done.
Qed.

(** A reading step followed by a computation that leaves the reader alone. *)
Lemma read_safe_bind {A B} (m : res GeoError (A * Reader)) (k : A * Reader -> res GeoError (B * Reader)) r :
  read_safe m r ->
  (forall a q, no_panic (k (a, q)) /\ forall b q', k (a, q) = Ok (b, q') -> q' = q) ->
  read_safe (m ≫= k) r.
Proof.
  intros [Hp Hl] Hk. split.
  - apply no_panic_bind; [done|]. intros [a q] _. apply Hk.
  - intros b r' H. apply ok_bind in H as ([a q] & Hm & H). apply Hk in H as ->. eauto.
Qed.

Lemma read_string_safe r : reader_ok r -> read_safe (read_string r) r.
Proof.
  intros Hr. apply read_safe_bind; [by apply read_bytes_safe|]. intros a q. split; [done|]. by intros b q' [= _ <-].
Qed.

Lemma skip_ret_safe {A} w r (a : A) : reader_ok r -> read_safe (r ← skip w r; Ok (a, r)) r.
Proof.
  intros Hr. destruct (skip_safe w r Hr) as [Hp Hl]. split.
  - by apply no_panic_bind.
  - intros b r' H. apply ok_bind in H as (q & Hq & H). simplify_eq. auto.
Qed.

#[local] Hint Resolve read_varint_safe read_bytes_safe read_string_safe skip_ret_safe : resdb.

(** A continuation that ends in [Ok (_, q)], perhaps after a nested parser. *)
Ltac pure_continuation :=
  intros ? ?; cbn beta iota; split; [try done|by intros ? ? [= _ <-]].

Lemma cidr_field_safe : handler_safe cidr_field.
Proof.
  intros f w st r Hr. change (read_safe (cidr_field f w st r) r). unfold cidr_field.
  repeat case_match; [apply read_safe_bind; [by auto with resdb|pure_continuation]..|by apply skip_ret_safe].
Qed.

Lemma parse_cidr_no_panic b : no_panic (parse_cidr b).
Proof.
  apply no_panic_bind; [apply message_loop_no_panic, cidr_field_safe|]. by intros [].
Qed.

Lemma domain_field_safe : handler_safe domain_field.
Proof.
  intros f w st r Hr. change (read_safe (domain_field f w st r) r). unfold domain_field.
  repeat case_match; [apply read_safe_bind; [by auto with resdb|pure_continuation]..|by apply skip_ret_safe].
Qed.

Lemma parse_domain_no_panic b : no_panic (parse_domain b).
Proof. apply message_loop_no_panic, domain_field_safe. Qed.

(** The same with a nested parser, which does not panic, before the end. *)
Ltac nested_continuation H :=
  intros ? ?; cbn beta iota; split;
  [apply no_panic_bind; [apply H|intros; repeat case_match; done]
  |intros ? ? E; apply ok_bind in E as (? & _ & E); repeat case_match; by simplify_eq].

Lemma geoip_field_safe : handler_safe geoip_field.
Proof.
  intros f w st r Hr. change (read_safe (geoip_field f w st r) r). unfold geoip_field.
  repeat case_match; [apply read_safe_bind; [by auto with resdb|]..|by apply skip_ret_safe].
  - pure_continuation.
  - nested_continuation parse_cidr_no_panic.
Qed.

Lemma parse_geoip_no_panic b : no_panic (parse_geoip b).
Proof. apply message_loop_no_panic, geoip_field_safe. Qed.

Lemma geoip_entry_safe : handler_safe geoip_entry.
Proof.
  intros f w st r Hr. change (read_safe (geoip_entry f w st r) r). unfold geoip_entry.
  case_match; [apply read_safe_bind; [by auto with resdb|]|by apply skip_ret_safe].
  nested_continuation parse_geoip_no_panic.
Qed.

Lemma geosite_field_safe : handler_safe geosite_field.
Proof.
  intros f w st r Hr. change (read_safe (geosite_field f w st r) r). unfold geosite_field.
  repeat case_match; [apply read_safe_bind; [by auto with resdb|]..|by apply skip_ret_safe].
  - pure_continuation.
  - nested_continuation parse_domain_no_panic.
Qed.

Lemma parse_geosite_no_panic b : no_panic (parse_geosite b).
Proof. apply message_loop_no_panic, geosite_field_safe. Qed.

Lemma geosite_entry_safe : handler_safe geosite_entry.
Proof.
  intros f w st r Hr. change (read_safe (geosite_entry f w st r) r). unfold geosite_entry.
  case_match; [apply read_safe_bind; [by auto with resdb|]|by apply skip_ret_safe].
  nested_continuation parse_geosite_no_panic.
Qed.

(** ** Well-formed ranges *)

Lemma cidr_of_fields_ok b p c : (forall z, p = Some z -> 0 <= z) -> cidr_of_fields b p = Some c ->
  cidr_ok c /\ p = Some (cidr_prefix c).
Proof.
  intros Hp H. unfold cidr_of_fields in H. apply bind_Some in H as (bs & -> & H).
  apply bind_Some in H as (ip & Eip & H). apply bind_Some in H as (z & -> & H).
  destruct (Z.leb_spec z (max_prefix ip)) as [Hz|]; [|done]. specialize (Hp z eq_refl).
  assert (z mod 256 = z) as Hm by (apply Z.mod_small; unfold max_prefix in Hz; destruct (is_ipv4 ip); lia).
  rewrite Hm in H. destruct (cidr_new ip z) eqn:E; [|done..]. cbn in H. simplify_eq.
  assert (ip_ok ip).
  { destruct (Nat.eqb_spec (length bs) 4); [simplify_eq; by apply v4_of_octets_ok|].
    destruct (Nat.eqb_spec (length bs) 16); [simplify_eq; by apply v6_of_octets_ok|done]. }
  split; [by eapply cidr_new_ok|]. unfold cidr_new in E. destruct (_ <? _); by simplify_eq.
Qed.

Lemma parse_cidr_ok b c : parse_cidr b = Ok (Some c) -> cidr_ok c.
Proof.
  intros H. apply ok_bind in H as ([ib p] & Hm & H). injection H as H.
  refine (proj1 (cidr_of_fields_ok _ _ _ _ H)).
  refine (message_loop_inv cidr_field b (None, None) (ib, p) (fun st => forall z, snd st = Some z -> 0 <= z)
            cidr_field_safe _ _ Hm); [|done].
  intros f w st r st' r' Hr Hst E. unfold cidr_field in E. repeat case_match.
  - apply ok_bind in E as ([x q] & Hq & E). by simplify_eq.
  - apply ok_bind in E as ([x q] & Hq & E). simplify_eq. intros z [= ->].
    by apply read_varint_later in Hq as [_ ?].
  - apply ok_bind in E as (q & Hq & E). by simplify_eq.
Qed.

Lemma parse_geoip_ok b code cs : parse_geoip b = Ok (code, cs) -> Forall cidr_ok cs.
Proof.
  intros Hm.
  apply (message_loop_inv geoip_field b ([], []) (code, cs) (fun st => Forall cidr_ok (snd st))) in Hm;
    [done|exact geoip_field_safe| |constructor].
  intros f w st r st' r' Hr Hst E. unfold geoip_field in E. repeat case_match.
  - apply ok_bind in E as ([x q] & Hq & E). by simplify_eq.
  - apply ok_bind in E as ([x q] & Hq & E). apply ok_bind in E as (c & Hc & E). simplify_eq.
    destruct c as [c|]; cbn; [|done]. apply Forall_app. split; [done|].
    apply Forall_singleton. by eapply parse_cidr_ok.
  - apply ok_bind in E as (q & Hq & E). by simplify_eq.
Qed.

Definition geoip_ok (db : GeoIpDb) : Prop := forall code cs, db !! code = Some cs -> code <> [] /\ Forall cidr_ok cs.

Lemma geoip_parse_ok b db : geoip_parse b = Ok db -> geoip_ok db.
Proof.
  intros Hm. apply (message_loop_inv geoip_entry b ∅ db geoip_ok) in Hm;
    [done|exact geoip_entry_safe| |intros ? ?; by rewrite lookup_empty].
  intros f w st r st' r' Hr Hst E. unfold geoip_entry in E. case_match.
  - apply ok_bind in E as ([x q] & Hq & E). apply ok_bind in E as ([code cs] & Hc & E). injection E as E _.
    rewrite <- E. case_decide; [done|]. intros code' cs' Hl.
    apply lookup_insert_Some in Hl as [[<- <-]|[_ Hl]]; [|by apply Hst].
    split; [done|]. by eapply parse_geoip_ok.
  - apply ok_bind in E as (q & Hq & E). by simplify_eq.
Qed.

(** ** The domain sets *)

Lemma suffix_scan_spec suffix : forall fuel r, (length r <= fuel)%nat ->
  suffix_scan suffix fuel r = true <-> exists a d, r = a ++ "."%char :: d /\ d ∈ suffix.
Proof.
  induction fuel as [|f IH]; intros r Hf; cbn [suffix_scan].
  - destruct r; [|cbn in Hf; lia]. split; [done|]. intros (a & d & H & _). by destruct a.
  - destruct (find_byte (is_char ".") r) as [pos|] eqn:E.
    + apply find_byte_Some in E as (p & c & q & -> & <- & Hc & Hp). apply is_char_true in Hc as <-.
      rewrite drop_S_app, orb_true_iff, bool_decide_eq_true, IH by (rewrite length_app in Hf; cbn in Hf; lia).
      split.
      * intros [H|(a & d & -> & Hd)]; [by exists p, q|]. exists (p ++ "."%char :: a), d. by rewrite <- app_assoc.
      * intros (a & d & H & Hd). apply app_eq_inv in H as [(k & -> & H)|(k & -> & H)].
        { destruct k as [|x k]; [rewrite app_nil_l in H; simplify_eq; by left|]. cbn in H. simplify_eq.
          apply Forall_app in Hp as [_ Hp]. apply Forall_cons in Hp as [Hp _]. by apply is_char_false in Hp. }
        destruct k as [|x k]; [rewrite app_nil_l in H; simplify_eq; by left|]. cbn in H. simplify_eq.
        right. by exists k, d.
    + apply find_byte_None in E. split; [done|]. intros (a & d & -> & _).
      apply Forall_app in E as [_ E]. apply Forall_cons in E as [E _]. by apply is_char_false in E.
Qed.

(** The walk over the parent suffixes finds any suffix of the set, label-wise. *)
Lemma ds_matches_spec s host :
  ds_matches s host = true <->
  norm_host host ∈ ds_full s \/ (exists d, d ∈ ds_suffix s /\ under d (norm_host host))
  \/ (exists k, k ∈ ds_keyword s /\ exists a b, norm_host host = a ++ k ++ b).
Proof.
  unfold ds_matches. set (h := norm_host host).
  assert (bool_decide (ds_suffix s <> ∅) && (bool_decide (h ∈ ds_suffix s) || suffix_scan (ds_suffix s) (length h) h) = true
          <-> exists d, d ∈ ds_suffix s /\ under d h) as Hs.
  { rewrite andb_true_iff, bool_decide_eq_true, orb_true_iff, bool_decide_eq_true, suffix_scan_spec by done.
    setoid_rewrite under_iff. split.
    - intros [_ [H|(a & d & H & Hd)]]; [exists h; auto|exists d; eauto].
    - intros (d & Hd & Hh). split; [set_solver|]. destruct Hh as [->|(a & ->)]; [by left|right; eauto]. }
  assert (existsb (fun k => contains k h) (ds_keyword s) = true <->
          exists k, k ∈ ds_keyword s /\ exists a b, h = a ++ k ++ b) as Hk.
  { rewrite existsb_elem. by setoid_rewrite contains_spec_str. }
  split_test Hs; split_test (bool_decide_eq_true (h ∈ ds_full s)); rewrite ?Hk;
    first [split; [tauto|done] | tauto].
Qed.

(** Adding an entry adds what it means. *)
Lemma ds_add_matches e s host :
  ds_matches (ds_add (fst e) (snd e) s) host = true <-> ds_matches s host = true \/ entry_matches host e.
Proof.
  rewrite !ds_matches_spec. unfold ds_add, entry_matches. fold (norm_host (snd e)).
  set (v := norm_host (snd e)). set (h := norm_host host).
  case_decide as Hv; [tauto|].
  destruct (Z.eqb_spec (fst e) TYPE_FULL) as [->|];
    [|destruct (Z.eqb_spec (fst e) TYPE_DOMAIN) as [->|];
      [|destruct (Z.eqb_spec (fst e) TYPE_PLAIN) as [->|]; [|destruct (_ =? TYPE_REGEX)]]];
    cbn [ds_full ds_suffix ds_keyword].
  - rewrite elem_of_union, elem_of_singleton. unfold TYPE_FULL, TYPE_DOMAIN, TYPE_PLAIN. intuition lia.
  - setoid_rewrite elem_of_union. setoid_rewrite elem_of_singleton. unfold TYPE_FULL, TYPE_DOMAIN, TYPE_PLAIN.
    split.
    + intros [?|[(d & [->|?] & ?)|?]]; eauto 8.
    + intros [[?|[(d & ? & ?)|?]]|(_ & [[? _]|[[_ ?]|[? _]]])]; eauto 8; lia.
  - setoid_rewrite elem_of_app. setoid_rewrite list_elem_of_singleton. unfold TYPE_FULL, TYPE_DOMAIN, TYPE_PLAIN.
    split.
    + intros [?|[?|(k & [?| ->] & ?)]]; eauto 8.
    + intros [[?|[?|(k & ? & ?)]]|(_ & [[? _]|[[? _]|[_ ?]]])]; eauto 8; lia.
  - intuition.
  - intuition.
Qed.

Lemma ds_empty_matches host : ds_matches ds_empty host = false.
Proof.
  apply not_true_iff_false. rewrite ds_matches_spec. unfold ds_empty. cbn. set_solver.
Qed.

Lemma ds_fold_matches es host : forall s,
  ds_matches (fold_left (fun s e => ds_add (fst e) (snd e) s) es s) host = true
  <-> ds_matches s host = true \/ Exists (entry_matches host) es.
Proof.
  induction es as [|e es IH]; intros s; cbn; [rewrite Exists_nil; tauto|].
  rewrite IH, ds_add_matches, Exists_cons. tauto.
Qed.

(** ** The handlers on encoded fields *)

Lemma read_string_encode b r t : sized r -> reader_ok r ->
  rest r = encode_varint (Z.of_nat (length b)) ++ b ++ t ->
  read_string r = Ok (from_utf8_lossy b, move (length (encode_varint (Z.of_nat (length b))) + length b) r).
Proof. intros Hs Hr H. unfold read_string. by rewrite (read_bytes_encode b r t Hs Hr H). Qed.

Definition cidr_step (f : Z * field_value) (st : option bytes * option Z)
    : res GeoError (option bytes * option Z) :=
  match f with
  | (1, FBytes b) => Ok (Some b, snd st)
  | (2, FVarint z) => Ok (fst st, Some z)
  | _ => Ok st
  end.

Definition domain_step (f : Z * field_value) (st : Z * str) : res GeoError (Z * str) :=
  match f with
  | (1, FVarint z) => Ok (z, snd st)
  | (2, FBytes b) => Ok (fst st, from_utf8_lossy b)
  | _ => Ok st
  end.

Definition geoip_step (f : Z * field_value) (st : str * list IpCidr) : res GeoError (str * list IpCidr) :=
  match f with
  | (1, FBytes b) => Ok (to_ascii_lowercase (from_utf8_lossy b), snd st)
  | (2, FBytes b) => c ← parse_cidr b; Ok (fst st, match c with Some c => snd st ++ [c] | None => snd st end)
  | _ => Ok st
  end.

Definition geosite_step (f : Z * field_value) (st : str * DomainSet) : res GeoError (str * DomainSet) :=
  match f with
  | (1, FBytes b) => Ok (to_ascii_lowercase (from_utf8_lossy b), snd st)
  | (2, FBytes b) => '(dtype, value) ← parse_domain b; Ok (fst st, ds_add dtype value (snd st))
  | _ => Ok st
  end.

Definition geoip_db_step (f : Z * field_value) (db : GeoIpDb) : res GeoError GeoIpDb :=
  match f with
  | (1, FBytes b) => '(code, cs) ← parse_geoip b; Ok (if decide (code = []) then db else <[code := cs]> db)
  | _ => Ok db
  end.

Definition geosite_db_step (f : Z * field_value) (db : GeoSiteDb) : res GeoError GeoSiteDb :=
  match f with
  | (1, FBytes b) => '(code, s) ← parse_geosite b; Ok (if decide (code = []) then db else <[code := s]> db)
  | _ => Ok db
  end.

(** Every field number and kind of value: the handler reads it as the step says,
    or skips it. *)
Ltac handles_tac :=
  intros n v st r t Hs Hr Hv H; unfold WIRE_LEN, WIRE_VARINT;
  destruct v as [z|b|b|b]; cbn [wire_of];
  (destruct (Z.eqb_spec n 1) as [->|]; [|destruct (Z.eqb_spec n 2) as [->|]]); cbn [Z.eqb Pos.eqb andb];
  try (pose proof (skip_encode _ r t Hs Hr Hv H) as Hskip; cbn [wire_of] in Hskip; rewrite Hskip;
       cbn [mbind res_bind]; first [reflexivity | destruct n as [|[[?|?|]|[?|?|]|]|]; solve [reflexivity|congruence]]);
  cbn [payload_of] in *; rewrite <- ?app_assoc in H;
  rewrite ?(read_varint_encode _ _ _ Hv H), ?(read_bytes_encode _ _ _ Hs Hr H), ?(read_string_encode _ _ _ Hs Hr H);
  rewrite ?length_app; cbn [mbind res_bind].

Lemma cidr_handles : handles cidr_field cidr_step.
Proof. unfold cidr_field. handles_tac; done. Qed.

Lemma domain_handles : handles domain_field domain_step.
Proof. unfold domain_field. handles_tac; done. Qed.

Lemma geoip_handles : handles geoip_field geoip_step.
Proof. unfold geoip_field. handles_tac; unfold geoip_step; [done|]. by destruct (parse_cidr b). Qed.

Lemma geosite_handles : handles geosite_field geosite_step.
Proof. unfold geosite_field. handles_tac; unfold geosite_step; [done|]. by destruct (parse_domain b) as [[]| |]. Qed.

Lemma geoip_db_handles : handles geoip_entry geoip_db_step.
Proof. unfold geoip_entry. handles_tac. unfold geoip_db_step. by destruct (parse_geoip b) as [[]| |]. Qed.

Lemma geosite_db_handles : handles geosite_entry geosite_db_step.
Proof. unfold geosite_entry. handles_tac. unfold geosite_db_step. by destruct (parse_geosite b) as [[]| |]. Qed.

(** ** Whole databases *)

(** The range a [CIDR] message denotes, if any: the address has 4 or 16 bytes
    and the prefix fits its family. *)
Definition range_of (c : bytes * Z) : option IpCidr :=
  let '(ip, p) := c in
  if (length ip =? 4)%nat && (p <=? 32) then Some {| cidr_base := V4 (be_value ip); cidr_prefix := p |}
  else if (length ip =? 16)%nat && (p <=? 128) then Some {| cidr_base := V6 (be_value ip); cidr_prefix := p |}
  else None.

Lemma cidr_of_fields_range ip p : 0 <= p -> cidr_of_fields (Some ip) (Some p) = range_of (ip, p).
Proof.
  intros Hp. unfold cidr_of_fields, range_of. cbn [mbind option_bind].
  destruct (Nat.eqb_spec (length ip) 4) as [H4|H4].
  - cbn. unfold v4_of_octets, max_prefix, cidr_new. cbn [is_ipv4].
    destruct (Z.leb_spec p 32); cbn [andb].
    + unfold max_prefix. cbn [is_ipv4]. rewrite Z.mod_small, (proj2 (Z.ltb_ge _ _)) by lia. done.
    + by rewrite H4.
  - cbn [andb]. destruct (Nat.eqb_spec (length ip) 16) as [H6|H6]; [|done]. cbn.
    unfold v6_of_octets, max_prefix, cidr_new. cbn [is_ipv4].
    destruct (Z.leb_spec p 128); cbn [andb]; [|done].
    unfold max_prefix. cbn [is_ipv4]. rewrite Z.mod_small, (proj2 (Z.ltb_ge _ _)) by lia. done.
Qed.

Definition size_ok (fs : list (Z * field_value)) : Prop := Z.of_nat (length (encode_fields fs)) < 2 ^ 64.

(** A nested message is no longer than the message around it. *)
Lemma nested_length fs n b : (n, FBytes b) ∈ fs -> (length b <= length (encode_fields fs))%nat.
Proof.
  unfold encode_fields. induction fs as [|f fs IH]; intros H; [by apply elem_of_nil in H|].
  cbn [map concat]. rewrite length_app. apply elem_of_cons in H as [<-|H]; [|specialize (IH H); lia].
  unfold encode_field. cbn [fst snd payload_of]. rewrite !length_app. lia.
Qed.

Lemma nested_size fs n gs : (n, FBytes (encode_fields gs)) ∈ fs -> size_ok fs -> size_ok gs.
Proof. unfold size_ok. intros H Hs. apply nested_length in H. lia. Qed.

Lemma parse_cidr_encode c : 0 <= snd c < 2 ^ 64 -> size_ok (cidr_fields c) ->
  parse_cidr (encode_fields (cidr_fields c)) = Ok (range_of c).
Proof.
  intros Hp Hs. unfold parse_cidr. rewrite (message_loop_encode _ _ _ _ cidr_handles) by
    (done || (repeat constructor; cbn; lia)). cbn [fold_res cidr_fields cidr_step mbind res_bind fst snd].
  rewrite cidr_of_fields_range by lia. by destruct c.
Qed.

Lemma parse_domain_encode d : 0 <= fst d < 2 ^ 64 -> utf8_valid (snd d) = true -> size_ok (domain_fields d) ->
  parse_domain (encode_fields (domain_fields d)) = Ok d.
Proof.
  intros Hp Hu Hs. unfold parse_domain. rewrite (message_loop_encode _ _ _ _ domain_handles) by
    (done || (repeat constructor; cbn; lia)). cbn [fold_res domain_fields domain_step mbind res_bind fst snd].
  rewrite lossy_id by done. by destruct d.
Qed.

Lemma entry_fields_ok {A} (fields : A -> list (Z * field_value)) e : Forall field_ok (entry_fields fields e).
Proof.
  unfold entry_fields. constructor; [split; cbn; [lia|done]|]. apply Forall_map, Forall_true.
  intros x. split; cbn; [lia|done].
Qed.

Lemma db_fields_ok {A} (fields : A -> list (Z * field_value)) l : Forall field_ok (db_fields fields l).
Proof. apply Forall_map, Forall_true. intros x. split; cbn; [lia|done]. Qed.

Lemma elem_entry {A} (fields : A -> list (Z * field_value)) e x :
  x ∈ snd e -> (2, FBytes (encode_fields (fields x))) ∈ entry_fields fields e.
Proof.
  intros H. right. apply list_elem_of_In, in_map_iff. exists x. split; [done|by apply list_elem_of_In].
Qed.

Lemma parse_geoip_encode e :
  utf8_valid (fst e) = true -> Forall (fun c => 0 <= snd c < 2 ^ 64) (snd e) -> size_ok (entry_fields cidr_fields e) ->
  parse_geoip (encode_fields (entry_fields cidr_fields e)) = Ok (to_ascii_lowercase (fst e), omap range_of (snd e)).
Proof.
  intros Hu Hp Hs. unfold parse_geoip.
  rewrite (message_loop_encode _ _ _ _ geoip_handles) by (done || apply entry_fields_ok).
  unfold entry_fields at 1. cbn [fold_res geoip_step mbind res_bind snd]. rewrite lossy_id by done.
  assert (Forall (fun c => size_ok (cidr_fields c)) (snd e)) as Hss.
  { apply Forall_forall. intros c Hc. eapply nested_size; [by apply elem_entry|done]. }
  clear Hs. destruct e as [code cs]. cbn [fst snd] in *. generalize (to_ascii_lowercase code). intros code'.
  assert (forall acc, fold_res geoip_step (map (fun x => (2, FBytes (encode_fields (cidr_fields x)))) cs) (code', acc)
            = Ok (code', acc ++ omap range_of cs)) as H; [|apply H].
  induction cs as [|c cs IH]; intros acc; [by rewrite app_nil_r|].
  apply Forall_cons in Hp as [Hc Hp]. apply Forall_cons in Hss as [Hsc Hss].
  cbn [map fold_res geoip_step]. rewrite parse_cidr_encode by done. cbn [mbind res_bind fst snd omap list_omap].
  rewrite IH by done. destruct (range_of c); [by rewrite <- app_assoc|done].
Qed.

Lemma parse_geosite_encode e :
  utf8_valid (fst e) = true -> Forall (fun d => 0 <= fst d < 2 ^ 64 /\ utf8_valid (snd d) = true) (snd e) ->
  size_ok (entry_fields domain_fields e) ->
  parse_geosite (encode_fields (entry_fields domain_fields e))
  = Ok (to_ascii_lowercase (fst e), fold_left (fun s d => ds_add (fst d) (snd d) s) (snd e) ds_empty).
Proof.
  intros Hu Hp Hs. unfold parse_geosite.
  rewrite (message_loop_encode _ _ _ _ geosite_handles) by (done || apply entry_fields_ok).
  unfold entry_fields at 1. cbn [fold_res geosite_step mbind res_bind snd]. rewrite lossy_id by done.
  assert (Forall (fun c => size_ok (domain_fields c)) (snd e)) as Hss.
  { apply Forall_forall. intros c Hc. eapply nested_size; [by apply elem_entry|done]. }
  clear Hs. destruct e as [code ds]. cbn [fst snd] in *. generalize (to_ascii_lowercase code), ds_empty. intros code'.
  induction ds as [|d ds IH]; intros acc; [done|].
  apply Forall_cons in Hp as [[Ht Hd] Hp]. apply Forall_cons in Hss as [Hsc Hss].
  cbn [map fold_res geosite_step]. rewrite parse_domain_encode by done. destruct d as [t v].
  cbn [mbind res_bind fst snd fold_left]. by rewrite IH.
Qed.

(** The insertions of the outer loop. *)
Definition insert_entry {A V} (meaning : list A -> V) (m : gmap str V) (e : str * list A) : gmap str V :=
  let code := to_ascii_lowercase (fst e) in
  if decide (code = []) then m else <[code := meaning (snd e)]> m.

Lemma insert_entries_lookup {A V} (meaning : list A -> V) l code : code <> [] -> forall m,
  fold_left (insert_entry meaning) l m !! to_ascii_lowercase code
  = match last_named code l with Some xs => Some (meaning xs) | None => m !! to_ascii_lowercase code end.
Proof.
  intros Hc. induction l as [|[c xs] l IH]; intros m; [done|]. cbn [fold_left last_named]. rewrite IH.
  destruct (last_named code l); [done|]. unfold insert_entry. cbn [fst snd].
  assert (to_ascii_lowercase code <> []) as Hne by (destruct code; done).
  case_decide as H1; case_decide as H2; try done.
  - congruence.
  - by rewrite H2, lookup_insert_eq.
  - by rewrite lookup_insert_ne.
Qed.

Lemma geoip_fold l : forall m,
  Forall (fun e => utf8_valid (fst e) = true /\ Forall (fun c => 0 <= snd c < 2 ^ 64) (snd e)
                   /\ size_ok (entry_fields cidr_fields e)) l ->
  fold_res geoip_db_step (db_fields cidr_fields l) m = Ok (fold_left (insert_entry (omap range_of)) l m).
Proof.
  induction l as [|e l IH]; intros m H; [done|]. apply Forall_cons in H as [(Hu & Hp & Hs) H].
  cbn [db_fields map fold_res geoip_db_step]. rewrite parse_geoip_encode by done.
  cbn [mbind res_bind fold_left]. rewrite <- IH by done. done.
Qed.

Lemma geosite_fold l : forall m,
  Forall (fun e => utf8_valid (fst e) = true
                   /\ Forall (fun d => 0 <= fst d < 2 ^ 64 /\ utf8_valid (snd d) = true) (snd e)
                   /\ size_ok (entry_fields domain_fields e)) l ->
  fold_res geosite_db_step (db_fields domain_fields l) m
  = Ok (fold_left (insert_entry (fun ds => fold_left (fun s d => ds_add (fst d) (snd d) s) ds ds_empty)) l m).
Proof.
  induction l as [|e l IH]; intros m H; [done|]. apply Forall_cons in H as [(Hu & Hp & Hs) H].
  cbn [db_fields map fold_res geosite_db_step]. rewrite parse_geosite_encode by done.
  cbn [mbind res_bind fold_left]. rewrite <- IH by done. done.
Qed.

Lemma db_sizes {A} (fields : A -> list (Z * field_value)) l :
  size_ok (db_fields fields l) -> Forall (fun e => size_ok (entry_fields fields e)) l.
Proof.
  intros Hs. apply Forall_forall. intros e He. eapply (nested_size _ 1); [|exact Hs].
  apply list_elem_of_In, in_map_iff. exists e. split; [done|by apply list_elem_of_In].
Qed.

(** ** Properties *)

(** Reading a geo database is safe on any bytes: both parsers end without a
    panic (every loop has enough fuel, every index is in range), and whatever
    [geoip.dat] they accept, each country has a non-empty code and only
    well-formed ranges: no prefix is wider than its family, so no truncation can
    turn a broken record into a false catch-all range. *)
Theorem geo_parsers_safe (buf : bytes) :
  no_panic (geoip_parse buf) /\ no_panic (geosite_parse buf)
  /\ forall db, geoip_parse buf = Ok db -> geoip_ok db.
Proof.
  split; [apply message_loop_no_panic, geoip_entry_safe|].
  split; [apply message_loop_no_panic, geosite_entry_safe|]. apply geoip_parse_ok.
Qed.

(** A database written in the protobuf schema is read back: an address
    belongs to a country exactly when the last entry of that name (case ignored)
    has a well-formed range that holds it; records with an address of another
    length or a prefix beyond the family are skipped without breaking the rest. *)
Theorem geoip_read_back (l : list (str * list (bytes * Z))) (country : str) (ip : IpAddr)
    (Hl : Forall (fun e => utf8_valid (fst e) = true /\ Forall (fun c => 0 <= snd c < 2 ^ 64) (snd e)) l)
    (Hs : size_ok (db_fields cidr_fields l)) (Hc : country <> []) (Hip : ip_ok ip) :
  exists db, geoip_parse (encode_fields (db_fields cidr_fields l)) = Ok db
    /\ (geoip_matches db country ip = true
        <-> exists cs c, last_named country l = Some cs /\ c ∈ omap range_of cs /\ in_cidr c ip).
Proof.
  set (db := fold_left (insert_entry (omap range_of)) l ∅).
  assert (geoip_parse (encode_fields (db_fields cidr_fields l)) = Ok db) as Hdb.
  { unfold geoip_parse. rewrite (message_loop_encode _ _ _ _ geoip_db_handles) by (done || apply db_fields_ok).
    apply geoip_fold. pose proof (db_sizes _ _ Hs) as Hss. rewrite Forall_forall in *.
    intros e He. destruct (Hl e He). by auto. }
  exists db. split; [done|]. apply geoip_parse_ok in Hdb.
  unfold geoip_matches, geoip_country, geoip_ok in *. specialize (Hdb (to_ascii_lowercase country)).
  unfold db in *. rewrite insert_entries_lookup in * by done. rewrite lookup_empty in *.
  destruct (last_named country l) as [cs|]; [|split; [done|]; by intros (? & ? & ? & _)].
  destruct (Hdb _ eq_refl) as [_ Hok]. rewrite Forall_forall in Hok. rewrite existsb_elem.
  split; intros H; [destruct H as (c & Hc' & H); exists cs, c|destruct H as (cs' & c & [= <-] & Hc' & H); exists c];
    split_and!; try done; apply contains_spec; auto.
Qed.

(** The same for [geosite.dat], whose sets are read in constant time per
    label: a host is in a category exactly when one of the entries of the last
    category of that name matches it: a full name, a domain or any parent of it,
    label by label, or a substring; letter case and trailing dots are ignored,
    and empty and regex entries match nothing. *)
Theorem geosite_read_back (l : list (str * list (Z * str))) (category host : str)
    (Hl : Forall (fun e => utf8_valid (fst e) = true
                   /\ Forall (fun d => 0 <= fst d < 2 ^ 64 /\ utf8_valid (snd d) = true) (snd e)) l)
    (Hs : size_ok (db_fields domain_fields l)) (Hc : category <> []) :
  exists db, geosite_parse (encode_fields (db_fields domain_fields l)) = Ok db
    /\ (geosite_matches db category host = true
        <-> exists ds, last_named category l = Some ds /\ Exists (entry_matches host) ds).
Proof.
  eexists. split.
  - unfold geosite_parse. rewrite (message_loop_encode _ _ _ _ geosite_db_handles) by (done || apply db_fields_ok).
    apply geosite_fold. pose proof (db_sizes _ _ Hs) as Hss. rewrite Forall_forall in *.
    intros e He. destruct (Hl e He). by auto.
  - unfold geosite_matches, geosite_category. rewrite insert_entries_lookup by done. rewrite lookup_empty.
    destruct (last_named category l) as [ds|]; [|split; [done|]; by intros (? & ? & _)].
    rewrite ds_fold_matches, ds_empty_matches. split; [intros [?|?]; [done|eauto]|].
    intros (ds' & [= <-] & H). auto.
Qed.

(** ** Witnesses *)

Definition witness_geoip : list (str * list (bytes * Z)) :=
  [("RU" : str, [(of_zs [10; 1; 0; 0], 16); (of_zs [1; 2; 3], 8); (of_zs [9; 9; 9; 9], 256)])].

Lemma geoip_read_back_witness :
  exists db, geoip_parse (encode_fields (db_fields cidr_fields witness_geoip)) = Ok db
    /\ geoip_matches db "ru" (V4 (10 * 2 ^ 24 + 2 ^ 16 + 5)) = true.
Proof.
  destruct (geoip_read_back witness_geoip "ru" (V4 (10 * 2 ^ 24 + 2 ^ 16 + 5))) as (db & Hdb & H).
  - repeat first [cbn; lia | constructor].
  - vm_compute. reflexivity.
  - discriminate.
  - unfold ip_ok. cbn. lia.
  - exists db. split; [exact Hdb|]. apply H. eexists _, {| cidr_base := V4 (10 * 2 ^ 24 + 2 ^ 16); cidr_prefix := 16 |}.
    split; [reflexivity|]. split; [vm_compute; left|]. split; reflexivity.
Defined.

Definition witness_geosite : list (str * list (Z * str)) :=
  [("google" : str, [(2, "Google.com" : str); (3, "goo.gl" : str); (1, "x.*" : str)])].

Lemma geosite_read_back_witness :
  exists db, geosite_parse (encode_fields (db_fields domain_fields witness_geosite)) = Ok db
    /\ geosite_matches db "GOOGLE" "mail.google.com." = true.
Proof.
  destruct (geosite_read_back witness_geosite "GOOGLE" "mail.google.com.") as (db & Hdb & H).
  - repeat first [cbn; lia | constructor].
  - vm_compute. reflexivity.
  - discriminate.
  - exists db. split; [exact Hdb|]. apply H. eexists. split; [reflexivity|]. left.
    split; [discriminate|]. right. left. split; [reflexivity|]. exists ["mail" : str]. reflexivity.
Defined.
