(* ===== verification/FakeIp.v ===== *)
(** * The FakeIP allocator ([crates/net/src/fakeip.rs]) *)

From S2P Require Import Prelude RustStr NetAddr Model Cidr.

(** [FakeIp] with its [Inner] state; the mutex is held for a whole operation,
    so an operation is one step of the state. *)
Record FakeIp : Type := {
  fk_base : Z;
  fk_count : Z;
  fk_cursor : Z;
  fk_dom_to_ip : gmap str Z;
  fk_ip_to_dom : gmap Z str
}.

(** [FakeIp::new] *)
Definition fakeip_new (cidr : str) : res str FakeIp :=
  c ← map_err show_parse_error (cidr_parse cidr);
  base_ip ← (match cidr_base c with V4 v => Ok v | V6 _ => Err ("fakeip: нужен IPv4-диапазон" : str) end);
  let prefix := cidr_prefix c in
  count ← (if prefix =? 0 then Err ("fakeip: слишком широкий диапазон" : str)
           else if 32 <=? prefix then Ok 1
           else Ok (Z.shiftl 1 (32 - prefix) mod 2 ^ 32));
  if count <? 3 then Err ("fakeip: диапазон слишком мал (нужно ≥2 пригодных адресов)" : str)
  else
    let mask := Z.shiftl (2 ^ 32 - 1) (32 - prefix) mod 2 ^ 32 in
    Ok {| fk_base := Z.land base_ip mask; fk_count := count; fk_cursor := 1;
          fk_dom_to_ip := ∅; fk_ip_to_dom := ∅ |}.

(** [FakeIp::allocate] *)
Definition allocate (f : FakeIp) (domain : str) : FakeIp * Z :=
  match fk_dom_to_ip f !! domain with
  | Some ip => (f, ip)
  | None =>
      let offset := fk_cursor f in
      let cursor := if fk_count f <=? fk_cursor f + 1 then 1 else fk_cursor f + 1 in
      let ip := fk_base f + offset in
      let dom_to_ip :=
        match fk_ip_to_dom f !! ip with
        | Some old => if decide (old <> domain) then delete old (fk_dom_to_ip f) else fk_dom_to_ip f
        | None => fk_dom_to_ip f
        end in
      ({| fk_base := fk_base f; fk_count := fk_count f; fk_cursor := cursor;
          fk_dom_to_ip := <[domain := ip]> dom_to_ip;
          fk_ip_to_dom := <[ip := domain]> (fk_ip_to_dom f) |}, ip)
  end.

(** [FakeIp::domain_of] *)
Definition domain_of (f : FakeIp) (ip : IpAddr) : option str :=
  match ip with V4 v => fk_ip_to_dom f !! v | V6 _ => None end.

(** [FakeIp::range_contains]: [wrapping_sub] on [u32] *)
Definition range_contains (f : FakeIp) (ip : IpAddr) : bool :=
  match ip with V4 v => (v - fk_base f) mod 2 ^ 32 <? fk_count f | V6 _ => false end.

(** ** Invariant: the two maps are inverse and hold usable addresses only *)

Definition range_ok (f : FakeIp) : Prop :=
  0 <= fk_base f /\ 3 <= fk_count f /\ fk_base f + fk_count f <= 2 ^ 32 /\ 1 <= fk_cursor f < fk_count f.

Definition fakeip_inv (f : FakeIp) : Prop :=
  range_ok f
  /\ (forall d ip, fk_dom_to_ip f !! d = Some ip <-> fk_ip_to_dom f !! ip = Some d)
  /\ (forall ip d, fk_ip_to_dom f !! ip = Some d -> fk_base f < ip < fk_base f + fk_count f).

(** The states reached from a fresh allocator by allocations. *)
Inductive reachable (cidr : str) : FakeIp -> Prop :=
| reach_new f : fakeip_new cidr = Ok f -> reachable cidr f
| reach_alloc f d : reachable cidr f -> reachable cidr (fst (allocate f d)).

(** [fold] of allocations. *)
Definition allocate_all (f : FakeIp) (ds : list str) : FakeIp :=
  fold_left (fun f d => fst (allocate f d)) ds f.

(** ** Lemmas *)

Lemma new_inv s f : fakeip_new s = Ok f ->
  fakeip_inv f /\ exists c b, cidr_parse s = Ok c /\ cidr_base c = V4 b
    /\ fk_count f = 2 ^ (32 - cidr_prefix c) /\ fk_base f = b / fk_count f * fk_count f.
Proof.
  unfold fakeip_new. intros H. apply ok_bind in H as (c & Hc & H).
  assert (cidr_parse s = Ok c) as Hp by (destruct (cidr_parse s); [by injection Hc as ->|done..]).
  apply ok_bind in H as (b & Hb & H). destruct (cidr_base c) as [v|] eqn:Eb; simplify_eq.
  pose proof (cidr_parse_ok _ _ Hp) as [Hip Hpre]. rewrite Eb in *. unfold ip_ok in Hip. cbn in Hip, Hpre.
  apply ok_bind in H as (count & Hn & H).
  destruct (Z.eqb_spec (cidr_prefix c) 0) as [|H0]; [done|].
  destruct (Z.leb_spec 32 (cidr_prefix c)); [simplify_eq; done|].
  injection Hn as Hn. rewrite Z.shiftl_1_l, Z.mod_small in Hn by (split; [apply Z.pow_nonneg|apply Z.pow_lt_mono_r]; lia).
  destruct (Z.ltb_spec count 3); [done|]. injection H as <-.
  rewrite land_mask by lia. cbn. rewrite Hn.
  assert (count * 2 ^ cidr_prefix c = 2 ^ 32) as Hdiv by (rewrite <- Hn, <- Z.pow_add_r by lia; f_equal; lia).
  split; [|by exists c, b].
  assert (b / count < 2 ^ cidr_prefix c) by (apply Z.div_lt_upper_bound; lia).
  assert (0 <= b / count) by (apply Z.div_pos; lia).
  unfold fakeip_inv, range_ok. cbn. split_and!; try done; try nia.
Qed.

Lemma allocate_inv f d f' ip : fakeip_inv f -> allocate f d = (f', ip) ->
  fakeip_inv f' /\ fk_ip_to_dom f' !! ip = Some d /\ fk_base f' = fk_base f /\ fk_count f' = fk_count f.
Proof.
  intros ((Hb & Hc & Hlim & Hcur) & Hinv & Hrange) H. unfold allocate in H.
  destruct (fk_dom_to_ip f !! d) as [ip'|] eqn:Ed; simplify_eq.
  { split_and!; try done. by apply Hinv. }
  cbn. split_and!; [|apply lookup_insert_eq|done|done]. unfold fakeip_inv, range_ok. cbn.
  set (ip := fk_base f + fk_cursor f) in *.
  split_and!; try done; try lia; [destruct (Z.leb_spec (fk_count f) (fk_cursor f + 1)); lia..| |].
  - intros d' ip'. rewrite !lookup_insert_Some.
    destruct (fk_ip_to_dom f !! ip) as [old|] eqn:Eip.
    + assert (fk_dom_to_ip f !! old = Some ip) as Hold by by apply Hinv.
      rewrite decide_True by congruence. rewrite lookup_delete_Some, Hinv. split.
      * intros [[<- <-]|(Hne & Ho & H)]; [by left|right]. split; [|done]. congruence.
      * intros [[<- <-]|(Hne & H)]; [by left|right]. split_and!; [|intros ->; apply Hinv in H; congruence|done].
        intros <-. apply Hinv in H. congruence.
    + rewrite Hinv. split.
      * intros [[<- <-]|(Hne & H)]; [by left|right]. split; [congruence|done].
      * intros [[<- <-]|(Hne & H)]; [by left|right]. split; [|done]. intros <-. apply Hinv in H. congruence.
  - intros ip' d'. rewrite lookup_insert_Some. intros [[<- <-]|[_ H]]; [lia|by eapply Hrange].
Qed.

Lemma reachable_inv s f : reachable s f -> fakeip_inv f.
Proof.
  induction 1 as [f H|f d _ IH]; [by apply new_inv in H as [? _]|].
  destruct (allocate f d) as [f' ip] eqn:E. by apply allocate_inv in E as [? _].
Qed.

(** The range is the network that the text denotes, host bits dropped. *)
Lemma reachable_range s f : reachable s f ->
  exists c, cidr_parse s = Ok c /\
    forall v, 0 <= v < 2 ^ 32 -> range_contains f (V4 v) = true <-> cidr_contains c (V4 v) = true.
Proof.
  intros Hr. assert (exists c b, cidr_parse s = Ok c /\ cidr_base c = V4 b
    /\ fk_count f = 2 ^ (32 - cidr_prefix c) /\ fk_base f = b / fk_count f * fk_count f) as (c & b & Hp & Hb & Hc & Hf).
  { induction Hr as [f H|f d Hr IH]; [by apply new_inv in H as [_ ?]|].
    destruct (allocate f d) as [f' ip] eqn:E.
    apply allocate_inv in E as (_ & _ & Hb & Hc); [|by eapply reachable_inv]. cbn [fst]. by rewrite Hb, Hc. }
  apply reachable_inv in Hr as [(Hb0 & Hc0 & Hlim & _) _].
  exists c. split; [done|]. intros v Hv. pose proof (cidr_parse_ok _ _ Hp) as Hok.
  rewrite contains_spec by done. unfold in_cidr, same_network. rewrite Hb. cbn -[Z.pow]. rewrite <- Hc.
  rewrite Z.ltb_lt, Hf. rewrite Hf in Hb0, Hlim. set (q := b / fk_count f) in *.
  pose proof (Z.div_mod v (fk_count f) ltac:(lia)). pose proof (Z.mod_pos_bound v (fk_count f) ltac:(lia)).
  split.
  - intros H1. split; [done|].
    destruct (Z.ltb_spec v (q * fk_count f)) as [Hlt|Hge].
    + rewrite <- (Z.mod_add _ 1), Z.mod_small in H1 by lia. lia.
    + rewrite Z.mod_small in H1 by lia. apply Z.div_unique with (v - q * fk_count f); lia.
  - intros [_ ->]. rewrite Z.mod_small by lia. lia.
Qed.

(** Allocations of other domains before the cursor is back at offset [o]. *)
Definition distance (f : FakeIp) (o : Z) : Z :=
  if fk_cursor f <=? o then o - fk_cursor f else o - fk_cursor f + (fk_count f - 1).

Lemma allocate_distance f d f' ip o : fakeip_inv f -> 1 <= o < fk_count f -> allocate f d = (f', ip) ->
  0 < distance f o ->
  distance f o - 1 <= distance f' o /\ fk_ip_to_dom f' !! (fk_base f + o) = fk_ip_to_dom f !! (fk_base f + o).
Proof.
  intros ((Hb & Hc & Hlim & Hcur) & _) Ho H Hd. unfold allocate in H.
  destruct (fk_dom_to_ip f !! d); simplify_eq; [split; [lia|done]|]. cbn. unfold distance in *. cbn.
  split.
  - repeat match goal with |- context [?a <=? ?b] => destruct (Z.leb_spec a b) end; lia.
  - apply lookup_insert_ne. destruct (Z.leb_spec (fk_cursor f) o); lia.
Qed.

Lemma allocate_all_keeps ds : forall f d o, fakeip_inv f -> 1 <= o < fk_count f ->
  fk_ip_to_dom f !! (fk_base f + o) = Some d -> Z.of_nat (length ds) <= distance f o ->
  fk_ip_to_dom (allocate_all f ds) !! (fk_base f + o) = Some d.
Proof.
  unfold allocate_all. induction ds as [|x ds IH]; intros f d o Hi Ho Hl Hd; [done|]. cbn [fold_left length] in *.
  destruct (allocate f x) as [f' ip] eqn:E.
  pose proof (allocate_distance f x f' ip o Hi Ho E ltac:(lia)) as [Hd' Hl'].
  apply allocate_inv in E as (Hi' & _ & Hb & Hc); [|done]. cbn [fst].
  rewrite <- Hb. apply IH; rewrite ?Hb, ?Hc; try done; [congruence|lia].
Qed.

(** ** Properties *)

(** C34. In every state reached from a fresh allocator the two maps are inverse
    to each other, every address handed out lies in the configured range (the
    network of the text, host bits dropped) and is not its network address, asking
    again gives the same address, and [domain_of] recovers the domain; so two
    domains never share a live address. *)
Theorem fakeip_consistent (cidr d : str) (f f' : FakeIp) (ip : Z)
    (Hr : reachable cidr f) (Ha : allocate f d = (f', ip)) :
  domain_of f' (V4 ip) = Some d /\ snd (allocate f' d) = ip
  /\ range_contains f' (V4 ip) = true /\ fk_base f' < ip < 2 ^ 32
  /\ (exists c, cidr_parse cidr = Ok c /\ cidr_contains c (V4 ip) = true)
  /\ forall d', fk_dom_to_ip f' !! d' = Some ip -> d' = d.
Proof.
  assert (reachable cidr f') as Hr' by (change f' with (fst (f', ip)); rewrite <- Ha; by constructor).
  apply allocate_inv in Ha as (((Hb & Hc & Hlim & Hcur) & Hinv & Hrange) & Hl & _ & _); [|by eapply reachable_inv].
  pose proof (Hrange _ _ Hl) as Hip. assert (fk_dom_to_ip f' !! d = Some ip) as Hd by by apply Hinv.
  assert (range_contains f' (V4 ip) = true) as Hin by (cbn; apply Z.ltb_lt; rewrite Z.mod_small; lia).
  split_and!; [done| |done|lia|lia| |].
  - unfold allocate. by rewrite Hd.
  - destruct (reachable_range _ _ Hr') as (c & Hp & Hiff). exists c. split; [done|]. apply Hiff; [lia|done].
  - intros d' H. apply Hinv in H. congruence.
Qed.

(** A fresh binding survives the next [count - 2] allocations, whatever the domains: addresses are reused in turn,
    the oldest binding first. *)
Theorem fakeip_lifetime (cidr d : str) (f f' : FakeIp) (ip : Z) (ds : list str)
    (Hr : reachable cidr f) (Hd : fk_dom_to_ip f !! d = None) (Ha : allocate f d = (f', ip))
    (Hn : Z.of_nat (length ds) <= fk_count f - 2) :
  domain_of (allocate_all f' ds) (V4 ip) = Some d.
Proof.
  apply reachable_inv in Hr. pose proof (allocate_inv _ _ _ _ Hr Ha) as (Hi & Hl & Hb & Hc).
  destruct Hr as [(Hb0 & Hc0 & Hlim & Hcur) _].
  unfold allocate in Ha. rewrite Hd in Ha. injection Ha as Hf Hip. cbn [domain_of]. rewrite <- Hip, <- Hb in *.
  apply allocate_all_keeps; [done|lia|done|]. etransitivity; [exact Hn|].
  unfold distance. rewrite <- Hf. cbn.
  destruct (Z.leb_spec (fk_count f) (fk_cursor f + 1)); [rewrite (proj2 (Z.leb_le _ _)) by lia; lia|].
  rewrite (proj2 (Z.leb_gt _ _)) by lia. lia.
Qed.

(** ** Witnesses *)

Lemma fakeip_consistent_witness : exists f f' ip,
  fakeip_new "198.18.7.9/30" = Ok f /\ allocate f "a.example" = (f', ip) /\ domain_of f' (V4 ip) = Some ("a.example" : str).
Proof.
  destruct (fakeip_new "198.18.7.9/30") as [f| |] eqn:E; [|discriminate E..].
  exists f. destruct (allocate f "a.example") as [f' ip] eqn:Ea. exists f', ip. split; [done|]. split; [done|].
  refine (proj1 (fakeip_consistent "198.18.7.9/30" "a.example" f f' ip _ Ea)). by constructor.
Defined.

Lemma fakeip_lifetime_witness : exists f f' ip,
  fakeip_new "198.18.0.0/30" = Ok f /\ allocate f "a" = (f', ip)
  /\ domain_of (allocate_all f' ["b" : str; "c" : str]) (V4 ip) = Some ("a" : str).
Proof.
  destruct (fakeip_new "198.18.0.0/30") as [f| |] eqn:E; [|discriminate E..].
  exists f. destruct (allocate f "a") as [f' ip] eqn:Ea. exists f', ip. split; [done|]. split; [done|].
  refine (fakeip_lifetime "198.18.0.0/30" "a" f f' ip ["b" : str; "c" : str] _ _ Ea _).
  - by constructor.
  - vm_compute in E. injection E as <-. reflexivity.
  - vm_compute in E. injection E as <-. cbn. lia.
Defined.
