(* ===== verification/NetIo.v ===== *)
(** * I/O errors, indexed access and connection targets
    ([std::io::Error], slice indexing and [crates/net/src/target.rs]) *)

From S2P Require Import Prelude RustStr NetAddr.

(** [io::Error] by kind and message. *)
Inductive io_error : Type :=
| InvalidData (msg : str)
| InvalidInput (msg : str)
| IoOther (msg : str)
| UnexpectedEof
| ConnectionAborted (msg : str)
| WriteZero (msg : str)
| IoTimedOut (msg : str)
| PermissionDenied (msg : str).

#[export] Instance io_error_eq_dec : EqDecision io_error.
Proof. solve_decision. Defined.

(** [buf[i]] and [&buf[a..b]]: out of range is a panic. Positions and lengths are
    [nat]: a slice has at most [isize::MAX] bytes, so a sum of two positions
    inside one does not overflow. *)
Definition index {E A} (buf : list A) (i : nat) : res E A := unwrap (buf !! i).

Definition sub_slice {E A} (a b : nat) (buf : list A) : res E (list A) :=
  if (a <=? b)%nat && (b <=? length buf)%nat then Ok (slice a b buf) else Panic.

(** [u16::from_be_bytes([buf[i], buf[i + 1]])] *)
Definition index_be16 {E} (buf : bytes) (i : nat) : res E Z :=
  a ← index buf i; b ← index buf (S i); Ok (be_value [a; b]).

(** ** Reading a byte stream: [AsyncReadExt] on the bytes still to come *)

Definition read_u8 (s : bytes) : res io_error (u8 * bytes) :=
  match s with [] => Err UnexpectedEof | b :: s' => Ok (b, s') end.

Definition read_exact (n : nat) (s : bytes) : res io_error (bytes * bytes) :=
  if (n <=? length s)%nat then Ok (take n s, drop n s) else Err UnexpectedEof.

(** ** Targets *)

Inductive Target : Type :=
| TDomain (host : str) (port : Z)
| TSocket (addr : SocketAddr).

#[export] Instance Target_eq_dec : EqDecision Target.
Proof. solve_decision. Defined.

(** [Target::port] *)
Definition target_port (t : Target) : Z :=
  match t with TDomain _ p => p | TSocket s => sa_port s end.

(** [impl Display for Target] *)
Definition show_target (t : Target) : str :=
  match t with
  | TDomain host port => host ++ ":" ++ show_uint port
  | TSocket addr => show_socket addr
  end.

(** The type invariant: a [u16] port, an address that fits its family. A domain
    is a Rust string, hence valid UTF-8, where a lemma needs it. *)
Definition target_ok (t : Target) : Prop :=
  0 <= target_port t < 65536 /\ match t with TSocket a => ip_ok (sa_ip a) | _ => True end.

(** ** Lemmas *)

Lemma index_ok {E A} (buf : list A) i : (i < length buf)%nat -> exists x, index (E := E) buf i = Ok x /\ buf !! i = Some x.
Proof. intros H. unfold index. destruct (lookup_lt_is_Some_2 buf i H) as [x ->]. by exists x. Qed.

Lemma index_app {E A} (a : list A) x b i : length a = i -> index (E := E) (a ++ x :: b) i = Ok x.
Proof. intros <-. unfold index. by rewrite list_lookup_middle. Qed.

(** A position at which a list is known. *)
Lemma index_drop {E A} (buf : list A) p i k : drop p buf = k -> (i < length k)%nat ->
  index (E := E) buf (p + i) = index k i.
Proof. intros <- _. unfold index. by rewrite lookup_drop. Qed.

Lemma index_no_panic {E A} (buf : list A) i : (i < length buf)%nat -> no_panic (index (E := E) buf i).
Proof. intros H. destruct (index_ok (E := E) buf i H) as (x & -> & _). discriminate. Qed.

Lemma index_be16_no_panic {E} buf i : (S i < length buf)%nat -> no_panic (index_be16 (E := E) buf i).
Proof.
  intros H. apply no_panic_bind; [apply index_no_panic; lia|]. intros a _.
  apply no_panic_bind; [by apply index_no_panic|]. discriminate.
Qed.

Lemma sub_slice_no_panic {E A} a b (buf : list A) : (a <= b <= length buf)%nat -> no_panic (sub_slice (E := E) a b buf).
Proof.
  intros H. unfold sub_slice. rewrite (proj2 (Nat.leb_le _ _)), (proj2 (Nat.leb_le _ _)) by lia. discriminate.
Qed.

#[export] Hint Resolve index_no_panic index_be16_no_panic sub_slice_no_panic : resdb.

(** Reads at a position followed by known bytes. *)
Lemma sub_slice_mid {E B} (a m z : list B) p q : p = length a -> q = (length a + length m)%nat ->
  sub_slice (E := E) p q (a ++ m ++ z) = Ok m.
Proof.
  intros -> ->. unfold sub_slice. rewrite !length_app.
  rewrite (proj2 (Nat.leb_le _ _)), (proj2 (Nat.leb_le _ _)) by lia. cbn [andb]. unfold slice.
  rewrite drop_app_length, take_app_length' by lia. done.
Qed.

Lemma sub_slice_drop {E A} p (buf k t : list A) : drop p buf = k ++ t -> (p <= length buf)%nat ->
  sub_slice (E := E) p (p + length k) buf = Ok k.
Proof.
  intros H Hp. pose proof (f_equal length H) as Hl. rewrite length_drop, length_app in Hl.
  unfold sub_slice. rewrite (proj2 (Nat.leb_le _ _)), (proj2 (Nat.leb_le _ _)) by lia. cbn [andb].
  unfold slice. replace (p + length k - p)%nat with (length k) by lia. by rewrite H, take_app_length.
Qed.

Lemma index_be16_drop {E} p (buf : bytes) z t : drop p buf = be_bytes 2 z ++ t -> 0 <= z < 65536 ->
  index_be16 (E := E) buf p = Ok z.
Proof.
  intros H Hz. unfold index_be16, index. cbn [be_bytes app] in H.
  assert (buf !! p = Some (to_u8 (z / 256 ^ Z.of_nat 1))) as ->
    by (rewrite <- (Nat.add_0_r p), <- lookup_drop, H; done).
  assert (buf !! S p = Some (to_u8 (z / 256 ^ Z.of_nat 0))) as ->
    by (rewrite <- Nat.add_1_r, <- lookup_drop, H; done).
  cbn [unwrap mbind res_bind]. f_equal. exact (be_value_be_bytes_small 2 z Hz).
Qed.

Lemma index_at {E} p (buf : bytes) b t : drop p buf = b :: t -> index (E := E) buf p = Ok b.
Proof. intros H. unfold index. by rewrite <- (Nat.add_0_r p), <- lookup_drop, H. Qed.

Lemma drop_shift {A} p n (buf a b : list A) : drop p buf = a ++ b -> length a = n -> drop (p + n) buf = b.
Proof. intros H <-. by rewrite <- drop_drop, H, drop_app_length. Qed.

Lemma read_exact_app a b : read_exact (length a) (a ++ b) = Ok (a, b).
Proof.
  unfold read_exact. rewrite length_app, (proj2 (Nat.leb_le _ _)) by lia.
  by rewrite take_app_length, drop_app_length.
Qed.

Lemma read_exact_app_n n a b : length a = n -> read_exact n (a ++ b) = Ok (a, b).
Proof. intros <-. apply read_exact_app. Qed.

Lemma read_exact_no_panic n s : no_panic (read_exact n s).
Proof. unfold read_exact. by destruct (_ <=? _)%nat. Qed.

Lemma read_u8_no_panic s : no_panic (read_u8 s).
Proof. by destruct s. Qed.

#[export] Hint Resolve read_exact_no_panic read_u8_no_panic : resdb.
