(* ===== verification/Dns.v ===== *)
(** * The DNS message codec ([crates/net/src/dns/message.rs]) *)

From S2P Require Import Prelude RustStr NetAddr NetIo.

Definition TYPE_A : Z := 1.
Definition TYPE_AAAA : Z := 28.
Definition CLASS_IN : Z := 1.

(** [bad] *)
Definition dns_bad (msg : str) : io_error := InvalidData msg.

(** The loop over the labels in [encode_query]. *)
Fixpoint push_labels (labels : list str) (b : bytes) : res io_error bytes :=
  match labels with
  | [] => Ok b
  | label :: rest =>
      if (length label =? 0)%nat then push_labels rest b
      else if (63 <? length label)%nat then Err (dns_bad "dns: метка длиннее 63")
      else push_labels rest (b ++ [to_u8 (Z.of_nat (length label))] ++ label)
  end.

(** [encode_query] *)
Definition encode_query (id : Z) (name : str) (qtype : Z) : res io_error bytes :=
  let b := be_bytes 2 id ++ be_bytes 2 256 ++ be_bytes 2 1 ++ of_zs [0; 0; 0; 0; 0; 0] in
  b ← push_labels (split_char "." (trim_end_char "." name)) b;
  Ok (b ++ [to_u8 0] ++ be_bytes 2 qtype ++ be_bytes 2 CLASS_IN).

(** [skip_name] *)
Definition skip_name_body (buf : bytes) (st : nat * nat) : res io_error (nat * nat + nat) :=
  let '(pos, steps) := st in
  if (length buf <=? pos)%nat then Err (dns_bad "dns: имя за границей")
  else
    b ← index buf pos;
    let len := val8 b in
    if len =? 0 then Ok (inr (pos + 1)%nat)
    else if Z.land len 192 =? 192 then
      if (length buf <? pos + 2)%nat then Err (dns_bad "dns: усечённый указатель")
      else Ok (inr (pos + 2)%nat)
    else if negb (Z.land len 192 =? 0) then Err (dns_bad "dns: неверный байт длины метки")
    else
      let pos := (pos + (1 + Z.to_nat len))%nat in
      let steps := (steps + 1)%nat in
      if (128 <? steps)%nat then Err (dns_bad "dns: слишком длинное имя") else Ok (inl (pos, steps)).

Definition skip_name (buf : bytes) (pos : nat) : res io_error nat := loop 130 (skip_name_body buf) (pos, O).

(** [for _ in 0..qdcount] *)
Fixpoint skip_questions (buf : bytes) (n : nat) (pos : nat) : res io_error nat :=
  match n with
  | O => Ok pos
  | S k =>
      pos ← skip_name buf pos;
      pos ← ok_or (if Z.of_nat pos + 4 <? 2 ^ 64 then Some (pos + 4)%nat else None) (dns_bad "dns: переполнение");
      skip_questions buf k pos
  end.

(** [for _ in 0..ancount] *)
Fixpoint read_answers (buf : bytes) (n : nat) (pos : nat) (ips : list IpAddr) : res io_error (list IpAddr) :=
  match n with
  | O => Ok ips
  | S k =>
      pos ← skip_name buf pos;
      if (length buf <? pos + 10)%nat then Err (dns_bad "dns: усечённая RR")
      else
        rtype ← index_be16 buf pos;
        rdlen ← index_be16 buf (pos + 8);
        let pos := (pos + 10)%nat in
        let rdlen := Z.to_nat rdlen in
        if (length buf <? pos + rdlen)%nat then Err (dns_bad "dns: усечённая RDATA")
        else
          ips ← (if (rtype =? TYPE_A) && (rdlen =? 4)%nat then
                   a ← index buf pos; b ← index buf (pos + 1); c ← index buf (pos + 2); d ← index buf (pos + 3);
                   Ok (ips ++ [v4_of_octets [a; b; c; d]])
                 else if (rtype =? TYPE_AAAA) && (rdlen =? 16)%nat then
                   o ← sub_slice pos (pos + 16) buf; Ok (ips ++ [v6_of_octets o])
                 else Ok ips);
          read_answers buf k (pos + rdlen) ips
  end.

(** [decode_response] *)
Definition decode_response (buf : bytes) (expect_id : option Z) : res io_error (list IpAddr) :=
  if (length buf <? 12)%nat then Err (dns_bad "dns: ответ короче заголовка")
  else
    id ← index_be16 buf 0;
    if (match expect_id with Some eid => negb (id =? eid) | None => false end)
    then Err (dns_bad "dns: ID ответа не совпал")
    else
      flags ← index_be16 buf 2;
      let rcode := Z.land flags 15 in
      if negb (rcode =? 0) then Err (IoOther ("dns: RCODE " ++ show_uint rcode))
      else
        qdcount ← index_be16 buf 4;
        ancount ← index_be16 buf 6;
        pos ← skip_questions buf (Z.to_nat qdcount) 12;
        read_answers buf (Z.to_nat ancount) pos [].

(** ** Specification: messages of RFC 1035 *)

(** A name on the wire: labels ended by the root or by a compression pointer. *)
Inductive wire_name : Type :=
| WRoot (labels : list str)
| WPointer (labels : list str) (hi lo : Z).

Definition encode_label (l : str) : bytes := to_u8 (Z.of_nat (length l)) :: l.

Definition encode_name (n : wire_name) : bytes :=
  match n with
  | WRoot ls => concat (map encode_label ls) ++ [to_u8 0]
  | WPointer ls hi lo => concat (map encode_label ls) ++ [to_u8 (192 + hi); to_u8 lo]
  end.

Definition labels_ok (ls : list str) : Prop :=
  (length ls <= 128)%nat /\ Forall (fun l => (0 < length l <= 63)%nat) ls.

Definition name_ok (n : wire_name) : Prop :=
  match n with WRoot ls => labels_ok ls | WPointer ls hi lo => labels_ok ls /\ 0 <= hi < 64 end.

Record rr : Type := { rr_name : wire_name; rr_type : Z; rr_class : Z; rr_ttl : Z; rr_data : bytes }.

Definition rr_ok (r : rr) : Prop :=
  name_ok (rr_name r) /\ 0 <= rr_type r < 65536 /\ Z.of_nat (length (rr_data r)) < 65536.

Definition encode_rr (r : rr) : bytes :=
  encode_name (rr_name r) ++ be_bytes 2 (rr_type r) ++ be_bytes 2 (rr_class r) ++ be_bytes 4 (rr_ttl r)
  ++ be_bytes 2 (Z.of_nat (length (rr_data r))) ++ rr_data r.

Record message : Type := {
  m_id : Z; m_flags : Z;
  m_questions : list (wire_name * Z * Z);
  m_answers : list rr;
  m_nscount : Z; m_arcount : Z; m_rest : bytes
}.

Definition encode_question (q : wire_name * Z * Z) : bytes :=
  let '(n, t, c) := q in encode_name n ++ be_bytes 2 t ++ be_bytes 2 c.

Definition encode_message (m : message) : bytes :=
  be_bytes 2 (m_id m) ++ be_bytes 2 (m_flags m)
  ++ be_bytes 2 (Z.of_nat (length (m_questions m))) ++ be_bytes 2 (Z.of_nat (length (m_answers m)))
  ++ be_bytes 2 (m_nscount m) ++ be_bytes 2 (m_arcount m)
  ++ concat (map encode_question (m_questions m)) ++ concat (map encode_rr (m_answers m)) ++ m_rest m.

Definition message_ok (m : message) : Prop :=
  0 <= m_id m < 65536 /\ 0 <= m_flags m < 65536
  /\ Forall (fun q => name_ok (fst (fst q))) (m_questions m) /\ Forall rr_ok (m_answers m)
  /\ Z.of_nat (length (m_questions m)) < 65536 /\ Z.of_nat (length (m_answers m)) < 65536
  /\ Z.of_nat (length (encode_message m)) < 2 ^ 63.

(** The address of a record: an A of four bytes or an AAAA of sixteen. *)
Definition rr_address (r : rr) : option IpAddr :=
  if (rr_type r =? TYPE_A) && (length (rr_data r) =? 4)%nat then Some (v4_of_octets (rr_data r))
  else if (rr_type r =? TYPE_AAAA) && (length (rr_data r) =? 16)%nat then Some (v6_of_octets (rr_data r))
  else None.

(** ** Lemmas: safety *)

Lemma skip_name_body_spec buf pos steps :
  no_panic (skip_name_body buf (pos, steps))
  /\ (forall p s, skip_name_body buf (pos, steps) = Ok (inl (p, s)) -> s = (steps + 1)%nat /\ (s <= 128)%nat /\ (pos < length buf)%nat)
  /\ (forall p, skip_name_body buf (pos, steps) = Ok (inr p) -> (p <= length buf)%nat).
Proof.
  unfold skip_name_body. destruct (Nat.leb_spec (length buf) pos); [split_and!; done|].
  destruct (index_ok (E := io_error) buf pos ltac:(lia)) as (b & -> & _). cbn [mbind res_bind].
  destruct (_ =? 0); [split_and!; [done..|]; intros p [= <-]; lia|].
  destruct (_ =? 192).
  { destruct (Nat.ltb_spec (length buf) (pos + 2)); split_and!; try done. by intros p [= <-]. }
  destruct (negb _); [split_and!; done|].
  destruct (Nat.ltb_spec 128 (steps + 1)); split_and!; try done. intros p s [= <- <-]. lia.
Qed.

Lemma skip_name_safe buf pos :
  no_panic (skip_name buf pos) /\ forall p, skip_name buf pos = Ok p -> (p <= length buf)%nat.
Proof.
  unfold skip_name. split.
  - apply (loop_no_panic _ (fun '(_, s) => (s <= 128)%nat) (fun '(_, s) => 129 - s)%nat); [| |lia|lia].
    + intros [p s] _. apply skip_name_body_spec.
    + intros [p s] [p' s'] Hs H. apply skip_name_body_spec in H. lia.
  - intros p H. refine (loop_post _ (fun _ => True) (fun p => (p <= length buf)%nat) _ _ _ (pos, O) p I H); [done|].
    intros [q s] a _ E. by apply skip_name_body_spec in E.
Qed.

Lemma skip_questions_no_panic buf n : forall pos, no_panic (skip_questions buf n pos).
Proof.
  induction n as [|n IH]; intros pos; cbn [skip_questions]; [done|].
  apply no_panic_bind; [apply skip_name_safe|]. intros p _.
  apply no_panic_bind; [auto with resdb|]. intros q _. apply IH.
Qed.

Lemma read_answers_safe buf n : forall pos ips,
  no_panic (read_answers buf n pos ips)
  /\ forall r, read_answers buf n pos ips = Ok r ->
       (length r <= length ips + n)%nat /\ (Forall ip_ok ips -> Forall ip_ok r).
Proof.
  induction n as [|n IH]; intros pos ips; cbn [read_answers].
  { split; [done|]. intros r [= <-]. split; [lia|done]. }
  destruct (skip_name_safe buf pos) as [Hp _]. destruct (skip_name buf pos) as [p|e|]; [|split; done|done]. clear Hp. cbn [mbind res_bind].
  destruct (Nat.ltb_spec (length buf) (p + 10)); [split; done|].
  destruct (index_be16 buf p) as [t| |] eqn:Et; [|split; done|by apply (index_be16_no_panic (E := io_error)) in Et; [|lia]].
  cbn [mbind res_bind].
  destruct (index_be16 buf (p + 8)) as [l| |] eqn:El; [|split; done|by apply (index_be16_no_panic (E := io_error)) in El; [|lia]].
  cbn [mbind res_bind].
  destruct (Nat.ltb_spec (length buf) (p + 10 + Z.to_nat l)); [split; done|].
  destruct ((t =? TYPE_A) && (Z.to_nat l =? 4)%nat) eqn:Ea.
  { apply andb_true_iff in Ea as [_ Ea%Nat.eqb_eq].
    destruct (index_ok (E := io_error) buf (p + 10) ltac:(lia)) as (a & -> & _).
    destruct (index_ok (E := io_error) buf (p + 10 + 1) ltac:(lia)) as (b & -> & _).
    destruct (index_ok (E := io_error) buf (p + 10 + 2) ltac:(lia)) as (c & -> & _).
    destruct (index_ok (E := io_error) buf (p + 10 + 3) ltac:(lia)) as (d & -> & _).
    cbn [mbind res_bind]. destruct (IH (p + 10 + Z.to_nat l)%nat (ips ++ [v4_of_octets [a; b; c; d]])) as [Hp Hr].
    split; [done|]. intros r Er. destruct (Hr r Er) as [Hlen Hok]. rewrite length_app in Hlen. cbn in Hlen.
    split; [lia|]. intros Hi. apply Hok, Forall_app. split; [done|]. apply Forall_singleton. by apply v4_of_octets_ok. }
  destruct ((t =? TYPE_AAAA) && (Z.to_nat l =? 16)%nat) eqn:E6.
  { apply andb_true_iff in E6 as [_ E6%Nat.eqb_eq].
    assert (sub_slice (E := io_error) (p + 10) (p + 10 + 16) buf = Ok (slice (p + 10) (p + 10 + 16) buf)) as ->.
    { unfold sub_slice. by rewrite (proj2 (Nat.leb_le _ _)), (proj2 (Nat.leb_le _ _)) by lia. }
    cbn [mbind res_bind].
    destruct (IH (p + 10 + Z.to_nat l)%nat (ips ++ [v6_of_octets (slice (p + 10) (p + 10 + 16) buf)])) as [Hp Hr].
    split; [done|]. intros r Er. destruct (Hr r Er) as [Hlen Hok]. rewrite length_app in Hlen. cbn in Hlen.
    split; [lia|]. intros Hi. apply Hok, Forall_app. split; [done|]. apply Forall_singleton, v6_of_octets_ok.
    rewrite slice_length by lia. lia. }
  cbn [mbind res_bind]. destruct (IH (p + 10 + Z.to_nat l)%nat ips) as [Hp Hr]. split; [done|].
  intros r Er. destruct (Hr r Er). split; [lia|done].
Qed.

(** ** Lemmas: reading what was encoded *)

Lemma low_byte_mask n : 0 <= n < 64 -> Z.land n 192 = 0.
Proof.
  intros Hn. change 192 with (3 * 2 ^ 6). rewrite Z.land_comm. by apply land_shifted_0.
Qed.

Lemma skip_labels buf : forall ls f pos steps t,
  drop pos buf = concat (map encode_label ls) ++ t -> Forall (fun l => (0 < length l <= 63)%nat) ls ->
  (steps + length ls <= 128)%nat ->
  loop (length ls + f) (skip_name_body buf) (pos, steps)
  = loop f (skip_name_body buf) ((pos + length (concat (map encode_label ls)))%nat, (steps + length ls)%nat).
Proof.
  induction ls as [|l ls IH]; intros f pos steps t H Hl Hs.
  { cbn. by rewrite !Nat.add_0_r. }
  apply Forall_cons in Hl as [Hl Hls]. cbn [map concat length] in *. rewrite <- app_assoc in H.
  cbn [Nat.add loop]. unfold encode_label in H at 1. cbn [app] in H.
  pose proof (index_at (E := io_error) pos buf _ _ H) as Hi.
  pose proof (f_equal length H) as Hlen. rewrite length_drop in Hlen. cbn [length] in Hlen.
  assert (val8 (to_u8 (Z.of_nat (length l))) = Z.of_nat (length l)) as Hv by (rewrite val8_to_u8; apply Z.mod_small; lia).
  assert (skip_name_body buf (pos, steps) = Ok (inl ((pos + (1 + length l))%nat, (steps + 1)%nat))) as ->.
  { unfold skip_name_body. rewrite (proj2 (Nat.leb_gt _ _)) by lia. rewrite Hi. cbn [mbind res_bind]. rewrite Hv.
    rewrite (proj2 (Z.eqb_neq (Z.of_nat (length l)) 0)) by lia. rewrite low_byte_mask by lia. cbn [Z.eqb negb].
    rewrite (proj2 (Nat.ltb_ge _ _)) by lia. by rewrite Nat2Z.id. }
  cbn [mbind res_bind]. rewrite (IH f _ _ t); [|by apply (drop_shift pos _ buf (encode_label l))|done|lia].
  rewrite length_app. cbn [encode_label length]. f_equal. f_equal; lia.
Qed.

Lemma skip_root buf p s t : drop p buf = to_u8 0 :: t -> skip_name_body buf (p, s) = Ok (inr (p + 1)%nat).
Proof.
  intros Hd. unfold skip_name_body. pose proof (f_equal length Hd) as Hlen. rewrite length_drop in Hlen. cbn in Hlen.
  rewrite (proj2 (Nat.leb_gt _ _)) by lia. by rewrite (index_at _ _ _ _ Hd).
Qed.

Lemma skip_pointer buf p s hi lo t : 0 <= hi < 64 -> drop p buf = to_u8 (192 + hi) :: to_u8 lo :: t ->
  skip_name_body buf (p, s) = Ok (inr (p + 2)%nat).
Proof.
  intros Hhi Hd. unfold skip_name_body. pose proof (f_equal length Hd) as Hlen. rewrite length_drop in Hlen. cbn in Hlen.
  rewrite (proj2 (Nat.leb_gt _ _)) by lia. rewrite (index_at _ _ _ _ Hd). cbn [mbind res_bind].
  rewrite val8_to_u8, (Z.mod_small (192 + hi)) by lia. rewrite (proj2 (Z.eqb_neq (192 + hi) 0)) by lia.
  assert (Z.land (192 + hi) 192 = 192) as ->.
  { change (192 + hi) with (3 * 2 ^ 6 + hi). rewrite <- lor_add by lia.
    by rewrite Z.land_lor_distr_l, (low_byte_mask hi) by lia. }
  cbn [Z.eqb Pos.eqb]. by rewrite (proj2 (Nat.ltb_ge _ _)) by lia.
Qed.

Lemma skip_name_encode buf pos n t : name_ok n -> drop pos buf = encode_name n ++ t ->
  skip_name buf pos = Ok (pos + length (encode_name n))%nat.
Proof.
  intros Hn H. unfold skip_name.
  assert (forall ls u, labels_ok ls -> drop pos buf = concat (map encode_label ls) ++ u ->
            exists f, loop 130 (skip_name_body buf) (pos, O)
              = loop (S f) (skip_name_body buf) ((pos + length (concat (map encode_label ls)))%nat, length ls)
            /\ drop (pos + length (concat (map encode_label ls))) buf = u) as Hls.
  { intros ls u [Hc Hl] Hd. exists (129 - length ls)%nat. split; [|by eapply drop_shift].
    replace 130%nat with (length ls + S (129 - length ls))%nat by lia. by rewrite (skip_labels buf ls _ _ _ u). }
  destruct n as [ls|ls hi lo]; cbn [encode_name name_ok] in *.
  - rewrite <- app_assoc in H. destruct (Hls ls _ Hn H) as (f & -> & Hd). cbn [loop].
    rewrite (skip_root _ _ _ _ Hd). cbn. f_equal. rewrite length_app. cbn. lia.
  - destruct Hn as [Hn Hhi]. rewrite <- app_assoc in H. destruct (Hls ls _ Hn H) as (f & -> & Hd). cbn [loop].
    rewrite (skip_pointer _ _ _ _ _ _ Hhi Hd). cbn. f_equal. rewrite length_app. cbn. lia.
Qed.

Lemma skip_questions_encode buf qs : forall pos t, Z.of_nat (length buf) < 2 ^ 63 ->
  Forall (fun q => name_ok (fst (fst q))) qs -> drop pos buf = concat (map encode_question qs) ++ t ->
  (pos <= length buf)%nat ->
  skip_questions buf (length qs) pos = Ok (pos + length (concat (map encode_question qs)))%nat.
Proof.
  induction qs as [|[[n ty] c] qs IH]; intros pos t Hb Hqs H Hp; [cbn; by rewrite Nat.add_0_r|].
  apply Forall_cons in Hqs as [Hq Hqs]. cbn [map concat length skip_questions fst] in *.
  rewrite <- app_assoc in H. pose proof H as H'. unfold encode_question in H at 1. rewrite <- app_assoc in H.
  rewrite (skip_name_encode buf pos n _ Hq H). cbn [mbind res_bind].
  pose proof (f_equal length H') as Hlen. rewrite length_drop, length_app in Hlen.
  assert (length (encode_question (n, ty, c)) = length (encode_name n) + 4)%nat as Hql
    by (unfold encode_question; rewrite !length_app, !length_be_bytes; lia).
  rewrite (proj2 (Z.ltb_lt _ _)) by lia. cbn [ok_or mbind res_bind].
  rewrite (IH _ t); [|done|done|rewrite <- Nat.add_assoc, <- Hql; by eapply drop_shift|lia].
  rewrite length_app, Hql. f_equal. lia.
Qed.

Lemma four_bytes (l : bytes) : length l = 4%nat -> exists a b c d, l = [a; b; c; d].
Proof. destruct l as [|a [|b [|c [|d [|]]]]]; cbn; try done. by exists a, b, c, d. Qed.

Lemma read_answers_encode buf rs : forall pos t ips,
  Forall rr_ok rs -> drop pos buf = concat (map encode_rr rs) ++ t -> (pos <= length buf)%nat ->
  read_answers buf (length rs) pos ips = Ok (ips ++ omap rr_address rs).
Proof.
  induction rs as [|r rs IH]; intros pos t ips Hrs H Hp; [cbn; by rewrite app_nil_r|].
  apply Forall_cons in Hrs as [(Hn & Ht & Hd) Hrs]. cbn [map concat length read_answers] in *.
  unfold encode_rr in H at 1. rewrite <- !app_assoc in H.
  rewrite (skip_name_encode buf pos _ _ Hn H). cbn [mbind res_bind].
  set (p := (pos + length (encode_name (rr_name r)))%nat) in *.
  pose proof (drop_shift pos _ buf _ _ H eq_refl) as H1. fold p in H1.
  pose proof (f_equal length H1) as Hlen. rewrite length_drop, !length_app, !length_be_bytes in Hlen.
  pose proof (drop_shift p 2 buf _ _ H1 (length_be_bytes _ _)) as H2.
  pose proof (drop_shift _ 2 buf _ _ H2 (length_be_bytes _ _)) as H3.
  pose proof (drop_shift _ 4 buf _ _ H3 (length_be_bytes _ _)) as H4.
  pose proof (drop_shift _ 2 buf _ _ H4 (length_be_bytes _ _)) as H5.
  replace (p + 2 + 2 + 4)%nat with (p + 8)%nat in * by lia. replace (p + 8 + 2)%nat with (p + 10)%nat in * by lia.
  rewrite (proj2 (Nat.ltb_ge _ _)) by lia.
  rewrite (index_be16_drop _ _ _ _ H1) by done. cbn [mbind res_bind].
  rewrite (index_be16_drop _ _ _ _ H4) by lia. cbn [mbind res_bind]. rewrite Nat2Z.id.
  rewrite (proj2 (Nat.ltb_ge _ _)) by lia.
  assert (forall x, read_answers buf (length rs) (p + 10 + length (rr_data r)) x = Ok (x ++ omap rr_address rs)) as IH'
    by (intros x; apply (IH _ t); [done|by eapply drop_shift|lia]).
  cbn [omap list_omap]. unfold rr_address at 1.
  destruct ((rr_type r =? TYPE_A) && (length (rr_data r) =? 4)%nat) eqn:Ea.
  { apply andb_true_iff in Ea as [_ Ea%Nat.eqb_eq]. destruct (four_bytes _ Ea) as (a & b & c & d & Eq).
    rewrite Eq in H5. cbn [app] in H5.
    rewrite (index_at _ _ _ _ H5), (index_at _ _ _ _ (drop_shift _ 1 buf [a] _ H5 eq_refl)),
      (index_at _ _ _ _ (drop_shift _ 2 buf [a; b] _ H5 eq_refl)),
      (index_at _ _ _ _ (drop_shift _ 3 buf [a; b; c] _ H5 eq_refl)).
    cbn [mbind res_bind]. rewrite IH', <- app_assoc. by rewrite Eq. }
  destruct ((rr_type r =? TYPE_AAAA) && (length (rr_data r) =? 16)%nat) eqn:E6.
  { apply andb_true_iff in E6 as [_ E6%Nat.eqb_eq]. rewrite <- E6 at 1.
    rewrite (sub_slice_drop _ _ _ _ H5) by lia. cbn [mbind res_bind]. by rewrite IH', <- app_assoc. }
  cbn [mbind res_bind]. by rewrite IH'.
Qed.

Lemma decode_message m expect : message_ok m ->
  decode_response (encode_message m) expect =
  if (match expect with Some eid => negb (m_id m =? eid) | None => false end)
  then Err (dns_bad "dns: ID ответа не совпал")
  else if negb (Z.land (m_flags m) 15 =? 0) then Err (IoOther ("dns: RCODE " ++ show_uint (Z.land (m_flags m) 15)))
  else Ok (omap rr_address (m_answers m)).
Proof.
  intros (Hid & Hfl & Hqs & Has & Hnq & Hna & Hsz).
  assert (drop 0 (encode_message m) = encode_message m) as H by done. unfold encode_message in H at 2.
  pose proof (drop_shift 0 2 _ _ _ H (length_be_bytes _ _)) as H2.
  pose proof (drop_shift _ 2 _ _ _ H2 (length_be_bytes _ _)) as H4.
  pose proof (drop_shift _ 2 _ _ _ H4 (length_be_bytes _ _)) as H6.
  pose proof (drop_shift _ 2 _ _ _ H6 (length_be_bytes _ _)) as H8.
  pose proof (drop_shift _ 2 _ _ _ H8 (length_be_bytes _ _)) as H10.
  pose proof (drop_shift _ 2 _ _ _ H10 (length_be_bytes _ _)) as H12. cbn [Nat.add] in *.
  pose proof (f_equal length H) as Hlen. rewrite drop_0, !length_app, !length_be_bytes in Hlen.
  unfold decode_response. rewrite (proj2 (Nat.ltb_ge _ _)) by lia.
  rewrite (index_be16_drop _ _ _ _ H) by done. cbn [mbind res_bind].
  destruct (match expect with Some eid => _ | None => _ end); [done|].
  rewrite (index_be16_drop _ _ _ _ H2) by done. cbn [mbind res_bind].
  destruct (negb _); [done|].
  rewrite (index_be16_drop _ _ _ _ H4), (index_be16_drop _ _ _ _ H6) by lia. cbn [mbind res_bind].
  rewrite !Nat2Z.id, (skip_questions_encode _ _ _ _ Hsz Hqs H12) by lia. cbn [mbind res_bind].
  rewrite (read_answers_encode _ _ _ (m_rest m) [] Has); [done|by eapply drop_shift|lia].
Qed.

(** The labels of a host name, empty ones dropped. *)
Definition name_labels (name : str) : list str := filter (fun l => length l <> 0%nat) (split_char "." (trim_end_char "." name)).

Lemma push_labels_spec ls : forall b,
  push_labels ls b =
  if forallb (fun l => (length l <=? 63)%nat) ls
  then Ok (b ++ concat (map encode_label (filter (fun l => length l <> 0%nat) ls)))
  else Err (dns_bad "dns: метка длиннее 63").
Proof.
  induction ls as [|l ls IH]; intros b; cbn [push_labels forallb filter map concat]; [by rewrite app_nil_r|].
  rewrite filter_cons. destruct (Nat.eqb_spec (length l) 0) as [E|E].
  - rewrite decide_False by auto. rewrite E. cbn [Nat.leb andb]. apply IH.
  - rewrite decide_True by done. destruct (Nat.ltb_spec 63 (length l)).
    + by rewrite (proj2 (Nat.leb_gt _ _)) by lia.
    + rewrite (proj2 (Nat.leb_le _ _)) by lia. cbn [andb]. rewrite IH. destruct (forallb _ ls); [|done].
      cbn [map concat]. unfold encode_label at 2. by rewrite <- !app_assoc.
Qed.

(** ** Properties *)

(** Decoding a response never panics and always ends, on any bytes: names
    cannot loop (pointers are not followed, at most 128 labels), every index is in
    range; what it returns are well-formed addresses, no more than the header
    announces. *)
Theorem dns_decode_safe (buf : bytes) (expect_id : option Z) :
  no_panic (decode_response buf expect_id)
  /\ forall ips, decode_response buf expect_id = Ok ips ->
       Forall ip_ok ips /\ Z.of_nat (length ips) <= 65535
       /\ forall eid, expect_id = Some eid -> be_value (take 2 buf) = eid.
Proof.
  unfold decode_response. destruct (Nat.ltb_spec (length buf) 12) as [|Hlen]; [split; done|].
  assert (forall i, (S i < 12)%nat -> exists a b, index_be16 (E := io_error) buf i = Ok (be_value [a; b])
            /\ buf !! i = Some a /\ buf !! S i = Some b) as Hi.
  { intros i Hi. destruct (index_ok (E := io_error) buf i ltac:(lia)) as (a & Ha & La).
    destruct (index_ok (E := io_error) buf (S i) ltac:(lia)) as (b & Hb & Lb). exists a, b.
    unfold index_be16. by rewrite Ha, Hb. }
  destruct (Hi 0%nat ltac:(lia)) as (a & b & -> & La & Lb). cbn [mbind res_bind].
  assert (take 2 buf = [a; b]) as Htake by (destruct buf as [|? [|? ?]]; by simplify_eq/=).
  destruct (match expect_id with Some eid => _ | None => _ end) eqn:Eid; [split; done|].
  destruct (Hi 2%nat ltac:(lia)) as (? & ? & -> & _). cbn [mbind res_bind].
  destruct (negb _); [split; done|].
  destruct (Hi 4%nat ltac:(lia)) as (? & ? & -> & _). destruct (Hi 6%nat ltac:(lia)) as (c & d & -> & _).
  cbn [mbind res_bind]. split.
  - apply no_panic_bind; [apply skip_questions_no_panic|]. intros p _. apply read_answers_safe.
  - intros ips H. apply ok_bind in H as (p & _ & H).
    destruct (read_answers_safe buf (Z.to_nat (be_value [c; d])) p []) as [_ Hr].
    destruct (Hr ips H) as [Hl Hok]. pose proof (be_value_range [c; d]) as Hv. cbn in Hl, Hv. split_and!; [by apply Hok|lia|].
    intros eid ->. rewrite Htake. by apply negb_false_iff, Z.eqb_eq in Eid.
Qed.

(** A query for a name whose labels fit is the RFC 1035 message with one
    question for those labels (empty ones and trailing dots dropped), any longer
    label being refused; and every well-formed response, compressed names
    included, is decoded to exactly the A and AAAA addresses it holds, in order,
    unless its identifier or its response code is wrong. *)
Theorem dns_messages (id qtype : Z) (name : str) (m : message) (expect : option Z) (Hm : message_ok m) :
  encode_query id name qtype =
    (if forallb (fun l => (length l <=? 63)%nat) (split_char "." (trim_end_char "." name))
     then Ok (encode_message {| m_id := id; m_flags := 256; m_questions := [(WRoot (name_labels name), qtype, CLASS_IN)];
                m_answers := []; m_nscount := 0; m_arcount := 0; m_rest := [] |})
     else Err (dns_bad "dns: метка длиннее 63"))
  /\ decode_response (encode_message m) expect =
     (if (match expect with Some eid => negb (m_id m =? eid) | None => false end)
      then Err (dns_bad "dns: ID ответа не совпал")
      else if negb (Z.land (m_flags m) 15 =? 0) then Err (IoOther ("dns: RCODE " ++ show_uint (Z.land (m_flags m) 15)))
      else Ok (omap rr_address (m_answers m))).
Proof.
  split; [|by apply decode_message]. unfold encode_query. rewrite push_labels_spec.
  destruct (forallb _ _); [|done]. cbn [mbind res_bind]. f_equal.
  unfold encode_message, encode_question, name_labels. cbn [m_id m_flags m_questions m_answers m_nscount m_arcount m_rest
    map concat encode_name length]. rewrite !app_nil_r, <- !app_assoc. reflexivity.
Qed.

Definition witness_message : message := {|
  m_id := 4660; m_flags := 33152; m_questions := [(WRoot ["example" : str; "com" : str], 1, 1)];
  m_answers := [ {| rr_name := WPointer [] 0 12; rr_type := 5; rr_class := 1; rr_ttl := 60; rr_data := of_zs [0] |};
                 {| rr_name := WPointer [] 0 12; rr_type := 1; rr_class := 1; rr_ttl := 60;
                    rr_data := of_zs [93; 184; 216; 34] |} ];
  m_nscount := 0; m_arcount := 0; m_rest := [] |}.

Lemma dns_messages_witness :
  decode_response (encode_message witness_message) (Some 4660) = Ok [V4 1572395042].
Proof.
  refine (proj2 (dns_messages 0 1 "" witness_message (Some 4660) _)).
  unfold message_ok, rr_ok, name_ok, labels_ok. cbn. split_and!; repeat first [lia | split | constructor]; cbn; lia.
Defined.
