(* ===== verification/Config.v ===== *)
(** * The application's configuration ([crates/core/src/config.rs])

    The serialisation to and from JSON is derived by [serde] and is not
    modelled; the data, its defaults and its errors are. *)

From S2P Require Import Prelude RustStr Model Cidr Split Domain Routing.

Record Subscription : Type := {
  sub_url : str;
  sub_tag : option str;
  sub_update_interval_hours : Z
}.

#[export] Instance Subscription_eq_dec : EqDecision Subscription.
Proof. solve_decision. Defined.

Definition default_interval : Z := 12.

Record Settings : Type := {
  st_default_proxy : option str;
  st_default_to_proxy : bool;
  st_listen : option str;
  st_proxy_node : option str
}.

#[export] Instance Settings_eq_dec : EqDecision Settings.
Proof. solve_decision. Defined.

Definition settings_default : Settings :=
  {| st_default_proxy := None; st_default_to_proxy := false; st_listen := None; st_proxy_node := None |}.

Inductive DnsServerConfig : Type :=
| Udp (server : str)
| Dot (server sni : str)
| Doh (url : str).

#[export] Instance DnsServerConfig_eq_dec : EqDecision DnsServerConfig.
Proof. solve_decision. Defined.

Record FakeIpConfig : Type := { fi_enabled : bool; fi_range : str }.

#[export] Instance FakeIpConfig_eq_dec : EqDecision FakeIpConfig.
Proof. solve_decision. Defined.

Definition fakeip_config_default : FakeIpConfig := {| fi_enabled := false; fi_range := "198.18.0.0/15" |}.

Record DnsConfig : Type := { dns_servers : list DnsServerConfig; dns_fakeip : FakeIpConfig }.

#[export] Instance DnsConfig_eq_dec : EqDecision DnsConfig.
Proof. solve_decision. Defined.

Definition dns_config_default : DnsConfig := {| dns_servers := []; dns_fakeip := fakeip_config_default |}.

Record GeoConfig : Type := { geosite_path : option str; geoip_path : option str }.

#[export] Instance GeoConfig_eq_dec : EqDecision GeoConfig.
Proof. solve_decision. Defined.

Record LocalWgConfig : Type := {
  lw_server_private : str;
  lw_server_public : str;
  lw_client_private : str;
  lw_client_public : str;
  lw_preshared_key : str;
  lw_port : Z;
  lw_server_ip : str;
  lw_client_ip : str;
  lw_prefix : Z;
  lw_upstream_node : option str;
  lw_dns : str
}.

#[export] Instance LocalWgConfig_eq_dec : EqDecision LocalWgConfig.
Proof. solve_decision. Defined.

Record SocksProxy : Type := { sp_listen : str; sp_node : option str; sp_system : bool }.

#[export] Instance SocksProxy_eq_dec : EqDecision SocksProxy.
Proof. solve_decision. Defined.

Definition socks_proxy_default : SocksProxy :=
  {| sp_listen := "127.0.0.1:1080"; sp_node := None; sp_system := false |}.

Record AppConfig : Type := {
  ac_servers : list ServerProfile;
  ac_subscriptions : list Subscription;
  ac_rules : list Rule;
  ac_split : SplitConfig;
  ac_settings : Settings;
  ac_dns : DnsConfig;
  ac_geo : GeoConfig;
  ac_local_wg : option LocalWgConfig;
  ac_socks_proxies : list SocksProxy
}.

#[export] Instance AppConfig_eq_dec : EqDecision AppConfig.
Proof. solve_decision. Defined.

Definition app_config_default : AppConfig := {|
  ac_servers := []; ac_subscriptions := []; ac_rules := []; ac_split := split_default;
  ac_settings := settings_default; ac_dns := dns_config_default;
  ac_geo := {| geosite_path := None; geoip_path := None |}; ac_local_wg := None; ac_socks_proxies := [] |}.

Inductive ConfigError : Type :=
| ConfigIo (s : str)
| ConfigJson (s : str)
| ConfigSecret (s : str).

(** [impl Display for ConfigError] *)
Definition show_config_error (e : ConfigError) : str :=
  match e with
  | ConfigIo s => lit "ошибка ввода-вывода: " ++ s
  | ConfigJson s => lit "ошибка JSON: " ++ s
  | ConfigSecret s => lit "ошибка секретов: " ++ s
  end.

(** Replacing one field. *)
Definition with_servers (c : AppConfig) (l : list ServerProfile) : AppConfig := {|
  ac_servers := l; ac_subscriptions := ac_subscriptions c; ac_rules := ac_rules c; ac_split := ac_split c;
  ac_settings := ac_settings c; ac_dns := ac_dns c; ac_geo := ac_geo c; ac_local_wg := ac_local_wg c;
  ac_socks_proxies := ac_socks_proxies c |}.

Definition with_local_wg (c : AppConfig) (w : option LocalWgConfig) : AppConfig := {|
  ac_servers := ac_servers c; ac_subscriptions := ac_subscriptions c; ac_rules := ac_rules c; ac_split := ac_split c;
  ac_settings := ac_settings c; ac_dns := ac_dns c; ac_geo := ac_geo c; ac_local_wg := w;
  ac_socks_proxies := ac_socks_proxies c |}.

Definition with_secrets (w : LocalWgConfig) (server_private client_private preshared_key : str) : LocalWgConfig := {|
  lw_server_private := server_private; lw_server_public := lw_server_public w; lw_client_private := client_private;
  lw_client_public := lw_client_public w; lw_preshared_key := preshared_key; lw_port := lw_port w;
  lw_server_ip := lw_server_ip w; lw_client_ip := lw_client_ip w; lw_prefix := lw_prefix w;
  lw_upstream_node := lw_upstream_node w; lw_dns := lw_dns w |}.

Definition with_params (p : ServerProfile) (params : str_map) : ServerProfile := {|
  sp_name := sp_name p; sp_protocol := sp_protocol p; sp_address := sp_address p; sp_port := sp_port p;
  sp_params := params; sp_tags := sp_tags p |}.
