(* ===== verification/Secret.v ===== *)
(** * Protection of the secrets of a configuration ([crates/core/src/secret.rs])

    The store that encrypts is a trait: its implementations are the operating
    system's (DPAPI), reached from another crate, and the pass-through
    [NoopStore]. It is a record of two operations here; what a working store
    promises is the class [StoreLaws], against which the theorems are proved and
    which [NoopStore] is shown to implement. *)

From S2P Require Import Prelude RustStr Utf8 Model Base64 Cidr Split Domain Routing Config.

Definition ENC_PREFIX : str := "enc:".

Definition SECRET_PARAM_KEYS : list str :=
  ["password" : str; "username" : str; "uuid" : str; "private_key" : str; "preshared_key" : str; "auth" : str;
   "obfs-password" : str].

Record SecretError : Type := { secret_error : str }.

(** [impl Display for SecretError] *)
Definition show_secret_error (e : SecretError) : str := lit "ошибка секрет-хранилища: " ++ secret_error e.

Record SecretStore : Type := {
  protect : bytes -> res SecretError bytes;
  unprotect : bytes -> res SecretError bytes
}.

Definition NoopStore : SecretStore := {| protect := fun p => Ok p; unprotect := fun c => Ok c |}.

(** What a store promises: what it encrypted, it decrypts. *)
Class StoreLaws (s : SecretStore) : Prop := {
  unprotect_protect : forall p c, protect s p = Ok c -> unprotect s c = Ok p
}.

#[export] Instance NoopStore_laws : StoreLaws NoopStore.
Proof. constructor. intros p c [= <-]. reflexivity. Qed.

Definition is_protected (value : str) : bool := starts_with ENC_PREFIX value.

Section WithStore.
(** The store, and the text of [FromUtf8Error]. *)
Context (store : SecretStore) (utf8_error : bytes -> str).

(** What [protect_config] computes for one parameter: [None] when it is left. *)
Definition protect_param (val : str) : res SecretError (option str) :=
  if is_protected val then Ok None
  else blob ← protect store val; Ok (Some (ENC_PREFIX ++ encode_standard blob)).

(** [base64], [unprotect] and [from_utf8] of what follows the prefix. *)
Definition decrypt (b64 : str) : res SecretError str :=
  blob ← map_err (fun e => {| secret_error := "base64: " ++ show_parse_error e |}) (decode_loose b64);
  plain ← unprotect store blob;
  ok_or (from_utf8 plain) {| secret_error := "utf8: " ++ utf8_error plain |}.

Definition unprotect_param (val : str) : res SecretError (option str) :=
  match strip_prefix ENC_PREFIX val with
  | Some b64 => s ← decrypt b64; Ok (Some s)
  | None => Ok None
  end.

(** The closures [enc] and [dec]. *)
Definition enc (v : str) : res SecretError str :=
  if (match v with [] => true | _ => false end) || is_protected v then Ok v
  else blob ← protect store v; Ok (ENC_PREFIX ++ encode_standard blob).

Definition dec (v : str) : res SecretError str :=
  match strip_prefix ENC_PREFIX v with Some b64 => decrypt b64 | None => Ok v end.

(** The loops that fill [updates]: over the keys of a server, over the servers. *)
Fixpoint key_updates (f : str -> res SecretError (option str)) (i : nat) (params : str_map) (keys : list str)
    : res SecretError (list (nat * str * str)) :=
  match keys with
  | [] => Ok []
  | key :: rest =>
      match params !! key with
      | Some val =>
          o ← f val;
          us ← key_updates f i params rest;
          Ok (match o with Some v => (i, key, v) :: us | None => us end)
      | None => key_updates f i params rest
      end
  end.

Fixpoint collect_updates (f : str -> res SecretError (option str)) (i : nat) (servers : list ServerProfile)
    : res SecretError (list (nat * str * str)) :=
  match servers with
  | [] => Ok []
  | s :: rest =>
      us ← key_updates f i (sp_params s) SECRET_PARAM_KEYS;
      vs ← collect_updates f (S i) rest;
      Ok (us ++ vs)
  end.

(** [apply]: the indices come from [enumerate], so they are in range. *)
Definition apply_updates (cfg : AppConfig) (updates : list (nat * str * str)) : AppConfig :=
  with_servers cfg
    (fold_left (fun servers '(i, key, v) => alter (fun s => with_params s (<[key := v]> (sp_params s))) i servers)
       updates (ac_servers cfg)).

(** The part after [apply]: the secrets of the local WireGuard server. *)
Definition map_local_wg (f : str -> res SecretError str) (cfg : AppConfig) : AppConfig * res SecretError unit :=
  match ac_local_wg cfg with
  | None => (cfg, Ok tt)
  | Some lw =>
      match (sp ← f (lw_server_private lw); cp ← f (lw_client_private lw); pk ← f (lw_preshared_key lw); Ok (sp, cp, pk)) with
      | Ok (sp, cp, pk) => (with_local_wg cfg (Some (with_secrets lw sp cp pk)), Ok tt)
      | Err e => (cfg, Err e)
      | Panic => (cfg, Panic)
      end
  end.

(** [protect_config] and [unprotect_config]: [cfg] is a [&mut], so the state they
    leave is returned also when they fail. *)
Definition protect_config (cfg : AppConfig) : AppConfig * res SecretError unit :=
  match collect_updates protect_param 0 (ac_servers cfg) with
  | Ok updates => map_local_wg enc (apply_updates cfg updates)
  | Err e => (cfg, Err e)
  | Panic => (cfg, Panic)
  end.

Definition unprotect_config (cfg : AppConfig) : AppConfig * res SecretError unit :=
  match collect_updates unprotect_param 0 (ac_servers cfg) with
  | Ok updates => map_local_wg dec (apply_updates cfg updates)
  | Err e => (cfg, Err e)
  | Panic => (cfg, Panic)
  end.

(** ** Specification *)

(** A secret as [f] leaves it. *)
Definition after (f : str -> res SecretError (option str)) (v : str) : str :=
  match f v with Ok (Some w) => w | _ => v end.

(** Every secret parameter of a server mapped. *)
Definition map_secrets (g : str -> str) (s : ServerProfile) : ServerProfile :=
  with_params s (map_imap (fun k v => Some (if decide (k ∈ SECRET_PARAM_KEYS) then g v else v)) (sp_params s)).

(** The secret parameters of the servers. *)
Definition secret_in (servers : list ServerProfile) (v : str) : Prop :=
  exists s k, s ∈ servers /\ k ∈ SECRET_PARAM_KEYS /\ sp_params s !! k = Some v.

Definition local_secret (w : option LocalWgConfig) (v : str) : Prop :=
  exists lw, w = Some lw /\ (v = lw_server_private lw \/ v = lw_client_private lw \/ v = lw_preshared_key lw).

(** ** Lemmas *)

Lemma keys_nodup : NoDup SECRET_PARAM_KEYS.
Proof. apply (bool_decide_unpack _). vm_compute. exact I. Qed.

(** The updates of one server, applied to its parameters. *)
Definition insert_all (params : str_map) (us : list (nat * str * str)) : str_map :=
  fold_left (fun m '(_, k, v) => <[k := v]> m) us params.

Lemma key_updates_ok f i params keys us : key_updates f i params keys = Ok us ->
  Forall (fun u => fst (fst u) = i) us
  /\ (forall k v, k ∈ keys -> params !! k = Some v -> exists o, f v = Ok o)
  /\ (NoDup keys -> forall m k, insert_all m us !! k =
        if decide (k ∈ keys) then
          match params !! k with Some v => match f v with Ok (Some w) => Some w | _ => m !! k end | None => m !! k end
        else m !! k).
Proof.
  revert us. induction keys as [|key keys IH]; intros us H; cbn [key_updates] in H.
  { simplify_eq. split; [done|]. split; [intros k v Hk; by apply elem_of_nil in Hk|].
    intros _ m k. by rewrite decide_False by apply not_elem_of_nil. }
  destruct (params !! key) as [val|] eqn:Ek.
  - apply ok_bind in H as (o & Ho & H). apply ok_bind in H as (vs & Hvs & H).
    destruct (IH vs Hvs) as (Hi & Hok & Hins). split_and!.
    + destruct o; simplify_eq; [by constructor|done].
    + intros k v Hk Hv. apply elem_of_cons in Hk as [->|Hk]; [|eauto]. exists o. congruence.
    + intros [Hnk Hnd]%NoDup_cons m k. specialize (Hins Hnd). simplify_eq.
      destruct (decide (k = key)) as [->|Hne].
      * rewrite decide_True by left. rewrite Ek, Ho. destruct o as [w|].
        -- cbn. change (insert_all (<[key := w]> m) vs !! key = Some w). rewrite Hins.
           rewrite decide_False by done. apply lookup_insert_eq.
        -- rewrite Hins. by rewrite decide_False.
      * assert (forall m', m' !! k = m !! k -> insert_all m' vs !! k =
          (if decide (k ∈ key :: keys) then match params !! k with Some v => match f v with Ok (Some w) => Some w | _ => m !! k end
             | None => m !! k end else m !! k)) as Hgo.
        { intros m' Hm'. rewrite Hins, Hm'. destruct (decide (k ∈ keys)) as [Hk|Hk].
          - by rewrite decide_True by (by right).
          - rewrite decide_False; [done|]. by intros [?|?]%elem_of_cons. }
        destruct o as [w|]; [apply (Hgo (<[key := w]> m)); by apply lookup_insert_ne|by apply Hgo].
  - destruct (IH us H) as (Hi & Hok & Hins). split_and!; [done| |].
    + intros k v Hk Hv. apply elem_of_cons in Hk as [->|Hk]; [congruence|eauto].
    + intros [Hnk Hnd]%NoDup_cons m k. rewrite (Hins Hnd).
      destruct (decide (k ∈ keys)) as [Hk|Hk]; [by rewrite decide_True by (by right)|].
      destruct (decide (k ∈ key :: keys)) as [Hk'|]; [|done].
      apply elem_of_cons in Hk' as [->|?]; [by rewrite Ek|done].
Qed.

Lemma alter_at {A} (f : A -> A) pre x post : alter f (length pre) (pre ++ x :: post) = pre ++ f x :: post.
Proof. induction pre as [|y pre IH]; [done|]. cbn. by rewrite IH. Qed.

Lemma apply_to_one us i s pre post :
  Forall (fun u => fst (fst u) = i) us -> length pre = i ->
  fold_left (fun servers '(i, key, v) => alter (fun s => with_params s (<[key := v]> (sp_params s))) i servers)
    us (pre ++ s :: post)
  = pre ++ with_params s (insert_all (sp_params s) us) :: post.
Proof.
  intros Hus <-. revert s. induction Hus as [|[[j k] v] us Hj _ IH]; intros s; [by destruct s|].
  cbn [fold_left fst] in *. subst j. rewrite alter_at, IH. by destruct s.
Qed.

Lemma collect_apply f i servers us pre : collect_updates f i servers = Ok us -> length pre = i ->
  fold_left (fun servers '(i, key, v) => alter (fun s => with_params s (<[key := v]> (sp_params s))) i servers)
    us (pre ++ servers)
  = pre ++ map (map_secrets (after f)) servers
  /\ forall v, secret_in servers v -> exists o, f v = Ok o.
Proof.
  revert i us pre. induction servers as [|s servers IH]; intros i us pre H Hi; cbn [collect_updates] in H.
  { simplify_eq. split; [done|]. intros v (s & k & Hs & _). by apply elem_of_nil in Hs. }
  apply ok_bind in H as (u1 & H1 & H). apply ok_bind in H as (u2 & H2 & H). simplify_eq.
  destruct (key_updates_ok _ _ _ _ _ H1) as (Hu & Hok & Hins). rewrite fold_left_app, (apply_to_one u1 (length pre)) by done.
  destruct (IH (S (length pre)) u2 (pre ++ [with_params s (insert_all (sp_params s) u1)]) H2) as [E Hrest];
    [rewrite length_app; cbn; lia|].
  rewrite <- app_assoc in E. cbn [app] in E. rewrite E, <- app_assoc. split.
  - cbn [map app]. do 2 f_equal. unfold map_secrets. f_equal. apply map_eq. intros k.
    rewrite (Hins keys_nodup), map_lookup_imap. unfold after.
    destruct (sp_params s !! k) as [v|]; cbn; case_decide; try done. by destruct (f v) as [[]| |].
  - intros v (s' & k & Hs & Hk & Hv). apply elem_of_cons in Hs as [->|Hs]; [by eapply Hok|].
    apply Hrest. by exists s', k.
Qed.

Lemma collect_total f servers : (forall v, secret_in servers v -> exists o, f v = Ok o) ->
  forall i, exists us, collect_updates f i servers = Ok us.
Proof.
  induction servers as [|s servers IH]; intros H i; [by exists []|]. cbn [collect_updates].
  assert (forall keys, (forall k, k ∈ keys -> k ∈ SECRET_PARAM_KEYS) ->
            exists us, key_updates f i (sp_params s) keys = Ok us) as Hk.
  { induction keys as [|k keys IHk]; intros Hin; [by exists []|]. cbn [key_updates].
    destruct (IHk ltac:(intros; apply Hin; by right)) as [us ->].
    destruct (sp_params s !! k) as [v|] eqn:E; [|eauto].
    destruct (H v) as [o ->]; [exists s, k; split_and!; [left|apply Hin; left|done]|]. cbn. eauto. }
  destruct (Hk SECRET_PARAM_KEYS) as [us ->]; [done|].
  destruct (IH ltac:(intros v (s' & k & Hs & ?); apply H; exists s', k; split; [by right|done]) (S i)) as [vs ->].
  cbn. eauto.
Qed.

Lemma strip_enc v : strip_prefix ENC_PREFIX (ENC_PREFIX ++ v) = Some v.
Proof. by apply strip_prefix_Some. Qed.

Lemma is_protected_enc v : is_protected (ENC_PREFIX ++ v) = true.
Proof. unfold is_protected. apply starts_with_spec. by exists v. Qed.

Lemma unprotected_strip v : is_protected v = false -> strip_prefix ENC_PREFIX v = None.
Proof. unfold is_protected, starts_with. by destruct (strip_prefix ENC_PREFIX v). Qed.

Context `{!StoreLaws store}.

Lemma decrypt_encrypted v blob : protect store v = Ok blob -> utf8_valid v = true ->
  decrypt (encode_standard blob) = Ok v.
Proof using All.
  intros Hb Hv. unfold decrypt. rewrite decode_encode. cbn. rewrite (unprotect_protect _ _ Hb). cbn.
  unfold from_utf8. by rewrite Hv.
Qed.

Lemma param_roundtrip v o : is_protected v = false -> utf8_valid v = true -> protect_param v = Ok o ->
  unprotect_param (after protect_param v) = Ok (Some v) /\ is_protected (after protect_param v) = true.
Proof using All.
  intros Hp Hv Ho. unfold after. rewrite Ho. unfold protect_param in Ho. rewrite Hp in Ho.
  apply ok_bind in Ho as (blob & Hb & Ho). assert (o = Some (ENC_PREFIX ++ encode_standard blob)) as -> by congruence.
  unfold unprotect_param.
  rewrite strip_enc, (decrypt_encrypted _ _ Hb Hv). split; [done|apply is_protected_enc].
Qed.

Lemma enc_roundtrip v w : is_protected v = false -> utf8_valid v = true -> enc v = Ok w ->
  dec w = Ok v /\ enc w = Ok w /\ (is_protected w = true \/ w = []).
Proof using All.
  intros Hp Hv H. unfold enc in H. rewrite Hp, orb_false_r in H. destruct v as [|c v]; [simplify_eq; by split_and!; auto|].
  apply ok_bind in H as (blob & Hb & H). assert (w = ENC_PREFIX ++ encode_standard blob) as -> by congruence. unfold dec. rewrite strip_enc, (decrypt_encrypted _ _ Hb Hv).
  split; [done|]. split; [|left; apply is_protected_enc]. unfold enc. by rewrite is_protected_enc, orb_true_r.
Qed.

Lemma secret_in_map g servers v : secret_in (map (map_secrets g) servers) v -> exists u, secret_in servers u /\ v = g u.
Proof.
  intros (s & k & Hs & Hk & Hv). apply list_elem_of_In, in_map_iff in Hs as (s0 & <- & Hs%list_elem_of_In).
  cbn in Hv. rewrite map_lookup_imap in Hv. destruct (sp_params s0 !! k) as [u|] eqn:E; [|done]. cbn in Hv.
  rewrite decide_True in Hv by done. simplify_eq. exists u. split; [by exists s0, k|done].
Qed.

Lemma map_secrets_inverse g h servers : (forall v, secret_in servers v -> h (g v) = v) ->
  map (map_secrets h) (map (map_secrets g) servers) = servers.
Proof.
  intros H. rewrite map_map. rewrite <- (map_id servers) at 2. apply map_ext_in. intros s Hs.
  destruct s as [n pr a po params t]. unfold map_secrets, with_params. cbn. f_equal. apply map_eq. intros k.
  rewrite !map_lookup_imap. destruct (params !! k) as [v|] eqn:E; [|done]. cbn. case_decide as Hk; [|done]. f_equal.
  apply H. exists {| sp_name := n; sp_protocol := pr; sp_address := a; sp_port := po; sp_params := params; sp_tags := t |}, k.
  split; [by apply list_elem_of_In|done].
Qed.

(** The whole of either function, in terms of the specification. *)
Lemma config_servers f cfg us : collect_updates f 0 (ac_servers cfg) = Ok us ->
  apply_updates cfg us = with_servers cfg (map (map_secrets (after f)) (ac_servers cfg))
  /\ forall v, secret_in (ac_servers cfg) v -> exists o, f v = Ok o.
Proof using Type.
  intros H. destruct (collect_apply f 0 (ac_servers cfg) us [] H eq_refl) as [E Ho]. split; [|done].
  unfold apply_updates. f_equal. exact E.
Qed.

Lemma map_local_ok f cfg cfg' : map_local_wg f cfg = (cfg', Ok tt) ->
  (ac_local_wg cfg = None /\ cfg' = cfg)
  \/ exists lw sp cp pk, ac_local_wg cfg = Some lw /\ f (lw_server_private lw) = Ok sp /\ f (lw_client_private lw) = Ok cp
       /\ f (lw_preshared_key lw) = Ok pk /\ cfg' = with_local_wg cfg (Some (with_secrets lw sp cp pk)).
Proof.
  unfold map_local_wg. destruct (ac_local_wg cfg) as [lw|]; [|intros [= <-]; by left].
  destruct (f (lw_server_private lw)) as [sp| |] eqn:E1; cbn; [|done..].
  destruct (f (lw_client_private lw)) as [cp| |] eqn:E2; cbn; [|done..].
  destruct (f (lw_preshared_key lw)) as [pk| |] eqn:E3; cbn; [|done..].
  intros [= <-]. right. by exists lw, sp, cp, pk.
Qed.

End WithStore.

(** ** The configuration file ([AppConfig::load], [save] and their protected forms)

    [serde_json] and the file system are parameters: what they promise is the
    class [FileLaws] below. *)
Section WithFiles.
Context {Fs Path : Type}.
Context (fs_read : Fs -> Path -> res str str) (fs_write : Fs -> Path -> str -> Fs * res str unit).
Context (from_str : str -> res str AppConfig) (to_string_pretty : AppConfig -> res str str).
Context (store : SecretStore) (utf8_error : bytes -> str).

Definition from_json (s : str) : res ConfigError AppConfig := map_err ConfigJson (from_str s).

(** [unwrap_or_default] *)
Definition to_json (cfg : AppConfig) : str := match to_string_pretty cfg with Ok s => s | _ => [] end.

Definition load (fs : Fs) (path : Path) : res ConfigError AppConfig :=
  s ← map_err ConfigIo (fs_read fs path); from_json s.

Definition save (fs : Fs) (cfg : AppConfig) (path : Path) : Fs * res ConfigError unit :=
  let '(fs', r) := fs_write fs path (to_json cfg) in (fs', map_err ConfigIo r).

(** [save_protected]: the copy is protected, [cfg] itself is not touched. *)
Definition save_protected (fs : Fs) (cfg : AppConfig) (path : Path) : Fs * res ConfigError unit :=
  match protect_config store cfg with
  | (clone, Ok _) => save fs clone path
  | (_, Err e) => (fs, Err (ConfigSecret (show_secret_error e)))
  | (_, Panic) => (fs, Panic)
  end.

Definition load_protected (fs : Fs) (path : Path) : res ConfigError AppConfig :=
  cfg ← load fs path;
  match unprotect_config store utf8_error cfg with
  | (cfg', Ok _) => Ok cfg'
  | (_, Err e) => Err (ConfigSecret (show_secret_error e))
  | (_, Panic) => Panic
  end.

End WithFiles.

(** What is written is read back, and what is printed is parsed back. *)
Class FileLaws {Fs Path : Type} (fs_read : Fs -> Path -> res str str) (fs_write : Fs -> Path -> str -> Fs * res str unit)
    (from_str : str -> res str AppConfig) (to_string_pretty : AppConfig -> res str str) : Prop := {
  read_written : forall fs path s fs', fs_write fs path s = (fs', Ok tt) -> fs_read fs' path = Ok s;
  parse_printed : forall cfg s, to_string_pretty cfg = Ok s -> from_str s = Ok cfg
}.

Lemma map_local_error f cfg cfg' e : map_local_wg f cfg = (cfg', Err e) -> cfg' = cfg /\ ac_local_wg cfg <> None.
Proof.
  unfold map_local_wg. destruct (ac_local_wg cfg) as [lw|]; [|done].
  destruct (sp ← f (lw_server_private lw); cp ← f (lw_client_private lw); pk ← f (lw_preshared_key lw); Ok (sp, cp, pk))
    as [[[sp cp] pk]| |]; intros [= <- _]; done.
Qed.

Lemma protect_inverse (store : SecretStore) (utf8_error : bytes -> str) (cfg cfg' : AppConfig)
    (Hstore : StoreLaws store)
    (Hsec : forall v, secret_in (ac_servers cfg) v \/ local_secret (ac_local_wg cfg) v ->
              is_protected v = false /\ utf8_valid v = true)
    (Hp : protect_config store cfg = (cfg', Ok tt)) :
  unprotect_config store utf8_error cfg' = (cfg, Ok tt)
  /\ protect_config store cfg' = (cfg', Ok tt)
  /\ (forall v, secret_in (ac_servers cfg') v -> is_protected v = true)
  /\ (forall v, local_secret (ac_local_wg cfg') v -> is_protected v = true \/ v = []).
Proof.
  unfold protect_config in Hp. destruct (collect_updates _ 0 (ac_servers cfg)) as [us| |] eqn:Eu; [|done..].
  destruct (config_servers _ _ _ Eu) as [Ea Ho]. rewrite Ea in Hp. clear Eu Ea us.
  set (g := after (protect_param store)) in *. set (servers' := map (map_secrets g) (ac_servers cfg)) in *.
  assert (forall v, secret_in (ac_servers cfg) v ->
            unprotect_param store utf8_error (g v) = Ok (Some v) /\ is_protected (g v) = true) as Hg.
  { intros v Hv. destruct (Ho v Hv) as [o Ho']. destruct (Hsec v (or_introl Hv)). by eapply param_roundtrip. }
  assert (ac_servers cfg' = servers') as Es.
  { apply map_local_ok in Hp as [[_ ->]|(lw & sp & cp & pk & _ & _ & _ & _ & ->)]; done. }
  assert (forall v, secret_in servers' v -> is_protected v = true /\ exists o, unprotect_param store utf8_error v = Ok o) as Hs'.
  { intros v Hv. apply secret_in_map in Hv as (u & Hu & ->). destruct (Hg u Hu) as [-> ?]. eauto. }
  destruct (collect_total (unprotect_param store utf8_error) servers' (fun v Hv => proj2 (Hs' v Hv)) 0) as [vs Evs].
  destruct (collect_total (protect_param store) servers') with (i := 0%nat) as [ws Ews].
  { intros v Hv. unfold protect_param. rewrite (proj1 (Hs' v Hv)). eauto. }
  assert (map (map_secrets (after (unprotect_param store utf8_error))) servers' = ac_servers cfg) as Einv.
  { apply map_secrets_inverse. intros v Hv. unfold after. by rewrite (proj1 (Hg v Hv)). }
  assert (map (map_secrets g) servers' = servers') as Eidem.
  { rewrite <- (map_id servers') at 2. apply map_ext_in. intros s Hs.
    destruct s as [n pr a po params t]. unfold map_secrets, with_params. cbn. f_equal. apply map_eq. intros k.
    rewrite map_lookup_imap. destruct (params !! k) as [v|] eqn:E; [|done]. cbn. case_decide as Hk; [|done]. f_equal.
    assert (is_protected v = true) as Hpv; [apply Hs'|unfold g, after, protect_param; by rewrite Hpv].
    exists {| sp_name := n; sp_protocol := pr; sp_address := a; sp_port := po; sp_params := params; sp_tags := t |}, k.
    split; [by apply list_elem_of_In|done]. }
  unfold unprotect_config, protect_config. rewrite !Es, Evs, Ews.
  assert (ac_servers cfg' = servers') as Es' by done. rewrite <- Es in Evs, Ews.
  rewrite (proj1 (config_servers _ _ _ Evs)), (proj1 (config_servers _ _ _ Ews)), Es, Einv. fold g. rewrite Eidem.
  split_and!; [| |intros v Hv; by apply Hs'|].
  all: apply map_local_ok in Hp as [[Hn ->]|(lw & sp & cp & pk & Hl & H1 & H2 & H3 & ->)].
  all: try (cbn in Hl).
  - unfold map_local_wg. cbn in Hn |- *. rewrite Hn. by destruct cfg.
  - unfold map_local_wg. cbn.
    destruct (Hsec (lw_server_private lw)) as [P1 U1]; [right; exists lw; auto|].
    destruct (Hsec (lw_client_private lw)) as [P2 U2]; [right; exists lw; auto|].
    destruct (Hsec (lw_preshared_key lw)) as [P3 U3]; [right; exists lw; auto|].
    rewrite (proj1 (enc_roundtrip store utf8_error _ _ P1 U1 H1)), (proj1 (enc_roundtrip store utf8_error _ _ P2 U2 H2)),
      (proj1 (enc_roundtrip store utf8_error _ _ P3 U3 H3)). cbn. destruct cfg, lw. cbn in *. by subst.
  - unfold map_local_wg. cbn in Hn |- *. by rewrite Hn.
  - unfold map_local_wg. cbn.
    destruct (Hsec (lw_server_private lw)) as [P1 U1]; [right; exists lw; auto|].
    destruct (Hsec (lw_client_private lw)) as [P2 U2]; [right; exists lw; auto|].
    destruct (Hsec (lw_preshared_key lw)) as [P3 U3]; [right; exists lw; auto|].
    rewrite (proj1 (proj2 (enc_roundtrip store utf8_error _ _ P1 U1 H1))),
      (proj1 (proj2 (enc_roundtrip store utf8_error _ _ P2 U2 H2))),
      (proj1 (proj2 (enc_roundtrip store utf8_error _ _ P3 U3 H3))). done.
  - intros v (lw & Hv & _). cbn in Hn, Hv. congruence.
  - intros v (lw' & Hv & Hin). cbn in Hv. simplify_eq. cbn in Hin.
    destruct (Hsec (lw_server_private lw)) as [P1 U1]; [right; exists lw; auto|].
    destruct (Hsec (lw_client_private lw)) as [P2 U2]; [right; exists lw; auto|].
    destruct (Hsec (lw_preshared_key lw)) as [P3 U3]; [right; exists lw; auto|].
    destruct (enc_roundtrip store utf8_error _ _ P1 U1 H1) as (_ & _ & R1).
    destruct (enc_roundtrip store utf8_error _ _ P2 U2 H2) as (_ & _ & R2).
    destruct (enc_roundtrip store utf8_error _ _ P3 U3 H3) as (_ & _ & R3).
    by destruct Hin as [->|[->| ->]].
Qed.

(** ** Properties *)

(** With a store that decrypts what it encrypted, protecting a configuration
    whose secrets are UTF-8 and do not start with the marker leaves no secret
    readable, protecting again changes nothing, and unprotecting gives the
    original configuration back, exactly. *)
Theorem protect_roundtrip (store : SecretStore) (utf8_error : bytes -> str) (cfg cfg' : AppConfig)
    (Hstore : StoreLaws store)
    (Hsec : forall v, secret_in (ac_servers cfg) v \/ local_secret (ac_local_wg cfg) v ->
              is_protected v = false /\ utf8_valid v = true)
    (Hp : protect_config store cfg = (cfg', Ok tt)) :
  unprotect_config store utf8_error cfg' = (cfg, Ok tt)
  /\ protect_config store cfg' = (cfg', Ok tt)
  /\ (forall v, secret_in (ac_servers cfg') v -> is_protected v = true)
  /\ (forall v, local_secret (ac_local_wg cfg') v -> is_protected v = true \/ v = []).
Proof. by apply protect_inverse. Qed.

(** When [protect_config] or [unprotect_config] fails, nothing but the
    parameters of the servers can have changed, and they are either all as they
    were or all converted: the error is that of the local WireGuard secrets,
    which are processed after the servers were updated. *)
Theorem protect_failure_state (store : SecretStore) (utf8_error : bytes -> str) (cfg cfg' : AppConfig) (e : SecretError) :
  let conv g := with_servers cfg (map (map_secrets (after g)) (ac_servers cfg)) in
  (protect_config store cfg = (cfg', Err e) ->
     cfg' = cfg \/ (ac_local_wg cfg <> None /\ cfg' = conv (protect_param store)))
  /\ (unprotect_config store utf8_error cfg = (cfg', Err e) ->
     cfg' = cfg \/ (ac_local_wg cfg <> None /\ cfg' = conv (unprotect_param store utf8_error))).
Proof.
  intros conv. unfold protect_config, unprotect_config. split.
  all: destruct (collect_updates _ 0 (ac_servers cfg)) as [us| |] eqn:Eu; [|by intros [= <- _]; left|done].
  all: rewrite (proj1 (config_servers _ _ _ Eu)); intros [-> Hl]%map_local_error; right; done.
Qed.

(** A configuration that [save_protected] wrote is what [load_protected] reads
    back, and the text in the file is that of a configuration in which every
    non-empty secret carries the marker. *)
Theorem saved_config_loads {Fs Path : Type} (fs_read : Fs -> Path -> res str str)
    (fs_write : Fs -> Path -> str -> Fs * res str unit) (from_str : str -> res str AppConfig)
    (to_string_pretty : AppConfig -> res str str) (store : SecretStore) (utf8_error : bytes -> str)
    (fs fs' : Fs) (path : Path) (cfg : AppConfig)
    (Hstore : StoreLaws store) (Hfiles : FileLaws fs_read fs_write from_str to_string_pretty)
    (Hsec : forall v, secret_in (ac_servers cfg) v \/ local_secret (ac_local_wg cfg) v ->
              is_protected v = false /\ utf8_valid v = true)
    (Hprint : forall c, protect_config store cfg = (c, Ok tt) -> exists text, to_string_pretty c = Ok text)
    (Hsave : save_protected fs_write to_string_pretty store fs cfg path = (fs', Ok tt)) :
  load_protected fs_read from_str store utf8_error fs' path = Ok cfg
  /\ exists text on_disk, fs_read fs' path = Ok text /\ from_str text = Ok on_disk
       /\ forall v, secret_in (ac_servers on_disk) v \/ local_secret (ac_local_wg on_disk) v ->
            is_protected v = true \/ v = [].
Proof.
  unfold save_protected in Hsave. destruct (protect_config store cfg) as [clone [[]|e|]] eqn:Ep; [|done..].
  destruct (protect_inverse store utf8_error cfg clone Hstore Hsec Ep) as (Hu & _ & Hs & Hl).
  unfold save, to_json in Hsave. destruct (Hprint clone eq_refl) as [text Ht]. rewrite Ht in Hsave.
  destruct (fs_write fs path text) as [fs1 r] eqn:Ew. simplify_eq. destruct r as [[]| |]; try done.
  pose proof (read_written (FileLaws := Hfiles) _ _ _ _ Ew) as Hr.
  pose proof (parse_printed (FileLaws := Hfiles) _ _ Ht) as Hparse. split.
  - unfold load_protected, load, from_json. rewrite Hr. cbn. rewrite Hparse. cbn. by rewrite Hu.
  - exists text, clone. split; [done|]. split; [done|]. intros v [Hv|Hv]; [left; by apply Hs|by apply Hl].
Qed.

(** *** Witnesses *)

Definition sample_server : ServerProfile :=
  {| sp_name := "home"; sp_protocol := Trojan; sp_address := "host"; sp_port := 443;
     sp_params := <["password" : str := "pw" : str]> (<["sni" : str := "site" : str]> (∅ : str_map)); sp_tags := [] |}.

Definition sample_wg : LocalWgConfig :=
  {| lw_server_private := "BAD"; lw_server_public := []; lw_client_private := "key"; lw_client_public := [];
     lw_preshared_key := []; lw_port := 51820; lw_server_ip := []; lw_client_ip := []; lw_prefix := 24;
     lw_upstream_node := None; lw_dns := [] |}.

Definition sample_config : AppConfig := with_local_wg (with_servers app_config_default [sample_server]) (Some sample_wg).

(** A store that fails on one secret. *)
Definition PickyStore : SecretStore :=
  {| protect := fun p => if decide (p = "BAD") then Err {| secret_error := "refused" |} else Ok p;
     unprotect := fun c => Ok c |}.

Lemma sample_secrets v : secret_in (ac_servers sample_config) v \/ local_secret (ac_local_wg sample_config) v ->
  v ∈ (["pw" : str; "BAD" : str; "key" : str; [] : str] : list str).
Proof.
  intros [(s & k & Hs & Hk & Hv)|(lw & Hl & Hv)].
  - apply list_elem_of_singleton in Hs as ->. cbn -[insert] in Hv.
    apply lookup_insert_Some in Hv as [[<- <-]|[_ Hv]]; [set_solver|].
    apply lookup_insert_Some in Hv as [[<- <-]|[_ Hv]]; [|by rewrite lookup_empty in Hv].
    exfalso. apply (bool_decide_eq_true_2 (_ ∈ SECRET_PARAM_KEYS)) in Hk. vm_compute in Hk. discriminate Hk.
  - cbn in Hl. simplify_eq. cbn in Hv. set_solver.
Qed.

Lemma sample_plain v : secret_in (ac_servers sample_config) v \/ local_secret (ac_local_wg sample_config) v ->
  is_protected v = false /\ utf8_valid v = true.
Proof. intros Hv%sample_secrets. repeat (apply elem_of_cons in Hv as [->|Hv]; [done|]). by apply elem_of_nil in Hv. Qed.

Lemma protect_roundtrip_witness :
  exists cfg', protect_config NoopStore sample_config = (cfg', Ok tt)
    /\ sp_params <$> ac_servers cfg' = [<["password" : str := "enc:cHc=" : str]> (sp_params sample_server)]
    /\ unprotect_config NoopStore (fun _ => []) cfg' = (sample_config, Ok tt).
Proof.
  destruct (protect_config NoopStore sample_config) as [cfg' r] eqn:E.
  assert (r = Ok tt) as -> by (apply (f_equal snd) in E; symmetry; exact E).
  destruct (protect_roundtrip NoopStore (fun _ => []) sample_config cfg' _ sample_plain E) as [H _].
  exists cfg'. split; [done|]. split; [|exact H]. apply (f_equal (fun x => sp_params <$> ac_servers (fst x))) in E.
  etransitivity; [symmetry; exact E|]. vm_compute. reflexivity.
Defined.

(** The failure that is not atomic: the password of the server is encrypted
    although the call failed. *)
Lemma protect_failure_state_witness :
  exists cfg' e, protect_config PickyStore sample_config = (cfg', Err e)
    /\ (cfg' = sample_config \/ (ac_local_wg sample_config <> None /\
         cfg' = with_servers sample_config (map (map_secrets (after (protect_param PickyStore))) (ac_servers sample_config))))
    /\ cfg' <> sample_config.
Proof.
  destruct (protect_config PickyStore sample_config) as [cfg' [u|e|]] eqn:E.
  - exfalso. apply (f_equal snd) in E. vm_compute in E. discriminate E.
  - exists cfg', e. split; [done|].
    destruct (protect_failure_state PickyStore (fun _ => []) sample_config cfg' e) as [H _]. split; [exact (H E)|].
    intros Ec. subst cfg'. apply (f_equal (fun x => map (fun s => sp_params s !! ("password" : str)) (ac_servers (fst x)))) in E.
    assert (forall a b : str, [Some a] = [Some b] -> a = b) as Hinj by (intros a b; congruence).
    apply (Hinj "enc:cHc=" "pw") in E. discriminate E.
  - exfalso. apply (f_equal snd) in E. vm_compute in E. discriminate E.
Defined.

(** A file system of one file, and a printer that knows one configuration. *)
Definition one_read (fs : str) (_ : unit) : res str str := Ok fs.
Definition one_write (_ : str) (_ : unit) (s : str) : str * res str unit := (s, Ok tt).
Definition one_print (c : AppConfig) : res str str :=
  if decide (c = fst (protect_config NoopStore sample_config)) then Ok ("{}" : str) else Err ("unknown" : str).
Definition one_parse (s : str) : res str AppConfig :=
  if decide (s = "{}") then Ok (fst (protect_config NoopStore sample_config)) else Err ("unknown" : str).

Lemma one_laws : FileLaws one_read one_write one_parse one_print.
Proof.
  constructor; [by intros fs path s fs' [= <-]|]. intros cfg s H. unfold one_print in H. case_decide; [|done].
  subst cfg. by injection H as <-.
Qed.

Lemma saved_config_loads_witness :
  exists fs', load_protected one_read one_parse NoopStore (fun _ => []) fs' tt = Ok sample_config.
Proof.
  destruct (save_protected one_write one_print NoopStore [] sample_config tt) as [fs' r] eqn:E.
  assert (r = Ok tt) as -> by (apply (f_equal snd) in E; vm_compute in E; symmetry; exact E).
  exists fs'.
  destruct (saved_config_loads one_read one_write one_parse one_print NoopStore (fun _ => []) [] fs' tt sample_config
              _ one_laws sample_plain) as [H _]; [|exact E|exact H].
  intros c Hc. exists "{}". unfold one_print. by rewrite Hc, decide_True.
Defined.
