(* ===== verification/Uri.v ===== *)
(** * Percent-decoding and the URI of a share link
    ([crates/core/src/util.rs], [crates/core/src/parse/uri.rs])

    A slice at an index that [find] or [rfind] returned for an ASCII character
    is in range and on a character boundary, so the slices are [take] and
    [drop]. *)

From S2P Require Import Prelude RustStr Utf8 Model.

(** ** [util.rs] *)

Definition hex_val (b : u8) : option Z :=
  let v := val8 b in
  if between 48 57 v then Some (v - 48)
  else if between 97 102 v then Some (v - 97 + 10)
  else if between 65 70 v then Some (v - 65 + 10)
  else None.

(** The loop of [percent_decode]: what is left of [bytes]. *)
Fixpoint percent_bytes (s : bytes) : bytes :=
  match s with
  | [] => []
  | b :: s' =>
      if decide (b = "%"%char) then
        match s' with
        | b1 :: b2 :: rest =>
            match hex_val b1, hex_val b2 with
            | Some h, Some l => to_u8 (Z.lor (Z.shiftl h 4) l) :: percent_bytes rest
            | _, _ => b :: percent_bytes s'
            end
        | _ => b :: percent_bytes s'
        end
      else b :: percent_bytes s'
  end.

Definition percent_decode (input : str) : str := from_utf8_lossy (percent_bytes input).

(** ** [parse/uri.rs] *)

Record Uri : Type := {
  scheme : str;
  userinfo : option str;
  host : str;
  port : option Z;
  query : list (str * str);
  fragment : option str
}.

Definition split_host_port (s : str) : res ParseError (str * option Z) :=
  match strip_prefix "[" s with
  | Some rest =>
      end_ ← ok_or (find_byte (is_char "]"%char) rest) (MalformedUrl s);
      port ← match strip_prefix ":" (drop (end_ + 1) rest) with
             | Some p => v ← ok_or (parse_u16 p) (InvalidPort p); Ok (Some v)
             | None => Ok None
             end;
      Ok (take end_ rest, port)
  | None =>
      match rfind_byte (is_char ":"%char) s with
      | Some i =>
          match take i s with
          | [] => Err MissingHost
          | host => port ← ok_or (parse_u16 (drop (i + 1) s)) (InvalidPort (drop (i + 1) s)); Ok (host, Some port)
          end
      | None => Ok (s, None)
      end
  end.

Definition is_empty (s : str) : bool := match s with [] => true | _ => false end.

Definition parse_pair (pair : str) : str * str :=
  match find_byte (is_char "="%char) pair with
  | Some i => (percent_decode (take i pair), percent_decode (drop (i + 1) pair))
  | None => (percent_decode pair, [])
  end.

Definition parse_query (q : str) : list (str * str) :=
  map parse_pair (filter (fun p => is_empty p = false) (split_char "&"%char q)).

(** [Uri::parse] *)
Definition uri_parse (input : str) : res ParseError Uri :=
  idx ← ok_or (find_str "://" input) (MalformedUrl input);
  let scheme := to_ascii_lowercase (take idx input) in
  let rest := drop (idx + 3) input in
  let '(before_frag, fragment) :=
    match find_byte (is_char "#"%char) rest with
    | Some i => (take i rest, Some (percent_decode (drop (i + 1) rest)))
    | None => (rest, None)
    end in
  let '(authority, query_str) :=
    match find_byte (is_char "?"%char) before_frag with
    | Some i => (take i before_frag, Some (drop (i + 1) before_frag))
    | None => (before_frag, None)
    end in
  let '(userinfo, hostport) :=
    match rfind_byte (is_char "@"%char) authority with
    | Some i => (Some (take i authority), drop (i + 1) authority)
    | None => (None, authority)
    end in
  if is_empty hostport then Err MissingHost
  else
    '(host, port) ← split_host_port hostport;
    let query := default [] (parse_query <$> query_str) in
    Ok {| scheme := scheme; userinfo := userinfo; host := host; port := port; query := query; fragment := fragment |}.

(** ** Specification: the text of a URI (RFC 3986)

    Unreserved characters stand for themselves, every other byte is written
    [%XX]. *)
Definition unreserved (c : u8) : bool :=
  let v := val8 c in
  between 48 57 v || between 65 90 v || between 97 122 v || (v =? 45) || (v =? 46) || (v =? 95) || (v =? 126).

Definition hex_upper (d : Z) : u8 := to_u8 (if d <? 10 then 48 + d else 55 + d).

Definition percent_encode (s : bytes) : str :=
  concat (map (fun c => if unreserved c then [c] else ["%"%char; hex_upper (val8 c / 16); hex_upper (val8 c mod 16)]) s).

Definition print_host (h : str) : str := if decide (":"%char ∈ h) then lit "[" ++ h ++ lit "]" else h.

Definition print_hostport (h : str) (port : option Z) : str :=
  print_host h ++ match port with Some p => lit ":" ++ show_uint p | None => [] end.

Definition print_query (q : list (str * str)) : str :=
  join "&" (map (fun '(k, v) => percent_encode k ++ lit "=" ++ percent_encode v) q).

Definition print_uri (u : Uri) : str :=
  scheme u ++ lit "://"
  ++ match userinfo u with Some ui => ui ++ lit "@" | None => [] end
  ++ print_hostport (host u) (port u)
  ++ match query u with [] => [] | q => lit "?" ++ print_query q end
  ++ match fragment u with Some f => lit "#" ++ percent_encode f | None => [] end.

(** What a host may contain. *)
Definition host_ok (h : str) : Prop :=
  h <> [] /\ Forall (fun c => c ∉ (["#"; "?"; "@"; "/"; "["; "]"]%char : list u8)) h.

Definition port_ok (p : Z) : Prop := 0 <= p <= 65535.

Definition uri_ok (u : Uri) : Prop :=
  to_ascii_lowercase (scheme u) = scheme u /\ ":"%char ∉ scheme u
  /\ host_ok (host u) /\ (forall p, port u = Some p -> port_ok p)
  /\ (forall ui, userinfo u = Some ui -> "#"%char ∉ ui /\ "?"%char ∉ ui)
  /\ Forall (fun '(k, v) => utf8_valid k = true /\ utf8_valid v = true) (query u)
  /\ (forall f, fragment u = Some f -> utf8_valid f = true).

(** ** Lemmas *)

Lemma hex_val_range b v : hex_val b = Some v -> 0 <= v < 16.
Proof.
  unfold hex_val. byte_bounds. repeat case_match; intros; simplify_eq;
    repeat match goal with H : between _ _ _ = true |- _ => apply between_true in H end; lia.
Qed.

Lemma hex_upper_val d : 0 <= d < 16 -> hex_val (hex_upper d) = Some d.
Proof.
  intros H. assert (d ∈ seqZ 0 16) as Hd by (apply elem_of_seqZ; lia). clear H. revert d Hd.
  apply Forall_forall. by vm_compute; repeat constructor.
Qed.

Lemma hex_upper_unreserved d : 0 <= d < 16 -> unreserved (hex_upper d) = true.
Proof.
  intros H. assert (d ∈ seqZ 0 16) as Hd by (apply elem_of_seqZ; lia). clear H. revert d Hd.
  apply Forall_forall. by vm_compute; repeat constructor.
Qed.

Lemma percent_bytes_encode s t : percent_bytes (percent_encode s ++ t) = s ++ percent_bytes t.
Proof.
  unfold percent_encode. induction s as [|c s IH]; [done|]. cbn [map concat]. destruct (unreserved c) eqn:E.
  - cbn [app percent_bytes]. rewrite decide_False by (intros ->; done). by rewrite IH.
  - rewrite <- app_assoc. pose proof (val8_range c).
    change (percent_bytes ("%"%char :: hex_upper (val8 c / 16) :: hex_upper (val8 c mod 16) ::
      (concat (map (fun c => if unreserved c then [c] else ["%"%char; hex_upper (val8 c / 16); hex_upper (val8 c mod 16)]) s) ++ t))
      = (c :: s) ++ percent_bytes t).
    cbn [percent_bytes]. rewrite decide_True by done. rewrite !hex_upper_val by dlia. rewrite IH. cbn [app]. f_equal.
    rewrite Z.shiftl_mul_pow2, lor_add by (change (2 ^ 4) with 16; dlia). apply to_u8_eq. change (2 ^ 4) with 16. dlia.
Qed.

Lemma percent_decode_encode s : utf8_valid s = true -> percent_decode (percent_encode s) = s.
Proof.
  intros H. unfold percent_decode. rewrite <- (app_nil_r (percent_encode s)), percent_bytes_encode. cbn [percent_bytes].
  rewrite app_nil_r. by apply lossy_id.
Qed.

(** An encoding is made of unreserved characters and percent signs. *)
Lemma percent_encode_chars s c : c ∈ percent_encode s -> unreserved c = true \/ c = "%"%char.
Proof.
  unfold percent_encode. rewrite list_elem_of_In, in_concat. intros (l & Hl & Hc).
  apply in_map_iff in Hl as (d & <- & _). apply list_elem_of_In in Hc. pose proof (val8_range d).
  destruct (unreserved d) eqn:E; [apply list_elem_of_singleton in Hc as ->; by left|].
  repeat (apply elem_of_cons in Hc as [->|Hc]); [by right|left; apply hex_upper_unreserved; dlia..|by apply elem_of_nil in Hc].
Qed.

Lemma not_in_encode c s : unreserved c = false -> c <> "%"%char -> c ∉ percent_encode s.
Proof. intros Hc Hp Hin. apply percent_encode_chars in Hin as [?|?]; congruence. Qed.

Lemma find_byte_app_at c a b : c ∉ a -> find_byte (is_char c) (a ++ c :: b) = Some (length a).
Proof. intros H. apply find_byte_app; [by apply Forall_is_char_false|by apply is_char_true]. Qed.

Lemma rfind_byte_app_at c a b : c ∉ b -> rfind_byte (is_char c) (a ++ c :: b) = Some (length a).
Proof. intros H. apply rfind_byte_app; [by apply Forall_is_char_false|by apply is_char_true]. Qed.

Lemma find_byte_absent c a : c ∉ a -> find_byte (is_char c) a = None.
Proof. intros H. by apply find_byte_None, Forall_is_char_false. Qed.

Lemma rfind_byte_absent c a : c ∉ a -> rfind_byte (is_char c) a = None.
Proof. intros H. by apply rfind_byte_None, Forall_is_char_false. Qed.

Lemma drop_at {A} (a : list A) c b : drop (length a + 1) (a ++ c :: b) = b.
Proof. rewrite Nat.add_1_r. apply drop_S_app. Qed.

Lemma find_str_scheme s t : ":"%char ∉ s -> find_str "://" (s ++ lit "://" ++ t) = Some (length s).
Proof.
  induction s as [|c s IH]; intros H; [done|]. apply not_elem_of_cons in H as [Hc Hs].
  change (find_str "://" (c :: (s ++ lit "://" ++ t)) = Some (S (length s))).
  cbn [find_str]. rewrite (IH Hs). destruct (starts_with _ _) eqn:E; [|done]. exfalso.
  apply starts_with_spec in E as [k E]. cbn in E. congruence.
Qed.

Lemma show_port_no c p : port_ok p -> is_digit c = false -> c ∉ show_uint p.
Proof. intros [? ?]. by apply show_uint_no. Qed.

Lemma parse_show_port p : port_ok p -> parse_u16 (show_uint p) = Some p.
Proof. intros H. by apply parse_show_uint. Qed.

Lemma host_ok_no c h : host_ok h -> c ∈ (["#"; "?"; "@"; "/"; "["; "]"]%char : list u8) -> c ∉ h.
Proof. intros [_ H] Hc Hin. by eapply Forall_forall in H. Qed.

Lemma print_hostport_no c h p : host_ok h -> (forall q, p = Some q -> port_ok q) ->
  c ∈ (["#"; "?"; "@"; "/"]%char : list u8) -> c ∉ print_hostport h p.
Proof.
  intros Hh Hp Hc. assert (c ∉ h) as Hnh by (apply host_ok_no; [done|set_solver]).
  assert (is_digit c = false /\ c ∉ lit ":" /\ c ∉ lit "[" /\ c ∉ lit "]") as (Hd & H1 & H2 & H3).
  { repeat (apply elem_of_cons in Hc as [->|Hc]; [split_and!; [done|by intros ?%list_elem_of_singleton..]|]).
    by apply elem_of_nil in Hc. }
  unfold print_hostport, print_host. rewrite not_elem_of_app. split.
  - case_decide; [|done]. by rewrite !not_elem_of_app.
  - destruct p as [p|]; [|apply not_elem_of_nil]. rewrite not_elem_of_app. split; [done|]. apply show_port_no; auto.
Qed.

Lemma print_host_nonempty h : h <> [] -> print_host h <> [].
Proof. unfold print_host. by case_decide. Qed.

Lemma split_print_hostport h p : host_ok h -> (forall q, p = Some q -> port_ok q) ->
  split_host_port (print_hostport h p) = Ok (h, p).
Proof.
  intros Hh Hp. pose proof (host_ok_no "["%char h Hh ltac:(set_solver)) as Hno1.
  pose proof (host_ok_no "]"%char h Hh ltac:(set_solver)) as Hno2.
  unfold print_hostport, print_host. case_decide as Hc.
  - set (tail := match p with Some q => lit ":" ++ show_uint q | None => [] end).
    rewrite <- !app_assoc. unfold split_host_port. change (strip_prefix "[" (lit "[" ++ h ++ lit "]" ++ tail)) with (Some (h ++ "]"%char :: tail)).
    cbv beta iota. rewrite find_byte_app_at by done. cbn [ok_or mbind res_bind]. rewrite drop_at, take_app_length.
    unfold tail. destruct p as [q|]; [|done].
    change (strip_prefix ":" (lit ":" ++ show_uint q)) with (Some (show_uint q)). cbv beta iota.
    by rewrite parse_show_port by auto.
  - unfold split_host_port. destruct (strip_prefix "[" _) as [r|] eqn:E.
    { exfalso. apply strip_prefix_Some in E. destruct Hh as [Hne _]. destruct h as [|c h]; [done|].
      cbn in E. injection E as -> _. apply Hno1. by left. }
    destruct p as [q|].
    + change (lit ":" ++ show_uint q) with (":"%char :: show_uint q). rewrite rfind_byte_app_at by (apply show_port_no; auto).
      rewrite take_app_length, drop_at. destruct h as [|c h]; [by destruct Hh|]. by rewrite parse_show_port by auto.
    + by rewrite app_nil_r, rfind_byte_absent.
Qed.

Lemma parse_pair_print k v : utf8_valid k = true -> utf8_valid v = true ->
  parse_pair (percent_encode k ++ lit "=" ++ percent_encode v) = (k, v).
Proof.
  intros Hk Hv. unfold parse_pair. change (lit "=" ++ percent_encode v) with ("="%char :: percent_encode v).
  rewrite find_byte_app_at by (by apply not_in_encode). by rewrite take_app_length, drop_at, !percent_decode_encode.
Qed.

Lemma split_join_pieces c l : l <> [] -> Forall (fun w => c ∉ w) l -> split_char c (join [c] l) = l.
Proof.
  intros Hne H. induction H as [|w l Hw Hl IH]; [done|]. destruct l as [|w2 l].
  - by apply split_char_none.
  - change (join [c] (w :: w2 :: l)) with (w ++ c :: join [c] (w2 :: l)). rewrite split_char_app by done. by rewrite IH.
Qed.

Lemma parse_print_query q : q <> [] -> Forall (fun '(k, v) => utf8_valid k = true /\ utf8_valid v = true) q ->
  parse_query (print_query q) = q.
Proof.
  intros Hne H. unfold parse_query, print_query. change (lit "&") with ["&"%char].
  rewrite split_join_pieces; [|by destruct q|].
  - clear Hne. induction H as [|[k v] q [Hk Hv] _ IH]; [done|]. cbn [map].
    rewrite filter_cons_True by (by destruct (percent_encode k)). cbn [map]. by rewrite IH, parse_pair_print.
  - apply Forall_map, Forall_forall. intros [k v] _. cbn. rewrite not_elem_of_app, not_elem_of_cons.
    split_and!; [by apply not_in_encode|done|by apply not_in_encode].
Qed.

Lemma print_query_no c q : unreserved c = false -> c ∉ (["%"; "="; "&"]%char : list u8) -> c ∉ print_query q.
Proof.
  intros Hu Hc. unfold print_query. induction q as [|[k v] q IH]; [apply not_elem_of_nil|].
  assert (c ∉ percent_encode k ++ lit "=" ++ percent_encode v) as Hkv.
  { rewrite !not_elem_of_app. split_and!; [apply not_in_encode|intros ->%list_elem_of_singleton|apply not_in_encode]; set_solver. }
  cbn [map]. destruct q as [|p q]; [exact Hkv|].
  change (c ∉ (percent_encode k ++ lit "=" ++ percent_encode v) ++ lit "&" ++ join "&" (map (fun '(k, v) => percent_encode k ++ lit "=" ++ percent_encode v) (p :: q))).
  rewrite not_elem_of_app. split; [done|]. rewrite not_elem_of_app. split; [|exact IH].
  intros ->%list_elem_of_singleton. set_solver.
Qed.

(** The text of a URI whose host and port are written in any form that
    [split_host_port] reads, and whose query is any text. *)
Definition uri_text (sc : str) (ui : option str) (hp : str) (qt f : option str) : str :=
  sc ++ lit "://" ++ match ui with Some ui => ui ++ lit "@" | None => [] end ++ hp
  ++ match qt with Some q => lit "?" ++ q | None => [] end
  ++ match f with Some f => lit "#" ++ percent_encode f | None => [] end.

Definition text_ok (sc : str) (ui : option str) (hp : str) (qt f : option str) : Prop :=
  to_ascii_lowercase sc = sc /\ ":"%char ∉ sc
  /\ (forall u, ui = Some u -> "#"%char ∉ u /\ "?"%char ∉ u)
  /\ hp <> [] /\ (forall c, c ∈ (["#"; "?"; "@"]%char : list u8) -> c ∉ hp)
  /\ (forall q, qt = Some q -> "#"%char ∉ q) /\ (forall g, f = Some g -> utf8_valid g = true).

(** The cut at a character that the first part does not hold. *)
Lemma cut_opt {A} (g : str -> A) c (a : str) (o : option str) : c ∉ a ->
  let s := a ++ match o with Some b => c :: b | None => [] end in
  match find_byte (is_char c) s with
  | Some i => (take i s, Some (g (drop (i + 1) s)))
  | None => (s, None)
  end = (a, g <$> o).
Proof.
  intros H. destruct o as [b|]; cbn.
  - rewrite find_byte_app_at by done. by rewrite take_app_length, drop_at.
  - rewrite app_nil_r. by rewrite find_byte_absent.
Qed.

Lemma cut_userinfo (ui : option str) hp : "@"%char ∉ hp ->
  let auth := match ui with Some ui => ui ++ lit "@" | None => [] end ++ hp in
  match rfind_byte (is_char "@"%char) auth with
  | Some i => (Some (take i auth), drop (i + 1) auth)
  | None => (None, auth)
  end = (ui, hp).
Proof.
  intros H. destruct ui as [ui|]; cbn zeta.
  - rewrite <- app_assoc. change (lit "@" ++ hp) with ("@"%char :: hp).
    rewrite rfind_byte_app_at by done. by rewrite take_app_length, drop_at.
  - cbn [app]. by rewrite rfind_byte_absent.
Qed.

Lemma uri_parse_text sc ui hp qt f h po : text_ok sc ui hp qt f -> split_host_port hp = Ok (h, po) ->
  uri_parse (uri_text sc ui hp qt f) =
    Ok {| scheme := sc; userinfo := ui; host := h; port := po; query := default [] (parse_query <$> qt); fragment := f |}.
Proof.
  intros (Hs & Hc & Hui & Hne & Hhp & Hq & Hf) Hsp. unfold uri_text, uri_parse.
  rewrite find_str_scheme by done. cbn [ok_or mbind res_bind]. rewrite take_app_length, Hs.
  assert (forall t, drop (length sc + 3) (sc ++ lit "://" ++ t) = t) as Hd by (intros t; by rewrite drop_app_add).
  rewrite Hd. clear Hd.
  set (auth := match ui with Some ui => ui ++ lit "@" | None => [] end ++ hp).
  set (qs := match qt with Some q => lit "?" ++ q | None => [] end).
  replace (_ ++ hp ++ qs ++ _) with ((auth ++ qs) ++ match (percent_encode <$> f) with Some b => "#"%char :: b | None => [] end).
  2: { unfold auth. rewrite <- !app_assoc. by destruct f. }
  assert (forall c, c ∈ (["#"; "?"]%char : list u8) -> c ∉ auth) as A1.
  { intros c Hin. unfold auth. rewrite not_elem_of_app. split; [|apply Hhp; set_solver].
    destruct ui as [u|]; [|apply not_elem_of_nil]. destruct (Hui u eq_refl) as [H1 H2].
    rewrite not_elem_of_app. split; [set_solver|]. intros ->%list_elem_of_singleton. set_solver. }
  rewrite (cut_opt percent_decode).
  2: { rewrite not_elem_of_app. split; [apply A1; set_solver|]. unfold qs. destruct qt as [q|]; [|apply not_elem_of_nil].
       rewrite not_elem_of_app. split; [by intros ?%list_elem_of_singleton|by apply Hq]. }
  replace (auth ++ qs) with (auth ++ match qt with Some b => "?"%char :: b | None => [] end) by (unfold qs; by destruct qt).
  rewrite (cut_opt id) by (apply A1; set_solver). cbv beta iota.
  pose proof (cut_userinfo ui hp ltac:(apply Hhp; set_solver)) as Hcut. cbn zeta in Hcut. unfold auth. rewrite Hcut.
  assert (is_empty hp = false) as -> by by destruct hp. rewrite Hsp. cbn [mbind res_bind].
  do 2 f_equal; [by destruct qt|]. destruct f as [f|]; [|done]. cbn. by rewrite percent_decode_encode by auto.
Qed.

(** Printing a URI and parsing it. *)
Lemma uri_parse_print u : uri_ok u -> uri_parse (print_uri u) = Ok u.
Proof.
  intros (Hs & Hc & Hh & Hp & Hui & Hq & Hf). destruct u as [sc ui h po q f].
  cbn [scheme userinfo host port query fragment] in *.
  set (qt := match q with [] => None | _ => Some (print_query q) end).
  assert (print_uri {| scheme := sc; userinfo := ui; host := h; port := po; query := q; fragment := f |}
          = uri_text sc ui (print_hostport h po) qt f) as -> by (unfold print_uri, uri_text, qt; cbn; by destruct q).
  rewrite (uri_parse_text _ _ _ _ _ h po); [|split_and!; try done|by apply split_print_hostport].
  - do 2 f_equal. unfold qt. destruct q as [|p q]; [done|]. by apply (parse_print_query (p :: q)).
  - destruct Hh as [Hne _]. apply print_host_nonempty in Hne. unfold print_hostport. by destruct (print_host h).
  - intros c Hin. apply print_hostport_no; [done|done|set_solver].
  - unfold qt. intros s. destruct q as [|p q]; [done|]. intros [= <-]. apply print_query_no; [done|set_solver].
Qed.

Lemma split_host_port_safe s : no_panic (split_host_port s) /\ forall h p, split_host_port s = Ok (h, Some p) -> port_ok p.
Proof.
  assert (forall q p, parse_u16 q = Some p -> port_ok p) as Hp by (intros q p H; by eapply parse_uint_bound in H).
  unfold split_host_port. split.
  - repeat (case_match; auto with resdb); apply no_panic_bind; auto with resdb.
    intros e _. repeat (case_match; cbn; auto with resdb). destruct (parse_u16 _); cbn; auto with resdb.
  - intros h p H. destruct (strip_prefix "[" s) as [rest|].
    + apply ok_bind in H as (e & _ & H). apply ok_bind in H as (o & Ho & H). simplify_eq.
      destruct (strip_prefix ":" _); [|done]. apply ok_bind in Ho as (v & Hv & Ho). simplify_eq.
      destruct (parse_u16 _) eqn:E; cbn in Hv; simplify_eq. eauto.
    + destruct (rfind_byte _ s) as [i|]; [|done]. destruct (take i s); [done|].
      apply ok_bind in H as (v & Hv & H). simplify_eq. destruct (parse_u16 _) eqn:E; cbn in Hv; simplify_eq. eauto.
Qed.

Lemma uri_parse_safe s : no_panic (uri_parse s) /\ forall u p, uri_parse s = Ok u -> port u = Some p -> port_ok p.
Proof.
  unfold uri_parse. destruct (find_str "://" s) as [i|]; cbn [ok_or mbind res_bind]; [|split; [discriminate|done]].
  repeat case_match; (split; [try discriminate|try done]).
  all: match goal with
       | |- no_panic _ => apply no_panic_bind; [apply split_host_port_safe|by intros [??] _]
       | |- _ => intros u p Hu Hp; apply ok_bind in Hu as ([hh oo] & Hs & Hu); simplify_eq; cbn in Hp; subst;
                 by eapply split_host_port_safe
       end.
Qed.

(** ** Properties *)

(** Parsing inverts printing: scheme, user information, host (an IPv6 host in
    brackets), port, query and fragment are read back, whatever bytes the
    percent-encoded parts hold; and parsing never panics and only accepts ports
    of 16 bits. *)
Theorem uri_roundtrip (u : Uri) (s : str) (Hok : uri_ok u) :
  uri_parse (print_uri u) = Ok u
  /\ percent_decode (percent_encode (from_utf8_lossy s)) = from_utf8_lossy s
  /\ no_panic (uri_parse s) /\ (forall v p, uri_parse s = Ok v -> port v = Some p -> port_ok p).
Proof.
  split; [by apply uri_parse_print|]. split; [apply percent_decode_encode, lossy_valid|]. apply uri_parse_safe.
Qed.

Lemma uri_roundtrip_witness :
  uri_parse "vless://id@[2001:db8::1]:443?a%26b=%D1%8F#x" =
    Ok {| scheme := "vless"; userinfo := Some (lit "id"); host := "2001:db8::1"; port := Some 443;
          query := [(lit "a&b", lit "я")]; fragment := Some (lit "x") |}.
Proof.
  destruct (uri_roundtrip {| scheme := "vless"; userinfo := Some (lit "id"); host := "2001:db8::1"; port := Some 443;
          query := [(lit "a&b", lit "я")]; fragment := Some (lit "x") |} []) as [H _]; [|exact H].
  unfold uri_ok, host_ok, port_ok. cbn [scheme userinfo host port query fragment]. split_and!; try done.
  - by apply (bool_decide_unpack _).
  - by apply (bool_decide_unpack _).
  - intros p [= <-]. done.
  - intros ui [= <-]. split; by apply (bool_decide_unpack _).
  - by repeat constructor.
  - by intros f [= <-].
Defined.
