(* ===== verification/Link.v ===== *)
(** * Share links ([crates/core/src/parse/link.rs]) *)

From S2P Require Import Prelude RustStr Utf8 Model Base64 Uri.

Definition query_to_params (query : list (str * str)) : str_map :=
  fold_left (fun m '(k, v) => <[k := v]> m) query ∅.

Definition make_profile (protocol : ProtocolKind) (host : str) (port : Z) (params : str_map) (fragment : option str)
    : ServerProfile :=
  let name := match fragment with
              | Some (c :: f) => c :: f
              | _ => host ++ ":" ++ show_uint port
              end in
  {| sp_name := name; sp_protocol := protocol; sp_address := host; sp_port := port; sp_params := params; sp_tags := [] |}.

Definition parse_vless (s : str) : res ParseError ServerProfile :=
  uri ← uri_parse s;
  uuid ← ok_or (userinfo uri) (MissingField "uuid");
  port ← ok_or (port uri) MissingPort;
  let params := <["uuid" : str := percent_decode uuid]> (query_to_params (query uri)) in
  Ok (make_profile Vless (host uri) port params (fragment uri)).

Definition parse_trojan (s : str) : res ParseError ServerProfile :=
  uri ← uri_parse s;
  password ← ok_or (userinfo uri) (MissingField "password");
  port ← ok_or (port uri) MissingPort;
  let params := <["password" : str := percent_decode password]> (query_to_params (query uri)) in
  Ok (make_profile Trojan (host uri) port params (fragment uri)).

Definition parse_hysteria2 (s : str) : res ParseError ServerProfile :=
  uri ← uri_parse s;
  port ← ok_or (port uri) MissingPort;
  let params := query_to_params (query uri) in
  let params := match userinfo uri with
                | Some (c :: auth) => <["auth" : str := percent_decode (c :: auth)]> params
                | _ => params
                end in
  Ok (make_profile Hysteria2 (host uri) port params (fragment uri)).

Definition parse_tuic (s : str) : res ParseError ServerProfile :=
  uri ← uri_parse s;
  ui ← ok_or (userinfo uri) (MissingField "uuid");
  port ← ok_or (port uri) MissingPort;
  let params := query_to_params (query uri) in
  let params := match split_once ":"%char ui with
                | Some (uuid, password) =>
                    <["password" : str := percent_decode password]> (<["uuid" : str := percent_decode uuid]> params)
                | None => <["uuid" : str := percent_decode ui]> params
                end in
  Ok (make_profile Tuic (host uri) port params (fragment uri)).

Definition proxy_profile (s : str) (kind : ProtocolKind) : res ParseError ServerProfile :=
  uri ← uri_parse s;
  port ← ok_or (port uri) MissingPort;
  let params := query_to_params (query uri) in
  let params := match userinfo uri with
                | Some (c :: u) =>
                    match split_once ":"%char (c :: u) with
                    | Some (user, pass) =>
                        <["password" : str := percent_decode pass]> (<["username" : str := percent_decode user]> params)
                    | None => <["username" : str := percent_decode (c :: u)]> params
                    end
                | _ => params
                end in
  Ok (make_profile kind (host uri) port params (fragment uri)).

(** Base64 first, else percent-encoding. *)
Definition decode_userinfo (u : str) : res ParseError str :=
  let percent := let pd := percent_decode u in
                 if contains ":" pd then Ok pd else Err (MissingField "method:password") in
  match decode_to_string u with
  | Ok decoded => if contains ":" decoded then Ok decoded else percent
  | Err _ => percent
  | Panic => Panic
  end.

(** [hostport.split('/').next().unwrap_or(hostport)] *)
Definition ss_from_parts (creds hostport : str) : res ParseError (str * str * str * Z) :=
  '(method, password) ← ok_or (split_once ":"%char creds) (MissingField "method:password");
  let hostport := default hostport (head (split_char "/"%char hostport)) in
  '(host, port_opt) ← split_host_port hostport;
  port ← ok_or port_opt MissingPort;
  Ok (method, password, host, port).

(** The keys of the query that [parse_shadowsocks] keeps. *)
Definition SS_KEYS : list str :=
  ["security" : str; "sni" : str; "alpn" : str; "fp" : str; "insecure" : str; "allowInsecure" : str; "allow_insecure" : str].

Definition ss_query_pair (params : str_map) (pair : str) : str_map :=
  let '(k, v) := match split_once "="%char pair with
                 | Some (k, v) => (k, percent_decode v)
                 | None => (pair, [])
                 end in
  if decide (k ∈ SS_KEYS) then <[replace "allowInsecure" "allow_insecure" k := v]> params else params.

Definition parse_shadowsocks (s : str) : res ParseError ServerProfile :=
  idx ← ok_or (find_str "://" s) (MalformedUrl s);
  let rest := drop (idx + 3) s in
  let '(before_frag, fragment) :=
    match find_byte (is_char "#"%char) rest with
    | Some i => (take i rest, Some (percent_decode (drop (i + 1) rest)))
    | None => (rest, None)
    end in
  let '(body, query) :=
    match find_byte (is_char "?"%char) before_frag with
    | Some i => (take i before_frag, drop (i + 1) before_frag)
    | None => (before_frag, [])
    end in
  '(method, password, host, port) ←
    match rfind_byte (is_char "@"%char) body with
    | Some at_ => creds ← decode_userinfo (take at_ body); ss_from_parts creds (drop (at_ + 1) body)
    | None =>
        decoded ← decode_to_string body;
        at_ ← ok_or (rfind_byte (is_char "@"%char) decoded) (MalformedUrl decoded);
        ss_from_parts (take at_ decoded) (drop (at_ + 1) decoded)
    end;
  let params := <["password" : str := password]> (<["method" : str := method]> ∅) in
  let params := fold_left ss_query_pair (filter (fun p => is_empty p = false) (split_char "&"%char query)) params in
  Ok (make_profile Shadowsocks host port params fragment).

Definition parse_link (input : str) : res ParseError ServerProfile :=
  let s := trim input in
  if is_empty s then Err EmptyInput
  else
    idx ← ok_or (find_str "://" s) (MalformedUrl s);
    let scheme := to_ascii_lowercase (take idx s) in
    if decide (scheme = "vless") then parse_vless s
    else if decide (scheme = "trojan") then parse_trojan s
    else if decide (scheme = "ss") then parse_shadowsocks s
    else if decide (scheme ∈ (["socks" : str; "socks5" : str] : list str)) then proxy_profile s Socks5
    else if decide (scheme ∈ (["http" : str; "https" : str] : list str)) then proxy_profile s Http
    else if decide (scheme ∈ (["hysteria2" : str; "hy2" : str] : list str)) then parse_hysteria2 s
    else if decide (scheme = "tuic") then parse_tuic s
    else Err (UnknownScheme scheme).

(** ** Specification: the share link of a profile *)

(** Which parameters the user information carries; the others go to the query. *)
Definition userinfo_keys (k : ProtocolKind) : list str :=
  match k with
  | Vless => ["uuid" : str]
  | Trojan => ["password" : str]
  | Hysteria2 => ["auth" : str]
  | Tuic => ["uuid" : str; "password" : str]
  | Socks5 | Http => ["username" : str; "password" : str]
  | Shadowsocks => ["method" : str; "password" : str]
  | Wireguard | AmneziaWg => []
  end.

Definition link_scheme (k : ProtocolKind) : str :=
  match k with Socks5 => "socks5" | Http => "http" | Shadowsocks => "ss" | _ => protocol_as_str k end.

(** One value, or two joined with a colon when both are there. *)
Definition link_userinfo (k : ProtocolKind) (params : str_map) : option str :=
  match userinfo_keys k with
  | [a] => percent_encode <$> params !! a
  | [a; b] =>
      match params !! a, params !! b with
      | Some u, Some p => Some (percent_encode u ++ lit ":" ++ percent_encode p)
      | Some u, None => Some (percent_encode u)
      | None, _ => None
      end
  | _ => None
  end.

Definition query_pairs (k : ProtocolKind) (params : str_map) : list (str * str) :=
  filter (fun '(key, _) => key ∉ userinfo_keys k) (map_to_list params).

Definition link_uri (p : ServerProfile) : Uri :=
  {| scheme := link_scheme (sp_protocol p); userinfo := link_userinfo (sp_protocol p) (sp_params p);
     host := sp_address p; port := Some (sp_port p); query := query_pairs (sp_protocol p) (sp_params p);
     fragment := Some (sp_name p) |}.

(** SIP002: the credentials in Base64, the query with bare keys. *)
Definition ss_link (p : ServerProfile) : str :=
  lit "ss://" ++ encode_standard (default [] (sp_params p !! ("method" : str)) ++ lit ":" ++ default [] (sp_params p !! ("password" : str)))
  ++ lit "@" ++ print_hostport (sp_address p) (Some (sp_port p)) ++ lit "?"
  ++ join "&" (map (fun '(k, v) => k ++ lit "=" ++ percent_encode v) (query_pairs Shadowsocks (sp_params p)))
  ++ lit "#" ++ percent_encode (sp_name p).

Definition share_link (p : ServerProfile) : str :=
  match sp_protocol p with Shadowsocks => ss_link p | _ => print_uri (link_uri p) end.

(** The profiles a link can carry. *)
Definition link_ok (p : ServerProfile) : Prop :=
  let get (k : str) := sp_params p !! k in
  host_ok (sp_address p) /\ port_ok (sp_port p) /\ sp_name p <> [] /\ utf8_valid (sp_name p) = true /\ sp_tags p = []
  /\ map_Forall (fun k v => utf8_valid k = true /\ utf8_valid v = true) (sp_params p)
  /\ match sp_protocol p with
     | Vless => is_Some (get "uuid")
     | Trojan => is_Some (get "password")
     | Hysteria2 => get "auth" <> Some []
     | Tuic => is_Some (get "uuid")
     | Socks5 | Http => (is_Some (get "password") -> is_Some (get "username")) /\ (get "username" = Some [] -> is_Some (get "password"))
     | Shadowsocks => is_Some (get "password") /\ (exists m, get "method" = Some m /\ ":"%char ∉ m)
                      /\ Forall (fun e : str * str => fst e ∈ SS_KEYS /\ fst e <> lit "allowInsecure") (query_pairs Shadowsocks (sp_params p))
     | Wireguard | AmneziaWg => False
     end.

(** ** Lemmas *)

Lemma fold_insert (q : list (str * str)) (m0 : str_map) : NoDup (map fst q) ->
  fold_left (fun m '(k, v) => <[k := v]> m) q m0 = list_to_map q ∪ m0.
Proof.
  revert m0. induction q as [|[k v] q IH]; intros m0 H; [symmetry; apply (left_id_L (∅ : str_map) (∪))|].
  apply NoDup_cons in H as [Hk Hq]. cbn [fold_left]. rewrite (IH _ Hq). cbn [list_to_map foldr].
  rewrite <- insert_union_l. rewrite <- insert_union_r; [done|]. by apply not_elem_of_list_to_map.
Qed.

Lemma filter_fst_nodup (P : str * str -> Prop) `{!forall x, Decision (P x)} (q : list (str * str)) :
  NoDup (map fst q) -> NoDup (map fst (filter P q)).
Proof.
  induction q as [|e q IH]; intros Hnd; [constructor|]. apply NoDup_cons in Hnd as [Hk Hq]. rewrite filter_cons.
  case_decide; [|auto]. cbn. constructor; [|auto]. intros Hin. apply Hk.
  apply list_elem_of_fmap in Hin as (e' & -> & He'). apply list_elem_of_fmap. exists e'. split; [done|].
  by apply list_elem_of_filter in He' as [_ ?].
Qed.

Lemma query_pairs_nodup (k : ProtocolKind) (m : str_map) : NoDup (map fst (query_pairs k m)).
Proof. apply filter_fst_nodup, NoDup_fst_map_to_list. Qed.

Lemma query_pairs_elem (k : ProtocolKind) (m : str_map) key v : (key, v) ∈ query_pairs k m <-> m !! key = Some v /\ key ∉ userinfo_keys k.
Proof. unfold query_pairs. rewrite list_elem_of_filter, elem_of_map_to_list. tauto. Qed.

Lemma query_map_lookup (k : ProtocolKind) (m : str_map) key :
  (list_to_map (query_pairs k m) : str_map) !! key = if decide (key ∈ userinfo_keys k) then None else m !! key.
Proof.
  apply option_eq. intros v. rewrite <- (elem_of_list_to_map (M := gmap str)) by apply query_pairs_nodup.
  rewrite query_pairs_elem. case_decide; intuition congruence.
Qed.

Lemma query_to_params_lookup (k : ProtocolKind) (m : str_map) key :
  query_to_params (query_pairs k m) !! key = if decide (key ∈ userinfo_keys k) then None else m !! key.
Proof.
  unfold query_to_params. rewrite fold_insert by apply query_pairs_nodup. rewrite (right_id_L ∅ (∪)).
  apply query_map_lookup.
Qed.

Lemma unreserved_graphic c : unreserved c = true \/ c = "%"%char -> graphic c = true.
Proof.
  intros [H| ->]; [|done]. unfold unreserved, between in H. unfold graphic. lia.
Qed.

(** A link that ends with a percent-encoded name is not trimmed. *)
Lemma link_trim c t n : graphic c = true -> n <> [] -> trim (c :: t ++ percent_encode n) = c :: t ++ percent_encode n.
Proof.
  intros Hc Hn. apply trim_graphic; [by eauto|].
  assert (percent_encode n <> []) as He.
  { destruct n as [|d n]; [done|]. unfold percent_encode. cbn. by destruct (unreserved d). }
  destruct (exists_last He) as (l & d & E). exists d, (c :: t ++ l). split; [rewrite E; cbn; by rewrite app_assoc|].
  apply unreserved_graphic, (percent_encode_chars n). rewrite E. set_solver.
Qed.

Lemma percent_encode_no n c : c ∈ (["#"; "?"; ":"; "@"; "/"; "&"; "="]%char : list u8) -> c ∉ percent_encode n.
Proof.
  intros H. repeat (apply elem_of_cons in H as [->|H]; [by apply not_in_encode|]). by apply elem_of_nil in H.
Qed.

(** The parts of a link_ok profile, as conditions on its URI. *)
Lemma link_userinfo_no (k : ProtocolKind) (m : str_map) ui c : link_userinfo k m = Some ui -> c ∈ (["#"; "?"]%char : list u8) -> c ∉ ui.
Proof.
  intros H Hc. assert (forall n, c ∉ percent_encode n) as Hn by (intros n; apply percent_encode_no; set_solver).
  assert (c ∉ lit ":") by (intros ->%list_elem_of_singleton; set_solver).
  unfold link_userinfo in H. destruct (userinfo_keys k) as [|a [|b [|]]]; try done.
  - destruct (m !! a); cbn in H; simplify_eq; done.
  - destruct (m !! a), (m !! b); simplify_eq; rewrite ?not_elem_of_app; auto.
Qed.

Lemma link_scheme_ok k : to_ascii_lowercase (link_scheme k) = link_scheme k /\ ":"%char ∉ link_scheme k
  /\ exists c t, link_scheme k = c :: t /\ graphic c = true.
Proof.
  split; [by destruct k|]. split; [by destruct k; apply (bool_decide_unpack _)|]. destruct k; cbn; eauto.
Qed.

Lemma link_uri_ok p : link_ok p -> uri_ok (link_uri p).
Proof.
  intros (Hh & Hp & Hn & Hv & Ht & Hm & _). unfold uri_ok. cbn [link_uri scheme userinfo host port query fragment].
  destruct (link_scheme_ok (sp_protocol p)) as (H1 & H2 & _). split_and!; try done.
  - by intros q [= <-].
  - intros ui Hui. split; (eapply link_userinfo_no; [done|set_solver]).
  - apply Forall_forall. intros [k v] Hkv%query_pairs_elem. destruct Hkv as [Hkv _]. by apply (Hm k v).
  - by intros f [= <-].
Qed.

Lemma make_profile_eq p params : sp_name p <> [] -> sp_tags p = [] -> params = sp_params p ->
  make_profile (sp_protocol p) (sp_address p) (sp_port p) params (Some (sp_name p)) = p.
Proof. intros Hn Ht ->. destruct p as [n pr a po m t]. cbn in *. subst t. by destruct n. Qed.

(** Which parser a scheme selects. *)
Definition parser_of (k : ProtocolKind) (s : str) : res ParseError ServerProfile :=
  match k with
  | Vless => parse_vless s
  | Trojan => parse_trojan s
  | Shadowsocks => parse_shadowsocks s
  | Socks5 => proxy_profile s Socks5
  | Http => proxy_profile s Http
  | Hysteria2 => parse_hysteria2 s
  | Tuic => parse_tuic s
  | Wireguard | AmneziaWg => Err (UnknownScheme (protocol_as_str k))
  end.

Lemma parse_link_dispatch k t n : n <> [] ->
  parse_link (link_scheme k ++ lit "://" ++ t ++ percent_encode n) = parser_of k (link_scheme k ++ lit "://" ++ t ++ percent_encode n).
Proof.
  intros Hn. destruct (link_scheme_ok k) as (Hl & Hc & c & w & Ew & Hg). unfold parse_link.
  assert (trim (link_scheme k ++ lit "://" ++ t ++ percent_encode n) = link_scheme k ++ lit "://" ++ t ++ percent_encode n) as ->.
  { rewrite Ew, !app_assoc. change ((c :: w) ++ lit "://") with (c :: (w ++ lit "://")). by apply (link_trim c). }
  assert (is_empty (link_scheme k ++ lit "://" ++ t ++ percent_encode n) = false) as -> by by rewrite Ew.
  rewrite find_str_scheme by done. cbn [ok_or mbind res_bind]. rewrite take_app_length, Hl. by destruct k.
Qed.

Lemma percent_encode_nil n : percent_encode n = [] -> n = [].
Proof. destruct n as [|c n]; [done|]. unfold percent_encode. cbn. by destruct (unreserved c). Qed.

Lemma filter_nonempty_match {A} (u : str) (f : str -> A) (d : A) : u <> [] ->
  match u with [] => d | c :: t => f (c :: t) end = f u.
Proof. by destruct u. Qed.

Lemma colon_split u p : split_once ":"%char (percent_encode u ++ lit ":" ++ percent_encode p) = Some (percent_encode u, percent_encode p).
Proof. apply (split_once_app ":"%char). apply percent_encode_no. set_solver. Qed.

Lemma colon_none u : split_once ":"%char (percent_encode u) = None.
Proof. apply split_once_None, percent_encode_no. set_solver. Qed.

(** The parameters of the query, with those the user information held put back. *)
Lemma restored_one (k : ProtocolKind) (m : str_map) (a v : str) : userinfo_keys k = [a] -> m !! a = Some v ->
  <[a := v]> (query_to_params (query_pairs k m)) = m.
Proof.
  intros Hk Hv. apply map_eq. intros key. destruct (decide (key = a)) as [->|]; [by rewrite lookup_insert_eq|].
  rewrite lookup_insert_ne by done. rewrite query_to_params_lookup, Hk. rewrite decide_False; [done|set_solver].
Qed.

Lemma restored_two (k : ProtocolKind) (m : str_map) (a b v w : str) : userinfo_keys k = [a; b] -> a <> b -> m !! a = Some v -> m !! b = Some w ->
  <[b := w]> (<[a := v]> (query_to_params (query_pairs k m))) = m.
Proof.
  intros Hk Hab Hv Hw. apply map_eq. intros key. destruct (decide (key = b)) as [->|]; [by rewrite lookup_insert_eq|].
  rewrite lookup_insert_ne by done. destruct (decide (key = a)) as [->|]; [by rewrite lookup_insert_eq|].
  rewrite lookup_insert_ne by done. rewrite query_to_params_lookup, Hk. rewrite decide_False; [done|set_solver].
Qed.

Lemma restored_first (k : ProtocolKind) (m : str_map) (a b v : str) : userinfo_keys k = [a; b] -> m !! a = Some v -> m !! b = None ->
  <[a := v]> (query_to_params (query_pairs k m)) = m.
Proof.
  intros Hk Hv Hw. apply map_eq. intros key. destruct (decide (key = a)) as [->|]; [by rewrite lookup_insert_eq|].
  rewrite lookup_insert_ne by done. rewrite query_to_params_lookup, Hk. case_decide; [|done]. set_solver.
Qed.

Lemma restored_none (k : ProtocolKind) (m : str_map) : Forall (fun a => m !! a = None) (userinfo_keys k) ->
  query_to_params (query_pairs k m) = m.
Proof.
  intros H. apply map_eq. intros key. rewrite query_to_params_lookup. case_decide as Hk; [|done].
  rewrite Forall_forall in H. by rewrite H.
Qed.

(** The user information of a proxy: a name, a name and a password, or nothing. *)
Lemma proxy_params (k : ProtocolKind) (m : str_map) :
  userinfo_keys k = ["username" : str; "password" : str] ->
  (forall (a v : str), m !! a = Some v -> percent_decode (percent_encode v) = v) ->
  (is_Some (m !! ("password" : str)) -> is_Some (m !! ("username" : str))) ->
  (m !! ("username" : str) = Some [] -> is_Some (m !! ("password" : str))) ->
  match match m !! ("username" : str), m !! ("password" : str) with
        | Some u, Some p => Some (percent_encode u ++ lit ":" ++ percent_encode p)
        | Some u, None => Some (percent_encode u)
        | None, _ => None
        end with
  | Some (c :: u) =>
      match split_once ":"%char (c :: u) with
      | Some (user, pass) =>
          <["password" : str := percent_decode pass]>
            (<["username" : str := percent_decode user]> (query_to_params (query_pairs k m)))
      | None => <["username" : str := percent_decode (c :: u)]> (query_to_params (query_pairs k m))
      end
  | _ => query_to_params (query_pairs k m)
  end = m.
Proof.
  intros Hk Hd Hp Hn. destruct (m !! ("username" : str)) as [u|] eqn:Hu; [destruct (m !! ("password" : str)) as [w|] eqn:Hw|].
  - pose proof (colon_split u w) as Hs. destruct (percent_encode u ++ lit ":" ++ percent_encode w) as [|c t] eqn:E.
    { by destruct (percent_encode u). }
    rewrite Hs, (Hd _ _ Hu), (Hd _ _ Hw). by apply restored_two.
  - destruct (percent_encode u) as [|c t] eqn:E.
    { apply percent_encode_nil in E as ->. destruct (Hn eq_refl) as [? ?]. done. }
    rewrite <- E, colon_none, (Hd _ _ Hu). by eapply restored_first.
  - apply restored_none. rewrite Hk. repeat constructor; [done|]. destruct (m !! ("password" : str)); [|done].
    by destruct (Hp (mk_is_Some _ _ eq_refl)).
Qed.

(** The kinds whose link is a URI. *)
Lemma parse_uri_link p : link_ok p -> sp_protocol p <> Shadowsocks ->
  parser_of (sp_protocol p) (print_uri (link_uri p)) = Ok p.
Proof.
  intros Hok Hss. pose proof (uri_parse_print _ (link_uri_ok p Hok)) as Hu.
  destruct Hok as (_ & _ & Hn & _ & Ht & Hm & Hk).
  assert (forall a v, sp_params p !! a = Some v -> percent_decode (percent_encode v) = v) as Hd.
  { intros a v Hv. apply percent_decode_encode, (Hm a v Hv). }
  assert (forall params, params = sp_params p -> make_profile (sp_protocol p) (sp_address p) (sp_port p) params (Some (sp_name p)) = p)
    as Hmk by (intros; by apply make_profile_eq).
  destruct (sp_protocol p) eqn:Ek; cbn [parser_of]; try done.
  - (* VLESS *) destruct Hk as [v Hv]. unfold parse_vless. rewrite Hu.
    cbn [mbind res_bind link_uri userinfo ok_or port query host fragment]. rewrite Ek. unfold link_userinfo. cbn [userinfo_keys].
    rewrite Hv. cbn [fmap option_fmap option_map ok_or mbind res_bind]. f_equal. apply Hmk. rewrite (Hd _ _ Hv). by apply restored_one.
  - (* Trojan *) destruct Hk as [v Hv]. unfold parse_trojan. rewrite Hu.
    cbn [mbind res_bind link_uri userinfo ok_or port query host fragment]. rewrite Ek. unfold link_userinfo. cbn [userinfo_keys].
    rewrite Hv. cbn [fmap option_fmap option_map ok_or mbind res_bind]. f_equal. apply Hmk. rewrite (Hd _ _ Hv). by apply restored_one.
  - (* SOCKS5 *) unfold proxy_profile. rewrite Hu. cbn [mbind res_bind link_uri userinfo ok_or port query host fragment].
    rewrite Ek. f_equal. apply Hmk. unfold link_userinfo. cbn [userinfo_keys]. destruct Hk as [Hk1 Hk2]. apply (proxy_params Socks5); [done|exact Hd|exact Hk1|exact Hk2].
  - (* HTTP *) unfold proxy_profile. rewrite Hu. cbn [mbind res_bind link_uri userinfo ok_or port query host fragment].
    rewrite Ek. f_equal. apply Hmk. unfold link_userinfo. cbn [userinfo_keys]. destruct Hk as [Hk1 Hk2]. apply (proxy_params Http); [done|exact Hd|exact Hk1|exact Hk2].
  - (* Hysteria2 *) unfold parse_hysteria2. rewrite Hu. cbn [mbind res_bind link_uri userinfo ok_or port query host fragment].
    rewrite Ek. f_equal. apply Hmk. unfold link_userinfo. cbn [userinfo_keys].
    destruct (sp_params p !! ("auth" : str)) as [v|] eqn:Hv; cbn [fmap option_fmap option_map].
    + rewrite (filter_nonempty_match _ (fun u => <["auth" : str := percent_decode u]> _)).
      * rewrite (Hd _ _ Hv). by apply restored_one.
      * intros ->%percent_encode_nil. done.
    + apply restored_none. by repeat constructor.
  - (* TUIC *) destruct Hk as [u Hu']. unfold parse_tuic. rewrite Hu.
    cbn [mbind res_bind link_uri userinfo ok_or port query host fragment]. rewrite Ek. unfold link_userinfo. cbn [userinfo_keys].
    rewrite Hu'. destruct (sp_params p !! ("password" : str)) as [w|] eqn:Hw; cbn [ok_or mbind res_bind]; f_equal; apply Hmk.
    + rewrite colon_split, (Hd _ _ Hu'), (Hd _ _ Hw). by apply restored_two.
    + rewrite colon_none, (Hd _ _ Hu'). by eapply restored_first.
Qed.

(** The symbols of an encoding. *)
Lemma encode_standard_no x c : c ∉ "="%char :: ALPHABET -> c ∉ encode_standard x.
Proof.
  intros Hc. unfold encode_standard. rewrite list_elem_of_In, in_concat. intros (w & Hw & Hin).
  apply in_map_iff in Hw as (k & <- & _). apply list_elem_of_In in Hin.
  assert (forall n, alphabet_at (Z.land n 63) ∈ ALPHABET) as Ha.
  { intros n. apply list_elem_of_In, nth_In. change 63 with (Z.ones 6). rewrite Z.land_ones by lia.
    change (length ALPHABET) with 64%nat. dlia. }
  apply Hc. unfold encode_chunk in Hin.
  repeat case_match; repeat (apply elem_of_cons in Hin as [->|Hin]; [first [by left|right; apply Ha]|]);
    try (by apply elem_of_nil in Hin).
Qed.

Lemma ss_keys_facts k : k ∈ SS_KEYS -> k <> lit "allowInsecure" ->
  replace "allowInsecure" "allow_insecure" k = k /\ Forall (fun c => c ∉ (["#"; "?"; "&"; "="]%char : list u8)) k.
Proof.
  intros Hk Hne. unfold SS_KEYS in Hk.
  repeat (apply elem_of_cons in Hk as [->|Hk]; [first [done|split; [done|by apply (bool_decide_unpack _)]]|]).
  by apply elem_of_nil in Hk.
Qed.

Lemma ss_query_fold (q : list (str * str)) (m0 : str_map) :
  Forall (fun e : str * str => fst e ∈ SS_KEYS /\ fst e <> lit "allowInsecure") q ->
  Forall (fun e : str * str => utf8_valid (snd e) = true) q ->
  fold_left ss_query_pair (filter (fun p => is_empty p = false) (map (fun '(k, v) => k ++ lit "=" ++ percent_encode v) q)) m0
  = fold_left (fun m '(k, v) => <[k := v]> m) q m0.
Proof.
  intros H1. revert m0. induction H1 as [|[k v] q [Hk Hne] _ IH]; intros m0 H2; [done|].
  apply Forall_cons in H2 as [Hv H2]. cbn [map]. cbn [fst snd] in *.
  destruct (ss_keys_facts k Hk Hne) as [Hr Hf].
  assert ("="%char ∉ k) as Hk2 by (intros Hin; eapply Forall_forall in Hf; [|exact Hin]; set_solver).
  rewrite filter_cons_True by (by destruct k). cbn [fold_left]. rewrite (IH _ H2). f_equal.
  unfold ss_query_pair. change (lit "=" ++ percent_encode v) with ("="%char :: percent_encode v).
  rewrite split_once_app by done. rewrite decide_True by done. by rewrite Hr, percent_decode_encode.
Qed.

Lemma ss_query_no (q : list (str * str)) c :
  Forall (fun e : str * str => fst e ∈ SS_KEYS /\ fst e <> lit "allowInsecure") q -> c ∈ (["#"; "?"]%char : list u8) ->
  c ∉ join "&" (map (fun '(k, v) => k ++ lit "=" ++ percent_encode v) q).
Proof.
  intros H Hc. induction H as [|[k v] q [Hk Hne] _ IH]; [apply not_elem_of_nil|]. cbn [fst] in *.
  destruct (ss_keys_facts k Hk Hne) as [_ Hf].
  assert (c ∉ k ++ lit "=" ++ percent_encode v) as Hkv.
  { rewrite !not_elem_of_app. split_and!; [|intros ->%list_elem_of_singleton; set_solver|apply percent_encode_no; set_solver].
    intros Hin. eapply Forall_forall in Hf; [|exact Hin]. set_solver. }
  cbn [map]. destruct q as [|e q]; [exact Hkv|]. cbn [map] in *.
  change (c ∉ (k ++ lit "=" ++ percent_encode v) ++ lit "&" ++ join "&" ((let '(k, v) := e in k ++ lit "=" ++ percent_encode v) ::
     map (fun '(k, v) => k ++ lit "=" ++ percent_encode v) q)).
  rewrite not_elem_of_app. split; [done|]. rewrite not_elem_of_app. split; [|exact IH].
  intros ->%list_elem_of_singleton. set_solver.
Qed.

Lemma ss_split_query (q : list (str * str)) :
  Forall (fun e : str * str => fst e ∈ SS_KEYS /\ fst e <> lit "allowInsecure") q ->
  filter (fun p => is_empty p = false) (split_char "&"%char (join "&" (map (fun '(k, v) => k ++ lit "=" ++ percent_encode v) q)))
  = filter (fun p => is_empty p = false) (map (fun '(k, v) => k ++ lit "=" ++ percent_encode v) q).
Proof.
  intros H. destruct q as [|e q]; [done|]. change (lit "&") with ["&"%char]. rewrite split_join_pieces; [done|done|].
  apply Forall_map. eapply Forall_impl; [exact H|]. intros [k v] [Hk Hne]. cbn [fst] in *.
  destruct (ss_keys_facts k Hk Hne) as [_ Hf].
  rewrite !not_elem_of_app. split_and!; [|by intros ?%list_elem_of_singleton|apply percent_encode_no; set_solver].
  intros Hin. eapply Forall_forall in Hf; [|exact Hin]. set_solver.
Qed.

Lemma cut_default c (a : str) (o : option str) : c ∉ a ->
  let s := a ++ match o with Some b => c :: b | None => [] end in
  match find_byte (is_char c) s with
  | Some i => (take i s, drop (i + 1) s)
  | None => (s, [])
  end = (a, default [] o).
Proof.
  intros H. destruct o as [b|]; cbn.
  - rewrite find_byte_app_at by done. by rewrite take_app_length, drop_at.
  - rewrite app_nil_r. by rewrite find_byte_absent.
Qed.

Lemma decode_userinfo_encode creds : utf8_valid creds = true -> contains ":" creds = true ->
  decode_userinfo (encode_standard creds) = Ok creds.
Proof.
  intros Hv Hc. unfold decode_userinfo, decode_to_string. rewrite decode_encode. cbn [mbind res_bind]. unfold from_utf8.
  rewrite Hv. cbn [ok_or]. by rewrite Hc.
Qed.

(** The text of a SIP002 link whose host and port are written in any form. *)
Definition ss_text (me pw hp : str) (qt f : option str) : str :=
  lit "ss://" ++ encode_standard (me ++ lit ":" ++ pw) ++ lit "@" ++ hp
  ++ match qt with Some q => lit "?" ++ q | None => [] end ++ match f with Some f => lit "#" ++ percent_encode f | None => [] end.

Lemma parse_ss_text me pw hp qt f h po : ":"%char ∉ me -> utf8_valid me = true -> utf8_valid pw = true ->
  (forall c, c ∈ (["#"; "?"; "@"; "/"]%char : list u8) -> c ∉ hp) -> split_host_port hp = Ok (h, Some po) ->
  (forall q, qt = Some q -> "#"%char ∉ q) -> (forall g, f = Some g -> utf8_valid g = true) ->
  parse_shadowsocks (ss_text me pw hp qt f) =
    Ok (make_profile Shadowsocks h po
          (fold_left ss_query_pair (filter (fun p => is_empty p = false) (split_char "&"%char (default [] qt)))
             (<["password" : str := pw]> (<["method" : str := me]> ∅))) f).
Proof.
  intros Hcol Hme Hpw Hhp Hsp Hq Hf. unfold ss_text, parse_shadowsocks. set (creds := me ++ lit ":" ++ pw).
  set (qs := match qt with Some q => lit "?" ++ q | None => [] end).
  assert (lit "ss://" ++ encode_standard creds ++ lit "@" ++ hp ++ qs ++ match f with Some f => lit "#" ++ percent_encode f | None => [] end
          = lit "ss" ++ lit "://" ++ (((encode_standard creds ++ "@"%char :: hp) ++ qs)
              ++ match (percent_encode <$> f) with Some b => "#"%char :: b | None => [] end)) as ->.
  { rewrite <- !app_assoc. by destruct f. }
  rewrite find_str_scheme by (by apply (bool_decide_unpack _)). cbn [ok_or mbind res_bind].
  assert (forall t, drop (length (lit "ss") + 3) (lit "ss" ++ lit "://" ++ t) = t) as Hd by (intros t; by rewrite drop_app_add).
  rewrite Hd. clear Hd.
  assert (forall c, c ∈ (["#"; "?"]%char : list u8) -> c ∉ encode_standard creds ++ "@"%char :: hp) as Hb.
  { intros c Hc. rewrite not_elem_of_app, not_elem_of_cons. split_and!.
    - apply encode_standard_no. repeat (apply elem_of_cons in Hc as [->|Hc]; [by apply (bool_decide_unpack _)|]). by apply elem_of_nil in Hc.
    - intros ->. set_solver.
    - apply Hhp. set_solver. }
  rewrite (cut_opt percent_decode).
  2: { rewrite not_elem_of_app. split; [apply Hb; set_solver|]. unfold qs. destruct qt as [q|]; [|apply not_elem_of_nil].
       rewrite not_elem_of_app. split; [by intros ?%list_elem_of_singleton|by apply Hq]. }
  cbv beta iota.
  replace ((encode_standard creds ++ "@"%char :: hp) ++ qs)
    with ((encode_standard creds ++ "@"%char :: hp) ++ match qt with Some b => "?"%char :: b | None => [] end) by (by unfold qs; destruct qt).
  rewrite cut_default by (apply Hb; set_solver). cbv beta iota.
  rewrite rfind_byte_app_at by (apply Hhp; set_solver). rewrite take_app_length, drop_at.
  rewrite decode_userinfo_encode.
  2: { apply utf8_valid_app; [done|]. by apply utf8_valid_app. }
  2: { apply contains_spec_str. by exists me, pw. }
  cbn [mbind res_bind]. unfold ss_from_parts.
  assert (split_once ":"%char creds = Some (me, pw)) as -> by (by apply split_once_app). cbn [ok_or mbind res_bind].
  rewrite (split_char_none "/"%char hp) by (apply Hhp; set_solver). cbn [head from_option id].
  rewrite Hsp. cbn [mbind res_bind ok_or]. do 2 f_equal.
  destruct f as [g|]; [|done]. cbn. by rewrite percent_decode_encode by auto.
Qed.

Lemma parse_ss_link p : link_ok p -> sp_protocol p = Shadowsocks -> parse_shadowsocks (ss_link p) = Ok p.
Proof.
  intros (Hh & Hp & Hn & Hnv & Ht & Hm & Hk) Ek. rewrite Ek in Hk. destruct Hk as ([pw Hpw] & (me & Hme & Hcol) & Hq).
  assert (forall q, Some (sp_port p) = Some q -> port_ok q) as Hp' by (by intros q [= <-]).
  unfold ss_link. rewrite Hme, Hpw. cbn [from_option id]. set (q := join "&" _).
  pose proof (parse_ss_text me pw (print_hostport (sp_address p) (Some (sp_port p))) (Some q) (Some (sp_name p)) (sp_address p) (sp_port p)) as E.
  unfold ss_text in E. rewrite <- app_assoc in E. rewrite E; clear E; try done.
  - cbn [from_option id]. f_equal. unfold q. rewrite ss_split_query by done. rewrite ss_query_fold; [|done|].
    + rewrite fold_insert by apply query_pairs_nodup. rewrite <- Ek. apply make_profile_eq; [done|done|].
      apply map_eq. intros key. rewrite lookup_union. rewrite query_map_lookup, Ek. cbn [userinfo_keys].
      destruct (decide (key = ("password" : str))) as [->|H1].
      { rewrite lookup_insert_eq. rewrite decide_True by (right; left). by rewrite Hpw. }
      rewrite lookup_insert_ne by done. destruct (decide (key = ("method" : str))) as [->|H2].
      { rewrite lookup_insert_eq. rewrite decide_True by left. by rewrite Hme. }
      rewrite lookup_insert_ne by done. rewrite decide_False by set_solver. rewrite lookup_empty. by destruct (sp_params p !! key).
    + apply Forall_forall. intros [k v] [Hkv _]%query_pairs_elem. by apply (Hm k v).
  - by apply (Hm _ _ Hme).
  - by apply (Hm _ _ Hpw).
  - intros c Hc. by apply print_hostport_no.
  - by apply split_print_hostport.
  - intros q' [= <-]. apply ss_query_no; [done|set_solver].
  - by intros g [= <-].
Qed.

(** *** Safety *)

Lemma decode_to_string_no_panic s : no_panic (decode_to_string s).
Proof. unfold decode_to_string. apply no_panic_bind; [apply decode_loose_no_panic|auto with resdb]. Qed.

Lemma decode_userinfo_no_panic u : no_panic (decode_userinfo u).
Proof.
  unfold decode_userinfo. pose proof (decode_to_string_no_panic u) as H.
  destruct (decode_to_string u); [| |done]; repeat case_match; auto with resdb.
Qed.

(** The parameters without which a link of a kind is refused. *)
Definition demanded (k : ProtocolKind) : list str :=
  match k with
  | Vless | Tuic => ["uuid" : str]
  | Trojan => ["password" : str]
  | Shadowsocks => ["method" : str; "password" : str]
  | _ => []
  end.

(** What every accepted link satisfies. *)
Definition link_result (k : ProtocolKind) (p : ServerProfile) : Prop :=
  sp_protocol p = k /\ port_ok (sp_port p) /\ sp_tags p = [] /\ sp_name p <> []
  /\ forall a : str, a ∈ demanded k -> is_Some (sp_params p !! a).

Definition link_sound (k : ProtocolKind) (r : res ParseError ServerProfile) : Prop :=
  no_panic r /\ forall p, r = Ok p -> link_result k p.

Lemma link_sound_err k e : link_sound k (Err e).
Proof. split; [discriminate|done]. Qed.

Lemma make_profile_sound (k : ProtocolKind) (h : str) (port : Z) (params : str_map) (f : option str) : port_ok port ->
  (forall a : str, a ∈ demanded k -> is_Some (params !! a)) ->
  link_sound k (Ok (make_profile k h port params f)).
Proof.
  intros Hp Ha. split; [discriminate|]. intros p [= <-]. split_and!; [done|done|done| |done].
  cbn. destruct f as [[|c f]|]; try done; by destruct h.
Qed.

Lemma uri_link_sound (k : ProtocolKind) (s : str) (f : Uri -> res ParseError ServerProfile) :
  (forall u, (forall p, port u = Some p -> port_ok p) -> link_sound k (f u)) -> link_sound k (uri_parse s ≫= f).
Proof.
  intros H. destruct (uri_parse_safe s) as [Hn Hp]. unfold no_panic in Hn. destruct (uri_parse s) as [u|e|] eqn:E; cbn.
  - apply H. intros q Hq. by eapply Hp.
  - apply link_sound_err.
  - done.
Qed.

Lemma insert_some (m : str_map) (a b v : str) : is_Some (m !! a) \/ a = b -> is_Some (<[b := v]> m !! a).
Proof. intros H. destruct (decide (a = b)) as [->|]; [rewrite lookup_insert_eq; eauto|]. rewrite lookup_insert_ne by done. by destruct H. Qed.

Lemma ss_fold_keeps (q : list str) (m : str_map) (a : str) : is_Some (m !! a) -> is_Some (fold_left ss_query_pair q m !! a).
Proof.
  revert m. induction q as [|w q IH]; intros m H; [done|]. cbn [fold_left]. apply IH. unfold ss_query_pair.
  destruct (split_once "="%char w) as [[k v]|]; case_decide; try done; apply insert_some; by left.
Qed.

Lemma ss_from_parts_safe c h : no_panic (ss_from_parts c h)
  /\ forall m pw ho p, ss_from_parts c h = Ok (m, pw, ho, p) -> port_ok p.
Proof.
  unfold ss_from_parts. destruct (split_once ":"%char c) as [[m pw]|]; cbn [ok_or mbind res_bind]; [|split; [discriminate|done]].
  destruct (split_host_port_safe (default h (head (split_char "/"%char h)))) as [Hn Hp]. unfold no_panic in Hn.
  destruct (split_host_port _) as [[ho [p|]]|e|]; cbn; (split; [discriminate + done|intros; simplify_eq; eauto]).
Qed.

Lemma parse_shadowsocks_sound s : link_sound Shadowsocks (parse_shadowsocks s).
Proof.
  assert (forall me pw ho p f q, port_ok p -> link_sound Shadowsocks
    (Ok (make_profile Shadowsocks ho p (fold_left ss_query_pair q (<["password" : str := pw]> (<["method" : str := me]> ∅))) f))) as Hmk.
  { intros me pw ho p f q Hp. apply make_profile_sound; [done|]. intros a Ha. apply ss_fold_keeps.
    apply elem_of_cons in Ha as [->| ->%list_elem_of_singleton]; repeat (apply insert_some; auto). }
  unfold parse_shadowsocks. destruct (find_str "://" s) as [i|]; cbn [ok_or mbind res_bind]; [|apply link_sound_err].
  destruct (match find_byte (is_char "#"%char) _ with Some _ => _ | None => _ end) as [bf frag].
  destruct (match find_byte (is_char "?"%char) _ with Some _ => _ | None => _ end) as [body q].
  match goal with |- link_sound _ (?m ≫= _) =>
    assert (no_panic m /\ forall me pw ho p, m = Ok (me, pw, ho, p) -> port_ok p) as [Hn Hp]; [|destruct m as [[[[me pw] ho] p]|e|]]
  end; [|by apply Hmk; eauto|apply link_sound_err|done].
  clear Hmk. destruct (rfind_byte _ _) as [j|].
  - split; [apply no_panic_bind; [apply decode_userinfo_no_panic|intros; apply ss_from_parts_safe]|].
    intros me pw ho p H'. apply ok_bind in H' as (c & _ & H'). by apply ss_from_parts_safe in H'.
  - split.
    + apply no_panic_bind; [apply decode_to_string_no_panic|]. intros d _. apply no_panic_bind; [auto with resdb|].
      intros. apply ss_from_parts_safe.
    + intros me pw ho p H'. apply ok_bind in H' as (d & _ & H'). apply ok_bind in H' as (c & _ & H').
      by apply ss_from_parts_safe in H'.
Qed.

Lemma proxy_sound s k : k = Socks5 \/ k = Http -> link_sound k (proxy_profile s k).
Proof.
  intros Hk. apply uri_link_sound. intros u Hu. destruct (port u) as [q|] eqn:Eq; cbn; [|apply link_sound_err].
  apply make_profile_sound; [eauto|]. intros a Ha. destruct Hk as [-> | ->]; by apply elem_of_nil in Ha.
Qed.

(** Every parser's result. *)
Lemma parser_sound k s : link_sound k (parser_of k s).
Proof.
  destruct k; cbn [parser_of]; [|apply parse_shadowsocks_sound| |apply link_sound_err|apply link_sound_err
    |apply proxy_sound; auto|apply proxy_sound; auto| |]; apply uri_link_sound; intros u Hu.
  - destruct (userinfo u) as [ui|]; cbn; [|apply link_sound_err].
    destruct (port u) as [q|] eqn:Eq; cbn; [|apply link_sound_err]. apply make_profile_sound; [eauto|].
    intros a ->%list_elem_of_singleton. apply insert_some. auto.
  - destruct (userinfo u) as [ui|]; cbn; [|apply link_sound_err].
    destruct (port u) as [q|] eqn:Eq; cbn; [|apply link_sound_err]. apply make_profile_sound; [eauto|].
    intros a ->%list_elem_of_singleton. apply insert_some. auto.
  - destruct (port u) as [q|] eqn:Eq; cbn; [|apply link_sound_err]. apply make_profile_sound; [eauto|].
    intros a Ha. by apply elem_of_nil in Ha.
  - destruct (userinfo u) as [ui|]; cbn; [|apply link_sound_err].
    destruct (port u) as [q|] eqn:Eq; cbn; [|apply link_sound_err]. apply make_profile_sound; [eauto|].
    intros a ->%list_elem_of_singleton. destruct (split_once _ ui) as [[x y]|]; repeat (apply insert_some; auto).
    left. apply insert_some. auto.
Qed.

Lemma parse_link_cases s :
  (exists e, parse_link s = Err e)
  \/ exists k, parse_link s = parser_of k (trim s).
Proof.
  unfold parse_link. destruct (is_empty (trim s)); [left; by eexists|].
  destruct (find_str "://" (trim s)) as [i|]; cbn [ok_or mbind res_bind]; [|left; by eexists].
  repeat case_decide; first [by left; eexists | right].
  - by exists Vless.
  - by exists Trojan.
  - by exists Shadowsocks.
  - by exists Socks5.
  - by exists Http.
  - by exists Hysteria2.
  - by exists Tuic.
Qed.

Lemma parse_link_no_panic s : no_panic (parse_link s).
Proof. destruct (parse_link_cases s) as [[e ->]|[k ->]]; [discriminate|apply parser_sound]. Qed.

(** A share link is its scheme, the separator, and something that ends with the name. *)
Lemma share_link_shape p :
  exists t, share_link p = link_scheme (sp_protocol p) ++ lit "://" ++ t ++ percent_encode (sp_name p).
Proof.
  assert (exists t, print_uri (link_uri p) = link_scheme (sp_protocol p) ++ lit "://" ++ t ++ percent_encode (sp_name p)) as Hu.
  { unfold print_uri. cbn [link_uri scheme userinfo host port query fragment].
    set (ui := match link_userinfo _ _ with Some _ => _ | None => _ end). set (q := match query_pairs _ _ with [] => _ | _ => _ end).
    exists (ui ++ print_hostport (sp_address p) (Some (sp_port p)) ++ q ++ lit "#"). by rewrite <- !app_assoc. }
  unfold share_link. destruct (sp_protocol p) eqn:E; try exact Hu. unfold ss_link.
  set (b := encode_standard _). set (q := join _ _).
  exists (b ++ lit "@" ++ print_hostport (sp_address p) (Some (sp_port p)) ++ lit "?" ++ q ++ lit "#").
  by rewrite <- !app_assoc.
Qed.

Lemma parse_share_link p : link_ok p -> parse_link (share_link p) = Ok p.
Proof.
  intros Hok. pose proof Hok as (_ & _ & Hn & _). destruct (share_link_shape p) as [t Et].
  rewrite Et, parse_link_dispatch, <- Et by done. unfold share_link.
  destruct (decide (sp_protocol p = Shadowsocks)) as [E|E].
  - rewrite E. by apply parse_ss_link.
  - pose proof (parse_uri_link p Hok E). by destruct (sp_protocol p).
Qed.

(** ** Properties *)

(** C35. The share link of a profile, of any of the seven kinds that have one, is
    parsed back to exactly that profile: the user information, the host in
    either form, the port, every parameter of the query and the name. On any
    input the parser does not panic, and a profile it returns has the kind of its
    parser, a port of 16 bits, a name, and the parameters that parser demands: a
    UUID for VLESS and TUIC, a password for Trojan, a method and a password for
    Shadowsocks, and none for Hysteria2, SOCKS5 and HTTP. That is less than an
    outbound needs: a TUIC link without a password and a Hysteria2 link without
    any are accepted ([incomplete_links_accepted] of [Outbound.v]). *)
Theorem share_link_roundtrip (p : ServerProfile) (s : str) (Hok : link_ok p) :
  parse_link (share_link p) = Ok p
  /\ no_panic (parse_link s)
  /\ (forall q, parse_link s = Ok q -> exists k, parse_link s = parser_of k (trim s) /\ link_result k q).
Proof.
  split; [by apply parse_share_link|]. split; [apply parse_link_no_panic|].
  intros q Hq. destruct (parse_link_cases s) as [[e He]|[k Hk]]; [congruence|]. exists k. split; [done|].
  rewrite Hk in Hq. by eapply parser_sound.
Qed.

Definition sample_tuic : ServerProfile :=
  {| sp_name := "Дом #1"; sp_protocol := Tuic; sp_address := "2001:db8::1"; sp_port := 8443;
     sp_params := list_to_map [(lit "uuid", lit "id"); (lit "password", lit "p:w"); (lit "sni", lit "a&b")]; sp_tags := [] |}.

Lemma share_link_roundtrip_witness :
  share_link sample_tuic = "tuic://id:p%3Aw@[2001:db8::1]:8443?sni=a%26b#%D0%94%D0%BE%D0%BC%20%231"
  /\ parse_link (share_link sample_tuic) = Ok sample_tuic.
Proof.
  split; [vm_compute; reflexivity|]. destruct (share_link_roundtrip sample_tuic []) as [H _]; [|exact H].
  unfold link_ok, host_ok, port_ok. cbn [sample_tuic sp_name sp_protocol sp_address sp_port sp_tags sp_params].
  split_and!; [done|..|by eexists]; try done.
  - apply (bool_decide_unpack _). vm_compute. exact I.
  - apply (bool_decide_unpack _). vm_compute. exact I.
Defined.
