(* ===== verification/Awg.v ===== *)
(** * WireGuard and AmneziaWG configuration files
    ([crates/core/src/parse/awg.rs]) *)

From S2P Require Import Prelude RustStr Model Uri.

Definition AMNEZIA_KEYS : list str :=
  ["jc" : str; "jmin" : str; "jmax" : str; "s1" : str; "s2" : str; "h1" : str; "h2" : str; "h3" : str; "h4" : str].

Definition normalize_key (raw : str) : str :=
  let lower := to_ascii_lowercase raw in
  if decide (lower = "privatekey") then "private_key"
  else if decide (lower = "publickey") then "public_key"
  else if decide (lower = "presharedkey") then "preshared_key"
  else if decide (lower = "allowedips") then "allowed_ips"
  else if decide (lower = "persistentkeepalive") then "persistent_keepalive"
  else lower.

Definition strip_comment (line : str) : str :=
  match find_byte (fun c => is_char "#"%char c || is_char ";"%char c) line with
  | Some i => take i line
  | None => line
  end.

(** One iteration of the loop over the lines; the state is [in_section] and [params]. *)
Definition awg_line (line : str) (st : bool * str_map) : res ParseError (bool * str_map) :=
  let '(in_section, params) := st in
  let line := trim (strip_comment line) in
  if is_empty line then Ok st
  else
    match (s ← strip_prefix "[" line; strip_suffix "]" s) with
    | Some section =>
        let name := to_ascii_lowercase (trim section) in
        Ok (bool_decide (name = "interface") || bool_decide (name = "peer"), params)
    | None =>
        if negb in_section then Ok st
        else
          '(key, value) ← ok_or (split_once "="%char line) (MissingField "key = value");
          let key := normalize_key (trim key) in
          let value := trim value in
          Ok (in_section, if is_empty value then params else <[key := value]> params)
    end.

Fixpoint awg_loop (ls : list str) (st : bool * str_map) : res ParseError (bool * str_map) :=
  match ls with
  | [] => Ok st
  | line :: rest => st' ← awg_line line st; awg_loop rest st'
  end.

(** What follows the loop. *)
Definition awg_profile (params : str_map) : res ParseError ServerProfile :=
  endpoint ← ok_or (params !! ("endpoint" : str)) MissingHost;
  '(address, port_opt) ← split_host_port endpoint;
  port ← ok_or port_opt MissingPort;
  let protocol := if existsb (fun k => bool_decide (is_Some (params !! k))) AMNEZIA_KEYS then AmneziaWg else Wireguard in
  Ok {| sp_name := address ++ ":" ++ show_uint port; sp_protocol := protocol; sp_address := address; sp_port := port;
        sp_params := params; sp_tags := [] |}.

Definition parse_awg_conf (input : str) : res ParseError ServerProfile :=
  if is_empty (trim input) then Err EmptyInput
  else
    st ← awg_loop (lines input) (false, ∅);
    awg_profile (snd st).

(** ** Specification: the text of a configuration *)

Inductive conf_item : Type :=
| Section_ (name : str)
| Pair (key value : str) (comment : option str)
| Note (comment : str)
| Blank.

Definition LF : u8 := to_u8 10.

Definition print_item (i : conf_item) : str :=
  match i with
  | Section_ name => lit "[" ++ name ++ lit "]"
  | Pair k v c => k ++ lit " = " ++ v ++ match c with Some c => lit " #" ++ c | None => [] end
  | Note c => lit "; " ++ c
  | Blank => []
  end.

Definition print_conf (items : list conf_item) : str := concat (map (fun l => l ++ [LF]) (map print_item items)).

(** Its meaning: the pairs of the sections [Interface] and [Peer], later ones
    overriding earlier ones. *)
Definition known_section (name : str) : bool :=
  bool_decide (to_ascii_lowercase name = "interface") || bool_decide (to_ascii_lowercase name = "peer").

Fixpoint conf_params (items : list conf_item) (inside : bool) (params : str_map) : str_map :=
  match items with
  | [] => params
  | Section_ name :: rest => conf_params rest (known_section name) params
  | Pair k v _ :: rest => conf_params rest inside (if inside then <[normalize_key k := v]> params else params)
  | _ :: rest => conf_params rest inside params
  end.

Definition line_ok (s : str) : Prop := LF ∉ s /\ ends_cr s = false.

(** Keys and values are trimmed and hold no comment sign; a key holds no equals
    sign and does not look like a section. *)
Definition no_comment (s : str) : Prop := "#"%char ∉ s /\ ";"%char ∉ s.

Definition item_ok (i : conf_item) : Prop :=
  line_ok (print_item i)
  /\ match i with
     | Section_ name => trimmed name /\ no_comment name
     | Pair k v c => trimmed k /\ no_comment k /\ "="%char ∉ k /\ "["%char ∉ k /\ trimmed v /\ no_comment v
     | Note _ | Blank => True
     end.

(** ** Lemmas *)

Lemma strip_comment_none s t : no_comment s -> (t = [] \/ exists c u, t = c :: u /\ (c = "#"%char \/ c = ";"%char)) ->
  strip_comment (s ++ t) = s.
Proof.
  intros [H1 H2] Ht. unfold strip_comment. set (f := fun c => is_char "#"%char c || is_char ";"%char c).
  assert (Forall (fun d => f d = false) s) as Hf.
  { apply Forall_forall. intros d Hd. unfold f. rewrite !(proj2 (is_char_false _ _)); [done|congruence..]. }
  destruct Ht as [->|(c & u & -> & Hc)].
  - rewrite app_nil_r. by rewrite (proj2 (find_byte_None f s)).
  - rewrite (find_byte_app f s c u); [by rewrite take_app_length|done|]. unfold f. apply orb_true_iff.
    destruct Hc as [-> | ->]; [left|right]; by apply is_char_true.
Qed.

Lemma trimmed_nonempty s : trimmed s -> is_empty s = false.
Proof. by intros [(c & t & -> & _) _]. Qed.

Lemma no_comment_app a b : no_comment a -> no_comment b -> no_comment (a ++ b).
Proof. intros [??] [??]. split; rewrite not_elem_of_app; auto. Qed.

Lemma no_comment_lit s : forallb (fun c => negb (is_char "#"%char c || is_char ";"%char c)) s = true -> no_comment s.
Proof.
  intros H. rewrite forallb_forall in H. split; intros Hin%list_elem_of_In; apply H in Hin; done.
Qed.

Lemma pair_line k v c st : item_ok (Pair k v c) ->
  awg_line (print_item (Pair k v c)) st = Ok (fst st, if fst st then <[normalize_key k := v]> (snd st) else snd st).
Proof.
  intros (_ & Tk & Nk & Ek & Bk & Tv & Nv). destruct st as [inside params]. unfold awg_line. cbn [print_item fst snd].
  assert (trim (strip_comment (k ++ lit " = " ++ v ++ match c with Some c => lit " #" ++ c | None => [] end))
          = k ++ lit " = " ++ v) as ->.
  { destruct c as [c|].
    - replace (k ++ lit " = " ++ v ++ lit " #" ++ c) with ((k ++ lit " = " ++ v ++ lit " ") ++ "#"%char :: c).
      2: { by rewrite <- !app_assoc. }
      rewrite strip_comment_none; [|repeat apply no_comment_app; auto; by apply no_comment_lit|eauto 6].
      replace (k ++ lit " = " ++ v ++ lit " ") with ((k ++ lit " = " ++ v) ++ lit " ") by by rewrite <- !app_assoc.
      by apply trim_space_r, trimmed_app.
    - rewrite app_nil_r. rewrite <- (app_nil_r (k ++ lit " = " ++ v)) at 1.
      rewrite strip_comment_none; [|repeat apply no_comment_app; auto; by apply no_comment_lit|by left].
      by apply trim_trimmed, trimmed_app. }
  rewrite trimmed_nonempty by by apply trimmed_app.
  assert ((s ← strip_prefix "[" (k ++ lit " = " ++ v); strip_suffix "]" s) = None) as ->.
  { destruct (strip_prefix "[" _) eqn:E; [|done]. exfalso. apply strip_prefix_Some in E.
    destruct Tk as [(x & t & -> & _) _]. cbn in E. injection E as -> _. apply Bk. by left. }
  destruct inside; [|done]. cbn [negb].
  replace (k ++ lit " = " ++ v) with ((k ++ lit " ") ++ "="%char :: " "%char :: v) by by rewrite <- app_assoc.
  rewrite split_once_app by (rewrite not_elem_of_app; split; [done|by intros ?%list_elem_of_singleton]).
  cbn [ok_or mbind res_bind]. rewrite trim_space_r, trim_space_l by done. by rewrite trimmed_nonempty.
Qed.

Lemma section_line name st : item_ok (Section_ name) ->
  awg_line (print_item (Section_ name)) st = Ok (known_section name, snd st).
Proof.
  intros (_ & Tn & Nn). destruct st as [inside params]. unfold awg_line. cbn [print_item fst snd].
  assert (trim (strip_comment (lit "[" ++ name ++ lit "]")) = lit "[" ++ name ++ lit "]") as ->.
  { rewrite <- (app_nil_r (lit "[" ++ name ++ lit "]")) at 1.
    rewrite strip_comment_none; [|repeat apply no_comment_app; auto; by apply no_comment_lit|by left].
    apply trim_graphic; [by exists "["%char, (name ++ lit "]")|]. exists "]"%char, (lit "[" ++ name).
    split; [by rewrite <- app_assoc|done]. }
  change (is_empty (lit "[" ++ name ++ lit "]")) with false. cbv iota.
  assert (strip_prefix "[" (lit "[" ++ name ++ lit "]") = Some (name ++ lit "]")) as -> by by apply strip_prefix_Some.
  cbn [mbind option_bind]. assert (strip_suffix "]" (name ++ lit "]") = Some name) as -> by by apply strip_suffix_Some.
  by rewrite trim_trimmed.
Qed.

Lemma note_line c st : awg_line (print_item (Note c)) st = Ok st.
Proof.
  destruct st as [inside params]. unfold awg_line. cbn [print_item].
  assert (strip_comment (lit "; " ++ c) = []) as -> by by apply (strip_comment_none [] (lit "; " ++ c)); [split; apply not_elem_of_nil|right; exists ";"%char, (lit " " ++ c); auto].
  done.
Qed.

Lemma awg_loop_items items : Forall item_ok items -> forall inside params,
  exists i, awg_loop (map print_item items) (inside, params) = Ok (i, conf_params items inside params).
Proof.
  induction 1 as [|it items Hi _ IH]; intros inside params; [by exists inside|]. cbn [map awg_loop conf_params].
  destruct it as [name|k v c|c|].
  - rewrite section_line by done. cbn [mbind res_bind snd]. apply IH.
  - rewrite pair_line by done. cbn [mbind res_bind fst snd]. destruct inside; apply IH.
  - rewrite note_line. cbn [mbind res_bind]. apply IH.
  - cbn [print_item]. destruct (awg_line [] (inside, params)) eqn:E; cbn in E; simplify_eq. cbn [mbind res_bind]. apply IH.
Qed.

Lemma lines_print items : Forall item_ok items -> lines (print_conf items) = map print_item items.
Proof.
  intros H. unfold print_conf. apply lines_terminated; apply Forall_map; eapply Forall_impl; try exact H; intros i [[? ?] _]; done.
Qed.

Lemma awg_no_panic s : no_panic (parse_awg_conf s).
Proof.
  assert (forall l st, no_panic (awg_line l st)) as H1.
  { intros l [inside params]. unfold awg_line. repeat case_match; auto with resdb; apply no_panic_bind; auto with resdb;
      intros [? ?] _; discriminate. }
  assert (forall ls st, no_panic (awg_loop ls st)) as H2.
  { induction ls as [|l ls IH]; intros st; [discriminate|]. cbn [awg_loop]. by apply no_panic_bind. }
  unfold parse_awg_conf. destruct (is_empty _); [discriminate|]. apply no_panic_bind; [done|]. intros st _.
  unfold awg_profile. apply no_panic_bind; [auto with resdb|]. intros e _.
  apply no_panic_bind; [apply split_host_port_safe|]. intros [a o] _. apply no_panic_bind; [auto with resdb|discriminate].
Qed.

(** ** Properties *)

(** A configuration is read with the meaning of its items: comments and blank
    lines are skipped, keys are normalised, only the pairs of the sections
    [Interface] and [Peer] count, the last one of a key wins; the protocol is
    AmneziaWG exactly when an obfuscation key is there, and the address and the
    port are those of the endpoint. The parser panics on no input. *)
Theorem awg_reads_back (items : list conf_item) (s : str)
    (Hok : Forall item_ok items) (Hne : is_empty (trim (print_conf items)) = false) :
  parse_awg_conf (print_conf items) = awg_profile (conf_params items false ∅)
  /\ (forall h p (m : str_map), host_ok h -> port_ok p -> m !! ("endpoint" : str) = Some (print_hostport h (Some p)) ->
        awg_profile m = Ok {| sp_name := h ++ ":" ++ show_uint p;
          sp_protocol := if existsb (fun k => bool_decide (is_Some (m !! k))) AMNEZIA_KEYS then AmneziaWg else Wireguard;
          sp_address := h; sp_port := p; sp_params := m; sp_tags := [] |})
  /\ (forall m : str_map, m !! ("endpoint" : str) = None -> awg_profile m = Err MissingHost)
  /\ no_panic (parse_awg_conf s).
Proof.
  split_and!.
  - unfold parse_awg_conf. rewrite Hne, lines_print by done. destruct (awg_loop_items items Hok false ∅) as [i ->]. done.
  - intros h p m Hh Hp He. unfold awg_profile. rewrite He. cbn [ok_or mbind res_bind].
    rewrite split_print_hostport; [done|done|by intros q [= <-]].
  - intros m He. unfold awg_profile. by rewrite He.
  - apply awg_no_panic.
Qed.

Definition sample_conf : list conf_item :=
  [Note "exported"; Section_ "Interface"; Pair "PrivateKey" "a2V5" None; Pair "Jc" "4" (Some (lit "junk"));
   Blank; Section_ "Other"; Pair "Jmin" "9" None; Section_ "Peer"; Pair "Endpoint" "[2001:db8::1]:51820" None].

Lemma awg_reads_back_witness :
  parse_awg_conf (print_conf sample_conf) =
    Ok {| sp_name := "2001:db8::1:51820"; sp_protocol := AmneziaWg; sp_address := "2001:db8::1"; sp_port := 51820;
          sp_params := list_to_map [(lit "private_key", lit "a2V5"); (lit "jc", lit "4");
                                    (lit "endpoint", lit "[2001:db8::1]:51820")]; sp_tags := [] |}.
Proof.
  destruct (awg_reads_back sample_conf []) as [H _]; [|vm_compute; reflexivity|].
  - repeat constructor; try (apply (bool_decide_unpack _); vm_compute; exact I); try (vm_compute; reflexivity);
      try (apply all_graphic_trimmed; [done|by repeat constructor]).
  - etransitivity; [exact H|]. vm_compute. reflexivity.
Defined.
