(* ===== verification/F64.v ===== *)
(** * Decimal text to binary64

    [str::parse::<f64>] of the Rust library rounds the decimal number that the
    text denotes to the nearest binary64, ties to even; the rounding is that of
    the Standard Library's executable model of IEEE 754, [SpecFloat]. Only the
    texts made of digits, points, signs and exponent letters are modelled: the
    JSON parser passes no other (so neither [inf] nor [nan]). *)

From Stdlib Require Import SpecFloat.
From S2P Require Import Prelude RustStr.

Definition f64 : Type := spec_float.

Definition prec64 : Z := 53.
Definition emax64 : Z := 1024.

(** The binary64 nearest to [(-1)^neg * m * 10^e]. *)
Definition f64_of_decimal (neg : bool) (m e : Z) : f64 :=
  match m with
  | Zpos p =>
      if 0 <=? e then
        match m * 10 ^ e with
        | Zpos q => binary_round prec64 emax64 neg q 0
        | _ => S754_zero neg
        end
      else
        match 10 ^ (- e) with
        | Zpos d =>
            let '(q, e', l) := SFdiv_core_binary prec64 emax64 (Zpos p) 0 (Zpos d) 0 in
            binary_round_aux prec64 emax64 neg q e' l
        | _ => S754_zero neg
        end
  | _ => S754_zero neg
  end.

(** ** Reading the text (code points) *)

Definition digit_cp (c : Z) : option Z := if (48 <=? c) && (c <=? 57) then Some (c - 48) else None.

(** A run of digits: its value on top of [acc], how many, and what follows. *)
Fixpoint digits (acc : Z) (n : nat) (cs : list Z) : Z * nat * list Z :=
  match cs with
  | c :: rest => match digit_cp c with Some d => digits (acc * 10 + d) (S n) rest | None => (acc, n, cs) end
  | [] => (acc, n, [])
  end.

Definition sign (cs : list Z) : bool * list Z :=
  match cs with
  | 45 :: rest => (true, rest)
  | 43 :: rest => (false, rest)
  | _ => (false, cs)
  end.

(** The exponent part: [None] when what is left is no exponent. *)
Definition exponent (cs : list Z) : option Z :=
  match cs with
  | [] => Some 0
  | c :: rest =>
      if (c =? 101) || (c =? 69) then
        let '(neg, rest) := sign rest in
        let '(e, n, rest) := digits 0 0 rest in
        match n, rest with
        | S _, [] => Some (if neg then - e else e)
        | _, _ => None
        end
      else None
  end.

(** Sign, digits, point, digits, exponent; at least one digit before the exponent. *)
Definition parse_decimal (cs : list Z) : option (bool * Z * Z) :=
  let '(neg, cs) := sign cs in
  let '(m, n1, cs) := digits 0 0 cs in
  let '(m, n2, cs) := match cs with 46 :: rest => digits m 0 rest | _ => (m, O, cs) end in
  if (n1 + n2 =? 0)%nat then None
  else e ← exponent cs; Some (neg, m, e - Z.of_nat n2).

Definition parse_f64 (cs : list Z) : option f64 := '(neg, m, e) ← parse_decimal cs; Some (f64_of_decimal neg m e).

(** [n >= 0.0 && n.fract() == 0.0] and then [n as u64], which saturates. *)
Definition f64_whole (x : f64) : option Z :=
  match x with
  | S754_zero _ => Some 0
  | S754_finite false m e =>
      if 0 <=? e then Some (Z.min (Zpos m * 2 ^ e) (2 ^ 64 - 1))
      else if Zpos m mod 2 ^ (- e) =? 0 then Some (Z.min (Zpos m / 2 ^ (- e)) (2 ^ 64 - 1)) else None
  | _ => None
  end.

(** ** Lemmas: integers of up to 53 bits are exact *)

Lemma iter_xO d m : Zpos (Pos.iter xO m d) = Zpos m * 2 ^ Zpos d.
Proof.
  revert m. induction d as [|d IH] using Pos.peano_ind; intros m; [cbn; lia|].
  rewrite Pos.iter_succ, Pos2Z.inj_xO, IH, Pos2Z.inj_succ, Z.pow_succ_r by lia. lia.
Qed.

Lemma digits2_log2 m : Zpos (digits2_pos m) = Z.log2 (Zpos m) + 1.
Proof.
  induction m as [m IH|m IH|]; [| |done]; cbn [digits2_pos]; rewrite Pos2Z.inj_succ, IH.
  - rewrite Pos2Z.inj_xI, Z.log2_succ_double by lia. lia.
  - rewrite Pos2Z.inj_xO, Z.log2_double by lia. lia.
Qed.

Lemma fexp_53 e : -1021 <= e -> fexp prec64 emax64 e = e - 53.
Proof. intros H. unfold fexp, SpecFloat.emin, prec64, emax64. lia. Qed.

(** A mantissa of exactly 53 bits is not touched by the rounding. *)
Lemma round_aux_full q e : Z.log2 (Zpos q) = 52 -> -1074 <= e <= 971 ->
  binary_round_aux prec64 emax64 false (Zpos q) e loc_Exact = S754_finite false q e.
Proof.
  intros Hq He. unfold binary_round_aux.
  assert (forall e', e' = e -> shr_fexp prec64 emax64 (Zpos q) e' loc_Exact = ({| shr_m := Zpos q; shr_r := false; shr_s := false |}, e)) as Hs.
  { intros e' ->. unfold shr_fexp. cbn [Zdigits2]. rewrite digits2_log2, Hq, fexp_53 by lia.
    replace (52 + 1 + e - 53 - e) with 0 by lia. done. }
  rewrite (Hs e eq_refl). cbn [loc_of_shr_record shr_m shr_r shr_s round_nearest_even].
  rewrite (Hs e eq_refl). cbn [shr_m].
  assert (e <=? emax64 - prec64 = true) as -> by (unfold emax64, prec64; lia). done.
Qed.

Lemma round_small p : Zpos p < 2 ^ 53 ->
  let k := 52 - Z.log2 (Zpos p) in
  0 <= k /\ exists q, Zpos q = Zpos p * 2 ^ k /\ binary_round prec64 emax64 false p 0 = S754_finite false q (- k).
Proof.
  intros Hp k. assert (0 <= Z.log2 (Zpos p) <= 52) as Hl.
  { split; [apply Z.log2_nonneg|]. apply Z.lt_succ_r. by apply Z.log2_lt_pow2. }
  split; [lia|]. unfold binary_round. rewrite digits2_log2, fexp_53 by lia.
  replace (Z.log2 (Zpos p) + 1 + 0 - 53) with (- k) by lia. unfold shl_align. rewrite Z.sub_0_r.
  destruct k as [|d|d] eqn:Ek; [| |lia]; cbn [Z.opp].
  - exists p. split; [lia|]. apply round_aux_full; lia.
  - exists (Pos.iter xO p d). rewrite iter_xO. split; [done|].
    apply (round_aux_full (Pos.iter xO p d) (Zneg d)); [|lia].
    rewrite iter_xO, Z.log2_mul_pow2 by lia. lia.
Qed.

(** The decimal text of an integer of up to 53 bits denotes that integer. *)
Lemma f64_whole_int m : 0 <= m < 2 ^ 53 -> f64_whole (f64_of_decimal false m 0) = Some m.
Proof.
  intros Hm. destruct m as [|p|p]; [done| |lia]. unfold f64_of_decimal.
  change (0 <=? 0) with true. cbv iota. rewrite Z.mul_1_r. cbv iota.
  destruct (round_small p) as (Hk & q & Hq & ->); [lia|]. set (k := 52 - Z.log2 (Zpos p)) in *.
  unfold f64_whole. rewrite Z.opp_involutive.
  assert (Zpos p <= 2 ^ 64 - 1) as Hmax by lia.
  pose proof (Z.pow_pos_nonneg 2 k ltac:(lia) Hk) as Hpos. destruct (0 <=? - k) eqn:E.
  - assert (k = 0) as -> by lia. rewrite Hq. f_equal. change (2 ^ (- 0)) with 1. change (2 ^ 0) with 1. lia.
  - rewrite Hq, Z_mod_mult. change (0 =? 0) with true. cbv iota. rewrite Z.div_mul by lia. f_equal. lia.
Qed.

Lemma digits_show : forall fuel z acc n k, 0 <= z -> (Z.to_nat (Z.log2 z) < fuel)%nat ->
  exists d, (0 < d)%nat /\ digits acc n (map val8 (show_fuel fuel z) ++ k) = digits (acc * 10 ^ Z.of_nat d + z) (n + d) k.
Proof.
  induction fuel as [|f IH]; intros z acc n k Hz Hf; [lia|]. cbn [show_fuel].
  assert (forall d a m, 0 <= d < 10 -> digits a m (val8 (digit_char d) :: k) = digits (a * 10 + d) (S m) k) as Hone.
  { intros d a m Hd. destruct (is_digit_char d Hd) as [_ Hv]. cbn [digits]. unfold digit_cp. rewrite Hv.
    assert ((48 <=? 48 + d) && (48 + d <=? 57) = true) as -> by lia. do 2 f_equal. lia. }
  destruct (z <? 10) eqn:E.
  - exists 1%nat. split; [lia|]. cbn [map app]. rewrite Hone by lia. change (10 ^ Z.of_nat 1) with 10. f_equal. lia.
  - destruct (IH (z / 10) acc n (map val8 [digit_char (z mod 10)] ++ k)) as (d & Hd & Hdig); [dlia| |].
    { assert (Z.log2 (z / 10) < Z.log2 z); [|pose proof (Z.log2_nonneg (z / 10)); lia].
      apply Z.log2_lt_pow2; [dlia|]. pose proof (Z.log2_spec z ltac:(lia)) as [_ Hs]. rewrite Z.pow_succ_r in Hs by apply Z.log2_nonneg.
      dlia. }
    exists (S d). split; [lia|]. rewrite map_app, <- app_assoc, Hdig. cbn [map app]. rewrite Hone by dlia.
    rewrite Nat2Z.inj_succ, Z.pow_succ_r by lia. f_equal; [|lia]. dlia.
Qed.

Lemma show_uint_cps z : 0 <= z -> exists c cs, map val8 (show_uint z) = c :: cs /\ 48 <= c <= 57.
Proof.
  intros Hz. pose proof (show_uint_nonempty z) as Hne. pose proof (show_uint_digits z) as Hd.
  destruct (show_uint z) as [|c cs]; [done|]. exists (val8 c), (map val8 cs). split; [done|].
  specialize (Hd c Hz ltac:(by left)). unfold is_digit in Hd. lia.
Qed.

(** The decimal text of an integer of up to 53 bits is read as that integer. *)
Lemma parse_f64_uint z : 0 <= z < 2 ^ 53 ->
  exists x, parse_f64 (map val8 (show_uint z)) = Some x /\ f64_whole x = Some z.
Proof.
  intros Hz. exists (f64_of_decimal false z 0). split; [|by apply f64_whole_int].
  unfold parse_f64, parse_decimal. destruct (show_uint_cps z ltac:(lia)) as (c & cs & E & Hc).
  assert (sign (map val8 (show_uint z)) = (false, map val8 (show_uint z))) as ->.
  { rewrite E. unfold sign. repeat case_match; try done; lia. }
  destruct (digits_show (S (Z.to_nat (Z.log2 z))) z 0 0 [] ltac:(lia) ltac:(lia)) as (d & Hd & Hdig).
  rewrite app_nil_r in Hdig. unfold show_uint in *. rewrite Hdig. cbn [digits].
  assert ((0 + d + 0 =? 0)%nat = false) as -> by (apply Nat.eqb_neq; lia). cbn [exponent mbind option_bind].
  do 2 f_equal; lia.
Qed.
