(* ===== verification/Json.v ===== *)
(** * The JSON parser ([crates/core/src/json.rs])

    The parser's [chars] and [i] are the characters not yet read: [peek] is the
    head, [bump] the head and the tail. A character is its code point, a
    [String] its UTF-8 bytes. The recursion takes fuel; twice the length of the
    input is enough for any input, so running out of it is a panic that
    [json_grammar] excludes. *)

From Stdlib Require Import SpecFloat.
From S2P Require Import Prelude RustStr Utf8 Model F64.

Inductive JsonValue : Type :=
| Null
| Bool (b : bool)
| Number (n : f64)
| String (s : str)
| Array (a : list JsonValue)
| Object (o : list (str * JsonValue)).

Definition json_err : ParseError := JsonError "некорректный JSON".

(** ** Accessors *)

Definition get (v : JsonValue) (key : str) : option JsonValue :=
  match v with
  | Object o => assoc o key
  | _ => None
  end.

Definition as_str (v : JsonValue) : option str := match v with String s => Some s | _ => None end.
Definition as_bool (v : JsonValue) : option bool := match v with Bool b => Some b | _ => None end.
Definition as_f64 (v : JsonValue) : option f64 := match v with Number n => Some n | _ => None end.
Definition as_array (v : JsonValue) : option (list JsonValue) := match v with Array a => Some a | _ => None end.
Definition as_object (v : JsonValue) : option (list (str * JsonValue)) := match v with Object o => Some o | _ => None end.

Definition as_u64 (v : JsonValue) : option Z := match v with Number n => f64_whole n | _ => None end.

(** [u16::try_from(n).ok()], or the text of a port. *)
Definition as_u16_port (v : JsonValue) : option Z :=
  match as_u64 v with
  | Some n => if n <=? 65535 then Some n else None
  | None => s ← as_str v; parse_u16 s
  end.

(** ** The parser *)

Definition is_ws (c : Z) : bool := (c =? 32) || (c =? 9) || (c =? 10) || (c =? 13).

Fixpoint ws (cs : list Z) : list Z :=
  match cs with
  | c :: rest => if is_ws c then ws rest else cs
  | [] => []
  end.

(** [self.peek() == Some(c)], and what follows. *)
Definition eat (c : Z) (cs : list Z) : option (list Z) :=
  match cs with
  | x :: rest => if x =? c then Some rest else None
  | [] => None
  end.

Fixpoint literal (word : list Z) (val : JsonValue) (cs : list Z) : res ParseError (JsonValue * list Z) :=
  match word with
  | [] => Ok (val, cs)
  | expected :: word' =>
      match cs with
      | c :: rest => if c =? expected then literal word' val rest else Err json_err
      | [] => Err json_err
      end
  end.

Definition is_digit_cp (c : Z) : bool := (48 <=? c) && (c <=? 57).

Definition number_char (c : Z) : bool :=
  is_digit_cp c || (c =? 46) || (c =? 101) || (c =? 69) || (c =? 43) || (c =? 45).

(** The characters the loop of [number] passes, and what is left. *)
Fixpoint span (f : Z -> bool) (cs : list Z) : list Z * list Z :=
  match cs with
  | c :: rest => if f c then let '(a, b) := span f rest in (c :: a, b) else ([], cs)
  | [] => ([], [])
  end.

Definition number (cs : list Z) : res ParseError (JsonValue * list Z) :=
  let '(minus, rest) := match eat 45 cs with Some rest => ([45], rest) | None => ([], cs) end in
  let '(body, rest) := span number_char rest in
  n ← ok_or (parse_f64 (minus ++ body)) json_err;
  Ok (Number n, rest).

(** [c.to_digit(16)] *)
Definition to_digit16 (c : Z) : option Z :=
  if between 48 57 c then Some (c - 48)
  else if between 97 102 c then Some (c - 87)
  else if between 65 70 c then Some (c - 55)
  else None.

Fixpoint hex_loop (n : nat) (v : Z) (cs : list Z) : res ParseError (Z * list Z) :=
  match n with
  | O => Ok (v, cs)
  | S n' =>
      match cs with
      | c :: rest => d ← ok_or (to_digit16 c) json_err; hex_loop n' (v * 16 + d) rest
      | [] => Err json_err
      end
  end.

Definition hex4 : list Z -> res ParseError (Z * list Z) := hex_loop 4 0.

(** [char::from_u32(cp)] *)
Definition from_u32 (cp : Z) : option Z := if is_scalar cp then Some cp else None.

Definition unicode_escape (cs : list Z) : res ParseError (Z * list Z) :=
  '(cp, cs) ← hex4 cs;
  if between 55296 56319 cp then
    match eat 92 cs ≫= eat 117 with
    | Some cs =>
        '(lo, cs) ← hex4 cs;
        if negb (between 56320 57343 lo) then Err json_err
        else c ← ok_or (from_u32 (65536 + Z.shiftl (cp - 55296) 10 + (lo - 56320))) json_err; Ok (c, cs)
    | None => Err json_err
    end
  else Ok (default 65533 (from_u32 cp), cs).

(** What a one-character escape stands for. *)
Definition short_escape (c : Z) : option Z :=
  if (c =? 34) || (c =? 92) || (c =? 47) then Some c
  else if c =? 110 then Some 10
  else if c =? 116 then Some 9
  else if c =? 114 then Some 13
  else if c =? 98 then Some 8
  else if c =? 102 then Some 12
  else None.

(** The loop of [string]: [out] and what is left. *)
Fixpoint string_loop (fuel : nat) (out : str) (cs : list Z) : res ParseError (str * list Z) :=
  match fuel with
  | O => Panic
  | S f =>
      match cs with
      | [] => Err json_err
      | c :: cs =>
          if c =? 34 then Ok (out, cs)
          else if c =? 92 then
            match cs with
            | [] => Err json_err
            | e :: cs =>
                if e =? 117 then '(ch, cs) ← unicode_escape cs; string_loop f (out ++ encode_char ch) cs
                else ch ← ok_or (short_escape e) json_err; string_loop f (out ++ encode_char ch) cs
            end
          else string_loop f (out ++ encode_char c) cs
      end
  end.

(** The opening quote is skipped. *)
Definition string_ (cs : list Z) : res ParseError (str * list Z) := string_loop (S (length cs)) [] (drop 1 cs).

Fixpoint value (fuel : nat) (cs : list Z) : res ParseError (JsonValue * list Z) :=
  match fuel with
  | O => Panic
  | S f =>
      let cs := ws cs in
      match cs with
      | [] => Err json_err
      | c :: rest =>
          if c =? 123 then (* object *)
            match eat 125 (ws rest) with
            | Some rest => Ok (Object [], rest)
            | None => object_loop f [] (ws rest)
            end
          else if c =? 91 then (* array *)
            match eat 93 (ws rest) with
            | Some rest => Ok (Array [], rest)
            | None => array_loop f [] (ws rest)
            end
          else if c =? 34 then '(s, cs) ← string_ cs; Ok (String s, cs)
          else if c =? 116 then literal [116; 114; 117; 101] (Bool true) cs
          else if c =? 102 then literal [102; 97; 108; 115; 101] (Bool false) cs
          else if c =? 110 then literal [110; 117; 108; 108] Null cs
          else if (c =? 45) || is_digit_cp c then number cs
          else Err json_err
      end
  end
with array_loop (fuel : nat) (items : list JsonValue) (cs : list Z) : res ParseError (JsonValue * list Z) :=
  match fuel with
  | O => Panic
  | S f =>
      '(v, cs) ← value f cs;
      let items := items ++ [v] in
      match ws cs with
      | [] => Err json_err
      | c :: cs =>
          if c =? 44 then array_loop f items cs
          else if c =? 93 then Ok (Array items, cs)
          else Err json_err
      end
  end
with object_loop (fuel : nat) (items : list (str * JsonValue)) (cs : list Z) : res ParseError (JsonValue * list Z) :=
  match fuel with
  | O => Panic
  | S f =>
      match eat 34 (ws cs) with
      | Some _ =>
          '(key, cs) ← string_ (ws cs);
          match eat 58 (ws cs) with
          | Some cs =>
              '(val, cs) ← value f cs;
              let items := items ++ [(key, val)] in
              match ws cs with
              | [] => Err json_err
              | c :: cs =>
                  if c =? 44 then object_loop f items cs
                  else if c =? 125 then Ok (Object items, cs)
                  else Err json_err
              end
          | None => Err json_err
          end
      | None => Err json_err
      end
  end.

(** [JsonValue::parse] *)
Definition json_parse (input : str) : res ParseError JsonValue :=
  let cs := chars input in
  '(v, rest) ← value (2 * length cs + 2) cs;
  match ws rest with
  | [] => Ok v
  | _ => Err json_err
  end.

(** ** Specification: the grammar

    [json_text v t]: the characters [t], without white space around them, denote
    [v]. Numbers are any run of number characters that [parse_f64] reads, and
    strings may hold control characters: on both the parser is more liberal
    than RFC 8259. *)

Definition blank (w : list Z) : Prop := Forall (fun c => is_ws c = true) w.

(** Four hexadecimal digits and their value. *)
Definition hex_text (t : list Z) (v : Z) : Prop :=
  exists a b c d, exists x y z w, t = [a; b; c; d]
    /\ to_digit16 a = Some x /\ to_digit16 b = Some y /\ to_digit16 c = Some z /\ to_digit16 d = Some w
    /\ v = ((x * 16 + y) * 16 + z) * 16 + w.

(** One item of a string: its characters and the code point it stands for. *)
Inductive char_text : Z -> list Z -> Prop :=
| CT_plain c : c <> 34 -> c <> 92 -> char_text c [c]
| CT_short e c : e <> 117 -> short_escape e = Some c -> char_text c [92; e]
| CT_unicode t cp : hex_text t cp -> between 55296 56319 cp = false ->
    char_text (default 65533 (from_u32 cp)) (92 :: 117 :: t)
| CT_pair t u hi lo : hex_text t hi -> hex_text u lo -> between 55296 56319 hi = true -> between 56320 57343 lo = true ->
    char_text (65536 + (hi - 55296) * 1024 + (lo - 56320)) (92 :: 117 :: t ++ 92 :: 117 :: u).

Inductive string_text : str -> list Z -> Prop :=
| ST_nil : string_text [] []
| ST_cons c t s u : char_text c t -> string_text s u -> string_text (encode_char c ++ s) (t ++ u).

(** A lone minus sign is skipped before the run, so a number may start with it. *)
Definition number_text (n : f64) (t : list Z) : Prop :=
  parse_f64 t = Some n /\ Forall (fun c => number_char c = true) t
  /\ exists c u, t = c :: u /\ ((c =? 45) || is_digit_cp c) = true.

Definition is_number (v : JsonValue) : bool := match v with Number _ => true | _ => false end.

Inductive json_text : JsonValue -> list Z -> Prop :=
| JT_null : json_text Null [110; 117; 108; 108]
| JT_true : json_text (Bool true) [116; 114; 117; 101]
| JT_false : json_text (Bool false) [102; 97; 108; 115; 101]
| JT_number n t : number_text n t -> json_text (Number n) t
| JT_string s t : string_text s t -> json_text (String s) (34 :: t ++ [34])
| JT_empty_array w : blank w -> json_text (Array []) (91 :: w ++ [93])
| JT_array vs t : elements_text vs t -> json_text (Array vs) (91 :: t)
| JT_empty_object w : blank w -> json_text (Object []) (123 :: w ++ [125])
| JT_object es t : members_text es t -> json_text (Object es) (123 :: t)
with elements_text : list JsonValue -> list Z -> Prop :=
| ET_last v w1 t w2 : blank w1 -> blank w2 -> json_text v t -> elements_text [v] (w1 ++ t ++ w2 ++ [93])
| ET_more v vs w1 t w2 u : blank w1 -> blank w2 -> json_text v t -> elements_text vs u ->
    elements_text (v :: vs) (w1 ++ t ++ w2 ++ 44 :: u)
with members_text : list (str * JsonValue) -> list Z -> Prop :=
| MT_last k v w1 t w2 w3 u w4 : blank w1 -> blank w2 -> blank w3 -> blank w4 -> string_text k t -> json_text v u ->
    members_text [(k, v)] (w1 ++ (34 :: t ++ [34]) ++ w2 ++ 58 :: w3 ++ u ++ w4 ++ [125])
| MT_more k v es w1 t w2 w3 u w4 r : blank w1 -> blank w2 -> blank w3 -> blank w4 -> string_text k t -> json_text v u ->
    members_text es r ->
    members_text ((k, v) :: es) (w1 ++ (34 :: t ++ [34]) ++ w2 ++ 58 :: w3 ++ u ++ w4 ++ 44 :: r).

Scheme json_text_mut := Induction for json_text Sort Prop
with elements_text_mut := Induction for elements_text Sort Prop
with members_text_mut := Induction for members_text Sort Prop.
Combined Scheme json_text_ind3 from json_text_mut, elements_text_mut, members_text_mut.

(** ** Lemmas: soundness of the parser *)

Lemma ws_split cs : exists w, cs = w ++ ws cs /\ blank w.
Proof.
  induction cs as [|c cs (w & E & Hw)]; [by exists []; split; [|constructor]|]. cbn [ws]. destruct (is_ws c) eqn:Ec.
  - exists (c :: w). split; [cbn; by f_equal|by constructor].
  - exists []. by split; [|constructor].
Qed.

Lemma ws_length cs : (length (ws cs) <= length cs)%nat.
Proof. induction cs as [|c cs IH]; [done|]. cbn [ws]. destruct (is_ws c); cbn [length]; lia. Qed.

Lemma ws_blank w cs : blank w -> ws (w ++ cs) = ws cs.
Proof. induction 1 as [|c w Hc _ IH]; [done|]. cbn. by rewrite Hc. Qed.

Lemma ws_stop c cs : is_ws c = false -> ws (c :: cs) = c :: cs.
Proof. intros H. cbn. by rewrite H. Qed.

Lemma literal_sound word v cs r rest : literal word v cs = Ok (r, rest) -> r = v /\ cs = word ++ rest.
Proof.
  revert cs. induction word as [|x word IH]; intros cs H; cbn [literal] in H; [by simplify_eq|].
  destruct cs as [|c cs]; [done|]. destruct (c =? x) eqn:E; [|done]. apply Z.eqb_eq in E as ->.
  apply IH in H as [-> ->]. done.
Qed.

Lemma span_spec f cs a b : span f cs = (a, b) -> cs = a ++ b /\ Forall (fun c => f c = true) a
  /\ forall c r, b = c :: r -> f c = false.
Proof.
  revert a b. induction cs as [|c cs IH]; intros a b H; cbn [span] in H; [by simplify_eq|].
  destruct (f c) eqn:E; [|simplify_eq; split_and!; [done|constructor|by intros ?? [= <- _]]].
  destruct (span f cs) as [x y]. simplify_eq. destruct (IH x b eq_refl) as (-> & Hx & Hb).
  split_and!; [done|by constructor|done].
Qed.

Lemma eat_Some c cs rest : eat c cs = Some rest <-> cs = c :: rest.
Proof.
  destruct cs as [|x cs]; cbn; [done|]. destruct (x =? c) eqn:E; [apply Z.eqb_eq in E as ->|apply Z.eqb_neq in E]; split; intros; congruence.
Qed.

Lemma eat_cons c cs : eat c (c :: cs) = Some cs.
Proof. by apply eat_Some. Qed.

Lemma eat_ne c x cs : x <> c -> eat c (x :: cs) = None.
Proof. intros H. cbn. by rewrite (proj2 (Z.eqb_neq _ _)). Qed.

Lemma eat2_Some c d cs rest : eat c cs ≫= eat d = Some rest -> cs = c :: d :: rest.
Proof.
  destruct (eat c cs) as [r|] eqn:E; cbn; [|done]. apply eat_Some in E as ->. by intros ->%eat_Some.
Qed.

Lemma hex_step n v cs r : hex_loop (S n) v cs = Ok r ->
  exists c d cs', cs = c :: cs' /\ to_digit16 c = Some d /\ hex_loop n (v * 16 + d) cs' = Ok r.
Proof.
  cbn [hex_loop]. destruct cs as [|c cs]; [done|]. destruct (to_digit16 c) as [d|] eqn:E; [|done].
  intros H. by exists c, d, cs.
Qed.

Lemma hex4_sound cs v rest : hex4 cs = Ok (v, rest) -> exists t, cs = t ++ rest /\ hex_text t v.
Proof.
  unfold hex4. intros H. apply hex_step in H as (a & x & c1 & -> & Ha & H). apply hex_step in H as (b & y & c2 & -> & Hb & H).
  apply hex_step in H as (c & z & c3 & -> & Hc & H). apply hex_step in H as (d & w & c4 & -> & Hd & H).
  cbn [hex_loop] in H. simplify_eq. exists [a; b; c; d]. split; [done|]. exists a, b, c, d, x, y, z, w. split_and!; done.
Qed.

Lemma hex_text_range t v : hex_text t v -> 0 <= v < 65536.
Proof.
  intros (a & b & c & d & x & y & z & w & _ & Ha & Hb & Hc & Hd & ->).
  assert (forall c x, to_digit16 c = Some x -> 0 <= x < 16) as H.
  { intros e u. unfold to_digit16. destruct (between 48 57 e) eqn:E1; [apply between_true in E1; intros; simplify_eq; lia|].
    destruct (between 97 102 e) eqn:E2; [apply between_true in E2; intros; simplify_eq; lia|].
    destruct (between 65 70 e) eqn:E3; [apply between_true in E3; intros; simplify_eq; lia|done]. }
  apply H in Ha, Hb, Hc, Hd. lia.
Qed.

Lemma pair_scalar hi lo : between 55296 56319 hi = true -> between 56320 57343 lo = true ->
  from_u32 (65536 + (hi - 55296) * 1024 + (lo - 56320)) = Some (65536 + (hi - 55296) * 1024 + (lo - 56320)).
Proof.
  intros H1%between_true H2%between_true. unfold from_u32, is_scalar.
  rewrite (proj2 (between_true 57344 1114111 _)) by lia. by rewrite orb_true_r.
Qed.

Lemma unicode_escape_sound cs ch rest : unicode_escape cs = Ok (ch, rest) ->
  exists t, 92 :: 117 :: cs = t ++ rest /\ char_text ch t.
Proof.
  unfold unicode_escape. intros H. apply ok_bind in H as ([hi c1] & H1 & H). apply hex4_sound in H1 as (t & -> & Ht).
  destruct (between 55296 56319 hi) eqn:Ehi.
  - destruct (eat 92 c1 ≫= eat 117) as [c2|] eqn:E; [|done]. apply eat2_Some in E as ->.
    apply ok_bind in H as ([lo c3] & H2 & H). apply hex4_sound in H2 as (u & -> & Hu).
    destruct (between 56320 57343 lo) eqn:Elo; [|done]. cbn [negb] in H.
    rewrite Z.shiftl_mul_pow2, pair_scalar in H by done. cbn in H. simplify_eq.
    exists (92 :: 117 :: t ++ 92 :: 117 :: u). split; [cbn [app]; by rewrite <- app_assoc|by constructor].
  - simplify_eq. exists (92 :: 117 :: t). split; [done|by constructor].
Qed.

Lemma string_loop_sound fuel : forall out cs s rest, string_loop fuel out cs = Ok (s, rest) ->
  exists s' t, s = out ++ s' /\ cs = t ++ 34 :: rest /\ string_text s' t.
Proof.
  induction fuel as [|f IH]; intros out cs s rest H; [done|]. cbn [string_loop] in H. destruct cs as [|c cs]; [done|].
  destruct (c =? 34) eqn:E1; [apply Z.eqb_eq in E1 as ->; simplify_eq; exists [], []; rewrite app_nil_r; split_and!; [done..|constructor]|].
  assert (forall ch t cs', char_text ch t -> string_loop f (out ++ encode_char ch) cs' = Ok (s, rest) ->
    exists s' u, s = out ++ s' /\ t ++ cs' = u ++ 34 :: rest /\ string_text s' u) as Hgo.
  { intros ch t cs' Ht Hl. apply IH in Hl as (s' & u & -> & -> & Hu). exists (encode_char ch ++ s'), (t ++ u).
    split_and!; [by rewrite app_assoc|by rewrite app_assoc|by constructor]. }
  destruct (c =? 92) eqn:E2.
  - apply Z.eqb_eq in E2 as ->. destruct cs as [|e cs]; [done|]. destruct (e =? 117) eqn:E3.
    + apply Z.eqb_eq in E3 as ->. apply ok_bind in H as ([ch c1] & H1 & H).
      apply unicode_escape_sound in H1 as (t & Et & Ht). rewrite Et. by eapply Hgo.
    + destruct (short_escape e) as [ch|] eqn:Es; [|done]. cbn in H. apply (Hgo ch [92; e]); [|done].
      constructor; [lia|done].
  - apply (Hgo c [c]); [|done]. constructor; lia.
Qed.

Lemma string_sound cs s rest : string_ (34 :: cs) = Ok (s, rest) -> exists t, cs = t ++ 34 :: rest /\ string_text s t.
Proof.
  unfold string_. change (drop 1 (34 :: cs)) with cs. intros H. apply string_loop_sound in H as (s' & t & -> & -> & Ht). by exists t.
Qed.

Lemma number_sound c cs v rest : ((c =? 45) || is_digit_cp c) = true -> number (c :: cs) = Ok (v, rest) ->
  exists n t, v = Number n /\ c :: cs = t ++ rest /\ number_text n t /\ (forall x r, rest = x :: r -> number_char x = false).
Proof.
  intros Hc H. unfold number in H. destruct (decide (c = 45)) as [->|Hne].
  - rewrite eat_cons in H. destruct (span number_char cs) as [a b] eqn:E. apply span_spec in E as (-> & Ha & Hb).
    destruct (parse_f64 ([45] ++ a)) as [n|] eqn:En; [|done]. cbn in H. simplify_eq. exists n, (45 :: a).
    split_and!; [done|done| |done]. split_and!; [done|by constructor|by exists 45, a].
  - rewrite eat_ne in H by done. destruct (span number_char (c :: cs)) as [a b] eqn:E. apply span_spec in E as (Ec & Ha & Hb).
    destruct (parse_f64 ([] ++ a)) as [n|] eqn:En; [|done]. cbn in H. simplify_eq. exists n, a.
    split_and!; [done|done| |done]. split_and!; [done|done|]. destruct a as [|x a]; [|cbn in Ec; injection Ec as <- _; by exists c, a].
    exfalso. cbn in Ec. symmetry in Ec. specialize (Hb c cs Ec). unfold number_char in Hb.
    apply orb_true_iff in Hc as [Hc|Hc]; [lia|]. by rewrite Hc in Hb.
Qed.

Lemma elements_blank w vs t : blank w -> elements_text vs t -> elements_text vs (w ++ t).
Proof.
  intros Hw H. destruct H as [v w1 t w2 H1 H2 Hv|v vs w1 t w2 u H1 H2 Hv Hu]; rewrite app_assoc.
  - constructor; [by apply Forall_app|done|done].
  - constructor; [by apply Forall_app|done..].
Qed.

Lemma members_blank w es t : blank w -> members_text es t -> members_text es (w ++ t).
Proof. intros Hw H. destruct H; rewrite app_assoc; constructor; try done; by apply Forall_app. Qed.

(** What each of the three functions accepts. *)
Definition accepts_value (r : res ParseError (JsonValue * list Z)) (cs : list Z) : Prop :=
  forall v rest, r = Ok (v, rest) -> exists w t, cs = w ++ t ++ rest /\ blank w /\ json_text v t.

Definition accepts_elements (items : list JsonValue) (r : res ParseError (JsonValue * list Z)) (cs : list Z) : Prop :=
  forall v rest, r = Ok (v, rest) -> exists vs t, v = Array (items ++ vs) /\ cs = t ++ rest /\ elements_text vs t.

Definition accepts_members (items : list (str * JsonValue)) (r : res ParseError (JsonValue * list Z)) (cs : list Z) : Prop :=
  forall v rest, r = Ok (v, rest) -> exists es t, v = Object (items ++ es) /\ cs = t ++ rest /\ members_text es t.

Lemma value_step f cs :
  (forall cs, accepts_elements [] (array_loop f [] cs) cs) -> (forall cs, accepts_members [] (object_loop f [] cs) cs) ->
  accepts_value (value (S f) cs) cs.
Proof.
  intros IHa IHo v rest H. cbn [value] in H. destruct (ws_split cs) as (w & Ecs & Hw). exists w. rewrite Ecs. clear Ecs.
  destruct (ws cs) as [|c cs']; [done|].
  assert (forall t, c :: cs' = t ++ rest -> json_text v t -> exists t, w ++ c :: cs' = w ++ t ++ rest /\ blank w /\ json_text v t) as Hgo.
  { intros t -> Ht. by exists t. }
  destruct (ws_split cs') as (w1 & E1 & Hw1).
  repeat match type of H with (if ?b then _ else _) = _ => destruct b eqn:? end; try done;
    repeat match goal with E : (c =? _) = true |- _ => apply Z.eqb_eq in E; subst c end.
  - destruct (eat 125 (ws cs')) as [r|] eqn:E2.
    + apply eat_Some in E2. simplify_eq. rewrite E2 in E1. apply (Hgo (123 :: w1 ++ [125])); [|by constructor].
      rewrite E1. cbn. by rewrite <- app_assoc.
    + apply IHo in H as (es & t & -> & E3 & Ht). rewrite E3 in E1. apply (Hgo (123 :: w1 ++ t)).
      * rewrite E1. cbn. by rewrite <- app_assoc.
      * constructor. by apply members_blank.
  - destruct (eat 93 (ws cs')) as [r|] eqn:E2.
    + apply eat_Some in E2. simplify_eq. rewrite E2 in E1. apply (Hgo (91 :: w1 ++ [93])); [|by constructor].
      rewrite E1. cbn. by rewrite <- app_assoc.
    + apply IHa in H as (vs & t & -> & E3 & Ht). rewrite E3 in E1. apply (Hgo (91 :: w1 ++ t)).
      * rewrite E1. cbn. by rewrite <- app_assoc.
      * constructor. by apply elements_blank.
  - apply ok_bind in H as ([s r] & Hs & H). simplify_eq. apply string_sound in Hs as (t & -> & Ht).
    apply (Hgo (34 :: t ++ [34])); [cbn; by rewrite <- app_assoc|by constructor].
  - apply literal_sound in H as [-> E]. eapply Hgo; [exact E|constructor].
  - apply literal_sound in H as [-> E]. eapply Hgo; [exact E|constructor].
  - apply literal_sound in H as [-> E]. eapply Hgo; [exact E|constructor].
  - apply number_sound in H as (n & t & -> & E & Ht & _); [|done]. eapply Hgo; [exact E|by constructor].
Qed.

Lemma array_step f items cs :
  (forall cs, accepts_value (value f cs) cs) -> (forall items cs, accepts_elements items (array_loop f items cs) cs) ->
  accepts_elements items (array_loop (S f) items cs) cs.
Proof.
  intros IHv IHa v rest H. cbn [array_loop] in H. apply ok_bind in H as ([x c1] & H1 & H).
  apply IHv in H1 as (w1 & t & -> & Hw1 & Ht). destruct (ws_split c1) as (w2 & E & Hw2). destruct (ws c1) as [|c c2]; [done|].
  destruct (c =? 44) eqn:E1; [|destruct (c =? 93) eqn:E2; [|done]].
  - apply Z.eqb_eq in E1 as ->. apply IHa in H as (vs & u & -> & -> & Hu). exists (x :: vs), (w1 ++ t ++ w2 ++ 44 :: u).
    split_and!; [by rewrite <- app_assoc|rewrite E; by repeat (rewrite <- !app_assoc; cbn [app])|by constructor].
  - apply Z.eqb_eq in E2 as ->. simplify_eq. exists [x], (w1 ++ t ++ w2 ++ [93]).
    split_and!; [done|by repeat (rewrite <- !app_assoc; cbn [app])|by constructor].
Qed.

Lemma object_step f items cs :
  (forall cs, accepts_value (value f cs) cs) -> (forall items cs, accepts_members items (object_loop f items cs) cs) ->
  accepts_members items (object_loop (S f) items cs) cs.
Proof.
  intros IHv IHo v rest H. cbn [object_loop] in H. destruct (ws_split cs) as (w1 & -> & Hw1).
  destruct (eat 34 (ws cs)) as [q|] eqn:Eq; [|done]. apply eat_Some in Eq. rewrite Eq in H |- *.
  apply ok_bind in H as ([key c1] & H1 & H). apply string_sound in H1 as (t & -> & Ht).
  destruct (ws_split c1) as (w2 & -> & Hw2). destruct (eat 58 (ws c1)) as [c2|] eqn:Ec; [|done]. apply eat_Some in Ec. rewrite Ec.
  apply ok_bind in H as ([x c3] & H2 & H). apply IHv in H2 as (w3 & u & -> & Hw3 & Hu).
  destruct (ws_split c3) as (w4 & -> & Hw4). destruct (ws c3) as [|c c4]; [done|].
  destruct (c =? 44) eqn:E1; [|destruct (c =? 125) eqn:E2; [|done]].
  - apply Z.eqb_eq in E1 as ->. apply IHo in H as (es & r & -> & -> & Hr).
    exists ((key, x) :: es), (w1 ++ (34 :: t ++ [34]) ++ w2 ++ 58 :: w3 ++ u ++ w4 ++ 44 :: r).
    split_and!; [by rewrite <- app_assoc| |by constructor]. repeat (rewrite <- !app_assoc; cbn [app]). done.
  - apply Z.eqb_eq in E2 as ->. simplify_eq. exists [(key, x)], (w1 ++ (34 :: t ++ [34]) ++ w2 ++ 58 :: w3 ++ u ++ w4 ++ [125]).
    split_and!; [done| |by constructor]. repeat (rewrite <- !app_assoc; cbn [app]). done.
Qed.

Lemma value_sound fuel :
  (forall cs, accepts_value (value fuel cs) cs)
  /\ (forall items cs, accepts_elements items (array_loop fuel items cs) cs)
  /\ (forall items cs, accepts_members items (object_loop fuel items cs) cs).
Proof.
  induction fuel as [|f (IHv & IHa & IHo)]; [done|]. split_and!; intros.
  - by apply value_step.
  - by apply array_step.
  - by apply object_step.
Qed.

(** ** Lemmas: completeness of the parser *)

Definition stops (f : Z -> bool) (k : list Z) : Prop := forall c r, k = c :: r -> f c = false.

Lemma span_app f a k : Forall (fun c => f c = true) a -> stops f k -> span f (a ++ k) = (a, k).
Proof.
  intros Ha Hk. induction Ha as [|c a Hc _ IH]; cbn.
  - destruct k as [|c k]; [done|]. cbn. by rewrite (Hk c k eq_refl).
  - by rewrite Hc, IH.
Qed.

Lemma number_complete n t k : number_text n t -> stops number_char k -> number (t ++ k) = Ok (Number n, k).
Proof.
  intros (Hn & Hf & c & u & -> & Hc) Hk. unfold number. cbn [app]. destruct (decide (c = 45)) as [->|Hne].
  - rewrite eat_cons. rewrite span_app by first [done|by apply Forall_cons in Hf as [_ ?]]. cbn [app]. by rewrite Hn.
  - rewrite eat_ne by done. change (c :: u ++ k) with ((c :: u) ++ k). rewrite span_app by done. cbn [app]. by rewrite Hn.
Qed.

Lemma hex4_complete t v k : hex_text t v -> hex4 (t ++ k) = Ok (v, k).
Proof.
  intros (a & b & c & d & x & y & z & w & -> & Ha & Hb & Hc & Hd & ->). unfold hex4. cbn [hex_loop app].
  rewrite Ha. cbn [ok_or mbind res_bind]. rewrite Hb. cbn [ok_or mbind res_bind]. rewrite Hc. cbn [ok_or mbind res_bind].
  rewrite Hd. cbn [ok_or mbind res_bind]. done.
Qed.

Lemma unicode_escape_complete ch t k : char_text ch (92 :: 117 :: t) -> unicode_escape (t ++ k) = Ok (ch, k).
Proof.
  intros H. inversion H as [| |? cp Ht Hs|t1 u hi lo Ht Hu Hhi Hlo]; subst; unfold unicode_escape.
  - done.
  - rewrite (hex4_complete _ _ _ Ht). cbn [mbind res_bind]. by rewrite Hs.
  - rewrite <- app_assoc, (hex4_complete _ _ _ Ht). cbn [mbind res_bind]. rewrite Hhi. cbn [app].
    rewrite eat_cons. cbn [mbind option_bind]. rewrite eat_cons.
    rewrite (hex4_complete _ _ _ Hu). cbn [mbind res_bind]. rewrite Hlo. cbn [negb].
    by rewrite Z.shiftl_mul_pow2, pair_scalar.
Qed.

Lemma string_loop_complete s t : string_text s t -> forall fuel out k, (length t < fuel)%nat ->
  string_loop fuel out (t ++ 34 :: k) = Ok (out ++ s, k).
Proof.
  induction 1 as [|c t s u Hc _ IH]; intros fuel out k Hf; (destruct fuel as [|f]; [cbn in Hf; lia|]).
  { cbn. by rewrite app_nil_r. }
  rewrite length_app in Hf. rewrite <- app_assoc.
  assert (forall t', char_text c (92 :: 117 :: t') -> (length t' + length u < f)%nat ->
    string_loop (S f) out ((92 :: 117 :: t') ++ u ++ 34 :: k) = Ok (out ++ encode_char c ++ s, k)) as Hu.
  { intros t' Hc' Hl. cbn [app string_loop].
    change (92 =? 34) with false. change (92 =? 92) with true. change (117 =? 117) with true. cbv iota.
    rewrite (unicode_escape_complete c t' (u ++ 34 :: k) Hc'). cbn [mbind res_bind]. rewrite IH by lia. by rewrite <- app_assoc. }
  pose proof Hc as Hc'. inversion Hc as [c' H34 H92|e c' He Hs|t1 cp Ht Hs|t1 u1 hi lo Ht Hu1 Hhi Hlo]; subst.
  - cbn [length] in Hf. cbn [app string_loop]. rewrite !(proj2 (Z.eqb_neq _ _)) by done. rewrite IH by lia. by rewrite <- app_assoc.
  - cbn [length] in Hf. cbn [app string_loop].
    change (92 =? 34) with false. change (92 =? 92) with true. cbv iota.
    rewrite (proj2 (Z.eqb_neq _ _)) by done. rewrite Hs. cbn [ok_or mbind res_bind]. rewrite IH by lia. by rewrite <- app_assoc.
  - apply Hu; [done|]. cbn [length] in Hf. lia.
  - apply Hu; [done|]. cbn [length] in Hf. lia.
Qed.

Lemma string_complete s t k : string_text s t -> string_ (34 :: t ++ 34 :: k) = Ok (s, k).
Proof.
  intros H. unfold string_. change (drop 1 (34 :: t ++ 34 :: k)) with (t ++ 34 :: k).
  rewrite (string_loop_complete s t H); [done|]. cbn [length]. rewrite length_app. lia.
Qed.

Lemma ws_ws cs : ws (ws cs) = ws cs.
Proof. induction cs as [|c cs IH]; [done|]. cbn [ws]. destruct (is_ws c) eqn:E; [done|]. by apply ws_stop. Qed.

Lemma value_ws f cs : value f (ws cs) = value f cs.
Proof. destruct f; [done|]. cbn [value]. by rewrite ws_ws. Qed.

Lemma array_loop_ws f items cs : array_loop f items (ws cs) = array_loop f items cs.
Proof. destruct f; [done|]. cbn [array_loop]. by rewrite value_ws. Qed.

Lemma object_loop_ws f items cs : object_loop f items (ws cs) = object_loop f items cs.
Proof. destruct f; [done|]. cbn [object_loop]. by rewrite ws_ws. Qed.

(** The first character of a text. *)
Lemma json_text_head v t : json_text v t -> exists c u, t = c :: u /\ is_ws c = false /\ c <> 93.
Proof.
  intros H. inversion H; subst; try (eexists _, _; split; [reflexivity|done]).
  match goal with Hn : number_text _ _ |- _ => destruct Hn as (_ & _ & c & u & -> & Hc) end.
  exists c, u. split; [done|]. unfold is_ws, is_digit_cp in *. lia.
Qed.

Lemma elements_not_end vs t k : elements_text vs t -> eat 93 (ws (t ++ k)) = None.
Proof.
  assert (forall v w1 t k, blank w1 -> json_text v t -> eat 93 (ws (w1 ++ t ++ k)) = None) as Hgo.
  { intros v w1 u r Hw Hv. rewrite ws_blank by done. destruct (json_text_head v u Hv) as (c & x & -> & Hc & Hn).
    cbn [app]. rewrite ws_stop by done. by apply eat_ne. }
  intros H. destruct H as [v w1 t w2 H1 H2 Hv|v vs w1 t w2 u H1 H2 Hv Hu]; rewrite <- !app_assoc; by eapply Hgo.
Qed.

Lemma members_not_end es t k : members_text es t -> eat 125 (ws (t ++ k)) = None.
Proof. intros H. destruct H; rewrite <- !app_assoc, ws_blank by done; cbn [app]; rewrite ws_stop by done; by apply eat_ne. Qed.

Definition number_stops (v : JsonValue) (k : list Z) : Prop := is_number v = true -> stops number_char k.

Definition value_reads (v : JsonValue) (t : list Z) : Prop :=
  forall fuel w k, (2 * length t + 1 <= fuel)%nat -> blank w -> number_stops v k -> value fuel (w ++ t ++ k) = Ok (v, k).

Definition elements_reads (vs : list JsonValue) (t : list Z) : Prop :=
  forall fuel items k, (2 * length t + 2 <= fuel)%nat -> array_loop fuel items (t ++ k) = Ok (Array (items ++ vs), k).

Definition members_reads (es : list (str * JsonValue)) (t : list Z) : Prop :=
  forall fuel items k, (2 * length t + 2 <= fuel)%nat -> object_loop fuel items (t ++ k) = Ok (Object (items ++ es), k).

Lemma blank_stops w k : blank w -> stops number_char k -> stops number_char (w ++ k).
Proof.
  intros Hw Hk. destruct Hw as [|c w Hc _]; [done|]. intros x r [= <- _]. unfold is_ws in Hc. unfold number_char, is_digit_cp. lia.
Qed.

Lemma cons_stops c k : number_char c = false -> stops number_char (c :: k).
Proof. by intros H x r [= <- _]. Qed.

(** The members' text up to the value, read by one round of the loop. *)
Lemma member_round f items key v w1 t w2 w3 u w4 c r :
  blank w1 -> blank w2 -> blank w3 -> blank w4 -> is_ws c = false -> number_char c = false -> string_text key t -> value_reads v u ->
  (2 * length u + 1 <= f)%nat ->
  object_loop (S f) items (w1 ++ (34 :: t ++ [34]) ++ w2 ++ 58 :: w3 ++ u ++ w4 ++ c :: r)
  = if c =? 44 then object_loop f (items ++ [(key, v)]) r
    else if c =? 125 then Ok (Object (items ++ [(key, v)]), r) else Err json_err.
Proof.
  intros H1 H2 H3 H4 Hc Hn Ht Hv Hf. cbn [object_loop]. rewrite ws_blank by done.
  replace ((34 :: t ++ [34]) ++ w2 ++ 58 :: w3 ++ u ++ w4 ++ c :: r) with (34 :: t ++ 34 :: w2 ++ 58 :: w3 ++ u ++ w4 ++ c :: r)
    by (cbn [app]; by rewrite <- app_assoc).
  rewrite ws_stop by done. rewrite eat_cons, (string_complete _ _ _ Ht). cbn [mbind res_bind].
  rewrite ws_blank, ws_stop, eat_cons by done. rewrite (Hv f w3 (w4 ++ c :: r)); [|done|done|].
  - cbn [mbind res_bind]. by rewrite ws_blank, ws_stop by done.
  - intros _. by apply blank_stops, cons_stops.
Qed.

Lemma element_round f items v w1 t w2 c r :
  blank w1 -> blank w2 -> is_ws c = false -> number_char c = false -> value_reads v t -> (2 * length t + 1 <= f)%nat ->
  array_loop (S f) items (w1 ++ t ++ w2 ++ c :: r)
  = if c =? 44 then array_loop f (items ++ [v]) r
    else if c =? 93 then Ok (Array (items ++ [v]), r) else Err json_err.
Proof.
  intros H1 H2 Hc Hn Hv Hf. cbn [array_loop]. rewrite (Hv f w1 (w2 ++ c :: r)); [|done|done|].
  - cbn [mbind res_bind]. by rewrite ws_blank, ws_stop by done.
  - intros _. by apply blank_stops, cons_stops.
Qed.

Lemma value_complete :
  (forall v t, json_text v t -> value_reads v t)
  /\ (forall vs t, elements_text vs t -> elements_reads vs t)
  /\ (forall es t, members_text es t -> members_reads es t).
Proof.
  apply json_text_ind3.
  1-3: intros fuel w k Hf Hw _; (destruct fuel as [|f]; [cbn in Hf; lia|]); cbn [value]; rewrite ws_blank by done; done.
  - intros n t Hn fuel w k Hf Hw Hk. destruct fuel as [|f]; [cbn in Hf; lia|]. cbn [value]. rewrite ws_blank by done.
    pose proof (number_complete n t k Hn (Hk eq_refl)) as Hnum. destruct Hn as (_ & _ & c & u & -> & Hc). cbn [app] in *.
    rewrite ws_stop by (unfold is_ws, is_digit_cp in *; lia).
    rewrite !(proj2 (Z.eqb_neq c _)) by (unfold is_digit_cp in Hc; lia). by rewrite Hc.
  - intros s t Ht fuel w k Hf Hw _. destruct fuel as [|f]; [cbn in Hf; lia|]. cbn [value]. rewrite ws_blank by done.
    replace ((34 :: t ++ [34]) ++ k) with (34 :: t ++ 34 :: k) by (cbn [app]; by rewrite <- app_assoc).
    rewrite ws_stop by done. change (34 =? 123) with false. change (34 =? 91) with false. change (34 =? 34) with true. cbv iota.
    by rewrite (string_complete _ _ _ Ht).
  - intros w0 Hw0 fuel w k Hf Hw _. destruct fuel as [|f]; [cbn in Hf; lia|]. cbn [value]. rewrite ws_blank by done.
    cbn [app]. rewrite ws_stop by done. cbv beta iota. change (91 =? 123) with false. change (91 =? 91) with true. cbv iota.
    rewrite <- app_assoc, ws_blank by done. done.
  - intros vs t Ht IH fuel w k Hf Hw _. destruct fuel as [|f]; [cbn in Hf; lia|]. cbn [value]. rewrite ws_blank by done.
    cbn [app]. rewrite ws_stop by done. change (91 =? 123) with false. change (91 =? 91) with true. cbv iota.
    rewrite (elements_not_end vs) by done. rewrite array_loop_ws. cbn [length] in Hf. apply (IH f [] k). lia.
  - intros w0 Hw0 fuel w k Hf Hw _. destruct fuel as [|f]; [cbn in Hf; lia|]. cbn [value]. rewrite ws_blank by done.
    cbn [app]. rewrite ws_stop by done. change (123 =? 123) with true. cbv iota.
    rewrite <- app_assoc, ws_blank by done. done.
  - intros es t Ht IH fuel w k Hf Hw _. destruct fuel as [|f]; [cbn in Hf; lia|]. cbn [value]. rewrite ws_blank by done.
    cbn [app]. rewrite ws_stop by done. change (123 =? 123) with true. cbv iota.
    rewrite (members_not_end es) by done. rewrite object_loop_ws. cbn [length] in Hf. apply (IH f [] k). lia.
  - intros v w1 t w2 H1 H2 _ IH fuel items k Hf. rewrite !length_app in Hf. destruct fuel as [|f]; [lia|].
    rewrite <- !app_assoc. cbn [app]. by rewrite (element_round f items v w1 t w2 93 k) by first [done|lia].
  - intros v vs w1 t w2 u H1 H2 _ IH _ IHu fuel items k Hf. rewrite !length_app in Hf. cbn [length] in Hf.
    destruct fuel as [|f]; [lia|]. rewrite <- !app_assoc. cbn [app].
    rewrite (element_round f items v w1 t w2 44 (u ++ k)) by first [done|lia]. change (44 =? 44) with true. cbv iota.
    rewrite (IHu f (items ++ [v]) k) by lia. by rewrite <- app_assoc.
  - intros key v w1 t w2 w3 u w4 H1 H2 H3 H4 Ht _ IH fuel items k Hf. repeat (rewrite !length_app in Hf; cbn [length] in Hf).
    destruct fuel as [|f]; [lia|].
    replace ((w1 ++ (34 :: t ++ [34]) ++ w2 ++ 58 :: w3 ++ u ++ w4 ++ [125]) ++ k)
      with (w1 ++ (34 :: t ++ [34]) ++ w2 ++ 58 :: w3 ++ u ++ w4 ++ 125 :: k) by by repeat (rewrite <- !app_assoc; cbn [app]).
    by rewrite (member_round f items key v w1 t w2 w3 u w4 125 k) by first [done|lia].
  - intros key v es w1 t w2 w3 u w4 r H1 H2 H3 H4 Ht _ IH _ IHr fuel items k Hf.
    repeat (rewrite !length_app in Hf; cbn [length] in Hf). destruct fuel as [|f]; [lia|].
    replace ((w1 ++ (34 :: t ++ [34]) ++ w2 ++ 58 :: w3 ++ u ++ w4 ++ 44 :: r) ++ k)
      with (w1 ++ (34 :: t ++ [34]) ++ w2 ++ 58 :: w3 ++ u ++ w4 ++ 44 :: r ++ k) by by repeat (rewrite <- !app_assoc; cbn [app]).
    rewrite (member_round f items key v w1 t w2 w3 u w4 44 (r ++ k)) by first [done|lia]. change (44 =? 44) with true. cbv iota.
    rewrite (IHr f (items ++ [(key, v)]) k) by lia. by rewrite <- app_assoc.
Qed.

(** ** Lemmas: the fuel is enough *)

Lemma literal_no_panic word v cs : no_panic (literal word v cs).
Proof. revert cs. induction word as [|x word IH]; intros [|c cs]; cbn; try discriminate. destruct (c =? x); [apply IH|discriminate]. Qed.

Lemma hex_no_panic n v cs : no_panic (hex_loop n v cs).
Proof.
  revert v cs. induction n as [|n IH]; intros v [|c cs]; cbn; try discriminate. apply no_panic_bind; [auto with resdb|]. intros; apply IH.
Qed.

Lemma unicode_escape_no_panic cs : no_panic (unicode_escape cs).
Proof.
  unfold unicode_escape. apply no_panic_bind; [apply hex_no_panic|]. intros [cp c1] _.
  destruct (between _ _ cp); [|discriminate]. destruct (eat 92 c1 ≫= eat 117) as [c2|]; [|discriminate].
  apply no_panic_bind; [apply hex_no_panic|]. intros [lo c3] _. destruct (negb _); [discriminate|].
  apply no_panic_bind; [auto with resdb|discriminate].
Qed.

Lemma string_loop_no_panic fuel : forall out cs, (length cs < fuel)%nat -> no_panic (string_loop fuel out cs).
Proof.
  induction fuel as [|f IH]; intros out cs Hf; [lia|]. cbn [string_loop]. destruct cs as [|c cs]; [discriminate|]. cbn [length] in Hf.
  destruct (c =? 34); [discriminate|]. destruct (c =? 92); [|apply IH; lia]. destruct cs as [|e cs]; [discriminate|]. cbn [length] in Hf.
  destruct (e =? 117).
  - apply no_panic_bind; [apply unicode_escape_no_panic|]. intros [ch c1] (t & Et & Ht)%unicode_escape_sound. apply IH.
    assert (2 <= length t)%nat.
    { destruct t as [|a [|b t]]; [by inversion Ht| |cbn; lia]. cbn in Et. injection Et as <- _. by inversion Ht. }
    apply (f_equal length) in Et. rewrite length_app in Et. cbn [length] in Et. lia.
  - apply no_panic_bind; [auto with resdb|]. intros ch _. apply IH. lia.
Qed.

Lemma string_no_panic cs : no_panic (string_ cs).
Proof. apply string_loop_no_panic. rewrite length_drop. lia. Qed.

Lemma number_no_panic cs : no_panic (number cs).
Proof.
  unfold number. destruct (match eat 45 cs with Some _ => _ | None => _ end) as [m r]. destruct (span number_char r) as [a b].
  apply no_panic_bind; [auto with resdb|discriminate].
Qed.

Lemma value_shrinks f cs v rest : value f cs = Ok (v, rest) -> (length rest < length cs)%nat.
Proof.
  intros H. apply (proj1 (value_sound f)) in H as (w & t & -> & _ & Ht). destruct (json_text_head _ _ Ht) as (c & u & -> & _).
  rewrite !length_app. cbn. lia.
Qed.

Lemma string_shrinks cs s rest : string_ (34 :: cs) = Ok (s, rest) -> (length rest < length cs)%nat.
Proof. intros (t & -> & _)%string_sound. rewrite length_app. cbn. lia. Qed.

Lemma value_no_panic fuel :
  (forall cs, (2 * length cs + 1 <= fuel)%nat -> no_panic (value fuel cs))
  /\ (forall items cs, (2 * length cs + 2 <= fuel)%nat -> no_panic (array_loop fuel items cs))
  /\ (forall items cs, (2 * length cs + 2 <= fuel)%nat -> no_panic (object_loop fuel items cs)).
Proof.
  induction fuel as [|f (IHv & IHa & IHo)]; [split_and!; intros; lia|]. split_and!.
  - intros cs Hf. cbn [value]. pose proof (ws_length cs) as Hl. destruct (ws cs) as [|c rest]; [discriminate|]. cbn [length] in Hl.
    pose proof (ws_length rest) as Hl2.
    repeat match goal with |- no_panic (if ?b then _ else _) => destruct b end;
      auto using literal_no_panic, number_no_panic with resdb.
    + destruct (eat 125 _); [discriminate|]. apply IHo. lia.
    + destruct (eat 93 _); [discriminate|]. apply IHa. lia.
    + apply no_panic_bind; [apply string_no_panic|]. by intros [??] _.
  - intros items cs Hf. cbn [array_loop]. apply no_panic_bind; [apply IHv; lia|]. intros [v c1] H1%value_shrinks.
    pose proof (ws_length c1) as Hl. destruct (ws c1) as [|c c2]; [discriminate|]. cbn [length] in Hl.
    destruct (c =? 44); [apply IHa; lia|]. destruct (c =? 93); discriminate.
  - intros items cs Hf. cbn [object_loop]. pose proof (ws_length cs) as Hl. destruct (eat 34 (ws cs)) as [q|] eqn:Eq; [|discriminate].
    apply eat_Some in Eq. rewrite Eq in *. cbn [length] in Hl.
    apply no_panic_bind; [apply string_no_panic|]. intros [key c1] H1%string_shrinks.
    pose proof (ws_length c1) as Hl1. destruct (eat 58 (ws c1)) as [c2|] eqn:Ec; [|discriminate]. apply eat_Some in Ec. rewrite Ec in Hl1.
    cbn [length] in Hl1. apply no_panic_bind; [apply IHv; lia|]. intros [v c3] H2%value_shrinks.
    pose proof (ws_length c3) as Hl3. destruct (ws c3) as [|c c4]; [discriminate|]. cbn [length] in Hl3.
    destruct (c =? 44); [apply IHo; lia|]. destruct (c =? 125); discriminate.
Qed.

Lemma json_parse_no_panic s : no_panic (json_parse s).
Proof.
  unfold json_parse. apply no_panic_bind; [apply (proj1 (value_no_panic _)); lia|]. intros [v r] _.
  destruct (ws r); discriminate.
Qed.

(** A whole text: a value between white space. *)
Definition json_document (v : JsonValue) (cs : list Z) : Prop :=
  exists w1 t w2, cs = w1 ++ t ++ w2 /\ blank w1 /\ blank w2 /\ json_text v t.

Lemma json_parse_document s v : json_parse s = Ok v <-> json_document v (chars s).
Proof.
  unfold json_parse. split.
  - intros H. apply ok_bind in H as ([x r] & H1 & H). apply (proj1 (value_sound _)) in H1 as (w & t & E & Hw & Ht).
    destruct (ws_split r) as (w2 & Er & Hw2). destruct (ws r); [|done]. rewrite app_nil_r in Er. subst r. simplify_eq.
    by exists w, t, w2.
  - intros (w1 & t & w2 & E & H1 & H2 & Ht). rewrite E.
    rewrite (proj1 value_complete v t Ht _ w1 w2); [|rewrite !length_app; lia|done|].
    + cbn [mbind res_bind]. rewrite <- (app_nil_r w2), ws_blank by done. done.
    + intros _. rewrite <- (app_nil_r w2). by apply blank_stops; [|intros ?? ?].
Qed.

(** ** Properties *)

(** C36. The parser implements its grammar exactly: it returns a value if and only if
    the text is a text of that value between white space; on every other input
    it returns an error, it always ends, and the grammar is unambiguous. *)
Theorem json_grammar (s : str) :
  (forall v, json_parse s = Ok v <-> json_document v (chars s))
  /\ ((forall v, ~ json_document v (chars s)) -> exists e, json_parse s = Err e)
  /\ (forall v w, json_document v (chars s) -> json_document w (chars s) -> v = w)
  /\ no_panic (json_parse s).
Proof.
  assert (forall v, json_parse s = Ok v <-> json_document v (chars s)) as H by (intros; apply json_parse_document).
  split_and!; [exact H| | |apply json_parse_no_panic].
  - intros Hno. pose proof (json_parse_no_panic s) as Hn. destruct (json_parse s) as [v|e|] eqn:E; [|by exists e|done].
    exfalso. by apply (Hno v), H.
  - intros v w Hv%H Hw%H. congruence.
Qed.
