(* ===== verification/Import.v ===== *)
(** * What the JSON importers share: reading fields, and the specification of
    an object with optional fields *)

From S2P Require Import Prelude RustStr Model F64 Json.

Definition some_nonempty (o : option str) : option str := match o with Some (c :: s) => Some (c :: s) | _ => None end.

(** [v.get(key).and_then(JsonValue::as_str)] *)
Definition get_str (v : JsonValue) (key : str) : option str := get v key ≫= as_str.

(** [v.get(key).and_then(JsonValue::as_array)] *)
Definition get_array (v : JsonValue) (key : str) : option (list JsonValue) := get v key ≫= as_array.

(** ** Specification *)

(** An object whose fields may be absent. *)
Definition obj (fs : list (str * option JsonValue)) : JsonValue := Object (opt_fields fs).

Definition text_field (m : str_map) (key : str) : option JsonValue := String <$> m !! key.

Definition port_number (p : Z) : JsonValue := Number (f64_of_decimal false p 0).

(** ** Lemmas *)

Lemma get_obj fs key : NoDup (map fst fs) -> get (obj fs) key = field fs key.
Proof. apply assoc_opt_fields. Qed.

Lemma port_number_read p : 0 <= p <= 65535 -> as_u16_port (port_number p) = Some p.
Proof.
  intros H. unfold as_u16_port, as_u64, port_number. rewrite f64_whole_int by lia.
  by rewrite (proj2 (Z.leb_le _ _)) by lia.
Qed.

Lemma as_u16_port_range v p : as_u16_port v = Some p -> 0 <= p <= 65535.
Proof.
  unfold as_u16_port. destruct (as_u64 v) as [n|] eqn:E.
  - destruct (n <=? 65535) eqn:En; [|done]. intros [= <-]. split; [|lia]. unfold as_u64 in E. destruct v; try done.
    unfold f64_whole in E. destruct n0 as [?|?| |[] m e]; simplify_eq; [lia|].
    destruct (0 <=? e) eqn:Ee; simplify_eq.
    + pose proof (Z.pow_nonneg 2 e ltac:(lia)). lia.
    + destruct (_ =? 0); simplify_eq. pose proof (Z.div_pos (Zpos m) (2 ^ (- e)) ltac:(lia) ltac:(apply Z.pow_pos_nonneg; lia)). lia.
  - destruct (as_str v) as [s|]; cbn; [|done]. intros H. by eapply parse_uint_bound in H.
Qed.

(** Reads a field of an object written with [obj] and literal keys. *)
Ltac nodup_keys := cbn [map fst]; apply (bool_decide_unpack _); vm_compute; exact I.
Ltac get_field :=
  rewrite get_obj by nodup_keys;
  repeat (rewrite field_cons; first [rewrite decide_True by reflexivity | rewrite decide_False by discriminate]).

Lemma text_as_str (m : str_map) key : text_field m key ≫= as_str = m !! key.
Proof. unfold text_field. by destruct (m !! key). Qed.

Lemma some_nonempty_id (o : option str) : o <> Some [] -> some_nonempty o = o.
Proof. by destruct o as [[|c s]|]. Qed.

Lemma omap_as_str l : omap as_str (map String l) = l.
Proof. induction l as [|s l IH]; [done|]. cbn. by f_equal. Qed.

(** JSON text written with apostrophes for quotation marks, for the samples. *)
Definition quoted (s : str) : str := map (fun c => if decide (c = "'"%char) then to_u8 34 else c) s.
