(* ===== verification/Singbox.v ===== *)
(** * Sing-box configurations ([crates/core/src/parse/singbox.rs]) *)

From S2P Require Import Prelude RustStr Utf8 Model F64 Json Import.

(** [map_type] *)
Definition singbox_type (kind : str) : res ParseError ProtocolKind :=
  if decide (kind = "vless") then Ok Vless
  else if decide (kind = "shadowsocks") then Ok Shadowsocks
  else if decide (kind = "trojan") then Ok Trojan
  else if decide (kind = "wireguard") then Ok Wireguard
  else if decide (kind = "socks") then Ok Socks5
  else if decide (kind = "http") then Ok Http
  else if decide (kind = "hysteria2") then Ok Hysteria2
  else if decide (kind = "tuic") then Ok Tuic
  else Err (UnknownScheme kind).

Definition insert_field (params : str_map) (ob : JsonValue) (src key : str) : res ParseError str_map :=
  value ← ok_or (some_nonempty (get_str ob src)) (MissingField key);
  Ok (<[key := value]> params).

Definition insert_opt (params : str_map) (ob : JsonValue) (src key : str) : str_map :=
  match some_nonempty (get_str ob src) with Some value => <[key := value]> params | None => params end.

Definition parse_tls (params : str_map) (ob : JsonValue) : str_map :=
  match get ob "tls" with
  | None => params
  | Some tls =>
      let params := insert_some_ params "sni" (get_str tls "server_name") in
      let params := match get tls "reality" with
                    | Some reality =>
                        insert_some_ (insert_some_ params "pbk" (get_str reality "public_key")) "sid" (get_str reality "short_id")
                    | None => params
                    end in
      let params := insert_some_ params "fp" (u ← get tls "utls"; get_str u "fingerprint") in
      match get_array tls "alpn" with
      | Some alpn =>
          let joined := join "," (omap as_str alpn) in
          if (match joined with [] => true | _ => false end) then params else <["alpn" : str := joined]> params
      | None => params
      end
  end.

Definition parse_transport (params : str_map) (ob : JsonValue) : str_map :=
  match get ob "transport" with
  | None => params
  | Some transport =>
      let params := insert_some_ params "type" (get_str transport "type") in
      let params := insert_some_ params "path" (get_str transport "path") in
      insert_some_ params "host" (h ← get transport "headers"; get_str h "Host")
  end.

(** The parameters of the protocol's own. *)
Definition protocol_params (protocol : ProtocolKind) (ob : JsonValue) : res ParseError str_map :=
  match protocol with
  | Vless => params ← insert_field ∅ ob "uuid" "uuid"; Ok (insert_opt params ob "flow" "flow")
  | Tuic => params ← insert_field ∅ ob "uuid" "uuid"; insert_field params ob "password" "password"
  | Shadowsocks => params ← insert_field ∅ ob "method" "method"; insert_field params ob "password" "password"
  | Trojan | Hysteria2 => insert_field ∅ ob "password" "password"
  | _ => Ok ∅
  end.

Definition singbox_outbound (ob : JsonValue) : res ParseError ServerProfile :=
  kind ← ok_or (get_str ob "type") (MissingField "type");
  protocol ← singbox_type kind;
  address ← ok_or (some_nonempty (get_str ob "server")) MissingHost;
  port ← ok_or (get ob "server_port" ≫= as_u16_port) MissingPort;
  params ← protocol_params protocol ob;
  let params := parse_transport (parse_tls params ob) ob in
  let name := default (address ++ ":" ++ show_uint port) (some_nonempty (get_str ob "tag")) in
  Ok {| sp_name := name; sp_protocol := protocol; sp_address := address; sp_port := port; sp_params := params; sp_tags := [] |}.

(** The outbounds of a document: [inr] for the errors of the document itself. *)
Definition parse_singbox_config (input : str) : list (res ParseError ServerProfile) :=
  match json_parse input with
  | Err e => [Err e]
  | Panic => [Panic]
  | Ok root =>
      let outbounds :=
        match root with
        | Object _ =>
            match get_array root "outbounds" with
            | Some arr => Ok arr
            | None => if bool_decide (is_Some (get root "type")) then Ok [root] else Err (JsonError "нет ключа outbounds")
            end
        | Array arr => Ok arr
        | _ => Err (JsonError "ожидался объект или массив")
        end in
      match outbounds with
      | Ok obs => map singbox_outbound obs
      | Err e => [Err e]
      | Panic => [Panic]
      end
  end.

(** ** Specification: the outbound of a profile *)

(** The parameters a sing-box outbound of a kind holds besides those of TLS and
    the transport. *)
Definition singbox_keys (k : ProtocolKind) : list str :=
  match k with
  | Vless => ["uuid" : str; "flow" : str]
  | Tuic => ["uuid" : str; "password" : str]
  | Shadowsocks => ["method" : str; "password" : str]
  | Trojan | Hysteria2 => ["password" : str]
  | _ => []
  end.

Definition tls_keys : list str := ["sni" : str; "pbk" : str; "sid" : str; "fp" : str; "alpn" : str].
Definition transport_keys : list str := ["type" : str; "path" : str; "host" : str].

Definition singbox_kind (k : ProtocolKind) : str :=
  match k with Socks5 => "socks" | _ => protocol_as_str k end.

Definition singbox_tls (m : str_map) : JsonValue :=
  obj [(lit "server_name", text_field m "sni");
       (lit "reality", Some (obj [(lit "public_key", text_field m "pbk"); (lit "short_id", text_field m "sid")]));
       (lit "utls", Some (obj [(lit "fingerprint", text_field m "fp")]));
       (lit "alpn", (fun v => Array (map String (split_char ","%char v))) <$> m !! ("alpn" : str))].

Definition singbox_transport (m : str_map) : JsonValue :=
  obj [(lit "type", text_field m "type"); (lit "path", text_field m "path");
       (lit "headers", Some (obj [(lit "Host", text_field m "host")]))].

Definition own_field (k : ProtocolKind) (m : str_map) (key : str) : option JsonValue :=
  if decide (key ∈ singbox_keys k) then text_field m key else None.

Definition singbox_json (p : ServerProfile) : JsonValue :=
  let m := sp_params p in
  obj [(lit "type", Some (String (singbox_kind (sp_protocol p)))); (lit "tag", Some (String (sp_name p)));
       (lit "server", Some (String (sp_address p))); (lit "server_port", Some (port_number (sp_port p)));
       (lit "uuid", own_field (sp_protocol p) m "uuid"); (lit "flow", own_field (sp_protocol p) m "flow");
       (lit "method", own_field (sp_protocol p) m "method"); (lit "password", own_field (sp_protocol p) m "password");
       (lit "tls", Some (singbox_tls m)); (lit "transport", Some (singbox_transport m))].

Definition singbox_ok (p : ServerProfile) : Prop :=
  0 <= sp_port p <= 65535 /\ sp_address p <> [] /\ sp_name p <> [] /\ sp_tags p = [] /\ sp_protocol p <> AmneziaWg
  /\ map_Forall (fun k v => k ∈ singbox_keys (sp_protocol p) ++ tls_keys ++ transport_keys
                            /\ (k ∈ (["uuid" : str; "flow" : str; "method" : str; "password" : str; "alpn" : str] : list str) -> v <> []))
       (sp_params p)
  /\ Forall (fun k => k <> lit "flow" -> is_Some (sp_params p !! k)) (singbox_keys (sp_protocol p)).

(** ** Lemmas *)

Lemma parse_tls_read (acc m : str_map) (ob : JsonValue) : get ob "tls" = Some (singbox_tls m) -> m !! ("alpn" : str) <> Some [] ->
  parse_tls acc ob = fold_left (fun acc k => insert_some_ acc k (m !! k)) tls_keys acc.
Proof.
  intros Hob Ha. unfold parse_tls. rewrite Hob. unfold get_str, singbox_tls.
  set (reality := obj [(lit "public_key", _); _]). set (utls := obj [(lit "fingerprint", _)]).
  assert (get reality "public_key" = text_field m "pbk" /\ get reality "short_id" = text_field m "sid"
          /\ get utls "fingerprint" = text_field m "fp") as (E1 & E2 & E3) by (unfold reality, utls; split_and!; by get_field).
  set (alpn := _ <$> m !! ("alpn" : str)).
  set (tls := obj _).
  assert (get tls "server_name" = text_field m "sni" /\ get tls "reality" = Some reality /\ get tls "utls" = Some utls
          /\ get tls "alpn" = alpn) as (F1 & F2 & F3 & F4) by (unfold tls; split_and!; by get_field).
  unfold get_array. rewrite F1, F2, F3, F4. cbn [mbind option_bind]. rewrite E1, E2, E3, !text_as_str.
  cbn [tls_keys fold_left]. unfold alpn. destruct (m !! ("alpn" : str)) as [v|]; [|done].
  cbn [fmap option_fmap option_map mbind option_bind as_array]. rewrite omap_as_str.
  change (lit ",") with [","%char]. rewrite join_split_char. by destruct v.
Qed.

Lemma parse_transport_read (acc m : str_map) (ob : JsonValue) : get ob "transport" = Some (singbox_transport m) ->
  parse_transport acc ob = fold_left (fun acc k => insert_some_ acc k (m !! k)) transport_keys acc.
Proof.
  intros Hob. unfold parse_transport. rewrite Hob. unfold get_str, singbox_transport.
  set (headers := obj [(lit "Host", _)]).
  assert (get headers "Host" = text_field m "host") as E1 by (unfold headers; by get_field).
  set (tr := obj _).
  assert (get tr "type" = text_field m "type" /\ get tr "path" = text_field m "path" /\ get tr "headers" = Some headers)
    as (F1 & F2 & F3) by (unfold tr; split_and!; by get_field).
  rewrite F1, F2, F3. cbn [mbind option_bind]. by rewrite E1, !text_as_str.
Qed.

Lemma own_params p ob :
  (forall key, key ∈ (["uuid" : str; "flow" : str; "method" : str; "password" : str] : list str) ->
     get_str ob key = if decide (key ∈ singbox_keys (sp_protocol p)) then sp_params p !! key else None) ->
  (forall key, key ∈ (["uuid" : str; "flow" : str; "method" : str; "password" : str] : list str) -> sp_params p !! key <> Some []) ->
  Forall (fun k => k <> lit "flow" -> is_Some (sp_params p !! k)) (singbox_keys (sp_protocol p)) ->
  protocol_params (sp_protocol p) ob = Ok (rebuild (sp_params p) (singbox_keys (sp_protocol p))).
Proof.
  intros Hget Hne Hreq.
  assert (forall acc key, key ∈ (["uuid" : str; "flow" : str; "method" : str; "password" : str] : list str) ->
    key ∈ singbox_keys (sp_protocol p) -> key <> lit "flow" ->
    insert_field acc ob key key = Ok (insert_some_ acc key (sp_params p !! key))) as Hf.
  { intros acc key Hin Hk Hfl. unfold insert_field. rewrite Hget, decide_True by done.
    rewrite some_nonempty_id by auto. rewrite Forall_forall in Hreq. by destruct (Hreq key Hk Hfl) as [v ->]. }
  assert (forall acc, lit "flow" ∈ singbox_keys (sp_protocol p) ->
    insert_opt acc ob "flow" "flow" = insert_some_ acc "flow" (sp_params p !! ("flow" : str))) as Ho.
  { intros acc Hk. unfold insert_opt. rewrite Hget, decide_True by (done || by right; left).
    rewrite some_nonempty_id by (apply Hne; by right; left). by destruct (sp_params p !! ("flow" : str)). }
  assert (lit "uuid" ∈ ["uuid" : str; "flow" : str; "method" : str; "password" : str]
    /\ lit "method" ∈ ["uuid" : str; "flow" : str; "method" : str; "password" : str]
    /\ lit "password" ∈ ["uuid" : str; "flow" : str; "method" : str; "password" : str]) as (I1 & I2 & I3).
  { split_and!; apply (bool_decide_unpack _); vm_compute; exact I. }
  destruct (sp_protocol p); unfold protocol_params, rebuild; cbn [singbox_keys fold_left] in *; try done.
  - rewrite (Hf ∅ "uuid" I1) by (done || by left). cbn [mbind res_bind]. by rewrite Ho by (by right; left).
  - rewrite (Hf ∅ "method" I2) by (done || by left). cbn [mbind res_bind]. by rewrite (Hf _ "password" I3) by (done || by right; left).
  - by rewrite (Hf ∅ "password" I3) by (done || by left).
  - by rewrite (Hf ∅ "password" I3) by (done || by left).
  - rewrite (Hf ∅ "uuid" I1) by (done || by left). cbn [mbind res_bind]. by rewrite (Hf _ "password" I3) by (done || by right; left).
Qed.

Lemma singbox_type_kind k : k <> AmneziaWg -> singbox_type (singbox_kind k) = Ok k.
Proof. by destruct k. Qed.

Lemma singbox_outbound_read p : singbox_ok p -> singbox_outbound (singbox_json p) = Ok p.
Proof.
  intros (Hp & Ha & Hn & Ht & Hk & Hm & Hreq). unfold singbox_outbound.
  assert (forall key, own_field (sp_protocol p) (sp_params p) key ≫= as_str
    = if decide (key ∈ singbox_keys (sp_protocol p)) then sp_params p !! key else None) as Hown.
  { intros key. unfold own_field. case_decide; [apply text_as_str|done]. }
  set (ob := singbox_json p).
  assert (get_str ob "type" = Some (singbox_kind (sp_protocol p)) /\ get_str ob "tag" = Some (sp_name p)
    /\ get_str ob "server" = Some (sp_address p) /\ get ob "server_port" = Some (port_number (sp_port p))
    /\ get ob "tls" = Some (singbox_tls (sp_params p)) /\ get ob "transport" = Some (singbox_transport (sp_params p)))
    as (E1 & E2 & E3 & E4 & E5 & E6).
  { unfold get_str, ob, singbox_json. split_and!; by get_field. }
  assert (forall key, key ∈ (["uuid" : str; "flow" : str; "method" : str; "password" : str] : list str) ->
    get_str ob key = if decide (key ∈ singbox_keys (sp_protocol p)) then sp_params p !! key else None) as Hget.
  { intros key Hin. rewrite <- Hown. unfold get_str, ob, singbox_json.
    repeat (apply elem_of_cons in Hin as [->|Hin]; [by get_field|]). by apply elem_of_nil in Hin. }
  rewrite E1. cbn [ok_or mbind res_bind]. rewrite singbox_type_kind by done. cbn [mbind res_bind].
  rewrite E3, E2, E4. rewrite !some_nonempty_id by congruence. cbn [ok_or mbind res_bind option_bind].
  rewrite port_number_read by done. cbn [ok_or mbind res_bind].
  rewrite own_params; [|exact Hget| |exact Hreq].
  2: { intros key Hin Hv. destruct (Hm key [] Hv) as [_ Hx]. apply Hx; [|done].
       repeat (apply elem_of_cons in Hin as [->|Hin]; [apply (bool_decide_unpack _); vm_compute; exact I|]). by apply elem_of_nil in Hin. }
  cbn [mbind res_bind from_option id]. rewrite (parse_tls_read _ (sp_params p)) by first
    [done | intros Hv; destruct (Hm _ _ Hv) as [_ Hx]; apply Hx; [apply (bool_decide_unpack _); vm_compute; exact I|done]].
  rewrite (parse_transport_read _ (sp_params p)) by done. unfold rebuild. rewrite <- !fold_left_app.
  change (fold_left _ _ ∅) with (rebuild (sp_params p) (singbox_keys (sp_protocol p) ++ tls_keys ++ transport_keys)).
  rewrite rebuild_id; [by destruct p; cbn in *; subst|]. eapply map_Forall_impl; [exact Hm|]. by intros k v [? _].
Qed.

(** What an outbound must have to be accepted. *)
Lemma singbox_outbound_sound ob : no_panic (singbox_outbound ob)
  /\ forall p, singbox_outbound ob = Ok p -> 0 <= sp_port p <= 65535 /\ sp_name p <> [] /\ sp_address p <> [] /\ sp_tags p = [].
Proof.
  assert (forall o v, some_nonempty o = Some v -> v <> []) as Hne by (by intros [[|c s]|] v; cbn; intros; simplify_eq).
  assert (forall m key v, no_panic (insert_field m ob key v)) as Hf.
  { intros. unfold insert_field. apply no_panic_bind; [auto with resdb|discriminate]. }
  unfold singbox_outbound. split.
  - apply no_panic_bind; [auto with resdb|]. intros kind _. apply no_panic_bind.
    { unfold singbox_type. repeat case_decide; discriminate. }
    intros k _. apply no_panic_bind; [auto with resdb|]. intros a _. apply no_panic_bind; [auto with resdb|]. intros q _.
    apply no_panic_bind; [|discriminate]. unfold protocol_params.
    destruct k; try discriminate; try apply Hf; (apply no_panic_bind; [apply Hf|intros]); try discriminate; apply Hf.
  - intros p H. apply ok_bind in H as (kind & _ & H). apply ok_bind in H as (k & _ & H).
    apply ok_bind in H as (a & Ha & H). apply ok_bind in H as (q & Hq & H). apply ok_bind in H as (m & _ & H). simplify_eq.
    cbn [sp_port sp_name sp_address sp_tags]. destruct (some_nonempty (get_str ob "server")) as [x|] eqn:Ex; cbn in Ha; simplify_eq.
    split; [|split; [|by split; [exact (Hne _ _ Ex)|]]].
    + destruct (get ob "server_port" ≫= as_u16_port) as [y|] eqn:Ey; cbn in Hq; simplify_eq.
      destruct (get ob "server_port") as [v|]; [|done]. by eapply as_u16_port_range.
    + match goal with |- default _ ?o <> [] => destruct o as [y|] eqn:Ey end; cbn [from_option id]; [exact (Hne _ _ Ey)|]. apply Hne in Ex. by destruct a.
Qed.

Lemma singbox_config_read s ps : json_document (obj [(lit "outbounds", Some (Array (map singbox_json ps)))]) (chars s) ->
  Forall singbox_ok ps -> parse_singbox_config s = map Ok ps.
Proof.
  intros Hs Hps. unfold parse_singbox_config. apply json_parse_document in Hs. rewrite Hs.
  assert (get (obj [(lit "outbounds", Some (Array (map singbox_json ps)))]) "outbounds" = Some (Array (map singbox_json ps))) as E by by get_field.
  unfold obj in E |- *. cbv iota. unfold get_array.
  rewrite E. cbn [mbind option_bind as_array]. rewrite map_map. apply map_ext_Forall. eapply Forall_impl; [exact Hps|].
  apply singbox_outbound_read.
Qed.

Lemma singbox_config_sound s : Forall no_panic (parse_singbox_config s)
  /\ forall p, Ok p ∈ parse_singbox_config s -> 0 <= sp_port p <= 65535 /\ sp_name p <> [] /\ sp_address p <> [] /\ sp_tags p = [].
Proof.
  assert (forall obs, Forall no_panic (map singbox_outbound obs)
    /\ forall p, Ok p ∈ map singbox_outbound obs -> 0 <= sp_port p <= 65535 /\ sp_name p <> [] /\ sp_address p <> [] /\ sp_tags p = []) as H.
  { intros obs. split.
    - apply Forall_map, Forall_forall. intros ob _. apply singbox_outbound_sound.
    - intros p (ob & Hob & _)%list_elem_of_fmap. by eapply singbox_outbound_sound. }
  assert (forall e, Forall (no_panic (E := ParseError) (A := ServerProfile)) [Err e] /\
    forall p, Ok p ∈ [Err e] -> 0 <= sp_port p <= 65535 /\ sp_name p <> [] /\ sp_address p <> [] /\ sp_tags p = []) as He.
  { intros e. split; [by repeat constructor|]. by intros p Hp%list_elem_of_singleton. }
  unfold parse_singbox_config. pose proof (json_parse_no_panic s) as Hn.
  destruct (json_parse s) as [root|e|]; [|apply He|done].
  destruct root; try apply He; try apply H. destruct (get_array _ "outbounds"); [apply H|]. case_bool_decide; [apply H|apply He].
Qed.
