(* ===== verification/Xray.v ===== *)
(** * Xray and v2rayN configurations ([crates/core/src/parse/xray.rs]) *)

From S2P Require Import Prelude RustStr Utf8 Model F64 Json Import.

Definition address_port (node : JsonValue) : res ParseError (str * Z) :=
  address ← ok_or (get_str node "address") (MissingField "address");
  port ← ok_or (get node "port" ≫= as_u16_port) MissingPort;
  Ok (address, port).

Definition insert_str (params : str_map) (key : str) (value : option JsonValue) : str_map :=
  insert_some_ params key (some_nonempty (value ≫= as_str)).

Definition first (v : option JsonValue) : option JsonValue := a ← v; l ← as_array a; head l.

Definition extract_vless (node : JsonValue) (params : str_map) : res ParseError (str * Z * str_map) :=
  '(address, port) ← address_port node;
  user ← ok_or (first (get node "users")) (MissingField "users");
  uuid ← ok_or (get_str user "id") (MissingField "id");
  let params := <["uuid" : str := uuid]> params in
  let params := insert_str params "flow" (get user "flow") in
  let params := insert_str params "encryption" (get user "encryption") in
  Ok (address, port, params).

Definition extract_server (kind : ProtocolKind) (server : JsonValue) (params : str_map) : res ParseError (str * Z * str_map) :=
  '(address, port) ← address_port server;
  params ← match kind with
           | Shadowsocks =>
               method ← ok_or (get_str server "method") (MissingField "method");
               password ← ok_or (get_str server "password") (MissingField "password");
               Ok (<["password" : str := password]> (<["method" : str := method]> params))
           | Trojan =>
               password ← ok_or (get_str server "password") (MissingField "password");
               Ok (<["password" : str := password]> params)
           | _ => Ok params
           end;
  Ok (address, port, params).

Definition extract_stream (stream : JsonValue) (params : str_map) : str_map :=
  let params := insert_str params "type" (get stream "network") in
  let params := insert_str params "security" (get stream "security") in
  let params := match get stream "tlsSettings" with
                | Some tls => insert_str params "sni" (get tls "serverName")
                | None => params
                end in
  let params := match get stream "realitySettings" with
                | Some reality =>
                    let params := insert_str params "sni" (get reality "serverName") in
                    let params := insert_str params "pbk" (get reality "publicKey") in
                    let params := insert_str params "sid" (get reality "shortId") in
                    insert_str params "fp" (get reality "fingerprint")
                | None => params
                end in
  let params := match get stream "wsSettings" with
                | Some ws =>
                    let params := insert_str params "path" (get ws "path") in
                    match h ← get ws "headers"; get h "Host" with
                    | Some host => insert_str params "host" (Some host)
                    | None => params
                    end
                | None => params
                end in
  match get stream "grpcSettings" with
  | Some grpc => insert_str params "servicename" (get grpc "serviceName")
  | None => params
  end.

(** The [match protocol] of [parse_outbound]. *)
Definition xray_protocol (protocol : str) : res ParseError ProtocolKind :=
  if decide (protocol = "vless") then Ok Vless
  else if decide (protocol = "shadowsocks") then Ok Shadowsocks
  else if decide (protocol = "trojan") then Ok Trojan
  else if decide (protocol = "socks") then Ok Socks5
  else if decide (protocol = "http") then Ok Http
  else Err (UnknownScheme protocol).

Definition xray_outbound (ob : JsonValue) : res ParseError ServerProfile :=
  protocol ← ok_or (get_str ob "protocol") (MissingField "protocol");
  kind ← xray_protocol protocol;
  let settings := get ob "settings" in
  '(address, port, params) ←
    (if decide (kind = Vless) then
       node ← ok_or (first (s ← settings; get s "vnext")) (MissingField "vnext");
       extract_vless node ∅
     else
       server ← ok_or (first (s ← settings; get s "servers")) (MissingField "servers");
       extract_server kind server ∅);
  let params := match get ob "streamSettings" with Some stream => extract_stream stream params | None => params end in
  let name := default (address ++ ":" ++ show_uint port) (some_nonempty (get_str ob "tag")) in
  Ok {| sp_name := name; sp_protocol := kind; sp_address := address; sp_port := port; sp_params := params; sp_tags := [] |}.

(** [parse_config_entry]: the balancers (tag and selector prefixes). *)
Definition balancer (b : JsonValue) : option (str * list str) :=
  tag ← get_str b "tag";
  let sel := match get_array b "selector" with
             | Some s => filter (fun w => w <> []) (map trim (omap as_str s))
             | None => []
             end in
  match sel with
  | [] => None
  | _ => Some (tag, sel)
  end.

Definition balancers (config : JsonValue) : list (str * list str) :=
  match (r ← get config "routing"; get_array r "balancers") with
  | Some arr => omap balancer arr
  | None => []
  end.

Definition balancer_of (bs : list (str * list str)) (ob_tag : str) : option str :=
  '(_, (tag, _)) ← list_find (fun e : str * list str => existsb (fun p => starts_with p ob_tag) (snd e) = true) bs;
  Some tag.

Definition with_name (p : ServerProfile) (name : str) : ServerProfile :=
  {| sp_name := name; sp_protocol := sp_protocol p; sp_address := sp_address p; sp_port := sp_port p;
     sp_params := sp_params p; sp_tags := sp_tags p |}.

Definition with_param (p : ServerProfile) (key v : str) : ServerProfile :=
  {| sp_name := sp_name p; sp_protocol := sp_protocol p; sp_address := sp_address p; sp_port := sp_port p;
     sp_params := <[key := v]> (sp_params p); sp_tags := sp_tags p |}.

(** The closure that is mapped over the outbounds of one configuration. *)
Definition entry_outbound (remarks : option str) (bs : list (str * list str)) (ob : JsonValue) : res ParseError ServerProfile :=
  let ob_tag := default [] (get_str ob "tag") in
  p ← xray_outbound ob;
  let p := match remarks with Some rem => with_name p (rem ++ lit " · " ++ sp_name p) | None => p end in
  Ok (match balancer_of bs ob_tag with Some b => with_param p "balancer" b | None => p end).

(** The results that are kept: all but those of an outbound that is no proxy. *)
Definition kept (r : res ParseError ServerProfile) : bool :=
  match r with
  | Err (UnknownScheme _) => false
  | Err (MissingField f) => bool_decide (f <> "protocol")
  | _ => true
  end.

Definition parse_config_entry (config : JsonValue) : list (res ParseError ServerProfile) :=
  let remarks := some_nonempty (trim <$> get_str config "remarks") in
  match get_array config "outbounds" with
  | None => []
  | Some obs => filter (fun r => kept r = true) (map (entry_outbound remarks (balancers config)) obs)
  end.

Definition parse_xray_config (input : str) : list (res ParseError ServerProfile) :=
  match json_parse input with
  | Err e => [Err e]
  | Panic => [Panic]
  | Ok root =>
      let subscription := arr ← as_array root;
                          if existsb (fun c => bool_decide (is_Some (get c "outbounds"))) arr then Some arr else None in
      match subscription with
      | Some arr => concat (map parse_config_entry arr)
      | None =>
          match get_array root "outbounds", as_array root with
          | Some arr, _ => map xray_outbound arr
          | None, Some arr => map xray_outbound arr
          | None, None =>
              if bool_decide (is_Some (get root "protocol")) then map xray_outbound [root] else [Err (MissingField "outbounds")]
          end
      end
  end.

(** ** Specification: the outbound of a profile *)

Definition xray_keys (k : ProtocolKind) : list str :=
  match k with
  | Vless => ["uuid" : str; "flow" : str; "encryption" : str]
  | Shadowsocks => ["method" : str; "password" : str]
  | Trojan => ["password" : str]
  | _ => []
  end.

Definition stream_keys : list str :=
  ["type" : str; "security" : str; "sni" : str; "pbk" : str; "sid" : str; "fp" : str; "path" : str; "host" : str; "servicename" : str].

Definition xray_kind (k : ProtocolKind) : str := match k with Socks5 => "socks" | _ => protocol_as_str k end.

Definition xray_stream (m : str_map) : JsonValue :=
  obj [(lit "network", text_field m "type"); (lit "security", text_field m "security");
       (lit "tlsSettings", Some (obj [(lit "serverName", text_field m "sni")]));
       (lit "realitySettings", Some (obj [(lit "publicKey", text_field m "pbk"); (lit "shortId", text_field m "sid");
                                          (lit "fingerprint", text_field m "fp")]));
       (lit "wsSettings", Some (obj [(lit "path", text_field m "path"); (lit "headers", Some (obj [(lit "Host", text_field m "host")]))]));
       (lit "grpcSettings", Some (obj [(lit "serviceName", text_field m "servicename")]))].

(** The server of [settings]: a node with one user, or a server. *)
Definition xray_node (p : ServerProfile) : JsonValue :=
  let m := sp_params p in
  match sp_protocol p with
  | Vless =>
      obj [(lit "address", Some (String (sp_address p))); (lit "port", Some (port_number (sp_port p)));
           (lit "users", Some (Array [obj [(lit "id", text_field m "uuid"); (lit "flow", text_field m "flow");
                                           (lit "encryption", text_field m "encryption")]]))]
  | _ =>
      obj [(lit "address", Some (String (sp_address p))); (lit "port", Some (port_number (sp_port p)));
           (lit "method", text_field m "method"); (lit "password", text_field m "password")]
  end.

Definition xray_json (p : ServerProfile) : JsonValue :=
  obj [(lit "tag", Some (String (sp_name p))); (lit "protocol", Some (String (xray_kind (sp_protocol p))));
       (lit "settings", Some (obj [(if decide (sp_protocol p = Vless) then lit "vnext" else lit "servers", Some (Array [xray_node p]))]));
       (lit "streamSettings", Some (xray_stream (sp_params p)))].

Definition xray_ok (p : ServerProfile) : Prop :=
  0 <= sp_port p <= 65535 /\ sp_name p <> [] /\ sp_tags p = []
  /\ sp_protocol p ∈ [Vless; Shadowsocks; Trojan; Socks5; Http]
  /\ map_Forall (fun k v => k ∈ xray_keys (sp_protocol p) ++ stream_keys
                            /\ (k ∈ stream_keys ++ ["flow" : str; "encryption" : str] -> v <> [])) (sp_params p)
  /\ Forall (fun k => k ∈ (["uuid" : str; "method" : str; "password" : str] : list str) -> is_Some (sp_params p !! k)) (xray_keys (sp_protocol p)).

(** ** Lemmas *)

Lemma insert_str_text (acc m : str_map) (key src : str) : m !! src <> Some [] ->
  insert_str acc key (text_field m src) = insert_some_ acc key (m !! src).
Proof. intros H. unfold insert_str. by rewrite text_as_str, some_nonempty_id. Qed.

Lemma extract_stream_read (acc m : str_map) : (forall k, k ∈ stream_keys -> m !! k <> Some []) ->
  extract_stream (xray_stream m) acc = fold_left (fun acc k => insert_some_ acc k (m !! k)) stream_keys acc.
Proof.
  intros Hne. unfold extract_stream, xray_stream.
  set (tls := obj [(lit "serverName", _)]). set (re := obj [(lit "publicKey", _); _; _]).
  set (hs := obj [(lit "Host", _)]). set (wss := obj [(lit "path", _); _]). set (grpc := obj [(lit "serviceName", _)]).
  assert (get tls "serverName" = text_field m "sni" /\ get re "serverName" = None /\ get re "publicKey" = text_field m "pbk"
    /\ get re "shortId" = text_field m "sid" /\ get re "fingerprint" = text_field m "fp") as (A1 & A2 & A3 & A4 & A5)
    by (unfold tls, re; split_and!; by get_field).
  assert (get hs "Host" = text_field m "host" /\ get wss "path" = text_field m "path" /\ get wss "headers" = Some hs
    /\ get grpc "serviceName" = text_field m "servicename") as (B1 & B2 & B3 & B4) by (unfold hs, wss, grpc; split_and!; by get_field).
  set (st := obj _).
  assert (get st "network" = text_field m "type" /\ get st "security" = text_field m "security" /\ get st "tlsSettings" = Some tls
    /\ get st "realitySettings" = Some re /\ get st "wsSettings" = Some wss /\ get st "grpcSettings" = Some grpc)
    as (C1 & C2 & C3 & C4 & C5 & C6) by (unfold st; split_and!; by get_field).
  rewrite C1, C2, C3, C4, C5, C6, A1, A2, A3, A4, A5, B2, B3, B4. cbn [mbind option_bind]. rewrite B1.
  assert (forall acc', match text_field m "host" with Some host => insert_str acc' "host" (Some host) | None => acc' end
                       = insert_str acc' "host" (text_field m "host")) as ->.
  { intros acc'. unfold text_field. by destruct (m !! ("host" : str)). }
  assert (forall acc', insert_str acc' "sni" None = acc') as -> by done.
  rewrite !insert_str_text by (apply Hne; apply (bool_decide_unpack _); vm_compute; exact I). done.
Qed.

Lemma xray_node_read p : xray_ok p ->
  (if decide (sp_protocol p = Vless) then extract_vless (xray_node p) ∅ else extract_server (sp_protocol p) (xray_node p) ∅)
  = Ok (sp_address p, sp_port p, rebuild (sp_params p) (xray_keys (sp_protocol p))).
Proof.
  intros (Hp & Hn & Ht & Hk & Hm & Hreq). unfold xray_node.
  assert (forall k, k ∈ (["flow" : str; "encryption" : str] : list str) -> sp_params p !! k <> Some []) as Hne.
  { intros k Hin Hv. destruct (Hm k [] Hv) as [_ Hx]. apply Hx; [|done]. apply elem_of_app. by right. }
  set (m := sp_params p) in *.
  assert (forall rest, NoDup (map fst ((lit "address", Some (String (sp_address p))) :: (lit "port", Some (port_number (sp_port p))) :: rest)) ->
    address_port (obj ((lit "address", Some (String (sp_address p))) :: (lit "port", Some (port_number (sp_port p))) :: rest))
    = Ok (sp_address p, sp_port p)) as Hap.
  { intros rest Hnd. unfold address_port, get_str. rewrite !get_obj by done.
    rewrite (field_cons _ _ _ (lit "address")), (field_cons _ _ _ (lit "port")), (field_cons _ _ rest (lit "port")).
    rewrite (decide_True (P := lit "address" = lit "address")) by reflexivity.
    rewrite (decide_False (P := lit "address" = lit "port")) by discriminate.
    rewrite (decide_True (P := lit "port" = lit "port")) by reflexivity. cbn [mbind option_bind as_str ok_or res_bind]. rewrite port_number_read by done. done. }
  assert (forall k, k ∈ xray_keys (sp_protocol p) -> k ∈ (["uuid" : str; "method" : str; "password" : str] : list str) ->
    exists v, m !! k = Some v) as Hr.
  { intros k Hin Hx. rewrite Forall_forall in Hreq. by destruct (Hreq k Hin Hx) as [v ?]; exists v. }
  destruct (sp_protocol p) eqn:Ek; try (exfalso; set_solver).
  - rewrite decide_True by done. unfold extract_vless. rewrite Hap by nodup_keys. cbn [mbind res_bind].
    set (user := obj [(lit "id", _); _; _]).
    assert (get user "id" = text_field m "uuid" /\ get user "flow" = text_field m "flow" /\ get user "encryption" = text_field m "encryption")
      as (U1 & U2 & U3) by (unfold user; split_and!; by get_field).
    set (node := obj _). assert (get node "users" = Some (Array [user])) as Hu by (unfold node; by get_field).
    rewrite Hu. cbn [first mbind option_bind as_array head ok_or res_bind]. unfold get_str. rewrite U1, U2, U3, text_as_str.
    destruct (Hr "uuid") as [v Hv]; [by left|by left|]. rewrite Hv. cbn [ok_or mbind res_bind].
    rewrite !insert_str_text by (apply Hne; apply (bool_decide_unpack _); vm_compute; exact I).
    unfold rebuild. cbn [xray_keys fold_left]. by rewrite Hv.
  - rewrite decide_False by done. unfold extract_server. rewrite Hap by nodup_keys. cbn [mbind res_bind].
    set (node := obj _). assert (get node "method" = text_field m "method" /\ get node "password" = text_field m "password") as (U1 & U2)
      by (unfold node; split_and!; by get_field).
    unfold get_str. rewrite U1, U2, !text_as_str.
    destruct (Hr "method") as [v Hv]; [by left|by right; left|]. destruct (Hr "password") as [w Hw]; [by right; left|by right; right; left|].
    rewrite Hv, Hw. cbn [ok_or mbind res_bind]. unfold rebuild. cbn [xray_keys fold_left]. by rewrite Hv, Hw.
  - rewrite decide_False by done. unfold extract_server. rewrite Hap by nodup_keys. cbn [mbind res_bind].
    set (node := obj _). assert (get node "password" = text_field m "password") as U2 by (unfold node; by get_field).
    unfold get_str. rewrite U2, !text_as_str. destruct (Hr "password") as [w Hw]; [by left|by right; right; left|].
    rewrite Hw. cbn [ok_or mbind res_bind]. unfold rebuild. cbn [xray_keys fold_left]. by rewrite Hw.
  - rewrite decide_False by done. unfold extract_server. by rewrite Hap by nodup_keys.
  - rewrite decide_False by done. unfold extract_server. by rewrite Hap by nodup_keys.
Qed.

Lemma xray_outbound_read p : xray_ok p -> xray_outbound (xray_json p) = Ok p.
Proof.
  intros Hok. pose proof (xray_node_read p Hok) as Hnode. destruct Hok as (Hp & Hn & Ht & Hk & Hm & Hreq).
  unfold xray_outbound. set (ob := xray_json p).
  set (inner := obj [(if decide (sp_protocol p = Vless) then lit "vnext" else lit "servers", Some (Array [xray_node p]))]).
  assert (get_str ob "tag" = Some (sp_name p) /\ get_str ob "protocol" = Some (xray_kind (sp_protocol p))
    /\ get ob "settings" = Some inner /\ get ob "streamSettings" = Some (xray_stream (sp_params p))) as (E1 & E2 & E3 & E4).
  { unfold get_str, ob, xray_json. fold inner. split_and!; by get_field. }
  rewrite E1, E2, E3, E4. cbn [ok_or mbind res_bind option_bind].
  assert (xray_protocol (xray_kind (sp_protocol p)) = Ok (sp_protocol p)) as ->.
  { repeat (apply elem_of_cons in Hk as [->|Hk]; [done|]). by apply elem_of_nil in Hk. }
  cbn [mbind res_bind].
  assert (first (get inner (if decide (sp_protocol p = Vless) then lit "vnext" else lit "servers")) = Some (xray_node p)) as Hf.
  { unfold inner. case_decide; by get_field. }
  assert ((if decide (sp_protocol p = Vless) then
             node ← ok_or (first (get inner "vnext")) (MissingField "vnext"); extract_vless node ∅
           else server ← ok_or (first (get inner "servers")) (MissingField "servers"); extract_server (sp_protocol p) server ∅)
          = Ok (sp_address p, sp_port p, rebuild (sp_params p) (xray_keys (sp_protocol p)))) as ->.
  { rewrite <- Hnode. case_decide; by rewrite Hf. }
  cbn [mbind res_bind]. rewrite extract_stream_read.
  - unfold rebuild. rewrite <- fold_left_app.
    change (fold_left _ _ ∅) with (rebuild (sp_params p) (xray_keys (sp_protocol p) ++ stream_keys)).
    rewrite rebuild_id by (eapply map_Forall_impl; [exact Hm|]; by intros k v [? _]).
    rewrite some_nonempty_id by congruence. destruct p. cbn in *. by subst.
  - intros k Hin Hv. destruct (Hm k [] Hv) as [_ Hx]. apply Hx; [|done]. apply elem_of_app. by left.
Qed.

Definition xray_result (p : ServerProfile) : Prop := 0 <= sp_port p <= 65535 /\ sp_name p <> [] /\ sp_tags p = [].

Definition xray_sound (r : res ParseError ServerProfile) : Prop := no_panic r /\ forall p, r = Ok p -> xray_result p.

Lemma address_port_safe node : no_panic (address_port node) /\ forall a p, address_port node = Ok (a, p) -> 0 <= p <= 65535.
Proof.
  unfold address_port. split.
  - apply no_panic_bind; [auto with resdb|]. intros a _. apply no_panic_bind; [auto with resdb|discriminate].
  - intros a p H. apply ok_bind in H as (a' & _ & H). apply ok_bind in H as (p' & Hp & H).
    destruct (get node "port") as [v|]; [|done]. cbn in Hp. destruct (as_u16_port v) as [q|] eqn:E; cbn in Hp; simplify_eq.
    by eapply as_u16_port_range.
Qed.

Lemma extract_safe (k : ProtocolKind) (v : JsonValue) (m : str_map) :
  (no_panic (extract_vless v m) /\ forall a p m', extract_vless v m = Ok (a, p, m') -> 0 <= p <= 65535)
  /\ (no_panic (extract_server k v m) /\ forall a p m', extract_server k v m = Ok (a, p, m') -> 0 <= p <= 65535).
Proof.
  destruct (address_port_safe v) as [Hn Hp]. unfold extract_vless, extract_server. split; split.
  - apply no_panic_bind; [done|]. intros [a q] _. apply no_panic_bind; [auto with resdb|]. intros u _.
    apply no_panic_bind; [auto with resdb|discriminate].
  - intros a q m' H. apply ok_bind in H as ([a' q'] & H1 & H). apply ok_bind in H as (u & _ & H). apply ok_bind in H as (w & _ & H).
    simplify_eq. by eapply Hp.
  - apply no_panic_bind; [done|]. intros [a q] _. apply no_panic_bind; [|discriminate].
    destruct k; try discriminate; repeat (apply no_panic_bind; [auto with resdb|intros ? _]); discriminate.
  - intros a q m' H. apply ok_bind in H as ([a' q'] & H1 & H). apply ok_bind in H as (u & _ & H). simplify_eq. by eapply Hp.
Qed.

Lemma xray_outbound_sound ob : xray_sound (xray_outbound ob).
Proof.
  unfold xray_outbound. destruct (get_str ob "protocol") as [pr|]; cbn [ok_or mbind res_bind]; [|split; [discriminate|done]].
  assert (no_panic (xray_protocol pr)) as Hpr by (unfold xray_protocol; repeat case_decide; discriminate).
  destruct (xray_protocol pr) as [k|e|]; cbn [mbind res_bind]; [|split; [discriminate|done]|done].
  match goal with |- xray_sound (?r ≫= _) =>
    assert (no_panic r /\ forall a p m', r = Ok (a, p, m') -> 0 <= p <= 65535) as [Hn Hp] end.
  { case_decide.
    - destruct (first _) as [v|]; cbn [ok_or mbind res_bind]; [apply (extract_safe k)|split; [discriminate|done]].
    - destruct (first _) as [v|]; cbn [ok_or mbind res_bind]; [apply (extract_safe k)|split; [discriminate|done]]. }
  match goal with |- xray_sound (?r ≫= _) => destruct r as [[[a q] m']|e|] end; cbn [mbind res_bind]; [|split; [discriminate|done]|done].
  split; [discriminate|]. intros p H. specialize (Hp a q m' eq_refl).
  match type of H with Ok ?x = Ok _ => assert (p = x) as -> by congruence end.
  split; [done|]. split; [|done]. cbn [sp_name].
  destruct (get_str ob "tag") as [[|c s]|]; cbn [some_nonempty from_option id]; try done; by destruct a.
Qed.

Lemma entry_outbound_sound rem bs ob : xray_sound (entry_outbound rem bs ob).
Proof.
  unfold entry_outbound. destruct (xray_outbound_sound ob) as [Hn Hp]. destruct (xray_outbound ob) as [p|e|];
    cbn [mbind res_bind]; [|split; [discriminate|done]|done].
  split; [discriminate|]. intros q Hq. destruct (Hp p eq_refl) as (H1 & H2 & H3).
  match type of Hq with Ok ?x = Ok _ => assert (q = x) as -> by congruence end.
  unfold xray_result. destruct (balancer_of _ _), rem as [r|]; cbn [with_param with_name sp_port sp_name sp_tags]; (split; [done|]); (split; [|done]); try done;
    by destruct r.
Qed.

Lemma xray_config_sound s r : r ∈ parse_xray_config s -> xray_sound r.
Proof.
  assert (forall obs, r ∈ map xray_outbound obs -> xray_sound r) as H1.
  { intros obs (ob & -> & _)%list_elem_of_fmap. apply xray_outbound_sound. }
  assert (forall e, r ∈ [Err e] -> xray_sound r) as H2 by (intros e ->%list_elem_of_singleton; split; [discriminate|done]).
  unfold parse_xray_config. pose proof (json_parse_no_panic s) as Hn. destruct (json_parse s) as [root|e|]; [|apply H2|done].
  destruct (as_array root ≫= _) as [arr|].
  - intros Hin. apply list_elem_of_In, in_concat in Hin as (l & Hl & Hin). apply in_map_iff in Hl as (c & <- & _).
    apply list_elem_of_In in Hin. unfold parse_config_entry in Hin. destruct (get_array c "outbounds"); [|by apply elem_of_nil in Hin].
    apply list_elem_of_filter in Hin as [_ (ob & -> & _)%list_elem_of_fmap]. apply entry_outbound_sound.
  - destruct (get_array root "outbounds"), (as_array root); try apply H1. case_bool_decide; [apply H1|apply H2].
Qed.

(** ** Specification: a subscription of full configurations

    Each configuration has its remarks, its balancers and its outbounds: proxies
    and service outbounds of other protocols. *)
Definition balancer_json (b : str * list str) : JsonValue :=
  obj [(lit "tag", Some (String (fst b))); (lit "selector", Some (Array (map String (snd b))))].

Definition service_json (protocol : str) : JsonValue := obj [(lit "protocol", Some (String protocol))].

Definition item_json (i : ServerProfile + str) : JsonValue :=
  match i with inl p => xray_json p | inr protocol => service_json protocol end.

Record Config : Type := {
  cf_remarks : str;
  cf_balancers : list (str * list str);
  cf_outbounds : list (ServerProfile + str)
}.

Definition config_json (c : Config) : JsonValue :=
  obj [(lit "remarks", Some (String (cf_remarks c)));
       (lit "routing", Some (obj [(lit "balancers", Some (Array (map balancer_json (cf_balancers c))))]));
       (lit "outbounds", Some (Array (map item_json (cf_outbounds c))))].

Definition item_ok (i : ServerProfile + str) : Prop :=
  match i with
  | inl p => xray_ok p
  | inr protocol => protocol ∉ map xray_kind [Vless; Shadowsocks; Trojan; Socks5; Http]
  end.

Definition config_ok (c : Config) : Prop :=
  trimmed (cf_remarks c) /\ Forall item_ok (cf_outbounds c)
  /\ Forall (fun b : str * list str => snd b <> [] /\ Forall trimmed (snd b)) (cf_balancers c).

(** What a node of the configuration becomes: the remarks before its name, and
    the first balancer one of whose prefixes its tag has. *)
Definition named (c : Config) (p : ServerProfile) : ServerProfile :=
  let q := with_name p (cf_remarks c ++ lit " · " ++ sp_name p) in
  match balancer_of (cf_balancers c) (sp_name p) with Some b => with_param q "balancer" b | None => q end.

Definition nodes (c : Config) : list ServerProfile :=
  omap (fun i => match i with inl p => Some (named c p) | inr _ => None end) (cf_outbounds c).

Lemma balancers_read c : config_ok c -> balancers (config_json c) = cf_balancers c.
Proof.
  intros (_ & _ & Hb). unfold balancers, config_json.
  set (r := obj [(lit "balancers", _)]). set (cfg := obj _).
  assert (get cfg "routing" = Some r /\ get_array r "balancers" = Some (map balancer_json (cf_balancers c))) as [-> Er].
  { unfold get_array, cfg, r. split; by get_field. }
  cbn [mbind option_bind]. rewrite Er. clear -Hb. induction Hb as [|[tag sel] bs [Hne Hs] _ IH]; [done|].
  cbn [map omap list_omap]. assert (balancer (balancer_json (tag, sel)) = Some (tag, sel)) as ->.
  { unfold balancer, balancer_json, get_str, get_array. cbn [fst snd] in *.
    set (o := obj _). assert (get o "tag" = Some (String tag) /\ get o "selector" = Some (Array (map String sel))) as [-> ->]
      by (unfold o; split; by get_field).
    cbn [mbind option_bind as_str as_array]. rewrite omap_as_str.
    assert (filter (fun w => w <> []) (map trim sel) = sel) as ->.
    { clear Hne. induction Hs as [|w sel Hw _ IH']; [done|]. cbn [map]. rewrite trim_trimmed by done. rewrite filter_cons_True.
      - by rewrite IH'.
      - by destruct Hw as [(x & t & -> & _) _]. }
    by destruct sel. }
  f_equal. exact IH.
Qed.

Lemma service_read protocol rem bs : item_ok (inr protocol) -> kept (entry_outbound rem bs (service_json protocol)) = false.
Proof.
  intros H. unfold item_ok in H. unfold entry_outbound, xray_outbound.
  assert (get_str (service_json protocol) "protocol" = Some protocol) as -> by (unfold get_str, service_json; by get_field).
  cbn [ok_or mbind res_bind].
  assert (xray_protocol protocol = Err (UnknownScheme protocol)) as ->; [|done].
  unfold xray_protocol. rewrite !decide_False; [done|..]; intros ->; apply H; apply (bool_decide_unpack _); vm_compute; exact I.
Qed.

Lemma entry_read c p : xray_ok p ->
  entry_outbound (Some (cf_remarks c)) (cf_balancers c) (xray_json p) = Ok (named c p).
Proof.
  intros Hp. unfold entry_outbound. rewrite xray_outbound_read by done. cbn [mbind res_bind].
  assert (get_str (xray_json p) "tag" = Some (sp_name p)) as -> by (unfold get_str, xray_json; by get_field).
  cbn [from_option id]. unfold named. by destruct (balancer_of _ _).
Qed.

Lemma config_read c : config_ok c -> parse_config_entry (config_json c) = map Ok (nodes c).
Proof.
  intros Hc. pose proof (balancers_read c Hc) as Hb. destruct Hc as (Hr & Hi & _). unfold parse_config_entry. rewrite Hb.
  assert (get_str (config_json c) "remarks" = Some (cf_remarks c)
    /\ get_array (config_json c) "outbounds" = Some (map item_json (cf_outbounds c))) as [-> ->].
  { unfold get_str, get_array, config_json. split; by get_field. }
  cbn [fmap option_fmap option_map]. rewrite trim_trimmed by done.
  rewrite some_nonempty_id by (destruct Hr as [(x & t & -> & _) _]; congruence).
  unfold nodes. generalize (cf_outbounds c) Hi. induction 1 as [|[p|pr] l Hl _ IH]; [done|..]; cbn [map omap list_omap item_json].
  - rewrite entry_read by done. rewrite filter_cons_True by done. cbn. by f_equal.
  - rewrite filter_cons_False; [exact IH|]. by rewrite service_read.
Qed.

Lemma xray_config_many s cs : cs <> [] -> Forall config_ok cs -> json_document (Array (map config_json cs)) (chars s) ->
  parse_xray_config s = map Ok (concat (map nodes cs)).
Proof.
  intros Hne Hok Hs%json_parse_document. unfold parse_xray_config. rewrite Hs. cbn [as_array mbind option_bind].
  assert (existsb (fun c => bool_decide (is_Some (get c "outbounds"))) (map config_json cs) = true) as ->.
  { destruct cs as [|c cs]; [done|]. cbn [map existsb]. apply orb_true_iff. left. apply bool_decide_eq_true.
    unfold config_json. exists (Array (map item_json (cf_outbounds c))). by get_field. }
  clear Hne Hs. induction Hok as [|c l Hc _ IH]; [done|]. cbn [map concat]. by rewrite config_read, IH, map_app by done.
Qed.

Lemma xray_config_one s ps : Forall xray_ok ps -> json_document (obj [(lit "outbounds", Some (Array (map xray_json ps)))]) (chars s) ->
  parse_xray_config s = map Ok ps.
Proof.
  intros Hok Hs%json_parse_document. unfold parse_xray_config. rewrite Hs.
  assert (get_array (obj [(lit "outbounds", Some (Array (map xray_json ps)))]) "outbounds" = Some (map xray_json ps)) as E
    by (unfold get_array; by get_field).
  unfold obj in E |- *. cbn [as_array mbind option_bind]. rewrite E. rewrite map_map. apply map_ext_Forall. eapply Forall_impl; [exact Hok|].
  apply xray_outbound_read.
Qed.

(** ** Properties *)

(** An Xray subscription, an array of configurations, is read as the nodes of
    all its configurations in order: the proxies with the name, the address, the
    credentials and the transport they were written with, prefixed and marked
    with their balancer, and no service outbound; a single configuration is read
    as its outbounds. On any input the parser does not panic and gives only
    profiles with a name and a port of 16 bits. *)
Theorem xray_reads_back (s : str) (cs : list Config) (ps : list ServerProfile) :
  (cs <> [] -> Forall config_ok cs -> json_document (Array (map config_json cs)) (chars s) ->
     parse_xray_config s = map Ok (concat (map nodes cs)))
  /\ (Forall xray_ok ps -> json_document (obj [(lit "outbounds", Some (Array (map xray_json ps)))]) (chars s) ->
     parse_xray_config s = map Ok ps)
  /\ (forall r, r ∈ parse_xray_config s -> xray_sound r).
Proof. split; [apply xray_config_many|]. split; [apply xray_config_one|]. intros r. apply xray_config_sound. Qed.

Definition sample_trojan : ServerProfile :=
  {| sp_name := "de-1"; sp_protocol := Trojan; sp_address := "host"; sp_port := 443;
     sp_params := <["password" : str := "pw" : str]> (<["sni" : str := "site" : str]> (∅ : str_map)); sp_tags := [] |}.

Definition sample_xray : Config :=
  {| cf_remarks := "Main"; cf_balancers := [(lit "auto", [lit "us"; lit "de"])]; cf_outbounds := [inl sample_trojan; inr (lit "freedom")] |}.

Definition sample_xray_text : str := quoted
  "[{'remarks':'Main', 'routing':{'balancers':[{'tag':'auto','selector':['us','de']}]},
     'outbounds':[{'tag':'de-1','protocol':'trojan','settings':{'servers':[{'address':'host','port':443,'password':'p\u0077'}]},
                   'streamSettings':{'tlsSettings':{'serverName':'site'},'realitySettings':{},'wsSettings':{'headers':{}},'grpcSettings':{}}},
                  {'protocol':'freedom'}]}]".

Lemma xray_reads_back_witness :
  map (fun r => sp_name <$> res_ok r) (parse_xray_config sample_xray_text) = [Some (lit "Main · de-1")]
  /\ parse_xray_config sample_xray_text = map Ok (nodes sample_xray).
Proof.
  assert (json_document (Array (map config_json [sample_xray])) (chars sample_xray_text)) as Hd
    by (apply json_parse_document; vm_compute; reflexivity).
  assert (Forall config_ok [sample_xray]) as Hc.
  { constructor; [|constructor]. split; [by apply all_graphic_trimmed; [|repeat constructor]|]. split.
    - constructor; [|constructor; [|constructor]].
      + split; [done|]. split; [done|]. split; [done|]. split; [apply (bool_decide_unpack _); vm_compute; exact I|].
        split; [apply (bool_decide_unpack _); vm_compute; exact I|]. constructor; [|constructor]. by intros _; eexists.
      + apply (bool_decide_unpack _). vm_compute. exact I.
    - constructor; [|constructor]. split; [done|]. repeat constructor; by apply all_graphic_trimmed; [|repeat constructor]. }
  destruct (xray_reads_back sample_xray_text [sample_xray] []) as [H _]. specialize (H ltac:(done) Hc Hd).
  cbn [map concat] in H. rewrite app_nil_r in H. split; [|exact H]. rewrite H. vm_compute. reflexivity.
Defined.
