(* ===== verification/Clash.v ===== *)
(** * Clash configurations ([crates/core/src/parse/clash.rs])

    The delimiters are ASCII, so the loop of [parse_flow_map] over the
    characters is one over the bytes, whose indices are the same. *)

From S2P Require Import Prelude RustStr Model.

Definition kvs : Type := list (str * str).

(** Number of leading spaces. *)
Definition indent (s : str) : nat := length s - length (trim_start_char " "%char s).

Definition unquote (s : str) : str :=
  let s := trim s in
  if (2 <=? length s)%nat
     && ((starts_with (of_zs [34]) s && ends_with (of_zs [34]) s) || (starts_with "'" s && ends_with "'" s))
  then take (length s - 2) (drop 1 s)
  else s.

(** [strip_prefix(a).and_then(|x| x.strip_suffix(b))] *)
Definition strip_both (a b : str) (s : str) : option str := x ← strip_prefix a s; strip_suffix b x.

Definition nonempty (s : str) : bool := match s with [] => false | _ => true end.

Definition push_kv (s : str) (out : kvs) : kvs :=
  match split_once ":"%char s with
  | None => out
  | Some (k, v) =>
      let key := trim k in
      if negb (nonempty key) then out
      else
        let v := trim v in
        match strip_both "[" "]" v with
        | Some inner => out ++ [(key, join "," (filter (fun x => nonempty x = true) (map unquote (split_char ","%char inner))))]
        | None => if starts_with "{" v then out else out ++ [(key, unquote v)]
        end
  end.

(** The pairs [split_at]: [i] is the index of the head of [s]. *)
Fixpoint flow_scan (s : str) (i : nat) (depth : Z) (start : nat) : list (nat * nat) :=
  match s with
  | [] => [(start, i)]
  | ch :: s' =>
      if decide (ch = "["%char) then flow_scan s' (S i) (depth + 1) start
      else if decide (ch = "{"%char) then flow_scan s' (S i) (depth + 1) start
      else if decide (ch = "]"%char) then flow_scan s' (S i) (depth - 1) start
      else if decide (ch = "}"%char) then flow_scan s' (S i) (depth - 1) start
      else if decide (ch = ","%char) then
        if depth =? 0 then (start, i) :: flow_scan s' (S i) depth (S i) else flow_scan s' (S i) depth start
      else flow_scan s' (S i) depth start
  end.

Definition parse_flow_map (inner : str) (out : kvs) : kvs :=
  fold_left (fun out '(a, b) => push_kv (slice a b inner) out) (flow_scan inner 0 0 0) out.

Definition clash_type (kind : str) : res ParseError ProtocolKind :=
  if decide (kind ∈ (["ss" : str; "shadowsocks" : str] : list str)) then Ok Shadowsocks
  else if decide (kind = "trojan") then Ok Trojan
  else if decide (kind = "vless") then Ok Vless
  else if decide (kind = "tuic") then Ok Tuic
  else if decide (kind ∈ (["hysteria2" : str; "hy2" : str] : list str)) then Ok Hysteria2
  else if decide (kind ∈ (["socks5" : str; "socks" : str] : list str)) then Ok Socks5
  else if decide (kind = "http") then Ok Http
  else Err (UnknownScheme kind).

(** [get(src).filter(|s| !s.is_empty())] *)
Definition get_nonempty (kv : kvs) (src : str) : option str := v ← assoc kv src; if nonempty v then Some v else None.

Definition req (kv : kvs) (src key : str) (params : str_map) : res ParseError str_map :=
  val ← ok_or (get_nonempty kv src) (MissingField key); Ok (<[key := val]> params).

Definition opt (kv : kvs) (src key : str) (params : str_map) : str_map :=
  match get_nonempty kv src with Some v => <[key := v]> params | None => params end.

(** The [match protocol] of [item_to_profile]. *)
Definition clash_params (protocol : ProtocolKind) (kv : kvs) : res ParseError str_map :=
  match protocol with
  | Shadowsocks => m ← req kv "cipher" "method" ∅; req kv "password" "password" m
  | Trojan => m ← req kv "password" "password" ∅; Ok (opt kv "alpn" "alpn" (opt kv "sni" "sni" m))
  | Vless =>
      m ← req kv "uuid" "uuid" ∅;
      Ok (opt kv "alpn" "alpn" (opt kv "client-fingerprint" "fp" (opt kv "network" "type"
            (opt kv "sni" "sni" (opt kv "servername" "sni" (opt kv "flow" "flow" m))))))
  | Tuic =>
      m ← req kv "uuid" "uuid" ∅; m ← req kv "password" "password" m;
      Ok (opt kv "alpn" "alpn" (opt kv "sni" "sni" m))
  | Hysteria2 =>
      m ← req kv "password" "auth" ∅;
      Ok (opt kv "obfs-password" "obfs-password" (opt kv "obfs" "obfs" (opt kv "sni" "sni" m)))
  | Socks5 | Http => Ok (opt kv "password" "password" (opt kv "username" "username" ∅))
  | _ => Ok ∅
  end.

Definition item_to_profile (kv : kvs) : res ParseError ServerProfile :=
  kind ← ok_or (assoc kv "type") (MissingField "type");
  protocol ← clash_type kind;
  address ← ok_or (get_nonempty kv "server") MissingHost;
  port ← ok_or (p ← assoc kv "port"; p ← parse_u16 p; if p =? 0 then None else Some p) MissingPort;
  params ← clash_params protocol kv;
  let name := default (address ++ ":" ++ show_uint port) (get_nonempty kv "name") in
  Ok {| sp_name := name; sp_protocol := protocol; sp_address := address; sp_port := port; sp_params := params; sp_tags := [] |}.

(** The search of the section: its indentation and the lines after it. *)
Fixpoint find_section (ls : list str) : option (nat * list str) :=
  match ls with
  | [] => None
  | l :: rest =>
      match strip_prefix "proxies:" (trim_start l) with
      | Some after => if nonempty (trim after) then find_section rest else Some (indent l, rest)
      | None => find_section rest
      end
  end.

(** One line of the section; [None] is the [break]. *)
Definition section_line (base : nat) (raw : str) (items : list kvs) (cur : option kvs) : option (list kvs * option kvs) :=
  let line := trim_end raw in
  if negb (nonempty (trim line)) || starts_with "#" (trim_start line) then Some (items, cur)
  else
    let body := trim_start line in
    if (indent line <=? base)%nat && negb (starts_with "-" body) then None
    else
      match strip_prefix "-" body with
      | Some rest =>
          let items := match cur with Some it => items ++ [it] | None => items end in
          let rest := trim rest in
          let it := match strip_both "{" "}" rest with
                    | Some inner => parse_flow_map inner []
                    | None => if nonempty rest then push_kv rest [] else []
                    end in
          Some (items, Some it)
      | None => Some (items, match cur with Some it => Some (push_kv body it) | None => None end)
      end.

Fixpoint section_loop (base : nat) (ls : list str) (items : list kvs) (cur : option kvs) : list kvs :=
  match ls with
  | [] => match cur with Some it => items ++ [it] | None => items end
  | raw :: rest =>
      match section_line base raw items cur with
      | Some (items, cur) => section_loop base rest items cur
      | None => match cur with Some it => items ++ [it] | None => items end
      end
  end.

Definition parse_clash (input : str) : list (res ParseError ServerProfile) :=
  match find_section (lines input) with
  | None => [Err (JsonError "нет секции proxies")]
  | Some (base_indent, rest) =>
      match section_loop base_indent rest [] None with
      | [] => [Err (JsonError "секция proxies пуста")]
      | items => map item_to_profile items
      end
  end.

(** ** Specification: a document in block form *)

(** Source and parameter of the fields of a kind; the required ones first. *)
Definition clash_required (k : ProtocolKind) : list (str * str) :=
  match k with
  | Shadowsocks => [(lit "cipher", lit "method"); (lit "password", lit "password")]
  | Trojan => [(lit "password", lit "password")]
  | Vless => [(lit "uuid", lit "uuid")]
  | Tuic => [(lit "uuid", lit "uuid"); (lit "password", lit "password")]
  | Hysteria2 => [(lit "password", lit "auth")]
  | _ => []
  end.

Definition clash_optional (k : ProtocolKind) : list (str * str) :=
  match k with
  | Trojan | Tuic => [(lit "sni", lit "sni"); (lit "alpn", lit "alpn")]
  | Vless => [(lit "flow", lit "flow"); (lit "sni", lit "sni"); (lit "network", lit "type");
              (lit "client-fingerprint", lit "fp"); (lit "alpn", lit "alpn")]
  | Hysteria2 => [(lit "sni", lit "sni"); (lit "obfs", lit "obfs"); (lit "obfs-password", lit "obfs-password")]
  | Socks5 | Http => [(lit "username", lit "username"); (lit "password", lit "password")]
  | _ => []
  end.

Definition clash_kind (k : ProtocolKind) : str := match k with Shadowsocks => "ss" | _ => protocol_as_str k end.

Definition clash_fields (p : ServerProfile) : list (str * option str) :=
  [(lit "name", Some (sp_name p)); (lit "type", Some (clash_kind (sp_protocol p))); (lit "server", Some (sp_address p));
   (lit "port", Some (show_uint (sp_port p)))]
  ++ map (fun '(src, key) => (src, sp_params p !! key)) (clash_required (sp_protocol p) ++ clash_optional (sp_protocol p)).

Definition clash_item (p : ServerProfile) : kvs := opt_fields (clash_fields p).

(** A line of the block: the key and the value in quotation marks. *)
Definition scalar (e : str * str) : str := fst e ++ lit ": " ++ of_zs [34] ++ snd e ++ of_zs [34].

Definition item_lines (it : kvs) : list str :=
  match it with
  | [] => []
  | e :: rest => (lit "  - " ++ scalar e) :: map (fun e => lit "    " ++ scalar e) rest
  end.

Definition LF : u8 := to_u8 10.

Definition clash_text (ps : list ServerProfile) : str :=
  concat (map (fun l => l ++ [LF]) (lit "proxies:" :: concat (map item_lines (map clash_item ps)))).

Definition clash_ok (p : ServerProfile) : Prop :=
  0 < sp_port p <= 65535 /\ sp_address p <> [] /\ sp_name p <> [] /\ sp_tags p = []
  /\ LF ∉ sp_address p /\ LF ∉ sp_name p /\ sp_protocol p ∉ [Wireguard; AmneziaWg]
  /\ map_Forall (fun k v => k ∈ map snd (clash_required (sp_protocol p) ++ clash_optional (sp_protocol p)) /\ v <> [] /\ LF ∉ v) (sp_params p)
  /\ Forall (fun e : str * str => is_Some (sp_params p !! snd e)) (clash_required (sp_protocol p)).

(** ** Lemmas *)

(** Lower-case letters and dashes, a letter first. *)
Definition key_char (c : u8) : bool := ((97 <=? val8 c) && (val8 c <=? 122)) || (val8 c =? 45).
Definition plain_key (k : str) : bool :=
  match k with c :: _ => (97 <=? val8 c) && (val8 c <=? 122) | [] => false end && forallb key_char k.

Lemma plain_key_spec k : plain_key k = true ->
  trimmed k /\ ":"%char ∉ k /\ LF ∉ k /\ exists c t, k = c :: t /\ graphic c = true /\ c ∉ (["-"; "{"; "#"; "["; " "]%char : list u8).
Proof.
  intros [Hh Hc]%andb_true_iff. rewrite forallb_forall in Hc.
  assert (forall c, c ∈ k -> key_char c = true) as Hk by (intros c Hin; by apply Hc, list_elem_of_In).
  split_and!.
  - apply all_graphic_trimmed; [by destruct k|]. apply Forall_forall. intros c Hin. apply Hk in Hin.
    unfold key_char in Hin. unfold graphic. lia.
  - intros Hin%Hk. done.
  - intros Hin%Hk. done.
  - destruct k as [|c t]; [done|]. exists c, t. split; [done|]. split; [unfold graphic; lia|].
    intros Hin. repeat (apply elem_of_cons in Hin as [->|Hin]; [done|]). by apply elem_of_nil in Hin.
Qed.

Definition pair_ok (e : str * str) : Prop := plain_key (fst e) = true /\ LF ∉ snd e.

Lemma quoted_trimmed v : trimmed (of_zs [34] ++ v ++ of_zs [34]).
Proof.
  split; [by exists (to_u8 34), (v ++ of_zs [34])|]. exists (to_u8 34), (of_zs [34] ++ v). split; [by rewrite <- app_assoc|done].
Qed.

Lemma scalar_trimmed e : pair_ok e -> trimmed (scalar e).
Proof. intros [(Ht & _)%plain_key_spec _]. unfold scalar. apply trimmed_app; [done|apply quoted_trimmed]. Qed.

Lemma unquote_quoted v : unquote (of_zs [34] ++ v ++ of_zs [34]) = v.
Proof.
  unfold unquote. rewrite trim_trimmed by apply quoted_trimmed.
  assert (starts_with (of_zs [34]) (of_zs [34] ++ v ++ of_zs [34]) = true) as -> by (apply starts_with_spec; by eexists).
  assert (ends_with (of_zs [34]) (of_zs [34] ++ v ++ of_zs [34]) = true) as ->.
  { apply ends_with_spec. exists (of_zs [34] ++ v). by rewrite app_assoc. }
  rewrite !length_app. cbn [length of_zs map andb orb].
  assert ((2 <=? 1 + (length v + 1))%nat = true) as -> by (apply Nat.leb_le; lia).
  change (drop 1 ([to_u8 34] ++ v ++ [to_u8 34])) with (v ++ [to_u8 34]). replace (1 + (length v + 1) - 2)%nat with (length v) by lia.
  cbn [andb]. by rewrite take_app_length.
Qed.

Lemma push_scalar e out : pair_ok e -> push_kv (scalar e) out = out ++ [e].
Proof.
  destruct e as [k v]. intros [(Ht & Hc & _)%plain_key_spec _]. unfold push_kv, scalar. cbn [fst snd] in *.
  change (lit ": " ++ of_zs [34] ++ v ++ of_zs [34]) with (":"%char :: " "%char :: (of_zs [34] ++ v ++ of_zs [34])).
  rewrite split_once_app by done. rewrite trim_trimmed by done. rewrite trim_space_l by apply quoted_trimmed.
  assert (nonempty k = true) as -> by (by destruct Ht as [(x & t & -> & _) _]). cbn [negb].
  change (strip_both "[" "]" (of_zs [34] ++ v ++ of_zs [34])) with (None (A := str)). cbv iota.
  change (starts_with "{" (of_zs [34] ++ v ++ of_zs [34])) with false. cbv iota. by rewrite unquote_quoted.
Qed.

Lemma trim_start_pad n s : trim_start (repeat " "%char n ++ s) = trim_start s.
Proof. induction n as [|n IH]; [done|]. cbn [repeat app]. by rewrite trim_start_space. Qed.

Lemma trim_end_trimmed s t : trimmed t -> trim_end (s ++ t) = s ++ t.
Proof. intros [_ (c & u & -> & Hc)]. rewrite app_assoc. by apply trim_end_graphic. Qed.

Lemma trim_start_trimmed s : trimmed s -> trim_start s = s.
Proof. intros [(c & t & -> & Hc) _]. by apply trim_start_graphic. Qed.

Lemma indent_pad n s : (exists c t, s = c :: t /\ graphic c = true) -> indent (repeat " "%char n ++ s) = n.
Proof.
  intros (c & t & -> & Hc). unfold indent.
  assert (trim_start_char " " (repeat " "%char n ++ c :: t) = c :: t) as ->.
  { induction n as [|n IH]; [|done]. cbn. rewrite decide_False by (intros <-; done). done. }
  rewrite length_app, repeat_length. lia.
Qed.

Lemma trim_pad n s : trimmed s -> trim (repeat " "%char n ++ s) = s.
Proof. intros H. unfold trim. rewrite trim_start_pad, trim_start_trimmed by done. rewrite <- (app_nil_l s) at 1. by apply trim_end_trimmed. Qed.

(** A padded line of the section. *)
Lemma section_line_pad n c t items cur : (0 < n)%nat -> trimmed (c :: t) -> c <> "#"%char ->
  section_line 0 (repeat " "%char n ++ c :: t) items cur
  = match strip_prefix "-" (c :: t) with
    | Some rest =>
        let items := match cur with Some it => items ++ [it] | None => items end in
        let rest := trim rest in
        let it := match strip_both "{" "}" rest with
                  | Some inner => parse_flow_map inner []
                  | None => if nonempty rest then push_kv rest [] else []
                  end in
        Some (items, Some it)
    | None => Some (items, match cur with Some it => Some (push_kv (c :: t) it) | None => None end)
    end.
Proof.
  intros Hn Ht Hc. unfold section_line. rewrite trim_end_trimmed by done. rewrite trim_pad by done.
  rewrite trim_start_pad, trim_start_trimmed by done. rewrite indent_pad.
  2: { destruct Ht as [(x & u & [= <- <-] & Hx) _]. by exists c, t. }
  cbn [nonempty negb orb].
  assert (starts_with "#" (c :: t) = false) as ->.
  { destruct (starts_with _ _) eqn:E; [|done]. apply starts_with_spec in E as [k Ek]. cbn in Ek. congruence. }
  assert ((n <=? 0)%nat = false) as -> by (apply Nat.leb_gt; lia). done.
Qed.

Definition closed (items : list kvs) (cur : option kvs) : list kvs := match cur with Some it => items ++ [it] | None => items end.

Lemma scalar_head e : pair_ok e -> exists c t, scalar e = c :: t /\ c ∉ (["-"; "{"; "#"; "["; " "]%char : list u8).
Proof. intros [(_ & _ & _ & c & t & E & _ & Hn)%plain_key_spec _]. unfold scalar. rewrite E. by eexists _, _. Qed.

Lemma first_line e items cur : pair_ok e ->
  section_line 0 (lit "  - " ++ scalar e) items cur = Some (closed items cur, Some [e]).
Proof.
  intros He. pose proof (scalar_trimmed e He) as Ht. destruct (scalar_head e He) as (c & t & Es & Hc).
  change (lit "  - " ++ scalar e) with (repeat " "%char 2 ++ "-"%char :: " "%char :: scalar e).
  rewrite section_line_pad; [|lia| |done].
  2: { destruct Ht as [_ (d & u & -> & Hd)]. split; [by eexists _, _|]. by exists d, ("-"%char :: " "%char :: u). }
  change (strip_prefix "-" ("-"%char :: " "%char :: scalar e)) with (Some (" "%char :: scalar e)). cbv iota zeta.
  rewrite trim_space_l by done.
  assert (strip_both "{" "}" (scalar e) = None) as ->.
  { unfold strip_both. destruct (strip_prefix "{" (scalar e)) eqn:E; [|done]. exfalso. apply strip_prefix_Some in E.
    rewrite Es in E. cbn in E. injection E as -> _. apply Hc. by right; left. }
  assert (nonempty (scalar e) = true) as -> by by rewrite Es. by rewrite push_scalar.
Qed.

Lemma next_line e items it : pair_ok e ->
  section_line 0 (lit "    " ++ scalar e) items (Some it) = Some (items, Some (it ++ [e])).
Proof.
  intros He. pose proof (scalar_trimmed e He) as Ht. destruct (scalar_head e He) as (c & t & Es & Hc).
  pose proof (push_scalar e it He) as Hp. rewrite Es in *.
  change (lit "    " ++ c :: t) with (repeat " "%char 4 ++ c :: t). rewrite section_line_pad; [|lia|done|].
  2: { intros ->. apply Hc. by do 2 right; left. }
  assert (strip_prefix "-" (c :: t) = None) as ->.
  { destruct (strip_prefix "-" (c :: t)) eqn:E; [|done]. exfalso. apply strip_prefix_Some in E. cbn in E. injection E as -> _.
    apply Hc. by left. }
  by rewrite Hp.
Qed.

Lemma item_loop it rest items cur : it <> [] -> Forall pair_ok it ->
  section_loop 0 (item_lines it ++ rest) items cur = section_loop 0 rest (closed items cur) (Some it).
Proof.
  destruct it as [|e it]; [done|]. intros _ [He Hit]%Forall_cons. cbn [item_lines app section_loop]. rewrite first_line by done.
  change (e :: it) with ([e] ++ it). generalize [e] (closed items cur). clear items cur He.
  induction Hit as [|e2 it He2 _ IH]; intros acc items; [by rewrite app_nil_r|]. cbn [map app section_loop].
  rewrite next_line by done. rewrite IH. by rewrite <- app_assoc.
Qed.

Lemma items_loop its : Forall (fun it => it <> [] /\ Forall pair_ok it) its -> forall items cur,
  section_loop 0 (concat (map item_lines its)) items cur = closed items cur ++ its.
Proof.
  induction 1 as [|it its [Hne Hit] _ IH]; intros items cur; [cbn; by destruct cur; rewrite app_nil_r|].
  cbn [map concat]. rewrite item_loop by done. rewrite IH. cbn [closed]. by rewrite <- app_assoc.
Qed.

Lemma clash_keys_plain k : Forall (fun e : str * str => plain_key (fst e) = true) (clash_required k ++ clash_optional k).
Proof. by destruct k; vm_compute; repeat constructor. Qed.

Lemma clash_fields_nodup p : NoDup (map fst (clash_fields p)).
Proof.
  unfold clash_fields. rewrite map_app, map_map. cbn [map fst].
  assert (forall l : list (str * str), map (fun x => fst (let '(src, key) := x in (src, sp_params p !! key))) l = map fst l) as ->.
  { intros l. apply map_ext. by intros []. }
  destruct (sp_protocol p); apply (bool_decide_unpack _); vm_compute; exact I.
Qed.

Lemma clash_item_ok p : clash_ok p -> clash_item p <> [] /\ Forall pair_ok (clash_item p).
Proof.
  intros (Hp & Ha & Hn & Ht & La & Ln & Hk & Hm & Hr). split; [done|]. apply Forall_forall. intros [k v] Hin.
  unfold clash_item in Hin.
  assert ((k, Some v) ∈ clash_fields p) as Hf.
  { unfold opt_fields in Hin. apply list_elem_of_omap in Hin as ([k' o] & Hin & Ho). destruct o as [w|]; cbn in Ho; simplify_eq. done. }
  unfold clash_fields in Hf. apply elem_of_app in Hf as [Hf|Hf].
  - repeat (apply elem_of_cons in Hf as [[= -> ->]|Hf]; [split; [done|]; try done|]); try (by apply elem_of_nil in Hf).
    + by destruct (sp_protocol p); apply (bool_decide_unpack _).
    + apply show_uint_no; [lia|done].
  - apply list_elem_of_fmap in Hf as ([src key] & [= -> Hv] & Hin'). symmetry in Hv. split.
    + pose proof (clash_keys_plain (sp_protocol p)) as Hpl. rewrite Forall_forall in Hpl. apply (Hpl _ Hin').
    + by destruct (Hm key v Hv) as (_ & _ & ?).
Qed.

Definition nonempty_opt (o : option str) : option str := v ← o; if nonempty v then Some v else None.

Lemma nonempty_opt_id (o : option str) : o <> Some [] -> nonempty_opt o = o.
Proof. by destruct o as [[|c s]|]. Qed.

Lemma item_get p src : assoc (clash_item p) src = field (clash_fields p) src.
Proof. apply assoc_opt_fields, clash_fields_nodup. Qed.

Lemma item_get_nonempty p src : get_nonempty (clash_item p) src = nonempty_opt (field (clash_fields p) src).
Proof. unfold get_nonempty. by rewrite item_get. Qed.

(** A field of a profile whose kind is known. *)
Ltac kv_field :=
  repeat (rewrite field_cons; first [rewrite decide_True by reflexivity | rewrite decide_False by discriminate]); reflexivity.

(** The parameters of a kind, from the lookups of the item. *)
Lemma clash_params_read p : clash_ok p -> clash_params (sp_protocol p) (clash_item p) = Ok (sp_params p).
Proof.
  intros (_ & _ & _ & _ & _ & _ & Hk & Hm & Hr).
  assert (forall key, sp_params p !! key <> Some []) as Hne by (intros key Hv; by destruct (Hm key [] Hv) as (_ & ? & _)).
  assert (forall src key acc, field (clash_fields p) src = sp_params p !! key ->
    opt (clash_item p) src key acc = match sp_params p !! key with Some v => <[key := v]> acc | None => acc end) as Hopt.
  { intros src key acc Hf. unfold opt. by rewrite item_get_nonempty, Hf, nonempty_opt_id. }
  assert (forall src key acc, (src, key) ∈ clash_required (sp_protocol p) -> field (clash_fields p) src = sp_params p !! key ->
    req (clash_item p) src key acc = Ok (match sp_params p !! key with Some v => <[key := v]> acc | None => acc end)) as Hreq.
  { intros src key acc Hin Hf. unfold req. rewrite item_get_nonempty, Hf, nonempty_opt_id by done.
    rewrite Forall_forall in Hr. destruct (Hr _ Hin) as [v Hv]. cbn [snd] in Hv. by rewrite Hv. }
  assert (forall src acc, field (clash_fields p) src = None -> forall key, opt (clash_item p) src key acc = acc) as Hno.
  { intros src acc Hf key. unfold opt. by rewrite item_get_nonempty, Hf. }
  assert (forall keys : list str, map_Forall (fun k _ => k ∈ keys) (sp_params p) ->
    fold_left (fun acc k => match sp_params p !! k with Some v => <[k := v]> acc | None => acc end) keys ∅ = sp_params p) as Hre.
  { apply rebuild_id. }
  assert (map_Forall (fun k _ => k ∈ map snd (clash_required (sp_protocol p) ++ clash_optional (sp_protocol p))) (sp_params p)) as Hdom.
  { eapply map_Forall_impl; [exact Hm|]. by intros k v [? _]. }
  unfold clash_fields in *. destruct (sp_protocol p) eqn:Ek; unfold clash_params; cbn [clash_required clash_optional map app] in *.
  - rewrite (Hreq "uuid" "uuid"); [|by left|kv_field]. cbn [mbind res_bind].
    rewrite (Hopt "flow" "flow") by kv_field. rewrite (Hno "servername") by kv_field. rewrite (Hopt "sni" "sni") by kv_field.
    rewrite (Hopt "network" "type") by kv_field. rewrite (Hopt "client-fingerprint" "fp") by kv_field.
    rewrite (Hopt "alpn" "alpn") by kv_field. f_equal. exact (Hre _ Hdom).
  - rewrite (Hreq "cipher" "method"); [|by left|kv_field]. cbn [mbind res_bind].
    rewrite (Hreq "password" "password"); [|by right; left|kv_field]. f_equal. exact (Hre _ Hdom).
  - rewrite (Hreq "password" "password"); [|by left|kv_field]. cbn [mbind res_bind].
    rewrite (Hopt "sni" "sni") by kv_field. rewrite (Hopt "alpn" "alpn") by kv_field. f_equal. exact (Hre _ Hdom).
  - exfalso. set_solver.
  - exfalso. set_solver.
  - rewrite (Hopt "username" "username") by kv_field. rewrite (Hopt "password" "password") by kv_field. f_equal. exact (Hre _ Hdom).
  - rewrite (Hopt "username" "username") by kv_field. rewrite (Hopt "password" "password") by kv_field. f_equal. exact (Hre _ Hdom).
  - rewrite (Hreq "password" "auth"); [|by left|kv_field]. cbn [mbind res_bind].
    rewrite (Hopt "sni" "sni") by kv_field. rewrite (Hopt "obfs" "obfs") by kv_field.
    rewrite (Hopt "obfs-password" "obfs-password") by kv_field. f_equal. exact (Hre _ Hdom).
  - rewrite (Hreq "uuid" "uuid"); [|by left|kv_field]. cbn [mbind res_bind].
    rewrite (Hreq "password" "password"); [|by right; left|kv_field]. cbn [mbind res_bind].
    rewrite (Hopt "sni" "sni") by kv_field. rewrite (Hopt "alpn" "alpn") by kv_field. f_equal. exact (Hre _ Hdom).
Qed.

Lemma item_read p : clash_ok p -> item_to_profile (clash_item p) = Ok p.
Proof.
  intros Hok. pose proof (clash_params_read p Hok) as Hpar. destruct Hok as (Hp & Ha & Hn & Ht & _ & _ & Hk & _).
  unfold item_to_profile. rewrite !item_get, !item_get_nonempty.
  assert (field (clash_fields p) "type" = Some (clash_kind (sp_protocol p)) /\ field (clash_fields p) "server" = Some (sp_address p)
    /\ field (clash_fields p) "port" = Some (show_uint (sp_port p)) /\ field (clash_fields p) "name" = Some (sp_name p))
    as (-> & -> & -> & ->) by (unfold clash_fields; split_and!; kv_field).
  cbn [ok_or mbind res_bind option_bind].
  assert (clash_type (clash_kind (sp_protocol p)) = Ok (sp_protocol p)) as ->.
  { destruct (sp_protocol p); try reflexivity; exfalso; set_solver. }
  cbn [mbind res_bind]. rewrite !nonempty_opt_id by congruence. cbn [ok_or mbind res_bind].
  assert (parse_u16 (show_uint (sp_port p)) = Some (sp_port p)) as -> by (apply parse_show_uint; lia).
  cbn [mbind option_bind]. rewrite (proj2 (Z.eqb_neq _ _)) by lia. cbn [ok_or mbind res_bind]. rewrite Hpar.
  cbn [mbind res_bind from_option id]. destruct p. cbn in *. by subst.
Qed.

Lemma item_sound kv : no_panic (item_to_profile kv)
  /\ forall p, item_to_profile kv = Ok p -> 0 < sp_port p <= 65535 /\ sp_name p <> [] /\ sp_address p <> [] /\ sp_tags p = [].
Proof.
  assert (forall src v, get_nonempty kv src = Some v -> v <> []) as Hne.
  { intros src v. unfold get_nonempty. destruct (assoc kv src) as [[|c s]|]; cbn; intros; by simplify_eq. }
  assert (forall src key m, no_panic (req kv src key m)) as Hreq.
  { intros. unfold req. apply no_panic_bind; [auto with resdb|discriminate]. }
  unfold item_to_profile. split.
  - apply no_panic_bind; [auto with resdb|]. intros kind _. apply no_panic_bind.
    { unfold clash_type. repeat case_decide; discriminate. }
    intros k _. apply no_panic_bind; [auto with resdb|]. intros a _. apply no_panic_bind; [auto with resdb|]. intros q _.
    apply no_panic_bind; [|discriminate]. unfold clash_params.
    destruct k; try discriminate; repeat (apply no_panic_bind; [apply Hreq|intros ? _]); try discriminate; apply Hreq.
  - intros p H. apply ok_bind in H as (kind & _ & H). apply ok_bind in H as (k & _ & H).
    apply ok_bind in H as (a & Ha & H). apply ok_bind in H as (q & Hq & H). apply ok_bind in H as (m & _ & H).
    match type of H with Ok ?x = Ok _ => assert (p = x) as -> by congruence end.
    destruct (get_nonempty kv "server") as [x|] eqn:Ex; [|done]. cbn in Ha. assert (x = a) as -> by congruence.
    destruct (assoc kv "port") as [ps|]; [|done]. cbn in Hq. destruct (parse_u16 ps) as [z|] eqn:Ez; [|done]. cbn in Hq.
    destruct (z =? 0) eqn:E0; [done|]. cbn in Hq. assert (z = q) as -> by congruence.
    apply parse_uint_bound in Ez; [|lia]. cbn [sp_port sp_name sp_address sp_tags].
    split; [lia|]. split; [|split; [exact (Hne _ _ Ex)|done]].
    destruct (get_nonempty kv "name") as [n|] eqn:En; cbn [from_option id]; [exact (Hne _ _ En)|]. apply Hne in Ex. by destruct a.
Qed.

(** The lines of a document. *)
Lemma item_lines_ok it : Forall pair_ok it -> Forall (fun l => LF ∉ l /\ ends_cr l = false) (item_lines it).
Proof.
  assert (forall pre e, LF ∉ pre -> pair_ok e -> LF ∉ pre ++ scalar e /\ ends_cr (pre ++ scalar e) = false) as Hone.
  { intros pre [k v] Hpre [(Ht & Hcol & Hlf & _)%plain_key_spec Hv]. cbn [fst snd] in *. split.
    - unfold scalar. cbn [fst snd]. rewrite !not_elem_of_app. split_and!; try done; apply (bool_decide_unpack _); vm_compute; exact I.
    - destruct (ends_cr _) eqn:E; [|done]. apply ends_with_spec in E as [w E]. unfold scalar in E. rewrite !app_assoc in E.
      by apply app_inj_2 in E as [_ [=]]. }
  intros H. destruct H as [|e it He Hit]; [constructor|]. cbn [item_lines]. constructor.
  - apply Hone; [|done]. apply (bool_decide_unpack _). vm_compute. exact I.
  - apply Forall_map. eapply Forall_impl; [exact Hit|]. intros x Hx. apply Hone; [|done].
    apply (bool_decide_unpack _). vm_compute. exact I.
Qed.

Lemma clash_lines ps : Forall clash_ok ps ->
  lines (clash_text ps) = lit "proxies:" :: concat (map item_lines (map clash_item ps)).
Proof.
  intros H. unfold clash_text.
  assert (Forall (fun l => LF ∉ l /\ ends_cr l = false) (lit "proxies:" :: concat (map item_lines (map clash_item ps)))) as Hl.
  { constructor; [split; [apply (bool_decide_unpack _); vm_compute; exact I|done]|]. apply Forall_concat, Forall_map, Forall_map.
    eapply Forall_impl; [exact H|]. intros p Hp. apply item_lines_ok. by apply clash_item_ok. }
  apply lines_terminated; eapply Forall_impl; try exact Hl; by intros l [? ?].
Qed.

Lemma clash_read ps : ps <> [] -> Forall clash_ok ps -> parse_clash (clash_text ps) = map Ok ps.
Proof.
  intros Hne H. unfold parse_clash. rewrite clash_lines by done.
  set (rest := concat _). assert (find_section (lit "proxies:" :: rest) = Some (0%nat, rest)) as -> by reflexivity. cbv iota.
  unfold rest. rewrite items_loop.
  2: { apply Forall_map. eapply Forall_impl; [exact H|]. apply clash_item_ok. }
  cbn [closed app]. destruct ps as [|p ps]; [done|]. change (map clash_item (p :: ps)) with (clash_item p :: map clash_item ps).
  cbv iota. change (clash_item p :: map clash_item ps) with (map clash_item (p :: ps)). rewrite map_map.
  apply map_ext_Forall. eapply Forall_impl; [exact H|]. apply item_read.
Qed.

(** The pieces of a flow map that hold no delimiter. *)
Definition delimiter (c : u8) : bool := bool_decide (c ∈ ([","; "["; "]"; "{"; "}"]%char : list u8)).

Lemma flow_scan_piece w s i start : Forall (fun c => delimiter c = false) w ->
  flow_scan (w ++ s) i 0 start = flow_scan s (i + length w) 0 start.
Proof.
  intros H. revert i. induction H as [|c w Hc _ IH]; intros i; [cbn; by rewrite Nat.add_0_r|]. cbn [app flow_scan].
  unfold delimiter in Hc. apply bool_decide_eq_false in Hc.
  rewrite !decide_False by (intros ->; apply Hc; apply (bool_decide_unpack _); vm_compute; exact I). rewrite IH. cbn [length]. f_equal. lia.
Qed.

Lemma flow_map_pieces ws pre out : ws <> [] -> Forall (Forall (fun c => delimiter c = false)) ws ->
  fold_left (fun out '(a, b) => push_kv (slice a b (pre ++ join "," ws)) out) (flow_scan (join "," ws) (length pre) 0 (length pre)) out
  = fold_left (fun out w => push_kv w out) ws out.
Proof.
  intros Hne H. revert pre out. induction H as [|w ws Hw Hws IH]; intros pre out; [done|].
  assert (forall x, slice (length pre) (length pre + length w) (pre ++ w ++ x) = w) as Hsl.
  { intros x. unfold slice. rewrite drop_app_length. replace (length pre + length w - length pre)%nat with (length w) by lia.
    apply take_app_length. }
  destruct ws as [|w2 ws].
  - cbn [join]. pose proof (flow_scan_piece w [] (length pre) (length pre) Hw) as Hp. rewrite app_nil_r in Hp. rewrite Hp.
    cbn [flow_scan fold_left]. specialize (Hsl []). rewrite app_nil_r in Hsl. by rewrite Hsl.
  - change (join "," (w :: w2 :: ws)) with (w ++ ","%char :: join "," (w2 :: ws)). rewrite flow_scan_piece by done.
    cbn [flow_scan]. rewrite !decide_False by done. rewrite decide_True by done. change (0 =? 0) with true. cbv iota.
    cbn [fold_left]. rewrite Hsl. specialize (IH ltac:(done) (pre ++ w ++ lit ",") (push_kv w out)).
    rewrite !length_app in IH. cbn [length lit String.list_ascii_of_string] in IH.
    replace (length pre + (length w + 1))%nat with (S (length pre + length w)) in IH by lia.
    rewrite <- !app_assoc in IH. exact IH.
Qed.

Lemma trim_start_clash ps : trim_start (clash_text ps) = clash_text ps.
Proof. by apply (trim_start_graphic "p"%char). Qed.

Lemma parse_clash_sound s r : r ∈ parse_clash s -> no_panic r
  /\ forall p, r = Ok p -> 0 < sp_port p <= 65535 /\ sp_name p <> [] /\ sp_address p <> [] /\ sp_tags p = [].
Proof.
  assert (forall e, r ∈ [Err e] -> no_panic r
    /\ forall p, r = Ok p -> 0 < sp_port p <= 65535 /\ sp_name p <> [] /\ sp_address p <> [] /\ sp_tags p = []) as He.
  { intros e ->%list_elem_of_singleton. by split; [|]. }
  unfold parse_clash. destruct (find_section (lines s)) as [[b rest]|]; [|apply He].
  destruct (section_loop b rest [] None) as [|it its]; [apply He|]. intros (kv & -> & _)%list_elem_of_fmap. apply item_sound.
Qed.

(** ** Properties *)

(** A Clash document in block form is read back as the profiles it was written
    from, of all seven kinds and whatever their texts hold but a line feed; a flow
    map is read piece by piece, commas inside brackets not counting. On any input
    the parser does not panic and gives only profiles with a non-zero port. *)
Theorem clash_reads_back (s : str) (ps : list ServerProfile) (ws : list str) :
  (ps <> [] -> Forall clash_ok ps -> parse_clash (clash_text ps) = map Ok ps)
  /\ (ws <> [] -> Forall (Forall (fun c => delimiter c = false)) ws ->
        parse_flow_map (join "," ws) [] = fold_left (fun out w => push_kv w out) ws [])
  /\ (forall r, r ∈ parse_clash s -> no_panic r /\ forall p, r = Ok p ->
        0 < sp_port p <= 65535 /\ sp_name p <> [] /\ sp_address p <> [] /\ sp_tags p = []).
Proof.
  split; [apply clash_read|]. split; [intros Hne Hws; by apply (flow_map_pieces ws [])|]. apply parse_clash_sound.
Qed.

Definition sample_clash : ServerProfile :=
  {| sp_name := "DE: [1]"; sp_protocol := Hysteria2; sp_address := "2001:db8::1"; sp_port := 8443;
     sp_params := <["auth" : str := "a, b" : str]> (<["obfs" : str := "salamander" : str]> (∅ : str_map)); sp_tags := [] |}.

Lemma clash_reads_back_witness : parse_clash (clash_text [sample_clash]) = [Ok sample_clash].
Proof.
  destruct (clash_reads_back [] [sample_clash] []) as [H _]. apply H; [done|]. constructor; [|constructor].
  unfold clash_ok. cbn [sample_clash sp_port sp_address sp_name sp_tags sp_protocol sp_params].
  clear H. split; [lia|]. split; [discriminate|]. split; [discriminate|]. split; [reflexivity|].
  do 3 (split; [apply (bool_decide_eq_true_1 _); vm_compute; reflexivity|]).
  split; [apply (bool_decide_eq_true_1 _); vm_compute; reflexivity|]. constructor; [|constructor]. by eexists.
Defined.
