(* ===== verification/Subscription.v ===== *)
(** * Subscriptions ([crates/core/src/parse/subscription.rs])

    The composition of all importers: the body is recognised as JSON, Clash or a
    list of links, which may be in Base64. *)

From S2P Require Import Prelude RustStr Utf8 Model Base64 Uri Link F64 Json Import Singbox Xray Clash.

Definition decode_body (body : str) : res ParseError str :=
  let trimmed := trim body in
  if contains "://" trimmed then Ok trimmed
  else
    match decode_to_string trimmed with
    | Ok decoded => if contains "://" decoded then Ok decoded else Ok trimmed
    | Err _ => Ok trimmed
    | Panic => Panic
    end.

Definition link_line (l : str) : bool :=
  negb (is_empty l) && negb (starts_with "#" l) && negb (starts_with "//" l).

Definition parse_subscription (body : str) : list (res ParseError ServerProfile) :=
  let t := trim_start body in
  if starts_with "{" t || starts_with "[" t then
    let sb := parse_singbox_config body in
    if existsb is_ok sb then sb
    else
      let xr := parse_xray_config body in
      if existsb is_ok xr then xr else xr
  else if contains "proxies:" t then parse_clash body
  else
    match decode_body body with
    | Ok text => map parse_link (filter (fun l => link_line l = true) (map trim (lines text)))
    | Err e => [Err e]
    | Panic => [Panic]
    end.

(** ** Specification: a list of links with comments *)

Definition LF : u8 := to_u8 10.

Definition entry_line (e : ServerProfile + str) : str := match e with inl p => share_link p | inr c => lit "#" ++ c end.

Definition entry_ok (e : ServerProfile + str) : Prop :=
  LF ∉ entry_line e /\ match e with inl p => link_ok p | inr c => trimmed (lit "#" ++ c) end.

Definition links_text (es : list (ServerProfile + str)) : str := join [LF] (map entry_line es).

Definition entry_profiles (es : list (ServerProfile + str)) : list ServerProfile :=
  omap (fun e => match e with inl p => Some p | inr _ => None end) es.

(** What every result of an import satisfies. *)
Definition import_sound (r : res ParseError ServerProfile) : Prop :=
  no_panic r /\ forall p, r = Ok p -> 0 <= sp_port p <= 65535 /\ sp_name p <> [] /\ sp_tags p = [].

(** ** Lemmas *)

Lemma lines_join ls : Forall (fun l => LF ∉ l /\ trimmed l) ls -> lines (join [LF] ls) = ls.
Proof.
  intros H. destruct ls as [|l ls]; [done|]. unfold lines. change (split_char (to_u8 10)) with (split_char LF).
  rewrite (split_join_pieces LF (l :: ls)); [|done|eapply Forall_impl; [exact H|]; by intros x [? _]].
  assert (forall l, trimmed l -> strip_cr l = l /\ l <> []) as Hs.
  { intros x [(c & t & Ec & _) (d & u & -> & Hd)]. split; [|by destruct u]. apply strip_cr_id. unfold ends_cr.
    destruct (ends_with _ _) eqn:E; [|done]. apply ends_with_spec in E as [k E]. apply app_inj_2 in E as [_ [= ->]]; done. }
  induction H as [|x xs [_ Hx] Hxs IH]; [done|]. destruct (Hs x Hx) as [Ex Hne].
  destruct xs as [|y ys]; [cbn; by destruct x|]. cbn [lines_of] in *. by rewrite Ex, IH.
Qed.

Lemma share_link_trimmed p : link_ok p -> trimmed (share_link p) /\ contains "://" (share_link p) = true
  /\ link_line (share_link p) = true /\ starts_with "{" (share_link p) = false /\ starts_with "[" (share_link p) = false.
Proof.
  intros (_ & _ & Hn & _). destruct (share_link_shape p) as [t E]. rewrite E.
  destruct (link_scheme_ok (sp_protocol p)) as (_ & _ & c & w & Ew & Hc).
  assert (percent_encode (sp_name p) <> []) as He by (intros ?%percent_encode_nil; done).
  destruct (exists_last He) as (l & d & Ed). split; [|split].
  - split; [rewrite Ew; by eexists _, _|]. exists d, (link_scheme (sp_protocol p) ++ lit "://" ++ t ++ l). split.
    + rewrite Ed. by rewrite <- !app_assoc.
    + apply unreserved_graphic, (percent_encode_chars (sp_name p)). rewrite Ed. set_solver.
  - apply contains_spec_str. by eexists _, _.
  - by destruct (sp_protocol p).
Qed.

Lemma entry_trimmed e : entry_ok e -> LF ∉ entry_line e /\ trimmed (entry_line e).
Proof. destruct e as [p|c]; intros [Hlf He]; (split; [done|]); [by apply share_link_trimmed|done]. Qed.

Lemma links_trimmed es : es <> [] -> Forall entry_ok es -> trimmed (links_text es).
Proof.
  intros Hne H. unfold links_text. induction H as [|e es He Hes IH]; [done|]. apply entry_trimmed in He as [_ He].
  destruct es as [|e2 es]; [done|]. change (join [LF] (map entry_line (e :: e2 :: es)))
    with (entry_line e ++ [LF] ++ join [LF] (map entry_line (e2 :: es))). apply trimmed_app; [done|by apply IH].
Qed.

Lemma links_read es : Forall entry_ok es ->
  map parse_link (filter (fun l => link_line l = true) (map trim (lines (links_text es)))) = map Ok (entry_profiles es).
Proof.
  intros H. unfold links_text. rewrite lines_join by (apply Forall_map; eapply Forall_impl; [exact H|]; apply entry_trimmed).
  unfold entry_profiles. induction H as [|[p|c] es He _ IH]; [done|..]; cbn [map omap list_omap entry_line];
    pose proof (entry_trimmed _ He) as [_ Ht]; cbn [entry_line] in Ht; rewrite trim_trimmed by done.
  - destruct He as [_ Hp]. rewrite filter_cons_True by (by apply share_link_trimmed). cbn [map].
    rewrite parse_share_link by done. cbn. by f_equal.
  - rewrite filter_cons_False by done. exact IH.
Qed.

Lemma links_contain es p : inl p ∈ es -> link_ok p -> contains "://" (links_text es) = true.
Proof.
  intros Hin Hp. apply share_link_trimmed in Hp as (_ & Hc & _). apply contains_spec_str in Hc as (a & b & E).
  apply contains_spec_str. unfold links_text. induction es as [|e es IH]; [by apply elem_of_nil in Hin|].
  apply elem_of_cons in Hin as [<-|Hin].
  - cbn [map entry_line]. rewrite E. destruct es as [|e2 es]; [by exists a, b|].
    exists a, (b ++ [LF] ++ join [LF] (map entry_line (e2 :: es))).
    change (join [LF] ((a ++ lit "://" ++ b) :: map entry_line (e2 :: es))) with ((a ++ lit "://" ++ b) ++ [LF] ++ join [LF] (map entry_line (e2 :: es))).
    by rewrite <- !app_assoc.
  - destruct (IH Hin) as (x & y & Exy). destruct es as [|e2 es]; [by apply elem_of_nil in Hin|].
    exists (entry_line e ++ [LF] ++ x), y.
    change (join [LF] (map entry_line (e :: e2 :: es))) with (entry_line e ++ [LF] ++ join [LF] (map entry_line (e2 :: es))).
    rewrite Exy. by rewrite <- !app_assoc.
Qed.

Lemma encoded_symbols text c : c ∈ encode_standard text -> graphic c = true /\ c <> ":"%char /\ c <> "{"%char /\ c <> "["%char.
Proof.
  intros H. assert (c ∈ "="%char :: ALPHABET) as Ha.
  { destruct (decide (c ∈ "="%char :: ALPHABET)); [done|]. exfalso. by eapply encode_standard_no. }
  assert (Forall (fun c => graphic c = true /\ c <> ":"%char /\ c <> "{"%char /\ c <> "["%char) ("="%char :: ALPHABET)) as Hall
    by (apply (bool_decide_unpack _); vm_compute; exact I).
  by eapply Forall_forall in Hall.
Qed.

Lemma head_not (a : u8) s : (forall c t, s = c :: t -> c <> a) -> starts_with [a] s = false.
Proof.
  intros H. destruct (starts_with [a] s) eqn:E; [|done]. apply starts_with_spec in E as [k E]. exfalso. by apply (H a k).
Qed.

Lemma decode_body_links es p : Forall entry_ok es -> inl p ∈ es ->
  decode_body (links_text es) = Ok (links_text es)
  /\ (utf8_valid (links_text es) = true -> decode_body (encode_standard (links_text es)) = Ok (links_text es)).
Proof.
  intros H Hin. assert (es <> []) as Hne by (intros ->; by apply elem_of_nil in Hin).
  assert (contains "://" (links_text es) = true) as Hc.
  { rewrite Forall_forall in H. destruct (H _ Hin) as [_ Hp]. by eapply links_contain. }
  split.
  - unfold decode_body. rewrite trim_trimmed by (by apply links_trimmed). by rewrite Hc.
  - intros Hv. unfold decode_body.
    assert (forall c, c ∈ encode_standard (links_text es) -> graphic c = true) as Hg by (intros c Hin'; by destruct (encoded_symbols _ _ Hin')).
    assert (trim (encode_standard (links_text es)) = encode_standard (links_text es)) as ->.
    { destruct (encode_standard (links_text es)) as [|a t] eqn:E; [done|]. rewrite <- E in *.
      apply trim_trimmed, all_graphic_trimmed; [by rewrite E|]. by apply Forall_forall. }
    assert (contains "://" (encode_standard (links_text es)) = false) as ->.
    { destruct (contains "://" (encode_standard (links_text es))) eqn:E; [|done]. apply contains_spec_str in E as (a & b & E).
      assert (":"%char ∈ encode_standard (links_text es)) as Hin' by (rewrite E; apply elem_of_app; right; apply elem_of_app; left; by left).
      by destruct (encoded_symbols _ _ Hin') as (_ & ? & _). }
    unfold decode_to_string. rewrite decode_encode. cbn [mbind res_bind]. unfold from_utf8. rewrite Hv. cbn [ok_or]. by rewrite Hc.
Qed.

(** The links of a body that is recognised as a list of links. *)
Lemma subscription_links body es : starts_with "{" (trim_start body) = false -> starts_with "[" (trim_start body) = false ->
  contains "proxies:" (trim_start body) = false -> decode_body body = Ok (links_text es) -> Forall entry_ok es ->
  parse_subscription body = map Ok (entry_profiles es).
Proof.
  intros H1 H2 H3 Hd H. unfold parse_subscription. rewrite H1, H2, H3, Hd. cbn [orb]. by apply links_read.
Qed.

Lemma trimmed_start s : trimmed s -> trim_start s = s.
Proof. intros [(c & t & -> & Hc) _]. by apply trim_start_graphic. Qed.

Lemma encoded_body es p : Forall entry_ok es -> inl p ∈ es -> utf8_valid (links_text es) = true ->
  parse_subscription (encode_standard (links_text es)) = map Ok (entry_profiles es).
Proof.
  intros H Hin Hv. set (e := encode_standard (links_text es)).
  assert (forall c, c ∈ e -> graphic c = true /\ c <> ":"%char /\ c <> "{"%char /\ c <> "["%char) as Hs by (intros c; apply encoded_symbols).
  assert (trim_start e = e) as Et.
  { destruct e as [|c t] eqn:E; [done|]. apply trim_start_graphic. by destruct (Hs c ltac:(by left)). }
  apply (subscription_links _ es); rewrite ?Et.
  - apply head_not. intros c t E. rewrite E in Hs. by destruct (Hs c ltac:(by left)) as (_ & _ & ? & _).
  - apply head_not. intros c t E. rewrite E in Hs. by destruct (Hs c ltac:(by left)) as (_ & _ & _ & ?).
  - destruct (contains "proxies:" e) eqn:E; [|done]. apply contains_spec_str in E as (a & b & E).
    destruct (Hs ":"%char) as (_ & ? & _); [rewrite E; apply elem_of_app; right; apply elem_of_app; left; by do 7 right; left|done].
  - by apply (decode_body_links es p).
  - done.
Qed.

(** An Xray outbound is no sing-box outbound. *)
Lemma no_type_err ob : get_str ob "type" = None -> is_ok (singbox_outbound ob) = false.
Proof. intros H. unfold singbox_outbound. by rewrite H. Qed.

Lemma xray_not_singbox s v : json_document v (chars s) ->
  (exists ps, v = obj [(lit "outbounds", Some (Array (map xray_json ps)))]) \/ (exists cs, v = Array (map config_json cs)) ->
  existsb is_ok (parse_singbox_config s) = false.
Proof.
  intros Hs%json_parse_document Hv. unfold parse_singbox_config. rewrite Hs.
  assert (forall l, Forall (fun ob => get_str ob "type" = None) l -> existsb is_ok (map singbox_outbound l) = false) as Hl.
  { induction 1 as [|ob l Ho _ IH]; [done|]. cbn [map existsb]. by rewrite no_type_err, IH. }
  destruct Hv as [[ps ->]|[cs ->]].
  - assert (get_array (obj [(lit "outbounds", Some (Array (map xray_json ps)))]) "outbounds" = Some (map xray_json ps)) as E
      by (unfold get_array; by get_field).
    unfold obj in E |- *. rewrite E. apply Hl, Forall_map, Forall_forall. intros p _. unfold get_str, xray_json. by get_field.
  - apply Hl, Forall_map, Forall_forall. intros c _. unfold get_str, config_json. by get_field.
Qed.

Lemma all_ok_existsb {A} (l : list A) : l <> [] -> existsb is_ok (map (Ok (E := ParseError)) l) = true.
Proof. by destruct l. Qed.

Lemma import_sound_all s r : r ∈ parse_subscription s -> import_sound r.
Proof.
  unfold parse_subscription. destruct (_ || _).
  - assert (r ∈ parse_singbox_config s -> import_sound r) as H1.
    { destruct (singbox_config_sound s) as [Hn Hp]. intros Hin. rewrite Forall_forall in Hn. split; [by apply Hn|].
      intros p ->. destruct (Hp p Hin) as (? & ? & ? & ?). done. }
    assert (r ∈ parse_xray_config s -> import_sound r) as H2.
    { intros Hin. destruct (xray_config_sound s r Hin) as [Hn Hp]. split; [done|]. intros p Hr. apply (Hp p Hr). }
    repeat case_match; auto.
  - destruct (contains _ _).
    + intros Hin. destruct (parse_clash_sound s r Hin) as [Hn Hp]. split; [done|]. intros p Hr.
      destruct (Hp p Hr) as (? & ? & _ & ?). split_and!; try done; lia.
    + assert (no_panic (decode_body s)) as Hd.
      { unfold decode_body. destruct (contains _ _); [discriminate|]. pose proof (decode_to_string_no_panic (trim s)) as Hn.
        destruct (decode_to_string _); [|discriminate|done]. destruct (contains _ _); discriminate. }
      destruct (decode_body s) as [text|e|]; [|intros ->%list_elem_of_singleton; split; [discriminate|done]|done].
      intros (l & -> & _)%list_elem_of_fmap. split; [apply parse_link_no_panic|]. intros p Hp.
      destruct (parse_link_cases l) as [[e He]|[k Hk]]; [congruence|]. rewrite Hk in Hp.
      destruct (parser_sound k (trim l)) as [_ Hs]. by destruct (Hs p Hp) as (_ & ? & ? & ? & _).
Qed.

(** ** Properties *)

(** C37. Whatever its form, a subscription gives back the profiles it was made of:
    a list of share links with comments, plain or in Base64; a sing-box document;
    an Xray document or array of configurations; a Clash document. And whatever
    the body, no importer panics and every profile has a name and a port of 16
    bits. *)
Theorem subscription_reads_back (s : str) (es : list (ServerProfile + str)) (p0 : ServerProfile)
    (ps : list ServerProfile) (cs : list Config) :
  (Forall entry_ok es -> inl p0 ∈ es ->
     starts_with "{" (links_text es) = false -> starts_with "[" (links_text es) = false ->
     contains "proxies:" (links_text es) = false -> parse_subscription (links_text es) = map Ok (entry_profiles es))
  /\ (Forall entry_ok es -> inl p0 ∈ es -> utf8_valid (links_text es) = true ->
     parse_subscription (encode_standard (links_text es)) = map Ok (entry_profiles es))
  /\ (starts_with "{" (trim_start s) = true -> ps <> [] ->
     (Forall singbox_ok ps -> json_document (obj [(lit "outbounds", Some (Array (map singbox_json ps)))]) (chars s) ->
        parse_subscription s = map Ok ps)
     /\ (Forall xray_ok ps -> json_document (obj [(lit "outbounds", Some (Array (map xray_json ps)))]) (chars s) ->
        parse_subscription s = map Ok ps))
  /\ (starts_with "[" (trim_start s) = true -> cs <> [] -> Forall config_ok cs ->
     json_document (Array (map config_json cs)) (chars s) -> parse_subscription s = map Ok (concat (map nodes cs)))
  /\ (ps <> [] -> Forall clash_ok ps -> parse_subscription (clash_text ps) = map Ok ps)
  /\ (forall r, r ∈ parse_subscription s -> import_sound r).
Proof.
  split_and!.
  - intros H Hin H1 H2 H3. assert (trimmed (links_text es)) as Ht.
    { apply links_trimmed; [|done]. intros ->. by apply elem_of_nil in Hin. }
    apply subscription_links; rewrite ?trimmed_start by done; try done. by apply (decode_body_links es p0).
  - intros H Hin Hv. by apply (encoded_body es p0).
  - intros Hb Hne. split; intros H Hs; unfold parse_subscription; rewrite Hb; cbn [orb].
    + rewrite (singbox_config_read s ps) by done. by rewrite all_ok_existsb.
    + rewrite (xray_not_singbox s _ Hs) by (left; by eexists).
      apply (xray_config_one s ps) in Hs; [|done]. rewrite Hs. by rewrite all_ok_existsb.
  - intros Hb Hne H Hs. unfold parse_subscription. rewrite Hb, orb_true_r.
    rewrite (xray_not_singbox s _ Hs) by (right; by eexists). rewrite (xray_config_many s cs) by done. by case_match.
  - intros Hne H. unfold parse_subscription. rewrite trim_start_clash.
    assert (contains "proxies:" (clash_text ps) = true) as ->.
    { apply contains_spec_str. by eexists [], _. }
    assert (starts_with "{" (clash_text ps) = false /\ starts_with "[" (clash_text ps) = false) as [-> ->] by done. cbn [orb].
    by apply clash_read.
  - intros r. apply import_sound_all.
Qed.

(** A body is taken for a Clash document as soon as it holds the text [proxies:]:
    a link to a host of that name is accepted by [parse_link] and lost here. *)
Lemma proxies_host_lost :
  is_ok (parse_link "trojan://pw@proxies:443") = true
  /\ parse_subscription "trojan://pw@proxies:443" = [Err (JsonError "нет секции proxies")].
Proof. split; vm_compute; reflexivity. Qed.

Definition sample_links : list (ServerProfile + str) := [inr (lit " my nodes"); inl sample_tuic].

Lemma sample_tuic_ok : link_ok sample_tuic.
Proof.
  unfold link_ok, host_ok, port_ok. cbn [sample_tuic sp_name sp_protocol sp_address sp_port sp_tags sp_params].
  split_and!; [done|..|by eexists]; try done.
  - apply (bool_decide_unpack _). vm_compute. exact I.
  - apply (bool_decide_unpack _). vm_compute. exact I.
Qed.

Lemma subscription_reads_back_witness :
  parse_subscription (encode_standard (links_text sample_links)) = [Ok sample_tuic]
  /\ parse_subscription (links_text sample_links) = [Ok sample_tuic].
Proof.
  assert (Forall entry_ok sample_links) as Hok.
  { constructor; [|constructor; [|constructor]].
    - split; [apply (bool_decide_unpack _); vm_compute; exact I|]. split; [by eexists _, _|].
      exists "s"%char, (lit "# my node"). by split.
    - split; [apply (bool_decide_unpack _); vm_compute; exact I|exact sample_tuic_ok]. }
  assert (inl sample_tuic ∈ sample_links) as Hin by (by right; left).
  destruct (subscription_reads_back [] sample_links sample_tuic [] []) as (H1 & H2 & _). split.
  - apply H2; [exact Hok|exact Hin|vm_compute; reflexivity].
  - apply H1; [exact Hok|exact Hin|vm_compute; reflexivity..].
Defined.
