(* ===== verification/TuicProto.v ===== *)
(** * TUIC v5 commands ([crates/net/src/tuic/proto.rs]) *)

From S2P Require Import Prelude RustStr Utf8 NetAddr NetIo.

Definition VERSION : Z := 5.
Definition CMD_AUTHENTICATE : Z := 0.
Definition CMD_CONNECT : Z := 1.
Definition CMD_PACKET : Z := 2.
Definition CMD_DISSOCIATE : Z := 3.
Definition ATYP_DOMAIN : Z := 0.
Definition ATYP_IPV4 : Z := 1.
Definition ATYP_IPV6 : Z := 2.
Definition ATYP_NONE : Z := 255.

Record PacketHead : Type := {
  ph_assoc_id : Z;
  ph_pkt_id : Z;
  ph_frag_total : Z;
  ph_frag_id : Z;
  ph_addr : option Target
}.

#[export] Instance PacketHead_eq_dec : EqDecision PacketHead.
Proof. solve_decision. Defined.

(** [encode_address], as the bytes it appends. *)
Definition encode_address (t : Target) : res io_error bytes :=
  match t with
  | TDomain host port =>
      if (255 <? length host)%nat then Err (InvalidInput "tuic: домен длиннее 255 байт")
      else Ok ([to_u8 ATYP_DOMAIN] ++ [to_u8 (Z.of_nat (length host))] ++ host ++ be_bytes 2 port)
  | TSocket a =>
      let atyp := if is_ipv4 (sa_ip a) then ATYP_IPV4 else ATYP_IPV6 in
      Ok ([to_u8 atyp] ++ ip_octets (sa_ip a) ++ be_bytes 2 (sa_port a))
  end.

(** [encode_authenticate], [encode_connect], [encode_dissociate] *)
Definition encode_authenticate (uuid token : bytes) : bytes :=
  [to_u8 VERSION] ++ [to_u8 CMD_AUTHENTICATE] ++ uuid ++ token.

Definition encode_connect (t : Target) : res io_error bytes :=
  a ← encode_address t; Ok ([to_u8 VERSION] ++ [to_u8 CMD_CONNECT] ++ a).

Definition encode_dissociate (assoc_id : Z) : bytes :=
  [to_u8 VERSION] ++ [to_u8 CMD_DISSOCIATE] ++ be_bytes 2 assoc_id.

(** [address_len] *)
Definition address_len (t : Target) : res io_error nat :=
  match t with
  | TDomain host _ =>
      if (255 <? length host)%nat then Err (InvalidInput "tuic: домен длиннее 255 байт")
      else Ok (1 + 1 + length host + 2)%nat
  | TSocket a => Ok (if is_ipv4 (sa_ip a) then 1 + 4 + 2 else 1 + 16 + 2)%nat
  end.

(** [encode_packet_one] *)
Definition encode_packet_one (assoc_id pkt_id frag_total frag_id : Z) (addr : option Target) (payload : bytes)
    : res io_error bytes :=
  a ← (match addr with Some t => encode_address t | None => Ok [to_u8 ATYP_NONE] end);
  Ok ([to_u8 VERSION] ++ [to_u8 CMD_PACKET] ++ be_bytes 2 assoc_id ++ be_bytes 2 pkt_id
      ++ [to_u8 frag_total] ++ [to_u8 frag_id] ++ be_bytes 2 (Z.of_nat (length payload)) ++ a ++ payload).

(** The loop over the enumerated chunks. *)
Fixpoint encode_fragments (assoc_id pkt_id frag_total : Z) (t : Target) (i : nat) (cs : list bytes)
    : res io_error (list bytes) :=
  match cs with
  | [] => Ok []
  | c :: cs' =>
      let addr := if (i =? 0)%nat then Some t else None in
      d ← encode_packet_one assoc_id pkt_id frag_total (Z.of_nat i) addr c;
      ds ← encode_fragments assoc_id pkt_id frag_total t (S i) cs';
      Ok (d :: ds)
  end.

(** [payload.len().div_ceil(cap)] *)
Definition div_ceil (a b : nat) : nat := ((a + b - 1) / b)%nat.

(** [encode_packets] *)
Definition encode_packets (assoc_id pkt_id : Z) (t : Target) (payload : bytes) (max_datagram : nat)
    : res io_error (list bytes) :=
  alen ← address_len t;
  let header := (10 + alen)%nat in
  cap ← ok_or (if (header <? max_datagram)%nat then Some (max_datagram - header)%nat else None)
          (IoOther "tuic: датаграмма мала для заголовка");
  if (length payload =? 0)%nat then
    d ← encode_packet_one assoc_id pkt_id 1 0 (Some t) []; Ok [d]
  else
    let frag_total := div_ceil (length payload) cap in
    if (255 <? frag_total)%nat then Err (IoOther "tuic: слишком много фрагментов")
    else encode_fragments assoc_id pkt_id (Z.of_nat frag_total) t 0 (chunks cap payload).

(** The closure [need] of [parse_address_sync]. *)
Definition need (buf : bytes) (p n : nat) : res io_error unit :=
  if (length buf <? p + n)%nat then Err (InvalidData "tuic: адрес за границей") else Ok tt.

(** [parse_address_sync]: the position is returned. *)
Definition parse_address_sync (buf : bytes) (pos : nat) : res io_error (option Target * nat) :=
  _ ← need buf pos 1;
  b ← index buf pos;
  let atyp := val8 b in
  let pos := (pos + 1)%nat in
  if atyp =? ATYP_NONE then Ok (None, pos)
  else if atyp =? ATYP_IPV4 then
    _ ← need buf pos 6;
    o ← sub_slice pos (pos + 4) buf;
    port ← index_be16 buf (pos + 4);
    Ok (Some (TSocket {| sa_ip := v4_of_octets o; sa_port := port |}), (pos + 6)%nat)
  else if atyp =? ATYP_IPV6 then
    _ ← need buf pos 18;
    o ← sub_slice pos (pos + 16) buf;
    port ← index_be16 buf (pos + 16);
    Ok (Some (TSocket {| sa_ip := v6_of_octets o; sa_port := port |}), (pos + 18)%nat)
  else if atyp =? ATYP_DOMAIN then
    _ ← need buf pos 1;
    l ← index buf pos;
    let len := Z.to_nat (val8 l) in
    let pos := (pos + 1)%nat in
    _ ← need buf pos (len + 2);
    h ← sub_slice pos (pos + len) buf;
    port ← index_be16 buf (pos + len);
    Ok (Some (TDomain (from_utf8_lossy h) port), (pos + (len + 2))%nat)
  else Err (InvalidData ("tuic: неизвестный ATYP 0x" ++ show_hex atyp)).

(** [decode_packet] *)
Definition decode_packet (buf : bytes) : res io_error (PacketHead * bytes) :=
  if (length buf <? 10)%nat then Err (InvalidData "tuic: короткий Packet")
  else
    b0 ← index buf 0;
    b1 ← index buf 1;
    if negb (val8 b0 =? VERSION) || negb (val8 b1 =? CMD_PACKET) then Err (InvalidData "tuic: не Packet")
    else
      assoc_id ← index_be16 buf 2;
      pkt_id ← index_be16 buf 4;
      t ← index buf 6;
      f ← index buf 7;
      let frag_total := val8 t in
      let frag_id := val8 f in
      if (frag_total =? 0) || (frag_total <=? frag_id)
      then Err (InvalidData "tuic: некорректные frag_total/frag_id")
      else
        size ← index_be16 buf 8;
        '(addr, pos) ← parse_address_sync buf 10;
        end_ ← ok_or (if (pos + Z.to_nat size <=? length buf)%nat then Some (pos + Z.to_nat size)%nat else None)
                 (InvalidData "tuic: payload за границей");
        p ← sub_slice pos end_ buf;
        Ok ({| ph_assoc_id := assoc_id; ph_pkt_id := pkt_id; ph_frag_total := frag_total; ph_frag_id := frag_id;
               ph_addr := addr |}, p).

(** ** Lemmas: addresses *)

(** A target as Rust has it: its host is UTF-8. *)
Definition tuic_target_ok (t : Target) : Prop :=
  target_ok t /\ match t with TDomain h _ => utf8_valid h = true /\ (length h <= 255)%nat | _ => True end.

Lemma encode_address_ok t : tuic_target_ok t -> exists a, encode_address t = Ok a /\ address_len t = Ok (length a).
Proof.
  intros [_ H]. destruct t as [h p|a]; cbn [encode_address address_len].
  - destruct H as [_ H]. rewrite (proj2 (Nat.ltb_ge _ _)) by lia. eexists. split; [done|].
    rewrite !length_app, length_be_bytes. f_equal; cbn; lia.
  - eexists. split; [done|]. rewrite !length_app, length_be_bytes, length_ip_octets.
    by destruct (is_ipv4 _).
Qed.

Lemma need_ok buf p n : (p + n <= length buf)%nat -> need buf p n = Ok tt.
Proof. intros. unfold need. by rewrite (proj2 (Nat.ltb_ge _ _)) by lia. Qed.

Lemma need_spec buf p n : no_panic (need buf p n) /\ forall u, need buf p n = Ok u -> (p + n <= length buf)%nat.
Proof. unfold need. destruct (Nat.ltb_spec (length buf) (p + n)); by split. Qed.

(** Parsing the address written at a position. *)
Lemma parse_address_encode buf pos t a k : tuic_target_ok t -> encode_address t = Ok a -> drop pos buf = a ++ k ->
  parse_address_sync buf pos = Ok (Some t, (pos + length a)%nat).
Proof.
  intros [[Hport Hip] Ht] Ha H. pose proof (f_equal length H) as Hl. rewrite length_drop in Hl.
  unfold parse_address_sync. destruct t as [h p|[ip p]]; cbn [encode_address target_port sa_port sa_ip] in *.
  - destruct Ht as [Hu Hlen]. rewrite (proj2 (Nat.ltb_ge _ _)) in Ha by lia. apply (f_equal res_ok), (inj Some) in Ha. subst a.
    rewrite <- !app_assoc in H. rewrite !length_app, length_be_bytes in Hl. cbn [length] in Hl. rewrite (need_ok buf pos 1) by lia. cbn [mbind res_bind].
    rewrite (index_at _ _ _ _ H). cbn [mbind res_bind].
    pose proof (drop_shift pos 1 buf _ _ H eq_refl) as H1. rewrite (need_ok buf (pos + 1) 1) by (cbn in *; lia). cbn [mbind res_bind].
    change (val8 (to_u8 ATYP_DOMAIN)) with 0. cbn [Z.eqb ATYP_NONE ATYP_IPV4 ATYP_IPV6 ATYP_DOMAIN].
    rewrite (index_at _ _ _ _ H1). cbn [mbind res_bind].
    rewrite val8_to_u8, Z.mod_small, Nat2Z.id by lia.
    pose proof (drop_shift _ 1 buf _ _ H1 eq_refl) as H2. rewrite (need_ok buf (pos + 1 + 1) (length h + 2)) by (cbn in *; lia). cbn [mbind res_bind].
    rewrite (sub_slice_drop _ _ _ _ H2) by (cbn in *; lia). cbn [mbind res_bind].
    pose proof (drop_shift _ (length h) buf _ _ H2 eq_refl) as H3.
    rewrite (index_be16_drop _ _ _ _ H3) by lia. cbn [mbind res_bind].
    rewrite lossy_id by done. f_equal. f_equal. rewrite !length_app, length_be_bytes. cbn. lia.
  - apply (f_equal res_ok), (inj Some) in Ha. subst a. rewrite <- !app_assoc in H. rewrite !length_app, length_be_bytes, length_ip_octets in Hl.
    cbn [length] in Hl. rewrite (need_ok buf pos 1) by lia. cbn [mbind res_bind]. rewrite (index_at _ _ _ _ H). cbn [mbind res_bind].
    pose proof (drop_shift pos 1 buf _ _ H eq_refl) as H1. unfold ip_ok in Hip.
    destruct ip as [v|v]; cbn [is_ipv4 ip_octets ip_bits ip_width] in *.
    + change (val8 (to_u8 ATYP_IPV4)) with 1. cbn [Z.eqb Pos.eqb ATYP_NONE ATYP_IPV4].
      rewrite (need_ok buf (pos + 1) 6) by lia. cbn [mbind res_bind].
      rewrite (sub_slice_drop (pos + 1) buf (be_bytes 4 v) _ H1) by lia. cbn [mbind res_bind].
      pose proof (drop_shift _ 4 buf _ _ H1 (length_be_bytes _ _)) as H3.
      rewrite (index_be16_drop _ _ _ _ H3) by lia. cbn [mbind res_bind]. rewrite v4_octets by done.
      f_equal. f_equal. rewrite !length_app, !length_be_bytes. cbn. lia.
    + change (val8 (to_u8 ATYP_IPV6)) with 2. cbn [Z.eqb Pos.eqb ATYP_NONE ATYP_IPV4 ATYP_IPV6].
      rewrite (need_ok buf (pos + 1) 18) by lia. cbn [mbind res_bind].
      rewrite (sub_slice_drop (pos + 1) buf (be_bytes 16 v) _ H1) by lia. cbn [mbind res_bind].
      pose proof (drop_shift _ 16 buf _ _ H1 (length_be_bytes _ _)) as H3.
      rewrite (index_be16_drop _ _ _ _ H3) by lia. cbn [mbind res_bind]. rewrite v6_octets by done.
      f_equal. f_equal. rewrite !length_app, !length_be_bytes. cbn. lia.
Qed.

Lemma parse_address_none buf pos k : drop pos buf = to_u8 ATYP_NONE :: k ->
  parse_address_sync buf pos = Ok (None, (pos + 1)%nat).
Proof.
  intros H. pose proof (f_equal length H) as Hl. rewrite length_drop in Hl. cbn in Hl. unfold parse_address_sync.
  rewrite (need_ok buf pos 1) by lia. cbn [mbind res_bind]. by rewrite (index_at _ _ _ _ H).
Qed.

(** ** Lemmas: packets *)

Definition addr_ok (addr : option Target) : Prop := match addr with Some t => tuic_target_ok t | None => True end.

Lemma encode_optional_address addr : addr_ok addr ->
  exists a, (match addr with Some t => encode_address t | None => Ok [to_u8 ATYP_NONE] end) = Ok a
    /\ (forall t n, addr = Some t -> address_len t = Ok n -> length a = n) /\ (addr = None -> length a = 1%nat)
    /\ forall buf pos k, drop pos buf = a ++ k -> parse_address_sync buf pos = Ok (addr, (pos + length a)%nat).
Proof.
  intros Hok. destruct addr as [t|].
  - destruct (encode_address_ok t Hok) as (a & Ha & Hl). exists a. split_and!; [done| |done|].
    + intros t' n [= <-] Hn. congruence.
    + intros buf pos k H. by eapply parse_address_encode.
  - eexists. split; [done|]. split_and!; [done|done|]. intros buf pos k H. by eapply parse_address_none.
Qed.

Definition packet_header_ok (assoc_id pkt_id frag_total frag_id : Z) : Prop :=
  0 <= assoc_id < 65536 /\ 0 <= pkt_id < 65536 /\ 0 <= frag_id < frag_total /\ frag_total < 256.

Lemma decode_packet_one assoc_id pkt_id frag_total frag_id addr payload :
  packet_header_ok assoc_id pkt_id frag_total frag_id -> addr_ok addr -> Z.of_nat (length payload) < 65536 ->
  exists d, encode_packet_one assoc_id pkt_id frag_total frag_id addr payload = Ok d
    /\ decode_packet d = Ok ({| ph_assoc_id := assoc_id; ph_pkt_id := pkt_id; ph_frag_total := frag_total;
                                ph_frag_id := frag_id; ph_addr := addr |}, payload)
    /\ (forall t n, addr = Some t -> address_len t = Ok n -> length d = 10 + n + length payload)%nat
    /\ (addr = None -> length d = 10 + 1 + length payload)%nat.
Proof.
  intros (Ha & Hp & Hf & Ht) Haddr Hlen. destruct (encode_optional_address addr Haddr) as (a & Ea & Hla & Hln & Hparse).
  unfold encode_packet_one. rewrite Ea. cbn [mbind res_bind]. eexists. split; [done|].
  set (d := _ ++ _) at 1. assert (length d = 10 + length a + length payload)%nat as Hd.
  { unfold d. rewrite !length_app, !length_be_bytes. cbn. lia. }
  split_and!.
  - unfold decode_packet. fold d. rewrite (proj2 (Nat.ltb_ge _ _)) by lia.
    assert (drop 0 d = d) as H by done. unfold d in H at 2.
    pose proof (drop_shift 0 1 d _ _ H eq_refl) as H1. pose proof (drop_shift _ 1 d _ _ H1 eq_refl) as H2.
    pose proof (drop_shift _ 2 d _ _ H2 (length_be_bytes _ _)) as H4.
    pose proof (drop_shift _ 2 d _ _ H4 (length_be_bytes _ _)) as H6.
    pose proof (drop_shift _ 1 d _ _ H6 eq_refl) as H7. pose proof (drop_shift _ 1 d _ _ H7 eq_refl) as H8.
    pose proof (drop_shift _ 2 d _ _ H8 (length_be_bytes _ _)) as H10. cbn [Nat.add] in *.
    rewrite (index_at _ _ _ _ H), (index_at _ _ _ _ H1). cbn [mbind res_bind].
    change (val8 (to_u8 VERSION)) with VERSION. change (val8 (to_u8 CMD_PACKET)) with CMD_PACKET.
    rewrite !Z.eqb_refl. cbn [negb orb].
    rewrite (index_be16_drop _ _ _ _ H2), (index_be16_drop _ _ _ _ H4) by done. cbn [mbind res_bind].
    rewrite (index_at _ _ _ _ H6), (index_at _ _ _ _ H7). cbn [mbind res_bind].
    rewrite !val8_to_u8, (Z.mod_small frag_total), (Z.mod_small frag_id) by lia.
    rewrite (proj2 (Z.eqb_neq _ _)), (proj2 (Z.leb_gt _ _)) by lia. cbn [orb].
    rewrite (index_be16_drop _ _ _ _ H8) by lia. cbn [mbind res_bind].
    rewrite (Hparse d 10%nat _ H10). cbn [mbind res_bind]. rewrite Nat2Z.id.
    pose proof (drop_shift _ (length a) d _ _ H10 eq_refl) as Hpay.
    rewrite (proj2 (Nat.leb_le _ _)) by lia. cbn [ok_or mbind res_bind].
    rewrite <- (app_nil_r payload) in Hpay. rewrite (sub_slice_drop _ _ _ _ Hpay) by lia. done.
  - intros t n -> Hn. change (length d = 10 + n + length payload)%nat. rewrite Hd, (Hla t n) by done. lia.
  - intros ->. change (length d = 10 + 1 + length payload)%nat. rewrite Hd, Hln by done. lia.
Qed.

Lemma address_len_pos t n : address_len t = Ok n -> (1 <= n)%nat.
Proof.
  unfold address_len. destruct t as [h p|a].
  - destruct (Nat.ltb_spec 255 (length h)); [done|]. intros [= <-]. lia.
  - destruct (is_ipv4 _); intros [= <-]; lia.
Qed.

Lemma fragments_encode assoc_id pkt_id total t n cap cs : forall i,
  0 <= assoc_id < 65536 -> 0 <= pkt_id < 65536 -> Z.of_nat i + Z.of_nat (length cs) <= total -> total < 256 ->
  tuic_target_ok t -> address_len t = Ok n ->
  Forall (fun c => (0 < length c <= cap)%nat /\ Z.of_nat (length c) < 65536) cs ->
  exists ds, encode_fragments assoc_id pkt_id total t i cs = Ok ds
    /\ Forall (fun d => (length d <= 10 + n + cap)%nat) ds
    /\ map decode_packet ds = imap (fun j c => Ok ({| ph_assoc_id := assoc_id; ph_pkt_id := pkt_id;
         ph_frag_total := total; ph_frag_id := Z.of_nat (i + j);
         ph_addr := if (i + j =? 0)%nat then Some t else None |}, c)) cs.
Proof.
  intros i Ha Hp Hi Ht Hok Hn Hcs. revert i Hi. induction Hcs as [|c cs [Hc Hcl] _ IH]; intros i Hi.
  { by exists []. }
  cbn [encode_fragments length] in *.
  set (addr := if (i =? 0)%nat then Some t else None).
  assert (addr_ok addr) as Hao by (unfold addr; by destruct (i =? 0)%nat).
  assert (1 <= n)%nat as Hn1 by (by eapply address_len_pos).
  destruct (decode_packet_one assoc_id pkt_id total (Z.of_nat i) addr c) as (d & -> & Hd & Hl1 & Hl2);
    [unfold packet_header_ok; lia|done|lia|].
  destruct (IH (S i) ltac:(lia)) as (ds & -> & Hds & Hmap). cbn [mbind res_bind].
  exists (d :: ds). split; [done|]. split.
  - constructor; [|done]. unfold addr in *. destruct (i =? 0)%nat; [rewrite (Hl1 t n) by done|rewrite Hl2 by done]; lia.
  - cbn [map imap]. rewrite Hd, Hmap, Nat.add_0_r. f_equal. apply imap_ext. intros j x _. cbn.
    by replace (i + S j)%nat with (S (i + j)) by lia.
Qed.

(** ** Lemmas: safety *)

Lemma parse_address_safe buf pos :
  no_panic (parse_address_sync buf pos)
  /\ forall a p, parse_address_sync buf pos = Ok (a, p) -> (pos < p <= length buf)%nat.
Proof.
  unfold parse_address_sync. destruct (need_spec buf pos 1) as [Hp Hs].
  destruct (need buf pos 1) as [u| |]; [|by split|done]. specialize (Hs u eq_refl). cbn [mbind res_bind].
  destruct (index_ok (E := io_error) buf pos ltac:(lia)) as (b & -> & _). cbn [mbind res_bind].
  destruct (_ =? ATYP_NONE); [split; [done|]; intros a p [= _ <-]; lia|].
  assert (forall n k (f : bytes -> IpAddr), (k <= n)%nat -> n = (k + 2)%nat ->
    let m := (_ ← need buf (pos + 1) n; o ← sub_slice (pos + 1) (pos + 1 + k) buf; port ← index_be16 buf (pos + 1 + k);
       Ok (Some (TSocket {| sa_ip := f o; sa_port := port |}), (pos + 1 + n)%nat)) : res io_error (option Target * nat) in
    no_panic m /\ forall a p, m = Ok (a, p) -> (pos < p <= length buf)%nat) as Hsock.
  { intros n k f Hk -> m. unfold m. destruct (need_spec buf (pos + 1) (k + 2)) as [Hp2 Hs2].
    destruct (need buf (pos + 1) (k + 2)) as [v| |]; [|by split|done]. specialize (Hs2 v eq_refl). cbn [mbind res_bind].
    split.
    - apply no_panic_bind; [apply sub_slice_no_panic; lia|]. intros o _.
      apply no_panic_bind; [apply index_be16_no_panic; lia|]. done.
    - intros a p H. apply ok_bind in H as (o & _ & H). apply ok_bind in H as (q & _ & H). simplify_eq. lia. }
  destruct (_ =? ATYP_IPV4); [exact (Hsock 6%nat 4%nat v4_of_octets ltac:(lia) eq_refl)|].
  destruct (_ =? ATYP_IPV6); [exact (Hsock 18%nat 16%nat v6_of_octets ltac:(lia) eq_refl)|].
  destruct (_ =? ATYP_DOMAIN); [|by split].
  destruct (need_spec buf (pos + 1) 1) as [Hp1 Hs1].
  destruct (need buf (pos + 1) 1) as [v| |]; [|by split|done]. specialize (Hs1 v eq_refl). cbn [mbind res_bind].
  destruct (index_ok (E := io_error) buf (pos + 1) ltac:(lia)) as (l & -> & _). cbn [mbind res_bind].
  set (len := Z.to_nat (val8 l)). destruct (need_spec buf (pos + 1 + 1) (len + 2)) as [Hp2 Hs2].
  destruct (need buf (pos + 1 + 1) (len + 2)) as [w| |]; [|by split|done]. specialize (Hs2 w eq_refl). cbn [mbind res_bind].
  split.
  - apply no_panic_bind; [apply sub_slice_no_panic; lia|]. intros o _.
    apply no_panic_bind; [apply index_be16_no_panic; lia|]. done.
  - intros a p H. apply ok_bind in H as (o & _ & H). apply ok_bind in H as (q & _ & H). simplify_eq. lia.
Qed.

Lemma decode_packet_safe buf :
  no_panic (decode_packet buf)
  /\ forall h p, decode_packet buf = Ok (h, p) ->
       0 <= ph_frag_id h < ph_frag_total h /\ ph_frag_total h < 256 /\ (length p + 10 < length buf)%nat.
Proof.
  unfold decode_packet. destruct (Nat.ltb_spec (length buf) 10) as [|Hl]; [by split|].
  destruct (index_ok (E := io_error) buf 0 ltac:(lia)) as (b0 & -> & _).
  destruct (index_ok (E := io_error) buf 1 ltac:(lia)) as (b1 & -> & _). cbn [mbind res_bind].
  destruct (_ || _); [by split|].
  pose proof (index_be16_no_panic (E := io_error) buf 2 ltac:(lia)) as P2.
  destruct (index_be16 buf 2) as [aid| |]; [|by split|done]. cbn [mbind res_bind].
  pose proof (index_be16_no_panic (E := io_error) buf 4 ltac:(lia)) as P4.
  destruct (index_be16 buf 4) as [pid| |]; [|by split|done]. cbn [mbind res_bind].
  destruct (index_ok (E := io_error) buf 6 ltac:(lia)) as (b6 & -> & _).
  destruct (index_ok (E := io_error) buf 7 ltac:(lia)) as (b7 & -> & _). cbn [mbind res_bind].
  destruct (Z.eqb_spec (val8 b6) 0); cbn [orb]; [by split|].
  destruct (Z.leb_spec (val8 b6) (val8 b7)); [by split|].
  pose proof (index_be16_no_panic (E := io_error) buf 8 ltac:(lia)) as P8.
  destruct (index_be16 buf 8) as [sz| |]; [|by split|done]. cbn [mbind res_bind].
  destruct (parse_address_safe buf 10) as [Pa Sa].
  destruct (parse_address_sync buf 10) as [[addr pos]| |]; [|by split|done]. specialize (Sa addr pos eq_refl).
  cbn [mbind res_bind].
  destruct (Nat.leb_spec (pos + Z.to_nat sz) (length buf)); [|by split]. cbn [ok_or mbind res_bind]. split.
  - apply no_panic_bind; [apply sub_slice_no_panic; lia|]. done.
  - intros h p Heq. apply ok_bind in Heq as (q & Hq & Heq). simplify_eq. cbn. byte_bounds. split_and!; try lia.
    unfold sub_slice in Hq. destruct (_ && _); [|done]. simplify_eq. rewrite slice_length by lia. lia.
Qed.

(** The whole behaviour of [encode_packets]. *)
Lemma encode_packets_spec (assoc_id pkt_id : Z) (t : Target) (payload : bytes) (max n : nat)
    (Ha : 0 <= assoc_id < 65536) (Hp : 0 <= pkt_id < 65536) (Ht : tuic_target_ok t)
    (Hn : address_len t = Ok n) (Hlen : Z.of_nat (length payload) < 65536) :
  match encode_packets assoc_id pkt_id t payload max with
  | Ok ds =>
      exists frags, concat frags = payload /\ (1 <= length frags <= 255)%nat
        /\ Forall (fun d => (length d <= max)%nat) ds
        /\ map decode_packet ds =
           imap (fun i c => Ok ({| ph_assoc_id := assoc_id; ph_pkt_id := pkt_id;
             ph_frag_total := Z.of_nat (length frags); ph_frag_id := Z.of_nat i;
             ph_addr := if (i =? 0)%nat then Some t else None |}, c)) frags
  | Err _ => (max <= 10 + n)%nat \/ (255 * (max - (10 + n)) < length payload)%nat
  | Panic => False
  end.
Proof.
  unfold encode_packets. rewrite Hn. cbn [mbind res_bind].
  destruct (Nat.ltb_spec (10 + n) max) as [Hmax|Hmax]; [|by left]. cbn [ok_or mbind res_bind].
  set (cap := (max - (10 + n))%nat). assert (0 < cap)%nat as Hcap by lia.
  destruct (Nat.eqb_spec (length payload) 0) as [H0|H0].
  - apply length_zero_iff_nil in H0 as ->.
    destruct (decode_packet_one assoc_id pkt_id 1 0 (Some t) []) as (d & -> & Hd & Hl & _);
      [unfold packet_header_ok; lia|done|done|]. cbn [mbind res_bind].
    exists [[]]. split_and!; [done|cbn; lia|cbn; lia| |cbn; by rewrite Hd].
    apply Forall_singleton. rewrite (Hl t n) by done. cbn. lia.
  - assert (length (chunks cap payload) = div_ceil (length payload) cap) as Hcl by (by apply chunks_length).
    destruct (Nat.ltb_spec 255 (div_ceil (length payload) cap)) as [Hbig|Hbig].
    { right. unfold div_ceil in Hbig.
      pose proof (Nat.div_mod_eq (length payload + cap - 1) cap) as Hdm.
      pose proof (Nat.mod_upper_bound (length payload + cap - 1) cap). nia. }
    assert (Forall (fun c => (0 < length c <= cap)%nat /\ Z.of_nat (length c) < 65536) (chunks cap payload)) as Hch.
    { apply Forall_forall. intros c Hc. pose proof (chunks_bound cap payload Hcap) as Hb.
      rewrite Forall_forall in Hb. split; [by apply Hb|].
      apply elem_concat_length in Hc. rewrite chunks_concat in Hc by done. lia. }
    destruct (fragments_encode assoc_id pkt_id (Z.of_nat (div_ceil (length payload) cap)) t n cap (chunks cap payload) 0)
      as (ds & -> & Hds & Hmap); try done; [lia..|].
    exists (chunks cap payload). rewrite Hcl. split_and!; [by apply chunks_concat| |done| |exact Hmap].
    + rewrite <- Hcl. destruct (chunks cap payload) eqn:E; [|cbn; lia].
      pose proof (chunks_concat cap payload Hcap) as Hc. rewrite E in Hc. cbn in Hc. by subst.
    + eapply Forall_impl; [exact Hds|]. cbn. lia.
Qed.

(** ** Properties *)

(** A UDP packet of at most 65535 bytes is cut into datagrams that fit:
    sending fails only when the header leaves no room or more than 255 fragments
    would be needed; otherwise every datagram has at most [max_datagram] bytes and
    is decoded as the next of [n] fragments, with the target in the first one only,
    and the fragments put together are the payload. *)
Theorem tuic_fragmentation (assoc_id pkt_id : Z) (t : Target) (payload : bytes) (max n : nat)
    (Ha : 0 <= assoc_id < 65536) (Hp : 0 <= pkt_id < 65536) (Ht : tuic_target_ok t)
    (Hn : address_len t = Ok n) (Hlen : Z.of_nat (length payload) < 65536) :
  match encode_packets assoc_id pkt_id t payload max with
  | Ok ds =>
      exists frags, concat frags = payload /\ (1 <= length frags <= 255)%nat
        /\ Forall (fun d => (length d <= max)%nat) ds
        /\ map decode_packet ds =
           imap (fun i c => Ok ({| ph_assoc_id := assoc_id; ph_pkt_id := pkt_id;
             ph_frag_total := Z.of_nat (length frags); ph_frag_id := Z.of_nat i;
             ph_addr := if (i =? 0)%nat then Some t else None |}, c)) frags
  | Err _ => (max <= 10 + n)%nat \/ (255 * (max - (10 + n)) < length payload)%nat
  | Panic => False
  end.
Proof. by apply encode_packets_spec. Qed.

(** Decoding a datagram never panics; what it accepts has a consistent
    fragment number and a payload inside the datagram; and the address codec
    inverts the encoder for domain, IPv4 and IPv6 targets alike, at any position. *)
Theorem tuic_decode (buf : bytes) (pos : nat) (t : Target) (k : bytes) (Ht : tuic_target_ok t) :
  no_panic (decode_packet buf)
  /\ (forall h p, decode_packet buf = Ok (h, p) ->
       0 <= ph_frag_id h < ph_frag_total h /\ ph_frag_total h < 256 /\ (length p + 10 < length buf)%nat)
  /\ exists a, encode_address t = Ok a /\ address_len t = Ok (length a)
       /\ forall before, parse_address_sync (before ++ a ++ k) (length before) = Ok (Some t, (length before + length a)%nat).
Proof.
  destruct (decode_packet_safe buf) as [Hp Hs]. split; [done|]. split; [done|].
  destruct (encode_address_ok t Ht) as (a & Ha & Hl). exists a. split_and!; [done..|].
  intros before. eapply parse_address_encode; [done|done|]. apply drop_app_length.
Qed.

(** ** Witnesses *)

Definition witness_target : Target := TDomain "example.com" 53.

Lemma witness_target_ok : tuic_target_ok witness_target.
Proof. split; [split; cbn; [lia|done]|]. split; [reflexivity|cbn; lia]. Qed.

Lemma tuic_fragmentation_witness :
  exists ds, encode_packets 7 9 witness_target (of_zs [1; 2; 3; 4; 5]) 27 = Ok ds /\ length ds = 3%nat
    /\ Forall (fun d => (length d <= 27)%nat) ds.
Proof.
  pose proof (tuic_fragmentation 7 9 witness_target (of_zs [1; 2; 3; 4; 5]) 27 15 ltac:(lia) ltac:(lia)
    witness_target_ok eq_refl ltac:(cbn; lia)) as H.
  destruct (encode_packets _ _ _ _ _) as [ds| |] eqn:E; [|vm_compute in E; discriminate E..].
  exists ds. split; [done|]. split; [vm_compute in E; by injection E as <-|].
  by destruct H as (frags & _ & _ & H & _).
Defined.

Lemma tuic_decode_witness :
  parse_address_sync (of_zs [9; 9] ++ of_zs [1; 10; 0; 0; 1; 0; 80]) 2
  = Ok (Some (TSocket {| sa_ip := V4 167772161; sa_port := 80 |}), 9%nat).
Proof.
  assert (tuic_target_ok (TSocket {| sa_ip := V4 167772161; sa_port := 80 |})) as Ht.
  { split; [|done]. split; [cbn; lia|]. unfold ip_ok. cbn. lia. }
  destruct (tuic_decode [] 0 _ [] Ht) as (_ & _ & a & Ha & _ & H).
  vm_compute in Ha. injection Ha as <-. exact (H (of_zs [9; 9])).
Defined.
