(* ===== verification/Reassembly.v ===== *)
(** * Reassembly of fragmented UDP packets, the function [reassemble] of
    [crates/net/src/tuic/udp.rs] and, but for the type of the key, of
    [crates/net/src/hysteria2/udp.rs].

    Time is an instant in nanoseconds, given to each call. The iteration order of
    a [HashMap], which decides between entries created at the same instant, is a
    parameter. *)

From S2P Require Import Prelude NetIo.

Definition MAX_REASM : nat := 256.
Definition REASM_TTL : Z := 10 * 10 ^ 9.

Record Reasm : Type := {
  rs_frags : list (option bytes);
  rs_have : nat;
  rs_created : Z
}.

(** The key: flow and packet numbers. *)
Abbreviation rkey := (Z * Z)%type.
Abbreviation reasm_map := (gmap (Z * Z) Reasm).

(** [for f in r.frags { out.extend_from_slice(&f.unwrap()) }] *)
Fixpoint unwrap_all (l : list (option bytes)) : res io_error bytes :=
  match l with
  | [] => Ok []
  | o :: l' => f ← unwrap o; out ← unwrap_all l'; Ok (f ++ out)
  end.

(** [iter().min_by_key(|(_, e)| e.created)]: the first of the least. *)
Fixpoint min_by_created (l : list (rkey * Reasm)) : option (rkey * Reasm) :=
  match l with
  | [] => None
  | x :: l' =>
      match min_by_created l' with
      | None => Some x
      | Some y => if rs_created (snd x) <=? rs_created (snd y) then Some x else Some y
      end
  end.

Section Reassemble.
Context (iter : reasm_map -> list (rkey * Reasm)).

(** [map.retain(..)] and the eviction of the oldest entry. *)
Definition make_room (now : Z) (key : rkey) (m : reasm_map) : reasm_map :=
  let m := filter (fun kv => now - rs_created (snd kv) < REASM_TTL) m in
  if (MAX_REASM <=? size m)%nat && bool_decide (m !! key = None) then
    match min_by_created (iter m) with
    | Some (oldest, _) => delete oldest m
    | None => m
    end
  else m.

(** [reassemble] *)
Definition reassemble (now : Z) (m : reasm_map) (key : rkey) (frag_total frag_id : nat) (frag : bytes)
    : res io_error (reasm_map * option bytes) :=
  let m := make_room now key m in
  let entry := default {| rs_frags := replicate frag_total None; rs_have := 0; rs_created := now |} (m !! key) in
  if negb (length (rs_frags entry) =? frag_total)%nat then Ok (<[key := entry]> m, None)
  else
    cur ← index (rs_frags entry) frag_id;
    let entry :=
      match cur with
      | None => {| rs_frags := <[frag_id := Some frag]> (rs_frags entry); rs_have := S (rs_have entry);
                   rs_created := rs_created entry |}
      | Some _ => entry
      end in
    if (rs_have entry =? frag_total)%nat then
      out ← unwrap_all (rs_frags entry); Ok (delete key m, Some out)
    else Ok (<[key := entry]> m, None).

(** ** Specification *)

(** An incomplete packet: the counter counts the fragments present. *)
Definition present (l : list (option bytes)) : nat := length (filter (fun o => o <> None) l).

Definition entry_ok (e : Reasm) : Prop :=
  rs_have e = present (rs_frags e) /\ (rs_have e < length (rs_frags e) <= 255)%nat.

Definition reasm_inv (m : reasm_map) : Prop :=
  (forall k e, m !! k = Some e -> entry_ok e) /\ (size m <= MAX_REASM)%nat.

(** One received fragment. *)
Record arrival : Type := {
  ar_now : Z; ar_key : rkey; ar_total : nat; ar_id : nat; ar_frag : bytes
}.

(** What the decoders guarantee of a fragment. *)
Definition arrival_ok (a : arrival) : Prop := (ar_id a < ar_total a <= 255)%nat.

Fixpoint receive (m : reasm_map) (l : list arrival) : res io_error (reasm_map * list (option bytes)) :=
  match l with
  | [] => Ok (m, [])
  | a :: l' =>
      '(m, out) ← reassemble (ar_now a) m (ar_key a) (ar_total a) (ar_id a) (ar_frag a);
      '(m, outs) ← receive m l';
      Ok (m, out :: outs)
  end.

(** ** Lemmas *)

Lemma present_le l : (present l <= length l)%nat.
Proof. apply length_filter. Qed.

Lemma present_none n : present (replicate n None) = O.
Proof.
  induction n as [|n IH]; [done|]. change (replicate (S n) None) with (@None bytes :: replicate n None).
  unfold present in *. rewrite filter_cons. by case_decide.
Qed.

Lemma present_insert l i x : l !! i = Some None -> present (<[i := Some x]> l) = S (present l).
Proof.
  unfold present. revert i. induction l as [|o l IH]; intros [|i] H; simplify_eq/=.
  - rewrite !filter_cons. by repeat case_decide.
  - rewrite !filter_cons. case_decide; cbn; by rewrite IH.
Qed.

Lemma present_all l : present l = length l -> exists cs, l = map Some cs.
Proof.
  unfold present. induction l as [|o l IH]; intros H; [by exists []|]. rewrite filter_cons in H.
  case_decide as Ho; cbn in H.
  - destruct o as [c|]; [|done]. destruct IH as [cs ->]; [lia|]. by exists (c :: cs).
  - pose proof (length_filter (fun o : option bytes => o <> None) l). lia.
Qed.

Lemma unwrap_all_some cs : unwrap_all (map Some cs) = Ok (concat cs).
Proof. induction cs as [|c cs IH]; [done|]. cbn. by rewrite IH. Qed.

Lemma min_by_created_elem l x : min_by_created l = Some x -> x ∈ l.
Proof.
  revert x. induction l as [|y l IH]; intros x H; [done|]. cbn in H.
  destruct (min_by_created l) as [z|]; [|simplify_eq; left].
  destruct (_ <=? _); simplify_eq; [left|right; by apply IH].
Qed.

Lemma min_by_created_none l : min_by_created l = None -> l = [].
Proof. destruct l as [|x l]; [done|]. cbn. destruct (min_by_created l) as [y|]; [by destruct (_ <=? _)|done]. Qed.

(** Room is made for one entry, nothing is changed otherwise. *)
Section Room.
Context (Hiter : forall m, iter m ≡ₚ map_to_list m).

Lemma make_room_sub now key m k e : make_room now key m !! k = Some e -> m !! k = Some e.
Proof.
  unfold make_room. set (m' := filter _ m).
  assert (m' !! k = Some e -> m !! k = Some e) as H by (intros H; by apply map_lookup_filter_Some in H as [? _]).
  destruct (_ && _); [|done]. destruct (min_by_created _) as [[o ?]|]; [|done].
  rewrite lookup_delete_Some. naive_solver.
Qed.

Lemma size_filter_map (P : rkey * Reasm -> Prop) `{forall x, Decision (P x)} (m : reasm_map) :
  (size (filter P m) <= size m)%nat.
Proof. rewrite <- !size_dom. apply subseteq_size, dom_filter_subseteq. Qed.

Lemma make_room_size now key m : (size m <= MAX_REASM)%nat ->
  (size (make_room now key m) <= MAX_REASM)%nat
  /\ (make_room now key m !! key = None -> (size (make_room now key m) < MAX_REASM)%nat).
Proof using Hiter iter.
  intros Hs. unfold make_room. set (m' := filter _ m).
  assert (size m' <= size m)%nat as Hf by apply size_filter_map.
  destruct (Nat.leb_spec MAX_REASM (size m')); cbn [andb]; [|split; lia].
  case_bool_decide as Hk; [|split; [lia|done]].
  destruct (min_by_created (iter m')) as [[o e]|] eqn:Em.
  - apply min_by_created_elem in Em. rewrite (Hiter m') in Em. apply elem_of_map_to_list in Em.
    rewrite map_size_delete_Some by (by eexists). unfold MAX_REASM in *. lia.
  - apply min_by_created_none in Em. pose proof (Hiter m') as Hp. rewrite Em in Hp.
    apply Permutation_nil in Hp. pose proof (length_map_to_list m') as Hl. rewrite Hp in Hl. cbn in Hl.
    unfold MAX_REASM in *. lia.
Qed.

(** The outcome for a decoded fragment: no panic, the invariant kept. *)
Lemma reassemble_inv now m key total id frag : reasm_inv m -> (id < total <= 255)%nat ->
  exists m' out, reassemble now m key total id frag = Ok (m', out) /\ reasm_inv m'.
Proof using Hiter iter.
  intros [He Hs] Hid. unfold reassemble. destruct (make_room_size now key m Hs) as [Hr Hn].
  pose proof (make_room_sub now key m) as Hsub. set (m1 := make_room now key m) in *.
  set (entry := default _ _).
  assert (rs_have entry = present (rs_frags entry) /\ (rs_have entry < length (rs_frags entry) <= 255)%nat) as [Hh Hlt].
  { unfold entry. destruct (m1 !! key) as [e|] eqn:Ek; cbn [from_option rs_have rs_frags]; [by eapply He, Hsub|].
    rewrite length_replicate, present_none. lia. }
  assert (forall e', entry_ok e' -> reasm_inv (<[key := e']> m1)) as Hins.
  { intros e' He'. split.
    - intros k e. rewrite lookup_insert_Some. intros [[<- <-]|[_ H]]; [done|]. by eapply He, Hsub.
    - destruct (m1 !! key) as [x|] eqn:Ek.
      + by rewrite map_size_insert_Some by (by eexists).
      + rewrite map_size_insert_None by done. specialize (Hn eq_refl). lia. }
  destruct (Nat.eqb_spec (length (rs_frags entry)) total) as [Hlen|]; cbn [negb];
    [|eexists _, _; split; [done|]; apply Hins; by split].
  destruct (index_ok (E := io_error) (rs_frags entry) id ltac:(lia)) as (cur & -> & Hcur). cbn [mbind res_bind].
  set (entry' := match cur with Some _ => _ | None => _ end).
  assert (rs_have entry' = present (rs_frags entry') /\ length (rs_frags entry') = total) as [Hh' Hlen'].
  { unfold entry'. destruct cur; [done|]. cbn [rs_frags rs_have]. rewrite present_insert, length_insert by done. lia. }
  destruct (Nat.eqb_spec (rs_have entry') total) as [Hfull|Hnot].
  - destruct (present_all (rs_frags entry')) as [cs Hcs]; [lia|]. rewrite Hcs, unwrap_all_some. cbn [mbind res_bind].
    eexists _, _. split; [done|]. split.
    + intros k e H. apply lookup_delete_Some in H as [_ H]. by eapply He, Hsub.
    + etransitivity; [|exact Hr]. rewrite <- !size_dom, dom_delete. apply subseteq_size. set_solver.
  - eexists _, _. split; [done|]. apply Hins. pose proof (present_le (rs_frags entry')). split; [done|]. lia.
Qed.

End Room.

(** ** Fragments in any order

    The fragments [cs] of packet [key] arrive within [REASM_TTL] of [t0], mixed
    with those of other packets; [keys] are the packets under way. *)

Section Order.
Context (key : rkey) (cs : list bytes) (t0 : Z) (keys : gset rkey).

Definition arrival_of (a : arrival) : Prop :=
  arrival_ok a /\ t0 <= ar_now a < t0 + REASM_TTL /\ ar_key a ∈ keys
  /\ (ar_key a = key -> ar_total a = length cs /\ cs !! ar_id a = Some (ar_frag a)).

(** The fragments of [key] among some arrivals. *)
Definition seen (l : list arrival) : list nat := map ar_id (filter (fun a => ar_key a = key) l).

Definition complete (ids : list nat) : Prop := forall i, (i < length cs)%nat -> i ∈ ids.

(** The buffer when the fragments [ids] have arrived. *)
Definition masked (ids : list nat) : list (option bytes) :=
  imap (fun i c => if decide (i ∈ ids) then Some c else None) cs.

Definition order_inv (ids : list nat) (m : reasm_map) : Prop :=
  reasm_inv m /\ dom m ⊆ keys
  /\ (ids = [] /\ m !! key = None
      \/ ids <> [] /\ exists e, m !! key = Some e /\ rs_frags e = masked ids /\ t0 <= rs_created e < t0 + REASM_TTL).

Lemma masked_lookup ids i c : cs !! i = Some c -> masked ids !! i = Some (if decide (i ∈ ids) then Some c else None).
Proof. intros H. unfold masked. by rewrite list_lookup_imap, H. Qed.

Lemma masked_insert ids i c : cs !! i = Some c -> <[i := Some c]> (masked ids) = masked (i :: ids).
Proof.
  intros H. apply list_eq. intros j. destruct (decide (i = j)) as [<-|Hne].
  - rewrite list_lookup_insert_eq, (masked_lookup _ _ c H); [by rewrite decide_True by left|].
    unfold masked. rewrite length_imap. by apply lookup_lt_Some in H.
  - rewrite list_lookup_insert_ne by done. unfold masked. rewrite !list_lookup_imap.
    destruct (cs !! j); [|done]. cbn. f_equal.
    destruct (decide (j ∈ ids)) as [Hj|Hj]; [rewrite decide_True by (by right); done|].
    rewrite decide_False; [done|]. rewrite elem_of_cons. intros [?|?]; congruence.
Qed.

Lemma masked_same ids i : i ∈ ids -> masked (i :: ids) = masked ids.
Proof.
  intros H. apply imap_ext. intros j c _. destruct (decide (j ∈ ids)) as [Hj|Hj].
  - by rewrite decide_True by (by right).
  - rewrite decide_False; [done|]. rewrite elem_of_cons. intros [->|?]; done.
Qed.

Lemma masked_length ids : length (masked ids) = length cs.
Proof. apply length_imap. Qed.

Lemma masked_complete ids : complete ids -> masked ids = map Some cs.
Proof.
  intros H. apply list_eq. intros i. unfold masked. rewrite list_lookup_imap.
  change (map Some cs) with (Some <$> cs). rewrite list_lookup_fmap. destruct (cs !! i) as [c|] eqn:E; [|done]. cbn.
  rewrite decide_True; [done|]. apply H. by apply lookup_lt_Some in E.
Qed.

Lemma present_map_some (l : list bytes) : present (map Some l) = length l.
Proof. unfold present. induction l as [|c l IH]; [done|]. cbn [map]. rewrite filter_cons. case_decide; [cbn; by rewrite IH|done]. Qed.

Lemma masked_present ids : present (masked ids) = length cs -> complete ids.
Proof.
  intros H i Hi. rewrite <- (masked_length ids) in H. apply present_all in H as [ds Hd].
  destruct (lookup_lt_is_Some_2 cs i Hi) as [c Hc]. pose proof (masked_lookup ids i c Hc) as Hm.
  rewrite Hd in Hm. change (map Some ds) with (Some <$> ds) in Hm. rewrite list_lookup_fmap in Hm.
  case_decide; [done|]. by destruct (ds !! i).
Qed.

Context (Hkeys : (size keys <= MAX_REASM)%nat).

(** With at most [MAX_REASM] packets under way nothing is evicted. *)
Lemma make_room_keeps (a : arrival) (m : reasm_map) : dom m ⊆ keys -> ar_key a ∈ keys ->
  make_room (ar_now a) (ar_key a) m = filter (fun kv => ar_now a - rs_created (snd kv) < REASM_TTL) m.
Proof using Hkeys.
  intros Hd Hk. unfold make_room. set (m' := filter _ m).
  destruct (Nat.leb_spec MAX_REASM (size m')) as [Hsz|]; [|done]. case_bool_decide as Hn; [|done]. exfalso.
  assert (dom m' ⊆ keys ∖ {[ar_key a]}) as Hsub.
  { intros k Hin. assert (k ∈ dom m) by (by eapply dom_filter_subseteq). apply not_elem_of_dom in Hn. set_solver. }
  apply subseteq_size in Hsub. rewrite size_dom, size_difference, size_singleton in Hsub by set_solver.
  assert (size ({[ar_key a]} : gset rkey) <= size keys)%nat by (apply subseteq_size; set_solver).
  rewrite size_singleton in *. lia.
Qed.

Lemma filter_live (a : arrival) (m : reasm_map) e : m !! key = Some e -> t0 <= rs_created e -> ar_now a < t0 + REASM_TTL ->
  filter (fun kv : rkey * Reasm => ar_now a - rs_created (snd kv) < REASM_TTL) m !! key = Some e.
Proof. intros H Hc Ha. apply map_lookup_filter_Some. split; [done|]. cbn. clear -Hc Ha. lia. Qed.

Lemma filter_absent (a : arrival) (m : reasm_map) : m !! key = None ->
  filter (fun kv : rkey * Reasm => ar_now a - rs_created (snd kv) < REASM_TTL) m !! key = None.
Proof. intros H. apply map_lookup_filter_None. by left. Qed.

Lemma masked_nil : masked [] = replicate (length cs) None.
Proof.
  apply list_eq. intros i. unfold masked. rewrite list_lookup_imap. destruct (cs !! i) as [c|] eqn:E; cbn.
  - rewrite decide_False by (by apply not_elem_of_nil). apply lookup_lt_Some in E.
    symmetry. by apply lookup_replicate_2.
  - apply lookup_ge_None in E. symmetry. by apply lookup_replicate_None.
Qed.

(** What one call leaves at the other keys. *)
Lemma reassemble_frame (now : Z) (m : reasm_map) (k : rkey) (total id : nat) (frag : bytes) (m' : reasm_map) (out : option bytes) :
  reassemble now m k total id frag = Ok (m', out) ->
  (forall k', k' <> k -> m' !! k' = make_room now k m !! k') /\ dom m' ⊆ {[k]} ∪ dom (make_room now k m).
Proof.
  clear key cs t0 keys Hkeys. unfold reassemble. set (m1 := make_room now k m). set (entry := default _ _).
  destruct (negb _).
  { intros [= <- <-]. split; [intros k' Hk; by apply lookup_insert_ne|]. by rewrite dom_insert. }
  intros H. apply ok_bind in H as (cur & _ & H). destruct (_ =? _)%nat.
  - apply ok_bind in H as (o & _ & H). simplify_eq. split; [intros k' Hk; by apply lookup_delete_ne|].
    rewrite dom_delete. set_solver.
  - simplify_eq. split; [intros k' Hk; by apply lookup_insert_ne|]. by rewrite dom_insert.
Qed.

Lemma reassemble_dom (a : arrival) (m m' : reasm_map) (out : option bytes) : dom m ⊆ keys -> ar_key a ∈ keys ->
  reassemble (ar_now a) m (ar_key a) (ar_total a) (ar_id a) (ar_frag a) = Ok (m', out) -> dom m' ⊆ keys.
Proof using Hkeys.
  intros Hd Hk H. apply reassemble_frame in H as [_ H]. rewrite make_room_keeps in H by done.
  intros x Hx. apply H in Hx. apply elem_of_union in Hx as [Hx|Hx]; [set_solver|].
  apply Hd. by eapply dom_filter_subseteq.
Qed.

Context (Hiter : forall m, iter m ≡ₚ map_to_list m).

Lemma step_other (a : arrival) (m : reasm_map) ids : order_inv ids m -> arrival_of a -> ar_key a <> key ->
  exists m' out, reassemble (ar_now a) m (ar_key a) (ar_total a) (ar_id a) (ar_frag a) = Ok (m', out)
    /\ order_inv ids m'.
Proof using Hkeys Hiter.
  intros (Hinv & Hd & Hk) (Ha & Ht & Hin & _) Hne.
  destruct (reassemble_inv Hiter (ar_now a) m (ar_key a) _ _ (ar_frag a) Hinv Ha) as (m' & out & E & Hinv').
  exists m', out. split; [done|]. split; [done|]. split; [by eapply reassemble_dom|].
  apply reassemble_frame in E as [E _]. rewrite E by done. rewrite make_room_keeps by done.
  destruct Hk as [[-> Hk]|(Hids & e & Hk & Hf & Hc)]; [left; split; [done|by apply filter_absent]|].
  right. split; [done|]. exists e. split_and!; [|done|lia|lia]. apply filter_live; [done|lia..].
Qed.

(** A fragment of [key]: it is stored, and the last missing one completes. *)
Lemma step_key (a : arrival) (m : reasm_map) ids : order_inv ids m -> arrival_of a -> ar_key a = key -> cs <> [] ->
  exists m', reassemble (ar_now a) m (ar_key a) (ar_total a) (ar_id a) (ar_frag a)
      = Ok (m', if decide (present (masked (ar_id a :: ids)) = length cs) then Some (concat cs) else None)
    /\ (if decide (present (masked (ar_id a :: ids)) = length cs) then m' !! key = None
        else order_inv (ar_id a :: ids) m').
Proof using Hkeys Hiter.
  intros (Hinv & Hd & Hk) Hao Hkey Hne. pose proof Hao as (Ha & Ht & Hin & Hkc). destruct (Hkc Hkey) as [Htot Hc].
  destruct (reassemble_inv Hiter (ar_now a) m (ar_key a) _ _ (ar_frag a) Hinv Ha) as (m' & out & E & Hinv').
  pose proof (reassemble_dom a m m' out Hd Hin E) as Hdom'. exists m'. revert E Hinv' Hdom'.
  unfold reassemble. rewrite make_room_keeps by done. set (m1 := filter _ m). set (entry := default _ _).
  assert (rs_frags entry = masked ids /\ rs_have entry = present (masked ids)
          /\ t0 <= rs_created entry < t0 + REASM_TTL) as (Hf & Hh & Hcr).
  { unfold entry. rewrite Hkey. destruct Hk as [[-> Hk]|(Hids & e & Hk & Hfe & Hce)].
    - unfold m1. rewrite filter_absent by done. cbn [from_option rs_frags rs_have rs_created].
      by rewrite masked_nil, present_none, Htot.
    - unfold m1. rewrite (filter_live a m e) by (done || lia). cbn [from_option].
      destruct Hinv as [He _]. destruct (He _ _ Hk) as [Hh _]. by rewrite <- Hfe. }
  rewrite Hf, masked_length, Htot, Nat.eqb_refl. cbn [negb].
  unfold index. rewrite (masked_lookup _ _ _ Hc). cbn [unwrap mbind res_bind].
  set (entry' := match (if decide _ then _ else _) with Some _ => _ | None => _ end).
  assert (rs_frags entry' = masked (ar_id a :: ids) /\ rs_have entry' = present (masked (ar_id a :: ids))
          /\ rs_created entry' = rs_created entry) as (Hf' & Hh' & Hcr').
  { unfold entry'. case_decide as Hi; [rewrite masked_same by done; done|].
    cbn [rs_frags rs_have rs_created]. rewrite Hh, <- (masked_insert _ _ _ Hc), present_insert; [done|].
    rewrite (masked_lookup _ _ _ Hc). by rewrite decide_False. }
  rewrite Hh'. destruct (Nat.eqb_spec (present (masked (ar_id a :: ids))) (length cs)) as [Hfull|Hnot].
  - rewrite !decide_True by done. rewrite Hf', masked_complete, unwrap_all_some by (by apply masked_present).
    cbn [mbind res_bind]. intros [= <- <-] _ _. split; [done|]. rewrite Hkey. apply lookup_delete_eq.
  - rewrite !decide_False by done. intros [= <- <-] Hinv' Hdom'. split; [done|].
    split; [done|]. split; [done|]. right. split; [done|]. exists entry'. rewrite Hkey, lookup_insert_eq.
    split_and!; [done|done|lia|lia].
Qed.

(** The arrivals before the completing one: nothing comes out for [key]. *)
Lemma receive_incomplete l : forall (m : reasm_map) ids, order_inv ids m -> Forall arrival_of l -> cs <> [] ->
  ~ complete (reverse (seen l) ++ ids) ->
  exists m' outs, receive m l = Ok (m', outs) /\ order_inv (reverse (seen l) ++ ids) m'
    /\ Forall2 (fun a out => ar_key a = key -> out = None) l outs.
Proof using Hkeys Hiter.
  induction l as [|a l IH]; intros m ids Hi Hl Hne Hc; [by exists m, []|].
  apply Forall_cons in Hl as [Ha Hl]. cbn [receive]. unfold seen in *. rewrite filter_cons in *.
  case_decide as Hk.
  - cbn [map] in *. rewrite reverse_cons, <- app_assoc in *. cbn [app] in *.
    destruct (step_key a m ids Hi Ha Hk Hne) as (m1 & -> & H1).
    assert (present (masked (ar_id a :: ids)) <> length cs) as Hnp.
    { intros Hp. apply masked_present in Hp. apply Hc. intros i Hil. specialize (Hp i Hil). set_solver. }
    rewrite decide_False in H1 by done. rewrite decide_False by done.
    cbn [mbind res_bind]. destruct (IH m1 _ H1 Hl Hne Hc) as (m' & outs & -> & Hinv & Hf).
    cbn [mbind res_bind]. exists m', (None :: outs). split; [done|]. split; [done|]. by constructor.
  - destruct (step_other a m ids Hi Ha Hk) as (m1 & out & -> & H1). cbn [mbind res_bind].
    destruct (IH m1 _ H1 Hl Hne Hc) as (m' & outs & -> & Hinv & Hf).
    cbn [mbind res_bind]. exists m', (out :: outs). split; [done|]. split; [done|]. by constructor.
Qed.

End Order.

Lemma receive_app l k : forall (m : reasm_map), receive m (l ++ k) =
  ('(m, o1) ← receive m l; '(m, o2) ← receive m k; Ok (m, o1 ++ o2)).
Proof.
  induction l as [|a l IH]; intros m; cbn [app receive].
  - cbn. by destruct (receive m k) as [[]| |].
  - destruct (reassemble _ _ _ _ _ _) as [[m1 o]| |]; cbn [mbind res_bind]; [|done..]. rewrite IH.
    destruct (receive m1 l) as [[m2 o1]| |]; cbn [mbind res_bind]; [|done..].
    by destruct (receive m2 k) as [[m3 o2]| |].
Qed.

(** All fragments of one packet, in any order: the last arrival completes it. *)
Lemma receive_complete (key : rkey) (cs : list bytes) (t0 : Z) (keys : gset rkey)
    (m : reasm_map) (l : list arrival) (a : arrival)
    (Hiter : forall m, iter m ≡ₚ map_to_list m)
    (Hkeys : (size keys <= MAX_REASM)%nat) (Hm : reasm_inv m) (Hdom : dom m ⊆ keys) (Hnew : m !! key = None)
    (Hl : Forall (arrival_of key cs t0 keys) l) (Ha : arrival_of key cs t0 keys a) (Hk : ar_key a = key)
    (Hpart : ~ complete cs (seen key l)) (Hfull : complete cs (seen key (l ++ [a]))) :
  exists m' outs, receive m (l ++ [a]) = Ok (m', outs ++ [Some (concat cs)]) /\ m' !! key = None
    /\ Forall2 (fun b out => ar_key b = key -> out = None) l outs.
Proof.
  assert (cs <> []) as Hne.
  { intros ->. destruct Ha as (_ & _ & _ & H). by destruct (H Hk). }
  assert (forall ids, complete cs ids <-> complete cs (reverse ids ++ [])) as Hrev.
  { intros ids. unfold complete. rewrite app_nil_r. by setoid_rewrite elem_of_reverse. }
  destruct (receive_incomplete key cs t0 keys Hkeys Hiter l m []) as (m1 & outs & Hr & Hinv & Hf); try done.
  { split; [done|]. split; [done|]. by left. }
  { by rewrite <- Hrev. }
  destruct (step_key key cs t0 keys Hkeys Hiter a m1 _ Hinv Ha Hk Hne) as (m2 & E & H2).
  assert (present (masked cs (ar_id a :: reverse (seen key l) ++ [])) = length cs) as Hp.
  { rewrite masked_complete; [apply present_map_some|]. intros i Hi. specialize (Hfull i Hi). revert Hfull.
    unfold seen. rewrite filter_app, map_app, elem_of_app. rewrite filter_cons, decide_True by done. cbn.
    rewrite app_nil_r. intros [Hi'|Hi']; [right; by apply elem_of_reverse|].
    apply list_elem_of_singleton in Hi' as ->. left. }
  rewrite decide_True in E by done. rewrite decide_True in H2 by done. exists m2, outs. split_and!; [|done|done].
  rewrite receive_app, Hr. cbn [mbind res_bind receive]. rewrite E. done.
Qed.

Lemma forall2_none {A B} (P : A -> Prop) (l : list A) (outs : list (option B)) :
  Forall2 (fun b out => P b -> out = None) l outs -> Forall P l -> outs = replicate (length l) None.
Proof.
  induction 1 as [|b o l' os Ho _ IH]; intros Hp; [done|]. apply Forall_cons in Hp as [Hb Hp].
  cbn [length]. change (replicate (S (length l')) None) with (@None B :: replicate (length l') None).
  f_equal; auto.
Qed.

Lemma receive_permutation (key : rkey) (cs : list bytes) (t0 : Z) (m : reasm_map) (l : list arrival) (a : arrival)
    (Hiter : forall m, iter m ≡ₚ map_to_list m)
    (Hm : reasm_inv m) (Hsz : (size m < MAX_REASM)%nat) (Hnew : m !! key = None) (Hn : (length cs <= 255)%nat)
    (Hl : Forall (fun b => ar_key b = key /\ ar_total b = length cs /\ t0 <= ar_now b < t0 + REASM_TTL) (l ++ [a]))
    (Hp : map (fun b => (ar_id b, ar_frag b)) (l ++ [a]) ≡ₚ imap pair cs) :
  exists m', receive m (l ++ [a]) = Ok (m', replicate (length l) None ++ [Some (concat cs)]).
Proof.
  set (keys := {[key]} ∪ dom m).
  assert (Forall (arrival_of key cs t0 keys) (l ++ [a])) as Hof.
  { apply Forall_forall. intros b Hb. rewrite Forall_forall in Hl. destruct (Hl b Hb) as (Hk & Ht & Hnow).
    assert ((ar_id b, ar_frag b) ∈ imap pair cs) as Hin.
    { rewrite <- Hp. apply list_elem_of_In, in_map_iff. exists b. split; [done|by apply list_elem_of_In]. }
    apply list_elem_of_lookup in Hin as [i Hi]. rewrite list_lookup_imap in Hi.
    destruct (cs !! i) as [c|] eqn:Ec; [|done]. cbn in Hi. simplify_eq.
    pose proof (lookup_lt_Some _ _ _ Ec). split; [unfold arrival_ok; lia|]. split; [done|].
    split; [unfold keys; set_solver|]. intros _. split; [done|]. congruence. }
  assert (forall k, Forall (fun b => ar_key b = key) k -> seen key k = map ar_id k) as Hseen.
  { intros k Hk. unfold seen. f_equal. induction Hk as [|b k Hb _ IH]; [done|].
    by rewrite filter_cons, decide_True, IH by done. }
  assert (Forall (fun b => ar_key b = key) (l ++ [a])) as Hkey by (eapply Forall_impl; [exact Hl|]; by intros b (? & _)).
  assert (map ar_id (l ++ [a]) ≡ₚ seq 0 (length cs)) as Hids.
  { assert (map fst (map (fun b => (ar_id b, ar_frag b)) (l ++ [a])) = map ar_id (l ++ [a])) as <- by (by rewrite map_map).
    rewrite Hp. apply Permutation_refl'. clear.
    enough (forall s, map fst (imap (fun i c => ((s + i)%nat, c)) cs) = seq s (length cs)) as H by apply (H 0%nat).
    induction cs as [|c cs IH]; intros s; [done|]. cbn [imap map seq length fst]. rewrite Nat.add_0_r. f_equal.
    rewrite <- IH. f_equal. apply imap_ext. intros i x _. cbn. f_equal. lia. }
  pose proof Hof as Hof'. apply Forall_app in Hof' as [Hofl Hofa]. apply Forall_cons in Hofa as [Hofa _].
  pose proof Hkey as Hkey'. apply Forall_app in Hkey' as [Hkl Hka]. apply Forall_cons in Hka as [Hka _].
  destruct (receive_complete key cs t0 keys m l a Hiter) as (m' & outs & E & _ & Hout); try done.
  - unfold keys. rewrite size_union, size_singleton, size_dom by (apply disjoint_singleton_l, not_elem_of_dom; done). lia.
  - unfold keys. set_solver.
  - rewrite Hseen by done. intros Hc.
    assert (NoDup (seq 0 (length cs))) as Hnd by apply NoDup_seq.
    assert (length (seq 0 (length cs)) <= length (map ar_id l))%nat as Hlen.
    { apply submseteq_length, NoDup_submseteq; [done|]. intros i Hi. apply Hc.
      apply list_elem_of_In, in_seq in Hi. lia. }
    apply Permutation_length in Hids. rewrite length_map, length_app, length_seq in *. cbn in Hids.
    lia.
  - rewrite Hseen by done. intros i Hi. rewrite Hids. apply list_elem_of_In, in_seq. lia.
  - exists m'. rewrite E. do 3 f_equal. by apply forall2_none in Hout.
Qed.

(** ** Properties *)

(** Whatever decoded fragments arrive, in whatever order, with whatever
    totals and at whatever times, reassembly never panics and keeps its invariant:
    every buffered packet is incomplete and its counter is exact, and at most 256
    packets are buffered. *)
Theorem reassembly_bounded (l : list arrival) (m : reasm_map)
    (Hiter : forall m, iter m ≡ₚ map_to_list m)
    (Hl : Forall arrival_ok l) (Hm : reasm_inv m) :
  exists m' outs, receive m l = Ok (m', outs) /\ length outs = length l /\ reasm_inv m'.
Proof.
  revert m Hm. induction Hl as [|a l Ha _ IH]; intros m Hm; [by exists m, []|]. cbn [receive].
  destruct (reassemble_inv Hiter (ar_now a) m (ar_key a) _ _ (ar_frag a) Hm Ha) as (m1 & out & -> & H1).
  destruct (IH m1 H1) as (m' & outs & E & Hlen & Hinv). cbn [mbind res_bind]. rewrite E. cbn [mbind res_bind].
  exists m', (out :: outs). cbn. auto.
Qed.

(** The fragments of a packet may come in any order, repeated, and mixed with
    those of other packets: if they all arrive within the time to live and at most
    256 packets are under way, nothing is delivered for the packet until its last
    missing fragment arrives, at which its payload is, exactly, and its buffer is
    freed. *)
Theorem reassembly_any_order (key : rkey) (cs : list bytes) (t0 : Z) (keys : gset rkey)
    (m : reasm_map) (l : list arrival) (a : arrival)
    (Hiter : forall m, iter m ≡ₚ map_to_list m)
    (Hkeys : (size keys <= MAX_REASM)%nat) (Hm : reasm_inv m) (Hdom : dom m ⊆ keys) (Hnew : m !! key = None)
    (Hl : Forall (arrival_of key cs t0 keys) l) (Ha : arrival_of key cs t0 keys a) (Hk : ar_key a = key)
    (Hpart : ~ complete cs (seen key l)) (Hfull : complete cs (seen key (l ++ [a]))) :
  exists m' outs, receive m (l ++ [a]) = Ok (m', outs ++ [Some (concat cs)]) /\ m' !! key = None
    /\ Forall2 (fun b out => ar_key b = key -> out = None) l outs.
Proof. by eapply receive_complete. Qed.

End Reassemble.

(** ** Witnesses *)

Definition witness_arrival (i : nat) (b : Z) : arrival :=
  {| ar_now := 5 + Z.of_nat i; ar_key := (1, 7); ar_total := 2; ar_id := i; ar_frag := of_zs [b] |}.

Definition witness_other : arrival :=
  {| ar_now := 5; ar_key := (2, 7); ar_total := 3; ar_id := 0; ar_frag := of_zs [9] |}.

Lemma empty_inv : reasm_inv ∅.
Proof. split; [intros k e; by rewrite lookup_empty|]. rewrite map_size_empty. unfold MAX_REASM. lia. Qed.

Lemma reassembly_bounded_witness :
  exists m' outs, receive map_to_list ∅ [witness_arrival 1 20; witness_other] = Ok (m', outs) /\ reasm_inv m'.
Proof.
  destruct (reassembly_bounded map_to_list [witness_arrival 1 20; witness_other] ∅) as (m' & outs & H & _ & Hi).
  - done.
  - repeat constructor; cbn; lia.
  - apply empty_inv.
  - by exists m', outs.
Defined.

Lemma reassembly_any_order_witness :
  exists m' outs, receive map_to_list ∅ [witness_arrival 1 20; witness_other; witness_arrival 0 10]
    = Ok (m', outs ++ [Some (of_zs [10; 20])]) /\ m' !! (1, 7) = None.
Proof.
  destruct (reassembly_any_order map_to_list (1, 7) [of_zs [10]; of_zs [20]] 0 {[(1, 7); (2, 7)]} ∅
    [witness_arrival 1 20; witness_other] (witness_arrival 0 10)) as (m' & outs & H & Hn & _).
  - done.
  - vm_compute. lia.
  - apply empty_inv.
  - set_solver.
  - apply lookup_empty.
  - repeat constructor; cbn; try lia; try set_solver; intros [=]; done.
  - repeat constructor; cbn; try lia; try set_solver; done.
  - reflexivity.
  - intros H. specialize (H 0%nat ltac:(cbn; lia)). vm_compute in H. apply list_elem_of_In in H. cbn in H. lia.
  - intros i Hi. cbn in Hi. apply list_elem_of_In. vm_compute. lia.
  - by exists m', outs.
Defined.
