(* ===== verification/Hy2Proto.v ===== *)
(** * Hysteria2 framing ([crates/net/src/hysteria2/proto.rs]) *)

From S2P Require Import Prelude RustStr Utf8 NetAddr NetIo.

Definition TCP_REQUEST_ID : Z := 1025.

(** [put_varint], as the bytes it appends. *)
Definition put_varint (v : Z) : bytes :=
  if v <? Z.shiftl 1 6 then [to_u8 v]
  else if v <? Z.shiftl 1 14 then be_bytes 2 (Z.lor (v mod 2 ^ 16) 16384)
  else if v <? Z.shiftl 1 30 then be_bytes 4 (Z.lor (v mod 2 ^ 32) 2147483648)
  else be_bytes 8 (Z.lor v 13835058055282163712).

(** [match first >> 6 { 0 => 0, 1 => 1, 2 => 3, _ => 7 }] *)
Definition varint_extra (first : u8) : nat :=
  let prefix := Z.shiftr (val8 first) 6 in
  if prefix =? 0 then 0 else if prefix =? 1 then 1 else if prefix =? 2 then 3 else 7.

(** [val = (val << 8) | b], on [u64] *)
Definition varint_push (val : Z) (b : u8) : Z := Z.lor (Z.shiftl val 8 mod 2 ^ 64) (val8 b).

(** The loop of [read_varint]. *)
Fixpoint read_varint_bytes (extra : nat) (val : Z) (s : bytes) : res io_error (Z * bytes) :=
  match extra with
  | O => Ok (val, s)
  | S k => '(b, s) ← read_u8 s; read_varint_bytes k (varint_push val b) s
  end.

(** [read_varint] *)
Definition hy2_read_varint (s : bytes) : res io_error (Z * bytes) :=
  '(first, s) ← read_u8 s;
  read_varint_bytes (varint_extra first) (Z.land (val8 first) 63) s.

(** [encode_tcp_request] *)
Definition encode_tcp_request (t : Target) : bytes :=
  let addr := show_target t in
  put_varint TCP_REQUEST_ID ++ put_varint (Z.of_nat (length addr)) ++ addr ++ put_varint 0.

Record TcpResponse : Type := { tr_ok : bool; tr_message : str }.

(** [read_bounded_string] *)
Definition read_bounded_string (s : bytes) (len : Z) : res io_error (str * bytes) :=
  if 4096 <? len then Err (IoOther "hysteria2: слишком длинное сообщение")
  else '(b, s) ← read_exact (Z.to_nat len) s; Ok (from_utf8_lossy b, s).

(** [skip]: 1024 bytes at a time. *)
Definition hy2_skip (s : bytes) (n : Z) : res io_error bytes :=
  if Z.shiftl 1 20 <? n then Err (IoOther "hysteria2: слишком большой паддинг")
  else loop (S (Z.to_nat n))
         (fun '(todo, s) =>
            if 0 <? todo then
              let take := Z.to_nat (Z.min todo 1024) in
              '(_, s) ← read_exact take s; Ok (inl (todo - Z.of_nat take, s))
            else Ok (inr s)) (n, s).

(** [read_tcp_response] *)
Definition read_tcp_response (s : bytes) : res io_error (TcpResponse * bytes) :=
  '(status, s) ← read_u8 s;
  '(msg_len, s) ← hy2_read_varint s;
  '(msg, s) ← read_bounded_string s msg_len;
  '(pad_len, s) ← hy2_read_varint s;
  s ← hy2_skip s pad_len;
  Ok ({| tr_ok := val8 status =? 0; tr_message := msg |}, s).

(** [read_varint_buf] *)
Definition read_varint_buf (buf : bytes) : res io_error (option (Z * nat)) :=
  match buf with
  | [] => Ok None
  | first :: _ =>
      let extra := varint_extra first in
      if (length buf <? 1 + extra)%nat then Ok None
      else
        bs ← sub_slice 1 (1 + extra) buf;
        Ok (Some (fold_left varint_push bs (Z.land (val8 first) 63), (1 + extra)%nat))
  end.

Record UdpHead : Type := { uh_session : Z; uh_pkt_id : Z; uh_frag_id : Z; uh_frag_total : Z }.

(** The loop of [encode_udp_packets] over the fragments from [i]. *)
Fixpoint udp_fragments (session pkt_id : Z) (alen addr payload : bytes) (cap total i k : nat)
    : res io_error (list bytes) :=
  match k with
  | O => Ok []
  | S k' =>
      let start := (i * cap)%nat in
      let end_ := ((start + cap) `min` length payload)%nat in
      p ← sub_slice start end_ payload;
      ds ← udp_fragments session pkt_id alen addr payload cap total (S i) k';
      Ok ((be_bytes 4 session ++ be_bytes 2 pkt_id ++ [to_u8 (Z.of_nat i)] ++ [to_u8 (Z.of_nat total)]
           ++ alen ++ addr ++ p) :: ds)
  end.

(** [encode_udp_packets] *)
Definition encode_udp_packets (session pkt_id : Z) (t : Target) (payload : bytes) (max_datagram : nat)
    : res io_error (list bytes) :=
  let addr := show_target t in
  let alen := put_varint (Z.of_nat (length addr)) in
  let header := (4 + 2 + 1 + 1 + length alen + length addr)%nat in
  if (max_datagram <=? header)%nat then Err (IoOther "hysteria2: датаграмма мала для адреса")
  else
    let cap := (max_datagram - header)%nat in
    let total := (((length payload + cap - 1) / cap) `max` 1)%nat in
    if (255 <? total)%nat then Err (IoOther "hysteria2: UDP-пакет требует >255 фрагментов")
    else udp_fragments session pkt_id alen addr payload cap total 0 total.

(** [decode_udp_packet] *)
Definition decode_udp_packet (dg : bytes) : res io_error (UdpHead * bytes) :=
  if (length dg <? 8)%nat then Err (IoOther "hysteria2: короткая UDP-датаграмма")
  else
    s ← sub_slice 0 4 dg;
    pkt_id ← index_be16 dg 4;
    f ← index dg 6;
    t ← index dg 7;
    let frag_id := val8 f in
    let frag_total := val8 t in
    if (frag_total =? 0) || (frag_total <=? frag_id) then Err (IoOther "hysteria2: некорректная фрагментация")
    else
      rest ← sub_slice 8 (length dg) dg;
      v ← read_varint_buf rest;
      '(addr_len, consumed) ← ok_or v (IoOther "hysteria2: битый addr-len");
      let off := 8 + Z.of_nat consumed + addr_len in
      if Z.of_nat (length dg) <? off then Err (IoOther "hysteria2: addr выходит за датаграмму")
      else
        p ← sub_slice (Z.to_nat off) (length dg) dg;
        Ok ({| uh_session := be_value s; uh_pkt_id := pkt_id; uh_frag_id := frag_id; uh_frag_total := frag_total |}, p).

(** ** Lemmas: varints *)

(** The values a QUIC varint can carry. *)
Definition varint_ok (v : Z) : Prop := 0 <= v < 2 ^ 62.

Lemma be_value_app l k : be_value (l ++ k) = be_value l * 256 ^ Z.of_nat (length k) + be_value k.
Proof.
  induction l as [|b l IH]; [by rewrite app_nil_l, be_value_nil, Z.mul_0_l|]. cbn [app]. rewrite !be_value_cons, IH, length_app, Nat2Z.inj_add, Z.pow_add_r by lia.
  ring.
Qed.

(** Pushing bytes is reading them as an integer, while it fits. *)
Lemma fold_push bs : forall v, 0 <= v -> v * 256 ^ Z.of_nat (length bs) + be_value bs < 2 ^ 64 ->
  fold_left varint_push bs v = v * 256 ^ Z.of_nat (length bs) + be_value bs.
Proof.
  induction bs as [|b bs IH]; intros v Hv Hb; [cbn; lia|]. cbn [fold_left length] in *.
  rewrite be_value_cons, pow256_S in *. pose proof (pow256_pos (length bs)). pose proof (val8_range b).
  pose proof (be_value_range bs). assert (v * 256 + val8 b < 2 ^ 64) by nia.
  assert (varint_push v b = v * 256 + val8 b) as ->.
  { unfold varint_push. rewrite Z.shiftl_mul_pow2, Z.mod_small by lia. rewrite lor_add by lia. lia. }
  rewrite IH by nia. nia.
Qed.

Lemma read_varint_bytes_fold bs : forall v t,
  read_varint_bytes (length bs) v (bs ++ t) = Ok (fold_left varint_push bs v, t).
Proof. induction bs as [|b bs IH]; intros v t; [done|]. cbn. apply IH. Qed.

(** The shape of an encoding: a first byte with the length tag, and the rest. *)
Lemma put_varint_shape v : varint_ok v ->
  exists first bs, put_varint v = first :: bs /\ varint_extra first = length bs
    /\ (length bs <= 7)%nat /\ fold_left varint_push bs (Z.land (val8 first) 63) = v.
Proof.
  intros Hv.
  assert (forall k tag, (k = 0 /\ tag = 0 \/ k = 1 /\ tag = 1 \/ k = 3 /\ tag = 2 \/ k = 7 /\ tag = 3)%Z ->
    v < 2 ^ (8 * k + 6) ->
    exists first bs, be_bytes (S (Z.to_nat k)) (tag * 2 ^ (8 * k + 6) + v) = first :: bs /\ varint_extra first = length bs
      /\ (length bs <= 7)%nat /\ fold_left varint_push bs (Z.land (val8 first) 63) = v) as H.
  { intros k tag Hk Hlt. cbn [be_bytes]. eexists _, _. split; [done|]. rewrite length_be_bytes.
    set (W := 256 ^ Z.of_nat (Z.to_nat k)). assert (2 ^ (8 * k + 6) = 64 * W) as HW.
    { unfold W. rewrite Z2Nat.id, Z.pow_add_r by lia. change 256 with (2 ^ 8). rewrite <- Z.pow_mul_r by lia. lia. }
    assert (0 < W) by apply pow256_pos. unfold varint_ok in Hv.
    assert (val8 (to_u8 ((tag * 2 ^ (8 * k + 6) + v) / W)) = tag * 64 + v / W) as Hf.
    { rewrite val8_to_u8, HW. replace (tag * (64 * W) + v) with (tag * 64 * W + v) by ring.
      rewrite Z.div_add_l by lia. apply Z.mod_small. rewrite HW in Hlt.
      assert (0 <= v / W < 64) by (split; [apply Z.div_pos|apply Z.div_lt_upper_bound]; lia). lia. }
    assert (0 <= v / W < 64) as Hd by (rewrite HW in Hlt; split; [apply Z.div_pos|apply Z.div_lt_upper_bound]; lia).
    rewrite Hf. split.
    - unfold varint_extra. rewrite Hf, Z.shiftr_div_pow2 by lia. change (2 ^ 6) with 64.
      replace ((tag * 64 + v / W) / 64) with tag by dlia.
      destruct Hk as [[-> ->]|[[-> ->]|[[-> ->]|[-> ->]]]]; done.
    - split; [lia|]. change 63 with (Z.ones 6). rewrite Z.land_ones by lia. change (2 ^ 6) with 64.
      replace ((tag * 64 + v / W) mod 64) with (v / W) by dlia.
      assert (be_value (be_bytes (Z.to_nat k) (tag * 2 ^ (8 * k + 6) + v)) = v mod W) as Hb.
      { rewrite be_value_be_bytes. fold W. rewrite HW. replace (tag * (64 * W) + v) with (v + tag * 64 * W) by ring.
        by rewrite Z.mod_add by lia. }
      pose proof (Z.div_mod v W ltac:(lia)). rewrite fold_push; rewrite ?length_be_bytes, ?Hb; fold W; [lia|lia|].
      replace (v / W * W + v mod W) with v by lia. lia. }
  unfold put_varint. rewrite !Z.shiftl_1_l. unfold varint_ok in Hv.
  assert (forall w tag, 0 <= w -> 0 <= v < 2 ^ w -> Z.lor v (tag * 2 ^ w) = tag * 2 ^ w + v) as Hlor
    by (intros w tag Hw Hvw; rewrite Z.lor_comm; by apply lor_add).
  destruct (Z.ltb_spec v (2 ^ 6)).
  { assert ([to_u8 v] = be_bytes (S (Z.to_nat 0)) (0 * 2 ^ (8 * 0 + 6) + v)) as ->
      by (cbn [be_bytes Z.to_nat]; by rewrite Z.div_1_r).
    apply (H 0 0); lia. }
  destruct (Z.ltb_spec v (2 ^ 14)).
  { rewrite Z.mod_small by lia. change 16384 with (1 * 2 ^ 14). rewrite (Hlor 14 1) by lia. apply (H 1 1); lia. }
  destruct (Z.ltb_spec v (2 ^ 30)).
  { rewrite Z.mod_small by lia. change 2147483648 with (2 * 2 ^ 30). rewrite (Hlor 30 2) by lia. apply (H 3 2); lia. }
  change 13835058055282163712 with (3 * 2 ^ 62). rewrite (Hlor 62 3) by lia. apply (H 7 3); lia.
Qed.

Lemma hy2_read_varint_put v t : varint_ok v -> hy2_read_varint (put_varint v ++ t) = Ok (v, t).
Proof.
  intros Hv. destruct (put_varint_shape v Hv) as (f & bs & -> & He & _ & Hfold). unfold hy2_read_varint. cbn.
  by rewrite He, read_varint_bytes_fold, Hfold.
Qed.

Lemma read_varint_buf_put v t : varint_ok v ->
  read_varint_buf (put_varint v ++ t) = Ok (Some (v, length (put_varint v))).
Proof.
  intros Hv. destruct (put_varint_shape v Hv) as (f & bs & -> & He & _ & Hfold). unfold read_varint_buf. cbn [app].
  rewrite He. rewrite (proj2 (Nat.ltb_ge _ _)) by (cbn; rewrite length_app; lia).
  rewrite (sub_slice_drop 1 (f :: bs ++ t) bs t) by (done || (cbn; lia)). cbn. by rewrite Hfold.
Qed.

(** What the buffer reader accepts is inside the buffer, and never negative. *)
Lemma read_varint_buf_safe buf :
  no_panic (read_varint_buf buf)
  /\ forall v n, read_varint_buf buf = Ok (Some (v, n)) -> 0 <= v /\ (1 <= n <= length buf)%nat.
Proof.
  unfold read_varint_buf. destruct buf as [|f bs]; [by split|].
  destruct (Nat.ltb_spec (length (f :: bs)) (1 + varint_extra f)); [by split|]. split.
  - apply no_panic_bind; [apply sub_slice_no_panic; lia|]. done.
  - intros v n Heq. apply ok_bind in Heq as (x & _ & Heq). simplify_eq. split; [|cbn in *; lia].
    assert (forall l v, 0 <= v -> 0 <= fold_left varint_push l v) as Hf.
    { induction l as [|b l IH]; intros w Hw; [done|]. cbn. apply IH. unfold varint_push. apply Z.lor_nonneg.
      split; [apply Z.mod_pos_bound; lia|apply val8_range]. }
    apply Hf, Z.land_nonneg. left. apply val8_range.
Qed.

(** ** Lemmas: datagrams *)

Lemma slice_min {A} a n (l : list A) : slice a ((a + n) `min` length l)%nat l = take n (drop a l).
Proof.
  unfold slice. destruct (Nat.le_gt_cases (a + n) (length l)).
  - rewrite Nat.min_l by lia. f_equal. lia.
  - rewrite Nat.min_r by lia. rewrite <- length_drop, firstn_all, take_ge; [done|]. rewrite length_drop. lia.
Qed.

Lemma slices_concat {A} cap (l : list A) n : forall s,
  concat (map (fun i => take cap (drop (i * cap) l)) (seq s n)) = take (n * cap) (drop (s * cap) l).
Proof.
  induction n as [|n IH]; intros s; [done|]. cbn [seq map concat]. rewrite IH.
  replace (drop (S s * cap) l) with (drop cap (drop (s * cap) l)) by (rewrite drop_drop; f_equal; lia).
  rewrite take_take_drop. done.
Qed.

(** The [i]-th datagram of [total]. *)
Definition udp_datagram (session pkt_id : Z) (alen addr : bytes) (total i : nat) (p : bytes) : bytes :=
  be_bytes 4 session ++ be_bytes 2 pkt_id ++ [to_u8 (Z.of_nat i)] ++ [to_u8 (Z.of_nat total)] ++ alen ++ addr ++ p.

Lemma udp_fragments_spec session pkt_id alen addr payload cap total k : forall i,
  (forall j, (j < i + k)%nat -> (j * cap <= length payload)%nat) ->
  udp_fragments session pkt_id alen addr payload cap total i k
  = Ok (map (fun j => udp_datagram session pkt_id alen addr total j (take cap (drop (j * cap) payload))) (seq i k)).
Proof.
  induction k as [|k IH]; intros i Hj; [done|]. cbn [udp_fragments seq map].
  specialize (Hj i ltac:(lia)) as Hi. unfold sub_slice.
  rewrite (proj2 (Nat.leb_le _ _)), (proj2 (Nat.leb_le _ _)) by lia. cbn [andb mbind res_bind].
  rewrite IH by (intros j Hlt; apply Hj; lia). cbn [mbind res_bind]. by rewrite slice_min.
Qed.

Lemma decode_datagram session pkt_id addr total i p :
  0 <= session < 2 ^ 32 -> 0 <= pkt_id < 65536 -> (i < total <= 255)%nat -> varint_ok (Z.of_nat (length addr)) ->
  decode_udp_packet (udp_datagram session pkt_id (put_varint (Z.of_nat (length addr))) addr total i p)
  = Ok ({| uh_session := session; uh_pkt_id := pkt_id; uh_frag_id := Z.of_nat i; uh_frag_total := Z.of_nat total |}, p).
Proof.
  intros Hs Hp Hi Hv. set (alen := put_varint _). set (d := udp_datagram _ _ _ _ _ _ _).
  assert (drop 0 d = d) as H by done. unfold d in H at 2; unfold udp_datagram in H.
  pose proof (drop_shift 0 4 d _ _ H (length_be_bytes _ _)) as H4.
  pose proof (drop_shift _ 2 d _ _ H4 (length_be_bytes _ _)) as H6.
  pose proof (drop_shift _ 1 d _ _ H6 eq_refl) as H7. pose proof (drop_shift _ 1 d _ _ H7 eq_refl) as H8.
  pose proof (drop_shift _ (length alen) d _ _ H8 eq_refl) as Ha.
  pose proof (drop_shift _ (length addr) d _ _ Ha eq_refl) as Hpay. cbn [Nat.add] in *.
  assert (length d = 8 + length alen + length addr + length p)%nat as Hd.
  { unfold d, udp_datagram. rewrite !length_app, !length_be_bytes. cbn. lia. }
  unfold decode_udp_packet. rewrite (proj2 (Nat.ltb_ge _ _)) by lia.
  rewrite (sub_slice_drop 0 d (be_bytes 4 session) _ H) by lia. cbn [mbind res_bind].
  rewrite (index_be16_drop _ _ _ _ H4) by done. cbn [mbind res_bind].
  rewrite (index_at _ _ _ _ H6), (index_at _ _ _ _ H7). cbn [mbind res_bind].
  rewrite !val8_to_u8, !Z.mod_small by lia.
  rewrite (proj2 (Z.eqb_neq _ _)), (proj2 (Z.leb_gt _ _)) by lia. cbn [orb].
  assert (sub_slice (E := io_error) 8 (length d) d = Ok (alen ++ addr ++ p)) as ->.
  { replace (length d) with (8 + length (alen ++ addr ++ p))%nat by (rewrite !length_app; lia).
    apply (sub_slice_drop 8 d _ []); [by rewrite app_nil_r|lia]. }
  pose proof (read_varint_buf_put _ (addr ++ p) Hv) as Hrv. fold alen in Hrv.
  cbn [mbind res_bind]. rewrite Hrv. cbn [mbind res_bind ok_or].
  rewrite (proj2 (Z.ltb_ge _ _)) by lia.
  replace (Z.to_nat (8 + Z.of_nat (length alen) + Z.of_nat (length addr))) with (8 + length alen + length addr)%nat by lia.
  assert (sub_slice (E := io_error) (8 + length alen + length addr) (length d) d = Ok p) as ->.
  { replace (length d) with (8 + length alen + length addr + length p)%nat by lia.
    apply (sub_slice_drop _ d _ []); [by rewrite app_nil_r|lia]. }
  cbn [mbind res_bind]. by rewrite (be_value_be_bytes_small 4 session) by done.
Qed.

Lemma decode_udp_safe dg :
  no_panic (decode_udp_packet dg)
  /\ forall h p, decode_udp_packet dg = Ok (h, p) ->
       0 <= uh_frag_id h < uh_frag_total h /\ uh_frag_total h < 256 /\ (length p + 9 <= length dg)%nat.
Proof.
  unfold decode_udp_packet. destruct (Nat.ltb_spec (length dg) 8) as [|Hl]; [by split|].
  pose proof (sub_slice_no_panic (E := io_error) 0 4 dg ltac:(lia)) as P0.
  destruct (sub_slice 0 4 dg) as [s| |]; [|by split|done]. cbn [mbind res_bind].
  pose proof (index_be16_no_panic (E := io_error) dg 4 ltac:(lia)) as P4.
  destruct (index_be16 dg 4) as [pid| |]; [|by split|done]. cbn [mbind res_bind].
  destruct (index_ok (E := io_error) dg 6 ltac:(lia)) as (f & -> & _).
  destruct (index_ok (E := io_error) dg 7 ltac:(lia)) as (t & -> & _). cbn [mbind res_bind].
  destruct (Z.eqb_spec (val8 t) 0); cbn [orb]; [by split|].
  destruct (Z.leb_spec (val8 t) (val8 f)); [by split|].
  destruct (sub_slice 8 (length dg) dg) as [r|e|] eqn:Er;
    [|by split|by apply (sub_slice_no_panic (E := io_error)) in Er; [|lia]]. cbn [mbind res_bind].
  assert (length r = length dg - 8)%nat as Hr.
  { unfold sub_slice in Er. destruct (_ && _); simplify_eq. rewrite slice_length by lia. lia. }
  destruct (read_varint_buf_safe r) as [Pv Sv].
  destruct (read_varint_buf r) as [[[al c]|]| |]; [|by split..|done]. destruct (Sv al c eq_refl) as [Hal Hc].
  cbn [mbind res_bind ok_or]. destruct (Z.ltb_spec (Z.of_nat (length dg)) (8 + Z.of_nat c + al)); [by split|]. split.
  - apply no_panic_bind; [apply sub_slice_no_panic; lia|]. done.
  - intros h p Heq. apply ok_bind in Heq as (q & Hq & Heq). simplify_eq. cbn. byte_bounds. split_and!; try lia.
    unfold sub_slice in Hq. destruct (_ && _); [|done]. simplify_eq. rewrite slice_length by lia. lia.
Qed.

(** ** Lemmas: the TCP response *)

Lemma hy2_skip_spec s pad : Z.of_nat (length pad) <= 2 ^ 20 -> hy2_skip (pad ++ s) (Z.of_nat (length pad)) = Ok s.
Proof.
  intros Hp. unfold hy2_skip. rewrite Z.shiftl_1_l. rewrite (proj2 (Z.ltb_ge _ _)) by lia. rewrite Nat2Z.id.
  assert (forall fuel pad, (length pad < fuel)%nat ->
    loop fuel (fun '(todo, s) => if 0 <? todo then
        '(_, s) ← read_exact (Z.to_nat (Z.min todo 1024)) s;
        Ok (inl (todo - Z.of_nat (Z.to_nat (Z.min todo 1024)), s)) else Ok (inr s)) (Z.of_nat (length pad), pad ++ s)
    = (Ok s : res io_error bytes)) as H; [|apply H; lia].
  clear pad Hp. induction fuel as [|f IH]; intros pad Hf; [lia|]. cbn [loop].
  destruct (Z.ltb_spec 0 (Z.of_nat (length pad))) as [Hpos|Hz].
  - set (n := Z.to_nat (Z.min (Z.of_nat (length pad)) 1024)). assert (0 < n <= length pad)%nat by lia.
    assert (pad ++ s = take n pad ++ drop n pad ++ s) as -> by (by rewrite app_assoc, take_drop).
    rewrite (read_exact_app_n n) by (rewrite length_take; lia). cbn [mbind res_bind].
    replace (Z.of_nat (length pad) - Z.of_nat n) with (Z.of_nat (length (drop n pad))) by (rewrite length_drop; lia).
    apply IH. rewrite length_drop. lia.
  - assert (pad = []) as -> by (apply length_zero_iff_nil; lia). done.
Qed.

Lemma hy2_skip_no_panic s n : no_panic (hy2_skip s n).
Proof.
  unfold hy2_skip. destruct (_ <? _); [done|].
  apply (loop_no_panic _ (fun _ => True) (fun '(todo, _) => Z.to_nat todo)); [| |done|lia].
  - intros [todo q] _. destruct (0 <? todo); [|done]. apply no_panic_bind; [auto with resdb|by intros []].
  - intros [todo q] [todo' q'] _ H. split; [done|]. destruct (Z.ltb_spec 0 todo); [|done].
    apply ok_bind in H as ([x y] & _ & H). simplify_eq. lia.
Qed.

Lemma read_varint_no_panic' s : no_panic (hy2_read_varint s).
Proof.
  unfold hy2_read_varint. apply no_panic_bind; [auto with resdb|]. intros [f r] _.
  generalize (Z.land (val8 f) 63), (varint_extra f). intros v n. revert v r.
  induction n as [|n IH]; intros v r; [done|]. cbn [read_varint_bytes].
  apply no_panic_bind; [auto with resdb|]. intros [b q] _. apply IH.
Qed.

(** What the address and the fixed fields take in each datagram. *)
Definition udp_header_len (t : Target) : nat :=
  (8 + length (put_varint (Z.of_nat (length (show_target t)))) + length (show_target t))%nat.

(** The whole behaviour of [encode_udp_packets]. *)
Lemma encode_udp_packets_spec (session pkt_id : Z) (t : Target) (payload : bytes) (max : nat)
    (Hs : 0 <= session < 2 ^ 32) (Hp : 0 <= pkt_id < 65536)
    (Ht : varint_ok (Z.of_nat (length (show_target t)))) :
  match encode_udp_packets session pkt_id t payload max with
  | Ok ds =>
      exists frags, concat frags = payload /\ (1 <= length frags <= 255)%nat
        /\ Forall (fun d => (length d <= max)%nat) ds
        /\ map decode_udp_packet ds =
           imap (fun i c => Ok ({| uh_session := session; uh_pkt_id := pkt_id; uh_frag_id := Z.of_nat i;
                                   uh_frag_total := Z.of_nat (length frags) |}, c)) frags
  | Err _ => (max <= udp_header_len t)%nat \/ (255 * (max - udp_header_len t) < length payload)%nat
  | Panic => False
  end.
Proof.
  unfold encode_udp_packets. set (addr := show_target t) in *. set (alen := put_varint _) in *.
  change (4 + 2 + 1 + 1 + length alen + length addr)%nat with (udp_header_len t). set (header := udp_header_len t).
  destruct (Nat.leb_spec max header) as [Hmax|Hmax]; [by left|]. set (cap := (max - header)%nat).
  assert (0 < cap)%nat as Hcap by lia. set (q := ((length payload + cap - 1) / cap)%nat).
  pose proof (Nat.div_mod_eq (length payload + cap - 1) cap) as Hdm. fold q in Hdm.
  pose proof (Nat.mod_upper_bound (length payload + cap - 1) cap ltac:(lia)) as Hm.
  destruct (Nat.ltb_spec 255 (q `max` 1)) as [Hbig|Hbig]; [right; nia|].
  set (total := (q `max` 1)%nat) in *.
  rewrite udp_fragments_spec.
  2: { intros j Hj. destruct (Nat.eq_dec j 0) as [->|]; [lia|]. assert (j <= q - 1)%nat by lia. nia. }
  set (frag := fun j => take cap (drop (j * cap) payload)).
  exists (map frag (seq 0 total)). split_and!.
  - unfold frag. rewrite slices_concat. cbn [Nat.mul]. rewrite drop_0. apply take_ge. nia.
  - rewrite length_map, length_seq. lia.
  - rewrite length_map, length_seq. lia.
  - apply Forall_map, Forall_forall. intros j _. unfold udp_datagram.
    rewrite !length_app, !length_be_bytes, length_take. cbn [length]. assert (header = 8 + length alen + length addr)%nat as Hh by done. clearbody header alen addr. lia.
  - rewrite length_map, length_seq, map_map.
    rewrite (imap_map_seq (fun i c => Ok ({| uh_session := session; uh_pkt_id := pkt_id; uh_frag_id := Z.of_nat i;
               uh_frag_total := Z.of_nat total |}, c)) frag total 0).
    apply map_ext_in. intros j [_ Hj]%in_seq. apply decode_datagram; try done; lia.
Qed.

(** ** Properties *)

(** QUIC variable-length integers below [2 ^ 62] are read back by both
    readers, from a stream and from a buffer, whatever follows; and a TCP
    request carries the printed target with its exact length. *)
Theorem hy2_varint_roundtrip (v : Z) (t : bytes) (tg : Target) (Hv : varint_ok v)
    (Htg : varint_ok (Z.of_nat (length (show_target tg)))) :
  hy2_read_varint (put_varint v ++ t) = Ok (v, t)
  /\ read_varint_buf (put_varint v ++ t) = Ok (Some (v, length (put_varint v)))
  /\ (id ← hy2_read_varint (encode_tcp_request tg ++ t); n ← hy2_read_varint (snd id);
      a ← read_exact (Z.to_nat (fst n)) (snd n); p ← hy2_read_varint (snd a);
      Ok (fst id, fst a, fst p, snd p)) = Ok (TCP_REQUEST_ID, show_target tg, 0, t).
Proof.
  split; [by apply hy2_read_varint_put|]. split; [by apply read_varint_buf_put|].
  unfold encode_tcp_request. rewrite <- !app_assoc.
  rewrite hy2_read_varint_put by (unfold varint_ok, TCP_REQUEST_ID; lia). cbn [mbind res_bind fst snd].
  rewrite hy2_read_varint_put by done. cbn [mbind res_bind fst snd]. rewrite Nat2Z.id, read_exact_app.
  cbn [mbind res_bind fst snd]. rewrite hy2_read_varint_put by (unfold varint_ok; lia). done.
Qed.

(** A UDP packet is cut into datagrams that fit: sending fails only when the
    address leaves no room or more than 255 fragments would be needed; otherwise
    every datagram has at most [max_datagram] bytes, is decoded as its fragment,
    and the fragments put together are the payload. Decoding never panics on any
    datagram and accepts consistent fragment numbers only. *)
Theorem hy2_fragmentation (session pkt_id : Z) (t : Target) (payload dg : bytes) (max : nat)
    (Hs : 0 <= session < 2 ^ 32) (Hp : 0 <= pkt_id < 65536)
    (Ht : varint_ok (Z.of_nat (length (show_target t)))) :
  match encode_udp_packets session pkt_id t payload max with
  | Ok ds =>
      exists frags, concat frags = payload /\ (1 <= length frags <= 255)%nat
        /\ Forall (fun d => (length d <= max)%nat) ds
        /\ map decode_udp_packet ds =
           imap (fun i c => Ok ({| uh_session := session; uh_pkt_id := pkt_id; uh_frag_id := Z.of_nat i;
                                   uh_frag_total := Z.of_nat (length frags) |}, c)) frags
  | Err _ => (max <= udp_header_len t)%nat \/ (255 * (max - udp_header_len t) < length payload)%nat
  | Panic => False
  end
  /\ no_panic (decode_udp_packet dg)
  /\ forall h p, decode_udp_packet dg = Ok (h, p) -> 0 <= uh_frag_id h < uh_frag_total h /\ uh_frag_total h < 256.
Proof.
  split; [by apply encode_udp_packets_spec|]. destruct (decode_udp_safe dg) as [Hsafe Hok]. split; [done|].
  intros h p H. by apply Hok in H as (? & ? & _).
Qed.

(** A server response is read back: the status decides [ok], the message is
    returned and the padding consumed exactly, within the limits of 4096 and
    [2 ^ 20] bytes, beyond which it is refused; and reading never panics or loops,
    whatever the server sends. *)
Theorem hy2_tcp_response (status : u8) (msg pad t s : bytes) (Hu : utf8_valid msg = true)
    (Hm : Z.of_nat (length msg) < 2 ^ 62) (Hp : Z.of_nat (length pad) < 2 ^ 62) :
  no_panic (read_tcp_response s)
  /\ read_tcp_response ([status] ++ put_varint (Z.of_nat (length msg)) ++ msg ++ put_varint (Z.of_nat (length pad)) ++ pad ++ t)
     = (if 4096 <? Z.of_nat (length msg) then Err (IoOther "hysteria2: слишком длинное сообщение")
        else if 2 ^ 20 <? Z.of_nat (length pad) then Err (IoOther "hysteria2: слишком большой паддинг")
        else Ok ({| tr_ok := val8 status =? 0; tr_message := msg |}, t)).
Proof.
  split.
  - unfold read_tcp_response. apply no_panic_bind; [auto with resdb|]. intros [st s1] _.
    apply no_panic_bind; [apply read_varint_no_panic'|]. intros [n s2] _.
    apply no_panic_bind.
    { unfold read_bounded_string. destruct (_ <? _); [done|]. apply no_panic_bind; [auto with resdb|by intros []]. }
    intros [m s3] _. apply no_panic_bind; [apply read_varint_no_panic'|]. intros [k s4] _.
    apply no_panic_bind; [apply hy2_skip_no_panic|]. done.
  - unfold read_tcp_response. cbn [app read_u8 mbind res_bind].
    rewrite hy2_read_varint_put by (split; lia). cbn [mbind res_bind]. unfold read_bounded_string.
    destruct (4096 <? Z.of_nat (length msg)); [done|].
    rewrite Nat2Z.id, read_exact_app. cbn [mbind res_bind].
    rewrite hy2_read_varint_put by (split; lia). cbn [mbind res_bind].
    destruct (Z.ltb_spec (2 ^ 20) (Z.of_nat (length pad))) as [Hbig|Hsmall].
    + unfold hy2_skip. rewrite Z.shiftl_1_l. by rewrite (proj2 (Z.ltb_lt _ _)).
    + rewrite hy2_skip_spec by lia. cbn [mbind res_bind]. by rewrite lossy_id.
Qed.

(** ** Witnesses *)

Definition witness_hy2_target : Target := TDomain "example.com" 443.

Lemma hy2_varint_roundtrip_witness : hy2_read_varint (of_zs [128; 0; 64; 1; 7]) = Ok (16385, of_zs [7]).
Proof.
  refine (proj1 (hy2_varint_roundtrip 16385 (of_zs [7]) witness_hy2_target _ _)).
  - unfold varint_ok. lia.
  - vm_compute. split; [discriminate|reflexivity].
Defined.

Lemma hy2_fragmentation_witness :
  exists ds, encode_udp_packets 1 2 witness_hy2_target (of_zs [1; 2; 3; 4; 5]) 26 = Ok ds /\ length ds = 3%nat
    /\ Forall (fun d => (length d <= 26)%nat) ds.
Proof.
  assert (varint_ok (Z.of_nat (length (show_target witness_hy2_target)))) as Hv by (vm_compute; split; congruence).
  destruct (hy2_fragmentation 1 2 witness_hy2_target (of_zs [1; 2; 3; 4; 5]) [] 26 ltac:(lia) ltac:(lia) Hv) as [H _].
  assert (exists ds, encode_udp_packets 1 2 witness_hy2_target (of_zs [1; 2; 3; 4; 5]) 26 = Ok ds) as [ds E]
    by (eexists; vm_compute; reflexivity).
  rewrite E in H. exists ds. split; [exact E|].
  split; [vm_compute in E; injection E as <-; reflexivity|]. destruct H as (frags & _ & _ & H & _). exact H.
Defined.

Lemma hy2_tcp_response_witness :
  read_tcp_response (of_zs [0; 2; 79; 75; 1; 0; 9]) = Ok ({| tr_ok := true; tr_message := "OK" |}, of_zs [9]).
Proof.
  exact (proj2 (hy2_tcp_response (to_u8 0) "OK" (of_zs [0]) (of_zs [9]) [] eq_refl ltac:(cbn; lia) ltac:(cbn; lia))).
Defined.
