(* ===== verification/UdpRelay.v ===== *)
(** * The UDP relays over one QUIC connection
    ([crates/net/src/tuic/udp.rs], [crates/net/src/hysteria2/udp.rs])

    The managers' flow tables, the allocation of flow numbers, the sending of a
    packet and the handling of one received datagram. The QUIC connection is not
    under [src]: its datagram limit, and whether it takes a datagram, are
    arguments; the receiving end of a flow is a channel number, and whether that
    end still exists is an argument of the step. *)

From S2P Require Import Prelude NetAddr NetIo TuicProto Hy2Proto Reassembly.

(** [HashMap<_, mpsc::Sender<..>>]: flow number to channel. *)
Abbreviation flow_table := (gmap Z Z).

(** The mutable state of a manager: the atomic counters (of [next_mod] values
    and of 65536) and the flows. *)
Record Relay : Type := {
  rl_next_flow : Z;
  rl_next_pkt : Z;
  rl_flows : flow_table
}.

Definition relay_start : Relay := {| rl_next_flow := 1; rl_next_pkt := 1; rl_flows := ∅ |}.

(** The loop of [register]: [fetch_add] wraps modulo [modulus]. *)
Fixpoint register_loop (modulus : Z) (tries : nat) (tx : Z) (r : Relay) : Relay * option Z :=
  match tries with
  | O => (r, None)
  | S n =>
      let id := rl_next_flow r in
      let r := {| rl_next_flow := (id + 1) mod modulus; rl_next_pkt := rl_next_pkt r; rl_flows := rl_flows r |} in
      if negb (id =? 0) && bool_decide (rl_flows r !! id = None) then
        ({| rl_next_flow := rl_next_flow r; rl_next_pkt := rl_next_pkt r; rl_flows := <[id := tx]> (rl_flows r) |}, Some id)
      else register_loop modulus n tx r
  end.

(** [TuicUdp::register], [Hysteria2Udp::register] *)
Definition tuic_register (tx : Z) (r : Relay) : Relay * option Z := register_loop (2 ^ 16) (Z.to_nat 65536) tx r.
Definition hy2_register (tx : Z) (r : Relay) : Relay * option Z := register_loop (2 ^ 32) (Z.to_nat 1024) tx r.

(** [TuicUdp::dissociate], [Hysteria2Udp::close]: the first also sends a command. *)
Definition remove_flow (id : Z) (r : Relay) : Relay :=
  {| rl_next_flow := rl_next_flow r; rl_next_pkt := rl_next_pkt r; rl_flows := delete id (rl_flows r) |}.

Definition tuic_dissociate (id : Z) (r : Relay) : Relay * bytes := (remove_flow id r, encode_dissociate id).
Definition hy2_close (id : Z) (r : Relay) : Relay := remove_flow id r.

Definition take_pkt (r : Relay) : Relay * Z :=
  ({| rl_next_flow := rl_next_flow r; rl_next_pkt := (rl_next_pkt r + 1) mod 2 ^ 16; rl_flows := rl_flows r |},
   rl_next_pkt r).

(** [conn.send_datagram(dg)?] on each: those taken before the first refusal. *)
Fixpoint send_all (accepts : bytes -> option str) (ds : list bytes) : list bytes * res io_error unit :=
  match ds with
  | [] => ([], Ok tt)
  | d :: ds' =>
      match accepts d with
      | Some e => ([], Err (IoOther e))
      | None => let '(sent, r) := send_all accepts ds' in (d :: sent, r)
      end
  end.

(** [send]: the new state, the datagrams sent and the result. *)
Definition tuic_send (max_datagram : option nat) (accepts : bytes -> option str) (assoc_id : Z) (t : Target) (payload : bytes)
    (r : Relay) : Relay * list bytes * res io_error unit :=
  match max_datagram with
  | None => (r, [], Err (IoOther "tuic: сервер не поддерживает QUIC-датаграммы"))
  | Some max =>
      let '(r, pkt_id) := take_pkt r in
      match encode_packets assoc_id pkt_id t payload max with
      | Ok ds => let '(sent, res) := send_all accepts ds in (r, sent, res)
      | Err e => (r, [], Err e)
      | Panic => (r, [], Panic)
      end
  end.

Definition hy2_send (max_datagram : option nat) (accepts : bytes -> option str) (session : Z) (t : Target) (payload : bytes)
    (r : Relay) : Relay * list bytes * res io_error unit :=
  match max_datagram with
  | None => (r, [], Err (IoOther "hysteria2: сервер не поддерживает QUIC-датаграммы (UDP недоступен)"))
  | Some max =>
      let '(r, pkt_id) := take_pkt r in
      match encode_udp_packets session pkt_id t payload max with
      | Ok ds => let '(sent, res) := send_all accepts ds in (r, sent, res)
      | Err e => (r, [], Err e)
      | Panic => (r, [], Panic)
      end
  end.

Section Demux.
Context (iter : reasm_map -> list (rkey * Reasm)).

(** Handing a payload to its flow: what is delivered, and the table after. *)
Definition deliver (closed : Z -> bool) (flow : Z) (payload : bytes) (flows : flow_table)
    : flow_table * option (Z * bytes) :=
  match flows !! flow with
  | Some tx => if closed tx then (delete flow flows, None) else (flows, Some (tx, payload))
  | None => (flows, None)
  end.

(** One turn of [recv_loop]: a datagram received at [now]. *)
Definition tuic_recv (closed : Z -> bool) (now : Z) (dg : bytes) (st : reasm_map * flow_table)
    : res io_error (reasm_map * flow_table * option (Z * bytes)) :=
  let '(reasm, flows) := st in
  match decode_packet dg with
  | Err _ => Ok (reasm, flows, None)
  | Panic => Panic
  | Ok (head, frag) =>
      '(reasm, full) ←
        (if ph_frag_total head <=? 1 then Ok (reasm, Some frag)
         else reassemble iter now reasm (ph_assoc_id head, ph_pkt_id head) (Z.to_nat (ph_frag_total head))
                (Z.to_nat (ph_frag_id head)) frag);
      match full with
      | Some payload => let '(flows, out) := deliver closed (ph_assoc_id head) payload flows in Ok (reasm, flows, out)
      | None => Ok (reasm, flows, None)
      end
  end.

Definition hy2_recv (closed : Z -> bool) (now : Z) (dg : bytes) (st : reasm_map * flow_table)
    : res io_error (reasm_map * flow_table * option (Z * bytes)) :=
  let '(reasm, flows) := st in
  match decode_udp_packet dg with
  | Err _ => Ok (reasm, flows, None)
  | Panic => Panic
  | Ok (head, frag) =>
      '(reasm, full) ←
        (if uh_frag_total head <=? 1 then Ok (reasm, Some frag)
         else reassemble iter now reasm (uh_session head, uh_pkt_id head) (Z.to_nat (uh_frag_total head))
                (Z.to_nat (uh_frag_id head)) frag);
      match full with
      | Some payload => let '(flows, out) := deliver closed (uh_session head) payload flows in Ok (reasm, flows, out)
      | None => Ok (reasm, flows, None)
      end
  end.

(** [recv_loop] until the connection closes: the payloads given to the flows; the
    table is cleared at the end. *)
Fixpoint recv_loop (step : Z -> bytes -> reasm_map * flow_table -> res io_error (reasm_map * flow_table * option (Z * bytes)))
    (l : list (Z * bytes)) (st : reasm_map * flow_table) : res io_error (list (option (Z * bytes)) * flow_table) :=
  match l with
  | [] => Ok ([], ∅)
  | (now, dg) :: l' =>
      '(st, out) ← step now dg st; '(outs, flows) ← recv_loop step l' st; Ok (out :: outs, flows)
  end.

(** ** Lemmas: the receiving side

    Both relays do the same with a decoded datagram, so what follows is proved
    once for a step that [handles] the datagrams of one packet. *)

Context (closed : Z -> bool) (flow pkt tx : Z).
Context (step : Z -> bytes -> reasm_map * flow_table -> res io_error (reasm_map * flow_table * option (Z * bytes))).
Context (dec : bytes -> nat * bytes).

(** What a step does with a fragment of packet [pkt] of flow [flow]. *)
Definition handles_packet (total : nat) (dg : bytes) : Prop :=
  forall now m flows, step now dg (m, flows) =
    ('(m, full) ← (if Z.of_nat total <=? 1 then Ok (m, Some (snd (dec dg)))
                   else reassemble iter now m (flow, pkt) total (fst (dec dg)) (snd (dec dg)));
     match full with
     | Some payload => let '(flows, out) := deliver closed flow payload flows in Ok (m, flows, out)
     | None => Ok (m, flows, None)
     end).

Definition arrival_of_datagram (total : nat) (x : Z * bytes) : arrival :=
  {| ar_now := fst x; ar_key := (flow, pkt); ar_total := total; ar_id := fst (dec (snd x)); ar_frag := snd (dec (snd x)) |}.

Lemma recv_loop_receive total l : forall m flows m' outs,
  (1 < total)%nat -> flows !! flow = Some tx -> closed tx = false ->
  Forall (fun x => handles_packet total (snd x)) l ->
  receive iter m (map (arrival_of_datagram total) l) = Ok (m', outs) ->
  recv_loop step l (m, flows) = Ok (map (fmap (pair tx)) outs, ∅).
Proof.
  induction l as [|[now dg] l IH]; intros m flows m' outs Ht Hf Hc Hl Hr.
  { cbn in Hr. by simplify_eq. }
  apply Forall_cons in Hl as [Hd Hl]. cbn [map receive arrival_of_datagram fst snd ar_now ar_key ar_total ar_id ar_frag] in Hr.
  cbn [snd] in Hd. cbn [recv_loop]. rewrite Hd. rewrite (proj2 (Z.leb_gt _ _)) by lia. cbv iota.
  apply ok_bind in Hr as ([m1 o] & Hro & Hr). cbn [fst snd] in Hro. rewrite Hro. cbn [mbind res_bind].
  apply ok_bind in Hr as ([m2 os] & Hr & E). simplify_eq.
  destruct o as [p|]; cbn [map fmap option_fmap option_map].
  - unfold deliver. rewrite Hf, Hc. cbn [mbind res_bind]. by rewrite (IH _ _ _ _ Ht Hf Hc Hl Hr).
  - cbn [mbind res_bind]. by rewrite (IH _ _ _ _ Ht Hf Hc Hl Hr).
Qed.

(** The datagrams of one packet, in any order. *)
Lemma recv_loop_packet (Hiter : forall m, iter m ≡ₚ map_to_list m) (frags ds : list bytes) (l : list (Z * bytes))
    (t0 : Z) (m : reasm_map) (flows : flow_table) :
  flows !! flow = Some tx -> closed tx = false ->
  (1 <= length frags <= 255)%nat -> Forall (handles_packet (length frags)) ds -> map dec ds = imap pair frags ->
  map snd l ≡ₚ ds -> Forall (fun x => t0 <= fst x < t0 + REASM_TTL) l ->
  reasm_inv m -> (size m < MAX_REASM)%nat -> m !! (flow, pkt) = None ->
  recv_loop step l (m, flows) = Ok (replicate (length l - 1) None ++ [Some (tx, concat frags)], ∅).
Proof.
  intros Hf Hc Hn Hds Hdec Hp Ht Hm Hsz Hnew.
  assert (Forall (fun x => handles_packet (length frags) (snd x)) l) as Hl.
  { apply Forall_forall. intros x Hx. rewrite Forall_forall in Hds. apply Hds. rewrite <- Hp.
    apply list_elem_of_In, in_map_iff. exists x. split; [done|by apply list_elem_of_In]. }
  assert (map (fun x => dec (snd x)) l ≡ₚ imap pair frags) as Hperm.
  { rewrite <- Hdec, <- Hp, map_map. done. }
  assert (length l = length frags) as Hlen.
  { apply Permutation_length in Hperm. by rewrite length_map, length_imap in Hperm. }
  destruct (exists_last (l := l)) as (l' & x & ->); [intros ->; cbn in Hlen; lia|].
  rewrite length_app in *. cbn [length] in *. replace (length l' + 1 - 1)%nat with (length l') by lia.
  destruct (decide (length frags = 1%nat)) as [H1|H1].
  - assert (l' = []) as -> by (apply length_zero_iff_nil; lia). destruct frags as [|c [|]]; [done| |done].
    destruct x as [now dg]. apply Forall_cons in Hl as [Hd _]. cbn [app map imap snd] in *.
    apply Permutation_singleton_inj in Hperm. cbn [recv_loop]. rewrite Hd, Hperm. cbn. unfold deliver.
    rewrite Hf, Hc, app_nil_r. done.
  - destruct (receive_permutation iter (flow, pkt) frags t0 m (map (arrival_of_datagram (length frags)) l')
      (arrival_of_datagram (length frags) x) Hiter Hm Hsz Hnew ltac:(lia)) as (m' & Hr).
    + change [arrival_of_datagram (length frags) x] with (map (arrival_of_datagram (length frags)) [x]).
      rewrite <- map_app. apply Forall_map. eapply Forall_impl; [exact Ht|]. intros y Hy. split; [done|]. split; [done|]. exact Hy.
    + change [arrival_of_datagram (length frags) x] with (map (arrival_of_datagram (length frags)) [x]).
      rewrite <- map_app, map_map, <- Hperm. cbn. apply Permutation_refl'. apply map_ext. intros y. by destruct (dec (snd y)).
    + change [arrival_of_datagram (length frags) x] with (map (arrival_of_datagram (length frags)) [x]) in Hr.
      rewrite <- map_app in Hr. rewrite (recv_loop_receive (length frags) _ m flows m' _ ltac:(lia) Hf Hc Hl Hr).
      do 2 f_equal. rewrite map_app, length_map. cbn. f_equal. clear. induction (length l'); cbn; [done|]. by f_equal.
Qed.

End Demux.

Section Register.
Context (modulus : Z) (Hmod : 1 < modulus).

Lemma register_loop_spec tx n : forall r, 0 <= rl_next_flow r < modulus ->
  match register_loop modulus n tx r with
  | (r', Some id) => 0 < id < modulus /\ rl_flows r !! id = None /\ rl_flows r' = <[id := tx]> (rl_flows r)
                     /\ 0 <= rl_next_flow r' < modulus
  | (r', None) => rl_flows r' = rl_flows r /\ 0 <= rl_next_flow r' < modulus
      /\ forall k, 0 <= k < Z.of_nat n ->
           (rl_next_flow r + k) mod modulus = 0 \/ is_Some (rl_flows r !! ((rl_next_flow r + k) mod modulus))
  end.
Proof using Hmod.
  induction n as [|n IH]; intros r Hr; cbn [register_loop].
  { split; [done|]. split; [done|]. intros k Hk. lia. }
  cbn [rl_flows rl_next_flow rl_next_pkt]. set (r1 := {| rl_next_flow := (rl_next_flow r + 1) mod modulus; rl_next_pkt := rl_next_pkt r; rl_flows := rl_flows r |}).
  destruct (Z.eqb_spec (rl_next_flow r) 0) as [H0|H0]; [|case_bool_decide as Hb]; cbn [negb andb].
  2: { cbn. split; [lia|]. split; [done|]. split; [done|]. apply Z.mod_pos_bound. lia. }
  all: specialize (IH r1 ltac:(cbn; apply Z.mod_pos_bound; lia)); cbn [r1 rl_flows rl_next_flow] in IH;
    destruct (register_loop modulus n tx r1) as [r' [id|]]; [exact IH|];
    destruct IH as (Hf & Hn & IH); (split; [done|]); (split; [done|]); intros k Hk;
    destruct (decide (k = 0)) as [->|]; [rewrite Z.add_0_r, Z.mod_small by done|].
  1: by left.
  2: right; by apply not_eq_None_Some.
  all: specialize (IH (k - 1) ltac:(lia)); rewrite Zplus_mod_idemp_l in IH;
    by replace (rl_next_flow r + 1 + (k - 1)) with (rl_next_flow r + k) in IH by lia.
Qed.

End Register.

(** The fragment number and the bytes of a decoded datagram. *)
Definition tuic_fragment (dg : bytes) : nat * bytes :=
  match decode_packet dg with Ok (h, f) => (Z.to_nat (ph_frag_id h), f) | _ => (O, []) end.

Definition hy2_fragment (dg : bytes) : nat * bytes :=
  match decode_udp_packet dg with Ok (h, f) => (Z.to_nat (uh_frag_id h), f) | _ => (O, []) end.

(** Reading a list of results off a mapping equation. *)
Lemma map_imap_elem {A B C} (f : A -> C) (g : nat -> B -> C) ds fs d :
  map f ds = imap g fs -> d ∈ ds -> exists i c, fs !! i = Some c /\ f d = g i c.
Proof.
  intros H Hd. apply list_elem_of_lookup in Hd as [i Hi].
  assert (map f ds !! i = Some (f d)) as Hm by (change (map f ds) with (f <$> ds); by rewrite list_lookup_fmap, Hi).
  rewrite H, list_lookup_imap in Hm. destruct (fs !! i) as [c|] eqn:E; [|done]. cbn in Hm. simplify_eq. by exists i, c.
Qed.

Lemma map_fragments {D H} (decode : D -> res io_error (H * bytes)) (fid : H -> Z) (mk : nat -> H) (ds : list D) (fs : list bytes) :
  (forall i, fid (mk i) = Z.of_nat i) ->
  map decode ds = imap (fun i c => Ok (mk i, c)) fs ->
  map (fun dg => match decode dg with Ok (h, f) => (Z.to_nat (fid h), f) | _ => (O, []) end) ds = imap pair fs.
Proof.
  intros Hid Hm.
  assert (map (fun r : res io_error (H * bytes) => match r with Ok (h, f) => (Z.to_nat (fid h), f) | _ => (O, []) end) (map decode ds)
          = imap pair fs) as <-; [|by rewrite map_map].
  rewrite Hm. change (map ?f ?l) with (f <$> l). rewrite fmap_imap. apply imap_ext. intros i c _. cbn.
  by rewrite Hid, Nat2Z.id.
Qed.

(** ** Properties *)

(** A flow never takes over a number in use, which would hand it another
    flow's replies: registering gives a number that is not zero and free, and
    changes no other flow; TUIC fails only when all 65535 numbers are taken,
    Hysteria2 only when 1024 consecutive ones are taken or zero. *)
Theorem register_fresh (r : Relay) (tx : Z) (Hr : 0 <= rl_next_flow r < 2 ^ 16) :
  match tuic_register tx r with
  | (r', Some id) => 0 < id < 65536 /\ rl_flows r !! id = None /\ rl_flows r' = <[id := tx]> (rl_flows r)
  | (r', None) => rl_flows r' = rl_flows r /\ forall id, 0 < id < 65536 -> is_Some (rl_flows r !! id)
  end
  /\ match hy2_register tx r with
     | (r', Some id) => 0 < id < 2 ^ 32 /\ rl_flows r !! id = None /\ rl_flows r' = <[id := tx]> (rl_flows r)
     | (r', None) => rl_flows r' = rl_flows r /\ forall k, 0 <= k < 1024 ->
         let id := (rl_next_flow r + k) mod 2 ^ 32 in id = 0 \/ is_Some (rl_flows r !! id)
     end.
Proof.
  split.
  - unfold tuic_register. assert (1 < 2 ^ 16) as Hm by lia. pose proof (register_loop_spec (2 ^ 16) Hm tx (Z.to_nat 65536) r Hr) as H.
    destruct (register_loop _ _ _ _) as [r' [id|]]; [tauto|]. destruct H as (Hf & _ & H). split; [done|].
    intros id Hid. specialize (H ((id - rl_next_flow r) mod 2 ^ 16)).
    rewrite Z2Nat.id, Zplus_mod_idemp_r in H by lia.
    replace (rl_next_flow r + (id - rl_next_flow r)) with id in H by lia. rewrite (Z.mod_small id) in H by lia.
    destruct H as [H|H]; [apply Z.mod_pos_bound; lia|lia|done].
  - unfold hy2_register. assert (1 < 2 ^ 32) as Hm by lia.
    pose proof (register_loop_spec (2 ^ 32) Hm tx (Z.to_nat 1024) r ltac:(lia)) as H.
    destruct (register_loop _ _ _ _) as [r' [id|]]; [tauto|]. destruct H as (Hf & _ & H). split; [done|].
    intros k Hk. apply H. rewrite Z2Nat.id by lia. lia.
Qed.

(** C33. What TUIC sends is what the flow receives: the datagrams of one packet of
    at most 65535 bytes, received in any order within the time to live by a
    manager that has room for one more packet, deliver exactly its payload, once,
    to the channel of its flow, when the last of them arrives. *)
Theorem tuic_relay_delivers (iter : reasm_map -> list (rkey * Reasm)) (closed : Z -> bool) (max : nat)
    (flow tx t0 : Z) (t : Target) (n : nat) (payload : bytes) (r : Relay) (sent : list bytes) (r' : Relay)
    (m : reasm_map) (flows : flow_table) (l : list (Z * bytes))
    (Hiter : forall m, iter m ≡ₚ map_to_list m)
    (Hflow : 0 <= flow < 65536) (Hpkt : 0 <= rl_next_pkt r < 65536) (Ht : tuic_target_ok t)
    (Hn : address_len t = Ok n) (Hlen : Z.of_nat (length payload) < 65536)
    (Hsend : tuic_send (Some max) (fun _ => None) flow t payload r = (r', sent, Ok tt))
    (Hf : flows !! flow = Some tx) (Hc : closed tx = false)
    (Hm : reasm_inv m) (Hsz : (size m < MAX_REASM)%nat) (Hnew : m !! (flow, rl_next_pkt r) = None)
    (Hl : map snd l ≡ₚ sent) (Hnow : Forall (fun x => t0 <= fst x < t0 + REASM_TTL) l) :
  recv_loop (tuic_recv iter closed) l (m, flows)
  = Ok (replicate (length l - 1) None ++ [Some (tx, payload)], ∅).
Proof.
  unfold tuic_send, take_pkt in Hsend.
  pose proof (encode_packets_spec flow (rl_next_pkt r) t payload max n Hflow Hpkt Ht Hn Hlen) as H.
  destruct (encode_packets _ _ _ _ _) as [ds| |]; [|by simplify_eq..].
  assert (send_all (fun _ => None) ds = (ds, Ok tt)) as Es.
  { clear. induction ds as [|d ds IH]; [done|]. cbn. by rewrite IH. }
  rewrite Es in Hsend. injection Hsend as _ <-. destruct H as (frags & <- & Hfr & _ & Hmap).
  refine (recv_loop_packet iter closed flow (rl_next_pkt r) tx (tuic_recv iter closed) tuic_fragment Hiter frags ds l t0 m flows
    Hf Hc Hfr _ _ Hl Hnow Hm Hsz Hnew).
  - apply Forall_forall. intros d Hd now m0 fl. destruct (map_imap_elem _ _ _ _ _ Hmap Hd) as (i & c & _ & E).
    unfold tuic_recv, tuic_fragment. rewrite E. cbn. by rewrite !Nat2Z.id.
  - exact (map_fragments decode_packet ph_frag_id (fun i => {| ph_assoc_id := flow; ph_pkt_id := rl_next_pkt r;
      ph_frag_total := Z.of_nat (length frags); ph_frag_id := Z.of_nat i;
      ph_addr := if (i =? 0)%nat then Some t else None |}) ds frags (fun _ => eq_refl) Hmap).
Qed.

(** The same for Hysteria2. *)
Theorem hy2_relay_delivers (iter : reasm_map -> list (rkey * Reasm)) (closed : Z -> bool) (max : nat)
    (flow tx t0 : Z) (t : Target) (payload : bytes) (r : Relay) (sent : list bytes) (r' : Relay)
    (m : reasm_map) (flows : flow_table) (l : list (Z * bytes))
    (Hiter : forall m, iter m ≡ₚ map_to_list m)
    (Hflow : 0 <= flow < 2 ^ 32) (Hpkt : 0 <= rl_next_pkt r < 65536) (Ht : varint_ok (Z.of_nat (length (show_target t))))
    (Hsend : hy2_send (Some max) (fun _ => None) flow t payload r = (r', sent, Ok tt))
    (Hf : flows !! flow = Some tx) (Hc : closed tx = false)
    (Hm : reasm_inv m) (Hsz : (size m < MAX_REASM)%nat) (Hnew : m !! (flow, rl_next_pkt r) = None)
    (Hl : map snd l ≡ₚ sent) (Hnow : Forall (fun x => t0 <= fst x < t0 + REASM_TTL) l) :
  recv_loop (hy2_recv iter closed) l (m, flows)
  = Ok (replicate (length l - 1) None ++ [Some (tx, payload)], ∅).
Proof.
  unfold hy2_send, take_pkt in Hsend.
  pose proof (encode_udp_packets_spec flow (rl_next_pkt r) t payload max Hflow Hpkt Ht) as H.
  destruct (encode_udp_packets _ _ _ _ _) as [ds| |]; [|by simplify_eq..].
  assert (send_all (fun _ => None) ds = (ds, Ok tt)) as Es.
  { clear. induction ds as [|d ds IH]; [done|]. cbn. by rewrite IH. }
  rewrite Es in Hsend. injection Hsend as _ <-. destruct H as (frags & <- & Hfr & _ & Hmap).
  refine (recv_loop_packet iter closed flow (rl_next_pkt r) tx (hy2_recv iter closed) hy2_fragment Hiter frags ds l t0 m flows
    Hf Hc Hfr _ _ Hl Hnow Hm Hsz Hnew).
  - apply Forall_forall. intros d Hd now m0 fl. destruct (map_imap_elem _ _ _ _ _ Hmap Hd) as (i & c & _ & E).
    unfold hy2_recv, hy2_fragment. rewrite E. cbn. by rewrite !Nat2Z.id.
  - exact (map_fragments decode_udp_packet uh_frag_id (fun i => {| uh_session := flow; uh_pkt_id := rl_next_pkt r;
      uh_frag_id := Z.of_nat i; uh_frag_total := Z.of_nat (length frags) |}) ds frags (fun _ => eq_refl) Hmap).
Qed.

(** ** Witnesses *)

Definition witness_relay : Relay := {| rl_next_flow := 65535; rl_next_pkt := 7; rl_flows := {[ 65535 := 1 ]} |}.

Lemma register_fresh_witness : snd (tuic_register 9 witness_relay) = Some 1 /\ rl_flows witness_relay !! 1 = None.
Proof.
  destruct (register_fresh witness_relay 9 ltac:(cbn; lia)) as [H _].
  assert (tuic_register 9 witness_relay = ({| rl_next_flow := 2; rl_next_pkt := 7;
    rl_flows := <[1 := 9]> (rl_flows witness_relay) |}, Some 1)) as E by (vm_compute; reflexivity).
  rewrite E in H. split; [by rewrite E|apply H].
Defined.

Lemma tuic_relay_delivers_witness :
  let sent := snd (fst (tuic_send (Some 27%nat) (fun _ => None) 3 witness_target (of_zs [1; 2; 3]) witness_relay)) in
  recv_loop (tuic_recv map_to_list (fun _ => false)) (combine [5; 4] (reverse sent)) (∅, {[ 3 := 8 ]})
  = Ok ([None; Some (8, of_zs [1; 2; 3])], ∅).
Proof.
  intros sent.
  refine (tuic_relay_delivers map_to_list (fun _ => false) 27 3 8 0 witness_target 15 (of_zs [1; 2; 3]) witness_relay sent
    {| rl_next_flow := 65535; rl_next_pkt := 8; rl_flows := {[ 65535 := 1 ]} |} ∅ {[ 3 := 8 ]}
    (combine [5; 4] (reverse sent)) _ _ _ witness_target_ok _ _ _ _ _ empty_inv _ _ _ _).
  - done.
  - lia.
  - cbn. lia.
  - unfold sent. vm_compute. reflexivity.
  - cbn. lia.
  - unfold sent. vm_compute. reflexivity.
  - apply lookup_singleton_eq.
  - done.
  - vm_compute. lia.
  - apply lookup_empty.
  - unfold sent. vm_compute. apply Permutation_swap.
  - assert (exists a b, sent = [a; b]) as (a & b & E) by (eexists _, _; unfold sent; vm_compute; reflexivity).
    rewrite E. repeat constructor; cbn; unfold REASM_TTL; lia.
Defined.

Lemma hy2_relay_delivers_witness :
  let sent := snd (fst (hy2_send (Some 26%nat) (fun _ => None) 3 witness_hy2_target (of_zs [1; 2; 3]) witness_relay)) in
  recv_loop (hy2_recv map_to_list (fun _ => false)) (combine [5; 4] (reverse sent)) (∅, {[ 3 := 8 ]})
  = Ok ([None; Some (8, of_zs [1; 2; 3])], ∅).
Proof.
  intros sent.
  refine (hy2_relay_delivers map_to_list (fun _ => false) 26 3 8 0 witness_hy2_target (of_zs [1; 2; 3]) witness_relay sent
    {| rl_next_flow := 65535; rl_next_pkt := 8; rl_flows := {[ 65535 := 1 ]} |} ∅ {[ 3 := 8 ]}
    (combine [5; 4] (reverse sent)) _ _ _ _ _ _ _ empty_inv _ _ _ _).
  - done.
  - lia.
  - cbn. lia.
  - vm_compute. split; congruence.
  - unfold sent. vm_compute. reflexivity.
  - apply lookup_singleton_eq.
  - done.
  - vm_compute. lia.
  - apply lookup_empty.
  - unfold sent. vm_compute. apply Permutation_swap.
  - assert (exists a b, sent = [a; b]) as (a & b & E) by (eexists _, _; unfold sent; vm_compute; reflexivity).
    rewrite E. repeat constructor; cbn; unfold REASM_TTL; lia.
Defined.
