(* ===== verification/VisionPad.v ===== *)
(** * Vision padding: blocks written and read back
    ([crates/net/src/vision/vision_pad.rs] and [vision_unpad.rs])

    [pad] frames a packet as command, content length, padding length, content
    and random padding, after the user's UUID for the first packet; the random
    source is a parameter with its documented laws. [VisionUnpadder] is the
    incremental parser of the other side: a state, a buffer, and one function
    [unpad] called on every chunk. Its specification is [ref_run], a machine
    that reads one byte at a time and has neither buffers nor chunks;
    [unpad_run] is the refinement the theorems go through. *)

From S2P Require Import Prelude RustStr NetAddr NetIo.

(** ** Random source: [rand::rng()] *)

Record Rng : Type := mkRng {
  random_range : nat -> nat;    (** [random_range(0..n)] *)
  random_fill : nat -> bytes    (** [fill(&mut buf)] for a buffer of [n] bytes *)
}.

Class RngLaws (r : Rng) : Prop := {
  random_range_lt : forall n, (0 < n)%nat -> (random_range r n < n)%nat;
  length_random_fill : forall n, length (random_fill r n) = n
}.

(** ** Writing a block *)

Definition LONG_PADDING_MIN : nat := 900.
Definition LONG_PADDING_RANDOM_MAX : nat := 500.
Definition SHORT_PADDING_RANDOM_MAX : nat := 256.
Definition MAX_PADDING_SIZE : nat := Z.to_nat 8171.

(** [calculate_padding_length]. [saturating_sub] is [nat]'s subtraction; the
    saturating addition of two numbers below 1400 does not saturate. *)
Definition calculate_padding_length (r : Rng) (content_len : nat) (is_tls : bool) : nat :=
  let max_allowable := (MAX_PADDING_SIZE - content_len)%nat in
  if is_tls && (content_len <? LONG_PADDING_MIN)%nat then
    let random_part := random_range r LONG_PADDING_RANDOM_MAX in
    Nat.min (LONG_PADDING_MIN - content_len + random_part) max_allowable
  else Nat.min (random_range r SHORT_PADDING_RANDOM_MAX) max_allowable.

(** [pad]: [data.len() as u16] truncates, the data is written whole. *)
Definition pad (r : Rng) (data : bytes) (uuid : option bytes) (command : Z) (is_tls : bool) : bytes :=
  let content_len := Z.of_nat (length data) mod 65536 in
  let padding_len := calculate_padding_length r (Z.to_nat content_len) is_tls in
  match uuid with Some u => u | None => [] end
  ++ [to_u8 command] ++ be_bytes 2 content_len ++ be_bytes 2 (Z.of_nat padding_len mod 65536)
  ++ data ++ random_fill r padding_len.

Definition pad_with_uuid_and_command (r : Rng) (data uuid : bytes) (command : Z) (is_tls : bool) : bytes :=
  pad r data (Some uuid) command is_tls.

Definition pad_with_command (r : Rng) (data : bytes) (command : Z) (is_tls : bool) : bytes :=
  pad r data None command is_tls.

(** ** Reading blocks *)

Inductive UnpadCommand : Type := CmdContinue | CmdEnd | CmdDirect.

#[export] Instance UnpadCommand_eq_dec : EqDecision UnpadCommand.
Proof. solve_decision. Defined.

(** The discriminants, which are the bytes of the wire. *)
Definition command_code (c : UnpadCommand) : Z :=
  match c with CmdContinue => 0 | CmdEnd => 1 | CmdDirect => 2 end.

(** [UnpadCommand::try_from] *)
Definition command_try_from (value : u8) : res io_error UnpadCommand :=
  match val8 value with
  | 0 => Ok CmdContinue
  | 1 => Ok CmdEnd
  | 2 => Ok CmdDirect
  | v => Err (InvalidData ("Invalid padding command: " ++ show_uint v))
  end.

Record UnpadResult : Type := mkUnpadResult { content : bytes; command : option UnpadCommand }.

(** [UnpadResult::default()] *)
Definition empty_result : UnpadResult := mkUnpadResult [] None.

Inductive UnpadState : Type :=
| Initial (expected_uuid : bytes)
| ReadingCommand
| ReadingContentLength (cmd : UnpadCommand) (first_byte : option u8)
| ReadingPaddingLength (cmd : UnpadCommand) (content_len : Z) (first_byte : option u8)
| ReadingContent (cmd : UnpadCommand) (partial_content : bytes) (remaining_content_len padding_len : Z)
| ReadingPadding (cmd : UnpadCommand) (block_content : bytes) (remaining_padding_len : Z)
| Done.

Record VisionUnpadder : Type := mkUnpadder {
  u_state : UnpadState;
  first_block : bool;
  accumulated_buffer : bytes
}.

(** [VisionUnpadder::new] *)
Definition new_unpadder (expected_uuid : bytes) : VisionUnpadder :=
  mkUnpadder (Initial expected_uuid) true [].

(** What one call leaves and returns; the unpadder is kept on errors too. *)
Definition outcome : Type := VisionUnpadder * res io_error UnpadResult.

(** [self.state = s], with the rest of the input. *)
Definition goto (u : VisionUnpadder) (s : UnpadState) (data : bytes) : VisionUnpadder * bytes + outcome :=
  inl (mkUnpadder s (first_block u) (accumulated_buffer u), data).

(** [(high as u16) << 8 | low as u16] *)
Definition u16_of (high low : u8) : Z := Z.lor (Z.shiftl (val8 high) 8) (val8 low).

(** Out of data inside a header: what is accumulated is returned (and taken)
    once a block has been completed, the default result before that. *)
Definition out_of_header_data (u : VisionUnpadder) : VisionUnpadder * bytes + outcome :=
  if negb (first_block u)
  then inr (mkUnpadder (u_state u) (first_block u) [], Ok (mkUnpadResult (accumulated_buffer u) (Some CmdContinue)))
  else inr (u, Ok empty_result).

(** Out of data inside a block: the content read so far is moved to the
    accumulated buffer ([append] empties it) and the buffer is returned. *)
Definition out_of_block_data (u : VisionUnpadder) (emptied : UnpadState) (moved : bytes) :
    VisionUnpadder * bytes + outcome :=
  inr (mkUnpadder emptied (first_block u) [],
       Ok (mkUnpadResult (accumulated_buffer u ++ moved)
             (if first_block u then None else Some CmdContinue))).

(** The end of [ReadingPadding], with no padding left. *)
Definition block_complete (u : VisionUnpadder) (cmd : UnpadCommand) (block_content data : bytes) :
    VisionUnpadder * bytes + outcome :=
  let acc := accumulated_buffer u ++ block_content in
  match cmd with
  | CmdContinue => inl (mkUnpadder ReadingCommand false acc, data)
  | end_or_direct => inr (mkUnpadder Done false [], Ok (mkUnpadResult (acc ++ data) (Some end_or_direct)))
  end.

(** One turn of the loop of [unpad]. *)
Definition unpad_step (s : VisionUnpadder * bytes) : VisionUnpadder * bytes + outcome :=
  let '(u, data) := s in
  match u_state u with
  | Initial expected_uuid =>
      if (length data <? 16)%nat then inr (u, Ok empty_result)
      else if negb (bool_decide (take 16 data = expected_uuid)) then inr (u, Ok (mkUnpadResult data None))
      else goto u ReadingCommand (drop 16 data)
  | ReadingCommand =>
      match data with
      | [] => out_of_header_data u
      | b :: data => match command_try_from b with
                     | Ok cmd => goto u (ReadingContentLength cmd None) data
                     | Err e => inr (u, Err e)
                     | Panic => inr (u, Panic)
                     end
      end
  | ReadingContentLength cmd first_byte =>
      match data, first_byte with
      | [], _ => out_of_header_data u
      | b :: data, None => goto u (ReadingContentLength cmd (Some b)) data
      | b :: data, Some high => goto u (ReadingPaddingLength cmd (u16_of high b) None) data
      end
  | ReadingPaddingLength cmd content_len first_byte =>
      match data, first_byte with
      | [], _ => out_of_header_data u
      | b :: data, None => goto u (ReadingPaddingLength cmd content_len (Some b)) data
      | b :: data, Some high => goto u (ReadingContent cmd [] content_len (u16_of high b)) data
      end
  | ReadingContent cmd partial remaining padding_len =>
      if (0 <? remaining) && bool_decide (data = []) then
        out_of_block_data u (ReadingContent cmd [] remaining padding_len) partial
      else
        let to_read := Z.min remaining (Z.of_nat (length data)) in
        let partial := partial ++ take (Z.to_nat to_read) data in
        let data := drop (Z.to_nat to_read) data in
        let remaining := remaining - to_read in
        if remaining =? 0 then goto u (ReadingPadding cmd partial padding_len) data
        else goto u (ReadingContent cmd partial remaining padding_len) data
  | ReadingPadding cmd block_content remaining =>
      if (0 <? remaining) && bool_decide (data = []) then
        out_of_block_data u (ReadingPadding cmd [] remaining) block_content
      else
        let to_skip := Z.min remaining (Z.of_nat (length data)) in
        let data := drop (Z.to_nat to_skip) data in
        let remaining := remaining - to_skip in
        if remaining =? 0 then block_complete u cmd block_content data
        else goto u (ReadingPadding cmd block_content remaining) data
  | Done => inr (u, Err (InvalidData "Already in UnpadState::Done"))
  end.

(** [VisionUnpadder::unpad]: the buffer is cleared, then the loop. Each turn
    that reads no byte passes from the content to the padding or ends a block,
    so three turns per byte and three more are enough ([unpad_run]). *)
Definition unpad_fuel (data : bytes) : nat := (3 * length data + 4)%nat.

Definition unpad (u : VisionUnpadder) (data : bytes) : res io_error outcome :=
  loop (unpad_fuel data) (fun s => Ok (unpad_step s)) (mkUnpadder (u_state u) (first_block u) [], data).

(** ** The specification: one byte at a time *)

(** What is being read, with no buffer; [CDone] keeps the final command. *)
Inductive Ctl : Type :=
| CCommand
| CLength (cmd : UnpadCommand) (first_byte : option u8)
| CPadLength (cmd : UnpadCommand) (content_len : Z) (first_byte : option u8)
| CContent (cmd : UnpadCommand) (remaining padding_len : Z)
| CPadding (cmd : UnpadCommand) (remaining : Z)
| CDone (cmd : UnpadCommand).

(** The control and whether no block is complete yet. *)
Definition ref_state : Type := Ctl * bool.

Definition after_block (cmd : UnpadCommand) : Ctl :=
  match cmd with CmdContinue => CCommand | c => CDone c end.

Definition settle_padding (f : bool) (cmd : UnpadCommand) (padding : Z) : ref_state :=
  if 0 <? padding then (CPadding cmd padding, f) else (after_block cmd, false).

Definition settle_content (f : bool) (cmd : UnpadCommand) (len padding : Z) : ref_state :=
  if 0 <? len then (CContent cmd len padding, f) else settle_padding f cmd padding.

Definition ref_byte (s : ref_state) (b : u8) : res io_error (ref_state * bytes) :=
  let '(c, f) := s in
  match c with
  | CCommand => cmd ← command_try_from b; Ok ((CLength cmd None, f), [])
  | CLength cmd None => Ok ((CLength cmd (Some b), f), [])
  | CLength cmd (Some h) => Ok ((CPadLength cmd (be_value [h; b]) None, f), [])
  | CPadLength cmd len None => Ok ((CPadLength cmd len (Some b), f), [])
  | CPadLength cmd len (Some h) => Ok (settle_content f cmd len (be_value [h; b]), [])
  | CContent cmd n padding => Ok (settle_content f cmd (n - 1) padding, [b])
  | CPadding cmd n => Ok (settle_padding f cmd (n - 1), [])
  | CDone cmd => Ok (s, [b])
  end.

Fixpoint ref_run (s : ref_state) (data : bytes) : res io_error (ref_state * bytes) :=
  match data with
  | [] => Ok (s, [])
  | b :: data => '(s1, o1) ← ref_byte s b; '(s2, o2) ← ref_run s1 data; Ok (s2, o1 ++ o2)
  end.

(** The command a call reports when it stops in a state. *)
Definition result_command (s : ref_state) : option UnpadCommand :=
  match s with
  | (CDone c, _) => Some c
  | (_, f) => if f then None else Some CmdContinue
  end.

(** The unpadder resting in a state, with its buffers empty. *)
Definition resting (s : ref_state) : VisionUnpadder :=
  mkUnpadder match fst s with
             | CCommand => ReadingCommand
             | CLength cmd h => ReadingContentLength cmd h
             | CPadLength cmd n h => ReadingPaddingLength cmd n h
             | CContent cmd n p => ReadingContent cmd [] n p
             | CPadding cmd n => ReadingPadding cmd [] n
             | CDone _ => Done
             end (snd s) [].

(** The state an unpadder between its first and its last block is in, and the
    content it holds back. *)
Definition ref_of (u : VisionUnpadder) : ref_state :=
  match u_state u with
  | ReadingContentLength cmd h => (CLength cmd h, first_block u)
  | ReadingPaddingLength cmd n h => (CPadLength cmd n h, first_block u)
  | ReadingContent cmd _ n p => settle_content (first_block u) cmd n p
  | ReadingPadding cmd _ n => settle_padding (first_block u) cmd n
  | _ => (CCommand, first_block u)
  end.

Definition held (u : VisionUnpadder) : bytes :=
  accumulated_buffer u ++
  match u_state u with ReadingContent _ p _ _ => p | ReadingPadding _ c _ => c | _ => [] end.

(** The invariant of the loop once the UUID is read. *)
Definition running (u : VisionUnpadder) : Prop :=
  (first_block u = true -> accumulated_buffer u = []) /\
  match u_state u with
  | Initial _ | Done => False
  | ReadingPaddingLength _ n _ => 0 <= n
  | ReadingContent _ _ n p => 0 <= n /\ 0 <= p
  | ReadingPadding _ _ n => 0 <= n
  | _ => True
  end.

(** The invariant of the specification: counters of a started part are positive. *)
Definition ref_ok (s : ref_state) : Prop :=
  match fst s with
  | CPadLength _ n _ => 0 <= n
  | CContent _ n p => 0 < n /\ 0 <= p
  | CPadding _ n => 0 < n
  | CDone _ => snd s = false
  | _ => True
  end.

(** ** Lemmas on the specification *)

Lemma u16_of_be h l : u16_of h l = be_value [h; l].
Proof.
  unfold u16_of. rewrite Z.shiftl_mul_pow2 by lia. rewrite lor_add by (pose proof (val8_range l); lia).
  unfold be_value. cbn [be_value_from]. lia.
Qed.

Lemma be2_range h l : 0 <= be_value [h; l].
Proof. apply (be_value_range [h; l]). Qed.

Lemma command_code_from c : command_try_from (to_u8 (command_code c)) = Ok c.
Proof. by destruct c. Qed.

Lemma ref_run_app a : forall s b,
  ref_run s (a ++ b) = '(s1, o1) ← ref_run s a; '(s2, o2) ← ref_run s1 b; Ok (s2, o1 ++ o2).
Proof.
  induction a as [|x a IH]; intros s b.
  - cbn. by destruct (ref_run s b) as [[]| |].
  - cbn [app ref_run]. destruct (ref_byte s x) as [[s1 o1]| |]; cbn; [|done..]. rewrite IH.
    destruct (ref_run s1 a) as [[s2 o2]| |]; cbn; [|done..].
    destruct (ref_run s2 b) as [[s3 o3]| |]; cbn; [|done..]. by rewrite app_assoc.
Qed.

Lemma ref_done c f d : ref_run (CDone c, f) d = Ok ((CDone c, f), d).
Proof. induction d as [|b d IH]; [done|]. cbn [ref_run ref_byte]. cbn. by rewrite IH. Qed.

Lemma settle_content_pos f cmd n p : 0 < n -> settle_content f cmd n p = (CContent cmd n p, f).
Proof. intros H. unfold settle_content. by rewrite (proj2 (Z.ltb_lt 0 n)) by lia. Qed.

Lemma settle_padding_pos f cmd n : 0 < n -> settle_padding f cmd n = (CPadding cmd n, f).
Proof. intros H. unfold settle_padding. by rewrite (proj2 (Z.ltb_lt 0 n)) by lia. Qed.

(** A run of content is copied, a run of padding is dropped. *)
Lemma ref_content f cmd p d : forall n rest, Z.of_nat (length d) <= n ->
  ref_run (settle_content f cmd n p) (d ++ rest) =
  '(s, o) ← ref_run (settle_content f cmd (n - Z.of_nat (length d)) p) rest; Ok (s, d ++ o).
Proof.
  induction d as [|b d IH]; intros n rest Hn; cbn [length app] in *.
  - rewrite Z.sub_0_r. by destruct (ref_run _ rest) as [[]| |].
  - rewrite settle_content_pos by lia. cbn [ref_run ref_byte]. cbn [mbind res_bind].
    rewrite IH by lia. replace (n - 1 - Z.of_nat (length d)) with (n - Z.of_nat (S (length d))) by lia.
    by destruct (ref_run _ rest) as [[]| |].
Qed.

Lemma ref_padding f cmd d : forall n rest, Z.of_nat (length d) <= n ->
  ref_run (settle_padding f cmd n) (d ++ rest) = ref_run (settle_padding f cmd (n - Z.of_nat (length d))) rest.
Proof.
  induction d as [|b d IH]; intros n rest Hn; cbn [length app] in *.
  - by rewrite Z.sub_0_r.
  - rewrite settle_padding_pos by lia. cbn [ref_run ref_byte]. cbn [mbind res_bind].
    rewrite IH by lia. replace (n - 1 - Z.of_nat (length d)) with (n - Z.of_nat (S (length d))) by lia.
    by destruct (ref_run _ rest) as [[]| |].
Qed.

Lemma settle_ok f cmd n p : 0 <= n -> 0 <= p -> ref_ok (settle_content f cmd n p) /\ ref_ok (settle_padding f cmd n).
Proof.
  intros. unfold settle_content, settle_padding.
  destruct (Z.ltb_spec 0 n), (Z.ltb_spec 0 p); split; try (split; [|]); try done; cbn; try lia; by destruct cmd.
Qed.

Lemma ref_run_ok d : forall s s' o, ref_ok s -> ref_run s d = Ok (s', o) -> ref_ok s'.
Proof.
  induction d as [|b d IH]; intros s s' o Hs H; cbn [ref_run] in H; [by simplify_eq|].
  apply ok_bind in H as ([s1 o1] & H1 & H). apply ok_bind in H as ([s2 o2] & H2 & H). simplify_eq.
  refine (IH _ _ _ _ H2). destruct s as [c f].
  destruct c as [|cmd [h|]|cmd n [h|]|cmd n p|cmd n|cmd]; cbn in H1, Hs; simplify_eq; try done; try apply be2_range.
  - by apply ok_bind in H1 as (cmd & _ & [= <- <-]).
  - apply settle_ok; [done|apply be2_range].
  - apply settle_ok; lia.
  - apply (settle_ok _ _ _ 0); lia.
Qed.

(** ** [unpad] refines the specification *)

(** The outcome the specification prescribes, given what is held back. *)
Definition agrees (u : VisionUnpadder) (data : bytes) (out : outcome) : Prop :=
  match ref_run (ref_of u) data with
  | Ok (s, o) => out = (resting s, Ok (mkUnpadResult (held u ++ o) (result_command s)))
  | Err e => u_state (fst out) = ReadingCommand /\ snd out = Err e
  | Panic => False
  end.

Definition phase (u : VisionUnpadder) : nat :=
  match u_state u with ReadingContent _ _ _ _ => 2 | ReadingPadding _ _ _ => 1 | _ => 0 end%nat.

Definition measure (s : VisionUnpadder * bytes) : nat := (3 * length (snd s) + phase (fst s))%nat.

(** A turn that goes on: fewer bytes or a later phase, and the bytes it read
    put [o] in the output. *)
Definition advances (u : VisionUnpadder) (data : bytes) (u' : VisionUnpadder) (data' : bytes) : Prop :=
  running u' /\ (measure (u', data') < measure (u, data))%nat /\
  exists o, held u' = held u ++ o /\
    ref_run (ref_of u) data = '(s, o') ← ref_run (ref_of u') data'; Ok (s, o ++ o').

Definition step_spec (u : VisionUnpadder) (data : bytes) (r : VisionUnpadder * bytes + outcome) : Prop :=
  match r with inl (u', data') => advances u data u' data' | inr out => agrees u data out end.

Lemma advances_quiet u data u' data' : running u' -> (measure (u', data') < measure (u, data))%nat ->
  held u' = held u -> ref_run (ref_of u) data = ref_run (ref_of u') data' -> advances u data u' data'.
Proof.
  intros. split_and!; [done..|]. exists []. rewrite app_nil_r. split; [done|].
  rewrite H2. by destruct (ref_run _ data') as [[]| |].
Qed.

Lemma out_of_header_spec u : running u -> fst (ref_of u) <> CDone CmdEnd -> fst (ref_of u) <> CDone CmdDirect ->
  fst (ref_of u) <> CDone CmdContinue -> resting (ref_of u) = mkUnpadder (u_state u) (first_block u) [] ->
  held u = accumulated_buffer u -> step_spec u [] (out_of_header_data u).
Proof.
  intros [Ha _] H1 H2 H3 Hr Hh. unfold out_of_header_data, step_spec, agrees. cbn [ref_run]. rewrite Hr, Hh, app_nil_r.
  assert (snd (ref_of u) = first_block u) as Hf by (by apply (f_equal first_block) in Hr).
  destruct (ref_of u) as [c f] eqn:Er. cbn in *. subst f.
  destruct (first_block u) eqn:Ef; cbn [negb].
  - specialize (Ha eq_refl). destruct u as [s fb acc]; cbn in *. subst.
    unfold result_command. destruct c as [| | | | |[]]; done.
  - unfold result_command. destruct c as [| | | | |[]]; done.
Qed.

Lemma min_split (n : Z) (data : bytes) : 0 <= n -> (0 <? n) && bool_decide (data = []) = false ->
  let k := Z.min n (Z.of_nat (length data)) in
  data = take (Z.to_nat k) data ++ drop (Z.to_nat k) data /\ Z.of_nat (length (take (Z.to_nat k) data)) = k /\
  (n - k = 0 \/ 0 < n - k /\ (length (drop (Z.to_nat k) data) < length data)%nat).
Proof.
  intros Hn Hg k. rewrite length_take, length_drop. split; [by rewrite take_drop|].
  assert (0 < n -> (0 < length data)%nat) as Hd.
  { intros Hp. rewrite (proj2 (Z.ltb_lt _ _)) in Hg by done. cbn in Hg.
    destruct data; [by rewrite bool_decide_eq_true_2 in Hg|cbn; lia]. }
  subst k. split; [lia|]. lia.
Qed.

Lemma step_content u cmd partial n p data : running u -> u_state u = ReadingContent cmd partial n p ->
  step_spec u data (unpad_step (u, data)).
Proof.
  intros [Ha Hs] Eu. destruct u as [st f acc]. cbn in *. subst st. destruct Hs as [Hn Hp].
  destruct ((0 <? n) && bool_decide (data = [])) eqn:Eg.
  - apply andb_true_iff in Eg as [Hn'%Z.ltb_lt ->%bool_decide_eq_true]. unfold out_of_block_data, step_spec, agrees, held.
    cbn. rewrite settle_content_pos, app_nil_r by done. done.
  - destruct (min_split n data Hn Eg) as (Hd & Hl & Hc). set (k := Z.min n (Z.of_nat (length data))) in *.
    assert (forall st', (st' = ReadingPadding cmd (partial ++ take (Z.to_nat k) data) p /\ n - k = 0) \/
        (st' = ReadingContent cmd (partial ++ take (Z.to_nat k) data) (n - k) p /\ 0 < n - k /\
          (length (drop (Z.to_nat k) data) < length data)%nat) ->
      advances (mkUnpadder (ReadingContent cmd partial n p) f acc) data (mkUnpadder st' f acc) (drop (Z.to_nat k) data)) as HA.
    { intros st' Hst. split_and!.
      - by destruct Hst as [[-> ?]|(-> & ? & ?)]; split; cbn; lia || done.
      - pose proof (f_equal length Hd) as Hlen. rewrite length_app in Hlen.
        destruct Hst as [[-> ?]|(-> & ? & ?)]; unfold measure; cbn -[Nat.mul]; lia.
      - exists (take (Z.to_nat k) data). split.
        { destruct Hst as [[-> _]|[-> _]]; unfold held; cbn; by rewrite !app_assoc. }
        rewrite Hd at 1. cbn [ref_of u_state first_block]. rewrite ref_content by lia. rewrite Hl.
        destruct Hst as [[-> Hz]|[-> _]]; [|done]. rewrite Hz. done. }
    cbn. destruct (Z.eqb_spec (n - k) 0) as [Hz|Hz]; apply HA; [by left|]. right. split; [done|lia].
Qed.

Lemma step_padding u cmd content n data : running u -> u_state u = ReadingPadding cmd content n ->
  step_spec u data (unpad_step (u, data)).
Proof.
  intros [Ha Hn] Eu. destruct u as [st f acc]. cbn in *. subst st.
  destruct ((0 <? n) && bool_decide (data = [])) eqn:Eg.
  - apply andb_true_iff in Eg as [Hn'%Z.ltb_lt ->%bool_decide_eq_true]. unfold out_of_block_data, step_spec, agrees, held.
    cbn. rewrite settle_padding_pos, app_nil_r by done. done.
  - destruct (min_split n data Hn Eg) as (Hd & Hl & Hc). set (k := Z.min n (Z.of_nat (length data))) in *.
    assert (ref_run (settle_padding f cmd n) data = ref_run (settle_padding f cmd (n - k)) (drop (Z.to_nat k) data)) as Hr.
    { rewrite Hd at 1. rewrite ref_padding by lia. by rewrite Hl. }
    cbn. destruct (Z.eqb_spec (n - k) 0) as [Hz|Hz].
    + rewrite Hz in Hr. change (settle_padding f cmd 0) with (after_block cmd, false) in Hr.
      unfold block_complete. cbn.
      destruct cmd; unfold step_spec; cbn [after_block] in Hr.
      * apply advances_quiet; [done| |by unfold held; cbn; rewrite app_nil_r|done].
        unfold measure. cbn -[Nat.mul]. rewrite length_drop. lia.
      * unfold agrees, held. cbn. rewrite Hr, ref_done. done.
      * unfold agrees, held. cbn. rewrite Hr, ref_done. done.
    + apply advances_quiet; [|unfold measure; cbn -[Nat.mul]; lia|done|done].
      split; [done|cbn; lia].
Qed.

Lemma unpad_step_spec u data : running u -> step_spec u data (unpad_step (u, data)).
Proof.
  intros Hu. pose proof Hu as [Ha Hs]. destruct (u_state u) as [|  |cmd h|cmd n h|cmd p n q|cmd c n|] eqn:Eu; [done| | | | | |done].
  - destruct u as [st f acc]. cbn in *. subst st. destruct data as [|b data].
    { by apply out_of_header_spec; try done; unfold held; cbn; rewrite app_nil_r. }
    cbn. destruct (command_try_from b) as [cmd|e|] eqn:Eb.
    + apply advances_quiet; [done|unfold measure; cbn; lia|done|].
      cbn [ref_of u_state first_block ref_run ref_byte]. rewrite Eb. cbn. by destruct (ref_run _ data) as [[]| |].
    + unfold step_spec, agrees. cbn [ref_of u_state first_block ref_run ref_byte]. by rewrite Eb.
    + unfold command_try_from in Eb. repeat (case_match; try done).
  - destruct u as [st f acc]. cbn in *. subst st. destruct data as [|b data].
    { by apply out_of_header_spec; try done; unfold held; cbn; rewrite app_nil_r. }
    destruct h as [h|]; cbn; (apply advances_quiet; [|unfold measure; cbn; lia|done|]).
    + split; [done|]. cbn. rewrite u16_of_be. apply be2_range.
    + cbn. rewrite u16_of_be. by destruct (ref_run _ data) as [[]| |].
    + done.
    + cbn. by destruct (ref_run _ data) as [[]| |].
  - destruct u as [st f acc]. cbn in *. subst st. destruct data as [|b data].
    { by apply out_of_header_spec; try done; unfold held; cbn; rewrite app_nil_r. }
    destruct h as [h|]; cbn; (apply advances_quiet; [|unfold measure; cbn; lia|done|]).
    + split; [done|]. cbn. rewrite u16_of_be. split; [done|apply be2_range].
    + cbn. rewrite u16_of_be. by destruct (ref_run _ data) as [[]| |].
    + done.
    + cbn. by destruct (ref_run _ data) as [[]| |].
  - by eapply step_content.
  - by eapply step_padding.
Qed.

(** The loop, from any state between the first and the last block. *)
Lemma unpad_loop_spec fuel : forall u data, running u -> (measure (u, data) < fuel)%nat ->
  exists out, loop (E := io_error) fuel (fun s => Ok (unpad_step s)) (u, data) = Ok out /\ agrees u data out.
Proof.
  induction fuel as [|fuel IH]; intros u data Hu Hm; [lia|]. cbn [loop mbind res_bind].
  pose proof (unpad_step_spec u data Hu) as Hs. destruct (unpad_step (u, data)) as [[u' data']|out]; [|by exists out].
  destruct Hs as (Hu' & Hm' & o & Hh & Hr). destruct (IH u' data' Hu') as (out & Ho & Hg); [lia|].
  exists out. split; [done|]. unfold agrees in *. rewrite Hr.
  destruct (ref_run (ref_of u') data') as [[s o']| |]; cbn; [|done..]. by rewrite Hg, Hh, app_assoc.
Qed.

Definition finished (s : ref_state) : Prop := match fst s with CDone _ => True | _ => False end.

#[export] Instance finished_dec s : Decision (finished s).
Proof. destruct s as [[] ?]; cbn; apply _. Defined.

Lemma resting_running s : ref_ok s -> ~ finished s ->
  running (resting s) /\ ref_of (resting s) = s /\ held (resting s) = [].
Proof.
  destruct s as [[|cmd h|cmd n h|cmd n p|cmd n|cmd] f]; cbn; intros Hs Hd; try done.
  - unfold running, ref_of. cbn. rewrite settle_content_pos by lia. split_and!; done || lia.
  - unfold running, ref_of. cbn. rewrite settle_padding_pos by lia. split_and!; done || lia.
Qed.

(** One call: any chunk, between the first and the last block. *)
Lemma unpad_run s data : ref_ok s -> ~ finished s ->
  exists out, unpad (resting s) data = Ok out /\
    match ref_run s data with
    | Ok (s', o) => out = (resting s', Ok (mkUnpadResult o (result_command s')))
    | Err e => u_state (fst out) = ReadingCommand /\ snd out = Err e
    | Panic => False
    end.
Proof.
  intros Hs Hd. destruct (resting_running s Hs Hd) as (Hr & He & Hh).
  destruct (unpad_loop_spec (unpad_fuel data) (resting s) data Hr) as (out & Ho & Hg).
  { unfold unpad_fuel, measure, phase. cbn -[Nat.mul]. case_match; lia. }
  exists out. split; [exact Ho|]. unfold agrees in Hg. by rewrite He, Hh in Hg.
Qed.

(** The first call, when the chunk starts with the UUID. *)
Lemma unpad_initial uuid data : length uuid = 16%nat ->
  unpad (new_unpadder uuid) (uuid ++ data) = unpad (resting (CCommand, true)) data.
Proof.
  intros Hu. destruct (unpad_run (CCommand, true) data) as (out & Ho & _); [done|by intros []|].
  rewrite Ho. unfold unpad, unpad_fuel in *. rewrite length_app, Hu.
  replace (3 * (16 + length data) + 4)%nat with (S (3 * length data + 4 + 47)) by lia.
  cbn [loop mbind res_bind unpad_step new_unpadder u_state].
  rewrite (proj2 (Nat.ltb_ge _ _)) by (rewrite length_app; lia).
  rewrite take_app_length', drop_app_length' by done. rewrite bool_decide_eq_true_2 by done.
  cbn [negb goto first_block accumulated_buffer].
  cbn [resting fst snd u_state first_block] in Ho. rewrite <- Ho.
  apply (loop_mono (fun s => Ok (unpad_step s))); [by rewrite Ho|lia].
Qed.

(** ** Several calls *)

Fixpoint feed (u : VisionUnpadder) (chunks : list bytes) : res io_error (VisionUnpadder * list UnpadResult) :=
  match chunks with
  | [] => Ok (u, [])
  | c :: cs =>
      match unpad u c with
      | Ok (u1, Ok r) => '(u2, rs) ← feed u1 cs; Ok (u2, r :: rs)
      | Ok (_, Err e) => Err e
      | _ => Panic
      end
  end.

Lemma feed_app u a b : feed u (a ++ b) = '(u1, ra) ← feed u a; '(u2, rb) ← feed u1 b; Ok (u2, ra ++ rb).
Proof.
  revert u. induction a as [|c a IH]; intros u.
  - cbn. by destruct (feed u b) as [[]| |].
  - cbn [app feed]. destruct (unpad u c) as [[u1 [r|e|]]|e|]; [|done..]. rewrite IH.
    destruct (feed u1 a) as [[u2 ra]| |]; [|done..]. cbn.
    by destruct (feed u2 b) as [[]| |].
Qed.

Lemma not_finished_prefix s a b s1 o1 s2 o2 : ref_run s a = Ok (s1, o1) -> ref_run s1 b = Ok (s2, o2) ->
  ~ finished s2 -> ~ finished s1.
Proof.
  intros _ H2 Hn Hf. apply Hn. destruct s1 as [c f]. destruct c; try done. rewrite ref_done in H2. by simplify_eq.
Qed.

Definition contents (rs : list UnpadResult) : bytes := concat (map content rs).

Definition mid_stream (r : UnpadResult) : Prop := command r = None \/ command r = Some CmdContinue.

Lemma contents_app a b : contents (a ++ b) = contents a ++ contents b.
Proof. unfold contents. by rewrite map_app, concat_app. Qed.

Lemma result_command_mid s : ~ finished s -> result_command s = None \/ result_command s = Some CmdContinue.
Proof. intros H. destruct s as [[] []]; cbn in *; auto; by destruct H. Qed.

(** However the bytes are cut, the calls return what the specification
    outputs on the whole. *)
Lemma feed_run chunks : forall s s' o, ref_ok s -> ref_run s (concat chunks) = Ok (s', o) -> ~ finished s' ->
  exists rs, feed (resting s) chunks = Ok (resting s', rs) /\ contents rs = o /\ Forall mid_stream rs.
Proof.
  induction chunks as [|c cs IH]; intros s s' o Hs Hr Hn.
  - cbn in Hr. simplify_eq. by exists [].
  - cbn [concat] in Hr. rewrite ref_run_app in Hr.
    apply ok_bind in Hr as ([s1 o1] & H1 & Hr). apply ok_bind in Hr as ([s2 o2] & H2 & Hr).
    assert (s2 = s' /\ o1 ++ o2 = o) as [-> <-] by (split; congruence). clear Hr.
    pose proof (not_finished_prefix _ _ _ _ _ _ _ H1 H2 Hn) as Hn1.
    assert (~ finished s) as Hns by (apply (not_finished_prefix s [] c s [] s1 o1); done).
    destruct (unpad_run s c Hs Hns) as (out & Ho & Hout). rewrite H1 in Hout. subst out.
    destruct (IH s1 s' o2 (ref_run_ok _ _ _ _ Hs H1) H2 Hn) as (rs & Hf & Hc & Hm).
    cbn [feed]. rewrite Ho, Hf. eexists. split; [done|]. split; [cbn; by rewrite <- Hc|].
    constructor; [|done]. by apply result_command_mid.
Qed.

Lemma feed_run_last s init last s1 o1 s' o : ref_ok s -> ref_run s (concat init) = Ok (s1, o1) -> ~ finished s1 ->
  ref_run s1 last = Ok (s', o) ->
  exists rs, feed (resting s) (init ++ [last]) = Ok (resting s', rs ++ [mkUnpadResult o (result_command s')]) /\
    contents rs = o1 /\ Forall mid_stream rs.
Proof.
  intros Hs H1 Hn H2. destruct (feed_run init s s1 o1 Hs H1 Hn) as (rs & Hf & Hc & Hm).
  destruct (unpad_run s1 last (ref_run_ok _ _ _ _ Hs H1) Hn) as (out & Ho & Hout). rewrite H2 in Hout. subst out.
  exists rs. split; [|done]. rewrite feed_app, Hf. cbn [mbind res_bind feed]. by rewrite Ho.
Qed.

(** ** Blocks *)

Lemma padding_bound r n tls : (calculate_padding_length r n tls <= MAX_PADDING_SIZE - n)%nat.
Proof. unfold calculate_padding_length. destruct (tls && _); lia. Qed.

(** A header read from the start of a block. *)
Lemma ref_header f cmd n p rest : 0 <= n < 65536 -> 0 <= p < 65536 ->
  ref_run (CCommand, f) ([to_u8 (command_code cmd)] ++ be_bytes 2 n ++ be_bytes 2 p ++ rest) =
  ref_run (settle_content f cmd n p) rest.
Proof.
  intros Hn Hp. rewrite <- (be_value_be_bytes_small 2 n), <- (be_value_be_bytes_small 2 p) at 2 by done.
  cbn [be_bytes app]. cbn [ref_run ref_byte]. rewrite command_code_from.
  cbn -[be_value to_u8 settle_content Z.div Z.pow Z.of_nat]. by destruct (ref_run _ rest) as [[]| |].
Qed.

Section blocks.
Context (r : Rng) {laws : RngLaws r} (data : bytes) (cmd : UnpadCommand) (tls : bool).
Hypothesis Hdata : Z.of_nat (length data) < 65536.

Let n := Z.of_nat (length data).
Let p := calculate_padding_length r (Z.to_nat n) tls.

Lemma pad_shape : pad r data None (command_code cmd) tls =
  [to_u8 (command_code cmd)] ++ be_bytes 2 n ++ be_bytes 2 (Z.of_nat p) ++ data ++ random_fill r p.
Proof using Hdata.
  unfold pad, n, p. rewrite (Z.mod_small (Z.of_nat (length data))) by lia.
  pose proof (padding_bound r (Z.to_nat (Z.of_nat (length data))) tls) as Hb.
  rewrite Z.mod_small; [done|]. unfold MAX_PADDING_SIZE in Hb. lia.
Qed.

Lemma block_numbers : 0 <= n < 65536 /\ 0 <= Z.of_nat p < 65536.
Proof using Hdata.
  pose proof (padding_bound r (Z.to_nat n) tls) as Hb. unfold MAX_PADDING_SIZE in Hb. fold p in Hb.
  unfold n in *. lia.
Qed.

(** A whole block is its content. *)
Lemma ref_pad f : ref_run (CCommand, f) (pad r data None (command_code cmd) tls) = Ok ((after_block cmd, false), data).
Proof using laws Hdata.
  pose proof block_numbers as [Hn Hp]. rewrite pad_shape, ref_header by done.
  rewrite ref_content by done. fold n. rewrite Z.sub_diag. change (settle_content f cmd 0) with (settle_padding f cmd).
  rewrite <- (app_nil_r (random_fill r p)), ref_padding by (rewrite length_random_fill; lia).
  rewrite length_random_fill, Z.sub_diag. cbn. by rewrite app_nil_r.
Qed.

(** Without its last byte the block is not finished. *)
Lemma ref_pad_short f a b : pad r data None (command_code cmd) tls = a ++ [b] ->
  exists s o, ref_run (CCommand, f) a = Ok (s, o) /\ ~ finished s.
Proof using laws Hdata.
  pose proof block_numbers as [Hn Hp]. rewrite pad_shape. intros Ha.
  pose proof (length_random_fill (r := r) p) as Hl. destruct (random_fill r p) as [|x fill _] eqn:Ef using rev_ind.
  - assert (p = 0%nat) as Hp0 by (by rewrite <- Hl). rewrite Hp0, app_nil_r in Ha.
    destruct data as [|y d _] eqn:Ed using rev_ind.
    + rewrite !app_assoc in Ha. rewrite app_nil_r in Ha. change (be_bytes 2 (Z.of_nat 0)) with ([to_u8 0] ++ [to_u8 0]) in Ha.
      rewrite app_assoc in Ha. apply app_inj_tail in Ha as [<- _]. cbn. eexists _, _. split.
      { cbn. rewrite command_code_from. cbn. reflexivity. }
      by intros [].
    + rewrite !app_assoc in Ha. apply app_inj_tail in Ha as [<- _]. rewrite <- !app_assoc.
      rewrite ref_header by done. rewrite <- (app_nil_r d), ref_content by (unfold n; rewrite length_app; lia).
      rewrite settle_content_pos by (unfold n; rewrite length_app; cbn; lia). cbn. eexists _, _. split; [done|by intros []].
  - rewrite !app_assoc in Ha. apply app_inj_tail in Ha as [<- _]. rewrite <- !app_assoc.
    rewrite ref_header by done. rewrite ref_content by done. fold n. rewrite Z.sub_diag.
    change (settle_content f cmd 0) with (settle_padding f cmd). rewrite length_app in Hl. cbn in Hl.
    rewrite <- (app_nil_r fill), ref_padding by lia. rewrite settle_padding_pos by lia.
    cbn. eexists _, _. split; [done|by intros []].
Qed.

End blocks.

(** ** A padded stream *)

(** What one call of [pad] is given. *)
Record Packet : Type := mkPacket { p_rng : Rng; p_data : bytes; p_tls : bool }.

Definition packet_ok (p : Packet) : Prop := RngLaws (p_rng p) /\ Z.of_nat (length (p_data p)) < 65536.

(** The packets before the last one carry [Continue], the last one [cmd]. *)
Fixpoint padded_blocks (ps : list Packet) (last : Packet) (cmd : UnpadCommand) : bytes :=
  match ps with
  | [] => pad_with_command (p_rng last) (p_data last) (command_code cmd) (p_tls last)
  | p :: ps => pad_with_command (p_rng p) (p_data p) (command_code CmdContinue) (p_tls p)
               ++ padded_blocks ps last cmd
  end.

(** The first packet is written with the UUID. *)
Definition padded_stream (uuid : bytes) (ps : list Packet) (last : Packet) (cmd : UnpadCommand) : bytes :=
  match ps with
  | [] => pad_with_uuid_and_command (p_rng last) (p_data last) uuid (command_code cmd) (p_tls last)
  | p :: ps => pad_with_uuid_and_command (p_rng p) (p_data p) uuid (command_code CmdContinue) (p_tls p)
               ++ padded_blocks ps last cmd
  end.

Lemma padded_stream_blocks uuid ps last cmd : padded_stream uuid ps last cmd = uuid ++ padded_blocks ps last cmd.
Proof. destruct ps; cbn [padded_stream padded_blocks]; [done|]. by rewrite app_assoc. Qed.

Lemma ref_blocks ps last cmd : Forall packet_ok ps -> packet_ok last -> forall f,
  ref_run (CCommand, f) (padded_blocks ps last cmd) =
  Ok ((after_block cmd, false), concat (map p_data ps) ++ p_data last).
Proof.
  intros Hps [Hl Hd]. induction Hps as [|p ps [Hp Hpd] Hps IH]; intros f; cbn [padded_blocks map concat app].
  - by apply ref_pad.
  - rewrite ref_run_app. unfold pad_with_command at 1. rewrite ref_pad by done. cbn [mbind res_bind after_block].
    rewrite IH. cbn. by rewrite app_assoc.
Qed.

(** A proper prefix does not finish the stream. *)
Lemma ref_blocks_short ps last cmd : Forall packet_ok ps -> packet_ok last -> forall f a b t,
  padded_blocks ps last cmd = a ++ b :: t ->
  exists s o, ref_run (CCommand, f) a = Ok (s, o) /\ ~ finished s.
Proof.
  intros Hps Hlast f a b t H.
  assert (exists s o, ref_run (CCommand, f) (removelast (padded_blocks ps last cmd)) = Ok (s, o) /\ ~ finished s)
    as (s & o & Hr & Hf).
  { clear H. destruct Hlast as [Hl Hd]. revert f. induction Hps as [|p ps [Hp Hpd] Hps IH]; intros f; cbn [padded_blocks].
    - unfold pad_with_command. set (blk := pad _ _ _ _ _). assert (blk <> []) as Hne by (by destruct (p_data last)).
      apply (ref_pad_short (p_rng last) (p_data last) cmd (p_tls last) Hd f _ (List.last blk (to_u8 0))).
      by apply app_removelast_last.
    - rewrite removelast_app by (destruct ps; done). rewrite ref_run_app. unfold pad_with_command at 1. rewrite ref_pad by done.
      cbn [mbind res_bind after_block]. destruct (IH false) as (s & o & -> & Hf). eexists _, _. split; [done|done]. }
  rewrite H in Hr. rewrite removelast_app in Hr by done. rewrite ref_run_app in Hr.
  apply ok_bind in Hr as ([s1 o1] & H1 & Hr). apply ok_bind in Hr as ([s2 o2] & H2 & Hr). simplify_eq.
  exists s1, o1. split; [done|]. by apply (not_finished_prefix (CCommand, f) a (removelast (b :: t)) s1 o1 s o2).
Qed.

Lemma app_cut {A} (a : list A) : forall c w t, a ++ c = w ++ t -> (length a < length w)%nat ->
  exists b k, w = a ++ b :: k /\ c = b :: k ++ t.
Proof.
  induction a as [|x a IH]; intros c w t H Hl; destruct w as [|y w]; cbn in *; [lia| |lia|].
  - by exists y, w.
  - injection H as -> H. destruct (IH c w t H) as (b & k & -> & ->); [lia|]. by exists b, k.
Qed.

(** What [pad] writes, [unpad] reads: take the packets of a stream, the
    first written with the UUID and the last with [End] or [Direct], followed by
    any bytes [tail], and cut the whole into chunks in any way such that the
    first chunk holds the UUID and no chunk but the last reaches the end of the
    padded stream. The calls all succeed, their contents put together are the
    packets' data followed by the tail, only the last call reports the final
    command, and the unpadder is then [Done]. Packets are shorter than 2^16
    bytes; the random source is any that keeps its laws. *)
Theorem vision_stream_reads_back uuid ps last cmd tail c0 cs c :
  length uuid = 16%nat -> Forall packet_ok ps -> packet_ok last -> cmd <> CmdContinue ->
  (16 <= length c0)%nat -> (length (concat (c0 :: cs)) < length (padded_stream uuid ps last cmd))%nat ->
  concat (c0 :: cs) ++ c = padded_stream uuid ps last cmd ++ tail ->
  exists u rs r, feed (new_unpadder uuid) (c0 :: cs ++ [c]) = Ok (u, rs ++ [r]) /\
    contents (rs ++ [r]) = concat (map p_data ps) ++ p_data last ++ tail /\
    command r = Some cmd /\ Forall mid_stream rs /\ u_state u = Done.
Proof.
  intros Hu Hps Hlast Hcmd H16 Hlen Hcut. rewrite padded_stream_blocks in *.
  set (w := padded_blocks ps last cmd) in *.
  assert (exists d0, c0 = uuid ++ d0) as [d0 ->].
  { exists (drop 16 c0). rewrite <- (take_drop 16 c0) at 1. f_equal. apply (f_equal (take 16)) in Hcut.
    cbn [concat] in Hcut. rewrite <- !app_assoc, take_app_le, take_app_length' in Hcut by lia. done. }
  cbn [concat] in *. rewrite <- !app_assoc in Hcut. apply app_inv_head in Hcut. rewrite !app_assoc in Hcut.
  destruct (app_cut _ _ _ _ Hcut) as (b & t & Hw & ->); [rewrite !length_app in *; lia|].
  destruct (ref_blocks_short ps last cmd Hps Hlast true _ b t Hw) as (s & o & Hr & Hf).
  pose proof (ref_blocks ps last cmd Hps Hlast true) as Hall. fold w in Hall.
  rewrite Hw, ref_run_app, Hr in Hall. cbn [mbind res_bind] in Hall.
  apply ok_bind in Hall as ([s2 o2] & H2 & Hall).
  assert (s2 = (after_block cmd, false) /\ o ++ o2 = concat (map p_data ps) ++ p_data last) as [-> Ho] by (split; congruence).
  assert (after_block cmd = CDone cmd) as Hac by (by destruct cmd). rewrite Hac in *.
  destruct (feed_run_last (CCommand, true) (d0 :: cs) (b :: t ++ tail) s o (CDone cmd, false) (o2 ++ tail))
    as (rs & Hfeed & Hc & Hm); [done|done|done| |].
  { rewrite app_comm_cons, ref_run_app, H2. cbn [mbind res_bind]. by rewrite ref_done. }
  eexists _, rs, _. split.
  { cbn [feed app] in Hfeed |- *. rewrite unpad_initial by done. exact Hfeed. }
  split; [|done]. rewrite contents_app, Hc. unfold contents. cbn [map concat content].
  by rewrite app_nil_r, app_assoc, Ho, <- !app_assoc.
Qed.

(** A random source, a stream of two packets and a cut inside the second one. *)
Definition sample_rng : Rng := mkRng (fun n => n - 1)%nat (fun n => repeat (to_u8 0) n).

#[export] Instance sample_rng_laws : RngLaws sample_rng.
Proof. split; [cbn; lia|]. intros n. apply repeat_length. Qed.

Lemma vision_stream_reads_back_witness :
  exists u rs r,
    feed (new_unpadder "0123456789abcdef")
      (let s := padded_stream "0123456789abcdef" [mkPacket sample_rng "hello " false] (mkPacket sample_rng "world" false) CmdDirect ++ "tail"
       in take 300 s :: [] ++ [drop 300 s]) = Ok (u, rs ++ [r]) /\
    contents (rs ++ [r]) = lit "hello worldtail" /\ command r = Some CmdDirect.
Proof.
  destruct (vision_stream_reads_back "0123456789abcdef" [mkPacket sample_rng "hello " false]
    (mkPacket sample_rng "world" false) CmdDirect "tail"
    (take 300 (padded_stream "0123456789abcdef" [mkPacket sample_rng "hello " false] (mkPacket sample_rng "world" false) CmdDirect ++ "tail"))
    [] (drop 300 (padded_stream "0123456789abcdef" [mkPacket sample_rng "hello " false] (mkPacket sample_rng "world" false) CmdDirect ++ "tail")))
    as (u & rs & r & H1 & H2 & H3 & _).
  - reflexivity.
  - apply Forall_singleton. split; [apply _|vm_compute; reflexivity].
  - split; [apply _|vm_compute; reflexivity].
  - discriminate.
  - apply (bool_decide_unpack _); vm_compute; exact I.
  - apply (bool_decide_unpack _); vm_compute; exact I.
  - vm_compute. reflexivity.
  - exists u, rs, r. split; [exact H1|]. split; [exact H2|exact H3].
Defined.

(** ** Termination *)

(** The counters of an unpadder are [u16]. *)
Definition unpadder_ok (u : VisionUnpadder) : Prop :=
  match u_state u with
  | ReadingPaddingLength _ n _ => 0 <= n
  | ReadingContent _ _ n p => 0 <= n /\ 0 <= p
  | ReadingPadding _ _ n => 0 <= n
  | _ => True
  end.

Lemma running_result u data out : running u -> agrees u data out -> snd out <> Panic /\ unpadder_ok (fst out).
Proof.
  intros [_ Hu] Hg. unfold agrees in Hg. destruct (ref_run (ref_of u) data) as [[s o]|e|] eqn:Er; [| |done].
  - subst out. split; [done|]. assert (ref_ok (ref_of u)) as Hs.
    { unfold ref_of. destruct (u_state u); try done; [destruct Hu; by apply settle_ok|by apply (settle_ok _ _ _ 0)]. }
    pose proof (ref_run_ok _ _ _ _ Hs Er) as Hk. destruct s as [[] ?]; cbn in *; done || lia.
  - destruct Hg as [H1 H2]. split; [by rewrite H2|]. unfold unpadder_ok. by rewrite H1.
Qed.

(** [unpad] returns: on every unpadder whose counters are unsigned and
    every chunk the loop ends, within three turns per byte and a few more, with
    a result or an error and never a panic, and the unpadder it leaves is again
    one whose counters are unsigned (the invariant of all the calls to come). *)
Theorem unpad_terminates u data : unpadder_ok u ->
  exists u' r, unpad u data = Ok (u', r) /\ r <> Panic /\ unpadder_ok u'.
Proof.
  intros Hu. unfold unpad, unpad_fuel.
  assert (forall u0 fuel d, running u0 -> (measure (u0, d) < fuel)%nat -> exists u' r,
    loop (E := io_error) fuel (fun s => Ok (unpad_step s)) (u0, d) = Ok (u', r) /\ r <> Panic /\ unpadder_ok u') as HL.
  { intros u0 fuel d H1 H2. destruct (unpad_loop_spec fuel u0 d H1 H2) as ([u' r] & Ho & Hg).
    exists u', r. split; [done|]. by destruct (running_result u0 d _ H1 Hg). }
  destruct (u_state u) as [uuid| | | | | |] eqn:Eu;
    try (apply HL; [split; [done|by unfold unpadder_ok in Hu; rewrite Eu in Hu]
                   |unfold measure, phase; cbn -[Nat.mul]; lia]).
  - replace (3 * length data + 4)%nat with (S (3 * length data + 3)) by lia.
    cbn [loop mbind res_bind unpad_step u_state].
    destruct (length data <? 16)%nat; [by eexists _, _|]. destruct (negb _); [by eexists _, _|].
    cbn [goto first_block accumulated_buffer]. apply HL; [done|]. unfold measure, phase.
    cbn [u_state fst snd]. rewrite length_drop. lia.
  - replace (3 * length data + 4)%nat with (S (3 * length data + 3)) by lia. by eexists _, _.
Qed.

Lemma unpad_terminates_witness :
  exists u' r, unpad (mkUnpadder (ReadingContent CmdEnd [] 0 0) true []) "rest" = Ok (u', r) /\ r <> Panic /\ unpadder_ok u'.
Proof. apply (unpad_terminates (mkUnpadder (ReadingContent CmdEnd [] 0 0) true []) "rest"). split; lia. Defined.
