(* ===== verification/TlsRecords.v ===== *)
(** * TLS records out of a byte stream
    ([crates/net/src/vision/tls_deframer.rs])

    [TlsDeframer] collects the bytes fed to it and cuts complete records off
    their front. The theorem [deframer_chunks] says that the cut does not depend
    on how the bytes arrive; [deframer_bounds] says what a record can be and how
    much the deframer can hold. *)

From S2P Require Import Prelude RustStr NetAddr NetIo.

Definition TLS_RECORD_HEADER_SIZE : Z := 5.
Definition MAX_TLS_CIPHERTEXT_LEN : Z := 16384 + 2048.
Definition TLS_MAX_RECORD_SIZE : Z := MAX_TLS_CIPHERTEXT_LEN + TLS_RECORD_HEADER_SIZE.
Definition TLS_PROTOCOL_VERSION_MAJOR : Z := 3.
Definition TLS_PROTOCOL_VERSION_MINOR_MIN : Z := 1.
Definition TLS_PROTOCOL_VERSION_MINOR_MAX : Z := 3.

Inductive DeframerState : Type :=
| ReadingHeader
| ReadingPayload (payload_len : Z).

Record TlsDeframer : Type := mkDeframer { buffer : bytes; d_state : DeframerState }.

(** [TlsDeframer::new] *)
Definition new_deframer : TlsDeframer := mkDeframer [] ReadingHeader.

(** [feed] *)
Definition feed_deframer (d : TlsDeframer) (data : bytes) : TlsDeframer :=
  mkDeframer (buffer d ++ data) (d_state d).

(** The header's checks, in their order: version, length, content type. *)
Definition header_error (content_type major minor : u8) (payload_len : Z) : option io_error :=
  if negb (val8 major =? TLS_PROTOCOL_VERSION_MAJOR)
     || negb ((TLS_PROTOCOL_VERSION_MINOR_MIN <=? val8 minor) && (val8 minor <=? TLS_PROTOCOL_VERSION_MINOR_MAX))
  then Some (InvalidData ("Invalid TLS protocol version: 0x" ++ show_hex2 (val8 major) ++ show_hex2 (val8 minor)
                          ++ " (expected 0x0301 to 0x0303)"))
  else if MAX_TLS_CIPHERTEXT_LEN <? payload_len
  then Some (InvalidData ("TLS record ciphertext length " ++ show_uint payload_len ++ " exceeds maximum "
                          ++ show_uint MAX_TLS_CIPHERTEXT_LEN ++ " (TLS 1.2 limit)"))
  else if negb ((20 <=? val8 content_type) && (val8 content_type <=? 24))
  then Some (InvalidData ("Invalid TLS content type: 0x" ++ show_hex2 (val8 content_type)))
  else None.

(** The arm [ReadingPayload]: [split_to] the record when it is complete. *)
Definition read_payload (d : TlsDeframer) (payload_len : Z) : TlsDeframer * res io_error (option bytes) :=
  let total_len := TLS_RECORD_HEADER_SIZE + payload_len in
  if Z.of_nat (length (buffer d)) <? total_len then (d, Ok None)
  else (mkDeframer (drop (Z.to_nat total_len) (buffer d)) ReadingHeader,
        Ok (Some (take (Z.to_nat total_len) (buffer d)))).

(** [next_record]: the loop passes from the header to the payload once. *)
Definition next_record (d : TlsDeframer) : TlsDeframer * res io_error (option bytes) :=
  match d_state d with
  | ReadingPayload n => read_payload d n
  | ReadingHeader =>
      match buffer d with
      | content_type :: major :: minor :: l0 :: l1 :: _ =>
          let payload_len := be_value [l0; l1] in
          match header_error content_type major minor payload_len with
          | Some e => (d, Err e)
          | None => read_payload (mkDeframer (buffer d) (ReadingPayload payload_len)) payload_len
          end
      | _ => (d, Ok None)
      end
  end.

(** [next_records]: the records read before an error are lost with it. *)
Fixpoint records_loop (fuel : nat) (d : TlsDeframer) (records : list bytes) : TlsDeframer * res io_error (list bytes) :=
  match fuel with
  | O => (d, Panic)
  | S fuel => match next_record d with
              | (d, Ok (Some record)) => records_loop fuel d (records ++ [record])
              | (d, Ok None) => (d, Ok records)
              | (d, Err e) => (d, Err e)
              | (d, Panic) => (d, Panic)
              end
  end.

(** A record has five bytes at least, so there are fewer turns than bytes. *)
Definition next_records (d : TlsDeframer) : TlsDeframer * res io_error (list bytes) :=
  records_loop (S (length (buffer d))) d [].

(** [clear], [deallocate], [pending_bytes], [remaining_data] *)
Definition clear_deframer (d : TlsDeframer) : TlsDeframer := mkDeframer [] ReadingHeader.
Definition deallocate_deframer (d : TlsDeframer) : TlsDeframer := mkDeframer [] (d_state d).
Definition pending_bytes (d : TlsDeframer) : nat := length (buffer d).
Definition remaining_data (d : TlsDeframer) : bytes := buffer d.

(** ** Specification *)

(** The payload length a valid header at the front announces. *)
Definition announced (s : bytes) : option Z :=
  match s with
  | ct :: ma :: mi :: l0 :: l1 :: _ =>
      match header_error ct ma mi (be_value [l0; l1]) with None => Some (be_value [l0; l1]) | Some _ => None end
  | _ => None
  end.

Definition complete (r : bytes) : Prop :=
  exists n, announced r = Some n /\ Z.of_nat (length r) = TLS_RECORD_HEADER_SIZE + n.

(** A record not yet there: a short header, or a valid one and too few bytes. *)
Definition partial (p : bytes) : Prop :=
  Z.of_nat (length p) < TLS_RECORD_HEADER_SIZE \/
  exists n, announced p = Some n /\ Z.of_nat (length p) < TLS_RECORD_HEADER_SIZE + n.

(** The invariant: a remembered payload length is the one of the header. *)
Definition deframer_ok (d : TlsDeframer) : Prop :=
  match d_state d with ReadingHeader => True | ReadingPayload n => announced (buffer d) = Some n end.

(** ** Lemmas *)

Lemma announced_app s t n : announced s = Some n -> announced (s ++ t) = Some n.
Proof. by destruct s as [|? [|? [|? [|? [|? ?]]]]]. Qed.

Lemma announced_prefix s t n : announced (s ++ t) = Some n -> 5 <= Z.of_nat (length s) -> announced s = Some n.
Proof. destruct s as [|? [|? [|? [|? [|? ?]]]]]; cbn [length]; intros; lia || done. Qed.

Lemma announced_long s n : announced s = Some n -> 5 <= Z.of_nat (length s).
Proof. destruct s as [|? [|? [|? [|? [|? ?]]]]]; cbn [length]; intros; lia || done. Qed.

Lemma announced_bounds s n : announced s = Some n -> 0 <= n <= MAX_TLS_CIPHERTEXT_LEN.
Proof.
  destruct s as [|ct [|ma [|mi [|l0 [|l1 ?]]]]]; try done. unfold announced, header_error.
  destruct (_ || _); [done|]. destruct (Z.ltb_spec MAX_TLS_CIPHERTEXT_LEN (be_value [l0; l1])); [done|].
  destruct (negb _); [done|]. intros [= <-]. pose proof (be_value_range [l0; l1]). lia.
Qed.

(** With the invariant, the state adds nothing to the buffer. *)
Lemma next_record_announced d n : deframer_ok d -> announced (buffer d) = Some n ->
  next_record d = read_payload (mkDeframer (buffer d) (ReadingPayload n)) n.
Proof.
  destruct d as [buf [|m]]; unfold deframer_ok; cbn; intros Hd Ha; [|by simplify_eq].
  unfold next_record. cbn. destruct buf as [|ct [|ma [|mi [|l0 [|l1 buf]]]]]; try done. cbn in Ha |- *.
  destruct (header_error _ _ _ _); by simplify_eq.
Qed.

Lemma next_record_complete d r rest : deframer_ok d -> buffer d = r ++ rest -> complete r ->
  next_record d = (mkDeframer rest ReadingHeader, Ok (Some r)).
Proof.
  intros Hd Hb (n & Ha & Hl). rewrite (next_record_announced d n) by (done || by rewrite Hb; apply announced_app).
  unfold read_payload. cbn [buffer]. rewrite Hb. rewrite (proj2 (Z.ltb_ge _ _)) by (rewrite length_app; lia).
  rewrite <- Hl, Nat2Z.id. by rewrite take_app_length, drop_app_length.
Qed.

Lemma next_record_partial d : deframer_ok d -> partial (buffer d) ->
  exists d', next_record d = (d', Ok None) /\ deframer_ok d' /\ buffer d' = buffer d.
Proof.
  intros Hd [Hs|(n & Ha & Hl)].
  - destruct d as [buf [|m]]; cbn in Hs.
    + exists (mkDeframer buf ReadingHeader). unfold TLS_RECORD_HEADER_SIZE in Hs. split; [|done].
      destruct buf as [|? [|? [|? [|? [|? ?]]]]]; cbn [length] in Hs; done || lia.
    + apply announced_long in Hd. cbn in Hd. unfold TLS_RECORD_HEADER_SIZE in Hs. lia.
  - rewrite (next_record_announced d n) by done. unfold read_payload. cbn [buffer].
    rewrite (proj2 (Z.ltb_lt _ _)) by done. by eexists.
Qed.

Lemma complete_length r : complete r -> 5 <= Z.of_nat (length r) <= TLS_MAX_RECORD_SIZE.
Proof.
  intros (n & Ha & Hl). apply announced_bounds in Ha. unfold TLS_MAX_RECORD_SIZE, TLS_RECORD_HEADER_SIZE in *. lia.
Qed.

Lemma records_loop_spec rs p : Forall complete rs -> partial p -> forall fuel d acc, deframer_ok d ->
  buffer d = concat rs ++ p -> (length rs < fuel)%nat ->
  exists d', records_loop fuel d acc = (d', Ok (acc ++ rs)) /\ deframer_ok d' /\ buffer d' = p.
Proof.
  intros Hrs Hp. induction Hrs as [|r rs Hr Hrs IH]; intros fuel d acc Hd Hb Hf; (destruct fuel as [|fuel]; [lia|]).
  - cbn in Hb. destruct (next_record_partial d Hd) as (d' & Hn & Hd' & Hb'); [by rewrite Hb|].
    exists d'. cbn. rewrite Hn, app_nil_r. split_and!; [done..|]. by rewrite Hb'.
  - cbn [concat] in Hb. rewrite <- app_assoc in Hb. cbn [records_loop].
    rewrite (next_record_complete d r _ Hd Hb Hr). cbn [length] in Hf.
    destruct (IH fuel (mkDeframer (concat rs ++ p) ReadingHeader) (acc ++ [r])) as (d' & He & Hd' & Hb'); [done|done|lia|].
    exists d'. by rewrite He, <- app_assoc.
Qed.

Lemma concat_complete_length rs : Forall complete rs -> (length rs <= length (concat rs))%nat.
Proof.
  induction 1 as [|r rs Hr Hrs IH]; [done|]. cbn. rewrite length_app. apply complete_length in Hr. lia.
Qed.

Lemma next_records_spec d rs p : deframer_ok d -> Forall complete rs -> partial p -> buffer d = concat rs ++ p ->
  exists d', next_records d = (d', Ok rs) /\ deframer_ok d' /\ buffer d' = p.
Proof.
  intros Hd Hrs Hp Hb. apply (records_loop_spec rs p); [done..|].
  pose proof (concat_complete_length rs Hrs). rewrite Hb, length_app. lia.
Qed.

(** A proper prefix of a record, and a prefix of a partial one, is partial. *)
Lemma partial_prefix x y : (exists r, x ++ y = r /\ complete r /\ y <> []) \/ partial (x ++ y) -> partial x.
Proof.
  unfold partial, TLS_RECORD_HEADER_SIZE. intros H.
  destruct (decide (Z.of_nat (length x) < 5)) as [|Hx]; [by left|]. right.
  assert (exists n, announced (x ++ y) = Some n /\ Z.of_nat (length x) < 5 + n) as (n & Ha & Hl).
  { destruct H as [(r & <- & (n & Ha & Hl) & Hy)|[Hs|(n & Ha & Hl)]].
    - exists n. split; [done|]. unfold TLS_RECORD_HEADER_SIZE in Hl. rewrite length_app in Hl.
      destruct y; [done|]. cbn in Hl. lia.
    - rewrite length_app in Hs. lia.
    - exists n. split; [done|]. rewrite length_app in Hl. lia. }
  exists n. split; [|done]. apply (announced_prefix _ y); [done|lia].
Qed.

(** Any prefix of records and a partial one is records and a partial one. *)
Lemma split_stream rs p : Forall complete rs -> partial p -> forall x y, x ++ y = concat rs ++ p ->
  exists rs1 rs2 q, rs = rs1 ++ rs2 /\ x = concat rs1 ++ q /\ partial q /\ q ++ y = concat rs2 ++ p.
Proof.
  intros Hrs Hp. induction Hrs as [|r rs Hr Hrs IH]; intros x y H.
  - exists [], [], x. split_and!; [done..| |done]. apply (partial_prefix x y). right. cbn in H. by rewrite H.
  - cbn [concat] in H. rewrite <- app_assoc in H. destruct (decide (length x < length r)%nat) as [Hl|Hl].
    + exists [], (r :: rs), x. cbn [concat]. rewrite <- app_assoc. split_and!; [done..| |done].
      assert (r = x ++ drop (length x) r) as Hx.
      { rewrite <- (take_drop (length x) r) at 1. f_equal. apply (f_equal (take (length x))) in H.
        rewrite take_app_length, take_app_le in H by lia. done. }
      apply (partial_prefix x (drop (length x) r)). left. exists r. rewrite <- Hx. split_and!; [done..|].
      intros Hn. apply (f_equal length) in Hn. rewrite length_drop in Hn. cbn in Hn. lia.
    + assert (x = r ++ drop (length r) x) as Hx.
      { rewrite <- (take_drop (length r) x) at 1. f_equal. apply (f_equal (take (length r))) in H.
        rewrite take_app_length, take_app_le in H by lia. done. }
      rewrite Hx, <- app_assoc in H. apply app_inv_head in H.
      destruct (IH _ _ H) as (rs1 & rs2 & q & -> & He & Hq & Ht). exists (r :: rs1), rs2, q.
      split_and!; [done| |done|done]. rewrite Hx, He. cbn. by rewrite app_assoc.
Qed.

(** ** The deframer in use: every chunk is fed and the records taken *)

Fixpoint deframe (d : TlsDeframer) (chunks : list bytes) : TlsDeframer * res io_error (list bytes) :=
  match chunks with
  | [] => (d, Ok [])
  | c :: cs =>
      match next_records (feed_deframer d c) with
      | (d, Ok rs) => match deframe d cs with (d, Ok rs') => (d, Ok (rs ++ rs')) | r => r end
      | r => r
      end
  end.

Lemma feed_deframer_ok d c : deframer_ok d -> deframer_ok (feed_deframer d c).
Proof. unfold deframer_ok, feed_deframer. cbn. destruct (d_state d); [done|]. apply announced_app. Qed.

Lemma deframe_spec chunks : forall d rs p, deframer_ok d -> Forall complete rs -> partial p ->
  buffer d ++ concat chunks = concat rs ++ p -> partial (buffer d) ->
  exists d', deframe d chunks = (d', Ok rs) /\ deframer_ok d' /\ buffer d' = p.
Proof.
  induction chunks as [|c cs IH]; intros d rs p Hd Hrs Hp Hb Hpd; cbn [concat deframe] in *.
  - rewrite app_nil_r in Hb. destruct (next_record_partial d Hd Hpd) as (d1 & Hn & _).
    destruct rs as [|r rs]; [by exists d|]. apply Forall_cons_1 in Hrs as [Hr _]. cbn in Hb. rewrite <- app_assoc in Hb.
    rewrite (next_record_complete d r _ Hd Hb Hr) in Hn. done.
  - rewrite app_assoc in Hb. destruct (split_stream rs p Hrs Hp _ _ Hb) as (rs1 & rs2 & q & -> & Hx & Hq & Hy).
    apply Forall_app in Hrs as [Hrs1 Hrs2].
    destruct (next_records_spec (feed_deframer d c) rs1 q) as (d1 & -> & Hd1 & Hb1);
      [by apply feed_deframer_ok|done..|].
    destruct (IH d1 rs2 p) as (d2 & -> & Hd2 & Hb2); rewrite ?Hb1; try done. by exists d2.
Qed.

Lemma partial_nil : partial [].
Proof. by left. Qed.

(** C38. The cut does not depend on the chunks: for any stream made of complete
    records and a partial one, and any way of cutting it into chunks, feeding
    the chunks one by one and taking the records after each gives exactly the
    records, in order, and leaves exactly the partial record in the buffer, from
    which any further chunks go on. *)
Theorem deframer_chunks chunks rs p : Forall complete rs -> partial p -> concat chunks = concat rs ++ p ->
  exists d, deframe new_deframer chunks = (d, Ok rs) /\ remaining_data d = p /\
    forall more rs' p', Forall complete rs' -> partial p' -> p ++ concat more = concat rs' ++ p' ->
      exists d', deframe d more = (d', Ok rs') /\ remaining_data d' = p'.
Proof.
  intros Hrs Hp Hc. destruct (deframe_spec chunks new_deframer rs p) as (d & Hd & Hok & Hb); [done..|apply partial_nil|].
  exists d. split_and!; [done..|]. intros more rs' p' Hrs' Hp' Hm.
  destruct (deframe_spec more d rs' p') as (d' & ? & _ & ?); rewrite ?Hb; [done..|]. by exists d'.
Qed.

Lemma deframer_chunks_witness :
  exists d, deframe new_deframer [of_zs [22; 3; 1]; of_zs [0; 2; 7; 8; 23; 3; 3; 0]; of_zs [1; 9; 20]] =
              (d, Ok [of_zs [22; 3; 1; 0; 2; 7; 8]; of_zs [23; 3; 3; 0; 1; 9]]) /\ remaining_data d = of_zs [20].
Proof.
  destruct (deframer_chunks [of_zs [22; 3; 1]; of_zs [0; 2; 7; 8; 23; 3; 3; 0]; of_zs [1; 9; 20]]
    [of_zs [22; 3; 1; 0; 2; 7; 8]; of_zs [23; 3; 3; 0; 1; 9]] (of_zs [20])) as (d & H1 & H2 & _).
  - apply Forall_cons_2; [exists 2; split; vm_compute; reflexivity|].
    apply Forall_singleton. exists 1. split; vm_compute; reflexivity.
  - left. vm_compute. reflexivity.
  - vm_compute. reflexivity.
  - exists d. split; [exact H1|exact H2].
Defined.

(** C39. What comes out is a record and what stays is bounded: from a deframer in
    its invariant, a record given out is complete, has at most 18437 bytes
    (five of header and the TLS 1.2 limit of payload) and is exactly the front of
    the buffer; when more data is asked for, fewer bytes than that are held and
    none is lost; on an error the deframer is unchanged; no call panics, and
    every call keeps the invariant. *)
Theorem deframer_bounds d : deframer_ok d ->
  let '(d', r) := next_record d in
  deframer_ok d' /\
  match r with
  | Ok (Some record) => complete record /\ Z.of_nat (length record) <= TLS_MAX_RECORD_SIZE /\
                        buffer d = record ++ buffer d'
  | Ok None => buffer d' = buffer d /\ Z.of_nat (pending_bytes d') < TLS_MAX_RECORD_SIZE
  | Err _ => d' = d
  | Panic => False
  end.
Proof.
  intros Hd. assert (forall n, announced (buffer d) = Some n ->
    let '(d', r) := read_payload (mkDeframer (buffer d) (ReadingPayload n)) n in
    deframer_ok d' /\
    match r with
    | Ok (Some record) => complete record /\ Z.of_nat (length record) <= TLS_MAX_RECORD_SIZE /\ buffer d = record ++ buffer d'
    | Ok None => buffer d' = buffer d /\ Z.of_nat (pending_bytes d') < TLS_MAX_RECORD_SIZE
    | Err _ => d' = d
    | Panic => False
    end) as HP.
  { intros n Ha. pose proof (announced_bounds _ _ Ha) as Hn. unfold read_payload. cbn [buffer].
    destruct (Z.ltb_spec (Z.of_nat (length (buffer d))) (TLS_RECORD_HEADER_SIZE + n)) as [Hl|Hl].
    - split_and!; [done..|]. unfold TLS_MAX_RECORD_SIZE. cbn. lia.
    - set (k := Z.to_nat (TLS_RECORD_HEADER_SIZE + n)). assert (complete (take k (buffer d))) as Hc.
      { assert (length (take k (buffer d)) = k) as Hk by (rewrite length_take; lia). exists n. unfold TLS_RECORD_HEADER_SIZE in *. split; [|lia].
        apply (announced_prefix _ (drop k (buffer d))); [by rewrite take_drop|lia]. }
      split; [done|]. split; [done|]. split; [by apply complete_length|]. cbn. by rewrite take_drop. }
  destruct (announced (buffer d)) as [n|] eqn:Ea.
  - rewrite (next_record_announced d n) by done. by apply HP.
  - destruct d as [buf [|m]]; unfold deframer_ok in Hd; cbn in Hd, Ea; [|congruence].
    unfold next_record. cbn [d_state buffer].
    destruct buf as [|ct [|ma [|mi [|l0 [|l1 buf]]]]]; try (by split_and!).
    cbn in Ea. by destruct (header_error _ _ _ _).
Qed.

Lemma deframer_bounds_witness :
  let '(d', r) := next_record (mkDeframer (of_zs [23; 3; 3; 0; 1; 9; 20]) (ReadingPayload 1)) in
  r = Ok (Some (of_zs [23; 3; 3; 0; 1; 9])) /\ deframer_ok d'.
Proof.
  pose proof (deframer_bounds (mkDeframer (of_zs [23; 3; 3; 0; 1; 9; 20]) (ReadingPayload 1)) eq_refl) as H.
  vm_compute in H |- *. split; [reflexivity|]. exact (proj1 H).
Defined.
