(* ===== verification/FuzzyTls.v ===== *)
(** * The start of TLS inside another protocol
    ([crates/net/src/vision/tls_handshake_util.rs] and [tls_fuzzy_deframer.rs])

    [FuzzyTlsDeframer] lets bytes through until a TLS handshake pattern starts,
    and cuts records from there on. The substring search of the [memchr] crate is
    a parameter with its documented law; everything else is the code. *)

From S2P Require Import Prelude RustStr NetAddr NetIo TlsRecords.

(** [memmem::Finder::new(needle).find(haystack)]: the first occurrence. *)
Class MemmemLaws (find : bytes -> bytes -> option nat) : Prop := {
  memmem_some : forall needle haystack i, find needle haystack = Some i ->
    needle `prefix_of` drop i haystack /\ forall j, (j < i)%nat -> ~ needle `prefix_of` drop j haystack;
  memmem_none : forall needle haystack, find needle haystack = None ->
    forall j, (j <= length haystack)%nat -> ~ needle `prefix_of` drop j haystack
}.

Definition MIN_TLS_HANDSHAKE_PATTERN_LEN : nat := 6.

(** [is_valid_tls_handshake_prefix] *)
Definition is_valid_tls_handshake_prefix (data : bytes) : bool :=
  match data with
  | [] => true
  | b0 :: t0 =>
      if negb (val8 b0 =? 22) then false
      else match t0 with
           | [] => true
           | b1 :: t1 =>
               if negb (val8 b1 =? 3) then false
               else match t1 with
                    | [] => true
                    | b2 :: _ => (1 <=? val8 b2) && (val8 b2 <=? 3)
                    end
           end
  end.

(** The test of the bytes 2 and 5 of a candidate. *)
Definition candidate_matches (candidate : bytes) : bool :=
  match candidate with
  | _ :: _ :: b2 :: _ :: _ :: b5 :: _ =>
      ((1 <=? val8 b2) && (val8 b2 <=? 3)) && ((val8 b5 =? 1) || (val8 b5 =? 2))
  | _ => false
  end.

(** [find_potential_tls_suffix_len]: the suffix lengths from 5 down. *)
Fixpoint longest_suffix (suffix_len : nat) (data : bytes) : nat :=
  match suffix_len with
  | O => O
  | S k => if is_valid_tls_handshake_prefix (drop (length data - suffix_len) data) then suffix_len
           else longest_suffix k data
  end.

Definition find_potential_tls_suffix_len (data : bytes) : nat :=
  match data with [] => O | _ => longest_suffix (Nat.min (length data) 5) data end.

Inductive DeframeResult : Type :=
| TlsRecord (record : bytes)
| UnknownPrefix (prefix : bytes)
| NeedData.

Inductive FuzzyState : Type := Searching | Deframing.

Record FuzzyTlsDeframer : Type := mkFuzzy {
  inner : TlsDeframer;
  search_buffer : bytes;
  f_state : FuzzyState;
  total_prefix_bytes : Z
}.

(** [FuzzyTlsDeframer::new] *)
Definition new_fuzzy : FuzzyTlsDeframer := mkFuzzy new_deframer [] Searching 0.

(** [feed] *)
Definition feed_fuzzy (f : FuzzyTlsDeframer) (data : bytes) : FuzzyTlsDeframer :=
  match f_state f with
  | Searching => mkFuzzy (inner f) (search_buffer f ++ data) Searching (total_prefix_bytes f)
  | Deframing => mkFuzzy (feed_deframer (inner f) data) (search_buffer f) Deframing (total_prefix_bytes f)
  end.

(** [clear], [deallocate], [pending_bytes], [remaining_data] *)
Definition clear_fuzzy (f : FuzzyTlsDeframer) : FuzzyTlsDeframer :=
  mkFuzzy (clear_deframer (inner f)) [] Searching 0.
Definition deallocate_fuzzy (f : FuzzyTlsDeframer) : FuzzyTlsDeframer :=
  mkFuzzy (deallocate_deframer (inner f)) [] (f_state f) (total_prefix_bytes f).
Definition fuzzy_remaining_data (f : FuzzyTlsDeframer) : bytes :=
  match f_state f with Searching => search_buffer f | Deframing => remaining_data (inner f) end.
Definition fuzzy_pending_bytes (f : FuzzyTlsDeframer) : nat :=
  match f_state f with Searching => length (search_buffer f) | Deframing => pending_bytes (inner f) end.

Section search.
Context (memmem_find : bytes -> bytes -> option nat).

(** [find_tls_handshake_start]: one occurrence of [16 03] after the other. Each
    turn starts after the last occurrence, so the bytes bound the turns. *)
Fixpoint handshake_loop (fuel : nat) (data : bytes) (pos : nat) : option nat :=
  match fuel with
  | O => None
  | S fuel =>
      match memmem_find (of_zs [22; 3]) (drop pos data) with
      | None => None
      | Some offset =>
          let absolute_offset := (pos + offset)%nat in
          if (length data <? absolute_offset + MIN_TLS_HANDSHAKE_PATTERN_LEN)%nat then None
          else if candidate_matches (drop absolute_offset data) then Some absolute_offset
          else handshake_loop fuel data (absolute_offset + 1)
      end
  end.

Definition find_tls_handshake_start (data : bytes) : option nat :=
  if (length data <? MIN_TLS_HANDSHAKE_PATTERN_LEN)%nat then None
  else handshake_loop (S (length data)) data 0.

(** The arm [Deframing] of [next_record]. *)
Definition deframing (f : FuzzyTlsDeframer) : FuzzyTlsDeframer * res io_error DeframeResult :=
  let '(d, r) := next_record (inner f) in
  (mkFuzzy d (search_buffer f) (f_state f) (total_prefix_bytes f),
   match r with
   | Ok (Some record) => Ok (TlsRecord record)
   | Ok None => Ok NeedData
   | Err e => Err e
   | Panic => Panic
   end).

(** [FuzzyTlsDeframer::next_record]: the loop passes from the search to the
    records once, when the pattern is at the front of the buffer. *)
Definition next_fuzzy (f : FuzzyTlsDeframer) : FuzzyTlsDeframer * res io_error DeframeResult :=
  match f_state f with
  | Deframing => deframing f
  | Searching =>
      let buf := search_buffer f in
      if bool_decide (buf = []) then (f, Ok NeedData)
      else
        match (if (MIN_TLS_HANDSHAKE_PATTERN_LEN <=? length buf)%nat then find_tls_handshake_start buf else None) with
        | Some offset =>
            if (0 <? offset)%nat then
              let prefix := take offset buf in
              (mkFuzzy (feed_deframer (inner f) (drop offset buf)) [] Deframing
                 (total_prefix_bytes f + Z.of_nat (length prefix)), Ok (UnknownPrefix prefix))
            else deframing (mkFuzzy (feed_deframer (inner f) buf) [] Deframing (total_prefix_bytes f))
        | None =>
            let suffix_len := find_potential_tls_suffix_len buf in
            if (suffix_len <? length buf)%nat then
              let prefix_len := (length buf - suffix_len)%nat in
              let prefix := take prefix_len buf in
              (mkFuzzy (inner f) (drop prefix_len buf) Searching
                 (total_prefix_bytes f + Z.of_nat (length prefix)), Ok (UnknownPrefix prefix))
            else (f, Ok NeedData)
        end
  end.

End search.

(** ** The pattern and the search *)

(** A handshake record's first six bytes: [16 03 01..03 _ _ 01|02]. *)
Definition pattern (s : bytes) : bool :=
  match s with
  | b0 :: b1 :: _ => (val8 b0 =? 22) && (val8 b1 =? 3) && candidate_matches s
  | _ => false
  end.

Definition first_pattern (s : bytes) (i : nat) : Prop :=
  pattern (drop i s) = true /\ forall j, (j < i)%nat -> pattern (drop j s) = false.

Lemma pattern_long s : pattern s = true -> (6 <= length s)%nat.
Proof.
  destruct s as [|b0 [|b1 [|b2 [|b3 [|b4 [|b5 s]]]]]]; cbn; try done; try lia;
    intros H; apply andb_true_iff in H; by destruct H.
Qed.

Lemma pattern_app s t : pattern s = true -> pattern (s ++ t) = true.
Proof.
  intros H. pose proof (pattern_long s H).
  by destruct s as [|b0 [|b1 [|b2 [|b3 [|b4 [|b5 s]]]]]]; cbn in *; try lia.
Qed.

Lemma pattern_app_inv s t : (6 <= length s)%nat -> pattern (s ++ t) = true -> pattern s = true.
Proof. intros H. by destruct s as [|b0 [|b1 [|b2 [|b3 [|b4 [|b5 s]]]]]]; cbn in *; try lia. Qed.

Lemma val8_is b z : 0 <= z < 256 -> (val8 b =? z) = true <-> b = to_u8 z.
Proof.
  intros Hz. rewrite Z.eqb_eq. split; [intros <-; by rewrite to_u8_val8|intros ->].
  rewrite val8_to_u8. by apply Z.mod_small.
Qed.

Lemma pattern_needle s : pattern s = true -> of_zs [22; 3] `prefix_of` s.
Proof.
  destruct s as [|b0 [|b1 s]]; cbn; try done. intros [[H0 H1]%andb_true_iff _]%andb_true_iff.
  apply val8_is in H0 as ->; [|lia]. apply val8_is in H1 as ->; [|lia]. by exists s.
Qed.

Lemma needle_pattern s : of_zs [22; 3] `prefix_of` s -> pattern s = candidate_matches s.
Proof. intros [t ->]. reflexivity. Qed.

(** A start of the pattern cut short is a valid prefix. *)
Lemma pattern_valid_prefix s t : pattern (s ++ t) = true -> is_valid_tls_handshake_prefix s = true.
Proof.
  intros H. pose proof (pattern_long _ H) as Hl. unfold pattern, candidate_matches in H.
  destruct s as [|b0 [|b1 [|b2 s]]]; [done| | |].
  - destruct t as [|c1 t]; [done|]. cbn in *. apply andb_true_iff in H as [[-> _]%andb_true_iff _]. done.
  - cbn in *. apply andb_true_iff in H as [[-> ->]%andb_true_iff _]. done.
  - cbn [app] in *. apply andb_true_iff in H as [[H0 H1]%andb_true_iff Hc]. cbn. rewrite H0, H1. cbn.
    destruct (s ++ t) as [|b3 [|b4 [|b5 r]]]; try done. by apply andb_true_iff in Hc as [-> _].
Qed.

Section search_lemmas.
Context (memmem_find : bytes -> bytes -> option nat) {FL : MemmemLaws memmem_find}.

Lemma handshake_loop_spec data fuel : forall pos, (length data < fuel + pos)%nat ->
  (forall j, (j < pos)%nat -> pattern (drop j data) = false) ->
  match handshake_loop memmem_find fuel data pos with
  | Some i => first_pattern data i
  | None => forall j, pattern (drop j data) = false
  end.
Proof using FL.
  induction fuel as [|fuel IH]; intros pos Hf Hb; cbn [handshake_loop].
  { intros j. destruct (decide (j < pos)%nat); [auto|]. by rewrite drop_ge by lia. }
  assert (forall i, (forall j, (j < i)%nat -> ~ of_zs [22; 3] `prefix_of` drop j (drop pos data)) ->
    forall j, (j < pos + i)%nat -> pattern (drop j data) = false) as Hno.
  { intros i Hi j Hj. destruct (decide (j < pos)%nat); [auto|].
    destruct (pattern (drop j data)) eqn:E; [|done]. apply pattern_needle in E. exfalso.
    apply (Hi (j - pos)%nat); [lia|]. rewrite drop_drop. by replace (pos + (j - pos))%nat with j by lia. }
  destruct (memmem_find _ _) as [off|] eqn:Ef.
  - apply memmem_some in Ef as [Hp Hq]. rewrite drop_drop in Hp. specialize (Hno off Hq).
    destruct (Nat.ltb_spec (length data) (pos + off + MIN_TLS_HANDSHAKE_PATTERN_LEN)) as [Hl|Hl].
    + intros j. destruct (decide (j < pos + off)%nat); [auto|]. destruct (pattern _) eqn:E; [|done].
      apply pattern_long in E. rewrite length_drop in E. unfold MIN_TLS_HANDSHAKE_PATTERN_LEN in Hl. lia.
    + rewrite <- (needle_pattern _ Hp). destruct (pattern (drop (pos + off) data)) eqn:E; [by split|].
      apply IH; [lia|]. intros j Hj. destruct (decide (j = pos + off)%nat) as [->|]; [done|]. apply Hno. lia.
  - intros j. destruct (decide (j < pos)%nat); [auto|]. destruct (decide (j <= length data)%nat) as [Hj|Hj].
    + apply (Hno (S (length data))); [|lia]. intros i _. destruct (decide (i <= length (drop pos data))%nat) as [Hi|Hi].
      * by apply (memmem_none _ _ Ef).
      * rewrite (drop_ge (drop pos data)) by lia. by intros [t [=]].
    + by rewrite drop_ge by lia.
Qed.

(** [find_tls_handshake_start] is the first pattern. *)
Lemma find_start_spec data :
  match find_tls_handshake_start memmem_find data with
  | Some i => first_pattern data i
  | None => forall j, pattern (drop j data) = false
  end.
Proof using FL.
  unfold find_tls_handshake_start. destruct (Nat.ltb_spec (length data) MIN_TLS_HANDSHAKE_PATTERN_LEN) as [Hl|Hl].
  - intros j. destruct (pattern _) eqn:E; [|done]. apply pattern_long in E. rewrite length_drop in E.
    unfold MIN_TLS_HANDSHAKE_PATTERN_LEN in Hl. lia.
  - apply handshake_loop_spec; [lia|]. lia.
Qed.

End search_lemmas.

Lemma longest_suffix_spec data n : (n <= length data)%nat -> let k := longest_suffix n data in
  (k <= n)%nat /\ ((0 < k)%nat -> is_valid_tls_handshake_prefix (drop (length data - k) data) = true) /\
  forall m, (k < m <= n)%nat -> is_valid_tls_handshake_prefix (drop (length data - m) data) = false.
Proof.
  induction n as [|n IH]; intros Hn; cbn [longest_suffix]; [split_and!; lia|].
  destruct (is_valid_tls_handshake_prefix _) eqn:E; [split_and!; [lia|done|lia]|].
  destruct IH as (H1 & H2 & H3); [lia|]. split_and!; [lia|done|].
  intros m Hm. destruct (decide (m = S n)) as [->|]; [done|]. apply H3. lia.
Qed.

Lemma suffix_len_spec data : let k := find_potential_tls_suffix_len data in
  (k <= Nat.min (length data) 5)%nat /\
  ((0 < k)%nat -> is_valid_tls_handshake_prefix (drop (length data - k) data) = true) /\
  forall m, (k < m <= Nat.min (length data) 5)%nat -> is_valid_tls_handshake_prefix (drop (length data - m) data) = false.
Proof.
  destruct data as [|b data]; [cbn; split_and!; lia|]. apply longest_suffix_spec. lia.
Qed.

(** ** The deframer in use *)

Section run.
Context (memmem_find : bytes -> bytes -> option nat) {FL : MemmemLaws memmem_find}.
Abbreviation next := (next_fuzzy memmem_find).

(** [next_record] until it needs data, as both users of the deframer call it. *)
Fixpoint drain (fuel : nat) (f : FuzzyTlsDeframer) (out : list DeframeResult) :
    FuzzyTlsDeframer * res io_error (list DeframeResult) :=
  match fuel with
  | O => (f, Panic)
  | S fuel => match next f with
              | (f, Ok NeedData) => (f, Ok out)
              | (f, Ok r) => drain fuel f (out ++ [r])
              | (f, Err e) => (f, Err e)
              | (f, Panic) => (f, Panic)
              end
  end.

Definition drain_all (f : FuzzyTlsDeframer) : FuzzyTlsDeframer * res io_error (list DeframeResult) :=
  drain (3 + fuzzy_pending_bytes f) f [].

Fixpoint fuzzy_run (f : FuzzyTlsDeframer) (chunks : list bytes) : FuzzyTlsDeframer * res io_error (list DeframeResult) :=
  match chunks with
  | [] => (f, Ok [])
  | c :: cs => match drain_all (feed_fuzzy f c) with
               | (f, Ok rs) => match fuzzy_run f cs with (f, Ok rs') => (f, Ok (rs ++ rs')) | r => r end
               | r => r
               end
  end.

(** *** Once the pattern is found *)

Lemma drain_deframing rs p : Forall complete rs -> partial p -> forall fuel f out,
  f_state f = Deframing -> deframer_ok (inner f) -> buffer (inner f) = concat rs ++ p -> (length rs < fuel)%nat ->
  exists f', drain fuel f out = (f', Ok (out ++ map TlsRecord rs)) /\
    f_state f' = Deframing /\ deframer_ok (inner f') /\ buffer (inner f') = p.
Proof.
  intros Hrs Hp. induction Hrs as [|r rs Hr Hrs IH]; intros fuel f out Hf Hd Hb Hl; (destruct fuel as [|fuel]; [lia|]);
    destruct f as [d q st n]; cbn in Hf, Hd, Hb; subst st; cbn [drain]; unfold next_fuzzy; cbn [f_state]; unfold deframing; cbn [inner].
  - cbn in Hb. destruct (next_record_partial d Hd) as (d' & -> & Hd' & Hb'); [by rewrite Hb|].
    eexists. rewrite app_nil_r. split_and!; [done..|]. cbn. by rewrite Hb'.
  - cbn [concat] in Hb. rewrite <- app_assoc in Hb. rewrite (next_record_complete d r _ Hd Hb Hr). cbn [length] in Hl.
    destruct (IH fuel (mkFuzzy (mkDeframer (concat rs ++ p) ReadingHeader) q Deframing n) (out ++ [TlsRecord r]))
      as (f' & He & Hrest); [done|done|done|lia|]. exists f'. cbn [search_buffer f_state total_prefix_bytes].
    rewrite He. cbn [map]. by rewrite <- app_assoc.
Qed.

Lemma run_deframing chunks : forall f rs p, f_state f = Deframing -> deframer_ok (inner f) ->
  Forall complete rs -> partial p -> partial (buffer (inner f)) -> buffer (inner f) ++ concat chunks = concat rs ++ p ->
  exists f', fuzzy_run f chunks = (f', Ok (map TlsRecord rs)) /\ fuzzy_remaining_data f' = p.
Proof.
  induction chunks as [|c cs IH]; intros f rs p Hf Hd Hrs Hp Hpd Hb; cbn [concat fuzzy_run] in *.
  - rewrite app_nil_r in Hb. destruct rs as [|r rs].
    { exists f. split; [done|]. unfold fuzzy_remaining_data. by rewrite Hf. }
    destruct (next_record_partial _ Hd Hpd) as (d1 & Hn & _). apply Forall_cons_1 in Hrs as [Hr _]. cbn in Hb.
    rewrite <- app_assoc in Hb. by rewrite (next_record_complete _ r _ Hd Hb Hr) in Hn.
  - rewrite app_assoc in Hb. destruct (split_stream rs p Hrs Hp _ _ Hb) as (rs1 & rs2 & q & -> & Hx & Hq & Hy).
    apply Forall_app in Hrs as [Hrs1 Hrs2]. pose proof (concat_complete_length rs1 Hrs1) as Hlen.
    destruct (drain_deframing rs1 q Hrs1 Hq (3 + fuzzy_pending_bytes (feed_fuzzy f c)) (feed_fuzzy f c) [])
      as (f1 & He & Hf1 & Hd1 & Hb1); unfold feed_fuzzy; rewrite ?Hf; cbn; [done|by apply feed_deframer_ok|done| |].
    { unfold fuzzy_pending_bytes, pending_bytes. cbn. rewrite Hx, length_app. lia. }
    unfold drain_all. unfold feed_fuzzy in He. rewrite Hf in He. cbn in He |- *. rewrite He.
    destruct (IH f1 rs2 p) as (f2 & -> & Hr2); rewrite ?Hb1; [done..|]. exists f2. by rewrite map_app.
Qed.

(** *** While it is searched *)

Lemma first_pattern_long s i : first_pattern s i -> (i + 6 <= length s)%nat.
Proof. intros [H _]. apply pattern_long in H. rewrite length_drop in H. lia. Qed.

(** A pattern inside a prefix of the stream is the first one of the stream. *)
Lemma first_pattern_prefix q y i : first_pattern q i -> first_pattern (q ++ y) i.
Proof.
  intros Hi. pose proof (first_pattern_long q i Hi) as Hl. destruct Hi as [Hi Hb]. split.
  - rewrite drop_app_le by lia. by apply pattern_app.
  - intros j Hj. destruct (pattern (drop j (q ++ y))) eqn:E; [|done]. rewrite drop_app_le in E by lia.
    apply pattern_app_inv in E; [|rewrite length_drop; lia]. by rewrite Hb in E.
Qed.

Lemma first_pattern_unique s i j : first_pattern s i -> first_pattern s j -> i = j.
Proof.
  intros [Hi Hbi] [Hj Hbj]. destruct (Nat.lt_trichotomy i j) as [H|[H|H]]; [|done|].
  - by rewrite Hbj in Hi.
  - by rewrite Hbi in Hj.
Qed.

(** What a search in a buffer without a whole pattern may let through: nothing
    of the pattern to come. *)
Lemma suffix_keeps q y i : first_pattern (q ++ y) i -> (forall j, pattern (drop j q) = false) ->
  (length q - find_potential_tls_suffix_len q <= i)%nat.
Proof.
  intros [Hi _] Hno. destruct (suffix_len_spec q) as (Hk & _ & Hm). set (k := find_potential_tls_suffix_len q) in *.
  destruct (decide (length q - k <= i)%nat) as [|Hc]; [done|]. exfalso.
  rewrite drop_app_le in Hi by lia.
  destruct (decide (6 <= length (drop i q))%nat) as [Hl|Hl].
  - apply pattern_app_inv in Hi; [|done]. by rewrite Hno in Hi.
  - rewrite length_drop in Hl. apply pattern_valid_prefix in Hi.
    specialize (Hm (length q - i)%nat). replace (length q - (length q - i))%nat with i in Hm by lia.
    rewrite Hm in Hi; [done|lia].
Qed.

(** A short buffer that is a valid prefix is kept whole. *)
Lemma suffix_whole q : (length q <= 5)%nat -> is_valid_tls_handshake_prefix q = true ->
  find_potential_tls_suffix_len q = length q.
Proof.
  intros Hl Hv. destruct (suffix_len_spec q) as (Hk & _ & Hm).
  destruct (decide (find_potential_tls_suffix_len q = length q)) as [|Hne]; [done|].
  specialize (Hm (length q)). rewrite Nat.sub_diag, drop_0 in Hm. rewrite Hm in Hv; [done|lia].
Qed.

Definition searching (f : FuzzyTlsDeframer) : Prop := f_state f = Searching /\ inner f = new_deframer.

Lemma no_pattern_short q : (length q < 6)%nat -> forall j, pattern (drop j q) = false.
Proof.
  intros Hl j. destruct (pattern _) eqn:E; [|done]. apply pattern_long in E. rewrite length_drop in E. lia.
Qed.

(** The search on a buffer with no whole pattern: the front goes out, what may
    be the start of one stays. *)
Lemma drain_quiet fuel f out : (2 <= fuel)%nat -> searching f ->
  (forall j, pattern (drop j (search_buffer f)) = false) ->
  let q := search_buffer f in let n := (length q - find_potential_tls_suffix_len q)%nat in
  exists f' ups, drain fuel f out = (f', Ok (out ++ map UnknownPrefix ups)) /\
    searching f' /\ search_buffer f' = drop n q /\ concat ups = take n q.
Proof using FL.
  intros Hf [Hs Hi] Hno q n. destruct f as [d b st t]. cbn in *. subst st d q.
  destruct fuel as [|[|fuel]]; [lia..|]. cbn [drain].
  assert (forall b, (forall j, pattern (drop j b) = false) ->
    (if (MIN_TLS_HANDSHAKE_PATTERN_LEN <=? length b)%nat then find_tls_handshake_start memmem_find b else None) = None) as Hnone.
  { intros b' Hb'. destruct (_ <=? _)%nat; [|done]. pose proof (find_start_spec memmem_find b') as H.
    destruct (find_tls_handshake_start _ _) as [i|]; [|done]. destruct H as [H _]. by rewrite Hb' in H. }
  assert (forall t b, (length b <= 5)%nat -> is_valid_tls_handshake_prefix b = true ->
    next (mkFuzzy new_deframer b Searching t) = (mkFuzzy new_deframer b Searching t, Ok NeedData)) as Hstay.
  { intros t' b' Hl Hv. unfold next_fuzzy. cbn [f_state search_buffer]. destruct (bool_decide (b' = [])); [done|].
    rewrite Hnone by (apply no_pattern_short; lia). rewrite suffix_whole by done.
    by rewrite (proj2 (Nat.ltb_ge _ _)) by lia. }
  destruct (suffix_len_spec b) as (Hk & Hv & _). set (k := find_potential_tls_suffix_len b) in *.
  unfold next_fuzzy at 1. cbn [f_state search_buffer]. case_bool_decide as Hb.
  { subst b. eexists _, []. rewrite app_nil_r. split_and!; [done..|]. by rewrite take_nil. }
  rewrite Hnone by done. fold k. destruct (Nat.ltb_spec k (length b)) as [Hlt|Hge].
  - assert (length (drop n b) = k) as Hdl by (rewrite length_drop; subst n; lia).
    assert (is_valid_tls_handshake_prefix (drop n b) = true) as Hvd.
    { destruct (decide (k = O)) as [Hz|]; [|apply Hv; lia]. destruct (drop n b) eqn:E; [done|]. cbn in Hdl. lia. }
    fold n. rewrite Hstay by (done || lia). eexists _, [take n b]. split_and!; [done..|]. cbn. by rewrite app_nil_r.
  - eexists _, []. rewrite app_nil_r. subst n.
    replace (length b - k)%nat with O by lia. by split_and!.
Qed.

(** The search on a buffer whose first pattern is at [i]: the front goes out,
    then the records. *)
Lemma drain_found fuel f out i rs p : (length rs + 1 < fuel)%nat -> searching f -> first_pattern (search_buffer f) i ->
  Forall complete rs -> partial p -> drop i (search_buffer f) = concat rs ++ p ->
  exists f' ups, drain fuel f out = (f', Ok (out ++ map UnknownPrefix ups ++ map TlsRecord rs)) /\
    f_state f' = Deframing /\ deframer_ok (inner f') /\ buffer (inner f') = p /\ concat ups = take i (search_buffer f).
Proof using FL.
  intros Hf [Hs Hi] Hfirst Hrs Hp Hd. destruct f as [d q st t]. cbn in *. subst st d.
  destruct fuel as [|fuel]; [lia|].
  pose proof (first_pattern_long q i Hfirst) as Hlong.
  assert (find_tls_handshake_start memmem_find q = Some i) as Hfind.
  { pose proof (find_start_spec memmem_find q) as H. destruct (find_tls_handshake_start _ _) as [j|].
    - f_equal. by apply (first_pattern_unique q).
    - destruct Hfirst as [Hp' _]. by rewrite H in Hp'. }
  assert (next (mkFuzzy new_deframer q Searching t) =
    if (0 <? i)%nat then (mkFuzzy (mkDeframer (drop i q) ReadingHeader) [] Deframing (t + Z.of_nat (length (take i q))), Ok (UnknownPrefix (take i q)))
    else next (mkFuzzy (mkDeframer q ReadingHeader) [] Deframing t)) as Hnext.
  { unfold next_fuzzy at 1. cbn [f_state search_buffer]. rewrite bool_decide_eq_false_2 by (intros ->; cbn in Hlong; lia).
    rewrite (proj2 (Nat.leb_le _ _)) by (unfold MIN_TLS_HANDSHAKE_PATTERN_LEN; lia). rewrite Hfind. by destruct (0 <? i)%nat. }
  cbn [drain]. rewrite Hnext. destruct (Nat.ltb_spec 0 i) as [Hpos|Hz].
  - destruct (drain_deframing rs p Hrs Hp fuel
      (mkFuzzy (mkDeframer (drop i q) ReadingHeader) [] Deframing (t + Z.of_nat (length (take i q)))) (out ++ [UnknownPrefix (take i q)]))
      as (f' & He & Hf' & Hok & Hb); [done..|lia|].
    exists f', [take i q]. rewrite He. cbn [map concat]. rewrite <- app_assoc, app_nil_r. by split_and!.
  - assert (i = O) as -> by lia. rewrite drop_0 in Hd.
    destruct (drain_deframing rs p Hrs Hp (S fuel) (mkFuzzy (mkDeframer q ReadingHeader) [] Deframing t) out)
      as (f' & He & Hf' & Hok & Hb); [done..|lia|].
    exists f', []. cbn [map concat app]. cbn [drain] in He. rewrite He. by split_and!.
Qed.

Lemma first_pattern_drop s i n : (n <= i)%nat -> first_pattern s i -> first_pattern (drop n s) (i - n).
Proof.
  intros Hn [H Hb]. split.
  - rewrite drop_drop. by replace (n + (i - n))%nat with i by lia.
  - intros j Hj. rewrite drop_drop. apply Hb. lia.
Qed.

Lemma run_searching chunks : forall f pr rs p, searching f -> (length (search_buffer f) <= 5)%nat ->
  Forall complete rs -> partial p -> search_buffer f ++ concat chunks = pr ++ concat rs ++ p ->
  first_pattern (pr ++ concat rs ++ p) (length pr) ->
  exists f' ups, fuzzy_run f chunks = (f', Ok (map UnknownPrefix ups ++ map TlsRecord rs)) /\
    concat ups = pr /\ fuzzy_remaining_data f' = p.
Proof using FL.
  induction chunks as [|c cs IH]; intros f pr rs p Hs Hl Hrs Hp Hb Hfirst; cbn [concat fuzzy_run] in *.
  { apply first_pattern_long in Hfirst. rewrite app_nil_r in Hb. rewrite <- Hb in Hfirst. lia. }
  rewrite app_assoc in Hb. set (q := search_buffer f ++ c) in *.
  assert (searching (feed_fuzzy f c) /\ search_buffer (feed_fuzzy f c) = q) as [Hsf Hq].
  { destruct Hs as [H1 H2]. unfold feed_fuzzy. rewrite H1. done. }
  pose proof (find_start_spec memmem_find q) as Hfind. destruct (find_tls_handshake_start memmem_find q) as [i|].
  - assert (i = length pr) as ->.
    { apply (first_pattern_unique (q ++ concat cs)); [by apply first_pattern_prefix|by rewrite Hb]. }
    pose proof (first_pattern_long _ _ Hfind) as Hlong.
    assert (q = pr ++ drop (length pr) q) as Hqs.
    { rewrite <- (take_drop (length pr) q) at 1. f_equal. apply (f_equal (take (length pr))) in Hb.
      rewrite take_app_length, take_app_le in Hb by lia. done. }
    rewrite Hqs, <- app_assoc in Hb. apply app_inv_head in Hb.
    destruct (split_stream rs p Hrs Hp _ _ Hb) as (rs1 & rs2 & q2 & -> & Hx & Hq2 & Hy).
    apply Forall_app in Hrs as [Hrs1 Hrs2]. pose proof (concat_complete_length rs1 Hrs1) as Hlen.
    destruct (drain_found (3 + fuzzy_pending_bytes (feed_fuzzy f c)) (feed_fuzzy f c) [] (length pr) rs1 q2)
      as (f1 & ups & He & Hf1 & Hd1 & Hb1 & Hu); rewrite ?Hq; [|done..|].
    { unfold fuzzy_pending_bytes. destruct Hsf as [-> _]. rewrite Hq, Hqs, length_app, Hx, length_app. lia. }
    destruct (run_deframing cs f1 rs2 p) as (f2 & Hr & Hrem); rewrite ?Hb1; [done..|].
    exists f2, ups. unfold drain_all. rewrite He, Hr. split_and!; [cbn [app]; by rewrite map_app, <- app_assoc| |done].
    rewrite Hu, Hq, Hqs. apply take_app_length.
  - assert (forall j, pattern (drop j (search_buffer (feed_fuzzy f c))) = false) as Hno by (by rewrite Hq).
    destruct (drain_quiet (3 + fuzzy_pending_bytes (feed_fuzzy f c)) (feed_fuzzy f c) []) as (f1 & ups & He & Hs1 & Hb1 & Hu);
      [lia|done..|]. rewrite Hq in *.
    pose proof (suffix_len_spec q) as (Hk & _ & _).
    assert (length q - find_potential_tls_suffix_len q <= length pr)%nat as Hn.
    { apply (suffix_keeps q (concat cs)); [by rewrite Hb|done]. }
    set (n := (length q - find_potential_tls_suffix_len q)%nat) in *.
    assert (take n q = take n pr) as Ht.
    { apply (f_equal (take n)) in Hb. by rewrite !take_app_le in Hb by (subst n; lia). }
    destruct (IH f1 (drop n pr) rs p) as (f2 & ups2 & Hr & Hu2 & Hrem); [done| |done..| | |].
    + rewrite Hb1, length_drop. subst n. lia.
    + rewrite Hb1. apply (f_equal (drop n)) in Hb. by rewrite !drop_app_le in Hb by (subst n; lia).
    + rewrite <- drop_app_le by lia. rewrite length_drop. by apply first_pattern_drop.
    + exists f2, (ups ++ ups2). unfold drain_all. rewrite He, Hr. split_and!; [cbn [app]; by rewrite map_app, <- app_assoc| |done].
      by rewrite concat_app, Hu, Hu2, Ht, take_drop.
Qed.

(** The fuzzy deframer finds the TLS inside: let a stream be some bytes
    [pre], then complete records [rs] and a partial one [p], the first handshake
    pattern of the stream being at the end of [pre]. However the stream is cut
    into chunks, feeding them and draining after each gives prefixes that put
    together are exactly [pre], then exactly the records [rs] in order, and the
    partial record stays in the buffer: no byte of TLS is let through as a
    prefix, none before it is taken for TLS, none is lost. *)
Theorem fuzzy_deframes chunks pre rs p : Forall complete rs -> partial p ->
  first_pattern (pre ++ concat rs ++ p) (length pre) -> concat chunks = pre ++ concat rs ++ p ->
  exists f ups, fuzzy_run new_fuzzy chunks = (f, Ok (map UnknownPrefix ups ++ map TlsRecord rs)) /\
    concat ups = pre /\ fuzzy_remaining_data f = p.
Proof using FL. intros Hrs Hp Hf Hc. apply run_searching; [done|cbn; lia|done..]. Qed.

End run.

(** [find_str] keeps the laws. *)
#[export] Instance find_str_memmem : MemmemLaws find_str.
Proof.
  assert (forall n h, match find_str n h with
    | Some i => n `prefix_of` drop i h /\ forall j, (j < i)%nat -> ~ n `prefix_of` drop j h
    | None => forall j, (j <= length h)%nat -> ~ n `prefix_of` drop j h end) as H.
  { assert (forall n h, starts_with n h = false -> ~ n `prefix_of` h) as Hn.
    { intros n h E Hp%starts_with_spec. congruence. }
    intros n h. induction h as [|b h IH]; cbn [find_str]; (destruct (starts_with n _) eqn:E;
      [apply starts_with_spec in E; split; [done|lia]|apply Hn in E]).
    - intros j Hj. cbn in Hj. by replace j with O by lia.
    - destruct (find_str n h) as [i|]; cbn.
      + destruct IH as [IH1 IH2]. split; [done|]. intros [|j] Hj; [done|]. apply IH2. lia.
      + intros [|j] Hj; [done|]. apply IH. cbn in Hj. lia. }
  split; intros n h; specialize (H n h).
  - intros i E. by rewrite E in H.
  - intros E. by rewrite E in H.
Qed.

Lemma fuzzy_deframes_witness :
  exists f ups, fuzzy_run find_str new_fuzzy [of_zs [9; 22; 3; 22]; of_zs [3; 1; 0]; of_zs [2; 1; 8; 23]] =
      (f, Ok (map UnknownPrefix ups ++ [TlsRecord (of_zs [22; 3; 1; 0; 2; 1; 8])])) /\
    concat ups = of_zs [9; 22; 3] /\ fuzzy_remaining_data f = of_zs [23].
Proof.
  apply (fuzzy_deframes find_str [of_zs [9; 22; 3; 22]; of_zs [3; 1; 0]; of_zs [2; 1; 8; 23]]
    (of_zs [9; 22; 3]) [of_zs [22; 3; 1; 0; 2; 1; 8]] (of_zs [23])).
  - apply Forall_singleton. exists 2. split; vm_compute; reflexivity.
  - left. vm_compute. reflexivity.
  - split; [vm_compute; reflexivity|]. intros [|[|[|j]]] Hj; [vm_compute; reflexivity..|]. cbn in Hj. lia.
  - vm_compute. reflexivity.
Defined.
