(* ===== verification/VisionFilter.v ===== *)
(** * Which TLS runs inside: the ServerHello parser and the Vision filter
    ([crates/net/src/buf_reader.rs], [vision/vision_tls_util.rs] and
    [vision/vision_filter.rs])

    [BufReader] is a cursor with checked reads. [parse_server_hello] reads a
    ServerHello record with it, and [VisionFilter] decides from the first records
    of a connection whether the inner TLS is 1.3, in which case the outer layer
    can be dropped. *)

From S2P Require Import Prelude RustStr Utf8 NetAddr NetIo.

(** ** [BufReader] *)

Record BufReader : Type := mkReader { r_buf : bytes; r_pos : nat }.

(** [BufReader::new] *)
Definition new_reader (buf : bytes) : BufReader := mkReader buf 0.

Definition is_consumed (r : BufReader) : bool := (r_pos r =? length (r_buf r))%nat.
Definition remaining (r : BufReader) : nat := (length (r_buf r) - r_pos r)%nat.

(** [self.pos += n] *)
Definition advance (r : BufReader) (n : nat) : BufReader := mkReader (r_buf r) (r_pos r + n).

(** [read_u8], [read_u16_be], [read_u24_be]: the check, the indexing, the advance. *)
Definition r_u8 (r : BufReader) : res io_error (Z * BufReader) :=
  if (length (r_buf r) <=? r_pos r)%nat then Err UnexpectedEof
  else b ← index (r_buf r) (r_pos r); Ok (val8 b, advance r 1).

Definition r_u16_be (r : BufReader) : res io_error (Z * BufReader) :=
  if (length (r_buf r) <=? r_pos r + 1)%nat then Err UnexpectedEof
  else a ← index (r_buf r) (r_pos r); b ← index (r_buf r) (r_pos r + 1);
       Ok (be_value [a; b], advance r 2).

Definition r_u24_be (r : BufReader) : res io_error (Z * BufReader) :=
  if (length (r_buf r) <=? r_pos r + 2)%nat then Err UnexpectedEof
  else a ← index (r_buf r) (r_pos r); b ← index (r_buf r) (r_pos r + 1); c ← index (r_buf r) (r_pos r + 2);
       Ok (be_value [to_u8 0; a; b; c], advance r 3).

(** [read_slice], [read_str], [skip]. The text of [Utf8Error] is the standard
    library's. *)
Definition r_slice (r : BufReader) (len : nat) : res io_error (bytes * BufReader) :=
  if (length (r_buf r) <? r_pos r + len)%nat then Err UnexpectedEof
  else s ← sub_slice (r_pos r) (r_pos r + len) (r_buf r); Ok (s, advance r len).

Definition r_skip (r : BufReader) (amount : nat) : res io_error BufReader :=
  if (length (r_buf r) <? r_pos r + amount)%nat then Err UnexpectedEof else Ok (advance r amount).

Definition r_str (utf8_error : bytes -> str) (r : BufReader) (len : nat) : res io_error (str * BufReader) :=
  '(s, r) ← r_slice r len;
  match from_utf8 s with
  | Some s => Ok (s, r)
  | None => Err (InvalidData ("Invalid UTF-8 sequence: " ++ utf8_error s))
  end.

(** ** [parse_server_hello] *)

Definition TLS_HEADER_LEN : nat := 5.
Definition CONTENT_TYPE_HANDSHAKE : Z := 22.
Definition HANDSHAKE_TYPE_SERVER_HELLO : Z := 2.
Definition TLS_EXT_SUPPORTED_VERSIONS : Z := 43.
Definition RETRY_REQUEST_RANDOM_BYTES : bytes := of_zs
  [207; 33; 173; 116; 229; 154; 97; 17; 190; 29; 140; 2; 30; 101; 184; 145;
   194; 162; 17; 22; 122; 187; 140; 94; 7; 158; 9; 226; 200; 168; 51; 156].

Record ParsedServerHello : Type := mkHello {
  server_random : bytes;
  cipher_suite : Z;
  session_id_len : Z;
  is_tls13 : bool
}.

Definition invalid {A} (msg : str) : res io_error A := Err (InvalidData msg).

(** One turn of the loop over the extensions. *)
Definition extension_step (s : BufReader * bool) : res io_error (BufReader * bool + bool) :=
  let '(r, tls13) := s in
  if is_consumed r then Ok (inr tls13) else
  '(ext_type, r) ← r_u16_be r;
  '(ext_len, r) ← r_u16_be r;
  if ext_type =? TLS_EXT_SUPPORTED_VERSIONS then
    if negb (ext_len =? 2)
    then invalid ("supported_versions extension should be 2 bytes, got " ++ show_uint ext_len)
    else '(version_bytes, r) ← r_slice r 2;
         a ← index version_bytes 0; b ← index version_bytes 1;
         Ok (inl (r, (val8 a =? 3) && (val8 b =? 4)))
  else r ← r_skip r (Z.to_nat ext_len); Ok (inl (r, tls13)).

(** The extensions of the hello; each has four bytes at least. *)
Definition read_extensions (r : BufReader) : res io_error bool :=
  if is_consumed r then Ok false else
  '(extensions_len, r) ← r_u16_be r;
  if (remaining r <? Z.to_nat extensions_len)%nat then invalid "extensions length exceeds remaining data" else
  '(extensions_data, r) ← r_slice r (Z.to_nat extensions_len);
  loop (S (length extensions_data)) extension_step (new_reader extensions_data, false).

(** [parse_server_hello] *)
Definition parse_server_hello (server_hello_frame : bytes) : res io_error ParsedServerHello :=
  if (length server_hello_frame <? 47)%nat then invalid "ServerHello frame too short" else
  content_type ← index server_hello_frame 0;
  if negb (val8 content_type =? CONTENT_TYPE_HANDSHAKE) then invalid "expected handshake content type" else
  record_version_major ← index server_hello_frame 1;
  record_version_minor ← index server_hello_frame 2;
  if negb (val8 record_version_major =? 3) || negb (val8 record_version_minor =? 3)
  then invalid ("unexpected record TLS version " ++ show_uint (val8 record_version_major) ++ "."
                ++ show_uint (val8 record_version_minor)) else
  let r := new_reader (drop TLS_HEADER_LEN server_hello_frame) in
  '(handshake_type, r) ← r_u8 r;
  if negb (handshake_type =? HANDSHAKE_TYPE_SERVER_HELLO) then invalid "expected ServerHello handshake type" else
  '(message_len, r) ← r_u24_be r;
  if Z.of_nat (remaining r) <? message_len then invalid "ServerHello message length exceeds frame" else
  '(version_major, r) ← r_u8 r;
  '(version_minor, r) ← r_u8 r;
  if negb (version_major =? 3) || negb (version_minor =? 3)
  then invalid ("expected TLS version 3.3, got " ++ show_uint version_major ++ "." ++ show_uint version_minor) else
  '(server_random, r) ← r_slice r 32;
  if bool_decide (server_random = RETRY_REQUEST_RANDOM_BYTES) then invalid "server sent a HelloRetryRequest" else
  '(session_id_len, r) ← r_u8 r;
  if 32 <? session_id_len then invalid ("invalid session_id_len " ++ show_uint session_id_len ++ ", max is 32") else
  r ← r_skip r (Z.to_nat session_id_len);
  '(cipher_suite, r) ← r_u16_be r;
  r ← r_skip r 1;
  is_tls13 ← read_extensions r;
  Ok (mkHello server_random cipher_suite session_id_len is_tls13).

(** ** [VisionFilter] *)

Definition TLS_CONTENT_TYPE_HANDSHAKE : Z := 22.
Definition TLS_HANDSHAKE_TYPE_CLIENT_HELLO : Z := 1.
Definition TLS_HANDSHAKE_TYPE_SERVER_HELLO : Z := 2.
Definition TLS13_CIPHER_AES_128_CCM_8_SHA256 : Z := 4869.

Record VisionFilter : Type := mkFilter {
  record_filter_count : nat;
  vf_is_tls : bool;
  is_tls12_or_above : bool;
  supports_xtls : bool
}.

(** [VisionFilter::new] *)
Definition new_filter : VisionFilter := mkFilter 8 false false false.

Definition is_filtering (f : VisionFilter) : bool := (0 <? record_filter_count f)%nat.

(** [decrement_filter_count] and [stop_filtering] *)
Definition decrement_filter_count (f : VisionFilter) : VisionFilter :=
  mkFilter (record_filter_count f - 1) (vf_is_tls f) (is_tls12_or_above f) (supports_xtls f).

Definition stop_filtering (f : VisionFilter) : VisionFilter :=
  mkFilter 0 (vf_is_tls f) (is_tls12_or_above f) (supports_xtls f).

(** [data[i] == v]; false past the end, where the code's length test stops. *)
Definition byte_is (data : bytes) (i : nat) (v : Z) : bool :=
  match data !! i with Some b => val8 b =? v | None => false end.

(** The two tests on a record of six bytes or more. *)
Definition is_client_hello (data : bytes) : bool :=
  (6 <=? length data)%nat && byte_is data 0 TLS_CONTENT_TYPE_HANDSHAKE && byte_is data 1 3
  && byte_is data 5 TLS_HANDSHAKE_TYPE_CLIENT_HELLO.

Definition is_server_hello (data : bytes) : bool :=
  (6 <=? length data)%nat && byte_is data 0 TLS_CONTENT_TYPE_HANDSHAKE && byte_is data 1 3
  && byte_is data 2 3 && byte_is data 5 TLS_HANDSHAKE_TYPE_SERVER_HELLO.

(** [filter_record] *)
Definition filter_record (f : VisionFilter) (data : bytes) : VisionFilter :=
  if (record_filter_count f =? 0)%nat then f else
  let f := decrement_filter_count f in
  if (length data <? 5)%nat then stop_filtering f else
  let f := if negb (vf_is_tls f) && is_client_hello data
           then mkFilter (record_filter_count f) true (is_tls12_or_above f) (supports_xtls f) else f in
  if negb (is_tls12_or_above f) && is_server_hello data then
    let f := mkFilter (record_filter_count f) true true (supports_xtls f) in
    match parse_server_hello data with
    | Ok parsed =>
        if is_tls13 parsed then
          let f := if cipher_suite parsed =? TLS13_CIPHER_AES_128_CCM_8_SHA256 then f
                   else mkFilter (record_filter_count f) (vf_is_tls f) (is_tls12_or_above f) true in
          stop_filtering f
        else f
    | _ => stop_filtering f
    end
  else f.

(** ** The cursor as the bytes still to come *)

Definition at_bytes (r : BufReader) (s : bytes) : Prop := drop (r_pos r) (r_buf r) = s /\ (r_pos r <= length (r_buf r))%nat.

Lemma at_length r s : at_bytes r s -> length (r_buf r) = (r_pos r + length s)%nat.
Proof. intros [<- Hp]. rewrite length_drop. lia. Qed.

Lemma at_new s : at_bytes (new_reader s) s.
Proof. split; [by cbn; rewrite drop_0|cbn; lia]. Qed.

Lemma at_advance r a t : at_bytes r (a ++ t) -> at_bytes (advance r (length a)) t.
Proof.
  intros Ha. pose proof (at_length _ _ Ha) as Hl. destruct Ha as [Hd Hp]. rewrite length_app in Hl. split; cbn; [|lia].
  by rewrite <- drop_drop, Hd, drop_app_length.
Qed.

Lemma at_remaining r s : at_bytes r s -> remaining r = length s.
Proof. intros Ha. unfold remaining. rewrite (at_length r s Ha). lia. Qed.

Lemma at_consumed r s : at_bytes r s -> is_consumed r = bool_decide (s = []).
Proof.
  intros Ha. unfold is_consumed. rewrite (at_length r s Ha). destruct s as [|b s]; cbn [length].
  - rewrite bool_decide_eq_true_2 by done. apply Nat.eqb_eq. lia.
  - rewrite bool_decide_eq_false_2 by done. apply Nat.eqb_neq. lia.
Qed.

Lemma at_index {E} r s i b : at_bytes r s -> s !! i = Some b -> index (E := E) (r_buf r) (r_pos r + i) = Ok b.
Proof. intros [Hd _] Hb. unfold index. by rewrite <- lookup_drop, Hd, Hb. Qed.

Lemma at_u8 r b t : at_bytes r (b :: t) -> r_u8 r = Ok (val8 b, advance r 1).
Proof.
  intros Ha. unfold r_u8. rewrite (at_length _ _ Ha). rewrite (proj2 (Nat.leb_gt _ _)) by (cbn; lia).
  rewrite <- (Nat.add_0_r (r_pos r)) at 1. by rewrite (at_index r (b :: t) 0 b Ha eq_refl).
Qed.

Lemma at_u16 r a b t : at_bytes r (a :: b :: t) -> r_u16_be r = Ok (be_value [a; b], advance r 2).
Proof.
  intros Ha. unfold r_u16_be. rewrite (at_length _ _ Ha). rewrite (proj2 (Nat.leb_gt _ _)) by (cbn; lia).
  rewrite <- (Nat.add_0_r (r_pos r)) at 1. rewrite (at_index r _ 0 a Ha eq_refl). cbn [mbind res_bind].
  by rewrite (at_index r _ 1 b Ha eq_refl).
Qed.

Lemma at_u24 r a b c t : at_bytes r (a :: b :: c :: t) -> r_u24_be r = Ok (be_value [a; b; c], advance r 3).
Proof.
  intros Ha. unfold r_u24_be. rewrite (at_length _ _ Ha). rewrite (proj2 (Nat.leb_gt _ _)) by (cbn; lia).
  rewrite <- (Nat.add_0_r (r_pos r)) at 1. rewrite (at_index r _ 0 a Ha eq_refl). cbn [mbind res_bind].
  rewrite (at_index r _ 1 b Ha eq_refl). cbn [mbind res_bind]. by rewrite (at_index r _ 2 c Ha eq_refl).
Qed.

Lemma at_slice r a t n : at_bytes r (a ++ t) -> length a = n -> r_slice r n = Ok (a, advance r n).
Proof.
  intros Ha <-. unfold r_slice. rewrite (at_length _ _ Ha). rewrite (proj2 (Nat.ltb_ge _ _)) by (rewrite length_app; lia).
  destruct Ha as [Hd Hp]. by rewrite (sub_slice_drop (r_pos r) (r_buf r) a t Hd Hp).
Qed.

Lemma at_skip r a t n : at_bytes r (a ++ t) -> length a = n -> r_skip r n = Ok (advance r n).
Proof.
  intros Ha <-. unfold r_skip. rewrite (at_length _ _ Ha). by rewrite (proj2 (Nat.ltb_ge _ _)) by (rewrite length_app; lia).
Qed.

(** No read panics. *)
Lemma reader_no_panic r n : no_panic (r_u8 r) /\ no_panic (r_u16_be r) /\ no_panic (r_u24_be r) /\
  no_panic (r_slice r n) /\ no_panic (r_skip r n).
Proof.
  unfold r_u8, r_u16_be, r_u24_be, r_slice, r_skip. split_and!.
  - destruct (Nat.leb_spec (length (r_buf r)) (r_pos r)); [done|]. apply no_panic_bind; [auto with resdb|done].
  - destruct (Nat.leb_spec (length (r_buf r)) (r_pos r + 1)); [done|].
    repeat (apply no_panic_bind; [apply index_no_panic; lia|intros]). done.
  - destruct (Nat.leb_spec (length (r_buf r)) (r_pos r + 2)); [done|].
    repeat (apply no_panic_bind; [apply index_no_panic; lia|intros]). done.
  - destruct (Nat.ltb_spec (length (r_buf r)) (r_pos r + n)); [done|].
    apply no_panic_bind; [apply sub_slice_no_panic; lia|done].
  - by destruct (_ <? _)%nat.
Qed.

(** ** [parse_server_hello] never panics *)

Lemma slice_result r n s r' : r_slice r n = Ok (s, r') -> length s = n.
Proof.
  unfold r_slice, sub_slice. destruct (Nat.ltb_spec (length (r_buf r)) (r_pos r + n)); [done|].
  destruct (_ && _); [|done]. cbn. intros [= <- _]. rewrite slice_length; lia.
Qed.

Lemma reader_moves r : (forall z r', r_u16_be r = Ok (z, r') -> remaining r' = (remaining r - 2)%nat /\ (2 <= remaining r)%nat) /\
  (forall n s r', r_slice r n = Ok (s, r') -> remaining r' = (remaining r - n)%nat) /\
  (forall n r', r_skip r n = Ok r' -> remaining r' = (remaining r - n)%nat).
Proof.
  unfold r_u16_be, r_slice, r_skip, remaining. split_and!.
  - intros z r'. destruct (Nat.leb_spec (length (r_buf r)) (r_pos r + 1)); [done|]. intros H1.
    apply ok_bind in H1 as (a & _ & H1). apply ok_bind in H1 as (b & _ & H1). injection H1 as <- <-. cbn. lia.
  - intros n s r'. destruct (_ <? _)%nat; [done|]. intros H1. apply ok_bind in H1 as (a & _ & H1). injection H1 as <- <-. cbn. lia.
  - intros n r'. destruct (_ <? _)%nat; [done|]. intros [= <-]. cbn. lia.
Qed.

Ltac no_panic_read :=
  repeat match goal with
  | |- no_panic (if ?b then _ else _) => destruct b; [try done|]
  | |- no_panic (r_u8 ?r ≫= _) => apply no_panic_bind; [apply (reader_no_panic r 0)|intros [? ?] _]
  | |- no_panic (r_u16_be ?r ≫= _) => apply no_panic_bind; [apply (reader_no_panic r 0)|intros [? ?] _]
  | |- no_panic (r_u24_be ?r ≫= _) => apply no_panic_bind; [apply (reader_no_panic r 0)|intros [? ?] _]
  | |- no_panic (r_slice ?r ?n ≫= _) => apply no_panic_bind; [apply (reader_no_panic r n)|intros [? ?] ?]
  | |- no_panic (r_skip ?r ?n ≫= _) => apply no_panic_bind; [apply (reader_no_panic r n)|intros ? _]
  end.

Lemma read_extensions_no_panic r : no_panic (read_extensions r).
Proof.
  unfold read_extensions. no_panic_read.
  apply (loop_no_panic _ (fun _ => True) (fun s => remaining (fst s))); [| |done|].
  - intros [r1 t1] _. unfold extension_step. no_panic_read; [|done].
    apply slice_result in H0.
    apply no_panic_bind; [apply index_no_panic; lia|]. intros. apply no_panic_bind; [apply index_no_panic; lia|]. done.
  - intros [r1 t1] s' _. unfold extension_step. destruct (is_consumed r1); [done|]. intros H1.
    apply ok_bind in H1 as ([et r2] & E1 & H1). apply ok_bind in H1 as ([el r3] & E2 & H1).
    apply (proj1 (reader_moves r1)) in E1 as [E1 E1']. apply (proj1 (reader_moves r2)) in E2 as [E2 E2'].
    split; [done|]. destruct (et =? _).
    + destruct (negb _); [done|]. apply ok_bind in H1 as ([vb r4] & E3 & H1).
      apply (proj1 (proj2 (reader_moves r3))) in E3. apply ok_bind in H1 as (? & _ & H1). apply ok_bind in H1 as (? & _ & H1).
      injection H1 as <-. cbn. lia.
    + apply ok_bind in H1 as (r4 & E3 & H1). apply (proj2 (proj2 (reader_moves r3))) in E3. injection H1 as <-. cbn. lia.
  - cbn. unfold remaining. cbn. lia.
Qed.

Lemma parse_server_hello_no_panic frame : no_panic (parse_server_hello frame).
Proof.
  unfold parse_server_hello. destruct (Nat.ltb_spec (length frame) 47) as [|Hl]; [done|].
  apply no_panic_bind; [apply index_no_panic; lia|intros ? _]. destruct (negb _); [done|].
  apply no_panic_bind; [apply index_no_panic; lia|intros ? _].
  apply no_panic_bind; [apply index_no_panic; lia|intros ? _].
  no_panic_read. apply no_panic_bind; [apply read_extensions_no_panic|done].
Qed.

(** ** A ServerHello as RFC 8446 and RFC 5246 write it *)

Record Hello : Type := mkServerHello {
  h_random : bytes;
  h_session_id : bytes;
  h_cipher : Z;
  h_compression : u8;
  h_extensions : option (list (Z * bytes))
}.

Definition extension_bytes (e : Z * bytes) : bytes :=
  be_bytes 2 (fst e) ++ be_bytes 2 (Z.of_nat (length (snd e))) ++ snd e.

Definition extensions_body (es : list (Z * bytes)) : bytes := concat (map extension_bytes es).

Definition hello_body (h : Hello) : bytes :=
  of_zs [3; 3] ++ h_random h ++ [to_u8 (Z.of_nat (length (h_session_id h)))] ++ h_session_id h
  ++ be_bytes 2 (h_cipher h) ++ [h_compression h]
  ++ match h_extensions h with
     | None => []
     | Some es => be_bytes 2 (Z.of_nat (length (extensions_body es))) ++ extensions_body es
     end.

Definition hello_frame (h : Hello) : bytes :=
  of_zs [22; 3; 3] ++ be_bytes 2 (Z.of_nat (length (hello_body h)) + 4)
  ++ [to_u8 2] ++ be_bytes 3 (Z.of_nat (length (hello_body h))) ++ hello_body h.

Definition extension_ok (e : Z * bytes) : Prop :=
  0 <= fst e < 65536 /\ Z.of_nat (length (snd e)) < 65536 /\
  (fst e = TLS_EXT_SUPPORTED_VERSIONS -> length (snd e) = 2%nat).

Definition hello_ok (h : Hello) : Prop :=
  length (h_random h) = 32%nat /\ h_random h <> RETRY_REQUEST_RANDOM_BYTES /\
  (length (h_session_id h) <= 32)%nat /\ 0 <= h_cipher h < 65536 /\
  match h_extensions h with
  | None => True
  | Some es => Forall extension_ok es /\ Z.of_nat (length (extensions_body es)) < 65536
  end.

(** The version the extensions select: the last [supported_versions] decides. *)
Definition selects_tls13 (es : list (Z * bytes)) : bool :=
  fold_left (fun t e => if fst e =? TLS_EXT_SUPPORTED_VERSIONS then bool_decide (snd e = of_zs [3; 4]) else t) es false.

Lemma extension_step_cons r e es t : at_bytes r (extensions_body (e :: es)) -> extension_ok e ->
  exists r', extension_step (r, t) =
    Ok (inl (r', if fst e =? TLS_EXT_SUPPORTED_VERSIONS then bool_decide (snd e = of_zs [3; 4]) else t)) /\
    at_bytes r' (extensions_body es).
Proof.
  destruct e as [ty d]. intros Ha (Ht & Hd & Hv). unfold extensions_body in Ha. cbn [map concat fst snd] in *.
  unfold extension_bytes in Ha. cbn [fst snd] in Ha. rewrite <- !app_assoc in Ha.
  assert (forall z, 0 <= z < 65536 -> be_value [to_u8 (z / 256 ^ Z.of_nat 1); to_u8 (z / 256 ^ Z.of_nat 0)] = z) as Hbe.
  { intros z Hz. exact (be_value_be_bytes_small 2 z Hz). }
  unfold extension_step. rewrite (at_consumed _ _ Ha). rewrite bool_decide_eq_false_2 by done.
  pose proof (at_advance r (be_bytes 2 ty) _ Ha) as Hb. rewrite length_be_bytes in Hb.
  rewrite (at_u16 _ _ _ _ Ha). cbn [mbind res_bind]. rewrite (at_u16 _ _ _ _ Hb). cbn [mbind res_bind].
  rewrite !Hbe by lia. pose proof (at_advance _ (be_bytes 2 _) _ Hb) as Hc. rewrite length_be_bytes in Hc.
  pose proof (at_advance _ d _ Hc) as He. destruct (Z.eqb_spec ty TLS_EXT_SUPPORTED_VERSIONS) as [->|Hne]; eexists.
  - specialize (Hv eq_refl). rewrite Hv. cbn [Z.of_nat Pos.of_succ_nat Z.eqb negb].
    rewrite (at_slice _ d _ 2 Hc Hv). cbn [mbind res_bind]. rewrite Hv in He. split; [|exact He].
    destruct d as [|a [|b [|? ?]]]; try done. cbn. do 3 f_equal. clear.
    destruct (Z.eqb_spec (val8 a) 3) as [Ea|Ea], (Z.eqb_spec (val8 b) 4) as [Eb|Eb]; cbn; symmetry.
    + apply bool_decide_eq_true_2. rewrite <- (to_u8_val8 a), <- (to_u8_val8 b). by rewrite Ea, Eb.
    + apply bool_decide_eq_false_2. intros [= -> ->]. by apply Eb.
    + apply bool_decide_eq_false_2. intros [= -> ->]. by apply Ea.
    + apply bool_decide_eq_false_2. intros [= -> ->]. by apply Ea.
  - rewrite Nat2Z.id. rewrite (at_skip _ d _ _ Hc eq_refl). split; [done|exact He].
Qed.

Lemma extensions_loop es : Forall extension_ok es -> forall fuel r t, at_bytes r (extensions_body es) -> (length es < fuel)%nat ->
  loop fuel extension_step (r, t) =
  Ok (fold_left (fun t e => if fst e =? TLS_EXT_SUPPORTED_VERSIONS then bool_decide (snd e = of_zs [3; 4]) else t) es t).
Proof.
  induction 1 as [|e es He Hes IH]; intros fuel r t Ha Hf; (destruct fuel as [|fuel]; [cbn in Hf; lia|]); cbn [loop].
  - unfold extension_step. by rewrite (at_consumed _ _ Ha).
  - destruct (extension_step_cons r e es t Ha He) as (r' & -> & Ha'). cbn [mbind res_bind length] in *.
    rewrite IH by (done || lia). done.
Qed.

Lemma extensions_body_length es : (length es <= length (extensions_body es))%nat.
Proof.
  induction es as [|[ty d] es IH]; [done|]. unfold extensions_body in *. cbn [map concat]. rewrite length_app.
  unfold extension_bytes at 1. cbn [be_bytes fst snd]. cbn. lia.
Qed.

Lemma read_extensions_ok r es : Forall extension_ok es -> Z.of_nat (length (extensions_body es)) < 65536 ->
  at_bytes r (be_bytes 2 (Z.of_nat (length (extensions_body es))) ++ extensions_body es) ->
  read_extensions r = Ok (selects_tls13 es).
Proof.
  intros Hes Hl Ha. unfold read_extensions. rewrite (at_consumed _ _ Ha). rewrite bool_decide_eq_false_2 by done.
  pose proof (at_advance r (be_bytes 2 _) _ Ha) as Hb. rewrite length_be_bytes in Hb.
  rewrite (at_u16 _ _ _ _ Ha). cbn [mbind res_bind].
  assert (forall z, 0 <= z < 65536 -> be_value [to_u8 (z / 256 ^ Z.of_nat 1); to_u8 (z / 256 ^ Z.of_nat 0)] = z) as Hbe.
  { intros z Hz. exact (be_value_be_bytes_small 2 z Hz). }
  rewrite Hbe, Nat2Z.id, (at_remaining _ _ Hb), Nat.ltb_irrefl by lia.
  rewrite (at_slice _ (extensions_body es) [] _) by (rewrite ?app_nil_r; done). cbn [mbind res_bind].
  apply extensions_loop; [done|apply at_new|]. pose proof (extensions_body_length es). lia.
Qed.

(** A ServerHello is read as it was written: for a hello with a 32-byte
    random other than the HelloRetryRequest's, a session id of at most 32 bytes,
    any cipher, and extensions that fit their lengths ([supported_versions] with
    its two bytes), the parser gives back the random, the cipher, the length of
    the session id, and whether the last [supported_versions] selects TLS 1.3 -
    without extensions it does not. *)
Theorem server_hello_reads_back h : hello_ok h ->
  parse_server_hello (hello_frame h) =
  Ok (mkHello (h_random h) (h_cipher h) (Z.of_nat (length (h_session_id h)))
        match h_extensions h with Some es => selects_tls13 es | None => false end).
Proof.
  intros (Hr & Hretry & Hsid & Hc & He). set (n := Z.of_nat (length (hello_body h))).
  set (tail := match h_extensions h with
    | None => [] | Some es => be_bytes 2 (Z.of_nat (length (extensions_body es))) ++ extensions_body es end).
  assert (hello_body h = of_zs [3; 3] ++ h_random h ++ [to_u8 (Z.of_nat (length (h_session_id h)))] ++ h_session_id h
    ++ be_bytes 2 (h_cipher h) ++ [h_compression h] ++ tail) as Hbody by done.
  assert (38 <= n < 256 ^ Z.of_nat 3) as Hn.
  { subst n. rewrite Hbody, !length_app, Hr. cbn [length of_zs map]. rewrite length_be_bytes. subst tail.
    destruct (h_extensions h) as [es|]; [|cbn; lia]. rewrite length_app, length_be_bytes. destruct He as [_ He].
    change (256 ^ Z.of_nat 3) with 16777216. lia. }
  assert (at_bytes (new_reader (drop TLS_HEADER_LEN (hello_frame h))) ([to_u8 2] ++ be_bytes 3 n ++ hello_body h)) as A0 by apply at_new.
  unfold parse_server_hello. rewrite (proj2 (Nat.ltb_ge _ _)).
  2:{ unfold hello_frame. rewrite !length_app, !length_be_bytes. cbn [length of_zs map]. lia. }
  set (r0 := new_reader _) in *. clearbody r0. unfold hello_frame. cbn [of_zs map app index lookup list_lookup unwrap mbind res_bind].
  rewrite !val8_to_u8. cbn [Z.eqb negb orb]. change (22 mod 256 =? CONTENT_TYPE_HANDSHAKE) with true.
  change (3 mod 256 =? 3) with true. cbn [negb orb].
  rewrite (at_u8 _ _ _ A0). apply at_advance in A0. cbn [mbind res_bind length] in A0 |- *. rewrite val8_to_u8.
  change (2 mod 256 =? HANDSHAKE_TYPE_SERVER_HELLO) with true. cbn [negb].
  rewrite (at_u24 _ _ _ _ _ A0). apply at_advance in A0. rewrite length_be_bytes in A0. cbn [mbind res_bind].
  change (be_value _) with (be_value (be_bytes 3 n)). rewrite be_value_be_bytes_small by lia.
  rewrite (at_remaining _ _ A0). fold n. rewrite Z.ltb_irrefl. rewrite Hbody in A0.
  rewrite (at_u8 _ _ _ A0). apply (at_advance _ [to_u8 3]) in A0. cbn [mbind res_bind length] in A0 |- *.
  rewrite (at_u8 _ _ _ A0). apply (at_advance _ [to_u8 3]) in A0. cbn [mbind res_bind length] in A0 |- *.
  rewrite !val8_to_u8. change (3 mod 256 =? 3) with true. cbn [negb orb].
  rewrite (at_slice _ _ _ 32 A0 Hr). apply at_advance in A0. rewrite Hr in A0. cbn [mbind res_bind].
  rewrite bool_decide_eq_false_2 by done.
  rewrite (at_u8 _ _ _ A0). apply at_advance in A0. cbn [mbind res_bind length] in A0 |- *.
  rewrite val8_to_u8, Z.mod_small by lia. rewrite (proj2 (Z.ltb_ge _ _)), Nat2Z.id by lia.
  rewrite (at_skip _ _ _ _ A0 eq_refl). apply at_advance in A0. cbn [mbind res_bind].
  rewrite (at_u16 _ _ _ _ A0). apply at_advance in A0. rewrite length_be_bytes in A0. cbn [mbind res_bind].
  change (be_value _) with (be_value (be_bytes 2 (h_cipher h))). rewrite be_value_be_bytes_small by done.
  rewrite (at_skip _ [h_compression h] _ 1 A0 eq_refl). apply at_advance in A0. cbn [mbind res_bind length] in A0 |- *.
  subst tail. destruct (h_extensions h) as [es|].
  - destruct He as [Hes Hl]. by rewrite (read_extensions_ok _ es Hes Hl A0).
  - unfold read_extensions. by rewrite (at_consumed _ _ A0).
Qed.

Definition sample_hello : Hello :=
  mkServerHello (repeat (to_u8 7) 32) (of_zs [1; 2]) 4865 (to_u8 0) (Some [(51, of_zs [0; 29]); (43, of_zs [3; 4])]).

Lemma server_hello_reads_back_witness :
  parse_server_hello (hello_frame sample_hello) = Ok (mkHello (repeat (to_u8 7) 32) 4865 2 true).
Proof.
  apply (server_hello_reads_back sample_hello). split; [reflexivity|]. split; [by vm_compute|]. split; [vm_compute; lia|].
  split; [cbn; lia|]. split; [|vm_compute; reflexivity].
  apply Forall_cons_2; [|apply Forall_singleton]; (split; [cbn; lia|]); (split; [cbn; lia|]); intros _; reflexivity.
Defined.

(** ** What the filter decides *)

(** The records the filter looks at, one after the other, until it stops: [n]
    more may be looked at; a record without a header ends it, and so does the
    first ServerHello, whose version and cipher are the answer. *)
Fixpoint xtls_answer (n : nat) (records : list bytes) : bool :=
  match n, records with
  | O, _ | _, [] => false
  | S n, r :: records =>
      if (length r <? 5)%nat then false
      else if is_server_hello r then
        match parse_server_hello r with
        | Ok p => is_tls13 p && negb (cipher_suite p =? TLS13_CIPHER_AES_128_CCM_8_SHA256)
        | _ => false
        end
      else xtls_answer n records
  end.

(** Once a ServerHello was seen, or the count is used up, nothing changes. *)
Lemma filter_settled records : forall f, is_tls12_or_above f = true \/ record_filter_count f = O ->
  supports_xtls (fold_left filter_record records f) = supports_xtls f.
Proof.
  induction records as [|r records IH]; intros f H; [done|]. cbn [fold_left]. rewrite IH.
  - unfold filter_record. destruct f as [n t t12 x]. cbn in *. destruct (Nat.eqb_spec n 0); [done|].
    destruct H as [->|]; [|lia]. destruct (length r <=? 4)%nat; [done|]. destruct (negb t && _); done.
  - unfold filter_record. destruct f as [n t t12 x]. cbn in *. destruct (Nat.eqb_spec n 0); [by right|].
    destruct H as [->|]; [|lia]. left. destruct (length r <=? 4)%nat; [done|]. by destruct (negb t && _).
Qed.

(** One record, while no ServerHello was seen. *)
Lemma filter_record_step n t x r : let g := filter_record (mkFilter (S n) t false x) r in
  if (length r <? 5)%nat then record_filter_count g = O /\ supports_xtls g = x
  else if is_server_hello r then is_tls12_or_above g = true /\ supports_xtls g = x || xtls_answer 1 [r]
  else is_tls12_or_above g = false /\ record_filter_count g = n /\ supports_xtls g = x.
Proof.
  cbv zeta. unfold filter_record. cbn [record_filter_count Nat.eqb]. cbn [xtls_answer].
  destruct (length r <? 5)%nat; [done|].
  set (f1 := if negb _ && is_client_hello r then _ else _).
  assert (is_tls12_or_above f1 = false /\ record_filter_count f1 = n /\ supports_xtls f1 = x) as (H1 & H2 & H3).
  { subst f1. destruct (_ && _); cbn; rewrite ?Nat.sub_0_r; done. }
  rewrite H1. cbn [negb andb]. destruct (is_server_hello r); [|done].
  pose proof (parse_server_hello_no_panic r) as Hnp. destruct (parse_server_hello r) as [p|e|]; [| |done].
  - destruct (is_tls13 p); cbn [andb]; [|cbn; by rewrite H3, orb_false_r].
    destruct (_ =? _); cbn; rewrite ?H3, ?orb_false_r, ?orb_true_r; done.
  - cbn. by rewrite H3, orb_false_r.
Qed.

Lemma filter_answer records : forall f, is_tls12_or_above f = false ->
  supports_xtls (fold_left filter_record records f) = supports_xtls f || xtls_answer (record_filter_count f) records.
Proof.
  induction records as [|r records IH]; intros [n t t12 x] H; cbn in H; subst t12.
  { cbn. destruct n; by rewrite orb_false_r. }
  cbn [fold_left]. destruct n as [|n]; [rewrite filter_settled by (by right); cbn; by rewrite orb_false_r|].
  pose proof (filter_record_step n t x r) as Hs. cbv zeta in Hs. set (g := filter_record _ r) in *.
  cbn [xtls_answer record_filter_count supports_xtls] in *. destruct (length r <? 5)%nat; [|destruct (is_server_hello r)].
  - destruct Hs as [Hc Hx]. rewrite filter_settled, Hx by (by right). by rewrite orb_false_r.
  - destruct Hs as [Hc Hx]. by rewrite filter_settled, Hx by (by left).
  - destruct Hs as (Hc & Hn & Hx). by rewrite IH, Hn, Hx.
Qed.

(** The filter opens the direct mode exactly when it should: after any
    sequence of records a new filter supports XTLS if and only if, among the
    first eight records and before any record shorter than a header, the first
    ServerHello parses, selects TLS 1.3 and its cipher is not
    TLS_AES_128_CCM_8_SHA256. What comes after that ServerHello, or after the
    eighth record, has no influence. *)
Theorem filter_decides records :
  supports_xtls (fold_left filter_record records new_filter) = xtls_answer 8 records.
Proof. by rewrite filter_answer. Qed.
