(* ===== verification/Outbound.v ===== *)
(** * Outbounds and the bridge from imported profiles
    ([crates/net/src/outbound.rs], types; [from_profile.rs]; [Method] of
    [shadowsocks/crypto.rs]; [vless.rs], UUIDs; [wireguard/config.rs]) *)

From S2P Require Import Prelude RustStr NetAddr Model Base64 Uri Link.

(** ** Shadowsocks methods *)

Inductive Method : Type :=
| Aes128Gcm
| Aes256Gcm
| Chacha20IetfPoly1305
| Ss2022Aes128Gcm
| Ss2022Aes256Gcm
| Ss2022Chacha20Poly1305.

#[export] Instance Method_eq_dec : EqDecision Method.
Proof. solve_decision. Defined.

(** [Method::from_name] *)
Definition method_names : list (str * Method) :=
  [(lit "aes-128-gcm", Aes128Gcm); (lit "aes-256-gcm", Aes256Gcm);
   (lit "chacha20-ietf-poly1305", Chacha20IetfPoly1305); (lit "chacha20-poly1305", Chacha20IetfPoly1305);
   (lit "2022-blake3-aes-128-gcm", Ss2022Aes128Gcm); (lit "2022-blake3-aes-256-gcm", Ss2022Aes256Gcm);
   (lit "2022-blake3-chacha20-poly1305", Ss2022Chacha20Poly1305)].

Definition method_from_name (s : str) : option Method := assoc method_names (to_ascii_lowercase s).

Definition key_len (m : Method) : nat :=
  match m with Aes128Gcm | Ss2022Aes128Gcm => 16 | _ => 32 end%nat.

Definition salt_len (m : Method) : nat := key_len m.

Definition is_2022 (m : Method) : bool :=
  match m with Ss2022Aes128Gcm | Ss2022Aes256Gcm | Ss2022Chacha20Poly1305 => true | _ => false end.

Definition is_chacha2022 (m : Method) : bool := match m with Ss2022Chacha20Poly1305 => true | _ => false end.

(** ** UUIDs *)

(** [char::to_digit(16)] of an ASCII byte *)
Definition to_digit16 (c : u8) : option Z := to_digit 16 c.

Fixpoint hex_pairs (hex : bytes) : option bytes :=
  match hex with
  | a :: b :: rest => hi ← to_digit16 a; lo ← to_digit16 b; out ← hex_pairs rest; Some (to_u8 (hi * 16 + lo) :: out)
  | _ => Some []
  end.

(** [vless::parse_uuid] *)
Definition parse_uuid (s : str) : option bytes :=
  let hex := filter (fun c => c <> "-"%char) s in
  if negb (length hex =? 32)%nat then None else hex_pairs hex.

(** ** WireGuard parameters *)

Record AwgObfuscation : Type := mkAwg {
  jc : Z; jmin : Z; jmax : Z; s1 : Z; s2 : Z; h1 : Z; h2 : Z; h3 : Z; h4 : Z
}.

#[export] Instance AwgObfuscation_eq_dec : EqDecision AwgObfuscation.
Proof. solve_decision. Defined.

(** [AwgObfuscation::is_identity] *)
Definition is_identity (a : AwgObfuscation) : bool :=
  (jc a =? 0) && (s1 a =? 0) && (s2 a =? 0) && (h1 a =? 1) && (h2 a =? 2) && (h3 a =? 3) && (h4 a =? 4).

Record WgParams : Type := mkWg {
  wg_endpoint : str;
  wg_private_key : bytes;
  wg_peer_public_key : bytes;
  wg_preshared_key : option bytes;
  wg_address : list (IpAddr * Z);
  wg_dns : list IpAddr;
  wg_keepalive : option Z;
  wg_awg : option AwgObfuscation
}.

(** [decode_key] *)
Definition decode_key (s : str) : option bytes :=
  v ← res_ok (decode_loose s); if (length v =? 32)%nat then Some v else None.

(** One part of the CSV of [parse_addresses]; [None] skips it. *)
Definition parse_address_part (part : str) : option (IpAddr * Z) :=
  let part := trim part in
  if is_nil part then None
  else match split_once "/"%char part with
       | Some (ip, p) => ip ← parse_ip (trim ip); p ← parse_u8 (trim p); Some (ip, p)
       | None => ip ← parse_ip part; Some (ip, if is_ipv4 ip then 32 else 128)
       end.

Fixpoint filter_map {A B} (f : A -> option B) (l : list A) : list B :=
  match l with
  | [] => []
  | x :: l => match f x with Some y => y :: filter_map f l | None => filter_map f l end
  end.

Definition parse_addresses (csv : str) : list (IpAddr * Z) := filter_map parse_address_part (split_char ","%char csv).

Definition parse_ip_list (csv : str) : list IpAddr := filter_map (fun p => parse_ip (trim p)) (split_char ","%char csv).

(** ** Outbounds; the descriptors of WireGuard, TUIC and Hysteria2 hold their
    parameters and a tunnel started at the first connection, which is left out *)

Record RealityTransport : Type := mkReality { rt_public_key : str; rt_short_id : str; rt_server_name : str }.
Inductive Transport : Type := TransportTcp | TransportReality (rt : RealityTransport).
Record ProxyConfig : Type := mkProxy { px_server : str; px_username : option str; px_password : option str }.
Record SsTls : Type := mkSsTls { st_sni : str; st_alpn : list str; st_insecure : bool }.
Record ShadowsocksConfig : Type := mkSs { ss_server : str; ss_method : Method; ss_password : str; ss_tls : option SsTls }.
Record VlessConfig : Type := mkVless {
  vl_server : str; vl_uuid : bytes; vl_flow : option str; vl_transport : Transport; vl_encryption : option str }.
Record TrojanConfig : Type := mkTrojan { tj_server : str; tj_password : str; tj_transport : Transport }.
Record TuicParams : Type := mkTuic {
  tu_server : str; tu_uuid : bytes; tu_password : str; tu_sni : option str; tu_insecure : bool; tu_alpn : list bytes }.
Record Hysteria2Params : Type := mkHy2 { hy_server : str; hy_auth : str; hy_sni : option str; hy_insecure : bool }.

Inductive Outbound : Type :=
| ODirect
| OSocks5 (c : ProxyConfig)
| OHttp (c : ProxyConfig)
| OVless (c : VlessConfig)
| OShadowsocks (c : ShadowsocksConfig)
| OTrojan (c : TrojanConfig)
| OWireguard (c : WgParams)
| OTuic (c : TuicParams)
| OHysteria2 (c : Hysteria2Params).

#[export] Instance Outbound_eq_dec : EqDecision Outbound.
Proof.
  assert (EqDecision RealityTransport) by solve_decision. assert (EqDecision Transport) by solve_decision.
  assert (EqDecision ProxyConfig) by solve_decision. assert (EqDecision SsTls) by solve_decision.
  assert (EqDecision ShadowsocksConfig) by solve_decision. assert (EqDecision VlessConfig) by solve_decision.
  assert (EqDecision TrojanConfig) by solve_decision. assert (EqDecision TuicParams) by solve_decision.
  assert (EqDecision Hysteria2Params) by solve_decision. assert (EqDecision WgParams) by solve_decision.
  solve_decision.
Defined.

(** ** [outbound_from_profile] *)

Inductive ProfileError : Type :=
| PMissingField (field : str)
| PBadUuid
| PUnsupportedMethod (name : str)
| PBadKey (field : str)
| PUnsupported (p : ProtocolKind).

(** [impl Display for ProfileError] *)
Definition show_profile_error (e : ProfileError) : str :=
  match e with
  | PMissingField s => "отсутствует поле: " ++ s
  | PBadUuid => "некорректный uuid"
  | PUnsupportedMethod s => "неизвестный метод shadowsocks: " ++ s
  | PBadKey k => "некорректный ключ: " ++ k
  | PUnsupported p => "протокол пока не поддержан: " ++ protocol_as_str p
  end.

(** [p.param(key).ok_or(MissingField(key))] *)
Definition required (p : ServerProfile) (key : str) : res ProfileError str := ok_or (sp_param p key) (PMissingField key).

(** [a.or_else(|| b)] *)
Definition or_else {A} (a b : option A) : option A := match a with Some x => Some x | None => b end.

Definition non_empty (s : str) : option str := match s with [] => None | _ => Some s end.

(** The comma-separated names of an ALPN list. *)
Definition alpn_names (s : str) : list str :=
  filter (fun a => a <> []) (map trim (split_char ","%char s)).

(** [matches!(opt, Some(a) | Some(b))] *)
Definition one_of (o : option str) (l : list str) : bool :=
  match o with Some s => bool_decide (s ∈ l) | None => false end.

Definition ss_outbound (p : ServerProfile) (server : str) : res ProfileError Outbound :=
  method_name ← required p "method";
  method ← ok_or (method_from_name method_name) (PUnsupportedMethod method_name);
  password ← required p "password";
  let tls :=
    if bool_decide (sp_param p "security" = Some (lit "tls")) then
      Some (mkSsTls (default (sp_address p) (sp_param p "sni" ≫= non_empty))
                    (default [] (alpn_names <$> sp_param p "alpn"))
                    (negb (one_of (or_else (sp_param p "allow_insecure") (sp_param p "insecure")) [lit "0"; lit "false"])))
    else None in
  Ok (OShadowsocks (mkSs server method password tls)).

Definition vless_outbound (p : ServerProfile) (server : str) : res ProfileError Outbound :=
  uuid_str ← required p "uuid";
  uuid ← ok_or (parse_uuid uuid_str) PBadUuid;
  let transport :=
    if bool_decide (sp_param p "security" = Some (lit "reality")) then
      TransportReality (mkReality (default [] (sp_param p "pbk")) (default [] (sp_param p "sid"))
                                  (default [] (or_else (sp_param p "sni") (sp_param p "host"))))
    else TransportTcp in
  let encryption :=
    match sp_param p "encryption" with
    | Some e => if bool_decide (e = []) || bool_decide (e = lit "none") then None else Some e
    | None => None
    end in
  Ok (OVless (mkVless server uuid (sp_param p "flow") transport encryption)).

(** [p.param(k).and_then(|v| v.parse().ok()).unwrap_or(default)] for a [u32] *)
Definition awg_number (p : ServerProfile) (k : str) (dflt : Z) : Z :=
  default dflt (sp_param p k ≫= parse_uint (2 ^ 32 - 1)).

Definition awg_params (p : ServerProfile) : AwgObfuscation :=
  mkAwg (awg_number p "jc" 0) (awg_number p "jmin" 0) (awg_number p "jmax" 0) (awg_number p "s1" 0) (awg_number p "s2" 0)
        (awg_number p "h1" 1) (awg_number p "h2" 2) (awg_number p "h3" 3) (awg_number p "h4" 4).

Definition wg_key (p : ServerProfile) (k : str) : res ProfileError bytes :=
  s ← required p k; ok_or (decode_key s) (PBadKey k).

Definition wireguard_outbound (p : ServerProfile) (server : str) : res ProfileError Outbound :=
  private_key ← wg_key p "private_key";
  peer_public_key ← wg_key p "public_key";
  preshared_key ← (match sp_param p "preshared_key" with
                   | Some s => k ← ok_or (decode_key s) (PBadKey "preshared_key"); Ok (Some k)
                   | None => Ok None
                   end);
  address_str ← required p "address";
  let address := parse_addresses address_str in
  if is_nil address then Err (PMissingField "address") else
  let dns := default [] (parse_ip_list <$> sp_param p "dns") in
  let persistent_keepalive := sp_param p "persistent_keepalive" ≫= parse_u16 in
  let awg := if bool_decide (sp_protocol p = AmneziaWg) then Some (awg_params p) else None in
  Ok (OWireguard (mkWg server private_key peer_public_key preshared_key address dns persistent_keepalive awg)).

(** [insecure] of the QUIC protocols: the one given first decides. *)
Definition quic_insecure (p : ServerProfile) : bool :=
  one_of (or_else (sp_param p "insecure") (sp_param p "allow_insecure")) [lit "1"; lit "true"].

Definition tuic_outbound (p : ServerProfile) (server : str) : res ProfileError Outbound :=
  uuid_str ← required p "uuid";
  uuid ← ok_or (parse_uuid uuid_str) PBadUuid;
  password ← required p "password";
  let alpn := match alpn_names <$> sp_param p "alpn" with Some (a :: l) => a :: l | _ => [lit "h3"] end in
  Ok (OTuic (mkTuic server uuid password (sp_param p "sni") (quic_insecure p) alpn)).

Definition hysteria2_outbound (p : ServerProfile) (server : str) : res ProfileError Outbound :=
  if (match sp_param p "obfs" with Some (_ :: _) => true | _ => false end) then Err (PUnsupported Hysteria2) else
  auth ← ok_or (or_else (sp_param p "auth") (sp_param p "password")) (PMissingField "auth");
  Ok (OHysteria2 (mkHy2 server auth (sp_param p "sni") (quic_insecure p))).

Definition outbound_from_profile (p : ServerProfile) : res ProfileError Outbound :=
  let server := sp_address p ++ ":" ++ show_uint (sp_port p) in
  match sp_protocol p with
  | Shadowsocks => ss_outbound p server
  | Vless => vless_outbound p server
  | Trojan => password ← required p "password"; Ok (OTrojan (mkTrojan server password TransportTcp))
  | Socks5 => Ok (OSocks5 (mkProxy server (sp_param p "username") (sp_param p "password")))
  | Http => Ok (OHttp (mkProxy server (sp_param p "username") (sp_param p "password")))
  | Wireguard | AmneziaWg => wireguard_outbound p server
  | Tuic => tuic_outbound p server
  | Hysteria2 => hysteria2_outbound p server
  end.

(** [host_of] of [hysteria2/config.rs] and [Hysteria2Params::authority_host] *)
Definition host_of (server : str) : str :=
  let host := match strip_prefix "[" server with
              | Some rest => default server (head (split_char "]"%char rest))
              | None => default server (fst <$> rsplit_once ":"%char server)
              end in
  if is_nil host then server else host.

Definition authority_host (p : Hysteria2Params) : str := default (host_of (hy_server p)) (hy_sni p).

(** ** UUIDs as text *)

(** Two lower-case hexadecimal digits per byte. *)
Definition hex_of (u : bytes) : str := concat (map (fun b => [hex_char (val8 b / 16); hex_char (val8 b mod 16)]) u).

(** A digit and the lower-case character that stands for it, on all bytes. *)
Lemma to_digit16_table c :
  match to_digit16 c with
  | Some d => (0 <=? d) && (d <? 16) && bool_decide (lower_byte c = hex_char d)
  | None => forallb (fun d => negb (bool_decide (lower_byte c = hex_char d))) (map Z.of_nat (seq 0 16))
  end = true.
Proof. destruct c as [[] [] [] [] [] [] [] []]; vm_compute; reflexivity. Qed.

Lemma hex_char_inj d e : 0 <= d < 16 -> 0 <= e < 16 -> hex_char d = hex_char e -> d = e.
Proof.
  intros Hd He H. apply (f_equal val8) in H. unfold hex_char in H. rewrite !val8_to_u8 in H.
  destruct (Z.ltb_spec d 10), (Z.ltb_spec e 10); rewrite !Z.mod_small in H by lia; lia.
Qed.

Lemma to_digit16_char c d : to_digit16 c = Some d <-> 0 <= d < 16 /\ lower_byte c = hex_char d.
Proof.
  pose proof (to_digit16_table c) as H. destruct (to_digit16 c) as [e|].
  - apply andb_true_iff in H as [[H1%Z.leb_le H2%Z.ltb_lt]%andb_true_iff H3%bool_decide_eq_true]. split.
    + intros [= <-]. done.
    + intros [Hd Hc]. f_equal. apply hex_char_inj; [lia..|congruence].
  - split; [done|]. intros [Hd Hc]. rewrite forallb_forall in H.
    specialize (H d). rewrite Hc, bool_decide_eq_true_2 in H by done. discriminate H.
    apply in_map_iff. exists (Z.to_nat d). split; [lia|]. apply in_seq. lia.
Qed.

Lemma hex_of_cons b u : hex_of (b :: u) = [hex_char (val8 b / 16); hex_char (val8 b mod 16)] ++ hex_of u.
Proof. done. Qed.

Lemma byte_nibbles hi lo : 0 <= hi < 16 -> 0 <= lo < 16 ->
  val8 (to_u8 (hi * 16 + lo)) / 16 = hi /\ val8 (to_u8 (hi * 16 + lo)) mod 16 = lo.
Proof. intros. rewrite val8_to_u8, Z.mod_small by lia. dlia. Qed.

Lemma hex_pairs_spec n : forall hex u, length hex = (2 * n)%nat ->
  hex_pairs hex = Some u <-> length u = n /\ to_ascii_lowercase hex = hex_of u.
Proof.
  induction n as [|n IH]; intros hex u Hl.
  - destruct hex; [|done]. cbn. split; [by intros [= <-]|]. intros [Hu _]. by destruct u.
  - destruct hex as [|a [|b hex]]; cbn [length] in Hl; [lia..|]. cbn [hex_pairs]. split.
    + intros H. destruct (to_digit16 a) as [hi|] eqn:Ea; [|done]. destruct (to_digit16 b) as [lo|] eqn:Eb; [|done].
      cbn in H. destruct (hex_pairs hex) as [v|] eqn:Ev; [|done]. injection H as <-.
      apply IH in Ev as [Hv Hh]; [|lia]. apply to_digit16_char in Ea as [Ha Ea]. apply to_digit16_char in Eb as [Hb Eb].
      destruct (byte_nibbles hi lo Ha Hb) as [H1 H2]. split; [cbn; lia|].
      cbn [to_ascii_lowercase map]. rewrite hex_of_cons, H1, H2. cbn [app]. unfold to_ascii_lowercase in Hh. by rewrite Ea, Eb, Hh.
    + intros [Hu Hh]. destruct u as [|c u]; [done|]. rewrite hex_of_cons in Hh. cbn [to_ascii_lowercase map app] in Hh.
      injection Hh as Ha Hb Hh. pose proof (val8_range c) as Hc.
      rewrite (proj2 (to_digit16_char a (val8 c / 16))) by (split; [dlia|done]).
      rewrite (proj2 (to_digit16_char b (val8 c mod 16))) by (split; [dlia|done]). cbn.
      rewrite (proj2 (IH hex u ltac:(lia))) by (split; [cbn in Hu; lia|done]). cbn. do 2 f_equal.
      rewrite Z.mul_comm, <- Z.div_mod by lia. apply to_u8_val8.
Qed.

Lemma length_hex_of u : length (hex_of u) = (2 * length u)%nat.
Proof. induction u as [|b u IH]; [done|]. rewrite hex_of_cons, length_app, IH. cbn. lia. Qed.

(** A UUID is its 32 hexadecimal digits, wherever the hyphens are and
    whatever the case: the text parses to [u] if and only if [u] has 16 bytes and
    the text without its hyphens, in lower case, is [u] in hexadecimal. *)
Theorem uuid_text (s : str) (u : bytes) :
  parse_uuid s = Some u <->
  length u = 16%nat /\ to_ascii_lowercase (filter (fun c => c <> "-"%char) s) = hex_of u.
Proof.
  unfold parse_uuid. set (hex := filter _ s). destruct (Nat.eqb_spec (length hex) 32) as [Hl|Hl]; cbn [negb].
  - by apply (hex_pairs_spec 16).
  - split; [done|]. intros [Hu Hh]. apply (f_equal length) in Hh. unfold to_ascii_lowercase in Hh.
    rewrite length_hex_of, length_map in Hh. lia.
Qed.

(** ** From a link to a connection *)

(** The protocol an outbound speaks and the server it connects to. *)
Definition outbound_protocol (o : Outbound) : option ProtocolKind :=
  match o with
  | ODirect => None
  | OSocks5 _ => Some Socks5
  | OHttp _ => Some Http
  | OVless _ => Some Vless
  | OShadowsocks _ => Some Shadowsocks
  | OTrojan _ => Some Trojan
  | OWireguard w => Some (if wg_awg w then AmneziaWg else Wireguard)
  | OTuic _ => Some Tuic
  | OHysteria2 _ => Some Hysteria2
  end.

Definition outbound_server (o : Outbound) : option str :=
  match o with
  | ODirect => None
  | OSocks5 c | OHttp c => Some (px_server c)
  | OVless c => Some (vl_server c)
  | OShadowsocks c => Some (ss_server c)
  | OTrojan c => Some (tj_server c)
  | OWireguard c => Some (wg_endpoint c)
  | OTuic c => Some (tu_server c)
  | OHysteria2 c => Some (hy_server c)
  end.

#[local] Arguments lit : simpl never.
#[local] Arguments method_from_name : simpl never.
#[local] Arguments parse_uuid : simpl never.
#[local] Arguments decode_key : simpl never.
#[local] Arguments parse_addresses : simpl never.

(** What can be wrong with a profile, protocol by protocol. *)
Definition profile_errors (p : ServerProfile) : list ProfileError :=
  let missing k := match sp_param p k with None => [PMissingField k] | Some _ => [] end in
  let bad_uuid := match sp_param p "uuid" ≫= parse_uuid with None => [PBadUuid] | Some _ => [] end in
  let bad_key k := match sp_param p k with Some s => if decode_key s then [] else [PBadKey k] | None => [] end in
  match sp_protocol p with
  | Shadowsocks => missing "method"
      ++ match sp_param p "method" with
         | Some m => if method_from_name m then [] else [PUnsupportedMethod m] | None => [] end
      ++ missing "password"
  | Vless => missing "uuid" ++ bad_uuid
  | Trojan => missing "password"
  | Socks5 | Http => []
  | Wireguard | AmneziaWg =>
      missing "private_key" ++ bad_key "private_key" ++ missing "public_key" ++ bad_key "public_key"
      ++ bad_key "preshared_key" ++ missing "address"
      ++ (if is_nil (default [] (parse_addresses <$> sp_param p "address")) then [PMissingField "address"] else [])
  | Tuic => missing "uuid" ++ bad_uuid ++ missing "password"
  | Hysteria2 =>
      match sp_param p "obfs" with Some (_ :: _) => [PUnsupported Hysteria2] | _ => [] end
      ++ match or_else (sp_param p "auth") (sp_param p "password") with None => [PMissingField "auth"] | Some _ => [] end
  end.

(** The outcome is decided by the first thing that is wrong. *)
Lemma outbound_outcome p :
  match head (profile_errors p) with
  | Some e => outbound_from_profile p = Err e
  | None => exists o, outbound_from_profile p = Ok o /\ outbound_protocol o = Some (sp_protocol p) /\
                      outbound_server o = Some (sp_address p ++ ":" ++ show_uint (sp_port p))
  end.
Proof.
  unfold profile_errors, outbound_from_profile, required.
  destruct (sp_protocol p) eqn:Ep; unfold vless_outbound, ss_outbound, wireguard_outbound, tuic_outbound, hysteria2_outbound, wg_key, required.
  - destruct (sp_param p "uuid") as [u|]; cbn; [|done]. destruct (parse_uuid u); cbn; [|done]. by eexists.
  - destruct (sp_param p "method") as [m|]; cbn; [|done]. destruct (method_from_name m); cbn; [|done].
    destruct (sp_param p "password"); cbn; [|done]. by eexists.
  - destruct (sp_param p "password"); cbn; [|done]. by eexists.
  - destruct (sp_param p "private_key") as [a|]; cbn; [|done]. destruct (decode_key a); cbn; [|done].
    destruct (sp_param p "public_key") as [b|]; cbn; [|done]. destruct (decode_key b); cbn; [|done].
    destruct (sp_param p "preshared_key") as [c|]; cbn; [destruct (decode_key c); cbn; [|done]|];
      (destruct (sp_param p "address") as [d|]; cbn; [|done]); (destruct (is_nil _); cbn; [done|]);
      rewrite bool_decide_eq_false_2 by congruence; by eexists.
  - destruct (sp_param p "private_key") as [a|]; cbn; [|done]. destruct (decode_key a); cbn; [|done].
    destruct (sp_param p "public_key") as [b|]; cbn; [|done]. destruct (decode_key b); cbn; [|done].
    destruct (sp_param p "preshared_key") as [c|]; cbn; [destruct (decode_key c); cbn; [|done]|];
      (destruct (sp_param p "address") as [d|]; cbn; [|done]); (destruct (is_nil _); cbn; [done|]);
      rewrite bool_decide_eq_true_2 by done; by eexists.
  - by eexists.
  - by eexists.
  - destruct (sp_param p "obfs") as [[|? ?]|]; cbn; [|done|];
      (destruct (or_else _ _); cbn; [by eexists|done]).
  - destruct (sp_param p "uuid") as [u|]; cbn; [|done]. destruct (parse_uuid u); cbn; [|done].
    destruct (sp_param p "password"); cbn; [by eexists|done].
Qed.

(** What a share link gives: any link that is accepted becomes, through
    [outbound_from_profile], an outbound of the link's own protocol to the link's
    own host and port, or fails for the first reason of [profile_errors]; no
    field that the link parser guarantees is ever missing: a Shadowsocks link
    fails only for its method, a VLESS link only for its UUID, a Trojan, SOCKS or
    HTTP link never. *)
Theorem link_gives_outbound (s : str) (q : ServerProfile) (Hq : parse_link s = Ok q) :
  match outbound_from_profile q with
  | Ok o => profile_errors q = [] /\ outbound_protocol o = Some (sp_protocol q) /\
            outbound_server o = Some (sp_address q ++ ":" ++ show_uint (sp_port q))
  | Err e => head (profile_errors q) = Some e /\
      match sp_protocol q with
      | Shadowsocks => exists m, e = PUnsupportedMethod m /\ method_from_name m = None
      | Vless => e = PBadUuid
      | Tuic => e = PBadUuid \/ e = PMissingField "password"
      | Hysteria2 => e = PUnsupported Hysteria2 \/ e = PMissingField "auth"
      | _ => False
      end
  | Panic => False
  end.
Proof.
  destruct (parse_link_cases s) as [[e He]|[k Hk]]; [congruence|]. rewrite Hk in Hq.
  destruct (parser_sound k (trim s)) as [_ Hs]. destruct (Hs q Hq) as (Hp & _ & _ & _ & Hf).
  assert (k <> Wireguard /\ k <> AmneziaWg) as [Hw1 Hw2] by (by split; intros ->; cbn in Hq).
  pose proof (outbound_outcome q) as Ho. destruct (head (profile_errors q)) as [e|] eqn:Eh.
  - rewrite Ho. split; [done|]. unfold profile_errors in Eh. rewrite Hp in *. unfold sp_param in Eh.
    destruct k; try done.
    + destruct (Hf "uuid") as [u Hu]; [by left|]. rewrite Hu in Eh. cbn in Eh. destruct (parse_uuid u); cbn in Eh; by simplify_eq.
    + destruct (Hf "method") as [m Hm]; [by left|]. destruct (Hf "password") as [w Hw]; [by right; left|].
      rewrite Hm, Hw in Eh. cbn in Eh. destruct (method_from_name m) eqn:E; cbn in Eh; simplify_eq. by exists m.
    + destruct (Hf "password") as [w Hw]; [by left|]. by rewrite Hw in Eh.
    + destruct (sp_params q !! _) as [[|]|]; cbn in Eh; try (injection Eh as <-; by left);
        (destruct (or_else _ _); cbn in Eh; simplify_eq; by right).
    + destruct (Hf "uuid") as [u Hu]; [by left|]. rewrite Hu in Eh. cbn in Eh. destruct (parse_uuid u); cbn in Eh; [|simplify_eq; by left].
      destruct (sp_params q !! _); cbn in Eh; simplify_eq. by right.
  - destruct Ho as (o & -> & H1 & H2). split; [by destruct (profile_errors q)|]. done.
Qed.

(** Links without credentials that are accepted though nothing can be dialled
    with them. *)
Definition link_outcome (s : str) : option (res ProfileError Outbound) := outbound_from_profile <$> res_ok (parse_link s).

Lemma incomplete_links_accepted :
  link_outcome "tuic://00000000-0000-0000-0000-000000000000@h:443" = Some (Err (PMissingField "password"))
  /\ link_outcome "hysteria2://h:443" = Some (Err (PMissingField "auth")).
Proof. vm_compute. by split. Qed.

Lemma link_gives_outbound_witness :
  match outbound_from_profile {| sp_name := "n"; sp_protocol := Trojan; sp_address := "h.example"; sp_port := 443;
     sp_params := {["password" : str := "pw" : str]}; sp_tags := [] |} with
  | Ok o => outbound_server o = Some (lit "h.example:443")
  | _ => False
  end.
Proof.
  pose proof (link_gives_outbound "trojan://pw@h.example:443#n" {| sp_name := "n"; sp_protocol := Trojan; sp_address := "h.example"; sp_port := 443;
     sp_params := {["password" : str := "pw" : str]}; sp_tags := [] |}) as H.
  assert (parse_link "trojan://pw@h.example:443#n" = Ok {| sp_name := "n"; sp_protocol := Trojan; sp_address := "h.example"; sp_port := 443;
     sp_params := {["password" : str := "pw" : str]}; sp_tags := [] |}) as Hp by (vm_compute; reflexivity).
  specialize (H Hp). vm_compute in H |- *. exact (proj2 (proj2 H)).
Defined.
