(* ===== verification/Engine.v ===== *)
(** * The tunnel engine: from a target to an outbound
    ([crates/net/src/engine.rs], routing; [dns/mod.rs], [DnsServer])

    The engine holds named outbounds, rules and optional services. [route]
    decides a connection: FakeIP is reversed first, then the rules are tried in
    order, a domain being resolved at most once and only when a rule asks for
    an address; a resolution that fails never opens a blocked destination.
    The resolver is an argument of [route] (its state is [DnsResolver.v]), the
    loading of the geo files an argument of [from_config]. *)

From S2P Require Import Prelude RustStr NetAddr Model Cidr Split Domain Routing Protobuf Geo FakeIp NetIo Config Link Outbound.

(** ** DNS servers: [DnsServer], [dns_server_from_config] *)

Inductive DnsServer : Type :=
| DnsUdp (server : SocketAddr)
| DnsDot (server : SocketAddr) (sni : str)
| DnsDoh (url : str).

(** [s.parse::<SocketAddr>().ok()]: an IPv4 address and a port, or a bracketed
    IPv6 address with an optional scope (which the model drops) and a port. *)
Definition read_port (s : str) : option Z :=
  s ← strip_prefix ":" s;
  '(p, r) ← read_number 10 (length s) true 65535 s;
  match r with [] => Some p | _ => None end.

Definition read_scope (s : str) : option str :=
  match strip_prefix "%" s with
  | Some s' => match read_number 10 (length s') true (2 ^ 32 - 1) s' with Some (_, r) => Some r | None => Some s end
  | None => Some s
  end.

Definition parse_socket (s : str) : option SocketAddr :=
  match (match read_ipv4 s with Some (a, r) => p ← read_port r; Some {| sa_ip := V4 a; sa_port := p |} | None => None end) with
  | Some a => Some a
  | None =>
      s ← strip_prefix "[" s;
      '(a, r) ← read_ipv6 s;
      r ← read_scope r;
      r ← strip_prefix "]" r;
      p ← read_port r;
      Some {| sa_ip := V6 a; sa_port := p |}
  end.

Definition dns_server_from_config (c : DnsServerConfig) : option DnsServer :=
  match c with
  | Udp server => DnsUdp <$> parse_socket server
  | Dot server sni => (fun s => DnsDot s sni) <$> parse_socket server
  | Doh url => Some (DnsDoh url)
  end.

(** ** The engine *)

Inductive Decision : Type :=
| Connect (o : Outbound)
| Refuse.

Record Routed : Type := mkRouted {
  rd_decision : Decision;
  rd_target : Target;
  chosen_node : option str;
  fallback : option Outbound;
  fallback_name : option str
}.

Record Engine : Type := mkEngine {
  outbounds : gmap str Outbound;
  default_proxy : option str;
  rules : list Rule;
  default_action : RouteAction;
  resolver : option DnsServer;
  fakeip : option FakeIp;
  geosite : option GeoSiteDb;
  geoip : option GeoIpDb
}.

(** [Engine::new] and the [with_] methods *)
Definition engine_new (obs : gmap str Outbound) (dp : option str) (rs : list Rule) (da : RouteAction) : Engine :=
  mkEngine obs dp rs da None None None None.

Definition with_resolver (e : Engine) (r : DnsServer) : Engine :=
  mkEngine (outbounds e) (default_proxy e) (rules e) (default_action e) (Some r) (fakeip e) (geosite e) (geoip e).
Definition with_fakeip (e : Engine) (f : FakeIp) : Engine :=
  mkEngine (outbounds e) (default_proxy e) (rules e) (default_action e) (resolver e) (Some f) (geosite e) (geoip e).
Definition with_geosite (e : Engine) (db : GeoSiteDb) : Engine :=
  mkEngine (outbounds e) (default_proxy e) (rules e) (default_action e) (resolver e) (fakeip e) (Some db) (geoip e).
Definition with_geoip (e : Engine) (db : GeoIpDb) : Engine :=
  mkEngine (outbounds e) (default_proxy e) (rules e) (default_action e) (resolver e) (fakeip e) (geosite e) (Some db).

(** [Engine::single_proxy] *)
Definition single_proxy (o : Outbound) : Engine :=
  engine_new {["proxy" : str := o]} (Some ("proxy" : str)) [] (AProxy None).

(** [Engine::from_config]. The files are read by [load_geosite] and
    [load_geoip]; a base that does not load is left out, with a warning. *)
Definition config_outbounds (servers : list ServerProfile) : gmap str Outbound :=
  fold_left (fun m p => match outbound_from_profile p with Ok ob => <[sp_name p := ob]> m | _ => m end) servers ∅.

Definition DEFAULT_RANGE : str := "198.18.0.0/15".

Definition config_fakeip (c : FakeIpConfig) : option FakeIp :=
  if fi_enabled c then
    match fakeip_new (fi_range c) with
    | Ok f => Some f
    | _ => res_ok (fakeip_new DEFAULT_RANGE)
    end
  else None.

Definition from_config (load_geosite : str -> option GeoSiteDb) (load_geoip : str -> option GeoIpDb) (cfg : AppConfig) : Engine :=
  mkEngine (config_outbounds (ac_servers cfg)) (st_default_proxy (ac_settings cfg)) (ac_rules cfg)
    (if st_default_to_proxy (ac_settings cfg) then AProxy None else ADirect)
    (head (filter_map dns_server_from_config (dns_servers (ac_dns cfg))))
    (config_fakeip (dns_fakeip (ac_dns cfg)))
    (geosite_path (ac_geo cfg) ≫= load_geosite)
    (geoip_path (ac_geo cfg) ≫= load_geoip).

(** [Engine::missing_geo_refs]; [debug] is the standard library's [{:?}] of a
    list of strings. *)
Definition missing_geo_refs (debug : list str -> str) (e : Engine) : list str :=
  let line (i : nat) (base : str) (cats : list str) : str :=
    "правило #" ++ show_uint (Z.of_nat i + 1) ++ ": " ++ base ++ " " ++ debug cats
    ++ " — база " ++ base ++ " не загружена" in
  concat (imap (fun i r =>
    (if negb (is_empty (r_geosite r)) && bool_decide (geosite e = None) then [line i "geosite" (r_geosite r)] else [])
    ++ (if negb (is_empty (r_geoip r)) && bool_decide (geoip e = None) then [line i "geoip" (r_geoip r)] else [])) (rules e)).

(** ** Matching a rule *)

Definition has_ip_crit (r : Rule) : bool := negb (is_empty (r_ip_cidrs r)) || negb (is_empty (r_geoip r)).

(** [domain_in_rule] and [ip_in_rule] *)
Definition domain_in_rule (e : Engine) (r : Rule) (host : str) : bool :=
  existsb (fun d => domain_matches d host) (r_domains r)
  || existsb (fun cat => some_and (geosite e) (fun db => geosite_matches db cat host)) (r_geosite r).

Definition ip_in_rule (e : Engine) (r : Rule) (ip : IpAddr) : bool :=
  existsb (fun c => cidr_contains c ip) (r_ip_cidrs r)
  || existsb (fun cc => some_and (geoip e) (fun db => geoip_matches db cc ip)) (r_geoip r).

(** [ConnApp::default()]: the process is not known here. *)
Definition no_app : ConnApp := {| exe_path := None; process_name := None |}.

(** [non_ip_ok] *)
Definition non_ip_ok (e : Engine) (r : Rule) (domain : option str) (port : Z) : bool :=
  if (negb (is_empty (r_domains r)) || negb (is_empty (r_geosite r))) && negb (some_and domain (domain_in_rule e r))
  then false
  else if negb (is_empty (r_ports r)) && negb (existsb (fun p => p =? port) (r_ports r)) then false
  else if negb (is_empty (r_processes r)) && negb (existsb (fun m => app_matches m no_app) (r_processes r)) then false
  else true.

(** [literal_ip] *)
Definition literal_ip (host : str) : option IpAddr :=
  let h := default host (strip_suffix "." host) in
  let h := default h (s ← strip_prefix "[" h; strip_suffix "]" s) in
  parse_ip h.

(** [act_full] *)
Definition act_full (e : Engine) (a : RouteAction) : Decision * option str * option Outbound * option str :=
  match a with
  | ADirect => (Connect ODirect, None, None, None)
  | ABlock => (Refuse, None, None, None)
  | AProxy tag =>
      let key := or_else tag (default_proxy e) in
      let decision := match key ≫= (fun k => outbounds e !! k) with Some ob => Connect ob | None => Refuse end in
      match tag, default_proxy e with
      | Some t, Some d => if bool_decide (t = d) then (decision, None, None, None)
                          else (decision, Some t, outbounds e !! d, Some d)
      | _, _ => (decision, None, None, None)
      end
  end.

(** [act] *)
Definition act (e : Engine) (a : RouteAction) : Decision := fst (fst (fst (act_full e a))).

(** The domain and the address of a target. *)
Definition target_domain (t : Target) : option str := match t with TDomain h _ => Some h | TSocket _ => None end.
Definition target_ip (t : Target) : option IpAddr := match t with TDomain h _ => literal_ip h | TSocket a => Some (sa_ip a) end.

(** [resolve_target]: the loop, then the action. *)
Fixpoint sync_loop (e : Engine) (domain : option str) (ip : option IpAddr) (port : Z) (rs : list Rule) : RouteAction :=
  match rs with
  | [] => default_action e
  | r :: rs =>
      if negb (non_ip_ok e r domain port) then sync_loop e domain ip port rs
      else if negb (has_ip_crit r) then r_action r
      else match ip with
           | Some i => if ip_in_rule e r i then r_action r else sync_loop e domain ip port rs
           | None => sync_loop e domain ip port rs
           end
  end.

Definition resolve_target (e : Engine) (t : Target) : Decision :=
  act e (sync_loop e (target_domain t) (target_ip t) (target_port t) (rules e)).

Section route.
(** [resolver.resolve(name)]: the addresses, or [None] for an error. *)
Context (resolve : DnsServer -> str -> option (list IpAddr)).

(** The loop of [route]: the rule that matched, what was resolved so far (not
    asked, failed, or the addresses) and [pending_block]. *)
Fixpoint route_loop (e : Engine) (domain : option str) (ip : option IpAddr) (port : Z) (rs : list Rule)
    (resolved : option (option (list IpAddr))) (pending_block : bool)
    : option RouteAction * option (option (list IpAddr)) * bool :=
  match rs with
  | [] => (None, resolved, pending_block)
  | r :: rs =>
      if negb (non_ip_ok e r domain port) then route_loop e domain ip port rs resolved pending_block
      else if negb (has_ip_crit r) then (Some (r_action r), resolved, pending_block)
      else match ip with
           | Some i => if ip_in_rule e r i then (Some (r_action r), resolved, pending_block)
                       else route_loop e domain ip port rs resolved pending_block
           | None =>
               match resolver e with
               | None => route_loop e domain ip port rs resolved pending_block
               | Some server =>
                   let resolved := match resolved with Some x => x | None => resolve server (default [] domain) end in
                   match resolved with
                   | Some ips => if existsb (ip_in_rule e r) ips then (Some (r_action r), Some resolved, pending_block)
                                 else route_loop e domain ip port rs (Some resolved) pending_block
                   | None => route_loop e domain ip port rs (Some resolved)
                               (bool_decide (r_action r = ABlock) || pending_block)
                   end
               end
           end
  end.

(** FakeIP reversed: the effective target, its domain and its address. *)
Definition effective (e : Engine) (t : Target) : Target * option str * option IpAddr :=
  match (f ← fakeip e; i ← target_ip t; domain_of f i) with
  | Some d => (TDomain d (target_port t), Some d, None)
  | None => (t, target_domain t, target_ip t)
  end.

(** The action [route] settles on, and what was resolved for it. *)
Definition route_action (e : Engine) (domain : option str) (ip : option IpAddr) (port : Z)
    : RouteAction * option (option (list IpAddr)) :=
  let '(matched, resolved, pending_block) := route_loop e domain ip port (rules e) None false in
  (match matched with Some a => a | None => if pending_block then ABlock else default_action e end, resolved).

(** [Engine::route] *)
Definition route (e : Engine) (t : Target) : Routed :=
  let '(target, domain, ip) := effective e t in
  let '(decision, chosen, fb, fb_name) := act_full e (fst (route_action e domain ip (target_port t))) in
  mkRouted decision target chosen fb fb_name.

End route.

(** ** Connecting: [connect_with_retry], [connect_routed] *)

Inductive Attempt (S : Type) : Type :=
| Connected (s : S)
| Failed (e : io_error)
| TimedOut.
Arguments Connected {S} s.
Arguments Failed {S} e.
Arguments TimedOut {S}.

Definition CONNECT_ATTEMPTS : nat := 3.

Section connect.
Context {S : Type}.

(** The attempts from the [i]-th on, [n] being left: the result, the pauses
    slept between them (milliseconds) and the attempts made. *)
Fixpoint retry_loop (attempt : nat -> Attempt S) (n i : nat) (last : option io_error) : res io_error S * list Z * nat :=
  match n with
  | O => (Err (default (IoOther "дозвон не удался") last), [], O)
  | Datatypes.S n =>
      let next e :=
        let '(r, pauses, made) := retry_loop attempt n (Datatypes.S i) (Some e) in
        (r, (if (Datatypes.S i <? CONNECT_ATTEMPTS)%nat then [60 * (Z.of_nat i * 2 + 1)] else []) ++ pauses, Datatypes.S made) in
      match attempt i with
      | Connected s => (Ok s, [], 1%nat)
      | Failed e => next e
      | TimedOut => next (IoTimedOut "таймаут дозвона")
      end
  end.

Definition connect_with_retry (attempt : nat -> Attempt S) : res io_error S * list Z * nat :=
  retry_loop attempt CONNECT_ATTEMPTS 0 None.

(** [via_label] *)
Definition via_label (o : Outbound) : str := match o with ODirect => "direct" | _ => "proxy" end.

(** [connect_routed]: the stream with its label, and the notice of a fallback
    (target, failed node, node used). [dial] is one attempt through an outbound. *)
Definition connect_routed (dial : Outbound -> nat -> Attempt S) (r : Routed) (ob : Outbound)
    : option (S * str) * option (str * str * str) :=
  match fst (fst (connect_with_retry (dial ob))) with
  | Ok s => (Some (s, via_label ob), None)
  | _ =>
      match fallback r, chosen_node r, fallback_name r with
      | Some fb, Some node, Some fb_name =>
          match fst (fst (connect_with_retry (dial fb))) with
          | Ok s => (Some (s, via_label fb), Some (show_target (rd_target r), node, fb_name))
          | _ => (None, None)
          end
      | _, _, _ => (None, None)
      end
  end.

End connect.

(** ** Specification of [route] *)

(** The domain meets the rule's domain criteria. *)
Definition names_host (e : Engine) (r : Rule) (host : str) : Prop :=
  (exists d, d ∈ r_domains r /\ domain_means d host)
  \/ exists cat db, cat ∈ r_geosite r /\ geosite e = Some db /\ geosite_matches db cat host = true.

(** The criteria that do not look at the address; a rule about processes never
    applies, since the process is not known here. *)
Definition applies_but_ip (e : Engine) (r : Rule) (domain : option str) (port : Z) : Prop :=
  ((r_domains r = [] /\ r_geosite r = []) \/ exists h, domain = Some h /\ names_host e r h)
  /\ category (r_ports r) (fun p => p = port)
  /\ r_processes r = [].

Definition asks_ip (r : Rule) : Prop := r_ip_cidrs r <> [] \/ r_geoip r <> [].

Definition names_ip (e : Engine) (r : Rule) (ip : IpAddr) : Prop :=
  (exists c, c ∈ r_ip_cidrs r /\ cidr_contains c ip = true)
  \/ exists cc db, cc ∈ r_geoip r /\ geoip e = Some db /\ geoip_matches db cc ip = true.

(** A rule applies when all its criteria hold, those on addresses for one of
    the addresses known. *)
Definition applies_to (e : Engine) (domain : option str) (port : Z) (ips : list IpAddr) (r : Rule) : Prop :=
  applies_but_ip e r domain port /\ (asks_ip r -> exists ip, ip ∈ ips /\ names_ip e r ip).

(** ** Lemmas *)

Lemma has_ip_crit_spec r : has_ip_crit r = true <-> asks_ip r.
Proof. unfold has_ip_crit, asks_ip. destruct (r_ip_cidrs r), (r_geoip r); cbn; intuition congruence. Qed.

Lemma some_and_true {A} (o : option A) f : some_and o f = true <-> exists x, o = Some x /\ f x = true.
Proof. destruct o as [x|]; cbn; [|split; [done|by intros (? & ? & _)]]. split; [eauto|]. by intros (? & [= <-] & ?). Qed.

Lemma domain_in_rule_spec e r h : domain_in_rule e r h = true <-> names_host e r h.
Proof.
  unfold domain_in_rule, names_host. rewrite orb_true_iff, !existsb_elem. setoid_rewrite domain_matches_spec.
  split; (intros [H|H]; [by left|right]).
  - destruct H as (c & Hc & H). apply some_and_true in H as (db & Hdb & H). by exists c, db.
  - destruct H as (c & db & Hc & Hdb & H). exists c. split; [done|]. apply some_and_true. by exists db.
Qed.

Lemma ip_in_rule_spec e r ip : ip_in_rule e r ip = true <-> names_ip e r ip.
Proof.
  unfold ip_in_rule, names_ip. rewrite orb_true_iff, !existsb_elem. split; (intros [H|H]; [by left|right]).
  - destruct H as (c & Hc & H). apply some_and_true in H as (db & Hdb & H). by exists c, db.
  - destruct H as (c & db & Hc & Hdb & H). exists c. split; [done|]. apply some_and_true. by exists db.
Qed.

Lemma no_app_matches m : app_matches m no_app = false.
Proof. by destruct m. Qed.

Lemma non_ip_ok_spec e r domain port : non_ip_ok e r domain port = true <-> applies_but_ip e r domain port.
Proof.
  unfold non_ip_ok, applies_but_ip. rewrite !if_false_else.
  rewrite (category_test _ _ (fun p => p = port)) by (intros; apply Z.eqb_eq).
  assert (negb (is_empty (r_processes r)) && negb (existsb (fun m => app_matches m no_app) (r_processes r)) = false
          <-> r_processes r = []) as ->.
  { destruct (r_processes r) as [|m l]; [done|]. cbn [is_empty negb andb].
    assert (existsb (fun m => app_matches m no_app) (m :: l) = false) as ->; [|done].
    induction (m :: l) as [|x k IH]; [done|]. cbn [existsb]. by rewrite no_app_matches. }
  assert ((negb (is_empty (r_domains r)) || negb (is_empty (r_geosite r))) && negb (some_and domain (domain_in_rule e r)) = false
          <-> (r_domains r = [] /\ r_geosite r = []) \/ exists h, domain = Some h /\ names_host e r h) as ->; [|tauto].
  rewrite andb_false_iff, negb_false_iff, some_and_true. setoid_rewrite domain_in_rule_spec.
  destruct (r_domains r), (r_geosite r); cbn; intuition congruence.
Qed.

Definition applies_b (e : Engine) (domain : option str) (port : Z) (ips : list IpAddr) (r : Rule) : bool :=
  non_ip_ok e r domain port && (negb (has_ip_crit r) || existsb (ip_in_rule e r) ips).

Lemma applies_b_spec e domain port ips r : applies_b e domain port ips r = true <-> applies_to e domain port ips r.
Proof.
  unfold applies_b, applies_to. rewrite andb_true_iff, non_ip_ok_spec, orb_true_iff, negb_true_iff, existsb_elem.
  setoid_rewrite ip_in_rule_spec. rewrite <- has_ip_crit_spec. destruct (has_ip_crit r); intuition congruence.
Qed.

(** A rule that asks for an address and meets its other criteria. *)
Definition asking_b (e : Engine) (domain : option str) (port : Z) (r : Rule) : bool :=
  non_ip_ok e r domain port && has_ip_crit r.

Section route_lemmas.
Context (resolve : DnsServer -> str -> option (list IpAddr)) (e : Engine) (domain : option str) (port : Z).

(** With a known address, or without a resolver, nothing is resolved. *)
Lemma route_loop_known ip rs resolved pending : ip <> None \/ resolver e = None ->
  route_loop resolve e domain ip port rs resolved pending =
  (r_action <$> find (applies_b e domain port (option_list ip)) rs, resolved, pending).
Proof.
  intros H. induction rs as [|r rs IH]; [done|]. cbn [route_loop find]. unfold applies_b at 1.
  destruct (non_ip_ok e r domain port); cbn [negb andb]; [|done].
  destruct (has_ip_crit r); cbn [negb orb]; [|done].
  destruct ip as [i|].
  - change (option_list (Some i)) with [i] in *. cbn [existsb]. rewrite orb_false_r. by destruct (ip_in_rule e r i).
  - destruct H as [H|H]; [done|]. by rewrite H.
Qed.

(** Otherwise the name is resolved by the first rule that asks. *)
Lemma route_loop_resolving server rs : resolver e = Some server ->
  let answer := resolve server (default [] domain) in forall resolved pending, resolved = None \/ resolved = Some answer ->
  exists resolved' pending', route_loop resolve e domain None port rs resolved pending =
    (r_action <$> find (applies_b e domain port (default [] answer)) rs, resolved', pending') /\
  (resolved' = None \/ resolved' = Some answer) /\
  (resolved' <> resolved -> exists pre r post, rs = pre ++ r :: post /\ asking_b e domain port r = true /\
     Forall (fun s => applies_b e domain port (default [] answer) s = false) pre) /\
  (find (applies_b e domain port (default [] answer)) rs = None ->
     pending' = pending || (bool_decide (answer = None) && existsb (fun r => asking_b e domain port r && bool_decide (r_action r = ABlock)) rs)).
Proof.
  intros Hs answer. induction rs as [|r rs IH]; intros resolved pending Hr.
  { exists resolved, pending. cbn. split_and!; [done..|]. intros _. by rewrite andb_false_r, orb_false_r. }
  cbn [route_loop find existsb]. destruct (non_ip_ok e r domain port) eqn:En; cbn [negb].
  2:{ assert (applies_b e domain port (default [] answer) r = false) as Hab by (unfold applies_b; by rewrite En).
      assert (asking_b e domain port r = false) as -> by (unfold asking_b; by rewrite En).
      destruct (IH resolved pending Hr) as (r' & p' & He & H1 & H2 & H3). exists r', p'. rewrite Hab. split_and!; [done|done| |done].
      intros Hne. destruct (H2 Hne) as (pre & s & post & -> & Ha & Hf). exists (r :: pre), s, post. split_and!; [done..|].
      by constructor. }
  destruct (has_ip_crit r) eqn:Eh; cbn [negb].
  2:{ assert (applies_b e domain port (default [] answer) r = true) as -> by (unfold applies_b; by rewrite En, Eh).
      exists resolved, pending. by split_and!. }
  rewrite Hs. cbv zeta.
  replace (match resolved with Some x => x | None => resolve server (default [] domain) end) with answer
    by (by destruct Hr as [->| ->]).
  assert (applies_b e domain port (default [] answer) r = existsb (ip_in_rule e r) (default [] answer)) as ->
    by (unfold applies_b; by rewrite En, Eh).
  assert (asking_b e domain port r = true) as Hask by (unfold asking_b; by rewrite En, Eh). rewrite Hask.
  assert (forall pd, exists resolved' pending',
    route_loop resolve e domain None port rs (Some answer) pd =
      (r_action <$> find (applies_b e domain port (default [] answer)) rs, resolved', pending') /\
    (resolved' = None \/ resolved' = Some answer) /\
    (find (applies_b e domain port (default [] answer)) rs = None ->
     pending' = pd || (bool_decide (answer = None) && existsb (fun r => asking_b e domain port r && bool_decide (r_action r = ABlock)) rs)))
    as Hrec.
  { intros pd. destruct (IH (Some answer) pd (or_intror eq_refl)) as (r' & p' & He & H1 & _ & H3). by exists r', p'. }
  assert (exists pre s post, r :: rs = pre ++ s :: post /\ asking_b e domain port s = true /\
    Forall (fun s => applies_b e domain port (default [] answer) s = false) pre) as Hfirst by (by exists [], r, rs).
  destruct answer as [ips|] eqn:Ea; cbn [default from_option id existsb] in *.
  - destruct (existsb (ip_in_rule e r) ips).
    + exists (Some (Some ips)), pending. by split_and!; auto.
    + destruct (Hrec pending) as (r' & p' & He & H1 & H3). exists r', p'. by split_and!.
  - destruct (Hrec (bool_decide (r_action r = ABlock) || pending)) as (r' & p' & He & H1 & H3).
    exists r', p'. split_and!; [done..|]. intros Hn. rewrite (H3 Hn).
    rewrite (bool_decide_eq_true_2 (@None (list IpAddr) = None)) by done.
    by destruct (bool_decide (r_action r = ABlock)), pending.
Qed.

End route_lemmas.

Lemma find_spec {A} (f : A -> bool) l :
  match find f l with
  | Some x => exists pre post, l = pre ++ x :: post /\ Forall (fun y => f y = false) pre /\ f x = true
  | None => Forall (fun y => f y = false) l
  end.
Proof.
  induction l as [|x l IH]; cbn [find]; [done|]. destruct (f x) eqn:E.
  - exists [], l. by split_and!.
  - destruct (find f l) as [y|].
    + destruct IH as (pre & post & -> & Hp & Hy). exists (x :: pre), post. split_and!; [done|by constructor|done].
    + by constructor.
Qed.

(** The addresses a decision can look at, and the failure of the resolution. *)
Definition known_ips (resolve : DnsServer -> str -> option (list IpAddr)) (e : Engine) (domain : option str) (ip : option IpAddr) : list IpAddr :=
  match ip, resolver e with
  | Some i, _ => [i]
  | None, Some server => default [] (resolve server (default [] domain))
  | None, None => []
  end.

Definition resolution_fails (resolve : DnsServer -> str -> option (list IpAddr)) (e : Engine) (domain : option str) (ip : option IpAddr) : Prop :=
  ip = None /\ exists server, resolver e = Some server /\ resolve server (default [] domain) = None.

(** A block rule that could only be told by an address. *)
Definition unconfirmed_block (e : Engine) (domain : option str) (port : Z) : Prop :=
  exists r, r ∈ rules e /\ r_action r = ABlock /\ asks_ip r /\ applies_but_ip e r domain port.

Lemma asking_block_spec e domain port rs :
  existsb (fun r => asking_b e domain port r && bool_decide (r_action r = ABlock)) rs = true
  <-> exists r, r ∈ rs /\ r_action r = ABlock /\ asks_ip r /\ applies_but_ip e r domain port.
Proof.
  rewrite existsb_elem. split; intros (r & Hr & H); exists r; (split; [done|]); unfold asking_b in *.
  - apply andb_true_iff in H as [[Hn Hi]%andb_true_iff Ha%bool_decide_eq_true].
    split_and!; [done|by apply has_ip_crit_spec|by apply non_ip_ok_spec].
  - destruct H as (Ha & Hi & Hn). apply has_ip_crit_spec in Hi. apply non_ip_ok_spec in Hn.
    by rewrite Hn, Hi, bool_decide_eq_true_2.
Qed.

(** The failure as a test. *)
Definition fails_b (resolve : DnsServer -> str -> option (list IpAddr)) (e : Engine) (domain : option str) (ip : option IpAddr) : bool :=
  match ip, resolver e with
  | None, Some server => bool_decide (resolve server (default [] domain) = None)
  | _, _ => false
  end.

Lemma fails_b_spec resolve e domain ip : fails_b resolve e domain ip = true <-> resolution_fails resolve e domain ip.
Proof.
  unfold fails_b, resolution_fails. destruct ip as [i|]; [split; [done|by intros [? _]]|].
  destruct (resolver e) as [s|]; [rewrite bool_decide_eq_true|].
  - split; [intros H; split; [done|by exists s]|]. by intros (_ & s' & [= <-] & H).
  - split; [done|]. by intros (_ & s' & ? & _).
Qed.

(** What [route_action] settles on, in one equation, and when it resolves. *)
Lemma route_action_spec resolve e domain ip port :
  let applies := applies_b e domain port (known_ips resolve e domain ip) in
  fst (route_action resolve e domain ip port) =
    match find applies (rules e) with
    | Some r => r_action r
    | None => if fails_b resolve e domain ip &&
                  existsb (fun r => asking_b e domain port r && bool_decide (r_action r = ABlock)) (rules e)
               then ABlock else default_action e
    end /\
  (forall answer, snd (route_action resolve e domain ip port) = Some answer ->
    ip = None /\ (exists server, resolver e = Some server /\ answer = resolve server (default [] domain)) /\
    exists pre r post, rules e = pre ++ r :: post /\ asking_b e domain port r = true /\ Forall (fun s => applies s = false) pre).
Proof.
  cbv zeta. unfold route_action, known_ips, fails_b.
  destruct ip as [i|]; [|destruct (resolver e) as [server|] eqn:Er].
  - rewrite route_loop_known by (by left). cbn [fst snd]. change (option_list (Some i)) with [i].
    split; [by destruct (find _ _)|done].
  - destruct (route_loop_resolving resolve e domain port server (rules e) Er None false (or_introl eq_refl))
      as (r' & p' & -> & Hr & Hask & Hp). cbn [fst snd]. split.
    + destruct (find _ _); [done|]. cbn [fmap option_fmap option_map]. by rewrite (Hp eq_refl).
    + intros answer Ha. destruct Hr as [->| ->]; [done|]. injection Ha as <-. split; [done|]. split; [by exists server|].
      apply Hask. done.
  - rewrite route_loop_known by (by right). cbn [fst snd]. change (option_list None) with (@nil IpAddr).
    split; [by destruct (find _ _)|done].
Qed.

(** ** Properties of [route] *)

(** C4. The engine routes by the first rule that applies: after FakeIP is
    reversed, the decision carries out the action of the first rule whose
    criteria on the domain, the port and the process hold and, if it has
    criteria on addresses, one of the known addresses (the target's own, or
    those its domain resolves to) meets them. If no rule applies the default
    action is carried out - except when the resolution failed and some block
    rule could only be told by an address, in which case the connection is
    refused. *)
Theorem route_first_match (resolve : DnsServer -> str -> option (list IpAddr)) (e : Engine) (t : Target) :
  let '(target, domain, ip) := effective e t in
  let applies := applies_to e domain (target_port t) (known_ips resolve e domain ip) in
  let r := route resolve e t in
  rd_target r = target /\
  ((exists pre rule post, rules e = pre ++ rule :: post /\ Forall (fun s => ~ applies s) pre /\ applies rule /\
      rd_decision r = act e (r_action rule))
   \/ (Forall (fun s => ~ applies s) (rules e) /\
       ((resolution_fails resolve e domain ip /\ unconfirmed_block e domain (target_port t) /\ rd_decision r = Refuse)
        \/ (~ (resolution_fails resolve e domain ip /\ unconfirmed_block e domain (target_port t)) /\
            rd_decision r = act e (default_action e))))).
Proof.
  unfold route. destruct (effective e t) as [[target domain] ip].
  destruct (route_action_spec resolve e domain ip (target_port t)) as [Ha _].
  set (a := fst (route_action _ _ _ _ _)) in *. unfold act.
  destruct (act_full e a) as [[[d c] f] n] eqn:Ef. cbn [rd_target rd_decision]. split; [done|].
  assert (d = act e a) as -> by (unfold act; by rewrite Ef).
  assert (forall pre, Forall (fun s => applies_b e domain (target_port t) (known_ips resolve e domain ip) s = false) pre ->
    Forall (fun s => ~ applies_to e domain (target_port t) (known_ips resolve e domain ip) s) pre) as Hneg.
  { intros pre Hp. eapply Forall_impl; [exact Hp|]. intros s Hs Happ. apply applies_b_spec in Happ. congruence. }
  pose proof (find_spec (applies_b e domain (target_port t) (known_ips resolve e domain ip)) (rules e)) as Hf.
  destruct (find _ (rules e)) as [rule|].
  - left. destruct Hf as (pre & post & Hr & Hp & Hb). exists pre, rule, post.
    split_and!; [done|by apply Hneg|by apply applies_b_spec|]. by rewrite Ha.
  - right. split; [by apply Hneg|]. destruct (_ && _) eqn:Eb.
    + left. apply andb_true_iff in Eb as [Hfail%fails_b_spec Hb%asking_block_spec]. split_and!; [done|done|]. by rewrite Ha.
    + right. split; [|by rewrite Ha]. intros [Hfail Hb]. apply fails_b_spec in Hfail. apply asking_block_spec in Hb.
      by rewrite Hfail, Hb in Eb.
Qed.

(** Names are resolved only when the answer can matter, by the engine's own
    resolver: a connection whose address is known is decided without any
    resolution, and when a name is resolved, it is the effective domain, and
    some rule that no earlier rule preempts meets its other criteria and asks
    for an address. The routing resolves at most one name (the result holds the
    one answer). *)
Theorem route_resolves_lazily (resolve : DnsServer -> str -> option (list IpAddr)) (e : Engine) (domain : option str)
    (ip : option IpAddr) (port : Z) (answer : option (list IpAddr))
    (Ha : snd (route_action resolve e domain ip port) = Some answer) :
  ip = None /\ (exists server, resolver e = Some server /\ answer = resolve server (default [] domain)) /\
  exists pre r post, rules e = pre ++ r :: post /\ asks_ip r /\ applies_but_ip e r domain port /\
    Forall (fun s => ~ applies_to e domain port (known_ips resolve e domain ip) s) pre.
Proof.
  destruct (route_action_spec resolve e domain ip port) as [_ H].
  destruct (H answer Ha) as (Hip & Hs & pre & r & post & Hr & Hask & Hp). split; [done|]. split; [done|].
  unfold asking_b in Hask. apply andb_true_iff in Hask as [Hn%non_ip_ok_spec Hi%has_ip_crit_spec].
  exists pre, r, post. split_and!; [done..|]. eapply Forall_impl; [exact Hp|]. intros s Hs' Happ.
  apply applies_b_spec in Happ. congruence.
Qed.

(** ** The synchronous decision *)

Lemma sync_loop_spec e domain ip port rs :
  sync_loop e domain ip port rs =
  match find (applies_b e domain port (option_list ip)) rs with Some r => r_action r | None => default_action e end.
Proof.
  induction rs as [|r rs IH]; [done|]. cbn [sync_loop find]. unfold applies_b at 1.
  destruct (non_ip_ok e r domain port); cbn [negb andb]; [|done].
  destruct (has_ip_crit r); cbn [negb orb]; [|done]. destruct ip as [i|].
  - change (option_list (Some i)) with [i] in *. cbn [existsb]. rewrite orb_false_r. by destruct (ip_in_rule e r i).
  - change (option_list None) with (@nil IpAddr) in *. cbn [existsb]. exact IH.
Qed.

Lemma find_ext {A} (f g : A -> bool) l : (forall x, x ∈ l -> f x = g x) -> find f l = find g l.
Proof.
  induction l as [|x l IH]; intros H; [done|]. cbn [find]. rewrite (H x) by (by left).
  destruct (g x); [done|]. apply IH. intros y Hy. apply H. by right.
Qed.

(** Both loops settle on the same action when the address is known, or no
    address is ever asked for. *)
Lemma sync_loop_is_route_action (resolve : DnsServer -> str -> option (list IpAddr)) (e : Engine) domain ip port :
  (ip <> None \/ resolver e = None \/ forall r, r ∈ rules e -> ~ asks_ip r) ->
  sync_loop e domain ip port (rules e) = fst (route_action resolve e domain ip port).
Proof.
  intros Huse. destruct (route_action_spec resolve e domain ip port) as [-> _]. rewrite sync_loop_spec.
  unfold known_ips, fails_b. destruct ip as [i|]; [done|].
  destruct (resolver e) as [server|]; [|done]. change (option_list None) with (@nil IpAddr).
  destruct Huse as [?|[?|Hno]]; [done..|].
  assert (forall r, r ∈ rules e -> has_ip_crit r = false) as Hni.
  { intros r Hr. destruct (has_ip_crit r) eqn:E; [|done]. apply has_ip_crit_spec in E. by destruct (Hno r Hr). }
  rewrite (find_ext _ (applies_b e domain port (default [] (resolve server (default [] domain))))).
  2:{ intros r Hr. unfold applies_b. by rewrite (Hni r Hr). }
  match goal with |- context [find ?g ?l] => destruct (find g l); [done|] end.
  destruct (existsb _ (rules e)) eqn:Eb; [|by rewrite andb_false_r].
  apply existsb_elem in Eb as (r & Hr & Hb). unfold asking_b in Hb. by rewrite (Hni r Hr), andb_false_r in Hb.
Qed.

Lemma route_decision resolve e t :
  rd_decision (route resolve e t) = (let '(_, domain, ip) := effective e t in act e (fst (route_action resolve e domain ip (target_port t)))).
Proof. unfold route, act. destruct (effective e t) as [[target domain] ip]. by destruct (act_full e _) as [[[? ?] ?] ?]. Qed.

(** The domain the allocator has given the address of a target to. *)
Definition fake_domain (e : Engine) (t : Target) : option str := f ← fakeip e; i ← target_ip t; domain_of f i.

(** C32. The synchronous decision against [route], whatever the resolver answers,
    when the target has an address of its own, or there is no resolver, or no
    rule has criteria on addresses. On every target that is not a fake address
    the two are the same; on a fake address [route] decides as the synchronous
    decision does for the domain behind it, and not as it does for the address
    itself (see [fake_address_differs]), which the documentation of
    [resolve_target] does not exclude. *)
Theorem sync_decision_agrees (resolve : DnsServer -> str -> option (list IpAddr)) (e : Engine) (t : Target)
    (Huse : (target_ip t <> None /\ fake_domain e t = None) \/ resolver e = None \/ forall r, r ∈ rules e -> ~ asks_ip r) :
  (fake_domain e t = None -> resolve_target e t = rd_decision (route resolve e t))
  /\ (forall d, fake_domain e t = Some d -> literal_ip d = None ->
        resolve_target e (TDomain d (target_port t)) = rd_decision (route resolve e t)).
Proof.
  rewrite route_decision. unfold resolve_target, effective. fold (fake_domain e t). split.
  - intros ->. f_equal. apply sync_loop_is_route_action. tauto.
  - intros d Hd Hl. rewrite Hd. cbn [target_domain target_ip target_port]. rewrite Hl. f_equal. apply sync_loop_is_route_action.
    destruct Huse as [[_ Hn]|Huse]; [congruence|by right].
Qed.

(** A block rule on addresses, a domain, and a resolver that fails: the
    synchronous decision goes to the default, [route] refuses. *)
Definition block_engine : Engine :=
  with_resolver (engine_new ∅ None
    [{| r_domains := []; r_ip_cidrs := [{| cidr_base := V4 0; cidr_prefix := 0 |}]; r_processes := []; r_ports := [];
        r_geosite := []; r_geoip := []; r_action := ABlock |}] ADirect) (DnsDoh "https://dns/").

(** An engine whose only rule blocks a domain that has a fake address. *)
Definition faking_engine : Engine :=
  let e := engine_new ∅ None
    [{| r_domains := [Full (lit "ads.example")]; r_ip_cidrs := []; r_processes := []; r_ports := [];
        r_geosite := []; r_geoip := []; r_action := ABlock |}] ADirect in
  match fakeip_new "198.18.0.0/15" with Ok f => with_fakeip e (fst (allocate f "ads.example")) | _ => e end.

Definition fake_target : Target := TSocket {| sa_ip := V4 3323068417; sa_port := 443 |}.

(** No rule asks for an address and the target is an address, which is all the
    documentation asks for: still the synchronous decision lets through what
    [route] blocks. *)
Lemma fake_address_differs : resolve_target faking_engine fake_target = Connect ODirect
  /\ forall resolve, rd_decision (route resolve faking_engine fake_target) = Refuse.
Proof. split; [vm_compute; reflexivity|]. intros resolve. vm_compute. reflexivity. Qed.

Lemma sync_decision_agrees_witness :
  resolve_target block_engine (TDomain "1.2.3.4" 443) = Refuse /\
  rd_decision (route (fun _ _ => None) block_engine (TDomain "1.2.3.4" 443)) = Refuse /\
  resolve_target block_engine (TDomain "example.org" 443) = Connect ODirect /\
  rd_decision (route (fun _ _ => None) block_engine (TDomain "example.org" 443)) = Refuse /\
  resolve_target faking_engine (TDomain "ads.example" 443) = rd_decision (route (fun _ _ => None) faking_engine fake_target).
Proof.
  destruct (sync_decision_agrees (fun _ _ => None) block_engine (TDomain "1.2.3.4" 443)
    ltac:(left; split; vm_compute; [discriminate|reflexivity])) as [H _].
  destruct (sync_decision_agrees (fun _ _ => None) faking_engine fake_target
    ltac:(right; left; vm_compute; reflexivity)) as [_ H'].
  split; [vm_compute; reflexivity|]. split; [rewrite <- H by (vm_compute; reflexivity); vm_compute; reflexivity|].
  split; [vm_compute; reflexivity|]. split; [vm_compute; reflexivity|].
  apply (H' (lit "ads.example")); vm_compute; reflexivity.
Defined.

Lemma route_resolves_lazily_witness :
  exists r, r ∈ rules block_engine /\ asks_ip r /\
    snd (route_action (fun _ _ => Some [V4 1]) block_engine (Some (lit "example.org")) None 443) = Some (Some [V4 1]).
Proof.
  destruct (route_resolves_lazily (fun _ _ => Some [V4 1]) block_engine (Some (lit "example.org")) None 443 (Some [V4 1])
    ltac:(vm_compute; reflexivity)) as (_ & _ & pre & r & post & Hr & Hask & _).
  exists r. split; [rewrite Hr; set_solver|]. split; [done|]. vm_compute. reflexivity.
Defined.

(** ** FakeIP *)

(** C6. A connection to a fake address is a connection to its domain: once the
    allocator of an engine has given an address to a domain, a target with that
    address is routed, resolved and dialled as the domain itself - same
    decision, same effective target, same fallback. *)
Theorem fakeip_routes_as_domain (resolve : DnsServer -> str -> option (list IpAddr)) (e : Engine) (cidr d : str)
    (f f' : FakeIp) (ip port : Z)
    (Hr : reachable cidr f) (Ha : allocate f d = (f', ip)) (Hd : literal_ip d = None) :
  route resolve (with_fakeip e f') (TSocket {| sa_ip := V4 ip; sa_port := port |})
  = route resolve (with_fakeip e f') (TDomain d port)
  /\ rd_target (route resolve (with_fakeip e f') (TDomain d port)) = TDomain d port.
Proof.
  apply reachable_inv in Hr. destruct (allocate_inv _ _ _ _ Hr Ha) as (_ & Hl & _ & _).
  unfold route, effective. cbn [fakeip with_fakeip target_ip sa_ip target_port sa_port target_domain mbind option_bind].
  cbn [domain_of]. rewrite Hl, Hd. split; [done|]. cbn.
  by destruct (act_full _ _) as [[[? ?] ?] ?].
Qed.

Lemma fakeip_routes_as_domain_witness :
  exists f', fakeip_new "198.18.0.0/15" ≫= (fun f => Ok (fst (allocate f "example.org"))) = Ok f' /\
    rd_decision (route (fun _ _ => None) (with_fakeip block_engine f') (TSocket {| sa_ip := V4 3323068417; sa_port := 443 |})) = Refuse.
Proof.
  destruct (fakeip_new "198.18.0.0/15") as [f| |] eqn:Ef; [|vm_compute in Ef; discriminate Ef..].
  exists (fst (allocate f "example.org")). split; [reflexivity|].
  assert (snd (allocate f "example.org") = 3323068417) as Hs.
  { assert (f = match fakeip_new "198.18.0.0/15" with Ok f => f | _ => f end) as -> by (by rewrite Ef). vm_compute. reflexivity. }
  rewrite (proj1 (fakeip_routes_as_domain (fun _ _ => None) block_engine "198.18.0.0/15" "example.org" f
    (fst (allocate f "example.org")) 3323068417 443 (reach_new _ _ Ef)
    ltac:(rewrite <- Hs; destruct (allocate f "example.org"); reflexivity) ltac:(vm_compute; reflexivity))).
  vm_compute. reflexivity.
Defined.

(** ** No silent direct connection *)

(** The outbounds of a configuration are proxies. *)
Lemma config_outbounds_proxy servers : forall tag o, config_outbounds servers !! tag = Some o -> o <> ODirect.
Proof.
  unfold config_outbounds.
  assert (forall l (m : gmap str Outbound), (forall tag o, m !! tag = Some o -> o <> ODirect) -> forall tag o,
    fold_left (fun m p => match outbound_from_profile p with Ok ob => <[sp_name p := ob]> m | _ => m end) l m !! tag = Some o -> o <> ODirect) as H.
  { induction l as [|p l IH]; intros m Hm tag o; [apply Hm|]. cbn [fold_left]. apply IH.
    pose proof (outbound_outcome p) as Ho. destruct (outbound_from_profile p) as [ob| |]; [|done..].
    intros tag' o'. destruct (decide (sp_name p = tag')) as [<-|Hne].
    - rewrite lookup_insert_eq. intros [= <-]. destruct (head _) as [?|]; [done|].
      destruct Ho as (o1 & Ho1 & Hp & _). injection Ho1 as <-. by intros ->.
    - rewrite lookup_insert_ne by done. apply Hm. }
  apply H. intros tag o Hl. by rewrite lookup_empty in Hl.
Qed.

Lemma act_direct e a : (forall tag o, outbounds e !! tag = Some o -> o <> ODirect) -> act e a = Connect ODirect -> a = ADirect.
Proof.
  intros He H. destruct a as [|tag|]; [done| |done]. exfalso. unfold act in H. cbn [act_full] in H.
  set (decision := match or_else tag (default_proxy e) ≫= _ with Some ob => Connect ob | None => Refuse end) in H.
  assert (decision = Connect ODirect) as Hd.
  { destruct tag as [t|], (default_proxy e) as [d|]; try exact H. by destruct (bool_decide (t = d)). }
  subst decision. destruct (or_else tag (default_proxy e)) as [k|]; cbn in Hd; [|done].
  destruct (outbounds e !! k) as [ob|] eqn:Ek; [|done]. injection Hd as ->. by apply (He k ODirect Ek).
Qed.

(** C5. A connection leaves the proxy only if the configuration says so: with an
    engine built from a configuration, the decision is a direct connection only
    when the first rule that applies has the action [Direct], or no rule applies
    and the configuration does not send everything to the proxy. A proxy action
    whose node is missing or could not be built refuses the connection, and the
    fallback of a failing node is never the direct connection. *)
Theorem direct_only_by_rule (resolve : DnsServer -> str -> option (list IpAddr))
    (load_geosite : str -> option GeoSiteDb) (load_geoip : str -> option GeoIpDb) (cfg : AppConfig) (t : Target) :
  let e := from_config load_geosite load_geoip cfg in
  let '(_, domain, ip) := effective e t in
  let applies := applies_to e domain (target_port t) (known_ips resolve e domain ip) in
  let r := route resolve e t in
  fallback r <> Some ODirect /\
  (rd_decision r = Connect ODirect ->
   (exists pre rule post, ac_rules cfg = pre ++ rule :: post /\ Forall (fun s => ~ applies s) pre /\ applies rule /\ r_action rule = ADirect)
   \/ (Forall (fun s => ~ applies s) (ac_rules cfg) /\ st_default_to_proxy (ac_settings cfg) = false)).
Proof.
  set (e := from_config _ _ _). cbv zeta. assert (forall tag o, outbounds e !! tag = Some o -> o <> ODirect) as He
    by apply config_outbounds_proxy.
  unfold route. destruct (effective e t) as [[target domain] ip].
  destruct (route_action_spec resolve e domain ip (target_port t)) as [Ha _].
  set (a := fst (route_action _ _ _ _ _)) in *.
  destruct (act_full e a) as [[[d c] f] n] eqn:Ef. cbn [rd_decision fallback]. split.
  - destruct a as [|tag|]; cbn [act_full] in Ef; [by injection Ef as _ _ <- _| |by injection Ef as _ _ <- _].
    destruct tag as [tg|], (default_proxy e) as [dp|]; try (by injection Ef as _ _ <- _).
    destruct (bool_decide _); injection Ef as _ _ <- _; [done|]. intros Hl. by apply (He dp ODirect).
  - intros Hd. assert (a = ADirect) as Haa by (apply (act_direct e a He); unfold act; by rewrite Ef).
    pose proof (find_spec (applies_b e domain (target_port t) (known_ips resolve e domain ip)) (rules e)) as Hf.
    assert (forall pre, Forall (fun s => applies_b e domain (target_port t) (known_ips resolve e domain ip) s = false) pre ->
      Forall (fun s => ~ applies_to e domain (target_port t) (known_ips resolve e domain ip) s) pre) as Hneg.
    { intros pre Hp. eapply Forall_impl; [exact Hp|]. intros s Hs Happ. apply applies_b_spec in Happ. congruence. }
    rewrite Haa in Ha. destruct (find _ (rules e)) as [rule|].
    + left. destruct Hf as (pre & post & Hr & Hp & Hb). exists pre, rule, post. split_and!; [done|by apply Hneg|by apply applies_b_spec|done].
    + right. split; [by apply Hneg|]. destruct (_ && _); [done|]. cbn in Ha. by destruct (st_default_to_proxy _).
Qed.

(** ** Retries and the fallback *)

(** The stream of the first of the three attempts that connects. *)
Definition first_success {S} (attempt : nat -> Attempt S) (s : S) : Prop :=
  exists i, (i < CONNECT_ATTEMPTS)%nat /\ attempt i = Connected s /\ forall j s', (j < i)%nat -> attempt j <> Connected s'.

Definition unreachable {S} (attempt : nat -> Attempt S) : Prop :=
  forall i s, (i < CONNECT_ATTEMPTS)%nat -> attempt i <> Connected s.

(** The attempts stop at the first success; the pauses between them are 60 and
    180 milliseconds; after three failures the last error is returned. *)
Lemma connect_with_retry_spec {S} (attempt : nat -> Attempt S) :
  let '(r, pauses, made) := connect_with_retry attempt in
  (made <= CONNECT_ATTEMPTS)%nat /\ pauses = take (made - 1) [60; 180] /\
  match r with
  | Ok s => first_success attempt s
  | Err e => unreachable attempt /\ made = CONNECT_ATTEMPTS /\
      e = match attempt 2%nat with Failed e => e | _ => IoTimedOut "таймаут дозвона" end
  | Panic => False
  end.
Proof.
  unfold connect_with_retry, CONNECT_ATTEMPTS, first_success, unreachable, CONNECT_ATTEMPTS. cbn [retry_loop].
  assert (forall i s, (i < 1)%nat -> attempt 0%nat <> Connected s -> attempt i <> Connected s) as H1
    by (intros [|i] s Hi; [done|lia]).
  assert (forall i s, (i < 2)%nat -> attempt 0%nat <> Connected s -> attempt 1%nat <> Connected s -> attempt i <> Connected s) as H2
    by (intros [|[|i]] s Hi; [done|done|lia]).
  assert (forall i s, (i < 3)%nat -> attempt 0%nat <> Connected s -> attempt 1%nat <> Connected s -> attempt 2%nat <> Connected s ->
    attempt i <> Connected s) as H3 by (intros [|[|[|i]]] s Hi; [done|done|done|lia]).
  destruct (attempt 0%nat) as [s|e|] eqn:E0.
  { cbn. split_and!; [lia|done|]. exists 0%nat. split_and!; [lia|done|]. intros j s' Hj. lia. }
  all: destruct (attempt 1%nat) as [s|e1|] eqn:E1;
    [cbn; split_and!; [lia|done|]; exists 1%nat; split_and!; [lia|done|]; intros j s' Hj; by apply H1| |].
  all: destruct (attempt 2%nat) as [s|e2|] eqn:E2;
    [cbn; split_and!; [lia|done|]; exists 2%nat; split_and!; [lia|done|]; intros j s' Hj; by apply H2| |].
  all: cbn; split_and!; [lia|done| |done|done]; intros i s Hi; by apply H3.
Qed.

Lemma first_success_reachable {S} (attempt : nat -> Attempt S) s : first_success attempt s -> unreachable attempt -> False.
Proof. intros (i & Hi & Ha & _) Hu. by apply (Hu i s Hi). Qed.

(** C23. A connection is made through the chosen node if one of three attempts
    succeeds, and only otherwise through the fallback: the stream is the one of
    the first successful attempt and carries the label of the outbound really
    used; the user is told of a fallback exactly when it happened; there is no
    stream exactly when the node fails three times and there is no fallback or
    it fails three times too. *)
Theorem connect_falls_back {S} (dial : Outbound -> nat -> Attempt S) (r : Routed) (ob : Outbound) :
  match connect_routed dial r ob with
  | (Some (s, via), None) => first_success (dial ob) s /\ via = via_label ob
  | (Some (s, via), Some (host, node, name)) =>
      unreachable (dial ob) /\ host = show_target (rd_target r) /\ chosen_node r = Some node /\ fallback_name r = Some name /\
      exists fb, fallback r = Some fb /\ first_success (dial fb) s /\ via = via_label fb
  | (None, None) => unreachable (dial ob) /\
      forall fb node name, fallback r = Some fb -> chosen_node r = Some node -> fallback_name r = Some name -> unreachable (dial fb)
  | (None, Some _) => False
  end.
Proof.
  unfold connect_routed. pose proof (connect_with_retry_spec (dial ob)) as H.
  destruct (connect_with_retry (dial ob)) as [[res p] m]. cbn [fst]. destruct H as (_ & _ & H).
  destruct res as [s|e|]; [done| |done]. destruct H as (Hu & _ & _).
  destruct (fallback r) as [fb|]; [|by split; [|intros ??? [=]]].
  destruct (chosen_node r) as [node|]; [|by split; [|intros ???? [=]]].
  destruct (fallback_name r) as [name|]; [|by split; [|intros ????? [=]]].
  pose proof (connect_with_retry_spec (dial fb)) as H.
  destruct (connect_with_retry (dial fb)) as [[res2 p2] m2]. cbn [fst]. destruct H as (_ & _ & H).
  destruct res2 as [s|e2|]; [| |done].
  - split_and!; [done..|]. by exists fb.
  - split; [done|]. intros fb' node' name' [= <-] _ _. apply H.
Qed.
