(* ===== verification/DnsResolver.v ===== *)
(** * The DNS resolver: cache, single flight and cancellation
    ([crates/net/src/dns/mod.rs])

    Many connections resolve names at once through one shared cache. The model
    keeps the cache, the clock and the tasks that run [resolve]; a step is one
    section under the cache's lock, a wake-up, the passing of time, or the
    dropping of a task's future ([cancel]). The queries themselves are answered
    by the environment: a leader's step takes any two answers (A and AAAA). *)

From Stdlib Require Import Sorting.Sorted.
From S2P Require Import Prelude RustStr Utf8 NetAddr NetIo Uri.

(** Milliseconds. *)
Definition DEFAULT_TIMEOUT : Z := 5000.
Definition POSITIVE_TTL : Z := 300000.
Definition NEGATIVE_TTL : Z := 3000.

(** [io::Result<Vec<IpAddr>>] *)
Abbreviation answer := (res io_error (list IpAddr)).

(** [CacheState]; a [Notify] is its number. *)
Inductive CacheState : Type :=
| Ready (ips : list IpAddr) (expires : Z)
| InFlight (notify : nat).

Definition no_records (name suffix : str) : io_error := IoOther ("dns: нет записей для " ++ name ++ suffix).

(** [cache_result] *)
Definition cache_result (name : str) (ips : list IpAddr) : answer :=
  match ips with [] => Err (no_records name " (кэш)") | _ => Ok ips end.

(** [resolve_uncached], given what the two queries return. *)
Definition resolve_uncached (name : str) (a aaaa : answer) : answer :=
  let ips := default [] (res_ok a) ++ default [] (res_ok aaaa) in
  match ips with [] => Err (no_records name "") | _ => Ok ips end.

(** The section of [resolve] under the lock: a cached answer, someone to wait
    for, or the leader's role, taken with a new notify. *)
Inductive Look : Type :=
| LookReturn (r : answer)
| LookWait (notify : nat)
| LookLead.

Definition look (cache : gmap str CacheState) (now : Z) (name : str) (fresh : nat) : gmap str CacheState * Look :=
  match cache !! name with
  | Some (Ready ips expires) =>
      if now <? expires then (cache, LookReturn (cache_result name ips))
      else (<[name := InFlight fresh]> cache, LookLead)
  | Some (InFlight n) => (cache, LookWait n)
  | None => (<[name := InFlight fresh]> cache, LookLead)
  end.

(** What [resolve_leader] stores for a result, and for how long. *)
Definition ttl (r : answer) : Z := match r with Ok _ => POSITIVE_TTL | _ => NEGATIVE_TTL end.

(** The section of [resolve_leader] under the lock: the new entry, and the
    notify to wake. *)
Definition publish (cache : gmap str CacheState) (now : Z) (name : str) (r : answer) : gmap str CacheState * option nat :=
  (<[name := Ready (default [] (res_ok r)) (now + ttl r)]> cache,
   match cache !! name with Some (InFlight n) => Some n | _ => None end).

(** ** The tasks *)

Inductive Task : Type :=
| Looking (name : str)                                (** about to take the lock *)
| Cloned (name : str) (notify : nat)                  (** has the [Notify] of the leader, not yet [notified()] *)
| Waiting (name : str) (notify : nat) (deadline : Z)  (** in [timeout(.., n.notified())] *)
| Leading (name : str) (notify : nat)                 (** in [resolve_uncached] *)
| Finished (name : str) (r : answer) (at_ : Z).

Definition name_of (k : Task) : str :=
  match k with
  | Looking name | Cloned name _ | Waiting name _ _ | Leading name _ | Finished name _ _ => name
  end.

Record World : Type := mkWorld {
  w_cache : gmap str CacheState;
  w_now : Z;
  w_tasks : gmap nat Task;
  w_fresh : nat;
  w_log : list (str * answer * Z)  (** the results of leaders, the last first *)
}.

Definition initial : World := mkWorld ∅ 0 ∅ 0 [].

Definition set_task (w : World) (t : nat) (k : Task) : World :=
  mkWorld (w_cache w) (w_now w) (<[t := k]> (w_tasks w)) (w_fresh w) (w_log w).

(** What becomes of a task that looked. *)
Definition after_look (w : World) (t : nat) (name : str) : World :=
  let '(cache, l) := look (w_cache w) (w_now w) name (w_fresh w) in
  match l with
  | LookReturn r => set_task w t (Finished name r (w_now w))
  | LookWait n => set_task w t (Cloned name n)
  | LookLead => mkWorld cache (w_now w) (<[t := Leading name (w_fresh w)]> (w_tasks w)) (S (w_fresh w)) (w_log w)
  end.

(** [n.notify_waiters()]: it wakes the tasks that wait at this moment, and no
    task that starts to wait later. *)
Definition wake (n : nat) (k : Task) : Task :=
  match k with
  | Waiting name n' _ => if decide (n = n') then Looking name else k
  | _ => k
  end.

Definition notify_waiters (n : option nat) (tasks : gmap nat Task) : gmap nat Task :=
  match n with Some n => wake n <$> tasks | None => tasks end.

(** What becomes of a leader whose queries returned. *)
Definition after_publish (w : World) (t : nat) (name : str) (r : answer) : World :=
  let '(cache, n) := publish (w_cache w) (w_now w) name r in
  mkWorld cache (w_now w) (<[t := Finished name r (w_now w)]> (notify_waiters n (w_tasks w))) (w_fresh w)
    ((name, r, w_now w) :: w_log w).

Section steps.
Context (timeout : Z).

Inductive step : World -> World -> Prop :=
| step_spawn w t name : w_tasks w !! t = None -> step w (set_task w t (Looking name))
| step_look w t name : w_tasks w !! t = Some (Looking name) -> step w (after_look w t name)
| step_wait w t name n : w_tasks w !! t = Some (Cloned name n) ->
    step w (set_task w t (Waiting name n (w_now w + timeout + 2000)))
| step_elapsed w t name n d : w_tasks w !! t = Some (Waiting name n d) -> d <= w_now w ->
    step w (set_task w t (Looking name))
| step_publish w t name n a aaaa : w_tasks w !! t = Some (Leading name n) ->
    step w (after_publish w t name (resolve_uncached name a aaaa))
| step_tick w d : 0 <= d ->
    step w (mkWorld (w_cache w) (w_now w + d) (w_tasks w) (w_fresh w) (w_log w)).

(** The future of a task is dropped: a timeout around it, or a closed connection. *)
Definition drop_task (w : World) (t : nat) : World :=
  mkWorld (w_cache w) (w_now w) (delete t (w_tasks w)) (w_fresh w) (w_log w).

Inductive cancel : World -> World -> Prop :=
| cancel_task w t : cancel w (drop_task w t).

Definition any_step (w w' : World) : Prop := step w w' \/ cancel w w'.

Definition reachable (w : World) : Prop := rtc any_step initial w.
Definition reachable_without_cancel (w : World) : Prop := rtc step initial w.

End steps.

(** ** The invariant *)

(** Entries of the log, the later first: those of one name lie at least the TTL
    of the earlier apart. *)
Definition spaced (later earlier : str * answer * Z) : Prop :=
  later.1.1 = earlier.1.1 -> earlier.2 + ttl earlier.1.2 <= later.2.

(** What the log says of a name whose cache entry is [c]. *)
Definition logged (w : World) (name : str) (c : option CacheState) : Prop :=
  match c with
  | Some (Ready ips expires) =>
      (forall r at_, (name, r, at_) ∈ w_log w -> at_ + ttl r <= expires) /\
      exists r at_, (name, r, at_) ∈ w_log w /\ ips = default [] (res_ok r) /\ expires = at_ + ttl r
  | Some (InFlight n) => (n < w_fresh w)%nat /\ forall r at_, (name, r, at_) ∈ w_log w -> at_ + ttl r <= w_now w
  | None => forall r at_, (name, r, at_) ∉ w_log w
  end.

(** An answer that comes from an entry of the log, within its life. *)
Definition fresh_answer (w : World) (name : str) (r : answer) (at_ : Z) : Prop :=
  exists r0 at0, (name, r0, at0) ∈ w_log w /\ at0 <= at_ < at0 + ttl r0 /\ res_ok r = res_ok r0.

Record inv (w : World) : Prop := {
  inv_lead : forall t name n, w_tasks w !! t = Some (Leading name n) -> w_cache w !! name = Some (InFlight n);
  inv_one : forall t t' name name' n, w_tasks w !! t = Some (Leading name n) -> w_tasks w !! t' = Some (Leading name' n) -> t = t';
  inv_logged : forall name, logged w name (w_cache w !! name);
  inv_spaced : StronglySorted spaced (w_log w);
  inv_past : forall name r at_, (name, r, at_) ∈ w_log w -> at_ <= w_now w /\ res_ok r <> Some [];
  inv_fresh : forall t name r at_, w_tasks w !! t = Some (Finished name r at_) -> fresh_answer w name r at_
}.

Lemma ttl_pos r : 0 < ttl r.
Proof. by destruct r. Qed.

Lemma inv_initial : inv initial.
Proof.
  split; cbn.
  - intros t name n H. by rewrite lookup_empty in H.
  - intros t t' name name' n H. by rewrite lookup_empty in H.
  - intros name. rewrite lookup_empty. cbn. intros r at_. apply not_elem_of_nil.
  - constructor.
  - intros name r at_ H. by apply not_elem_of_nil in H.
  - intros t name r at_ H. by rewrite lookup_empty in H.
Qed.

(** A task that becomes neither a leader nor finished. *)
Definition passive (k : Task) : Prop :=
  match k with Looking _ | Cloned _ _ | Waiting _ _ _ => True | _ => False end.

Lemma inv_tasks w tasks :
  inv w ->
  (forall t name n, tasks !! t = Some (Leading name n) -> w_tasks w !! t = Some (Leading name n)) ->
  (forall t name r at_, tasks !! t = Some (Finished name r at_) ->
     w_tasks w !! t = Some (Finished name r at_) \/ fresh_answer w name r at_) ->
  inv (mkWorld (w_cache w) (w_now w) tasks (w_fresh w) (w_log w)).
Proof.
  intros [H1 H2 H3 H4 H5 H6] Hl Hf. split; cbn; [| |exact H3|exact H4|exact H5|].
  - intros t name n Ht. by eapply H1, Hl.
  - intros t t' name name' n Ht Ht'. eapply H2; by apply Hl.
  - intros t name r at_ Ht. destruct (Hf _ _ _ _ Ht) as [Hw|]; [|done]. by apply (H6 t).
Qed.

Lemma inv_set_passive w t k : inv w -> passive k -> inv (set_task w t k).
Proof.
  intros Hi Hk. apply inv_tasks; [done| |].
  - intros t' name n. rewrite lookup_insert. case_decide; [|done]. by intros [= ->].
  - intros t' name r at_. rewrite lookup_insert. case_decide; [|by left]. by intros [= ->].
Qed.

Lemma cache_result_ok name ips : res_ok (cache_result name ips) = match ips with [] => None | _ => Some ips end.
Proof. by destruct ips. Qed.

Lemma resolve_uncached_ok name a aaaa : res_ok (resolve_uncached name a aaaa) <> Some [].
Proof. unfold resolve_uncached. by destruct (_ ++ _) eqn:E; cbn; [|injection 1]. Qed.

Lemma inv_look w t name : inv w -> w_tasks w !! t = Some (Looking name) -> inv (after_look w t name).
Proof.
  intros Hi Ht. pose proof (inv_logged w Hi name) as Hlog. unfold after_look, look.
  assert ((forall n, w_cache w !! name <> Some (InFlight n)) -> (forall r at_, (name, r, at_) ∈ w_log w -> at_ + ttl r <= w_now w) ->
    inv (mkWorld (<[name := InFlight (w_fresh w)]> (w_cache w)) (w_now w) (<[t := Leading name (w_fresh w)]> (w_tasks w))
           (S (w_fresh w)) (w_log w))) as Hlead.
  { intros Hno Hold. destruct Hi as [H1 H2 H3 H4 H5 H6].
    assert (forall t' name' n, w_tasks w !! t' = Some (Leading name' n) -> name' <> name /\ (n < w_fresh w)%nat) as Hl.
    { intros t' name' n Ht'. pose proof (H1 _ _ _ Ht') as Hc. split; [by intros ->; by destruct (Hno n)|].
      pose proof (H3 name') as H. rewrite Hc in H. apply H. }
    split; cbn; [| | |exact H4|exact H5|].
    - intros t' name' n. rewrite lookup_insert. case_decide as Hd; [intros [= <- <-]; by rewrite lookup_insert_eq|].
      intros Ht'. destruct (Hl _ _ _ Ht') as [Hne _]. rewrite lookup_insert_ne by done. by eapply H1.
    - intros t1 t2 name1 name2 n. rewrite !lookup_insert.
      case_decide as Hd1; case_decide as Hd2; [congruence| | |by apply H2].
      + intros [= <- <-] Ht2. destruct (Hl _ _ _ Ht2). lia.
      + intros Ht1 [= <- <-]. destruct (Hl _ _ _ Ht1). lia.
    - intros name'. rewrite lookup_insert. case_decide as Hd; [subst name'; cbn; split; [lia|done]|].
      pose proof (H3 name') as H. destruct (w_cache w !! name') as [[ips ex|n]|]; cbn in *; [done| |done].
      split; [lia|apply H].
    - intros t' name' r at_. rewrite lookup_insert. case_decide; [done|]. apply H6. }
  destruct (w_cache w !! name) as [[ips ex|n]|] eqn:Ec; cbn in Hlog.
  - destruct Hlog as (Hall & r0 & at0 & Hin & -> & ->). destruct (w_now w <? _) eqn:E; cbn.
    + apply inv_tasks; [done| |].
      * intros t' name' n. rewrite lookup_insert. by case_decide.
      * intros t' name' r at_. rewrite lookup_insert. case_decide; [|by left]. intros [= <- <- <-]. right.
        destruct (inv_past w Hi _ _ _ Hin) as [Hp Hne]. exists r0, at0. split; [done|]. split; [lia|].
        rewrite cache_result_ok. destruct (res_ok r0) as [[|i ips]|]; done.
    + apply Hlead; [done|]. intros r at_ Hr. specialize (Hall _ _ Hr). lia.
  - by apply inv_set_passive.
  - apply Hlead; [done|]. intros r at_ Hr. by destruct (Hlog r at_).
Qed.

Lemma wake_lead n tasks t name m : notify_waiters n tasks !! t = Some (Leading name m) -> tasks !! t = Some (Leading name m).
Proof.
  destruct n as [n|]; [|done]. cbn. rewrite lookup_fmap. destruct (tasks !! t) as [k|]; [|done]. cbn. intros [= Hk]. f_equal.
  destruct k; cbn in Hk; try done. by case_decide.
Qed.

Lemma wake_finished n tasks t name r at_ :
  notify_waiters n tasks !! t = Some (Finished name r at_) -> tasks !! t = Some (Finished name r at_).
Proof.
  destruct n as [n|]; [|done]. cbn. rewrite lookup_fmap. destruct (tasks !! t) as [k|]; [|done]. cbn. intros [= Hk]. f_equal.
  destruct k; cbn in Hk; try done. by case_decide.
Qed.

Lemma inv_publish w t name n r :
  inv w -> w_tasks w !! t = Some (Leading name n) -> res_ok r <> Some [] -> inv (after_publish w t name r).
Proof.
  intros Hi Ht Hr. pose proof (inv_logged w Hi name) as Hlog. unfold after_publish, publish.
  rewrite (inv_lead w Hi _ _ _ Ht) in *. cbn in Hlog. destruct Hlog as [_ Hold].
  destruct Hi as [H1 H2 H3 H4 H5 H6]. pose proof (ttl_pos r) as Hpos. split; cbn.
  - intros t' name' m. rewrite lookup_insert. case_decide as Hd; [done|]. intros Ht'%(wake_lead (Some n)).
    rewrite lookup_insert_ne; [by eapply H1|]. intros <-.
    pose proof (H1 _ _ _ Ht) as E1. pose proof (H1 _ _ _ Ht') as E2. apply Hd. eapply H2; [exact Ht|]. by rewrite E1 in E2; injection E2 as ->.
  - intros t1 t2 name1 name2 m. rewrite !lookup_insert. case_decide; [done|]. case_decide; [done|].
    intros E1%(wake_lead (Some n)) E2%(wake_lead (Some n)). by eapply H2.
  - intros name'. rewrite lookup_insert. case_decide as Hd.
    + subst name'. cbn. split.
      * intros r' at' [[= -> ->]|Hin]%elem_of_cons; [lia|]. specialize (Hold _ _ Hin). lia.
      * exists r, (w_now w). split; [by left|done].
    + pose proof (H3 name') as H.
      assert (forall r' at', (name', r', at') ∈ (name, r, w_now w) :: w_log w <-> (name', r', at') ∈ w_log w) as Hin.
      { intros r' at'. rewrite elem_of_cons. split; [|by right]. intros [[= -> _ _]|]; done. }
      destruct (w_cache w !! name') as [[ips ex|m]|]; cbn in *.
      * destruct H as (Ha & r0 & at0 & Hi0 & Hrest). split; [intros r' at' H'%Hin; by apply Ha|].
        exists r0, at0. split; [by apply Hin|done].
      * split; [apply H|]. intros r' at' H'%Hin. by apply H.
      * intros r' at' H'%Hin. by apply (H r' at').
  - constructor; [done|]. apply Forall_forall. intros [[name' r'] at'] Hin. unfold spaced. cbn. intros <-. by apply Hold.
  - intros name' r' at' [[= -> -> ->]|Hin]%elem_of_cons; [done|]. by apply (H5 name').
  - intros t' name' r' at'. rewrite lookup_insert. case_decide as Hd.
    + intros [= <- <- <-]. exists r, (w_now w). split; [by left|]. split; [lia|done].
    + intros Ht'%(wake_finished (Some n)). destruct (H6 _ _ _ _ Ht') as (r0 & at0 & Hin & Hrest).
      exists r0, at0. split; [by right|done].
Qed.

Lemma inv_step timeout w w' : inv w -> any_step timeout w w' -> inv w'.
Proof.
  intros Hi [Hs|Hc].
  - destruct Hs as [w t name _|w t name Ht|w t name n _|w t name n d _ _|w t name n a aaaa Ht|w d Hd].
    1,3,4: by apply inv_set_passive.
    + by apply inv_look.
    + eapply inv_publish; [done|done|]. apply resolve_uncached_ok.
    + destruct Hi as [H1 H2 H3 H4 H5 H6]. split; cbn; [done|done| |done| |done].
      * intros name. pose proof (H3 name) as H. destruct (w_cache w !! name) as [[ips ex|n]|]; cbn in *; [done| |done].
        split; [apply H|]. intros r at_ Hin. destruct H as [_ H]. specialize (H _ _ Hin). lia.
      * intros name r at_ Hin. destruct (H5 _ _ _ Hin). split; [lia|done].
  - destruct Hc as [w t]. apply inv_tasks; [done| |].
    + intros t' name n [_ H]%lookup_delete_Some. done.
    + intros t' name r at_ [_ H]%lookup_delete_Some. by left.
Qed.

Lemma resolver_inv timeout w : reachable timeout w -> inv w.
Proof.
  intros H. assert (forall w1 w2, rtc (any_step timeout) w1 w2 -> inv w1 -> inv w2) as Hr.
  { intros w1 w2. induction 1 as [|w1 w2 w3 Hs _ IH]; [done|]. intros Hi. apply IH. by eapply inv_step. }
  apply (Hr initial); [done|]. apply inv_initial.
Qed.

(** ** Safety, also when futures are dropped *)

(** C7. Single flight: whatever the interleaving of the connections that
    resolve, and even when their futures are dropped midway, a name has at most
    one query in flight, and two completed queries of one name lie at least the
    TTL of the earlier result apart (five minutes after a success, three
    seconds after a failure). *)
Theorem single_flight (timeout : Z) (w : World) (Hr : reachable timeout w) :
  (forall t t' name n n', w_tasks w !! t = Some (Leading name n) -> w_tasks w !! t' = Some (Leading name n') -> t = t') /\
  StronglySorted spaced (w_log w).
Proof.
  apply resolver_inv in Hr. split; [|apply Hr]. intros t t' name n n' Ht Ht'.
  pose proof (inv_lead w Hr _ _ _ Ht) as H1. pose proof (inv_lead w Hr _ _ _ Ht') as H2.
  rewrite H1 in H2. injection H2 as ->. by eapply inv_one.
Qed.

(** C8. No stale and no mixed-up answers: every answer a connection gets for a
    name is the outcome of a query of that very name, made by the connection
    itself or by another, and not older than the TTL of that outcome at the
    moment it is given. *)
Theorem answers_are_fresh (timeout : Z) (w : World) (t : nat) (name : str) (r : answer) (at_ : Z)
    (Hr : reachable timeout w) (Ht : w_tasks w !! t = Some (Finished name r at_)) :
  exists r0 at0, (name, r0, at0) ∈ w_log w /\ at0 <= at_ < at0 + ttl r0 /\ res_ok r = res_ok r0.
Proof. apply resolver_inv in Hr. exact (inv_fresh w Hr t name r at_ Ht). Qed.

(** ** A leader that is dropped *)

(** A name whose query nobody makes, but whose entry says that somebody does. *)
Definition orphaned (name : str) (n : nat) (w : World) : Prop :=
  w_cache w !! name = Some (InFlight n) /\ forall t m, w_tasks w !! t <> Some (Leading name m).

(** The answers to [name] in [w'] were already there in [w]. *)
Definition no_new_answer (name : str) (w w' : World) : Prop :=
  forall t r at_, w_tasks w' !! t = Some (Finished name r at_) -> w_tasks w !! t = Some (Finished name r at_).

Lemma orphaned_tasks name n w tasks now :
  orphaned name n w ->
  (forall t k, tasks !! t = Some k -> w_tasks w !! t = Some k \/ passive k \/ name_of k <> name) ->
  orphaned name n (mkWorld (w_cache w) now tasks (w_fresh w) (w_log w)) /\
  no_new_answer name w (mkWorld (w_cache w) now tasks (w_fresh w) (w_log w)).
Proof.
  intros [Hc Hl] Ht. split; [split; [done|]|]; cbn.
  - intros t m H. destruct (Ht _ _ H) as [H'|[H'|H']]; [by apply (Hl t m)|done|done].
  - intros t r at_ H. cbn in H. destruct (Ht _ _ H) as [H'|[H'|H']]; done.
Qed.

Lemma orphaned_step timeout name n w w' :
  orphaned name n w -> any_step timeout w w' -> orphaned name n w' /\ no_new_answer name w w'.
Proof.
  intros Ho [Hs|Hc].
  - assert (forall t k, passive k -> orphaned name n (set_task w t k) /\ no_new_answer name w (set_task w t k)) as Hp.
    { intros t k Hk. apply orphaned_tasks; [done|]. intros t' k'. rewrite lookup_insert. case_decide; [|by left].
      intros [= <-]. by right; left. }
    destruct Hs as [w t x _|w t x Ht|w t x m _|w t x m d _ _|w t x m a aaaa Ht|w d Hd]; try by apply Hp.
    + unfold after_look, look. destruct (decide (x = name)) as [->|Hne].
      { destruct Ho as [Hc Hl]. rewrite Hc. by apply Hp. }
      assert (forall r at_, orphaned name n (set_task w t (Finished x r at_)) /\ no_new_answer name w (set_task w t (Finished x r at_))) as Hf.
      { intros r at_. apply orphaned_tasks; [done|]. intros t' k'. rewrite lookup_insert. case_decide; [|by left].
        intros [= <-]. by right; right. }
      assert (forall c, orphaned name n (mkWorld (<[x := c]> (w_cache w)) (w_now w) (<[t := Leading x (w_fresh w)]> (w_tasks w)) (S (w_fresh w)) (w_log w))
        /\ no_new_answer name w (mkWorld (<[x := c]> (w_cache w)) (w_now w) (<[t := Leading x (w_fresh w)]> (w_tasks w)) (S (w_fresh w)) (w_log w))) as Hl.
      { intros c. destruct Ho as [Hc Ho]. split; [split|]; cbn.
        - by rewrite lookup_insert_ne.
        - intros t' m. rewrite lookup_insert. case_decide; [by intros [= -> _]|apply Ho].
        - intros t' r at_. cbn. rewrite lookup_insert. by case_decide. }
      destruct (w_cache w !! x) as [[ips ex|m]|]; [destruct (w_now w <? ex)|..]; cbn; auto.
      by apply Hp.
    + assert (x <> name) as Hne by (intros ->; destruct Ho as [_ Ho]; by apply (Ho t m)).
      unfold after_publish, publish. destruct Ho as [Hc Ho]. split; [split|]; cbn.
      * by rewrite lookup_insert_ne.
      * intros t' m'. rewrite lookup_insert. case_decide; [done|]. intros Hw%wake_lead. by apply (Ho t' m').
      * intros t' r at_. cbn. rewrite lookup_insert. case_decide; [by intros [= -> _ _]|]. apply wake_finished.
    + apply orphaned_tasks; [done|]. by left.
  - destruct Hc as [w t]. apply orphaned_tasks; [done|]. intros t' k [_ H]%lookup_delete_Some. by left.
Qed.

Lemma orphaned_steps timeout name n w w' :
  rtc (any_step timeout) w w' -> orphaned name n w -> orphaned name n w' /\ no_new_answer name w w'.
Proof.
  induction 1 as [|w1 w2 w3 Hs _ IH]; [by intros Ho; split; [|intros t r at_]|]. intros Ho. destruct (orphaned_step _ _ _ _ _ Ho Hs) as [Ho2 Hn].
  destruct (IH Ho2) as [Ho3 Hn']. split; [done|]. intros t r at_ H. by apply Hn, Hn'.
Qed.

(** C22. A dropped leader blocks its name for good: when the future of the
    connection that queries a name is dropped (its timeout elapsed, or the
    client left) the entry in flight stays, and whatever happens afterwards -
    waits that time out, new connections, any amount of time - no connection
    gets an answer for that name any more, and no query for it is made. *)
Theorem dropped_leader_blocks_name (timeout : Z) (w w' : World) (t n : nat) (name : str)
    (Hr : reachable timeout w) (Ht : w_tasks w !! t = Some (Leading name n))
    (Hs : rtc (any_step timeout) (drop_task w t) w') :
  w_cache w' !! name = Some (InFlight n) /\
  (forall t' m, w_tasks w' !! t' <> Some (Leading name m)) /\
  (forall t' r at_, w_tasks w' !! t' = Some (Finished name r at_) -> w_tasks w !! t' = Some (Finished name r at_)).
Proof.
  apply resolver_inv in Hr.
  assert (orphaned name n (drop_task w t)) as Ho.
  { split; [by apply (inv_lead w Hr t)|]. intros t' m. cbn. intros [Hne H]%lookup_delete_Some. apply Hne.
    pose proof (inv_lead w Hr _ _ _ Ht) as H1. pose proof (inv_lead w Hr _ _ _ H) as H2.
    rewrite H1 in H2. injection H2 as <-. by eapply inv_one. }
  destruct (orphaned_steps _ _ _ _ _ Hs Ho) as [[Hc Hl] Hn]. split; [done|]. split; [done|].
  intros t' r at_ H%Hn. cbn in H. by apply lookup_delete_Some in H as [_ H].
Qed.

(** ** Without dropped futures every connection can finish *)

(** Somebody makes every query that is in flight, and nobody waits longer than
    the limit. *)
Record alive (timeout : Z) (w : World) : Prop := {
  alive_leader : forall name n, w_cache w !! name = Some (InFlight n) -> exists t, w_tasks w !! t = Some (Leading name n);
  alive_deadline : forall t name n d, w_tasks w !! t = Some (Waiting name n d) -> d <= w_now w + timeout + 2000
}.

Lemma notify_leading n tasks t name m : tasks !! t = Some (Leading name m) -> notify_waiters n tasks !! t = Some (Leading name m).
Proof. destruct n as [n|]; [|done]. cbn. rewrite lookup_fmap. by intros ->. Qed.

Lemma notify_waiting n tasks t name m d : notify_waiters n tasks !! t = Some (Waiting name m d) -> tasks !! t = Some (Waiting name m d).
Proof.
  destruct n as [n|]; [|done]. cbn. rewrite lookup_fmap. destruct (tasks !! t) as [k|]; [|done]. cbn. intros [= Hk]. f_equal.
  destruct k; cbn in Hk; try done. by case_decide.
Qed.

Lemma alive_set timeout w t k k' :
  alive timeout w -> w_tasks w !! t = k -> (forall name n, k <> Some (Leading name n)) ->
  (forall name n d, k' = Waiting name n d -> d <= w_now w + timeout + 2000) -> alive timeout (set_task w t k').
Proof.
  intros [Ha Hd] Ht Hk Hk'. split; cbn.
  - intros name n Hc. destruct (Ha _ _ Hc) as [t' Ht']. exists t'. rewrite lookup_insert. case_decide as E; [|done].
    subst t'. rewrite Ht in Ht'. by destruct (Hk name n).
  - intros t' name n d. rewrite lookup_insert. case_decide; [intros [= E]; by eapply Hk'|]. apply Hd.
Qed.

Lemma alive_step timeout w w' : inv w -> alive timeout w -> step timeout w w' -> alive timeout w'.
Proof.
  intros Hi Ha Hs. destruct Hs as [w t name Ht|w t name Ht|w t name n Ht|w t name n d Ht Hd|w t name n a aaaa Ht|w d Hd].
  1,3,4: eapply alive_set; [done|exact Ht|done|..]; intros name' n' d' E; try done; injection E as _ _ <-; lia.
  - unfold after_look, look.
    assert (forall k', (forall name n d, k' <> Waiting name n d) -> alive timeout (set_task w t k')) as Hset.
    { intros k' Hk'. eapply alive_set; [done|exact Ht|done|]. intros name' n' d' ->. by destruct (Hk' name' n' d'). }
    assert (alive timeout (mkWorld (<[name := InFlight (w_fresh w)]> (w_cache w)) (w_now w) (<[t := Leading name (w_fresh w)]> (w_tasks w)) (S (w_fresh w)) (w_log w))) as Hl.
    { destruct Ha as [Ha Hd]. split; cbn.
      - intros name' n. rewrite lookup_insert. case_decide as E.
        + subst name'. intros [= <-]. exists t. by rewrite lookup_insert_eq.
        + intros [t' Ht']%Ha. exists t'. rewrite lookup_insert_ne; [done|]. intros <-. by rewrite Ht in Ht'.
      - intros t' name' n d. rewrite lookup_insert. case_decide; [done|]. apply Hd. }
    destruct (w_cache w !! name) as [[ips ex|m]|]; [destruct (w_now w <? ex)|..]; cbn; auto.
  - unfold after_publish, publish. destruct Ha as [Ha Hd]. split; cbn.
    + intros name' m. rewrite lookup_insert. case_decide as E; [done|]. intros Hc. destruct (Ha _ _ Hc) as [t' Ht'].
      exists t'. rewrite lookup_insert_ne; [by apply notify_leading|]. intros <-. rewrite Ht in Ht'. by injection Ht' as ->.
    + intros t' name' m d. rewrite lookup_insert. case_decide; [done|]. intros Hw%notify_waiting. exact (Hd _ _ _ _ Hw).
  - destruct Ha as [Ha Hd']. split; cbn; [done|]. intros t' name n d' H%Hd'. lia.
Qed.

Lemma reachable_alive timeout w : reachable_without_cancel timeout w -> inv w /\ alive timeout w.
Proof.
  intros H. assert (forall w1 w2, rtc (step timeout) w1 w2 -> inv w1 /\ alive timeout w1 -> inv w2 /\ alive timeout w2) as Hr.
  { intros w1 w2. induction 1 as [|w1 w2 w3 Hs _ IH]; [done|]. intros [Hi Ha]. apply IH.
    split; [eapply inv_step; [done|by left]|by eapply alive_step]. }
  apply (Hr initial); [done|]. split; [apply inv_initial|]. split; cbn.
  - intros name n Hc. by rewrite lookup_empty in Hc.
  - intros t name n d Ht. by rewrite lookup_empty in Ht.
Qed.

(** What a task is looking for or has found. *)
Definition finishes (timeout : Z) (w : World) (t : nat) (name : str) (within : Z) : Prop :=
  exists w' r at_, rtc (step timeout) w w' /\ w_tasks w' !! t = Some (Finished name r at_) /\ w_now w' <= w_now w + within.

Lemma finish_leading timeout w t name n : w_tasks w !! t = Some (Leading name n) -> finishes timeout w t name 0.
Proof.
  intros Ht. eexists _, _, _. split; [apply rtc_once; exact (step_publish timeout w t name n (Ok []) (Ok []) Ht)|].
  cbn. split; [by rewrite lookup_insert_eq|lia].
Qed.

Lemma finishes_step timeout w w' t name within :
  step timeout w w' -> finishes timeout w' t name within -> finishes timeout w t name (within + (w_now w' - w_now w)).
Proof.
  intros Hs (w2 & r & at_ & Hr & Ht & Hn). exists w2, r, at_. split; [by eapply rtc_l|]. split; [done|lia].
Qed.

(** A task that looks at a name nobody is querying. *)
Lemma finish_free timeout w t name :
  w_tasks w !! t = Some (Looking name) -> (forall n, w_cache w !! name <> Some (InFlight n)) -> finishes timeout w t name 0.
Proof.
  intros Ht Hno. pose proof (step_look timeout w t name Ht) as Hs.
  replace 0 with (0 + (w_now (after_look w t name) - w_now w)).
  2:{ unfold after_look, look. destruct (w_cache w !! name) as [[? ex|?]|]; [destruct (w_now w <? ex)|..]; cbn; lia. }
  eapply finishes_step; [exact Hs|]. clear Hs. unfold after_look, look.
  destruct (w_cache w !! name) as [[ips ex|m]|]; [destruct (w_now w <? ex)|by destruct (Hno m)|].
  2,3: apply (finish_leading _ _ _ _ (w_fresh w)); cbn; by rewrite lookup_insert_eq.
  eexists _, _, _. split; [apply rtc_refl|]. cbn. split; [by rewrite lookup_insert_eq|lia].
Qed.

Lemma finish_looking timeout w t name : alive timeout w -> w_tasks w !! t = Some (Looking name) -> finishes timeout w t name 0.
Proof.
  intros Ha Ht. destruct (w_cache w !! name) as [[ips ex|m]|] eqn:Ec.
  1,3: apply finish_free; [done|intros n; by rewrite Ec].
  destruct (alive_leader _ _ Ha _ _ Ec) as [t' Ht'].
  pose proof (step_publish timeout w t' name m (Ok []) (Ok []) Ht') as Hs.
  eapply (finishes_step timeout _ _ _ _ 0) in Hs; [|apply finish_free].
  - cbn in Hs. by replace (0 + (w_now w - w_now w)) with 0 in Hs by lia.
  - cbn. rewrite lookup_insert_ne by (intros ->; congruence).
    unfold publish. rewrite Ec. cbn. by rewrite lookup_fmap, Ht.
  - intros n. cbn. by rewrite lookup_insert_eq.
Qed.

Lemma finish_waiting timeout w t name n d :
  0 <= timeout -> alive timeout w -> w_tasks w !! t = Some (Waiting name n d) -> finishes timeout w t name (timeout + 2000).
Proof.
  intros Hto Ha Ht. pose proof (alive_deadline _ _ Ha _ _ _ _ Ht) as Hd.
  set (w1 := mkWorld (w_cache w) (w_now w + Z.max 0 (d - w_now w)) (w_tasks w) (w_fresh w) (w_log w)).
  assert (step timeout w w1) as H1 by (apply step_tick; lia).
  assert (alive timeout w1) as Ha1.
  { destruct Ha as [Hl Hw]. split; [exact Hl|]. intros t' name' n' d' Ht'. cbn in *. apply Hw in Ht'. lia. }
  assert (step timeout w1 (set_task w1 t (Looking name))) as H2 by (eapply step_elapsed; [exact Ht|cbn; lia]).
  assert (finishes timeout (set_task w1 t (Looking name)) t name 0) as (w' & r & at_ & Hs & Hf & Hn).
  { apply finish_looking; [|cbn; by rewrite lookup_insert_eq]. by eapply alive_set. }
  exists w', r, at_. split; [by eapply rtc_l, rtc_l|]. split; [done|]. cbn in Hn. lia.
Qed.

(** C9. Without dropped futures nobody is stuck: from every state that the
    resolver can reach, whatever the interleaving and the answers of the
    servers, every connection that resolves a name can get its answer, and
    within the waiting limit (the query timeout plus two seconds), even if it
    missed the wake-up between taking the leader's notify and waiting for it. *)
Theorem resolve_can_finish (timeout : Z) (w : World) (t : nat) (k : Task)
    (Hto : 0 <= timeout) (Hr : reachable_without_cancel timeout w) (Ht : w_tasks w !! t = Some k) :
  exists w' r at_, rtc (step timeout) w w' /\ w_tasks w' !! t = Some (Finished (name_of k) r at_) /\
    w_now w' <= w_now w + (timeout + 2000).
Proof.
  destruct (reachable_alive _ _ Hr) as [Hi Ha].
  assert (forall within, within <= timeout + 2000 -> finishes timeout w t (name_of k) within ->
    finishes timeout w t (name_of k) (timeout + 2000)) as Hw.
  { intros within Hle (w' & r & at_ & Hs & Hf & Hn). exists w', r, at_. split_and!; [done..|lia]. }
  change (finishes timeout w t (name_of k) (timeout + 2000)). destruct k as [name|name n|name n d|name n|name r at_]; cbn in *.
  - apply (Hw 0); [lia|]. by apply finish_looking.
  - pose proof (step_wait timeout w t name n Ht) as Hs. eapply (finishes_step _ _ _ _ _ (timeout + 2000)) in Hs.
    + cbn in Hs. by replace (timeout + 2000 + (w_now w - w_now w)) with (timeout + 2000) in Hs by lia.
    + eapply (finish_waiting _ _ _ _ n (w_now w + timeout + 2000)); [done| |cbn; by rewrite lookup_insert_eq].
      eapply alive_set; [done|exact Ht|done|]. intros name' n' d [= _ _ <-]. lia.
  - by eapply finish_waiting.
  - apply (Hw 0); [lia|]. by eapply finish_leading.
  - exists w, r, at_. split; [apply rtc_refl|]. split; [done|lia].
Qed.

(** ** A run: two connections resolve one name at once *)

Definition run_lead : World := after_look (set_task (set_task initial 0 (Looking "a")) 1 (Looking "a")) 0 "a".
Definition run_wait : World := set_task (after_look run_lead 1 "a") 1 (Waiting "a" 0 7000).
Definition run_done : World :=
  after_look (after_publish run_wait 0 "a" (resolve_uncached "a" (Ok [V4 1]) (Err UnexpectedEof))) 1 "a".

Lemma run_lead_steps : rtc (step 5000) initial run_lead.
Proof.
  eapply rtc_l; [by apply (step_spawn _ initial 0 "a")|]. eapply rtc_l; [by apply (step_spawn _ _ 1 "a")|].
  eapply rtc_l; [by apply (step_look _ _ 0 "a")|]. apply rtc_refl.
Qed.

Lemma run_wait_steps : rtc (step 5000) initial run_wait.
Proof.
  etrans; [apply run_lead_steps|]. eapply rtc_l; [by apply (step_look _ _ 1 "a")|].
  eapply rtc_l; [by apply (step_wait _ _ 1 "a" 0)|]. apply rtc_refl.
Qed.

Lemma run_done_steps : rtc (step 5000) initial run_done.
Proof.
  etrans; [apply run_wait_steps|].
  eapply rtc_l; [by apply (step_publish _ _ 0 "a" 0 (Ok [V4 1]) (Err UnexpectedEof))|].
  eapply rtc_l; [by apply (step_look _ _ 1 "a")|]. apply rtc_refl.
Qed.

Lemma steps_reachable timeout w : rtc (step timeout) initial w -> reachable timeout w.
Proof. apply rtc_subrel. intros w1 w2. by left. Qed.

Lemma single_flight_witness :
  w_log run_done = [(lit "a", Ok [V4 1], 0)] /\ StronglySorted spaced (w_log run_done).
Proof.
  split; [vm_compute; reflexivity|].
  exact (proj2 (single_flight 5000 run_done (steps_reachable _ _ run_done_steps))).
Defined.

Lemma answers_are_fresh_witness :
  exists r0 at0, (lit "a", r0, at0) ∈ w_log run_done /\ at0 <= 0 < at0 + ttl r0 /\ res_ok (E := io_error) (Ok [V4 1]) = res_ok r0.
Proof.
  apply (answers_are_fresh 5000 run_done 1 "a" (Ok [V4 1]) 0 (steps_reachable _ _ run_done_steps)).
  vm_compute. reflexivity.
Defined.

Lemma dropped_leader_blocks_name_witness :
  w_cache (drop_task run_wait 0) !! lit "a" = Some (InFlight 0) /\
  forall w' t r at_, rtc (any_step 5000) (drop_task run_wait 0) w' ->
    w_tasks w' !! t = Some (Finished "a" r at_) -> w_tasks run_wait !! t = Some (Finished "a" r at_).
Proof.
  split; [vm_compute; reflexivity|]. intros w' t r at_ Hs.
  refine (proj2 (proj2 (dropped_leader_blocks_name 5000 run_wait w' 0 0 "a" (steps_reachable _ _ run_wait_steps) _ Hs)) t r at_).
  vm_compute. reflexivity.
Defined.

Lemma resolve_can_finish_witness :
  exists w' r at_, rtc (step 5000) run_wait w' /\ w_tasks w' !! 1%nat = Some (Finished "a" r at_) /\ w_now w' <= 0 + (5000 + 2000).
Proof.
  apply (resolve_can_finish 5000 run_wait 1 (Waiting "a" 0 7000)); [lia|exact run_wait_steps|vm_compute; reflexivity].
Defined.
