(* ===== verification/Conn.v ===== *)
(** * Conversations over a byte stream

    A handler that reads a connection and answers on it is a [conn]: from the
    bytes the peer sends it computes the bytes it writes, and its result with
    the bytes it has not read. Reading past the end of the input is
    [UnexpectedEof]; a write is taken to succeed (a failing write ends the
    handler with an error and nothing else). *)

From S2P Require Import Prelude RustStr NetAddr NetIo.

Definition conn (A : Type) : Type := bytes -> bytes * res io_error (A * bytes).

#[export] Instance conn_ret : MRet conn := fun A a s => ([], Ok (a, s)).

#[export] Instance conn_bind : MBind conn := fun A B f m s =>
  match m s with
  | (out, Ok (a, s')) => let '(out', r) := f a s' in (out ++ out', r)
  | (out, Err e) => (out, Err e)
  | (out, Panic) => (out, Panic)
  end.

(** [read_exact], [write_all], [return Err(e)] and a pure fallible step. *)
Definition c_read (n : nat) : conn bytes := fun s => ([], read_exact n s).
Definition c_byte : conn u8 := fun s => ([], read_u8 s).
Definition c_write (b : bytes) : conn unit := fun s => (b, Ok (tt, s)).
Definition c_err {A} (e : io_error) : conn A := fun s => ([], Err e).
Definition c_lift {A} (r : res io_error A) : conn A :=
  fun s => ([], match r with Ok a => Ok (a, s) | Err e => Err e | Panic => Panic end).

(** [read_u16], [u16::from_be_bytes] of two bytes read *)
Definition c_u16 : conn Z := b ← c_read 2; mret (be_value b).

(** ** Lemmas *)

Lemma c_bind_ok {A B} (m : conn A) (f : A -> conn B) s out a s' :
  m s = (out, Ok (a, s')) -> (m ≫= f) s = (out ++ fst (f a s'), snd (f a s')).
Proof. intros H. cbv [mbind conn_bind]. rewrite H. by destruct (f a s'). Qed.

(** A step that writes nothing. *)
Lemma c_bind_quiet {A B} (m : conn A) (f : A -> conn B) s a s' : m s = ([], Ok (a, s')) -> (m ≫= f) s = f a s'.
Proof. intros H. rewrite (c_bind_ok m f s [] a s' H). cbn. by destruct (f a s'). Qed.

Lemma c_read_app n a s : length a = n -> c_read n (a ++ s) = ([], Ok (a, s)).
Proof. intros H. unfold c_read. by rewrite read_exact_app_n. Qed.

Lemma c_bind_read {B} n a s (f : bytes -> conn B) : length a = n -> (c_read n ≫= f) (a ++ s) = f a s.
Proof. intros H. apply c_bind_quiet. by apply c_read_app. Qed.

Lemma c_bind_byte {B} b s (f : u8 -> conn B) : (c_byte ≫= f) (b :: s) = f b s.
Proof. by apply c_bind_quiet. Qed.

Lemma c_bind_u16 {B} p s (f : Z -> conn B) : 0 <= p < 65536 -> (c_u16 ≫= f) (be_bytes 2 p ++ s) = f p s.
Proof.
  intros Hp. unfold c_u16. cbv [mbind conn_bind]. rewrite c_read_app by apply length_be_bytes. cbn [mret conn_ret app].
  rewrite (be_value_be_bytes_small 2 p Hp). by destruct (f p s).
Qed.

Lemma c_bind_write {B} b s (f : unit -> conn B) : (c_write b ≫= f) s = (b ++ fst (f tt s), snd (f tt s)).
Proof. by erewrite c_bind_ok by done. Qed.

Lemma c_bind_ret {A B} (a : A) s (f : A -> conn B) : (mret a ≫= f) s = f a s.
Proof. by apply c_bind_quiet. Qed.

Lemma c_bind_lift {A B} (a : A) s (f : A -> conn B) : (c_lift (Ok a) ≫= f) s = f a s.
Proof. by apply c_bind_quiet. Qed.

(** A conversation that cannot panic, whatever the peer sends. *)
Definition c_safe {A} (m : conn A) : Prop := forall s, no_panic (snd (m s)).

Lemma c_safe_bind {A B} (m : conn A) (f : A -> conn B) : c_safe m -> (forall a, c_safe (f a)) -> c_safe (m ≫= f).
Proof.
  intros Hm Hf s. specialize (Hm s). cbv [mbind conn_bind]. destruct (m s) as [out [[a s']|e|]]; cbn in *; [|done|done].
  specialize (Hf a s'). by destruct (f a s').
Qed.

Lemma c_safe_read n : c_safe (c_read n).
Proof. intros s. apply read_exact_no_panic. Qed.

Lemma c_safe_byte : c_safe c_byte.
Proof. intros s. apply read_u8_no_panic. Qed.

Lemma c_safe_ret {A} (a : A) : c_safe (mret a).
Proof. by intros s. Qed.

Lemma c_safe_u16 : c_safe c_u16.
Proof. apply c_safe_bind; [apply c_safe_read|]. intros b. apply c_safe_ret. Qed.

Lemma c_safe_write b : c_safe (c_write b).
Proof. by intros s. Qed.

Lemma c_safe_err {A} e : c_safe (c_err (A := A) e).
Proof. by intros s. Qed.

Lemma c_safe_lift {A} (r : res io_error A) : no_panic r -> c_safe (c_lift r).
Proof. intros H s. by destruct r. Qed.

Create HintDb conndb.
#[export] Hint Resolve c_safe_bind c_safe_read c_safe_byte c_safe_ret c_safe_u16 c_safe_write c_safe_err c_safe_lift : conndb.
