(* ===== verification/Socks.v ===== *)
(** * SOCKS5: the local server, the client and the UDP datagrams
    ([crates/net/src/inbound.rs], [socks5_connect] of [outbound.rs], the codec
    of [udp.rs])

    Addresses in SOCKS5 form are also those of Shadowsocks and Trojan
    ([StreamHeaders.v]). *)

From S2P Require Import Prelude RustStr Utf8 NetAddr NetIo Conn Outbound.

(** ** Addresses *)

(** [ATYP | addr | port] of a socket address: 1 and 4. *)
Definition socket_address (a : SocketAddr) : bytes :=
  [to_u8 (if is_ipv4 (sa_ip a) then 1 else 4)] ++ ip_octets (sa_ip a) ++ be_bytes 2 (sa_port a).

(** The form of [socks5_connect] and [encode_ss_address]: the length byte of a
    domain is truncated ([host.len() as u8]), the domain is written whole. *)
Definition encode_ss_address (t : Target) : bytes :=
  match t with
  | TDomain host port => [to_u8 3] ++ [to_u8 (Z.of_nat (length host) mod 256)] ++ host ++ be_bytes 2 port
  | TSocket a => socket_address a
  end.

(** The form of [trojan::encode_address] and [encode_udp_datagram]: a domain is
    cut to 255 bytes. *)
Definition clamped_address (t : Target) : bytes :=
  match t with
  | TDomain host port =>
      let len := Nat.min (length host) 255 in
      [to_u8 3] ++ [to_u8 (Z.of_nat len)] ++ take len host ++ be_bytes 2 port
  | TSocket a => socket_address a
  end.

(** ** The server's handshake *)

(** [reply], [reply_addr] *)
Definition reply (rep : Z) : bytes := of_zs [5; rep; 0; 1; 0; 0; 0; 0; 0; 0].
Definition reply_addr (rep : Z) (a : SocketAddr) : bytes := of_zs [5; rep; 0] ++ socket_address a.

(** [read_target] *)
Definition read_target (atyp : Z) : conn Target :=
  if atyp =? 1 then
    a ← c_read 4; p ← c_u16; mret (TSocket {| sa_ip := v4_of_octets a; sa_port := p |})
  else if atyp =? 4 then
    a ← c_read 16; p ← c_u16; mret (TSocket {| sa_ip := v6_of_octets a; sa_port := p |})
  else if atyp =? 3 then
    l ← c_byte;
    d ← c_read (Z.to_nat (val8 l));
    host ← c_lift (ok_or (from_utf8 d) (IoOther "socks5: некорректный домен"));
    p ← c_u16;
    mret (TDomain host p)
  else c_err (IoOther "socks5: неизвестный ATYP").

Inductive SocksRequest : Type :=
| SocksConnect (t : Target)
| SocksUdpAssociate.

(** [socks_handshake] *)
Definition socks_handshake : conn SocksRequest :=
  version ← c_byte;
  nmethods ← c_byte;
  if negb (val8 version =? 5) then c_err (IoOther "socks5: неверная версия") else
  _ ← c_read (Z.to_nat (val8 nmethods));
  _ ← c_write (of_zs [5; 0]);
  _ ← c_byte;
  cmd ← c_byte;
  _ ← c_byte;
  atyp ← c_byte;
  addr ← read_target (val8 atyp);
  if val8 cmd =? 1 then mret (SocksConnect addr)
  else if val8 cmd =? 3 then mret SocksUdpAssociate
  else _ ← c_write (reply 7); c_err (IoOther "socks5: команда не поддерживается").

(** ** The client's handshake: [socks5_connect] after the connection *)

(** The sub-negotiation of method 2; the lengths are truncated to a byte. *)
Definition socks_auth (cfg : ProxyConfig) : conn unit :=
  let user := default [] (px_username cfg) in
  let pass := default [] (px_password cfg) in
  _ ← c_write ([to_u8 1] ++ [to_u8 (Z.of_nat (length user) mod 256)] ++ user
               ++ [to_u8 (Z.of_nat (length pass) mod 256)] ++ pass);
  _ ← c_byte;
  status ← c_byte;
  if val8 status =? 0 then mret tt else c_err (IoOther "socks5: аутентификация отклонена").

(** The length of the bound address in the reply. *)
Definition bound_len (atyp : Z) : conn nat :=
  if atyp =? 1 then mret 4%nat
  else if atyp =? 4 then mret 16%nat
  else if atyp =? 3 then l ← c_byte; mret (Z.to_nat (val8 l))
  else c_err (IoOther "socks5: неизвестный ATYP в ответе").

Definition socks5_connect (cfg : ProxyConfig) (t : Target) : conn unit :=
  _ ← c_write (of_zs [5; 1; match px_username cfg with Some _ => 2 | None => 0 end]);
  version ← c_byte;
  method ← c_byte;
  if negb (val8 version =? 5) then c_err (IoOther "socks5: неверная версия") else
  _ ← (if val8 method =? 0 then mret tt
       else if val8 method =? 2 then socks_auth cfg
       else c_err (IoOther "socks5: нет приемлемого метода аутентификации"));
  _ ← c_write (of_zs [5; 1; 0] ++ encode_ss_address t);
  _ ← c_byte;
  rep ← c_byte;
  _ ← c_byte;
  atyp ← c_byte;
  if negb (val8 rep =? 0) then c_err (IoOther "socks5: сервер отклонил CONNECT") else
  bnd_len ← bound_len (val8 atyp);
  _ ← c_read (bnd_len + 2);
  mret tt.

(** ** UDP datagrams *)

(** [parse_udp_datagram]: the fragment number, the target and where the data
    starts. Only four bytes are known to be there when [buf[4]] is read. *)
Definition parse_udp_datagram (buf : bytes) : res io_error (Z * Target * nat) :=
  if (length buf <? 4)%nat then Err UnexpectedEof else
  frag ← index buf 2;
  atyp ← index buf 3;
  if val8 atyp =? 1 then
    if (length buf <? 10)%nat then Err UnexpectedEof else
    o ← sub_slice 4 8 buf; port ← index_be16 buf 8;
    Ok (val8 frag, TSocket {| sa_ip := v4_of_octets o; sa_port := port |}, 10%nat)
  else if val8 atyp =? 4 then
    if (length buf <? 22)%nat then Err UnexpectedEof else
    o ← sub_slice 4 20 buf; port ← index_be16 buf 20;
    Ok (val8 frag, TSocket {| sa_ip := v6_of_octets o; sa_port := port |}, 22%nat)
  else if val8 atyp =? 3 then
    l ← index buf 4;
    let len := Z.to_nat (val8 l) in
    let end_ := (5 + len + 2)%nat in
    if (length buf <? end_)%nat then Err UnexpectedEof else
    h ← sub_slice 5 (5 + len) buf; port ← index_be16 buf (5 + len);
    Ok (val8 frag, TDomain (from_utf8_lossy h) port, end_)
  else Err (IoOther "udp: неизвестный ATYP").

(** [encode_udp_datagram] *)
Definition encode_udp_datagram (t : Target) (payload : bytes) : bytes :=
  of_zs [0; 0; 0] ++ clamped_address t ++ payload.

(** ** Lemmas: addresses *)

(** A target as Rust has it, whose domain fits the length byte. *)
Definition short_target (t : Target) : Prop :=
  target_ok t /\ match t with TDomain h _ => utf8_valid h = true /\ (length h <= 255)%nat | _ => True end.

Lemma clamped_short t : short_target t -> clamped_address t = encode_ss_address t.
Proof.
  intros [_ H]. destruct t as [h p|a]; [|done]. destruct H as [_ H]. cbn.
  rewrite Nat.min_l, firstn_all, Z.mod_small by lia. done.
Qed.

(** The address type and what follows it. *)
Definition atyp_of (t : Target) : Z :=
  match t with TDomain _ _ => 3 | TSocket a => if is_ipv4 (sa_ip a) then 1 else 4 end.

Definition address_body (t : Target) : bytes :=
  match t with
  | TDomain h p => [to_u8 (Z.of_nat (length h))] ++ h ++ be_bytes 2 p
  | TSocket a => ip_octets (sa_ip a) ++ be_bytes 2 (sa_port a)
  end.

Lemma atyp_byte t : val8 (to_u8 (atyp_of t)) = atyp_of t.
Proof. destruct t as [h p|[[v|v] p]]; vm_compute; reflexivity. Qed.

Lemma address_shape t : short_target t -> encode_ss_address t = [to_u8 (atyp_of t)] ++ address_body t.
Proof. intros [_ H]. destruct t as [h p|a]; [|done]. destruct H as [_ H]. cbn. by rewrite Z.mod_small by lia. Qed.

Lemma read_target_bind {B} t s (f : Target -> conn B) :
  short_target t -> (read_target (atyp_of t) ≫= f) (address_body t ++ s) = f t s.
Proof.
  intros [[Hp Hip] H]. unfold read_target. destruct t as [h p|[ip p]]; cbn [target_port sa_port sa_ip address_body atyp_of] in *.
  - destruct H as [Hu Hl]. cbn [Z.eqb Pos.eqb]. rewrite <- !app_assoc. cbn [app].
    apply c_bind_quiet.
    rewrite c_bind_byte, val8_to_u8, Z.mod_small, Nat2Z.id, c_bind_read by (done || lia). unfold from_utf8. rewrite Hu. cbn [ok_or].
    by rewrite c_bind_lift, c_bind_u16 by lia.
  - destruct ip as [v|v]; cbn [is_ipv4 ip_octets Z.eqb Pos.eqb] in *; rewrite <- app_assoc.
    + apply c_bind_quiet. rewrite c_bind_read, c_bind_u16, v4_octets by (apply length_be_bytes || done). reflexivity.
    + apply c_bind_quiet. rewrite c_bind_read, c_bind_u16, v6_octets by (apply length_be_bytes || done). reflexivity.
Qed.

Lemma read_target_safe atyp : c_safe (read_target atyp).
Proof.
  unfold read_target. repeat case_res; eauto 12 with conndb.
  apply c_safe_bind; [eauto with conndb|]. intros l. apply c_safe_bind; [eauto with conndb|]. intros d.
  apply c_safe_bind; [|eauto with conndb]. apply c_safe_lift, no_panic_ok_or.
Qed.

(** ** The handshakes *)

(** The bytes of the client's greeting and request. *)
Definition greeting (methods : bytes) : bytes := [to_u8 5] ++ [to_u8 (Z.of_nat (length methods))] ++ methods.
Definition request (cmd : Z) (t : Target) : bytes := of_zs [5; cmd; 0] ++ encode_ss_address t.

Lemma socks_handshake_reads methods cmd t s :
  (length methods <= 255)%nat -> short_target t ->
  socks_handshake (greeting methods ++ request (val8 cmd) t ++ s) =
  if val8 cmd =? 1 then (of_zs [5; 0], Ok (SocksConnect t, s))
  else if val8 cmd =? 3 then (of_zs [5; 0], Ok (SocksUdpAssociate, s))
  else (of_zs [5; 0] ++ reply 7, Err (IoOther "socks5: команда не поддерживается")).
Proof.
  intros Hm Ht. unfold socks_handshake, greeting, request. rewrite (address_shape t Ht), <- !app_assoc.
  cbn [app of_zs map]. rewrite !c_bind_byte. change (val8 (to_u8 5) =? 5) with true. cbn [negb].
  rewrite val8_to_u8, Z.mod_small, Nat2Z.id, c_bind_read by (done || lia).
  rewrite c_bind_write, !c_bind_byte, to_u8_val8, atyp_byte, read_target_bind by done.
  destruct (val8 cmd =? 1); [done|]. destruct (val8 cmd =? 3); [done|]. by rewrite c_bind_write.
Qed.

(** The first flight of the client, given what the server answers. *)
Lemma socks5_connect_reads cfg t rep atyp bound s :
  px_username cfg = None -> 
  (val8 atyp = 1 /\ length bound = 4%nat \/ val8 atyp = 4 /\ length bound = 16%nat) ->
  length s = 2%nat -> forall rest,
  socks5_connect cfg t (of_zs [5; 0] ++ [to_u8 5; rep; to_u8 0; atyp] ++ bound ++ s ++ rest) =
  (greeting [to_u8 0] ++ request 1 t,
   if val8 rep =? 0 then Ok (tt, rest) else Err (IoOther "socks5: сервер отклонил CONNECT")).
Proof.
  intros Hu Hb Hs rest. unfold socks5_connect. rewrite Hu, c_bind_write. cbn [app of_zs map]. rewrite !c_bind_byte.
  change (val8 (to_u8 5) =? 5) with true. change (val8 (to_u8 0) =? 0) with true. cbn [negb].
  rewrite c_bind_ret, c_bind_write, !c_bind_byte.
  destruct (val8 rep =? 0); cbn [negb]; [|cbn; by rewrite app_nil_r].
  assert (bound_len (val8 atyp) = mret (length bound)) as Hl.
  { unfold bound_len. destruct Hb as [[-> ->]|[-> ->]]; done. }
  rewrite Hl, c_bind_ret, app_assoc, c_bind_read by (rewrite length_app; lia). cbn. by rewrite app_nil_r.
Qed.

(** C30. The SOCKS5 server and the SOCKS5 client speak the same protocol: with a
    domain of at most 255 bytes or an address, the bytes the client writes
    towards a server that asks for no authentication make the server's handshake
    return the client's target, with nothing read of what follows; the bytes the
    server writes (its choice of method, then its reply) let the client
    continue exactly when the reply is 0. Any list of methods is accepted, a
    UDP association is recognised, another command is answered with 7, and no
    input of the peer makes either side panic. *)
Theorem socks_handshake_agrees (cfg : ProxyConfig) (methods : bytes) (cmd rep : u8) (t : Target) (s s' : bytes)
    (Hu : px_username cfg = None) (Hm : (length methods <= 255)%nat) (Ht : short_target t) :
  let '(written, result) := socks5_connect cfg t (of_zs [5; 0] ++ reply (val8 rep) ++ s) in
  result = (if val8 rep =? 0 then Ok (tt, s) else Err (IoOther "socks5: сервер отклонил CONNECT")) /\
  socks_handshake (written ++ s') = (of_zs [5; 0], Ok (SocksConnect t, s')) /\
  (socks_handshake (greeting methods ++ request (val8 cmd) t ++ s') =
    if val8 cmd =? 1 then (of_zs [5; 0], Ok (SocksConnect t, s'))
    else if val8 cmd =? 3 then (of_zs [5; 0], Ok (SocksUdpAssociate, s'))
    else (of_zs [5; 0] ++ reply 7, Err (IoOther "socks5: команда не поддерживается"))) /\
  c_safe socks_handshake /\ c_safe (socks5_connect cfg t).
Proof.
  assert (of_zs [5; 0] ++ reply (val8 rep) ++ s =
    of_zs [5; 0] ++ [to_u8 5; rep; to_u8 0; to_u8 1] ++ of_zs [0; 0; 0; 0] ++ of_zs [0; 0] ++ s) as ->
    by (cbn; by rewrite to_u8_val8).
  rewrite (socks5_connect_reads cfg t rep (to_u8 1) (of_zs [0; 0; 0; 0]) (of_zs [0; 0]) Hu); [|by left|done].
  split; [done|]. split; [|split; [by apply socks_handshake_reads|split]].
  - rewrite <- app_assoc. change (request 1 t) with (request (val8 (to_u8 1)) t).
    by rewrite socks_handshake_reads by (cbn; done || lia).
  - unfold socks_handshake. do 2 (apply c_safe_bind; [eauto with conndb|intros ?]). case_res; [eauto with conndb|].
    do 6 (apply c_safe_bind; [eauto with conndb|intros ?]). apply c_safe_bind; [apply read_target_safe|]. intros ?.
    repeat case_res; eauto with conndb.
  - unfold socks5_connect, socks_auth. do 3 (apply c_safe_bind; [eauto with conndb|intros ?]). case_res; [eauto with conndb|].
    apply c_safe_bind.
    { repeat case_res; [eauto with conndb| |eauto with conndb]. do 3 (apply c_safe_bind; [eauto with conndb|intros ?]).
      case_res; eauto with conndb. }
    intros _. do 5 (apply c_safe_bind; [eauto with conndb|intros ?]). case_res; [eauto with conndb|].
    apply c_safe_bind; [unfold bound_len; repeat case_res; eauto with conndb|]. eauto with conndb.
Qed.

Lemma socks_handshake_agrees_witness :
  socks_handshake (of_zs [5; 1; 0] ++ of_zs [5; 1; 0] ++ encode_ss_address (TDomain "ya.ru" 443) ++ of_zs [1; 2])
  = (of_zs [5; 0], Ok (SocksConnect (TDomain "ya.ru" 443), of_zs [1; 2])).
Proof.
  assert (short_target (TDomain "ya.ru" 443)) as Ht by (split; [split; [vm_compute; intuition congruence|done]|split; [reflexivity|cbn; lia]]).
  destruct (socks_handshake_agrees (mkProxy [] None None) [to_u8 0] (to_u8 1) (to_u8 0) (TDomain "ya.ru" 443) [] (of_zs [1; 2])
    eq_refl ltac:(cbn; lia) Ht) as (_ & _ & H & _). exact H.
Defined.

(** ** UDP datagrams *)

Lemma parse_encoded t payload : short_target t ->
  parse_udp_datagram (encode_udp_datagram t payload) = Ok (0, t, (3 + length (encode_ss_address t))%nat)
  /\ drop (3 + length (encode_ss_address t)) (encode_udp_datagram t payload) = payload.
Proof.
  intros Ht. unfold encode_udp_datagram. rewrite (clamped_short t Ht). split.
  2:{ rewrite app_assoc. replace (3 + length (encode_ss_address t))%nat with (length (of_zs [0; 0; 0] ++ encode_ss_address t)) by (by rewrite length_app).
      apply drop_app_length. }
  set (buf := of_zs [0; 0; 0] ++ encode_ss_address t ++ payload).
  assert (drop 3 buf = encode_ss_address t ++ payload) as H3 by done.
  assert (length buf = 3 + length (encode_ss_address t) + length payload)%nat as Hlen by (unfold buf; rewrite !length_app; cbn; lia).
  assert (index (E := io_error) buf 2 = Ok (to_u8 0)) as H2 by done. rewrite (address_shape t Ht) in *. rewrite <- app_assoc in H3.
  pose proof (drop_shift 3 1 buf _ _ H3 eq_refl) as H4. clearbody buf. unfold parse_udp_datagram.
  destruct Ht as [[Hp Hip] Ht]. rewrite !length_app in *. cbn [length] in *.
  rewrite (proj2 (Nat.ltb_ge _ _)) by lia. rewrite H2. cbn [mbind res_bind]. rewrite (index_at 3 buf _ _ H3). cbn [mbind res_bind].
  rewrite atyp_byte. change (val8 (to_u8 0)) with 0.
  destruct t as [h p|[ip p]]; cbn [atyp_of address_body target_port sa_port sa_ip] in *.
  - destruct Ht as [Hu Hl]. cbn [Z.eqb Pos.eqb]. rewrite <- !app_assoc in H4. cbn [app] in H4.
    rewrite !length_app, length_be_bytes in *. cbn [length] in *.
    rewrite (index_at _ _ _ _ H4). cbn [mbind res_bind]. rewrite val8_to_u8, Z.mod_small, Nat2Z.id by lia.
    pose proof (drop_shift 4 1 buf [_] _ H4 eq_refl) as H5. rewrite (proj2 (Nat.ltb_ge _ _)) by lia.
    change (4 + 1)%nat with 5%nat in H5. rewrite (sub_slice_drop 5 buf h _ H5) by lia. cbn [mbind res_bind].
    pose proof (drop_shift 5 (length h) buf _ _ H5 eq_refl) as H6. rewrite (index_be16_drop _ _ _ _ H6) by lia. cbn [mbind res_bind].
    rewrite lossy_id by done. done.
  - rewrite !length_app, length_ip_octets, length_be_bytes in *. rewrite <- app_assoc in H4.
    destruct ip as [v|v]; cbn [is_ipv4 ip_octets Z.eqb Pos.eqb] in *; rewrite (proj2 (Nat.ltb_ge _ _)) by lia.
    + rewrite (sub_slice_drop 4 buf (be_bytes 4 v) _ H4) by lia. cbn [mbind res_bind].
      pose proof (drop_shift _ 4 buf _ _ H4 (length_be_bytes _ _)) as H6. rewrite (index_be16_drop _ _ _ _ H6) by lia. cbn [mbind res_bind].
      by rewrite v4_octets.
    + rewrite (sub_slice_drop 4 buf (be_bytes 16 v) _ H4) by lia. cbn [mbind res_bind].
      pose proof (drop_shift _ 16 buf _ _ H4 (length_be_bytes _ _)) as H6. rewrite (index_be16_drop _ _ _ _ H6) by lia. cbn [mbind res_bind].
      by rewrite v6_octets.
Qed.

(** The one input that panics: the header of a domain, without its length. *)
Definition no_length_byte (buf : bytes) : Prop := length buf = 4%nat /\ buf !! 3%nat = Some (to_u8 3).

Lemma parse_udp_spec buf :
  (parse_udp_datagram buf = Panic <-> no_length_byte buf) /\
  forall frag t off, parse_udp_datagram buf = Ok (frag, t, off) -> (off <= length buf)%nat /\ target_ok t.
Proof.
  unfold parse_udp_datagram, no_length_byte. destruct (Nat.ltb_spec (length buf) 4) as [|Hl].
  { split; [split; [done|intros [? _]; lia]|done]. }
  destruct (index_ok (E := io_error) buf 2 ltac:(lia)) as (f & -> & _). cbn [mbind res_bind].
  destruct (index_ok (E := io_error) buf 3 ltac:(lia)) as (a & -> & Ha). cbn [mbind res_bind]. rewrite Ha.
  assert (Some a = Some (to_u8 3) <-> val8 a = 3) as ->.
  { split; [by intros [= ->]|]. intros H. by rewrite <- (to_u8_val8 a), H. }
  assert (forall i, (S i < length buf)%nat -> exists p, index_be16 (E := io_error) buf i = Ok p /\ 0 <= p < 65536) as H16.
  { intros i Hi. unfold index_be16. destruct (index_ok (E := io_error) buf i ltac:(lia)) as (x & -> & _).
    destruct (index_ok (E := io_error) buf (S i) ltac:(lia)) as (y & -> & _). cbn [mbind res_bind]. eexists. split; [done|].
    apply (be_value_range [x; y]). }
  assert (forall p q, (p <= q <= length buf)%nat -> exists o, sub_slice (E := io_error) p q buf = Ok o /\ length o = (q - p)%nat) as Hs.
  { intros p q Hpq. unfold sub_slice. rewrite (proj2 (Nat.leb_le _ _)), (proj2 (Nat.leb_le _ _)) by lia. eexists. split; [done|].
    apply slice_length; lia. }
  destruct (Z.eqb_spec (val8 a) 1) as [E1|E1]; [|destruct (Z.eqb_spec (val8 a) 4) as [E4|E4]; [|destruct (Z.eqb_spec (val8 a) 3) as [E3|E3]]].
  - destruct (Nat.ltb_spec (length buf) 10); [split; [split; [done|lia]|done]|].
    destruct (Hs 4%nat 8%nat ltac:(lia)) as (o & -> & Ho). destruct (H16 8%nat ltac:(lia)) as (p & -> & Hp). cbn [mbind res_bind].
    split; [split; [done|lia]|]. intros frag t off [= _ <- <-]. split; [lia|]. split; [done|]. by apply v4_of_octets_ok.
  - destruct (Nat.ltb_spec (length buf) 22); [split; [split; [done|lia]|done]|].
    destruct (Hs 4%nat 20%nat ltac:(lia)) as (o & -> & Ho). destruct (H16 20%nat ltac:(lia)) as (p & -> & Hp). cbn [mbind res_bind].
    split; [split; [done|lia]|]. intros frag t off [= _ <- <-]. split; [lia|]. split; [done|]. by apply v6_of_octets_ok.
  - destruct (decide (length buf = 4%nat)) as [H4|H4].
    { unfold index. rewrite (lookup_ge_None_2 buf 4) by lia. split; [split; [done|done]|done]. }
    destruct (index_ok (E := io_error) buf 4 ltac:(lia)) as (l & -> & _). cbn [mbind res_bind].
    destruct (Nat.ltb_spec (length buf) (5 + Z.to_nat (val8 l) + 2)); [split; [split; [done|lia]|done]|].
    destruct (Hs 5%nat (5 + Z.to_nat (val8 l))%nat ltac:(lia)) as (o & -> & Ho).
    destruct (H16 (5 + Z.to_nat (val8 l))%nat ltac:(lia)) as (p & -> & Hp). cbn [mbind res_bind].
    split; [split; [done|lia]|]. intros frag t off [= _ <- <-]. split; [lia|done].
  - split; [split; [done|lia]|done].
Qed.

(** UDP datagrams are read back: the datagram written for a target with a
    domain of at most 255 bytes, or an address, parses as that target with no
    fragmentation, and the data at the offset returned is the payload. Whatever
    the bytes, the offset lies within them and the target is well formed, and
    parsing panics on exactly the four-byte datagrams with the address type of a
    domain (their length byte is read before the length is checked). *)
Theorem udp_datagram_codec (t : Target) (payload buf : bytes) (Ht : short_target t) :
  (exists off, parse_udp_datagram (encode_udp_datagram t payload) = Ok (0, t, off) /\
     drop off (encode_udp_datagram t payload) = payload) /\
  (parse_udp_datagram buf = Panic <-> no_length_byte buf) /\
  (forall frag t' off, parse_udp_datagram buf = Ok (frag, t', off) -> (off <= length buf)%nat /\ target_ok t').
Proof.
  split; [|apply parse_udp_spec]. eexists. apply (parse_encoded t payload Ht).
Qed.

Lemma udp_datagram_codec_witness :
  (exists off, parse_udp_datagram (encode_udp_datagram (TSocket {| sa_ip := V4 134744072; sa_port := 53 |}) (of_zs [7; 8]))
     = Ok (0, TSocket {| sa_ip := V4 134744072; sa_port := 53 |}, off)) /\
  parse_udp_datagram (of_zs [0; 0; 0; 3]) = Panic.
Proof.
  assert (short_target (TSocket {| sa_ip := V4 134744072; sa_port := 53 |})) as Ht
    by (split; [split; vm_compute; intuition congruence|done]).
  destruct (udp_datagram_codec _ (of_zs [7; 8]) (of_zs [0; 0; 0; 3]) Ht) as ((off & H & _) & Hp & _).
  split; [by exists off|]. apply Hp. split; reflexivity.
Defined.
