(* ===== verification/UdpAssoc.v ===== *)
(** * The UDP association: a symmetric NAT for one client
    ([udp_associate] and [spawn_flow] of [crates/net/src/udp.rs])

    The association is a state machine. Its events are what the sockets and the
    tasks deliver: reads of the control connection, datagrams on the relay
    socket, with whether the queue of an existing flow takes the datagram and
    whether a session to the destination can be opened. Its outputs are what it
    hands to the tasks of the flows. *)

From S2P Require Import Prelude RustStr Utf8 NetAddr NetIo Conn Outbound Engine Socks.

Record Assoc : Type := mkAssoc {
  client_addr : option SocketAddr;
  flows : gmap str nat;       (** the senders, by number *)
  next_flow : nat;
  warned_proxy : bool
}.

Definition new_assoc : Assoc := mkAssoc None ∅ 0 false.

Inductive AssocEvent : Type :=
| ControlRead (n : option nat)   (** the bytes read, [None] for an error *)
| RelayTimeout
| RelayError
| RelayDatagram (src : SocketAddr) (dg : bytes) (queued session : bool).

(** [OpenFlow] is a task of [spawn_flow] with its first payload queued. *)
Inductive Output : Type :=
| ToFlow (flow : nat) (payload : bytes)
| OpenFlow (flow : nat) (outbound : Outbound) (dst reply_dst : Target) (client : SocketAddr) (first : bytes)
| WarnProxy.

Section assoc.
Context (control_peer_ip : IpAddr) (route : Target -> Routed).

(** A new flow, or none: [key] is not in the table. *)
Definition open_flow (a : Assoc) (src : SocketAddr) (target : Target) (key : str) (payload : bytes) (session : bool)
    : Assoc * list Output :=
  let routed := route target in
  match rd_decision routed with
  | Refuse => (a, [])
  | Connect ob =>
      if session then
        (mkAssoc (client_addr a) (<[key := next_flow a]> (flows a)) (S (next_flow a)) (warned_proxy a),
         [OpenFlow (next_flow a) ob (rd_target routed) target src payload])
      else if negb (bool_decide (ob = ODirect)) && negb (warned_proxy a) then
        (mkAssoc (client_addr a) (flows a) (next_flow a) true, [WarnProxy])
      else (a, [])
  end.

(** The client's address after a datagram from its host: the first source is
    taken, any other is refused. *)
Definition bind_client (a : Assoc) (src : SocketAddr) : option Assoc :=
  match client_addr a with
  | None => Some (mkAssoc (Some src) (flows a) (next_flow a) (warned_proxy a))
  | Some c => if bool_decide (c = src) then Some a else None
  end.

(** A datagram of the client, after the checks of its source. *)
Definition client_datagram (a : Assoc) (src : SocketAddr) (dg : bytes) (queued session : bool) : res io_error (Assoc * list Output) :=
  match parse_udp_datagram dg with
  | Err _ => Ok (a, [])
  | Panic => Panic
  | Ok (frag, target, off) =>
      if negb (frag =? 0) then Ok (a, []) else
      payload ← sub_slice off (length dg) dg;
      let key := show_target target in
      match flows a !! key with
      | Some tx =>
          if queued then Ok (a, [ToFlow tx payload])
          else Ok (open_flow (mkAssoc (client_addr a) (delete key (flows a)) (next_flow a) (warned_proxy a))
                     src target key payload session)
      | None => Ok (open_flow a src target key payload session)
      end
  end.

(** One datagram on the relay socket. *)
Definition on_datagram (a : Assoc) (src : SocketAddr) (dg : bytes) (queued session : bool) : res io_error (Assoc * list Output) :=
  if negb (bool_decide (sa_ip src = control_peer_ip)) then Ok (a, [])
  else match bind_client a src with
       | None => Ok (a, [])
       | Some a => client_datagram a src dg queued session
       end.

(** One turn of the loop of [udp_associate]: [inr] ends the association. *)
Definition assoc_step (a : Assoc) (ev : AssocEvent) : res io_error ((Assoc * list Output) + unit) :=
  match ev with
  | ControlRead (Some (S _)) => Ok (inl (a, []))
  | ControlRead _ => Ok (inr tt)
  | RelayTimeout => if bool_decide (client_addr a = None) then Ok (inr tt) else Ok (inl (a, []))
  | RelayError => Ok (inr tt)
  | RelayDatagram src dg queued session => r ← on_datagram a src dg queued session; Ok (inl r)
  end.

(** [udp_associate] on the events that come: what it hands over, each output
    with its event. *)
Fixpoint udp_associate (a : Assoc) (events : list AssocEvent) : res io_error (Assoc * list (AssocEvent * Output)) :=
  match events with
  | [] => Ok (a, [])
  | ev :: events =>
      r ← assoc_step a ev;
      match r with
      | inr _ => Ok (a, [])
      | inl (a, outs) => '(a, log) ← udp_associate a events; Ok (a, map (fun o => (ev, o)) outs ++ log)
      end
  end.
End assoc.

(** ** The task of a flow *)

Inductive FlowEvent : Type :=
| FromClient (p : option bytes) (sent : bool)      (** [rx.recv()], and whether [session.send] succeeds *)
| FromTarget (r : res io_error bytes) (sent : bool). (** [session.recv()], and whether [relay.send_to] succeeds *)

Inductive FlowAction : Type :=
| SendTarget (payload : bytes)
| SendClient (client : SocketAddr) (dg : bytes)
| CloseSession.

(** One turn of the loop of [spawn_flow]: what is sent, and whether it goes on. *)
Definition flow_step (reply_dst : Target) (client : SocketAddr) (ev : FlowEvent) : list FlowAction * bool :=
  match ev with
  | FromClient (Some payload) sent => ([SendTarget payload], sent)
  | FromClient None _ => ([], false)
  | FromTarget (Ok payload) sent => ([SendClient client (encode_udp_datagram reply_dst payload)], sent)
  | FromTarget _ _ => ([], false)
  end.

Fixpoint spawn_flow (reply_dst : Target) (client : SocketAddr) (events : list FlowEvent) : list FlowAction :=
  match events with
  | [] => []
  | ev :: events =>
      let '(out, goes_on) := flow_step reply_dst client ev in
      out ++ if goes_on then spawn_flow reply_dst client events else [CloseSession]
  end.

(** ** Specification *)

Section spec.
Context (control_peer_ip : IpAddr) (route : Target -> Routed).
Abbreviation log := (list (AssocEvent * Output)).

(** What justifies an output of a datagram from [src], after the outputs [past]. *)
Definition justified (past : log) (src : SocketAddr) (dg : bytes) (o : Output) : Prop :=
  exists target off, parse_udp_datagram dg = Ok (0, target, off) /\
  match o with
  | OpenFlow n ob dst reply_dst client first =>
      rd_decision (route target) = Connect ob /\ dst = rd_target (route target) /\
      reply_dst = target /\ client = src /\ first = drop off dg /\
      forall ev m ob' dst' rt' c' f', (ev, OpenFlow m ob' dst' rt' c' f') ∈ past -> m <> n
  | ToFlow n payload =>
      payload = drop off dg /\
      exists ev ob dst reply_dst first, (ev, OpenFlow n ob dst reply_dst src first) ∈ past /\
        show_target reply_dst = show_target target
  | WarnProxy => exists ob, rd_decision (route target) = Connect ob /\ ob <> ODirect
  end.

(** An output of an association bound to [client]. *)
Definition entry_ok (client : option SocketAddr) (past : log) (e : AssocEvent * Output) : Prop :=
  exists src dg queued session, fst e = RelayDatagram src dg queued session /\
    client = Some src /\ sa_ip src = control_peer_ip /\ justified past src dg (snd e).

(** The table and the numbers, given the outputs so far. *)
Record assoc_inv (past : log) (a : Assoc) : Prop := {
  inv_flows : forall key n, flows a !! key = Some n ->
    exists ev ob dst reply_dst client first, (ev, OpenFlow n ob dst reply_dst client first) ∈ past /\
      show_target reply_dst = key /\ client_addr a = Some client;
  inv_next : forall ev n ob dst rt c f, (ev, OpenFlow n ob dst rt c f) ∈ past -> (n < next_flow a)%nat
}.

Lemma assoc_inv_new : assoc_inv [] new_assoc.
Proof. split; cbn; [by intros key n; rewrite lookup_empty|]. intros ev n ob dst rt c f H. by apply not_elem_of_nil in H. Qed.

Lemma assoc_inv_sub past a fl w :
  assoc_inv past a -> (forall key n, fl !! key = Some n -> flows a !! key = Some n) ->
  assoc_inv past (mkAssoc (client_addr a) fl (next_flow a) w).
Proof. intros [H1 H2] Hs. split; cbn; [|exact H2]. intros key n Hk. by apply (H1 key n), Hs. Qed.

Lemma assoc_inv_weaken past a e :
  assoc_inv past a -> (forall n ob dst rt c f, snd e <> OpenFlow n ob dst rt c f) -> assoc_inv (past ++ [e]) a.
Proof.
  intros [H1 H2] He. split.
  - intros key n Hk. destruct (H1 key n Hk) as (ev & ob & dst & rt & c & f & Hin & Hr).
    exists ev, ob, dst, rt, c, f. split; [|done]. apply elem_of_app. by left.
  - intros ev n ob dst rt c f [Hin|Hin]%elem_of_app; [by eapply H2|].
    apply list_elem_of_singleton in Hin as <-. by destruct (He n ob dst rt c f).
Qed.

(** What one event does: at most one output, justified, and the invariant. *)
Definition step_ok (past : log) (a : Assoc) (ev : AssocEvent) (a' : Assoc) (outs : list Output) : Prop :=
  (forall c, client_addr a = Some c -> client_addr a' = Some c) /\
  assoc_inv (past ++ map (fun o => (ev, o)) outs) a' /\
  (outs = [] \/ exists o, outs = [o] /\ entry_ok (client_addr a') past (ev, o)).

Lemma step_ok_quiet past a ev a' : assoc_inv past a' -> (forall c, client_addr a = Some c -> client_addr a' = Some c) -> step_ok past a ev a' [].
Proof. intros Hi Hc. split; [done|]. split; [by rewrite app_nil_r|by left]. Qed.

Lemma open_flow_ok past a src target off dg q s :
  assoc_inv past a -> client_addr a = Some src -> sa_ip src = control_peer_ip -> parse_udp_datagram dg = Ok (0, target, off) ->
  let '(a', outs) := open_flow route a src target (show_target target) (drop off dg) s in
  step_ok past a (RelayDatagram src dg q s) a' outs.
Proof.
  intros Hi Hc Hip Hp. unfold open_flow. destruct (rd_decision (route target)) as [ob|] eqn:Ed.
  2:{ by apply step_ok_quiet. }
  destruct s.
  - split; [done|]. split.
    + split; cbn.
      * intros key n. rewrite lookup_insert. case_decide as E.
        -- subst key. intros [= <-]. eexists _, ob, _, target, src, _. split; [|done]. apply elem_of_app. right. by left.
        -- intros Hk. destruct (inv_flows _ _ Hi key n Hk) as (ev & ob' & dst & rt & c & f & Hin & Hr).
           exists ev, ob', dst, rt, c, f. split; [|done]. apply elem_of_app. by left.
      * intros ev n ob' dst rt c f [Hin|Hin]%elem_of_app; [pose proof (inv_next _ _ Hi _ _ _ _ _ _ _ Hin); lia|].
        apply list_elem_of_singleton in Hin as [= -> -> -> -> -> -> ->]. lia.
    + right. eexists. split; [done|]. exists src, dg, q, true. split_and!; [done..|]. exists target, off. split; [done|].
      split_and!; [done..|]. intros ev m ob' dst rt c f Hin. pose proof (inv_next _ _ Hi _ _ _ _ _ _ _ Hin). lia.
  - case_bool_decide as Ho; [by apply step_ok_quiet|]. destruct (warned_proxy a); [by apply step_ok_quiet|]. cbn [negb andb].
    split; [done|]. split.
    + apply assoc_inv_weaken; [|done]. by apply assoc_inv_sub.
    + right. eexists. split; [done|]. exists src, dg, q, false. split_and!; [done..|]. exists target, off. split; [done|]. by exists ob.
Qed.

Lemma sub_slice_rest {E} off (dg : bytes) : (off <= length dg)%nat -> sub_slice (E := E) off (length dg) dg = Ok (drop off dg).
Proof.
  intros H. unfold sub_slice. rewrite (proj2 (Nat.leb_le _ _)), (proj2 (Nat.leb_le _ _)) by lia. cbn. unfold slice.
  by rewrite take_ge by (rewrite length_drop; lia).
Qed.

Lemma client_datagram_ok past a src dg q s :
  assoc_inv past a -> client_addr a = Some src -> sa_ip src = control_peer_ip ->
  match client_datagram route a src dg q s with
  | Ok (a', outs) => step_ok past a (RelayDatagram src dg q s) a' outs
  | Err _ => False
  | Panic => no_length_byte dg
  end.
Proof.
  intros Hi Hc Hip. unfold client_datagram. destruct (parse_udp_spec dg) as [Hpanic Hok].
  destruct (parse_udp_datagram dg) as [[[frag target] off]|e|] eqn:Ep; [|by apply step_ok_quiet|by apply Hpanic].
  destruct (Z.eqb_spec frag 0) as [->|]; cbn [negb]; [|by apply step_ok_quiet].
  destruct (Hok _ _ _ eq_refl) as [Hoff _]. rewrite sub_slice_rest by done. cbn [mbind res_bind].
  destruct (flows a !! show_target target) as [tx|] eqn:Ef; [destruct q|].
  - split; [done|]. split; [by apply assoc_inv_weaken|]. right. eexists. split; [done|]. exists src, dg, true, s.
    split_and!; [done..|]. exists target, off. split; [done|]. split; [done|].
    destruct (inv_flows _ _ Hi _ _ Ef) as (ev & ob & dst & rt & c & f & Hin & Hr & Hc'). rewrite Hc in Hc'. injection Hc' as <-.
    by exists ev, ob, dst, rt, f.
  - pose proof (open_flow_ok past (mkAssoc (client_addr a) (delete (show_target target) (flows a)) (next_flow a) (warned_proxy a))
      src target off dg false s) as H. destruct (open_flow _ _ _ _ _ _ _) as [a' outs]. apply H; [|done..].
    apply assoc_inv_sub; [done|]. intros key n [_ Hk]%lookup_delete_Some. done.
  - pose proof (open_flow_ok past a src target off dg q s) as H. destruct (open_flow _ _ _ _ _ _ _) as [a' outs]. by apply H.
Qed.

Lemma assoc_step_ok past a ev :
  assoc_inv past a ->
  match assoc_step control_peer_ip route a ev with
  | Ok (inl (a', outs)) => step_ok past a ev a' outs
  | Ok (inr _) => True
  | Err _ => False
  | Panic => exists src dg q s, ev = RelayDatagram src dg q s /\ no_length_byte dg
  end.
Proof.
  intros Hi. destruct ev as [[[|n]|]| | |src dg q s]; cbn [assoc_step]; try done; try by apply step_ok_quiet.
  { case_bool_decide; [done|by apply step_ok_quiet]. }
  unfold on_datagram. case_bool_decide as Hip; [|by apply step_ok_quiet]. cbn [negb].
  destruct (bind_client a src) as [b|] eqn:Eb; [|by apply step_ok_quiet].
  assert (client_addr b = Some src /\ assoc_inv past b /\ forall c, client_addr a = Some c -> client_addr b = Some c) as (Hc & Hb & Hm).
  { unfold bind_client in Eb. destruct (client_addr a) as [c|] eqn:Ec.
    - case_bool_decide; [|done]. injection Eb as <-. subst c. split; [done|]. split; [done|]. congruence.
    - injection Eb as <-. split; [done|]. split; [|done]. destruct Hi as [H1 H2]. split; [|exact H2].
      intros key n Hk. destruct (H1 key n Hk) as (? & ? & ? & ? & ? & ? & _ & _ & H). congruence. }
  pose proof (client_datagram_ok past b src dg q s Hb Hc Hip) as H.
  destruct (client_datagram _ _ _ _ _ _) as [[a' outs]|e|]; cbn [mbind res_bind]; [|done|by exists src, dg, q, s].
  destruct H as (Hm' & Hi' & Ho). split; [auto|done].
Qed.

(** Every output justified by what precedes it. *)
Definition log_ok (client : option SocketAddr) (past l : log) : Prop :=
  forall pre e post, l = pre ++ e :: post -> entry_ok client (past ++ pre) e.

Lemma udp_associate_ok events : forall past a,
  assoc_inv past a ->
  match udp_associate control_peer_ip route a events with
  | Ok (a', l) => log_ok (client_addr a') past l /\ (forall c, client_addr a = Some c -> client_addr a' = Some c)
  | Err _ => False
  | Panic => exists src dg q s, RelayDatagram src dg q s ∈ events /\ no_length_byte dg
  end.
Proof.
  induction events as [|ev events IH]; intros past a Hi; cbn [udp_associate].
  { split; [|done]. intros pre e post H. by destruct pre. }
  pose proof (assoc_step_ok past a ev Hi) as Hs.
  destruct (assoc_step _ _ _ _) as [[[a' outs]|u]|e|]; cbn [mbind res_bind]; [| |done|].
  2:{ split; [|done]. intros pre e post H. by destruct pre. }
  2:{ destruct Hs as (src & dg & q & s & -> & Hn). exists src, dg, q, s. split; [by left|done]. }
  destruct Hs as (Hm & Hi' & Ho). specialize (IH _ a' Hi').
  destruct (udp_associate _ _ _ _) as [[a2 l]|e|]; cbn [mbind res_bind]; [|done|].
  2:{ destruct IH as (src & dg & q & s & Hin & Hn). exists src, dg, q, s. split; [by right|done]. }
  destruct IH as [Hl Hm2]. split; [|auto]. destruct Ho as [->|(o & -> & He)]; cbn [map app].
  - intros pre e post H. specialize (Hl pre e post H). by rewrite app_nil_r in Hl.
  - intros pre e post H. destruct pre as [|x pre]; cbn in H; injection H as <- H.
    + rewrite app_nil_r. destruct He as (src & dg & q & s & Hev & Hc & Hrest). exists src, dg, q, s. split; [done|]. split; [by apply Hm2|done].
    + specialize (Hl pre e post H). by rewrite <- app_assoc in Hl.
Qed.

End spec.

(** C31. A UDP association serves one client and nobody else: whatever arrives,
    everything it hands to a flow comes from a datagram of one source address,
    the first one seen from the host of the control connection, and is the
    payload of an unfragmented datagram; a flow is opened only to a destination
    the routing does not refuse, through the outbound and to the target it
    chose, and its replies carry the destination the client wrote; a payload
    sent to an existing flow has the same destination as the datagram that
    opened it. It never fails, and panics only on the four-byte datagram that
    the parser panics on. *)
Theorem udp_association_isolated (control_peer_ip : IpAddr) (route : Target -> Routed) (events : list AssocEvent) :
  match udp_associate control_peer_ip route new_assoc events with
  | Ok (a, l) => forall pre e post, l = pre ++ e :: post -> entry_ok control_peer_ip route (client_addr a) pre e
  | Err _ => False
  | Panic => exists src dg q s, RelayDatagram src dg q s ∈ events /\ no_length_byte dg
  end.
Proof.
  pose proof (udp_associate_ok control_peer_ip route events [] new_assoc assoc_inv_new) as H.
  destruct (udp_associate _ _ _ _) as [[a l]|e|]; [|done..]. by destruct H as [H _].
Qed.

(** Whatever a flow's task does, what it sends goes to the client and is read
    back there as coming from the destination the client named, and the session
    is closed when the task ends. *)
Lemma flow_replies reply_dst client events : short_target reply_dst ->
  forall a, a ∈ spawn_flow reply_dst client events ->
  match a with
  | SendClient c dg => c = client /\ exists payload off, parse_udp_datagram dg = Ok (0, reply_dst, off) /\ drop off dg = payload
  | SendTarget payload => exists sent, FromClient (Some payload) sent ∈ events
  | CloseSession => True
  end.
Proof.
  intros Ht. induction events as [|ev events IH]; [intros a H; by apply not_elem_of_nil in H|].
  intros a. cbn [spawn_flow]. destruct (flow_step reply_dst client ev) as [out goes_on] eqn:E. intros [Hin|Hin]%elem_of_app.
  - destruct ev as [[p|] sent|[p|e|] sent]; cbn in E; injection E as <- <-.
    2,4,5: by apply not_elem_of_nil in Hin.
    + apply list_elem_of_singleton in Hin as ->. exists sent. by left.
    + apply list_elem_of_singleton in Hin as ->. split; [done|].
      destruct (parse_encoded reply_dst p Ht) as [H1 H2]. by exists p, (3 + length (encode_ss_address reply_dst))%nat.
  - destruct goes_on; [|by apply list_elem_of_singleton in Hin as ->]. specialize (IH a Hin). destruct a as [p|c dg|]; [|done|done].
    destruct IH as [sent Hs]. exists sent. by right.
Qed.

(** A run: the second datagram reuses the flow, a stranger is ignored. *)
Example association_run :
  let src := {| sa_ip := V4 1; sa_port := 9 |} in
  let t := TDomain "ya.ru" 53 in
  let dg p := encode_udp_datagram t p in
  snd <$> match udp_associate (V4 1) (fun t => mkRouted (Connect ODirect) t None None None) new_assoc
    [RelayDatagram src (dg (of_zs [1])) true true; RelayDatagram {| sa_ip := V4 1; sa_port := 8 |} (dg (of_zs [2])) true true;
     RelayDatagram src (dg (of_zs [3])) true true; ControlRead None; RelayDatagram src (dg (of_zs [4])) true true] with
  | Ok (_, l) => l | _ => [] end = [OpenFlow 0 ODirect t t src (of_zs [1]); ToFlow 0 (of_zs [3])].
Proof. vm_compute. reflexivity. Qed.
