(* ===== verification/StreamHeaders.v ===== *)
(** * Request headers: VLESS, Trojan, Shadowsocks addresses
    ([crates/net/src/vless.rs], [trojan.rs], [parse_ss2022_psks] and the datagrams
    of VLESS of [outbound.rs])

    What a client writes at the start of a stream, and how UDP packets are framed
    on it. The servers are not part of the program: [vless_server] and
    [trojan_server] are specifications, read from the formats the modules
    document. SHA-224 is a parameter. *)

From S2P Require Import Prelude RustStr Utf8 NetAddr NetIo Base64 Protobuf Uri Link Conn Outbound Socks.

(** ** VLESS *)

Definition VLESS_VERSION : Z := 0.
Definition VLESS_CMD_TCP : Z := 1.
Definition VLESS_CMD_UDP : Z := 2.
Definition FLOW_VISION : str := "xtls-rprx-vision".

(** [push_address]: types 1, 2 and 3; a domain is cut to 255 bytes. *)
Definition push_address (t : Target) : bytes :=
  match t with
  | TDomain host _ =>
      let len := Nat.min (length host) 255 in
      [to_u8 2] ++ [to_u8 (Z.of_nat len)] ++ take len host
  | TSocket a => [to_u8 (if is_ipv4 (sa_ip a) then 1 else 3)] ++ ip_octets (sa_ip a)
  end.

(** The loop that writes [fb.len()] as a varint: a [usize] has ten groups of
    seven bits at most. *)
Fixpoint flow_varint (fuel : nat) (len : Z) : bytes :=
  match fuel with
  | O => []
  | S fuel =>
      let byte := Z.land len 127 in
      let len := Z.shiftr len 7 in
      if len =? 0 then [to_u8 byte] else to_u8 (Z.lor byte 128) :: flow_varint fuel len
  end.

(** The addon of a flow: field 1 with its length. *)
Definition flow_addon (flow : str) : bytes := [to_u8 10] ++ flow_varint 10 (Z.of_nat (length flow)) ++ flow.

(** [encode_request], [encode_request_udp]; [addon.len() as u8] truncates. *)
Definition encode_request (uuid : bytes) (flow : option str) (t : Target) : bytes :=
  [to_u8 VLESS_VERSION] ++ uuid
  ++ match flow with
     | Some ((_ :: _) as f) => [to_u8 (Z.of_nat (length (flow_addon f)) mod 256)] ++ flow_addon f
     | _ => [to_u8 0]
     end
  ++ [to_u8 VLESS_CMD_TCP] ++ be_bytes 2 (target_port t) ++ push_address t.

Definition encode_request_udp (uuid : bytes) (t : Target) : bytes :=
  [to_u8 VLESS_VERSION] ++ uuid ++ [to_u8 0] ++ [to_u8 VLESS_CMD_UDP] ++ be_bytes 2 (target_port t) ++ push_address t.

(** The datagrams of a VLESS session: [UdpSession::send] and [recv]. *)
Definition vless_udp_send (payload : bytes) : res io_error bytes :=
  if 65535 <? Z.of_nat (length payload) then Err (IoOther "vless udp: датаграмма > 65535 байт")
  else Ok (be_bytes 2 (Z.of_nat (length payload)) ++ payload).

Definition vless_udp_recv : conn bytes := n ← c_u16; c_read (Z.to_nat n).

(** ** Trojan *)

Definition CMD_CONNECT : Z := 1.
Definition CMD_UDP : Z := 3.

Section trojan.
Context (sha224 : bytes -> bytes).

(** [password_hash_hex] *)
Definition password_hash_hex (password : str) : str := hex_of (sha224 password).

(** [encode_request_cmd], [encode_request], [encode_request_udp]; the address is
    [clamped_address]. *)
Definition encode_request_cmd (password : str) (t : Target) (cmd : Z) : bytes :=
  password_hash_hex password ++ of_zs [13; 10] ++ [to_u8 cmd] ++ clamped_address t ++ of_zs [13; 10].

Definition trojan_request (password : str) (t : Target) : bytes := encode_request_cmd password t CMD_CONNECT.
Definition trojan_request_udp (password : str) (t : Target) : bytes := encode_request_cmd password t CMD_UDP.

End trojan.

(** [encode_udp_packet]: [payload.len() as u16] truncates. *)
Definition encode_udp_packet (t : Target) (payload : bytes) : bytes :=
  clamped_address t ++ be_bytes 2 (Z.of_nat (length payload) mod 65536) ++ of_zs [13; 10] ++ payload.

(** [read_address], [read_udp_packet] *)
Definition read_address : conn Target :=
  atyp ← c_byte;
  if val8 atyp =? 1 then
    o ← c_read 4; port ← c_u16; mret (TSocket {| sa_ip := v4_of_octets o; sa_port := port |})
  else if val8 atyp =? 4 then
    o ← c_read 16; port ← c_u16; mret (TSocket {| sa_ip := v6_of_octets o; sa_port := port |})
  else if val8 atyp =? 3 then
    len ← c_byte;
    host ← c_read (Z.to_nat (val8 len));
    port ← c_u16;
    mret (TDomain (from_utf8_lossy host) port)
  else c_err (InvalidData "trojan: неизвестный ATYP").

Definition read_udp_packet : conn (Target * bytes) :=
  t ← read_address;
  len ← c_u16;
  crlf ← c_read 2;
  if negb (bool_decide (crlf = of_zs [13; 10])) then c_err (InvalidData "trojan udp: нет CRLF после длины") else
  payload ← c_read (Z.to_nat len);
  mret (t, payload).

(** ** Shadowsocks 2022 keys: [parse_ss2022_psks] *)

Fixpoint read_psks (key_len : nat) (parts : list str) : res io_error (list bytes) :=
  match parts with
  | [] => Ok []
  | part :: parts =>
      raw ← map_err (fun _ => IoOther "ss2022: PSK не base64") (decode_loose part);
      if negb (length raw =? key_len)%nat then Err (IoOther "ss2022: длина PSK не совпадает с методом")
      else psks ← read_psks key_len parts; Ok (raw :: psks)
  end.

Definition parse_ss2022_psks (password : str) (key_len : nat) : res io_error (bytes * list bytes) :=
  psks ← read_psks key_len (split_char ":"%char password);
  match reverse psks with
  | session :: identity => Ok (session, reverse identity)
  | [] => Err (IoOther "ss2022: пустой пароль")
  end.

(** ** Specification: the servers *)

Record VlessRequest : Type := mkVlessRequest {
  vr_uuid : bytes; vr_flow : option str; vr_cmd : Z; vr_target : Target }.

(** The addon is a protobuf message whose field 1 is the flow. *)
Definition addon_field (field wire : Z) (st : option str) (r : Reader) : res GeoError (option str * Reader) :=
  if (field =? 1) && (wire =? 2) then '(b, r) ← read_bytes r; Ok (Some b, r) else r ← skip wire r; Ok (st, r).

Definition vless_address (atyp port : Z) : conn Target :=
  if atyp =? 1 then o ← c_read 4; mret (TSocket {| sa_ip := v4_of_octets o; sa_port := port |})
  else if atyp =? 3 then o ← c_read 16; mret (TSocket {| sa_ip := v6_of_octets o; sa_port := port |})
  else if atyp =? 2 then len ← c_byte; host ← c_read (Z.to_nat (val8 len)); mret (TDomain host port)
  else c_err UnexpectedEof.

Definition vless_server : conn VlessRequest :=
  version ← c_byte;
  if negb (val8 version =? 0) then c_err UnexpectedEof else
  uuid ← c_read 16;
  m ← c_byte;
  addon ← c_read (Z.to_nat (val8 m));
  flow ← c_lift (map_err (fun _ => UnexpectedEof) (message_loop addon_field addon None));
  cmd ← c_byte;
  port ← c_u16;
  atyp ← c_byte;
  t ← vless_address (val8 atyp) port;
  mret (mkVlessRequest uuid flow (val8 cmd) t).

(** The 56 digits of the hash, the command and the target. *)
Definition trojan_server : conn (str * Z * Target) :=
  hash ← c_read 56;
  crlf ← c_read 2;
  cmd ← c_byte;
  t ← read_address;
  crlf2 ← c_read 2;
  if bool_decide (crlf = of_zs [13; 10]) && bool_decide (crlf2 = of_zs [13; 10]) then mret (hash, val8 cmd, t)
  else c_err UnexpectedEof.

(** What a header that cuts domains carries of a target. *)
Definition clamp_target (t : Target) : Target :=
  match t with TDomain h p => TDomain (take 255 h) p | TSocket _ => t end.

(** ** VLESS headers *)

Lemma flow_varint_encode fuel : forall z, 0 <= z -> flow_varint fuel z = encode_varint_fuel fuel z.
Proof.
  induction fuel as [|fuel IH]; intros z Hz; [done|]. cbn [flow_varint encode_varint_fuel].
  change 127 with (Z.ones 7). rewrite Z.land_ones, Z.shiftr_div_pow2 by lia. change (2 ^ 7) with 128.
  destruct (Z.ltb_spec z 128) as [Hl|Hl].
  - by rewrite Z.div_small, Z.mod_small by lia.
  - rewrite (proj2 (Z.eqb_neq _ _)) by dlia. rewrite IH by dlia. f_equal. f_equal.
    rewrite Z.lor_comm. pose proof (Z.mod_pos_bound z 128 eq_refl). pose proof (lor_add 1 (z mod 128) 7) as Hl7.
    change (1 * 2 ^ 7) with 128 in Hl7. change (2 ^ 7) with 128 in Hl7. rewrite Hl7; lia.
Qed.

Lemma flow_addon_fields f : flow_addon f = encode_fields [(1, FBytes f)].
Proof.
  unfold flow_addon, encode_fields. cbn [map concat]. rewrite app_nil_r. unfold encode_field. cbn [fst snd wire_of payload_of].
  unfold encode_varint. by rewrite flow_varint_encode by lia.
Qed.

Definition addon_value (f : Z * field_value) (st : option str) : res GeoError (option str) :=
  match f with (1, FBytes b) => Ok (Some b) | _ => Ok st end.

Lemma addon_handles : handles addon_field addon_value.
Proof.
  intros n v st r t Hs Hr Hv Hrest. unfold addon_field.
  destruct (Z.eqb_spec n 1) as [->|Hn]; [destruct (Z.eqb_spec (wire_of v) 2) as [Hw|Hw]|]; cbn [andb].
  - destruct v as [z|b|b|b]; cbn [wire_of] in Hw; try lia. cbn [payload_of] in *. rewrite <- app_assoc in Hrest.
    rewrite (read_bytes_encode b r t Hs Hr Hrest). cbn. by rewrite length_app.
  - rewrite (skip_encode v r t Hs Hr Hv Hrest). destruct v as [z|b|b|b]; cbn in *; done.
  - rewrite (skip_encode v r t Hs Hr Hv Hrest). assert (addon_value (n, v) st = Ok st) as ->; [|done].
    destruct n as [|p|p]; [done| |done]. destruct p as [p|p|]; [done|done|lia].
Qed.

Lemma read_addon f : Z.of_nat (length (flow_addon f)) <= 255 -> message_loop addon_field (flow_addon f) None = Ok (Some f).
Proof.
  intros H. rewrite flow_addon_fields in *. rewrite (message_loop_encode _ addon_value); [done|apply addon_handles| |lia].
  constructor; [|constructor]. by split.
Qed.

Definition vless_atyp (t : Target) : Z :=
  match t with TDomain _ _ => 2 | TSocket a => if is_ipv4 (sa_ip a) then 1 else 3 end.

Lemma vless_address_read {B} t s (f : Target -> conn B) : target_ok t ->
  exists body, push_address t = to_u8 (vless_atyp t) :: body /\ val8 (to_u8 (vless_atyp t)) = vless_atyp t /\
    (vless_address (vless_atyp t) (target_port t) ≫= f) (body ++ s) = f (clamp_target t) s.
Proof.
  intros [Hp Hip]. exists (tail (push_address t)). split; [by destruct t|]. split; [by destruct t as [h p|[[v|v] p]]|]. unfold vless_address.
  destruct t as [h p|[ip p]]; cbn [target_port sa_port sa_ip vless_atyp clamp_target] in *.
  - cbn [Z.eqb Pos.eqb push_address tail app]. apply c_bind_quiet. rewrite c_bind_byte, val8_to_u8, Z.mod_small, Nat2Z.id, c_bind_read by (rewrite ?length_take; lia).
    replace (take (length h `min` 255) h) with (take 255 h); [done|].
    destruct (Nat.min_spec (length h) 255) as [[Hl ->]|[Hl ->]]; [|done]. by rewrite firstn_all, take_ge by lia.
  - unfold ip_ok in Hip. destruct ip as [v|v]; cbn [is_ipv4 ip_octets Z.eqb Pos.eqb ip_bits ip_width push_address tail app sa_ip] in *;
      apply c_bind_quiet; rewrite c_bind_read by apply length_be_bytes; by rewrite ?v4_octets, ?v6_octets.
Qed.

(** The part of the header after the addon. *)
Lemma vless_tail uuid flow cmd t s : target_ok t ->
  (cmd' ← c_byte; port ← c_u16; atyp ← c_byte; t' ← vless_address (val8 atyp) port;
   mret (mkVlessRequest uuid flow (val8 cmd') t')) ([to_u8 cmd] ++ be_bytes 2 (target_port t) ++ push_address t ++ s)
  = ([], Ok (mkVlessRequest uuid flow (val8 (to_u8 cmd)) (clamp_target t), s)).
Proof.
  intros Ht. destruct (vless_address_read t s (fun t' => mret (mkVlessRequest uuid flow (val8 (to_u8 cmd)) t')) Ht)
    as (body & -> & Ha & Hr). cbn [app]. rewrite c_bind_byte, c_bind_u16 by apply Ht. by rewrite c_bind_byte, Ha, Hr.
Qed.

(** The flow as the header carries it. *)
Definition flow_of (flow : option str) : option str := match flow with Some [] => None | _ => flow end.

(** A VLESS header is read back whatever the target: a server that follows
    the documented format reads the UUID, the flow (none if it is empty), the
    command and the target, and nothing of the payload that follows; a domain
    longer than 255 bytes arrives cut to 255, with the header still in step. The
    flow's addon must fit the length byte. *)
Theorem vless_header_reads_back (uuid : bytes) (flow : option str) (t : Target) (s : bytes)
    (Hu : length uuid = 16%nat) (Ht : target_ok t) (Hf : forall f, flow = Some f -> Z.of_nat (length (flow_addon f)) <= 255) :
  vless_server (encode_request uuid flow t ++ s) = ([], Ok (mkVlessRequest uuid (flow_of flow) 1 (clamp_target t), s)) /\
  vless_server (encode_request_udp uuid t ++ s) = ([], Ok (mkVlessRequest uuid None 2 (clamp_target t), s)).
Proof.
  assert (forall addon fl cmd, Z.of_nat (length addon) <= 255 -> message_loop addon_field addon None = Ok fl -> val8 (to_u8 cmd) = cmd ->
    vless_server ([to_u8 VLESS_VERSION] ++ uuid ++ ([to_u8 (Z.of_nat (length addon))] ++ addon) ++ [to_u8 cmd] ++ be_bytes 2 (target_port t) ++ push_address t ++ s)
    = ([], Ok (mkVlessRequest uuid fl cmd (clamp_target t), s))) as H.
  { intros addon fl cmd Hl Hm Hc. unfold vless_server. cbn [app]. rewrite c_bind_byte.
    change (val8 (to_u8 VLESS_VERSION) =? 0) with true. cbn [negb]. rewrite c_bind_read by done. cbn [app].
    rewrite c_bind_byte, val8_to_u8, Z.mod_small, Nat2Z.id, c_bind_read by (done || lia). rewrite Hm. cbn [map_err].
    rewrite c_bind_lift. change (to_u8 cmd :: ?l) with ([to_u8 cmd] ++ l). by rewrite vless_tail, Hc. }
  split.
  - unfold encode_request. rewrite <- !app_assoc. destruct flow as [[|c f]|]; [apply (H [] None 1); done| |apply (H [] None 1); done].
    specialize (Hf _ eq_refl). rewrite Z.mod_small by lia. apply (H (flow_addon (c :: f)) _ 1); [done| |done]. by apply read_addon.
  - unfold encode_request_udp. rewrite <- !app_assoc. apply (H [] None 2); done.
Qed.

Lemma vless_header_reads_back_witness :
  vless_server (encode_request (replicate 16 (to_u8 1)) (Some FLOW_VISION) (TDomain "a.com" 443) ++ of_zs [9])
  = ([], Ok (mkVlessRequest (replicate 16 (to_u8 1)) (Some FLOW_VISION) 1 (TDomain "a.com" 443), of_zs [9])).
Proof.
  assert (target_ok (TDomain "a.com" 443)) as Ht by (split; [vm_compute; intuition congruence|done]).
  refine (proj1 (vless_header_reads_back (replicate 16 (to_u8 1)) (Some FLOW_VISION) (TDomain "a.com" 443) (of_zs [9]) eq_refl Ht _)).
  intros f [= <-]. vm_compute. discriminate.
Defined.

(** ** Trojan *)

Lemma read_address_safe : c_safe read_address.
Proof. unfold read_address. apply c_safe_bind; [eauto with conndb|intros b]. repeat case_res; eauto 12 with conndb. Qed.

Lemma read_address_bind {B} t s (f : Target -> conn B) : short_target t -> (read_address ≫= f) (clamped_address t ++ s) = f t s.
Proof.
  intros Ht. rewrite (clamped_short t Ht), (address_shape t Ht). destruct Ht as [[Hp Hip] Ht]. apply c_bind_quiet.
  unfold read_address. cbn [app]. rewrite c_bind_byte, atyp_byte.
  destruct t as [h p|[ip p]]; cbn [atyp_of address_body target_port sa_port sa_ip] in *.
  - destruct Ht as [Hu Hl]. cbn [Z.eqb Pos.eqb app]. rewrite c_bind_byte, val8_to_u8, Z.mod_small, Nat2Z.id by lia.
    rewrite <- app_assoc, c_bind_read by done. rewrite c_bind_u16 by lia. by rewrite lossy_id.
  - unfold ip_ok in Hip. destruct ip as [v|v]; cbn [is_ipv4 ip_octets Z.eqb Pos.eqb ip_bits ip_width] in *; rewrite <- app_assoc;
      rewrite c_bind_read, c_bind_u16 by (apply length_be_bytes || lia); by rewrite ?v4_octets, ?v6_octets.
Qed.

Lemma udp_packet_bind {B} t p s (f : Target * bytes -> conn B) : short_target t -> Z.of_nat (length p) < 65536 ->
  (read_udp_packet ≫= f) (encode_udp_packet t p ++ s) = f (t, p) s.
Proof.
  intros Ht Hp. apply c_bind_quiet. unfold read_udp_packet, encode_udp_packet. rewrite <- !app_assoc, read_address_bind by done.
  rewrite Z.mod_small, c_bind_u16, c_bind_read by (done || lia). rewrite bool_decide_eq_true_2 by done. cbn [negb].
  by rewrite Nat2Z.id, c_bind_read.
Qed.

(** Packets one after the other. *)
Fixpoint read_packets {A} (read : conn A) (n : nat) : conn (list A) :=
  match n with O => mret [] | S n => x ← read; l ← read_packets read n; mret (x :: l) end.

Lemma read_packets_concat {A} (read : conn A) (encode : A -> bytes) l s :
  (forall x s (f : A -> conn (list A)), x ∈ l -> (read ≫= f) (encode x ++ s) = f x s) ->
  read_packets read (length l) (concat (map encode l) ++ s) = ([], Ok (l, s)).
Proof.
  induction l as [|x l IH]; intros H; [done|]. cbn [length read_packets map concat]. rewrite <- app_assoc, H by (by left).
  rewrite (c_bind_quiet (read_packets read (length l)) _ _ l s); [done|]. apply IH. intros y s' f Hy. apply H. by right.
Qed.

(** Trojan's framing is read back: the server reads the hash of the
    password, the command and the target of a request and nothing after it, and
    UDP packets written one after the other are read as the same targets and
    payloads, whatever follows. (Domains of at most 255 bytes, packets below
    65536.) Reading a packet never panics, whatever the peer sends. *)
Theorem trojan_reads_back (sha224 : bytes -> bytes) (Hsha : forall b, length (sha224 b) = 28%nat)
    (password : str) (t : Target) (udp : bool) (packets : list (Target * bytes)) (s : bytes)
    (Ht : short_target t) (Hp : Forall (fun p => short_target (fst p) /\ Z.of_nat (length (snd p)) < 65536) packets) :
  trojan_server ((if udp then trojan_request_udp sha224 password t else trojan_request sha224 password t) ++ s)
    = ([], Ok (password_hash_hex sha224 password, if udp then 3 else 1, t, s)) /\
  read_packets read_udp_packet (length packets) (concat (map (fun p => encode_udp_packet (fst p) (snd p)) packets) ++ s)
    = ([], Ok (packets, s)) /\
  c_safe read_udp_packet.
Proof.
  split; [|split].
  - assert (forall cmd, val8 (to_u8 cmd) = cmd ->
      trojan_server (encode_request_cmd sha224 password t cmd ++ s) = ([], Ok (password_hash_hex sha224 password, cmd, t, s))) as H.
    { intros cmd Hc. unfold trojan_server, encode_request_cmd. rewrite <- !app_assoc.
      rewrite c_bind_read by (unfold password_hash_hex; by rewrite length_hex_of, Hsha).
      rewrite c_bind_read by done. cbn [app]. rewrite c_bind_byte, read_address_bind, c_bind_read by done.
      rewrite bool_decide_eq_true_2 by done. by rewrite Hc. }
    destruct udp; by apply H.
  - apply read_packets_concat. intros [t' p] s' f Hin. rewrite Forall_forall in Hp. destruct (Hp _ Hin) as [H1 H2].
    by apply udp_packet_bind.
  - unfold read_udp_packet. apply c_safe_bind; [apply read_address_safe|intros t']. do 2 (apply c_safe_bind; [eauto with conndb|intros ?]).
    case_res; eauto with conndb.
Qed.

Lemma trojan_reads_back_witness :
  let sha (b : bytes) := replicate 28 (to_u8 (Z.of_nat (length b))) in
  trojan_server (trojan_request sha "pw" (TDomain "a.com" 443) ++ of_zs [1]) =
    ([], Ok (password_hash_hex sha "pw", 1, TDomain "a.com" 443, of_zs [1])).
Proof.
  intros sha. assert (short_target (TDomain "a.com" 443)) as Ht
    by (split; [split; [vm_compute; intuition congruence|done]|split; [reflexivity|cbn; lia]]).
  refine (proj1 (trojan_reads_back sha _ "pw" (TDomain "a.com" 443) false [] (of_zs [1]) Ht (Forall_nil_2 _))).
  intros b. apply length_replicate.
Defined.

(** ** Shadowsocks addresses of long domains *)

(** A domain longer than 255 bytes breaks the Shadowsocks and SOCKS5 request:
    the length byte is truncated while the domain is written whole, so whoever
    reads the address reads a shorter domain, two of the domain's own bytes as
    the port, and takes the rest of the domain - which whoever named the domain
    chose - for data of the connection. With at most 255 bytes the address is
    read back as it is. *)
Theorem long_domain_desync (host : str) (port : Z) (s : bytes) (Hu : utf8_valid host = true) (Hp : 0 <= port < 65536) :
  let n := Z.to_nat (Z.of_nat (length host) mod 256) in
  let rest := drop n host ++ be_bytes 2 port in
  read_address (encode_ss_address (TDomain host port) ++ s) =
    ([], Ok (TDomain (from_utf8_lossy (take n host)) (be_value (take 2 rest)), drop 2 rest ++ s)) /\
  ((length host <= 255)%nat -> drop 2 rest = [] /\ TDomain (from_utf8_lossy (take n host)) (be_value (take 2 rest)) = TDomain host port) /\
  ((255 < length host)%nat -> (256 <= length (drop 2 rest))%nat).
Proof.
  intros n rest.
  assert (Z.of_nat n = Z.of_nat (length host) mod 256) as Hn.
  { unfold n. rewrite Z2Nat.id; [done|]. apply Z.mod_pos_bound. lia. }
  assert (n <= length host)%nat as Hle by dlia.
  assert (2 <= length rest)%nat as Hrest by (unfold rest; rewrite length_app, length_be_bytes; lia).
  split; [|split].
  - unfold read_address, encode_ss_address. cbn [app]. rewrite c_bind_byte. change (val8 (to_u8 3)) with 3. cbn [Z.eqb Pos.eqb].
    rewrite c_bind_byte, val8_to_u8, Z.mod_mod, <- Hn, Nat2Z.id by lia.
    assert ((host ++ be_bytes 2 port) ++ s = take n host ++ take 2 rest ++ drop 2 rest ++ s) as ->.
    { rewrite (app_assoc (take 2 rest)), take_drop. unfold rest. by rewrite !app_assoc, take_drop. }
    rewrite c_bind_read by (rewrite length_take; lia). 
    rewrite (c_bind_quiet c_u16 _ _ (be_value (take 2 rest)) (drop 2 rest ++ s)); [done|].
    unfold c_u16. by rewrite c_bind_read by (rewrite length_take; lia).
  - intros Hl. assert (n = length host) as E by (rewrite Z.mod_small in Hn by lia; lia).
    unfold rest. rewrite E, drop_all, firstn_all. cbn [app]. split; [by rewrite drop_ge by (rewrite length_be_bytes; lia)|].
    rewrite take_ge by (rewrite length_be_bytes; lia). by rewrite lossy_id, be_value_be_bytes_small.
  - intros Hl. unfold rest. rewrite length_drop, length_app, length_drop, length_be_bytes. dlia.
Qed.

Lemma long_domain_desync_witness :
  (256 <= length (drop 2 (drop 2 (replicate 258 "a"%char) ++ be_bytes 2 443)))%nat /\
  fst <$> match snd (read_address (encode_ss_address (TDomain (replicate 258 "a"%char) 443))) with Ok x => Some x | _ => None end
    = Some (TDomain "aa" 24929).
Proof.
  split; [|vm_compute; reflexivity].
  destruct (long_domain_desync (replicate 258 "a"%char) 443 [] ltac:(vm_compute; reflexivity) ltac:(lia)) as (_ & _ & H).
  apply H. rewrite length_replicate. lia.
Defined.

(** ** Datagrams of a VLESS session, keys of Shadowsocks 2022 *)

Lemma vless_udp_stream payloads s : Forall (fun p => Z.of_nat (length p) < 65536) payloads ->
  read_packets vless_udp_recv (length payloads) (concat (map (fun p => default [] (res_ok (vless_udp_send p))) payloads) ++ s)
    = ([], Ok (payloads, s)).
Proof.
  intros Hp. apply read_packets_concat. intros p s' f Hin. rewrite Forall_forall in Hp. specialize (Hp p Hin).
  apply c_bind_quiet. unfold vless_udp_send, vless_udp_recv. rewrite (proj2 (Z.ltb_ge _ _)) by lia. cbn [res_ok from_option id].
  rewrite <- app_assoc, c_bind_u16, Nat2Z.id by lia. by rewrite c_read_app.
Qed.

(** The identity keys in order and the session key last, all of the length of
    the method, from their Base64 texts joined by colons. *)
Lemma ss2022_psks identity session key_len :
  Forall (fun k => length k = key_len) (identity ++ [session]) ->
  parse_ss2022_psks (join ":" (map encode_standard (identity ++ [session]))) key_len = Ok (session, identity).
Proof.
  intros Hk. unfold parse_ss2022_psks.
  assert (split_char ":"%char (join ":" (map encode_standard (identity ++ [session]))) = map encode_standard (identity ++ [session])) as ->.
  { apply split_join_pieces; [by destruct identity|]. apply Forall_forall. intros w (k & -> & _)%list_elem_of_fmap.
    apply encode_standard_no. apply (bool_decide_unpack _). vm_compute. exact I. }
  assert (read_psks key_len (map encode_standard (identity ++ [session])) = Ok (identity ++ [session])) as ->.
  { induction (identity ++ [session]) as [|k l IH]; [done|]. apply Forall_cons in Hk as [Hk Hl]. cbn [map read_psks].
    rewrite decode_encode. cbn [map_err mbind res_bind]. rewrite Hk, Nat.eqb_refl. cbn [negb]. by rewrite (IH Hl). }
  cbn [mbind res_bind]. rewrite reverse_app. change (reverse [session]) with [session].
  cbn [app]. by rewrite reverse_involutive.
Qed.
