(* ===== verification/AsyncRead.v ===== *)
(** * Polled readers, and the reader that drops a VLESS response header
    ([VlessRespStrip] of [crates/net/src/outbound.rs])

    A polled reader is seen through its polls: each may be pending, fail, or
    fill a part of the caller's buffer. The inner stream is the list of the
    pieces in which its bytes arrive; a poll takes as much of the first piece as
    the buffer holds, and after the last piece reads the end of the stream. The
    last part is what all the readers and writers over polled streams share. *)

From S2P Require Import Prelude RustStr NetAddr NetIo.

Inductive Poll (A : Type) : Type :=
| Pending
| Ready (r : res io_error A).
Arguments Pending {A}.
Arguments Ready {A} r.

Inductive Piece : Type :=
| Data (d : bytes)
| NotYet
| Broken (e : io_error).

(** [poll_read] of the inner stream with room for [cap] bytes. *)
Definition poll_inner (cap : nat) (s : list Piece) : Poll bytes * list Piece :=
  match s with
  | [] => (Ready (Ok []), [])
  | NotYet :: s => (Pending, s)
  | Broken e :: s => (Ready (Err e), s)
  | Data d :: s => if (length d <=? cap)%nat then (Ready (Ok d), s) else (Ready (Ok (take cap d)), Data (drop cap d) :: s)
  end.

(** ** [VlessRespStrip] *)

Record VlessRespStrip : Type := mkStrip { hdr_buf : bytes; addon_len : option nat; strip_done : bool }.

(** [VlessRespStrip::new] *)
Definition new_strip : VlessRespStrip := mkStrip [] None false.

(** The loop of [poll_read]. A turn learns the length of the addon (once), ends
    the header (once), or reads a byte of it at least; the header has 257 bytes
    at most ([strip_fuel]). *)
Definition strip_turn (st : VlessRespStrip * list Piece)
    : (VlessRespStrip * list Piece) + (VlessRespStrip * list Piece * option (Poll bytes)) :=
  let '(me, inner) := st in
  if strip_done me then inr (me, inner, None) else
  let need := match addon_len me with None => 2%nat | Some a => (2 + a)%nat end in
  if (need <=? length (hdr_buf me))%nat then
    match addon_len me, hdr_buf me with
    | None, _ :: m :: _ => inl (mkStrip (hdr_buf me) (Some (Z.to_nat (val8 m))) false, inner)
    | None, _ => inr (me, inner, Some (Ready Panic))
    | Some _, _ => inr (mkStrip (hdr_buf me) (addon_len me) true, inner, None)
    end
  else
    let want := Nat.min (need - length (hdr_buf me)) 64 in
    match poll_inner want inner with
    | (Ready (Ok []), inner) => inr (me, inner, Some (Ready (Err UnexpectedEof)))
    | (Ready (Ok filled), inner) => inl (mkStrip (hdr_buf me ++ filled) (addon_len me) false, inner)
    | (Ready (Err e), inner) => inr (me, inner, Some (Ready (Err e)))
    | (Ready Panic, inner) => inr (me, inner, Some (Ready Panic))
    | (Pending, inner) => inr (me, inner, Some Pending)
    end.

Definition strip_fuel : nat := 260.

(** [poll_read]: [None] from the loop is its normal end, after which the inner
    stream is polled into the caller's buffer. *)
Definition strip_poll_read (cap : nat) (me : VlessRespStrip) (inner : list Piece)
    : res io_error (VlessRespStrip * list Piece * Poll bytes) :=
  '(me, inner, stopped) ← loop strip_fuel (fun st => Ok (strip_turn st)) (me, inner);
  match stopped with
  | Some p => Ok (me, inner, p)
  | None => let '(p, inner) := poll_inner cap inner in Ok (me, inner, p)
  end.

(** Polls with room for the given numbers of bytes, one after the other. *)
Fixpoint poll_all (caps : list nat) (me : VlessRespStrip) (inner : list Piece)
    : res io_error (VlessRespStrip * list Piece * list (Poll bytes)) :=
  match caps with
  | [] => Ok (me, inner, [])
  | cap :: caps =>
      '(me, inner, p) ← strip_poll_read cap me inner;
      '(me, inner, ps) ← poll_all caps me inner;
      Ok (me, inner, p :: ps)
  end.

(** ** Specification *)

(** The bytes still to arrive, and what polls delivered. *)
Fixpoint arriving (s : list Piece) : bytes :=
  match s with [] => [] | Data d :: s => d ++ arriving s | _ :: s => arriving s end.

Definition delivered (ps : list (Poll bytes)) : bytes :=
  concat (map (fun p => match p with Ready (Ok d) => d | _ => [] end) ps).

(** Pieces of at least a byte, and no failure. *)
Definition flowing (s : list Piece) : Prop :=
  Forall (fun p => match p with Data d => d <> [] | NotYet => True | Broken _ => False end) s.

Definition good_poll (p : Poll bytes) : Prop := match p with Pending => True | Ready (Ok _) => True | _ => False end.

(** Where the reader is in [hdr ++ body], the header being [v :: m :: addon]. *)
Record strip_at (hdr body : bytes) (me : VlessRespStrip) (inner : list Piece) (out : bytes) : Prop := {
  at_flowing : flowing inner;
  at_header : if strip_done me then out ++ arriving inner = body
              else out = [] /\ hdr_buf me ++ arriving inner = hdr ++ body /\ (length (hdr_buf me) <= length hdr)%nat /\
                match addon_len me with None => (length (hdr_buf me) <= 2)%nat | Some a => (2 + a = length hdr)%nat end
}.

Lemma poll_inner_ok cap s : flowing s -> (0 < cap)%nat ->
  let '(p, s') := poll_inner cap s in
  flowing s' /\ good_poll p /\
  match p with
  | Ready (Ok d) => d ++ arriving s' = arriving s /\ (length d <= cap)%nat /\ (d = [] -> s = [])
  | _ => arriving s' = arriving s
  end.
Proof.
  intros Hs Hc. destruct s as [|[d| |e] s]; cbn.
  - split; [done|]. split; [done|]. split; [done|]. split; [lia|done].
  - apply Forall_cons in Hs as [Hd Hs]. destruct (Nat.leb_spec (length d) cap); cbn.
    + split; [done|]. split; [done|]. split; [done|]. split; [done|]. intros ->. done.
    + split; [constructor; [|done]; intros H0; apply (f_equal length) in H0; rewrite length_drop in H0; cbn in H0; lia|].
      split; [done|]. split; [by rewrite app_assoc, take_drop|]. split; [rewrite length_take; lia|].
      intros H0. apply (f_equal length) in H0. rewrite length_take in H0. cbn in H0. lia.
  - apply Forall_cons in Hs as [_ Hs]. done.
  - apply Forall_cons in Hs as [Hb _]. done.
Qed.

Section strip.
Context (v m : u8) (addon body : bytes) (Hm : length addon = Z.to_nat (val8 m)).
Abbreviation hdr := (v :: m :: addon).

(** The turns left before the loop ends. *)
Definition turns_left (me : VlessRespStrip) : nat :=
  (length hdr - length (hdr_buf me) + match addon_len me with None => 1 | Some _ => 0 end + 1)%nat.

(** A turn before the end of the header. *)
Lemma strip_turn_spec me inner :
  strip_at hdr body me inner [] -> strip_done me = false ->
  match strip_turn (me, inner) with
  | inl (me', inner') => strip_at hdr body me' inner' [] /\ strip_done me' = false /\ (turns_left me' < turns_left me)%nat
  | inr (me', inner', None) => strip_at hdr body me' inner' [] /\ strip_done me' = true
  | inr (me', inner', Some p) => strip_at hdr body me' inner' [] /\ p = Pending
  end.
Proof using Hm.
  intros [Hf Hat] Hd. rewrite Hd in Hat. destruct Hat as (_ & Hbuf & Hlen & Hadd). unfold strip_turn. rewrite Hd.
  destruct (addon_len me) as [a|] eqn:Ea.
  - destruct (Nat.leb_spec (2 + a) (length (hdr_buf me))) as [Hn|Hn].
    + split; [|done]. split; [done|]. cbn. apply (app_inj_1 (hdr_buf me) hdr); [lia|done].
    + set (want := Nat.min _ 64). assert (0 < want)%nat as Hw by lia. pose proof (poll_inner_ok want inner Hf Hw) as Hp.
      destruct (poll_inner want inner) as [[|[d|e|]] inner']; destruct Hp as (Hf' & Hg & Hp); [|destruct d as [|c d]|done|done].
      * split; [|done]. split; [done|]. rewrite Hd, Ea, Hp. done.
      * destruct Hp as (_ & _ & Hp). rewrite (Hp eq_refl) in Hbuf. cbn in Hbuf. rewrite app_nil_r in Hbuf.
        apply (f_equal length) in Hbuf. cbn [app length] in *. rewrite length_app in Hbuf. lia.
      * destruct Hp as (Hp & Hle & _). split; [|split; [done|]].
        -- split; [done|]. cbn [strip_done hdr_buf addon_len]. rewrite <- app_assoc, Hp.
           split; [done|]. split; [done|]. rewrite length_app. lia.
        -- unfold turns_left. cbn [hdr_buf addon_len]. rewrite Ea, length_app. cbn [length] in *. lia.
  - destruct (Nat.leb_spec 2 (length (hdr_buf me))) as [Hn|Hn].
    + destruct (hdr_buf me) as [|v' [|m' [|x l]]] eqn:Eb; cbn in Hn, Hadd; try lia.
      cbn in Hbuf. injection Hbuf as -> -> Hbuf. split; [|split; [done|]].
      * split; [done|]. cbn. rewrite Hbuf, Hm. split; [done|]. split; [done|]. split; [lia|done].
      * unfold turns_left. cbn [hdr_buf addon_len]. rewrite Ea, Eb. lia.
    + set (want := Nat.min _ 64). assert (0 < want)%nat as Hw by lia. pose proof (poll_inner_ok want inner Hf Hw) as Hp.
      destruct (poll_inner want inner) as [[|[d|e|]] inner']; destruct Hp as (Hf' & Hg & Hp); [|destruct d as [|c d]|done|done].
      * split; [|done]. split; [done|]. rewrite Hd, Ea, Hp. done.
      * destruct Hp as (_ & _ & Hp). rewrite (Hp eq_refl) in Hbuf. cbn in Hbuf. rewrite app_nil_r in Hbuf.
        rewrite Hbuf in Hn. cbn in Hn. lia.
      * destruct Hp as (Hp & Hle & _). split; [|split; [done|]].
        -- split; [done|]. cbn [strip_done hdr_buf addon_len]. rewrite <- app_assoc, Hp.
           split; [done|]. split; [done|]. rewrite length_app. cbn [length] in *. lia.
        -- unfold turns_left. cbn [hdr_buf addon_len]. rewrite Ea, length_app. cbn [length] in *. lia.
Qed.

Lemma strip_loop_spec n : forall me inner, (turns_left me < n)%nat -> strip_at hdr body me inner [] -> strip_done me = false ->
  exists me' inner' stopped, loop (E := io_error) n (fun st => Ok (strip_turn st)) (me, inner) = Ok (me', inner', stopped) /\
    strip_at hdr body me' inner' [] /\ match stopped with None => strip_done me' = true | Some p => p = Pending end.
Proof using Hm.
  induction n as [|n IH]; intros me inner Hn Hat Hd; [lia|]. cbn [loop]. pose proof (strip_turn_spec me inner Hat Hd) as Ht.
  destruct (strip_turn (me, inner)) as [[me' inner']|[[me' inner'] [p|]]]; cbn [mbind res_bind].
  - destruct Ht as (Hat' & Hd' & Hl). apply IH; [lia|done|done].
  - destruct Ht as [Hat' Hp]. by exists me', inner', (Some p).
  - destruct Ht as [Hat' Hd']. by exists me', inner', None.
Qed.

Lemma turns_bound me : (turns_left me < strip_fuel)%nat.
Proof using Hm.
  unfold turns_left, strip_fuel. cbn [length]. rewrite Hm. pose proof (val8_range m). destruct (addon_len me); lia.
Qed.

Lemma strip_loop_done me inner : strip_done me = true ->
  loop (E := io_error) strip_fuel (fun st => Ok (strip_turn st)) (me, inner) = Ok (me, inner, None).
Proof using Type. intros Hd. change strip_fuel with (S 259). cbn [loop]. unfold strip_turn. by rewrite Hd. Qed.

Lemma strip_poll_spec cap me inner out : (0 < cap)%nat -> strip_at hdr body me inner out ->
  exists me' inner' p, strip_poll_read cap me inner = Ok (me', inner', p) /\ good_poll p /\
    strip_at hdr body me' inner' (out ++ delivered [p]) /\ (p = Ready (Ok []) -> out ++ delivered [p] = body).
Proof using Hm.
  intros Hc Hat. unfold strip_poll_read.
  assert (forall me inner out, strip_done me = true -> strip_at hdr body me inner out ->
    exists me' inner' p, (let '(p, inner) := poll_inner cap inner in Ok (E := io_error) (me, inner, p)) = Ok (me', inner', p) /\ good_poll p /\
    strip_at hdr body me' inner' (out ++ delivered [p]) /\ (p = Ready (Ok []) -> out ++ delivered [p] = body)) as Hdone.
  { clear me inner out Hat. intros me inner out Hd [Hf Hat]. rewrite Hd in Hat. pose proof (poll_inner_ok cap inner Hf Hc) as Hp.
    destruct (poll_inner cap inner) as [p inner']. destruct Hp as (Hf' & Hg & Hp). exists me, inner', p. split; [done|]. split; [done|].
    unfold delivered. cbn [map concat]. rewrite app_nil_r. split.
    - split; [done|]. rewrite Hd. destruct p as [|[d|e|]]; [by rewrite app_nil_r, Hp| |done|done].
      destruct Hp as (Hp & _). by rewrite <- app_assoc, Hp.
    - intros ->. rewrite app_nil_r. destruct Hp as (_ & _ & Hp). rewrite (Hp eq_refl) in Hat. cbn in Hat. by rewrite app_nil_r in Hat. }
  destruct (strip_done me) eqn:Hd.
  - rewrite strip_loop_done by done. cbn [mbind res_bind]. by apply Hdone.
  - assert (out = []) as -> by (destruct Hat as [_ Hat]; rewrite Hd in Hat; apply Hat).
    destruct (strip_loop_spec strip_fuel me inner (turns_bound me) Hat Hd) as (me' & inner' & stopped & -> & Hat' & Hs).
    cbn [mbind res_bind]. destruct stopped as [p|]; [|by apply Hdone]. subst p. exists me', inner', Pending. by split_and!.
Qed.

Lemma delivered_head p ps : delivered (p :: ps) = delivered [p] ++ delivered ps.
Proof using Type. unfold delivered. cbn. by rewrite app_nil_r. Qed.

Lemma poll_all_spec caps : forall me inner out, Forall (fun c => (0 < c)%nat) caps -> strip_at hdr body me inner out ->
  exists me' inner' ps, poll_all caps me inner = Ok (me', inner', ps) /\ Forall good_poll ps /\
    strip_at hdr body me' inner' (out ++ delivered ps) /\ (Ready (Ok []) ∈ ps -> out ++ delivered ps = body).
Proof using Hm.
  induction caps as [|cap caps IH]; intros me inner out Hc Hat; cbn [poll_all].
  { exists me, inner, []. unfold delivered. cbn [map concat]. rewrite app_nil_r. split_and!; [done..|]. intros H. by apply not_elem_of_nil in H. }
  apply Forall_cons in Hc as [Hc Hcs].
  destruct (strip_poll_spec cap me inner out Hc Hat) as (me1 & inner1 & p & -> & Hg & Hat1 & He). cbn [mbind res_bind].
  destruct (IH me1 inner1 _ Hcs Hat1) as (me2 & inner2 & ps & -> & Hgs & Hat2 & Hes). cbn [mbind res_bind].
  exists me2, inner2, (p :: ps). rewrite delivered_head, app_assoc. split; [done|]. split; [by constructor|]. split; [done|].
  intros [E|Hin]%elem_of_cons; [|by apply Hes]. symmetry in E. specialize (He E). rewrite He.
  assert (strip_done me2 = true -> delivered ps = []) as Hnil.
  { intros Hd2. destruct Hat2 as [_ H2]. rewrite Hd2, He in H2. apply (f_equal length) in H2. rewrite !length_app in H2.
    apply nil_length_inv. lia. }
  destruct (strip_done me2) eqn:Hd2; [by rewrite Hnil, app_nil_r|].
  destruct Hat2 as [_ H2]. rewrite Hd2, He in H2. destruct H2 as [H2 _]. apply app_nil in H2 as [-> ->]. done.
Qed.
End strip.

(** The response header of VLESS disappears however the bytes arrive: over
    any cut of the server's bytes into pieces, with any pauses and any sizes of
    the caller's buffers, the reader delivers nothing of the header and the rest
    of the stream in order, each byte once; it reports the end of the stream only
    when everything was delivered, and no poll fails. *)
Theorem response_header_stripped (v m : u8) (addon body : bytes) (pieces : list Piece) (caps : list nat)
    (Hm : length addon = Z.to_nat (val8 m)) (Hf : flowing pieces) (Ha : arriving pieces = v :: m :: addon ++ body)
    (Hc : Forall (fun c => (0 < c)%nat) caps) :
  exists me rest ps, poll_all caps new_strip pieces = Ok (me, rest, ps) /\ Forall good_poll ps /\
    (delivered ps = [] \/ delivered ps ++ arriving rest = body) /\
    (Ready (Ok []) ∈ ps -> delivered ps = body).
Proof.
  assert (strip_at (v :: m :: addon) body new_strip pieces []) as Hat.
  { split; [done|]. cbn. rewrite Ha. split; [done|]. split; [done|]. split; [lia|]. lia. }
  destruct (poll_all_spec v m addon body Hm caps _ _ _ Hc Hat) as (me & rest & ps & Hp & Hg & Hat' & He).
  exists me, rest, ps. split; [done|]. split; [done|]. split; [|exact He]. destruct Hat' as [_ H].
  destruct (strip_done me); [by right|]. left. by destruct H.
Qed.

Lemma response_header_stripped_witness :
  exists me rest ps, poll_all [10; 10; 10; 2; 10; 10]%nat new_strip
      [Data (of_zs [0]); NotYet; Data (of_zs [2; 7; 7; 1]); Data (of_zs [2; 3])] = Ok (me, rest, ps) /\
    ps = [Pending; Ready (Ok (of_zs [1])); Ready (Ok (of_zs [2; 3])); Ready (Ok []); Ready (Ok []); Ready (Ok [])] /\
    (Ready (Ok []) ∈ ps -> delivered ps = of_zs [1; 2; 3]).
Proof.
  assert (flowing [Data (of_zs [0]); NotYet; Data (of_zs [2; 7; 7; 1]); Data (of_zs [2; 3])]) as Hf by (repeat constructor; done).
  destruct (response_header_stripped (to_u8 0) (to_u8 2) (of_zs [7; 7]) (of_zs [1; 2; 3])
    [Data (of_zs [0]); NotYet; Data (of_zs [2; 7; 7; 1]); Data (of_zs [2; 3])] [10; 10; 10; 2; 10; 10]%nat
    eq_refl Hf eq_refl ltac:(repeat constructor; lia)) as (me & rest & ps & Hp & _ & _ & He).
  exists me, rest, ps. split; [exact Hp|]. split; [|exact He].
  assert (Ok (E := io_error) (me, rest, ps) = Ok (mkStrip (of_zs [0; 2; 7; 7]) (Some 2%nat) true, [],
    [Pending; Ready (Ok (of_zs [1])); Ready (Ok (of_zs [2; 3])); Ready (Ok []); Ready (Ok []); Ready (Ok [])])) as E
    by (rewrite <- Hp; vm_compute; reflexivity).
  by injection E as _ _ ->.
Defined.

(** ** What the readers over a polled stream have in common

    A reader is polled with room for some bytes and takes what it needs of the
    inner stream. If every poll keeps an invariant that says which bytes have been
    handed out, then any sequence of polls hands out the bytes in order, and an
    end of the stream is not read too early. *)

(** The bytes a poll handed out. *)
Definition got (p : Poll bytes) : bytes := match p with Ready (Ok d) => d | _ => [] end.

Lemma delivered_cons p ps : delivered (p :: ps) = got p ++ delivered ps.
Proof. unfold delivered. cbn [map concat]. by destruct p as [|[]]. Qed.

(** What polls of an inner writer do: take some of the bytes, fail, or nothing
    yet. *)
Inductive WriteStep : Type := Took (n : nat) | WriteFailed (e : io_error) | NotNow.

Section Polled.
Context {St S : Type} (poll : nat -> St -> S -> res io_error (St * S * Poll bytes)).

(** Polls with room for the given numbers of bytes, one after the other. *)
Fixpoint polls (wants : list nat) (me : St) (inner : S) : res io_error (St * S * list (Poll bytes)) :=
  match wants with
  | [] => Ok (me, inner, [])
  | want :: wants =>
      '(me, inner, p) ← poll want me inner;
      '(me, inner, ps) ← polls wants me inner;
      Ok (me, inner, p :: ps)
  end.

(** [here out me inner]: the reader has handed out [out] of [data]. *)
Record delivers (data : bytes) (here : bytes -> St -> S -> Prop) : Prop := {
  poll_keeps : forall out me inner want, here out me inner -> (0 < want)%nat ->
    exists me' inner' p, poll want me inner = Ok (me', inner', p)
      /\ here (out ++ got p) me' inner' /\ good_poll p /\ (p = Ready (Ok []) -> out = data);
  here_prefix : forall out me inner, here out me inner -> exists rest, out ++ rest = data
}.

Lemma polls_deliver data here wants : delivers data here -> forall out me inner, here out me inner ->
  Forall (fun w => 0 < w)%nat wants ->
  exists me' inner' ps rest, polls wants me inner = Ok (me', inner', ps)
    /\ Forall good_poll ps /\ out ++ delivered ps ++ rest = data /\ (Ready (Ok []) ∈ ps -> rest = []).
Proof.
  intros D. induction wants as [|want wants IH]; intros out me inner Hat Hw; cbn [polls].
  - destruct (here_prefix _ _ D _ _ _ Hat) as [rest Hr]. exists me, inner, [], rest.
    split; [done|]. split; [by apply Forall_nil|]. split; [done|]. by intros ?%elem_of_nil.
  - apply Forall_cons in Hw as [Hw Hws].
    destruct (poll_keeps _ _ D _ _ _ _ Hat Hw) as (me1 & inner1 & p & -> & Hat1 & Hg & He). cbn [mbind res_bind].
    destruct (IH _ _ _ Hat1 Hws) as (me2 & inner2 & ps & rest & -> & Hgs & Hd & He2). cbn [mbind res_bind].
    exists me2, inner2, (p :: ps), rest. rewrite delivered_cons, <- app_assoc. rewrite <- app_assoc in Hd.
    split; [done|]. split; [by apply Forall_cons|]. split; [done|].
    intros [Hp|Hp]%elem_of_cons; [|by apply He2]. symmetry in Hp. specialize (He Hp). subst p out. cbn [got app] in Hd.
    rewrite <- (app_nil_r data) in Hd at 2. apply app_inv_head, app_eq_nil in Hd as [_ ->]. done.
Qed.
End Polled.
