(* ===== verification/FrameReader.v ===== *)
(** * Readers of frames and writers of records over a polled stream

    Several streams of [crates/net] have the same frame around their own
    formats: the fields [rtmp], [plain], [ppos], [wbuf], [wpos], the functions
    [fill] and [flush_wbuf], and a loop over stages that takes whole frames
    ([shadowsocks/stream.rs], [shadowsocks/ss2022.rs], [vless_encryption/stream.rs]).
    This file is that frame, over any source of bytes. *)

From S2P Require Import Prelude NetIo AsyncRead.

(** ** Sources *)

(** What [poll_read] of an inner stream does with room for some bytes, and, for
    the proofs, the bytes it has yet to give and whether they come without a
    failure. *)
Class Source (S : Type) : Type := {
  src_poll : nat -> S -> Poll bytes * S;
  src_left : S -> bytes;
  src_flowing : S -> Prop
}.

Class SourceLaws (S : Type) `{Source S} : Prop := src_poll_flows :
  forall cap s, src_flowing s -> (0 < cap)%nat -> let '(p, s') := src_poll cap s in
    src_flowing s' /\ good_poll p /\ got p ++ src_left s' = src_left s /\ (length (got p) <= cap)%nat
    /\ (p = Ready (Ok []) -> src_left s = []).

(** What holds of every poll, failing ones included. *)
Class SourceTotal (S : Type) `{Source S} : Prop := src_poll_any :
  forall cap s, let '(p, s') := src_poll cap s in
    got p ++ src_left s' = src_left s /\ (length (got p) <= cap)%nat /\ p <> Ready Panic.

#[export] Instance pieces_source : Source (list Piece) := {|
  src_poll := poll_inner; src_left := arriving; src_flowing := flowing
|}.

#[export] Instance pieces_source_total : SourceTotal (list Piece).
Proof.
  intros cap s. cbn [src_poll src_left pieces_source].
  destruct s as [|[d| |e] s]; cbn; [split_and!; [done|lia|done]| |split_and!; [done|lia|done]..].
  destruct (Nat.leb_spec (length d) cap); cbn; [split_and!; [done|lia|done]|].
  rewrite app_assoc, take_drop, length_take. split_and!; [done|lia|done].
Qed.

#[export] Instance pieces_source_laws : SourceLaws (list Piece).
Proof.
  intros cap s Hs Hc. cbn [src_poll src_left src_flowing pieces_source] in *.
  pose proof (poll_inner_ok cap s Hs Hc) as H. pose proof (pieces_source_total cap s) as Ha. cbn [src_poll src_left pieces_source] in Ha.
  destruct (poll_inner cap s) as [p s']. destruct H as (Hf & Hg & H), Ha as (Ha & Hl & _).
  split; [done|]. split; [done|]. split; [done|]. split; [done|]. intros ->. destruct H as (_ & _ & H). by rewrite (H eq_refl).
Qed.

(** ** The reading part *)

(** The keys of the reading side, [stage], [rtmp], [plain], [ppos] *)
Record Reader (K Stage : Type) : Type := mkReader { recv : K; stage : Stage; rtmp : bytes; plain : bytes; ppos : nat }.
Arguments mkReader {K Stage} recv stage rtmp plain ppos.
Arguments recv {K Stage} r.
Arguments stage {K Stage} r.
Arguments rtmp {K Stage} r.
Arguments plain {K Stage} r.
Arguments ppos {K Stage} r.

(** A turn of the loop of [poll_read]: it goes on, or ends the poll. *)
Definition Turn (K Stage S : Type) : Type := (Reader K Stage * S) + (Reader K Stage * S * Poll bytes).

Section Fill.
Context {S : Type} {Src : Source S}.

(** [fill]: reads until the frame has [need] bytes; a read adds one at least
    ([fuel]). [Ok false] is the end of the stream before the frame. *)
Fixpoint fill_loop (fuel need : nat) (r : bytes) (inner : S) : bytes * S * Poll bool :=
  if (need <=? length r)%nat then (r, inner, Ready (Ok true))
  else
    match fuel with
    | O => (r, inner, Ready Panic)
    | Datatypes.S fuel =>
        match src_poll (Nat.min (need - length r) 4096) inner with
        | (Ready (Ok []), inner) => (r, inner, if is_nil r then Ready (Ok false) else Ready (Err UnexpectedEof))
        | (Ready (Ok filled), inner) => fill_loop fuel need (r ++ filled) inner
        | (Ready (Err e), inner) => (r, inner, Ready (Err e))
        | (Ready Panic, inner) => (r, inner, Ready Panic)
        | (Pending, inner) => (r, inner, Pending)
        end
    end.
Definition fill (need : nat) (r : bytes) (inner : S) : bytes * S * Poll bool := fill_loop need need r inner.
End Fill.

Section Reading.
Context {K Stage S : Type} {Src : Source S}.
Implicit Types me : Reader K Stage.

Definition set_rtmp (r : bytes) me : Reader K Stage := mkReader (recv me) (stage me) r (plain me) (ppos me).
Definition set_recv (c : K) me : Reader K Stage := mkReader c (stage me) (rtmp me) (plain me) (ppos me).
Definition set_stage (s : Stage) me : Reader K Stage := mkReader (recv me) s (rtmp me) (plain me) (ppos me).
Definition set_plain (p : bytes) me : Reader K Stage := mkReader (recv me) (stage me) (rtmp me) p 0.

(** [deliver]: what is left of the data goes out, up to [want] bytes. *)
Definition deliver (want : nat) me : Reader K Stage * bytes :=
  let n := Nat.min want (length (plain me) - ppos me) in
  let ppos' := (ppos me + n)%nat in
  let out := slice (ppos me) ppos' (plain me) in
  if (ppos' =? length (plain me))%nat then (mkReader (recv me) (stage me) (rtmp me) [] 0, out)
  else (mkReader (recv me) (stage me) (rtmp me) (plain me) ppos', out).

(** [match ready!(me.fill(cx, need))]: the end of the stream before the frame is
    [on_end], a whole frame is taken out of [rtmp] for [k]. *)
Definition take_frame (need : nat) (on_end : Poll bytes) me (inner : S)
    (k : bytes -> Reader K Stage -> S -> Turn K Stage S) : Turn K Stage S :=
  match fill need (rtmp me) inner with
  | (r, inner, Ready (Ok true)) => k r (set_rtmp [] me) inner
  | (r, inner, Ready (Ok false)) => inr (set_rtmp r me, inner, on_end)
  | (r, inner, Ready (Err e)) => inr (set_rtmp r me, inner, Ready (Err e))
  | (r, inner, Ready Panic) => inr (set_rtmp r me, inner, Ready Panic)
  | (r, inner, Pending) => inr (set_rtmp r me, inner, Pending)
  end.
End Reading.

(** ** The writing part *)

(** [wbuf], [wpos]: what is written and not flushed yet. *)
Record Writer : Type := mkWriter { wbuf : bytes; wpos : nat }.

(** [flush_wbuf]: the bytes written, and how the loop ends; [None] where it is
    pending. *)
Fixpoint flush_wbuf (steps : list WriteStep) (w : Writer) : Writer * bytes * option (res io_error unit) :=
  if (length (wbuf w) <=? wpos w)%nat then (mkWriter [] 0, [], Some (Ok tt))
  else
    match steps with
    | [] => (w, [], None)
    | NotNow :: _ => (w, [], None)
    | WriteFailed e :: _ => (w, [], Some (Err e))
    | Took O :: _ => (w, [], Some (Err (WriteZero "")))
    | Took k :: steps =>
        let k := Nat.min k (length (wbuf w) - wpos w) in
        let '(w', out, r) := flush_wbuf steps (mkWriter (wbuf w) (wpos w + k)) in
        (w', slice (wpos w) (wpos w + k) (wbuf w) ++ out, r)
    end.

(** [poll_write] of a stream: what is left is flushed, [encrypt] adds to the
    buffer, which is flushed as far as it goes. *)
Definition poll_write_with {Send : Type} (encrypt : bytes -> Send -> Send * bytes * res io_error nat)
    (before after : list WriteStep) (buf : bytes) (st : Send * Writer) : Send * Writer * bytes * option (res io_error nat) :=
  let '(send, w) := st in
  match flush_wbuf before w with
  | (w, out, None) => (send, w, out, None)
  | (w, out, Some (Err e)) => (send, w, out, Some (Err e))
  | (w, out, Some Panic) => (send, w, out, Some Panic)
  | (w, out, Some (Ok _)) =>
      if is_nil buf then (send, w, out, Some (Ok 0%nat))
      else
        let '(send, sealed, r) := encrypt buf send in
        let w := mkWriter (wbuf w ++ sealed) (wpos w) in
        match r with
        | Err e => (send, w, out, Some (Err e))
        | Panic => (send, w, out, Some Panic)
        | Ok n =>
            match flush_wbuf after w with
            | (w, out', Some (Err e)) => (send, w, out ++ out', Some (Err e))
            | (w, out', Some Panic) => (send, w, out ++ out', Some Panic)
            | (w, out', _) => (send, w, out ++ out', Some (Ok n))
            end
        end
  end.

(** An inner writer that does not fail. *)
Definition willing (steps : list WriteStep) : Prop :=
  Forall (fun s => match s with Took n => (0 < n)%nat | WriteFailed _ => False | NotNow => True end) steps.

Definition good_write (r : option (res io_error nat)) : Prop := match r with None => True | Some (Ok _) => True | _ => False end.

(** ** Frames *)

Section Fill.
Context {S : Type} {Src : Source S} {SL : SourceLaws S}.

Lemma fill_loop_ok need fuel : forall r inner, src_flowing inner -> (length r <= need)%nat -> (need - length r <= fuel)%nat ->
  let '(r', inner', p) := fill_loop fuel need r inner in
  src_flowing inner' /\ r' ++ src_left inner' = r ++ src_left inner /\ (length r' <= need)%nat /\
  match p with
  | Pending => True
  | Ready (Ok true) => length r' = need
  | Ready (Ok false) => r' = [] /\ src_left inner' = []
  | Ready (Err _) => src_left inner' = [] /\ (0 < length r' < need)%nat
  | Ready Panic => False
  end.
Proof using SL.
  induction fuel as [|fuel IH]; intros r inner Hf Hl Hfuel; cbn [fill_loop];
    (destruct (Nat.leb_spec need (length r)) as [Hn|Hn]; [split; [done|]; split; [done|]; split; [done|]; lia|]); [lia|].
  pose proof (src_poll_flows (Nat.min (need - length r) 4096) inner Hf ltac:(lia)) as Hp.
  destruct (src_poll _ inner) as [[|[d|e|]] inner']; destruct Hp as (Hf' & Hg & Hp & Hd & He); cbn [got] in *; [| |done|done].
  - cbn [app] in Hp. by rewrite Hp.
  - destruct d as [|b d].
    + cbn [app] in Hp. rewrite Hp, (He eq_refl). split; [done|]. split; [done|].
      split; [done|]. destruct r as [|x r]; cbn [is_nil]; [done|]. cbn in *. split; [done|]. lia.
    + assert (length (r ++ b :: d) <= need)%nat as Hr by (rewrite length_app; lia).
      pose proof (IH (r ++ b :: d) inner' Hf' Hr) as H.
      destruct (fill_loop fuel need (r ++ b :: d) inner') as [[r' inner2] p].
      rewrite <- app_assoc, Hp in H. apply H. rewrite length_app. cbn. lia.
Qed.

End Fill.

Section Frames.
Context {K Stage S : Type} {Src : Source S} {SL : SourceLaws S}.
Implicit Types me : Reader K Stage.

(** The bytes of the stream that are not decrypted yet. *)
Definition wire_left me (inner : S) : bytes := rtmp me ++ src_left inner.

(** What a poll that ends may leave: the same bytes, and room for them. *)
Definition waiting (need : nat) me me' (inner inner' : S) : Prop :=
  exists r, me' = set_rtmp r me /\ src_flowing inner' /\ wire_left me' inner' = wire_left me inner /\ (length r <= need)%nat.

(** A frame that is coming is taken, or waited for. *)
Lemma take_frame_ok need on_end me inner k frame rest (Q : Turn K Stage S -> Prop) :
  src_flowing inner -> (length (rtmp me) <= need)%nat -> wire_left me inner = frame ++ rest -> length frame = need -> (0 < need)%nat ->
  (forall me' inner', waiting need me me' inner inner' -> Q (inr (me', inner', Pending))) ->
  (forall inner', src_flowing inner' -> src_left inner' = rest -> Q (k frame (set_rtmp [] me) inner')) ->
  Q (take_frame need on_end me inner k).
Proof using SL.
  intros Hf Hr Hw Hl Hn Hpend Hk. unfold take_frame, fill.
  pose proof (fill_loop_ok need need (rtmp me) inner Hf Hr ltac:(lia)) as H.
  destruct (fill_loop need need (rtmp me) inner) as [[r inner'] p]. destruct H as (Hf' & Hw' & Hr' & Hp).
  unfold wire_left in Hw. rewrite Hw in Hw'. destruct p as [|[[]|e|]].
  - apply Hpend. exists r. unfold wire_left. cbn [rtmp set_rtmp]. by rewrite Hw', Hw.
  - apply app_inj_1 in Hw' as [-> E]; [|lia]. by apply Hk.
  - exfalso. destruct Hp as [-> Hp]. rewrite Hp in Hw'. apply (f_equal length) in Hw'. rewrite !length_app in Hw'. cbn [length] in Hw'. lia.
  - exfalso. destruct Hp as [Hp Hl']. rewrite Hp, app_nil_r in Hw'. apply (f_equal length) in Hw'. rewrite length_app in Hw'. lia.
  - done.
Qed.

(** No frame is coming. *)
Lemma take_frame_end need on_end me inner k (Q : Turn K Stage S -> Prop) :
  src_flowing inner -> wire_left me inner = [] -> (0 < need)%nat ->
  (forall me' inner' p, waiting need me me' inner inner' -> p = Pending \/ p = on_end -> Q (inr (me', inner', p))) ->
  Q (take_frame need on_end me inner k).
Proof using SL.
  intros Hf Hw Hn HQ. unfold wire_left in Hw. apply app_eq_nil in Hw as [Hr Ha]. unfold take_frame, fill. rewrite Hr.
  pose proof (fill_loop_ok need need [] inner Hf ltac:(cbn; lia) ltac:(lia)) as H.
  destruct (fill_loop need need [] inner) as [[r inner'] p]. destruct H as (Hf' & Hw' & Hr' & Hp).
  rewrite Ha in Hw'. apply app_eq_nil in Hw' as [-> Ha'].
  assert (waiting need me (set_rtmp [] me) inner inner') as W.
  { exists []. unfold wire_left. cbn [rtmp set_rtmp]. by rewrite Ha', Hr, Ha. }
  destruct p as [|[[]|e|]]; [apply HQ; [done|by left]|cbn in Hp; lia|apply HQ; [done|by right]|destruct Hp; cbn in *; lia|done].
Qed.

Lemma deliver_ok want me : (ppos me <= length (plain me))%nat ->
  let '(me', out) := deliver want me in
  recv me' = recv me /\ stage me' = stage me /\ rtmp me' = rtmp me /\ (ppos me' <= length (plain me'))%nat
  /\ out ++ drop (ppos me') (plain me') = drop (ppos me) (plain me)
  /\ (out = [] -> (0 < want)%nat -> (ppos me = length (plain me))%nat).
Proof using Type.
  intros Hp. unfold deliver. set (n := Nat.min want _).
  assert (length (slice (ppos me) (ppos me + n) (plain me)) = n) as Hn by (unfold slice; rewrite length_take, length_drop; lia).
  assert (slice (ppos me) (ppos me + n) (plain me) ++ drop (ppos me + n) (plain me) = drop (ppos me) (plain me)) as Hs.
  { unfold slice. rewrite <- drop_drop, Nat.add_comm, Nat.add_sub. apply take_drop. }
  destruct (Nat.eqb_spec (ppos me + n) (length (plain me))) as [E|E]; cbn [recv stage rtmp plain ppos];
    (split; [done|]; split; [done|]; split; [done|]).
  - split; [done|]. split; [|intros Ho Hw; rewrite Ho in Hn; cbn in Hn; lia]. rewrite <- Hs, E, drop_all. done.
  - split; [lia|]. split; [done|]. intros Ho Hw; rewrite Ho in Hn; cbn in Hn; lia.
Qed.

(** Where a reader is in [data]: [out] has been handed out. *)
Record chunk_reader (data out : bytes) (todo : list bytes) me (inner : S) : Prop := {
  cr_flow : src_flowing inner;
  cr_plain : (ppos me <= length (plain me))%nat;
  cr_data : out ++ drop (ppos me) (plain me) ++ concat todo = data
}.

(** What a poll that ends has done. *)
Definition poll_end (here : bytes -> Reader K Stage -> S -> Prop) (data out : bytes) (r : Reader K Stage * S * Poll bytes) : Prop :=
  let '(me', inner', p) := r in here (out ++ got p) me' inner' /\ good_poll p /\ (p = Ready (Ok []) -> out = data).

Lemma chunk_reader_waiting data out todo need me me' inner inner' :
  chunk_reader data out todo me inner -> waiting need me me' inner inner' -> chunk_reader data out todo me' inner'.
Proof using Type. intros [Hf Hp Hd] (r & -> & Hf' & _). by split. Qed.

(** The data is all handed out. *)
Lemma chunk_reader_done data out me inner : chunk_reader data out [] me inner -> ppos me = length (plain me) -> out = data.
Proof using Type. intros [_ _ Hd] E. rewrite E, drop_all in Hd. cbn [concat app] in Hd. by rewrite !app_nil_r in Hd. Qed.

(** What is left of the last chunk. *)
Lemma deliver_tail data out me inner todo want : (0 < want)%nat -> (ppos me < length (plain me))%nat ->
  chunk_reader data out todo me inner ->
  let '(me', o) := deliver want me in
  chunk_reader data (out ++ o) todo me' inner /\ recv me' = recv me /\ stage me' = stage me /\ rtmp me' = rtmp me /\ o <> [].
Proof using Type.
  intros Hwant Hlt [Hf Hp Hd]. pose proof (deliver_ok want me Hp) as H. destruct (deliver want me) as [me' o].
  destruct H as (E1 & E2 & E3 & Hp' & Ho & Hne). split; [|split_and!; [done..|]].
  - split; [done..|]. by rewrite <- app_assoc, (app_assoc o), Ho.
  - intros ->. specialize (Hne eq_refl Hwant). lia.
Qed.
End Frames.

(** ** Frames of a stream of which nothing is known *)

Section AnyFrames.
Context {K Stage S : Type} {Src : Source S} {ST : SourceTotal S}.
Implicit Types me : Reader K Stage.

Lemma fill_loop_any need fuel : forall r inner, (need - length r <= fuel)%nat ->
  let '(r', inner', p) := fill_loop fuel need r inner in
  r' ++ src_left inner' = r ++ src_left inner /\ ((length r <= need)%nat -> (length r' <= need)%nat) /\ p <> Ready Panic
  /\ (p = Ready (Ok true) -> (need <= length r')%nat).
Proof using ST.
  induction fuel as [|fuel IH]; intros r inner Hfuel; cbn [fill_loop];
    (destruct (Nat.leb_spec need (length r)) as [Hn|Hn]; [split; [done|]; split; [done|]; done|]); [lia|].
  pose proof (src_poll_any (Nat.min (need - length r) 4096) inner) as Hp.
  destruct (src_poll _ inner) as [[|[d|e|]] inner']; destruct Hp as (Hp & Hd & Hne); cbn [got app] in Hp; [by rewrite Hp| |by rewrite Hp|done].
  destruct d as [|b d]; [cbn [app] in Hp; rewrite Hp; by destruct r|].
  specialize (IH (r ++ b :: d) inner'). rewrite length_app in IH. cbn [got length] in Hd, IH. specialize (IH ltac:(lia)).
  destruct (fill_loop fuel need (r ++ b :: d) inner') as [[r' inner2] p]. rewrite <- app_assoc, Hp in IH.
  destruct IH as (E & Hl & Hp'). split; [done|]. split; [intros _; apply Hl; lia|done].
Qed.
Lemma take_frame_any need on_end me inner k (Q : Turn K Stage S -> Prop) :
  on_end <> Ready Panic -> got on_end = [] ->
  (forall r inner' p, r ++ src_left inner' = wire_left me inner -> ((length (rtmp me) <= need)%nat -> (length r <= need)%nat) ->
    p <> Ready Panic -> got p = [] -> Q (inr (set_rtmp r me, inner', p))) ->
  (forall frame inner', frame ++ src_left inner' = wire_left me inner -> (need <= length frame)%nat ->
    ((length (rtmp me) <= need)%nat -> length frame = need) -> Q (k frame (set_rtmp [] me) inner')) ->
  Q (take_frame need on_end me inner k).
Proof using ST.
  intros He Hg Hend Hk. unfold take_frame, fill.
  pose proof (fill_loop_any need need (rtmp me) inner ltac:(lia)) as H.
  destruct (fill_loop need need (rtmp me) inner) as [[r inner'] p]. destruct H as (Hw & Hl & Hp & Ht).
  destruct p as [|[[]|e|]]; [by apply Hend| |by apply Hend|by apply Hend|done].
  apply Hk; [done|by apply Ht|]. intros H. specialize (Hl H). specialize (Ht eq_refl). lia.
Qed.
End AnyFrames.

Lemma poll_end_mono {K Stage S} (here here' : bytes -> Reader K Stage -> S -> Prop) data out r :
  (forall out me inner, here out me inner -> here' out me inner) -> poll_end here data out r -> poll_end here' data out r.
Proof. intros H. destruct r as [[me inner] p]. unfold poll_end. intros (Hh & Hg & He). split; [by apply H|done]. Qed.

(** The frame that a goal is about. *)
Tactic Notation "frame_case" uconstr(tac) :=
  match goal with |- context [take_frame ?n ?e ?m ?i ?k] => pattern (take_frame n e m i k); eapply tac end.

Lemma loop_turn {E S A} n (step : S -> res E (S + A)) s :
  loop (Datatypes.S n) step s = r ← step s; match r with inl s' => loop n step s' | inr a => Ok a end.
Proof. done. Qed.

(** ** Writing *)

Lemma flush_wbuf_ok steps : forall w, (wpos w <= length (wbuf w))%nat ->
  let '(w', out, r) := flush_wbuf steps w in
  out ++ drop (wpos w') (wbuf w') = drop (wpos w) (wbuf w) /\ (wpos w' <= length (wbuf w'))%nat
  /\ (willing steps -> match r with None => True | Some (Ok _) => w' = mkWriter [] 0 | _ => False end).
Proof.
  induction steps as [|s steps IH]; intros w Hw; cbn [flush_wbuf];
    (destruct (Nat.leb_spec (length (wbuf w)) (wpos w)) as [Hle|Hlt]; [cbn; rewrite drop_ge by lia; split_and!; [done|lia|done]|]).
  { cbn. done. }
  destruct s as [[|k]|e|]; [cbn; split_and!; [done..|]| |cbn; split_and!; [done..|]|cbn; done].
  - intros Hs. apply Forall_cons in Hs as [Hs _]. lia.
  - set (j := Nat.min _ _). assert (wpos w + j <= length (wbuf w))%nat as Hj by (unfold j; lia). specialize (IH (mkWriter (wbuf w) (wpos w + j)) Hj).
    destruct (flush_wbuf steps _) as [[w' out] r]. cbn [wbuf wpos] in IH. destruct IH as (Ho & Hl & Hr).
    rewrite <- app_assoc, Ho. split_and!; [|done|intros Hs; apply Forall_cons in Hs as [_ Hs]; by apply Hr].
    unfold slice. rewrite <- drop_drop, Nat.add_comm, Nat.add_sub. apply take_drop.
  - intros Hs. by apply Forall_cons in Hs as [Hs _].
Qed.

(** Writes, one after the other: what the stream needs from outside for this one
    (a random salt), what the inner writer does at the two flushes, the buffer. *)
Record WriteCall (R : Type) : Type := mkCall { call_random : R; call_before : list WriteStep; call_after : list WriteStep; call_buf : bytes }.
Arguments mkCall {R} call_random call_before call_after call_buf.
Arguments call_random {R} w.
Arguments call_before {R} w.
Arguments call_after {R} w.
Arguments call_buf {R} w.

(** The bytes a call was told are taken. *)
Definition taken (buf : bytes) (r : option (res io_error nat)) : bytes := match r with Some (Ok n) => take n buf | _ => [] end.

Section Writes.
Context {R Send : Type} (encrypt : R -> bytes -> Send -> Send * bytes * res io_error nat).

Fixpoint writes (calls : list (WriteCall R)) (st : Send * Writer) : Send * Writer * bytes * list (option (res io_error nat)) :=
  match calls with
  | [] => (st, [], [])
  | call :: calls =>
      let '(send, w, out, r) := poll_write_with (encrypt (call_random call)) (call_before call) (call_after call) (call_buf call) st in
      let '(st, out', rs) := writes calls (send, w) in
      (st, out ++ out', r :: rs)
  end.

Fixpoint all_taken (calls : list (WriteCall R)) (rs : list (option (res io_error nat))) : bytes :=
  match calls, rs with call :: calls, r :: rs => taken (call_buf call) r ++ all_taken calls rs | _, _ => [] end.

(** [Inv todo wire send]: the parts [todo] were encrypted to [wire], and [send]
    goes on from there. *)
Context (Inv : list bytes -> bytes -> Send -> Prop) (good : R -> Prop)
  (encrypt_ok : forall r buf todo wire send, good r -> buf <> [] -> Inv todo wire send ->
    exists send' sealed n, encrypt r buf send = (send', sealed, Ok n) /\ Inv (todo ++ [take n buf]) (wire ++ sealed) send').

Definition good_call (call : WriteCall R) : Prop := willing (call_before call) /\ willing (call_after call) /\ good (call_random call).

(** The bytes written and those in the buffer are the wire. *)
Definition writer_at (todo : list bytes) (written : bytes) (st : Send * Writer) : Prop :=
  let '(send, w) := st in (wpos w <= length (wbuf w))%nat /\ Inv todo (written ++ drop (wpos w) (wbuf w)) send.

Lemma writer_at_flush todo written send w w' out : out ++ drop (wpos w') (wbuf w') = drop (wpos w) (wbuf w) ->
  (wpos w' <= length (wbuf w'))%nat -> writer_at todo written (send, w) -> writer_at todo (written ++ out) (send, w').
Proof using Type. intros E Hl [Hw Hat]. split; [done|]. by rewrite <- app_assoc, E. Qed.

Lemma poll_write_ok call todo written st : good_call call -> writer_at todo written st ->
  let '(send, w, out, r) := poll_write_with (encrypt (call_random call)) (call_before call) (call_after call) (call_buf call) st in
  good_write r /\ exists more, writer_at (todo ++ more) (written ++ out) (send, w) /\ concat more = taken (call_buf call) r.
Proof using encrypt_ok.
  intros (Hb & Ha & Hr) Hat. destruct st as [send w]. unfold poll_write_with.
  pose proof (flush_wbuf_ok (call_before call) w (proj1 Hat)) as H. destruct (flush_wbuf _ w) as [[w1 out] r].
  destruct H as (Ho & Hl & Hg). specialize (Hg Hb). eapply writer_at_flush in Hat; [|exact Ho|exact Hl].
  destruct r as [[[]| |]|]; [|done|done|].
  2: { split; [done|]. exists []. by rewrite app_nil_r. }
  destruct (is_nil (call_buf call)) eqn:Eb.
  { split; [done|]. exists []. by rewrite app_nil_r. }
  destruct Hat as [Hw Hinv]. destruct (encrypt_ok (call_random call) (call_buf call) _ _ _ Hr ltac:(by destruct (call_buf call)) Hinv) as (send' & sealed & n & -> & Hinv').
  assert (writer_at (todo ++ [take n (call_buf call)]) (written ++ out) (send', mkWriter (wbuf w1 ++ sealed) (wpos w1))) as Hat'.
  { split; cbn [wbuf wpos]; [rewrite length_app; lia|]. by rewrite drop_app_le, app_assoc by lia. }
  pose proof (flush_wbuf_ok (call_after call) _ (proj1 Hat')) as H. destruct (flush_wbuf (call_after call) _) as [[w2 out'] r].
  destruct H as (Ho' & Hl' & Hg'). specialize (Hg' Ha). eapply writer_at_flush in Hat'; [|exact Ho'|exact Hl'].
  rewrite <- app_assoc in Hat'.
  destruct r as [[[]| |]|]; [|done|done|]; (split; [done|]; eexists; split; [exact Hat'|]; cbn [concat taken]; by rewrite app_nil_r).
Qed.

Lemma writes_ok calls : forall todo written st, Forall good_call calls -> writer_at todo written st ->
  let '(st', out, rs) := writes calls st in
  Forall good_write rs /\ exists more, writer_at (todo ++ more) (written ++ out) st' /\ concat more = all_taken calls rs.
Proof using encrypt_ok.
  induction calls as [|call calls IH]; intros todo written st Hc Hat; cbn [writes].
  - split; [by constructor|]. exists []. by rewrite !app_nil_r.
  - apply Forall_cons in Hc as [Hc Hcs]. pose proof (poll_write_ok call todo written st Hc Hat) as H.
    destruct (poll_write_with _ _ _ _ st) as [[[send w] out] r]. destruct H as (Hg & more & Hat1 & Hm).
    specialize (IH _ _ _ Hcs Hat1). destruct (writes calls (send, w)) as [[st' out'] rs].
    destruct IH as (Hgs & more' & Hat2 & Hm'). split; [by constructor|]. exists (more ++ more').
    rewrite !app_assoc. split; [done|]. rewrite concat_app. cbn [all_taken]. by rewrite Hm, Hm'.
Qed.
End Writes.
