(* ===== verification/VisionBlocks.v ===== *)
(** * What both Vision streams rest on

    The deframer of the writing side cuts what it is fed and loses nothing; the
    blocks written so far say some data and stop in a state of the reader; and a
    reader that has come to such a state goes on from there. *)

From S2P Require Import Prelude NetIo VisionPad TlsRecords FuzzyTls VisionFilter.

(** ** The deframers lose nothing *)

(** What is known of a deframer in use. *)
Definition fuzzy_ok (f : FuzzyTlsDeframer) : Prop :=
  match f_state f with Searching => inner f = new_deframer | Deframing => deframer_ok (inner f) end.

Lemma fuzzy_ok_new : fuzzy_ok new_fuzzy.
Proof. done. Qed.

Lemma read_payload_ok b st n : announced b = Some n ->
  let '(d', r) := read_payload (mkDeframer b st) n in
  match r with
  | Ok (Some record) => b = record ++ buffer d' /\ record <> [] /\ d_state d' = ReadingHeader
  | Ok None => d' = mkDeframer b st
  | _ => False
  end.
Proof.
  intros Ha. pose proof (announced_bounds _ _ Ha) as Hn. unfold read_payload. cbn [buffer].
  destruct (Z.ltb_spec (Z.of_nat (length b)) (TLS_RECORD_HEADER_SIZE + n)) as [|Hge]; [done|]. cbn [buffer d_state].
  split; [by rewrite take_drop|]. split; [|done]. intros E. apply (f_equal length) in E. rewrite length_take in E.
  unfold TLS_RECORD_HEADER_SIZE in *. cbn [length] in E. lia.
Qed.

Lemma next_record_ok d : deframer_ok d ->
  let '(d', r) := next_record d in
  deframer_ok d' /\ match r with
  | Ok (Some record) => buffer d = record ++ buffer d' /\ record <> []
  | Ok None | Err _ => buffer d' = buffer d
  | Panic => False
  end.
Proof.
  destruct d as [b st]. intros Hd. unfold next_record. cbn [d_state buffer]. destruct st as [|n].
  - destruct b as [|ct [|ma [|mi [|l0 [|l1 b]]]]]; [done..|].
    destruct (header_error ct ma mi (be_value [l0; l1])) as [e|] eqn:E; [done|].
    assert (announced (ct :: ma :: mi :: l0 :: l1 :: b) = Some (be_value [l0; l1])) as Ha by (cbn [announced]; by rewrite E).
    pose proof (read_payload_ok _ (ReadingPayload (be_value [l0; l1])) _ Ha) as H. destruct (read_payload _ _) as [d' [[r|]|e|]]; [|by subst d'|done..].
    destruct H as (Hb & Hne & Hs). unfold deframer_ok. by rewrite Hs.
  - cbn [deframer_ok d_state buffer] in Hd. pose proof (read_payload_ok b (ReadingPayload n) n Hd) as H.
    destruct (read_payload _ _) as [d' [[r|]|e|]]; [|by subst d'|done..].
    destruct H as (Hb & Hne & Hs). unfold deframer_ok. by rewrite Hs.
Qed.

Section Cutting.
Context (memmem_find : bytes -> bytes -> option nat).

Lemma deframing_ok f : f_state f = Deframing -> deframer_ok (inner f) ->
  let '(f', r) := deframing f in
  fuzzy_ok f' /\ match r with
  | Ok (TlsRecord record) => fuzzy_remaining_data f = record ++ fuzzy_remaining_data f' /\ record <> []
  | Ok NeedData | Err _ => fuzzy_remaining_data f' = fuzzy_remaining_data f
  | _ => False
  end.
Proof using Type.
  intros Hs Hd. unfold deframing. pose proof (next_record_ok _ Hd) as H. destruct (next_record (inner f)) as [d r].
  destruct H as [Hd' Hr]. unfold fuzzy_ok, fuzzy_remaining_data, remaining_data. cbn [f_state inner]. rewrite Hs. split; [done|].
  destruct r as [[record|]|e|]; done.
Qed.

Lemma next_fuzzy_ok f : fuzzy_ok f ->
  let '(f', r) := next_fuzzy memmem_find f in
  fuzzy_ok f' /\ match r with
  | Ok (TlsRecord cut) | Ok (UnknownPrefix cut) => fuzzy_remaining_data f = cut ++ fuzzy_remaining_data f' /\ cut <> []
  | Ok NeedData | Err _ => fuzzy_remaining_data f' = fuzzy_remaining_data f
  | Panic => False
  end.
Proof using Type.
  destruct f as [d b st t]. intros Hf. unfold next_fuzzy. cbn [f_state search_buffer inner total_prefix_bytes].
  destruct st; unfold fuzzy_ok in Hf; cbn [f_state inner] in Hf.
  2: { pose proof (deframing_ok (mkFuzzy d b Deframing t) eq_refl Hf) as H. destruct (deframing _) as [f' [[]| |]]; try done; tauto. }
  subst d. case_bool_decide as Hb; [done|].
  destruct (if (_ <=? _)%nat then _ else None) as [offset|].
  - destruct (Nat.ltb_spec 0 offset) as [Ho|Ho].
    + unfold fuzzy_ok, fuzzy_remaining_data, remaining_data. cbn [f_state inner search_buffer feed_deframer buffer d_state new_deframer app].
      split; [done|]. split; [by rewrite take_drop|]. destruct b as [|x b]; [done|]. by destruct offset; [lia|].
    + pose proof (deframing_ok (mkFuzzy (feed_deframer new_deframer b) [] Deframing t) eq_refl I) as H.
      destruct (deframing _) as [f' [[]| |]]; destruct H as [Hf' H]; (split; [done|]); cbn in H; done.
  - destruct (Nat.ltb_spec (find_potential_tls_suffix_len b) (length b)) as [Hl|Hl]; [|done].
    unfold fuzzy_ok, fuzzy_remaining_data. cbn [f_state inner search_buffer]. split; [done|]. split; [by rewrite take_drop|].
    intros E. apply (f_equal length) in E. rewrite length_take in E. cbn [length] in E. lia.
Qed.

Lemma feed_fuzzy_ok f data : fuzzy_ok f -> fuzzy_ok (feed_fuzzy f data) /\ fuzzy_remaining_data (feed_fuzzy f data) = fuzzy_remaining_data f ++ data.
Proof using Type.
  destruct f as [d b [|] t]; unfold fuzzy_ok, feed_fuzzy, fuzzy_remaining_data; cbn; intros H; [done|]. split; [by apply feed_deframer_ok|done].
Qed.

Lemma clear_fuzzy_ok f : fuzzy_ok (clear_fuzzy f) /\ fuzzy_remaining_data (clear_fuzzy f) = [].
Proof using Type. done. Qed.

Lemma fuzzy_pending_length f : fuzzy_pending_bytes f = length (fuzzy_remaining_data f).
Proof using Type. by destruct f as [d b [] t]. Qed.
End Cutting.

(** ** What the blocks say *)

(** The bytes written so far say [data], and a reader of them stops in [s];
    before the first block nothing is written. *)
Definition says (uuid : bytes) (first : bool) (wire data : bytes) (s : ref_state) : Prop :=
  if first then wire = [] /\ data = [] /\ s = (CCommand, true)
  else exists v, wire = uuid ++ v /\ ref_run (CCommand, true) v = Ok (s, data).

Lemma says_block uuid r first wire data f cmd part tls : RngLaws r -> Z.of_nat (length part) < 65536 ->
  says uuid first wire data (CCommand, f) ->
  says uuid false (wire ++ pad r part (if first then Some uuid else None) (command_code cmd) tls) (data ++ part) (after_block cmd, false).
Proof.
  intros L Hl. unfold says. destruct first.
  - intros (-> & -> & [= ->]). exists (pad r part None (command_code cmd) tls). split; [done|]. by apply ref_pad.
  - intros (v & -> & Hr). exists (v ++ pad r part None (command_code cmd) tls). split; [by rewrite app_assoc|].
    rewrite ref_run_app, Hr. cbn [mbind res_bind]. by rewrite ref_pad.
Qed.

(** After the last block everything is data. *)
Lemma says_tail uuid wire data cmd f tail : says uuid false wire data (CDone cmd, f) -> says uuid false (wire ++ tail) (data ++ tail) (CDone cmd, f).
Proof.
  intros (v & -> & Hr). exists (v ++ tail). split; [by rewrite app_assoc|]. rewrite ref_run_app, Hr. cbn [mbind res_bind]. by rewrite ref_done.
Qed.

(** ** Where a reader of blocks is *)

Lemma after_block_done cmd c : after_block cmd = CDone c -> c <> CmdContinue.
Proof. destruct cmd; cbn; congruence. Qed.

Lemma ref_byte_done s b c f o : ~ finished s -> ref_byte s b = Ok ((CDone c, f), o) -> c <> CmdContinue.
Proof.
  assert (forall f' cmd n, settle_padding f' cmd n = (CDone c, f) -> c <> CmdContinue) as Hp.
  { intros f' cmd n. unfold settle_padding. destruct (0 <? n); [done|]. intros E. apply (f_equal fst) in E. by apply after_block_done in E. }
  assert (forall f' cmd n p, settle_content f' cmd n p = (CDone c, f) -> c <> CmdContinue) as Hc.
  { intros f' cmd n p. unfold settle_content. destruct (0 <? n); [done|]. apply Hp. }
  destruct s as [[|cmd [h|]|cmd n [h|]|cmd n p|cmd n|cmd] f']; cbn [ref_byte]; intros Hf; try done.
  - destruct (command_try_from b); cbn [mbind res_bind]; done.
  - intros E. apply Ok_inj in E. apply (f_equal fst) in E. by eapply Hc.
  - intros E. apply Ok_inj in E. apply (f_equal fst) in E. by eapply Hc.
  - intros E. apply Ok_inj in E. apply (f_equal fst) in E. by eapply Hp.
Qed.

(** The block that ends the padding has a final command. *)
Lemma ref_run_done d : forall s c f o, ~ finished s -> ref_run s d = Ok ((CDone c, f), o) -> c <> CmdContinue.
Proof.
  induction d as [|b d IH]; intros s c f o Hf; cbn [ref_run].
  - intros E. apply Ok_inj in E. apply (f_equal fst) in E. cbn [fst] in E. subst s. by destruct (Hf I).
  - intros H. apply ok_bind in H as ([s1 o1] & H1 & H). apply ok_bind in H as ([s2 o2] & H2 & H).
    apply Ok_inj in H. apply (f_equal fst) in H. cbn [fst] in H. subst s2. destruct (decide (finished s1)) as [Hf1|Hf1]; [|by eapply IH].
    destruct s1 as [c1 f1]. destruct c1; try done. rewrite ref_done in H2. apply Ok_inj in H2. apply (f_equal fst) in H2. cbn [fst] in H2.
    injection H2 as -> ->. by eapply ref_byte_done.
Qed.

(** A call of [unpad] on a part of what is to come: it gives the data of that
    part, and a final command when the padding ends in it. *)
Lemma unpad_part s part later s' o : ref_ok s -> ~ finished s -> ref_run s (part ++ later) = Ok (s', o) ->
  exists s1 o1 o2, unpad (resting s) part = Ok (resting s1, Ok (mkUnpadResult o1 (result_command s1))) /\ o = o1 ++ o2 /\ ref_ok s1 /\ ref_run s part = Ok (s1, o1) /\
    match fst s1 with
    | CDone c => c <> CmdContinue /\ o2 = later
    | _ => ref_run s1 later = Ok (s', o2) /\ ~ finished s1
    end.
Proof.
  intros Hs Hf Hr. rewrite ref_run_app in Hr. apply ok_bind in Hr as ([s1 o1] & H1 & Hr). apply ok_bind in Hr as ([s2 o2] & H2 & Hr).
  apply Ok_inj in Hr. destruct (unpad_run s part Hs Hf) as (out & Hu & Ho). rewrite H1 in Ho. subst out.
  exists s1, o1, o2. split; [done|]. split; [by apply (f_equal snd) in Hr|]. split; [by eapply ref_run_ok|]. split; [done|].
  assert (s2 = s') as -> by (by apply (f_equal fst) in Hr). destruct s1 as [c f]. cbn [fst].
  destruct c; try (split; [exact H2|by intros []]). split; [by eapply ref_run_done|].
  rewrite ref_done in H2. apply Ok_inj in H2. by apply (f_equal snd) in H2.
Qed.
