(* ===== verification/VisionPlain.v ===== *)
(** * Vision over a plain stream
    ([VisionPlainStream] of [crates/net/src/vision/vision_plain_stream.rs])

    The padding of Vision over a layer that encrypts by itself: what is written
    goes out in padded blocks until the filter has seen enough, and after the
    block with the command [End] as it is. The two halves of the stream share
    only the inner stream and the user's UUID, so each is a state of its own. *)

From S2P Require Import Prelude RustStr NetAddr NetIo AsyncRead FrameReader VisionPad TlsRecords FuzzyTls VisionFilter VisionBlocks.

Definition COMMAND_CONTINUE : Z := 0.
Definition COMMAND_END : Z := 1.
Definition MAX_CONTENT : nat := Z.to_nat 8192.

Inductive Mode : Type := Padding | Passthrough.

(** [read_mode], [read_unpadder], [pending_read], [vless_response_pending],
    [partial_vless_response], [is_read_eof] *)
Record PlainReader : Type := mkPlainReader {
  pr_mode : Mode; pr_unpadder : VisionUnpadder; pr_pending : bytes;
  pr_response_pending : bool; pr_partial : bytes; pr_eof : bool
}.

(** [write_mode], [write_deframer], [filter], [write_first_packet], [wbuf] with
    [wpos], and how many blocks have drawn on the random source. *)
Record PlainWriter : Type := mkPlainWriter {
  pw_mode : Mode; pw_deframer : FuzzyTlsDeframer; pw_filter : VisionFilter;
  pw_first : bool; pw_out : Writer; pw_drawn : nat
}.

(** [VisionPlainStream::new_client] *)
Definition new_plain_reader (user_uuid : bytes) : PlainReader := mkPlainReader Padding (new_unpadder user_uuid) [] true [] false.
Definition new_plain_writer : PlainWriter := mkPlainWriter Padding new_fuzzy new_filter true (mkWriter [] 0) 0.

(** ** Writing *)

(** The command for [data] of which [rest] follows, and the test of a record
    that ends the padding. *)
Definition is_app_data (f : VisionFilter) (record : bytes) : bool :=
  vf_is_tls f && (3 <=? length record)%nat && byte_is record 0 23 && byte_is record 1 3.

Definition non_tls_ended (f : VisionFilter) (record : bytes) : bool :=
  negb (is_app_data f record) && negb (is_filtering f) && negb (is_tls12_or_above f).

Section Writing.
Context (memmem_find : bytes -> bytes -> option nat) (user_uuid : bytes) (random : nat -> Rng).

(** [extend_from_slice] on [wbuf] *)
Definition push_out (data : bytes) (w : PlainWriter) : PlainWriter :=
  mkPlainWriter (pw_mode w) (pw_deframer w) (pw_filter w) (pw_first w) (mkWriter (wbuf (pw_out w) ++ data) (wpos (pw_out w))) (pw_drawn w).

(** [self.pad(..)], and its result appended to [wbuf]. *)
Definition push_block (data : bytes) (command : Z) (is_tls : bool) (w : PlainWriter) : PlainWriter :=
  let p := if pw_first w then pad_with_uuid_and_command (random (pw_drawn w)) data user_uuid command is_tls
           else pad_with_command (random (pw_drawn w)) data command is_tls in
  push_out p (mkPlainWriter (pw_mode w) (pw_deframer w) (pw_filter w) false (pw_out w) (S (pw_drawn w))).

(** [push_padded]: the loop over the parts; each takes a byte at least. *)
Fixpoint push_parts (fuel : nat) (data : bytes) (final_command : Z) (is_tls : bool) (w : PlainWriter) : PlainWriter :=
  match fuel with
  | O => w
  | S fuel =>
      if is_nil data then w
      else
        let cmd := if (length data <=? MAX_CONTENT)%nat then final_command else COMMAND_CONTINUE in
        push_parts fuel (drop MAX_CONTENT data) final_command is_tls (push_block (take MAX_CONTENT data) cmd is_tls w)
  end.

Definition push_padded (data : bytes) (final_command : Z) (w : PlainWriter) : PlainWriter :=
  let is_tls := vf_is_tls (pw_filter w) in
  if is_nil data then push_block data final_command is_tls w
  else push_parts (length data) data final_command is_tls w.

Definition set_filter (f : VisionFilter) (w : PlainWriter) : PlainWriter :=
  mkPlainWriter (pw_mode w) (pw_deframer w) f (pw_first w) (pw_out w) (pw_drawn w).
Definition set_deframer (d : FuzzyTlsDeframer) (w : PlainWriter) : PlainWriter :=
  mkPlainWriter (pw_mode w) d (pw_filter w) (pw_first w) (pw_out w) (pw_drawn w).

(** The end of the padding: the tail goes out as it is. *)
Definition pass_through (w : PlainWriter) : PlainWriter :=
  let w := push_out (fuzzy_remaining_data (pw_deframer w)) w in
  mkPlainWriter Passthrough (clear_fuzzy (pw_deframer w)) (pw_filter w) (pw_first w) (pw_out w) (pw_drawn w).

(** One turn of the loop of [poll_write]: [true] to go on. *)
Definition deframe_turn (w : PlainWriter) : PlainWriter * res io_error bool :=
  let '(d, r) := next_fuzzy memmem_find (pw_deframer w) in
  let w := set_deframer d w in
  match r with
  | Ok (TlsRecord record) =>
      let w := set_filter (filter_record (pw_filter w) record) w in
      if is_app_data (pw_filter w) record || non_tls_ended (pw_filter w) record
      then (pass_through (push_padded record COMMAND_END w), Ok false)
      else (push_padded record COMMAND_CONTINUE w, Ok true)
  | Ok (UnknownPrefix prefix) =>
      let w := set_filter (decrement_filter_count (pw_filter w)) w in
      if is_filtering (pw_filter w) then (push_padded prefix COMMAND_CONTINUE w, Ok true)
      else (pass_through (push_padded prefix COMMAND_END w), Ok false)
  | Ok NeedData => (w, Ok false)
  | Err e => (w, Err e)
  | Panic => (w, Panic)
  end.

(** The loop; a turn that goes on has taken a byte out of the deframer. *)
Fixpoint deframe (fuel : nat) (w : PlainWriter) : PlainWriter * res io_error unit :=
  match fuel with
  | O => (w, Panic)
  | S fuel =>
      match deframe_turn w with
      | (w, Ok true) => deframe fuel w
      | (w, Ok false) => (w, Ok tt)
      | (w, Err e) => (w, Err e)
      | (w, Panic) => (w, Panic)
      end
  end.

Definition set_out (o : Writer) (w : PlainWriter) : PlainWriter :=
  mkPlainWriter (pw_mode w) (pw_deframer w) (pw_filter w) (pw_first w) o (pw_drawn w).

(** [poll_write] of the inner stream. *)
Definition inner_write (steps : list WriteStep) (buf : bytes) : bytes * option (res io_error nat) :=
  match steps with
  | Took n :: _ => let n := Nat.min n (length buf) in (take n buf, Some (Ok n))
  | WriteFailed e :: _ => ([], Some (Err e))
  | _ => ([], None)
  end.

(** [poll_write]: what the inner writer does at the flush before and at the
    writes after; the bytes written, and the answer. *)
Definition plain_poll_write (before after : list WriteStep) (buf : bytes) (w : PlainWriter)
    : PlainWriter * bytes * option (res io_error nat) :=
  match flush_wbuf before (pw_out w) with
  | (o, out, None) => (set_out o w, out, None)
  | (o, out, Some (Err e)) => (set_out o w, out, Some (Err e))
  | (o, out, Some Panic) => (set_out o w, out, Some Panic)
  | (o, out, Some (Ok _)) =>
      let w := set_out o w in
      match pw_mode w with
      | Passthrough => let '(out', r) := inner_write after buf in (w, out ++ out', r)
      | Padding =>
          if is_nil buf then (w, out, Some (Ok 0%nat))
          else
            let w := set_deframer (feed_fuzzy (pw_deframer w) buf) w in
            match deframe (S (fuzzy_pending_bytes (pw_deframer w))) w with
            | (w, Err e) => (w, out, Some (Err e))
            | (w, Panic) => (w, out, Some Panic)
            | (w, Ok _) =>
                match flush_wbuf after (pw_out w) with
                | (o, out', Some (Err e)) => (set_out o w, out ++ out', Some (Err e))
                | (o, out', Some Panic) => (set_out o w, out ++ out', Some Panic)
                | (o, out', _) => (set_out o w, out ++ out', Some (Ok (length buf)))
                end
            end
      end
  end.

(** [poll_flush], [poll_shutdown], up to those of the inner stream. *)
Definition plain_poll_flush (steps : list WriteStep) (w : PlainWriter) : PlainWriter * bytes * option (res io_error unit) :=
  let '(o, out, r) := flush_wbuf steps (pw_out w) in (set_out o w, out, r).
End Writing.

(** ** Reading *)

(** [handle_unpad] *)
Definition handle_unpad (data : bytes) (me : PlainReader) : PlainReader * res io_error unit :=
  match unpad (pr_unpadder me) data with
  | Ok (u, Ok r) =>
      (mkPlainReader (match command r with Some CmdEnd | Some CmdDirect => Passthrough | _ => pr_mode me end)
         u (pr_pending me ++ content r) (pr_response_pending me) (pr_partial me) (pr_eof me), Ok tt)
  | Ok (u, Err e) => (mkPlainReader (pr_mode me) u (pr_pending me) (pr_response_pending me) (pr_partial me) (pr_eof me), Err e)
  | Ok (u, Panic) => (mkPlainReader (pr_mode me) u (pr_pending me) (pr_response_pending me) (pr_partial me) (pr_eof me), Panic)
  | _ => (me, Panic)
  end.

(** [serve_pending] *)
Definition serve_pending (want : nat) (me : PlainReader) : PlainReader * bytes :=
  let n := Nat.min want (length (pr_pending me)) in
  (mkPlainReader (pr_mode me) (pr_unpadder me) (drop n (pr_pending me)) (pr_response_pending me) (pr_partial me) (pr_eof me),
   take n (pr_pending me)).

(** The header of the response: [None] while it is not whole, the bytes to
    unpad otherwise. *)
Definition strip_response (chunk : bytes) (me : PlainReader) : PlainReader * res io_error (option bytes) :=
  if pr_response_pending me then
    let partial := pr_partial me ++ chunk in
    let me' := mkPlainReader (pr_mode me) (pr_unpadder me) (pr_pending me) true partial (pr_eof me) in
    match partial with
    | version :: addon_len :: _ =>
        if negb (val8 version =? 0) then (me', Err (IoOther "vision/enc: неверная версия VLESS-ответа"))
        else
          let total := (2 + Z.to_nat (val8 addon_len))%nat in
          if (length partial <? total)%nat then (me', Ok None)
          else (mkPlainReader (pr_mode me) (pr_unpadder me) (pr_pending me) false [] (pr_eof me), Ok (Some (drop total partial)))
    | _ => (me', Ok None)
    end
  else (me, Ok (Some chunk)).

(** One turn of the loop of [poll_read]. *)
Definition plain_read_turn (want : nat) (st : PlainReader * list Piece)
    : (PlainReader * list Piece) + (PlainReader * list Piece * Poll bytes) :=
  let '(me, inner) := st in
  match poll_inner MAX_CONTENT inner with
  | (Pending, inner) => inr (me, inner, Pending)
  | (Ready (Err e), inner) => inr (me, inner, Ready (Err e))
  | (Ready Panic, inner) => inr (me, inner, Ready Panic)
  | (Ready (Ok []), inner) =>
      inr (mkPlainReader (pr_mode me) (pr_unpadder me) (pr_pending me) (pr_response_pending me) (pr_partial me) true, inner, Ready (Ok []))
  | (Ready (Ok chunk), inner) =>
      match strip_response chunk me with
      | (me, Err e) => inr (me, inner, Ready (Err e))
      | (me, Panic) => inr (me, inner, Ready Panic)
      | (me, Ok None) => inl (me, inner)
      | (me, Ok (Some to_unpad)) =>
          match (if is_nil to_unpad then (me, Ok tt) else handle_unpad to_unpad me) with
          | (me, Err e) => inr (me, inner, Ready (Err e))
          | (me, Panic) => inr (me, inner, Ready Panic)
          | (me, Ok _) =>
              if negb (is_nil (pr_pending me)) then let '(me, out) := serve_pending want me in inr (me, inner, Ready (Ok out))
              else match pr_mode me with
                   | Passthrough => let '(p, inner) := poll_inner want inner in inr (me, inner, p)
                   | Padding => inl (me, inner)
                   end
          end
      end
  end.

(** [poll_read]; a turn that goes on has taken a byte of the inner stream. *)
Definition plain_poll_read (want : nat) (me : PlainReader) (inner : list Piece) : res io_error (PlainReader * list Piece * Poll bytes) :=
  if negb (is_nil (pr_pending me)) then let '(me, out) := serve_pending want me in Ok (me, inner, Ready (Ok out))
  else match pr_mode me with
       | Passthrough => let '(p, inner) := poll_inner want inner in Ok (me, inner, p)
       | Padding =>
           if pr_eof me then Ok (me, inner, Ready (Ok []))
           else loop (S (length (arriving inner))) (fun st => Ok (plain_read_turn want st)) (me, inner)
       end.

(** ** What is written *)

Section Written.
Context (memmem_find : bytes -> bytes -> option nat) (uuid : bytes) (random : nat -> Rng) {RL : forall n, RngLaws (random n)}.

(** The bytes that left the stream, and those that are to. *)
Definition wire (written : bytes) (w : PlainWriter) : bytes := written ++ drop (wpos (pw_out w)) (wbuf (pw_out w)).

Record at_writer (s : ref_state) (written : bytes) (w : PlainWriter) (data : bytes) : Prop := {
  aw_pos : (wpos (pw_out w) <= length (wbuf (pw_out w)))%nat;
  aw_says : says uuid (pw_first w) (wire written w) data s
}.

Lemma at_writer_as s written w w' data : pw_out w' = pw_out w -> pw_first w' = pw_first w -> at_writer s written w data -> at_writer s written w' data.
Proof using Type. intros E1 E2 [H1 H2]. split; unfold wire; by rewrite ?E1, ?E2. Qed.

(** [w'] differs from [w] in what is to be written only. *)
Definition same_state (w w' : PlainWriter) : Prop :=
  pw_mode w' = pw_mode w /\ pw_deframer w' = pw_deframer w /\ pw_filter w' = pw_filter w.

Lemma push_block_ok f written w data cmd part tls : at_writer (CCommand, f) written w data -> (length part <= MAX_CONTENT)%nat ->
  let w' := push_block uuid random part (command_code cmd) tls w in
  at_writer (after_block cmd, false) written w' (data ++ part) /\ same_state w w' /\ pw_first w' = false.
Proof using RL.
  intros [Hp Hs] Hl. unfold push_block. set (p := if pw_first w then _ else _). cbv zeta.
  split; [|done]. split; unfold wire; cbn [push_out pw_out pw_first pw_mode wbuf wpos]; [rewrite length_app; lia|].
  rewrite drop_app_le, app_assoc by done. subst p. change (written ++ drop _ _) with (wire written w).
  assert (MAX_CONTENT = Z.to_nat 8192) as Hm by reflexivity.
  destruct (pw_first w) eqn:E; unfold pad_with_uuid_and_command, pad_with_command.
  - eapply (says_block uuid _ true); [done|lia|exact Hs].
  - eapply (says_block uuid _ false); [done|lia|exact Hs].
Qed.

Lemma push_parts_ok fuel : forall f written w data cmd part tls, at_writer (CCommand, f) written w data ->
  part <> [] -> (length part <= fuel)%nat ->
  let w' := push_parts uuid random fuel part (command_code cmd) tls w in
  at_writer (after_block cmd, false) written w' (data ++ part) /\ same_state w w' /\ pw_first w' = false.
Proof using RL.
  induction fuel as [|fuel IH]; intros f written w data cmd part tls Hat Hne Hf; [by destruct part; [|cbn in Hf; lia]|]. cbn [push_parts].
  destruct part as [|x part']; [done|]. set (part := x :: part') in *. cbn [is_nil]. assert (0 < MAX_CONTENT)%nat as Hm by (unfold MAX_CONTENT; lia).
  assert (length (take MAX_CONTENT part) <= MAX_CONTENT)%nat as Ht by (rewrite length_take; lia).
  destruct (Nat.leb_spec (length part) MAX_CONTENT) as [Hle|Hgt].
  - rewrite drop_ge, take_ge by done.
    pose proof (push_block_ok f written w data cmd part tls Hat Hle) as H. cbv zeta in H |- *. by destruct fuel.
  - pose proof (push_block_ok f written w data CmdContinue (take MAX_CONTENT part) tls Hat Ht) as (Hat1 & (M1 & D1 & F1) & _).
    cbn [after_block] in Hat1. change (command_code CmdContinue) with COMMAND_CONTINUE in *.
    destruct (IH false written _ _ cmd (drop MAX_CONTENT part) tls Hat1) as (Hat2 & (M2 & D2 & F2) & Hfi).
    + intros E. apply (f_equal length) in E. rewrite length_drop in E. change (length []) with 0%nat in E. lia.
    + rewrite length_drop. lia.
    + rewrite <- app_assoc, take_drop in Hat2. split; [done|]. split; [|done]. unfold same_state. split_and!; [exact (eq_trans M2 M1)|exact (eq_trans D2 D1)|exact (eq_trans F2 F1)].
Qed.

Lemma push_padded_ok f written w data cmd part : at_writer (CCommand, f) written w data -> part <> [] ->
  let w' := push_padded uuid random part (command_code cmd) w in
  at_writer (after_block cmd, false) written w' (data ++ part) /\ same_state w w' /\ pw_first w' = false.
Proof using RL.
  intros Hat Hne. unfold push_padded. destruct part as [|x part]; [done|]. cbn [is_nil]. by eapply push_parts_ok.
Qed.

(** The state of a writer after it took [taken]: what the deframer holds back
    is the end of it. *)
Definition writer_has (written : bytes) (w : PlainWriter) (taken : bytes) : Prop :=
  fuzzy_ok (pw_deframer w) /\
  match pw_mode w with
  | Padding => exists f data, at_writer (CCommand, f) written w data /\ data ++ fuzzy_remaining_data (pw_deframer w) = taken
  | Passthrough => at_writer (CDone CmdEnd, false) written w taken /\ fuzzy_remaining_data (pw_deframer w) = [] /\ pw_first w = false
  end.

Lemma pass_through_ok written w data : at_writer (CDone CmdEnd, false) written w data -> pw_first w = false ->
  writer_has written (pass_through w) (data ++ fuzzy_remaining_data (pw_deframer w)).
Proof using Type.
  intros [Hp Hs] Hf. unfold pass_through, writer_has. cbn [pw_mode pw_deframer]. split; [apply clear_fuzzy_ok|].
  split; [|done]. split; unfold wire; cbn [push_out pw_out pw_first wbuf wpos]; [rewrite length_app; lia|].
  rewrite drop_app_le, app_assoc by done. rewrite Hf in *. by apply says_tail.
Qed.

(** What a turn does with the bytes it cut off. *)
Lemma after_cut_ok written w f data cut taken (ends : bool) : pw_mode w = Padding -> fuzzy_ok (pw_deframer w) ->
  at_writer (CCommand, f) written w data -> cut <> [] -> data ++ cut ++ fuzzy_remaining_data (pw_deframer w) = taken ->
  if ends then writer_has written (pass_through (push_padded uuid random cut COMMAND_END w)) taken
  else writer_has written (push_padded uuid random cut COMMAND_CONTINUE w) taken
       /\ pw_deframer (push_padded uuid random cut COMMAND_CONTINUE w) = pw_deframer w
       /\ pw_mode (push_padded uuid random cut COMMAND_CONTINUE w) = Padding.
Proof using RL.
  intros Hm Hd Hat Hne <-. destruct ends.
  - destruct (push_padded_ok f written w data CmdEnd cut Hat Hne) as (H & (_ & D & _) & Hf). change (command_code CmdEnd) with COMMAND_END in *.
    pose proof (pass_through_ok _ _ _ H Hf) as Hw. rewrite D, <- app_assoc in Hw. exact Hw.
  - destruct (push_padded_ok f written w data CmdContinue cut Hat Hne) as (H & (M & D & _) & Hf). change (command_code CmdContinue) with COMMAND_CONTINUE in *.
    unfold writer_has. rewrite M, Hm, D. split; [|done]. split; [done|]. exists false, (data ++ cut). rewrite <- app_assoc. done.
Qed.

Lemma deframe_turn_ok written w taken : pw_mode w = Padding -> writer_has written w taken ->
  let '(w', r) := deframe_turn memmem_find uuid random w in
  writer_has written w' taken /\ match r with
  | Ok true => pw_mode w' = Padding /\ (fuzzy_pending_bytes (pw_deframer w') < fuzzy_pending_bytes (pw_deframer w))%nat
  | Panic => False
  | _ => True
  end.
Proof using RL.
  intros Hm [Hd Hw]. rewrite Hm in Hw. destruct Hw as (f & data & Hat & Ht). unfold deframe_turn.
  pose proof (next_fuzzy_ok memmem_find _ Hd) as Hn. destruct (next_fuzzy memmem_find (pw_deframer w)) as [d r]. destruct Hn as [Hd' Hr].
  rewrite !fuzzy_pending_length.
  destruct r as [[cut|cut|]|e|]; [| | | |done].
  - destruct Hr as [Hc Hne]. rewrite Hc in *. set (w1 := set_filter _ (set_deframer d w)).
    apply (at_writer_as _ _ _ w1) in Hat; [|done..].
    assert (forall ends : bool, if ends then _ else _) as H by (intros ends; exact (after_cut_ok written w1 f data cut taken ends Hm Hd' Hat Hne Ht)).
    destruct (_ || _); [exact (conj (H true) I)|]. destruct (H false) as (H1 & H2 & H3). split; [exact H1|]. split; [exact H3|].
    rewrite fuzzy_pending_length, H2. cbn [w1 set_filter set_deframer pw_deframer]. rewrite length_app. destruct cut; [done|]. cbn [length]. lia.
  - destruct Hr as [Hc Hne]. rewrite Hc in *. set (w1 := set_filter _ (set_deframer d w)).
    apply (at_writer_as _ _ _ w1) in Hat; [|done..].
    assert (forall ends : bool, if ends then _ else _) as H by (intros ends; exact (after_cut_ok written w1 f data cut taken ends Hm Hd' Hat Hne Ht)).
    destruct (is_filtering _); [|exact (conj (H true) I)]. destruct (H false) as (H1 & H2 & H3). split; [exact H1|]. split; [exact H3|].
    rewrite fuzzy_pending_length, H2. cbn [w1 set_filter set_deframer pw_deframer]. rewrite length_app. destruct cut; [done|]. cbn [length]. lia.
  - split; [|done]. split; [done|]. cbn [set_deframer pw_mode pw_deframer]. rewrite Hm. exists f, data. rewrite Hr. split; [by apply (at_writer_as _ _ w)|done].
  - split; [|done]. split; [done|]. cbn [set_deframer pw_mode pw_deframer]. rewrite Hm. exists f, data. rewrite Hr. split; [by apply (at_writer_as _ _ w)|done].
Qed.

Lemma deframe_ok fuel : forall written w taken, pw_mode w = Padding -> writer_has written w taken ->
  (fuzzy_pending_bytes (pw_deframer w) < fuel)%nat ->
  let '(w', r) := deframe memmem_find uuid random fuel w in writer_has written w' taken /\ r <> Panic.
Proof using RL.
  induction fuel as [|fuel IH]; intros written w taken Hm Hw Hf; [lia|]. cbn [deframe].
  pose proof (deframe_turn_ok written w taken Hm Hw) as H. destruct (deframe_turn _ _ _ w) as [w' [[]| |]]; destruct H as [H1 H2]; [|done..].
  apply IH; [apply H2|done|lia].
Qed.
Lemma writer_has_flush written w o out taken : out ++ drop (wpos o) (wbuf o) = drop (wpos (pw_out w)) (wbuf (pw_out w)) ->
  (wpos o <= length (wbuf o))%nat -> writer_has written w taken -> writer_has (written ++ out) (set_out o w) taken.
Proof using Type.
  intros E Hl [Hd Hw]. split; [exact Hd|]. cbn [set_out pw_mode pw_deframer pw_first].
  assert (forall s data, at_writer s written w data -> at_writer s (written ++ out) (set_out o w) data) as H.
  { intros s data [Hp Hs]. split; [exact Hl|]. unfold wire in *. cbn [set_out pw_out pw_first]. by rewrite <- app_assoc, E. }
  destruct (pw_mode w).
  - destruct Hw as (f & data & Hat & Ht). exists f, data. by split; [apply H|].
  - destruct Hw as (Hat & Hn & Hf). by split; [apply H|].
Qed.

Lemma plain_poll_write_ok written w taken' before after buf : willing before -> willing after -> writer_has written w taken' ->
  let '(w', out, r) := plain_poll_write memmem_find uuid random before after buf w in
  r <> Some Panic /\ exists t, writer_has (written ++ out) w' t /\ (good_write r -> t = taken' ++ taken buf r).
Proof using RL.
  intros Hb Ha Hw. unfold plain_poll_write. assert (wpos (pw_out w) <= length (wbuf (pw_out w)))%nat as Hpos.
  { destruct Hw as [_ Hw]. destruct (pw_mode w); [destruct Hw as (f & data & [H _] & _)|destruct Hw as ([H _] & _)]; exact H. }
  pose proof (flush_wbuf_ok before (pw_out w) Hpos) as H. destruct (flush_wbuf before (pw_out w)) as [[o out] r].
  destruct H as (Ho & Hl & Hg). specialize (Hg Hb). pose proof (writer_has_flush written w o out taken' Ho Hl Hw) as Hw1.
  destruct r as [[[]| |]|]; [|done|done|]; [|split; [done|]; exists taken'; split; [done|]; intros _; cbn [taken]; by rewrite app_nil_r].
  subst o. set (w1 := set_out (mkWriter [] 0) w) in *. destruct (pw_mode w1) eqn:Em.
  - destruct (is_nil buf) eqn:Eb; [split; [done|]; exists taken'; split; [done|]; intros _; cbn [taken]; by rewrite app_nil_r|].
    set (w2 := set_deframer (feed_fuzzy (pw_deframer w1) buf) w1).
    assert (writer_has (written ++ out) w2 (taken' ++ buf)) as Hw2.
    { destruct Hw1 as [Hd Hw1]. rewrite Em in Hw1. destruct Hw1 as (f & data & Hat & Ht). destruct (feed_fuzzy_ok _ buf Hd) as [Hd2 Hr2].
      split; [exact Hd2|]. change (pw_mode w2) with (pw_mode w1). rewrite Em. exists f, data. split; [by apply (at_writer_as _ _ w1)|].
      change (pw_deframer w2) with (feed_fuzzy (pw_deframer w1) buf). by rewrite Hr2, app_assoc, Ht. }
    pose proof (deframe_ok _ _ w2 _ Em Hw2 (Nat.lt_succ_diag_r _)) as H.
    destruct (deframe _ _ _ _ w2) as [w3 [[]|e|]]; destruct H as [Hw3 Hnp]; [|split; [done|]; by eexists|done].
    assert (wpos (pw_out w3) <= length (wbuf (pw_out w3)))%nat as Hpos3.
    { destruct Hw3 as [_ Hw3]. destruct (pw_mode w3); [destruct Hw3 as (f & data & [H _] & _)|destruct Hw3 as ([H _] & _)]; exact H. }
    pose proof (flush_wbuf_ok after (pw_out w3) Hpos3) as H. destruct (flush_wbuf after (pw_out w3)) as [[o3 out3] r3].
    destruct H as (Ho3 & Hl3 & Hg3). specialize (Hg3 Ha). pose proof (writer_has_flush _ w3 o3 out3 _ Ho3 Hl3 Hw3) as Hw4.
    rewrite <- app_assoc in Hw4. destruct r3 as [[[]| |]|]; [|done|done|]; (split; [done|]; eexists; split; [exact Hw4|]); intros _; cbn [taken]; by rewrite firstn_all.
  - destruct Hw1 as [Hd Hw1]. rewrite Em in Hw1. destruct Hw1 as ([Hp Hs] & Hn & Hf).
    assert (forall n, writer_has (written ++ out ++ take n buf) w1 (taken' ++ take n buf)) as Hn1.
    { intros n. split; [exact Hd|]. rewrite Em. split; [|done]. split; [exact Hp|]. rewrite Hf in *. unfold wire in *.
      cbn [w1 set_out pw_out wbuf wpos drop] in *. rewrite !app_nil_r in *. rewrite app_assoc. by apply says_tail. }
    destruct after as [|[n|e|] steps]; cbn [inner_write];
      (split; [done|]; eexists; split; [first [apply Hn1|exact (Hn1 0%nat)]|]); intros Hgood; done.
Qed.

(** Writes, one after the other. *)
Fixpoint plain_writes (calls : list (WriteCall unit)) (w : PlainWriter) : PlainWriter * bytes * list (option (res io_error nat)) :=
  match calls with
  | [] => (w, [], [])
  | call :: calls =>
      let '(w, out, r) := plain_poll_write memmem_find uuid random (call_before call) (call_after call) (call_buf call) w in
      let '(w, out', rs) := plain_writes calls w in
      (w, out ++ out', r :: rs)
  end.

Lemma plain_writes_ok calls : forall w written taken', Forall (good_call (fun _ => True)) calls -> writer_has written w taken' ->
  let '(w', out, rs) := plain_writes calls w in
  (Some Panic ∉ rs) /\ (Forall good_write rs -> writer_has (written ++ out) w' (taken' ++ all_taken calls rs)).
Proof using RL.
  induction calls as [|call calls IH]; intros w written taken' Hc Hw; cbn [plain_writes].
  - split; [apply not_elem_of_nil|]. intros _. cbn [all_taken]. by rewrite !app_nil_r.
  - apply Forall_cons in Hc as [(Hb & Ha & _) Hcs].
    pose proof (plain_poll_write_ok written w taken' _ _ (call_buf call) Hb Ha Hw) as H.
    destruct (plain_poll_write _ _ _ _ _ _ w) as [[w1 out] r]. destruct H as (Hnp & t & Hw1 & Ht).
    specialize (IH w1 _ _ Hcs Hw1). destruct (plain_writes calls w1) as [[w2 out'] rs].
    destruct IH as [Hnps IH]. split; [by apply not_elem_of_cons|]. intros Hg. apply Forall_cons in Hg as [Hg Hgs].
    specialize (IH Hgs). rewrite (Ht Hg) in IH. cbn [all_taken]. by rewrite !app_assoc in *.
Qed.
End Written.

(** ** What is read *)

(** The first piece has [k] bytes at least. *)
Fixpoint starts_with (k : nat) (s : list Piece) : Prop :=
  match s with Data d :: _ => (k <= length d)%nat | NotYet :: s => starts_with k s | _ => False end.

Section Read.
Context (uuid data : bytes).

(** A reader between blocks or in one; [out] has been handed out. *)
Definition in_blocks (out : bytes) (me : PlainReader) (later : bytes) : Prop :=
  exists s s' o, pr_unpadder me = resting s /\ ref_ok s /\ ~ finished s /\ ref_run s later = Ok (s', o) /\ out ++ pr_pending me ++ o = data.

Definition before_header (v m : u8) (addon body out : bytes) (me : PlainReader) (inner : list Piece) : Prop :=
  me = new_plain_reader uuid /\ out = [] /\ val8 v = 0 /\ length addon = Z.to_nat (val8 m)
  /\ arriving inner = v :: m :: addon ++ body /\ starts_with (2 + length addon + Nat.min 16 (length body)) inner
  /\ exists first s, says uuid first body data s.

Record plain_at (out : bytes) (me : PlainReader) (inner : list Piece) : Prop := {
  pa_flow : flowing inner;
  pa_here :
    match pr_mode me with
    | Passthrough => out ++ pr_pending me ++ arriving inner = data
    | Padding =>
        (exists v m addon body, before_header v m addon body out me inner)
        \/ pr_response_pending me = false /\ (pr_eof me = true -> arriving inner = [])
           /\ (in_blocks out me (arriving inner) \/ arriving inner = [] /\ pr_pending me = [] /\ out = data)
    end
}.

(** What a turn or a poll has done. *)
Definition plain_end (out : bytes) (r : PlainReader * list Piece * Poll bytes) : Prop :=
  let '(me', inner', p) := r in plain_at (out ++ got p) me' inner' /\ good_poll p /\ (p = Ready (Ok []) -> out = data).

Lemma serve_ok want out me inner : plain_at out me inner -> (0 < want)%nat -> pr_pending me <> [] ->
  let '(me', o) := serve_pending want me in plain_end out (me', inner, Ready (Ok o)).
Proof using Type.
  intros [Hf Hh] Hw Hne. unfold serve_pending. set (n := Nat.min want _). cbn [plain_end got].
  split; [|split; [done|]].
  - split; [done|]. cbn [pr_mode pr_pending pr_response_pending pr_eof pr_unpadder]. destruct (pr_mode me).
    + destruct Hh as [(v & m & addon & body & -> & _)|(Hr & He & Hh)]; [done|]. right. split; [done|]. split; [done|].
      destruct Hh as [(s & s' & o & H1 & H2 & H3 & H4 & H5)|(_ & H & _)]; [|done]. left. exists s, s', o. split_and!; [done..|].
      cbn [pr_pending]. by rewrite <- app_assoc, (app_assoc (take n _)), take_drop.
    + by rewrite <- app_assoc, (app_assoc (take n _)), take_drop.
  - intros E. assert (take n (pr_pending me) = []) as E' by congruence. apply (f_equal length) in E'. rewrite length_take in E'.
    destruct (pr_pending me); [done|]. cbn [length] in *. lia.
Qed.

Lemma inner_end want out me inner : plain_at out me inner -> (0 < want)%nat -> pr_pending me = [] -> pr_mode me = Passthrough ->
  let '(p, inner') := poll_inner want inner in plain_end out (me, inner', p).
Proof using Type.
  intros [Hf Hh] Hw Hn Hm. rewrite Hm, Hn in Hh. cbn [app] in Hh. pose proof (poll_inner_ok want inner Hf Hw) as H.
  destruct (poll_inner want inner) as [p inner']. destruct H as (Hf' & Hg & Hp).
  assert (out ++ got p ++ arriving inner' = data) as Hd by (destruct p as [|[d| |]]; cbn [got app] in *; [by rewrite Hp|by destruct Hp as [-> _]|done|done]).
  split; [split; [done|]; rewrite Hm, Hn; cbn [app]; by rewrite <- app_assoc|]. split; [done|]. intros ->. destruct Hp as (Hp & _ & He).
  specialize (He eq_refl). subst inner. cbn [arriving] in Hh. by rewrite app_nil_r in Hh.
Qed.

(** A part of the blocks is unpadded. *)
Lemma handle_unpad_ok out me chunk part s s' o inner : flowing inner -> pr_mode me = Padding ->
  pr_response_pending me = false -> pr_eof me = false ->
  unpad (pr_unpadder me) chunk = unpad (resting s) part -> ref_ok s -> ~ finished s -> ref_run s (part ++ arriving inner) = Ok (s', o) ->
  out ++ pr_pending me ++ o = data ->
  exists me', handle_unpad chunk me = (me', Ok tt) /\ plain_at out me' inner /\ pr_eof me' = false /\ pr_response_pending me' = false.
Proof using Type.
  intros Hf Hm Hr He Hu Hs Hns Hrun Hd.
  destruct (unpad_part s part _ s' o Hs Hns Hrun) as (s1 & o1 & o2 & Hc & -> & Hs1 & _ & Hnext). unfold handle_unpad. rewrite Hu, Hc.
  eexists. split; [reflexivity|]. cbn [pr_eof pr_response_pending]. split; [|done]. split; [done|].
  cbn [pr_mode pr_pending pr_response_pending pr_eof content]. rewrite Hm. destruct s1 as [[] f1]; cbn [fst result_command command] in *;
    try (destruct Hnext as [Hrun1 Hns1]; replace (match (if f1 then None else Some CmdContinue) with Some CmdEnd | Some CmdDirect => Passthrough | _ => Padding end) with Padding by (by destruct f1);
         right; split; [done|]; split; [by rewrite He|]; left; eexists _, s', o2; cbn [pr_unpadder pr_pending]; split_and!; [reflexivity|done|done|done|by rewrite <- app_assoc]).
  destruct Hnext as [Hne ->]. destruct cmd; [done| |]; by rewrite <- app_assoc.
Qed.
(** The end of a turn. *)
Definition turn_tail (want : nat) (me : PlainReader) (inner : list Piece)
    : (PlainReader * list Piece) + (PlainReader * list Piece * Poll bytes) :=
  if negb (is_nil (pr_pending me)) then let '(me, out) := serve_pending want me in inr (me, inner, Ready (Ok out))
  else match pr_mode me with
       | Passthrough => let '(p, inner) := poll_inner want inner in inr (me, inner, p)
       | Padding => inl (me, inner)
       end.

Definition turn_ok (out : bytes) (n : nat) (r : (PlainReader * list Piece) + (PlainReader * list Piece * Poll bytes)) : Prop :=
  match r with
  | inl (me', inner') => plain_at out me' inner' /\ pr_mode me' = Padding /\ pr_pending me' = [] /\ pr_eof me' = false
                         /\ (length (arriving inner') < n)%nat
  | inr r => plain_end out r
  end.

Lemma turn_tail_ok want out me inner n : plain_at out me inner -> (0 < want)%nat -> pr_eof me = false -> (length (arriving inner) < n)%nat ->
  turn_ok out n (turn_tail want me inner).
Proof using Type.
  intros Hat Hw He Hn. unfold turn_tail. destruct (is_nil (pr_pending me)) eqn:E; cbn [negb].
  - assert (pr_pending me = []) as E0 by (by destruct (pr_pending me)). destruct (pr_mode me) eqn:Em; [done|].
    pose proof (inner_end want out me inner Hat Hw E0 Em) as H. by destruct (poll_inner want inner).
  - pose proof (serve_ok want out me inner Hat Hw) as H. destruct (serve_pending want me). apply H. intros E'. by rewrite E' in E.
Qed.

(** The piece with the header of the response. *)
Lemma strip_response_ok v m addon chunk : val8 v = 0 -> length addon = Z.to_nat (val8 m) ->
  strip_response (v :: m :: addon ++ chunk) (new_plain_reader uuid)
  = (mkPlainReader Padding (new_unpadder uuid) [] false [] false, Ok (Some chunk)).
Proof using Type.
  intros Hv Hm. unfold strip_response. cbn [pr_response_pending pr_partial new_plain_reader app]. rewrite Hv. change (negb (0 =? 0)) with false. cbn iota.
  rewrite (proj2 (Nat.ltb_ge _ _)) by (cbn [length]; rewrite length_app; lia).
  cbn [pr_mode pr_unpadder pr_pending pr_eof Nat.add drop]. rewrite <- Hm. by rewrite drop_app_length.
Qed.

Lemma header_turn_ok want v m addon body out me inner : length uuid = 16%nat -> before_header v m addon body out me inner -> flowing inner -> (0 < want)%nat ->
  turn_ok out (length (arriving inner)) (plain_read_turn want (me, inner)).
Proof using Type.
  intros Huuid (-> & -> & Hv & Hm & Ha & Hst & Hsay) Hf Hw. unfold plain_read_turn.
  assert (0 < MAX_CONTENT)%nat as Hcap by (unfold MAX_CONTENT; lia).
  pose proof (poll_inner_ok MAX_CONTENT inner Hf Hcap) as H.
  destruct inner as [|[d| |e] inner]; cbn [poll_inner starts_with arriving] in *; [done| |destruct H as (Hf' & _)|by destruct Hst].
  2: { split; [|done]. split; [done|]. cbn [pr_mode new_plain_reader]. left. by exists v, m, addon, body. }
  assert (length addon < 256)%nat as Haddon by (pose proof (val8_range m); lia).
  assert (MAX_CONTENT = Z.to_nat 8192) as Hmax by reflexivity.
  set (chunk := if (length d <=? MAX_CONTENT)%nat then d else take MAX_CONTENT d).
  destruct (if (length d <=? MAX_CONTENT)%nat then (Ready (Ok d), inner) else _) as [p inner'] eqn:Ep.
  assert (p = Ready (Ok chunk)) as -> by (unfold chunk; destruct (length d <=? MAX_CONTENT)%nat; injection Ep as <- _; done).
  destruct H as (Hf' & _ & Harr & _ & _). rewrite Ha in Harr.
  assert (2 + length addon + Nat.min 16 (length body) <= length chunk)%nat as Hlen.
  { unfold chunk. destruct (Nat.leb_spec (length d) MAX_CONTENT); [done|]. rewrite length_take. lia. }
  clearbody chunk. destruct chunk as [|x [|y chunk]]; [cbn in Hlen; lia..|]. cbn [app] in Harr. injection Harr as -> -> Harr.
  assert (exists c0, chunk = addon ++ c0 /\ c0 ++ arriving inner' = body) as (c0 & -> & Hbody).
  { exists (drop (length addon) chunk). cbn [length] in Hlen. assert (take (length addon) chunk = addon) as Ht.
    { apply (f_equal (take (length addon))) in Harr. rewrite take_app_length, take_app_le in Harr by lia. done. }
    split; [by rewrite <- Ht at 1; rewrite take_drop|]. apply (f_equal (drop (length addon))) in Harr.
    rewrite drop_app_length, drop_app_le in Harr by lia. done. }
  clear Hmax. rewrite strip_response_ok, Ha by done. set (n := length (v :: m :: addon ++ body)).
  assert (length (arriving inner') < n)%nat as Hn by (unfold n; rewrite <- Hbody; cbn [length]; rewrite !length_app; lia).
  fold (turn_tail want). destruct Hsay as (first & s & Hsay). cbn [length] in Hlen. rewrite length_app in Hlen. destruct first; cbn [says] in Hsay.
  - destruct Hsay as (-> & Hdata & _). apply app_eq_nil in Hbody as [-> Hb]. cbn [is_nil].
    eapply (turn_tail_ok want [] (mkPlainReader Padding (new_unpadder uuid) [] false [] false)); [|done|done|done].
    split; [done|]. cbn [pr_mode]. right. split; [done|]. split; [done|]. right. done.
  - destruct Hsay as (v' & Hbv & Hrun). rewrite Hbv, length_app in Hlen. rewrite Hbv in Hbody.
    assert (exists c1, c0 = uuid ++ c1 /\ v' = c1 ++ arriving inner') as (c1 & -> & ->).
    { apply app_eq_app in Hbody as (k & [[E1 E2]|[E1 E2]]); [by exists k|].
      assert (length k = 0%nat) as Hk by (pose proof (f_equal length E1) as E3; rewrite length_app in E3; lia). apply nil_length_inv in Hk as ->.
      rewrite app_nil_r in E1. exists []. rewrite app_nil_r. cbn [app] in *. by subst. }
    assert (is_nil (uuid ++ c1) = false) as -> by (by destruct uuid).
    destruct (handle_unpad_ok [] (mkPlainReader Padding (new_unpadder uuid) [] false [] false) (uuid ++ c1) c1 (CCommand, true) s data inner')
      as (me' & Hh & Hat & He & _); try done; [by apply unpad_initial|by intros []|].
    rewrite Hh. by apply turn_tail_ok.
Qed.
Lemma plain_turn_ok want out me inner : length uuid = 16%nat -> plain_at out me inner -> (0 < want)%nat ->
  pr_mode me = Padding -> pr_pending me = [] -> pr_eof me = false ->
  turn_ok out (length (arriving inner)) (plain_read_turn want (me, inner)).
Proof using Type.
  intros Huuid [Hf Hh] Hw Hm Hn He. rewrite Hm in Hh. destruct Hh as [(v & m & addon & body & Hb)|(Hr & _ & Hh)]; [by eapply header_turn_ok|].
  unfold plain_read_turn. assert (0 < MAX_CONTENT)%nat as Hcap by (unfold MAX_CONTENT; lia).
  pose proof (poll_inner_ok MAX_CONTENT inner Hf Hcap) as H. destruct (poll_inner MAX_CONTENT inner) as [p inner'].
  destruct H as (Hf' & Hg & Hp). destruct p as [|[chunk|e|]]; [| |done|done].
  - split; [|done]. cbn [got]. rewrite app_nil_r. split; [done|]. rewrite Hm. right. rewrite He, Hp. done.
  - destruct Hp as (Harr & _ & Hend). destruct chunk as [|b chunk].
    + specialize (Hend eq_refl). subst inner. cbn [app arriving] in *.
      assert (out = data) as Hout.
      { destruct Hh as [(s & s' & o & _ & _ & _ & Hrun & Hd)|(_ & _ & Hd)]; [|done]. cbn [ref_run] in Hrun. apply Ok_inj in Hrun.
        apply (f_equal snd) in Hrun. cbn [snd] in Hrun. subst o. by rewrite Hn, !app_nil_r in Hd. }
      split; [|done]. cbn [got]. rewrite app_nil_r. split; [done|]. cbn [pr_mode pr_response_pending pr_eof pr_pending]. rewrite Hm. right.
      split; [done|]. split; [done|]. by right.
    + unfold strip_response. rewrite Hr. cbn [is_nil].
      destruct Hh as [(s & s' & o & Hu & Hs & Hns & Hrun & Hd)|(E & _)]; [|by rewrite E in Harr]. rewrite <- Harr in Hrun.
      destruct (handle_unpad_ok out me (b :: chunk) (b :: chunk) s s' o inner') as (me' & -> & Hat & He' & _); try done; [by rewrite Hu|].
      apply turn_tail_ok; [done..|]. rewrite <- Harr, length_app. cbn [length]. lia.
Qed.

Lemma plain_loop_ok want fuel : length uuid = 16%nat -> forall out me inner, plain_at out me inner -> (0 < want)%nat ->
  pr_mode me = Padding -> pr_pending me = [] -> pr_eof me = false -> (length (arriving inner) < fuel)%nat ->
  exists r, loop (E := io_error) fuel (fun st => Ok (plain_read_turn want st)) (me, inner) = Ok r /\ plain_end out r.
Proof using Type.
  intros Huuid. induction fuel as [|fuel IH]; intros out me inner Hat Hw Hm Hn He Hl; [lia|]. rewrite loop_turn. cbn beta.
  pose proof (plain_turn_ok want out me inner Huuid Hat Hw Hm Hn He) as Ht.
  destruct (plain_read_turn want (me, inner)) as [[me' inner']|r]; cbn [mbind res_bind]; [|by exists r].
  destruct Ht as (Hat' & Hm' & Hn' & He' & Hlt). apply IH; try done. lia.
Qed.

Lemma plain_delivers : length uuid = 16%nat -> delivers plain_poll_read data plain_at.
Proof using Type.
  intros Huuid. split.
  - intros out me inner want Hat Hw.
    assert (exists r, plain_poll_read want me inner = Ok r /\ plain_end out r) as ([[me' inner'] p] & Hr & He); [|by exists me', inner', p].
    unfold plain_poll_read. destruct (is_nil (pr_pending me)) eqn:En; cbn [negb].
    + assert (pr_pending me = []) as E0 by (by destruct (pr_pending me)). destruct (pr_mode me) eqn:Em.
      * destruct (pr_eof me) eqn:Ee; [|apply plain_loop_ok; try done; lia]. eexists. split; [done|].
        destruct Hat as [Hf Hh]. pose proof Hh as Hh'. rewrite Em in Hh'.
        destruct Hh' as [(v & m & addon & body & -> & _)|(Hr & He & Hh')]; [done|]. specialize (He Ee).
        cbn [plain_end got]. rewrite app_nil_r. split; [done|]. split; [done|]. intros _.
        destruct Hh' as [(s & s' & o & _ & _ & _ & Hrun & Hd)|(_ & _ & Hd)]; [|done]. rewrite He in Hrun. cbn [ref_run] in Hrun. apply Ok_inj in Hrun.
        apply (f_equal snd) in Hrun. cbn [snd] in Hrun. subst o. by rewrite E0, !app_nil_r in Hd.
      * pose proof (inner_end want out me inner Hat Hw E0 Em) as H. destruct (poll_inner want inner) as [p inner']. by eexists.
    + assert (pr_pending me <> []) as Hne by (intros E; by rewrite E in En).
      pose proof (serve_ok want out me inner Hat Hw Hne) as H. destruct (serve_pending want me) as [me' o]. by eexists.
  - intros out me inner [Hf Hh]. destruct (pr_mode me).
    + destruct Hh as [(v & m & addon & body & _ & -> & _)|(_ & _ & [(s & s' & o & _ & _ & _ & _ & Hd)|(_ & _ & ->)])];
        [by exists data|by eexists|exists []; by rewrite app_nil_r].
    + by eexists.
Qed.
End Read.

(** C21. What is written is read. One end writes in any number of calls, its inner
    writer takes any part of the bytes at a time; no call panics. When none
    failed and the other end, behind the header of a VLESS response, gets the
    bytes that were written and those still buffered in any pieces, of which
    the first holds the header and the user's UUID, then its reads deliver in
    order what the calls said was taken, up to what the deframer holds back,
    and the end of the stream only after that. *)
Theorem vision_plain_transfers (memmem_find : bytes -> bytes -> option nat) (random : nat -> Rng) (uuid : bytes)
    (v m : u8) (addon : bytes) (calls : list (WriteCall unit)) (wants : list nat)
    (Hrandom : forall n, RngLaws (random n)) (Huuid : length uuid = 16%nat)
    (Hv : val8 v = 0) (Hm : length addon = Z.to_nat (val8 m))
    (Hcalls : Forall (good_call (fun _ => True)) calls) (Hwants : Forall (fun w => 0 < w)%nat wants) :
  let '(w, written, rs) := plain_writes memmem_find uuid random calls new_plain_writer in
  let sent := written ++ drop (wpos (pw_out w)) (wbuf (pw_out w)) in
  (Some Panic ∉ rs) /\
  (Forall good_write rs -> forall inner, flowing inner -> arriving inner = v :: m :: addon ++ sent ->
    starts_with (2 + length addon + Nat.min 16 (length sent)) inner ->
    exists me inner' ps rest, polls plain_poll_read wants (new_plain_reader uuid) inner = Ok (me, inner', ps)
      /\ Forall good_poll ps /\ (delivered ps ++ rest) ++ fuzzy_remaining_data (pw_deframer w) = all_taken calls rs
      /\ (Ready (Ok []) ∈ ps -> rest = [])).
Proof.
  pose proof (plain_writes_ok memmem_find uuid random calls new_plain_writer [] [] Hcalls) as H.
  destruct (plain_writes memmem_find uuid random calls new_plain_writer) as [[w written] rs]. cbv zeta.
  destruct H as [Hnp Hw].
  { split; [done|]. exists true, []. split; [|done]. split; [cbn; lia|done]. }
  split; [done|]. intros Hg inner Hf Ha Hst. specialize (Hw Hg). cbn [app] in Hw. destruct Hw as [_ Hw].
  assert (exists data first s, says uuid first (wire written w) data s /\ data ++ fuzzy_remaining_data (pw_deframer w) = all_taken calls rs)
    as (data & first & s & Hsay & Hd).
  { destruct (pw_mode w).
    - destruct Hw as (f & data & [_ Hs] & Hd). by exists data, (pw_first w), (CCommand, f).
    - destruct Hw as ([_ Hs] & -> & _). eexists _, _, _. split; [exact Hs|]. by rewrite app_nil_r. }
  destruct (polls_deliver _ data _ wants (plain_delivers uuid data Huuid) [] (new_plain_reader uuid) inner)
    as (me & inner' & ps & rest & Hps & Hgp & Hdel & Hend); [|done|].
  { split; [done|]. cbn [pr_mode new_plain_reader]. left. exists v, m, addon, (wire written w).
    split; [done|]. split; [done|]. split; [done|]. split; [done|]. split; [exact Ha|]. split; [exact Hst|]. by exists first, s. }
  exists me, inner', ps, rest. cbn [app] in Hdel. rewrite Hdel. done.
Qed.

(** A source of randomness that gives no padding, and a search for bytes. *)
Definition no_padding : Rng := mkRng (fun _ => 0%nat) (fun n => repeat (to_u8 0) n).

#[export] Instance no_padding_laws : RngLaws no_padding.
Proof. split; [cbn; lia|]. intros n. apply repeat_length. Qed.

Lemma vision_plain_transfers_witness :
  let uuid := lit "0123456789abcdef" in
  let call s := mkCall tt [Took 1000] [Took 3; Took 1000] s in
  let calls := map (fun s => call s) [lit "a"; lit "b"; lit "c"; lit "d"; lit "e"; lit "f"; lit "g"; lit "end of the padding, "; lit "rest"] in
  let '(w, written, rs) := plain_writes (fun _ _ => None) uuid (fun _ => no_padding) calls new_plain_writer in
  pw_mode w = Passthrough /\ Forall good_write rs /\
  forall inner, flowing inner -> arriving inner = of_zs [0; 1; 7] ++ written ++ drop (wpos (pw_out w)) (wbuf (pw_out w)) ->
    starts_with 19 inner ->
    exists me inner' ps rest, polls plain_poll_read [3; 100]%nat (new_plain_reader uuid) inner = Ok (me, inner', ps)
      /\ Forall good_poll ps /\ delivered ps ++ rest = lit "abcdefgend of the padding, res" /\ (Ready (Ok []) ∈ ps -> rest = []).
Proof.
  intros uuid call calls.
  pose proof (vision_plain_transfers (fun _ _ => None) (fun _ => no_padding) uuid (to_u8 0) (to_u8 1) [to_u8 7] calls [3; 100]%nat
    (fun _ => no_padding_laws) eq_refl eq_refl eq_refl) as H.
  destruct (plain_writes (fun _ _ => None) uuid (fun _ => no_padding) calls new_plain_writer) as [[w written] rs] eqn:E.
  assert (pw_mode w = Passthrough /\ rs = map (fun n => Some (Ok n)) [1; 1; 1; 1; 1; 1; 1; 20; 3]%nat /\ fuzzy_remaining_data (pw_deframer w) = []
    /\ (16 <= length (written ++ drop (wpos (pw_out w)) (wbuf (pw_out w))))%nat) as (Hm & Hrs & Hn & Hl).
  { vm_compute in E. injection E as <- <- <-. cbn. split; [done|]. split; [done|]. split; [done|]. lia. }
  split; [exact Hm|]. assert (Forall good_write rs) as Hg by (rewrite Hrs; repeat constructor).
  split; [exact Hg|]. intros inner Hf Ha Hs. destruct H as [_ H].
  - apply List.Forall_map, Forall_true. intros s. split; [|split; [|exact I]]; repeat (apply Forall_cons; split; [apply Nat.ltb_lt; reflexivity|]); by apply Forall_nil.
  - repeat (apply Forall_cons; split; [lia|]). by apply Forall_nil.
  - destruct (H Hg inner Hf Ha) as (me & inner' & ps & rest & Hp & Hgp & Hd & He).
    { rewrite Nat.min_l by exact Hl. exact Hs. }
    exists me, inner', ps, rest. rewrite Hn, app_nil_r, Hrs in Hd. exact (conj Hp (conj Hgp (conj Hd He))).
Defined.

(** A byte that could begin a TLS record is taken and stays: neither a flush nor
    a shutdown sends it. *)
Lemma held_byte_is_not_flushed :
  let uuid := lit "0123456789abcdef" in
  let '(w, out, r) := plain_poll_write (fun _ _ => None) uuid (fun _ => no_padding) [] [Took 1000] (lit "ok" ++ of_zs [22]) new_plain_writer in
  r = Some (Ok 3%nat) /\ out = pad no_padding (lit "ok") (Some uuid) 0 false
  /\ plain_poll_flush [] w = (w, [], Some (Ok tt)) /\ fuzzy_remaining_data (pw_deframer w) = of_zs [22].
Proof. vm_compute. done. Qed.

(** A first part of the blocks that does not hold the UUID is lost. *)
Lemma short_first_chunk_is_lost uuid chunk me : pr_unpadder me = new_unpadder uuid -> (length chunk < 16)%nat ->
  handle_unpad chunk me = (me, Ok tt).
Proof.
  intros Hu Hl. unfold handle_unpad. rewrite Hu. unfold unpad, unpad_fuel.
  rewrite Nat.add_succ_r. cbn [loop mbind res_bind unpad_step new_unpadder u_state]. rewrite (proj2 (Nat.ltb_lt _ _)) by done.
  cbn [command content]. destruct me. cbn in *. subst. by rewrite app_nil_r.
Qed.
