(* ===== verification/HttpText.v ===== *)
(** * The texts of HTTP/1.1 the sources read and write

    Status lines, heads and URLs, as each module takes them apart with the
    functions of [str]; shared by the proxy front end, the HTTP outbound, DNS
    over HTTPS, the subscriptions and the URL test. *)

From S2P Require Import Prelude RustStr Utf8 NetAddr NetIo.

Definition CRLF : str := of_zs [13; 10].
Definition LFCR : str := CRLF ++ CRLF.

(** [s.split_whitespace()]: the pieces between white space that are not empty;
    [cur] is the piece being read. *)
Fixpoint words_fuel (fuel : nat) (cur s : str) : list str :=
  let flush := match cur with [] => [] | _ => [cur] end in
  match fuel with
  | O => flush
  | S fuel =>
      match strip_any whitespace s with
      | Some r => flush ++ words_fuel fuel [] r
      | None => match s with [] => flush | c :: s' => words_fuel fuel (cur ++ [c]) s' end
      end
  end.

Definition words (s : str) : list str := words_fuel (S (length s)) [] s.

(** [.split_whitespace().nth(1)]: the code of a status line. *)
Definition status_word (line : str) : option str := words line !! 1%nat.

(** [c.starts_with('2')] of the code, if there is one *)
Definition is_2xx (line : str) : bool :=
  match status_word line with Some c => starts_with "2" c | None => false end.

(** ** URLs *)

(** The authority and the path of what follows the scheme. *)
Definition split_path (dflt rest : str) : str * str :=
  match find_byte (is_char "/"%char) rest with
  | Some i => (take i rest, drop i rest)
  | None => (rest, dflt)
  end.

(** The host and the port after the last colon of an authority. *)
Definition host_port (bad : io_error) (dflt : Z) (authority : str) : res io_error (str * Z) :=
  match rsplit_once ":"%char authority with
  | Some (h, p) => p ← ok_or (parse_u16 p) bad; Ok (h, p)
  | None => Ok (authority, dflt)
  end.

(** [parse_https_url] of [dns/mod.rs] *)
Definition parse_https_url (url : str) : res io_error (str * Z * str) :=
  rest ← ok_or (strip_prefix "https://" url) (IoOther "doh: только https://");
  let '(authority, path) := split_path "/dns-query" rest in
  '(host, port) ← host_port (IoOther "doh: порт") 443 authority;
  Ok (host, port, path).

(** [parse_http_url] of [urltest.rs] *)
Definition parse_http_url (url : str) : res io_error (str * Z * str) :=
  rest ← ok_or (strip_prefix "http://" url) (IoOther "url-test: поддерживается только http://");
  let '(authority, path) := split_path "/" rest in
  if bool_decide (authority = []) then Err (IoOther "url-test: пустой host") else
  '(host, port) ← host_port (IoOther "url-test: некорректный порт") 80 authority;
  Ok (host, port, path).

Inductive Scheme : Type := SchemeHttp | SchemeHttps.

(** [parse_url] of [subscription.rs] *)
Definition parse_url (url : str) : res io_error (Scheme * str * Z * str) :=
  '(scheme, rest, default_port) ←
    match strip_prefix "https://" url with
    | Some r => Ok (SchemeHttps, r, 443)
    | None => match strip_prefix "http://" url with
              | Some r => Ok (SchemeHttp, r, 80)
              | None => Err (IoOther "подписка: только http:// и https://")
              end
    end;
  let '(authority, path) := split_path "/" rest in
  if bool_decide (authority = []) then Err (IoOther "подписка: пустой host") else
  '(host, port) ← host_port (IoOther "подписка: некорректный порт") default_port authority;
  Ok (scheme, host, port, path).

(** ** DNS over HTTPS: [http_body] *)

Definition http_body (raw : bytes) : res io_error bytes :=
  sep ← ok_or (find_str LFCR raw) (IoOther "doh: нет заголовков");
  let status := from_utf8_lossy (take (default 0%nat (find_byte (is_char (to_u8 13)) raw)) raw) in
  if negb (is_2xx status) then Err (IoOther ("doh: статус не 2xx: " ++ status))
  else Ok (drop (sep + 4) raw).

(** ** URL test: what counts as an answer *)

(** [reachable] of the bytes read, at most 128. *)
Definition reachable_answer (buf : bytes) : bool :=
  let status_line := default [] (head (lines (default [] (from_utf8 buf)))) in
  starts_with "HTTP/" status_line
  && match status_word status_line with
     | Some c => (length c =? 3)%nat && forallb (fun b => (48 <=? val8 b) && (val8 b <=? 57)) c
     | None => false
     end.

(** ** Heads

    A head is lines ended by CRLF, then an empty line. *)

Definition head_of (ls : list str) : str := concat (map (fun l => l ++ CRLF) ls) ++ CRLF.

(** The text before the first CRLF: [.split("\r\n").next()]. *)
Definition first_line (s : str) : str := match find_str CRLF s with Some i => take i s | None => s end.

(** ** Lemmas: words *)

Definition all_graphic (s : str) : Prop := Forall (fun c => graphic c = true) s.

Lemma words_fuel_graphic w : forall fuel cur s, all_graphic w ->
  words_fuel (length w + fuel) cur (w ++ s) = words_fuel fuel (cur ++ w) s.
Proof.
  induction w as [|c w IH]; intros fuel cur s H; [by rewrite app_nil_r|].
  apply Forall_cons in H as [Hc Hw]. cbn [length Nat.add app words_fuel].
  rewrite strip_any_none by (apply whitespace_heads || done). by rewrite IH, <- app_assoc by done.
Qed.

Lemma words_fuel_space fuel cur s : cur <> [] -> words_fuel (S fuel) cur (" "%char :: s) = cur :: words_fuel fuel [] s.
Proof. intros H. destruct cur; [done|]. reflexivity. Qed.

Lemma words_fuel_end fuel cur : cur <> [] -> words_fuel fuel cur [] = [cur].
Proof. intros H. destruct cur; [done|]. by destruct fuel. Qed.

(** More fuel than bytes changes nothing. *)
Lemma strip_any_length ps s r : strip_any ps s = Some r -> forallb blank_head ps = true -> (length r < length s)%nat.
Proof.
  induction ps as [|p ps IH]; cbn [strip_any forallb]; [done|]. intros H Hb. apply andb_true_iff in Hb as [Hp Hb].
  destruct (strip_prefix p s) as [r'|] eqn:E; [|by auto]. simplify_eq. apply strip_prefix_Some in E. subst s.
  destruct p; [done|]. rewrite length_app. cbn. lia.
Qed.

Lemma words_fuel_enough : forall fuel fuel' cur s,
  (length s < fuel)%nat -> (length s < fuel')%nat -> words_fuel fuel cur s = words_fuel fuel' cur s.
Proof.
  induction fuel as [|fuel IH]; intros fuel' cur s H H'; [lia|]. destruct fuel' as [|fuel']; [lia|]. cbn [words_fuel].
  destruct (strip_any whitespace s) as [r|] eqn:E.
  - apply strip_any_length in E; [|apply whitespace_heads]. f_equal. apply IH; lia.
  - destruct s as [|c s]; [done|]. cbn in H, H'. apply IH; lia.
Qed.

Lemma words_cons w s : w <> [] -> all_graphic w -> words (w ++ " "%char :: s) = w :: words s.
Proof.
  intros Hn Hw. unfold words. rewrite length_app, <- Nat.add_succ_r, words_fuel_graphic by done. cbn [app length].
  by rewrite words_fuel_space.
Qed.

Lemma words_one w : w <> [] -> all_graphic w -> words w = [w].
Proof.
  intros Hn Hw. unfold words. rewrite <- (app_nil_r w) at 2. rewrite <- Nat.add_1_r, words_fuel_graphic by done.
  by rewrite words_fuel_end.
Qed.

Lemma graphic_ascii s : all_graphic s -> Forall (fun c => val8 c < 128) s.
Proof. intros H. eapply Forall_impl; [exact H|]. intros c Hc. unfold graphic in Hc. cbn beta. lia. Qed.

Lemma graphic_valid s : all_graphic s -> utf8_valid s = true.
Proof. intros H. apply ascii_valid. by apply graphic_ascii. Qed.

Lemma graphic_not z s : all_graphic s -> 0 <= z <= 32 -> to_u8 z ∉ s.
Proof.
  intros H Hz Hin. pose proof (proj1 (Forall_forall _ _) H _ Hin) as Hg. unfold graphic in Hg.
  rewrite val8_to_u8, Z.mod_small in Hg by lia. lia.
Qed.

(** ** Lemmas: where a head ends *)

Lemma find_str_cons p c s : strip_prefix p (c :: s) = None -> find_str p (c :: s) = S <$> find_str p s.
Proof. intros H. cbn [find_str]. unfold starts_with. by rewrite H. Qed.

(** A byte that the pattern does not start with is passed over. *)
Lemma find_str_skip c p a s : c ∉ a -> find_str (c :: p) (a ++ s) = (fun i => length a + i)%nat <$> find_str (c :: p) s.
Proof.
  induction a as [|d a IH]; intros Hc; cbn [app length].
  - by destruct (find_str (c :: p) s).
  - apply not_elem_of_cons in Hc as [Hd Ha]. rewrite find_str_cons by (cbn; by rewrite decide_False).
    rewrite IH by done. by destruct (find_str (c :: p) s).
Qed.

Lemma find_str_here p s : find_str p (p ++ s) = Some 0%nat.
Proof.
  assert (strip_prefix p (p ++ s) = Some s) as H by by apply strip_prefix_Some.
  destruct (p ++ s) eqn:E; cbn [find_str]; unfold starts_with; by rewrite H.
Qed.

(** The lines of a head: none holds a carriage return, none is empty. *)
Definition head_lines (ls : list str) : Prop := Forall (fun l => l <> [] /\ to_u8 13 ∉ l) ls.

Lemma crlf_not_end l s : l <> [] -> to_u8 13 ∉ l -> strip_prefix LFCR (CRLF ++ l ++ s) = None.
Proof.
  intros Hn Hl. destruct l as [|c l]; [done|]. apply not_elem_of_cons in Hl as [Hc _].
  cbn. rewrite !decide_True by done. by rewrite decide_False.
Qed.

Lemma head_of_join l ls : head_of (l :: ls) = join CRLF (l :: ls) ++ LFCR.
Proof.
  unfold head_of, LFCR. revert l. induction ls as [|k ls IH]; intros l.
  - cbn [map concat join]. by rewrite app_nil_r, <- app_assoc.
  - change (join CRLF (l :: k :: ls)) with (l ++ CRLF ++ join CRLF (k :: ls)). cbn [map concat].
    cbn [map concat] in IH. rewrite <- !app_assoc. f_equal. f_equal. rewrite <- (IH k). by rewrite <- !app_assoc.
Qed.

Lemma find_head_end l ls s : head_lines (l :: ls) ->
  find_str LFCR (head_of (l :: ls) ++ s) = Some (length (join CRLF (l :: ls))).
Proof.
  intros Hl. rewrite head_of_join, <- app_assoc. revert l Hl.
  induction ls as [|k ls IH]; intros l Hl; inversion Hl as [|? ? [Hn Hc] Hls]; subst.
  - cbn [join]. change LFCR with (to_u8 13 :: of_zs [10; 13; 10]) at 1. rewrite find_str_skip by done.
    change (to_u8 13 :: of_zs [10; 13; 10]) with LFCR. rewrite find_str_here. cbn. f_equal. lia.
  - change (join CRLF (l :: k :: ls)) with (l ++ CRLF ++ join CRLF (k :: ls)). rewrite <- !app_assoc.
    change LFCR with (to_u8 13 :: of_zs [10; 13; 10]) at 1. rewrite find_str_skip by done.
    change (to_u8 13 :: of_zs [10; 13; 10]) with LFCR.
    assert (find_str LFCR (CRLF ++ join CRLF (k :: ls) ++ LFCR ++ s)
            = S <$> (S <$> find_str LFCR (join CRLF (k :: ls) ++ LFCR ++ s))) as ->.
    { inversion Hls as [|? ? [Hkn Hkc] _]; subst.
      assert (exists t, join CRLF (k :: ls) ++ LFCR ++ s = k ++ t) as [t ->]
        by (destruct ls; cbn [join]; eexists; [reflexivity|by rewrite <- !app_assoc]).
      change (CRLF ++ k ++ t) with (to_u8 13 :: to_u8 10 :: k ++ t).
      rewrite find_str_cons by (by apply crlf_not_end). by rewrite (find_str_cons _ (to_u8 10)) by done. }
    rewrite IH by done. cbn [fmap option_fmap option_map]. rewrite !length_app. cbn [length CRLF of_zs map]. done.
Qed.

Lemma first_line_head l ls s : to_u8 13 ∉ l -> first_line (head_of (l :: ls) ++ s) = l.
Proof.
  intros Hl. unfold first_line, head_of. cbn [map concat]. rewrite <- !app_assoc.
  change CRLF with (to_u8 13 :: of_zs [10]) at 1. rewrite find_str_skip by done.
  change (to_u8 13 :: of_zs [10]) with CRLF. rewrite find_str_here. cbn [fmap option_fmap option_map].
  by rewrite Nat.add_0_r, take_app_length.
Qed.

(** ** Lemmas: URLs *)

Lemma split_path_app dflt a p : "/"%char ∉ a -> head p = Some "/"%char -> split_path dflt (a ++ p) = (a, p).
Proof.
  intros Ha Hp. destruct p as [|c p]; [done|]. cbn in Hp. simplify_eq. unfold split_path.
  rewrite find_byte_app by (by apply Forall_is_char_false || by apply is_char_true).
  by rewrite take_app_length, drop_app_length.
Qed.

Lemma split_path_none dflt a : "/"%char ∉ a -> split_path dflt a = (a, dflt).
Proof. intros Ha. unfold split_path. by rewrite (proj2 (find_byte_None _ _)) by (by apply Forall_is_char_false). Qed.

Lemma host_port_show bad dflt h p : 0 <= p <= 65535 -> host_port bad dflt (h ++ ":" ++ show_uint p) = Ok (h, p).
Proof.
  intros Hp. unfold host_port. change (h ++ ":" ++ show_uint p) with (h ++ ":"%char :: show_uint p).
  rewrite rsplit_once_app by (apply show_uint_no; [lia|done]). unfold parse_u16. by rewrite parse_show_uint.
Qed.

Lemma host_port_plain bad dflt h : ":"%char ∉ h -> host_port bad dflt h = Ok (h, dflt).
Proof. intros Hh. unfold host_port. by rewrite rsplit_once_None. Qed.

(** ** Lemmas: the first occurrence *)

Lemma find_str_some p s i : find_str p s = Some i -> exists a b, s = a ++ p ++ b /\ length a = i.
Proof.
  revert i. induction s as [|c s IH]; intros i; cbn [find_str]; destruct (starts_with p _) eqn:E.
  - intros [= <-]. apply starts_with_spec in E as [b ->]. by exists [], b.
  - done.
  - intros [= <-]. apply starts_with_spec in E as [b ->]. by exists [], b.
  - destruct (find_str p s) as [j|]; [|done]. intros [= <-]. destruct (IH j eq_refl) as (a & b & -> & <-).
    by exists (c :: a), b.
Qed.

Lemma find_str_le p a b : exists j, find_str p (a ++ p ++ b) = Some j /\ (j <= length a)%nat.
Proof.
  induction a as [|c a IH]; [exists 0%nat; cbn [app]; by rewrite find_str_here|]. cbn [app find_str].
  destruct (starts_with p (c :: a ++ p ++ b)); [exists 0%nat; split; [done|lia]|].
  destruct IH as (j & -> & Hj). exists (S j). cbn. split; [done|lia].
Qed.

(** A reader that stops at the first [p] and has not seen it yet. *)
Definition before_end (p buf s : str) : Prop :=
  match find_str p (buf ++ s) with Some i => (length buf < i + length p)%nat | None => True end.

Lemma before_end_step p buf c s : before_end p buf (c :: s) ->
  if ends_with p (buf ++ [c])
  then find_str p (buf ++ c :: s) = Some (length (buf ++ [c]) - length p)%nat /\ (length p <= length (buf ++ [c]))%nat
  else before_end p (buf ++ [c]) s.
Proof.
  unfold before_end. intros H. rewrite <- app_assoc. cbn [app]. destruct (ends_with p (buf ++ [c])) eqn:E.
  - apply ends_with_spec in E as [a Ha]. destruct (find_str_le p a s) as (j & Hj & Hle).
    assert (buf ++ c :: s = a ++ p ++ s) as Heq
      by (change (c :: s) with ([c] ++ s); by rewrite app_assoc, Ha, <- app_assoc).
    rewrite Heq, Hj in *. apply (f_equal length) in Ha. rewrite !length_app in Ha. rewrite !length_app.
    cbn [length] in Ha |- *. split; [f_equal; lia|lia].
  - destruct (find_str p (buf ++ c :: s)) as [i|] eqn:Ei; [|done].
    apply find_str_some in Ei as (a & b & Heq & <-). rewrite length_app. cbn [length].
    destruct (decide (length buf + 1 = length a + length p)%nat) as [Hl|]; [|lia].
    assert (buf ++ [c] = a ++ p) as Hs.
    { change (c :: s) with ([c] ++ s) in Heq. rewrite !app_assoc in Heq.
      apply app_inj_1 in Heq as [Heq _]; [done|]. rewrite !length_app. cbn [length]. lia. }
    rewrite Hs in E. rewrite (proj2 (ends_with_spec p (a ++ p))) in E by (by exists a). done.
Qed.

Lemma before_end_nil p buf : before_end p buf [] -> find_str p buf = None.
Proof.
  unfold before_end. rewrite app_nil_r. destruct (find_str p buf) as [i|] eqn:E; [|done].
  apply find_str_some in E as (a & b & -> & <-). rewrite !length_app. lia.
Qed.
