(* ===== verification/HttpProxy.v ===== *)
(** * The HTTP proxy, both ends
    ([crates/net/src/engine.rs], [handle_http]; [outbound.rs], [http_connect])

    The front end reads a head, takes the request line apart, routes the target
    and tunnels (CONNECT) or forwards the request in origin-form; the outbound
    writes a CONNECT and reads the status. The sockets are [conn]s; the relay
    that follows is not part of them. *)

From S2P Require Import Prelude RustStr Utf8 NetAddr NetIo Base64 Outbound Engine Conn HttpText.

(** ** Reading a head, a byte at a time *)

(** [read_http_head]: [buf] is what has been read. The end is looked for before
    the length. *)
Fixpoint head_from (buf s : bytes) : res io_error (bytes * bytes) :=
  match s with
  | [] => Err (IoOther "http: соединение закрыто до конца заголовка")
  | b :: s' =>
      let buf := buf ++ [b] in
      if ends_with LFCR buf then Ok (buf, s')
      else if 16384 <? Z.of_nat (length buf) then Err (IoOther "http: заголовок слишком велик")
      else head_from buf s'
  end.

Definition read_http_head : conn bytes := fun s => ([], head_from [] s).

(** [read_http_status]: the length is looked at before the end. *)
Fixpoint status_from (buf s : bytes) : res io_error (bytes * bytes) :=
  if ends_with LFCR buf then Ok (buf, s) else
  match s with
  | [] => Err (IoOther "http connect: соединение закрыто до конца заголовка")
  | b :: s' =>
      let buf := buf ++ [b] in
      if 8192 <? Z.of_nat (length buf) then Err (IoOther "http connect: слишком длинный заголовок")
      else status_from buf s'
  end.

Definition status_of (head : bytes) : res io_error Z :=
  let first := default [] (hd_error (lines (from_utf8_lossy head))) in
  ok_or (status_word first ≫= parse_u16) (IoOther "http connect: не разобран статус").

Definition read_http_status : conn Z :=
  head ← (fun s => ([], status_from [] s)) : conn bytes;
  c_lift (status_of head).

(** ** The request line *)

(** [split_host_port] *)
Definition split_host_port (s : str) (dflt : Z) : str * Z :=
  let bracketed : option (str * Z) :=
    rest ← strip_prefix "[" s;
    match find_str "]:" rest with
    | Some i => Some (take i rest, default dflt (parse_u16 (drop (i + 2) rest)))
    | None => h ← strip_suffix "]" rest; Some (h, dflt)
    end in
  match bracketed with
  | Some r => r
  | None =>
      match rsplit_once ":"%char s with
      | Some (h, p) => if bool_decide (h = []) then (s, dflt) else (h, default dflt (parse_u16 p))
      | None => (s, dflt)
      end
  end.

(** [parse_absolute_uri] *)
Definition parse_absolute_uri (uri : str) : option (str * Z * str) :=
  rest ← match strip_prefix "http://" uri with Some r => Some r | None => strip_prefix "https://" uri end;
  let '(authority, path) := split_path "/" rest in
  let '(host, port) := split_host_port authority 80 in
  if bool_decide (host = []) then None else Some (host, port, path).

(** ** The front end: [handle_http] *)

Section handle_http.
Context {S : Type}.

(** How a connection goes on: a relay with the stream, its label and what is
    written to it first; or it is closed. *)
Inductive HttpEnd : Type :=
| Relay (target : Target) (up : S) (via : str) (first : bytes)
| Closed.

Definition handle_http (route : Target -> Routed) (dial : Outbound -> nat -> Attempt S) : conn HttpEnd :=
  head ← read_http_head;
  let text := from_utf8_lossy head in
  let parts := words (first_line text) in
  let method := default [] (parts !! 0%nat) in
  let target_str := default [] (parts !! 1%nat) in
  let bad_gateway : conn HttpEnd :=
    _ ← c_write ("HTTP/1.1 502 Bad Gateway" ++ LFCR); c_err (IoOther "upstream connect failed") in
  let forbidden : conn HttpEnd := _ ← c_write ("HTTP/1.1 403 Forbidden" ++ LFCR); mret Closed in
  if eq_ignore_ascii_case method "CONNECT" then
    let '(host, port) := split_host_port target_str 443 in
    let routed := route (TDomain host port) in
    match rd_decision routed with
    | Connect ob =>
        match fst (connect_routed dial routed ob) with
        | Some (up, via) =>
            _ ← c_write ("HTTP/1.1 200 Connection Established" ++ LFCR);
            mret (Relay (rd_target routed) up via [])
        | None => bad_gateway
        end
    | Refuse => forbidden
    end
  else
    match parse_absolute_uri target_str with
    | None => _ ← c_write ("HTTP/1.1 400 Bad Request" ++ LFCR); mret Closed
    | Some (host, port, path) =>
        let routed := route (TDomain host port) in
        match rd_decision routed with
        | Connect ob =>
            match fst (connect_routed dial routed ob) with
            | Some (up, via) =>
                let headers_block := match find_str CRLF head with Some i => drop (i + 2) head | None => [] end in
                mret (Relay (rd_target routed) up via (method ++ " " ++ path ++ " HTTP/1.1" ++ CRLF ++ headers_block))
            | None => bad_gateway
            end
        | Refuse => forbidden
        end
    end.

End handle_http.
Arguments HttpEnd S : clear implicits.

(** ** The outbound: [http_connect], after the connection is made *)

Definition connect_request (cfg : ProxyConfig) (target : Target) : bytes :=
  let hostport := show_target target in
  "CONNECT " ++ hostport ++ " HTTP/1.1" ++ CRLF ++ "Host: " ++ hostport ++ CRLF
  ++ match px_username cfg with
     | Some user =>
         "Proxy-Authorization: Basic " ++ encode_standard (user ++ ":" ++ default [] (px_password cfg)) ++ CRLF
     | None => []
     end
  ++ CRLF.

Definition http_connect (cfg : ProxyConfig) (target : Target) : conn unit :=
  _ ← c_write (connect_request cfg target);
  status ← read_http_status;
  if negb ((200 <=? status) && (status <? 300)) then c_err (IoOther "http connect: ответ не 2xx") else mret tt.

(** ** Specification: where a head ends *)

(** The head is what comes before the first empty line, that line included; at
    most [max] bytes of it are accepted, and [full] bytes without its end are
    too many. *)
Definition first_head (max full : Z) (closed too_long : io_error) (s : bytes) : res io_error (bytes * bytes) :=
  match find_str LFCR s with
  | Some i =>
      if Z.of_nat (i + 4) <=? max then Ok (take (i + 4) s, drop (i + 4) s) else Err too_long
  | None => if full <=? Z.of_nat (length s) then Err too_long else Err closed
  end.

(** ** Lemmas: heads *)

Lemma take_drop_middle_eq {A} (buf : list A) c s n : n = length (buf ++ [c]) ->
  take n (buf ++ c :: s) = buf ++ [c] /\ drop n (buf ++ c :: s) = s.
Proof.
  intros ->. change (c :: s) with ([c] ++ s). rewrite app_assoc. by rewrite take_app_length, drop_app_length.
Qed.

Lemma head_from_spec s : forall buf, before_end LFCR buf s -> Z.of_nat (length buf) <= 16384 ->
  head_from buf s =
  first_head 16385 16385 (IoOther "http: соединение закрыто до конца заголовка") (IoOther "http: заголовок слишком велик") (buf ++ s).
Proof.
  unfold first_head. induction s as [|c s IH]; intros buf Hb Hl; cbn [head_from].
  - rewrite app_nil_r, (before_end_nil _ _ Hb). by rewrite (proj2 (Z.leb_gt _ _)) by lia.
  - pose proof (before_end_step _ _ _ _ Hb) as Hstep. destruct (ends_with LFCR (buf ++ [c])).
    + destruct Hstep as [Hf Hlen]. rewrite Hf. change (length LFCR) with 4%nat in *.
      rewrite length_app in *. cbn [length] in *. rewrite (proj2 (Z.leb_le _ _)) by lia.
      destruct (take_drop_middle_eq buf c s (length buf + 1 - 4 + 4)) as [-> ->]; [rewrite length_app; cbn; lia|done].
    + destruct (16384 <? Z.of_nat (length (buf ++ [c]))) eqn:E.
      * apply Z.ltb_lt in E. unfold before_end in Hstep. rewrite <- app_assoc in Hstep. cbn [app] in Hstep.
        rewrite length_app in *. cbn [length] in *. change (length LFCR) with 4%nat in *.
        destruct (find_str LFCR (buf ++ c :: s)) as [i|].
        { by rewrite (proj2 (Z.leb_gt _ _)) by lia. }
        rewrite (proj2 (Z.leb_le _ _)); [done|]. cbn [length]. lia.
      * apply Z.ltb_ge in E. rewrite IH by (done || lia). by rewrite <- app_assoc.
Qed.

Lemma status_from_spec s : forall buf, before_end LFCR buf s -> Z.of_nat (length buf) <= 8192 ->
  ends_with LFCR buf = false ->
  status_from buf s =
  first_head 8192 8193 (IoOther "http connect: соединение закрыто до конца заголовка") (IoOther "http connect: слишком длинный заголовок") (buf ++ s).
Proof.
  unfold first_head. induction s as [|c s IH]; intros buf Hb Hl He; cbn [status_from]; rewrite He.
  - rewrite app_nil_r, (before_end_nil _ _ Hb). by rewrite (proj2 (Z.leb_gt _ _)) by lia.
  - pose proof (before_end_step _ _ _ _ Hb) as Hstep. change (length LFCR) with 4%nat in *.
    destruct (8192 <? Z.of_nat (length (buf ++ [c]))) eqn:E.
    + apply Z.ltb_lt in E. assert (match find_str LFCR (buf ++ c :: s) with Some i => length buf < i + 4 | None => True end)%nat as Hb' by exact Hb.
      rewrite length_app in *. cbn [length] in *. destruct (find_str LFCR (buf ++ c :: s)) as [i|].
      * by rewrite (proj2 (Z.leb_gt _ _)) by lia.
      * by rewrite (proj2 (Z.leb_le _ _)) by (cbn [length]; lia).
    + apply Z.ltb_ge in E. destruct (ends_with LFCR (buf ++ [c])) eqn:Ew.
      * destruct Hstep as [Hf Hlen]. rewrite Hf. destruct s as [|d s]; cbn [status_from]; rewrite Ew;
          rewrite length_app in *; cbn [length] in *; rewrite (proj2 (Z.leb_le _ _)) by lia;
          (match goal with |- context [take ?n (buf ++ c :: ?t)] => 
             destruct (take_drop_middle_eq buf c t n) as [-> ->]; [rewrite length_app; cbn; lia|done] end).
      * apply Z.ltb_ge in E. rewrite IH by (done || lia). by rewrite <- app_assoc.
Qed.

Lemma read_http_head_spec s : read_http_head s =
  ([], first_head 16385 16385 (IoOther "http: соединение закрыто до конца заголовка") (IoOther "http: заголовок слишком велик") s).
Proof.
  unfold read_http_head. rewrite head_from_spec; [done| |cbn; lia].
  unfold before_end. destruct (find_str _ _); [cbn; lia|done].
Qed.

Lemma read_status_spec s : read_http_status s =
  ([], '(head, rest) ← first_head 8192 8193 (IoOther "http connect: соединение закрыто до конца заголовка")
         (IoOther "http connect: слишком длинный заголовок") s;
       code ← status_of head; Ok (code, rest)).
Proof.
  unfold read_http_status. cbv [mbind conn_bind]. rewrite status_from_spec; [| |cbn; lia|done].
  - cbn [app]. destruct (first_head _ _ _ _ s) as [[h r]|e|]; [|done..]. cbn. by destruct (status_of h).
  - unfold before_end. destruct (find_str _ _); [cbn; lia|done].
Qed.

(** ** Lemmas: host and port *)

(** A target whose text can stand in a request line: an address, or a domain of
    printable ASCII that does not look like a bracketed address. *)
Definition wire_target (t : Target) : Prop :=
  0 <= target_port t < 65536 /\
  match t with TDomain h _ => all_graphic h /\ h <> [] /\ head h <> Some "["%char | TSocket _ => True end.

(** The host the other side reads: an address becomes its text, without the
    brackets. *)
Definition read_as (t : Target) : Target :=
  TDomain (match t with TDomain h _ => h | TSocket a => show_ip (sa_ip a) end) (target_port t).

Lemma show_v4_head a c : c = "["%char -> head (show_v4 a) <> Some c.
Proof.
  intros -> H. assert ("["%char ∈ show_v4 a) as Hin by (destruct (show_v4 a); cbn in H; [done|]; simplify_eq; left).
  by apply show_v4_chars in Hin.
Qed.

Lemma show_v4_nonempty a : show_v4 a <> [].
Proof. unfold show_v4. intros H. apply app_eq_nil in H as [H _]. by apply show_uint_nonempty in H. Qed.

Lemma strip_bracket_none s t : s <> [] -> head s <> Some "["%char -> strip_prefix "[" (s ++ t) = None.
Proof. intros Hn H. destruct s as [|c s]; [done|]. cbn in H |- *. rewrite decide_False; [done|]. congruence. Qed.

Lemma split_plain h p dflt : h <> [] -> head h <> Some "["%char -> 0 <= p < 65536 ->
  split_host_port (h ++ ":" ++ show_uint p) dflt = (h, p).
Proof.
  intros Hn Hh Hp. unfold split_host_port. rewrite strip_bracket_none by done. cbn [mbind option_bind].
  change (h ++ ":" ++ show_uint p) with (h ++ ":"%char :: show_uint p).
  rewrite rsplit_once_app by (apply show_uint_no; [lia|done]). rewrite bool_decide_eq_false_2 by done.
  unfold parse_u16. rewrite parse_show_uint by lia. done.
Qed.

Lemma split_show_target t dflt : wire_target t ->
  split_host_port (show_target t) dflt = (match t with TDomain h _ => h | TSocket a => show_ip (sa_ip a) end, target_port t).
Proof.
  intros [Hp H]. destruct t as [h p|[[a|a] p]]; cbn [target_port sa_ip sa_port show_ip show_target] in *.
  - destruct H as (_ & Hn & Hh). by apply split_plain.
  - apply split_plain; [apply show_v4_nonempty|by apply show_v4_head|done].
  - unfold show_socket, split_host_port. cbn [sa_ip sa_port].
    assert (strip_prefix "[" ("[" ++ show_v6 a ++ "]:" ++ show_uint p) = Some (show_v6 a ++ "]:" ++ show_uint p)) as ->
      by (by apply strip_prefix_Some).
    cbn [mbind option_bind]. change ("]:" : str) with ("]"%char :: [":"%char] : str) at 1.
    rewrite find_str_skip by (apply addr_char_not; [apply (show_ip_chars (V6 a))|done]).
    change ("]"%char :: [":"%char] : str) with ("]:" : str). rewrite find_str_here. cbn [fmap option_fmap option_map].
    rewrite Nat.add_0_r, take_app_length.
    replace (drop (length (show_v6 a) + 2) (show_v6 a ++ "]:" ++ show_uint p)) with (show_uint p)
      by (rewrite <- drop_drop, drop_app_length; done).
    unfold parse_u16. by rewrite parse_show_uint by lia.
Qed.

Lemma show_target_graphic t : wire_target t -> all_graphic (show_target t) /\ show_target t <> [].
Proof.
  intros [Hp H].
  assert (forall n, 0 <= n -> all_graphic (show_uint n)) as Hu.
  { intros n Hn. apply Forall_forall. intros c Hc. apply show_uint_digits in Hc; [|done]. unfold is_digit, graphic in *. lia. }
  assert (forall ip, all_graphic (show_ip ip)) as Hi
    by (intros ip; eapply Forall_impl; [apply show_ip_chars|apply addr_char_graphic]).
  destruct t as [h p|[[a|a] p]]; cbn [target_port sa_ip sa_port show_target] in *.
  - destruct H as (Hg & Hn & _). split; [|intros He; by apply app_eq_nil in He as [? _]].
    apply Forall_app. split; [done|]. constructor; [done|]. apply Hu. lia.
  - unfold show_socket. cbn [sa_ip sa_port]. split; [|intros He; apply app_eq_nil in He as [He _]; by apply show_v4_nonempty in He].
    apply Forall_app. split; [apply (Hi (V4 a))|]. constructor; [done|]. apply Hu. lia.
  - unfold show_socket. cbn [sa_ip sa_port]. split; [|done]. constructor; [done|]. apply Forall_app.
    split; [apply (Hi (V6 a))|]. do 2 (constructor; [done|]). apply Hu. lia.
Qed.

(** ** Lemmas: heads of known lines *)

Lemma first_head_of max full e1 e2 l ls s : head_lines (l :: ls) -> Z.of_nat (length (head_of (l :: ls))) <= max ->
  first_head max full e1 e2 (head_of (l :: ls) ++ s) = Ok (head_of (l :: ls), s).
Proof.
  intros Hl Hm. unfold first_head. rewrite find_head_end by done.
  assert (length (join CRLF (l :: ls)) + 4 = length (head_of (l :: ls)))%nat as ->
    by (by rewrite head_of_join, length_app).
  by rewrite (proj2 (Z.leb_le _ _) Hm), take_app_length, drop_app_length.
Qed.

Lemma head_of_valid ls : Forall (fun l => utf8_valid l = true) ls -> utf8_valid (head_of ls) = true.
Proof.
  intros H. unfold head_of. apply utf8_valid_app; [|done]. apply utf8_valid_concat, Forall_map.
  eapply Forall_impl; [exact H|]. intros l Hl. by apply utf8_valid_app.
Qed.

(** The lines of the CONNECT request. *)
Definition connect_lines (cfg : ProxyConfig) (t : Target) : list str :=
  [("CONNECT" ++ " "%char :: show_target t ++ " "%char :: lit "HTTP/1.1")%list; "Host: " ++ show_target t]
  ++ match px_username cfg with
     | Some user => ["Proxy-Authorization: Basic " ++ encode_standard (user ++ ":" ++ default [] (px_password cfg))]
     | None => []
     end.

Lemma connect_request_lines cfg t : connect_request cfg t = head_of (connect_lines cfg t).
Proof.
  unfold connect_request, connect_lines, head_of. destruct (px_username cfg); cbn [map concat app lit];
    rewrite <- ?app_assoc; cbn; rewrite <- ?app_assoc; cbn; rewrite <- ?app_assoc; done.
Qed.

Lemma connect_lines_ok cfg t : wire_target t ->
  head_lines (connect_lines cfg t) /\ Forall (fun l => utf8_valid l = true) (connect_lines cfg t).
Proof.
  intros Ht. destruct (show_target_graphic t Ht) as [Hg _].
  assert (forall l, Forall (fun c => 32 <= val8 c <= 126) l -> l <> [] ->
            (l <> [] /\ to_u8 13 ∉ l) /\ utf8_valid l = true) as Hline.
  { intros l Hl Hn. split; [split; [done|]|].
    - intros Hin. apply (proj1 (Forall_forall _ _) Hl) in Hin. cbn beta in Hin. change (val8 (to_u8 13)) with 13 in Hin. lia.
    - apply ascii_valid. eapply Forall_impl; [exact Hl|]. cbn beta. intros c Hc. lia. }
  assert (forall p, forallb (fun c => (32 <=? val8 c) && (val8 c <=? 126)) p = true -> Forall (fun c => 32 <= val8 c <= 126) p) as Hc.
  { intros p Hp. apply Forall_forall. intros c Hin%list_elem_of_In. pose proof (proj1 (List.forallb_forall _ _) Hp c Hin). cbn beta in *. lia. }
  assert (forall s, all_graphic s -> Forall (fun c => 32 <= val8 c <= 126) s) as Hgr.
  { intros s Hs. eapply Forall_impl; [exact Hs|]. intros c Hx. unfold graphic in Hx. cbn beta in *. lia. }
  apply Forall_and. unfold connect_lines. apply Forall_app. split; [constructor; [|constructor; [|constructor]]|].
  - apply Hline; [|done]. apply Forall_app. split; [by apply Hc|]. constructor; [done|]. apply Forall_app. split; [by apply Hgr|].
    constructor; [done|by apply Hc].
  - apply Hline; [|done]. apply Forall_app. split; [by apply Hc|by apply Hgr].
  - destruct (px_username cfg); constructor; [|constructor]. apply Hline; [|done]. apply Forall_app.
    split; [by apply Hc|apply Hgr, encode_graphic].
Qed.

Lemma words_request a b c : a <> [] -> b <> [] -> c <> [] -> all_graphic a -> all_graphic b -> all_graphic c ->
  words (a ++ " "%char :: b ++ " "%char :: c) = [a; b; c].
Proof. intros Ha Hb Hc Hga Hgb Hgc. by rewrite words_cons, words_cons, words_one. Qed.

Lemma lit_graphic p : forallb graphic p = true -> all_graphic p.
Proof. intros H. apply Forall_forall. intros c Hin%list_elem_of_In. by apply (proj1 (List.forallb_forall _ _) H). Qed.

(** What the front end makes of a request line of three words. *)
Lemma handle_http_reads a b ls s :
  a <> [] -> b <> [] -> all_graphic a -> all_graphic b ->
  head_lines ls -> Forall (fun l => utf8_valid l = true) ls ->
  let head := head_of ((a ++ " "%char :: b ++ " "%char :: lit "HTTP/1.1")%list :: ls) in
  Z.of_nat (length head) <= 16385 ->
  words (first_line (from_utf8_lossy head)) = [a; b; lit "HTTP/1.1"] /\ read_http_head (head ++ s) = ([], Ok (head, s)).
Proof.
  intros Ha Hb Hga Hgb Hls Hv head Hlen.
  assert (all_graphic (lit "HTTP/1.1")) as Hh by by apply lit_graphic.
  set (line := (a ++ " "%char :: b ++ " "%char :: lit "HTTP/1.1")%list) in *.
  assert (to_u8 13 ∉ line) as Hcr.
  { unfold line. rewrite elem_of_app, elem_of_cons, elem_of_app, elem_of_cons.
    intros [H|[H|[H|[H|H]]]]; [by apply (graphic_not 13) in H|done|by apply (graphic_not 13) in H|done|by apply (graphic_not 13) in H]. }
  assert (utf8_valid line = true) as Hvl.
  { apply ascii_valid. unfold line. rewrite Forall_app, Forall_cons, Forall_app, Forall_cons.
    split_and!; [by apply graphic_ascii|done|by apply graphic_ascii|done|by apply graphic_ascii]. }
  split.
  - rewrite lossy_id by (apply head_of_valid; by constructor). unfold head.
    rewrite <- (app_nil_r (head_of _)), first_line_head by done. by apply words_request.
  - rewrite read_http_head_spec. unfold head. rewrite first_head_of; [done| |done].
    constructor; [|done]. split; [|done]. unfold line. by destruct a.
Qed.

Definition established : bytes := "HTTP/1.1 200 Connection Established" ++ LFCR.
Definition forbidden : bytes := "HTTP/1.1 403 Forbidden" ++ LFCR.
Definition bad_gateway : bytes := "HTTP/1.1 502 Bad Gateway" ++ LFCR.

Lemma http_connect_reads cfg t line code s : head_lines [line] -> Z.of_nat (length (head_of [line])) <= 8192 ->
  status_of (head_of [line]) = Ok code ->
  http_connect cfg t (head_of [line] ++ s) =
  (connect_request cfg t, if (200 <=? code) && (code <? 300) then Ok (tt, s) else Err (IoOther "http connect: ответ не 2xx")).
Proof.
  intros Hl Hm Hc. unfold http_connect. rewrite c_bind_write.
  assert (read_http_status (head_of [line] ++ s) = ([], Ok (code, s))) as Hr.
  { rewrite read_status_spec, first_head_of by done. cbn [mbind res_bind]. by rewrite Hc. }
  rewrite (c_bind_quiet _ _ _ _ _ Hr). destruct ((200 <=? code) && (code <? 300)); cbn; by rewrite app_nil_r.
Qed.

Lemma http_connect_answers cfg t s :
  http_connect cfg t (established ++ s) = (connect_request cfg t, Ok (tt, s)) /\
  (forall answer, answer ∈ [forbidden; bad_gateway] ->
    http_connect cfg t (answer ++ s) = (connect_request cfg t, Err (IoOther "http connect: ответ не 2xx"))).
Proof.
  assert (forall line, forallb graphic (filter (fun c => c <> " "%char) line) = true -> line <> [] ->
            head_lines [line]) as Hl.
  { intros line Hg Hn. constructor; [|done]. split; [done|]. intros Hin.
    assert (to_u8 13 ∈ filter (fun c => c <> " "%char) line) as Hf by (apply list_elem_of_filter; done).
    apply list_elem_of_In in Hf. by apply (proj1 (List.forallb_forall _ _) Hg) in Hf. }
  split; [|intros answer; rewrite elem_of_cons, list_elem_of_singleton; intros [->| ->]].
  - assert (established = head_of [lit "HTTP/1.1 200 Connection Established"]) as -> by by vm_compute.
    rewrite (http_connect_reads cfg t _ 200); [done|by apply Hl|by vm_compute..].
  - assert (forbidden = head_of [lit "HTTP/1.1 403 Forbidden"]) as -> by by vm_compute.
    rewrite (http_connect_reads cfg t _ 403); [done|by apply Hl|by vm_compute..].
  - assert (bad_gateway = head_of [lit "HTTP/1.1 502 Bad Gateway"]) as -> by by vm_compute.
    rewrite (http_connect_reads cfg t _ 502); [done|by apply Hl|by vm_compute..].
Qed.

(** C29. The HTTP proxy and the HTTP outbound speak the same protocol. For a
    target whose text is printable and a request that fits the head's limit,
    the bytes [http_connect] writes, whatever the credentials, make
    [handle_http] route the client's host and port (an address as its text) and
    read nothing of what follows; a stream is relayed with 200, a refusal is
    answered 403 and closed, an upstream that cannot be reached 502 and an error; of these
    answers the client accepts 200 and only it, and leaves what follows unread. *)
Theorem http_connect_agrees {S} (route : Target -> Routed) (dial : Outbound -> nat -> Attempt S)
    (cfg : ProxyConfig) (t : Target) (s s' : bytes)
    (Ht : wire_target t) (Hfit : Z.of_nat (length (connect_request cfg t)) <= 16385) :
  let routed := route (read_as t) in
  handle_http route dial (connect_request cfg t ++ s) =
    match rd_decision routed with
    | Connect ob =>
        match fst (connect_routed dial routed ob) with
        | Some (up, via) => (established, Ok (Relay (rd_target routed) up via [], s))
        | None => (bad_gateway, Err (IoOther "upstream connect failed"))
        end
    | Refuse => (forbidden, Ok (Closed, s))
    end /\
  http_connect cfg t (established ++ s') = (connect_request cfg t, Ok (tt, s')) /\
  (forall answer, answer ∈ [forbidden; bad_gateway] ->
    http_connect cfg t (answer ++ s') = (connect_request cfg t, Err (IoOther "http connect: ответ не 2xx"))).
Proof.
  intros routed. destruct (connect_lines_ok cfg t Ht) as [Hl Hv]. destruct (show_target_graphic t Ht) as [Hg Hn].
  split; [|split].
  - rewrite connect_request_lines in *. unfold connect_lines in *. cbn [app] in *.
    inversion Hl; inversion Hv; subst.
    destruct (handle_http_reads (lit "CONNECT") (show_target t) _ s ltac:(done) Hn ltac:(by apply lit_graphic) Hg
                ltac:(eassumption) ltac:(eassumption) Hfit) as [Hw Hr].
    unfold handle_http. rewrite (c_bind_quiet _ _ _ _ _ Hr). cbv zeta. rewrite Hw. cbn [lookup list_lookup default from_option id].
    change (eq_ignore_ascii_case "CONNECT" "CONNECT") with true. cbv iota. rewrite split_show_target by done.
    change (TDomain _ (target_port t)) with (read_as t). fold routed.
    destruct (rd_decision routed) as [ob|]; [|by rewrite c_bind_write].
    destruct (fst (connect_routed dial routed ob)) as [[up via]|]; by rewrite c_bind_write.
  - apply (http_connect_answers cfg t s').
  - apply (http_connect_answers cfg t s').
Qed.

(** A CONNECT to [example.com:443] through a proxy that asks for a password, and
    its tunnel. *)
Lemma http_connect_agrees_witness :
  let cfg := mkProxy "10.0.0.1:8080" (Some ("u" : str)) (Some ("p" : str)) in
  let t := TDomain "example.com" 443 in
  let route (t : Target) := mkRouted (Connect ODirect) t None None None in
  let dial (_ : Outbound) (_ : nat) := Connected tt in
  (wire_target t /\ Z.of_nat (length (connect_request cfg t)) <= 16385) /\
  handle_http route dial (connect_request cfg t ++ "hello") = (established, Ok (Relay t tt "direct" [], "hello" : str)).
Proof.
  intros cfg t route dial.
  assert (wire_target t) as Ht
    by (split; [cbn; lia|]; split; [by apply lit_graphic|]; split; [done|]; intros H; vm_compute in H; discriminate).
  assert (Z.of_nat (length (connect_request cfg t)) <= 16385) as Hl by (apply Z.leb_le; vm_compute; reflexivity).
  split; [done|]. exact (proj1 (http_connect_agrees route dial cfg t "hello" "" Ht Hl)).
Defined.

(** ** Forwarding an absolute-form request *)

Lemma forward_head a l ls : to_u8 13 ∉ l ->
  match find_str CRLF (head_of (l :: ls)) with Some i => drop (i + 2) (head_of (l :: ls)) | None => [] end = head_of ls /\
  a ++ CRLF ++ head_of ls = head_of (a :: ls).
Proof.
  intros Hl. unfold head_of. cbn [map concat]. rewrite <- !app_assoc.
  change CRLF with (to_u8 13 :: of_zs [10]) at 1. rewrite find_str_skip by done. change (to_u8 13 :: of_zs [10]) with CRLF.
  rewrite find_str_here. cbn [fmap option_fmap option_map]. rewrite Nat.add_0_r, <- drop_drop, drop_app_length. done.
Qed.

(** The request line of a method, a target and a path. *)
Definition absolute_form (method : str) (t : Target) (path : str) : str :=
  method ++ " "%char :: (lit "http://" ++ show_target t ++ path) ++ " "%char :: lit "HTTP/1.1".

Definition origin_form (method path : str) : str := method ++ lit " " ++ path ++ lit " HTTP/1.1".

Lemma parse_absolute_show t path : wire_target t -> "/"%char ∉ show_target t -> head path = Some "/"%char ->
  match read_as t with
  | TDomain h p => parse_absolute_uri (lit "http://" ++ show_target t ++ path) = Some (h, p, path)
  | TSocket _ => False
  end.
Proof.
  intros Ht Hs Hp. unfold read_as, parse_absolute_uri.
  assert (strip_prefix "http://" (lit "http://" ++ show_target t ++ path) = Some (show_target t ++ path)) as ->
    by by apply strip_prefix_Some.
  cbn [mbind option_bind]. rewrite split_path_app, split_show_target by done.
  rewrite bool_decide_eq_false_2; [done|]. destruct Ht as [_ Ht]. destruct t as [h p|[[a|a] p]]; [naive_solver|apply show_v4_nonempty|].
  cbn. unfold show_v6. case_match; [done|]. destruct (zero_run _ _ _ _ _ _). case_match.
  - intros He. by apply app_eq_nil in He as [_ He].
  - unfold show_groups. cbn [groups_of map join]. intros He. apply app_eq_nil in He as [_ He]. done.
Qed.

(** A plain HTTP request is forwarded in origin-form: with a method other
    than CONNECT and the target in the URL, the front end routes the URL's
    host and port, and what it writes upstream is the request line with the
    path alone followed by the client's own header lines, byte for byte; the
    body, not read yet, follows in the relay. Without a usable URL the answer
    is 400. No head, of any length, makes the front end panic. *)
Theorem absolute_form_forwarded {S} (route : Target -> Routed) (dial : Outbound -> nat -> Attempt S)
    (method path : str) (t : Target) (headers : list str) (s : bytes)
    (Hm : method <> [] /\ all_graphic method /\ eq_ignore_ascii_case method "CONNECT" = false)
    (Hp : head path = Some "/"%char /\ all_graphic path) (Ht : wire_target t) (Hs : "/"%char ∉ show_target t)
    (Hh : head_lines headers /\ Forall (fun l => utf8_valid l = true) headers)
    (Hfit : Z.of_nat (length (head_of (absolute_form method t path :: headers))) <= 16385) :
  let routed := route (read_as t) in
  handle_http route dial (head_of (absolute_form method t path :: headers) ++ s) =
    match rd_decision routed with
    | Connect ob =>
        match fst (connect_routed dial routed ob) with
        | Some (up, via) => ([], Ok (Relay (rd_target routed) up via (head_of (origin_form method path :: headers)), s))
        | None => (bad_gateway, Err (IoOther "upstream connect failed"))
        end
    | Refuse => (forbidden, Ok (Closed, s))
    end /\
  c_safe (handle_http route dial).
Proof.
  intros routed. destruct Hm as (Hmn & Hmg & Hmc), Hp as [Hph Hpg], Hh as [Hh Hv].
  destruct (show_target_graphic t Ht) as [Hg Hn].
  set (uri := (lit "http://" ++ show_target t ++ path)%list).
  assert (all_graphic uri) as Hug by (apply Forall_app; split; [by apply lit_graphic|apply Forall_app; done]).
  split.
  - destruct (handle_http_reads method uri headers s Hmn ltac:(done) Hmg Hug Hh Hv Hfit) as [Hw Hr].
    unfold handle_http, absolute_form. fold uri. rewrite (c_bind_quiet _ _ _ _ _ Hr). cbv zeta. rewrite Hw.
    cbn [lookup list_lookup default from_option id]. rewrite Hmc.
    pose proof (parse_absolute_show t path Ht Hs Hph) as Hu. fold uri in Hu. unfold read_as in Hu. rewrite Hu.
    change (TDomain _ (target_port t)) with (read_as t). fold routed.
    destruct (rd_decision routed) as [ob|]; [|by rewrite c_bind_write].
    destruct (fst (connect_routed dial routed ob)) as [[up via]|]; [|by rewrite c_bind_write].
    destruct (forward_head (origin_form method path) (method ++ " "%char :: uri ++ " "%char :: lit "HTTP/1.1") headers) as [-> <-].
    { rewrite elem_of_app, elem_of_cons, elem_of_app, elem_of_cons.
      intros [H|[H|[H|[H|H]]]]; [by apply (graphic_not 13) in H|done|by apply (graphic_not 13) in H|done|].
      apply (graphic_not 13) in H; [done|by apply lit_graphic|lia]. }
    unfold origin_form. by rewrite <- !app_assoc.
  - unfold handle_http. apply c_safe_bind.
    + intros i. rewrite read_http_head_spec. unfold first_head. cbn [snd]. repeat case_match; done.
    + intros h. repeat case_match; eauto 8 with conndb.
Qed.

(** A GET through the proxy, with one header and a body. *)
Lemma absolute_form_forwarded_witness :
  let t := TDomain "example.com" 8080 in
  let hs : list str := ["Accept: */*" : str] in
  let route (t : Target) := mkRouted (Connect ODirect) t None None None in
  let dial (_ : Outbound) (_ : nat) := Connected tt in
  let head := head_of (absolute_form "GET" t "/a/b" :: hs) in
  (wire_target t /\ Z.of_nat (length head) <= 16385) /\
  handle_http route dial (head ++ "body") = ([], Ok (Relay t tt "direct" (head_of (origin_form "GET" "/a/b" :: hs)), "body" : str)).
Proof.
  intros t hs route dial head.
  assert (wire_target t) as Ht
    by (split; [cbn; lia|]; split; [by apply lit_graphic|]; split; [done|]; intros H; vm_compute in H; discriminate).
  assert (Z.of_nat (length head) <= 16385) as Hl by (apply Z.leb_le; vm_compute; reflexivity).
  split; [done|].
  refine (proj1 (absolute_form_forwarded route dial "GET" "/a/b" t hs "body" _ _ Ht _ _ Hl)).
  - split; [done|]. split; [by apply lit_graphic|by vm_compute].
  - split; [done|by apply lit_graphic].
  - apply (bool_decide_unpack _); vm_compute; exact I.
  - split; repeat constructor; try done. apply (bool_decide_unpack _); vm_compute; exact I.
Defined.

(** The two readers of heads, which take one byte at a time, stop right
    after the first empty line and leave the rest unread: the front end accepts
    heads of at most 16385 bytes, the outbound of at most 8192; a peer that
    sends more without an empty line is cut off, and one that closes first is an
    error. *)
Theorem heads_end_at_blank_line (s : bytes) :
  read_http_head s =
    ([], first_head 16385 16385 (IoOther "http: соединение закрыто до конца заголовка") (IoOther "http: заголовок слишком велик") s) /\
  read_http_status s =
    ([], '(head, rest) ← first_head 8192 8193 (IoOther "http connect: соединение закрыто до конца заголовка")
           (IoOther "http connect: слишком длинный заголовок") s;
         code ← status_of head; Ok (code, rest)).
Proof. split; [apply read_http_head_spec|apply read_status_spec]. Qed.
