(* ===== verification/SubFetch.v ===== *)
(** * Fetching subscriptions and geo bases
    ([crates/net/src/subscription.rs], the HTTP side)

    One GET per URL with [Connection: close], a bounded chain of redirects, the
    chunked transfer coding and the title of a subscription. The connection
    (TCP, TLS, the clock) is an argument: what the server sends back until it
    closes. *)

From S2P Require Import Prelude RustStr Utf8 NetAddr Model NetIo Base64 Engine HttpText.

(** ** [usize::from_str_radix(s, 16)] *)

Definition USIZE_MAX : Z := 2 ^ 64 - 1.

Fixpoint hex_digits (acc : Z) (s : str) : option Z :=
  match s with
  | [] => Some acc
  | c :: s' =>
      d ← to_digit 16 c;
      let v := acc * 16 + d in
      if USIZE_MAX <? v then None else hex_digits v s'
  end.

Definition parse_hex (s : str) : option Z :=
  let digits := match s with c :: s' => if decide (c = "+"%char) then s' else s | [] => [] end in
  match digits with [] => None | _ => hex_digits 0 digits end.

(** ** [dechunk] *)

Definition dechunk_turn '(data, out) : res io_error ((bytes * bytes) + bytes) :=
  nl ← ok_or (find_str CRLF data) (IoOther "подписка: битый chunk");
  let size_line := default [] (from_utf8 (take nl data)) in
  size ← ok_or (parse_hex (trim (default [] (head (split_char ";"%char size_line))))) (IoOther "подписка: битый размер chunk");
  let data := drop (nl + 2) data in
  if size =? 0 then Ok (inr out)
  else if Z.of_nat (length data) <? size then Err (IoOther "подписка: chunk обрезан")
  else
    let out := out ++ take (Z.to_nat size) data in
    let data := drop (Z.to_nat size) data in
    Ok (inl (default data (strip_prefix CRLF data), out)).

Definition dechunk (data : bytes) : res io_error bytes := loop (S (length data)) dechunk_turn (data, []).

(** ** The response: [exchange_raw], [parse_http_response] *)

(** [decode_profile_title] *)
Definition decode_profile_title (raw : str) : option str :=
  let v := trim raw in
  name ← match strip_prefix "base64:" v with
         | Some b64 => res_ok (decode_to_string (trim b64))
         | None => Some v
         end;
  let name := trim name in
  if bool_decide (name = []) then None else Some name.

Record RawResp : Type := mkResp { rr_status : Z; rr_location : option str; rr_body : bytes; rr_title : option str }.

Definition request_text (host path : str) : bytes :=
  "GET " ++ path ++ " HTTP/1.1" ++ CRLF ++ "Host: " ++ host ++ CRLF ++ "User-Agent: jammvpn" ++ CRLF
  ++ "Accept: */*" ++ CRLF ++ "Connection: close" ++ LFCR.

(** What follows the first colon of a header line. *)
Definition header_value (l : str) : res io_error str :=
  i ← unwrap (find_byte (is_char ":"%char) l); Ok (drop (i + 1) l).

(** One header line: location, chunked and title so far. *)
Definition scan_header (st : option str * bool * option str) (l : str) : res io_error (option str * bool * option str) :=
  let '(location, chunked, title) := st in
  let ll := to_ascii_lowercase l in
  location ← (if starts_with "location:" ll then v ← header_value l; Ok (Some (trim v)) else Ok location);
  title ← (if starts_with "profile-title:" ll then v ← header_value l; Ok (decode_profile_title v) else Ok title);
  let chunked := chunked || (starts_with "transfer-encoding:" ll && contains "chunked" ll) in
  Ok (location, chunked, title).

Fixpoint scan_headers (st : option str * bool * option str) (ls : list str) : res io_error (option str * bool * option str) :=
  match ls with
  | [] => Ok st
  | l :: ls => st ← scan_header st l; scan_headers st ls
  end.

(** The part of [exchange_raw] after [read_to_end]. *)
Definition read_response (raw : bytes) : res io_error RawResp :=
  sep ← ok_or (find_str LFCR raw) (IoOther "нет заголовков HTTP");
  let ls := lines (from_utf8_lossy (take sep raw)) in
  let body := drop (sep + 4) raw in
  let status := default 0 (status_word (default [] (head ls)) ≫= parse_u16) in
  '(location, chunked, title) ← scan_headers (None, false, None) (tail ls);
  body ← (if chunked : bool then dechunk body else Ok body);
  Ok (mkResp status location body title).

Definition parse_http_response (raw : bytes) : res io_error str :=
  sep ← ok_or (find_str LFCR raw) (IoOther "подписка: нет заголовков HTTP");
  let ls := lines (from_utf8_lossy (take sep raw)) in
  let body := drop (sep + 4) raw in
  let status := default [] (head ls) in
  if negb (is_2xx status) then Err (IoOther ("подписка: статус не 2xx: " ++ status)) else
  let chunked := existsb (fun l => let l := to_ascii_lowercase l in
                            starts_with "transfer-encoding:" l && contains "chunked" l) (tail ls) in
  body ← (if chunked then dechunk body else Ok body);
  Ok (from_utf8_lossy body).

(** ** Fetching *)

Section fetch.

(** The bytes a server answers to a request with, until it closes, or the
    failure of the connection; [None] where the timeout expires. *)
Context (exchange : Scheme -> str -> Z -> bytes -> option (res io_error bytes)).

(** [fetch_raw], under the timeout *)
Definition fetch_raw (url : str) : option (res io_error RawResp) :=
  match parse_url url with
  | Ok (scheme, host, port, path) =>
      (fun r => raw ← r; read_response raw) <$> exchange scheme host port (request_text host path)
  | Err e => Some (Err e)
  | Panic => Some Panic
  end.

(** [fetch_inner], [fetch_text] *)
Definition fetch_text (url : str) : res io_error str :=
  match parse_url url with
  | Ok (scheme, host, port, path) =>
      match exchange scheme host port (request_text host path) with
      | Some r => raw ← r; parse_http_response raw
      | None => Err (IoTimedOut "подписка: таймаут")
      end
  | Err e => Err e
  | Panic => Panic
  end.

Definition is_redirect (status : Z) : bool := existsb (Z.eqb status) [301; 302; 303; 307; 308].

(** The URL a redirect leads to: a [Location] that starts with [http], else one
    glued to the scheme and the host. *)
Definition next_url (current loc : str) : res io_error str :=
  if starts_with "http" loc then Ok loc else
  '(sch, host, _, _) ← parse_url current;
  Ok ((match sch with SchemeHttps => "https://" | SchemeHttp => "http://" end) ++ host ++ loc).

(** The texts of the errors of [fetch_bytes] and [fetch_string_with_title]. *)
Record Texts : Type := mkTexts { tx_timeout : io_error; tx_no_location : str; tx_status : str; tx_too_many : str }.

(** [for _ in 0..n]: the response that is not a redirect. *)
Fixpoint follow (tx : Texts) (n : nat) (current : str) : res io_error RawResp :=
  match n with
  | O => Err (IoOther (tx_too_many tx))
  | S n =>
      match fetch_raw current with
      | None => Err (tx_timeout tx)
      | Some r =>
          resp ← r;
          if rr_status resp =? 200 then Ok resp
          else if is_redirect (rr_status resp) then
            loc ← ok_or (rr_location resp) (IoOther (tx_no_location tx));
            next ← next_url current loc;
            follow tx n next
          else Err (IoOther (tx_status tx ++ show_uint (rr_status resp)))
      end
  end.

Definition MAX_HOPS : nat := 6.

Definition fetch_bytes (url : str) : res io_error bytes :=
  rr_body <$> follow (mkTexts (IoOther "таймаут загрузки") "редирект без Location" "HTTP статус " "слишком много редиректов") MAX_HOPS url.

Definition fetch_string_with_title (url : str) : res io_error (str * option str) :=
  (fun r => (from_utf8_lossy (rr_body r), rr_title r)) <$>
  follow (mkTexts (IoTimedOut "подписка: таймаут") "подписка: редирект без Location" "подписка: статус " "подписка: слишком много редиректов") MAX_HOPS url.

End fetch.

(** ** Specification: the chunked coding *)

(** A chunk, its size in hexadecimal with any extension. *)
Definition chunk (c : bytes) (ext : str) : bytes := show_hex (Z.of_nat (length c)) ++ ext ++ CRLF ++ c ++ CRLF.

Definition chunk_ext (ext : str) : Prop := (ext = [] \/ head ext = Some ";"%char) /\ utf8_valid ext = true /\ to_u8 13 ∉ ext.

Definition chunked_body (cs : list (bytes * str)) (last trailer : str) : bytes :=
  concat (map (fun '(c, ext) => chunk c ext) cs) ++ "0" ++ last ++ CRLF ++ trailer.

(** ** Lemmas: hexadecimal *)

Lemma hex_digit_char d : 0 <= d < 16 -> to_digit 16 (hex_char d) = Some d.
Proof.
  intros Hd. assert (forallb (fun k => bool_decide (to_digit 16 (hex_char (Z.of_nat k)) = Some (Z.of_nat k))) (seq 0 16) = true) as H by by vm_compute.
  rewrite forallb_forall in H. specialize (H (Z.to_nat d)). rewrite in_seq, Z2Nat.id in H by lia. 
  apply (bool_decide_eq_true_1 _), H. lia.
Qed.

Lemma hex_digits_app s t : forall acc v, hex_digits acc s = Some v -> hex_digits acc (s ++ t) = hex_digits v t.
Proof.
  induction s as [|c s IH]; intros acc v; cbn [hex_digits app]; [by intros [= <-]|].
  destruct (to_digit 16 c) as [d|]; cbn [mbind option_bind]; [|done].
  destruct (USIZE_MAX <? _); [done|]. apply IH.
Qed.

Lemma show_hex_fuel_digits : forall fuel z, 0 <= z <= USIZE_MAX -> z < 16 ^ Z.of_nat fuel ->
  hex_digits 0 (show_hex_fuel fuel z) = Some z.
Proof.
  induction fuel as [|f IH]; intros z Hz Hf.
  - cbn in Hf. replace z with 0 by lia. done.
  - cbn [show_hex_fuel]. destruct (Z.ltb_spec z 16) as [H|H].
    + cbn [hex_digits]. rewrite hex_digit_char by lia. cbn [mbind option_bind].
      by rewrite (proj2 (Z.ltb_ge _ _)) by lia.
    + rewrite Nat2Z.inj_succ, Z.pow_succ_r in Hf by lia.
      rewrite (hex_digits_app _ _ _ (z / 16)) by (apply IH; dlia).
      cbn [hex_digits]. rewrite hex_digit_char by dlia. cbn [mbind option_bind].
      rewrite (proj2 (Z.ltb_ge _ _)) by dlia. f_equal. dlia.
Qed.

Lemma show_hex_graphic z : 0 <= z -> all_graphic (show_hex z) /\ show_hex z <> [] /\ Forall (fun c => addr_char c = true) (show_hex z).
Proof.
  intros Hz. assert (Forall (fun c => addr_char c = true) (show_hex z)) as H
    by (apply Forall_forall; intros c; by apply show_hex_chars).
  split; [eapply Forall_impl; [exact H|apply addr_char_graphic]|]. split; [|done].
  unfold show_hex. cbn [show_hex_fuel]. destruct (z <? 16); [done|]. by destruct (show_hex_fuel _ _).
Qed.

Lemma parse_show_hex z : 0 <= z <= USIZE_MAX -> parse_hex (show_hex z) = Some z.
Proof.
  intros Hz. destruct (show_hex_graphic z ltac:(lia)) as (_ & Hn & Ha).
  assert (hex_digits 0 (show_hex z) = Some z) as Hd.
  { unfold show_hex. apply show_hex_fuel_digits; [done|]. rewrite Nat2Z.inj_succ, Z2Nat.id by apply Z.log2_nonneg.
    destruct (decide (z = 0)) as [->|]; [done|]. apply Z.lt_le_trans with (2 ^ Z.succ (Z.log2 z)); [apply Z.log2_spec; lia|].
    apply Z.pow_le_mono_l. lia. }
  unfold parse_hex. destruct (show_hex z) as [|c s] eqn:E; [done|].
  rewrite decide_False; [done|]. intros ->. by apply Forall_cons in Ha as [Ha _].
Qed.

(** ** Lemmas: chunks *)

Lemma chunk_size_line z ext : 0 <= z <= USIZE_MAX -> chunk_ext ext ->
  parse_hex (trim (default [] (head (split_char ";"%char (default [] (from_utf8 (show_hex z ++ ext))))))) = Some z /\
  to_u8 13 ∉ show_hex z ++ ext.
Proof.
  intros Hz (He & Hu & Hc). destruct (show_hex_graphic z ltac:(lia)) as (Hg & Hn & Ha).
  assert (utf8_valid (show_hex z ++ ext) = true) as Hv by (apply utf8_valid_app; [by apply graphic_valid|done]).
  assert (";"%char ∉ show_hex z) as Hs by by apply addr_char_not.
  split.
  - unfold from_utf8. rewrite Hv. cbn [default from_option id].
    assert (head (split_char ";"%char (show_hex z ++ ext)) = Some (show_hex z)) as ->.
    { destruct He as [->|He]; [by rewrite app_nil_r, split_char_none|].
      destruct ext as [|c e]; [done|]. cbn in He. simplify_eq. by rewrite split_char_app. }
    cbn [from_option id]. rewrite trim_trimmed by (by apply all_graphic_trimmed). by apply parse_show_hex.
  - rewrite elem_of_app. intros [H|H]; [|done]. by apply (graphic_not 13) in H.
Qed.

Lemma find_crlf l s : to_u8 13 ∉ l -> find_str CRLF (l ++ CRLF ++ s) = Some (length l).
Proof.
  intros Hl. change CRLF with (to_u8 13 :: of_zs [10]) at 1. rewrite find_str_skip by done.
  change (to_u8 13 :: of_zs [10]) with CRLF. rewrite find_str_here. cbn. by rewrite Nat.add_0_r.
Qed.

Lemma dechunk_turn_chunk c ext data out : c <> [] -> Z.of_nat (length c) <= USIZE_MAX -> chunk_ext ext ->
  dechunk_turn (chunk c ext ++ data, out) = Ok (inl (data, out ++ c)).
Proof.
  intros Hn Hc He. destruct (chunk_size_line (Z.of_nat (length c)) ext ltac:(lia) He) as [Hp Hl].
  unfold dechunk_turn, chunk. rewrite <- !app_assoc, (app_assoc (show_hex _) ext), find_crlf by done.
  cbn [ok_or mbind res_bind]. rewrite take_app_length, Hp. cbn [ok_or mbind res_bind].
  rewrite <- drop_drop, drop_app_length. change (drop 2 (CRLF ++ ?x)) with x.
  assert (length c <> 0%nat) by by destruct c. rewrite (proj2 (Z.eqb_neq _ _)) by lia.
  rewrite (proj2 (Z.ltb_ge _ _)) by (rewrite length_app; lia). rewrite Nat2Z.id, take_app_length, drop_app_length. done.
Qed.

Lemma dechunk_turn_last last trailer out : chunk_ext last -> dechunk_turn ("0" ++ last ++ CRLF ++ trailer, out) = Ok (inr out).
Proof.
  intros He. destruct (chunk_size_line 0 last ltac:(unfold USIZE_MAX; lia) He) as [Hp Hl]. change (show_hex 0) with (lit "0") in *.
  unfold dechunk_turn. rewrite (app_assoc (lit "0") last), find_crlf by done.
  cbn [ok_or mbind res_bind]. rewrite take_app_length, Hp. done.
Qed.

Lemma dechunk_turn_safe st : no_panic (dechunk_turn st) /\
  forall st', dechunk_turn st = Ok (inl st') -> (length (fst st') < length (fst st))%nat.
Proof.
  destruct st as [data out]. unfold dechunk_turn. destruct (find_str CRLF data) as [nl|] eqn:E; [|done].
  apply find_str_some in E as (a & b & -> & <-). cbn [ok_or mbind res_bind fst]. rewrite take_app_length.
  destruct (parse_hex _) as [size|]; [|done]. cbn [ok_or mbind res_bind].
  rewrite <- drop_drop, drop_app_length. change (drop 2 (CRLF ++ b)) with b.
  destruct (size =? 0); [by split|]. destruct (_ <? size); [by split|]. split; [discriminate|].
  assert (length (default (drop (Z.to_nat size) b) (strip_prefix CRLF (drop (Z.to_nat size) b))) <= length b)%nat as Hd.
  { destruct (strip_prefix _ _) as [r|] eqn:Er; cbn [default from_option id]; [|rewrite length_drop; lia].
    apply strip_prefix_Some in Er. apply (f_equal length) in Er. rewrite length_drop, length_app in Er. lia. }
  revert Hd. generalize (default (drop (Z.to_nat size) b) (strip_prefix CRLF (drop (Z.to_nat size) b))).
  intros d Hd st' [= <-]. cbn [fst]. rewrite !length_app. change (length CRLF) with 2%nat. lia.
Qed.

Lemma dechunk_total data : no_panic (dechunk data).
Proof.
  unfold dechunk. apply (loop_no_panic _ (fun _ => True) (fun st => length (fst st))); [| |done|cbn; lia].
  - intros st _. apply dechunk_turn_safe.
  - intros st st' _ H. split; [done|]. by apply dechunk_turn_safe.
Qed.

(** The chunked coding is read back: a body written as chunks of any sizes,
    with any extensions, closed by an empty chunk and any trailer, gives the
    concatenation of the chunks. On any input whatever the reader stops, with
    a body or an error. *)
Theorem dechunk_reads_back (cs : list (bytes * str)) (last trailer : str)
    (Hcs : Forall (fun '(c, ext) => c <> [] /\ Z.of_nat (length c) <= USIZE_MAX /\ chunk_ext ext) cs) (Hl : chunk_ext last) :
  dechunk (chunked_body cs last trailer) = Ok (concat (map fst cs)) /\ (forall data, no_panic (dechunk data)).
Proof.
  split; [|apply dechunk_total]. unfold dechunk.
  assert (length cs < S (length (chunked_body cs last trailer)))%nat as Hf.
  { unfold chunked_body. rewrite length_app. induction Hcs as [|[c ext] cs [Hn _] _ IH]; cbn [map concat length]; [lia|].
    assert (0 < length (chunk c ext))%nat by (unfold chunk; rewrite !length_app; change (length CRLF) with 2%nat; lia).
    rewrite length_app. lia. }
  revert Hf. generalize (S (length (chunked_body cs last trailer))). intros fuel Hf.
  change (Ok (concat (map fst cs))) with (Ok (E := io_error) (([] : bytes) ++ concat (map fst cs))).
  generalize ([] : bytes) as out. unfold chunked_body. revert fuel Hf.
  induction Hcs as [|[c ext] cs (Hn & Hc & He) _ IH]; intros fuel Hf out; (destruct fuel as [|fuel]; [cbn in Hf; lia|]); cbn [map concat loop fst].
  - cbn [app]. rewrite dechunk_turn_last by done. cbn [mbind res_bind]. by rewrite app_nil_r.
  - rewrite <- app_assoc, dechunk_turn_chunk by done. cbn [mbind res_bind]. rewrite IH by (cbn in Hf; lia). by rewrite <- app_assoc.
Qed.

(** The body of the test of [subscription.rs], with an extension. *)
Lemma dechunk_reads_back_witness :
  let cs : list (bytes * str) := [(lit "Wiki", lit ";a=b"); (lit "pedia", [])] in
  chunked_body cs [] CRLF = lit "4;a=b" ++ CRLF ++ lit "Wiki" ++ CRLF ++ lit "5" ++ CRLF ++ lit "pedia" ++ CRLF ++ lit "0" ++ CRLF ++ CRLF /\
  dechunk (chunked_body cs [] CRLF) = Ok (lit "Wikipedia").
Proof.
  intros cs. split; [vm_compute; reflexivity|]. refine (proj1 (dechunk_reads_back cs [] CRLF _ _)).
  - assert (chunk_ext (lit ";a=b") /\ chunk_ext []) as [H1 H2]
      by (split; (split; [by (left + right)|split; [done|apply (bool_decide_unpack _); vm_compute; exact I]])).
    repeat constructor; try discriminate; apply H1 || apply H2.
  - split; [by left|split; [done|apply (bool_decide_unpack _); vm_compute; exact I]].
Defined.

(** ** Lemmas: a response never panics *)

Lemma lower_colon c : lower_byte c = ":"%char -> c = ":"%char.
Proof.
  intros H. assert (val8 (lower_byte c) = 58) as Hv by by rewrite H. pose proof (val8_range c) as Hr.
  unfold lower_byte in Hv. destruct ((65 <=? val8 c) && (val8 c <=? 90)) eqn:E.
  - rewrite val8_to_u8, Z.mod_small in Hv by lia. lia.
  - by apply val8_inj.
Qed.

(** A header recognised by its name has a colon. *)
Lemma header_value_ok p l : starts_with (p ++ ":") (to_ascii_lowercase l) = true -> no_panic (header_value l).
Proof.
  intros H. unfold header_value. destruct (find_byte (is_char ":"%char) l) as [i|] eqn:E; [done|exfalso].
  apply starts_with_spec in H as [k Hk]. rewrite find_byte_None in E.
  assert (":"%char ∈ to_ascii_lowercase l) as Hin by (rewrite Hk; rewrite !elem_of_app; left; right; left).
  unfold to_ascii_lowercase in Hin. apply list_elem_of_fmap in Hin as (c & Hc & Hin).
  symmetry in Hc. apply lower_colon in Hc. subst c. pose proof (proj1 (Forall_forall _ _) E _ Hin) as Hf. by vm_compute in Hf.
Qed.

Lemma scan_headers_safe ls : forall st, no_panic (scan_headers st ls).
Proof.
  induction ls as [|l ls IH]; intros [[loc ch] ti]; [done|]. cbn [scan_headers]. apply no_panic_bind; [|by auto].
  unfold scan_header. apply no_panic_bind.
  - destruct (starts_with "location:" _) eqn:E; [|done]. apply no_panic_bind; [|done]. by apply (header_value_ok "location").
  - intros loc' _. apply no_panic_bind; [|done]. destruct (starts_with "profile-title:" _) eqn:E; [|done].
    apply no_panic_bind; [|done]. by apply (header_value_ok "profile-title").
Qed.

Lemma read_response_safe raw : no_panic (read_response raw).
Proof.
  unfold read_response. apply no_panic_bind; [auto with resdb|]. intros sep _. cbv zeta.
  apply no_panic_bind; [apply scan_headers_safe|]. intros [[loc ch] ti] _. apply no_panic_bind; [|done].
  destruct ch; [apply dechunk_total|done].
Qed.

Lemma parse_url_safe url : no_panic (parse_url url).
Proof.
  unfold parse_url. apply no_panic_bind; [repeat case_match; done|]. intros [[sch rest] p] _.
  destruct (split_path "/" rest) as [a path]. case_match; [done|]. apply no_panic_bind; [|by intros [? ?]].
  unfold host_port. repeat case_match; try done. apply no_panic_bind; [auto with resdb|done].
Qed.

(** ** Specification: chains of redirects *)

Section redirects.
Context (exchange : Scheme -> str -> Z -> bytes -> option (res io_error bytes)).

(** [hops url n r]: after [n] requests, each answered by a redirect but the
    last, the response is [r]. *)
Inductive hops : str -> nat -> RawResp -> Prop :=
| hop_last url r : fetch_raw exchange url = Some (Ok r) -> rr_status r = 200 -> hops url 1 r
| hop_next url r loc next n r' :
    fetch_raw exchange url = Some (Ok r) -> is_redirect (rr_status r) = true ->
    rr_location r = Some loc -> next_url url loc = Ok next -> hops next n r' -> hops url (S n) r'.

Lemma follow_spec tx : forall n url r, follow exchange tx n url = Ok r <-> exists k, (k <= n)%nat /\ hops url k r.
Proof.
  induction n as [|n IH]; intros url r; cbn [follow].
  - split; [done|]. intros (k & Hk & H). assert (k = 0%nat) as -> by lia. inversion H.
  - split.
    + destruct (fetch_raw exchange url) as [[resp|e|]|] eqn:Ef; cbn [mbind res_bind]; [|done..].
      destruct (Z.eqb_spec (rr_status resp) 200) as [Hs|Hs].
      * intros [= <-]. exists 1%nat. split; [lia|by constructor].
      * destruct (is_redirect (rr_status resp)) eqn:Er; [|done].
        destruct (rr_location resp) as [loc|] eqn:El; cbn [ok_or mbind res_bind]; [|done].
        destruct (next_url url loc) as [next|e|] eqn:En; cbn [mbind res_bind]; [|done..].
        intros (k & Hk & H)%IH. exists (S k). split; [lia|]. by eapply hop_next.
    + intros (k & Hk & H). inversion H as [? ? Hf Hs|? resp loc next k' ? Hf Hr Hl Hn Hh]; subst; rewrite Hf; cbn [mbind res_bind].
      * by rewrite Hs.
      * assert (rr_status resp <> 200) as Hne by (intros E; by rewrite E in Hr).
        rewrite (proj2 (Z.eqb_neq _ _) Hne), Hr, Hl. cbn [ok_or mbind res_bind]. rewrite Hn. cbn [mbind res_bind].
        apply IH. exists k'. split; [lia|done].
Qed.

Lemma follow_safe tx : (forall sch h p b r, exchange sch h p b = Some r -> no_panic r) ->
  forall n url, no_panic (follow exchange tx n url).
Proof.
  intros Hx. induction n as [|n IH]; intros url; cbn [follow]; [done|].
  assert (forall r, fetch_raw exchange url = Some r -> no_panic r) as Hf.
  { intros r. unfold fetch_raw. pose proof (parse_url_safe url) as Hu. destruct (parse_url url) as [[[[sch h] p] path]|e|]; [| |done].
    - destruct (exchange sch h p _) as [x|] eqn:E; [|done]. intros [= <-]. apply no_panic_bind; [by eapply Hx|].
      intros raw _. apply read_response_safe.
    - by intros [= <-]. }
  destruct (fetch_raw exchange url) as [r|]; [|done]. apply no_panic_bind; [by apply Hf|]. intros resp _.
  case_match; [done|]. case_match; [|done]. apply no_panic_bind; [auto with resdb|]. intros loc _.
  apply no_panic_bind; [|auto]. unfold next_url. case_match; [done|].
  apply no_panic_bind; [apply parse_url_safe|]. by intros [[[? ?] ?] ?].
Qed.

(** C40. Redirects are followed at most five times: a download succeeds exactly
    when one of the first six requests, reached from the URL by redirects that
    name their destination, is answered with 200, and gives that answer's body
    (and, for a subscription, its title). Whatever the servers answer, the
    fetch ends with a result or an error. *)
Theorem redirects_are_bounded (url : str) (Hx : forall sch h p b r, exchange sch h p b = Some r -> no_panic r) :
  (forall b, fetch_bytes exchange url = Ok b <-> exists n r, (n <= 6)%nat /\ hops url n r /\ b = rr_body r) /\
  (forall s title, fetch_string_with_title exchange url = Ok (s, title) <->
     exists n r, (n <= 6)%nat /\ hops url n r /\ s = from_utf8_lossy (rr_body r) /\ title = rr_title r) /\
  no_panic (fetch_bytes exchange url) /\ no_panic (fetch_string_with_title exchange url).
Proof.
  unfold fetch_bytes, fetch_string_with_title.
  assert (forall tx A (f : RawResp -> A) a, f <$> follow exchange tx MAX_HOPS url = Ok a <->
            exists n r, (n <= 6)%nat /\ hops url n r /\ a = f r) as H.
  { intros tx A f a. split.
    - destruct (follow exchange tx MAX_HOPS url) as [r|e|] eqn:E; cbn; [|done..]. intros [= <-].
      apply follow_spec in E as (k & Hk & Hh). by exists k, r.
    - intros (n & r & Hn & Hh & ->). by rewrite (proj2 (follow_spec tx MAX_HOPS url r) (ex_intro _ n (conj Hn Hh))). }
  split; [intros b; apply H|]. split.
  - intros s title. rewrite H. split; intros (n & r & Hn & Hh & He); exists n, r; [by simplify_eq|by destruct He as [-> ->]].
  - pose proof (fun tx => follow_safe tx Hx MAX_HOPS url) as Hs.
    split; (match goal with |- no_panic (_ <$> follow _ ?tx _ _) => specialize (Hs tx); by destruct (follow exchange tx MAX_HOPS url) end).
Qed.

End redirects.

(** One redirect: the first host sends to the second, which answers in chunks. *)
Definition example_exchange (sch : Scheme) (host : str) (port : Z) (req : bytes) : option (res io_error bytes) :=
  if bool_decide (host = lit "a") then Some (Ok (lit "HTTP/1.1 302 Found" ++ CRLF ++ lit "Location: http://b:81/y" ++ LFCR))
  else Some (Ok (lit "HTTP/1.1 200 OK" ++ CRLF ++ lit "Profile-Title: My Sub" ++ CRLF ++ lit "Transfer-Encoding: chunked" ++ LFCR
                 ++ chunked_body [(lit "ss://", [])] [] CRLF)).

Lemma redirects_are_bounded_witness :
  (forall sch h p b r, example_exchange sch h p b = Some r -> no_panic r) /\
  fetch_string_with_title example_exchange (lit "http://a/x") = Ok (lit "ss://", Some (lit "My Sub")) /\
  exists n r, (n <= 6)%nat /\ hops example_exchange (lit "http://a/x") n r /\ lit "ss://" = rr_body r.
Proof.
  assert (forall sch h p b r, example_exchange sch h p b = Some r -> no_panic r) as Hx
    by (intros sch h p b r; unfold example_exchange; case_match; by intros [= <-]).
  assert (fetch_bytes example_exchange (lit "http://a/x") = Ok (lit "ss://")) as Hb by by vm_compute.
  split; [done|]. split; [by vm_compute|].
  exact (proj1 (proj1 (redirects_are_bounded example_exchange (lit "http://a/x") Hx) (lit "ss://")) Hb).
Defined.

(** ** URLs, and redirects relative to them *)

Definition scheme_text (s : Scheme) : str := match s with SchemeHttps => "https://" | SchemeHttp => "http://" end.

(** A host as a URL can hold it. *)
Definition url_host (h : str) : Prop := h <> [] /\ "/"%char ∉ h /\ ":"%char ∉ h.

Lemma parse_url_show sch h p path : url_host h -> 0 <= p <= 65535 -> head path = Some "/"%char ->
  parse_url (scheme_text sch ++ h ++ ":" ++ show_uint p ++ path) = Ok (sch, h, p, path) /\
  parse_url (scheme_text sch ++ h ++ path) = Ok (sch, h, match sch with SchemeHttps => 443 | SchemeHttp => 80 end, path).
Proof.
  intros (Hn & Hs & Hc) Hp Hh. unfold parse_url.
  assert (forall t, (match strip_prefix "https://" (scheme_text sch ++ t) with
     | Some r => Ok (SchemeHttps, r, 443)
     | None => match strip_prefix "http://" (scheme_text sch ++ t) with
               | Some r => Ok (SchemeHttp, r, 80) | None => Err (IoOther "подписка: только http:// и https://") end
     end) = Ok (sch, t, match sch with SchemeHttps => 443 | SchemeHttp => 80 end)) as Hpre.
  { intros t. destruct sch.
    - assert (strip_prefix "https://" (scheme_text SchemeHttp ++ t) = None) as -> by reflexivity.
      by rewrite (proj2 (strip_prefix_Some "http://" _ t)).
    - by rewrite (proj2 (strip_prefix_Some "https://" _ t)). }
  rewrite !Hpre. cbn [mbind res_bind].
  assert ("/"%char ∉ h ++ lit ":" ++ show_uint p) as Hs'.
  { rewrite !elem_of_app. intros [H|[H|H]]; [done|by apply list_elem_of_singleton in H|]. apply show_uint_no in H; [done|lia|done]. }
  replace (h ++ ":" ++ show_uint p ++ path)%list with ((h ++ lit ":" ++ show_uint p) ++ path)%list by by rewrite <- !app_assoc.
  rewrite !split_path_app by done. rewrite !bool_decide_eq_false_2; [|done|intros E; by apply app_eq_nil in E as [E _]].
  by rewrite host_port_show, host_port_plain.
Qed.

(** A redirect whose [Location] is a path loses the port: it leads to the
    same host, but to port 80 or 443, whatever the port of the URL that
    answered; a [Location] with the scheme is followed as it is. *)
Theorem relative_redirect_loses_port (sch : Scheme) (h path loc : str) (p : Z)
    (Hh : url_host h) (Hp : 0 <= p <= 65535) (Hpath : head path = Some "/"%char) (Hloc : head loc = Some "/"%char) :
  let url := scheme_text sch ++ h ++ ":" ++ show_uint p ++ path in
  parse_url url = Ok (sch, h, p, path) /\
  next_url url (scheme_text sch ++ h ++ ":" ++ show_uint p ++ loc) = Ok (scheme_text sch ++ h ++ ":" ++ show_uint p ++ loc) /\
  exists next, next_url url loc = Ok next /\
    parse_url next = Ok (sch, h, match sch with SchemeHttps => 443 | SchemeHttp => 80 end, loc).
Proof.
  intros url. pose proof (proj1 (parse_url_show sch h p path Hh Hp Hpath)) as Hu. fold url in Hu.
  split; [done|]. split; [by destruct sch|]. exists (scheme_text sch ++ h ++ loc). split.
  - unfold next_url. assert (starts_with "http" loc = false) as -> by (destruct loc; cbn in Hloc; simplify_eq; done).
    rewrite Hu. cbn [mbind res_bind]. by destruct sch.
  - by apply (parse_url_show sch h p loc).
Qed.

Lemma relative_redirect_loses_port_witness :
  url_host (lit "h") /\
  exists next, next_url (scheme_text SchemeHttp ++ lit "h" ++ ":" ++ show_uint 8080 ++ lit "/a") (lit "/b") = Ok next /\
    parse_url next = Ok (SchemeHttp, lit "h", 80, lit "/b").
Proof.
  assert (url_host (lit "h")) as Hh by (split; [done|]; split; apply (bool_decide_unpack _); vm_compute; exact I).
  split; [done|]. apply (relative_redirect_loses_port SchemeHttp (lit "h") (lit "/a") (lit "/b") 8080 Hh); [lia|done..].
Defined.
