(* ===== verification/Nodes.v ===== *)
(** * Nodes and subscriptions of the configuration
    ([crates/cli/src/lib.rs], [crates/net/src/subscription.rs])

    What the commands do to the loaded configuration before it is saved. The
    download of a subscription is an argument (its model is [SubFetch.v]). *)

From S2P Require Import Prelude RustStr NetAddr Model Config.

(** Replacing one field. *)
Definition with_subscriptions (c : AppConfig) (l : list Subscription) : AppConfig := {|
  ac_servers := ac_servers c; ac_subscriptions := l; ac_rules := ac_rules c; ac_split := ac_split c;
  ac_settings := ac_settings c; ac_dns := ac_dns c; ac_geo := ac_geo c; ac_local_wg := ac_local_wg c;
  ac_socks_proxies := ac_socks_proxies c |}.

Definition with_settings (c : AppConfig) (s : Settings) : AppConfig := {|
  ac_servers := ac_servers c; ac_subscriptions := ac_subscriptions c; ac_rules := ac_rules c; ac_split := ac_split c;
  ac_settings := s; ac_dns := ac_dns c; ac_geo := ac_geo c; ac_local_wg := ac_local_wg c;
  ac_socks_proxies := ac_socks_proxies c |}.

Definition with_dns (c : AppConfig) (d : DnsConfig) : AppConfig := {|
  ac_servers := ac_servers c; ac_subscriptions := ac_subscriptions c; ac_rules := ac_rules c; ac_split := ac_split c;
  ac_settings := ac_settings c; ac_dns := d; ac_geo := ac_geo c; ac_local_wg := ac_local_wg c;
  ac_socks_proxies := ac_socks_proxies c |}.

Definition with_name (s : ServerProfile) (name : str) : ServerProfile := {|
  sp_name := name; sp_protocol := sp_protocol s; sp_address := sp_address s; sp_port := sp_port s;
  sp_params := sp_params s; sp_tags := sp_tags s |}.

Definition with_tags (s : ServerProfile) (tags : list str) : ServerProfile := {|
  sp_name := sp_name s; sp_protocol := sp_protocol s; sp_address := sp_address s; sp_port := sp_port s;
  sp_params := sp_params s; sp_tags := tags |}.

Definition with_tag (s : Subscription) (t : option str) : Subscription := {|
  sub_url := sub_url s; sub_tag := t; sub_update_interval_hours := sub_update_interval_hours s |}.

(** ** A name that is not used yet

    The loop both functions below share: [cur], then [base (2)], [base (3)] and
    so on. The names used are finite, so that one more turn than their number is
    enough. *)

Definition numbered (base : str) (n : Z) : str := base ++ " (" ++ show_uint n ++ ")".

Fixpoint pick (fuel : nat) (used : list str) (base : str) (n : Z) (cur : str) : str :=
  if decide (cur ∈ used) then
    match fuel with
    | O => cur
    | S fuel => pick fuel used base (n + 1) (numbered base n)
    end
  else cur.

Definition free_name (used : list str) (base : str) : str := pick (length used) used base 2 base.

(** ** Node names: [ensure_distinct_node_names], [sanitize_config] *)

Fixpoint distinct_names (used : list str) (l : list ServerProfile) : list ServerProfile :=
  match l with
  | [] => []
  | s :: l =>
      let s' :=
        if decide (sp_name s ∈ used)
        then with_name s (free_name used (sp_name s ++ " · " ++ sp_address s ++ ":" ++ show_uint (sp_port s)))
        else s in
      s' :: distinct_names (sp_name s' :: used) l
  end.

Definition ensure_distinct_node_names (cfg : AppConfig) : AppConfig := with_servers cfg (distinct_names [] (ac_servers cfg)).

(** [s.parse::<Ipv4Addr>().is_ok()] and the prefix *)
Definition valid_cidr (s : str) : bool :=
  match split_once "/"%char s with
  | Some (ip, pfx) =>
      (match read_ipv4 (trim ip) with Some (_, []) => true | _ => false end)
      && match parse_u8 (trim pfx) with Some p => p <=? 32 | None => false end
  | None => false
  end.

Definition sanitize_config (cfg : AppConfig) : AppConfig :=
  let d := ac_dns cfg in
  let cfg :=
    if valid_cidr (fi_range (dns_fakeip d)) then cfg
    else with_dns cfg {| dns_servers := dns_servers d;
                         dns_fakeip := {| fi_enabled := fi_enabled (dns_fakeip d); fi_range := "198.18.0.0/15" |} |} in
  ensure_distinct_node_names cfg.

(** ** Subscriptions: their tags *)

(** [sub_host]: [url.split(sep).nth(1)] is what lies between the first two
    separators. *)
Definition sub_host (url : str) : str :=
  let rest :=
    match find_str "://" url with
    | Some i =>
        let r := drop (i + 3) url in
        match find_str "://" r with Some j => take j r | None => r end
    | None => url
    end in
  default url (head (split_char "/"%char rest)).

Definition blank (t : str) : bool := bool_decide (trim t = []).

(** [sub_tag] of [subscription.rs] *)
Definition tag_of (sub : Subscription) : str :=
  match sub_tag sub with
  | Some t => if blank t then sub_host (sub_url sub) else t
  | None => sub_host (sub_url sub)
  end.

(** [tag_servers]; [s.tags.iter().any(|t| t == tag)] is [has_tag]. *)
Definition has_tag (tag : str) (s : ServerProfile) : bool := bool_decide (tag ∈ sp_tags s).

Definition tag_servers (servers : list ServerProfile) (tag : str) : list ServerProfile :=
  map (fun p => if has_tag tag p then p else with_tags p (sp_tags p ++ [tag])) servers.

(** [merge_subscription] *)
Definition merge_subscription (cfg : AppConfig) (sub : Subscription) (new_servers : list ServerProfile) : AppConfig :=
  let tag := tag_of sub in
  let incoming := map sp_name new_servers in
  with_servers cfg
    (filter (fun s => has_tag tag s = false /\ sp_name s ∉ incoming) (ac_servers cfg) ++ new_servers).

(** [ensure_distinct_sub_tags]: the base of a tag is that of [tag_of]. *)
Fixpoint distinct_tags (used : list str) (l : list Subscription) : list Subscription * bool :=
  match l with
  | [] => ([], false)
  | s :: l =>
      let tag := free_name used (tag_of s) in
      let '(l', changed) := distinct_tags (tag :: used) l in
      if decide (sub_tag s = Some tag) then (s :: l', changed) else (with_tag s (Some tag) :: l', true)
  end.

Definition ensure_distinct_sub_tags (cfg : AppConfig) : AppConfig * bool :=
  let '(l, changed) := distinct_tags [] (ac_subscriptions cfg) in (with_subscriptions cfg l, changed).

(** ** The commands *)

(** [apply_add_subscription], [add_subscription] *)
Definition apply_add_subscription (cfg : AppConfig) (sub : Subscription) : AppConfig * bool :=
  if existsb (fun s => bool_decide (sub_url s = sub_url sub)) (ac_subscriptions cfg) then (cfg, false)
  else (with_subscriptions cfg (ac_subscriptions cfg ++ [sub]), true).

Definition add_subscription (cfg : AppConfig) (url : str) (tag : option str) (interval_hours : Z) : res str (AppConfig * bool) :=
  let url := trim url in
  if negb (starts_with "http://" url || starts_with "https://" url)
  then Err (lit "URL подписки должен начинаться с http:// или https://") else
  let tag := t ← (trim <$> tag); if bool_decide (t = []) then None else Some t in
  let sub := {| sub_url := url; sub_tag := tag;
                sub_update_interval_hours := if interval_hours =? 0 then 12 else interval_hours |} in
  let '(cfg, added) := apply_add_subscription cfg sub in
  Ok (if added : bool then (fst (ensure_distinct_sub_tags cfg), true) else (cfg, false)).

(** [apply_remove_subscription] *)
Definition apply_remove_subscription (cfg : AppConfig) (url : str) : AppConfig * bool :=
  match list_find (fun s => sub_url s = url) (ac_subscriptions cfg) with
  | None => (cfg, false)
  | Some (_, sub) =>
      let tag := tag_of sub in
      let cfg := with_subscriptions cfg (filter (fun s => sub_url s <> url) (ac_subscriptions cfg)) in
      (with_servers cfg (filter (fun s => has_tag tag s = false) (ac_servers cfg)), true)
  end.

(** The old nodes of a tag are replaced by new ones. *)
Definition pour (servers : list ServerProfile) (tag : str) (new_servers : list ServerProfile) : list ServerProfile :=
  filter (fun s => has_tag tag s = false) servers ++ tag_servers new_servers tag.

Definition set_title (sub : Subscription) (title : option str) : Subscription :=
  match title with Some t => with_tag sub (Some t) | None => sub end.

Section fetch.
(** [subscription::update_subscription]: the nodes and the title, or an error. *)
Context (fetch : Subscription -> (list ServerProfile * option str) + str).

(** What is reported of a subscription: the nodes, or the error. *)
Record SubUpdate : Type := mkUpdate { su_url : str; su_count : option nat; su_error : option str }.

(** The first pass over one subscription. *)
Definition fetch_one (sub : Subscription) : Subscription * option (list ServerProfile) * SubUpdate :=
  match fetch sub with
  | inl (servers, title) => (set_title sub title, Some servers, mkUpdate (sub_url sub) (Some (length servers)) None)
  | inr e => (sub, None, mkUpdate (sub_url sub) None (Some e))
  end.

(** The second pass. *)
Definition pour_all (servers : list ServerProfile) (fetched : list (Subscription * option (list ServerProfile))) : list ServerProfile :=
  fold_left (fun servers '(sub, new_servers) =>
    match new_servers with Some l => pour servers (tag_of sub) l | None => servers end) fetched servers.

Definition update_subscriptions (cfg : AppConfig) : AppConfig * list SubUpdate :=
  let first := map fetch_one (ac_subscriptions cfg) in
  let cfg := with_subscriptions cfg (map (fst ∘ fst) first) in
  let cfg := fst (ensure_distinct_sub_tags cfg) in
  (with_servers cfg (pour_all (ac_servers cfg) (zip (ac_subscriptions cfg) (map (snd ∘ fst) first))), map snd first).

Definition update_one_subscription (cfg : AppConfig) (url : str) : res str (AppConfig * nat) :=
  match list_find (fun s => sub_url s = url) (ac_subscriptions cfg) with
  | None => Err (lit "подписка не найдена: " ++ url)
  | Some (idx, sub) =>
      '(servers, title) ← match fetch sub with inl r => Ok r | inr e => Err e end;
      let cfg := with_subscriptions cfg (<[idx := set_title sub title]> (ac_subscriptions cfg)) in
      let cfg := fst (ensure_distinct_sub_tags cfg) in
      sub ← unwrap (ac_subscriptions cfg !! idx);
      Ok (with_servers cfg (pour (ac_servers cfg) (tag_of sub) servers), length servers)
  end.

End fetch.

(** [clear_subscription_nodes]: the nodes with a subscription's tag, or with a
    name of the form group · node. *)
Definition clear_subscription_nodes (cfg : AppConfig) : AppConfig * nat :=
  let tags := map tag_of (ac_subscriptions cfg) in
  let kept := filter (fun s => existsb (fun t => bool_decide (t ∈ tags)) (sp_tags s) = false /\ contains " · " (sp_name s) = false) (ac_servers cfg) in
  (with_servers cfg kept, (length (ac_servers cfg) - length kept)%nat).

(** [apply_remove] *)
Definition apply_remove (cfg : AppConfig) (name : str) : AppConfig * bool :=
  let kept := filter (fun s => sp_name s <> name) (ac_servers cfg) in
  let removed := negb (length kept =? length (ac_servers cfg))%nat in
  let cfg := with_servers cfg kept in
  let s := ac_settings cfg in
  (if removed && bool_decide (st_default_proxy s = Some name)
   then with_settings cfg {| st_default_to_proxy := st_default_to_proxy s; st_default_proxy := None;
                             st_listen := st_listen s; st_proxy_node := st_proxy_node s |}
   else cfg, removed).

(** ** Lemmas: unused names *)

Lemma show_uint_inj a b : 0 <= a -> 0 <= b -> show_uint a = show_uint b -> a = b.
Proof.
  intros Ha Hb H. pose proof (parse_show_uint (a + b) a ltac:(lia)) as H1. pose proof (parse_show_uint (a + b) b ltac:(lia)) as H2.
  congruence.
Qed.

Lemma numbered_inj base a b : 0 <= a -> 0 <= b -> numbered base a = numbered base b -> a = b.
Proof.
  unfold numbered. intros Ha Hb H. apply app_inv_head in H. cbn in H. simplify_eq.
  apply app_inj_tail in H as [H _]. by apply show_uint_inj.
Qed.

Lemma numbered_base base n : numbered base n <> base.
Proof.
  unfold numbered. intros H. apply (f_equal length) in H. rewrite length_app in H. cbn in H. lia.
Qed.

(** Where the loop stops on a used name, all the candidates were used. *)
Lemma pick_used used base : forall fuel n cur, 0 <= n -> pick fuel used base n cur ∈ used ->
  cur ∈ used /\ forall k, n <= k < n + Z.of_nat fuel -> numbered base k ∈ used.
Proof.
  induction fuel as [|fuel IH]; intros n cur Hn; cbn [pick]; destruct (decide (cur ∈ used)) as [Hc|Hc]; intros H; try done.
  - split; [done|]. intros k Hk. lia.
  - apply IH in H as [H1 H2]; [|lia]. split; [done|]. intros k Hk.
    destruct (decide (k = n)) as [->|]; [done|]. apply H2. lia.
Qed.

Lemma free_name_fresh used base : free_name used base ∉ used.
Proof.
  intros H. apply pick_used in H as [Hb Hk]; [|lia].
  set (l := base :: map (fun k => numbered base (Z.of_nat k)) (seq 2 (length used))).
  assert (NoDup l) as Hnd.
  { constructor.
    - intros Hin. apply list_elem_of_fmap in Hin as (k & Hk' & _). symmetry in Hk'. by apply numbered_base in Hk'.
    - apply NoDup_fmap_2_strong; [|apply NoDup_seq]. intros a b _ _ E. apply numbered_inj in E; lia. }
  assert (l ⊆ used) as Hsub.
  { intros c Hc. apply elem_of_cons in Hc as [->|Hc]; [done|]. apply list_elem_of_fmap in Hc as (k & -> & Hin).
    apply elem_of_seq in Hin. apply Hk. lia. }
  apply NoDup_submseteq in Hsub; [|done]. apply submseteq_length in Hsub. unfold l in Hsub.
  cbn [length] in Hsub. rewrite length_map, length_seq in Hsub. lia.
Qed.

Lemma pick_free fuel used base n cur : cur ∉ used -> pick fuel used base n cur = cur.
Proof. intros H. destruct fuel; cbn [pick]; by rewrite decide_False. Qed.

Lemma free_name_base used base : base ∉ used -> free_name used base = base.
Proof. apply pick_free. Qed.

(** What the loop gives: the base, or the base with a number. *)
Lemma pick_shape used base : forall fuel n cur, pick fuel used base n cur = cur \/ exists k, pick fuel used base n cur = numbered base k.
Proof.
  induction fuel as [|fuel IH]; intros n cur; cbn [pick]; destruct (decide (cur ∈ used)); try by left.
  right. destruct (IH (n + 1) (numbered base n)) as [->|[k ->]]; by eexists.
Qed.

(** ** Lemmas: blank texts *)

Lemma not_blank s c : graphic c = true -> blank (s ++ [c]) = false.
Proof.
  intros Hc. apply bool_decide_eq_false_2. unfold trim, trim_start.
  destruct (trim_loop_keeps whitespace c ltac:(by vm_compute) Hc (length (s ++ [c])) s) as [s' ->].
  rewrite trim_end_graphic by done. by destruct s'.
Qed.

(** A tag given by the loop is the tag the subscription goes by. *)
Lemma tag_of_free used s : tag_of (with_tag s (Some (free_name used (tag_of s)))) = free_name used (tag_of s).
Proof.
  unfold tag_of at 1. cbn [sub_tag with_tag sub_url]. unfold free_name.
  destruct (pick_shape used (tag_of s) (length used) 2 (tag_of s)) as [->|[k ->]].
  - destruct (blank (tag_of s)) eqn:E; [|done]. unfold tag_of in *. destruct (sub_tag s) as [t|]; [|done].
    destruct (blank t) eqn:Et; [done|congruence].
  - unfold numbered. by rewrite !app_assoc, (not_blank _ ")"%char).
Qed.

(** ** Tags become distinct *)

Lemma distinct_tags_spec l : forall used, let '(l', changed) := distinct_tags used l in
  map sub_url l' = map sub_url l /\ NoDup (map tag_of l') /\ (forall t, t ∈ map tag_of l' -> t ∉ used) /\
  Forall (fun s => sub_tag s = Some (tag_of s)) l' /\ (if changed : bool then l' <> l else l' = l).
Proof.
  induction l as [|s l IH]; intros used; cbn [distinct_tags].
  - cbn. split_and!; [done|constructor|by intros t ?%elem_of_nil|constructor|done].
  - set (tag := free_name used (tag_of s)). specialize (IH (tag :: used)).
    destruct (distinct_tags (tag :: used) l) as [l' changed]. destruct IH as (Hu & Hnd & Hnew & Ht & Hch).
    assert (forall s', sub_url s' = sub_url s -> sub_tag s' = Some tag -> tag_of s' = tag ->
      map sub_url (s' :: l') = map sub_url (s :: l) /\ NoDup (map tag_of (s' :: l')) /\
      (forall t, t ∈ map tag_of (s' :: l') -> t ∉ used) /\ Forall (fun s => sub_tag s = Some (tag_of s)) (s' :: l')) as Hcons.
    { intros s' H1 H2 H3. cbn [map]. rewrite H1, H3, Hu. split_and!; [done| | |].
      - constructor; [|done]. intros Hin. apply (Hnew tag Hin). left.
      - intros t [->|Hin]%elem_of_cons; [apply free_name_fresh|]. intros H. apply (Hnew t Hin). by right.
      - constructor; [by rewrite H3|done]. }
    pose proof (tag_of_free used s) as Hf. fold tag in Hf.
    destruct (decide (sub_tag s = Some tag)) as [He|He].
    + assert (with_tag s (Some tag) = s) as Heq by (rewrite <- He; by destruct s). rewrite Heq in Hf.
      destruct (Hcons s eq_refl He Hf) as (? & ? & ? & ?). split_and!; try done. destruct changed; [congruence|by rewrite Hch].
    + destruct (Hcons (with_tag s (Some tag)) eq_refl eq_refl Hf) as (? & ? & ? & ?). split_and!; try done.
      intros E. apply He. by inversion E as [[E1 E2]]; rewrite <- E1.
Qed.

(** Distinct tags are left as they are. *)
Lemma distinct_tags_id l : forall used, NoDup (map tag_of l) -> (forall t, t ∈ map tag_of l -> t ∉ used) ->
  Forall (fun s => sub_tag s = Some (tag_of s)) l -> distinct_tags used l = (l, false).
Proof.
  induction l as [|s l IH]; intros used Hnd Hnew Ht; [done|]. cbn [distinct_tags map] in *.
  apply NoDup_cons in Hnd as [Hs Hnd]. apply Forall_cons in Ht as [Hst Ht].
  rewrite (free_name_base used) by (apply Hnew; left). rewrite IH; [by rewrite decide_True|done| |done].
  intros t Hin [->|Hu]%elem_of_cons; [done|]. by apply (Hnew t); [right|].
Qed.

(** After [ensure_distinct_sub_tags] every subscription has a tag of its
    own: the tags are pairwise different and are the ones the subscriptions go
    by, the subscriptions and the rest of the configuration are otherwise as
    before, the result says whether anything changed, and a second run changes
    nothing. *)
Theorem tags_become_distinct (cfg : AppConfig) :
  let '(cfg', changed) := ensure_distinct_sub_tags cfg in
  NoDup (map tag_of (ac_subscriptions cfg')) /\
  Forall (fun s => sub_tag s = Some (tag_of s)) (ac_subscriptions cfg') /\
  map sub_url (ac_subscriptions cfg') = map sub_url (ac_subscriptions cfg) /\
  with_subscriptions cfg' (ac_subscriptions cfg) = cfg /\
  (changed = true <-> cfg' <> cfg) /\
  ensure_distinct_sub_tags cfg' = (cfg', false).
Proof.
  unfold ensure_distinct_sub_tags. pose proof (distinct_tags_spec (ac_subscriptions cfg) []) as H.
  destruct (distinct_tags [] (ac_subscriptions cfg)) as [l changed]. destruct H as (Hu & Hnd & _ & Ht & Hch).
  cbn [ac_subscriptions with_subscriptions]. split_and!; try done.
  - by destruct cfg.
  - destruct changed; split; try done.
    + intros _ E. apply Hch. by apply (f_equal ac_subscriptions) in E.
    + intros E. exfalso. apply E. rewrite Hch. by destruct cfg.
  - rewrite distinct_tags_id; [done|done| |done]. by intros t _ ?%elem_of_nil.
Qed.

(** ** Node names become distinct *)

Lemma distinct_names_spec l : forall used,
  let l' := distinct_names used l in
  NoDup (map sp_name l') /\ (forall n, n ∈ map sp_name l' -> n ∉ used) /\
  Forall2 (fun s s' => s' = with_name s (sp_name s')) l l' /\
  (forall i s s', l !! i = Some s -> l' !! i = Some s' -> sp_name s' = sp_name s \/ sp_name s ∈ used ++ map sp_name (take i l')).
Proof.
  induction l as [|s l IH]; intros used; cbn [distinct_names].
  - cbn. split_and!; [constructor|by intros ? ?%elem_of_nil|constructor|done].
  - set (s' := if decide (sp_name s ∈ used)
               then with_name s (free_name used (sp_name s ++ " · " ++ sp_address s ++ ":" ++ show_uint (sp_port s))) else s).
    cbv zeta.
    assert (sp_name s' ∉ used) as Hfresh
      by (unfold s'; destruct (decide (sp_name s ∈ used)); [apply free_name_fresh|done]).
    destruct (IH (sp_name s' :: used)) as (Hnd & Hnew & Hf & Hk). cbn [map]. split_and!.
    + constructor; [|done]. intros Hin. apply (Hnew _ Hin). left.
    + intros n [->|Hin]%elem_of_cons; [done|]. intros H. apply (Hnew n Hin). by right.
    + constructor; [|done]. unfold s'. destruct (decide (sp_name s ∈ used)); [done|by destruct s].
    + intros [|i] t t' H1 H2; cbn in H1, H2.
      * injection H1 as <-. injection H2 as E2. rewrite <- E2.
        unfold s'. destruct (decide (sp_name s ∈ used)) as [Hin|]; [right; by rewrite elem_of_app; left|by left].
      * destruct (Hk i t t' H1 H2) as [|Hin]; [by left|right]. cbn [take map].
        rewrite elem_of_app in Hin |- *. destruct Hin as [[->|Hin]%elem_of_cons|Hin]; [right; left|by left|right; by right].
Qed.

Lemma distinct_names_id l : forall used, NoDup (map sp_name l) -> (forall n, n ∈ map sp_name l -> n ∉ used) -> distinct_names used l = l.
Proof.
  induction l as [|s l IH]; intros used Hnd Hnew; [done|]. cbn [distinct_names map] in *. apply NoDup_cons in Hnd as [Hs Hnd].
  rewrite decide_False by (apply Hnew; left). rewrite IH; [done|done|].
  intros n Hin [->|Hu]%elem_of_cons; [done|]. by apply (Hnew n); [right|].
Qed.

(** A loaded configuration has nodes with pairwise different names and a
    usable FakeIP range. Only names and that range are repaired: node by node
    everything else is kept, a node whose name is not that of an earlier node
    (as renamed) keeps it, a valid range is kept, and a second load repairs
    nothing. *)
Theorem sanitized_config (cfg : AppConfig) :
  let cfg' := sanitize_config cfg in
  NoDup (map sp_name (ac_servers cfg')) /\
  valid_cidr (fi_range (dns_fakeip (ac_dns cfg'))) = true /\
  Forall2 (fun s s' => s' = with_name s (sp_name s')) (ac_servers cfg) (ac_servers cfg') /\
  (forall i s s', ac_servers cfg !! i = Some s -> ac_servers cfg' !! i = Some s' ->
     sp_name s' = sp_name s \/ sp_name s ∈ map sp_name (take i (ac_servers cfg'))) /\
  (valid_cidr (fi_range (dns_fakeip (ac_dns cfg))) = true -> ac_dns cfg' = ac_dns cfg) /\
  with_dns (with_servers cfg' (ac_servers cfg)) (ac_dns cfg) = cfg /\
  sanitize_config cfg' = cfg'.
Proof.
  intros cfg'. destruct (distinct_names_spec (ac_servers cfg) []) as (Hnd & _ & Hf & Hk).
  assert (ac_servers cfg' = distinct_names [] (ac_servers cfg)) as Hs.
  { unfold cfg', sanitize_config, ensure_distinct_node_names. cbn [ac_servers with_servers]. by destruct (valid_cidr _). }
  assert (valid_cidr (fi_range (dns_fakeip (ac_dns cfg'))) = true) as Hv.
  { unfold cfg', sanitize_config, ensure_distinct_node_names. cbn [ac_dns with_servers].
    destruct (valid_cidr (fi_range (dns_fakeip (ac_dns cfg)))) eqn:E; [exact E|by vm_compute]. }
  rewrite Hs. split_and!; try done.
  - unfold cfg', sanitize_config, ensure_distinct_node_names. intros ->. done.
  - clear. unfold cfg', sanitize_config, ensure_distinct_node_names. destruct cfg as [a b c d e f g h i].
    cbn [ac_dns]. destruct (valid_cidr (fi_range (dns_fakeip f))); done.
  - unfold sanitize_config at 1. rewrite Hv. unfold ensure_distinct_node_names. rewrite Hs, distinct_names_id; [|done|].
    + rewrite <- Hs. by destruct cfg'.
    + by intros ? _ ?%elem_of_nil.
Qed.

(** ** Specification: what an update replaces *)

(** The tags of the subscriptions that answered, with their nodes. *)
Definition replaced (fetched : list (Subscription * option (list ServerProfile))) : list (str * list ServerProfile) :=
  omap (fun '(sub, o) => l ← o; Some (tag_of sub, l)) fetched.

(** A node none of whose tags is replaced. *)
Definition untouched (tags : list str) (s : ServerProfile) : Prop := Forall (fun t => has_tag t s = false) tags.

#[export] Instance untouched_dec tags s : Decision (untouched tags s).
Proof. unfold untouched. apply _. Defined.

Lemma tag_untagged l t : Forall (fun p => sp_tags p = []) l -> tag_servers l t = map (fun p => with_tags p [t]) l.
Proof.
  intros H. unfold tag_servers. induction H as [|p l Hp _ IH]; [done|]. cbn [map]. rewrite IH. f_equal.
  unfold has_tag. rewrite bool_decide_eq_false_2; [by rewrite Hp|]. rewrite Hp. apply not_elem_of_nil.
Qed.

Lemma filter_all {A} (P : A -> Prop) `{forall x, Decision (P x)} (l : list A) : Forall P l -> filter P l = l.
Proof. induction 1 as [|x l Hx _ IH]; [done|]. rewrite filter_cons_True by done. by rewrite IH. Qed.

Lemma filter_twice {A} (P Q R : A -> Prop) `{forall x, Decision (P x)} `{forall x, Decision (Q x)} `{forall x, Decision (R x)} (l : list A) :
  (forall x, R x <-> P x /\ Q x) -> filter P (filter Q l) = filter R l.
Proof.
  intros HR. induction l as [|x l IH]; [done|]. rewrite (filter_cons R), (filter_cons Q).
  destruct (decide (Q x)) as [Hq|Hq].
  - rewrite filter_cons. destruct (decide (P x)); [rewrite decide_True by (by apply HR); by rewrite IH|].
    by rewrite decide_False by (rewrite HR; naive_solver).
  - by rewrite decide_False by (rewrite HR; naive_solver).
Qed.

Lemma pour_all_spec fetched : forall servers,
  NoDup (map fst (replaced fetched)) ->
  Forall (fun '(_, o) => forall l, o = Some l -> Forall (fun p => sp_tags p = []) l) fetched ->
  pour_all servers fetched =
  filter (untouched (map fst (replaced fetched))) servers ++ concat (map (fun '(t, l) => map (fun p => with_tags p [t]) l) (replaced fetched)).
Proof.
  induction fetched as [|[sub [l|]] fetched IH]; intros servers Hnd Hc; cbn [pour_all fold_left].
  - cbn. rewrite app_nil_r. symmetry. apply filter_all, Forall_forall. intros s _. by constructor.
  - apply Forall_cons in Hc as [Hl Hc]. change (replaced ((sub, Some l) :: fetched)) with ((tag_of sub, l) :: replaced fetched) in *.
    cbn [map concat fst] in *. apply NoDup_cons in Hnd as [Hn Hnd].
    fold (pour_all (pour servers (tag_of sub) l) fetched). rewrite IH by done. unfold pour.
    rewrite filter_app, <- app_assoc, (tag_untagged l _ (Hl l eq_refl)). f_equal.
    + apply filter_twice. intros s. unfold untouched. rewrite Forall_cons. naive_solver.
    + f_equal. apply filter_all, Forall_map, Forall_forall. intros p _. apply Forall_forall. intros t Ht.
      unfold has_tag. cbn [sp_tags with_tags]. apply bool_decide_eq_false_2. rewrite list_elem_of_singleton. by intros ->.
  - apply Forall_cons in Hc as [_ Hc]. by apply IH.
Qed.

Lemma replaced_tags fetched : map fst (replaced fetched) `sublist_of` map tag_of (map fst fetched).
Proof.
  induction fetched as [|[sub [l|]] fetched IH]; [done| |].
  - change (replaced ((sub, Some l) :: fetched)) with ((tag_of sub, l) :: replaced fetched). cbn [map fst]. by apply sublist_skip.
  - cbn [map fst]. by apply sublist_cons.
Qed.

(** The answer of a subscription, as the second pass sees it. *)
Definition answer (fetch : Subscription -> (list ServerProfile * option str) + str) (sub : Subscription) : option (list ServerProfile) :=
  match fetch sub with inl (l, _) => Some l | inr _ => None end.

(** An update refreshes the groups of the subscriptions that answered and
    nothing else. When the nodes come back untagged: the subscriptions, under
    distinct tags, are those of before; the nodes kept are exactly those without
    the tag of a subscription that answered, in their order; after them come the
    nodes of each answer, tagged with that subscription's tag alone. A
    subscription whose download fails keeps its nodes, and is reported with its
    error, the others with their number of nodes. *)
Theorem update_replaces_groups (fetch : Subscription -> (list ServerProfile * option str) + str) (cfg : AppConfig)
    (Hclean : forall sub l title, fetch sub = inl (l, title) -> Forall (fun p => sp_tags p = []) l) :
  let '(cfg', reports) := update_subscriptions fetch cfg in
  let groups := replaced (zip (ac_subscriptions cfg') (map (answer fetch) (ac_subscriptions cfg))) in
  NoDup (map tag_of (ac_subscriptions cfg')) /\
  map sub_url (ac_subscriptions cfg') = map sub_url (ac_subscriptions cfg) /\
  ac_servers cfg' =
    filter (untouched (map fst groups)) (ac_servers cfg) ++ concat (map (fun '(t, l) => map (fun p => with_tags p [t]) l) groups) /\
  reports = map (fun sub => mkUpdate (sub_url sub) (length <$> answer fetch sub)
                              (match fetch sub with inl _ => None | inr e => Some e end)) (ac_subscriptions cfg).
Proof.
  unfold update_subscriptions, ensure_distinct_sub_tags. cbn [ac_subscriptions with_subscriptions].
  pose proof (distinct_tags_spec (map (fst ∘ fst) (map (fetch_one fetch) (ac_subscriptions cfg))) []) as H.
  destruct (distinct_tags [] _) as [subs changed]. destruct H as (Hu & Hnd & _).
  cbn [fst ac_subscriptions ac_servers with_subscriptions with_servers].
  assert (map (snd ∘ fst) (map (fetch_one fetch) (ac_subscriptions cfg)) = map (answer fetch) (ac_subscriptions cfg)) as ->.
  { rewrite map_map. apply map_ext. intros sub. unfold fetch_one, answer. cbn. by destruct (fetch sub) as [[l t]|e]. }
  split_and!; [done| | |].
  - rewrite Hu, !map_map. apply map_ext. intros sub. unfold fetch_one. cbn. by destruct (fetch sub) as [[l [t|]]|e].
  - apply pour_all_spec.
    + eapply sublist_NoDup; [|apply replaced_tags]. rewrite fst_zip; [done|].
      rewrite length_map. apply (f_equal length) in Hu. rewrite !length_map in Hu. lia.
    + apply Forall_forall. intros [sub o] Hin l ->. apply elem_of_zip_r in Hin.
      apply list_elem_of_fmap in Hin as (s & Hs & _). unfold answer in Hs. destruct (fetch s) as [[l' t]|e] eqn:E; [|done].
      simplify_eq. by apply (Hclean s l' t).
  - rewrite map_map. apply map_ext. intros sub. unfold fetch_one, answer. by destruct (fetch sub) as [[l t]|e].
Qed.

(** A node, for the examples. *)
Definition sample_node (name : str) (tags : list str) : ServerProfile := {|
  sp_name := name; sp_protocol := Shadowsocks; sp_address := lit "h"; sp_port := 443; sp_params := ∅; sp_tags := tags |}.

Definition sample_config (subs : list Subscription) (nodes : list ServerProfile) : AppConfig :=
  with_servers (with_subscriptions app_config_default subs) nodes.

Definition sample_sub (url : str) (tag : option str) : Subscription := {| sub_url := url; sub_tag := tag; sub_update_interval_hours := 12 |}.

(** Two subscriptions on one host, of which the second answers: its old node
    goes, the first one's and the manual one stay. *)
Lemma update_replaces_groups_witness :
  let cfg := sample_config [sample_sub (lit "https://h/1") (Some (lit "h")); sample_sub (lit "https://h/2") (Some (lit "h (2)"))]
               [sample_node (lit "a") [lit "h"]; sample_node (lit "manual") []; sample_node (lit "b") [lit "h (2)"]] in
  let fetch (s : Subscription) : (list ServerProfile * option str) + str :=
    if decide (sub_url s = lit "https://h/2") then inl ([sample_node (lit "c") []], None) else inr (lit "timeout") in
  (forall sub l title, fetch sub = inl (l, title) -> Forall (fun p => sp_tags p = []) l) /\
  ac_servers (fst (update_subscriptions fetch cfg)) =
    [sample_node (lit "a") [lit "h"]; sample_node (lit "manual") []; sample_node (lit "c") [lit "h (2)"]].
Proof.
  intros cfg fetch.
  assert (forall sub l title, fetch sub = inl (l, title) -> Forall (fun p => sp_tags p = []) l) as Hc.
  { intros sub l title. unfold fetch. case_decide; [|done]. intros [= <- _]. by repeat constructor. }
  split; [done|]. pose proof (update_replaces_groups fetch cfg Hc) as H.
  destruct (update_subscriptions fetch cfg) as [cfg' reports] eqn:E. cbn [fst]. destruct H as (_ & _ & -> & _).
  assert (ac_subscriptions cfg' = ac_subscriptions cfg) as ->
    by (apply (f_equal (ac_subscriptions ∘ fst)) in E; cbn [compose fst] in E; rewrite <- E; by vm_compute).
  by vm_compute.
Defined.

(** A provider that renames its subscription leaves the nodes of the old name
    behind: they are no longer those of any subscription. *)
Example renamed_title_orphans :
  let cfg := sample_config [sample_sub (lit "https://h/1") (Some (lit "old"))] [sample_node (lit "a") [lit "old"]] in
  let fetch (_ : Subscription) : (list ServerProfile * option str) + str := inl ([sample_node (lit "a") []], Some (lit "new")) in
  ac_servers (fst (update_subscriptions fetch cfg)) = [sample_node (lit "a") [lit "old"]; sample_node (lit "a") [lit "new"]] /\
  map sub_tag (ac_subscriptions (fst (update_subscriptions fetch cfg))) = [Some (lit "new")].
Proof. split; by vm_compute. Qed.

(** ** Removals *)

Lemma filter_shorter {A} (P : A -> Prop) `{forall x, Decision (P x)} (l : list A) :
  negb (length (filter P l) =? length l)%nat = true <-> exists x, x ∈ l /\ ~ P x.
Proof.
  rewrite negb_true_iff, Nat.eqb_neq. split.
  - intros Hl. destruct (decide (Forall P l)) as [Ha|Hn]; [by rewrite filter_all in Hl|].
    apply not_Forall_Exists in Hn; [|apply _]. by apply Exists_exists.
  - intros (x & Hx & Hp). pose proof (length_filter_lt P l x Hx Hp). lia.
Qed.

(** Removing a subscription or a node removes exactly that. For a known URL:
    the entries with the URL and the nodes with the group's tag, everything else
    staying in its order; an unknown URL changes nothing. For a name: the nodes
    of that name, the default choice being cleared if it was one of them. *)
Theorem removal_is_exact (cfg : AppConfig) (url name : str) :
  (let '(cfg', removed) := apply_remove_subscription cfg url in
   (removed = true <-> url ∈ map sub_url (ac_subscriptions cfg)) /\
   ac_subscriptions cfg' = filter (fun s => sub_url s <> url) (ac_subscriptions cfg) /\
   exists tags, (forall t, t ∈ tags -> exists sub, sub ∈ ac_subscriptions cfg /\ sub_url sub = url /\ t = tag_of sub) /\
     (removed = true -> tags <> []) /\
     cfg' = with_servers (with_subscriptions cfg (ac_subscriptions cfg')) (filter (untouched tags) (ac_servers cfg))) /\
  (let '(cfg', removed) := apply_remove cfg name in
   (removed = true <-> name ∈ map sp_name (ac_servers cfg)) /\
   ac_servers cfg' = filter (fun s => sp_name s <> name) (ac_servers cfg) /\
   ac_subscriptions cfg' = ac_subscriptions cfg /\
   st_default_proxy (ac_settings cfg') =
     (if removed then (n ← st_default_proxy (ac_settings cfg); if decide (n = name) then None else Some n)
      else st_default_proxy (ac_settings cfg))).
Proof.
  split.
  - unfold apply_remove_subscription. destruct (list_find _ _) as [[i sub]|] eqn:E.
    + apply list_find_Some in E as (Hi & Hu & _). apply list_elem_of_lookup_2 in Hi.
      cbn [ac_subscriptions ac_servers with_servers with_subscriptions]. split; [|split].
      * split; [|done]. intros _. apply list_elem_of_fmap. by exists sub.
      * done.
      * exists [tag_of sub]. split; [|split; [done|]].
        { intros t ->%list_elem_of_singleton. by exists sub. }
        f_equal. apply list_filter_iff. intros s. unfold untouched. by rewrite Forall_singleton.
    + apply list_find_None in E. split; [|split].
      * split; [done|]. intros Hin. exfalso. apply list_elem_of_fmap in Hin as (s & -> & Hin).
        by apply (proj1 (Forall_forall _ _) E s).
      * symmetry. by apply filter_all.
      * exists []. split; [by intros t ?%elem_of_nil|]. split; [done|].
        rewrite filter_all by (apply Forall_forall; intros s _; constructor). by destruct cfg.
  - unfold apply_remove. set (kept := filter (fun s => sp_name s <> name) (ac_servers cfg)).
    set (removed := negb (length kept =? length (ac_servers cfg))%nat).
    assert (removed = true <-> name ∈ map sp_name (ac_servers cfg)) as Hr.
    { unfold removed, kept. rewrite filter_shorter. rewrite list_elem_of_fmap. split; intros (s & H1 & H2); exists s.
      - split; [|done]. destruct (decide (sp_name s = name)); [done|]. by exfalso.
      - split; [done|]. by intros []. }
    cbn [ac_settings with_servers]. destruct (removed && bool_decide (st_default_proxy (ac_settings cfg) = Some name)) eqn:E.
    + apply andb_true_iff in E as [E1 E2%bool_decide_eq_true]. split_and!; [done..|]. rewrite E1, E2. cbn. by rewrite decide_True.
    + split_and!; [done..|]. cbn [ac_settings with_servers]. destruct removed; [|done]. cbn [andb] in E. apply bool_decide_eq_false in E.
      destruct (st_default_proxy (ac_settings cfg)) as [n|]; cbn; [|done]. by rewrite decide_False by congruence.
Qed.
