(* ===== verification/RuleEdit.v ===== *)
(** * Editing the rules, the listeners and the split configuration; the version check
    ([crates/cli/src/lib.rs]) *)

From S2P Require Import Prelude RustStr NetAddr Model Cidr AddrText Split Domain Routing Protobuf Geo FakeIp Config Outbound Engine Nodes.

(** ** Rules as the interface shows them *)

Record RuleInfo : Type := {
  ri_domains : list str;
  ri_ip_cidrs : list str;
  ri_processes : list str;
  ri_ports : list Z;
  ri_geosite : list str;
  ri_geoip : list str;
  ri_action : str;
  ri_proxy_tag : option str
}.

Definition domain_to_string (d : DomainRule) : str :=
  match d with
  | Full s => "full:" ++ s
  | Suffix s => "suffix:" ++ s
  | Keyword s => "keyword:" ++ s
  end.

Definition parse_domain (s : str) : DomainRule :=
  let s := trim s in
  match split_once ":"%char s with
  | Some (k, v) =>
      if decide (k = lit "full") then Full (trim v)
      else if decide (k = lit "suffix") then Suffix (trim v)
      else if decide (k = lit "keyword") then Keyword (trim v)
      else Suffix s
  | None => Suffix s
  end.

Definition process_to_string (m : AppMatcher) : str :=
  match m with
  | ExePath p => "exe:" ++ p
  | ProcessName n => "name:" ++ n
  end.

Definition parse_process (s : str) : AppMatcher :=
  let s := trim s in
  match split_once ":"%char s with
  | Some (k, v) =>
      if decide (k = lit "exe") then ExePath (trim v)
      else if decide (k = lit "name") then ProcessName (trim v)
      else ProcessName s
  | None => ProcessName s
  end.

Definition clean_list (v : list str) : list str := filter (fun s => s <> []) (map trim v).

Definition rule_to_info (r : Rule) : RuleInfo :=
  let '(action, proxy_tag) :=
    match r_action r with
    | ADirect => (lit "direct", None)
    | ABlock => (lit "block", None)
    | AProxy tag => (lit "proxy", tag)
    end in
  {| ri_domains := map domain_to_string (r_domains r); ri_ip_cidrs := map show_cidr (r_ip_cidrs r);
     ri_processes := map process_to_string (r_processes r); ri_ports := r_ports r;
     ri_geosite := r_geosite r; ri_geoip := r_geoip r; ri_action := action; ri_proxy_tag := proxy_tag |}.

(** [for s in clean_list(..) { ip_cidrs.push(IpCidr::parse(&s)?) }] *)
Fixpoint parse_cidrs (l : list str) : res str (list IpCidr) :=
  match l with
  | [] => Ok []
  | s :: l =>
      c ← map_err (fun e => "неверный CIDR «" ++ s ++ "»: " ++ show_parse_error e) (cidr_parse s);
      cs ← parse_cidrs l;
      Ok (c :: cs)
  end.

Definition info_to_rule (info : RuleInfo) : res str Rule :=
  ip_cidrs ← parse_cidrs (clean_list (ri_ip_cidrs info));
  let a := trim (ri_action info) in
  action ← (if decide (a = lit "direct") then Ok ADirect
            else if decide (a = lit "block") then Ok ABlock
            else if decide (a = lit "proxy") then
              Ok (AProxy (t ← (trim <$> ri_proxy_tag info); if decide (t = []) then None else Some t))
            else Err ("неизвестное действие: «" ++ a ++ "»"));
  Ok {| r_domains := map parse_domain (clean_list (ri_domains info)); r_ip_cidrs := ip_cidrs;
        r_processes := map parse_process (clean_list (ri_processes info)); r_ports := ri_ports info;
        r_geosite := clean_list (ri_geosite info); r_geoip := clean_list (ri_geoip info); r_action := action |}.

(** ** The list of rules *)

Definition with_rules (c : AppConfig) (l : list Rule) : AppConfig := {|
  ac_servers := ac_servers c; ac_subscriptions := ac_subscriptions c; ac_rules := l; ac_split := ac_split c;
  ac_settings := ac_settings c; ac_dns := ac_dns c; ac_geo := ac_geo c; ac_local_wg := ac_local_wg c;
  ac_socks_proxies := ac_socks_proxies c |}.

(** [add_rule], [update_rule]; the rule is read before the configuration. *)
Definition add_rule (cfg : AppConfig) (info : RuleInfo) : res str AppConfig :=
  rule ← info_to_rule info; Ok (with_rules cfg (ac_rules cfg ++ [rule])).

Definition update_rule (cfg : AppConfig) (index : nat) (info : RuleInfo) : res str AppConfig :=
  rule ← info_to_rule info;
  if (length (ac_rules cfg) <=? index)%nat then Err ("индекс правила вне диапазона: " ++ show_uint (Z.of_nat index)) else
  Ok (with_rules cfg (<[index := rule]> (ac_rules cfg))).

Definition apply_remove_rule (cfg : AppConfig) (index : nat) : AppConfig * bool :=
  if (index <? length (ac_rules cfg))%nat
  then (with_rules cfg (take index (ac_rules cfg) ++ drop (S index) (ac_rules cfg)), true)
  else (cfg, false).

(** [Vec::swap] *)
Definition swap {A} (l : list A) (i j : nat) : list A :=
  match l !! i, l !! j with Some x, Some y => <[j := x]> (<[i := y]> l) | _, _ => l end.

Definition apply_move_rule (cfg : AppConfig) (index : nat) (up : bool) : AppConfig * bool :=
  let n := length (ac_rules cfg) in
  if (n <=? index)%nat then (cfg, false)
  else if up then
    if (index =? 0)%nat then (cfg, false) else (with_rules cfg (swap (ac_rules cfg) index (index - 1)), true)
  else
    if (n <=? index + 1)%nat then (cfg, false) else (with_rules cfg (swap (ac_rules cfg) index (index + 1)), true).

Definition apply_preset (cfg : AppConfig) (id : str) : res str (AppConfig * nat) :=
  match list_find (fun p : str * str * str * list Rule => fst (fst (fst p)) = id) presets with
  | Some (_, (_, rules)) => Ok (with_rules cfg rules, length rules)
  | None => Err ("неизвестный пресет: " ++ id)
  end.

(** ** The SOCKS listeners: [set_socks_proxies] *)

Fixpoint one_system (seen : bool) (l : list SocksProxy) : list SocksProxy :=
  match l with
  | [] => []
  | p :: l =>
      {| sp_listen := trim (sp_listen p);
         sp_node := (n ← sp_node p; if decide (n = []) then None else Some n);
         sp_system := sp_system p && negb seen |} :: one_system (seen || sp_system p) l
  end.

Definition set_socks_proxies (cfg : AppConfig) (l : list SocksProxy) : AppConfig := {|
  ac_servers := ac_servers cfg; ac_subscriptions := ac_subscriptions cfg; ac_rules := ac_rules cfg; ac_split := ac_split cfg;
  ac_settings := ac_settings cfg; ac_dns := ac_dns cfg; ac_geo := ac_geo cfg; ac_local_wg := ac_local_wg cfg;
  ac_socks_proxies := filter (fun p => sp_listen p <> []) (one_system false l) |}.

(** ** The driver's configuration: [rules_to_split] *)

Definition push_new (apps : list AppMatcher) (a : AppMatcher) : list AppMatcher :=
  if decide (a ∈ apps) then apps else apps ++ [a].

Definition is_proxy (a : RouteAction) : bool := match a with AProxy _ => true | _ => false end.

Definition rules_to_split (cfg : AppConfig) : SplitConfig :=
  let apps := fold_left push_new (sc_apps (ac_split cfg)) [] in
  let apps := fold_left (fun apps r => if is_proxy (r_action r) then fold_left push_new (r_processes r) apps else apps)
                (ac_rules cfg) apps in
  let endpoints := map sp_address (filter (fun s => parse_ip (sp_address s) <> None) (ac_servers cfg)) in
  {| sc_mode := sc_mode (ac_split cfg); sc_apps := apps; sc_inherit_children := sc_inherit_children (ac_split cfg);
     sc_kill_switch := sc_kill_switch (ac_split cfg); sc_force_direct_cidrs := sc_force_direct_cidrs (ac_split cfg);
     sc_force_tunnel_cidrs := sc_force_tunnel_cidrs (ac_split cfg); sc_server_endpoints := endpoints;
     sc_driver := sc_driver (ac_split cfg) |}.

(** ** [build_engine] *)

Definition build_engine (load_geosite : str -> option GeoSiteDb) (load_geoip : str -> option GeoIpDb)
    (debug : list str -> str) (cfg : AppConfig) (server : option str) : res str Engine :=
  let known name := existsb (fun s => bool_decide (sp_name s = name)) (ac_servers cfg) in
  _ ← match server with
      | Some name => if known name then Ok tt else Err ("узел не найден: " ++ name)
      | None => Ok tt
      end;
  let s := ac_settings cfg in
  let dflt := match server with
              | Some n => Some n
              | None => match st_default_proxy s with Some n => Some n | None => st_proxy_node s end
              end in
  _ ← match dflt with
      | Some d => if known d then Ok tt else Err ("узел по умолчанию не найден: " ++ d)
      | None => Ok tt
      end;
  let eff := with_settings cfg {|
    st_default_proxy := dflt;
    st_default_to_proxy := (match server with Some _ => true | None => false end) || st_default_to_proxy s;
    st_listen := st_listen s; st_proxy_node := st_proxy_node s |} in
  let engine := from_config load_geosite load_geoip eff in
  let missing := missing_geo_refs debug engine in
  match missing with
  | [] => Ok engine
  | _ => Err ("geo-базы не загружены для части правил:" ++ [to_u8 10] ++ "  " ++ join ([to_u8 10] ++ "  ") missing ++ [to_u8 10]
              ++ "проверьте geo.geosite_path / geo.geoip_path в конфиге")
  end.

(** ** The version check: [version_gt] *)

Definition version_parts (s : str) : list Z :=
  map (fun p => default 0 (parse_uint (2 ^ 64 - 1) (take (default (length p) (find_byte (fun c => negb (is_digit c)) p)) p)))
    (split_by (fun c => is_char "."%char c || is_char "-"%char c) s).

(** The number of a version at a position, 0 where there is none. *)
Definition part (l : list Z) (i : nat) : Z := default 0 (l !! i).

Definition version_gt (a b : str) : bool :=
  let pa := version_parts a in
  let pb := version_parts b in
  match list_find (fun i => part pa i <> part pb i) (seq 0 (Nat.max (length pa) (length pb))) with
  | Some (_, i) => part pb i <? part pa i
  | None => false
  end.

(** ** Lemmas: trimming twice *)

Definition no_blank_at (ps : list str) (s : str) : Prop := strip_any ps s = None.

Lemma strip_any_prefix ps a b : no_blank_at ps (a ++ b) -> no_blank_at ps a.
Proof.
  unfold no_blank_at. induction ps as [|p ps IH]; cbn [strip_any]; [done|].
  destruct (strip_prefix p a) as [r|] eqn:E.
  - apply strip_prefix_Some in E as ->. rewrite <- app_assoc, (proj2 (strip_prefix_Some p _ (r ++ b))) by done. done.
  - destruct (strip_prefix p (a ++ b)); [done|]. apply IH.
Qed.

Lemma trim_loop_done ps : forallb (fun p => negb (bool_decide (p = []))) ps = true -> forall fuel s, (length s <= fuel)%nat ->
  no_blank_at ps (trim_loop ps fuel s) /\ exists w, s = w ++ trim_loop ps fuel s.
Proof.
  intros Hps. assert (forall ps' s r, forallb (fun p => negb (bool_decide (p = []))) ps' = true -> strip_any ps' s = Some r ->
    exists p, s = p ++ r /\ p <> []) as Hstrip.
  { clear. induction ps' as [|p ps' IH]; intros s r; cbn [strip_any forallb]; [done|]. intros [Hp Hps]%andb_true_iff.
    destruct (strip_prefix p s) as [r'|] eqn:E; [|by auto]. intros [= <-]. apply strip_prefix_Some in E as ->.
    exists p. split; [done|]. by apply negb_true_iff, bool_decide_eq_false in Hp. }
  induction fuel as [|fuel IH]; intros s Hl; cbn [trim_loop].
  - destruct s as [|c s]; [|cbn in Hl; lia]. split; [|by exists []]. unfold no_blank_at.
    destruct (strip_any ps []) eqn:E; [|done]. apply Hstrip in E as (p & E & Hp); [|done]. symmetry in E. by apply app_eq_nil in E as [-> _].
  - destruct (strip_any ps s) as [r|] eqn:E; [|by split; [|exists []]].
    apply Hstrip in E as (p & -> & Hp); [|done]. destruct (IH r) as [H1 [w Hw]].
    { rewrite length_app in Hl. destruct p; [done|]. cbn in Hl. lia. }
    split; [done|]. exists (p ++ w). rewrite <- app_assoc. by f_equal.
Qed.

Lemma trim_loop_id ps fuel s : no_blank_at ps s -> trim_loop ps fuel s = s.
Proof. intros H. destruct fuel; [done|]. cbn. by rewrite H. Qed.

Lemma trim_ends s : no_blank_at whitespace (trim s) /\ no_blank_at (map reverse whitespace) (reverse (trim s)).
Proof.
  unfold trim, trim_end. set (u := trim_start s). rewrite reverse_involutive.
  destruct (trim_loop_done (map reverse whitespace) ltac:(by vm_compute) (length u) (reverse u)) as [H1 [w Hw]].
  { by rewrite length_reverse. }
  split; [|done]. apply (strip_any_prefix _ _ (reverse w)). rewrite <- reverse_app, <- Hw, reverse_involutive.
  by apply trim_loop_done; [vm_compute|].
Qed.

Lemma trim_id s : no_blank_at whitespace s -> no_blank_at (map reverse whitespace) (reverse s) -> trim s = s.
Proof.
  intros H1 H2. unfold trim, trim_end. assert (trim_start s = s) as -> by by apply trim_loop_id.
  rewrite trim_loop_id by done. apply reverse_involutive.
Qed.

Lemma trim_idem s : trim (trim s) = trim s.
Proof. apply trim_id; apply trim_ends. Qed.

Lemma no_blank_extend ps a c b : forallb (forallb (fun d => negb (graphic d))) ps = true -> graphic c = true ->
  no_blank_at ps a -> no_blank_at ps (a ++ c :: b).
Proof.
  intros Hps Hc. unfold no_blank_at. induction ps as [|p ps IH]; [done|]. cbn [strip_any forallb] in *.
  apply andb_true_iff in Hps as [Hp Hps]. destruct (strip_prefix p a) as [r|] eqn:Ea; [done|].
  destruct (strip_prefix p (a ++ c :: b)) as [r|] eqn:E; [|auto]. exfalso. apply strip_prefix_Some in E.
  destruct (app_eq_inv _ _ _ _ E) as [(k & -> & Hk)|(k & -> & Hk)].
  - by rewrite (proj2 (strip_prefix_Some p _ k)) in Ea.
  - destruct k as [|d k]; [by rewrite app_nil_r, (proj2 (strip_prefix_Some a a [])) in Ea by by rewrite app_nil_r|].
    cbn in Hk. simplify_eq. rewrite forallb_app in Hp. cbn in Hp. rewrite Hc in Hp. by rewrite andb_false_r in Hp.
Qed.

(** A trimmed value behind a printable prefix. *)
Lemma trim_prefixed p v : Forall (fun c => graphic c = true) p -> p <> [] -> trim v = v -> trim (p ++ v) = p ++ v.
Proof.
  intros Hp Hn Hv. apply trim_id.
  - destruct Hp as [|c p Hc _]; [done|]. apply strip_any_none; [apply whitespace_heads|done].
  - rewrite reverse_app. destruct (exists_last Hn) as (q & c & ->). rewrite reverse_snoc. apply Forall_app in Hp as [_ Hc].
    apply Forall_cons in Hc as [Hc _]. apply no_blank_extend; [by vm_compute|done|]. rewrite <- Hv. apply trim_ends.
Qed.

(** ** Rules that the editor keeps *)

Definition domain_clean (d : DomainRule) : Prop := let v := match d with Full s | Suffix s | Keyword s => s end in trim v = v.
Definition process_clean (m : AppMatcher) : Prop := let v := match m with ExePath s | ProcessName s => s end in trim v = v.
Definition word_clean (s : str) : Prop := trim s = s /\ s <> [].

Definition rule_clean (r : Rule) : Prop :=
  Forall domain_clean (r_domains r) /\ Forall cidr_ok (r_ip_cidrs r) /\ Forall process_clean (r_processes r) /\
  Forall word_clean (r_geosite r) /\ Forall word_clean (r_geoip r) /\
  match r_action r with AProxy (Some t) => word_clean t | _ => True end.

Lemma clean_list_words l : Forall word_clean (clean_list l).
Proof.
  unfold clean_list. apply Forall_forall. intros s [Hn (x & -> & _)%list_elem_of_fmap]%list_elem_of_filter.
  split; [apply trim_idem|done].
Qed.

Lemma clean_list_id l : Forall word_clean l -> clean_list l = l.
Proof.
  intros H. unfold clean_list. assert (map trim l = l) as -> by (induction H as [|s l [Hs _] _ IH]; cbn; [done|by rewrite Hs, IH]).
  apply filter_all. eapply Forall_impl; [exact H|]. by intros s [_ Hs].
Qed.

Lemma prefixed_word p v : Forall (fun c => graphic c = true) p -> p <> [] -> trim v = v -> word_clean (p ++ v).
Proof. intros Hp Hn Hv. split; [by apply trim_prefixed|]. intros E. by apply app_eq_nil in E as [E _]. Qed.

Lemma split_key k v : ":"%char ∉ k -> split_once ":"%char (k ++ lit ":" ++ v) = Some (k, v).
Proof. intros H. by apply split_once_app. Qed.

(** A criterion written as key and value. *)
Lemma keyed_value k : forallb graphic (k ++ ":") = true -> ":"%char ∉ k -> forall v, trim v = v ->
  word_clean ((k ++ ":") ++ v) /\ split_once ":"%char (trim ((k ++ ":") ++ v)) = Some (k, v).
Proof.
  intros Hk Hc v Ht. assert (Forall (fun c => graphic c = true) (k ++ ":")) as Hf
    by (apply Forall_forall; intros c Hin%list_elem_of_In; by apply (proj1 (List.forallb_forall _ _) Hk)).
  assert (k ++ ":" <> []) as Hn by by destruct k.
  split; [by apply prefixed_word|]. rewrite trim_prefixed by done. rewrite <- app_assoc. by apply split_key.
Qed.

Lemma domain_string d : domain_clean d -> word_clean (domain_to_string d) /\ parse_domain (domain_to_string d) = d.
Proof.
  unfold domain_clean. intros Hv.
  pose proof keyed_value as H.
  assert (":"%char ∉ lit "full" /\ ":"%char ∉ lit "suffix" /\ ":"%char ∉ lit "keyword") as (H1 & H2 & H3)
    by (split_and!; apply (bool_decide_unpack _); vm_compute; exact I).
  destruct d as [v|v|v]; unfold parse_domain; cbn [domain_to_string].
  - destruct (H (lit "full") eq_refl H1 v Hv) as [Hw Hs]. split; [exact Hw|]. change (lit "full:") with (lit "full" ++ lit ":"). rewrite Hs. cbv beta iota zeta. by rewrite decide_True, Hv.
  - destruct (H (lit "suffix") eq_refl H2 v Hv) as [Hw Hs]. split; [exact Hw|]. change (lit "suffix:") with (lit "suffix" ++ lit ":"). rewrite Hs. cbv beta iota zeta. by rewrite decide_False, decide_True, Hv.
  - destruct (H (lit "keyword") eq_refl H3 v Hv) as [Hw Hs]. split; [exact Hw|]. change (lit "keyword:") with (lit "keyword" ++ lit ":"). rewrite Hs. cbv beta iota zeta. by rewrite decide_False, decide_False, decide_True, Hv.
Qed.

Lemma process_string m : process_clean m -> word_clean (process_to_string m) /\ parse_process (process_to_string m) = m.
Proof.
  unfold process_clean. intros Hv.
  pose proof keyed_value as H.
  assert (":"%char ∉ lit "exe" /\ ":"%char ∉ lit "name") as (H1 & H2)
    by (split_and!; apply (bool_decide_unpack _); vm_compute; exact I).
  destruct m as [v|v]; unfold parse_process; cbn [process_to_string].
  - destruct (H (lit "exe") eq_refl H1 v Hv) as [Hw Hs]. split; [exact Hw|]. change (lit "exe:") with (lit "exe" ++ lit ":"). rewrite Hs. cbv beta iota zeta. by rewrite decide_True, Hv.
  - destruct (H (lit "name") eq_refl H2 v Hv) as [Hw Hs]. split; [exact Hw|]. change (lit "name:") with (lit "name" ++ lit ":"). rewrite Hs. cbv beta iota zeta. by rewrite decide_False, decide_True, Hv.
Qed.

Lemma parse_domain_clean s : domain_clean (parse_domain s).
Proof.
  unfold domain_clean, parse_domain. destruct (split_once _ _) as [[k v]|]; [|apply trim_idem].
  repeat case_decide; apply trim_idem.
Qed.

Lemma parse_process_clean s : process_clean (parse_process s).
Proof.
  unfold process_clean, parse_process. destruct (split_once _ _) as [[k v]|]; [|apply trim_idem].
  repeat case_decide; apply trim_idem.
Qed.

Lemma map_strings {A} (show : A -> str) (read : str -> A) (P : A -> Prop) l :
  (forall a, P a -> word_clean (show a) /\ read (show a) = a) -> Forall P l ->
  clean_list (map show l) = map show l /\ map read (map show l) = l.
Proof.
  intros H Hl. split.
  - apply clean_list_id, Forall_map. eapply Forall_impl; [exact Hl|]. intros a Ha. by apply H.
  - induction Hl as [|a l Ha _ IH]; [done|]. cbn [map]. rewrite IH. f_equal. by apply H.
Qed.

Lemma cidr_string c : cidr_ok c -> word_clean (show_cidr c) /\ cidr_parse (show_cidr c) = Ok c.
Proof.
  intros Hc. split; [|by apply cidr_parse_show]. destruct c as [ip p]. destruct Hc as [Hip Hp]. cbn [cidr_base cidr_prefix] in *.
  unfold show_cidr, show_cidr_parts. cbn [cidr_base cidr_prefix].
  assert (Forall (fun c => graphic c = true) (show_ip ip ++ "/" ++ show_uint p)) as Hg.
  { apply Forall_app. split; [eapply Forall_impl; [apply show_ip_chars|apply addr_char_graphic]|]. constructor; [done|].
    apply Forall_forall. intros c Hc. apply show_uint_digits in Hc; [|lia]. unfold is_digit, graphic in *. lia. }
  assert (show_ip ip ++ "/" ++ show_uint p <> []) as Hn by (intros E; by apply app_eq_nil in E as [_ E]).
  split; [|done]. by apply trim_trimmed, all_graphic_trimmed.
Qed.

Lemma parse_cidrs_show l : Forall cidr_ok l -> parse_cidrs (map show_cidr l) = Ok l.
Proof.
  induction 1 as [|c l Hc _ IH]; [done|]. cbn [map parse_cidrs]. rewrite (proj2 (cidr_string c Hc)). cbn [map_err mbind res_bind].
  by rewrite IH.
Qed.

Lemma parse_cidrs_ok l : forall cs, parse_cidrs l = Ok cs -> Forall cidr_ok cs.
Proof.
  induction l as [|s l IH]; intros cs; cbn [parse_cidrs]; [by intros [= <-]|].
  destruct (cidr_parse s) as [c|e|] eqn:E; cbn [map_err mbind res_bind]; [|done..].
  destruct (parse_cidrs l) as [cs'|e|]; cbn [mbind res_bind]; [|done..]. intros [= <-]. constructor; [by eapply cidr_parse_ok|by apply IH].
Qed.

(** Editing a rule does not change it by itself: a rule whose texts are
    trimmed is shown and read back as the same rule, whatever its domains,
    ranges, processes, ports, categories and action; and every rule the editor
    accepts, from any text, is such a rule. *)
Theorem rule_edit_reads_back (r : Rule) (Hr : rule_clean r) :
  info_to_rule (rule_to_info r) = Ok r /\ (forall info r', info_to_rule info = Ok r' -> rule_clean r').
Proof.
  split.
  - destruct Hr as (Hd & Hc & Hp & Hs & Hi & Ha).
    destruct (map_strings domain_to_string parse_domain domain_clean (r_domains r) domain_string Hd) as [Hd1 Hd2].
    destruct (map_strings process_to_string parse_process process_clean (r_processes r) process_string Hp) as [Hp1 Hp2].
    assert (clean_list (map show_cidr (r_ip_cidrs r)) = map show_cidr (r_ip_cidrs r)) as Hc1
      by (apply clean_list_id, Forall_map; eapply Forall_impl; [exact Hc|]; intros c Hx; by apply cidr_string).
    assert (info_to_rule (rule_to_info r) =
      (action ← (match r_action r with ADirect => Ok ADirect | ABlock => Ok ABlock
                 | AProxy tag => Ok (AProxy (t ← (trim <$> tag); if decide (t = []) then None else Some t)) end);
       Ok {| r_domains := r_domains r; r_ip_cidrs := r_ip_cidrs r; r_processes := r_processes r; r_ports := r_ports r;
             r_geosite := r_geosite r; r_geoip := r_geoip r; r_action := action |})) as ->.
    { unfold info_to_rule, rule_to_info. destruct (r_action r) as [|tag|];
        cbn [ri_ip_cidrs ri_domains ri_processes ri_ports ri_geosite ri_geoip ri_action ri_proxy_tag];
        rewrite Hc1, parse_cidrs_show, Hd1, Hd2, Hp1, Hp2, !clean_list_id by done; reflexivity. }
    destruct r as [a b c d e f [|[t|]|]]; cbn in Ha |- *; try done. destruct Ha as [Ht Hn]. rewrite Ht. by rewrite decide_False.
  - intros info r' H. unfold info_to_rule in H. destruct (parse_cidrs _) as [cs|e|] eqn:E; cbn [mbind res_bind] in H; [|done..].
    apply parse_cidrs_ok in E. rewrite ok_bind in H. destruct H as (a & Ha & [= <-]).
    split_and!; cbn [r_domains r_ip_cidrs r_processes r_geosite r_geoip r_action]; try apply clean_list_words; [| done | |].
    + apply Forall_map, Forall_forall. intros s _. apply parse_domain_clean.
    + apply Forall_map, Forall_forall. intros s _. apply parse_process_clean.
    + repeat case_decide; simplify_eq; try done. destruct (ri_proxy_tag info) as [t|]; cbn; [|done].
      case_decide; [done|]. split; [apply trim_idem|done].
Qed.

Lemma rule_edit_reads_back_witness :
  let r := {| r_domains := [Suffix (lit "example.com"); Full []]; r_ip_cidrs := [{| cidr_base := V6 1; cidr_prefix := 128 |}];
              r_processes := [ExePath (lit "C:/a b.exe")]; r_ports := [443]; r_geosite := [lit "google"]; r_geoip := [];
              r_action := AProxy (Some (lit "node")) |} in
  rule_clean r /\ info_to_rule (rule_to_info r) = Ok r.
Proof.
  intros r. assert (rule_clean r) as Hr.
  { unfold r, rule_clean. cbn [r_domains r_ip_cidrs r_processes r_geosite r_geoip r_action].
    split_and!; repeat (constructor; try (by vm_compute)); discriminate || (cbn; lia). }
  split; [done|]. exact (proj1 (rule_edit_reads_back r Hr)).
Defined.

(** ** The list of rules *)

Lemma swap_spec {A} (l : list A) i j x y : l !! i = Some x -> l !! j = Some y -> i <> j ->
  swap l i j = <[j := x]> (<[i := y]> l) /\ swap l i j ≡ₚ l /\ swap l i j !! i = Some y /\ swap l i j !! j = Some x /\
  (forall k, k <> i -> k <> j -> swap l i j !! k = l !! k) /\ swap (swap l i j) j i = l.
Proof.
  intros Hi Hj Hne. pose proof (lookup_lt_Some _ _ _ Hi) as Hli. pose proof (lookup_lt_Some _ _ _ Hj) as Hlj.
  assert (swap l i j = <[j := x]> (<[i := y]> l)) as E by (unfold swap; by rewrite Hi, Hj). rewrite E.
  assert ((<[j := x]> (<[i := y]> l)) !! i = Some y) as H1 by (rewrite list_lookup_insert_ne by done; by apply list_lookup_insert_eq).
  assert ((<[j := x]> (<[i := y]> l)) !! j = Some x) as H2 by (apply list_lookup_insert_eq; by rewrite length_insert).
  split_and!; try done.
  - by apply Permutation_insert_swap.
  - intros k Hki Hkj. by rewrite !list_lookup_insert_ne.
  - unfold swap. rewrite H1, H2. apply list_eq. intros k. destruct (decide (k = i)) as [->|Hki].
    { rewrite list_lookup_insert_eq by (rewrite !length_insert; lia). by rewrite Hi. }
    rewrite list_lookup_insert_ne by done. destruct (decide (k = j)) as [->|Hkj].
    + rewrite list_lookup_insert_eq by (rewrite !length_insert; lia). by rewrite Hj.
    + by rewrite !list_lookup_insert_ne by done.
Qed.

Lemma with_rules_same cfg : with_rules cfg (ac_rules cfg) = cfg.
Proof. by destruct cfg. Qed.

Lemma with_rules_back cfg l : with_rules (with_rules cfg l) (ac_rules cfg) = cfg.
Proof. by destruct cfg. Qed.

(** The place a rule moves to. *)
Definition move_target (index : nat) (up : bool) : nat := if up then (index - 1)%nat else (index + 1)%nat.

(** Moving a rule exchanges it with its neighbour and nothing else: it
    succeeds exactly when there is a neighbour on that side, the rules are the
    same ones, the two places are exchanged, every other place keeps its rule,
    and moving back restores the list; otherwise nothing changes. *)
Theorem rule_moves (cfg : AppConfig) (index : nat) (up : bool) :
  let '(cfg', moved) := apply_move_rule cfg index up in
  let target := move_target index up in
  (moved = true <-> (index < length (ac_rules cfg))%nat /\ if up then (0 < index)%nat else (index + 1 < length (ac_rules cfg))%nat) /\
  cfg' = with_rules cfg (ac_rules cfg') /\
  (moved = false -> cfg' = cfg) /\
  (moved = true ->
     ac_rules cfg' ≡ₚ ac_rules cfg /\
     ac_rules cfg' !! target = ac_rules cfg !! index /\ ac_rules cfg' !! index = ac_rules cfg !! target /\
     (forall k, k <> index -> k <> target -> ac_rules cfg' !! k = ac_rules cfg !! k) /\
     apply_move_rule cfg' target (negb up) = (cfg, true)).
Proof.
  assert (forall i j, (i < length (ac_rules cfg))%nat -> (j < length (ac_rules cfg))%nat -> i <> j ->
    let l := swap (ac_rules cfg) i j in
    l ≡ₚ ac_rules cfg /\ l !! j = ac_rules cfg !! i /\ l !! i = ac_rules cfg !! j /\
    (forall k, k <> i -> k <> j -> l !! k = ac_rules cfg !! k) /\ swap l j i = ac_rules cfg /\ length l = length (ac_rules cfg)) as Hswap.
  { intros i j Hi Hj Hne. apply lookup_lt_is_Some in Hi as [x Hx], Hj as [y Hy].
    destruct (swap_spec (ac_rules cfg) i j x y Hx Hy Hne) as (_ & Hp & H1 & H2 & H3 & H4).
    rewrite Hx, Hy. split_and!; try done. by apply Permutation_length in Hp. }
  unfold apply_move_rule, move_target. destruct (Nat.leb_spec (length (ac_rules cfg)) index) as [Hn|Hn].
  { split_and!; [split; [done|lia]|by rewrite with_rules_same|done|done]. }
  destruct up.
  - destruct (Nat.eqb_spec index 0) as [->|Hi].
    { split_and!; [split; [done|lia]|by rewrite with_rules_same|done|done]. }
    destruct (Hswap index (index - 1)%nat) as (Hp & H1 & H2 & H3 & H4 & Hl); [lia..|].
    cbn [ac_rules with_rules]. split_and!; [split; [lia|done]|done|done|]. intros _. split_and!; try done.
    cbn [negb]. rewrite Hl. rewrite (proj2 (Nat.leb_gt _ _)), (proj2 (Nat.leb_gt _ _)) by lia.
    replace (index - 1 + 1)%nat with index by lia. rewrite H4. by rewrite with_rules_back.
  - destruct (Nat.leb_spec (length (ac_rules cfg)) (index + 1)) as [Hi|Hi].
    { split_and!; [split; [done|lia]|by rewrite with_rules_same|done|done]. }
    destruct (Hswap index (index + 1)%nat) as (Hp & H1 & H2 & H3 & H4 & Hl); [lia..|].
    cbn [ac_rules with_rules]. split_and!; [split; [lia|done]|done|done|]. intros _. split_and!; try done.
    cbn [negb]. rewrite Hl. rewrite (proj2 (Nat.leb_gt _ _)) by lia.
    destruct (Nat.eqb_spec (index + 1) 0); [lia|]. replace (index + 1 - 1)%nat with index by lia. rewrite H4. by rewrite with_rules_back.
Qed.

(** ** The listeners *)

Lemma one_system_count l : forall seen,
  (length (filter (fun p => sp_system p = true) (one_system seen l)) <= if seen then 0 else 1)%nat.
Proof.
  induction l as [|p l IH]; intros seen; cbn [one_system]; [destruct seen; cbn; lia|].
  rewrite filter_cons. cbn [sp_system]. specialize (IH (seen || sp_system p)).
  destruct (sp_system p), seen; cbn [andb negb orb] in *; case_decide; try done; cbn [length]; lia.
Qed.

(** Of the saved listeners at most one is the system's, and each has an
    address: trimmed and not empty. *)
Theorem one_system_listener (cfg : AppConfig) (l : list SocksProxy) :
  let saved := ac_socks_proxies (set_socks_proxies cfg l) in
  (length (filter (fun p => sp_system p = true) saved) <= 1)%nat /\
  Forall (fun p => word_clean (sp_listen p) /\ sp_node p <> Some []) saved /\
  (length saved <= length l)%nat.
Proof.
  cbn [ac_socks_proxies set_socks_proxies]. split; [|split].
  - pose proof (one_system_count l false) as H. etrans; [|exact H]. rewrite list_filter_filter.
    assert (forall (k : list SocksProxy), length (filter (fun p => sp_system p = true /\ sp_listen p <> []) k) <= length (filter (fun p => sp_system p = true) k))%nat as Hf.
    { induction k as [|p k IHk]; [done|]. rewrite !filter_cons. repeat case_decide; cbn [length]; try lia; naive_solver. }
    apply Hf.
  - apply Forall_forall. intros p [Hp Hin]%list_elem_of_filter. revert Hin. generalize false.
    induction l as [|q l IH]; intros seen; cbn [one_system]; [by rewrite elem_of_nil|].
    intros [->|Hin]%elem_of_cons; [|by apply (IH _ Hin)]. cbn [sp_listen sp_node] in *. split; [split; [apply trim_idem|done]|].
    destruct (sp_node q) as [n|]; cbn; [|done]. case_decide; [done|]. congruence.
  - etrans; [apply length_filter|]. generalize false. induction l as [|q l IH]; intros seen; cbn; [lia|]. specialize (IH (seen || sp_system q)). lia.
Qed.

(** The flag is given before the listeners without an address are dropped: the
    one marked first may be among them, and then no listener is the system's. *)
Example system_listener_lost :
  let blank := {| sp_listen := []; sp_node := None; sp_system := true |} in
  let real := {| sp_listen := lit "127.0.0.1:1080"; sp_node := None; sp_system := true |} in
  map sp_system (ac_socks_proxies (set_socks_proxies app_config_default [blank; real])) = [false].
Proof. by vm_compute. Qed.

(** ** The applications the driver captures *)

Lemma push_new_spec apps a : NoDup apps -> NoDup (push_new apps a) /\ forall b, b ∈ push_new apps a <-> b ∈ apps \/ b = a.
Proof.
  intros H. unfold push_new. case_decide as Ha.
  - split; [done|]. intros b. split; [by left|]. intros [?| ->]; done.
  - split.
    + apply NoDup_app. split; [done|]. split; [|apply NoDup_singleton]. intros x Hx ->%list_elem_of_singleton. done.
    + intros b. by rewrite elem_of_app, list_elem_of_singleton.
Qed.

Lemma push_all_spec l : forall apps, NoDup apps -> NoDup (fold_left push_new l apps) /\
  forall b, b ∈ fold_left push_new l apps <-> b ∈ apps \/ b ∈ l.
Proof.
  induction l as [|a l IH]; intros apps H; cbn [fold_left].
  - split; [done|]. intros b. rewrite elem_of_nil. naive_solver.
  - destruct (push_new_spec apps a H) as [H1 H2]. destruct (IH _ H1) as [H3 H4]. split; [done|].
    intros b. rewrite H4, H2, elem_of_cons. naive_solver.
Qed.

Lemma exists_cons {A} (P : A -> Prop) x l : (exists y, y ∈ x :: l /\ P y) <-> P x \/ exists y, y ∈ l /\ P y.
Proof.
  split.
  - intros (y & [->|Hy]%elem_of_cons & Hp); [by left|]. right. by exists y.
  - intros [Hp|(y & Hy & Hp)]; [exists x|exists y]; (split; [rewrite elem_of_cons; auto|done]).
Qed.

(** The driver captures exactly the applications of the split panel and
    those of the rules that send to a proxy, each once; it leaves out exactly
    the nodes given by a literal address; the rest of the split configuration is
    passed on unchanged. *)
Theorem split_from_rules (cfg : AppConfig) :
  let s := rules_to_split cfg in
  NoDup (sc_apps s) /\
  (forall a, a ∈ sc_apps s <-> a ∈ sc_apps (ac_split cfg) \/
     exists r, r ∈ ac_rules cfg /\ is_proxy (r_action r) = true /\ a ∈ r_processes r) /\
  (forall h, h ∈ sc_server_endpoints s <-> exists node ip, node ∈ ac_servers cfg /\ sp_address node = h /\ parse_ip h = Some ip) /\
  s = {| sc_mode := sc_mode (ac_split cfg); sc_apps := sc_apps s; sc_inherit_children := sc_inherit_children (ac_split cfg);
         sc_kill_switch := sc_kill_switch (ac_split cfg); sc_force_direct_cidrs := sc_force_direct_cidrs (ac_split cfg);
         sc_force_tunnel_cidrs := sc_force_tunnel_cidrs (ac_split cfg); sc_server_endpoints := sc_server_endpoints s;
         sc_driver := sc_driver (ac_split cfg) |}.
Proof.
  cbv zeta. destruct (push_all_spec (sc_apps (ac_split cfg)) [] (NoDup_nil_2)) as [H1 H2].
  assert (forall rs apps, NoDup apps ->
    let l := fold_left (fun apps r => if is_proxy (r_action r) then fold_left push_new (r_processes r) apps else apps) rs apps in
    NoDup l /\ forall a, a ∈ l <-> a ∈ apps \/ exists r, r ∈ rs /\ is_proxy (r_action r) = true /\ a ∈ r_processes r) as Hrs.
  { induction rs as [|r rs IH]; intros apps Ha; cbn [fold_left].
    - split; [done|]. intros a. split; [by left|]. intros [?|(r & Hr & _)]; [done|]. by apply elem_of_nil in Hr.
    - set (apps' := if is_proxy (r_action r) then _ else _).
      assert (NoDup apps' /\ forall a, a ∈ apps' <-> a ∈ apps \/ is_proxy (r_action r) = true /\ a ∈ r_processes r) as [H5 H6].
      { unfold apps'. destruct (is_proxy (r_action r)).
        - destruct (push_all_spec (r_processes r) apps Ha) as [H5 H6]. split; [done|]. intros a. rewrite H6. intuition.
        - split; [done|]. intros a. intuition discriminate. }
      destruct (IH apps' H5) as [H3 H4]. split; [done|]. intros a. rewrite H4, H6, exists_cons. tauto. }
  destruct (Hrs (ac_rules cfg) _ H1) as [H3 H4]. cbv zeta in H3, H4.
  unfold rules_to_split. cbn [sc_apps sc_server_endpoints]. split_and!; [done| | |done].
  - intros a. rewrite H4, H2, elem_of_nil. tauto.
  - intros h. rewrite list_elem_of_fmap. split.
    + intros (node & -> & [Hp Hin]%list_elem_of_filter). destruct (parse_ip (sp_address node)) as [ip|] eqn:E; [|done]. by exists node, ip.
    + intros (node & ip & Hin & <- & Hp). exists node. split; [done|]. apply list_elem_of_filter. by rewrite Hp.
Qed.

(** ** The engine of a session *)

Lemma route_loop_rule resolve e domain ip port rs : forall resolved pending a r p,
  route_loop resolve e domain ip port rs resolved pending = (Some a, r, p) -> exists rule, rule ∈ rs /\ r_action rule = a.
Proof.
  induction rs as [|rule rs IH]; intros resolved pending a r p; cbn [route_loop]; [done|].
  assert (forall res pen, route_loop resolve e domain ip port rs res pen = (Some a, r, p) -> exists r0, r0 ∈ rule :: rs /\ r_action r0 = a) as Hrec.
  { intros res pen H. destruct (IH _ _ _ _ _ H) as (r0 & Hin & Ha). exists r0. split; [by right|done]. }
  assert (forall res pen, (Some (r_action rule), res, pen) = (Some a, r, p) -> exists r0, r0 ∈ rule :: rs /\ r_action r0 = a) as Hhere.
  { intros res pen [= <- _ _]. exists rule. split; [left|done]. }
  repeat case_match; eauto.
Qed.

Lemma missing_refs_nil debug e : missing_geo_refs debug e = [] ->
  Forall (fun r => (r_geosite r <> [] -> geosite e <> None) /\ (r_geoip r <> [] -> geoip e <> None)) (rules e).
Proof.
  unfold missing_geo_refs. intros H. apply Forall_lookup. intros i r Hi.
  match type of H with concat (imap ?f _) = [] => assert (f i r = []) as Hf end.
  { apply concat_nil_Forall in H. rewrite Forall_lookup in H. apply (H i). by rewrite list_lookup_imap, Hi. }
  cbv beta in Hf. apply app_eq_nil in Hf as [H1 H2]. split; intros Hne Hnone.
  - rewrite bool_decide_eq_true_2 in H1 by done. by destruct (r_geosite r).
  - rewrite bool_decide_eq_true_2 in H2 by done. by destruct (r_geoip r).
Qed.

(** The engine of a session is the one asked for, or there is none. When a
    node is chosen, traffic goes directly only by a rule with the action
    [Direct], whatever the user's default; what no rule covers goes to the
    chosen node. The default node, if any, is one of the configuration; the
    rules are the user's; and no rule waits for a geo base that is not loaded. *)
Theorem session_engine (load_geosite : str -> option GeoSiteDb) (load_geoip : str -> option GeoIpDb)
    (debug : list str -> str) (resolve : DnsServer -> str -> option (list IpAddr)) (cfg : AppConfig) (server : option str) (e : Engine)
    (He : build_engine load_geosite load_geoip debug cfg server = Ok e) :
  rules e = ac_rules cfg /\
  (forall n, default_proxy e = Some n -> n ∈ map sp_name (ac_servers cfg)) /\
  (forall n, server = Some n -> default_proxy e = Some n /\ default_action e = AProxy None /\
     forall t, rd_decision (route resolve e t) = Connect ODirect -> exists r, r ∈ ac_rules cfg /\ r_action r = ADirect) /\
  (server = None -> default_proxy e = or_else (st_default_proxy (ac_settings cfg)) (st_proxy_node (ac_settings cfg))) /\
  Forall (fun r => (r_geosite r <> [] -> geosite e <> None) /\ (r_geoip r <> [] -> geoip e <> None)) (rules e).
Proof.
  unfold build_engine in He. set (known := fun name => existsb (fun s => bool_decide (sp_name s = name)) (ac_servers cfg)) in He.
  assert (forall n, known n = true -> n ∈ map sp_name (ac_servers cfg)) as Hk.
  { intros n (s & Hs & Hn%bool_decide_eq_true)%existsb_exists. apply list_elem_of_fmap. exists s. split; [done|]. by apply list_elem_of_In. }
  apply ok_bind in He as (u1 & _ & He). cbv zeta in He. apply ok_bind in He as (u2 & Hd & He).
  set (dflt := match server with Some n => Some n | None => _ end) in *.
  set (eff := with_settings cfg _) in He. destruct (missing_geo_refs _ _) as [|m ms] eqn:Em; [|done]. injection He as E. subst e.
  assert (forall tag o, outbounds (from_config load_geosite load_geoip eff) !! tag = Some o -> o <> ODirect) as Hob
    by apply config_outbounds_proxy.
  split_and!.
  - done.
  - intros n Hn. cbn in Hn. rewrite Hn in Hd. apply Hk. unfold known. by destruct (existsb _ _).
  - intros n ->. split; [done|]. split; [done|]. intros t Ht. unfold route in Ht.
    destruct (effective _ t) as [[target domain] ip].
    destruct (route_action _ _ _ _ _) as [a r] eqn:Ea. cbn [fst] in Ht.
    assert (a = ADirect) as ->.
    { apply (act_direct (from_config load_geosite load_geoip eff) a Hob). unfold act.
      destruct (act_full _ a) as [[[d c] f] fn]. exact Ht. }
    unfold route_action in Ea. destruct (route_loop _ _ _ _ _ _ _ _) as [[matched r'] p] eqn:El.
    destruct matched as [b|].
    + injection Ea as -> _. by apply route_loop_rule in El.
    + destruct p; [done|]. by cbn in Ea.
  - intros ->. done.
  - by apply (missing_refs_nil debug).
Qed.

(** A configuration with one Shadowsocks node, and the session through it. *)
Definition session_config : AppConfig :=
  with_servers app_config_default
    [{| sp_name := lit "n"; sp_protocol := Shadowsocks; sp_address := lit "1.2.3.4"; sp_port := 8388;
        sp_params := <[lit "method" := lit "aes-256-gcm"]> (<[lit "password" := lit "p"]> ∅); sp_tags := [] |}].

Definition no_geosite (_ : str) : option GeoSiteDb := None.
Definition no_geoip (_ : str) : option GeoIpDb := None.
Definition no_debug (_ : list str) : str := [].
Definition no_answer (_ : DnsServer) (_ : str) : option (list IpAddr) := None.

Lemma session_engine_witness :
  exists e, build_engine no_geosite no_geoip no_debug session_config (Some (lit "n")) = Ok e /\
    default_proxy e = Some (lit "n") /\ default_action e = AProxy None /\ outbounds e !! lit "n" <> None.
Proof.
  destruct (build_engine no_geosite no_geoip no_debug session_config (Some (lit "n"))) as [e|m|] eqn:E; [|by vm_compute in E..].
  exists e. split; [done|].
  destruct (session_engine no_geosite no_geoip no_debug no_answer session_config (Some (lit "n")) e E) as (_ & _ & H & _).
  destruct (H (lit "n") eq_refl) as (Hd & Ha & _). split; [done|]. split; [done|].
  injection E as <-. by vm_compute.
Defined.

(** ** Versions *)

Definition newer (x y : list Z) : Prop := exists i, (forall j, (j < i)%nat -> part x j = part y j) /\ part y i < part x i.

Lemma part_outside l i : (length l <= i)%nat -> part l i = 0.
Proof. intros H. unfold part. by rewrite lookup_ge_None_2. Qed.

Lemma version_gt_newer a b : version_gt a b = true <-> newer (version_parts a) (version_parts b).
Proof.
  unfold version_gt. set (x := version_parts a). set (y := version_parts b).
  destruct (list_find _ _) as [[k i]|] eqn:E.
  - apply list_find_Some in E as (Hk & Hne & Hbefore). apply lookup_seq in Hk as [-> Hk]. cbn [Nat.add] in *.
    assert (forall j, (j < k)%nat -> part x j = part y j) as Heq.
    { intros j Hj. destruct (decide (part x j = part y j)) as [|Hn]; [done|]. exfalso.
      apply (Hbefore j j); [apply lookup_seq; lia|done|done]. }
    rewrite Z.ltb_lt. split.
    + intros Hlt. by exists k.
    + intros (i & Hi & Hlt). destruct (decide (i = k)) as [->|Hne']; [done|]. destruct (decide (i < k)%nat) as [Hik|Hik].
      * rewrite Heq in Hlt by done. lia.
      * exfalso. apply Hne. apply Hi. lia.
  - apply list_find_None in E. split; [done|]. intros (i & _ & Hlt). exfalso.
    destruct (decide (i < Nat.max (length x) (length y))%nat) as [Hi|Hi].
    + assert (i ∈ seq 0 (Nat.max (length x) (length y))) as Hin by (apply elem_of_seq; lia).
      apply (proj1 (Forall_forall _ _) E) in Hin. lia.
    + rewrite !part_outside in Hlt by lia. lia.
Qed.

(** The check for updates orders versions as it should: one version is newer
    than another exactly when at the first position where their numbers
    differ (a missing number counting as 0) its number is greater. This is a
    strict order, and two versions of which neither is newer have the same
    numbers, so that an update is never offered twice nor backwards. *)
Theorem version_order (a b c : str) :
  (version_gt a b = true <-> newer (version_parts a) (version_parts b)) /\
  version_gt a a = false /\
  (version_gt a b = true -> version_gt b c = true -> version_gt a c = true) /\
  (version_gt a b = true -> version_gt b a = false) /\
  (version_gt a b = false /\ version_gt b a = false <-> forall i, part (version_parts a) i = part (version_parts b) i).
Proof.
  assert (forall x y z, newer x y -> newer y z -> newer x z) as Htrans.
  { intros x y z (i & Hi & Hli) (k & Hk & Hlk). exists (Nat.min i k). split.
    - intros j Hj. rewrite Hi, Hk by lia. done.
    - destruct (Nat.lt_trichotomy i k) as [H|[->|H]].
      + rewrite Nat.min_l by lia. rewrite <- Hk by done. done.
      + rewrite Nat.min_id. lia.
      + rewrite Nat.min_r by lia. by rewrite Hi. }
  assert (forall x, ~ newer x x) as Hirr by (intros x (i & _ & H); lia).
  assert (forall s t, version_gt s t = false <-> ~ newer (version_parts s) (version_parts t)) as Hfalse
    by (intros s t; rewrite <- version_gt_newer; by destruct (version_gt s t)).
  split_and!.
  - apply version_gt_newer.
  - by apply Hfalse.
  - rewrite !version_gt_newer. apply Htrans.
  - rewrite version_gt_newer, Hfalse. intros H1 H2. by apply (Hirr (version_parts a)), (Htrans _ (version_parts b)).
  - rewrite !Hfalse. split.
    + intros [H1 H2] i. induction i as [i IH] using lt_wf_ind.
      destruct (Z.lt_trichotomy (part (version_parts a) i) (part (version_parts b) i)) as [H|[H|H]]; [|done|].
      * exfalso. apply H2. exists i. split; [|done]. intros j Hj. symmetry. by apply IH.
      * exfalso. apply H1. by exists i.
    + intros H. split; intros (i & _ & Hi); rewrite H in Hi; lia.
Qed.

Lemma version_order_witness :
  version_gt (lit "1.10.0") (lit "1.9.3-pre") = true /\ version_gt (lit "1.9.3-pre") (lit "1.9") = true /\
  version_gt (lit "1.10.0") (lit "1.9") = true.
Proof.
  assert (version_gt (lit "1.10.0") (lit "1.9.3-pre") = true) as H1 by by vm_compute.
  assert (version_gt (lit "1.9.3-pre") (lit "1.9") = true) as H2 by by vm_compute.
  split; [done|]. split; [done|].
  destruct (version_order (lit "1.10.0") (lit "1.9.3-pre") (lit "1.9")) as (_ & _ & Ht & _). by apply Ht.
Defined.
