(* ===== verification/Export.v ===== *)
(** * Nodes written out again: share links and configuration files
    ([node_to_vless_link], [node_to_ss_link], [node_to_hysteria2_link],
    [node_to_wg_conf] of [crates/cli/src/lib.rs])

    The exporters write only some parameters, percent-encode only values, and
    put the address as it is, brackets or not. What they write is read by the
    parsers of [Link.v] and [Awg.v], and the theorems say what comes back and
    that it dials the same server in the same way. *)

From stdpp Require Import sorting.
From S2P Require Import Prelude RustStr Utf8 Model Base64 Uri Link Awg NetAddr Outbound.

(** ** [pct] *)

Definition is_ascii_alphanumeric (b : u8) : bool :=
  let v := val8 b in between 48 57 v || between 65 90 v || between 97 122 v.

(** [{b:02X}] *)
Definition hex2_upper (b : u8) : str :=
  let digit d := to_u8 (if d <? 10 then 48 + d else 65 + (d - 10)) in
  [digit (val8 b / 16); digit (val8 b mod 16)].

Definition pct_byte (b : u8) : str :=
  if is_ascii_alphanumeric b || bool_decide (b ∈ (["-"; "_"; "."; "~"]%char : list u8)) then [b]
  else lit "%" ++ hex2_upper b.

Definition pct (s : str) : str := concat (map pct_byte s).

(** ** Links *)

(** One parameter of the query: absent or empty ones are left out. *)
Definition query_item (p : ServerProfile) (k : str) : list str :=
  match sp_param p k with
  | Some (c :: v) => [k ++ lit "=" ++ pct (c :: v)]
  | _ => []
  end.

Definition query_text (q : list str) : str := match q with [] => [] | _ => lit "?" ++ join "&" q end.
Definition frag_text (name : str) : str := match name with [] => [] | _ => lit "#" ++ pct name end.
Definition addr_port (p : ServerProfile) : str := sp_address p ++ lit ":" ++ show_uint (sp_port p).

Definition VLESS_KEYS : list str :=
  ["type" : str; "security" : str; "encryption" : str; "flow" : str; "sni" : str; "pbk" : str; "sid" : str; "fp" : str;
   "host" : str; "path" : str; "alpn" : str; "serviceName" : str].

Definition node_to_vless_link (p : ServerProfile) : option str :=
  if decide (sp_protocol p = Vless) then
    uuid ← sp_param p "uuid";
    Some (lit "vless://" ++ uuid ++ lit "@" ++ addr_port p
          ++ query_text (concat (map (query_item p) VLESS_KEYS)) ++ frag_text (sp_name p))
  else None.

Definition SS_EXPORT_KEYS : list str := ["security" : str; "sni" : str; "alpn" : str; "fp" : str; "type" : str].

Definition node_to_ss_link (p : ServerProfile) : option str :=
  if decide (sp_protocol p = Shadowsocks) then
    method ← sp_param p "method";
    password ← sp_param p "password";
    Some (lit "ss://" ++ encode_standard (method ++ lit ":" ++ password) ++ lit "@" ++ addr_port p
          ++ query_text (concat (map (query_item p) SS_EXPORT_KEYS)) ++ frag_text (sp_name p))
  else None.

(** The order of [String]: lexicographic on bytes. *)
Fixpoint str_le (a b : str) : bool :=
  match a, b with
  | [], _ => true
  | _, [] => false
  | c :: a, d :: b => (val8 c <? val8 d) || ((val8 c =? val8 d) && str_le a b)
  end.

Definition entry_le (e f : str * str) : Prop := str_le (fst e) (fst f) = true.

#[export] Instance entry_le_dec e f : Decision (entry_le e f).
Proof. unfold entry_le. apply _. Defined.

(** The iteration of a [BTreeMap]. *)
Definition btree_iter (m : str_map) : list (str * str) := merge_sort entry_le (map_to_list m).

Definition hy2_query (p : ServerProfile) : list (str * str) :=
  filter (fun e => fst e <> lit "auth" /\ snd e <> []) (btree_iter (sp_params p)).

Definition node_to_hysteria2_link (p : ServerProfile) : option str :=
  if decide (sp_protocol p = Hysteria2) then
    let auth := default [] (sp_param p "auth") in
    let q := map (fun '(k, v) => k ++ lit "=" ++ pct v) (hy2_query p) in
    let userinfo := match auth with [] => [] | _ => pct auth ++ lit "@" end in
    Some (lit "hysteria2://" ++ userinfo ++ addr_port p ++ query_text q ++ frag_text (sp_name p))
  else None.

(** [export_vless_link], [export_ss_link] and [export_hysteria2_link] on the
    loaded nodes; the error is the text shown. *)
Inductive ExportError : Type :=
| NodeNotFound (name : str)
| WrongProtocol.

Definition export_link (f : ServerProfile -> option str) (servers : list ServerProfile) (name : str) : res ExportError str :=
  node ← ok_or (List.find (fun s => bool_decide (sp_name s = name)) servers) (NodeNotFound name);
  ok_or (f node) WrongProtocol.

(** ** Configuration files *)

Definition conf_line (label : str) (v : option str) : str :=
  match v with Some v => label ++ lit " = " ++ v ++ [LF] | None => [] end.

Definition AWG_LABELS : list (str * str) :=
  [(lit "Jc", lit "jc"); (lit "Jmin", lit "jmin"); (lit "Jmax", lit "jmax"); (lit "S1", lit "s1"); (lit "S2", lit "s2");
   (lit "H1", lit "h1"); (lit "H2", lit "h2"); (lit "H3", lit "h3"); (lit "H4", lit "h4")].

Definition node_to_wg_conf (p : ServerProfile) : str :=
  lit "[Interface]" ++ [LF]
  ++ conf_line "PrivateKey" (sp_param p "private_key")
  ++ conf_line "Address" (sp_param p "address")
  ++ conf_line "DNS" (sp_param p "dns")
  ++ concat (map (fun '(label, key) => conf_line label (sp_param p key)) AWG_LABELS)
  ++ [LF] ++ lit "[Peer]" ++ [LF]
  ++ conf_line "PublicKey" (sp_param p "public_key")
  ++ conf_line "PresharedKey" (sp_param p "preshared_key")
  ++ conf_line "Endpoint" (Some (addr_port p))
  ++ conf_line "AllowedIPs" (Some (default (lit "0.0.0.0/0, ::/0") (sp_param p "allowed_ips")))
  ++ conf_line "PersistentKeepalive" (sp_param p "persistent_keepalive").

(** [export_node_conf_to]: the text that is written. *)
Definition export_node_conf (servers : list ServerProfile) (name : str) : res ExportError str :=
  node ← ok_or (List.find (fun s => bool_decide (sp_name s = name)) servers) (NodeNotFound name);
  if decide (sp_protocol node = Wireguard \/ sp_protocol node = AmneziaWg) then Ok (node_to_wg_conf node)
  else Err WrongProtocol.

(** The file name of [export_node_conf]; which characters are letters or digits
    is [char::is_alphanumeric]'s table, of the standard library. *)
Definition safe_file_name (is_alphanumeric : Z -> bool) (name : list Z) : list Z :=
  map (fun c => if is_alphanumeric c || bool_decide (c ∈ [45; 95; 46]) then c else 95) name.

(** ** Specification: what an export keeps *)

Definition kept (keys : list str) (m : str_map) : str_map := filter (fun e => fst e ∈ keys /\ snd e <> []) m.

Definition export_link_of (p : ServerProfile) : option str :=
  match sp_protocol p with
  | Vless => node_to_vless_link p
  | Shadowsocks => node_to_ss_link p
  | Hysteria2 => node_to_hysteria2_link p
  | _ => None
  end.

(** The parameters that come back. *)
Definition exported_params (p : ServerProfile) : str_map :=
  match sp_protocol p with
  | Vless => kept ((lit "uuid") :: VLESS_KEYS) (sp_params p)
  | Shadowsocks => kept ["method" : str; "password" : str; "security" : str; "sni" : str; "alpn" : str; "fp" : str] (sp_params p)
  | _ => filter (fun e => snd e <> []) (sp_params p)
  end.

Definition exported (p : ServerProfile) : ServerProfile :=
  {| sp_name := sp_name p; sp_protocol := sp_protocol p; sp_address := sp_address p; sp_port := sp_port p;
     sp_params := exported_params p; sp_tags := [] |}.

(** A key of a query is written as it is. *)
Definition plain_key (k : str) : Prop := k <> [] /\ Forall (fun c => unreserved c = true) k.

Definition exportable (p : ServerProfile) : Prop :=
  let get (k : str) := sp_params p !! k in
  host_ok (sp_address p) /\ port_ok (sp_port p) /\ sp_name p <> [] /\ utf8_valid (sp_name p) = true
  /\ map_Forall (fun _ v => utf8_valid v = true) (sp_params p)
  /\ match sp_protocol p with
     | Vless => exists u, get "uuid" = Some u /\ u <> [] /\ Forall (fun c => unreserved c = true) u
     | Shadowsocks => exists m pw, get "method" = Some m /\ get "password" = Some pw /\ m <> [] /\ pw <> [] /\ ":"%char ∉ m
     | _ => map_Forall (fun k _ => plain_key k) (sp_params p)
     end.

(** The parameters [outbound_from_profile] reads. *)
Definition read_keys (k : ProtocolKind) : list str :=
  match k with
  | Vless => ["uuid" : str; "security" : str; "pbk" : str; "sid" : str; "sni" : str; "host" : str; "encryption" : str; "flow" : str]
  | Shadowsocks => ["method" : str; "password" : str; "security" : str; "sni" : str; "alpn" : str; "allow_insecure" : str; "insecure" : str]
  | Hysteria2 => ["obfs" : str; "auth" : str; "password" : str; "sni" : str; "insecure" : str; "allow_insecure" : str]
  | Tuic => ["uuid" : str; "password" : str; "alpn" : str; "sni" : str; "insecure" : str; "allow_insecure" : str]
  | Trojan => ["password" : str]
  | Socks5 | Http => ["username" : str; "password" : str]
  | Wireguard | AmneziaWg => ["private_key" : str; "public_key" : str; "preshared_key" : str; "address" : str; "dns" : str;
                              "persistent_keepalive" : str] ++ AMNEZIA_KEYS
  end.

(** ** Lemmas *)

Lemma pct_byte_spec b : pct_byte b = (if unreserved b then [b] else ["%"%char; hex_upper (val8 b / 16); hex_upper (val8 b mod 16)]).
Proof. destruct b as [[] [] [] [] [] [] [] []]; vm_compute; reflexivity. Qed.

Lemma pct_spec s : pct s = percent_encode s.
Proof. unfold pct, percent_encode. f_equal. apply map_ext, pct_byte_spec. Qed.

Lemma percent_encode_plain k : Forall (fun c => unreserved c = true) k -> percent_encode k = k.
Proof.
  unfold percent_encode. induction 1 as [|c k Hc _ IH]; [done|]. cbn [map concat]. by rewrite Hc, IH.
Qed.

Lemma plain_no c k : Forall (fun d => unreserved d = true) k -> unreserved c = false -> c ∉ k.
Proof. intros H Hc Hin. eapply Forall_forall in H; [|exact Hin]. congruence. Qed.

(** Equal parameters where it reads them give the same outbound. *)
Lemma outbound_agrees p q : sp_protocol p = sp_protocol q -> sp_address p = sp_address q -> sp_port p = sp_port q ->
  (forall k, k ∈ read_keys (sp_protocol q) -> sp_params p !! k = sp_params q !! k) ->
  outbound_from_profile p = outbound_from_profile q.
Proof.
  intros H1 H2 H3 H. unfold outbound_from_profile. rewrite H1, H2, H3.
  destruct (sp_protocol q) eqn:E; unfold vless_outbound, ss_outbound, hysteria2_outbound, tuic_outbound,
    wireguard_outbound, quic_insecure, awg_params, awg_number, wg_key, required, sp_param; rewrite ?H1, ?H2, ?E;
    repeat match goal with |- context [sp_params p !! ?k] => rewrite (H k) by (apply (bool_decide_unpack _); vm_compute; exact I) end;
    reflexivity.
Qed.

(** The pairs of a query: the parameters of some keys that are not empty. *)
Definition query_entries (m : str_map) (keys : list str) : list (str * str) :=
  concat (map (fun k => match m !! k with Some (c :: v) => [(k, c :: v)] | _ => [] end) keys).

Lemma query_items_entries p keys :
  concat (map (query_item p) keys) = map (fun '(k, v) => k ++ lit "=" ++ percent_encode v) (query_entries (sp_params p) keys).
Proof.
  unfold query_entries. induction keys as [|k keys IH]; [done|]. cbn [map concat]. rewrite map_app, IH. f_equal.
  unfold query_item, sp_param. destruct (sp_params p !! k) as [[|c v]|]; [done| |done]. cbn [map]. by rewrite pct_spec.
Qed.

Lemma query_entries_elem (m : str_map) keys k v :
  (k, v) ∈ query_entries m keys <-> k ∈ keys /\ m !! k = Some v /\ v <> [].
Proof.
  unfold query_entries. induction keys as [|k' keys IH]; cbn [map concat].
  - split; [by intros ?%elem_of_nil|by intros [?%elem_of_nil _]].
  - rewrite elem_of_app, elem_of_cons, IH. destruct (m !! k') as [[|c w]|] eqn:E.
    + split; [intros [?%elem_of_nil|?]; [done|tauto]|]. intros [[->|?] [? ?]]; [|tauto]. by simplify_eq.
    + rewrite list_elem_of_singleton. split.
      * intros [[= -> ->]|?]; [|tauto]. split; [by left|done].
      * intros [[->|?] [? ?]]; [|tauto]. left. by simplify_eq.
    + split; [intros [?%elem_of_nil|?]; [done|tauto]|]. intros [[->|?] [? ?]]; [|tauto]. by simplify_eq.
Qed.

Lemma query_entries_keys (m : str_map) keys k : k ∈ map fst (query_entries m keys) -> k ∈ keys.
Proof. intros ([k' v] & -> & H)%list_elem_of_fmap. by apply query_entries_elem in H as [? _]. Qed.

Lemma query_entries_nodup (m : str_map) keys : NoDup keys -> NoDup (map fst (query_entries m keys)).
Proof.
  unfold query_entries. induction 1 as [|k keys Hk _ IH]; [constructor|]. cbn [map concat].
  destruct (m !! k) as [[|c v]|]; [done| |done]. cbn. constructor; [|done]. intros Hin. by apply Hk, (query_entries_keys m keys).
Qed.

(** A query of plain keys is the text of its pairs, and is read as the map it came from. *)
Lemma plain_query (q : list (str * str)) : Forall (fun e => plain_key (fst e)) q ->
  join "&" (map (fun '(k, v) => k ++ lit "=" ++ percent_encode v) q) = print_query q.
Proof.
  intros H. unfold print_query. f_equal. apply map_ext_Forall. eapply Forall_impl; [exact H|]. intros [k v] [_ Hk].
  cbn [fst] in Hk. by rewrite (percent_encode_plain k).
Qed.

Lemma entries_to_params (q : list (str * str)) (m : str_map) : NoDup (map fst q) ->
  (forall k v, (k, v) ∈ q <-> m !! k = Some v) -> query_to_params q = m.
Proof.
  intros Hnd H. unfold query_to_params. rewrite fold_insert by done. rewrite (right_id_L ∅ (∪)).
  apply map_eq. intros k. apply option_eq. intros v. rewrite <- (elem_of_list_to_map (M := gmap str)) by done. apply H.
Qed.

Lemma split_addr_port p : host_ok (sp_address p) -> port_ok (sp_port p) ->
  split_host_port (addr_port p) = Ok (sp_address p, Some (sp_port p)).
Proof.
  intros Hh Hp. pose proof (host_ok_no "["%char _ Hh ltac:(set_solver)) as Hno. unfold addr_port, split_host_port.
  destruct Hh as [Hne _]. destruct (sp_address p) as [|c a] eqn:E; [done|].
  destruct (strip_prefix "[" _) as [r|] eqn:Es.
  { exfalso. apply strip_prefix_Some in Es. cbn in Es. injection Es as -> _. apply Hno. by left. }
  change (lit ":" ++ show_uint (sp_port p)) with (":"%char :: show_uint (sp_port p)).
  rewrite rfind_byte_app_at by (by apply show_port_no). rewrite take_app_length, drop_at. by rewrite parse_show_port.
Qed.

Lemma addr_port_no c p : host_ok (sp_address p) -> port_ok (sp_port p) -> c ∈ (["#"; "?"; "@"; "/"]%char : list u8) -> c ∉ addr_port p.
Proof.
  intros Hh Hp Hc. unfold addr_port. rewrite !not_elem_of_app. split_and!.
  - apply host_ok_no; [done|set_solver].
  - intros ->%list_elem_of_singleton. set_solver.
  - apply show_port_no; [done|]. repeat (apply elem_of_cons in Hc as [->|Hc]; [done|]). by apply elem_of_nil in Hc.
Qed.

Lemma frag_text_spec name : name <> [] -> frag_text name = lit "#" ++ percent_encode name.
Proof. intros H. unfold frag_text. destruct name; [done|]. by rewrite pct_spec. Qed.

Definition query_opt (q : list (str * str)) : option str := match q with [] => None | _ => Some (print_query q) end.

Lemma query_text_spec (q : list (str * str)) : Forall (fun e => plain_key (fst e)) q ->
  query_text (map (fun '(k, v) => k ++ lit "=" ++ percent_encode v) q)
  = match query_opt q with Some t => lit "?" ++ t | None => [] end.
Proof.
  intros H. destruct q as [|e q]; [done|]. unfold query_text, query_opt. rewrite <- (plain_query (e :: q)) by done. done.
Qed.

Lemma parse_query_opt (q : list (str * str)) : Forall (fun e => utf8_valid (fst e) = true /\ utf8_valid (snd e) = true) q ->
  default [] (parse_query <$> query_opt q) = q.
Proof.
  intros H. destruct q as [|e q]; [done|]. apply (parse_print_query (e :: q)); [done|].
  eapply Forall_impl; [exact H|]. by intros [k v].
Qed.

Lemma query_opt_no q t : query_opt q = Some t -> "#"%char ∉ t.
Proof. unfold query_opt. destruct q; [done|]. intros [= <-]. apply print_query_no; [done|set_solver]. Qed.

(** The link of a profile, up to its user information and its query. *)
Lemma exported_uri p (ui : option str) (q : list (str * str)) : exportable p ->
  (forall u, ui = Some u -> "#"%char ∉ u /\ "?"%char ∉ u) ->
  Forall (fun e => utf8_valid (fst e) = true /\ utf8_valid (snd e) = true) q ->
  let l := uri_text (link_scheme (sp_protocol p)) ui (addr_port p) (query_opt q) (Some (sp_name p)) in
  parse_link l = parser_of (sp_protocol p) l
  /\ uri_parse l = Ok {| scheme := link_scheme (sp_protocol p); userinfo := ui; host := sp_address p;
                         port := Some (sp_port p); query := q; fragment := Some (sp_name p) |}.
Proof.
  intros (Hh & Hp & Hn & Hv & _) Hui Hq l. split.
  - unfold l, uri_text. set (a := match ui with Some _ => _ | None => _ end). set (b := match query_opt q with Some _ => _ | None => _ end).
    replace (a ++ addr_port p ++ b ++ lit "#" ++ percent_encode (sp_name p))
      with ((a ++ addr_port p ++ b ++ lit "#") ++ percent_encode (sp_name p)) by (by rewrite <- !app_assoc).
    by apply parse_link_dispatch.
  - destruct (link_scheme_ok (sp_protocol p)) as (H1 & H2 & _). unfold l.
    rewrite (uri_parse_text _ _ _ _ _ (sp_address p) (Some (sp_port p))).
    + by rewrite parse_query_opt.
    + split_and!; try done.
      * unfold addr_port. destruct Hh as [Hne _]. by destruct (sp_address p).
      * intros c Hc. apply addr_port_no; [done|done|set_solver].
      * apply query_opt_no.
      * by intros g [= <-].
    + by apply split_addr_port.
Qed.

Lemma make_exported (p : ServerProfile) (ps : str_map) : sp_name p <> [] -> ps = exported_params p ->
  make_profile (sp_protocol p) (sp_address p) (sp_port p) ps (Some (sp_name p)) = exported p.
Proof. intros Hn ->. unfold make_profile, exported. by destruct (sp_name p). Qed.

Lemma kept_lookup (keys : list str) (m : str_map) (k v : str) : kept keys m !! k = Some v <-> m !! k = Some v /\ k ∈ keys /\ v <> [].
Proof. unfold kept. rewrite map_lookup_filter_Some. tauto. Qed.

Lemma vless_keys_plain : Forall plain_key VLESS_KEYS /\ NoDup VLESS_KEYS /\ lit "uuid" ∉ VLESS_KEYS
  /\ Forall (fun k => utf8_valid k = true) VLESS_KEYS.
Proof.
  split_and!; [|apply (bool_decide_unpack _); vm_compute; exact I..].
  repeat constructor; try done.
Qed.

Lemma entries_plain (m : str_map) (keys : list str) : Forall plain_key keys -> Forall (fun e => plain_key (fst e)) (query_entries m keys).
Proof.
  intros H. apply Forall_forall. intros e He. rewrite Forall_forall in H. apply H, (query_entries_keys m keys).
  apply list_elem_of_fmap. by exists e.
Qed.

Lemma unreserved_ascii : forall c, unreserved c = true -> val8 c < 128.
Proof. intros c H. unfold unreserved, between in H. lia. Qed.

Lemma entries_valid (m : str_map) (keys : list str) : Forall plain_key keys -> map_Forall (fun _ v => utf8_valid v = true) m ->
  Forall (fun e => utf8_valid (fst e) = true /\ utf8_valid (snd e) = true) (query_entries m keys).
Proof.
  intros Hk Hm. apply Forall_forall. intros [k v] H. apply query_entries_elem in H as (Hin & Hv & _). cbn [fst snd]. split.
  - rewrite Forall_forall in Hk. destruct (Hk _ Hin) as [_ Hp]. apply ascii_valid. eapply Forall_impl; [exact Hp|].
    apply unreserved_ascii.
  - by apply (Hm k v).
Qed.

Lemma vless_export (p : ServerProfile) : exportable p -> sp_protocol p = Vless ->
  exists l, node_to_vless_link p = Some l /\ parse_link l = Ok (exported p).
Proof.
  intros Hok Ek. pose proof Hok as (Hh & Hp & Hn & Hv & Hm & Hk). rewrite Ek in Hk. destruct Hk as (u & Hu & Hune & Hup).
  destruct vless_keys_plain as (Kp & Knd & Ku & Kv).
  set (q := query_entries (sp_params p) VLESS_KEYS).
  destruct (exported_uri p (Some u) q Hok) as [H1 H2].
  { intros w [= <-]. split; by apply plain_no with (c := _) (k := u). }
  { by apply entries_valid. }
  cbn zeta in H1, H2. rewrite Ek in H1, H2. eexists. split.
  - unfold node_to_vless_link. rewrite decide_True by done. unfold sp_param at 1. rewrite Hu. cbn [mbind option_bind].
    rewrite query_items_entries, query_text_spec by (by apply entries_plain). rewrite frag_text_spec by done. reflexivity.
  - match goal with |- parse_link ?l = _ =>
      replace l with (uri_text (link_scheme Vless) (Some u) (addr_port p) (query_opt q) (Some (sp_name p)))
        by (unfold uri_text; by rewrite <- !app_assoc) end.
    rewrite H1. cbn [parser_of]. unfold parse_vless. rewrite H2. cbn [mbind res_bind userinfo ok_or port query host fragment].
    f_equal. rewrite <- Ek. apply make_exported; [done|]. unfold exported_params. rewrite Ek.
    apply map_eq. intros k. apply option_eq. intros v. rewrite kept_lookup, lookup_insert_Some.
    assert (percent_decode u = u) as ->.
    { rewrite <- (percent_encode_plain u Hup) at 1. apply percent_decode_encode. by apply (Hm _ _ Hu). }
    unfold query_to_params. rewrite fold_insert by by apply query_entries_nodup. rewrite (right_id_L ∅ (∪)).
    rewrite <- (elem_of_list_to_map (M := gmap str)) by by apply query_entries_nodup. unfold q. rewrite query_entries_elem.
    rewrite elem_of_cons. split.
    + intros [[<- <-]|(Hne & Hin & Hkv & Hvn)]; [split_and!; [done|by left|done]|auto].
    + intros (Hkv & [->|Hin] & Hvn); [left; split; [done|congruence]|]. right. split_and!; try done. by intros <-.
Qed.

Lemma hy2_query_elem (p : ServerProfile) (k v : str) :
  (k, v) ∈ hy2_query p <-> sp_params p !! k = Some v /\ k <> lit "auth" /\ v <> [].
Proof.
  unfold hy2_query, btree_iter. rewrite list_elem_of_filter, merge_sort_Permutation, elem_of_map_to_list. cbn. tauto.
Qed.

Lemma hy2_query_nodup (p : ServerProfile) : NoDup (map fst (hy2_query p)).
Proof.
  apply filter_fst_nodup. unfold btree_iter. rewrite merge_sort_Permutation. apply NoDup_fst_map_to_list.
Qed.

Lemma hy2_export (p : ServerProfile) : exportable p -> sp_protocol p = Hysteria2 ->
  exists l, node_to_hysteria2_link p = Some l /\ parse_link l = Ok (exported p).
Proof.
  intros Hok Ek. pose proof Hok as (Hh & Hp & Hn & Hv & Hm & Hk). rewrite Ek in Hk.
  set (auth := default [] (sp_param p "auth")).
  set (ui := match auth with [] => None | _ => Some (percent_encode auth) end).
  destruct (exported_uri p ui (hy2_query p) Hok) as [H1 H2].
  { intros w. unfold ui. destruct auth as [|c a] eqn:Ea; [done|]. rewrite <- Ea. intros [= <-].
    split; apply percent_encode_no; set_solver. }
  { apply Forall_forall. intros [k v] Hkv%hy2_query_elem. destruct Hkv as (Hkv & _ & _). cbn [fst snd]. split.
    - destruct (Hk k v Hkv) as [_ Hpk]. apply ascii_valid. eapply Forall_impl; [exact Hpk|]. apply unreserved_ascii.
    - by apply (Hm k v). }
  cbn zeta in H1, H2. rewrite Ek in H1, H2. eexists. split.
  - unfold node_to_hysteria2_link. rewrite decide_True by done. fold auth.
    rewrite (map_ext (fun '(k, v) => k ++ lit "=" ++ pct v) (fun '(k, v) => k ++ lit "=" ++ percent_encode v)) by (intros [k v]; by rewrite pct_spec).
    rewrite query_text_spec.
    2: { apply Forall_forall. intros [k v] Hkv%hy2_query_elem. destruct Hkv as (Hkv & _ & _). by apply (Hk k v). }
    rewrite frag_text_spec by done. reflexivity.
  - match goal with |- parse_link ?l = _ =>
      replace l with (uri_text (link_scheme Hysteria2) ui (addr_port p) (query_opt (hy2_query p)) (Some (sp_name p))) end.
    2: { unfold uri_text, ui. rewrite pct_spec. by destruct auth. }
    rewrite H1. cbn [parser_of]. unfold parse_hysteria2. rewrite H2. cbn [mbind res_bind userinfo ok_or port query host fragment].
    f_equal. rewrite <- Ek. apply make_exported; [done|]. unfold exported_params. rewrite Ek.
    assert (forall k v, query_to_params (hy2_query p) !! k = Some v <-> (k, v) ∈ hy2_query p) as Hq.
    { intros k v. unfold query_to_params. rewrite fold_insert by apply hy2_query_nodup. rewrite (right_id_L ∅ (∪)).
      by rewrite <- (elem_of_list_to_map (M := gmap str)) by apply hy2_query_nodup. }
    apply map_eq. intros k. apply option_eq. intros v. rewrite map_lookup_filter_Some. cbn [snd].
    unfold ui, auth, sp_param. destruct (sp_params p !! ("auth" : str)) as [a|] eqn:Ea; cbn [from_option id].
    + destruct a as [|c a].
      * rewrite Hq, hy2_query_elem. split; [tauto|]. intros [Hkv Hvn]. split_and!; [done| |done]. intros ->. congruence.
      * rewrite (filter_nonempty_match _ (fun u => <["auth" : str := percent_decode u]> _)) by (by intros ?%percent_encode_nil).
        rewrite percent_decode_encode by (by apply (Hm _ _ Ea)). rewrite lookup_insert_Some, Hq, hy2_query_elem. split.
        -- intros [[<- <-]|(? & ? & ? & ?)]; done.
        -- intros [Hkv Hvn]. destruct (decide (lit "auth" = k)) as [<-|]; [left; split; [done|congruence]|]. right. by split_and!.
    + rewrite Hq, hy2_query_elem. split; [tauto|]. intros [Hkv Hvn]. split_and!; [done| |done]. intros ->. congruence.
Qed.

Definition pair_text (e : str * str) : str := let '(k, v) := e in k ++ lit "=" ++ percent_encode v.

Definition ss_entry_ok (e : str * str) : Prop :=
  plain_key (fst e) /\ utf8_valid (snd e) = true /\ replace "allowInsecure" "allow_insecure" (fst e) = fst e.

Lemma ss_fold_entries (q : list (str * str)) : Forall ss_entry_ok q -> forall m0 : str_map,
  fold_left ss_query_pair (map pair_text q) m0
  = fold_left (fun m '(k, v) => <[k := v]> m) (filter (fun e => fst e ∈ SS_KEYS) q) m0.
Proof.
  induction 1 as [|[k v] q (Hk & Hv & Hr) _ IH]; intros m0; [done|]. cbn [map fold_left fst snd] in *. rewrite IH, filter_cons.
  cbn [fst]. unfold ss_query_pair, pair_text. change (lit "=" ++ percent_encode v) with ("="%char :: percent_encode v).
  destruct Hk as [_ Hk]. rewrite split_once_app by by apply (plain_no _ k).
  case_decide as Hin; [|done]. cbn [fold_left]. by rewrite Hr, percent_decode_encode.
Qed.

Lemma ss_split_entries (q : list (str * str)) : Forall ss_entry_ok q ->
  filter (fun p => is_empty p = false) (split_char "&"%char (join "&" (map pair_text q))) = map pair_text q.
Proof.
  intros H. destruct q as [|e q]; [done|]. change (lit "&") with ["&"%char]. rewrite split_join_pieces; [|done|].
  - revert H. generalize (e :: q). intros l. induction 1 as [|[k v] l (Hk & _) _ IH]; [done|]. cbn [map]. rewrite filter_cons_True, IH; [done|].
    destruct Hk as [Hne _]. cbn [fst] in Hne. cbn [pair_text]. by destruct k.
  - apply Forall_map. eapply Forall_impl; [exact H|]. intros [k v] ((_ & Hk) & _). cbn [fst pair_text] in *.
    rewrite !not_elem_of_app. split_and!; [by apply (plain_no _ k)|by intros ?%list_elem_of_singleton|apply percent_encode_no; set_solver].
Qed.

Lemma ss_keys_plain : Forall (fun k => plain_key k /\ replace "allowInsecure" "allow_insecure" k = k) SS_EXPORT_KEYS /\ NoDup SS_EXPORT_KEYS.
Proof. split; [|apply (bool_decide_unpack _); vm_compute; exact I]. repeat constructor; try done. Qed.

Lemma ss_kept_keys (k : str) : k ∈ SS_EXPORT_KEYS /\ k ∈ SS_KEYS <-> k ∈ (["security" : str; "sni" : str; "alpn" : str; "fp" : str] : list str).
Proof.
  split.
  - intros [H1 H2]. unfold SS_EXPORT_KEYS in H1.
    repeat (apply elem_of_cons in H1 as [->|H1]; [first [apply (bool_decide_unpack _); vm_compute; exact I
      |exfalso; revert H2; apply (bool_decide_unpack _); vm_compute; exact I]|]). by apply elem_of_nil in H1.
  - intros H. repeat (apply elem_of_cons in H as [->|H]; [split; apply (bool_decide_unpack _); vm_compute; exact I|]).
    by apply elem_of_nil in H.
Qed.

Lemma ss_not_entry (m : str_map) (k : str) (P : str * str -> Prop) `{!forall x, Decision (P x)} : k ∉ SS_EXPORT_KEYS ->
  k ∉ map fst (filter P (query_entries m SS_EXPORT_KEYS)).
Proof.
  intros Hk Hin. apply Hk. apply list_elem_of_fmap in Hin as ([k' v'] & -> & Hin). apply list_elem_of_filter in Hin as [_ Hin].
  by apply query_entries_elem in Hin as [? _].
Qed.

Lemma ss_export (p : ServerProfile) : exportable p -> sp_protocol p = Shadowsocks ->
  exists l, node_to_ss_link p = Some l /\ parse_link l = Ok (exported p).
Proof.
  intros (Hh & Hp & Hn & Hv & Hm & Hk) Ek. rewrite Ek in Hk. destruct Hk as (me & pw & Hme & Hpw & Hmne & Hpne & Hcol).
  destruct ss_keys_plain as [Kp Knd]. remember (query_entries (sp_params p) SS_EXPORT_KEYS) as qs eqn:Edef.
  assert (Forall ss_entry_ok qs) as Hq.
  { subst qs. apply Forall_forall. intros [k v] Hkv%query_entries_elem. destruct Hkv as (Hin & Hkv & _).
    rewrite Forall_forall in Kp. destruct (Kp _ Hin) as [? ?]. split_and!; [done|by apply (Hm k v)|done]. }
  set (qt := match qs with [] => None | _ => Some (join "&" (map pair_text qs)) end).
  exists (ss_text me pw (addr_port p) qt (Some (sp_name p))). split.
  - unfold node_to_ss_link. rewrite decide_True by done. unfold sp_param at 1 2. rewrite Hme, Hpw. cbn [mbind option_bind].
    rewrite query_items_entries, frag_text_spec by done. rewrite <- Edef. unfold ss_text, qt, query_text. by destruct qs.
  - pose proof (parse_ss_text me pw (addr_port p) qt (Some (sp_name p)) (sp_address p) (sp_port p)) as E.
    assert (exists t, ss_text me pw (addr_port p) qt (Some (sp_name p)) = link_scheme Shadowsocks ++ lit "://" ++ t ++ percent_encode (sp_name p)) as [t Et].
    { unfold ss_text. set (a := encode_standard _). set (b := match qt with Some _ => _ | None => _ end).
      exists (a ++ lit "@" ++ addr_port p ++ b ++ lit "#"). by rewrite <- !app_assoc. }
    rewrite Et, parse_link_dispatch, <- Et by done. cbn [parser_of]. rewrite E; clear E; try done.
    + f_equal. rewrite <- Ek. apply make_exported; [done|]. unfold exported_params. rewrite Ek.
      assert (filter (fun p => is_empty p = false) (split_char "&"%char (default [] qt)) = map pair_text qs) as ->.
      { unfold qt. destruct qs as [|e qs']; [done|]. by apply ss_split_entries. }
      rewrite ss_fold_entries by done. rewrite fold_insert by by (subst qs; by apply filter_fst_nodup, query_entries_nodup).
      apply map_eq. intros k. apply option_eq. intros v. rewrite kept_lookup, lookup_union_Some_raw.
      rewrite <- !(elem_of_list_to_map (M := gmap str)), <- not_elem_of_list_to_map by by (subst qs; by apply filter_fst_nodup, query_entries_nodup).
      rewrite list_elem_of_filter. rewrite Edef, query_entries_elem. cbn [fst]. rewrite !lookup_insert_Some, lookup_empty. split.
      * intros [(H1 & H2 & H3 & H4)|[_ [[<- <-]|[_ [[<- <-]|[_ ?]]]]]]; [|split_and!; [done|right; left|done]|split_and!; [done|left|done]|done].
        split_and!; [done| |done]. do 2 right. apply ss_kept_keys. done.
      * intros (H1 & H2 & H3). apply elem_of_cons in H2 as [->|H2]; [|apply elem_of_cons in H2 as [->|H2]].
        -- right. split; [|right; split; [done|left; split; [done|congruence]]]. apply ss_not_entry. by apply (bool_decide_unpack _).
        -- right. split; [|left; split; [done|congruence]]. apply ss_not_entry. by apply (bool_decide_unpack _).
        -- left. apply ss_kept_keys in H2 as [? ?]. by split_and!.
    + by apply (Hm _ _ Hme).
    + by apply (Hm _ _ Hpw).
    + intros c Hc. by apply addr_port_no.
    + by apply split_addr_port.
    + intros w Hw. unfold qt in Hw. destruct qs as [|e qs']; [done|]. apply (inj Some) in Hw. subst w.
      change (pair_text) with (fun '(k, v) => k ++ lit "=" ++ percent_encode v : str). rewrite (plain_query (e :: qs')).
      * apply print_query_no; [done|set_solver].
      * eapply Forall_impl; [exact Hq|]. by intros e' (? & _).
    + by intros g [= <-].
Qed.

Lemma exported_lookup (p : ServerProfile) (k : str) : sp_protocol p ∈ [Vless; Shadowsocks; Hysteria2] ->
  k ∈ read_keys (sp_protocol p) -> sp_params p !! k <> Some [] ->
  (sp_protocol p = Shadowsocks -> k ∈ (["allow_insecure" : str; "insecure" : str] : list str) -> sp_params p !! k = None) ->
  exported_params p !! k = sp_params p !! k.
Proof.
  intros Hkind Hk Hne Hss. apply option_eq. intros v. unfold exported_params.
  repeat (apply elem_of_cons in Hkind as [E|Hkind]); [..|by apply elem_of_nil in Hkind]; rewrite E in *.
  - rewrite kept_lookup. split; [tauto|]. intros Hv. split_and!; [done| |congruence].
    unfold read_keys in Hk. repeat (apply elem_of_cons in Hk as [->|Hk]; [by apply (bool_decide_unpack _)|]). by apply elem_of_nil in Hk.
  - rewrite kept_lookup. split; [tauto|]. intros Hv. split_and!; [done| |congruence].
    unfold read_keys in Hk. do 5 (apply elem_of_cons in Hk as [->|Hk]; [by apply (bool_decide_unpack _)|]).
    rewrite Hss in Hv by done. done.
  - rewrite map_lookup_filter_Some. split; [tauto|]. intros Hv. split; [done|]. cbn. congruence.
Qed.

Lemma parse_exported (p : ServerProfile) : exportable p -> sp_protocol p ∈ [Vless; Shadowsocks; Hysteria2] ->
  exists l, export_link_of p = Some l /\ parse_link l = Ok (exported p).
Proof.
  intros Hok Hk. unfold export_link_of.
  repeat (apply elem_of_cons in Hk as [E|Hk]; [rewrite E; eauto using vless_export, ss_export, hy2_export|]). by apply elem_of_nil in Hk.
Qed.

(** What a link has no field for, though the program reads it. *)
Definition lost_keys (k : ProtocolKind) : list str :=
  match k with Shadowsocks => ["allow_insecure" : str; "insecure" : str] | _ => [] end.

(** The same outbound, but for a Shadowsocks node over TLS that does not verify
    certificates. *)
Definition unverified (o : Outbound) : Outbound :=
  match o with
  | OShadowsocks c => OShadowsocks (mkSs (ss_server c) (ss_method c) (ss_password c) ((fun t => mkSsTls (st_sni t) (st_alpn t) true) <$> ss_tls c))
  | o => o
  end.

Lemma exported_lost (p : ServerProfile) k : k ∈ lost_keys (sp_protocol p) -> exported_params p !! k = None.
Proof.
  unfold lost_keys, exported_params. intros Hk. destruct (sp_protocol p); try by apply elem_of_nil in Hk.
  apply eq_None_not_Some. intros [v (_ & Hin & _)%kept_lookup]. revert Hin.
  repeat (apply elem_of_cons in Hk as [->|Hk]; [by apply (bool_decide_unpack _); vm_compute|]). by apply elem_of_nil in Hk.
Qed.

Lemma exported_kept (p : ServerProfile) k : sp_protocol p ∈ [Vless; Shadowsocks; Hysteria2] -> k ∈ read_keys (sp_protocol p) ->
  k ∉ lost_keys (sp_protocol p) -> sp_params p !! k <> Some [] -> exported_params p !! k = sp_params p !! k.
Proof. intros Hkind Hk Hl Hne. apply exported_lookup; [done..|]. intros Es Hin. rewrite Es in Hl. by destruct Hl. Qed.

Lemma exported_ss_outbound (p : ServerProfile) : sp_protocol p = Shadowsocks -> (forall k, k ∈ read_keys Shadowsocks -> sp_params p !! k <> Some []) ->
  outbound_from_profile (exported p) = (o ← outbound_from_profile p; Ok (unverified o)).
Proof.
  intros Es Hne.
  assert (forall k, k ∈ read_keys Shadowsocks -> k ∉ lost_keys Shadowsocks -> sp_param (exported p) k = sp_param p k) as Hk.
  { intros k H1 H2. unfold sp_param. cbn [exported sp_params]. apply exported_kept; rewrite ?Es; [set_solver|done|done|by apply Hne]. }
  assert (forall k, k ∈ lost_keys Shadowsocks -> sp_param (exported p) k = None) as Hn
    by (intros k H; apply exported_lost; by rewrite Es).
  unfold outbound_from_profile. cbn [exported sp_protocol]. rewrite Es. unfold ss_outbound, required.
  rewrite (Hk "method"), (Hk "password"), (Hk "security"), (Hk "sni"), (Hk "alpn"), (Hn "allow_insecure"), (Hn "insecure")
    by (apply (bool_decide_unpack _); vm_compute; exact I).
  cbn [sp_address sp_port exported].
  destruct (sp_param p "method") as [m|]; [|done]. cbn [ok_or mbind res_bind]. destruct (method_from_name m) as [me|]; [|done].
  cbn [ok_or mbind res_bind]. destruct (sp_param p "password") as [pw|]; [|done]. cbn [ok_or mbind res_bind]. by destruct (bool_decide _).
Qed.

Lemma other_unverified (p : ServerProfile) : sp_protocol p <> Shadowsocks ->
  outbound_from_profile p = (o ← outbound_from_profile p; Ok (unverified o)).
Proof.
  intros Hs. destruct (outbound_from_profile p) as [o| |] eqn:E; [|done..]. cbn [mbind res_bind]. f_equal. destruct o; try done. exfalso.
  unfold outbound_from_profile in E. destruct (sp_protocol p); try done;
    unfold vless_outbound, tuic_outbound, hysteria2_outbound, wireguard_outbound in E;
    repeat match type of E with
           | (_ ≫= _) = Ok _ => apply ok_bind in E as (? & _ & E)
           | (if ?b then _ else _) = Ok _ => destruct b; [discriminate|]
           end; discriminate.
Qed.

Lemma exported_outbound (p : ServerProfile) : sp_protocol p ∈ [Vless; Shadowsocks; Hysteria2] ->
  (forall k, k ∈ read_keys (sp_protocol p) -> sp_params p !! k <> Some []) ->
  outbound_from_profile (exported p) = (o ← outbound_from_profile p; Ok (unverified o)).
Proof.
  intros Hkind Hne. destruct (decide (sp_protocol p = Shadowsocks)) as [Es|Hs].
  - apply exported_ss_outbound; [done|]. by rewrite <- Es.
  - rewrite <- other_unverified by done. apply outbound_agrees; [done..|]. intros k Hk.
    apply exported_kept; [done|done| |by apply Hne]. unfold lost_keys. destruct (sp_protocol p); try done; by apply not_elem_of_nil.
Qed.

(** *** The configuration file *)

Definition pair_items (ps : list (str * option str)) : list conf_item :=
  concat (map (fun '(l, o) => match o with Some v => [Pair l v None] | None => [] end) ps).

(** The labelled values of both sections, in the order in which they are written. *)
Definition interface_pairs (p : ServerProfile) : list (str * option str) :=
  [(lit "PrivateKey", sp_param p "private_key"); (lit "Address", sp_param p "address"); (lit "DNS", sp_param p "dns")]
  ++ map (fun '(label, key) => (label, sp_param p key)) AWG_LABELS.

Definition peer_pairs (p : ServerProfile) : list (str * option str) :=
  [(lit "PublicKey", sp_param p "public_key"); (lit "PresharedKey", sp_param p "preshared_key");
   (lit "Endpoint", Some (addr_port p)); (lit "AllowedIPs", Some (default (lit "0.0.0.0/0, ::/0") (sp_param p "allowed_ips")));
   (lit "PersistentKeepalive", sp_param p "persistent_keepalive")].

Definition conf_items (p : ServerProfile) : list conf_item :=
  Section_ "Interface" :: pair_items (interface_pairs p) ++ [Blank; Section_ "Peer"] ++ pair_items (peer_pairs p).

Lemma print_conf_app a b : print_conf (a ++ b) = print_conf a ++ print_conf b.
Proof. unfold print_conf. by rewrite !map_app, concat_app. Qed.

Lemma conf_line_items l o : conf_line l o = print_conf (pair_items [(l, o)]).
Proof. destruct o as [v|]; [|done]. unfold print_conf. cbn. by rewrite !app_nil_r, <- !app_assoc. Qed.

Lemma conf_lines_items (ps : list (str * option str)) : concat (map (fun '(l, o) => conf_line l o) ps) = print_conf (pair_items ps).
Proof.
  induction ps as [|[l o] ps IH]; [done|]. cbn [map concat]. rewrite IH, conf_line_items, <- print_conf_app. f_equal.
  unfold pair_items. cbn [map concat]. by rewrite app_nil_r.
Qed.

Lemma wg_conf_items p : node_to_wg_conf p = print_conf (conf_items p).
Proof.
  unfold conf_items. change (Section_ "Interface" :: ?x) with ([Section_ "Interface"] ++ x). rewrite !print_conf_app, <- !conf_lines_items.
  unfold interface_pairs, peer_pairs. rewrite map_app, concat_app. cbn [map concat]. rewrite map_map, !app_nil_r.
  rewrite (map_ext (fun x : str * str => _) (fun '(label, key) => conf_line label (sp_param p key))) by (by intros []).
  unfold node_to_wg_conf. rewrite <- !app_assoc. reflexivity.
Qed.

(** What reading the pairs does to the parameters. *)
Definition insert_pairs (ps : list (str * option str)) (m : str_map) : str_map :=
  fold_left (fun m '(k, o) => match o with Some v => <[k := v]> m | None => m end) ps m.

Definition normal_pairs (ps : list (str * option str)) : list (str * option str) := map (fun '(l, o) => (normalize_key l, o)) ps.

Lemma conf_params_pairs (ps : list (str * option str)) (rest : list conf_item) (m : str_map) :
  conf_params (pair_items ps ++ rest) true m = conf_params rest true (insert_pairs (normal_pairs ps) m).
Proof.
  revert m. induction ps as [|[l o] ps IH]; intros m; [done|]. unfold pair_items. cbn [map concat]. rewrite <- app_assoc.
  fold (pair_items ps). destruct o as [v|]; cbn [app conf_params]; by rewrite IH.
Qed.

Lemma insert_pairs_lookup (ps : list (str * option str)) (m : str_map) (key : str) : NoDup (map fst ps) ->
  insert_pairs ps m !! key = match field ps key with Some v => Some v | None => m !! key end.
Proof.
  revert m. induction ps as [|[k o] ps IH]; intros m Hnd; [done|]. apply NoDup_cons in Hnd as [Hk Hnd].
  unfold insert_pairs. cbn [fold_left]. fold (insert_pairs ps (match o with Some v => <[k := v]> m | None => m end)).
  rewrite IH, field_cons by done. case_decide as Hd.
  - subst key. assert (field ps k = None) as ->.
    { unfold field. destruct (list_find _ ps) as [[i [k' o']]|] eqn:E; [|done].
      exfalso. apply list_find_Some in E as (Hi & He & _). cbn in He. subst k'. apply Hk, list_elem_of_fmap.
      exists (k, o'). split; [done|]. by eapply list_elem_of_lookup_2. }
    destruct o; [by rewrite lookup_insert_eq|done].
  - destruct (field ps key); [done|]. destruct o; [by rewrite lookup_insert_ne|done].
Qed.

(** The keys of the file. *)
Definition CONF_KEYS : list str := read_keys AmneziaWg ++ ["allowed_ips" : str].

(** A value that stands on a line of its own. *)
Definition value_ok (v : str) : Prop := trimmed v /\ no_comment v /\ LF ∉ v.

Definition conf_exportable (p : ServerProfile) : Prop :=
  host_ok (sp_address p) /\ port_ok (sp_port p) /\ value_ok (addr_port p)
  /\ (forall k v, k ∈ CONF_KEYS -> sp_params p !! k = Some v -> value_ok v).

Lemma ends_cr_trimmed (x v : str) : trimmed v -> ends_cr (x ++ v) = false.
Proof.
  intros [_ (c & t & -> & Hc)]. unfold ends_cr. destruct (ends_with _ _) eqn:E; [|done]. exfalso.
  apply ends_with_spec in E as [k E]. rewrite app_assoc in E. apply app_inj_tail in E as [_ ->]. by vm_compute in Hc.
Qed.


(** The labels of the file. *)
Definition label_shape (l : str) : bool :=
  forallb (fun c => graphic c && negb (bool_decide (c ∈ (["#"; ";"; "="; "["]%char : list u8)))) l && negb (is_empty l).

Lemma pair_item_ok (l v : str) : label_shape l = true -> value_ok v -> item_ok (Pair l v None).
Proof.
  intros [H1 H2]%andb_true_iff (Tv & Nv & Fv). rewrite forallb_forall in H1.
  assert (Forall (fun c => graphic c = true) l) as Hg.
  { apply Forall_forall. intros c Hc%list_elem_of_In. by apply H1, andb_true_iff in Hc as [? _]. }
  assert (forall c, c ∈ (["#"; ";"; "="; "["]%char : list u8) -> c ∉ l) as Hn.
  { intros c Hc Hin%list_elem_of_In. apply H1, andb_true_iff in Hin as [_ Hin]. by rewrite bool_decide_eq_true_2 in Hin. }
  assert (trimmed l) as Tl by (apply all_graphic_trimmed; [by destruct l|done]).
  assert (LF ∉ l) as Fl by (intros Hin; eapply Forall_forall in Hg; [|exact Hin]; done).
  split; [split; cbn [print_item]|].
  - rewrite app_nil_r, !not_elem_of_app. split_and!; [done|by apply (bool_decide_unpack _)|done].
  - rewrite app_nil_r, app_assoc. by apply ends_cr_trimmed.
  - split_and!; try done; try (apply Hn; set_solver). split; apply Hn; set_solver.
Qed.

Lemma pair_items_ok (ps : list (str * option str)) :
  Forall (fun e => label_shape (fst e) = true /\ forall v, snd e = Some v -> value_ok v) ps -> Forall item_ok (pair_items ps).
Proof.
  induction 1 as [|[l o] ps [Hl Hv] _ IH]; [constructor|]. unfold pair_items. cbn [map concat fst snd] in *.
  destruct o as [v|]; [|done]. constructor; [by apply pair_item_ok; auto|done].
Qed.

Lemma default_ips_ok : value_ok (lit "0.0.0.0/0, ::/0").
Proof.
  split_and!; [|by apply no_comment_lit|by apply (bool_decide_unpack _)]. split; [by eexists _, _|].
  exists "0"%char, (lit "0.0.0.0/0, ::/"). done.
Qed.

Lemma conf_items_ok p : conf_exportable p -> Forall item_ok (conf_items p).
Proof.
  intros (Hh & Hp & Ha & Hv).
  assert (forall k v, k ∈ CONF_KEYS -> sp_param p k = Some v -> value_ok v) as Hv' by exact Hv.
  unfold conf_items. constructor; [|apply Forall_app; split; [|apply Forall_app; split]].
  - split; [split; [by apply (bool_decide_unpack _)|done]|]. split; [by apply all_graphic_trimmed; [|repeat constructor]|by apply no_comment_lit].
  - apply pair_items_ok. unfold interface_pairs, AWG_LABELS. cbn [map app]. repeat (constructor; [split; [done|]; cbn [snd]; intros v Hp'; by eapply Hv', Hp'; apply (bool_decide_unpack _); vm_compute|]). constructor.
  - constructor; [split; [split; [apply not_elem_of_nil|done]|done]|]. constructor; [|constructor].
    split; [split; [by apply (bool_decide_unpack _)|done]|]. split; [by apply all_graphic_trimmed; [|repeat constructor]|by apply no_comment_lit].
  - apply pair_items_ok. unfold peer_pairs.
    pose proof default_ips_ok as Hd.
    rewrite !Forall_cons. cbn [fst snd]. split_and!; try done; intros v Hp'.
    + eapply Hv', Hp'. apply (bool_decide_unpack _). by vm_compute.
    + eapply Hv', Hp'. apply (bool_decide_unpack _). by vm_compute.
    + by injection Hp' as <-.
    + apply (inj Some) in Hp'. subst v. destruct (sp_param p "allowed_ips") as [w|] eqn:E; [|exact Hd]. cbn [from_option id]. eapply Hv', E. apply (bool_decide_unpack _). by vm_compute.
    + eapply Hv', Hp'. apply (bool_decide_unpack _). by vm_compute.
Qed.

(** The parameters that are read back. *)
Definition conf_map (p : ServerProfile) : str_map :=
  insert_pairs (normal_pairs (peer_pairs p)) (insert_pairs (normal_pairs (interface_pairs p)) ∅).

Lemma conf_map_spec p : conf_params (conf_items p) false ∅ = conf_map p.
Proof.
  unfold conf_items. cbn [conf_params]. change (known_section "Interface") with true. rewrite conf_params_pairs.
  cbn [app conf_params]. change (known_section "Peer") with true.
  rewrite <- (app_nil_r (pair_items (peer_pairs p))). by rewrite conf_params_pairs.
Qed.

Lemma conf_map_lookup (p : ServerProfile) (key : str) :
  conf_map p !! key = match field (normal_pairs (peer_pairs p)) key with
                      | Some v => Some v
                      | None => field (normal_pairs (interface_pairs p)) key
                      end.
Proof.
  unfold conf_map. rewrite !insert_pairs_lookup, lookup_empty by (apply (bool_decide_unpack _); vm_compute; exact I).
  by repeat case_match.
Qed.

Lemma normal_peer p : normal_pairs (peer_pairs p) =
  [(lit "public_key", sp_param p "public_key"); (lit "preshared_key", sp_param p "preshared_key");
   (lit "endpoint", Some (addr_port p)); (lit "allowed_ips", Some (default (lit "0.0.0.0/0, ::/0") (sp_param p "allowed_ips")));
   (lit "persistent_keepalive", sp_param p "persistent_keepalive")].
Proof. reflexivity. Qed.

Lemma normal_interface p : normal_pairs (interface_pairs p) =
  [(lit "private_key", sp_param p "private_key"); (lit "address", sp_param p "address"); (lit "dns", sp_param p "dns")]
  ++ map (fun k => (k, sp_param p k)) AMNEZIA_KEYS.
Proof. reflexivity. Qed.

Ltac find_field := rewrite ?field_cons; repeat (rewrite decide_False by (apply (bool_decide_unpack _); vm_compute; exact I));
  try rewrite decide_True by done.

Lemma conf_map_read (p : ServerProfile) (key : str) : key ∈ read_keys AmneziaWg -> conf_map p !! key = sp_params p !! key.
Proof.
  intros H. rewrite conf_map_lookup, normal_peer, normal_interface. unfold read_keys, AMNEZIA_KEYS in *. cbn [app map] in *.
  fold (sp_param p key).
  repeat (apply elem_of_cons in H as [->|H]; [find_field; by destruct (sp_param p _)|]). by apply elem_of_nil in H.
Qed.

Lemma conf_map_endpoint p : conf_map p !! ("endpoint" : str) = Some (addr_port p).
Proof. rewrite conf_map_lookup, normal_peer. by find_field. Qed.

(** ** Properties *)

(** C28. The link the program exports for a VLESS, Shadowsocks or Hysteria2 node is
    imported again as a node with the same name, kind, address and port. Every
    parameter the program reads for that kind and that is not empty comes back
    with its value, except that a Shadowsocks link has no field for whether
    certificates are verified. So, when no parameter it reads is empty, a VLESS
    or Hysteria2 node dials exactly as the original does, and a Shadowsocks node
    dials as the original does but never verifies certificates: exactly as the
    original when that says nothing about them, and without the verification when
    it demands it. *)
Theorem exported_link_reads_back (p : ServerProfile) (Hok : exportable p)
    (Hkind : sp_protocol p ∈ [Vless; Shadowsocks; Hysteria2]) :
  exists l q, export_link_of p = Some l /\ parse_link l = Ok q
    /\ (sp_name q = sp_name p /\ sp_protocol q = sp_protocol p /\ sp_address q = sp_address p /\ sp_port q = sp_port p)
    /\ (forall k, k ∈ read_keys (sp_protocol p) -> k ∉ lost_keys (sp_protocol p) -> sp_params p !! k <> Some [] ->
          sp_params q !! k = sp_params p !! k)
    /\ (forall k, k ∈ lost_keys (sp_protocol p) -> sp_params q !! k = None)
    /\ ((forall k, k ∈ read_keys (sp_protocol p) -> sp_params p !! k <> Some []) ->
          outbound_from_profile q = (o ← outbound_from_profile p; Ok (unverified o))
          /\ ((forall k, k ∈ lost_keys (sp_protocol p) -> sp_params p !! k = None) -> outbound_from_profile q = outbound_from_profile p)).
Proof.
  destruct (parse_exported p Hok Hkind) as (l & Hl & Hp). exists l, (exported p). split_and!; try done.
  - intros k. by apply exported_kept.
  - intros k. by apply exported_lost.
  - intros Hne. split; [by apply exported_outbound|]. intros Hlost. apply outbound_agrees; [done..|]. intros k Hk.
    apply exported_lookup; [done|done|by apply Hne|]. intros Es Hin. apply Hlost. by rewrite Es.
Qed.

Definition verifying_ss : ServerProfile :=
  {| sp_name := "home"; sp_protocol := Shadowsocks; sp_address := "h.example"; sp_port := 443;
     sp_params := list_to_map [(lit "method", lit "aes-256-gcm"); (lit "password", lit "pw"); (lit "security", lit "tls");
                               (lit "allow_insecure", lit "0")]; sp_tags := [] |}.

Lemma exported_link_reads_back_witness :
  export_link_of verifying_ss = Some (lit "ss://YWVzLTI1Ni1nY206cHc=@h.example:443?security=tls#home")
  /\ (exists l q, export_link_of verifying_ss = Some l /\ parse_link l = Ok q
      /\ outbound_from_profile q = (o ← outbound_from_profile verifying_ss; Ok (unverified o)))
  /\ (match outbound_from_profile verifying_ss, outbound_from_profile (exported verifying_ss) with
      | Ok (OShadowsocks a), Ok (OShadowsocks b) => (st_insecure <$> ss_tls a, st_insecure <$> ss_tls b)
      | _, _ => (None, None)
      end = (Some false, Some true)).
Proof.
  split; [vm_compute; reflexivity|]. split; [|vm_compute; reflexivity].
  destruct (exported_link_reads_back verifying_ss) as (l & q & H1 & H2 & _ & _ & _ & H3); [| |exists l, q; split_and!; [done..|apply H3]].
  - unfold exportable, host_ok, port_ok. cbn [verifying_ss sp_name sp_protocol sp_address sp_port sp_params]. split_and!; try done.
    + apply (bool_decide_unpack _). vm_compute. exact I.
    + apply (bool_decide_unpack _). vm_compute. exact I.
    + exists (lit "aes-256-gcm"), (lit "pw"). split_and!; try (vm_compute; reflexivity); try done. apply (bool_decide_unpack _). vm_compute. exact I.
  - apply (bool_decide_unpack _). vm_compute. exact I.
  - assert (map_Forall (fun (_ : str) v => v <> []) (sp_params verifying_ss)) as Hv by (apply (bool_decide_unpack _); vm_compute; exact I).
    intros k _ E. by apply (Hv k []).
Defined.

(** Whether a node has an obfuscation parameter, which is what makes a file one of AmneziaWG. *)
Definition obfuscated (p : ServerProfile) : bool := existsb (fun k => bool_decide (is_Some (sp_params p !! k))) AMNEZIA_KEYS.

Lemma conf_map_obfuscated p : existsb (fun k => bool_decide (is_Some (conf_map p !! k))) AMNEZIA_KEYS = obfuscated p.
Proof.
  unfold obfuscated. assert (forall k, k ∈ AMNEZIA_KEYS -> conf_map p !! k = sp_params p !! k) as H.
  { intros k Hk. apply conf_map_read. unfold read_keys. rewrite elem_of_app. by right. }
  unfold AMNEZIA_KEYS in *. cbn [existsb]. rewrite !H by (apply (bool_decide_unpack _); vm_compute; exact I). done.
Qed.

Lemma plain_value v : forallb (fun c => graphic c && negb (is_char "#"%char c || is_char ";"%char c)) v && negb (is_empty v) = true -> value_ok v.
Proof.
  intros [H1 H2]%andb_true_iff. rewrite forallb_forall in H1.
  assert (Forall (fun c => graphic c = true) v) as Hg.
  { apply Forall_forall. intros c Hc%list_elem_of_In. by apply H1, andb_true_iff in Hc as [? _]. }
  split_and!.
  - apply all_graphic_trimmed; [by destruct v|done].
  - apply no_comment_lit, forallb_forall. intros c Hc. by apply H1, andb_true_iff in Hc as [_ ?].
  - intros Hin. eapply Forall_forall in Hg; [|exact Hin]. done.
Qed.

(** The node an exported file describes. *)
Definition conf_node (p : ServerProfile) : ServerProfile :=
  {| sp_name := addr_port p; sp_protocol := if obfuscated p then AmneziaWg else Wireguard; sp_address := sp_address p;
     sp_port := sp_port p; sp_params := conf_map p; sp_tags := [] |}.

Lemma read_exported_conf p text : conf_exportable p -> is_empty (trim text) = false -> lines text = map print_item (conf_items p) ->
  parse_awg_conf text = Ok (conf_node p).
Proof.
  intros Hok Hne Hl. pose proof Hok as (Hh & Hp & _ & _). unfold parse_awg_conf. rewrite Hne, Hl.
  destruct (awg_loop_items _ (conf_items_ok p Hok) false ∅) as [i ->].
  cbn [mbind res_bind snd]. rewrite conf_map_spec. unfold awg_profile. rewrite conf_map_endpoint. cbn [ok_or mbind res_bind].
  rewrite split_addr_port by done. cbn [ok_or mbind res_bind]. rewrite conf_map_obfuscated. reflexivity.
Qed.

Lemma read_conf_file p : conf_exportable p -> parse_awg_conf (node_to_wg_conf p) = Ok (conf_node p).
Proof.
  intros Hok. rewrite wg_conf_items. apply read_exported_conf; [done| |by apply lines_print, conf_items_ok].
  destruct (trim _) eqn:E; [|done]. exfalso. revert E. unfold conf_items, print_conf. cbn [map concat print_item].
  by apply (trim_nonempty "["%char).
Qed.

Lemma conf_node_outbound p : sp_protocol p = (if obfuscated p then AmneziaWg else Wireguard) ->
  outbound_from_profile (conf_node p) = outbound_from_profile p.
Proof.
  intros Hprot. apply outbound_agrees; [done..|]. intros k Hk. apply conf_map_read.
  rewrite Hprot in Hk. by destruct (obfuscated p).
Qed.

(** The file the program exports for a WireGuard or AmneziaWG node is imported
    again: the same address and port, every parameter a tunnel reads, and, when
    the kind of the node agrees with the obfuscation parameters it has, the same
    outbound. The file has no name in it: the node that comes back is named after
    its endpoint. *)
Theorem exported_conf_reads_back (p : ServerProfile) (Hok : conf_exportable p) :
  exists q, parse_awg_conf (node_to_wg_conf p) = Ok q
    /\ sp_address q = sp_address p /\ sp_port q = sp_port p /\ sp_name q = addr_port p
    /\ sp_protocol q = (if obfuscated p then AmneziaWg else Wireguard)
    /\ (forall k, k ∈ read_keys AmneziaWg -> sp_params q !! k = sp_params p !! k)
    /\ (sp_protocol p = (if obfuscated p then AmneziaWg else Wireguard) -> outbound_from_profile q = outbound_from_profile p).
Proof.
  exists (conf_node p). split_and!; try done.
  - by apply read_conf_file.
  - intros k Hk. by apply conf_map_read.
  - apply conf_node_outbound.
Qed.

Definition sample_wg : ServerProfile :=
  {| sp_name := "Дом"; sp_protocol := AmneziaWg; sp_address := "2001:db8::1"; sp_port := 51820;
     sp_params := list_to_map [(lit "private_key", lit "AAAAAAAAAAAAAAAAAAAAAAAAAAAAAAAAAAAAAAAAAAA=");
                               (lit "public_key", lit "AAAAAAAAAAAAAAAAAAAAAAAAAAAAAAAAAAAAAAAAAAA=");
                               (lit "address", lit "10.0.0.2/32,fd00::2"); (lit "jc", lit "4")]; sp_tags := [lit "sub"] |}.

Lemma exported_conf_reads_back_witness :
  exists q, parse_awg_conf (node_to_wg_conf sample_wg) = Ok q /\ sp_name q = "2001:db8::1:51820" /\ sp_protocol q = AmneziaWg
    /\ outbound_from_profile q = outbound_from_profile sample_wg.
Proof.
  destruct (exported_conf_reads_back sample_wg) as (q & H1 & H2 & H3 & H4 & H5 & _ & H6).
  - unfold conf_exportable. split_and!.
    + split; [done|]. apply (bool_decide_unpack _). vm_compute. exact I.
    + by vm_compute.
    + apply plain_value. vm_compute. reflexivity.
    + intros k v _ Hv. apply elem_of_list_to_map_2 in Hv. apply plain_value.
      repeat (apply elem_of_cons in Hv as [[= -> ->]|Hv]; [vm_compute; reflexivity|]). by apply elem_of_nil in Hv.
  - exists q. split_and!; [exact H1|exact H4|exact H5|]. apply H6. vm_compute. reflexivity.
Defined.
