(* ===== verification/Store.v ===== *)
(** * The configuration on disk: the SQLite store and the commands over it
    ([crates/cli/src/store.rs]; [load_config] and [save_config] of
    [crates/cli/src/lib.rs])

    The database has one table per list, whose rows carry their position, and a
    key-value table for the single values. SQLite is not modelled: a table is
    the list of its rows, a transaction that fails leaves the database as it
    was, and an error SQLite gives is an argument. The texts of the values are
    those of [serde_json], an interface with one law.

    Every command of the program loads the whole configuration, changes it and
    saves the whole of it. The last theorems say what that means when the
    database cannot be read, and when two commands overlap. *)

From stdpp Require Import sorting.
From S2P Require Import Prelude RustStr Utf8 Model Split Domain Routing Config Secret Nodes.

(** ** [serde_json] *)

Class Serde (T : Type) := { to_string : T -> res str str; from_str : str -> res str T }.

Class SerdeLaws (T : Type) `{Serde T} : Prop := {
  from_to : forall (x : T) s, to_string x = Ok s -> from_str s = Ok x
}.

(** The types that are stored. *)
Class ConfigSerde := {
  serde_server :: Serde ServerProfile;
  serde_subscription :: Serde Subscription;
  serde_rule :: Serde Rule;
  serde_split :: Serde SplitConfig;
  serde_settings :: Serde Settings;
  serde_dns :: Serde DnsConfig;
  serde_geo :: Serde GeoConfig;
  serde_local_wg :: Serde (option LocalWgConfig);
  serde_socks :: Serde (list SocksProxy);
  serde_string :: Serde str;
  serde_config :: Serde AppConfig
}.

Class ConfigSerdeLaws `{ConfigSerde} : Prop := {
  laws_server :: SerdeLaws ServerProfile;
  laws_subscription :: SerdeLaws Subscription;
  laws_rule :: SerdeLaws Rule;
  laws_split :: SerdeLaws SplitConfig;
  laws_settings :: SerdeLaws Settings;
  laws_dns :: SerdeLaws DnsConfig;
  laws_geo :: SerdeLaws GeoConfig;
  laws_local_wg :: SerdeLaws (option LocalWgConfig);
  laws_socks :: SerdeLaws (list SocksProxy);
  laws_string :: SerdeLaws str;
  laws_config :: SerdeLaws AppConfig
}.

(** ** The database *)

(** A row: [ord], and the text. The columns [name] and [url] are written and never read. *)
Record Row : Type := mkRow { ord : Z; label : str; json : str }.

Record Db : Type := mkDb {
  t_servers : list Row;
  t_subscriptions : list Row;
  t_rules : list Row;
  t_kv : gmap str str
}.

Definition db_new : Db := mkDb [] [] [] ∅.

(** What SQLite does now: whether opening fails, and whether a statement or the commit does. *)
Record Sql : Type := mkSql { open_error : option str; tx_error : option str }.

Definition sql_ok : Sql := mkSql None None.

(** [open]: the file is created when it is missing, and so are its tables. *)
Definition open (q : Sql) (file : option Db) : option Db * res str Db :=
  match open_error q with
  | Some e => (file, Err e)
  | None => (Some (default db_new file), Ok (default db_new file))
  end.

(** [SELECT json FROM t ORDER BY ord] *)
Definition row_le (a b : Row) : Prop := ord a <= ord b.

#[export] Instance row_le_dec a b : Decision (row_le a b).
Proof. unfold row_le. apply _. Defined.

Definition select_json (t : list Row) : list str := map json (merge_sort row_le t).

Definition load_vec {T} `{Serde T} (rows : list str) : res str (list T) := mapM from_str rows.

Definition kv_get {T} `{Serde T} (dflt : T) (db : Db) (key : str) : res str T :=
  match t_kv db !! key with Some s => from_str s | None => Ok dflt end.

Definition kv_set {T} `{Serde T} (key : str) (v : T) (kv : gmap str str) : res str (gmap str str) :=
  json ← to_string v; Ok (<[key := json]> kv).

(** The insertion of a list: its positions are the primary keys, so they are new in an emptied table. *)
Fixpoint insert_rows {T} `{Serde T} (name : T -> str) (i : Z) (l : list T) : res str (list Row) :=
  match l with
  | [] => Ok []
  | x :: l => s ← to_string x; rows ← insert_rows name (i + 1) l; Ok (mkRow i (name x) s :: rows)
  end.

Section WithStore.
Context `{ConfigSerde} (store : SecretStore) (utf8_error : bytes -> str).

(** [mark_version_seen] *)
Definition mark_version_seen (q : Sql) (file : option Db) (current : str) : option Db * bool :=
  match open q file with
  | (file, Ok db) =>
      let last := match kv_get ([] : str) db "last_seen_version" with Ok s => s | _ => [] end in
      if decide (last = current) then (file, false)
      else (match tx_error q, kv_set "last_seen_version" current (t_kv db) with
            | None, Ok kv => Some (mkDb (t_servers db) (t_subscriptions db) (t_rules db) kv)
            | _, _ => file
            end, true)
  | (file, _) => (file, false)
  end.

(** [store::load]; what the tables hold, before the secrets are decrypted. *)
Definition read_db (db : Db) : res str AppConfig :=
  servers ← load_vec (select_json (t_servers db));
  subscriptions ← load_vec (select_json (t_subscriptions db));
  rules ← load_vec (select_json (t_rules db));
  split ← kv_get split_default db "split";
  settings ← kv_get settings_default db "settings";
  dns ← kv_get dns_config_default db "dns";
  geo ← kv_get {| geosite_path := None; geoip_path := None |} db "geo";
  local_wg ← kv_get None db "local_wg";
  socks_proxies ← kv_get [] db "socks_proxies";
  Ok {| ac_servers := servers; ac_subscriptions := subscriptions; ac_rules := rules; ac_split := split;
        ac_settings := settings; ac_dns := dns; ac_geo := geo; ac_local_wg := local_wg; ac_socks_proxies := socks_proxies |}.

Definition load (q : Sql) (file : option Db) : option Db * res str AppConfig :=
  let '(file, r) := open q file in
  (file, db ← r; cfg ← read_db db;
         match unprotect_config store utf8_error cfg with
         | (cfg, Ok _) => Ok cfg
         | (_, Err e) => Err (show_secret_error e)
         | (_, Panic) => Panic
         end).

(** The transaction of [store::save]. *)
Definition save_tx (q : Sql) (cfg : AppConfig) (db : Db) : res str Db :=
  servers ← insert_rows sp_name 0 (ac_servers cfg);
  subscriptions ← insert_rows sub_url 0 (ac_subscriptions cfg);
  rules ← insert_rows (fun _ => []) 0 (ac_rules cfg);
  kv ← kv_set "settings" (ac_settings cfg) (t_kv db);
  kv ← kv_set "split" (ac_split cfg) kv;
  kv ← kv_set "dns" (ac_dns cfg) kv;
  kv ← kv_set "geo" (ac_geo cfg) kv;
  kv ← kv_set "local_wg" (ac_local_wg cfg) kv;
  kv ← kv_set "socks_proxies" (ac_socks_proxies cfg) kv;
  match tx_error q with Some e => Err e | None => Ok (mkDb servers subscriptions rules kv) end.

Definition save (q : Sql) (file : option Db) (cfg : AppConfig) : option Db * res str unit :=
  match protect_config store cfg with
  | (protected, Ok _) =>
      match open q file with
      | (file, Ok db) =>
          match save_tx q protected db with
          | Ok db => (Some db, Ok tt)
          | Err e => (file, Err e)
          | Panic => (file, Panic)
          end
      | (file, Err e) => (file, Err e)
      | (file, Panic) => (file, Panic)
      end
  | (_, Err e) => (file, Err (show_secret_error e))
  | (_, Panic) => (file, Panic)
  end.

(** ** [load_config] and [save_config] *)

(** The directory of the configuration: the database, the file of the old
    format, and its renamed copy. *)
Record Disk : Type := mkDisk { d_db : option Db; d_json : option str; d_bak : option str }.

(** [AppConfig::load_protected] of the old file. *)
Definition load_old (text : str) : res ConfigError AppConfig :=
  load_protected (fun (fs : str) (_ : unit) => Ok fs) from_str store utf8_error text tt.

Definition load_config (q : Sql) (d : Disk) : Disk * AppConfig :=
  let '(d, cfg) :=
    match d_db d with
    | Some db =>
        let '(file, r) := load q (Some db) in
        (mkDisk file (d_json d) (d_bak d), match r with Ok cfg => cfg | _ => app_config_default end)
    | None =>
        match d_json d with
        | Some text =>
            let c := match load_old text with Ok c => c | _ => app_config_default end in
            let '(file, r) := save q None c in
            (match r with
             | Ok _ => mkDisk file None (Some text)
             | _ => mkDisk file (Some text) (d_bak d)
             end, c)
        | None => (d, app_config_default)
        end
    end in
  (d, sanitize_config cfg).

Definition save_config (q : Sql) (d : Disk) (cfg : AppConfig) : Disk * res str unit :=
  let '(file, r) := save q (d_db d) cfg in (mkDisk file (d_json d) (d_bak d), r).

(** A command: [load_config], a change of the configuration, [save_config]. *)
Definition command (q : Sql) (change : AppConfig -> res str AppConfig) (d : Disk) : Disk * res str unit :=
  let '(d, cfg) := load_config q d in
  match change cfg with
  | Ok cfg => save_config q d cfg
  | Err e => (d, Err e)
  | Panic => (d, Panic)
  end.

(** Two commands of which the first awaits between its load and its save, as
    [update_subscriptions] does while it downloads, and the second runs meanwhile. *)
Definition overlapping (q : Sql) (slow quick : AppConfig -> res str AppConfig) (d : Disk) : Disk * (res str unit * res str unit) :=
  let '(d, cfg) := load_config q d in
  let '(d, r2) := command q quick d in
  match slow cfg with
  | Ok cfg => let '(d, r1) := save_config q d cfg in (d, (r1, r2))
  | Err e => (d, (Err e, r2))
  | Panic => (d, (Panic, r2))
  end.
End WithStore.

(** ** Lemmas *)

Definition row_lt (a b : Row) : Prop := ord a < ord b.

Lemma ordered_inj (l : list Row) : StronglySorted row_lt l -> forall a b, a ∈ l -> b ∈ l -> ord a = ord b -> a = b.
Proof.
  induction 1 as [|r l Hl IH Hr]; intros a b Ha Hb E; [by apply elem_of_nil in Ha|]. rewrite Forall_forall in Hr.
  apply elem_of_cons in Ha as [->|Ha], Hb as [->|Hb]; try done.
  - specialize (Hr _ Hb). unfold row_lt in Hr. lia.
  - specialize (Hr _ Ha). unfold row_lt in Hr. lia.
  - by apply IH.
Qed.

Lemma merge_sort_ordered (l : list Row) : StronglySorted row_lt l -> merge_sort row_le l = l.
Proof.
  intros H. assert (Transitive row_le) by (intros a b c; unfold row_le; lia).
  assert (Total row_le) by (intros a b; unfold row_le; lia).
  apply (StronglySorted_unique_strong row_le).
  - intros a b Ha Hb L1 L2. unfold row_le in *. rewrite merge_sort_Permutation in Ha. apply (ordered_inj l); [done..|lia].
  - apply Sorted_StronglySorted; [done|]. by apply Sorted_merge_sort.
  - clear -H. induction H as [|r l _ IH Hr]; constructor; [done|]. eapply Forall_impl; [exact Hr|]. unfold row_lt, row_le. lia.
  - apply merge_sort_Permutation.
Qed.

Section Rows.
Context {T : Type} `{SerdeLaws T}.

Lemma insert_rows_ordered (name : T -> str) (l : list T) : forall i rows, insert_rows name i l = Ok rows ->
  StronglySorted row_lt rows /\ Forall (fun r => i <= ord r) rows.
Proof using Type.
  induction l as [|x l IH]; intros i rows E; cbn [insert_rows] in E; [injection E as <-; by repeat constructor|].
  apply ok_bind in E as (s & _ & E). apply ok_bind in E as (rs & Hrs & E). injection E as <-.
  apply IH in Hrs as [Hs Hr]. split; constructor; try done; try (cbn; lia); (eapply Forall_impl; [exact Hr|]); unfold row_lt; cbn; lia.
Qed.

Lemma insert_rows_read (name : T -> str) (l : list T) i rows : insert_rows name i l = Ok rows ->
  load_vec (select_json rows) = Ok l.
Proof using All.
  intros E. unfold select_json. rewrite merge_sort_ordered by (by eapply insert_rows_ordered).
  revert i rows E. induction l as [|x l IH]; intros i rows E; cbn [insert_rows] in E; [by injection E as <-|].
  apply ok_bind in E as (s & Hs & E). apply ok_bind in E as (rs & Hrs & E). injection E as <-.
  unfold load_vec. cbn [map mapM json]. rewrite (from_to _ _ Hs). cbn [mbind res_bind].
  specialize (IH _ _ Hrs). unfold load_vec in IH. by rewrite IH.
Qed.

Lemma kv_set_get (v dflt : T) key kv kv' srv sub rul : kv_set key v kv = Ok kv' ->
  kv_get dflt (mkDb srv sub rul kv') key = Ok v /\ forall k, k <> key -> kv' !! k = kv !! k.
Proof using All.
  intros E. apply ok_bind in E as (s & Hs & E). injection E as <-. unfold kv_get. cbn [t_kv].
  rewrite lookup_insert_eq. split; [by apply from_to|]. intros k Hk. by rewrite lookup_insert_ne.
Qed.

Lemma kv_get_other (dflt : T) key kv kv' srv sub rul srv' sub' rul' : kv' !! key = kv !! key ->
  kv_get dflt (mkDb srv' sub' rul' kv') key = kv_get dflt (mkDb srv sub rul kv) key.
Proof using Type. intros E. unfold kv_get. cbn [t_kv]. by rewrite E. Qed.
End Rows.

(** The keys a save writes. *)
Definition SAVED_KEYS : list str :=
  ["settings" : str; "split" : str; "dns" : str; "geo" : str; "local_wg" : str; "socks_proxies" : str].

Section Storage.
Context `{CS : ConfigSerde} {CL : ConfigSerdeLaws} (store : SecretStore) (utf8_error : bytes -> str).
Local Existing Instances laws_server laws_subscription laws_rule laws_split laws_settings laws_dns laws_geo laws_local_wg laws_socks.

Lemma save_tx_read q cfg db db' : save_tx q cfg db = Ok db' ->
  read_db db' = Ok cfg /\ forall k, k ∉ SAVED_KEYS -> t_kv db' !! k = t_kv db !! k.
Proof using CL.
  intros E. unfold save_tx in E.
  apply ok_bind in E as (servers & H1 & E). apply ok_bind in E as (subs & H2 & E). apply ok_bind in E as (rules & H3 & E).
  apply ok_bind in E as (kv1 & K1 & E). apply ok_bind in E as (kv2 & K2 & E). apply ok_bind in E as (kv3 & K3 & E).
  apply ok_bind in E as (kv4 & K4 & E). apply ok_bind in E as (kv5 & K5 & E). apply ok_bind in E as (kv6 & K6 & E).
  destruct (tx_error q); [done|]. injection E as <-.
  destruct (kv_set_get (ac_settings cfg) settings_default _ _ _ servers subs rules K1) as [G1 F1].
  destruct (kv_set_get (ac_split cfg) split_default _ _ _ servers subs rules K2) as [G2 F2].
  destruct (kv_set_get (ac_dns cfg) dns_config_default _ _ _ servers subs rules K3) as [G3 F3].
  destruct (kv_set_get (ac_geo cfg) {| geosite_path := None; geoip_path := None |} _ _ _ servers subs rules K4) as [G4 F4].
  destruct (kv_set_get (ac_local_wg cfg) None _ _ _ servers subs rules K5) as [G5 F5].
  destruct (kv_set_get (ac_socks_proxies cfg) [] _ _ _ servers subs rules K6) as [G6 F6]. split.
  - unfold read_db. cbn [t_servers t_subscriptions t_rules].
    rewrite (insert_rows_read _ _ _ _ H1), (insert_rows_read _ _ _ _ H2), (insert_rows_read _ _ _ _ H3). cbn [mbind res_bind].
    assert (forall k, k <> lit "socks_proxies" -> kv6 !! k = kv5 !! k) as F6' by exact F6.
    rewrite (kv_get_other split_default "split" kv2 kv6 servers subs rules) by (by rewrite F6, F5, F4, F3).
    rewrite (kv_get_other settings_default "settings" kv1 kv6 servers subs rules) by (by rewrite F6, F5, F4, F3, F2).
    rewrite (kv_get_other dns_config_default "dns" kv3 kv6 servers subs rules) by (by rewrite F6, F5, F4).
    rewrite (kv_get_other {| geosite_path := None; geoip_path := None |} "geo" kv4 kv6 servers subs rules) by (by rewrite F6, F5).
    rewrite (kv_get_other None "local_wg" kv5 kv6 servers subs rules) by (by rewrite F6).
    rewrite G1, G2, G3, G4, G5, G6. cbn [mbind res_bind]. by destruct cfg.
  - intros k Hk. unfold SAVED_KEYS in Hk. rewrite !not_elem_of_cons in Hk. destruct Hk as (N1 & N2 & N3 & N4 & N5 & N6 & _).
    cbn [t_kv]. by rewrite F6, F5, F4, F3, F2, F1.
Qed.

(** The secrets of a configuration are readable texts that do not look protected. *)
Definition plain_secrets (cfg : AppConfig) : Prop :=
  forall v, secret_in (ac_servers cfg) v \/ local_secret (ac_local_wg cfg) v -> is_protected v = false /\ utf8_valid v = true.

Lemma save_ok q file cfg file' : save store q file cfg = (file', Ok tt) ->
  exists protected db', protect_config store cfg = (protected, Ok tt) /\ file' = Some db'
    /\ save_tx q protected (default db_new file) = Ok db'.
Proof using Type.
  unfold save, open. destruct (protect_config store cfg) as [protected [[]|e|]]; [|done..].
  destruct (open_error q); [done|]. destruct (save_tx q protected _) as [db'|e|] eqn:E; [|done..]. intros [= <-]. eauto.
Qed.

Lemma save_load q q' file cfg file' : StoreLaws store -> plain_secrets cfg -> open_error q' = None ->
  save store q file cfg = (file', Ok tt) -> load store utf8_error q' file' = (file', Ok cfg).
Proof using CL.
  intros Hs Hp Hq (protected & db' & Hpr & -> & Htx)%save_ok. unfold load, open. rewrite Hq.
  destruct (save_tx_read _ _ _ _ Htx) as [Hr _]. cbn [default mbind res_bind from_option id]. rewrite Hr. cbn [mbind res_bind].
  by rewrite (proj1 (protect_inverse store utf8_error cfg protected Hs Hp Hpr)).
Qed.

Lemma save_config_load q q' d cfg d' : StoreLaws store -> plain_secrets cfg -> open_error q' = None ->
  save_config store q d cfg = (d', Ok tt) -> load store utf8_error q' (d_db d') = (d_db d', Ok cfg).
Proof using CL.
  unfold save_config. intros Hs Hp Hq. destruct (save store q (d_db d) cfg) as [file' r] eqn:E. intros [= <- ->].
  cbn [d_db]. by eapply save_load.
Qed.

(** What a command reads when there is a database. *)
Lemma load_config_db q d db : d_db d = Some db -> exists d1,
  load_config store utf8_error q d
  = (d1, sanitize_config (match snd (load store utf8_error q (Some db)) with Ok cfg => cfg | _ => app_config_default end)).
Proof using Type.
  intros Hd. unfold load_config. rewrite Hd. destruct (load store utf8_error q (Some db)) as [file r]. by eexists.
Qed.
End Storage.

Lemma sanitize_default : sanitize_config app_config_default = app_config_default.
Proof. vm_compute. reflexivity. Qed.

(** A migration that fails once the database is open leaves an empty database
    beside the old file, and from then on the old file is not read. *)
Lemma failed_migration_hides_file `{ConfigSerde} (store : SecretStore) (utf8_error : bytes -> str) q text bak c e :
  load_old store utf8_error text = Ok c -> save store q None c = (Some db_new, Err e) ->
  let d' := fst (load_config store utf8_error q (mkDisk None (Some text) bak)) in
  d' = mkDisk (Some db_new) (Some text) bak /\ snd (load_config store utf8_error sql_ok d') = app_config_default.
Proof.
  intros Hc Hs. cbn zeta. assert (fst (load_config store utf8_error q (mkDisk None (Some text) bak)) = mkDisk (Some db_new) (Some text) bak) as ->.
  { unfold load_config. cbn [d_db d_json]. by rewrite Hc, Hs. }
  split; [done|]. unfold load_config. cbn. apply sanitize_default.
Qed.

(** ** Properties *)

(** C26. A configuration that was saved is loaded again, exactly, whatever the
    database held before; its text on disk has every non-empty secret protected;
    the other keys of the database, such as the version seen last, stay. When
    saving fails, an existing database is as it was. *)
Theorem saved_database_loads `{ConfigSerdeLaws} (store : SecretStore) (utf8_error : bytes -> str) (q : Sql)
    (file : option Db) (cfg : AppConfig) (Hstore : StoreLaws store) (Hplain : plain_secrets cfg) :
  (forall file', save store q file cfg = (file', Ok tt) ->
     load store utf8_error sql_ok file' = (file', Ok cfg)
     /\ exists db' on_disk, file' = Some db' /\ read_db db' = Ok on_disk
        /\ (forall v, secret_in (ac_servers on_disk) v \/ local_secret (ac_local_wg on_disk) v -> is_protected v = true \/ v = [])
        /\ (forall k, k ∉ SAVED_KEYS -> t_kv db' !! k = t_kv (default db_new file) !! k))
  /\ (forall file' e db, file = Some db -> save store q file cfg = (file', Err e) -> file' = file).
Proof.
  split.
  - intros file' Hsave. split; [by eapply save_load|]. apply save_ok in Hsave as (protected & db' & Hpr & -> & Htx).
    destruct (save_tx_read _ _ _ _ Htx) as [Hr Hk]. exists db', protected. split_and!; [done|done| |done].
    destruct (protect_inverse store utf8_error cfg protected Hstore Hplain Hpr) as (_ & _ & Hs & Hl).
    intros v [Hv|Hv]; [left; by apply Hs|by apply Hl].
  - intros file' e db ->. unfold save, open. destruct (protect_config store cfg) as [protected [[]|e'|]]; [|by intros [= <- _]|done].
    destruct (open_error q); [by intros [= <- _]|]. destruct (save_tx q protected _) as [db'|e'|]; [done|by intros [= <- _]|done].
Qed.

(** C27. A database that cannot be read, be it for one moment or because of one
    secret the store does not decrypt, is taken for an empty configuration, and
    the next command that changes anything writes that over it: what is left is
    the change of an empty configuration, and nothing of what the database held. *)
Theorem unreadable_database_is_overwritten `{ConfigSerdeLaws} (store : SecretStore) (utf8_error : bytes -> str)
    (q : Sql) (change : AppConfig -> res str AppConfig) (d d' : Disk) (db : Db) (e : str) (cfg : AppConfig)
    (Hstore : StoreLaws store) (Hdb : d_db d = Some db)
    (Hbad : snd (load store utf8_error q (Some db)) = Err e)
    (Hchange : change app_config_default = Ok cfg) (Hplain : plain_secrets cfg)
    (Hrun : command store utf8_error q change d = (d', Ok tt)) :
  load store utf8_error sql_ok (d_db d') = (d_db d', Ok cfg).
Proof.
  unfold command in Hrun. destruct (load_config_db store utf8_error q d db Hdb) as [d1 E]. rewrite E, Hbad, sanitize_default, Hchange in Hrun.
  by eapply save_config_load.
Qed.

(** When a command that waits between loading and saving overlaps with another
    one, the other one's change is lost although it was reported as saved: the
    database holds what the waiting command would have left had it run alone. *)
Theorem overlapping_commands_lose_one `{ConfigSerdeLaws} (store : SecretStore) (utf8_error : bytes -> str)
    (slow quick : AppConfig -> res str AppConfig) (d d' : Disk) (db : Db) (cfg cfg' : AppConfig)
    (Hstore : StoreLaws store) (Hdb : d_db d = Some db)
    (Hread : snd (load store utf8_error sql_ok (Some db)) = Ok cfg)
    (Hslow : slow (sanitize_config cfg) = Ok cfg') (Hplain : plain_secrets cfg')
    (Hrun : overlapping store utf8_error sql_ok slow quick d = (d', (Ok tt, Ok tt))) :
  load store utf8_error sql_ok (d_db d') = (d_db d', Ok cfg')
  /\ (forall d'', command store utf8_error sql_ok slow d = (d'', Ok tt) ->
        snd (load store utf8_error sql_ok (d_db d'')) = snd (load store utf8_error sql_ok (d_db d'))).
Proof.
  assert (load store utf8_error sql_ok (d_db d') = (d_db d', Ok cfg')) as Hd'.
  { unfold overlapping in Hrun. destruct (load_config_db store utf8_error sql_ok d db Hdb) as [d1 E]. rewrite E, Hread, Hslow in Hrun.
    destruct (command store utf8_error sql_ok quick d1) as [d2 r2].
    destruct (save_config store sql_ok d2 cfg') as [d3 r3] eqn:E3. injection Hrun as <- -> ->. by eapply save_config_load. }
  split; [done|]. intros d'' Hc. rewrite Hd'. unfold command in Hc.
  destruct (load_config_db store utf8_error sql_ok d db Hdb) as [d1 E]. rewrite E, Hread, Hslow in Hc.
  erewrite save_config_load; done.
Qed.

(** *** Witnesses: texts for finitely many values *)

Definition code {T} `{EqDecision T} (xs : list T) : Serde T := {|
  to_string x := match list_find (x =.) xs with Some (i, _) => Ok (repeat "1"%char i) | None => Err (lit "no text") end;
  from_str s := ok_or (xs !! length s) (lit "no value")
|}.

Lemma code_laws {T} `{EqDecision T} (xs : list T) : @SerdeLaws T (code xs).
Proof.
  constructor. intros x s. cbn. destruct (list_find _ xs) as [[i y]|] eqn:E; [|done]. intros [= <-].
  apply list_find_Some in E as (Hi & <- & _). by rewrite repeat_length, Hi.
Qed.

Definition toy (servers : list ServerProfile) : ConfigSerde := {|
  serde_server := code servers; serde_subscription := code []; serde_rule := code [];
  serde_split := code [split_default]; serde_settings := code [settings_default]; serde_dns := code [dns_config_default];
  serde_geo := code [{| geosite_path := None; geoip_path := None |}]; serde_local_wg := code [None];
  serde_socks := code [[]]; serde_string := code [lit "0.9"]; serde_config := code [] |}.

#[export] Instance toy_laws servers : @ConfigSerdeLaws (toy servers).
Proof. constructor; apply code_laws. Qed.

Definition node (name secret : str) : ServerProfile :=
  {| sp_name := name; sp_protocol := Trojan; sp_address := "h.example"; sp_port := 443;
     sp_params := {["password" : str := secret]}; sp_tags := [] |}.

Definition two_nodes : AppConfig := with_servers app_config_default [node "a" "x"; node "b" "y"].
Definition one_node : AppConfig := with_servers app_config_default [node "c" "z"].

(** The nodes as they are stored: the secrets in Base64 behind the marker. *)
Definition stored : list ServerProfile := [node "a" "enc:eA=="; node "b" "enc:eQ=="; node "c" "enc:eg=="].

Definition no_text (_ : bytes) : str := [].

Lemma sample_plain_secrets l : Forall (fun s => exists n x, s = node n x /\ is_protected x = false /\ utf8_valid x = true) l ->
  plain_secrets (with_servers app_config_default l).
Proof.
  intros H v [Hv|[lw [E _]]]; [|done]. destruct Hv as (s & k & Hs & Hk & Hv). rewrite Forall_forall in H.
  destruct (H s Hs) as (n & x & -> & Hx). cbn in Hv. apply lookup_singleton_Some in Hv as [_ <-]. done.
Qed.

Lemma two_nodes_plain : plain_secrets two_nodes.
Proof. apply sample_plain_secrets. repeat constructor; by eexists _, _. Qed.

Lemma one_node_plain : plain_secrets one_node.
Proof. apply sample_plain_secrets. repeat constructor; by eexists _, _. Qed.

Lemma saved_database_loads_witness :
  let cs := toy stored in
  exists file', save NoopStore sql_ok None two_nodes = (file', Ok tt)
    /\ load NoopStore no_text sql_ok file' = (file', Ok two_nodes)
    /\ (map json ∘ t_servers) <$> file' = Some [[]; lit "1"].
Proof.
  intros cs. eexists. split; [vm_compute; reflexivity|].
  destruct (saved_database_loads (H := cs) NoopStore no_text sql_ok None two_nodes NoopStore_laws two_nodes_plain) as [H1 _].
  match goal with |- load _ _ _ ?f = _ /\ _ => destruct (H1 f ltac:(vm_compute; reflexivity)) as [H2 _] end.
  split; [exact H2|]. vm_compute. reflexivity.
Defined.

Definition add_node (s : ServerProfile) (c : AppConfig) : res str AppConfig := Ok (with_servers c (ac_servers c ++ [s])).

(** A database of two nodes and a rule whose text is not that of a rule. *)
Definition bad_db : Db := mkDb [mkRow 0 "a" []; mkRow 1 "b" "1"] [] [mkRow 0 [] "?"] ∅.

Lemma unreadable_database_is_overwritten_witness :
  let cs := toy stored in
  exists d', command NoopStore no_text sql_ok (add_node (node "c" "z")) (mkDisk (Some bad_db) None None) = (d', Ok tt)
    /\ load NoopStore no_text sql_ok (d_db d') = (d_db d', Ok one_node).
Proof.
  intros cs. eexists. split; [vm_compute; reflexivity|].
  refine (unreadable_database_is_overwritten (H := cs) NoopStore no_text sql_ok (add_node (node "c" "z"))
    (mkDisk (Some bad_db) None None) _ bad_db (lit "no value") one_node NoopStore_laws eq_refl _ _ one_node_plain _); vm_compute; reflexivity.
Defined.

(** A download that adds node [b] while the user adds node [c] to node [a]. *)
Definition start_db : Db := mkDb [mkRow 0 "a" []] [] [] ∅.

Lemma overlapping_commands_lose_one_witness :
  let cs := toy stored in
  exists d', overlapping NoopStore no_text sql_ok (add_node (node "b" "y")) (add_node (node "c" "z")) (mkDisk (Some start_db) None None)
             = (d', (Ok tt, Ok tt))
    /\ load NoopStore no_text sql_ok (d_db d') = (d_db d', Ok two_nodes).
Proof.
  intros cs. eexists. split; [vm_compute; reflexivity|].
  refine (proj1 (overlapping_commands_lose_one (H := cs) NoopStore no_text (add_node (node "b" "y")) (add_node (node "c" "z"))
    (mkDisk (Some start_db) None None) _ start_db (with_servers app_config_default [node "a" "x"]) two_nodes
    NoopStore_laws eq_refl _ _ two_nodes_plain _)); vm_compute; reflexivity.
Defined.
