(* ===== verification/Commands.v ===== *)
(** * Importing a pasted text, and the commands that change settings
    ([import], [import_config], [parse_any_config] and the setters of
    [crates/cli/src/lib.rs])

    Each command is the change it makes to the loaded configuration, with the
    message it returns; loading and saving around it are [command] of [Store.v]. *)

From S2P Require Import Prelude RustStr Utf8 Model Base64 Uri Link Awg F64 Json Import Singbox Xray Clash Subscription.
From S2P Require Import Cidr Split Domain Routing Config Nodes RuleEdit Outbound Export.

(** ** [parse_any_config]: the format of a pasted text *)

(** Lines that are links; a comment starts with [#] here. *)
Definition pasted_line (l : str) : bool := negb (is_empty l) && negb (starts_with "#" l).

Definition parse_any_config (text : str) : str * list (res ParseError ServerProfile) :=
  let t := trim_start text in
  if contains "[Interface]" text then (lit "AmneziaWG .conf", [parse_awg_conf text])
  else if starts_with "{" t || starts_with "[" t then
    let sb := parse_singbox_config text in
    if existsb is_ok sb then (lit "sing-box JSON", sb)
    else
      let xr := parse_xray_config text in
      if existsb is_ok xr then (lit "Xray JSON", xr) else (lit "JSON", sb)
  else if contains "proxies:" text then (lit "Clash YAML", parse_clash text)
  else (lit "ссылки", map parse_link (filter (fun l => pasted_line l = true) (map trim (lines text)))).

(** The profiles and the number of errors of a list of results. *)
Definition profiles_of (rs : list (res ParseError ServerProfile)) : list ServerProfile :=
  omap (fun r => match r with Ok p => Some p | _ => None end) rs.

Definition errors_of (rs : list (res ParseError ServerProfile)) : nat :=
  length (filter (fun r => is_ok r = false) rs).

(** [import_config] *)
Definition import_config (text : str) (cfg : AppConfig) : res str (AppConfig * str) :=
  let text := trim text in
  if is_empty text then Err (lit "пустой ввод") else
  let '(fmt, results) := parse_any_config text in
  let profiles := profiles_of results in
  let errors := errors_of results in
  match profiles with
  | [] => Err (lit "не удалось распознать конфиг (формат: " ++ fmt ++ lit "); узлов не найдено")
  | _ =>
      let msg := lit "импортировано узлов: " ++ show_uint (Z.of_nat (length profiles)) ++ lit " (формат: " ++ fmt ++ lit ")" in
      let msg := if (errors =? 0)%nat then msg else msg ++ lit "; пропущено с ошибкой: " ++ show_uint (Z.of_nat errors) in
      Ok (with_servers cfg (ac_servers cfg ++ profiles), msg)
  end.

(** [import]: a subscription's URL, or one link. *)
Definition import (fetch : Subscription -> (list ServerProfile * option str) + str) (arg : str) (cfg : AppConfig)
    : res str (AppConfig * str) :=
  if starts_with "http://" arg || starts_with "https://" arg then
    let sub := {| sub_url := arg; sub_tag := None; sub_update_interval_hours := 12 |} in
    '(servers, title) ← match fetch sub with inl r => Ok r | inr e => Err e end;
    let sub := with_tag sub title in
    let cfg := if existsb (fun s => bool_decide (sub_url s = arg)) (ac_subscriptions cfg) then cfg
               else with_subscriptions cfg (ac_subscriptions cfg ++ [sub]) in
    let cfg := fst (ensure_distinct_sub_tags cfg) in
    let stored := default sub (snd <$> list_find (fun s => sub_url s = arg) (ac_subscriptions cfg)) in
    Ok (with_servers cfg (pour (ac_servers cfg) (tag_of stored) servers),
        lit "импортировано узлов из подписки: " ++ show_uint (Z.of_nat (length servers)))
  else
    profile ← map_err show_parse_error (parse_link arg);
    Ok (with_servers cfg (ac_servers cfg ++ [profile]),
        lit "импортирован узел: " ++ sp_name profile ++ lit " [" ++ protocol_as_str (sp_protocol profile) ++ lit "]").

(** ** Settings *)

(** [opt.map(|v| v.trim().to_string()).filter(|v| !v.is_empty())] *)
Definition norm (o : option str) : option str := v ← trim <$> o; non_empty v.

Definition set_settings (default_to_proxy : bool) (default_proxy : option str) (cfg : AppConfig) : AppConfig :=
  let s := ac_settings cfg in
  with_settings cfg {| st_default_proxy := default_proxy ≫= non_empty; st_default_to_proxy := default_to_proxy;
                       st_listen := st_listen s; st_proxy_node := st_proxy_node s |}.

Definition set_connection (listen proxy_node : option str) (cfg : AppConfig) : AppConfig :=
  let s := ac_settings cfg in
  with_settings cfg {| st_default_proxy := st_default_proxy s; st_default_to_proxy := st_default_to_proxy s;
                       st_listen := norm listen; st_proxy_node := norm proxy_node |}.

Definition with_geo (c : AppConfig) (g : GeoConfig) : AppConfig := {|
  ac_servers := ac_servers c; ac_subscriptions := ac_subscriptions c; ac_rules := ac_rules c; ac_split := ac_split c;
  ac_settings := ac_settings c; ac_dns := ac_dns c; ac_geo := g; ac_local_wg := ac_local_wg c;
  ac_socks_proxies := ac_socks_proxies c |}.

Definition set_geo_paths (geosite geoip : option str) (cfg : AppConfig) : AppConfig :=
  with_geo cfg {| geosite_path := norm geosite; geoip_path := norm geoip |}.

(** [geo_status_of]; whether a file is there is the file system's answer. *)
Definition geo_status_of (is_file : str -> bool) (cfg : AppConfig) : bool * bool * option str * option str :=
  let exists_ p := default false (is_file <$> p) in
  (exists_ (geosite_path (ac_geo cfg)), exists_ (geoip_path (ac_geo cfg)), geosite_path (ac_geo cfg), geoip_path (ac_geo cfg)).

Definition with_split (c : AppConfig) (s : SplitConfig) : AppConfig := {|
  ac_servers := ac_servers c; ac_subscriptions := ac_subscriptions c; ac_rules := ac_rules c; ac_split := s;
  ac_settings := ac_settings c; ac_dns := ac_dns c; ac_geo := ac_geo c; ac_local_wg := ac_local_wg c;
  ac_socks_proxies := ac_socks_proxies c |}.

Definition set_split_options (kill_switch : bool) (cfg : AppConfig) : AppConfig :=
  let s := ac_split cfg in
  with_split cfg {| sc_mode := sc_mode s; sc_apps := sc_apps s; sc_inherit_children := sc_inherit_children s;
    sc_kill_switch := kill_switch; sc_force_direct_cidrs := sc_force_direct_cidrs s;
    sc_force_tunnel_cidrs := sc_force_tunnel_cidrs s; sc_server_endpoints := sc_server_endpoints s; sc_driver := sc_driver s |}.

Definition get_split_driver (cfg : AppConfig) : str :=
  match sc_driver (ac_split cfg) with WinDivert => "windivert" | WinpkFilter => "winpkfilter" end.

Definition set_split_driver (driver : str) (cfg : AppConfig) : res str AppConfig :=
  d ← (if decide (driver = "windivert") then Ok WinDivert
       else if decide (driver = "winpkfilter") then Ok WinpkFilter
       else Err (lit "неизвестный драйвер: " ++ driver));
  let s := ac_split cfg in
  Ok (with_split cfg {| sc_mode := sc_mode s; sc_apps := sc_apps s; sc_inherit_children := sc_inherit_children s;
    sc_kill_switch := sc_kill_switch s; sc_force_direct_cidrs := sc_force_direct_cidrs s;
    sc_force_tunnel_cidrs := sc_force_tunnel_cidrs s; sc_server_endpoints := sc_server_endpoints s; sc_driver := d |}).

(** ** What the lists show *)

(** [list_nodes] *)
Record NodeInfo : Type := mkNode {
  ni_name : str; ni_protocol : str; ni_address : str; ni_port : Z; ni_group : option str; ni_balancer : option str }.

Definition list_nodes (cfg : AppConfig) : list NodeInfo :=
  map (fun s => mkNode (sp_name s) (protocol_as_str (sp_protocol s)) (sp_address s) (sp_port s) (head (sp_tags s))
                       (sp_params s !! ("balancer" : str))) (ac_servers cfg).

(** [list_subscriptions]: the URL, the tag, the interval, the group of its nodes. *)
Definition list_subscriptions (cfg : AppConfig) : list (str * option str * Z * str) :=
  map (fun s => (sub_url s, sub_tag s, sub_update_interval_hours s, tag_of s)) (ac_subscriptions cfg).

(** The order of [test_latencies]: measured nodes by latency, then the failed ones, each group in its order. *)
Definition latency_le {E} (a b : str * (Z + E)) : Prop :=
  match snd a, snd b with
  | inl x, inl y => x <= y
  | inl _, inr _ => True
  | inr _, inl _ => False
  | inr _, inr _ => True
  end.

#[export] Instance latency_le_dec {E} (a b : str * (Z + E)) : Decision (latency_le a b).
Proof. unfold latency_le. destruct (snd a), (snd b); apply _. Defined.

(** [sort_by] is stable: insertion after the entries that are not greater. *)
Fixpoint insert_sorted {E} (x : str * (Z + E)) (l : list (str * (Z + E))) : list (str * (Z + E)) :=
  match l with
  | [] => [x]
  | y :: l => if decide (latency_le y x) then y :: insert_sorted x l else x :: y :: l
  end.

Definition sort_results {E} (l : list (str * (Z + E))) : list (str * (Z + E)) := fold_left (fun acc x => insert_sorted x acc) l [].

(** ** The release of an update: [check_update] on the body of the answer *)

Record UpdateInfo : Type := mkInfo { up_current : str; up_latest : str; up_url : str; up_newer : bool; up_download : str }.

(** [get(key).and_then(as_str)] *)
Definition get_str (v : JsonValue) (key : str) : option str := w ← get v key; as_str w.

(** [trim_start_matches('v')] *)
Fixpoint trim_v (s : str) : str := match s with c :: t => if decide (c = "v"%char) then trim_v t else s | [] => [] end.

(** The URL of the first asset that ends in [.exe]; one without a URL is passed over. *)
Fixpoint exe_asset (l : list JsonValue) : option str :=
  match l with
  | [] => None
  | a :: l =>
      match (name ← get_str a "name";
             if ends_with ".exe" (to_ascii_lowercase name) then get_str a "browser_download_url" else None) with
      | Some u => Some u
      | None => exe_asset l
      end
  end.

Definition check_update (current : str) (body : res str str) : option UpdateInfo :=
  match body with
  | Ok body =>
      match json_parse body with
      | Ok root =>
          latest ← get_str root "tag_name";
          let html := default [] (get_str root "html_url") in
          let assets := default [] (a ← get root "assets"; as_array a) in
          Some (mkInfo current latest html (version_gt (trim_v latest) current) (default [] (exe_asset assets)))
      | _ => None
      end
  | _ => None
  end.

(** ** Lemmas: a text whose last line break was trimmed off *)

Lemma split_char_snoc c s : split_char c (s ++ [c]) = split_char c s ++ [[]].
Proof. change [c] with (c :: []). rewrite split_char_app_gen. done. Qed.

Lemma lines_of_snoc ps p : p <> [] -> strip_cr p = p -> lines_of (ps ++ [p; []]) = lines_of (ps ++ [p]).
Proof.
  intros Hne Hcr. induction ps as [|q ps IH].
  - cbn. rewrite Hcr. by destruct p.
  - change ((q :: ps) ++ [p; []]) with (q :: (ps ++ [p; []])). change ((q :: ps) ++ [p]) with (q :: (ps ++ [p])).
    destruct ps as [|q' ps]; cbn [app lines_of] in *; by rewrite <- IH.
Qed.

(** The last piece of a text is what follows its last separator. *)
Lemma split_char_last c s : exists ps p, split_char c s = ps ++ [p] /\ p `suffix_of` s /\ c ∉ p.
Proof.
  induction s as [|d s (ps & p & E & [k Hk] & Hp)] using list_ind.
  - exists [], []. split; [done|]. split; [by exists []|apply not_elem_of_nil].
  - destruct (decide (c = d)) as [<-|Hne].
    + rewrite split_char_cons, E. exists ([] :: ps), p. split; [done|]. split; [|done]. exists (c :: k). by rewrite Hk.
    + assert (split_char c (d :: s) = match split_char c s with w :: ws => (d :: w) :: ws | [] => [[d]] end) as ->.
      { unfold split_char. cbn [split_by]. rewrite (proj2 (is_char_false c d)) by done. done. }
      rewrite E. destruct ps as [|q ps].
      * exists [], (d :: p). split; [done|]. split.
        -- assert (k = [] \/ k <> []) as [->|Hk'] by (destruct k; auto); [by exists []; rewrite Hk|].
           exfalso. apply (f_equal (join [c])) in E. rewrite join_split_char in E. cbn in E. rewrite E in Hk.
           apply (f_equal length) in Hk. rewrite length_app in Hk. destruct k; [done|cbn in Hk; lia].
        -- by rewrite not_elem_of_cons.
      * exists ((d :: q) :: ps), p. split; [done|]. split; [|done]. exists (d :: k). by rewrite Hk.
Qed.

Lemma lines_unterminated s : trimmed s -> lines (s ++ [to_u8 10]) = lines s.
Proof.
  intros [_ (c & t & E & Hc)]. unfold lines. rewrite split_char_snoc. pose proof (join_split_char (to_u8 10) s) as Hj.
  destruct (split_char_last (to_u8 10) s) as (ps & p & Es & [k Hk] & Hp). rewrite Es in *. rewrite <- app_assoc. cbn [app].
  assert (p <> []) as Hne.
  { intros ->. destruct ps as [|q ps]; [cbn in Hj; subst s; by destruct t|].
    rewrite join_app, app_assoc in Hj by done. change (join [to_u8 10] [[]]) with ([] : str) in Hj. rewrite app_nil_r, E in Hj.
    apply app_inj_tail in Hj as [_ <-]. done. }
  apply lines_of_snoc; [done|]. apply strip_cr_id. destruct (exists_last Hne) as (p' & d & ->).
  rewrite Hk, app_assoc in E. apply app_inj_tail in E as [_ ->].
  unfold ends_cr. destruct (ends_with _ _) eqn:Ew; [|done]. apply ends_with_spec in Ew as [x Ew].
  apply app_inj_tail in Ew as [_ ->]. done.
Qed.

Lemma trim_line_break s : trimmed s -> trim (s ++ [to_u8 10]) = s.
Proof.
  intros H. pose proof H as [(c & t & E & Hc) _]. unfold trim. rewrite E. cbn [app]. rewrite trim_start_graphic by done.
  change (c :: t ++ [to_u8 10]) with ((c :: t) ++ [to_u8 10]). rewrite <- E. unfold trim_end.
  rewrite length_app, reverse_snoc. cbn [length]. rewrite Nat.add_1_r. cbn [trim_loop].
  assert (strip_any (map reverse whitespace) (to_u8 10 :: reverse s) = Some (reverse s)) as -> by done.
  fold (trim_end s). rewrite <- (trim_trimmed s H) at 2. unfold trim. rewrite E, trim_start_graphic by done. done.
Qed.

Lemma pasted_links (ls : list str) : Forall (fun l => to_u8 10 ∉ l /\ trimmed l /\ pasted_line l = true) ls ->
  filter (fun l => pasted_line l = true) (map trim (lines (join [to_u8 10] ls))) = ls.
Proof.
  intros H. change (to_u8 10) with LF. rewrite lines_join by (eapply Forall_impl; [exact H|]; by intros l (? & ? & ?)).
  induction H as [|l ls (_ & Ht & Hl) _ IH]; [done|]. cbn [map]. rewrite (trim_trimmed l Ht), filter_cons_True, IH; done.
Qed.

(** An exported link begins with its scheme and ends with the name. *)
Lemma export_link_shape (p : ServerProfile) (l : str) : export_link_of p = Some l -> sp_name p <> [] ->
  exists t, l = link_scheme (sp_protocol p) ++ lit "://" ++ t ++ percent_encode (sp_name p).
Proof.
  intros E Hn. unfold export_link_of, node_to_vless_link, node_to_ss_link, node_to_hysteria2_link in E.
  rewrite (frag_text_spec _ Hn) in E. destruct (sp_protocol p); cbn [decide] in E; try done.
  - rewrite decide_True in E by done. destruct (sp_param p "uuid") as [u|]; [|done]. apply (inj Some) in E. subst l.
    set (q := query_text _). exists (u ++ lit "@" ++ addr_port p ++ q ++ lit "#"). by rewrite <- !app_assoc.
  - rewrite decide_True in E by done. destruct (sp_param p "method") as [m|]; [|done]. destruct (sp_param p "password") as [pw|]; [|done].
    cbn [mbind option_bind] in E. apply (inj Some) in E. subst l. set (q := query_text _). set (b := encode_standard _).
    exists (b ++ lit "@" ++ addr_port p ++ q ++ lit "#"). by rewrite <- !app_assoc.
  - rewrite decide_True in E by done. apply (inj Some) in E. subst l. set (q := query_text _). set (b := match default [] _ with [] => _ | _ => _ end).
    exists (b ++ addr_port p ++ q ++ lit "#"). by rewrite <- !app_assoc.
Qed.

Lemma export_link_line (p : ServerProfile) (l : str) : export_link_of p = Some l -> sp_name p <> [] ->
  trimmed l /\ pasted_line l = true /\ starts_with "{" l = false /\ starts_with "[" l = false.
Proof.
  intros E Hn. destruct (export_link_shape p l E Hn) as [t ->]. destruct (link_scheme_ok (sp_protocol p)) as (_ & _ & c & w & Ew & Hc).
  assert (percent_encode (sp_name p) <> []) as He by (intros ?%percent_encode_nil; done).
  destruct (exists_last He) as (k & d & Ed). split; [|by destruct (sp_protocol p)].
  split; [rewrite Ew; by eexists _, _|]. exists d, (link_scheme (sp_protocol p) ++ lit "://" ++ t ++ k). split.
  - rewrite Ed. by rewrite <- !app_assoc.
  - apply unreserved_graphic, (percent_encode_chars (sp_name p)). rewrite Ed. set_solver.
Qed.

Lemma join_trimmed sep ls : ls <> [] -> Forall trimmed ls -> trimmed (join sep ls).
Proof.
  intros Hne H. induction H as [|l ls Hl Hls IH]; [done|]. destruct ls as [|m ls]; [done|].
  change (join sep (l :: m :: ls)) with (l ++ sep ++ join sep (m :: ls)). apply trimmed_app; [done|by apply IH].
Qed.

Lemma trim_start_trimmed' s : trimmed s -> trim_start s = s.
Proof. intros [(c & t & -> & Hc) _]. by apply trim_start_graphic. Qed.

Lemma starts_join c ls l : head ls = Some l -> l <> [] -> starts_with [c] (join [to_u8 10] ls) = starts_with [c] l.
Proof. intros Hh Hne. destruct ls as [|l' ls]; [done|]. injection Hh as ->. destruct l as [|d l]; [done|].
  destruct ls as [|m ls]; [done|]. unfold starts_with. cbn [join app strip_prefix]. by destruct (decide (c = d)). Qed.

Lemma profiles_of_ok ps : profiles_of (map Ok ps) = ps /\ errors_of (map Ok ps) = 0%nat.
Proof.
  unfold profiles_of, errors_of. induction ps as [|p ps [IH1 IH2]]; [done|]. cbn [map]. split; [cbn; by rewrite IH1|].
  by rewrite filter_cons_False by done.
Qed.

(** An exported file ends with a value and a line break. *)
Lemma conf_ends p : conf_exportable p -> exists x v, node_to_wg_conf p = lit "[" ++ x ++ v ++ [LF] /\ value_ok v.
Proof.
  intros Hok. set (a := default (lit "0.0.0.0/0, ::/0") (sp_param p "allowed_ips")).
  assert (exists x, node_to_wg_conf p = lit "[" ++ x ++ conf_line "AllowedIPs" (Some a)
                      ++ conf_line "PersistentKeepalive" (sp_param p "persistent_keepalive")) as [x ->].
  { unfold node_to_wg_conf. set (la := conf_line "AllowedIPs" _). set (lk := conf_line "PersistentKeepalive" _).
    set (i1 := conf_line "PrivateKey" _). set (i2 := conf_line "Address" _). set (i3 := conf_line "DNS" _). set (i4 := concat _).
    set (p1 := conf_line "PublicKey" _). set (p2 := conf_line "PresharedKey" _). set (p3 := conf_line "Endpoint" _).
    exists (lit "Interface]" ++ [LF] ++ i1 ++ i2 ++ i3 ++ i4 ++ [LF] ++ lit "[Peer]" ++ [LF] ++ p1 ++ p2 ++ p3).
    rewrite <- !app_assoc. reflexivity. }
  pose proof (conf_items_ok p Hok) as Hitems. unfold conf_items in Hitems.
  apply Forall_cons in Hitems as [_ Hitems]. apply Forall_app in Hitems as [_ Hitems]. apply Forall_app in Hitems as [_ Hitems].
  destruct (sp_param p "persistent_keepalive") as [k|] eqn:Ek.
  - exists (x ++ conf_line "AllowedIPs" (Some a) ++ lit "PersistentKeepalive = "), k. split; [unfold conf_line; by rewrite <- !app_assoc|].
    destruct Hok as (_ & _ & _ & Hv). apply (Hv "persistent_keepalive" k); [|done]. apply (bool_decide_unpack _). by vm_compute.
  - exists (x ++ lit "AllowedIPs = "), a. split; [unfold conf_line; by rewrite app_nil_r, <- !app_assoc|].
    unfold a. destruct (sp_param p "allowed_ips") as [w|] eqn:Ew; [|exact default_ips_ok].
    destruct Hok as (_ & _ & _ & Hv). apply (Hv "allowed_ips" w); [|done]. apply (bool_decide_unpack _). by vm_compute.
Qed.

Lemma conf_body p : conf_exportable p -> exists body, node_to_wg_conf p = body ++ [LF] /\ trimmed body
  /\ lines body = map print_item (conf_items p).
Proof.
  intros Hok. destruct (conf_ends p Hok) as (x & v & E & (Tv & _)). exists (lit "[" ++ x ++ v).
  assert (trimmed (lit "[" ++ x ++ v)) as Hb.
  { apply trimmed_app; [|done]. split; [by eexists _, _|]. by exists "["%char, []. }
  split; [by rewrite E, <- !app_assoc|]. split; [done|]. change LF with (to_u8 10) in *.
  rewrite <- (lines_unterminated _ Hb). rewrite <- !app_assoc, <- E, wg_conf_items. by apply lines_print, conf_items_ok.
Qed.

(** ** Properties *)

(** What the program exports can be pasted back. A text of exported links, one
    per line, is imported as the exported nodes, appended in order, with no
    error, unless the text contains [[Interface]] or [proxies:], which make it
    pass for another format; the file of a WireGuard or AmneziaWG node is
    imported as the one node it describes. *)
Theorem pasted_exports_import (cfg : AppConfig) :
  (forall ps ls, ps <> [] ->
     Forall2 (fun p l => exportable p /\ sp_protocol p ∈ [Vless; Shadowsocks; Hysteria2] /\ export_link_of p = Some l /\ LF ∉ l) ps ls ->
     contains "[Interface]" (join [LF] ls) = false -> contains "proxies:" (join [LF] ls) = false ->
     import_config (join [LF] ls) cfg
     = Ok (with_servers cfg (ac_servers cfg ++ map exported ps),
           lit "импортировано узлов: " ++ show_uint (Z.of_nat (length ps)) ++ lit " (формат: ссылки)"))
  /\ (forall p, conf_exportable p -> exists q msg,
        import_config (node_to_wg_conf p) cfg = Ok (with_servers cfg (ac_servers cfg ++ [q]), msg)
        /\ parse_awg_conf (node_to_wg_conf p) = Ok q).
Proof.
  split.
  - intros ps ls Hne H Hi Hpr.
    assert (map parse_link ls = map Ok (map exported ps)) as Hparse.
    { clear -H. induction H as [|p l ps ls (Hok & Hk & Hl & _) _ IH]; [done|]. cbn [map]. rewrite IH. f_equal.
      destruct (parse_exported p Hok Hk) as (l' & Hl' & Hp). congruence. }
    assert (Forall (fun l => to_u8 10 ∉ l /\ trimmed l /\ pasted_line l = true /\ starts_with "{" l = false /\ starts_with "[" l = false) ls) as Hls.
    { clear -H. induction H as [|p l ps ls (Hok & Hk & Hl & Hlf) _ IH]; constructor; [|done]. split; [done|].
      apply (export_link_line p l Hl). by destruct Hok as (_ & _ & ? & _). }
    destruct ls as [|l0 ls']; [by inversion H|]. set (ls := l0 :: ls') in *.
    assert (trimmed (join [LF] ls)) as Ht by (apply join_trimmed; [done|]; eapply Forall_impl; [exact Hls|]; by intros l (? & ? & _)).
    unfold import_config. rewrite (trim_trimmed _ Ht). assert (is_empty (join [LF] ls) = false) as -> by (by destruct Ht as [(c & t & -> & _) _]).
    unfold parse_any_config. rewrite Hi, (trim_start_trimmed' _ Ht), Hpr.
    apply Forall_cons in Hls as Hl0. destruct Hl0 as [(_ & Tl0 & _ & B1 & B2) _].
    assert (l0 <> []) as Hl0 by (by destruct Tl0 as [(c & t & -> & _) _]).
    change (lit "{") with ["{"%char]. change (lit "[") with ["["%char].
    rewrite !(starts_join _ ls l0) by done. change ["{"%char] with (lit "{"). change ["["%char] with (lit "["). rewrite B1, B2. cbn [orb].
    rewrite pasted_links by (eapply Forall_impl; [exact Hls|]; by intros l (? & ? & ? & _)). rewrite Hparse.
    destruct (profiles_of_ok (map exported ps)) as [-> ->]. destruct ps as [|p0 ps']; [done|]. cbn [map Nat.eqb]. by rewrite <- (length_map exported (p0 :: ps')).
  - intros p Hok. destruct (conf_body p Hok) as (body & Eb & Tb & Lb).
    pose proof (read_conf_file p Hok) as Hq. exists (conf_node p). eexists. split; [|exact Hq].
    unfold import_config. rewrite Eb. change [LF] with [to_u8 10]. rewrite trim_line_break by done.
    assert (is_empty body = false) as He by (by destruct Tb as [(c & t & -> & _) _]). rewrite He.
    assert (parse_any_config body = (lit "AmneziaWG .conf", [Ok (conf_node p)])) as ->; [|done].
    unfold parse_any_config. assert (contains "[Interface]" body = true) as ->.
    { apply contains_spec_str. pose proof Eb as Eb'. unfold node_to_wg_conf in Eb'. set (rest := conf_line "PrivateKey" _ ++ _) in Eb'.
      change (lit "[Interface]" ++ (LF :: rest) = body ++ [LF]) in Eb'.
      destruct (exists_last (l := LF :: rest)) as (front & c & Ef); [done|]. rewrite Ef, app_assoc in Eb'.
      apply app_inj_tail in Eb' as [<- _]. by exists [], front. }
    do 2 f_equal. apply read_exported_conf; [done| |done]. by rewrite (trim_trimmed _ Tb).
Qed.
