(* ===== verification/LocalWg.v ===== *)
(** * The local WireGuard server: its keys, the client's file, and its loop
    ([local_wg_*] and [LocalWgController] of [crates/cli/src/lib.rs];
    [crates/net/src/wgserver.rs])

    Two keys pairs are made once and kept in the configuration; the client gets
    a file, the server its parameters. The WireGuard protocol itself is the
    [boringtun] crate's: the class [Tunn] is what the loop calls of it. X25519
    and the random source are arguments. *)

From S2P Require Import Prelude RustStr Utf8 NetAddr Model Base64 Cidr Uri Link Awg Config Outbound Export AddrText.

(** ** Keys *)

(** The clamping of [gen_private_key], on the 32 random bytes. *)
Definition clamp (k : bytes) : bytes :=
  let k := alter (fun b => to_u8 (Z.land (val8 b) 248)) 0%nat k in
  let k := alter (fun b => to_u8 (Z.land (val8 b) 127)) 31%nat k in
  alter (fun b => to_u8 (Z.lor (val8 b) 64)) 31%nat k.

Definition gen_private_key (random : bytes) : bytes := clamp random.

(** [decode32] *)
Definition decode32 (s : str) : res str bytes :=
  v ← map_err (fun e => lit "base64: " ++ show_parse_error e) (decode_loose s);
  if (length v =? 32)%nat then Ok v else Err (lit "ключ не 32 байта").

(** What the operating system's random source gives for the three keys. *)
Record Random : Type := mkRandom { r_server : bytes; r_client : bytes; r_preshared : bytes }.

Section Keys.
(** [wgserver::public_key]: X25519. *)
Context (public_key : bytes -> bytes).

(** [local_wg_ensure], with the configuration it leaves. *)
Definition local_wg_ensure (random : Random) (cfg : AppConfig) : AppConfig * LocalWgConfig :=
  match ac_local_wg cfg with
  | Some lw => (cfg, lw)
  | None =>
      let server_priv := gen_private_key (r_server random) in
      let client_priv := gen_private_key (r_client random) in
      let lw := {|
        lw_server_private := encode_standard server_priv;
        lw_server_public := encode_standard (public_key server_priv);
        lw_client_private := encode_standard client_priv;
        lw_client_public := encode_standard (public_key client_priv);
        lw_preshared_key := encode_standard (r_preshared random);
        lw_port := 51820; lw_server_ip := "10.9.0.1"; lw_client_ip := "10.9.0.2"; lw_prefix := 24;
        lw_upstream_node := None; lw_dns := "1.1.1.1, 1.0.0.1" |} in
      (with_local_wg cfg (Some lw), lw)
  end.

Definition with_upstream (w : LocalWgConfig) (port : Z) (upstream : option str) : LocalWgConfig := {|
  lw_server_private := lw_server_private w; lw_server_public := lw_server_public w;
  lw_client_private := lw_client_private w; lw_client_public := lw_client_public w;
  lw_preshared_key := lw_preshared_key w; lw_port := port; lw_server_ip := lw_server_ip w;
  lw_client_ip := lw_client_ip w; lw_prefix := lw_prefix w; lw_upstream_node := upstream; lw_dns := lw_dns w |}.

(** [local_wg_set] *)
Definition local_wg_set (random : Random) (port : option Z) (upstream_node : option str) (cfg : AppConfig) : AppConfig :=
  let '(cfg, _) := local_wg_ensure random cfg in
  match ac_local_wg cfg with
  | None => cfg
  | Some lw =>
      let p := match port with Some p => if p =? 0 then lw_port lw else p | None => lw_port lw end in
      let up := u ← upstream_node; if bool_decide (trim u = []) then None else Some u in
      with_local_wg cfg (Some (with_upstream lw p up))
  end.
End Keys.

(** [local_wg_client_conf]; [lan_ip] is what [detect_lan_ip] found. *)
Definition client_conf (lan_ip : option IpAddr) (lw : LocalWgConfig) : str :=
  let host := default (lit "127.0.0.1") (show_ip <$> lan_ip) in
  lit "[Interface]" ++ [LF]
  ++ lit "PrivateKey = " ++ lw_client_private lw ++ [LF]
  ++ lit "Address = " ++ lw_client_ip lw ++ lit "/" ++ show_uint (lw_prefix lw) ++ [LF]
  ++ lit "DNS = " ++ lw_dns lw ++ [LF]
  ++ [LF]
  ++ lit "[Peer]" ++ [LF]
  ++ lit "PublicKey = " ++ lw_server_public lw ++ [LF]
  ++ lit "PresharedKey = " ++ lw_preshared_key lw ++ [LF]
  ++ lit "Endpoint = " ++ host ++ lit ":" ++ show_uint (lw_port lw) ++ [LF]
  ++ lit "AllowedIPs = 0.0.0.0/0, ::/0" ++ [LF]
  ++ lit "PersistentKeepalive = 25" ++ [LF].

(** [LocalWgInfo] and [local_wg_status] *)
Record LocalWgInfo : Type := mkInfo {
  li_configured : bool; li_running : bool; li_listen_addr : option str; li_port : Z; li_client_ip : str;
  li_server_public : str; li_upstream_node : option str; li_endpoint_host : option str }.

Definition local_wg_status (lan_ip : option IpAddr) (running_addr : option str) (cfg : AppConfig) : LocalWgInfo :=
  match ac_local_wg cfg with
  | Some lw => mkInfo true (match running_addr with Some _ => true | None => false end) running_addr (lw_port lw)
                 (lw_client_ip lw) (lw_server_public lw) (lw_upstream_node lw) (show_ip <$> lan_ip)
  | None => mkInfo false false None 51820 "10.9.0.2" [] None (show_ip <$> lan_ip)
  end.

(** [str::parse::<Ipv4Addr>] *)
Definition parse_ipv4 (s : str) : option Z := match read_ipv4 s with Some (a, []) => Some a | _ => None end.

(** [WgServerParams], as [LocalWgController::start] builds them. *)
Record WgServerParams : Type := mkParams {
  ws_listen : SocketAddr; ws_server_private : bytes; ws_client_public : bytes; ws_preshared_key : option bytes;
  ws_server_ip : Z; ws_prefix : Z }.

Definition server_params (lw : LocalWgConfig) : res str WgServerParams :=
  server_ip ← ok_or (parse_ipv4 (lw_server_ip lw)) (lit "некорректный server_ip");
  server_private ← decode32 (lw_server_private lw);
  client_public ← decode32 (lw_client_public lw);
  preshared_key ← decode32 (lw_preshared_key lw);
  Ok (mkParams {| sa_ip := V4 0; sa_port := lw_port lw |} server_private client_public (Some preshared_key) server_ip (lw_prefix lw)).

(** ** The server's loop: [run_wg] *)

Inductive TunnResult : Type :=
| Done
| TunnErr
| WriteToNetwork (b : bytes)
| WriteToTunnel (p : bytes).

(** The operations of [boringtun::noise::Tunn] the loop calls; each changes its state. *)
Class Tunn (T : Type) := {
  decapsulate : T -> bytes -> T * TunnResult;
  encapsulate : T -> bytes -> T * TunnResult;
  update_timers : T -> T * TunnResult
}.

(** After a handshake [decapsulate] hands out what it had queued, one packet per
    call with no input, until the queue is empty. *)
Class TunnLaws (T : Type) `{Tunn T} := {
  queued : T -> nat;
  decapsulate_drains : forall t t' b, decapsulate t [] = (t', WriteToNetwork b) -> (queued t' < queued t)%nat
}.

Inductive WgEvent : Type :=
| WgDatagram (d : bytes) (from : SocketAddr)
| WgRecvError
| WgStackPacket (ip : bytes)
| WgTick.

Inductive WgOut : Type :=
| WgSend (b : bytes) (to : SocketAddr)
| WgInject (ip : bytes).

Record WgState (T : Type) : Type := mkWgState { w_tunn : T; w_peer : option SocketAddr }.
Arguments mkWgState {T}.
Arguments w_tunn {T}.
Arguments w_peer {T}.

Section Loop.
Context {T : Type} `{Tunn T}.

(** The inner loop over one datagram. *)
Fixpoint drain (fuel : nat) (t : T) (input : bytes) (addr : SocketAddr) (peer : option SocketAddr) (out : list WgOut)
    : option (WgState T * list WgOut) :=
  match fuel with
  | O => None
  | S fuel =>
      match decapsulate t input with
      | (t, WriteToNetwork b) => drain fuel t [] addr (Some addr) (out ++ [WgSend b addr])
      | (t, WriteToTunnel ip) => Some (mkWgState t (Some addr), out ++ [WgInject ip])
      | (t, _) => Some (mkWgState t peer, out)
      end
  end.

(** What is sent to the peer, when there is one. *)
Definition to_peer (peer : option SocketAddr) (r : TunnResult) : list WgOut :=
  match r, peer with WriteToNetwork b, Some a => [WgSend b a] | _, _ => [] end.

Definition wg_step (fuel : nat) (s : WgState T) (e : WgEvent) : option (WgState T * list WgOut) :=
  match e with
  | WgDatagram d from => drain fuel (w_tunn s) d from (w_peer s) []
  | WgRecvError => Some (s, [])
  | WgStackPacket ip => let '(t, r) := encapsulate (w_tunn s) ip in Some (mkWgState t (w_peer s), to_peer (w_peer s) r)
  | WgTick => let '(t, r) := update_timers (w_tunn s) in Some (mkWgState t (w_peer s), to_peer (w_peer s) r)
  end.

(** A run of the loop: the states, and for each event what it put out. *)
Inductive wg_run : WgState T -> list (WgEvent * list WgOut) -> WgState T -> Prop :=
| wg_start t : wg_run (mkWgState t None) [] (mkWgState t None)
| wg_next s0 tr s e fuel s' out : wg_run s0 tr s -> wg_step fuel s e = Some (s', out) -> wg_run s0 (tr ++ [(e, out)]) s'.

(** A datagram that the tunnel accepted, when it arrived. *)
Definition accepted (t : T) (d : bytes) : Prop :=
  match snd (decapsulate t d) with WriteToNetwork _ | WriteToTunnel _ => True | _ => False end.

(** ** Lemmas *)

Lemma drain_enough `{!TunnLaws T} n : forall t input addr peer out,
  (queued (fst (decapsulate t input)) < n)%nat -> is_Some (drain (S n) t input addr peer out).
Proof using Type.
  induction n as [|n IH]; intros t input addr peer out Hn; [lia|]. cbn [drain].
  destruct (decapsulate t input) as [t' r] eqn:E. cbn [fst] in Hn. destruct r; eauto.
  destruct (decapsulate t' []) as [t'' r'] eqn:E'. destruct r'; cbn [drain]; rewrite ?E'; eauto.
  specialize (IH t' [] addr (Some addr) (out ++ [WgSend b addr])). rewrite E' in IH. cbn [fst drain] in IH. rewrite E' in IH.
  apply IH. apply decapsulate_drains in E'. lia.
Qed.

Lemma drain_mono n : forall m t input addr peer out r, drain n t input addr peer out = Some r -> (n <= m)%nat ->
  drain m t input addr peer out = Some r.
Proof using Type.
  induction n as [|n IH]; intros m t input addr peer out r E Hm; [done|]. destruct m as [|m]; [lia|]. cbn [drain] in *.
  destruct (decapsulate t input) as [t' q]. destruct q; try done. apply IH; [done|lia].
Qed.

(** The outputs of a datagram go to its sender, and the peer is kept or becomes its sender. *)
Lemma drain_spec n : forall t input addr peer out s' out', drain n t input addr peer out = Some (s', out') ->
  (w_peer s' = peer \/ w_peer s' = Some addr)
  /\ (w_peer s' <> peer -> peer <> Some addr -> accepted t input)
  /\ exists more, out' = out ++ more /\ (forall b a, WgSend b a ∈ more -> a = addr /\ accepted t input).
Proof using Type.
  induction n as [|n IH]; intros t input addr peer out s' out' E; [done|]. cbn [drain] in E. unfold accepted.
  destruct (decapsulate t input) as [t' r]. cbn [snd]. destruct r as [| |b|ip].
  - injection E as <- <-. split_and!; [by left|done|]. exists []. by rewrite app_nil_r; split; [|intros ? ? ?%elem_of_nil].
  - injection E as <- <-. split_and!; [by left|done|]. exists []. by rewrite app_nil_r; split; [|intros ? ? ?%elem_of_nil].
  - apply IH in E as (H1 & _ & more & -> & Hm). split_and!; [right; by destruct H1|done|].
    exists (WgSend b addr :: more). rewrite <- app_assoc. split; [done|]. intros b' a Hin.
    apply elem_of_cons in Hin as [[= _ ->]|Hin]; [done|]. by apply Hm in Hin as [-> _].
  - injection E as <- <-. split_and!; [by right|done|]. exists [WgInject ip]. split; [done|]. by intros ? ? ?%list_elem_of_singleton.
Qed.

(** The senders of the datagrams that were accepted before. *)
Definition sender_of (s0 : WgState T) (tr : list (WgEvent * list WgOut)) (a : SocketAddr) : Prop :=
  exists tr1 d out tr2 s, tr = tr1 ++ (WgDatagram d a, out) :: tr2 /\ wg_run s0 tr1 s /\ accepted (w_tunn s) d.

Lemma sender_of_app s0 tr e a : sender_of s0 tr a -> sender_of s0 (tr ++ [e]) a.
Proof using Type.
  intros (tr1 & d & out & tr2 & s & -> & Hr & Ha). exists tr1, d, out, (tr2 ++ [e]), s. by rewrite <- app_assoc.
Qed.

Lemma run_peer s0 tr s : wg_run s0 tr s -> forall a, w_peer s = Some a -> sender_of s0 tr a.
Proof using Type.
  induction 1 as [t|s0 tr s e fuel s' out Hr IH E]; intros a Ha; [done|].
  destruct (decide (w_peer s = Some a)) as [Hs|Hs]; [apply sender_of_app; auto|].
  destruct e as [d from| |ip|]; cbn [wg_step] in E.
  - apply drain_spec in E as ([H1|H1] & H2 & _); [congruence|]. rewrite Ha in H1. injection H1 as <-.
    exists tr, d, out, [], s. split_and!; [done|done|]. apply H2; congruence.
  - injection E as <- <-. done.
  - destruct (encapsulate _ _) as [t r]. injection E as <- <-. done.
  - destruct (update_timers _) as [t r]. injection E as <- <-. done.
Qed.
End Loop.

(** ** Lemmas: the client's file is that of a node *)

Definition client_node (lan_ip : option IpAddr) (lw : LocalWgConfig) : ServerProfile :=
  {| sp_name := []; sp_protocol := Wireguard; sp_address := default (lit "127.0.0.1") (show_ip <$> lan_ip); sp_port := lw_port lw;
     sp_params := list_to_map [(lit "private_key", lw_client_private lw);
                               (lit "address", lw_client_ip lw ++ lit "/" ++ show_uint (lw_prefix lw));
                               (lit "dns", lw_dns lw); (lit "public_key", lw_server_public lw);
                               (lit "preshared_key", lw_preshared_key lw); (lit "persistent_keepalive", lit "25")];
     sp_tags := [] |}.

Lemma client_conf_node lan_ip lw : client_conf lan_ip lw = node_to_wg_conf (client_node lan_ip lw).
Proof.
  unfold node_to_wg_conf. unfold sp_param, client_node, addr_port. cbn [sp_params sp_address sp_port].
  cbn [list_to_map foldr fst snd AWG_LABELS map].
  repeat first [rewrite lookup_insert_eq | rewrite lookup_insert_ne by (apply (bool_decide_unpack _); vm_compute; exact I)].
  rewrite !lookup_empty. unfold client_conf. cbn [conf_line concat app from_option id]. unfold conf_line.
  rewrite <- ?app_assoc. reflexivity.
Qed.

(** An X25519 scalar: a multiple of 8, of exactly 255 bits. *)
Definition clamped (k : bytes) : Prop :=
  length k = 32%nat /\ (forall b, k !! 0%nat = Some b -> Z.land (val8 b) 7 = 0)
  /\ (forall b, k !! 31%nat = Some b -> 64 <= val8 b < 128).

Lemma clamp_byte b : Z.land (val8 (to_u8 (Z.land (val8 b) 248))) 7 = 0
  /\ 64 <= val8 (to_u8 (Z.lor (val8 (to_u8 (Z.land (val8 b) 127))) 64)) < 128.
Proof. destruct b as [[] [] [] [] [] [] [] []]; vm_compute; (split; [reflexivity|split; [discriminate|reflexivity]]). Qed.

Lemma gen_private_key_clamped r : length r = 32%nat -> clamped (gen_private_key r).
Proof.
  intros H. unfold gen_private_key, clamp, clamped. split_and!.
  - by rewrite !length_alter.
  - intros b. rewrite !list_lookup_alter_ne by lia. rewrite list_lookup_alter_eq. intros Hb.
    apply fmap_Some in Hb as (c & _ & ->). apply clamp_byte.
  - intros b. rewrite !list_lookup_alter_eq. intros Hb.
    apply fmap_Some in Hb as (c & Hc & ->). apply fmap_Some in Hc as (d & _ & ->). apply clamp_byte.
Qed.

Lemma decode32_encode k : length k = 32%nat -> decode32 (encode_standard k) = Ok k.
Proof. intros H. unfold decode32. rewrite decode_encode. cbn [map_err mbind res_bind]. by rewrite H. Qed.

Lemma decode_key_encode k : length k = 32%nat -> decode_key (encode_standard k) = Some k.
Proof. intros H. unfold decode_key. rewrite decode_encode. cbn [res_ok mbind option_bind]. by rewrite H. Qed.

Lemma graphic_value v : v <> [] -> Forall (fun c => graphic c = true) v -> "#"%char ∉ v -> ";"%char ∉ v -> value_ok v.
Proof.
  intros Hne Hg H1 H2. split_and!; [by apply all_graphic_trimmed|done|]. intros Hin. eapply Forall_forall in Hg; [|exact Hin]. done.
Qed.

Lemma key_value k : length k = 32%nat -> value_ok (encode_standard k).
Proof.
  intros H. apply graphic_value; [|apply encode_graphic|apply encode_standard_no; by apply (bool_decide_unpack _)..].
  intros E. pose proof (decode_encode k) as Hd. rewrite E in Hd. vm_compute in Hd. injection Hd as <-. done.
Qed.

Lemma host_value ip port : ip_ok ip -> port_ok port -> host_ok (show_ip ip) /\ value_ok (show_ip ip ++ lit ":" ++ show_uint port).
Proof.
  intros Hip Hp. pose proof (show_ip_chars ip) as Hc.
  assert (show_ip ip <> []) as Hne by (intros E; pose proof (parse_show_ip ip Hip) as Hpr; by rewrite E in Hpr).
  assert (forall c, addr_char c = false -> c ∉ show_ip ip) as Hno by (intros c; by apply addr_char_not).
  split.
  - split; [done|]. apply Forall_forall. intros c Hin Hbad. revert Hin. apply Hno.
    repeat (apply elem_of_cons in Hbad as [->|Hbad]; [done|]). by apply elem_of_nil in Hbad.
  - assert (forall c, is_digit c = false -> c ∉ show_uint port) as Hd by (intros c; by apply show_port_no).
    apply graphic_value.
    + by destruct (show_ip ip).
    + rewrite !Forall_app. split_and!; [eapply Forall_impl; [exact Hc|apply addr_char_graphic]|by repeat constructor|].
      apply Forall_forall. intros c Hin. apply show_uint_digits in Hin; [|by destruct Hp]. unfold is_digit in Hin. unfold graphic. lia.
    + rewrite !not_elem_of_app. split_and!; [by apply Hno|by apply (bool_decide_unpack _)|by apply Hd].
    + rewrite !not_elem_of_app. split_and!; [by apply Hno|by apply (bool_decide_unpack _)|by apply Hd].
Qed.

Lemma client_exportable lan_ip lw : (forall ip, lan_ip = Some ip -> ip_ok ip) -> port_ok (lw_port lw) ->
  value_ok (lw_client_private lw) -> value_ok (lw_client_ip lw ++ lit "/" ++ show_uint (lw_prefix lw)) -> value_ok (lw_dns lw) ->
  value_ok (lw_server_public lw) -> value_ok (lw_preshared_key lw) -> conf_exportable (client_node lan_ip lw).
Proof.
  intros Hip Hp W1 W2 W3 W4 W5. set (ip := default (V4 (127 * 2 ^ 24 + 1)) lan_ip).
  assert (sp_address (client_node lan_ip lw) = show_ip ip) as Ha by (unfold client_node, ip; cbn [sp_address]; by destruct lan_ip).
  assert (ip_ok ip) as Hok by (unfold ip; destruct lan_ip; cbn; [by apply Hip|by vm_compute]).
  destruct (host_value ip (lw_port lw) Hok Hp) as [Hh Hv]. unfold conf_exportable, addr_port. rewrite Ha. split_and!; [done|done|done|].
  intros k v _ Hkv. apply elem_of_list_to_map_2 in Hkv.
  repeat (apply elem_of_cons in Hkv as [[= -> ->]|Hkv]; [first [done|by apply plain_value; vm_compute]|]). by apply elem_of_nil in Hkv.
Qed.

Lemma value_dns : value_ok (lit "1.1.1.1, 1.0.0.1").
Proof.
  split_and!; [|by apply no_comment_lit|by apply (bool_decide_unpack _)]. split; [by eexists _, _|].
  exists "1"%char, (lit "1.1.1.1, 1.0.0."). done.
Qed.

(** The outbound of the client's node. *)
Lemma client_outbound lan_ip lw kp ks kq : lw_client_ip lw = lit "10.9.0.2" -> lw_prefix lw = 24 -> lw_dns lw = lit "1.1.1.1, 1.0.0.1" ->
  decode_key (lw_client_private lw) = Some kp -> decode_key (lw_server_public lw) = Some ks -> decode_key (lw_preshared_key lw) = Some kq ->
  outbound_from_profile (client_node lan_ip lw) = Ok (OWireguard (mkWg (addr_port (client_node lan_ip lw)) kp ks (Some kq)
    [(V4 (10 * 2 ^ 24 + 9 * 2 ^ 16 + 2), 24)] [V4 (2 ^ 24 + 2 ^ 16 + 2 ^ 8 + 1); V4 (2 ^ 24 + 1)] (Some 25) None)).
Proof.
  intros H1 H2 H3 K1 K2 K3. set (p := client_node lan_ip lw).
  assert (sp_param p "private_key" = Some (lw_client_private lw)) as P1 by reflexivity.
  assert (sp_param p "public_key" = Some (lw_server_public lw)) as P2 by reflexivity.
  assert (sp_param p "preshared_key" = Some (lw_preshared_key lw)) as P3 by reflexivity.
  assert (sp_param p "address" = Some (lit "10.9.0.2/24")) as P4.
  { change (sp_param p "address") with (Some (lw_client_ip lw ++ lit "/" ++ show_uint (lw_prefix lw))). by rewrite H1, H2. }
  assert (sp_param p "dns" = Some (lit "1.1.1.1, 1.0.0.1")) as P5.
  { change (sp_param p "dns") with (Some (lw_dns lw)). by rewrite H3. }
  assert (sp_param p "persistent_keepalive" = Some (lit "25")) as P6 by reflexivity.
  unfold outbound_from_profile. change (sp_protocol p) with Wireguard. fold (addr_port p). unfold wireguard_outbound, wg_key, required.
  rewrite P1, P2, P3, P4, P5, P6. cbn [ok_or mbind res_bind]. rewrite K1, K2, K3. cbn [ok_or mbind res_bind]. reflexivity.
Qed.

(** ** Properties *)

(** The two ends of the local tunnel agree. The configuration made at the first
    use is kept by later ones; the file for the client is read back as a
    WireGuard node whose outbound has the client's key, a clamped X25519 scalar,
    and expects the public key of the server's key; the server expects the public
    key of the client's; both hold the same preshared key; the client's address
    lies in the server's network and its endpoint is the server's port. *)
Theorem local_wg_ends_agree (public_key : bytes -> bytes) (random random' : Random) (cfg : AppConfig) (lan_ip : option IpAddr)
    (Hnew : ac_local_wg cfg = None)
    (Hpub : forall k, length (public_key k) = 32%nat)
    (Hrandom : length (r_server random) = 32%nat /\ length (r_client random) = 32%nat /\ length (r_preshared random) = 32%nat)
    (Hip : forall ip, lan_ip = Some ip -> ip_ok ip) :
  let '(cfg', lw) := local_wg_ensure public_key random cfg in
  ac_local_wg cfg' = Some lw /\ local_wg_ensure public_key random' cfg' = (cfg', lw)
  /\ exists q c s, parse_awg_conf (client_conf lan_ip lw) = Ok q /\ outbound_from_profile q = Ok (OWireguard c) /\ server_params lw = Ok s
     /\ clamped (wg_private_key c) /\ clamped (ws_server_private s)
     /\ ws_client_public s = public_key (wg_private_key c) /\ wg_peer_public_key c = public_key (ws_server_private s)
     /\ wg_preshared_key c = ws_preshared_key s /\ wg_preshared_key c <> None
     /\ wg_endpoint c = default (lit "127.0.0.1") (show_ip <$> lan_ip) ++ lit ":" ++ show_uint (sa_port (ws_listen s))
     /\ (exists a, wg_address c = [(V4 a, ws_prefix s)] /\ a <> ws_server_ip s
                   /\ a / 2 ^ (32 - ws_prefix s) = ws_server_ip s / 2 ^ (32 - ws_prefix s))
     /\ wg_awg c = None.
Proof.
  destruct Hrandom as (R1 & R2 & R3). unfold local_wg_ensure at 1. rewrite Hnew.
  set (lw := {| lw_server_private := _ |}). split; [done|]. split; [done|].
  pose proof (gen_private_key_clamped _ R1) as C1. pose proof (gen_private_key_clamped _ R2) as C2.
  assert (conf_exportable (client_node lan_ip lw)) as Hx.
  { apply client_exportable; [done|done|apply key_value; apply C2|by apply plain_value; vm_compute| |apply key_value, Hpub|by apply key_value].
    apply value_dns. }
  exists (conf_node (client_node lan_ip lw)).
  eexists _, _. split; [rewrite client_conf_node; by apply read_conf_file|].
  split. { rewrite conf_node_outbound by reflexivity. apply client_outbound; [done..| | |]; apply decode_key_encode; [apply C2|apply Hpub|done]. }
  split. { unfold server_params. change (parse_ipv4 (lw_server_ip lw)) with (Some (10 * 2 ^ 24 + 9 * 2 ^ 16 + 1)). cbn [ok_or mbind res_bind].
           cbn [lw lw_server_private lw_client_public lw_preshared_key].
           rewrite !decode32_encode by (try apply Hpub; try done; apply C1). cbn [mbind res_bind]. reflexivity. }
  cbn. split_and!; try done. eexists. split; [done|]. by vm_compute.
Qed.

(** The server answers only who the tunnel accepted. In any run of its loop,
    whatever it sends at an event goes to the sender of this event's datagram, if
    the tunnel accepted it, or to the sender of an earlier accepted datagram; a
    datagram that is not accepted changes neither the peer nor anything that is
    sent. The loop processes every event: the packets a handshake releases are
    sent one by one and end. *)
Theorem wg_server_answers_accepted {T : Type} `{TunnLaws T} (s0 s : WgState T) (tr : list (WgEvent * list WgOut)) (e : WgEvent)
    (Hrun : wg_run s0 tr s) :
  (exists fuel r, wg_step fuel s e = Some r /\ forall fuel' r', wg_step fuel' s e = Some r' -> r' = r)
  /\ (forall fuel s' out, wg_step fuel s e = Some (s', out) ->
        (forall b a, WgSend b a ∈ out -> (exists d, e = WgDatagram d a /\ accepted (w_tunn s) d) \/ sender_of s0 tr a)
        /\ (forall d from, e = WgDatagram d from -> ~ accepted (w_tunn s) d -> w_peer s' = w_peer s /\ out = [])).
Proof.
  split.
  - destruct e as [d from| |ip|]; cbn [wg_step].
    + destruct (drain_enough (S (queued (fst (decapsulate (w_tunn s) d)))) (w_tunn s) d from (w_peer s) []) as [r Hr]; [lia|].
      eexists _, r. split; [exact Hr|]. intros fuel' r' Hr'.
      set (n := S (S (queued (fst (decapsulate (w_tunn s) d))))) in *.
      destruct (Nat.le_ge_cases n fuel') as [Hle|Hle].
      * apply (drain_mono _ fuel') in Hr; [congruence|done].
      * apply (drain_mono _ n) in Hr'; [congruence|done].
    + exists 0%nat. eexists. split; [done|]. by intros _ r' [= <-].
    + exists 0%nat. destruct (encapsulate _ _) as [t q]. eexists. split; [done|]. by intros _ r' [= <-].
    + exists 0%nat. destruct (update_timers _) as [t q]. eexists. split; [done|]. by intros _ r' [= <-].
  - intros fuel s' out E.
    assert (forall r b a, WgSend b a ∈ to_peer (w_peer s) r -> sender_of s0 tr a) as Hpeer.
    { intros r b a Hin. unfold to_peer in Hin. destruct r; try by apply elem_of_nil in Hin. destruct (w_peer s) as [p|] eqn:Ep; [|by apply elem_of_nil in Hin].
      apply list_elem_of_singleton in Hin as [= -> ->]. by eapply run_peer. }
    destruct e as [d from| |ip|]; cbn [wg_step] in E.
    + pose proof E as (H1 & H2 & more & -> & Hm)%drain_spec. split.
      * intros b a Hin. left. apply Hm in Hin as [-> Ha]. by exists d.
      * intros d' from' [= <- <-] Hna. destruct fuel as [|fuel]; [done|]. cbn [drain] in E. unfold accepted in Hna.
        destruct (decapsulate (w_tunn s) d) as [t' q]. cbn [snd] in Hna. destruct q; try done; injection E as <- <-; done.
    + injection E as <- <-. split; [by intros ? ? ?%elem_of_nil|done].
    + destruct (encapsulate _ _) as [t q]. injection E as <- <-. split; [intros b a Hin; right; by eapply Hpeer|done].
    + destruct (update_timers _) as [t q]. injection E as <- <-. split; [intros b a Hin; right; by eapply Hpeer|done].
Qed.

(** *** Witnesses *)

(** A tunnel that knows one word: after it, what was queued goes out. *)
#[export] Instance toy_tunn : Tunn nat := {|
  decapsulate t d := if decide (d = lit "hello") then (t, WriteToNetwork "welcome")
                     else match d, t with [], S t => (t, WriteToNetwork "queued") | _, _ => (t, TunnErr) end;
  encapsulate t ip := (t, WriteToNetwork ip);
  update_timers t := (t, Done)
|}.

#[export] Instance toy_tunn_laws : TunnLaws nat.
Proof. refine {| queued := id |}. intros t t' b. cbn. destruct t; [done|]. intros [= <- _]. cbn. lia. Defined.

Definition client_addr : SocketAddr := {| sa_ip := V4 1; sa_port := 1000 |}.
Definition intruder_addr : SocketAddr := {| sa_ip := V4 2; sa_port := 2000 |}.

Lemma wg_server_answers_accepted_witness :
  exists s tr, wg_run (mkWgState 1%nat None) tr s /\ w_peer s = Some client_addr
    /\ (exists r, wg_step 9 s (WgStackPacket "ip") = Some r /\ snd r = [WgSend "ip" client_addr])
    /\ sender_of (mkWgState 1%nat None) tr client_addr.
Proof.
  assert (wg_run (mkWgState 1%nat None)
    (([] ++ [(WgDatagram "hello" client_addr, [WgSend "welcome" client_addr; WgSend "queued" client_addr])]) ++ [(WgDatagram "forged" intruder_addr, [])])
    (mkWgState 0%nat (Some client_addr))) as Hrun.
  { eapply (wg_next _ _ (mkWgState 0%nat (Some client_addr)) _ 9); [eapply (wg_next _ _ _ _ 9); [apply wg_start|]|]; vm_compute; reflexivity. }
  eexists _, _. split; [exact Hrun|]. split; [done|]. split; [eexists; split; vm_compute; reflexivity|].
  destruct (wg_server_answers_accepted _ _ _ (WgStackPacket "ip") Hrun) as [_ H].
  destruct (H 9%nat _ _ eq_refl) as [H1 _]. destruct (H1 (lit "ip") client_addr) as [(d & Hd & _)|Hs]; [by left|done|exact Hs].
Defined.

Definition toy_public (_ : bytes) : bytes := repeat "P"%char 32.
Definition toy_random : Random := mkRandom (repeat "s"%char 32) (repeat "c"%char 32) (repeat "k"%char 32).

Lemma local_wg_ends_agree_witness :
  exists q c, parse_awg_conf (client_conf (Some (V4 16909060)) (snd (local_wg_ensure toy_public toy_random app_config_default))) = Ok q
    /\ outbound_from_profile q = Ok (OWireguard c) /\ wg_endpoint c = "1.2.3.4:51820".
Proof.
  destruct (local_wg_ends_agree toy_public toy_random toy_random app_config_default (Some (V4 16909060))) as
    (_ & _ & q & c & s & H1 & H2 & H3 & _ & _ & _ & _ & _ & _ & H4 & _).
  - done.
  - done.
  - done.
  - intros ip [= <-]. by vm_compute.
  - exists q, c. split_and!; [exact H1|exact H2|]. rewrite H4. vm_compute in H3. injection H3 as <-. vm_compute. reflexivity.
Defined.
