(* ===== verification/Obfs.v ===== *)
(** * AmneziaWG obfuscation of WireGuard packets ([crates/net/src/wireguard/obfs.rs])

    [wrap] turns a packet of the WireGuard tunnel into datagrams (random junk
    before a handshake initiation, a random prefix, a configured number in the
    place of the message type) and [unwrap] finds the packet in a datagram.
    BLAKE2s is the [blake2] crate's: the class [Blake2s]. *)

From S2P Require Import Prelude NetIo VisionPad Outbound.

(** ** The first authentication code *)

Class Blake2s : Type := {
  blake2s256 : bytes -> bytes;
  (** keyed, 16 bytes: [Blake2sMac<U16>] *)
  blake2s_mac : bytes -> bytes -> bytes
}.

Class Blake2sLaws (b : Blake2s) : Prop := {
  length_blake2s_mac : forall k m, length (blake2s_mac k m) = 16%nat
}.

Definition LABEL_MAC1 : bytes := lit "mac1----".

Definition T_INIT : Z := 1.
Definition T_RESP : Z := 2.
Definition T_COOKIE : Z := 3.
Definition T_DATA : Z := 4.

Definition LEN_INIT : nat := 148.
Definition LEN_RESP : nat := 92.
Definition LEN_COOKIE : nat := 64.
Definition DATA_HEADER : nat := 16.
Definition DATA_MIN : nat := DATA_HEADER + 16.

Section Mac.
Context `{B : Blake2s}.

Definition mac1_key (receiver_pub : bytes) : bytes := blake2s256 (LABEL_MAC1 ++ receiver_pub).

(** [fix_mac1]: the sixteen bytes at [len - 32] are replaced. *)
Definition fix_mac1 (msg receiver_pub : bytes) : bytes :=
  let len := length msg in
  if negb (len =? LEN_INIT)%nat && negb (len =? LEN_RESP)%nat then msg
  else let off := (len - 32)%nat in
       take off msg ++ blake2s_mac (mac1_key receiver_pub) (take off msg) ++ drop (off + 16) msg.
End Mac.

(** ** The obfuscator *)

Record AwgObfs : Type := mkAwgObfs {
  obfs_params : option AwgObfuscation;
  our_public : bytes;
  peer_public : bytes
}.

(** [AwgObfs::new] *)
Definition obfs_new (params : option AwgObfuscation) (our peer : bytes) : AwgObfs :=
  mkAwgObfs (a ← params; if negb (is_identity a) then Some a else None) our peer.

Definition h_for (a : AwgObfuscation) (t : Z) : Z :=
  if t =? T_INIT then h1 a
  else if t =? T_RESP then h2 a
  else if t =? T_COOKIE then h3 a
  else if t =? T_DATA then h4 a
  else t.

Definition s_for (a : AwgObfuscation) (t : Z) : nat :=
  if t =? T_INIT then Z.to_nat (s1 a)
  else if t =? T_RESP then Z.to_nat (s2 a)
  else 0.

(** The four bytes of the type, read at [pos]. *)
Definition type_at (pos : nat) (dg : bytes) : Z := le_value (slice pos (pos + 4) dg).

(** One junk packet; [random_range(lo..=hi)] is [lo] and a number below
    [hi - lo + 1]. *)
Definition junk (r : Rng) (lo hi : nat) : bytes :=
  random_fill r (if (lo <? hi)%nat then lo + random_range r (hi - lo + 1) else lo)%nat.

(** The sizes [unwrap] goes through, in its order. *)
Definition known_types : list (Z * nat * bool) :=
  [(T_INIT, LEN_INIT, false); (T_RESP, LEN_RESP, false); (T_COOKIE, LEN_COOKIE, false); (T_DATA, DATA_MIN, true)].

Section Obfs.
Context `{B : Blake2s}.

(** [wrap]; [rng] is the random source of each junk packet, and then of the
    prefix. *)
Definition wrap (rng : nat -> Rng) (o : AwgObfs) (packet : bytes) : list bytes :=
  match obfs_params o with
  | None => [packet]
  | Some a =>
      if (length packet <? 4)%nat then [packet]
      else
        let t := type_at 0 packet in
        let lo := Z.to_nat (jmin a) in
        let hi := Nat.max (Z.to_nat (jmax a)) lo in
        let out := if (t =? T_INIT) && (0 <? jc a)
                   then map (fun i => junk (rng i) lo hi) (seq 0 (Z.to_nat (jc a))) else [] in
        let s := s_for a t in
        let prefix := if (0 <? s)%nat then random_fill (rng (Z.to_nat (jc a))) s else [] in
        let body := le_bytes 4 (h_for a t) ++ drop 4 packet in
        let body := if (t =? T_INIT) || (t =? T_RESP) then fix_mac1 body (peer_public o) else body in
        out ++ [prefix ++ body]
  end.

(** The conditions of the loop of [unwrap] for one type. *)
Definition matches_type (a : AwgObfuscation) (dg : bytes) (k : Z * nat * bool) : bool :=
  let '(t, fixed, is_transport) := k in
  let l := length dg in
  let pad := s_for a t in
  negb (l <? pad + 4)%nat
  && (if is_transport : bool then (pad + fixed <=? l)%nat else (l =? pad + fixed)%nat)
  && (type_at pad dg =? h_for a t).

Definition restore (o : AwgObfs) (a : AwgObfuscation) (dg : bytes) (t : Z) : bytes :=
  let pkt := le_bytes 4 t ++ drop 4 (drop (s_for a t) dg) in
  if (t =? T_INIT) || (t =? T_RESP) then fix_mac1 pkt (our_public o) else pkt.

Fixpoint unwrap_loop (o : AwgObfs) (a : AwgObfuscation) (dg : bytes) (ks : list (Z * nat * bool)) : option bytes :=
  match ks with
  | [] => None
  | k :: ks => if matches_type a dg k then Some (restore o a dg k.1.1) else unwrap_loop o a dg ks
  end.

(** [unwrap] *)
Definition unwrap_dg (o : AwgObfs) (dg : bytes) : option bytes :=
  match obfs_params o with
  | None => Some dg
  | Some a => unwrap_loop o a dg known_types
  end.
End Obfs.

(** ** What both ends agree on *)

(** The numbers AmneziaWG asks of a configuration: they fit their width, the
    four headers differ, and a prefixed initiation is not as long as a prefixed
    response. *)
Definition awg_ok (a : AwgObfuscation) : Prop :=
  0 <= s1 a /\ 0 <= s2 a /\ s2 a <> s1 a + 56
  /\ Forall (fun h => 0 <= h < 256 ^ 4) [h1 a; h2 a; h3 a; h4 a]
  /\ NoDup [h1 a; h2 a; h3 a; h4 a].

Section Packets.
Context `{B : Blake2s}.

(** A packet as the tunnel makes it for the owner of [pub]: the length of its
    type, and a valid first code in a handshake. *)
Definition wg_packet (pub : bytes) (p : bytes) : Prop :=
  (type_at 0 p = T_INIT /\ length p = LEN_INIT /\ fix_mac1 p pub = p)
  \/ (type_at 0 p = T_RESP /\ length p = LEN_RESP /\ fix_mac1 p pub = p)
  \/ (type_at 0 p = T_COOKIE /\ length p = LEN_COOKIE)
  \/ (type_at 0 p = T_DATA /\ (DATA_MIN <= length p)%nat).

(** No handshake header stands by chance in the place where it is looked for,
    in a data packet of the length of a prefixed handshake. *)
Definition unmistakable (a : AwgObfuscation) (p : bytes) : Prop :=
  type_at 0 p = T_DATA ->
  Forall (fun k => matches_type a (le_bytes 4 (h4 a) ++ drop 4 p) k = false) (take 2 known_types).
End Packets.

(** ** Types and codes *)

Section Facts.
Context `{B : Blake2s} {L : Blake2sLaws B}.

Definition retype (t : Z) (m : bytes) : bytes := le_bytes 4 t ++ drop 4 m.

Lemma length_retype t m : (4 <= length m)%nat -> length (retype t m) = length m.
Proof. intros. unfold retype. rewrite length_app, length_le_bytes, length_drop. lia. Qed.

Lemma type_at_prefix p m : type_at (length p) (p ++ m) = type_at 0 m.
Proof. unfold type_at, slice. rewrite drop_app_length, drop_0. by replace (length p + 4 - length p)%nat with 4%nat by lia. Qed.

Lemma type_at_retype t m : 0 <= t < 256 ^ 4 -> type_at 0 (retype t m) = t.
Proof. intros. unfold type_at, retype. rewrite slice_app_l by apply length_le_bytes. by apply le_value_le_bytes_small. Qed.

Lemma retype_self t m : (4 <= length m)%nat -> type_at 0 m = t -> retype t m = m.
Proof.
  intros Hl <-. unfold retype, type_at, slice. rewrite drop_0.
  transitivity (take 4 m ++ drop 4 m); [f_equal | apply take_drop].
  pose proof (le_bytes_le_value (take 4 m)) as E. by rewrite length_take, Nat.min_l in E by done.
Qed.

Lemma retype_retype t u m : retype t (retype u m) = retype t m.
Proof. unfold retype. by rewrite drop_app_length' by (by rewrite length_le_bytes). Qed.

Lemma retype_app t a b : (4 <= length a)%nat -> retype t (a ++ b) = retype t a ++ b.
Proof. intros. unfold retype. rewrite drop_app_le by lia. by rewrite app_assoc. Qed.

Lemma fix_mac1_shape m k : length m = LEN_INIT \/ length m = LEN_RESP ->
  exists a c e, m = a ++ c ++ e /\ length a = (length m - 32)%nat /\ length c = 16%nat /\ length e = 16%nat
                /\ fix_mac1 m k = a ++ blake2s_mac (mac1_key k) a ++ e.
Proof.
  intros H. exists (take (length m - 32) m), (slice (length m - 32) (length m - 16) m), (drop (length m - 16) m).
  assert (32 <= length m)%nat by (destruct H as [-> | ->]; unfold LEN_INIT, LEN_RESP; lia).
  replace (length m - 16)%nat with (length m - 32 + 16)%nat by lia. repeat split.
  - unfold slice. rewrite <- drop_drop, (Nat.add_comm _ 16), Nat.add_sub. by rewrite !take_drop.
  - rewrite length_take. lia.
  - rewrite slice_length by lia. lia.
  - rewrite length_drop. lia.
  - unfold fix_mac1. destruct H as [-> | ->]; rewrite Nat.eqb_refl; [done|]. by rewrite andb_false_r.
Qed.

Lemma fix_mac1_short m k : length m <> LEN_INIT -> length m <> LEN_RESP -> fix_mac1 m k = m.
Proof. intros ? ?. unfold fix_mac1. by rewrite !(proj2 (Nat.eqb_neq _ _)) by done. Qed.

Lemma handshake_length_dec (m : bytes) :
  (length m = LEN_INIT \/ length m = LEN_RESP) \/ (length m <> LEN_INIT /\ length m <> LEN_RESP).
Proof. unfold LEN_INIT, LEN_RESP. lia. Qed.

Lemma length_fix_mac1 m k : length (fix_mac1 m k) = length m.
Proof using L.
  destruct (handshake_length_dec m) as [H|[? ?]]; [|by rewrite fix_mac1_short].
  destruct (fix_mac1_shape m k H) as (a & c & e & Hm & _ & ? & ? & ->).
  rewrite Hm at 1. rewrite !length_app, length_blake2s_mac. lia.
Qed.

(** The code of a message written over another code is the code of the first
    message: it depends on what stands before it. *)
Lemma fix_mac1_again m t k k' : (4 <= length m)%nat ->
  fix_mac1 (retype t (fix_mac1 m k)) k' = fix_mac1 (retype t m) k'.
Proof using L.
  intros H4. destruct (handshake_length_dec m) as [H|[? ?]]; [|by rewrite (fix_mac1_short m)].
  destruct (fix_mac1_shape m k H) as (a & c & e & Hm & Ha & Hc & He & ->).
  assert (32 + length a = length m)%nat as Hl by (destruct H as [E|E]; rewrite E in *; unfold LEN_INIT, LEN_RESP in *; lia).
  assert (4 <= length a)%nat by (destruct H as [E|E]; rewrite E in *; unfold LEN_INIT, LEN_RESP in *; lia).
  rewrite Hm, !retype_app by done.
  assert (forall x, length x = 16%nat -> fix_mac1 (retype t a ++ x ++ e) k'
            = retype t a ++ blake2s_mac (mac1_key k') (retype t a) ++ e) as Hfix.
  { intros x Hx. assert (length (retype t a ++ x ++ e) = length m) as El.
    { rewrite !length_app, length_retype by done. lia. }
    unfold fix_mac1. rewrite El. replace (length m - 32)%nat with (length (retype t a)) by (rewrite length_retype; lia).
    rewrite take_app_length, drop_app_add', drop_app_length' by done.
    destruct H as [-> | ->]; rewrite Nat.eqb_refl; [done | by rewrite andb_false_r]. }
  rewrite !Hfix by (done || apply length_blake2s_mac). done.
Qed.

Lemma type_at_fix_mac1 m k : type_at 0 (fix_mac1 m k) = type_at 0 m.
Proof using L.
  destruct (handshake_length_dec m) as [H|[? ?]]; [|by rewrite fix_mac1_short].
  destruct (fix_mac1_shape m k H) as (a & c & e & Hm & Ha & _ & _ & ->).
  assert (4 <= length a)%nat by (destruct H as [E|E]; rewrite E in *; unfold LEN_INIT, LEN_RESP in *; lia).
  rewrite Hm at 1. unfold type_at, slice. rewrite !drop_0, !take_app_le by lia. done.
Qed.
End Facts.

(** ** A datagram and the packet in it *)

Section Link.
Context `{B : Blake2s} {L : Blake2sLaws B} (rng : nat -> Rng) {R : forall i, RngLaws (rng i)}.

Definition size_ok (k : Z * nat * bool) (n : nat) : bool :=
  if k.2 then (k.1.2 <=? n)%nat else (n =? k.1.2)%nat.

Lemma matches_prefixed a k pre body : length pre = s_for a k.1.1 -> (4 <= length body)%nat ->
  matches_type a (pre ++ body) k = size_ok k (length body) && (type_at 0 body =? h_for a k.1.1).
Proof.
  destruct k as [[t fixed] tr]. cbn [fst snd]. intros Hp Hb.
  unfold matches_type, size_ok. cbn [fst snd]. rewrite <- Hp, type_at_prefix, length_app.
  rewrite (proj2 (Nat.ltb_ge _ _)) by lia. cbn [negb andb]. f_equal.
  destruct tr; apply eq_true_iff_eq; rewrite ?Nat.leb_le, ?Nat.eqb_eq; lia.
Qed.

(** The body that [wrap] sends for a packet of type [t]. *)
Definition body_of (o : AwgObfs) (a : AwgObfuscation) (t : Z) (p : bytes) : bytes :=
  let body := retype (h_for a t) p in
  if (t =? T_INIT) || (t =? T_RESP) then fix_mac1 body (peer_public o) else body.

Definition prefix_of (a : AwgObfuscation) (t : Z) : bytes :=
  if (0 <? s_for a t)%nat then random_fill (rng (Z.to_nat (jc a))) (s_for a t) else [].

Definition junk_of (a : AwgObfuscation) (t : Z) : list bytes :=
  let lo := Z.to_nat (jmin a) in
  if (t =? T_INIT) && (0 <? jc a)
  then map (fun i => junk (rng i) lo (Nat.max (Z.to_nat (jmax a)) lo)) (seq 0 (Z.to_nat (jc a))) else [].

Lemma wrap_some o a p : obfs_params o = Some a -> (4 <= length p)%nat ->
  wrap rng o p = junk_of a (type_at 0 p) ++ [prefix_of a (type_at 0 p) ++ body_of o a (type_at 0 p) p].
Proof. intros Ho Hl. unfold wrap. rewrite Ho, (proj2 (Nat.ltb_ge _ _)) by done. done. Qed.

Lemma length_prefix_of a t : length (prefix_of a t) = s_for a t.
Proof using R.
  unfold prefix_of. destruct (Nat.ltb_spec 0 (s_for a t)); [apply length_random_fill | simpl; lia].
Qed.

Lemma length_body_of o a t p : (4 <= length p)%nat -> length (body_of o a t p) = length p.
Proof using L.
  intros. unfold body_of. by destruct (_ || _); rewrite ?length_fix_mac1, length_retype.
Qed.

Lemma type_at_body_of o a t p : 0 <= h_for a t < 256 ^ 4 -> type_at 0 (body_of o a t p) = h_for a t.
Proof using L.
  intros. unfold body_of. by destruct (_ || _); rewrite ?type_at_fix_mac1, type_at_retype.
Qed.

(** The junk packets: as many as configured before an initiation, none
    otherwise, each of a length in the configured range. *)
Lemma junk_of_spec a t :
  length (junk_of a t) = (if t =? T_INIT then Z.to_nat (jc a) else 0%nat)
  /\ Forall (fun j => Z.to_nat (jmin a) <= length j <= Nat.max (Z.to_nat (jmax a)) (Z.to_nat (jmin a)))%nat (junk_of a t).
Proof using R.
  unfold junk_of. destruct (t =? T_INIT); [|done]. cbn [andb].
  destruct (Z.ltb_spec 0 (jc a)); [|simpl; split; [lia|done]].
  split; [by rewrite length_map, length_seq|].
  apply Forall_map, Forall_true. intros i. unfold compose, junk. rewrite length_random_fill.
  destruct (Nat.ltb_spec (Z.to_nat (jmin a)) (Nat.max (Z.to_nat (jmax a)) (Z.to_nat (jmin a)))); [|lia].
  pose proof (random_range_lt (r := rng i)
    (Nat.max (Z.to_nat (jmax a)) (Z.to_nat (jmin a)) - Z.to_nat (jmin a) + 1)). lia.
Qed.

(** [restore] undoes [body_of] when the keys are crossed. *)
Lemma restore_body o o' a t p : (4 <= length p)%nat -> type_at 0 p = t ->
  our_public o' = peer_public o ->
  ((t =? T_INIT) || (t =? T_RESP) = true -> fix_mac1 p (peer_public o) = p) ->
  restore o' a (prefix_of a t ++ body_of o a t p) t = p.
Proof using L R.
  intros Hl Ht Hk Hm. unfold restore. rewrite drop_app_length' by (symmetry; apply length_prefix_of).
  change (le_bytes 4 t ++ drop 4 (body_of o a t p)) with (retype t (body_of o a t p)).
  unfold body_of. destruct (_ || _).
  - rewrite fix_mac1_again by (by rewrite length_retype).
    rewrite retype_retype, retype_self, Hk by done. by apply Hm.
  - by rewrite retype_retype, retype_self.
Qed.

End Link.

Lemma h_for_range a t : awg_ok a -> In t [T_INIT; T_RESP; T_COOKIE; T_DATA] -> 0 <= h_for a t < 256 ^ 4.
Proof.
  intros (_ & _ & _ & Hh & _) Ht. repeat (apply Forall_cons in Hh as [? Hh]).
  by repeat (destruct Ht as [<- | Ht]; [done|]).
Qed.

Lemma h_for_inj a t u : awg_ok a -> In t [T_INIT; T_RESP; T_COOKIE; T_DATA] -> In u [T_INIT; T_RESP; T_COOKIE; T_DATA] ->
  h_for a t = h_for a u -> t = u.
Proof.
  intros (_ & _ & _ & _ & Hd) Ht Hu. repeat (apply NoDup_cons in Hd as [? Hd]).
  repeat (destruct Ht as [<- | Ht]; [|]); try done;
    repeat (destruct Hu as [<- | Hu]; [|]); try done; cbn; intros E; exfalso; set_solver.
Qed.

Lemma matches_size a dg t fixed : length dg <> (s_for a t + fixed)%nat -> matches_type a dg (t, fixed, false) = false.
Proof. intros H. unfold matches_type. rewrite (proj2 (Nat.eqb_neq _ _)) by done. by rewrite andb_false_r. Qed.

Section Transparent.
Context `{B : Blake2s} {L : Blake2sLaws B} (rng : nat -> Rng) {R : forall i, RngLaws (rng i)}.

(** The loop stops at the type of the packet. *)
Lemma unwrap_finds o o' a p :
  awg_ok a -> our_public o' = peer_public o -> wg_packet (peer_public o) p -> unmistakable a p ->
  unwrap_loop o' a (prefix_of rng a (type_at 0 p) ++ body_of o a (type_at 0 p) p) known_types = Some p.
Proof using L R.
  intros Ha Hk Hp Hu. pose proof Ha as (Hs1 & Hs2 & Hs12 & _).
  assert (4 <= length p)%nat as Hl
    by (unfold wg_packet, LEN_INIT, LEN_RESP, LEN_COOKIE, DATA_MIN, DATA_HEADER in Hp; lia).
  pose proof (length_prefix_of rng a (type_at 0 p)) as Hlp.
  pose proof (length_body_of o a (type_at 0 p) p Hl) as Hlb.
  assert (forall k, k.1.1 = type_at 0 p -> In k.1.1 [T_INIT; T_RESP; T_COOKIE; T_DATA] -> size_ok k (length p) = true ->
            matches_type a (prefix_of rng a (type_at 0 p) ++ body_of o a (type_at 0 p) p) k = true) as Hown.
  { intros k Hkt Hin Hsz. rewrite matches_prefixed by (rewrite ?Hkt, ?Hlp, ?Hlb; done).
    rewrite Hlb, Hsz, type_at_body_of, Hkt by (rewrite <- ?Hkt; by apply h_for_range).
    by rewrite Z.eqb_refl. }
  assert (restore o' a (prefix_of rng a (type_at 0 p) ++ body_of o a (type_at 0 p) p) (type_at 0 p) = p) as Hres.
  { apply restore_body; [done..|]. intros Hb.
    by destruct Hp as [(_ & _ & ?)|[(_ & _ & ?)|[(Ht & _)|(Ht & _)]]]; rewrite ?Ht in Hb. }
  assert (length (prefix_of rng a (type_at 0 p) ++ body_of o a (type_at 0 p) p) = (s_for a (type_at 0 p) + length p)%nat)
    as Hd by (rewrite length_app; congruence).
  unfold known_types, unwrap_loop.
  destruct Hp as [(Ht & Hlen & _)|[(Ht & Hlen & _)|[(Ht & Hlen)|(Ht & Hlen)]]].
  - rewrite Hown by (rewrite ?Ht, ?Hlen; cbn; auto). cbn [fst]. rewrite Ht in Hres |- *. by rewrite Hres.
  - rewrite matches_size by (rewrite Hd, Ht, Hlen; cbn; unfold LEN_RESP, LEN_INIT; lia).
    rewrite Hown by (rewrite ?Ht, ?Hlen; cbn; auto). cbn [fst]. rewrite Ht in Hres |- *. by rewrite Hres.
  - rewrite !matches_size by (rewrite Hd, Ht, Hlen; cbn; unfold LEN_COOKIE, LEN_RESP, LEN_INIT; lia).
    rewrite Hown by (rewrite ?Ht, ?Hlen; cbn; auto). cbn [fst]. rewrite Ht in Hres |- *. by rewrite Hres.
  - specialize (Hu Ht).
    change (take 2 known_types) with [(T_INIT, LEN_INIT, false); (T_RESP, LEN_RESP, false)] in Hu.
    apply Forall_cons in Hu as [Hu1 Hu]. apply Forall_cons in Hu as [Hu2 _].
    assert (prefix_of rng a (type_at 0 p) ++ body_of o a (type_at 0 p) p = le_bytes 4 (h4 a) ++ drop 4 p) as E
      by by rewrite Ht.
    rewrite <- E in Hu1, Hu2. rewrite Hu1, Hu2.
    rewrite (matches_prefixed a (T_COOKIE, LEN_COOKIE, false)) by first [by rewrite Hlb | by rewrite Hlp, Ht].
    rewrite type_at_body_of by (rewrite Ht; apply h_for_range; cbn; auto).
    rewrite (proj2 (Z.eqb_neq (h_for a (type_at 0 p)) _)), andb_false_r.
    + rewrite Hown by (rewrite ?Ht; cbn [fst]; first [done | by apply Nat.leb_le | cbn; auto]). cbn [fst]. rewrite Ht in Hres |- *. by rewrite Hres.
    + rewrite Ht. intros E'. apply h_for_inj in E'; cbn; auto. done.
Qed.

(** C24. An AmneziaWG link is transparent: with one set of numbers at both ends and
    crossed keys, every packet a WireGuard tunnel makes for its peer reaches the
    tunnel of the peer unchanged, codes included; the datagrams before it are as
    many junk packets as configured before an initiation, none before anything
    else, of the configured lengths. Without numbers, or with those of plain
    WireGuard, the datagram is the packet. *)
Theorem awg_link_transparent (params : option AwgObfuscation) (mine peer p : bytes)
    (Hok : forall a, params = Some a -> awg_ok a /\ unmistakable a p)
    (Hp : wg_packet peer p) :
  exists js d,
    wrap rng (obfs_new params mine peer) p = js ++ [d]
    /\ unwrap_dg (obfs_new params peer mine) d = Some p
    /\ match obfs_params (obfs_new params mine peer) with
       | None => js = [] /\ d = p
       | Some a => length js = (if type_at 0 p =? T_INIT then Z.to_nat (jc a) else 0%nat)
                   /\ Forall (fun j => Z.to_nat (jmin a) <= length j <= Nat.max (Z.to_nat (jmax a)) (Z.to_nat (jmin a)))%nat js
       end.
Proof using L R.
  destruct (obfs_params (obfs_new params mine peer)) as [a|] eqn:Ho.
  - assert (params = Some a) as Hpa.
    { destruct params as [a'|]; cbn in Ho; [|done]. by destruct (is_identity a'); simplify_eq/=. }
    destruct (Hok a Hpa) as [Ha Hu].
    assert (4 <= length p)%nat
      by (unfold wg_packet, LEN_INIT, LEN_RESP, LEN_COOKIE, DATA_MIN, DATA_HEADER in Hp; lia).
    exists (junk_of rng a (type_at 0 p)), (prefix_of rng a (type_at 0 p) ++ body_of (obfs_new params mine peer) a (type_at 0 p) p).
    repeat split; [by apply wrap_some | | by apply junk_of_spec..].
    unfold unwrap_dg. change (obfs_params (obfs_new params peer mine)) with (obfs_params (obfs_new params mine peer)).
    rewrite Ho. by apply unwrap_finds.
  - exists [], p. unfold wrap, unwrap_dg.
    change (obfs_params (obfs_new params peer mine)) with (obfs_params (obfs_new params mine peer)). by rewrite Ho.
Qed.
End Transparent.

(** ** What is accepted, and the second code *)

Section Accepted.
Context `{B : Blake2s} {L : Blake2sLaws B}.

Lemma fix_mac1_idem m k : (4 <= length m)%nat -> fix_mac1 (fix_mac1 m k) k = fix_mac1 m k.
Proof using L.
  intros. pose proof (fix_mac1_again m (type_at 0 m) k k) as H'.
  rewrite !retype_self in H'; rewrite ?length_fix_mac1, ?type_at_fix_mac1; auto.
Qed.

(** Noise is dropped: what is accepted is a packet of one of the four types,
    with its length and a first code that is valid under the own key. *)
Lemma unwrap_accepts o a dg p : awg_ok a -> obfs_params o = Some a -> unwrap_dg o dg = Some p -> wg_packet (our_public o) p.
Proof using L.
  intros Ha Ho. unfold unwrap_dg. rewrite Ho. unfold known_types. cbn [unwrap_loop].
  assert (forall k, matches_type a dg k = true -> exists m, (4 <= length m)%nat /\ size_ok k (length m) = true
            /\ restore o a dg k.1.1 = if (k.1.1 =? T_INIT) || (k.1.1 =? T_RESP) then fix_mac1 (retype k.1.1 m) (our_public o)
                                      else retype k.1.1 m) as Hm.
  { intros [[t fixed] tr] H. exists (drop (s_for a t) dg). unfold matches_type in H.
    apply andb_prop in H as [H _]. apply andb_prop in H as [H1 H2]. apply negb_true_iff, Nat.ltb_ge in H1.
    rewrite length_drop. repeat split; [lia|]. unfold size_ok. cbn [fst snd].
    destruct tr; rewrite ?Nat.leb_le, ?Nat.eqb_eq in *; lia. }
  unfold wg_packet.
  repeat match goal with |- (if matches_type a dg ?k then _ else _) = _ -> _ => destruct (matches_type a dg k) eqn:E;
    [apply Hm in E as (m & Hl & Hs & ->); cbn [fst snd size_ok] in Hs;
     rewrite ?Nat.eqb_eq, ?Nat.leb_le in Hs; intros [= <-] | clear E] end; [..|done].
  1: left. 2: right; left. 3: right; right; left. 4: right; right; right.
  all: cbn [fst]; repeat split; rewrite ?length_fix_mac1, ?type_at_fix_mac1, ?length_retype, ?type_at_retype; try done;
    apply fix_mac1_idem; by rewrite length_retype.
Qed.

(** The second code, which answers a cookie and covers the type and the first
    code, stays as the tunnel computed it over the packet that is not sent. *)
Lemma wrap_keeps_second_code (rng : nat -> Rng) {R : forall i, RngLaws (rng i)} o a p :
  obfs_params o = Some a -> length p = LEN_INIT \/ length p = LEN_RESP ->
  exists js d, wrap rng o p = js ++ [d] /\ drop (length d - 16) d = drop (length p - 16) p.
Proof using L.
  intros Ho Hp. assert (4 <= length p)%nat by (unfold LEN_INIT, LEN_RESP in *; lia).
  eexists _, _. split; [by apply wrap_some|]. rewrite length_app, length_body_of by done.
  assert (16 <= length p - 4)%nat by (unfold LEN_INIT, LEN_RESP in *; lia).
  rewrite drop_app_ge by lia.
  replace (_ + length p - 16 - _)%nat with (length p - 16)%nat by lia.
  assert (drop (length p - 16) (retype (h_for a (type_at 0 p)) p) = drop (length p - 16) p) as Er.
  { unfold retype. rewrite drop_app_ge by (rewrite length_le_bytes; lia). rewrite length_le_bytes, drop_drop. f_equal. lia. }
  unfold body_of. destruct (_ || _); [|done]. rewrite <- Er.
  set (m := retype _ p) in *. assert (length m = length p) as Hm by (by apply length_retype).
  destruct (fix_mac1_shape m (peer_public o)) as (x & c & e & Em & Hx & Hc & He & ->); [by rewrite Hm|].
  rewrite Em. rewrite !app_assoc, !drop_app_length'; [done|..];
    rewrite !length_app, ?length_blake2s_mac; unfold LEN_INIT, LEN_RESP in *; lia.
Qed.
End Accepted.

(** ** A closed instance *)

Definition toy_blake : Blake2s := {|
  blake2s256 := fun m => be_bytes 32 (be_value m);
  blake2s_mac := fun k m => be_bytes 16 (be_value k + be_value m)
|}.

#[local] Instance toy_blake_laws : Blake2sLaws toy_blake.
Proof. constructor. intros. apply length_be_bytes. Qed.

Definition toy_rng (i : nat) : Rng := mkRng (fun n => Nat.min i (n - 1)) (fun n => replicate n "A"%char).

#[local] Instance toy_rng_laws i : RngLaws (toy_rng i).
Proof. constructor; intros; cbn; [lia | apply length_replicate]. Qed.

(** The numbers of the tests of [obfs.rs]. *)
Definition toy_awg : AwgObfuscation := mkAwg 3 10 20 8 12 286331153 572662306 858993459 1145324612.

Definition toy_init (pub : bytes) : bytes := @fix_mac1 toy_blake (le_bytes 4 T_INIT ++ replicate 144 "z"%char) pub.

Lemma awg_link_transparent_witness :
  exists js d,
    @wrap toy_blake toy_rng (obfs_new (Some toy_awg) (replicate 32 "m"%char) (replicate 32 "p"%char))
      (toy_init (replicate 32 "p"%char)) = js ++ [d]
    /\ length js = 3%nat /\ d <> toy_init (replicate 32 "p"%char)
    /\ @unwrap_dg toy_blake (obfs_new (Some toy_awg) (replicate 32 "p"%char) (replicate 32 "m"%char)) d
       = Some (toy_init (replicate 32 "p"%char)).
Proof.
  destruct (awg_link_transparent (B := toy_blake) toy_rng (Some toy_awg) (replicate 32 "m"%char) (replicate 32 "p"%char)
              (toy_init (replicate 32 "p"%char))) as (js & d & Hw & Hu & Hj & _).
  - intros a Ha. apply (inj Some) in Ha as <-. split.
    + unfold awg_ok, toy_awg. cbn [s1 s2 h1 h2 h3 h4]. repeat split; try lia.
      * repeat constructor; cbn; lia.
      * apply (bool_decide_unpack _). vm_compute. exact I.
    + intros Ht. exfalso. revert Ht. vm_compute. done.
  - left. repeat split; vm_compute; done.
  - exists js, d. repeat split; try done. intros ->.
    apply (f_equal last) in Hw. rewrite last_snoc in Hw. revert Hw. vm_compute. done.
Defined.
