(* ===== verification/SlideBuffer.v ===== *)
(** * The sliding buffer ([crates/net/src/slide_buffer.rs])

    A fixed storage with two offsets, and the queue it implements: bytes in
    order, and the room left at the end, which compacting regains. *)

From S2P Require Import Prelude NetIo.

(** [data], [start], [end]. Offsets are [nat]: they are at most the capacity, and
    sums with an argument stay below [usize::MAX] for slices in memory. *)
Record SlideBuffer : Type := mkSlide { sb_data : bytes; sb_start : nat; sb_end : nat }.

#[export] Instance SlideBuffer_eq_dec : EqDecision SlideBuffer.
Proof. solve_decision. Defined.

Section Operations.
(** Whether [debug_assert!] checks: it does in a debug build only. *)
Context (debug : bool).

Definition debug_assert (c : bool) : res io_error unit := if debug && negb c then Panic else Ok tt.

(** [SlideBuffer::new] over the storage that was allocated (its bytes are not
    initialised). *)
Definition sb_new (storage : bytes) : SlideBuffer := mkSlide storage 0 0.

Definition sb_len (b : SlideBuffer) : nat := sb_end b - sb_start b.
Definition sb_is_empty (b : SlideBuffer) : bool := (sb_end b <=? sb_start b)%nat.
Definition remaining_capacity (b : SlideBuffer) : nat := length (sb_data b) - sb_end b.
Definition as_slice (b : SlideBuffer) : res io_error bytes := sub_slice (sb_start b) (sb_end b) (sb_data b).

(** [&mut data[end..]], as it is read. *)
Definition write_slice (b : SlideBuffer) : res io_error bytes := sub_slice (sb_end b) (length (sb_data b)) (sb_data b).

(** [data[a..a + bs.len()].copy_from_slice(bs)] *)
Definition store_at (a : nat) (bs data : bytes) : res io_error bytes :=
  _ ← sub_slice a (a + length bs) data; Ok (take a data ++ bs ++ drop (a + length bs) data).

Definition extend_from_slice (b : SlideBuffer) (bs : bytes) : res io_error SlideBuffer :=
  _ ← debug_assert (length bs <=? remaining_capacity b)%nat;
  data ← store_at (sb_end b) bs (sb_data b);
  Ok (mkSlide data (sb_start b) (sb_end b + length bs)).

Definition advance_write (b : SlideBuffer) (n : nat) : res io_error SlideBuffer :=
  _ ← debug_assert (sb_end b + n <=? length (sb_data b))%nat;
  Ok (mkSlide (sb_data b) (sb_start b) (sb_end b + n)).

(** What the callers do: [write_slice()[..n].copy_from_slice(bs)], then
    [advance_write(n)]. *)
Definition write_and_advance (b : SlideBuffer) (bs : bytes) : res io_error SlideBuffer :=
  w ← write_slice b;
  w ← store_at 0 bs w;
  advance_write (mkSlide (take (sb_end b) (sb_data b) ++ w) (sb_start b) (sb_end b)) (length bs).

Definition sb_consume (b : SlideBuffer) (n : nat) : res io_error SlideBuffer :=
  _ ← debug_assert (n <=? sb_len b)%nat;
  let start := (sb_start b + n)%nat in
  Ok (if (sb_end b <=? start)%nat then mkSlide (sb_data b) 0 0 else mkSlide (sb_data b) start (sb_end b)).

Definition compact (b : SlideBuffer) : SlideBuffer :=
  if (0 <? sb_start b)%nat && (sb_start b <? sb_end b)%nat then
    let kept := slice (sb_start b) (sb_end b) (sb_data b) in
    mkSlide (kept ++ drop (length kept) (sb_data b)) 0 (sb_end b - sb_start b)
  else if (sb_end b <=? sb_start b)%nat then mkSlide (sb_data b) 0 0
  else b.

Definition maybe_compact (b : SlideBuffer) (threshold : nat) : SlideBuffer :=
  if (threshold <? sb_start b)%nat then compact b else b.

Definition get_u16_be (b : SlideBuffer) (offset : nat) : res io_error (option Z) :=
  if (offset + 2 <=? sb_len b)%nat
  then v ← index_be16 (sb_data b) (sb_start b + offset); Ok (Some v)
  else Ok None.

(** [slice_mut(from..to)], as the caller writes [bs] over it. *)
Definition slice_mut_write (b : SlideBuffer) (from : nat) (bs : bytes) : res io_error SlideBuffer :=
  data ← store_at (sb_start b + from) bs (sb_data b);
  Ok (mkSlide data (sb_start b) (sb_end b)).

(** [Read::read] into a buffer of [n] bytes. *)
Definition sb_read (b : SlideBuffer) (n : nat) : res io_error (SlideBuffer * bytes) :=
  let available := sb_len b in
  if (available =? 0)%nat then Ok (b, [])
  else
    let to_read := Nat.min n available in
    out ← sub_slice (sb_start b) (sb_start b + to_read) (sb_data b);
    b ← sb_consume b to_read;
    Ok (b, out).

(** [b[i]], [b[from..to]], [b[from..]], [b[..to]] *)
Definition sb_index (b : SlideBuffer) (i : nat) : res io_error u8 := index (sb_data b) (sb_start b + i).
Definition sb_index_range (b : SlideBuffer) (from to : nat) : res io_error bytes :=
  sub_slice (sb_start b + from) (sb_start b + to) (sb_data b).
Definition sb_index_from (b : SlideBuffer) (from : nat) : res io_error bytes :=
  sub_slice (sb_start b + from) (sb_end b) (sb_data b).
Definition sb_index_to (b : SlideBuffer) (to : nat) : res io_error bytes :=
  sub_slice (sb_start b) (sb_start b + to) (sb_data b).

(** The calls a client makes, with what each returns. *)
Inductive Call : Type :=
| CExtend (bs : bytes) | CWrite (bs : bytes) | CConsume (n : nat) | CCompact | CMaybeCompact (threshold : nat)
| CModify (from : nat) (bs : bytes) | CRead (n : nat)
| CAsSlice | CRange (from to : nat) | CFrom (from : nat) | CTo (to : nat) | CU16 (offset : nat).

Definition number_bytes (v : option Z) : bytes := from_option (be_bytes 2) [] v.

Definition call (b : SlideBuffer) (c : Call) : res io_error (SlideBuffer * bytes) :=
  match c with
  | CExtend bs => b ← extend_from_slice b bs; Ok (b, [])
  | CWrite bs => b ← write_and_advance b bs; Ok (b, [])
  | CConsume n => b ← sb_consume b n; Ok (b, [])
  | CCompact => Ok (compact b, [])
  | CMaybeCompact t => Ok (maybe_compact b t, [])
  | CModify from bs => b ← slice_mut_write b from bs; Ok (b, [])
  | CRead n => sb_read b n
  | CAsSlice => r ← as_slice b; Ok (b, r)
  | CRange from to => r ← sb_index_range b from to; Ok (b, r)
  | CFrom from => r ← sb_index_from b from; Ok (b, r)
  | CTo to => r ← sb_index_to b to; Ok (b, r)
  | CU16 offset => v ← get_u16_be b offset; Ok (b, number_bytes v)
  end.

Fixpoint calls (b : SlideBuffer) (cs : list Call) : res io_error (SlideBuffer * list bytes) :=
  match cs with
  | [] => Ok (b, [])
  | c :: cs => '(b, r) ← call b c; '(b, rs) ← calls b cs; Ok (b, r :: rs)
  end.
End Operations.

(** ** The queue *)

(** What is stored, and how many bytes can be appended before compacting. *)
Record Queue : Type := mkQueue { q_bytes : bytes; q_room : nat }.

Section Queue.
Context (capacity : nat).

Definition q_compact (q : Queue) : Queue := mkQueue (q_bytes q) (capacity - length (q_bytes q)).

(** An emptied queue has its whole room again. *)
Definition q_drop (n : nat) (q : Queue) : Queue :=
  let left := drop n (q_bytes q) in
  mkQueue left (if (length left =? 0)%nat then capacity else q_room q).

(** What a call does to the queue; [None] where it asks for too much. *)
Definition q_call (q : Queue) (c : Call) : option (Queue * bytes) :=
  let n := length (q_bytes q) in
  match c with
  | CExtend bs | CWrite bs =>
      if (length bs <=? q_room q)%nat then Some (mkQueue (q_bytes q ++ bs) (q_room q - length bs), []) else None
  | CConsume k => if (k <=? n)%nat then Some (q_drop k q, []) else None
  | CCompact => Some (q_compact q, [])
  | CMaybeCompact t => Some (if (t <? capacity - q_room q - n)%nat then q_compact q else q, [])
  | CModify from bs =>
      if (from + length bs <=? n)%nat
      then Some (mkQueue (take from (q_bytes q) ++ bs ++ drop (from + length bs) (q_bytes q)) (q_room q), []) else None
  | CRead k => Some (if (n =? 0)%nat then q else q_drop (Nat.min k n) q, take k (q_bytes q))
  | CAsSlice => Some (q, q_bytes q)
  | CRange from to => if (from <=? to)%nat && (to <=? n)%nat then Some (q, slice from to (q_bytes q)) else None
  | CFrom from => if (from <=? n)%nat then Some (q, drop from (q_bytes q)) else None
  | CTo to => if (to <=? n)%nat then Some (q, take to (q_bytes q)) else None
  | CU16 offset => Some (q, if (offset + 2 <=? n)%nat then slice offset (offset + 2) (q_bytes q) else [])
  end.

Fixpoint q_calls (q : Queue) (cs : list Call) : option (Queue * list bytes) :=
  match cs with
  | [] => Some (q, [])
  | c :: cs => '(q, r) ← q_call q c; '(q, rs) ← q_calls q cs; Some (q, r :: rs)
  end.

(** The buffer stands for the queue: what is stored lies between what was
    consumed and the room, and an empty buffer starts over. *)
Definition stands_for (b : SlideBuffer) (q : Queue) : Prop :=
  exists pre post,
    b = mkSlide (pre ++ q_bytes q ++ post) (length pre) (length pre + length (q_bytes q))
    /\ length post = q_room q
    /\ (length pre + length (q_bytes q) + length post = capacity)%nat
    /\ (q_bytes q = [] -> pre = []).
End Queue.

(** ** The buffer implements the queue *)

Section Refinement.
Context (debug : bool) (capacity : nat).

Lemma store_mid (a m z bs : bytes) p : p = length a -> length m = length bs ->
  store_at p bs (a ++ m ++ z) = Ok (a ++ bs ++ z).
Proof.
  intros -> Hm. unfold store_at. rewrite (sub_slice_mid a m z) by (rewrite ?Hm; done). cbn.
  rewrite take_app_length, drop_app_add', drop_app_length' by lia. done.
Qed.

Lemma debug_assert_true c : c = true -> debug_assert debug c = Ok tt.
Proof. intros ->. unfold debug_assert. by rewrite andb_false_r. Qed.

(** Splitting what is stored at a position of it. *)
Lemma split_queue n (q : bytes) : (n <= length q)%nat -> exists x y, q = x ++ y /\ length x = n.
Proof. intros. exists (take n q), (drop n q). rewrite take_drop, length_take. split; [done|lia]. Qed.

Lemma split_queue3 a b (q : bytes) : (a <= b <= length q)%nat ->
  exists x m y, q = x ++ m ++ y /\ length x = a /\ length m = (b - a)%nat.
Proof.
  intros. destruct (split_queue a q) as (x & r & -> & Hx); [lia|].
  destruct (split_queue (b - a) r) as (m & y & -> & Hm); [rewrite length_app in *; lia|]. by exists x, m, y.
Qed.

Lemma extend_ok b q bs : stands_for capacity b q -> (length bs <= q_room q)%nat ->
  exists b', extend_from_slice debug b bs = Ok b' /\ stands_for capacity b' (mkQueue (q_bytes q ++ bs) (q_room q - length bs)).
Proof.
  intros (pre & post & -> & Hr & Hc & He) Hl.
  destruct (split_queue (length bs) post) as (x & y & -> & Hx); [lia|].
  unfold extend_from_slice, remaining_capacity. cbn [sb_data sb_start sb_end].
  rewrite debug_assert_true by (apply Nat.leb_le; rewrite !length_app in *; lia). cbn.
  rewrite (app_assoc pre), (store_mid (pre ++ q_bytes q) x y) by (rewrite ?length_app; done).
  eexists; split; [reflexivity|]. exists pre, y. cbn [q_bytes q_room]. rewrite !length_app in *.
  repeat split; [|lia|lia|].
  - by rewrite <- !app_assoc, Nat.add_assoc.
  - intros E. apply app_eq_nil in E as [E _]. by apply He.
Qed.

Lemma write_and_advance_extends b q bs : stands_for capacity b q -> (length bs <= q_room q)%nat ->
  write_and_advance debug b bs = extend_from_slice debug b bs.
Proof.
  intros (pre & post & -> & Hr & Hc & He) Hl.
  destruct (split_queue (length bs) post) as (x & y & -> & Hx); [lia|].
  unfold write_and_advance, extend_from_slice, write_slice, remaining_capacity, advance_write. cbn [sb_data sb_start sb_end].
  rewrite (app_assoc pre), (store_mid (pre ++ q_bytes q) x y) by (rewrite ?length_app; done).
  rewrite <- (app_nil_r (x ++ y)), (sub_slice_mid (pre ++ q_bytes q) (x ++ y) [])
    by (rewrite ?length_app; cbn [length]; lia).
  rewrite app_nil_r. cbn [mbind res_bind]. rewrite (store_mid [] x y) by done. cbn [mbind res_bind].
  rewrite take_app_length' by (rewrite length_app; lia). cbn [app].
  by rewrite !debug_assert_true by (apply Nat.leb_le; rewrite !length_app in *; lia).
Qed.

Lemma consume_ok b q n : stands_for capacity b q -> (n <= length (q_bytes q))%nat ->
  exists b', sb_consume debug b n = Ok b' /\ stands_for capacity b' (q_drop capacity n q).
Proof.
  intros (pre & post & -> & Hr & Hc & He) Hl.
  destruct q as [qb room]. cbn [q_bytes q_room] in *.
  destruct (split_queue n qb) as (x & y & -> & Hx); [lia|].
  unfold sb_consume, sb_len. cbn [sb_data sb_start sb_end].
  rewrite debug_assert_true by (apply Nat.leb_le; lia). cbn.
  unfold q_drop. cbn [q_bytes q_room]. rewrite drop_app_length' by done.
  eexists; split; [reflexivity|]. rewrite !length_app in *.
  destruct y as [|c y]; cbn [length Nat.eqb].
  - rewrite (proj2 (Nat.leb_le _ _)) by (cbn; lia). exists [], (pre ++ x ++ post). cbn [q_bytes q_room].
    rewrite app_nil_r, !length_app. cbn in *. repeat split; lia.
  - rewrite (proj2 (Nat.leb_gt _ _)) by (cbn; lia). exists (pre ++ x), post. cbn [q_bytes q_room].
    rewrite !length_app. cbn in *. repeat split; [|lia|lia|done]. by rewrite <- !app_assoc, Hx, Nat.add_assoc.
Qed.
Lemma compact_ok b q : stands_for capacity b q -> stands_for capacity (compact b) (q_compact capacity q).
Proof.
  intros (pre & post & -> & Hr & Hc & He). unfold compact, q_compact. cbn [sb_data sb_start sb_end].
  destruct pre as [|c pre].
  - exists [], post. cbn [app length Nat.add Nat.ltb Nat.leb andb q_bytes q_room].
    split; [|repeat split; cbn in *; lia].
    destruct (q_bytes q); [|done]. done.
  - assert (q_bytes q <> []) as Hq by (intros E; by specialize (He E)).
    assert (0 < length (q_bytes q))%nat by (destruct (q_bytes q); cbn; [done|lia]).
    rewrite (proj2 (Nat.ltb_lt 0 _)), (proj2 (Nat.ltb_lt (length (c :: pre)) _)) by (cbn; lia). cbn [andb].
    unfold slice. rewrite drop_app_length, take_app_length' by lia.
    exists [], (drop (length (q_bytes q)) ((c :: pre) ++ q_bytes q ++ post)). cbn [q_bytes q_room].
    rewrite length_drop, !length_app. repeat split; [|lia|cbn in *; lia].
    f_equal. cbn. lia.
Qed.

Lemma modify_ok b q from bs : stands_for capacity b q -> (from + length bs <= length (q_bytes q))%nat ->
  exists b', slice_mut_write b from bs = Ok b'
    /\ stands_for capacity b' (mkQueue (take from (q_bytes q) ++ bs ++ drop (from + length bs) (q_bytes q)) (q_room q)).
Proof.
  intros (pre & post & -> & Hr & Hc & He) Hl. destruct q as [qb room]. cbn [q_bytes q_room] in *.
  destruct (split_queue3 from (from + length bs) qb) as (x & m & y & -> & Hx & Hm); [lia|].
  unfold slice_mut_write. cbn [sb_data sb_start sb_end].
  replace (pre ++ (x ++ m ++ y) ++ post) with ((pre ++ x) ++ m ++ (y ++ post)) by by rewrite <- !app_assoc.
  rewrite (store_mid (pre ++ x) m) by (rewrite ?length_app; lia). cbn.
  rewrite take_app_length' by done. rewrite (app_assoc x), drop_app_length' by (rewrite length_app; lia).
  eexists; split; [reflexivity|]. exists pre, post. cbn [q_bytes q_room]. rewrite !length_app in *.
  repeat split; [|done|lia|].
  - rewrite <- !app_assoc. f_equal. lia.
  - intros E. apply He. apply app_eq_nil in E as [-> E]. apply app_eq_nil in E as [-> ->].
    destruct m; [done|cbn in Hm; lia].
Qed.

(** A part of what is stored is read at the place of the buffer that holds it. *)
Lemma range_ok b q from to : stands_for capacity b q -> (from <= to <= length (q_bytes q))%nat ->
  sub_slice (E := io_error) (sb_start b + from) (sb_start b + to) (sb_data b) = Ok (slice from to (q_bytes q)).
Proof.
  intros (pre & post & -> & _ & _ & _) Hl. cbn [sb_data sb_start].
  destruct (split_queue3 from to (q_bytes q)) as (x & m & y & -> & Hx & Hm); [lia|].
  replace (pre ++ (x ++ m ++ y) ++ post) with ((pre ++ x) ++ m ++ (y ++ post)) by by rewrite <- !app_assoc.
  rewrite sub_slice_mid by (rewrite ?length_app; lia). f_equal. unfold slice.
  by rewrite drop_app_length', take_app_length' by lia.
Qed.

Lemma front_ok b q to : stands_for capacity b q -> (to <= length (q_bytes q))%nat ->
  sub_slice (E := io_error) (sb_start b) (sb_start b + to) (sb_data b) = Ok (take to (q_bytes q)).
Proof.
  intros Hs ?. pose proof (range_ok b q 0 to Hs) as Hr. rewrite Nat.add_0_r in Hr. rewrite Hr by lia.
  unfold slice. by rewrite drop_0, Nat.sub_0_r.
Qed.

Lemma stands_for_len b q : stands_for capacity b q -> sb_len b = length (q_bytes q) /\ sb_end b = (sb_start b + length (q_bytes q))%nat
  /\ sb_start b = (capacity - q_room q - length (q_bytes q))%nat.
Proof. intros (pre & post & -> & Hr & Hc & _). unfold sb_len. cbn [sb_start sb_end]. lia. Qed.

Lemma index_be16_slice (l : bytes) i : (i + 2 <= length l)%nat ->
  exists v, index_be16 (E := io_error) l i = Ok v /\ be_bytes 2 v = slice i (i + 2) l.
Proof.
  intros H. destruct (split_queue3 i (i + 2) l) as (x & m & y & -> & Hx & Hm); [lia|].
  replace (i + 2 - i)%nat with 2%nat in Hm by lia. destruct m as [|a [|c [|? ?]]]; try done.
  exists (be_value [a; c]). split.
  - unfold index_be16. cbn [app]. rewrite (index_app x a (c :: y) i) by done. cbn [mbind res_bind].
    rewrite (cons_middle a x), (app_assoc x), (index_app (x ++ [a]) c y (S i)) by (rewrite length_app; cbn; lia). done.
  - etransitivity; [exact (be_bytes_be_value [a; c])|]. unfold slice. rewrite drop_app_length' by done.
    by replace (i + 2 - i)%nat with 2%nat by lia.
Qed.

(** [index_be16] inside of what is stored. *)
Lemma u16_ok b q offset : stands_for capacity b q ->
  exists v, get_u16_be b offset = Ok v
    /\ number_bytes v = (if (offset + 2 <=? length (q_bytes q))%nat then slice offset (offset + 2) (q_bytes q) else []).
Proof.
  intros Hs. pose proof (stands_for_len b q Hs) as (Hlen & _ & _). unfold get_u16_be. rewrite Hlen.
  destruct (Nat.leb_spec (offset + 2) (length (q_bytes q))); [|by eexists].
  destruct Hs as (pre & post & -> & _). cbn [sb_data sb_start].
  destruct (index_be16_slice (pre ++ q_bytes q ++ post) (length pre + offset)) as (v & -> & Hv); [rewrite !length_app; lia|].
  eexists; split; [reflexivity|]. cbn. etransitivity; [exact Hv|]. unfold slice.
  replace (length pre + offset + 2 - (length pre + offset))%nat with 2%nat by lia.
  replace (offset + 2 - offset)%nat with 2%nat by lia.
  rewrite drop_app_add, drop_app_le by lia. rewrite take_app_le; [done|]. rewrite length_drop. lia.
Qed.

Lemma call_ok b q q' c r : stands_for capacity b q -> q_call capacity q c = Some (q', r) ->
  exists b', call debug b c = Ok (b', r) /\ stands_for capacity b' q'.
Proof.
  intros Hs. pose proof (stands_for_len b q Hs) as (Hlen & Hend & Hstart).
  destruct c as [bs|bs|n| |t|from bs|n| |from to|from|to|offset]; cbn [q_call call].
  - destruct (Nat.leb_spec (length bs) (q_room q)); intros [= <- <-].
    destruct (extend_ok b q bs) as (b' & -> & ?); [done..|]. by exists b'.
  - destruct (Nat.leb_spec (length bs) (q_room q)); intros [= <- <-].
    destruct (extend_ok b q bs) as (b' & Hb & ?); [done..|].
    rewrite (write_and_advance_extends b q) by done. rewrite Hb. by exists b'.
  - destruct (Nat.leb_spec n (length (q_bytes q))); intros [= <- <-].
    destruct (consume_ok b q n) as (b' & -> & ?); [done..|]. by exists b'.
  - intros [= <- <-]. eexists; split; [done|]. by apply compact_ok.
  - intros [= <- <-]. eexists; split; [done|]. unfold maybe_compact. rewrite Hstart.
    destruct (_ <? _)%nat; [by apply compact_ok | done].
  - destruct (Nat.leb_spec (from + length bs) (length (q_bytes q))); intros [= <- <-].
    destruct (modify_ok b q from bs) as (b' & -> & ?); [done..|]. by exists b'.
  - intros [= <- <-]. unfold sb_read. rewrite Hlen.
    destruct (Nat.eqb_spec (length (q_bytes q)) 0) as [E|E].
    + apply length_zero_iff_nil in E. rewrite E, take_nil. by exists b.
    + rewrite (front_ok b q) by (done || lia). cbn [mbind res_bind].
      destruct (consume_ok b q (Nat.min n (length (q_bytes q)))) as (b' & -> & ?); [done|lia|]. cbn [mbind res_bind].
      exists b'. split; [|done]. do 2 f_equal.
      destruct (Nat.min_spec n (length (q_bytes q))) as [[? ->]|[? ->]]; [done|]. by rewrite !take_ge by lia.
  - intros [= <- <-]. unfold as_slice. rewrite Hend, (front_ok b q) by (done || lia). cbn [mbind res_bind].
    rewrite take_ge by lia. by exists b.
  - destruct (_ && _) eqn:E; intros [= <- <-]. apply andb_prop in E as [?%Nat.leb_le ?%Nat.leb_le].
    unfold sb_index_range. rewrite (range_ok b q) by done. by exists b.
  - destruct (Nat.leb_spec from (length (q_bytes q))); intros [= <- <-].
    unfold sb_index_from. rewrite Hend, (range_ok b q) by (done || lia). cbn [mbind res_bind].
    unfold slice. rewrite take_ge by (rewrite length_drop; lia). by exists b.
  - destruct (Nat.leb_spec to (length (q_bytes q))); intros [= <- <-].
    unfold sb_index_to. rewrite (front_ok b q) by done. by exists b.
  - intros [= <- <-]. destruct (u16_ok b q offset Hs) as (v & -> & Hv). cbn [mbind res_bind]. rewrite Hv. by exists b.
Qed.

Lemma calls_ok cs : forall b q q' rs, stands_for capacity b q -> q_calls capacity q cs = Some (q', rs) ->
  exists b', calls debug b cs = Ok (b', rs) /\ stands_for capacity b' q'.
Proof.
  induction cs as [|c cs IH]; intros b q q' rs Hs; cbn [q_calls calls].
  - intros [= <- <-]. by exists b.
  - destruct (q_call capacity q c) as [[q1 r]|] eqn:E1; [|done]. cbn.
    destruct (q_calls capacity q1 cs) as [[q2 rs']|] eqn:E2; [|done]. intros [= <- <-].
    destruct (call_ok b q q1 c r Hs E1) as (b1 & -> & H1). cbn [mbind res_bind].
    destruct (IH b1 q1 q2 rs' H1 E2) as (b2 & -> & H2). by exists b2.
Qed.

(** C25. The buffer is a queue of bytes: any sequence of calls that asks for no more
    than is stored and no more room than is left is answered without a panic, in
    a debug and in a release build, as the queue answers it; so no answer
    depends on what the storage held before. Compacting, eager or lazy, changes
    the room only. *)
Theorem slide_buffer_is_a_queue (storage : bytes) (cs : list Call) (q : Queue) (rs : list bytes)
    (Hcap : length storage = capacity)
    (Hq : q_calls capacity (mkQueue [] capacity) cs = Some (q, rs)) :
  exists b, calls debug (sb_new storage) cs = Ok (b, rs) /\ as_slice b = Ok (q_bytes q)
            /\ remaining_capacity b = q_room q /\ length (sb_data b) = capacity.
Proof.
  destruct (calls_ok cs (sb_new storage) (mkQueue [] capacity) q rs) as (b & Hb & Hs); [|done|].
  - exists [], storage. cbn. auto.
  - exists b. split; [done|]. destruct Hs as (pre & post & -> & Hr & Hc & _).
    unfold as_slice, remaining_capacity. cbn [sb_data sb_start sb_end].
    rewrite sub_slice_mid by done. rewrite !length_app. repeat split; lia.
Qed.
End Refinement.

(** A session of the reader: append, look at a header, consume, compact, append
    into the regained room. *)
Lemma slide_buffer_is_a_queue_witness :
  exists b, calls true (sb_new (replicate 8 "?"%char))
              [CExtend (lit "abcdef"); CU16 1; CConsume 4; CCompact; CWrite (lit "ghij"); CRead 5; CAsSlice]
            = Ok (b, [[]; lit "bc"; []; []; []; lit "efghi"; lit "j"])
            /\ remaining_capacity b = 2%nat.
Proof.
  destruct (slide_buffer_is_a_queue true 8 (replicate 8 "?"%char)
      [CExtend (lit "abcdef"); CU16 1; CConsume 4; CCompact; CWrite (lit "ghij"); CRead 5; CAsSlice]
      (mkQueue (lit "j") 2) [[]; lit "bc"; []; []; []; lit "efghi"; lit "j"] eq_refl)
    as (b & Hb & _ & Hr & _); [reflexivity | exists b; split; [exact Hb | exact Hr]].
Defined.
