(* ===== verification/Aead.v ===== *)
(** * Authenticated encryption, as the transports call it

    AES-GCM and ChaCha20-Poly1305 are code of other crates ([aws-lc-rs],
    [aes-gcm], [chacha20poly1305]). The class [Aead] is what the transports of
    [crates/net] call of them, [AeadLaws] is what they rely on. *)

From S2P Require Import Prelude.

Inductive Algorithm : Type := AES_128_GCM | AES_256_GCM | CHACHA20_POLY1305.

#[export] Instance Algorithm_eq_dec : EqDecision Algorithm.
Proof. solve_decision. Defined.

Definition algorithm_key_len (a : Algorithm) : nat :=
  match a with AES_128_GCM => 16 | AES_256_GCM => 32 | CHACHA20_POLY1305 => 32 end.

Class Aead : Type := {
  (** algorithm, key, nonce, additional data, plaintext; ciphertext and tag *)
  aead_seal : Algorithm -> bytes -> bytes -> bytes -> bytes -> option bytes;
  aead_open : Algorithm -> bytes -> bytes -> bytes -> bytes -> option bytes
}.

(** A message of a length in use is sealed, sixteen bytes longer, and opens under
    the same key, nonce and additional data; nothing shorter than a tag opens. *)
Class AeadLaws (A : Aead) : Prop := {
  seal_open : forall a k n ad p, Z.of_nat (length p) < 2 ^ 32 ->
    exists c, aead_seal a k n ad p = Some c /\ length c = (length p + 16)%nat /\ aead_open a k n ad c = Some p;
  open_length : forall a k n ad c p, aead_open a k n ad c = Some p -> length c = (length p + 16)%nat
}.

(** ** An instance: the plaintext, and a checksum of everything as the tag *)

(** Bytes of a length: the sum of all of [l], then [l] from its end. *)
Definition toy_sum (n : nat) (l : bytes) : bytes :=
  take n (to_u8 (fold_right (fun b s => val8 b + s) 0 l) :: reverse l ++ replicate n (to_u8 0)).

Lemma length_toy_sum n l : length (toy_sum n l) = n.
Proof. unfold toy_sum. rewrite length_take. cbn [length]. rewrite length_app, length_replicate. lia. Qed.

Definition toy_tag (a : Algorithm) (k n ad p : bytes) : bytes := toy_sum 16 (k ++ n ++ ad ++ p).

Definition toy_aead : Aead := {|
  aead_seal := fun a k n ad p => Some (p ++ toy_tag a k n ad p);
  aead_open := fun a k n ad c =>
    let p := take (length c - 16) c in
    if (16 <=? length c)%nat && bool_decide (drop (length c - 16) c = toy_tag a k n ad p) then Some p else None
|}.

Lemma length_toy_tag a k n ad p : length (toy_tag a k n ad p) = 16%nat.
Proof. apply length_toy_sum. Qed.

#[export] Instance toy_aead_laws : AeadLaws toy_aead.
Proof.
  constructor.
  - intros a k n ad p _. eexists. split; [reflexivity|]. rewrite length_app. cbn [aead_open toy_aead].
    rewrite length_toy_tag. split; [done|].
    rewrite length_app, length_toy_tag, (proj2 (Nat.leb_le _ _)) by lia.
    by rewrite Nat.add_sub, take_app_length, drop_app_length, bool_decide_true.
  - intros a k n ad c p. cbn [aead_open toy_aead]. destruct (Nat.leb_spec 16 (length c)); [|done]. cbn [andb].
    destruct (bool_decide _); [|done]. intros [= <-]. rewrite length_take. lia.
Qed.
