(* ===== verification/RealityRecords.v ===== *)
(** * The TLS 1.3 record layer of REALITY
    ([crates/net/src/reality/common.rs], [reality_cipher_suite.rs],
    [reality_aead.rs], [reality_records.rs])

    Application and handshake data become records: content, its type, zeros as
    padding, sealed under a nonce made of the sequence number, behind a header
    that is authenticated with them. *)

From S2P Require Import Prelude RustStr NetAddr NetIo Aead.

(** ** Constants and cipher suites *)

Definition CT_CHANGE_CIPHER_SPEC : Z := 20.
Definition CT_ALERT : Z := 21.
Definition CT_HANDSHAKE : Z := 22.
Definition CT_APPLICATION_DATA : Z := 23.

Definition MAX_TLS_CIPHERTEXT_LEN : nat := Z.to_nat (16384 + 256).
Definition MAX_TLS_PLAINTEXT_LEN : nat := Z.to_nat 16384.
Definition TLS_RECORD_HEADER_SIZE : nat := 5.
Definition TLS_MAX_RECORD_SIZE : nat := MAX_TLS_CIPHERTEXT_LEN + TLS_RECORD_HEADER_SIZE.

Inductive Hash : Type := SHA256 | SHA384.

Inductive CipherSuite : Type := AES_128_GCM_SHA256 | AES_256_GCM_SHA384 | CHACHA20_POLY1305_SHA256.

#[export] Instance CipherSuite_eq_dec : EqDecision CipherSuite.
Proof. solve_decision. Defined.

Definition DEFAULT_CIPHER_SUITES : list CipherSuite :=
  [AES_128_GCM_SHA256; AES_256_GCM_SHA384; CHACHA20_POLY1305_SHA256].

Definition suite_id (c : CipherSuite) : Z :=
  match c with AES_128_GCM_SHA256 => 4865 | AES_256_GCM_SHA384 => 4866 | CHACHA20_POLY1305_SHA256 => 4867 end.

Definition suite_name (c : CipherSuite) : str :=
  match c with
  | AES_128_GCM_SHA256 => "TLS_AES_128_GCM_SHA256"
  | AES_256_GCM_SHA384 => "TLS_AES_256_GCM_SHA384"
  | CHACHA20_POLY1305_SHA256 => "TLS_CHACHA20_POLY1305_SHA256"
  end.

(** [CipherSuite::from_id], [from_name] *)
Definition suite_from_id (id : Z) : option CipherSuite := find (fun c => suite_id c =? id) DEFAULT_CIPHER_SUITES.
Definition suite_from_name (name : str) : option CipherSuite :=
  find (fun c => bool_decide (suite_name c = name)) DEFAULT_CIPHER_SUITES.

Definition suite_algorithm (c : CipherSuite) : Algorithm :=
  match c with
  | AES_128_GCM_SHA256 => AES_128_GCM
  | AES_256_GCM_SHA384 => AES_256_GCM
  | CHACHA20_POLY1305_SHA256 => CHACHA20_POLY1305
  end.

Definition suite_hash (c : CipherSuite) : Hash :=
  match c with AES_256_GCM_SHA384 => SHA384 | _ => SHA256 end.

Definition output_len (h : Hash) : nat := match h with SHA256 => 32 | SHA384 => 48 end.

Definition suite_key_len (c : CipherSuite) : nat := algorithm_key_len (suite_algorithm c).
Definition nonce_len (c : CipherSuite) : nat := 12.
Definition hash_len (c : CipherSuite) : nat := output_len (suite_hash c).

(** ** Content types *)

Definition known_content_type (t : Z) : bool := (t =? CT_HANDSHAKE) || (t =? CT_APPLICATION_DATA) || (t =? CT_ALERT).

Definition bad_data {A} (msg : str) : res io_error A := Err (InvalidData msg).

(** [strip_content_type_slice]: the type and the length of the content. *)
Definition strip_content_type_slice (plaintext : bytes) : res io_error (Z * nat) :=
  match last plaintext with
  | None => bad_data "Empty plaintext"
  | Some b =>
      if known_content_type (val8 b) then Ok (val8 b, (length plaintext - 1)%nat)
      else bad_data ("Invalid content type: 0x" ++ show_hex2 (val8 b))
  end.

(** The loops that drop zeros from the end. *)
Fixpoint strip_zeros (l : bytes) : bytes :=
  match l with
  | [] => []
  | b :: l => match strip_zeros l with
              | [] => if val8 b =? 0 then [] else [b]
              | k => b :: k
              end
  end.

(** What both strippers of padding do with the plaintext: the type is the last
    byte that is not zero, the content stands before it. *)
Definition split_content_type (plaintext : bytes) : res io_error (Z * bytes) :=
  let p := strip_zeros plaintext in
  match last p with
  | None => bad_data "Plaintext is all zeros"
  | Some b =>
      if known_content_type (val8 b) then Ok (val8 b, removelast p)
      else bad_data ("Invalid content type: 0x" ++ show_hex2 (val8 b))
  end.

(** [strip_content_type_with_padding] *)
Definition strip_content_type_with_padding (plaintext : bytes) : res io_error (Z * bytes) :=
  match plaintext with [] => bad_data "Empty plaintext" | _ => split_content_type plaintext end.

(** ** Sealing and opening *)

Record AeadKey : Type := mkAeadKey { ak_suite : CipherSuite; ak_key : bytes }.

(** [AeadKey::new]; [UnboundKey::new] fails for another length only. *)
Definition aead_key_new (c : CipherSuite) (key : bytes) : res io_error AeadKey :=
  if negb (length key =? suite_key_len c)%nat
  then Err (InvalidInput ("Invalid key length for " ++ suite_name c ++ ": " ++ show_uint (Z.of_nat (length key))
                          ++ " (expected " ++ show_uint (Z.of_nat (suite_key_len c)) ++ ")"))
  else Ok (mkAeadKey c key).

(** [AeadKey::make_nonce]; [seq] is a [u64]. *)
Definition make_nonce (iv : bytes) (seq : Z) : res io_error bytes :=
  if negb (length iv =? 12)%nat
  then Err (InvalidInput ("Invalid IV length: " ++ show_uint (Z.of_nat (length iv)) ++ " (expected 12)"))
  else Ok (take 4 iv ++ xor_bytes (drop 4 iv) (be_bytes 8 seq)).

(** [seq.checked_add(1)] *)
Definition next_seq (seq : Z) : res io_error Z :=
  if seq =? 2 ^ 64 - 1 then Err (IoOther "TLS sequence number exhausted") else Ok (seq + 1).

(** [make_record_header]; the two bytes of the length are cut from a [usize]. *)
Definition make_record_header (ciphertext_len : nat) : bytes :=
  [to_u8 CT_APPLICATION_DATA; to_u8 3; to_u8 3] ++ be_bytes 2 (Z.of_nat ciphertext_len).

Section Records.
Context `{A : Aead}.

(** [seal_in_place], [seal]; the error of the crate prints as [Unspecified]. *)
Definition seal_record (k : AeadKey) (iv : bytes) (seq : Z) (aad p : bytes) : res io_error bytes :=
  nonce ← make_nonce iv seq;
  ok_or (aead_seal (suite_algorithm (ak_suite k)) (ak_key k) nonce aad p) (InvalidData "Encryption failed: Unspecified").

(** [open_in_place_slice], [open] *)
Definition open_record (k : AeadKey) (iv : bytes) (seq : Z) (aad c : bytes) : res io_error bytes :=
  nonce ← make_nonce iv seq;
  ok_or (aead_open (suite_algorithm (ak_suite k)) (ak_key k) nonce aad c) (InvalidData "Decryption failed: Unspecified").

(** [decrypt_handshake_message] *)
Definition decrypt_handshake_message (c : CipherSuite) (key iv : bytes) (seq : Z) (ciphertext : bytes) (record_len : nat)
    : res io_error bytes :=
  k ← aead_key_new c key;
  p ← open_record k iv seq (make_record_header record_len) ciphertext;
  '(_, content) ← strip_content_type_with_padding p;
  Ok content.

(** *** [RecordEncryptor]: the sequence number and the output are threaded. The
    [debug_assert] on the length of the ciphertext checks a debug build. *)

Context (debug : bool) (k : AeadKey) (iv : bytes).

(** [encrypt_record_in_place], from where the type has been pushed; also the
    second half of [encrypt_record_with_padding]. *)
Definition seal_inner (inner : bytes) (s : Z * bytes) : res io_error (Z * bytes) :=
  let '(seq, out) := s in
  let ciphertext_len := (length inner + 16)%nat in
  if debug && negb (ciphertext_len <=? MAX_TLS_CIPHERTEXT_LEN)%nat then Panic else
  let header := make_record_header ciphertext_len in
  c ← seal_record k iv seq header inner;
  seq ← next_seq seq;
  Ok (seq, out ++ header ++ c).

Definition encrypt_record_in_place (buf : bytes) (content_type : Z) : Z * bytes -> res io_error (Z * bytes) :=
  seal_inner (buf ++ [to_u8 content_type]).

Definition encrypt_record_with_padding (buf : bytes) (content_type : Z) (target_record_size : nat)
    : Z * bytes -> res io_error (Z * bytes) :=
  let inner := buf ++ [to_u8 content_type] in
  let target_inner_len := (target_record_size - (TLS_RECORD_HEADER_SIZE + 16))%nat in
  let inner := if (length inner <? target_inner_len)%nat && (target_inner_len <=? MAX_TLS_PLAINTEXT_LEN + 1)%nat
               then inner ++ replicate (target_inner_len - length inner) (to_u8 0) else inner in
  seal_inner inner.

(** The loop over chunks: [encrypt_fragmented], and the one of
    [encrypt_handshake]. *)
Fixpoint encrypt_chunks (cs : list bytes) (content_type : Z) (s : Z * bytes) : res io_error (Z * bytes) :=
  match cs with
  | [] => Ok s
  | c :: cs => s ← encrypt_record_in_place c content_type s; encrypt_chunks cs content_type s
  end.

(** [encrypt_app_data]; that the plaintext is cleared is left to the caller. *)
Definition encrypt_app_data (plaintext : bytes) (s : Z * bytes) : res io_error (Z * bytes) :=
  if is_nil plaintext then Ok s
  else if (length plaintext <=? MAX_TLS_PLAINTEXT_LEN)%nat then encrypt_record_in_place plaintext CT_APPLICATION_DATA s
  else encrypt_chunks (chunks MAX_TLS_PLAINTEXT_LEN plaintext) CT_APPLICATION_DATA s.

Definition encrypt_handshake (data : bytes) (s : Z * bytes) : res io_error (Z * bytes) :=
  if is_nil data then Ok s
  else if (length data <=? MAX_TLS_PLAINTEXT_LEN)%nat then encrypt_record_in_place data CT_HANDSHAKE s
  else encrypt_chunks (chunks MAX_TLS_PLAINTEXT_LEN data) CT_HANDSHAKE s.

(** [encrypt_handshake_with_padding]: the last chunk is padded. *)
Fixpoint encrypt_padding_last (cs : list bytes) (target : nat) (s : Z * bytes) : res io_error (Z * bytes) :=
  match cs with
  | [] => Ok s
  | c :: cs =>
      s ← (if is_nil cs && (0 <? target)%nat then encrypt_record_with_padding c CT_HANDSHAKE target s
           else encrypt_record_in_place c CT_HANDSHAKE s);
      encrypt_padding_last cs target s
  end.

Definition encrypt_handshake_with_padding (data : bytes) (target : nat) (s : Z * bytes) : res io_error (Z * bytes) :=
  if is_nil data then Ok s
  else if (MAX_TLS_PLAINTEXT_LEN <? length data)%nat then encrypt_padding_last (chunks MAX_TLS_PLAINTEXT_LEN data) target s
  else if (0 <? target)%nat then encrypt_record_with_padding data CT_HANDSHAKE target s
  else encrypt_record_in_place data CT_HANDSHAKE s.

Definition encrypt_close_notify : Z * bytes -> res io_error (Z * bytes) :=
  encrypt_record_in_place [to_u8 1; to_u8 0] CT_ALERT.

(** [RecordDecryptor::decrypt_record_in_place], with the sequence number it
    leaves on every path. *)
Definition decrypt_record (seq : Z) (ciphertext : bytes) (record_len : nat) : Z * res io_error (Z * bytes) :=
  match open_record k iv seq (make_record_header record_len) ciphertext with
  | Ok p => match next_seq seq with
            | Ok seq => (seq, split_content_type p)
            | Err e => (seq, Err e)
            | Panic => (seq, Panic)
            end
  | Err e => (seq, Err e)
  | Panic => (seq, Panic)
  end.
End Records.

(** ** Facts *)

Lemma strip_zeros_keeps p b n : val8 b <> 0 -> strip_zeros (p ++ b :: replicate n (to_u8 0)) = p ++ [b].
Proof.
  intros Hb. assert (strip_zeros (replicate n (to_u8 0)) = []) as Hz.
  { induction n as [|n IH]; [done|]. cbn [replicate strip_zeros]. rewrite IH. by rewrite val8_to_u8. }
  induction p as [|c p IH]; cbn [app strip_zeros].
  - rewrite Hz. by rewrite (proj2 (Z.eqb_neq _ _)).
  - rewrite IH. by destruct p.
Qed.

(** The type and the content are recovered, whatever the padding. *)
Lemma split_content_type_padded content t n : known_content_type t = true ->
  split_content_type (content ++ to_u8 t :: replicate n (to_u8 0)) = Ok (t, content).
Proof.
  intros Ht. assert (val8 (to_u8 t) = t) as Hv.
  { unfold known_content_type, CT_HANDSHAKE, CT_APPLICATION_DATA, CT_ALERT in Ht.
    rewrite val8_to_u8. apply Z.mod_small. lia. }
  unfold split_content_type. rewrite strip_zeros_keeps, last_snoc, Hv, Ht.
  - by rewrite removelast_last.
  - rewrite Hv. intros ->. done.
Qed.

Lemma make_nonce_ok iv seq : length iv = 12%nat ->
  make_nonce iv seq = Ok (take 4 iv ++ xor_bytes (drop 4 iv) (be_bytes 8 seq)).
Proof. intros H. unfold make_nonce. by rewrite H. Qed.

(** No two records of a direction share a nonce. *)
Lemma nonce_unique iv s t n : length iv = 12%nat -> 0 <= s < 2 ^ 64 -> 0 <= t < 2 ^ 64 ->
  make_nonce iv s = Ok n -> make_nonce iv t = Ok n -> s = t.
Proof.
  intros Hiv Hs Ht Hn Hm. rewrite make_nonce_ok in Hn, Hm by done. rewrite <- Hm in Hn.
  apply Ok_inj, app_inv_head in Hn as H.
  apply xor_bytes_inj in H; rewrite ?length_drop, ?Hiv, ?length_be_bytes; try done.
  apply (f_equal be_value) in H. by rewrite !be_value_be_bytes_small in H by done.
Qed.

Lemma suite_from_id_of c : suite_from_id (suite_id c) = Some c.
Proof. by destruct c. Qed.

Lemma length_make_record_header n : length (make_record_header n) = 5%nat.
Proof. done. Qed.

(** The length field of a record. *)
Lemma header_length_field n rest : (n < Z.to_nat 65536)%nat ->
  index_be16 (E := io_error) (make_record_header n ++ rest) 3 = Ok (Z.of_nat n).
Proof.
  intros H. assert (be_value (be_bytes 2 (Z.of_nat n)) = Z.of_nat n) as Hv by (apply be_value_be_bytes_small; lia).
  unfold index_be16, index, make_record_header. cbn in *. by rewrite Hv.
Qed.

(** The records a piece of data is cut into. *)
Definition pieces (data : bytes) : list bytes :=
  if is_nil data then [] else if (length data <=? MAX_TLS_PLAINTEXT_LEN)%nat then [data] else chunks MAX_TLS_PLAINTEXT_LEN data.

Lemma pieces_bound data : Forall (fun c => length c <= MAX_TLS_PLAINTEXT_LEN)%nat (pieces data).
Proof.
  unfold pieces. destruct (is_nil data); [done|]. destruct (Nat.leb_spec (length data) MAX_TLS_PLAINTEXT_LEN).
  - apply Forall_singleton. assumption.
  - eapply Forall_impl; [apply chunks_bound; unfold MAX_TLS_PLAINTEXT_LEN; lia|]. intros x Hx. apply Hx.
Qed.

Lemma concat_pieces data : concat (pieces data) = data.
Proof.
  unfold pieces. destruct data as [|b data]; [done|]. cbn [is_nil].
  destruct (_ <=? _)%nat; [apply app_nil_r|]. apply chunks_concat. unfold MAX_TLS_PLAINTEXT_LEN. lia.
Qed.

Section RecordFacts.
Context `{A : Aead} {L : AeadLaws A} (debug : bool) (k : AeadKey) (iv : bytes).
Hypothesis Hiv : length iv = 12%nat.

(** What is sealed opens, as content and type. *)
Lemma seal_inner_opens content t n seq out :
  known_content_type t = true -> (length content + n <= MAX_TLS_PLAINTEXT_LEN)%nat -> 0 <= seq < 2 ^ 64 - 1 ->
  exists c, length c = (length content + 1 + n + 16)%nat
    /\ seal_inner debug k iv (content ++ to_u8 t :: replicate n (to_u8 0)) (seq, out)
       = Ok (seq + 1, out ++ make_record_header (length c) ++ c)
    /\ decrypt_record k iv seq c (length c) = (seq + 1, Ok (t, content)).
Proof using L Hiv.
  intros Ht Hn Hseq. unfold MAX_TLS_PLAINTEXT_LEN in Hn.
  assert (length (content ++ to_u8 t :: replicate n (to_u8 0)) = (length content + 1 + n)%nat) as Hl
    by (rewrite length_app; cbn; rewrite length_replicate; lia).
  destruct (seal_open (suite_algorithm (ak_suite k)) (ak_key k) (take 4 iv ++ xor_bytes (drop 4 iv) (be_bytes 8 seq))
              (make_record_header (length content + 1 + n + 16)) (content ++ to_u8 t :: replicate n (to_u8 0)))
    as (c & Hc & Hlc & Ho); [rewrite Hl; lia|].
  assert (next_seq seq = Ok (seq + 1)) as Hnext by (unfold next_seq; by rewrite (proj2 (Z.eqb_neq _ _)) by lia).
  rewrite Hl in Hlc. exists c. split; [done|]. split.
  - unfold seal_inner. rewrite Hl. assert ((length content + 1 + n + 16 <=? MAX_TLS_CIPHERTEXT_LEN)%nat = true) as ->
      by (apply Nat.leb_le; unfold MAX_TLS_CIPHERTEXT_LEN; lia).
    rewrite andb_false_r. unfold seal_record. rewrite make_nonce_ok by done. cbn [mbind res_bind].
    rewrite Hc. cbn [ok_or mbind res_bind]. rewrite Hnext. cbn [mbind res_bind]. by rewrite Hlc.
  - unfold decrypt_record, open_record. rewrite make_nonce_ok by done. cbn [mbind res_bind].
    rewrite Hlc, Ho. cbn [ok_or]. rewrite Hnext. f_equal. by apply split_content_type_padded.
Qed.

(** [wire] carries the contents as records of type [t], numbered from [seq]. *)
Fixpoint carries (t : Z) (seq : Z) (contents : list bytes) (wire : bytes) : Prop :=
  match contents with
  | [] => wire = []
  | content :: contents =>
      exists c rest,
        wire = make_record_header (length c) ++ c ++ rest
        /\ (length c <= MAX_TLS_CIPHERTEXT_LEN)%nat
        /\ decrypt_record k iv seq c (length c) = (seq + 1, Ok (t, content))
        /\ carries t (seq + 1) contents rest
  end.

Lemma encrypt_chunks_carry t : known_content_type t = true -> forall cs seq out,
  Forall (fun c => length c <= MAX_TLS_PLAINTEXT_LEN)%nat cs -> 0 <= seq -> seq + Z.of_nat (length cs) < 2 ^ 64 ->
  exists wire, encrypt_chunks debug k iv cs t (seq, out) = Ok (seq + Z.of_nat (length cs), out ++ wire)
               /\ carries t seq cs wire.
Proof using L Hiv.
  intros Ht. induction cs as [|c cs IH]; intros seq out Hf Hs Hn; cbn [encrypt_chunks carries].
  - exists []. rewrite app_nil_r. cbn. by rewrite Z.add_0_r.
  - apply Forall_cons in Hf as [Hc Hf]. cbn [length] in *. 
    destruct (seal_inner_opens c t 0 seq out) as (ct & Hl & He & Hd); [done|lia|lia|].
    cbn [replicate] in He. unfold encrypt_record_in_place. rewrite He. cbn [mbind res_bind].
    destruct (IH (seq + 1) (out ++ make_record_header (length ct) ++ ct)) as (wire & Hw & Hcarry); [done|lia|lia|].
    exists (make_record_header (length ct) ++ ct ++ wire). rewrite Hw. split.
    + rewrite <- !app_assoc. do 2 f_equal. lia.
    + exists ct, wire. repeat split; [unfold MAX_TLS_CIPHERTEXT_LEN, MAX_TLS_PLAINTEXT_LEN in *; lia | done | done].
Qed.

(** [encrypt_app_data] and [encrypt_handshake] cut and seal. *)
Lemma encrypt_app_data_carries data seq out : 0 <= seq -> seq + Z.of_nat (length (pieces data)) < 2 ^ 64 ->
  exists wire, encrypt_app_data debug k iv data (seq, out) = Ok (seq + Z.of_nat (length (pieces data)), out ++ wire)
               /\ carries CT_APPLICATION_DATA seq (pieces data) wire.
Proof using L Hiv.
  intros Hs Hn.
  destruct (encrypt_chunks_carry CT_APPLICATION_DATA eq_refl (pieces data) seq out (pieces_bound data) Hs Hn)
    as (wire & He & Hc). exists wire. split; [|done]. rewrite <- He. unfold encrypt_app_data, pieces.
  destruct (is_nil data); [done|]. destruct (_ <=? _)%nat; [|done]. cbn [encrypt_chunks]. by destruct (encrypt_record_in_place _ _ _ _ _ _).
Qed.

Lemma carries_app t cs : forall seq ds w v, carries t seq cs w -> carries t (seq + Z.of_nat (length cs)) ds v ->
  carries t seq (cs ++ ds) (w ++ v).
Proof using A k iv.
  induction cs as [|c cs IH]; intros seq ds w v; cbn [carries app length].
  - intros -> Hv. change (Z.of_nat 0) with 0 in Hv. rewrite Z.add_0_r in Hv. exact Hv.
  - intros (ct & rest & -> & Hl & Hd & Hc) Hv. exists ct, (rest ++ v). rewrite <- !app_assoc. repeat split; try done.
    apply IH; [done|]. by replace (seq + 1 + Z.of_nat (length cs)) with (seq + Z.of_nat (S (length cs))) by (clear; lia).
Qed.
End RecordFacts.
