(* ===== verification/RealityKeys.v ===== *)
(** * The TLS 1.3 key schedule and REALITY's authentication keys
    ([crates/net/src/reality/reality_tls13_keys.rs], [reality_auth.rs])

    HMAC, the digests and X25519 are code of [aws-lc-rs]: the class [Crypto].
    HKDF-Expand and everything above it is the repository's. *)

From S2P Require Import Prelude RustStr NetAddr NetIo Aead RealityRecords.

Class Crypto : Type := {
  (** [hmac::sign] *)
  hmac : Hash -> bytes -> bytes -> bytes;
  (** [digest::Context]: updated with the parts, then finished *)
  digest : Hash -> bytes -> bytes;
  (** [compute_public_key] and [agree] of X25519; [None] for a bad key *)
  x25519_public : bytes -> option bytes;
  x25519_agree : bytes -> bytes -> option bytes;
  (** HMAC-SHA512, [HKDF_SHA256] extract and expand, Ed25519 *)
  hmac_sha512 : bytes -> bytes -> bytes;
  hkdf_sha256 : bytes -> bytes -> bytes -> bytes;
  ed25519_verify : bytes -> bytes -> bytes -> bool
}.

Class CryptoLaws (C : Crypto) : Prop := {
  length_hmac : forall h k m, length (hmac h k m) = output_len h;
  length_digest : forall h m, length (digest h m) = output_len h;
  (** Both ends of an agreement get one secret of 32 bytes. *)
  agree_both : forall a b pa pb, x25519_public a = Some pa -> x25519_public b = Some pb ->
    x25519_agree a pb = x25519_agree b pa;
  agree_length : forall a p s, x25519_agree a p = Some s -> length s = 32%nat;
  public_length : forall a p, x25519_public a = Some p -> length p = 32%nat;
  length_hmac_sha512 : forall k m, length (hmac_sha512 k m) = 64%nat
}.

(** ** HKDF *)

Section Hkdf.
Context `{C : Crypto}.

(** The loop of [hkdf_expand] from iteration [i] on. *)
Fixpoint hkdf_blocks (h : Hash) (prk info prev : bytes) (i count : nat) : bytes :=
  match count with
  | O => []
  | S count =>
      let tag := hmac h prk (prev ++ info ++ [to_u8 (Z.of_nat i)]) in
      tag ++ hkdf_blocks h prk info tag (S i) count
  end.

(** [length.div_ceil(hash_len)] *)
Definition div_ceil (a b : nat) : nat := (a + b - 1) / b.

Definition hkdf_expand (h : Hash) (prk info : bytes) (length : nat) : res io_error bytes :=
  let n := div_ceil length (output_len h) in
  if (255 <? n)%nat then bad_data "HKDF output too long"
  else Ok (take length (hkdf_blocks h prk info [] 1 n)).

(** [HkdfLabel]; the lengths are cut to their fields. *)
Definition hkdf_label (label context : bytes) (length : nat) : bytes :=
  let full_label := lit "tls13 " ++ label in
  be_bytes 2 (Z.of_nat length)
  ++ [to_u8 (Z.of_nat (List.length full_label))] ++ full_label
  ++ [to_u8 (Z.of_nat (List.length context))] ++ context.

(** [hkdf_expand_label_with_algorithm]; the labels of the callers are ASCII. *)
Definition hkdf_expand_label (h : Hash) (secret label context : bytes) (length : nat) : res io_error bytes :=
  hkdf_expand h secret (hkdf_label label context length) length.

Definition derive_secret (h : Hash) (secret label messages_hash : bytes) : res io_error bytes :=
  hkdf_expand_label h secret label messages_hash (output_len h).

Definition hkdf_extract (h : Hash) (salt ikm : bytes) : bytes := hmac h salt ikm.

(** ** The schedule *)

Definition derive_traffic_keys (traffic_secret : bytes) (c : CipherSuite) : res io_error (bytes * bytes) :=
  key ← hkdf_expand_label (suite_hash c) traffic_secret "key" [] (suite_key_len c);
  iv ← hkdf_expand_label (suite_hash c) traffic_secret "iv" [] (nonce_len c);
  Ok (key, iv).

Record Tls13HandshakeKeys : Type := mkHsKeys {
  client_handshake_traffic_secret : bytes;
  server_handshake_traffic_secret : bytes;
  master_secret : bytes
}.

Definition derive_handshake_keys (c : CipherSuite) (shared_secret server_hello_hash : bytes) : res io_error Tls13HandshakeKeys :=
  let h := suite_hash c in
  if negb (length shared_secret =? 32)%nat
  then Err (InvalidInput ("Invalid shared_secret length: " ++ show_uint (Z.of_nat (length shared_secret)) ++ " (expected 32)"))
  else if negb (length server_hello_hash =? hash_len c)%nat
  then Err (InvalidInput ("Hash length mismatch: " ++ show_uint (Z.of_nat (length server_hello_hash))
                          ++ " (expected " ++ show_uint (Z.of_nat (hash_len c)) ++ ")"))
  else
    let zero_salt := replicate (hash_len c) (to_u8 0) in
    let early_secret := hkdf_extract h zero_salt zero_salt in
    derived ← derive_secret h early_secret "derived" (digest h []);
    let handshake_secret := hkdf_extract h derived shared_secret in
    client ← derive_secret h handshake_secret "c hs traffic" server_hello_hash;
    server ← derive_secret h handshake_secret "s hs traffic" server_hello_hash;
    derived ← derive_secret h handshake_secret "derived" (digest h []);
    let master := hkdf_extract h derived zero_salt in
    Ok (mkHsKeys client server master).

Definition derive_application_secrets (c : CipherSuite) (master handshake_hash : bytes) : res io_error (bytes * bytes) :=
  let h := suite_hash c in
  if negb (length master =? hash_len c)%nat || negb (length handshake_hash =? hash_len c)%nat
  then Err (InvalidInput ("Master secret and handshake hash must be " ++ show_uint (Z.of_nat (hash_len c)) ++ " bytes"))
  else
    client ← derive_secret h master "c ap traffic" handshake_hash;
    server ← derive_secret h master "s ap traffic" handshake_hash;
    Ok (client, server).

Definition compute_finished_verify_data (c : CipherSuite) (base_key handshake_hash : bytes) : res io_error bytes :=
  let h := suite_hash c in
  finished_key ← hkdf_expand_label h base_key "finished" [] (hash_len c);
  Ok (hmac h finished_key handshake_hash).

(** ** [reality_auth.rs] *)

(** [perform_ecdh] *)
Definition perform_ecdh (private_key public_key : bytes) : option bytes :=
  _ ← x25519_public private_key; x25519_agree private_key public_key.

(** [derive_auth_key]: 32 bytes, for a salt of twenty. *)
Definition derive_auth_key (shared_secret salt info : bytes) : bytes := hkdf_sha256 salt shared_secret info.

End Hkdf.

Section SessionId.
Context `{A : Aead}.

(** [encrypt_session_id], [decrypt_session_id] *)
Definition encrypt_session_id (plaintext auth_key nonce aad : bytes) : option bytes :=
  c ← aead_seal AES_256_GCM auth_key nonce aad plaintext;
  if (length c =? 32)%nat then Some c else None.

Definition decrypt_session_id (ciphertext auth_key nonce aad : bytes) : option bytes :=
  p ← aead_open AES_256_GCM auth_key nonce aad ciphertext;
  if (length p =? 16)%nat then Some p else None.
End SessionId.

(** ** Facts *)

(** Two uses of the schedule never expand the same label: the encoding is
    injective in label, context and length. *)
Lemma hkdf_label_inj l1 c1 n1 l2 c2 n2 :
  (length l1 < 250)%nat -> (length l2 < 250)%nat -> Z.of_nat n1 < 65536 -> Z.of_nat n2 < 65536 ->
  hkdf_label l1 c1 n1 = hkdf_label l2 c2 n2 -> l1 = l2 /\ c1 = c2 /\ n1 = n2.
Proof.
  intros H1 H2 Hn1 Hn2 H. unfold hkdf_label in H.
  apply app_inj_1 in H as [Hn H]; [|by rewrite !length_be_bytes].
  apply (f_equal be_value) in Hn. rewrite !be_value_be_bytes_small in Hn by (cbn; lia).
  apply app_inj_1 in H as [Hl H]; [|done].
  assert (length (lit "tls13 " ++ l1) = length (lit "tls13 " ++ l2)) as Hlen.
  { injection Hl as Hl. apply (f_equal val8) in Hl. rewrite !val8_to_u8 in Hl.
    rewrite !length_app in *. change (length (lit "tls13 ")) with 6%nat in *. rewrite !Z.mod_small in Hl by lia. lia. }
  apply app_inj_1 in H as [Hl' H]; [|done]. apply app_inv_head in Hl'.
  apply app_inj_1 in H as [_ H]; [|done]. repeat split; [done|done|lia].
Qed.

Section HkdfFacts.
Context `{C : Crypto} {L : CryptoLaws C}.

Lemma length_hkdf_blocks h prk info count : forall prev i,
  length (hkdf_blocks h prk info prev i count) = (count * output_len h)%nat.
Proof using L.
  induction count as [|n IH]; intros prev i; [done|]. cbn [hkdf_blocks]. rewrite length_app, length_hmac, IH. lia.
Qed.

Lemma output_len_pos h : (0 < output_len h)%nat.
Proof. destruct h; cbn; lia. Qed.

Lemma div_ceil_le a b : (0 < b)%nat -> (a <= div_ceil a b * b)%nat.
Proof.
  intros Hb. unfold div_ceil. pose proof (Nat.div_mod_eq (a + b - 1) b). pose proof (Nat.mod_upper_bound (a + b - 1) b). nia.
Qed.

(** Expanding gives exactly the bytes asked for, up to 255 blocks. *)
Lemma hkdf_expand_ok h prk info n : (div_ceil n (output_len h) <= 255)%nat ->
  exists out, hkdf_expand h prk info n = Ok out /\ length out = n.
Proof using L.
  intros Hn. unfold hkdf_expand. rewrite (proj2 (Nat.ltb_ge _ _)) by done. eexists; split; [done|].
  rewrite length_take, length_hkdf_blocks. pose proof (div_ceil_le n (output_len h) (output_len_pos h)). lia.
Qed.

(** A prefix of a longer output: the blocks do not depend on how many follow. *)
Lemma hkdf_blocks_prefix h prk info m : forall n prev i,
  hkdf_blocks h prk info prev i (n + m) = hkdf_blocks h prk info prev i n
    ++ drop (n * output_len h) (hkdf_blocks h prk info prev i (n + m)).
Proof using L.
  induction n as [|n IH]; intros prev i; [done|]. cbn [hkdf_blocks Nat.add Nat.mul].
  rewrite <- app_assoc. f_equal. rewrite IH at 1. f_equal.
  rewrite drop_app_ge by (rewrite length_hmac; lia). rewrite length_hmac. f_equal. lia.
Qed.

Lemma derive_secret_ok h s l m : exists out, derive_secret h s l m = Ok out /\ length out = output_len h.
Proof using L. apply hkdf_expand_ok. destruct h; cbn; lia. Qed.

Lemma derive_traffic_keys_ok s c : exists key iv, derive_traffic_keys s c = Ok (key, iv)
  /\ length key = suite_key_len c /\ length iv = 12%nat.
Proof using L.
  unfold derive_traffic_keys, hkdf_expand_label.
  destruct (hkdf_expand_ok (suite_hash c) s (hkdf_label "key" [] (suite_key_len c)) (suite_key_len c)) as (key & -> & Hk);
    [destruct c; cbn; lia|].
  destruct (hkdf_expand_ok (suite_hash c) s (hkdf_label "iv" [] (nonce_len c)) (nonce_len c)) as (iv & -> & Hi);
    [destruct c; cbn; lia|]. by exists key, iv.
Qed.

Lemma derive_handshake_keys_ok c shared hh : length shared = 32%nat -> length hh = hash_len c ->
  exists ks, derive_handshake_keys c shared hh = Ok ks /\ length (master_secret ks) = hash_len c.
Proof using L.
  intros Hs Hh. unfold derive_handshake_keys. rewrite Hs, Hh, !Nat.eqb_refl. cbn [negb].
  repeat match goal with |- context [derive_secret ?h ?s ?l ?m] =>
    let o := fresh "o" in let E := fresh "E" in
    destruct (derive_secret_ok h s l m) as (o & E & _); rewrite E; cbn [mbind res_bind] end.
  eexists; split; [done|]. apply length_hmac.
Qed.

Lemma derive_application_secrets_ok c master hh : length master = hash_len c -> length hh = hash_len c ->
  exists cs ss, derive_application_secrets c master hh = Ok (cs, ss).
Proof using L.
  intros Hm Hh. unfold derive_application_secrets. rewrite Hm, Hh, !Nat.eqb_refl. cbn [negb orb].
  destruct (derive_secret_ok (suite_hash c) master "c ap traffic" hh) as (x & -> & _). cbn [mbind res_bind].
  destruct (derive_secret_ok (suite_hash c) master "s ap traffic" hh) as (y & -> & _). by exists x, y.
Qed.

Lemma compute_finished_ok c k hh : exists v, compute_finished_verify_data c k hh = Ok v /\ length v = hash_len c.
Proof using L.
  unfold compute_finished_verify_data, hkdf_expand_label.
  destruct (hkdf_expand_ok (suite_hash c) k (hkdf_label "finished" [] (hash_len c)) (hash_len c)) as (f & -> & _);
    [destruct c; cbn; lia|]. eexists; split; [done|]. apply length_hmac.
Qed.
End HkdfFacts.

Section SessionIdFacts.
Context `{A : Aead} {L : AeadLaws A}.

(** The server that derives the same key reads the session id back. *)
Lemma session_id_reads_back p key nonce aad : length p = 16%nat ->
  exists c, encrypt_session_id p key nonce aad = Some c /\ length c = 32%nat /\ decrypt_session_id c key nonce aad = Some p.
Proof using L.
  intros Hp. destruct (seal_open AES_256_GCM key nonce aad p) as (c & Hc & Hl & Ho); [rewrite Hp; lia|].
  exists c. unfold encrypt_session_id, decrypt_session_id. rewrite Hc, Ho. cbn. rewrite Hl, Hp. done.
Qed.
End SessionIdFacts.
