(* ===== verification/RealityMessages.v ===== *)
(** * The handshake messages of REALITY
    ([crates/net/src/reality/reality_tls13_messages.rs], [reality_util.rs],
    [reality_client_verify.rs])

    Messages are built byte by byte and read with the checked reader of
    [VisionFilter.v]. The X.509 parser, base64 and Ed25519 are other crates'. *)

From S2P Require Import Prelude RustStr Utf8 NetAddr NetIo VisionFilter Aead RealityRecords RealityKeys.

(** ** Building *)

Definition HS_CLIENT_HELLO : Z := 1.
Definition HS_SERVER_HELLO : Z := 2.
Definition HS_ENCRYPTED_EXTENSIONS : Z := 8.
Definition HS_CERTIFICATE : Z := 11.
Definition HS_CERTIFICATE_VERIFY : Z := 15.
Definition HS_FINISHED : Z := 20.

(** [(n as u16).to_be_bytes()] and the three bytes of a length. *)
Definition len16 (n : nat) : bytes := be_bytes 2 (Z.of_nat n).
Definition len24 (n : nat) : bytes := be_bytes 3 (Z.of_nat n).

(** The type, the length and the payload of a handshake message. *)
Definition handshake_message (ty : Z) (payload : bytes) : bytes := to_u8 ty :: len24 (length payload) ++ payload.

Definition construct_server_hello (server_random session_id : bytes) (cipher_suite : Z) (key_share_data : bytes) : bytes :=
  let extensions :=
    of_zs [0; 43; 0; 2; 3; 4]
    ++ of_zs [0; 51] ++ len16 (2 + 2 + length key_share_data) ++ of_zs [0; 29]
    ++ len16 (length key_share_data) ++ key_share_data in
  handshake_message HS_SERVER_HELLO
    (of_zs [3; 3] ++ server_random ++ [to_u8 (Z.of_nat (length session_id))] ++ session_id
     ++ be_bytes 2 cipher_suite ++ of_zs [0] ++ len16 (length extensions) ++ extensions).

Definition construct_encrypted_extensions : bytes := to_u8 HS_ENCRYPTED_EXTENSIONS :: of_zs [0; 0; 2; 0; 0].

Definition construct_certificate (cert_der : bytes) : bytes :=
  let cert_list_len := (3 + length cert_der + 2)%nat in
  let payload_len := (1 + 3 + cert_list_len)%nat in
  to_u8 HS_CERTIFICATE :: len24 payload_len ++ of_zs [0] ++ len24 cert_list_len ++ len24 (length cert_der)
  ++ cert_der ++ of_zs [0; 0].

(** What both the signer and the verifier sign. *)
Definition signed_content (handshake_hash : bytes) : bytes :=
  replicate 64 (to_u8 32) ++ lit "TLS 1.3, server CertificateVerify" ++ of_zs [0] ++ handshake_hash.

Definition construct_certificate_verify (sign : bytes -> bytes) (handshake_hash : bytes) : bytes :=
  let signature := sign (signed_content handshake_hash) in
  handshake_message HS_CERTIFICATE_VERIFY (of_zs [8; 7] ++ len16 (length signature) ++ signature).

Definition construct_finished (verify_data : bytes) : bytes := handshake_message HS_FINISHED verify_data.

Definition DEFAULT_ALPN_PROTOCOLS : list str := [lit "h2"; lit "http/1.1"].

(** The extensions of [construct_client_hello], in their order. *)
Definition sni_extension (server_name : str) : bytes :=
  of_zs [0; 0] ++ len16 (5 + length server_name) ++ len16 (length server_name + 3) ++ of_zs [0]
  ++ len16 (length server_name) ++ server_name.

Definition key_share_extension (client_public_key : bytes) : bytes :=
  of_zs [0; 51] ++ len16 (2 + 4 + length client_public_key) ++ len16 (4 + length client_public_key)
  ++ of_zs [0; 29] ++ len16 (length client_public_key) ++ client_public_key.

Definition signature_algorithms_extension : bytes :=
  of_zs [0; 13; 0; 18; 0; 16; 4; 3; 8; 4; 4; 1; 5; 3; 8; 5; 5; 1; 8; 6; 6; 1].

Definition alpn_extension (alpn_protocols : list str) : bytes :=
  if is_nil alpn_protocols then []
  else
    let protocols := concat (map (fun p => to_u8 (Z.of_nat (length p)) :: p) alpn_protocols) in
    of_zs [0; 16] ++ len16 (2 + length protocols) ++ len16 (length protocols) ++ protocols.

Definition client_extensions (client_public_key : bytes) (server_name : str) (alpn_protocols : list str) : bytes :=
  sni_extension server_name
  ++ of_zs [0; 43; 0; 3; 2; 3; 4]
  ++ of_zs [0; 10; 0; 4; 0; 2; 0; 29]
  ++ key_share_extension client_public_key
  ++ signature_algorithms_extension
  ++ alpn_extension alpn_protocols.

Definition construct_client_hello (client_random session_id client_public_key : bytes) (server_name : str)
    (cipher_suites : list Z) (alpn_protocols : list str) : bytes :=
  let extensions := client_extensions client_public_key server_name alpn_protocols in
  handshake_message HS_CLIENT_HELLO
    (of_zs [3; 3] ++ client_random ++ of_zs [32] ++ session_id
     ++ be_bytes 2 (Z.of_nat (length cipher_suites * 2)) ++ concat (map (be_bytes 2) cipher_suites)
     ++ of_zs [1; 0] ++ len16 (length extensions) ++ extensions).

Definition write_record_header (record_type : Z) (length : Z) : bytes :=
  to_u8 record_type :: of_zs [3; 3] ++ be_bytes 2 length.

(** ** Reading hellos *)

(** [extract_client_random] *)
Definition extract_client_random (client_hello : bytes) : res io_error bytes :=
  let RANDOM_OFFSET := (5 + 4 + 2)%nat in
  if (length client_hello <? RANDOM_OFFSET + 32)%nat then bad_data "ClientHello too short to extract random"
  else sub_slice RANDOM_OFFSET (RANDOM_OFFSET + 32) client_hello.

(** [extract_session_id_slice] *)
Definition extract_session_id_slice (client_hello : bytes) : res io_error bytes :=
  let SESSION_ID_LEN_OFFSET := (5 + 4 + 2 + 32)%nat in
  if (length client_hello <? SESSION_ID_LEN_OFFSET + 1)%nat then bad_data "ClientHello too short to extract session ID"
  else
    b ← index client_hello SESSION_ID_LEN_OFFSET;
    let session_id_len := Z.to_nat (val8 b) in
    if (length client_hello <? SESSION_ID_LEN_OFFSET + 1 + session_id_len)%nat
    then bad_data "ClientHello session ID extends past end"
    else sub_slice (SESSION_ID_LEN_OFFSET + 1) (SESSION_ID_LEN_OFFSET + 1 + session_id_len) client_hello.

(** The common beginning of the readers of a hello: the reader behind the session
    id. *)
Definition hello_head (too_short : str) (hello : bytes) : res io_error BufReader :=
  if (length hello <? TLS_HEADER_LEN)%nat then bad_data too_short
  else
    let r := new_reader (drop TLS_HEADER_LEN hello) in
    '(_, r) ← r_u8 r;
    '(_, r) ← r_u24_be r;
    '(_, r) ← r_u16_be r;
    r ← r_skip r 32;
    '(session_id_len, r) ← r_u8 r;
    r_skip r (Z.to_nat session_id_len).

(** One turn of the loop that looks for the key share among the extensions. *)
Definition extension_turn (parse : bytes -> res io_error bytes) (missing : str) (extensions_end : nat) (r : BufReader)
    : res io_error (BufReader + bytes) :=
  if (extensions_end <=? r_pos r)%nat then bad_data missing
  else
    '(ext_type, r) ← r_u16_be r;
    '(ext_len, r) ← r_u16_be r;
    if ext_type =? 51
    then '(data, _) ← r_slice r (Z.to_nat ext_len); key ← parse data; Ok (inr key)
    else r ← r_skip r (Z.to_nat ext_len); Ok (inl r).

(** The length of the extensions and the loop; each turn reads four bytes. *)
Definition find_key_share (parse : bytes -> res io_error bytes) (missing : str) (r : BufReader) : res io_error bytes :=
  '(extensions_len, r) ← r_u16_be r;
  let extensions_end := (r_pos r + Z.to_nat extensions_len)%nat in
  loop (S (length (r_buf r))) (extension_turn parse missing extensions_end) r.

(** The 32 bytes of an X25519 key at the reader. *)
Definition read_x25519 (r : BufReader) (key_len : Z) : res io_error bytes :=
  if negb (key_len =? 32) then bad_data ("Invalid X25519 key length: " ++ show_uint key_len)
  else '(key, _) ← r_slice r 32; Ok key.

(** One turn of [parse_keyshare_extension]. *)
Definition key_share_turn (r : BufReader) : res io_error (BufReader + bytes) :=
  if (length (r_buf r) <? r_pos r + 4)%nat then bad_data "X25519 key share not found in KeyShare extension"
  else
    '(group, r) ← r_u16_be r;
    '(key_len, r) ← r_u16_be r;
    if (length (r_buf r) <? r_pos r + Z.to_nat key_len)%nat then bad_data "KeyShare entry extends past end"
    else if group =? 29 then key ← read_x25519 r key_len; Ok (inr key)
    else r ← r_skip r (Z.to_nat key_len); Ok (inl r).

Definition parse_keyshare_extension (data : bytes) : res io_error bytes :=
  '(_, r) ← r_u16_be (new_reader data);
  loop (S (length data)) key_share_turn r.

Definition parse_server_keyshare_extension (data : bytes) : res io_error bytes :=
  '(group, r) ← r_u16_be (new_reader data);
  '(key_len, r) ← r_u16_be r;
  if group =? 29 then read_x25519 r key_len
  else bad_data "X25519 key share not found in ServerHello KeyShare extension".

Definition extract_client_public_key (client_hello : bytes) : res io_error bytes :=
  r ← hello_head "ClientHello too short" client_hello;
  '(cipher_suites_len, r) ← r_u16_be r;
  r ← r_skip r (Z.to_nat cipher_suites_len);
  '(compression_len, r) ← r_u8 r;
  r ← r_skip r (Z.to_nat compression_len);
  find_key_share parse_keyshare_extension "KeyShare extension not found in ClientHello" r.

Definition extract_server_public_key (server_hello : bytes) : res io_error bytes :=
  r ← hello_head "ServerHello too short" server_hello;
  r ← r_skip r 2;
  r ← r_skip r 1;
  find_key_share parse_server_keyshare_extension "KeyShare extension not found in ServerHello" r.

Definition extract_server_cipher_suite (server_hello : bytes) : res io_error Z :=
  r ← hello_head "ServerHello too short" server_hello;
  '(cipher_suite, _) ← r_u16_be r;
  Ok cipher_suite.

(** The chunks of two bytes, each indexed at 0 and 1. *)
Fixpoint read_suites (cs : list bytes) : res io_error (list Z) :=
  match cs with
  | [] => Ok []
  | c :: cs => suite ← index_be16 c 0; suites ← read_suites cs; Ok (suite :: suites)
  end.

Definition extract_client_cipher_suites (client_hello : bytes) : res io_error (list Z) :=
  r ← hello_head "ClientHello too short" client_hello;
  '(cipher_suites_len, r) ← r_u16_be r;
  if negb (cipher_suites_len mod 2 =? 0) then bad_data "Invalid cipher suites length (not even)"
  else
    '(data, _) ← r_slice r (Z.to_nat cipher_suites_len);
    read_suites (chunks 2 data).

(** [negotiate_cipher_suite] *)
Definition negotiate_cipher_suite (server_preferences : list CipherSuite) (client_ids : list Z) : option CipherSuite :=
  find (fun c => existsb (Z.eqb (suite_id c)) client_ids) server_preferences.

(** ** Reading certificates ([reality_client_verify.rs]) *)

(** [u32::from_be_bytes([0, m[i], m[i + 1], m[i + 2]])] *)
Definition index_be24 (m : bytes) (i : nat) : res io_error Z :=
  a ← index m i; b ← index m (i + 1); c ← index m (i + 2); Ok (be_value [a; b; c]).

Definition extract_certificate_der (m : bytes) : res io_error bytes :=
  let l := length m in
  if (l <? 4)%nat then bad_data "Certificate message too short" else
  if (l <=? 4)%nat then bad_data "Certificate message truncated at context length" else
  context_len ← index m 4;
  let pos := (5 + Z.to_nat (val8 context_len))%nat in
  if (l <? pos + 3)%nat then bad_data "Certificate message truncated at list length" else
  _ ← index_be24 m pos;
  let pos := (pos + 3)%nat in
  if (l <? pos + 3)%nat then bad_data "Certificate message truncated at cert length" else
  cert_len ← index_be24 m pos;
  let pos := (pos + 3)%nat in
  if (l <? pos + Z.to_nat cert_len)%nat then bad_data "Certificate message truncated at cert data" else
  sub_slice pos (pos + Z.to_nat cert_len) m.

Definition extract_certificate_verify_signature (m : bytes) : res io_error bytes :=
  if (length m <? 72)%nat
  then bad_data ("CertificateVerify message too short: " ++ show_uint (Z.of_nat (length m)) ++ " bytes") else
  ty ← index m 0;
  if negb (val8 ty =? 15) then bad_data ("Expected CertificateVerify type (0x0f), got 0x" ++ show_hex2 (val8 ty)) else
  sig_alg ← index_be16 m 4;
  if negb (sig_alg =? 2055)
  then bad_data ("Unsupported signature algorithm: 0x" ++ show_hex4 sig_alg ++ ", expected Ed25519 (0x0807)") else
  sig_len ← index_be16 m 6;
  if negb (sig_len =? 64)
  then bad_data ("Invalid Ed25519 signature length: " ++ show_uint sig_len ++ ", expected 64") else
  if (length m <? 8 + Z.to_nat sig_len)%nat then bad_data "CertificateVerify message truncated"
  else sub_slice 8 (8 + Z.to_nat sig_len) m.

Section Verify.
Context `{C : Crypto}.
(** [X509Certificate::from_der]: the bits of the public key and of the signature,
    or the text of the parser's error. *)
Context (x509 : bytes -> res str (bytes * bytes)).

Definition parse_x509 (cert_der : bytes) : res io_error (bytes * bytes) :=
  map_err (fun e => InvalidData ("Failed to parse X.509 certificate: " ++ e)) (x509 cert_der).

Definition verify_certificate_hmac (cert_der auth_key : bytes) : res io_error unit :=
  '(pubkey, signature) ← parse_x509 cert_der;
  if negb (length pubkey =? 32)%nat
  then bad_data ("Expected Ed25519 public key (32 bytes), got " ++ show_uint (Z.of_nat (length pubkey)) ++ " bytes")
  else if negb (length signature =? 64)%nat
  then bad_data ("Expected 64-byte signature for HMAC-SHA512 verification, got "
                 ++ show_uint (Z.of_nat (length signature)) ++ " bytes")
  else if negb (bool_decide (hmac_sha512 auth_key pubkey = signature))
  then Err (PermissionDenied "Certificate HMAC verification failed - not a REALITY-signed certificate")
  else Ok tt.

Definition extract_ed25519_public_key (cert_der : bytes) : res io_error bytes :=
  '(pubkey, _) ← parse_x509 cert_der;
  if negb (length pubkey =? 32)%nat
  then bad_data ("Expected Ed25519 public key (32 bytes), got " ++ show_uint (Z.of_nat (length pubkey)) ++ " bytes")
  else Ok pubkey.

Definition verify_certificate_verify_signature (public_key signature transcript_hash : bytes) : res io_error unit :=
  if negb (length signature =? 64)%nat
  then bad_data ("Invalid signature length: " ++ show_uint (Z.of_nat (length signature)) ++ ", expected 64")
  else if ed25519_verify public_key (signed_content transcript_hash) signature then Ok tt
  else Err (PermissionDenied "CertificateVerify signature verification failed").
End Verify.

(** ** What is built is read *)

(** A number, then what follows it. *)
Lemma at_be16 r z t : 0 <= z < 65536 -> at_bytes r (be_bytes 2 z ++ t) ->
  r_u16_be r = Ok (z, advance r 2) /\ at_bytes (advance r 2) t.
Proof.
  intros Hz H. split.
  - rewrite (at_u16 _ _ _ _ H). change (be_value _) with (be_value (be_bytes 2 z)). by rewrite be_value_be_bytes_small.
  - apply at_advance in H. by rewrite length_be_bytes in H.
Qed.

Lemma at_be24 r z t : 0 <= z < 256 ^ 3 -> at_bytes r (be_bytes 3 z ++ t) ->
  r_u24_be r = Ok (z, advance r 3) /\ at_bytes (advance r 3) t.
Proof.
  intros Hz H. split.
  - rewrite (at_u24 _ _ _ _ _ H). change (be_value _) with (be_value (be_bytes 3 z)). by rewrite be_value_be_bytes_small.
  - apply at_advance in H. by rewrite length_be_bytes in H.
Qed.

Lemma at_byte r b t : at_bytes r (b :: t) -> r_u8 r = Ok (val8 b, advance r 1) /\ at_bytes (advance r 1) t.
Proof. intros H. split; [by apply (at_u8 _ _ t)|]. by apply (at_advance _ [b]) in H. Qed.

Lemma at_skipped a n r t : length a = n -> at_bytes r (a ++ t) -> r_skip r n = Ok (advance r n) /\ at_bytes (advance r n) t.
Proof. intros <- H. split; [by apply (at_skip _ a t)|]. by apply at_advance. Qed.

Lemma at_sliced a n r t : length a = n -> at_bytes r (a ++ t) -> r_slice r n = Ok (a, advance r n) /\ at_bytes (advance r n) t.
Proof. intros <- H. split; [by apply (at_slice _ a t)|]. by apply at_advance. Qed.

(** [reads A lemma]: the next read of the goal gives what the reader is at. *)
Ltac reads A lem :=
  let E := fresh "Eread" in
  apply lem in A as [E A]; [rewrite E; clear E; cbn [mbind res_bind] | ..].

(** An extension: its type, its length, its data. *)
Definition extension (ty : Z) (data : bytes) : bytes := be_bytes 2 ty ++ len16 (length data) ++ data.

Definition extension_fits (e : Z * bytes) : Prop := 0 <= e.1 < 65536 /\ e.1 <> 51 /\ Z.of_nat (length e.2) < 65536.

Lemma length_extension ty d : length (extension ty d) = (4 + length d)%nat.
Proof. unfold extension, len16. rewrite !length_app, !length_be_bytes. lia. Qed.

Section FindKeyShare.
Context (parse : bytes -> res io_error bytes) (missing : str).

Lemma extension_turn_other ends r ty d t : extension_fits (ty, d) -> (r_pos r < ends)%nat -> at_bytes r (extension ty d ++ t) ->
  extension_turn parse missing ends r = Ok (inl (advance r (length (extension ty d))))
  /\ at_bytes (advance r (length (extension ty d))) t.
Proof.
  intros (Hty & Hn & Hl) Hp A. cbn [fst snd] in *. split; [|by apply at_advance in A].
  unfold extension_turn. rewrite (proj2 (Nat.leb_gt _ _)) by done.
  rewrite length_extension. unfold extension, len16 in A. rewrite <- !app_assoc in A.
  reads A at_be16; [|done]. reads A at_be16; [|lia].
  rewrite (proj2 (Z.eqb_neq _ _)) by done. rewrite Nat2Z.id. reads A (at_skipped d (length d)); [|done].
  unfold advance. cbn [r_buf r_pos]. do 3 f_equal. lia.
Qed.

Lemma extension_turn_found ends r d t key : Z.of_nat (length d) < 65536 -> (r_pos r < ends)%nat ->
  at_bytes r (extension 51 d ++ t) -> parse d = Ok key -> extension_turn parse missing ends r = Ok (inr key).
Proof.
  intros Hl Hp A Hk. unfold extension_turn. rewrite (proj2 (Nat.leb_gt _ _)) by done.
  unfold extension, len16 in A. rewrite <- !app_assoc in A.
  reads A at_be16; [|lia]. reads A at_be16; [|lia]. cbn [Z.eqb Pos.eqb]. rewrite Nat2Z.id.
  reads A (at_sliced d (length d)); [|done]. by rewrite Hk.
Qed.

(** The loop skips the extensions before the key share. *)
Lemma extension_loop es d t key : Forall extension_fits es -> Z.of_nat (length d) < 65536 -> parse d = Ok key ->
  forall r ends fuel, (length es < fuel)%nat -> (r_pos r + length (concat (map (fun e => extension e.1 e.2) es)) < ends)%nat ->
  at_bytes r (concat (map (fun e => extension e.1 e.2) es) ++ extension 51 d ++ t) ->
  loop fuel (extension_turn parse missing ends) r = Ok key.
Proof.
  intros Hes Hd Hk. induction es as [|[ty x] es IH]; intros r ends fuel Hf Hp A; (destruct fuel as [|fuel]; [cbn in Hf; lia|]);
    cbn [loop map concat] in *.
  - rewrite (extension_turn_found ends r d t key); [done|done|cbn in Hp; lia|done|done].
  - apply Forall_cons in Hes as [He Hes]. cbn [fst snd] in *. rewrite length_app in Hp. rewrite <- app_assoc in A.
    destruct (fun Hp' => extension_turn_other ends r ty x _ He Hp' A) as [-> A']; [lia|]. cbn [mbind res_bind].
    apply IH; [done|cbn in Hf; lia|unfold advance; cbn [r_pos]; lia|done].
Qed.

Lemma find_key_share_ok es d t key r :
  let body := concat (map (fun e => extension e.1 e.2) es) ++ extension 51 d ++ t in
  Forall extension_fits es -> Z.of_nat (length d) < 65536 -> parse d = Ok key ->
  Z.of_nat (length body) < 65536 -> at_bytes r (len16 (length body) ++ body) ->
  find_key_share parse missing r = Ok key.
Proof.
  intros body Hes Hd Hk Hl A. unfold find_key_share, len16 in *. reads A at_be16; [|lia]. rewrite Nat2Z.id.
  apply (extension_loop es d t); try done.
  - pose proof (at_length _ _ A) as Hb. rewrite Hb. subst body.
    enough (length es <= length (concat (map (fun e => extension e.1 e.2) es)))%nat by (rewrite !length_app; lia).
    clear. induction es as [|e es IH]; [done|]. cbn [map concat length]. rewrite length_app, length_extension. lia.
  - subst body. rewrite !length_app, length_extension. lia.
Qed.
End FindKeyShare.

(** *** The beginning of a hello *)

(** The bytes up to the session id, as both hellos have them. *)
Definition hello_prefix (ty : Z) (n : nat) (random session_id : bytes) : bytes :=
  to_u8 ty :: len24 n ++ of_zs [3; 3] ++ random ++ to_u8 (Z.of_nat (length session_id)) :: session_id.

Lemma hello_head_ok too_short header ty n random session_id rest :
  length header = 5%nat -> Z.of_nat n < 256 ^ 3 -> length random = 32%nat -> (length session_id < 256)%nat ->
  exists r, hello_head too_short (header ++ hello_prefix ty n random session_id ++ rest) = Ok r /\ at_bytes r rest.
Proof.
  intros Hh Hn Hr Hs. unfold hello_head. rewrite length_app, (proj2 (Nat.ltb_ge _ _)) by (unfold TLS_HEADER_LEN; lia).
  unfold TLS_HEADER_LEN. rewrite drop_app_length' by done.
  pose proof (at_new (hello_prefix ty n random session_id ++ rest)) as A. set (r := new_reader _) in *. clearbody r.
  unfold hello_prefix, len24 in A. cbn [app] in A. rewrite <- !app_assoc in A. cbn [app] in A.
  reads A at_byte. reads A at_be24; [|lia].
  change (of_zs [3; 3] ++ ?x) with (be_bytes 2 771 ++ x) in A. reads A at_be16; [|lia].
  reads A (at_skipped random 32%nat); [|done]. reads A at_byte.
  rewrite val8_to_u8, Z.mod_small, Nat2Z.id by lia.
  eexists. split; [by apply (at_skip _ session_id rest)|]. by apply at_advance in A.
Qed.

(** *** The hello of the client *)

Section ClientHello.
Context (random session_id key : bytes) (name : str) (suites : list Z) (alpn : list str) (header : bytes).
Hypothesis Hheader : length header = 5%nat.
Hypothesis Hrandom : length random = 32%nat.
Hypothesis Hsid : length session_id = 32%nat.
Hypothesis Hkey : length key = 32%nat.
Hypothesis Hname : (length name < 500)%nat.
Hypothesis Hsuites : (length suites < 100)%nat.
Hypothesis Hsuite : Forall (fun s => 0 <= s < 65536) suites.
Hypothesis Halpn : (length (alpn_extension alpn) < 1000)%nat.

Let exts := client_extensions key name alpn.
Let body_len := (2 + 32 + 33 + 2 + length suites * 2 + 2 + 2 + length exts)%nat.

Lemma length_suites : length (concat (map (be_bytes 2) suites)) = (length suites * 2)%nat.
Proof. clear. induction suites as [|s ss IH]; [done|]. cbn [map concat length]. rewrite length_app, length_be_bytes, IH. lia. Qed.

Lemma length_exts : (length exts < 2000)%nat.
Proof using All.
  unfold exts, client_extensions, sni_extension, key_share_extension, len16.
  rewrite !length_app, !length_be_bytes. cbn [length of_zs map]. unfold signature_algorithms_extension. cbn [length of_zs map]. lia.
Qed.

Lemma client_hello_shape :
  construct_client_hello random session_id key name suites alpn
  = hello_prefix HS_CLIENT_HELLO body_len random session_id
    ++ be_bytes 2 (Z.of_nat (length suites * 2)) ++ concat (map (be_bytes 2) suites) ++ of_zs [1; 0] ++ len16 (length exts) ++ exts.
Proof using All.
  unfold construct_client_hello, handshake_message, hello_prefix. fold exts. rewrite Hsid. cbn [app].
  rewrite <- !app_assoc. cbn [app]. repeat f_equal.
  unfold len16. rewrite !length_app, !length_be_bytes, length_suites, Hrandom, Hsid. cbn [length of_zs map].
  unfold body_len. lia.
Qed.

Lemma client_head too_short : exists r,
  hello_head too_short (header ++ construct_client_hello random session_id key name suites alpn) = Ok r
  /\ at_bytes r (be_bytes 2 (Z.of_nat (length suites * 2)) ++ concat (map (be_bytes 2) suites) ++ of_zs [1; 0]
                 ++ len16 (length exts) ++ exts).
Proof using All.
  rewrite client_hello_shape. pose proof length_exts. apply hello_head_ok; try done; [|lia].
  unfold body_len. change (256 ^ 3) with 16777216. lia.
Qed.

(** The key share of the client, in its extension. *)
Lemma client_key_share_read : parse_keyshare_extension (len16 (4 + length key) ++ of_zs [0; 29] ++ len16 (length key) ++ key) = Ok key.
Proof using All.
  unfold parse_keyshare_extension. rewrite Hkey. unfold len16.
  pose proof (at_new (be_bytes 2 (Z.of_nat (4 + 32)) ++ of_zs [0; 29] ++ be_bytes 2 (Z.of_nat 32) ++ key)) as A.
  set (r := new_reader _) in *. clearbody r. reads A at_be16; [|lia]. cbn [loop].
  unfold key_share_turn. rewrite (at_length _ _ A), (proj2 (Nat.ltb_ge _ _)) by (rewrite !length_app, !length_be_bytes; cbn; lia).
  change (of_zs [0; 29] ++ ?x) with (be_bytes 2 29 ++ x) in A. reads A at_be16; [|lia]. reads A at_be16; [|lia].
  rewrite (at_length _ _ A), (proj2 (Nat.ltb_ge _ _)) by (rewrite Hkey; lia). cbn [Z.eqb Pos.eqb].
  unfold read_x25519. cbn [Z.of_nat Z.eqb Pos.eqb negb Pos.of_succ_nat Pos.succ]. rewrite <- (app_nil_r key) in A.
  reads A (at_sliced key 32%nat); done.
Qed.

Lemma client_extensions_shape : exists es t, Forall extension_fits es /\
  exts = concat (map (fun e => extension e.1 e.2) es)
         ++ extension 51 (len16 (4 + length key) ++ of_zs [0; 29] ++ len16 (length key) ++ key) ++ t.
Proof using All.
  exists [(0, len16 (length name + 3) ++ of_zs [0] ++ len16 (length name) ++ name); (43, of_zs [2; 3; 4]); (10, of_zs [0; 2; 0; 29])],
    (signature_algorithms_extension ++ alpn_extension alpn). split.
  - repeat (apply Forall_cons; split); [..|by apply Forall_nil];
      (split; [cbn; lia|split; [done|]]); cbn [snd]; unfold len16; rewrite ?length_app, ?length_be_bytes; cbn [length of_zs map]; lia.
  - unfold exts, client_extensions, sni_extension, key_share_extension, extension. cbn [map concat fst snd]. unfold len16.
    rewrite !length_app, !length_be_bytes, <- !app_assoc. cbn [length of_zs map app].
    replace (2 + (1 + (2 + length name)))%nat with (5 + length name)%nat by lia.
    replace (2 + (2 + (2 + length key)))%nat with (2 + 4 + length key)%nat by lia. done.
Qed.

Lemma client_key_read : extract_client_public_key (header ++ construct_client_hello random session_id key name suites alpn) = Ok key.
Proof using All.
  unfold extract_client_public_key. destruct (client_head "ClientHello too short") as (r & -> & A). cbn [mbind res_bind].
  reads A at_be16; [|lia]. rewrite Nat2Z.id. reads A (at_skipped (concat (map (be_bytes 2) suites)) (length suites * 2)%nat); [|apply length_suites].
  cbn [of_zs map app] in A. reads A at_byte.
  change (Z.to_nat (val8 (to_u8 1))) with 1%nat. reads A (at_skipped [to_u8 0] 1%nat); [|done].
  destruct client_extensions_shape as (es & t & Hes & He). rewrite He in A.
  eapply find_key_share_ok with (es := es) (t := t); [done| |apply client_key_share_read| |exact A].
  - unfold len16. rewrite !length_app, !length_be_bytes, Hkey. cbn. lia.
  - rewrite <- He. pose proof length_exts. lia.
Qed.
(** Where the random and the session id stand. *)
Lemma client_hello_split : exists pre rest, length pre = 11%nat /\
  header ++ construct_client_hello random session_id key name suites alpn = pre ++ random ++ to_u8 32 :: session_id ++ rest.
Proof using All.
  rewrite client_hello_shape. unfold hello_prefix. rewrite Hsid.
  exists (header ++ to_u8 HS_CLIENT_HELLO :: len24 body_len ++ of_zs [3; 3]). eexists. split.
  - rewrite length_app. cbn [length]. rewrite length_app. unfold len24. rewrite length_be_bytes, Hheader. done.
  - rewrite <- !app_assoc. cbn [app]. rewrite <- !app_assoc. cbn [app]. reflexivity.
Qed.

Lemma client_random_read : extract_client_random (header ++ construct_client_hello random session_id key name suites alpn) = Ok random.
Proof using All.
  destruct client_hello_split as (pre & rest & Hp & ->). unfold extract_client_random.
  rewrite (proj2 (Nat.ltb_ge _ _)) by (rewrite !length_app, Hp, Hrandom; lia). apply sub_slice_mid; [done|by rewrite Hp, Hrandom].
Qed.

Lemma client_session_id_read : extract_session_id_slice (header ++ construct_client_hello random session_id key name suites alpn) = Ok session_id.
Proof using All.
  destruct client_hello_split as (pre & rest & Hp & ->). unfold extract_session_id_slice.
  change (5 + 4 + 2 + 32)%nat with 43%nat. rewrite app_assoc.
  assert (length (pre ++ random) = 43%nat) as Hl by (by rewrite length_app, Hp, Hrandom).
  rewrite (proj2 (Nat.ltb_ge _ _)) by (rewrite length_app, Hl; cbn [length]; lia).
  rewrite (index_app (pre ++ random)) by done. cbn [mbind res_bind]. change (Z.to_nat (val8 (to_u8 32))) with 32%nat.
  rewrite (proj2 (Nat.ltb_ge _ _)) by (rewrite length_app, Hl; cbn [length]; rewrite length_app; lia).
  rewrite (cons_middle (to_u8 32)), app_assoc. apply sub_slice_mid; rewrite length_app, Hl, ?Hsid; done.
Qed.

Lemma read_suites_ok : forall ss, Forall (fun s => 0 <= s < 65536) ss -> read_suites (map (be_bytes 2) ss) = Ok ss.
Proof.
  clear. induction 1 as [|s ss Hs _ IH]; [done|]. cbn [map read_suites]. rewrite IH.
  assert (index_be16 (E := io_error) (be_bytes 2 s) 0 = Ok s) as ->; [|done].
  unfold index_be16, index. cbn [be_bytes lookup list_lookup unwrap mbind res_bind].
  f_equal. by apply (be_value_be_bytes_small 2).
Qed.

Lemma chunks_suites : forall ss, chunks 2 (concat (map (be_bytes 2) ss)) = map (be_bytes 2) ss.
Proof.
  clear. intros ss. unfold chunks.
  assert (length (concat (map (be_bytes 2) ss)) = (2 * length ss)%nat) as Hl.
  { induction ss as [|s ss IH]; [done|]. cbn [map concat length]. rewrite length_app, length_be_bytes, IH. lia. }
  rewrite Hl. assert (length ss <= 2 * length ss)%nat as Hf by lia. revert Hf. generalize (2 * length ss)%nat. clear Hl.
  induction ss as [|s ss IH]; intros [|n] Hf; try done; [cbn in Hf; lia|]. cbn in Hf |- *. f_equal. apply IH. lia.
Qed.

Lemma client_suites_read : extract_client_cipher_suites (header ++ construct_client_hello random session_id key name suites alpn) = Ok suites.
Proof using All.
  unfold extract_client_cipher_suites. destruct (client_head "ClientHello too short") as (r & -> & A). cbn [mbind res_bind].
  reads A at_be16; [|lia]. rewrite Nat2Z.inj_mul, Z_mod_mult. cbn [Z.eqb negb]. rewrite <- Nat2Z.inj_mul, Nat2Z.id.
  reads A (at_sliced (concat (map (be_bytes 2) suites)) (length suites * 2)%nat); [|apply length_suites].
  rewrite chunks_suites. by apply read_suites_ok.
Qed.
End ClientHello.

(** *** The hello of the server *)

Section ServerHello.
Context (random session_id key : bytes) (suite : Z) (header : bytes).
Hypothesis Hheader : length header = 5%nat.
Hypothesis Hrandom : length random = 32%nat.
Hypothesis Hsid : (length session_id < 256)%nat.
Hypothesis Hkey : length key = 32%nat.
Hypothesis Hsuite : 0 <= suite < 65536.

Let share := of_zs [0; 29] ++ len16 (length key) ++ key.

Lemma server_head too_short : exists r,
  hello_head too_short (header ++ construct_server_hello random session_id suite key) = Ok r
  /\ at_bytes r (be_bytes 2 suite ++ to_u8 0 :: len16 (length (extension 43 (of_zs [3; 4]) ++ extension 51 share))
                 ++ extension 43 (of_zs [3; 4]) ++ extension 51 share).
Proof using All.
  assert (construct_server_hello random session_id suite key
          = hello_prefix HS_SERVER_HELLO (2 + 32 + 1 + length session_id + 2 + 1 + 2 + length (extension 43 (of_zs [3; 4]) ++ extension 51 share))
              random session_id
            ++ be_bytes 2 suite ++ to_u8 0 :: len16 (length (extension 43 (of_zs [3; 4]) ++ extension 51 share))
               ++ extension 43 (of_zs [3; 4]) ++ extension 51 share) as ->.
  { unfold construct_server_hello, handshake_message, hello_prefix.
    assert (of_zs [0; 43; 0; 2; 3; 4] ++ of_zs [0; 51] ++ len16 (2 + 2 + length key) ++ of_zs [0; 29] ++ len16 (length key) ++ key
            = extension 43 (of_zs [3; 4]) ++ extension 51 share) as ->.
    { unfold extension, share, len16. rewrite !length_app, length_be_bytes. done. }
    set (exts := extension _ _ ++ extension _ _). cbn [app]. rewrite <- ?app_assoc. cbn [app]. repeat f_equal.
    unfold len16. rewrite !length_app. cbn [length]. rewrite !length_app, !length_be_bytes, Hrandom. cbn [length of_zs map]. lia. }
  apply hello_head_ok; try done. rewrite length_app, !length_extension. subst share. rewrite !length_app. unfold len16.
  rewrite length_be_bytes, Hkey. cbn [length of_zs map]. change (256 ^ 3) with 16777216. lia.
Qed.

Lemma server_key_read : extract_server_public_key (header ++ construct_server_hello random session_id suite key) = Ok key.
Proof using All.
  unfold extract_server_public_key. destruct (server_head "ServerHello too short") as (r & -> & A). cbn [mbind res_bind].
  reads A (at_skipped (be_bytes 2 suite) 2%nat); [|apply length_be_bytes].
  reads A (at_skipped [to_u8 0] 1%nat); [|reflexivity].
  rewrite <- (app_nil_r (extension 51 share)) in A.
  eapply find_key_share_ok with (es := [(43, of_zs [3; 4])]) (d := share) (t := []).
  - apply Forall_singleton. split; [cbn; lia|]. split; [done|]. cbn. lia.
  - subst share. rewrite !length_app. unfold len16. rewrite length_be_bytes, Hkey. cbn. lia.
  - unfold parse_server_keyshare_extension, share, len16. rewrite Hkey.
    pose proof (at_new (of_zs [0; 29] ++ be_bytes 2 (Z.of_nat 32) ++ key)) as B. set (r' := new_reader _) in *. clearbody r'.
    change (of_zs [0; 29] ++ ?x) with (be_bytes 2 29 ++ x) in B. reads B at_be16; [|lia]. reads B at_be16; [|lia].
    cbn [Z.eqb Pos.eqb]. unfold read_x25519. change (negb (Z.of_nat 32 =? 32)) with false.
    rewrite <- (app_nil_r key) in B. reads B (at_sliced key 32%nat); done.
  - cbn [map concat fst snd]. rewrite !app_nil_r, length_app, !length_extension. subst share. rewrite !length_app. unfold len16.
    rewrite length_be_bytes, Hkey. cbn [length of_zs map]. lia.
  - cbn [map concat fst snd]. rewrite !app_nil_r in *. exact A.
Qed.

Lemma server_suite_read : extract_server_cipher_suite (header ++ construct_server_hello random session_id suite key) = Ok suite.
Proof using All.
  unfold extract_server_cipher_suite. destruct (server_head "ServerHello too short") as (r & -> & A). cbn [mbind res_bind].
  by reads A at_be16.
Qed.
End ServerHello.

(** *** Certificates *)

Lemma index_be24_drop p m z t : drop p m = be_bytes 3 z ++ t -> 0 <= z < 256 ^ 3 -> index_be24 m p = Ok z.
Proof.
  intros H Hz. unfold index_be24, index. cbn [be_bytes app] in H.
  assert (forall i, m !! (p + i)%nat = (be_bytes 3 z ++ t) !! i) as Hi by (intros i; rewrite <- lookup_drop, H; done).
  rewrite <- (Nat.add_0_r p) at 1. rewrite !Hi. cbn [be_bytes app lookup list_lookup unwrap mbind res_bind]. f_equal.
  exact (be_value_be_bytes_small 3 z Hz).
Qed.

(** The certificate in its message. *)
Lemma certificate_read der : Z.of_nat (length der) < 2 ^ 23 -> extract_certificate_der (construct_certificate der) = Ok der.
Proof.
  intros Hl. set (m := construct_certificate der).
  set (pre := to_u8 HS_CERTIFICATE :: len24 (1 + 3 + (3 + length der + 2)) ++ of_zs [0] ++ len24 (3 + length der + 2) ++ len24 (length der)).
  assert (m = pre ++ der ++ of_zs [0; 0]) as Hm by (subst m pre; unfold construct_certificate; cbn [app]; by rewrite <- !app_assoc).
  assert (length pre = 11%nat) as Hp by (subst pre; unfold len24; cbn [length]; rewrite !length_app, !length_be_bytes; done).
  assert (length m = (length der + 13)%nat) as Hlm by (rewrite Hm, !length_app, Hp; cbn; lia).
  unfold extract_certificate_der. rewrite Hlm, (proj2 (Nat.ltb_ge _ _)), (proj2 (Nat.leb_gt _ _)) by lia.
  assert (index (E := io_error) m 4 = Ok (to_u8 0)) as -> by done. cbn [mbind res_bind].
  change (5 + Z.to_nat (val8 (to_u8 0)))%nat with 5%nat. rewrite (proj2 (Nat.ltb_ge _ _)) by lia.
  rewrite (index_be24_drop 5 m (Z.of_nat (3 + length der + 2)) (len24 (length der) ++ der ++ of_zs [0; 0])) by (done || lia).
  cbn [mbind res_bind]. change (5 + 3)%nat with 8%nat. rewrite (proj2 (Nat.ltb_ge _ _)) by lia.
  rewrite (index_be24_drop 8 m (Z.of_nat (length der)) (der ++ of_zs [0; 0])) by (done || lia).
  cbn [mbind res_bind]. change (8 + 3)%nat with 11%nat. rewrite Nat2Z.id, (proj2 (Nat.ltb_ge _ _)) by lia.
  rewrite Hm. apply sub_slice_mid; by rewrite Hp.
Qed.

(** The signature in its message. *)
Lemma certificate_verify_read sign hash : length (sign (signed_content hash)) = 64%nat ->
  extract_certificate_verify_signature (construct_certificate_verify sign hash) = Ok (sign (signed_content hash)).
Proof.
  unfold construct_certificate_verify. set (sg := sign _). clearbody sg. intros Hl. unfold extract_certificate_verify_signature.
  set (m := handshake_message _ _).
  assert (m = (to_u8 15 :: be_bytes 3 68 ++ of_zs [8; 7] ++ be_bytes 2 64) ++ sg ++ []) as Hm.
  { subst m. unfold handshake_message, len24, len16. rewrite !length_app, length_be_bytes, Hl, app_nil_r.
    cbn [app]. by rewrite <- !app_assoc. }
  assert (length m = 72%nat) as Hlm by (rewrite Hm, length_app, app_nil_r, Hl; done).
  rewrite Hlm. cbn [Nat.ltb Nat.leb].
  assert (index (E := io_error) m 0 = Ok (to_u8 15)) as -> by done. cbn [mbind res_bind].
  rewrite val8_to_u8. change (negb (15 mod 256 =? 15)) with false.
  rewrite (index_be16_drop 4 m 2055 (be_bytes 2 64 ++ sg)) by (first [lia | by rewrite Hm, app_nil_r]). cbn [mbind res_bind Z.eqb Pos.eqb negb].
  rewrite (index_be16_drop 6 m 64 sg) by (first [lia | by rewrite Hm, app_nil_r]). cbn [mbind res_bind Z.eqb Pos.eqb negb].
  change (8 + Z.to_nat 64)%nat with 72%nat. cbn [Nat.ltb Nat.leb]. rewrite Hm. apply sub_slice_mid; [done|by rewrite Hl].
Qed.
