(* ===== verification/RealityClient.v ===== *)
(** * The REALITY client connection
    ([crates/net/src/reality/reality_client_connection.rs],
    [reality_reader_writer.rs], [reality_io_state.rs])

    The state machine of a TLS 1.3 client that authenticates the server by a code
    in its certificate. A method is a step of a state and error monad: an error
    leaves the state as it was when it happened. Log lines are left out. *)

From S2P Require Import Prelude RustStr NetAddr NetIo SlideBuffer VisionFilter Aead RealityRecords RealityKeys RealityMessages.

Definition CIPHERTEXT_READ_BUF_CAPACITY : nat := TLS_MAX_RECORD_SIZE * 2.
Definition PLAINTEXT_READ_BUF_CAPACITY : nat := TLS_MAX_RECORD_SIZE * 2.

Definition ALERT_LEVEL_WARNING : Z := 1.
Definition ALERT_DESC_CLOSE_NOTIFY : Z := 0.

(** [RealityClientConfig] *)
Record RealityClientConfig : Type := mkRealityConfig {
  rc_public_key : bytes;
  rc_short_id : bytes;
  rc_server_name : str;
  rc_cipher_suites : list CipherSuite
}.

(** [HandshakeState::ProcessingHandshake] *)
Record Processing : Type := mkProcessing {
  client_hs_secret : bytes;
  server_hs_secret : bytes;
  hs_master_secret : bytes;
  hs_cipher_suite : CipherSuite;
  transcript_bytes : bytes;
  hs_auth_key : bytes;
  handshake_seq : Z;
  accumulated_plaintext : bytes;
  messages_found : nat;
  certificate_verified : bool;
  ed25519_public_key : option bytes;
  cert_verify_offset : option nat
}.

Inductive HandshakeState : Type :=
| AwaitingServerHello (client_hello_bytes client_private_key auth_key : bytes)
| ProcessingHandshake (p : Processing)
| Complete.

(** [RealityClientConnection]; the reusable read buffer is left out, and
    [fatal_error] holds the error that every later call returns. *)
Record Connection : Type := mkConnection {
  config : RealityClientConfig;
  handshake_state : HandshakeState;
  app_read : option (AeadKey * bytes);
  app_write : option (AeadKey * bytes);
  read_seq : Z;
  write_seq : Z;
  ciphertext_read_buf : SlideBuffer;
  ciphertext_write_buf : bytes;
  plaintext_read_buf : SlideBuffer;
  plaintext_write_buf : bytes;
  received_close_notify : bool;
  fatal_error : option io_error
}.

Definition set_state (s : HandshakeState) (c : Connection) : Connection :=
  mkConnection (config c) s (app_read c) (app_write c) (read_seq c) (write_seq c) (ciphertext_read_buf c)
    (ciphertext_write_buf c) (plaintext_read_buf c) (plaintext_write_buf c) (received_close_notify c) (fatal_error c).
Definition set_cin (b : SlideBuffer) (c : Connection) : Connection :=
  mkConnection (config c) (handshake_state c) (app_read c) (app_write c) (read_seq c) (write_seq c) b
    (ciphertext_write_buf c) (plaintext_read_buf c) (plaintext_write_buf c) (received_close_notify c) (fatal_error c).
Definition set_pin (b : SlideBuffer) (c : Connection) : Connection :=
  mkConnection (config c) (handshake_state c) (app_read c) (app_write c) (read_seq c) (write_seq c) (ciphertext_read_buf c)
    (ciphertext_write_buf c) b (plaintext_write_buf c) (received_close_notify c) (fatal_error c).
Definition set_read_seq (n : Z) (c : Connection) : Connection :=
  mkConnection (config c) (handshake_state c) (app_read c) (app_write c) n (write_seq c) (ciphertext_read_buf c)
    (ciphertext_write_buf c) (plaintext_read_buf c) (plaintext_write_buf c) (received_close_notify c) (fatal_error c).
Definition set_close (c : Connection) : Connection :=
  mkConnection (config c) (handshake_state c) (app_read c) (app_write c) (read_seq c) (write_seq c) (ciphertext_read_buf c)
    (ciphertext_write_buf c) (plaintext_read_buf c) (plaintext_write_buf c) true (fatal_error c).
Definition set_fatal (e : io_error) (c : Connection) : Connection :=
  mkConnection (config c) (handshake_state c) (app_read c) (app_write c) (read_seq c) (write_seq c) (ciphertext_read_buf c)
    (ciphertext_write_buf c) (plaintext_read_buf c) (plaintext_write_buf c) (received_close_notify c) (Some e).
(** The output side: the next sequence number, the records and the plaintext to
    come. *)
Definition set_out (seq : Z) (out pending : bytes) (c : Connection) : Connection :=
  mkConnection (config c) (handshake_state c) (app_read c) (app_write c) (read_seq c) seq (ciphertext_read_buf c)
    out (plaintext_read_buf c) pending (received_close_notify c) (fatal_error c).

(** ** The monad of the methods *)

Definition M (A : Type) : Type := Connection -> Connection * res io_error A.

#[export] Instance M_ret : MRet M := fun A a c => (c, Ok a).
#[export] Instance M_bind : MBind M := fun A B f m c =>
  match m c with
  | (c, Ok a) => f a c
  | (c, Err e) => (c, Err e)
  | (c, Panic) => (c, Panic)
  end.

Definition lift {A} (r : res io_error A) : M A := fun c => (c, r).
Definition get : M Connection := fun c => (c, Ok c).
Definition modify (f : Connection -> Connection) : M unit := fun c => (f c, Ok tt).

Section Client.
Context `{A : Aead} `{C : Crypto} (x509 : bytes -> res str (bytes * bytes)) (debug : bool).

(** ** The hello *)

(** [session_id_plaintext] *)
Definition session_id_plaintext (timestamp : Z) (short_id : bytes) : bytes :=
  of_zs [1; 8; 0; 0] ++ be_bytes 4 timestamp ++ short_id.

(** [hello[39..71].copy_from_slice(id)] *)
Definition put_session_id (id hello : bytes) : bytes := take 39 hello ++ id ++ drop 71 hello.

Definition offered_suites (cfg : RealityClientConfig) : list CipherSuite :=
  if is_nil (rc_cipher_suites cfg) then DEFAULT_CIPHER_SUITES else rc_cipher_suites cfg.

(** What [generate_client_hello] makes of 32 random bytes for the key, 32 for the
    hello, and the clock: the hello as sent, and the authentication key. *)
Definition client_hello_for (cfg : RealityClientConfig) (private_key random : bytes) (timestamp : Z)
    : res io_error (bytes * bytes) :=
  public_key ← ok_or (x25519_public private_key) (IoOther "Failed to compute public key");
  shared_secret ← ok_or (perform_ecdh private_key (rc_public_key cfg)) (InvalidData "ECDH key exchange failed");
  let auth_key := derive_auth_key shared_secret (slice 0 20 random) "REALITY" in
  let plain := session_id_plaintext timestamp (rc_short_id cfg) in
  let hello := construct_client_hello random (plain ++ replicate 16 (to_u8 0)) public_key (rc_server_name cfg)
                 (map suite_id (offered_suites cfg)) DEFAULT_ALPN_PROTOCOLS in
  let aad := put_session_id (replicate 32 (to_u8 0)) hello in
  id ← ok_or (encrypt_session_id plain auth_key (slice 20 32 random) aad) (InvalidData "Encryption failed");
  Ok (put_session_id id hello, auth_key).

(** [RealityClientConnection::new]; [storage] is the memory of the two buffers. *)
Definition new (storage_in storage_plain : bytes) (cfg : RealityClientConfig) (private_key random : bytes) (timestamp : Z)
    : res io_error Connection :=
  '(hello, auth_key) ← client_hello_for cfg private_key random timestamp;
  Ok (mkConnection cfg (AwaitingServerHello hello private_key auth_key) None None 0 0 (sb_new storage_in)
        (write_record_header CT_HANDSHAKE (Z.of_nat (length hello)) ++ hello) (sb_new storage_plain) [] false None).

(** ** Reading records *)

(** [read_tls] from a reader that has [data]: how much it took. *)
Definition read_tls (data : bytes) : M nat :=
  c ← get;
  let b := ciphertext_read_buf c in
  let b := if (remaining_capacity b <? TLS_MAX_RECORD_SIZE)%nat then compact b else b in
  _ ← modify (set_cin b);
  let n := Nat.min TLS_MAX_RECORD_SIZE (length data) in
  if (0 <? n)%nat
  then b ← lift (extend_from_slice debug b (take n data)); _ ← modify (set_cin b); mret n
  else mret n.

(** [feed_reality_client_connection]; every turn takes a byte at least. *)
Fixpoint feed_fuel (fuel : nat) (data : bytes) : M unit :=
  if is_nil data then mret tt
  else match fuel with
       | O => lift Panic
       | S fuel => n ← read_tls data; feed_fuel fuel (drop n data)
       end.

Definition feed_reality_client_connection (data : bytes) : M unit := feed_fuel (length data) data.

(** The length of the record at the front of the buffer, behind its header;
    [None] while it is not complete. *)
Definition front_record (b : SlideBuffer) : res io_error (option nat) :=
  if (sb_len b <? TLS_RECORD_HEADER_SIZE)%nat then Ok None
  else
    v ← get_u16_be b 3;
    record_len ← ok_or v (InvalidData "Buffer too short");
    if (sb_len b <? TLS_RECORD_HEADER_SIZE + Z.to_nat record_len)%nat then Ok None else Ok (Some (Z.to_nat record_len)).

Definition consume_cin (n : nat) : M unit :=
  c ← get; b ← lift (sb_consume debug (ciphertext_read_buf c) n); modify (set_cin b).

(** [process_server_hello]. A private key of 32 bytes is never refused. *)
Definition process_server_hello (client_hello private_key auth_key : bytes) : M bool :=
  c ← get;
  front ← lift (front_record (ciphertext_read_buf c));
  match front with
  | None => mret false
  | Some record_len =>
      let total_record_len := (TLS_RECORD_HEADER_SIZE + record_len)%nat in
      record ← lift (sb_index_to (ciphertext_read_buf c) total_record_len);
      _ ← consume_cin total_record_len;
      let server_hello := drop TLS_RECORD_HEADER_SIZE record in
      server_public_key ← lift (extract_server_public_key record);
      id ← lift (extract_server_cipher_suite record);
      suite ← lift (ok_or (suite_from_id id)
                          (InvalidData ("Server selected unsupported cipher suite: 0x" ++ show_hex4 id)));
      let server_hello_hash := digest (suite_hash suite) (client_hello ++ server_hello) in
      shared ← lift (ok_or (x25519_agree private_key server_public_key) (IoOther "ECDH failed"));
      ks ← lift (derive_handshake_keys suite shared server_hello_hash);
      _ ← modify (set_state (ProcessingHandshake
             (mkProcessing (client_handshake_traffic_secret ks) (server_handshake_traffic_secret ks) (master_secret ks)
                suite (client_hello ++ server_hello) auth_key 0 [] 0 false None None)));
      mret true
  end.

(** ** The encrypted flight *)

(** What the loop over the messages of a record finds. *)
Record Scan : Type := mkScan {
  sc_found : nat; sc_verified : bool; sc_key : option bytes; sc_cv : option nat
}.

(** The loop; [n] is how many messages are missing of four. *)
Fixpoint scan_messages (n : nat) (plain auth_key : bytes) (offset : nat) (s : Scan) : res io_error Scan :=
  match n with
  | O => Ok s
  | S n =>
      if (length plain <=? offset)%nat then Ok s
      else if (length plain <? offset + 4)%nat then Ok s
      else
        ty ← index plain offset;
        msg_len ← index_be24 plain (offset + 1);
        let stop := (offset + 4 + Z.to_nat msg_len)%nat in
        if (length plain <? stop)%nat then Ok s
        else
          s ← (if val8 ty =? HS_CERTIFICATE then
                 message ← sub_slice offset stop plain;
                 cert_der ← extract_certificate_der message;
                 _ ← verify_certificate_hmac x509 cert_der auth_key;
                 key ← extract_ed25519_public_key x509 cert_der;
                 Ok (mkScan (sc_found s) true (Some key) (sc_cv s))
               else Ok s);
          let s := if val8 ty =? HS_CERTIFICATE_VERIFY
                   then mkScan (sc_found s) (sc_verified s) (sc_key s) (Some offset) else s in
          scan_messages n plain auth_key stop (mkScan (S (sc_found s)) (sc_verified s) (sc_key s) (sc_cv s))
  end.

(** The check of the signature, over the transcript up to its message. *)
Definition check_certificate_verify (suite : CipherSuite) (transcript plain : bytes) (s : Scan) : res io_error unit :=
  match sc_key s, sc_cv s with
  | Some public_key, Some cv_offset =>
      before ← sub_slice 0 cv_offset plain;
      cv_len ← index_be24 plain (cv_offset + 1);
      message ← sub_slice cv_offset (cv_offset + 4 + Z.to_nat cv_len) plain;
      signature ← extract_certificate_verify_signature message;
      verify_certificate_verify_signature public_key signature (digest (suite_hash suite) (transcript ++ before))
  | _, _ => Err (PermissionDenied "REALITY handshake failed: CertificateVerify not verified")
  end.

(** The end of the handshake: the client's Finished, and the application keys
    (reading, writing). *)
Definition finish_handshake (p : Processing) (plain : bytes) (out : bytes)
    : res io_error (bytes * ((AeadKey * bytes) * (AeadKey * bytes))) :=
  let suite := hs_cipher_suite p in
  let handshake_hash := digest (suite_hash suite) (transcript_bytes p ++ plain) in
  verify_data ← compute_finished_verify_data suite (client_hs_secret p) handshake_hash;
  let client_finished := construct_finished verify_data in
  '(hs_key, hs_iv) ← derive_traffic_keys (client_hs_secret p) suite;
  hs_aead ← aead_key_new suite hs_key;
  '(_, out) ← encrypt_handshake debug hs_aead hs_iv client_finished (0, out);
  '(client_secret, server_secret) ← derive_application_secrets suite (hs_master_secret p) handshake_hash;
  '(client_key, client_iv) ← derive_traffic_keys client_secret suite;
  '(server_key, server_iv) ← derive_traffic_keys server_secret suite;
  client_aead ← aead_key_new suite client_key;
  server_aead ← aead_key_new suite server_key;
  Ok (out, ((server_aead, server_iv), (client_aead, client_iv))).

(** [self.app_read_key = ..] and what follows. *)
Definition completed (out : bytes) (rd wr : AeadKey * bytes) (c : Connection) : Connection :=
  mkConnection (config c) Complete (Some rd) (Some wr) 0 0 (ciphertext_read_buf c) out (plaintext_read_buf c)
    (plaintext_write_buf c) (received_close_notify c) (fatal_error c).

(** One record of [process_encrypted_handshake]: [None] after a
    ChangeCipherSpec, where the code calls itself again. *)
Definition handshake_record (p : Processing) : M (option bool) :=
  '(key, iv) ← lift (derive_traffic_keys (server_hs_secret p) (hs_cipher_suite p));
  c ← get;
  let b := ciphertext_read_buf c in
  front ← lift (front_record b);
  match front with
  | None => mret (Some false)
  | Some record_len =>
      let total_record_len := (TLS_RECORD_HEADER_SIZE + record_len)%nat in
      record_type ← lift (sb_index b 0);
      if val8 record_type =? CT_CHANGE_CIPHER_SPEC then _ ← consume_cin total_record_len; mret None
      else if negb (val8 record_type =? CT_APPLICATION_DATA)
      then lift (bad_data ("Expected Application Data record, got 0x" ++ show_hex2 (val8 record_type)))
      else
        ciphertext ← lift (sb_index_range b TLS_RECORD_HEADER_SIZE total_record_len);
        _ ← consume_cin total_record_len;
        plaintext ← lift (decrypt_handshake_message (hs_cipher_suite p) key iv (handshake_seq p) ciphertext record_len);
        let plain := accumulated_plaintext p ++ plaintext in
        s ← lift (scan_messages (4 - messages_found p) plain (hs_auth_key p) (length (accumulated_plaintext p))
                    (mkScan (messages_found p) (certificate_verified p) (ed25519_public_key p) (cert_verify_offset p)));
        if (sc_found s <? 4)%nat then
          _ ← modify (set_state (ProcessingHandshake
                 (mkProcessing (client_hs_secret p) (server_hs_secret p) (hs_master_secret p) (hs_cipher_suite p)
                    (transcript_bytes p) (hs_auth_key p) (handshake_seq p + 1) plain (sc_found s) (sc_verified s)
                    (sc_key s) (sc_cv s))));
          mret (Some true)
        else if negb (sc_verified s)
        then lift (Err (PermissionDenied "REALITY handshake failed: Certificate message not received or not verified"))
        else
          _ ← lift (check_certificate_verify (hs_cipher_suite p) (transcript_bytes p) plain s);
          c ← get;
          '(out, (rd, wr)) ← lift (finish_handshake p plain (ciphertext_write_buf c));
          _ ← modify (completed out rd wr);
          mret (Some true)
  end.

(** [process_encrypted_handshake]; each ChangeCipherSpec takes five bytes. *)
Fixpoint process_encrypted_handshake (fuel : nat) (p : Processing) : M bool :=
  match fuel with
  | O => lift Panic
  | S fuel => r ← handshake_record p; match r with Some more => mret more | None => process_encrypted_handshake fuel p end
  end.

(** ** Application data *)

(** One turn of [process_application_data]: whether to go on. The record is
    decrypted in its place; what the place holds afterwards is not read again. *)
Definition application_record (key : AeadKey) (iv : bytes) : M bool :=
  c ← get;
  let b := ciphertext_read_buf c in
  front ← lift (front_record b);
  match front with
  | None => mret false
  | Some record_len =>
      let total_record_len := (TLS_RECORD_HEADER_SIZE + record_len)%nat in
      ciphertext ← lift (sb_index_range b TLS_RECORD_HEADER_SIZE total_record_len);
      let '(seq, opened) := decrypt_record key iv (read_seq c) ciphertext record_len in
      _ ← modify (set_read_seq seq);
      '(content_type, plaintext) ← lift opened;
      if content_type =? CT_APPLICATION_DATA then
        pin ← lift (extend_from_slice debug (maybe_compact (plaintext_read_buf c) 4096) plaintext);
        _ ← modify (set_pin pin);
        _ ← consume_cin total_record_len;
        mret true
      else if content_type =? CT_ALERT then
        if (2 <=? length plaintext)%nat then
          level ← lift (index plaintext 0);
          desc ← lift (index plaintext 1);
          if val8 desc =? ALERT_DESC_CLOSE_NOTIFY then _ ← modify set_close; mret false
          else if negb (val8 level =? ALERT_LEVEL_WARNING)
          then lift (Err (ConnectionAborted ("received fatal alert: " ++ show_uint (val8 desc))))
          else _ ← consume_cin total_record_len; mret true
        else _ ← consume_cin total_record_len; mret true
      else (* [unreachable!] *) lift Panic
  end.

Fixpoint application_records (fuel : nat) (key : AeadKey) (iv : bytes) : M unit :=
  match fuel with
  | O => lift Panic
  | S fuel => more ← application_record key iv; if more : bool then application_records fuel key iv else mret tt
  end.

Definition process_application_data : M unit :=
  c ← get;
  match app_read c with
  | Some (key, iv) => application_records (S (sb_len (ciphertext_read_buf c))) key iv
  | None => lift Panic
  end.

(** ** [process_new_packets] *)

(** [process_new_packets_inner]; a turn that goes on has consumed a record or
    has completed the handshake. *)
Fixpoint process_packets (fuel : nat) : M nat :=
  match fuel with
  | O => lift Panic
  | S fuel =>
      c ← get;
      let available := c ← get; mret (sb_len (plaintext_read_buf c)) in
      match handshake_state c with
      | AwaitingServerHello hello private_key auth_key =>
          more ← process_server_hello hello private_key auth_key;
          if more : bool then process_packets fuel else available
      | ProcessingHandshake p =>
          more ← process_encrypted_handshake (S (sb_len (ciphertext_read_buf c))) p;
          if more : bool then process_packets fuel else available
      | Complete => _ ← process_application_data; available
      end
  end.

(** What later calls return after an error: only three kinds are kept. *)
Definition lasting_error (e : io_error) : option io_error :=
  match e with
  | InvalidData _ => Some (InvalidData "connection previously failed")
  | PermissionDenied _ => Some (PermissionDenied "connection previously failed")
  | ConnectionAborted _ => Some (ConnectionAborted "connection previously failed")
  | _ => None
  end.

(** [process_new_packets]; the number is [RealityIoState]'s. *)
Definition process_new_packets : M nat :=
  c ← get;
  match fatal_error c with
  | Some e => lift (Err e)
  | None =>
      if received_close_notify c then mret (sb_len (plaintext_read_buf c))
      else fun c =>
        match process_packets (S (S (sb_len (ciphertext_read_buf c)))) c with
        | (c, Err e) => (match lasting_error e with Some e => set_fatal e c | None => c end, Err e)
        | r => r
        end
  end.

(** ** Plaintext *)

(** [reader()], then [RealityReader::read] of [n] bytes. *)
Definition read_plaintext (n : nat) : M bytes :=
  c ← get;
  let b := maybe_compact (plaintext_read_buf c) 4096 in
  _ ← modify (set_pin b);
  let to_read := Nat.min n (sb_len b) in
  if (0 <? to_read)%nat then
    data ← lift (sb_index_to b to_read);
    b ← lift (sb_consume debug b to_read);
    _ ← modify (set_pin b);
    mret data
  else mret [].

(** [RealityReader::fill_buf]: [None] for [WouldBlock]. *)
Definition fill_buf (c : Connection) : res io_error (option bytes) :=
  if negb (sb_is_empty (plaintext_read_buf c)) then s ← as_slice (plaintext_read_buf c); Ok (Some s)
  else Ok (if received_close_notify c then Some [] else None).

(** [RealityReader::consume] *)
Definition reader_consume (amt : nat) : M unit :=
  c ← get;
  b ← lift (sb_consume debug (plaintext_read_buf c) (Nat.min amt (sb_len (plaintext_read_buf c))));
  modify (set_pin b).

(** [writer().write(buf)] *)
Definition write_plaintext (buf : bytes) : M nat :=
  _ ← modify (fun c => set_out (write_seq c) (ciphertext_write_buf c) (plaintext_write_buf c ++ buf) c);
  mret (length buf).

(** [write_tls] into a writer that takes as many bytes as [wr] says; the bytes
    it took. *)
Definition write_tls (wr : bytes -> res io_error nat) : M bytes :=
  c ← get;
  _ ← (match handshake_state c with
       | Complete =>
           if is_nil (plaintext_write_buf c) then mret tt
           else match app_write c with
                | Some (key, iv) =>
                    '(seq, out) ← lift (encrypt_app_data debug key iv (plaintext_write_buf c) (write_seq c, ciphertext_write_buf c));
                    modify (set_out seq out [])
                | None => lift (bad_data "Application keys not available")
                end
       | _ => mret tt
       end);
  c ← get;
  n ← lift (wr (ciphertext_write_buf c));
  taken ← lift (sub_slice 0 n (ciphertext_write_buf c));
  _ ← modify (set_out (write_seq c) (drop n (ciphertext_write_buf c)) (plaintext_write_buf c));
  mret taken.

Definition wants_write (c : Connection) : bool :=
  negb (is_nil (ciphertext_write_buf c)) || negb (is_nil (plaintext_write_buf c)).

Definition is_handshaking (c : Connection) : bool := match handshake_state c with Complete => false | _ => true end.

Definition wants_read (c : Connection) : bool :=
  if received_close_notify c then false
  else match fatal_error c with
       | Some _ => false
       | None => if is_handshaking c then true else sb_is_empty (plaintext_read_buf c)
       end.

(** [send_close_notify]; an error is logged only. *)
Definition send_close_notify : M unit :=
  c ← get;
  match handshake_state c, app_write c with
  | Complete, Some (key, iv) =>
      match encrypt_close_notify debug key iv (write_seq c, ciphertext_write_buf c) with
      | Ok (seq, out) => modify (set_out seq out (plaintext_write_buf c))
      | Err _ => mret tt
      | Panic => lift Panic
      end
  | _, _ => mret tt
  end.
End Client.

(** ** Reasoning about the methods *)

(** [m] leaves a state with [P], however it ends, when it starts in [c]. *)
Definition leaves {A} (P : Connection -> Prop) (m : M A) (c : Connection) : Prop := P (fst (m c)).

Lemma leaves_ret {A} P (a : A) c : P c -> leaves P (mret a) c.
Proof. done. Qed.

Lemma leaves_lift {A} P (r : res io_error A) c : P c -> leaves P (lift r) c.
Proof. done. Qed.

Lemma leaves_modify P f c : P (f c) -> leaves P (modify f) c.
Proof. done. Qed.

Lemma leaves_bind {A B} P (m : M A) (f : A -> M B) c :
  leaves P m c -> (forall c' a, m c = (c', Ok a) -> leaves P (f a) c') -> leaves P (m ≫= f) c.
Proof.
  unfold leaves, mbind, M_bind. destruct (m c) as [c' [a|e|]] eqn:E; cbn; auto.
Qed.

(** After a pure step the state is the same and its value is known. *)
Lemma leaves_bind_lift {A B} P (r : res io_error A) (f : A -> M B) c :
  P c -> (forall a, r = Ok a -> leaves P (f a) c) -> leaves P (lift r ≫= f) c.
Proof. intros Hc Hf. unfold leaves, mbind, M_bind, lift. destruct r; cbn; [by apply Hf|done..]. Qed.

Lemma leaves_bind_get {B} P (f : Connection -> M B) c : leaves P (f c) c -> leaves P (get ≫= f) c.
Proof. done. Qed.

Lemma leaves_bind_modify {B} P g (f : unit -> M B) c : leaves P (f tt) (g c) -> leaves P (modify g ≫= f) c.
Proof. done. Qed.

(** A sequence that succeeded, step by step. *)
Lemma bind_ok {A B} (m : M A) (f : A -> M B) c c' b : (m ≫= f) c = (c', Ok b) ->
  exists c1 a, m c = (c1, Ok a) /\ f a c1 = (c', Ok b).
Proof. unfold mbind, M_bind. destruct (m c) as [c1 [a|e|]]; [by exists c1, a|done..]. Qed.

Lemma bind_lift_ok {A B} (r : res io_error A) (f : A -> M B) c c' b : (lift r ≫= f) c = (c', Ok b) ->
  exists a, r = Ok a /\ f a c = (c', Ok b).
Proof. unfold mbind, M_bind, lift. destruct r as [a|e|]; [by exists a|done..]. Qed.

Lemma bind_get_ok {B} (f : Connection -> M B) c x : (get ≫= f) c = x -> f c c = x.
Proof. done. Qed.

Lemma bind_modify_ok {B} g (f : unit -> M B) c x : (modify g ≫= f) c = x -> f tt (g c) = x.
Proof. done. Qed.

Lemma get_bind {B} (f : Connection -> M B) c : (get ≫= f) c = f c c.
Proof. done. Qed.

Lemma lift_bind {A B} (r : res io_error A) (f : A -> M B) c a : r = Ok a -> (lift r ≫= f) c = f a c.
Proof. by intros ->. Qed.

Lemma modify_bind {B} g (f : unit -> M B) c : (modify g ≫= f) c = f tt (g c).
Proof. done. Qed.

Lemma run_bind {A B} (m : M A) (f : A -> M B) c c' a : m c = (c', Ok a) -> (m ≫= f) c = f a c'.
Proof. unfold mbind, M_bind. by intros ->. Qed.

(** Runs the pure steps at the front of a computation that succeeded. *)
Ltac ran H :=
  repeat first
    [ apply bind_get_ok in H
    | apply bind_modify_ok in H
    | apply bind_lift_ok in H as (? & ? & H) ].
