(* ===== verification/RealityPeer.v ===== *)
(** * The other end of a REALITY handshake

    A server that answers a client hello the way the protocol says, built from
    the constructors of [RealityMessages.v], and instances of the interfaces of
    [Aead.v] and [RealityKeys.v] that can be computed with. The theorems about
    the client hold for any instance; these give them a peer to talk to. *)

From S2P Require Import Prelude RustStr NetAddr NetIo SlideBuffer Aead RealityRecords RealityKeys RealityMessages RealityClient.

(** What a server brings to a handshake: a private key and random bytes for it,
    the certificate and the signing function of its key. *)
Record Peer : Type := mkPeer {
  peer_key : bytes;
  peer_random : bytes;
  peer_session : bytes;
  peer_suite : CipherSuite;
  peer_der : bytes;
  peer_sign : bytes -> bytes
}.

Section Answer.
Context `{A : Aead} `{C : Crypto} (debug : bool).

Definition change_cipher_spec : bytes := of_zs [20; 3; 3; 0; 1; 1].

(** The four messages of the encrypted flight. *)
Definition flight (p : Peer) (secret hellos : bytes) : res io_error (list bytes) :=
  let hash := digest (suite_hash (peer_suite p)) in
  let certificate := [construct_encrypted_extensions; construct_certificate (peer_der p)] in
  let signed := certificate ++ [construct_certificate_verify (peer_sign p) (hash (hellos ++ concat certificate))] in
  verify_data ← compute_finished_verify_data (peer_suite p) secret (hash (hellos ++ concat signed));
  Ok (signed ++ [construct_finished verify_data]).

(** What the records of a flight hold: each so many of the messages as [cuts]
    says. A server may cut its flight between any two messages. *)
Fixpoint grouped (cuts : list nat) (messages : list bytes) : list bytes :=
  match cuts with
  | [] => []
  | n :: cuts => concat (take n messages) :: grouped cuts (drop n messages)
  end.

Fixpoint seal_records (k : AeadKey) (iv : bytes) (contents : list bytes) (s : Z * bytes) : res io_error (Z * bytes) :=
  match contents with
  | [] => Ok s
  | content :: contents => s ← encrypt_handshake debug k iv content s; seal_records k iv contents s
  end.

(** The key and the first nonce of a traffic secret. *)
Definition traffic (suite : CipherSuite) (secret : bytes) : res io_error (AeadKey * bytes) :=
  '(key, iv) ← derive_traffic_keys secret suite; k ← aead_key_new suite key; Ok (k, iv).

Definition server_hello (p : Peer) (public : bytes) : bytes :=
  construct_server_hello (peer_random p) (peer_session p) (suite_id (peer_suite p)) public.

(** The records of the answer to [hello], and the keys for what the server and
    the client send after the handshake. The flight is cut into records by [cuts]. *)
Definition answer (p : Peer) (cuts : list nat) (hello : bytes) : res io_error (bytes * ((AeadKey * bytes) * (AeadKey * bytes))) :=
  let suite := peer_suite p in
  public ← ok_or (x25519_public (peer_key p)) (IoOther "no public key");
  client_public ← extract_client_public_key (write_record_header CT_HANDSHAKE (Z.of_nat (length hello)) ++ hello);
  shared ← ok_or (x25519_agree (peer_key p) client_public) (IoOther "no agreement");
  let sh := server_hello p public in
  ks ← derive_handshake_keys suite shared (digest (suite_hash suite) (hello ++ sh));
  '(k, iv) ← traffic suite (server_handshake_traffic_secret ks);
  messages ← flight p (server_handshake_traffic_secret ks) (hello ++ sh);
  '(_, records) ← seal_records k iv (grouped cuts messages) (0, []);
  '(client_secret, server_secret) ←
    derive_application_secrets suite (master_secret ks) (digest (suite_hash suite) ((hello ++ sh) ++ concat messages));
  server_traffic ← traffic suite server_secret;
  client_traffic ← traffic suite client_secret;
  Ok ((write_record_header CT_HANDSHAKE (Z.of_nat (length sh)) ++ sh) ++ change_cipher_spec ++ records,
      (server_traffic, client_traffic)).
End Answer.

(** ** Instances to compute with *)

Definition toy_crypto : Crypto := {|
  hmac := fun h k m => toy_sum (output_len h) (k ++ m);
  digest := fun h m => toy_sum (output_len h) m;
  x25519_public := fun a => Some (be_bytes 32 (be_value a * 5));
  x25519_agree := fun a p => Some (be_bytes 32 (be_value a * be_value p));
  hmac_sha512 := fun k m => toy_sum 64 (k ++ m);
  hkdf_sha256 := fun salt secret info => toy_sum 32 (salt ++ secret ++ info);
  ed25519_verify := fun key content sig => bool_decide (sig = toy_sum 64 (key ++ content))
|}.

Lemma be_bytes_mod n z : be_bytes n (z mod 256 ^ Z.of_nat n) = be_bytes n z.
Proof. rewrite <- be_value_be_bytes. rewrite <- (length_be_bytes n z) at 1. apply be_bytes_be_value. Qed.

#[export] Instance toy_crypto_laws : CryptoLaws toy_crypto.
Proof.
  constructor; cbn -[be_bytes toy_sum].
  - intros. apply length_toy_sum.
  - intros. apply length_toy_sum.
  - intros a b pa pb <-%(inj Some) <-%(inj Some). f_equal. rewrite !be_value_be_bytes.
    rewrite <- (be_bytes_mod 32 (be_value a * _)), <- (be_bytes_mod 32 (be_value b * _)).
    rewrite !Z.mul_mod_idemp_r by done. do 2 f_equal. lia.
  - intros a p s <-%(inj Some). apply length_be_bytes.
  - intros a p <-%(inj Some). apply length_be_bytes.
  - intros. apply length_toy_sum.
Qed.

(** A certificate is its key and its signature. *)
Definition toy_x509 (der : bytes) : res str (bytes * bytes) :=
  if (length der =? 96)%nat then Ok (take 32 der, drop 32 der) else Err (lit "not a certificate").

Definition toy_private : bytes := be_bytes 32 12345.
Definition toy_random : bytes := be_bytes 32 678910.

(** A client configured with the public key of the server. *)
Definition toy_config : RealityClientConfig :=
  mkRealityConfig (be_bytes 32 (424242 * 5)) (be_bytes 8 7) (lit "example.com") [].

Definition toy_new (capacity : nat) : res io_error Connection :=
  let storage := replicate capacity (to_u8 0) in
  new (A := toy_aead) (C := toy_crypto) storage storage toy_config toy_private toy_random 1700000000.

Lemma toy_new_ok capacity : exists c, toy_new capacity = Ok c.
Proof.
  unfold toy_new, new. assert (match client_hello_for (A := toy_aead) (C := toy_crypto) toy_config toy_private toy_random 1700000000
                               with Ok _ => true | _ => false end = true) as H by (vm_compute; reflexivity).
  destruct (client_hello_for _ _ _ _) as [[hello k]| |]; [by eexists|discriminate H..].
Qed.

(** The server's certificate is signed with the key agreed on. *)
Definition toy_peer : Peer :=
  let key := be_bytes 32 31337 in
  let shared := be_bytes 32 (12345 * (424242 * 5)) in
  let auth_key := derive_auth_key (C := toy_crypto) shared (slice 0 20 toy_random) "REALITY" in
  mkPeer (be_bytes 32 99) (be_bytes 32 5555) (be_bytes 32 1) AES_128_GCM_SHA256
    (key ++ hmac_sha512 (Crypto := toy_crypto) auth_key key) (fun content => toy_sum 64 (key ++ content)).

(** What the server sends to that client, its flight in one record. *)
Definition toy_wire : bytes :=
  match toy_new 0 with
  | Ok c => match answer (A := toy_aead) (C := toy_crypto) true toy_peer [4]%nat (drop 5 (ciphertext_write_buf c)) with
            | Ok (wire, _) => wire
            | _ => []
            end
  | _ => []
  end.
