(* ===== verification/RealityAuth.v ===== *)
(** * Who a REALITY connection talks to

    The invariant of a connection of [RealityClient.v]: whatever bytes arrive and
    whatever is called, no application data is handed out before a certificate
    has been seen whose code was made with the key that only the owner of the
    configured public key can derive, and a signature by its key over the
    transcript. *)

From S2P Require Import Prelude RustStr NetAddr NetIo SlideBuffer VisionFilter Aead RealityRecords RealityKeys.
From S2P Require Import RealityMessages RealityClient RealityPeer.

Section Auth.
Context `{A : Aead} `{C : Crypto} (x509 : bytes -> res str (bytes * bytes)) (debug : bool).

(** ** Evidence *)

(** A message of a type stands at an offset. *)
Definition message_at (plain : bytes) (offset : nat) (ty : Z) (message : bytes) : Prop :=
  exists payload post, message = handshake_message ty payload /\ plain = take offset plain ++ message ++ post
                       /\ (offset <= length plain)%nat.

(** A certificate in [plain] whose code is right under the authentication key
    certifies [key]. *)
Definition certified (auth_key plain key : bytes) : Prop :=
  exists offset message der,
    message_at plain offset HS_CERTIFICATE message
    /\ extract_certificate_der message = Ok der
    /\ verify_certificate_hmac x509 der auth_key = Ok tt
    /\ extract_ed25519_public_key x509 der = Ok key.

(** [key] signed the transcript that precedes a message of [plain]. *)
Definition signed (suite : CipherSuite) (transcript plain key : bytes) : Prop :=
  exists offset message signature,
    message_at plain offset HS_CERTIFICATE_VERIFY message
    /\ extract_certificate_verify_signature message = Ok signature
    /\ ed25519_verify key (signed_content (digest (suite_hash suite) (transcript ++ take offset plain))) signature = true.

Definition evidence (auth_key hello : bytes) : Prop :=
  exists suite server_hello plain key,
    certified auth_key plain key /\ signed suite (hello ++ server_hello) plain key.

(** *** What a scan has found is there *)

Definition scan_sound (auth_key plain : bytes) (s : Scan) : Prop :=
  (sc_verified s = true -> exists key, sc_key s = Some key)
  /\ (forall key, sc_key s = Some key -> certified auth_key plain key)
  /\ (forall o, sc_cv s = Some o -> exists m, message_at plain o HS_CERTIFICATE_VERIFY m).

Lemma message_at_app plain more o ty m : message_at plain o ty m -> message_at (plain ++ more) o ty m.
Proof.
  intros (payload & post & Hm & Hp & Ho). exists payload, (post ++ more). repeat split; [done| |rewrite length_app; lia].
  rewrite take_app_le by done. rewrite Hp at 1. by rewrite <- !app_assoc.
Qed.

Lemma scan_sound_app auth_key plain more s : scan_sound auth_key plain s -> scan_sound auth_key (plain ++ more) s.
Proof.
  intros (Hv & Hk & Hc). repeat split; [done| |].
  - intros key H. destruct (Hk key H) as (o & m & der & Hm & ?). exists o, m, der. split; [by apply message_at_app|done].
  - intros o H. destruct (Hc o H) as [m Hm]. exists m. by apply message_at_app.
Qed.

(** The bytes a scan reads as a message are one. *)
Lemma message_read plain offset b z m :
  index (E := io_error) plain offset = Ok b -> index_be24 plain (offset + 1) = Ok z ->
  sub_slice (E := io_error) offset (offset + 4 + Z.to_nat z) plain = Ok m -> message_at plain offset (val8 b) m.
Proof.
  unfold index_be24, index, sub_slice, unwrap. intros Hb Hz Hm.
  destruct (plain !! offset) as [b0|] eqn:Eb; [|done]. apply Ok_inj in Hb as ->.
  cbn [mbind res_bind] in Hz. destruct (plain !! (offset + 1)%nat) as [x|] eqn:Ex; [|done]. cbn [mbind res_bind] in Hz.
  destruct (plain !! (offset + 1 + 1)%nat) as [y|] eqn:Ey; [|done]. cbn [mbind res_bind] in Hz.
  destruct (plain !! (offset + 1 + 2)%nat) as [w|] eqn:Ew; [|done]. apply Ok_inj in Hz.
  destruct (_ && _) eqn:Hle; [|done]. apply andb_prop in Hle as [_ Hle%Nat.leb_le]. apply Ok_inj in Hm.
  pose proof (be_value_range [x; y; w]) as Hr. rewrite Hz in Hr. destruct Hr as [Hr _].
  unfold slice in Hm. replace (offset + 4 + Z.to_nat z - offset)%nat with (4 + Z.to_nat z)%nat in Hm by lia.
  assert (drop offset plain = b :: x :: y :: w :: drop (offset + 4) plain) as Hd.
  { rewrite (drop_S _ b) by done. f_equal. rewrite (drop_S _ x) by (rewrite <- Ex; f_equal; lia). f_equal.
    rewrite (drop_S _ y) by (rewrite <- Ey; f_equal; lia). f_equal.
    rewrite (drop_S _ w) by (rewrite <- Ew; f_equal; lia). f_equal. f_equal. lia. }
  exists (take (Z.to_nat z) (drop (offset + 4) plain)), (drop (4 + Z.to_nat z) (drop offset plain)). split; [|split; [|lia]].
  - rewrite <- Hm, Hd. cbn [take Nat.add]. unfold handshake_message, len24.
    rewrite length_take, length_drop, Nat.min_l, Z2Nat.id by lia. rewrite <- Hz.
    change 3%nat with (length [x; y; w]). by rewrite be_bytes_be_value, to_u8_val8.
  - rewrite <- Hm, take_drop. by rewrite take_drop.
Qed.

Lemma scan_messages_sound n : forall plain auth_key offset s s',
  scan_sound auth_key plain s -> scan_messages x509 n plain auth_key offset s = Ok s' -> scan_sound auth_key plain s'.
Proof.
  induction n as [|n IH]; intros plain auth_key offset s s' Hs; cbn [scan_messages]; [by intros [= <-]|].
  destruct (_ <=? _)%nat; [by intros [= <-]|]. destruct (length plain <? offset + 4)%nat; [by intros [= <-]|].
  destruct (index plain offset) as [b| |] eqn:Eb; [|done..]. cbn [mbind res_bind].
  destruct (index_be24 plain (offset + 1)) as [z| |] eqn:Ez; [|done..]. cbn [mbind res_bind].
  destruct (Nat.ltb_spec (length plain) (offset + 4 + Z.to_nat z)); [by intros [= <-]|].
  assert (exists m, sub_slice (E := io_error) offset (offset + 4 + Z.to_nat z) plain = Ok m) as [m Em].
  { unfold sub_slice. rewrite (proj2 (Nat.leb_le _ _)), (proj2 (Nat.leb_le _ _)) by lia. by eexists. }
  pose proof (message_read _ _ _ _ _ Eb Ez Em) as Hmsg.
  rewrite Em. cbn [mbind res_bind].
  intros H'. destruct (val8 b =? HS_CERTIFICATE) eqn:Et.
  - apply Z.eqb_eq in Et. rewrite Et in *.
    destruct (extract_certificate_der m) as [der| |] eqn:Ed; [|done..]. cbn [mbind res_bind] in H'.
    destruct (verify_certificate_hmac x509 der auth_key) as [[]| |] eqn:Ev; [|done..]. cbn [mbind res_bind] in H'.
    destruct (extract_ed25519_public_key x509 der) as [key| |] eqn:Ek; [|done..]. cbn [mbind res_bind] in H'.
    change (HS_CERTIFICATE =? HS_CERTIFICATE_VERIFY) with false in H'. cbn [sc_found sc_verified sc_key sc_cv] in H'.
    eapply IH, H'. destruct Hs as (_ & _ & Hc). repeat split; cbn [sc_verified sc_key sc_cv]; [by eexists| |exact Hc].
    intros k [= <-]. by exists offset, m, der.
  - cbn [mbind res_bind] in H'. eapply IH, H'. destruct Hs as (Hv & Hk & Hc).
    destruct (val8 b =? HS_CERTIFICATE_VERIFY) eqn:Et2; (repeat split; cbn [sc_verified sc_key sc_cv]; try done).
    apply Z.eqb_eq in Et2. rewrite Et2 in Hmsg. intros o [= <-]. by exists m.
Qed.

(** The signature that was checked is the one of the message found. *)
Lemma checked_signed suite transcript plain s key : sc_key s = Some key ->
  (forall o, sc_cv s = Some o -> exists m, message_at plain o HS_CERTIFICATE_VERIFY m) ->
  check_certificate_verify suite transcript plain s = Ok tt -> signed suite transcript plain key.
Proof.
  intros Hk Hc. unfold check_certificate_verify. rewrite Hk. destruct (sc_cv s) as [o|]; [|done].
  destruct (Hc o eq_refl) as (m0 & payload & post & Hm0 & Hp & Ho).
  destruct (sub_slice 0 o plain) as [before| |] eqn:Eb; [|done..]. cbn [mbind res_bind].
  destruct (index_be24 plain (o + 1)) as [z| |] eqn:Ez; [|done..]. cbn [mbind res_bind].
  destruct (sub_slice o (o + 4 + Z.to_nat z) plain) as [m| |] eqn:Em; [|done..]. cbn [mbind res_bind].
  destruct (extract_certificate_verify_signature m) as [sg| |] eqn:Es; [|done..]. cbn [mbind res_bind].
  unfold verify_certificate_verify_signature. destruct (negb _); [done|].
  destruct (ed25519_verify _ _ _) eqn:Ev; [|done]. intros _.
  assert (before = take o plain) as ->.
  { unfold sub_slice, slice in Eb. destruct (_ && _); [|done]. apply Ok_inj in Eb. by rewrite <- Eb, drop_0, Nat.sub_0_r. }
  assert (index (E := io_error) plain o = Ok (to_u8 HS_CERTIFICATE_VERIFY)) as Hi.
  { unfold index. rewrite Hp, Hm0, lookup_app_r by (rewrite length_take; lia). rewrite length_take.
    replace (o - Nat.min o (length plain))%nat with 0%nat by lia. done. }
  exists o, m, sg. split; [|done]. exact (message_read plain o _ z m Hi Ez Em).
Qed.

(** ** The invariant *)

Context (auth_key hello : bytes).

(** What is known in each state of the handshake; while it lasts no plaintext is
    there to read, and no key to read any with. *)
Definition state_ok (c : Connection) : Prop :=
  match handshake_state c with
  | AwaitingServerHello h _ k => h = hello /\ k = auth_key
  | ProcessingHandshake p =>
      hs_auth_key p = auth_key /\ (exists server_hello, transcript_bytes p = hello ++ server_hello)
      /\ scan_sound auth_key (accumulated_plaintext p)
           (mkScan (messages_found p) (certificate_verified p) (ed25519_public_key p) (cert_verify_offset p))
  | Complete => evidence auth_key hello
  end.

Definition auth_inv (c : Connection) : Prop :=
  state_ok c /\ (is_handshaking c = true -> sb_len (plaintext_read_buf c) = 0%nat /\ app_read c = None).

Ltac method :=
  repeat first
    [ apply leaves_ret | apply leaves_lift | apply leaves_modify
    | apply leaves_bind_get | apply leaves_bind_modify
    | apply leaves_bind_lift; [|let H := fresh "Hr" in intros ? H] ].

Lemma consume_cin_leaves n c : auth_inv c -> leaves auth_inv (consume_cin debug n) c.
Proof. intros Hc. unfold consume_cin. by method. Qed.

Lemma consume_cin_state n c c' a : consume_cin debug n c = (c', a) -> exists b, c' = set_cin b c.
Proof.
  unfold consume_cin, mbind, M_bind, get, lift, modify. destruct (sb_consume _ _ _); intros [= <- <-]; [by eexists|..];
    exists (ciphertext_read_buf c); by destruct c.
Qed.

Lemma server_hello_leaves c h sk k : auth_inv c -> handshake_state c = AwaitingServerHello h sk k ->
  leaves auth_inv (process_server_hello debug h sk k) c.
Proof.
  intros Hc Hs. unfold process_server_hello. method; [done|]. destruct a as [record_len|]; [|by method].
  method; [done|]. apply leaves_bind; [by apply consume_cin_leaves|]. intros c1 [] H1.
  apply consume_cin_state in H1 as [b ->]. method; try done.
  destruct Hc as [Ho Hp]. unfold state_ok in Ho. unfold is_handshaking in Hp. rewrite Hs in *. destruct Ho as [-> ->].
  split; [|by intros _; apply Hp]. cbn. split; [done|]. split; [by eexists|]. by repeat split.
Qed.

Lemma handshake_record_leaves c p : auth_inv c -> handshake_state c = ProcessingHandshake p ->
  leaves auth_inv (handshake_record x509 debug p) c.
Proof.
  intros Hc Hs. pose proof Hc as [Ho Hp]. unfold state_ok in Ho. unfold is_handshaking in Hp. rewrite Hs in *.
  specialize (Hp eq_refl). destruct Ho as (Hk & [sh Ht] & Hsound).
  - unfold handshake_record. method; [done|]. destruct a as [key iv]. method; [done|].
    destruct a as [record_len|]; [|by method]. method; [done|].
    destruct (_ =? CT_CHANGE_CIPHER_SPEC).
    { apply leaves_bind; [by apply consume_cin_leaves|]. intros c1 [] H1. apply consume_cin_state in H1 as [b ->]. by method. }
    destruct (negb _); [by method|]. method; [done|].
    apply leaves_bind; [by apply consume_cin_leaves|]. intros c1 [] H1. apply consume_cin_state in H1 as [b ->].
    method; try done.
    match goal with H : scan_messages _ _ (_ ++ ?x) _ _ _ = Ok ?y |- _ => rename H into Hscan; rename x into more; rename y into s end.
    assert (scan_sound auth_key (accumulated_plaintext p ++ more) s) as Hs'.
    { rewrite Hk in Hscan. eapply scan_messages_sound, Hscan. by apply scan_sound_app. }
    destruct (sc_found s <? 4)%nat.
    { method. split; [|done]. cbn. split; [done|]. split; [by eexists|]. destruct s. exact Hs'. }
    destruct (sc_verified s) eqn:Ev; cbn [negb]; [|by method]. method; try done.
    match goal with H : check_certificate_verify _ _ _ _ = Ok ?x |- _ => destruct x; rename H into Hcheck end.
    match goal with x : bytes * _ |- _ => destruct x as [out [rd wr]] end. method.
    split; [|done]. destruct Hs' as (Hv & Hkey & Hcv). destruct (Hv Ev) as [pk Ek].
    unfold state_ok. cbn. exists (hs_cipher_suite p), sh, (accumulated_plaintext p ++ more), pk. split; [by apply Hkey|].
    rewrite <- Ht. by eapply checked_signed.
Qed.

(** Only a ChangeCipherSpec makes the code start over, and it takes a record. *)
Lemma handshake_record_again c p c' : handshake_record x509 debug p c = (c', Ok None) ->
  exists n, front_record (ciphertext_read_buf c) = Ok (Some n)
    /\ consume_cin debug (TLS_RECORD_HEADER_SIZE + n) c = (c', Ok tt).
Proof.
  unfold handshake_record. intros H. ran H. destruct x as [key iv]. ran H. destruct x as [n|]; [|done].
  exists n. split; [done|]. ran H. destruct (_ =? CT_CHANGE_CIPHER_SPEC).
  - apply bind_ok in H as (c1 & [] & Hc1 & H). by injection H as ->.
  - destruct (negb _); [done|]. ran H. apply bind_ok in H as (c1 & [] & Hc1 & H). ran H.
    destruct (_ <? 4)%nat; [by ran H|]. destruct (negb _); [done|]. ran H.
    match goal with x : bytes * _ |- _ => destruct x as [out [rd wr]] end. by ran H.
Qed.

Lemma encrypted_handshake_leaves fuel : forall c p, auth_inv c -> handshake_state c = ProcessingHandshake p ->
  leaves auth_inv (process_encrypted_handshake x509 debug fuel p) c.
Proof.
  induction fuel as [|fuel IH]; intros c p Hc Hs; cbn [process_encrypted_handshake]; [done|].
  apply leaves_bind; [by apply handshake_record_leaves|]. intros c1 [more|] H1; [|].
  - pose proof (handshake_record_leaves c p Hc Hs) as Hl. unfold leaves in Hl. rewrite H1 in Hl. exact Hl.
  - pose proof (handshake_record_leaves c p Hc Hs) as Hl. unfold leaves in Hl. rewrite H1 in Hl.
    apply handshake_record_again in H1 as (n & _ & H1). apply consume_cin_state in H1 as [b ->]. by apply IH.
Qed.

(** After the handshake nothing changes its state. *)
Lemma complete_inv c c' : auth_inv c -> handshake_state c = Complete -> handshake_state c' = Complete -> auth_inv c'.
Proof.
  intros [Ho _] Hs Hs'. unfold auth_inv, state_ok, is_handshaking in *. rewrite Hs in Ho. rewrite Hs'. done.
Qed.

Definition stays_complete (c : Connection) : Prop := handshake_state c = Complete.

Lemma application_record_leaves key iv c : stays_complete c -> leaves stays_complete (application_record debug key iv) c.
Proof.
  intros Hc. assert (forall n c, stays_complete c -> leaves stays_complete (consume_cin debug n) c) as Hcons.
  { clear. intros n c Hc. unfold consume_cin. by method. }
  assert (forall n (b : bool) c, stays_complete c -> leaves stays_complete (_ ← consume_cin debug n; mret b) c) as Hthen.
  { clear -Hcons. intros n b c Hc. apply leaves_bind; [by apply Hcons|]. intros c1 [] H1. apply consume_cin_state in H1 as [? ->]. by method. }
  unfold application_record. method; [done|]. destruct a as [n|]; [|by method]. method; [done|].
  destruct (decrypt_record _ _ _ _ _) as [seq opened]. method; [done|]. destruct a0 as [ty plain].
  destruct (ty =? CT_APPLICATION_DATA); [method; [done|by apply Hthen]|].
  destruct (ty =? CT_ALERT); [|by method].
  destruct (2 <=? length plain)%nat; [|by apply Hthen]. method; [done..|].
  destruct (_ =? ALERT_DESC_CLOSE_NOTIFY); [by method|]. destruct (negb _); [by method|by apply Hthen].
Qed.

Lemma application_records_leaves key iv fuel : forall c, stays_complete c -> leaves stays_complete (application_records debug fuel key iv) c.
Proof.
  induction fuel as [|fuel IH]; intros c Hc; cbn [application_records]; [done|].
  apply leaves_bind; [by apply application_record_leaves|]. intros c1 more H1.
  pose proof (application_record_leaves key iv c Hc) as H. unfold leaves in H. rewrite H1 in H. destruct more; [by apply IH|done].
Qed.

Lemma process_packets_leaves fuel : forall c, auth_inv c -> leaves auth_inv (process_packets x509 debug fuel) c.
Proof.
  induction fuel as [|fuel IH]; intros c Hc; cbn [process_packets]; [done|]. method.
  assert (forall c, auth_inv c -> leaves auth_inv (c ← get; mret (sb_len (plaintext_read_buf c))) c) as Hav by (intros; by method).
  destruct (handshake_state c) as [h sk k|p|] eqn:Hs.
  - apply leaves_bind; [by apply server_hello_leaves|]. intros c1 more H1.
    pose proof (server_hello_leaves c h sk k Hc Hs) as H. unfold leaves in H. rewrite H1 in H. destruct more; [by apply IH|by apply Hav].
  - apply leaves_bind; [by apply encrypted_handshake_leaves|]. intros c1 more H1.
    pose proof (encrypted_handshake_leaves (S (sb_len (ciphertext_read_buf c))) c p Hc Hs) as H. unfold leaves in H. rewrite H1 in H.
    destruct more; [by apply IH|by apply Hav].
  - assert (leaves stays_complete (process_application_data debug) c) as Happ.
    { unfold process_application_data. method. destruct (app_read c) as [[key iv]|]; [by apply application_records_leaves|by method]. }
    apply leaves_bind; [by apply (complete_inv c)|]. intros c1 [] H1. unfold leaves in Happ. rewrite H1 in Happ.
    apply Hav. by apply (complete_inv c).
Qed.

Lemma process_new_packets_leaves c : auth_inv c -> leaves auth_inv (process_new_packets x509 debug) c.
Proof.
  intros Hc. unfold process_new_packets. method. destruct (fatal_error c); [by method|].
  destruct (received_close_notify c); [by method|]. unfold leaves.
  pose proof (process_packets_leaves (S (S (sb_len (ciphertext_read_buf c)))) c Hc) as H. unfold leaves in H.
  destruct (process_packets _ _ _ c) as [c1 [n|e|]]; [done| |done]. cbn in *. by destruct (lasting_error e).
Qed.

(** An empty buffer stays empty. *)
Lemma empty_compacts b n : sb_len b = 0%nat -> sb_len (maybe_compact b n) = 0%nat.
Proof.
  unfold maybe_compact, compact, sb_len. intros H. destruct (_ <? _)%nat; [|done].
  destruct (Nat.ltb_spec (sb_start b) (sb_end b)); [lia|]. rewrite andb_false_r.
  destruct (_ <=? _)%nat; cbn; lia.
Qed.

Lemma read_tls_leaves data c : auth_inv c -> leaves auth_inv (read_tls debug data) c.
Proof.
  intros Hc. unfold read_tls. method. destruct (0 <? _)%nat; [|by method]. by method.
Qed.

Lemma feed_leaves fuel : forall data c, auth_inv c -> leaves auth_inv (feed_fuel debug fuel data) c.
Proof.
  induction fuel as [|fuel IH]; intros data c Hc; cbn [feed_fuel]; destruct (is_nil data); try done.
  apply leaves_bind; [by apply read_tls_leaves|]. intros c1 n H1. pose proof (read_tls_leaves data c Hc) as H.
  unfold leaves in H. rewrite H1 in H. by apply IH.
Qed.

(** While the handshake lasts there is nothing to read. *)
Lemma read_plaintext_leaves n c : auth_inv c -> leaves auth_inv (read_plaintext debug n) c
  /\ (forall c' d, read_plaintext debug n c = (c', Ok d) -> d <> [] -> evidence auth_key hello).
Proof.
  intros Hc. destruct (handshake_state c) eqn:Hs.
  3: { split; [|intros; destruct Hc as [Ho _]; unfold state_ok in Ho; by rewrite Hs in Ho].
       apply (complete_inv c); [done..|]. unfold read_plaintext, mbind, M_bind, get, modify, lift.
       destruct (0 <? _)%nat; [|done]. destruct (sb_index_to _ _); [|done..]. by destruct (sb_consume _ _ _). }
  all: assert (sb_len (plaintext_read_buf c) = 0%nat /\ app_read c = None) as [Hl Ha]
         by (destruct Hc as [_ Hp]; apply Hp; unfold is_handshaking; by rewrite Hs).
  all: unfold leaves, read_plaintext, mbind, M_bind, get, modify, lift, mret, M_ret; rewrite (empty_compacts _ _ Hl), Nat.min_0_r; cbn.
  all: split; [|by intros ? ? [= <- <-]].
  all: destruct Hc as [Ho _]; split; [exact Ho|]; intros _; cbn; split; [by apply empty_compacts|done].
Qed.

Lemma reader_consume_leaves n c : auth_inv c -> leaves auth_inv (reader_consume debug n) c.
Proof.
  intros Hc. unfold reader_consume. method; [done|]. destruct Hc as [Ho Hp]. split; [exact Ho|]. intros Hh. destruct (Hp Hh) as [Hl Ha].
  split; [|done]. cbn. match goal with H : sb_consume _ _ _ = Ok _ |- _ => revert H end. rewrite Hl, Nat.min_0_r.
  unfold sb_consume, debug_assert. destruct (debug && _); [done|]. cbn. intros [= <-]. unfold sb_len in *.
  destruct (Nat.leb_spec (sb_end (plaintext_read_buf c)) (sb_start (plaintext_read_buf c) + 0)); cbn; lia.
Qed.

Lemma fill_buf_evidence c d : auth_inv c -> fill_buf c = Ok (Some d) -> d <> [] -> evidence auth_key hello.
Proof.
  intros [Ho Hp] Hf Hd. unfold state_ok, is_handshaking in *. destruct (handshake_state c); [..|exact Ho].
  all: destruct (Hp eq_refl) as [Hl _]; revert Hf; unfold fill_buf, sb_is_empty, sb_len in *.
  all: rewrite (proj2 (Nat.leb_le _ _)) by lia; cbn; destruct (received_close_notify c); by intros [= <-].
Qed.

(** ** Any sequence of calls *)

Inductive ClientCall : Type :=
| CallFeed (data : bytes) | CallProcess | CallRead (n : nat) | CallFillBuf | CallConsume (n : nat)
| CallWrite (buf : bytes) | CallWriteTls (wr : bytes -> res io_error nat) | CallCloseNotify.

(** A call, with the plaintext it hands out. *)
Definition client_call (x : ClientCall) : M bytes :=
  match x with
  | CallFeed data => _ ← feed_reality_client_connection debug data; mret []
  | CallProcess => _ ← process_new_packets x509 debug; mret []
  | CallRead n => read_plaintext debug n
  | CallFillBuf => c ← get; d ← lift (fill_buf c); mret (default [] d)
  | CallConsume n => _ ← reader_consume debug n; mret []
  | CallWrite buf => _ ← write_plaintext buf; mret []
  | CallWriteTls wr => _ ← write_tls debug wr; mret []
  | CallCloseNotify => _ ← send_close_notify debug; mret []
  end.

(** Calls after one another: an error leaves the connection to be called again, a
    panic ends its task. *)
Fixpoint client_calls (xs : list ClientCall) (c : Connection) : Connection * bytes :=
  match xs with
  | [] => (c, [])
  | x :: xs =>
      match client_call x c with
      | (c, Ok d) => let '(c, ds) := client_calls xs c in (c, d ++ ds)
      | (c, Err _) => client_calls xs c
      | (c, Panic) => (c, [])
      end
  end.

Lemma write_tls_leaves wr c : auth_inv c -> leaves auth_inv (write_tls debug wr) c.
Proof.
  intros Hc. unfold write_tls. method. apply leaves_bind.
  - destruct (handshake_state c); [done..|]. destruct (is_nil _); [done|]. destruct (app_write c) as [[key iv]|]; [|done].
    method; [done|]. by destruct a as [seq out].
  - intros c1 [] H1. assert (auth_inv c1) as Hc1.
    { revert H1. unfold mbind, M_bind, lift, modify, mret, M_ret. destruct (handshake_state c); try by intros [= <-].
      destruct (is_nil _); [by intros [= <-]|]. destruct (app_write c) as [[key iv]|]; [|done].
      destruct (encrypt_app_data _ _ _ _ _) as [[seq out]| |]; by intros [= <-]. }
    clear H1. method; try done.
Qed.

Lemma close_notify_leaves c : auth_inv c -> leaves auth_inv (send_close_notify debug) c.
Proof.
  intros Hc. unfold send_close_notify. method. destruct (handshake_state c); [by method..|].
  destruct (app_write c) as [[key iv]|]; [|by method]. destruct (encrypt_close_notify _ _ _ _) as [[seq out]| |]; by method.
Qed.

Lemma client_call_leaves x c : auth_inv c -> leaves auth_inv (client_call x) c
  /\ (forall c' d, client_call x c = (c', Ok d) -> d <> [] -> evidence auth_key hello).
Proof.
  intros Hc.
  assert (forall (m : M unit) c, leaves auth_inv m c -> leaves auth_inv (_ ← m; mret ([] : bytes)) c) as Hu.
  { intros m c1 H. apply leaves_bind; [done|]. intros c2 [] H2. unfold leaves in H. by rewrite H2 in H. }
  assert (forall B (m : M B) c c' (d : bytes), (_ ← m; mret ([] : bytes)) c = (c', Ok d) -> d = []) as Hn.
  { intros B m c1 c' d H. apply bind_ok in H as (? & ? & _ & H). by injection H. }
  destruct x; cbn [client_call]; try (split; [|by intros c' d H%Hn]).
  - apply Hu. by apply feed_leaves.
  - apply leaves_bind; [by apply process_new_packets_leaves|]. intros c1 n H1.
    pose proof (process_new_packets_leaves c Hc) as H. unfold leaves in H. by rewrite H1 in H.
  - by apply read_plaintext_leaves.
  - split; [by method|]. intros c' d H Hd. ran H. injection H as <- <-.
    match goal with x : option bytes |- _ => destruct x as [d|]; [|done] end. by eapply fill_buf_evidence.
  - apply Hu. by apply reader_consume_leaves.
  - apply leaves_bind; [by unfold write_plaintext; method|]. by intros c1 n [= <- <-].
  - apply leaves_bind; [by apply write_tls_leaves|]. intros c1 n H1.
    pose proof (write_tls_leaves wr c Hc) as H. unfold leaves in H. by rewrite H1 in H.
  - apply Hu. by apply close_notify_leaves.
Qed.

Lemma client_calls_inv xs : forall c c' d, auth_inv c -> client_calls xs c = (c', d) ->
  auth_inv c' /\ (d <> [] -> evidence auth_key hello).
Proof.
  induction xs as [|x xs IH]; intros c c' d Hc; cbn [client_calls]; [by intros [= <- <-]|].
  destruct (client_call_leaves x c Hc) as [Hl He]. unfold leaves in Hl.
  destruct (client_call x c) as [c1 [d1|e|]]; cbn [fst] in Hl.
  - destruct (client_calls xs c1) as [c2 d2] eqn:E. intros [= <- <-]. destruct (IH c1 c2 d2 Hl E) as [H2 H3]. split; [done|].
    intros Hd. destruct d1 as [|b d1]; [by apply H3|]. by eapply He.
  - by apply IH.
  - by intros [= <- <-].
Qed.
End Auth.

Section Authenticated.
Context `{A : Aead} `{C : Crypto} (x509 : bytes -> res str (bytes * bytes)) (debug : bool).

(** C3. The server is authenticated before anything is believed of it: whatever
    bytes arrive and in whatever order the methods are called, if the handshake
    is ever complete, or a byte of plaintext is ever handed out, then the
    decrypted flight held a certificate with the authentication code under the
    key agreed with the configured public key, and a signature by that
    certificate's key over a transcript that starts with the hello that was
    sent. *)
Theorem server_is_authenticated (storage_in storage_plain : bytes) (cfg : RealityClientConfig) (private_key random : bytes)
    (timestamp : Z) (c0 c : Connection) (xs : list ClientCall) (data : bytes)
    (Hnew : new storage_in storage_plain cfg private_key random timestamp = Ok c0)
    (Hrun : client_calls x509 debug xs c0 = (c, data))
    (Hdone : is_handshaking c = false \/ data <> []) :
  exists shared hello,
    perform_ecdh private_key (rc_public_key cfg) = Some shared
    /\ ciphertext_write_buf c0 = write_record_header CT_HANDSHAKE (Z.of_nat (length hello)) ++ hello
    /\ evidence x509 (derive_auth_key shared (slice 0 20 random) "REALITY") hello.
Proof.
  unfold new in Hnew. destruct (client_hello_for cfg private_key random timestamp) as [[hello k]| |] eqn:Eh; [|done..].
  cbn in Hnew. injection Hnew as <-.
  unfold client_hello_for in Eh. destruct (x25519_public private_key) as [pk|]; [|done]. cbn [ok_or mbind res_bind] in Eh.
  destruct (perform_ecdh private_key (rc_public_key cfg)) as [shared|]; [|done]. cbn [ok_or mbind res_bind] in Eh.
  destruct (encrypt_session_id _ _ _ _) as [id|]; [|done]. cbn [ok_or mbind res_bind] in Eh.
  apply Ok_inj, pair_equal_spec in Eh as [_ <-].
  exists shared, hello. split; [done|]. split; [done|].
  edestruct (client_calls_inv x509 debug (derive_auth_key shared (slice 0 20 random) "REALITY") hello xs) as [[Ho _] He]; [|exact Hrun|].
  - split; [split; reflexivity|]. by intros _.
  - destruct Hdone as [Hd|Hd]; [|by apply He].
    unfold state_ok, is_handshaking in *. by destruct (handshake_state c).
Qed.
End Authenticated.

(** A handshake with a server that is what it should be. *)
Lemma server_is_authenticated_witness :
  let calls := [CallFeed toy_wire; CallProcess] in
  exists c0 c data, toy_new 600 = Ok c0 /\ client_calls (A := toy_aead) (C := toy_crypto) toy_x509 true calls c0 = (c, data)
    /\ is_handshaking c = false
    /\ exists shared hello,
         perform_ecdh (C := toy_crypto) toy_private (rc_public_key toy_config) = Some shared
         /\ ciphertext_write_buf c0 = write_record_header CT_HANDSHAKE (Z.of_nat (length hello)) ++ hello
         /\ evidence (C := toy_crypto) toy_x509 (derive_auth_key (C := toy_crypto) shared (slice 0 20 toy_random) "REALITY") hello.
Proof.
  intros calls.
  assert (match toy_new 600 with
          | Ok c0 => is_handshaking (fst (client_calls (A := toy_aead) (C := toy_crypto) toy_x509 true calls c0))
          | _ => true
          end = false) as Hrun by (vm_compute; reflexivity).
  destruct (toy_new 600) as [c0| |] eqn:Hnew; [|discriminate..].
  destruct (client_calls toy_x509 true calls c0) as [c data] eqn:Hc.
  exists c0, c, data. split; [reflexivity|]. split; [exact Hc|]. split; [exact Hrun|].
  exact (server_is_authenticated (A := toy_aead) (C := toy_crypto) toy_x509 true _ _ _ _ _ _ c0 c calls data Hnew Hc (or_introl Hrun)).
Defined.
