(* ===== verification/RealityData.v ===== *)
(** * Application data over a REALITY connection

    The loops of [RealityClient.v] have fuel enough; what the other end encrypts
    is read whatever the chunks it arrives in; and the inputs on which the
    client panics. *)

From S2P Require Import Prelude RustStr NetAddr NetIo SlideBuffer VisionFilter Aead RealityRecords RealityKeys.
From S2P Require Import RealityMessages RealityClient.

(** ** The record at the front of a buffer *)

Definition front_of (l : bytes) : option nat :=
  if (length l <? TLS_RECORD_HEADER_SIZE)%nat then None
  else let n := Z.to_nat (be_value (slice 3 5 l)) in
       if (length l <? TLS_RECORD_HEADER_SIZE + n)%nat then None else Some n.

Lemma number_bytes_value v l : number_bytes v = l -> length l = 2%nat ->
  exists z, v = Some z /\ (0 <= z < 65536 -> z = be_value l).
Proof.
  destruct v as [z|]; cbn [number_bytes from_option]; [|by intros <-]. intros H _. exists z. split; [done|].
  intros Hz. rewrite <- H. symmetry. by apply be_value_be_bytes_small.
Qed.

Lemma get_u16_be_range b o z : get_u16_be b o = Ok (Some z) -> 0 <= z < 65536.
Proof.
  unfold get_u16_be, index_be16. destruct (_ <=? _)%nat; [|done].
  destruct (index _ (sb_start b + o)%nat) as [x| |]; cbn [mbind res_bind]; [|done..].
  destruct (index _ (S _)) as [y| |]; cbn [mbind res_bind]; [|done..]. intros H. apply Ok_inj, (inj Some) in H. rewrite <- H. apply (be_value_range [x; y]).
Qed.

Lemma front_record_ok capacity b q : stands_for capacity b q -> front_record b = Ok (front_of (q_bytes q)).
Proof.
  intros Hs. destruct (stands_for_len capacity b q Hs) as (Hl & _ & _). unfold front_record, front_of. rewrite Hl.
  destruct (Nat.ltb_spec (length (q_bytes q)) TLS_RECORD_HEADER_SIZE) as [|H5]; [done|]. unfold TLS_RECORD_HEADER_SIZE in H5.
  destruct (u16_ok capacity b q 3 Hs) as (v & Hv & Hn). rewrite Hv. cbn [mbind res_bind].
  rewrite (proj2 (Nat.leb_le _ _)) in Hn by lia.
  destruct (number_bytes_value v _ Hn) as (z & -> & Hz); [rewrite slice_length; lia|].
  rewrite Hz by (by eapply get_u16_be_range). cbn [ok_or mbind res_bind]. by destruct (_ <? _)%nat.
Qed.

Lemma front_of_record header n body rest : length header = 3%nat -> length body = n -> (n < Z.to_nat 65536)%nat ->
  front_of ((header ++ len16 n) ++ body ++ rest) = Some n.
Proof.
  intros Hh Hb Hn. unfold front_of. rewrite !length_app. unfold len16. rewrite length_be_bytes, Hh.
  unfold TLS_RECORD_HEADER_SIZE. rewrite (proj2 (Nat.ltb_ge _ _)) by lia.
  assert (slice 3 5 ((header ++ be_bytes 2 (Z.of_nat n)) ++ body ++ rest) = be_bytes 2 (Z.of_nat n)) as ->.
  { unfold slice. rewrite <- app_assoc, drop_app_length' by done. apply take_app_length'. by rewrite length_be_bytes. }
  rewrite be_value_be_bytes_small, Nat2Z.id by lia. by rewrite (proj2 (Nat.ltb_ge _ _)) by lia.
Qed.

(** A record that is not complete is no front. *)
Lemma front_of_prefix header n body l : length header = 3%nat -> length body = n -> (n < Z.to_nat 65536)%nat ->
  l `prefix_of` (header ++ len16 n) ++ body -> l <> (header ++ len16 n) ++ body -> front_of l = None.
Proof.
  intros Hh Hb Hn [k Hk] Hne. unfold front_of. destruct (Nat.ltb_spec (length l) TLS_RECORD_HEADER_SIZE) as [|H5]; [done|].
  unfold TLS_RECORD_HEADER_SIZE in *.
  assert (slice 3 5 l = be_bytes 2 (Z.of_nat n)) as ->.
  { assert (slice 3 5 (l ++ k) = be_bytes 2 (Z.of_nat n)) as <-.
    { rewrite <- Hk. unfold slice, len16. rewrite <- app_assoc, drop_app_length' by done. apply take_app_length'. by rewrite length_be_bytes. }
    unfold slice. rewrite drop_app_le, take_app_le by (rewrite ?length_drop; lia). done. }
  rewrite be_value_be_bytes_small, Nat2Z.id by lia.
  destruct (Nat.ltb_spec (length l) (5 + n)); [done|]. exfalso. apply Hne.
  assert (k = []) as ->; [|by rewrite app_nil_r in Hk].
  apply (f_equal length) in Hk. rewrite !length_app in Hk. unfold len16 in Hk. rewrite length_be_bytes in Hk.
  apply length_zero_iff_nil. lia.
Qed.

Lemma record_header_parts n : exists h, length h = 3%nat /\ make_record_header n = h ++ len16 n.
Proof. by exists [to_u8 CT_APPLICATION_DATA; to_u8 3; to_u8 3]. Qed.

(** ** The loops end *)

Lemma sb_consume_len debug b n b' : sb_consume debug b n = Ok b' -> (n <= sb_len b)%nat -> sb_len b' = (sb_len b - n)%nat.
Proof.
  unfold sb_consume, debug_assert, sb_len. intros H Hn. destruct (debug && _); [done|]. cbn [mbind res_bind] in H.
  apply Ok_inj in H as <-. destruct (Nat.leb_spec (sb_end b) (sb_start b + n)); cbn [sb_start sb_end]; lia.
Qed.

Lemma front_record_len b n : front_record b = Ok (Some n) -> (TLS_RECORD_HEADER_SIZE + n <= sb_len b)%nat.
Proof.
  unfold front_record. destruct (_ <? _)%nat; [done|]. destruct (get_u16_be b 3) as [v| |]; [|done..]. cbn [mbind res_bind].
  destruct v as [z|]; [|done]. cbn [ok_or mbind res_bind].
  destruct (Nat.ltb_spec (sb_len b) (TLS_RECORD_HEADER_SIZE + Z.to_nat z)); [done|]. by intros [= <-].
Qed.

Section Loops.
Context `{A : Aead} `{C : Crypto} (x509 : bytes -> res str (bytes * bytes)) (debug : bool).

Definition unread (c : Connection) : nat := sb_len (ciphertext_read_buf c).

Lemma consume_cin_unread n c c' : consume_cin debug n c = (c', Ok tt) -> (n <= unread c)%nat -> unread c' = (unread c - n)%nat.
Proof.
  unfold consume_cin, mbind, M_bind, get, lift, modify. destruct (sb_consume _ _ _) as [b| |] eqn:E; [|done..].
  intros [= <-] Hn. unfold unread in *. cbn. by eapply sb_consume_len.
Qed.

Lemma application_record_progress key iv c c' : application_record debug key iv c = (c', Ok true) -> (unread c' < unread c)%nat.
Proof.
  unfold application_record. intros H. ran H. destruct x as [n|]; [|done].
  match goal with E : front_record _ = Ok _ |- _ => apply front_record_len in E as Ef end. ran H.
  destruct (decrypt_record _ _ _ _ _) as [seq opened]. ran H.
  match goal with p : Z * bytes |- _ => destruct p as [ty plain] end.
  assert (forall d, unread d = unread c -> (_ ← consume_cin debug (TLS_RECORD_HEADER_SIZE + n); mret true) d = (c', Ok true) ->
            (unread c' < unread c)%nat) as Hcons.
  { intros d Hd E. apply bind_ok in E as (d' & [] & E & E'). injection E' as <-.
    apply consume_cin_unread in E; unfold unread, TLS_RECORD_HEADER_SIZE in *; lia. }
  destruct (ty =? CT_APPLICATION_DATA); [ran H; by eapply Hcons, H|].
  destruct (ty =? CT_ALERT); [|done]. destruct (2 <=? length plain)%nat; [|by eapply Hcons, H]. ran H.
  destruct (_ =? ALERT_DESC_CLOSE_NOTIFY); [done|]. destruct (negb _); [done|]. by eapply Hcons, H.
Qed.

(** More fuel than unread bytes changes nothing: the fuel never runs out. *)
Lemma application_records_fuel key iv fuel : forall c, (unread c < fuel)%nat ->
  application_records debug fuel key iv c = application_records debug (S (unread c)) key iv c.
Proof.
  induction fuel as [fuel IH] using lt_wf_ind. intros c Hf. destruct fuel as [|fuel]; [lia|]. cbn [application_records].
  unfold mbind, M_bind. destruct (application_record debug key iv c) as [c1 [[]| |]] eqn:E; try done.
  apply application_record_progress in E.
  destruct (Nat.eq_dec fuel (unread c)) as [->|]; [done|].
  rewrite (IH fuel) by lia. symmetry. apply IH; lia.
Qed.

Lemma process_server_hello_progress h sk k c c' : process_server_hello debug h sk k c = (c', Ok true) -> (unread c' < unread c)%nat.
Proof.
  unfold process_server_hello. intros H. ran H. destruct x as [n|]; [|done].
  match goal with E : front_record _ = Ok _ |- _ => apply front_record_len in E as Ef end. ran H.
  apply bind_ok in H as (d & [] & Hd & H). ran H. injection H as <-.
  apply consume_cin_unread in Hd; unfold unread, TLS_RECORD_HEADER_SIZE in *; cbn; lia.
Qed.

Lemma handshake_record_progress p c c' r : handshake_record x509 debug p c = (c', Ok r) -> r <> Some false -> (unread c' < unread c)%nat.
Proof.
  unfold handshake_record. intros H Hr. ran H. destruct x as [key iv]. ran H. destruct x as [n|]; [|by injection H as _ <-].
  match goal with E : front_record _ = Ok _ |- _ => apply front_record_len in E as Ef end. ran H.
  assert (forall d, consume_cin debug (TLS_RECORD_HEADER_SIZE + n) c = (d, Ok tt) -> (unread d < unread c)%nat) as Hcons.
  { intros d E. apply consume_cin_unread in E; unfold unread, TLS_RECORD_HEADER_SIZE in *; lia. }
  destruct (_ =? CT_CHANGE_CIPHER_SPEC).
  { apply bind_ok in H as (d & [] & Hd & H). injection H as <- _. by apply Hcons. }
  destruct (negb _); [done|]. ran H. apply bind_ok in H as (d & [] & Hd & H). ran H. apply Hcons in Hd.
  destruct (_ <? 4)%nat; [ran H; injection H as <- _; exact Hd|]. destruct (negb _); [done|]. ran H.
  match goal with x : bytes * _ |- _ => destruct x as [out [rd wr]] end. ran H. injection H as <- _. exact Hd.
Qed.

Lemma process_encrypted_fuel p fuel : forall c, (unread c < fuel)%nat ->
  process_encrypted_handshake x509 debug fuel p c = process_encrypted_handshake x509 debug (S (unread c)) p c.
Proof.
  induction fuel as [fuel IH] using lt_wf_ind. intros c Hf. destruct fuel as [|fuel]; [lia|]. cbn [process_encrypted_handshake].
  unfold mbind, M_bind. destruct (handshake_record x509 debug p c) as [c1 [[more|]| |]] eqn:E; try done.
  apply handshake_record_progress in E; [|done].
  destruct (Nat.eq_dec fuel (unread c)) as [->|]; [done|].
  rewrite (IH fuel) by lia. symmetry. apply IH; lia.
Qed.

Lemma process_encrypted_progress fuel p : forall c c', process_encrypted_handshake x509 debug fuel p c = (c', Ok true) -> (unread c' < unread c)%nat.
Proof.
  induction fuel as [|fuel IH]; intros c c' H; cbn [process_encrypted_handshake] in H; [done|].
  apply bind_ok in H as (d & [more|] & Hd & H).
  - injection H as -> ->. by eapply handshake_record_progress.
  - apply handshake_record_progress in Hd; [|done]. apply IH in H. lia.
Qed.

Lemma process_packets_fuel fuel : forall c, (unread c < fuel)%nat ->
  process_packets x509 debug fuel c = process_packets x509 debug (S (unread c)) c.
Proof.
  induction fuel as [fuel IH] using lt_wf_ind. intros c Hf. destruct fuel as [|fuel]; [lia|]. cbn [process_packets].
  assert (forall (m : M bool) (av : M nat), (forall d, m c = (d, Ok true) -> (unread d < unread c)%nat) ->
            (more ← m; if more : bool then process_packets x509 debug fuel else av) c
            = (more ← m; if more : bool then process_packets x509 debug (unread c) else av) c) as Hgo.
  { intros m av Hm. unfold mbind, M_bind. destruct (m c) as [d [[]| |]] eqn:E; try done. specialize (Hm d eq_refl).
    destruct (Nat.eq_dec fuel (unread c)) as [->|]; [done|]. rewrite (IH fuel) by lia. symmetry. apply IH; lia. }
  rewrite !get_bind. destruct (handshake_state c); [apply Hgo|apply Hgo|done].
  - apply process_server_hello_progress.
  - apply process_encrypted_progress.
Qed.

(** So the fuel of [process_new_packets] is enough: any larger one gives the
    same result. *)
Lemma process_new_packets_fuel c fuel : (S (unread c) < fuel)%nat ->
  process_packets x509 debug fuel c = process_packets x509 debug (S (S (unread c))) c.
Proof. intros H. transitivity (process_packets x509 debug (S (unread c)) c); [|symmetry]; apply process_packets_fuel; lia. Qed.
End Loops.

(** ** Reading what the other end encrypted *)

Abbreviation CAP := CIPHERTEXT_READ_BUF_CAPACITY.

(** The buffer holds [l], with some room left. *)
Definition buffered (b : SlideBuffer) (l : bytes) : Prop := exists room, stands_for CAP b (mkQueue l room).

Lemma buffered_len b l : buffered b l -> sb_len b = length l.
Proof. intros [room Hs]. by destruct (stands_for_len CAP b _ Hs) as (-> & _). Qed.

Lemma capacity_value : CAP = Z.to_nat 33290.
Proof. reflexivity. Qed.

(** An empty buffer has all its room. *)
Lemma buffered_empty b : buffered b [] -> stands_for CAP b (mkQueue [] CAP).
Proof.
  intros (room & pre & post & -> & Hr & Hc & He). cbn [q_bytes q_room] in *. rewrite (He eq_refl) in *.
  exists [], post. cbn [q_bytes q_room length] in *. repeat split; lia.
Qed.

Section Reading.
Context (debug : bool).

Lemma consume_cin_ok c l k n : buffered (ciphertext_read_buf c) (l ++ k) -> length l = n ->
  exists b, consume_cin debug n c = (set_cin b c, Ok tt) /\ buffered b k.
Proof.
  intros [room Hs] Hn. destruct (consume_ok debug CAP (ciphertext_read_buf c) _ n Hs) as (b & Hb & Hs').
  { cbn [q_bytes]. rewrite length_app. lia. }
  exists b. unfold consume_cin, mbind, M_bind, get, lift, modify. rewrite Hb. split; [done|].
  unfold q_drop in Hs'. cbn [q_bytes q_room] in Hs'. rewrite drop_app_length' in Hs' by done. by eexists.
Qed.

Lemma read_tls_ok data c l : buffered (ciphertext_read_buf c) l -> (length l + length data <= CAP)%nat -> (length data <= TLS_MAX_RECORD_SIZE)%nat ->
  exists b, read_tls debug data c = (set_cin b c, Ok (length data)) /\ buffered b (l ++ data).
Proof.
  intros [room Hs] Hl Hd. pose proof capacity_value as Hcap. assert (TLS_MAX_RECORD_SIZE = Z.to_nat 16645) as Hmax by reflexivity.
  unfold read_tls. rewrite get_bind.
  set (b1 := if (remaining_capacity (ciphertext_read_buf c) <? TLS_MAX_RECORD_SIZE)%nat
             then compact (ciphertext_read_buf c) else ciphertext_read_buf c).
  assert (exists room1, stands_for CAP b1 (mkQueue l room1) /\ (length data <= room1)%nat) as (room1 & Hs1 & Hroom).
  { assert (remaining_capacity (ciphertext_read_buf c) = room) as Hrem.
    { destruct Hs as (pre & post & -> & Hr & Hc & _). unfold remaining_capacity. cbn [sb_data sb_end q_bytes q_room] in *.
      rewrite !length_app. lia. }
    subst b1. rewrite Hrem. destruct (Nat.ltb_spec room TLS_MAX_RECORD_SIZE).
    - exists (CAP - length l)%nat. split; [exact (compact_ok CAP _ _ Hs)|]. lia.
    - exists room. split; [done|lia]. }
  rewrite modify_bind, Nat.min_r by done. destruct (Nat.ltb_spec 0 (length data)) as [Hpos|Hz].
  - destruct (extend_ok debug CAP b1 (mkQueue l room1) data Hs1 Hroom) as (b2 & Hb2 & Hs2). cbn [q_bytes q_room] in Hs2.
    exists b2. split; [|by eexists]. rewrite firstn_all, (lift_bind _ _ _ b2), modify_bind by done. done.
  - destruct data; [|cbn in Hz; lia]. exists b1. split; [done|]. rewrite app_nil_r. by eexists.
Qed.

Lemma feed_fits data c l : buffered (ciphertext_read_buf c) l ->
  (length l + length data <= CAP)%nat -> (length data <= TLS_MAX_RECORD_SIZE)%nat ->
  exists b, feed_reality_client_connection debug data c = (set_cin b c, Ok tt) /\ buffered b (l ++ data).
Proof.
  intros Hb Hl Hd. unfold feed_reality_client_connection. destruct data as [|x data].
  - exists (ciphertext_read_buf c). rewrite app_nil_r. split; [by destruct c|done].
  - destruct (read_tls_ok (x :: data) c l Hb Hl Hd) as (b & Hr & Hb'). exists b. split; [|done]. cbn [feed_fuel length is_nil].
    erewrite run_bind; [|exact Hr]. rewrite drop_all. by destruct (length data).
Qed.

Lemma feed_ok data c l : buffered (ciphertext_read_buf c) l ->
  (length l <= TLS_MAX_RECORD_SIZE)%nat -> (length data <= Z.to_nat 16384)%nat ->
  exists b, feed_reality_client_connection debug data c = (set_cin b c, Ok tt) /\ buffered b (l ++ data).
Proof.
  intros Hb Hl Hd. assert (TLS_MAX_RECORD_SIZE = Z.to_nat 16645) as Hmax by reflexivity. apply feed_fits; [done| |lia]. rewrite capacity_value. lia.
Qed.

Lemma read_plaintext_ok c l n : buffered (plaintext_read_buf c) l ->
  exists b, read_plaintext debug n c = (set_pin b c, Ok (take n l)) /\ buffered b (drop n l).
Proof.
  intros [room Hs].
  assert (exists room1, stands_for CAP (maybe_compact (plaintext_read_buf c) 4096) (mkQueue l room1)) as [room1 Hs1].
  { unfold maybe_compact. destruct (_ <? _)%nat; [|by eexists]. eexists. exact (compact_ok CAP _ _ Hs). }
  unfold read_plaintext. rewrite get_bind, modify_bind.
  destruct (stands_for_len CAP _ _ Hs1) as (Hlen & _). rewrite Hlen. cbn [q_bytes].
  set (b1 := maybe_compact _ _) in *. clearbody b1.
  destruct (Nat.ltb_spec 0 (Nat.min n (length l))) as [Hm|Hm].
  - unfold sb_index_to. rewrite (lift_bind _ _ _ (take (Nat.min n (length l)) l))
      by (apply (front_ok CAP b1 (mkQueue l room1)); [done|cbn; lia]).
    destruct (consume_ok debug CAP b1 (mkQueue l room1) (Nat.min n (length l)) Hs1) as (b2 & Hb2 & Hs2); [cbn; lia|].
    rewrite (lift_bind _ _ _ b2), modify_bind by done. exists b2. split.
    + assert (take (Nat.min n (length l)) l = take n l) as ->; [|by destruct c].
      destruct (Nat.min_spec n (length l)) as [[? ->]|[? ->]]; [done|]. by rewrite !take_ge by lia.
    + unfold q_drop in Hs2. cbn [q_bytes q_room] in Hs2.
      assert (drop (Nat.min n (length l)) l = drop n l) as <-; [|by eexists].
      destruct (Nat.min_spec n (length l)) as [[? ->]|[? ->]]; [done|]. by rewrite !drop_ge by lia.
  - exists b1. split.
    + assert (take n l = []) as ->; [|done]. destruct n; [done|]. destruct l; [done|cbn in Hm; lia].
    + assert (drop n l = l) as ->; [|by eexists]. destruct n; [done|]. destruct l; [done|cbn in Hm; lia].
Qed.
End Reading.


Section Records.
Context `{A : Aead} {L : AeadLaws A} (debug : bool) (key : AeadKey) (iv : bytes).

(** Content is no longer than the record it came in. *)
Lemma split_content_type_length p t content : split_content_type p = Ok (t, content) -> (length content <= length p)%nat.
Proof.
  assert (length (strip_zeros p) <= length p)%nat as Hz.
  { induction p as [|b p IH]; [done|]. cbn [strip_zeros length]. destruct (strip_zeros p); [destruct (_ =? _); cbn; lia|cbn in *; lia]. }
  unfold split_content_type. destruct (last _) as [b|]; [|done]. destruct (known_content_type _); [|done]. intros [= _ <-].
  revert Hz. generalize (strip_zeros p) as l. intros l. enough (length (removelast l) <= length l)%nat by lia.
  induction l as [|x l IH]; [done|]. destruct l; cbn in *; lia.
Qed.

Lemma decrypt_record_length seq c n s t content : decrypt_record key iv seq c n = (s, Ok (t, content)) -> (length content <= length c)%nat.
Proof using L.
  unfold decrypt_record, open_record. destruct (make_nonce iv seq) as [nonce| |]; [|done..]. cbn [mbind res_bind].
  destruct (aead_open _ _ _ _ _) as [p|] eqn:Eo; [|done]. cbn [ok_or]. apply open_length in Eo.
  destruct (next_seq seq); [|done..]. intros [= _ H]. apply split_content_type_length in H. lia.
Qed.

Lemma take_header (h n : nat) (l k m : bytes) : length l = h -> length k = n ->
  slice h (h + n) (l ++ k ++ m) = k.
Proof. intros <- <-. unfold slice. rewrite drop_app_length, take_app_length'; [done|lia]. Qed.

(** A record at the front of the buffer is taken out, opened and read. *)
Lemma front_opened c ct rest : buffered (ciphertext_read_buf c) (make_record_header (length ct) ++ ct ++ rest) ->
  (length ct < Z.to_nat 65536)%nat ->
  front_record (ciphertext_read_buf c) = Ok (Some (length ct))
  /\ sb_index_range (ciphertext_read_buf c) TLS_RECORD_HEADER_SIZE (TLS_RECORD_HEADER_SIZE + length ct) = Ok ct.
Proof.
  intros Hb Hn. pose proof Hb as [room Hs]. split.
  - rewrite (front_record_ok CAP _ _ Hs). cbn [q_bytes]. f_equal.
    destruct (record_header_parts (length ct)) as (h & Hh & ->). by apply front_of_record.
  - unfold sb_index_range. rewrite (range_ok CAP _ _ TLS_RECORD_HEADER_SIZE (TLS_RECORD_HEADER_SIZE + length ct) Hs).
    + cbn [q_bytes]. f_equal. by apply take_header.
    + cbn [q_bytes]. rewrite !length_app, length_make_record_header. unfold TLS_RECORD_HEADER_SIZE. lia.
Qed.

(** The plaintext buffer holds [l] and nothing is wasted in front of it. *)
Definition packed (b : SlideBuffer) (l : bytes) : Prop := stands_for CAP b (mkQueue l (CAP - length l)).

Lemma packed_buffered b l : packed b l -> buffered b l.
Proof. intros H. by eexists. Qed.

Lemma packed_extend b l d : packed b l -> (length l + length d <= CAP)%nat ->
  exists b', extend_from_slice debug (maybe_compact b 4096) d = Ok b' /\ packed b' (l ++ d).
Proof.
  intros Hs Hd. unfold packed in *. destruct (stands_for_len CAP b _ Hs) as (_ & _ & Hstart). cbn [q_bytes q_room] in Hstart.
  assert (maybe_compact b 4096 = b) as ->.
  { unfold maybe_compact. rewrite Hstart. by replace (CAP - (CAP - length l) - length l)%nat with 0%nat by lia. }
  destruct (extend_ok debug CAP b _ d Hs) as (b' & -> & Hs'); [cbn [q_room]; lia|]. cbn [q_bytes q_room] in Hs'.
  exists b'. split; [done|]. rewrite length_app. by replace (CAP - (length l + length d))%nat with (CAP - length l - length d)%nat by lia.
Qed.

Lemma application_record_ok c ct rest l seq content :
  buffered (ciphertext_read_buf c) (make_record_header (length ct) ++ ct ++ rest) -> (length ct < Z.to_nat 65536)%nat ->
  packed (plaintext_read_buf c) l -> (length l + length content <= CAP)%nat ->
  decrypt_record key iv (read_seq c) ct (length ct) = (seq, Ok (CT_APPLICATION_DATA, content)) ->
  exists cin pin, application_record debug key iv c = (set_read_seq seq (set_pin pin (set_cin cin c)), Ok true)
    /\ buffered cin rest /\ packed pin (l ++ content).
Proof.
  intros Hb Hn Hp Hroom Hd. destruct (front_opened c ct rest Hb Hn) as [Hf Hr].
  destruct (packed_extend _ l content Hp Hroom) as (pin & Hpin & Hp').
  unfold application_record. rewrite get_bind, (lift_bind _ _ _ _ Hf), (lift_bind _ _ _ _ Hr), Hd, modify_bind.
  rewrite (lift_bind _ _ _ (CT_APPLICATION_DATA, content)) by done. change (CT_APPLICATION_DATA =? CT_APPLICATION_DATA) with true.
  cbn [fst snd]. rewrite (lift_bind _ _ _ pin), modify_bind by done.
  rewrite app_assoc in Hb.
  destruct (consume_cin_ok debug (set_pin pin (set_read_seq seq c)) (make_record_header (length ct) ++ ct) rest (TLS_RECORD_HEADER_SIZE + length ct))
    as (cin & Hcin & Hbin); [done|by rewrite length_app|].
  exists cin, pin. split; [|done]. erewrite run_bind; [|exact Hcin]. done.
Qed.

(** The loop reads every complete record. *)
Lemma application_records_ok contents : forall c fuel wire part l,
  carries key iv CT_APPLICATION_DATA (read_seq c) contents wire -> front_of part = None ->
  buffered (ciphertext_read_buf c) (wire ++ part) -> packed (plaintext_read_buf c) l ->
  (length l + length (concat contents) <= CAP)%nat -> (length contents < fuel)%nat ->
  exists cin pin, application_records debug fuel key iv c
      = (set_read_seq (read_seq c + Z.of_nat (length contents)) (set_pin pin (set_cin cin c)), Ok tt)
    /\ buffered cin part /\ packed pin (l ++ concat contents).
Proof using L.
  induction contents as [|content contents IH]; intros c fuel wire part l Hc Hpart Hb Hp Hroom Hf;
    (destruct fuel as [|fuel]; [lia|]); cbn [application_records carries concat] in *.
  - subst wire. destruct Hb as [room Hs]. exists (ciphertext_read_buf c), (plaintext_read_buf c).
    rewrite app_nil_r. split; [|split; [by eexists|done]].
    assert (application_record debug key iv c = (c, Ok false)) as Hnone.
    { unfold application_record. rewrite get_bind, (lift_bind _ _ _ None); [done|].
      rewrite (front_record_ok CAP _ _ Hs). cbn [q_bytes app]. by rewrite Hpart. }
    erewrite run_bind; [|exact Hnone]. cbn [length]. rewrite Z.add_0_r. by destruct c.
  - destruct Hc as (ct & rest & -> & Hl & Hd & Hc). rewrite length_app in Hroom. rewrite <- !app_assoc in Hb.
    destruct (application_record_ok c ct (rest ++ part) l (read_seq c + 1) content Hb) as (cin & pin & Hrec & Hb' & Hp');
      [unfold MAX_TLS_CIPHERTEXT_LEN in Hl; lia|done|lia|done|].
    erewrite run_bind; [|exact Hrec].
    destruct (IH (set_read_seq (read_seq c + 1) (set_pin pin (set_cin cin c))) fuel rest part (l ++ content) Hc Hpart Hb' Hp')
      as (cin' & pin' & Hrun & Hb'' & Hp''); [rewrite length_app; lia|cbn [length] in Hf; lia|].
    exists cin', pin'. rewrite Hrun. split; [|by rewrite app_assoc]. cbn [read_seq set_read_seq length].
    replace (read_seq c + Z.of_nat (S (length contents))) with (read_seq c + 1 + Z.of_nat (length contents)) by lia. reflexivity.
Qed.

(** A connection that reads with [key] and [iv]. *)
Definition reading (c : Connection) : Prop :=
  handshake_state c = Complete /\ app_read c = Some (key, iv) /\ received_close_notify c = false /\ fatal_error c = None.

(** Every record takes five bytes, so the fuel of the loop is enough. *)
Lemma carries_length t : forall contents seq wire, carries key iv t seq contents wire -> (length contents <= length wire)%nat.
Proof.
  induction contents as [|content contents IH]; intros seq wire; cbn [carries]; [intros _; cbn; lia|].
  intros (ct & rest & -> & _ & _ & Hc). apply IH in Hc. cbn [length]. rewrite !length_app, length_make_record_header. lia.
Qed.

Lemma process_ok (x509 : bytes -> res str (bytes * bytes)) `{C : Crypto} c contents wire part :
  reading c -> carries key iv CT_APPLICATION_DATA (read_seq c) contents wire -> front_of part = None ->
  buffered (ciphertext_read_buf c) (wire ++ part) -> buffered (plaintext_read_buf c) [] ->
  (length (concat contents) <= CAP)%nat ->
  exists cin pin, process_new_packets x509 debug c
      = (set_read_seq (read_seq c + Z.of_nat (length contents)) (set_pin pin (set_cin cin c)), Ok (length (concat contents)))
    /\ buffered cin part /\ buffered pin (concat contents).
Proof using L.
  intros (Hst & Hk & Hcl & Hfa) Hc Hpart Hb Hp Hroom.
  assert (packed (plaintext_read_buf c) []) as Hp0.
  { unfold packed. rewrite Nat.sub_0_r. by apply buffered_empty. }
  destruct (application_records_ok contents c (S (sb_len (ciphertext_read_buf c))) wire part [] Hc Hpart Hb Hp0)
    as (cin & pin & Hrun & Hb' & Hp'); [done| |].
  { rewrite (buffered_len _ _ Hb), length_app. pose proof (carries_length _ _ _ _ Hc). lia. }
  exists cin, pin. split; [|split; [done|by apply packed_buffered]].
  unfold process_new_packets. rewrite get_bind, Hfa, Hcl. cbn [process_packets]. rewrite get_bind, Hst.
  assert (process_application_data debug c = application_records debug (S (sb_len (ciphertext_read_buf c))) key iv c) as Hpd
    by (unfold process_application_data; by rewrite get_bind, Hk).
  erewrite run_bind; [|rewrite Hpd; exact Hrun]. rewrite get_bind. unfold mret, M_ret.
  cbn [plaintext_read_buf set_read_seq set_pin]. by rewrite (buffered_len _ _ (packed_buffered _ _ Hp')).
Qed.

(** *** The bytes that have arrived *)

(** What has arrived of a stream of records: some of them whole, and a part of
    the next. *)
Lemma carries_split t : forall contents seq wire l k, carries key iv t seq contents wire -> wire = l ++ k ->
  exists got todo part whole,
    contents = got ++ todo /\ l = whole ++ part /\ front_of part = None /\ (length part <= TLS_MAX_RECORD_SIZE)%nat
    /\ carries key iv t seq got whole /\ carries key iv t (seq + Z.of_nat (length got)) todo (part ++ k).
Proof.
  induction contents as [|content contents IH]; intros seq wire l k Hc Hw; cbn [carries] in Hc.
  - subst wire. symmetry in Hw. apply app_eq_nil in Hw as [-> ->]. exists [], [], [], []. repeat split; cbn; lia.
  - destruct Hc as (ct & rest & Hwire & Hl & Hd & Hc). rewrite Hwire in Hw.
    destruct (decide (length (make_record_header (length ct) ++ ct) <= length l)%nat) as [Hle|Hgt].
    + rewrite app_assoc in Hw. apply app_eq_inv in Hw as [(z & Hw1 & Hw2)|(z & -> & Hw2)].
      * rewrite Hw1, length_app in Hle. assert (z = []) as -> by (apply length_zero_iff_nil; lia).
        rewrite app_nil_r in Hw1. cbn [app] in Hw2. destruct (IH (seq + 1) rest [] k Hc) as (got & todo & part & whole & -> & H1 & H2 & H3 & H4 & H5); [done|].
        symmetry in H1. apply app_eq_nil in H1 as [-> ->].
        exists (content :: got), todo, [], (make_record_header (length ct) ++ ct). rewrite app_nil_r. repeat split; try done.
        -- exists ct, []. rewrite app_nil_r. by destruct got; [|destruct H4 as (? & ? & ? & ?)].
        -- cbn [length] in *. by replace (seq + Z.of_nat (S (length got))) with (seq + 1 + Z.of_nat (length got)) by lia.
      * destruct (IH (seq + 1) rest z k Hc Hw2) as (got & todo & part & whole & -> & -> & H2 & H3 & H4 & H5).
        exists (content :: got), todo, part, ((make_record_header (length ct) ++ ct) ++ whole). rewrite <- !app_assoc. repeat split; try done.
        -- exists ct, whole. by rewrite <- ?app_assoc.
        -- cbn [length] in *. by replace (seq + Z.of_nat (S (length got))) with (seq + 1 + Z.of_nat (length got)) by lia.
    + exists [], (content :: contents), l, []. cbn [app length]. rewrite Z.add_0_r.
      assert (exists z, make_record_header (length ct) ++ ct = l ++ z) as [z Hz].
      { rewrite app_assoc in Hw. apply app_eq_inv in Hw as [(z & Hw1 & _)|(z & Hw1 & _)]; [by exists z|].
        exfalso. apply Hgt. rewrite Hw1, (length_app _ z). lia. }
      repeat split; try done.
      * destruct (record_header_parts (length ct)) as (h & Hh & E). rewrite E in Hz.
        eapply (front_of_prefix h (length ct) ct); [done|done|unfold MAX_TLS_CIPHERTEXT_LEN in Hl; lia|by exists z|].
        intros El. apply Hgt. rewrite El, E. lia.
      * rewrite length_app, length_make_record_header in Hgt. unfold TLS_MAX_RECORD_SIZE, TLS_RECORD_HEADER_SIZE. lia.
      * cbn [carries]. exists ct, rest. rewrite <- Hw. done.
Qed.
End Records.
