(* ===== verification/RealityStream.v ===== *)
(** * The asynchronous stream over a REALITY connection
    ([RealityStream] of [crates/net/src/reality_transport.rs])

    [poll_read] and the writing side over a polled inner stream, and what a
    reader gets: the data the other end encrypted, for any pieces in which its
    records arrive and any sizes of the reader's buffers. *)

From S2P Require Import Prelude RustStr NetAddr NetIo SlideBuffer AsyncRead VisionFilter Aead RealityRecords.
From S2P Require Import RealityKeys RealityMessages RealityClient RealityPeer RealityData.

(** [conn], [wbuf], [wpos] *)
Record RealityStream : Type := mkRealityStream { rs_conn : Connection; wbuf : bytes; wpos : nat }.

Definition set_conn (c : Connection) (s : RealityStream) : RealityStream := mkRealityStream c (wbuf s) (wpos s).

Section Stream.
Context `{A : Aead} `{C : Crypto} (x509 : bytes -> res str (bytes * bytes)) (debug : bool).

(** The size of [net]. *)
Definition NET_BUFFER : nat := Z.to_nat 16384.

Lemma net_buffer_fits : (NET_BUFFER <= TLS_MAX_RECORD_SIZE)%nat.
Proof using Type. assert (TLS_MAX_RECORD_SIZE = Z.to_nat 16645) as -> by reflexivity. unfold NET_BUFFER. lia. Qed.

(** [feed_reality_client_connection(..)?; process_new_packets()?] *)
Definition receive (filled : bytes) : M unit :=
  _ ← feed_reality_client_connection debug filled; _ ← process_new_packets x509 debug; mret tt.

(** One turn of the loop of [poll_read] with room for [want] bytes. *)
Definition poll_read_turn (want : nat) (st : RealityStream * list Piece)
    : (RealityStream * list Piece) + (RealityStream * list Piece * Poll bytes) :=
  let '(me, inner) := st in
  if (want =? 0)%nat then inr (me, inner, Ready (Ok []))
  else
    let '(c, r) := read_plaintext debug want (rs_conn me) in
    let me := set_conn c me in
    match r with
    | Ok [] =>
        match poll_inner NET_BUFFER inner with
        | (Ready (Ok []), inner) => inr (me, inner, Ready (Ok []))
        | (Ready (Ok filled), inner) =>
            let '(c, r) := receive filled (rs_conn me) in
            let me := set_conn c me in
            match r with
            | Ok _ => inl (me, inner)
            | Err e => inr (me, inner, Ready (Err e))
            | Panic => inr (me, inner, Ready Panic)
            end
        | (Ready (Err e), inner) => inr (me, inner, Ready (Err e))
        | (Ready Panic, inner) => inr (me, inner, Ready Panic)
        | (Pending, inner) => inr (me, inner, Pending)
        end
    | Ok d => inr (me, inner, Ready (Ok d))
    | Err e => inr (me, inner, Ready (Err e))
    | Panic => inr (me, inner, Ready Panic)
    end.

(** [poll_read]; a turn that goes on has taken a byte of the inner stream. *)
Definition reality_poll_read (want : nat) (me : RealityStream) (inner : list Piece)
    : res io_error (RealityStream * list Piece * Poll bytes) :=
  loop (S (length (arriving inner))) (fun st => Ok (poll_read_turn want st)) (me, inner).

(** ** Writing *)

(** [flush_wbuf]: the bytes written, and how the loop ends; [None] where it is
    pending. *)
Fixpoint flush_wbuf (steps : list WriteStep) (me : RealityStream) : RealityStream * bytes * option (res io_error unit) :=
  if (length (wbuf me) <=? wpos me)%nat then (mkRealityStream (rs_conn me) [] 0, [], Some (Ok tt))
  else
    match steps with
    | [] => (me, [], None)
    | NotNow :: _ => (me, [], None)
    | WriteFailed e :: _ => (me, [], Some (Err e))
    | Took O :: _ => (me, [], Some (Err (WriteZero "")))
    | Took k :: steps =>
        let k := Nat.min k (length (wbuf me) - wpos me) in
        let '(me', w, r) := flush_wbuf steps (mkRealityStream (rs_conn me) (wbuf me) (wpos me + k)) in
        (me', slice (wpos me) (wpos me + k) (wbuf me) ++ w, r)
    end.

(** [write_tls(&mut self.wbuf)]: a [Vec] takes everything. *)
Definition write_all_tls : M bytes := write_tls debug (fun out => Ok (length out)).

(** [drain_tls]: [write_tls] until nothing wants to be written; the first call
    empties both buffers of the connection ([drain_once]). *)
Fixpoint drain_tls (fuel : nat) (me : RealityStream) : RealityStream * res io_error unit :=
  if negb (wants_write (rs_conn me)) then (me, Ok tt)
  else match fuel with
       | O => (me, Panic)
       | S fuel =>
           match write_all_tls (rs_conn me) with
           | (c, Ok []) => (set_conn c me, Ok tt)
           | (c, Ok out) => drain_tls fuel (mkRealityStream c (wbuf me ++ out) (wpos me))
           | (c, Err e) => (set_conn c me, Err e)
           | (c, Panic) => (set_conn c me, Panic)
           end
       end.

(** [poll_write], without the flushing at its ends: the records of [buf] are
    appended to [wbuf]. *)
Definition encrypt_into_wbuf (buf : bytes) (me : RealityStream) : RealityStream * res io_error nat :=
  match write_plaintext buf (rs_conn me) with
  | (c, Ok n) =>
      match drain_tls 2 (set_conn c me) with
      | (me, Ok _) => (me, Ok n)
      | (me, Err e) => (me, Err e)
      | (me, Panic) => (me, Panic)
      end
  | (c, Err e) => (set_conn c me, Err e)
  | (c, Panic) => (set_conn c me, Panic)
  end.

(** [poll_write] with what the inner writer does at its two flushes. *)
Definition reality_poll_write (before after : list WriteStep) (buf : bytes) (me : RealityStream)
    : RealityStream * bytes * option (res io_error nat) :=
  match flush_wbuf before me with
  | (me, w, None) => (me, w, None)
  | (me, w, Some (Err e)) => (me, w, Some (Err e))
  | (me, w, Some Panic) => (me, w, Some Panic)
  | (me, w, Some (Ok _)) =>
      if is_nil buf then (me, w, Some (Ok 0%nat))
      else match encrypt_into_wbuf buf me with
           | (me, Ok n) =>
               match flush_wbuf after me with
               | (me, w', Some (Err e)) => (me, w ++ w', Some (Err e))
               | (me, w', Some Panic) => (me, w ++ w', Some Panic)
               | (me, w', _) => (me, w ++ w', Some (Ok n))
               end
           | (me, Err e) => (me, w, Some (Err e))
           | (me, Panic) => (me, w, Some Panic)
           end
  end.

(** *** The handshake *)

(** [reality_handshake] over a stream: [turns] is how the write and the read of
    each turn end, the bytes are those it writes, and [None] stands for waiting.
    The first [write_tls] takes everything, so a turn writes once. *)
Fixpoint reality_handshake (turns : list (res io_error unit * res io_error bytes)) (c : Connection)
    : Connection * bytes * option (res io_error unit) :=
  let '(me, r) := drain_tls 2 (mkRealityStream c [] 0) in
  let c := rs_conn me in
  let out := wbuf me in
  match r with
  | Err e => (c, [], Some (Err e))
  | Panic => (c, [], Some Panic)
  | Ok _ =>
      match turns with
      | [] => (c, [], None)
      | (written, read) :: turns =>
          match (if is_nil out then Ok tt else written) with
          | Err e => (c, [], Some (Err e))
          | Panic => (c, [], Some Panic)
          | Ok _ =>
              if negb (is_handshaking c) then (c, out, Some (Ok tt))
              else
                match read with
                | Ok [] => (c, out, Some (Err (UnexpectedEof)))
                | Err e => (c, out, Some (Err e))
                | Panic => (c, out, Some Panic)
                | Ok data =>
                    match receive data c with
                    | (c, Ok _) => let '(c, w, r) := reality_handshake turns c in (c, out ++ w, r)
                    | (c, Err e) => (c, out, Some (Err e))
                    | (c, Panic) => (c, out, Some Panic)
                    end
                end
          end
      end
  end.

(** [poll_shutdown] up to the shutdown of the inner stream. *)
Definition reality_close (steps : list WriteStep) (me : RealityStream) : RealityStream * bytes * option (res io_error unit) :=
  match send_close_notify debug (rs_conn me) with
  | (c, Panic) => (set_conn c me, [], Some Panic)
  | (c, _) =>
      match drain_tls 2 (set_conn c me) with
      | (me, Ok _) => flush_wbuf steps me
      | (me, Err e) => (me, [], Some (Err e))
      | (me, Panic) => (me, [], Some Panic)
      end
  end.
End Stream.

(** ** What a reader gets *)

Section Delivery.
Context `{A : Aead} {L : AeadLaws A} `{C : Crypto} (x509 : bytes -> res str (bytes * bytes)) (debug : bool)
  (key : AeadKey) (iv : bytes).

Abbreviation carried := (carries key iv CT_APPLICATION_DATA).

(** Where a stream is in [data]: [out] has been handed out; what follows is in
    the plaintext buffer, and in records that are partly there and partly still
    to arrive. *)
Record stream_at (data out : bytes) (me : RealityStream) (inner : list Piece) : Prop := {
  at_reading : reading key iv (rs_conn me);
  at_flow : flowing inner;
  at_rest : exists todo part here,
    front_of part = None /\ (length part <= TLS_MAX_RECORD_SIZE)%nat
    /\ buffered (ciphertext_read_buf (rs_conn me)) part /\ buffered (plaintext_read_buf (rs_conn me)) here
    /\ carried (read_seq (rs_conn me)) todo (part ++ arriving inner)
    /\ out ++ here ++ concat todo = data
}.

Lemma carried_content_length : forall contents seq wire, carried seq contents wire -> (length (concat contents) <= length wire)%nat.
Proof using L.
  induction contents as [|content contents IH]; intros seq wire; cbn [carries concat]; [intros _; cbn; lia|].
  intros (ct & rest & -> & _ & Hd & Hc). apply IH in Hc. apply decrypt_record_length in Hd.
  rewrite !length_app. lia.
Qed.

(** No record is whole at the front, so none is left. *)
Lemma carried_nothing seq contents part : carried seq contents part -> front_of part = None -> contents = [].
Proof.
  destruct contents as [|content contents]; [done|]. cbn [carries]. intros (ct & rest & -> & Hl & _) Hf.
  destruct (record_header_parts (length ct)) as (h & Hh & E). rewrite E in Hf.
  rewrite front_of_record in Hf; [done|done|done|]. unfold MAX_TLS_CIPHERTEXT_LEN in Hl. lia.
Qed.

(** Receiving a piece: what is whole of it is decrypted. *)
Lemma receive_ok c todo part filled later :
  reading key iv c -> front_of part = None -> (length part <= TLS_MAX_RECORD_SIZE)%nat ->
  buffered (ciphertext_read_buf c) part -> buffered (plaintext_read_buf c) [] ->
  (length filled <= NET_BUFFER)%nat -> carried (read_seq c) todo (part ++ filled ++ later) ->
  exists c' got todo' part',
    receive x509 debug filled c = (c', Ok tt) /\ reading key iv c' /\ todo = got ++ todo'
    /\ front_of part' = None /\ (length part' <= TLS_MAX_RECORD_SIZE)%nat
    /\ buffered (ciphertext_read_buf c') part' /\ buffered (plaintext_read_buf c') (concat got)
    /\ carried (read_seq c') todo' (part' ++ later).
Proof using L.
  intros Hr Hf Hl Hb Hp Hn Hc. destruct (feed_ok debug filled c part Hb Hl Hn) as (b & Hfeed & Hb1).
  rewrite app_assoc in Hc.
  destruct (carries_split key iv CT_APPLICATION_DATA todo (read_seq c) _ (part ++ filled) later Hc eq_refl)
    as (got & todo' & part' & whole & -> & Hw & Hf' & Hl' & Hgot & Htodo).
  rewrite Hw in Hb1.
  destruct (process_ok debug key iv x509 (set_cin b c) got whole part') as (cin & pin & Hproc & Hcin & Hpin); try done.
  { apply carried_content_length in Hgot. apply (f_equal length) in Hw. rewrite !length_app in Hw.
    pose proof capacity_value as Hcap. assert (TLS_MAX_RECORD_SIZE = Z.to_nat 16645) as Hmax by reflexivity.
    unfold NET_BUFFER in Hn. rewrite Hmax in *. rewrite Hcap. lia. }
  eexists _, got, todo', part'. split.
  { unfold receive. erewrite run_bind; [|exact Hfeed]. erewrite run_bind; [|exact Hproc]. reflexivity. }
  split; [exact Hr|]. split; [done|]. split; [done|]. split; [done|]. split; [exact Hcin|]. split; [exact Hpin|].
  exact Htodo.
Qed.

Lemma poll_read_turn_ok data out want me inner : stream_at data out me inner -> (0 < want)%nat ->
  match poll_read_turn x509 debug want (me, inner) with
  | inl (me', inner') => stream_at data out me' inner' /\ (length (arriving inner') < length (arriving inner))%nat
  | inr (me', inner', p) =>
      stream_at data (out ++ got p) me' inner' /\ good_poll p /\ (p = Ready (Ok []) -> out = data)
  end.
Proof using L.
  intros [Hr Hfl (todo & part & here & Hf & Hl & Hb & Hp & Hc & Hd)] Hw. unfold poll_read_turn.
  rewrite (proj2 (Nat.eqb_neq _ _)) by lia.
  destruct (read_plaintext_ok debug (rs_conn me) here want Hp) as (pin & -> & Hp').
  destruct here as [|x here].
  - rewrite take_nil, drop_nil in *.
    pose proof (poll_inner_ok NET_BUFFER inner Hfl) as Hin. destruct (poll_inner NET_BUFFER inner) as [p inner'].
    destruct Hin as (Hfl' & Hgood & Hin); [unfold NET_BUFFER; lia|].
    destruct p as [|[filled| |]]; [| |done..].
    + cbn [got]. rewrite app_nil_r. split; [|done]. split; [done..|]. exists todo, part, []. rewrite Hin. done.
    + destruct Hin as (Harr & Hlen & Hend). destruct filled as [|y filled].
      * cbn [got]. rewrite app_nil_r. cbn [app] in Harr. split; [|split; [done|]].
        -- split; [done..|]. exists todo, part, []. rewrite Harr. done.
        -- intros _. rewrite (Hend eq_refl) in Hc. cbn [arriving] in Hc. rewrite app_nil_r in Hc.
           apply carried_nothing in Hc; [|done]. subst todo. by rewrite !app_nil_r in Hd.
      * rewrite <- Harr in Hc.
        destruct (receive_ok (set_pin pin (rs_conn me)) todo part (y :: filled) (arriving inner'))
          as (c' & gt & todo' & part' & Hrec & Hr' & -> & Hf' & Hl' & Hb' & Hpn & Hc'); try done.
        cbn [rs_conn set_conn]. rewrite Hrec. split.
        -- split; [done..|]. exists todo', part', (concat gt). repeat split; try done.
           rewrite concat_app, app_nil_l in Hd. done.
        -- rewrite <- Harr, length_app. cbn. lia.
  - destruct want as [|want]; [lia|]. cbn [take drop] in *. cbn [got]. split; [|done].
    split; [done..|]. exists todo, part, (drop want here). repeat split; try done.
    rewrite <- Hd, <- app_assoc. cbn [app]. by rewrite (app_assoc (take want here)), take_drop.
Qed.

Lemma poll_read_ok data want fuel : forall out me inner, stream_at data out me inner -> (0 < want)%nat ->
  (length (arriving inner) < fuel)%nat ->
  exists me' inner' p, loop fuel (fun st => Ok (poll_read_turn x509 debug want st) : res io_error _) (me, inner) = Ok (me', inner', p)
    /\ stream_at data (out ++ got p) me' inner' /\ good_poll p /\ (p = Ready (Ok []) -> out = data).
Proof using L.
  induction fuel as [|fuel IH]; intros out me inner Hat Hw Hf; [lia|]. cbn [loop].
  pose proof (poll_read_turn_ok data out want me inner Hat Hw) as Ht.
  cbn [mbind res_bind]. destruct (poll_read_turn x509 debug want (me, inner)) as [[me' inner']|[[me' inner'] p]].
  - destruct Ht as [Hat' Hlt]. apply IH; [done..|lia].
  - by exists me', inner', p.
Qed.

Lemma reality_delivers data : delivers (reality_poll_read x509 debug) data (stream_at data).
Proof using L.
  split.
  - intros out me inner want Hat Hw. apply poll_read_ok; [done..|lia].
  - intros out me inner [_ _ (todo & part & here & _ & _ & _ & _ & _ & Hd)]. by exists (here ++ concat todo).
Qed.
End Delivery.

Section Transfer.
Context `{A : Aead} {L : AeadLaws A} `{C : Crypto} (x509 : bytes -> res str (bytes * bytes)) (debug : bool).

(** The writes of the other end, encrypted one after the other. *)
Fixpoint encrypt_writes (key : AeadKey) (iv : bytes) (ws : list bytes) (s : Z * bytes) : res io_error (Z * bytes) :=
  match ws with
  | [] => Ok s
  | w :: ws => s ← encrypt_app_data debug key iv w s; encrypt_writes key iv ws s
  end.

Lemma encrypt_writes_carry key iv ws : length iv = 12%nat -> forall seq out, 0 <= seq ->
  seq + Z.of_nat (length (concat (map pieces ws))) < 2 ^ 64 ->
  exists wire, encrypt_writes key iv ws (seq, out) = Ok (seq + Z.of_nat (length (concat (map pieces ws))), out ++ wire)
    /\ carries key iv CT_APPLICATION_DATA seq (concat (map pieces ws)) wire.
Proof using L.
  intros Hiv. induction ws as [|w ws IH]; intros seq out Hs Hn; cbn [encrypt_writes map concat] in *.
  - exists []. rewrite app_nil_r. change (Z.of_nat (length [])) with 0. rewrite Z.add_0_r. done.
  - rewrite length_app in Hn.
    destruct (encrypt_app_data_carries debug key iv Hiv w seq out) as (wire & -> & Hc); [done|lia|]. cbn [mbind res_bind].
    destruct (IH (seq + Z.of_nat (length (pieces w))) (out ++ wire)) as (wire' & -> & Hc'); [lia|lia|].
    exists (wire ++ wire'). rewrite length_app. split.
    + rewrite <- app_assoc. do 2 f_equal. lia.
    + by apply carries_app.
Qed.

Lemma concat_all_pieces ws : concat (concat (map pieces ws)) = concat ws.
Proof. induction ws as [|w ws IH]; [done|]. cbn [map concat]. by rewrite concat_app, concat_pieces, IH. Qed.

(** C11. What the other end writes is what the reader reads: for any writes, any
    pieces in which their records arrive and any sizes of the reads, no read
    fails or panics, the bytes read are the bytes written in order, and when the
    end of the stream is read nothing is missing. *)
Theorem reality_stream_delivers (key : AeadKey) (iv : bytes) (c : Connection) (ws : list bytes) (wants : list nat)
    (Hiv : length iv = 12%nat)
    (Hc : reading key iv c)
    (Hin : buffered (ciphertext_read_buf c) []) (Hpl : buffered (plaintext_read_buf c) [])
    (Hseq : 0 <= read_seq c) (Hmax : read_seq c + Z.of_nat (length (concat (map pieces ws))) < 2 ^ 64)
    (Hwants : Forall (fun w => 0 < w)%nat wants) :
  exists seq wire, encrypt_writes key iv ws (read_seq c, []) = Ok (seq, wire)
    /\ forall inner, flowing inner -> arriving inner = wire ->
       exists me inner' ps rest,
         polls (reality_poll_read x509 debug) wants (mkRealityStream c [] 0) inner = Ok (me, inner', ps)
         /\ Forall good_poll ps /\ delivered ps ++ rest = concat ws /\ (Ready (Ok []) ∈ ps -> rest = []).
Proof using L.
  destruct (encrypt_writes_carry key iv ws Hiv (read_seq c) [] Hseq Hmax) as (wire & He & Hcar).
  eexists _, wire. split; [exact He|]. intros inner Hfl Harr.
  destruct (polls_deliver _ (concat ws) _ wants (reality_delivers x509 debug key iv (concat ws)) [] (mkRealityStream c [] 0) inner)
    as (me & inner' & ps & rest & Hps & Hg & Hd & Hend); [|done|by eexists _, _, _, rest].
  split; [done..|]. exists (concat (map pieces ws)), [], []. rewrite Harr. repeat split; try done; [cbn; lia|].
  cbn [app]. apply concat_all_pieces.
Qed.
End Transfer.

Lemma reality_stream_delivers_witness :
  let key := mkAeadKey AES_128_GCM_SHA256 (be_bytes 16 7) in
  let iv := be_bytes 12 9 in
  let empty := sb_new (replicate CIPHERTEXT_READ_BUF_CAPACITY (to_u8 0)) in
  let c := mkConnection toy_config Complete (Some (key, iv)) None 5 0 empty [] empty [] false None in
  let ws := [lit "some"; lit "thing"] in
  exists seq wire, encrypt_writes (A := toy_aead) true key iv ws (5, []) = Ok (seq, wire)
    /\ forall inner, flowing inner -> arriving inner = wire ->
       exists me inner' ps rest,
         polls (reality_poll_read (A := toy_aead) (C := toy_crypto) toy_x509 true) [3; 100; 1]%nat (mkRealityStream c [] 0) inner = Ok (me, inner', ps)
         /\ Forall good_poll ps /\ delivered ps ++ rest = concat ws /\ (Ready (Ok []) ∈ ps -> rest = []).
Proof.
  intros key iv empty c ws.
  assert (buffered empty []) as He.
  { exists CIPHERTEXT_READ_BUF_CAPACITY, [], (replicate CIPHERTEXT_READ_BUF_CAPACITY (to_u8 0)).
    split; [reflexivity|]. split; [apply length_replicate|]. split; [|done]. cbn [length app q_bytes]. apply length_replicate. }
  apply (reality_stream_delivers (A := toy_aead) (C := toy_crypto) toy_x509 true key iv c ws [3; 100; 1]%nat).
  - reflexivity.
  - by repeat split.
  - exact He.
  - exact He.
  - change (0 <= 5). lia.
  - apply Z.ltb_lt. vm_compute. reflexivity.
  - repeat (apply Forall_cons; split; [lia|]). by apply Forall_nil.
Defined.
