(* ===== verification/RealityHandshake.v ===== *)
(** * A REALITY handshake with an honest server completes

    The server of [RealityPeer.v] answers the client's hello; in whatever pieces
    the answer arrives, [reality_handshake] ends without an error, and both ends
    hold the same keys. *)

From S2P Require Import Prelude RustStr NetAddr NetIo SlideBuffer AsyncRead VisionFilter Aead RealityRecords RealityKeys.
From S2P Require Import RealityMessages RealityClient RealityPeer RealityData RealityStream.

(** ** Messages in a flight *)

Section Flight.
Context `{C : Crypto} (x509 : bytes -> res str (bytes * bytes)).

(** What the code reads of a message behind [pre]. *)
Lemma message_reads pre ty payload post : 0 <= ty < 256 -> Z.of_nat (length payload) < 2 ^ 24 ->
  let message := handshake_message ty payload in
  let plain := pre ++ message ++ post in
  index (E := io_error) plain (length pre) = Ok (to_u8 ty)
  /\ index_be24 plain (length pre + 1) = Ok (Z.of_nat (length payload))
  /\ length message = (4 + length payload)%nat
  /\ sub_slice (E := io_error) (length pre) (length pre + length message) plain = Ok message.
Proof.
  intros Hty Hn message plain.
  assert (length message = (4 + length payload)%nat) as Hm
    by (subst message; unfold handshake_message, len24; cbn [length]; rewrite length_app, length_be_bytes; lia).
  split; [|split; [|split; [done|]]].
  - by apply index_app.
  - apply index_be24_drop with (t := payload ++ post); [|change (256 ^ 3) with (2 ^ 24); lia].
    subst plain message. rewrite drop_app_ge by lia. replace (length pre + 1 - length pre)%nat with 1%nat by lia.
    unfold handshake_message, len24. cbn [app drop]. by rewrite <- app_assoc.
  - by apply sub_slice_mid.
Qed.

(** One step of the scan. *)
Lemma scan_step n pre ty payload post auth_key s : 0 <= ty < 256 -> Z.of_nat (length payload) < 2 ^ 24 ->
  let message := handshake_message ty payload in
  scan_messages x509 (S n) (pre ++ message ++ post) auth_key (length pre) s
  = (s ← (if ty =? HS_CERTIFICATE then
            cert_der ← extract_certificate_der message;
            _ ← verify_certificate_hmac x509 cert_der auth_key;
            key ← extract_ed25519_public_key x509 cert_der;
            Ok (mkScan (sc_found s) true (Some key) (sc_cv s))
          else Ok s);
     let s := if ty =? HS_CERTIFICATE_VERIFY
              then mkScan (sc_found s) (sc_verified s) (sc_key s) (Some (length pre)) else s in
     scan_messages x509 n (pre ++ message ++ post) auth_key (length (pre ++ message))
       (mkScan (S (sc_found s)) (sc_verified s) (sc_key s) (sc_cv s))).
Proof.
  intros Hty Hn message. destruct (message_reads pre ty payload post Hty Hn) as (Hi & Hl & Hm & Hs).
  fold message in Hi, Hl, Hm, Hs. cbn [scan_messages].
  rewrite (proj2 (Nat.leb_gt _ _)) by (rewrite !length_app; lia).
  rewrite (proj2 (Nat.ltb_ge _ _)) by (rewrite !length_app; lia).
  rewrite Hi, Hl. cbn [mbind res_bind]. rewrite Nat2Z.id.
  replace (length pre + 4 + length payload)%nat with (length pre + length message)%nat by lia.
  rewrite (proj2 (Nat.ltb_ge _ _)) by (rewrite !length_app; lia).
  rewrite Hs, length_app, val8_to_u8, Z.mod_small by done. done.
Qed.

Lemma certificate_is_message der : exists payload, construct_certificate der = handshake_message HS_CERTIFICATE payload
  /\ length payload = (length der + 9)%nat.
Proof.
  exists (of_zs [0] ++ len24 (3 + length der + 2) ++ len24 (length der) ++ der ++ of_zs [0; 0]).
  assert (length (of_zs [0] ++ len24 (3 + length der + 2) ++ len24 (length der) ++ der ++ of_zs [0; 0]) = (length der + 9)%nat) as Hl.
  { rewrite !length_app. unfold len24. rewrite !length_be_bytes. cbn. lia. }
  split; [|done]. unfold construct_certificate, handshake_message. rewrite Hl. do 2 f_equal. unfold len24. do 2 f_equal. lia.
Qed.

Context (auth_key key der : bytes) (sign : bytes -> bytes).
Hypothesis Hder : Z.of_nat (length der) < 2 ^ 23.
Hypothesis Hx509 : x509 der = Ok (key, hmac_sha512 auth_key key).
Hypothesis Hkey : length key = 32%nat.
Hypothesis Hmac : length (hmac_sha512 auth_key key) = 64%nat.
Hypothesis Hsign : forall content, length (sign content) = 64%nat /\ ed25519_verify key content (sign content) = true.

Lemma certificate_accepted : (cert_der ← extract_certificate_der (construct_certificate der);
    _ ← verify_certificate_hmac x509 cert_der auth_key;
    k ← extract_ed25519_public_key x509 cert_der; Ok (cert_der, k)) = Ok (der, key).
Proof using All.
  rewrite certificate_read by done. cbn [mbind res_bind].
  unfold verify_certificate_hmac, extract_ed25519_public_key, parse_x509. rewrite Hx509. cbn [map_err mbind res_bind].
  rewrite Hkey, Hmac. cbn [Nat.eqb negb]. by rewrite bool_decide_true.
Qed.

Definition flight_of (hash verify_data : bytes) : list bytes :=
  [construct_encrypted_extensions; construct_certificate der; construct_certificate_verify sign hash; construct_finished verify_data].

(** The first [m] messages, as they follow each other. *)
Definition first_messages (messages : list bytes) (m : nat) : bytes := concat (take m messages).

Lemma first_messages_more messages m n : first_messages messages (m + n) = first_messages messages m ++ concat (take n (drop m messages)).
Proof using. unfold first_messages. by rewrite <- take_take_drop, concat_app. Qed.

Lemma first_messages_next messages m msg : messages !! m = Some msg -> first_messages messages (S m) = first_messages messages m ++ msg.
Proof using. intros H. unfold first_messages. rewrite (take_S_r _ _ _ H), concat_app. cbn [concat]. by rewrite app_nil_r. Qed.

Definition cv_at : nat := length (construct_encrypted_extensions ++ construct_certificate der).

(** What the scan has found after [m] messages. *)
Definition scan_at (m : nat) : Scan :=
  mkScan m (2 <=? m)%nat (if (2 <=? m)%nat then Some key else None) (if (3 <=? m)%nat then Some cv_at else None).

(** One message, whatever the Finished says. *)
Lemma message_scanned hash verify_data n m msg post : Z.of_nat (length verify_data) < 2 ^ 24 ->
  let messages := flight_of hash verify_data in
  messages !! m = Some msg ->
  scan_messages x509 (S n) (first_messages messages m ++ msg ++ post) auth_key (length (first_messages messages m)) (scan_at m)
  = scan_messages x509 n (first_messages messages m ++ msg ++ post) auth_key (length (first_messages messages (S m))) (scan_at (S m)).
Proof using All.
  intros Hv messages Hm. rewrite (first_messages_next _ _ _ Hm). destruct (Hsign (signed_content hash)) as [Hsl _].
  destruct (certificate_is_message der) as (cert & Hcert & Hlen).
  destruct m as [|[|[|[|m]]]]; [..|by destruct m]; injection Hm as <-.
  - change construct_encrypted_extensions with (handshake_message HS_ENCRYPTED_EXTENSIONS (of_zs [0; 0])). by rewrite scan_step.
  - pose proof certificate_accepted as Hacc. rewrite Hcert in *. rewrite scan_step; [|done|lia].
    cbn [Z.eqb Pos.eqb HS_CERTIFICATE HS_CERTIFICATE_VERIFY].
    destruct (extract_certificate_der _) as [d| |]; cbn [mbind res_bind] in *; try done.
    destruct (verify_certificate_hmac x509 d auth_key) as [[]| |]; cbn [mbind res_bind] in *; try done.
    destruct (extract_ed25519_public_key x509 d) as [k| |]; cbn [mbind res_bind] in *; try done.
    by apply Ok_inj, pair_equal_spec in Hacc as [_ ->].
  - unfold construct_certificate_verify.
    rewrite scan_step; [|done|unfold len16; rewrite !length_app, length_be_bytes, Hsl; done].
    cbn [Z.eqb Pos.eqb HS_CERTIFICATE HS_CERTIFICATE_VERIFY mbind res_bind].
    assert (length (first_messages messages 2) = cv_at) as ->; [|done].
    unfold first_messages, cv_at. cbn [messages flight_of take concat]. by rewrite app_nil_r.
  - unfold construct_finished. by rewrite scan_step.
Qed.

(** The messages of a record are scanned to its end, from where it begins. *)
Lemma group_scanned hash verify_data n : Z.of_nat (length verify_data) < 2 ^ 24 ->
  let messages := flight_of hash verify_data in
  forall m, (m + n <= 4)%nat ->
  scan_messages x509 (4 - m) (first_messages messages (m + n)) auth_key (length (first_messages messages m)) (scan_at m) = Ok (scan_at (m + n)).
Proof using All.
  intros Hv messages. induction n as [|n IH]; intros m Hm.
  - rewrite Nat.add_0_r. destruct (4 - m)%nat as [|k]; [done|]. cbn [scan_messages]. by rewrite Nat.leb_refl.
  - destruct (lookup_lt_is_Some_2 messages m) as [msg Hmsg]; [cbn; lia|].
    specialize (IH (S m) ltac:(lia)). replace (S m + n)%nat with (m + S n)%nat in IH by lia. rewrite <- IH.
    replace (4 - m)%nat with (S (4 - S m)) by lia.
    rewrite first_messages_more, (drop_S _ _ _ Hmsg). cbn [take concat]. by apply message_scanned.
Qed.

(** The signature is found where the scan says and it is right. *)
Lemma flight_signed suite transcript verify_data :
  let before := construct_encrypted_extensions ++ construct_certificate der in
  check_certificate_verify suite transcript (concat (flight_of (digest (suite_hash suite) (transcript ++ before)) verify_data))
    (scan_at 4) = Ok tt.
Proof using All.
  intros before. unfold check_certificate_verify. cbn [scan_at Nat.leb sc_key sc_cv].
  set (hash := digest _ _). destruct (Hsign (signed_content hash)) as [Hsl Hok].
  assert (concat (flight_of hash verify_data) = before ++ construct_certificate_verify sign hash ++ construct_finished verify_data) as ->
    by (unfold flight_of, before; cbn [concat]; by rewrite app_nil_r, <- app_assoc).
  destruct (message_reads before HS_CERTIFICATE_VERIFY (of_zs [8; 7] ++ len16 (length (sign (signed_content hash))) ++ sign (signed_content hash))
              (construct_finished verify_data)) as (_ & Hl & Hm & Hs).
  { done. }
  { unfold len16. rewrite !length_app, length_be_bytes, Hsl. done. }
  fold (construct_certificate_verify sign hash) in Hl, Hm, Hs.
  change cv_at with (length before).
  assert (sub_slice (E := io_error) 0 (length before) (before ++ construct_certificate_verify sign hash ++ construct_finished verify_data) = Ok before) as ->.
  { apply (sub_slice_mid [] before); done. }
  cbn [mbind res_bind]. rewrite Hl. cbn [mbind res_bind]. rewrite Nat2Z.id.
  rewrite <- Nat.add_assoc, <- Hm, Hs. cbn [mbind res_bind]. rewrite certificate_verify_read by done. cbn [mbind res_bind].
  unfold verify_certificate_verify_signature. rewrite Hsl. cbn [Nat.eqb negb].
  fold before hash. by rewrite Hok.
Qed.
End Flight.

(** ** A record at the front of the buffer *)

Lemma record_front b h body rest : length h = 3%nat -> (length body < Z.to_nat 65536)%nat ->
  buffered b (((h ++ len16 (length body)) ++ body) ++ rest) ->
  front_record b = Ok (Some (length body))
  /\ sb_index_to b (TLS_RECORD_HEADER_SIZE + length body) = Ok ((h ++ len16 (length body)) ++ body)
  /\ sb_index_range b TLS_RECORD_HEADER_SIZE (TLS_RECORD_HEADER_SIZE + length body) = Ok body
  /\ (forall x, h !! 0%nat = Some x -> sb_index b 0 = Ok x).
Proof.
  intros Hh Hn [room Hs]. unfold len16 in *.
  assert (length (h ++ be_bytes 2 (Z.of_nat (length body))) = TLS_RECORD_HEADER_SIZE) as H5 by (by rewrite length_app, Hh, length_be_bytes).
  split; [|split; [|split]].
  - rewrite (front_record_ok _ _ _ Hs). cbn [q_bytes]. f_equal. rewrite <- app_assoc. by apply front_of_record.
  - unfold sb_index_to. rewrite (front_ok _ _ _ _ Hs).
    + cbn [q_bytes]. f_equal. apply take_app_length'. rewrite length_app. lia.
    + cbn [q_bytes]. rewrite !(length_app _ rest), (length_app _ body). lia.
  - unfold sb_index_range. rewrite (range_ok _ _ _ _ _ Hs).
    + cbn [q_bytes]. f_equal. rewrite <- app_assoc. by apply take_header.
    + cbn [q_bytes]. rewrite !(length_app _ rest), (length_app _ body). lia.
  - intros x Hx. destruct Hs as (pre & post & -> & _ & _ & _). unfold sb_index. cbn [sb_data sb_start q_bytes].
    destruct h as [|y h]; [done|]. injection Hx as ->. rewrite Nat.add_0_r. cbn [app]. by apply index_app.
Qed.

(** Of a record and what follows it, a prefix is either too short or has the
    whole record. *)
Lemma record_split h body rest part later : length h = 3%nat -> (length body <= MAX_TLS_CIPHERTEXT_LEN)%nat ->
  part ++ later = ((h ++ len16 (length body)) ++ body) ++ rest ->
  (front_of part = None /\ (length part <= TLS_MAX_RECORD_SIZE)%nat)
  \/ exists part', part = ((h ++ len16 (length body)) ++ body) ++ part' /\ part' ++ later = rest.
Proof.
  intros Hh Hn Heq. assert (length body < Z.to_nat 65536)%nat as Hn' by (unfold MAX_TLS_CIPHERTEXT_LEN in Hn; lia).
  set (record := (h ++ len16 (length body)) ++ body) in *.
  assert (length record = 5 + length body)%nat as Hr
    by (subst record; unfold len16; rewrite !length_app, length_be_bytes; lia).
  apply app_eq_inv in Heq as [(k & Hk1 & Hk2)|(k & Hk1 & Hk2)]; [right; by exists k|].
  destruct (decide (part = record)) as [->|Hne].
  - right. exists []. rewrite app_nil_r. split; [done|]. rewrite <- (app_nil_r record) in Hk1 at 1.
    apply app_inv_head in Hk1 as <-. done.
  - left. split; [eapply (front_of_prefix h (length body) body); try done; by exists k|].
    apply (f_equal length) in Hk1. rewrite length_app in Hk1. unfold TLS_MAX_RECORD_SIZE, TLS_RECORD_HEADER_SIZE. lia.
Qed.

Lemma consume_record debug c record rest n : buffered (ciphertext_read_buf c) (record ++ rest) ->
  length record = (TLS_RECORD_HEADER_SIZE + n)%nat ->
  exists b, consume_cin debug (TLS_RECORD_HEADER_SIZE + n) c = (set_cin b c, Ok tt) /\ buffered b rest.
Proof. intros Hb Hn. by eapply consume_cin_ok. Qed.

Lemma length_record h body : length h = 3%nat ->
  length ((h ++ len16 (length body)) ++ body) = (TLS_RECORD_HEADER_SIZE + length body)%nat.
Proof. intros Hh. unfold len16. rewrite !length_app, length_be_bytes, Hh. done. Qed.

Lemma change_cipher_spec_turn `{A : Aead} `{C : Crypto} x509 debug pr key iv c rest :
  derive_traffic_keys (server_hs_secret pr) (hs_cipher_suite pr) = Ok (key, iv) ->
  buffered (ciphertext_read_buf c) (change_cipher_spec ++ rest) ->
  exists b, handshake_record x509 debug pr c = (set_cin b c, Ok None) /\ buffered b rest.
Proof.
  intros Hk Hb.
  destruct (record_front _ [to_u8 20; to_u8 3; to_u8 3] [to_u8 1] rest eq_refl ltac:(cbn; lia) Hb) as (Hf & _ & _ & Hi).
  destruct (consume_record debug c _ rest 1 Hb) as (b & Hc & Hb'); [done|].
  exists b. split; [|done]. unfold handshake_record.
  rewrite (lift_bind _ _ _ _ Hk), get_bind, (lift_bind _ _ _ _ Hf), (lift_bind _ _ _ _ (Hi _ eq_refl)).
  change (val8 (to_u8 20) =? CT_CHANGE_CIPHER_SPEC) with true. cbn [length]. cbv match.
  erewrite run_bind; [|exact Hc]. done.
Qed.
(** ** Sealing one handshake record and opening it *)

Lemma aead_key_new_ok suite key : length key = suite_key_len suite -> aead_key_new suite key = Ok (mkAeadKey suite key).
Proof. intros H. unfold aead_key_new. by rewrite H, Nat.eqb_refl. Qed.

Lemma encrypt_handshake_opens `{A : Aead} {LA : AeadLaws A} debug k iv (Hiv : length iv = 12%nat) data seq out :
  (0 < length data)%nat -> (length data <= MAX_TLS_PLAINTEXT_LEN)%nat -> 0 <= seq < 2 ^ 64 - 1 ->
  exists ct, length ct = (length data + 17)%nat
    /\ encrypt_handshake debug k iv data (seq, out) = Ok (seq + 1, out ++ make_record_header (length ct) ++ ct)
    /\ decrypt_record k iv seq ct (length ct) = (seq + 1, Ok (CT_HANDSHAKE, data)).
Proof.
  intros H0 Hmax Hseq. destruct (seal_inner_opens debug k iv Hiv data CT_HANDSHAKE 0 seq out) as (ct & Hl & He & Hd); [done|lia|done|].
  exists ct. split; [lia|]. split; [|done]. unfold encrypt_handshake. destruct data as [|b data]; [cbn in H0; lia|].
  cbn [is_nil]. by rewrite (proj2 (Nat.leb_le _ _)).
Qed.

Lemma decrypt_handshake_opens `{A : Aead} {LA : AeadLaws A} suite key iv k seq ct s t content :
  aead_key_new suite key = Ok k -> decrypt_record k iv seq ct (length ct) = (s, Ok (t, content)) ->
  decrypt_handshake_message suite key iv seq ct (length ct) = Ok content.
Proof.
  intros Hk. unfold decrypt_record, decrypt_handshake_message. rewrite Hk. cbn [mbind res_bind].
  destruct (open_record _ _ _ _ _) as [pl| |]; [|done..]. cbn [mbind res_bind].
  destruct (next_seq seq) as [n| |]; [|done..]. intros [= _ H]. unfold strip_content_type_with_padding.
  destruct pl; [done|]. by rewrite H.
Qed.

(** *** A flight in records *)

Section Sealed.
Context `{A : Aead} {LA : AeadLaws A} (debug : bool) (k : AeadKey) (iv : bytes) (messages : list bytes).

(** What is left of a flight of four messages after [r] records with [m] of
    them: for each record the number of its messages and its ciphertext. *)
Fixpoint sealed (r : Z) (m : nat) (l : list (nat * bytes)) : Prop :=
  match l with
  | [] => m = 4%nat
  | (n, ct) :: l =>
      (0 < n)%nat /\ (m + n <= 4)%nat /\ (length ct <= MAX_TLS_CIPHERTEXT_LEN)%nat
      /\ decrypt_record k iv r ct (length ct) = (r + 1, Ok (CT_HANDSHAKE, concat (take n (drop m messages))))
      /\ sealed (r + 1) (m + n) l
  end.

Definition flight_wire (l : list (nat * bytes)) : bytes :=
  concat (map (fun x : nat * bytes => make_record_header (length x.2) ++ x.2) l).

Lemma sealed_end r l : sealed r 4 l -> l = [].
Proof using Type. destruct l as [|[n ct] l]; [done|]. cbn [sealed]. intros (? & ? & _). lia. Qed.

Lemma part_length m n : messages !! m <> None -> (0 < n)%nat -> Forall (fun x : bytes => 0 < length x)%nat messages ->
  (0 < length (concat (take n (drop m messages))) <= length (concat messages))%nat.
Proof using Type.
  intros Hm Hn Hall. destruct (messages !! m) as [x|] eqn:Ex; [|done]. destruct n as [|n]; [lia|].
  split.
  - rewrite (drop_S _ _ _ Ex). cbn [take concat]. rewrite length_app. rewrite Forall_lookup in Hall. specialize (Hall _ _ Ex). lia.
  - rewrite <- (take_drop m messages) at 2. rewrite <- (take_drop (S n) (drop m messages)) at 2. rewrite !concat_app, !length_app. lia.
Qed.

Lemma seal_records_ok (Hiv : length iv = 12%nat) (Hall : Forall (fun x : bytes => 0 < length x)%nat messages)
    (Hfour : length messages = 4%nat) (Hmax : (length (concat messages) <= MAX_TLS_PLAINTEXT_LEN)%nat) cuts :
  Forall (fun n => 0 < n)%nat cuts -> forall r m out, (m + sum_list cuts = 4)%nat -> 0 <= r <= Z.of_nat m ->
  exists s l, seal_records debug k iv (grouped cuts (drop m messages)) (r, out) = Ok (s, out ++ flight_wire l) /\ sealed r m l.
Proof using LA.
  induction cuts as [|n cuts IH]; intros Hpos r m out Hsum Hr; cbn [grouped seal_records sum_list_with id] in *.
  - exists r, []. unfold flight_wire. cbn. rewrite app_nil_r. split; [done|lia].
  - apply Forall_cons in Hpos as [Hn Hpos].
    destruct (part_length m n) as [H1 H2]; [apply not_eq_None_Some, lookup_lt_is_Some_2; lia|done|done|].
    destruct (encrypt_handshake_opens debug k iv Hiv (concat (take n (drop m messages))) r out) as (ct & Hl & -> & Ho); [lia|lia|lia|].
    cbn [mbind res_bind]. rewrite drop_drop.
    destruct (IH Hpos (r + 1) (m + n)%nat (out ++ make_record_header (length ct) ++ ct)) as (s & l & -> & Hs); [lia|lia|].
    exists s, ((n, ct) :: l). split; [unfold flight_wire; cbn [map concat snd]; by rewrite <- !app_assoc|].
    cbn [sealed]. split; [done|]. split; [lia|]. split; [unfold MAX_TLS_CIPHERTEXT_LEN, MAX_TLS_PLAINTEXT_LEN in *; lia|done].
Qed.
End Sealed.

(** ** The turns of the client *)

Section Turns.
Context `{A : Aead} {LA : AeadLaws A} `{C : Crypto} {LC : CryptoLaws C} (x509 : bytes -> res str (bytes * bytes)) (debug : bool).
Context (p : Peer) (hello private_key auth_key public shared : bytes).
Hypothesis Hpub : length public = 32%nat.
Hypothesis Hrandom : length (peer_random p) = 32%nat.
Hypothesis Hsession : (length (peer_session p) <= 32)%nat.
Hypothesis Hagree : x25519_agree private_key public = Some shared.

Let suite := peer_suite p.
Let sh := server_hello p public.
Let hello_record := write_record_header CT_HANDSHAKE (Z.of_nat (length sh)) ++ sh.

Lemma length_server_hello : (length sh <= 200)%nat.
Proof using Hpub Hrandom Hsession.
  subst sh. unfold server_hello, construct_server_hello, handshake_message, len24, len16. cbn [length].
  rewrite !length_app, !length_be_bytes, Hrandom, Hpub. cbn [length of_zs map]. lia.
Qed.

Lemma hello_record_shape : hello_record = ([to_u8 CT_HANDSHAKE; to_u8 3; to_u8 3] ++ len16 (length sh)) ++ sh.
Proof using. done. Qed.

Context (ks : Tls13HandshakeKeys).
Hypothesis Hks : derive_handshake_keys suite shared (digest (suite_hash suite) (hello ++ sh)) = Ok ks.

Lemma server_hello_turn c rest : buffered (ciphertext_read_buf c) (hello_record ++ rest) ->
  exists b, process_server_hello debug hello private_key auth_key c
    = (set_state (ProcessingHandshake (mkProcessing (client_handshake_traffic_secret ks) (server_handshake_traffic_secret ks) (master_secret ks)
                           suite (hello ++ sh) auth_key 0 [] 0 false None None)) (set_cin b c), Ok true) /\ buffered b rest.
Proof using All.
  intros Hb. pose proof length_server_hello as Hlen.
  destruct (record_front _ [to_u8 CT_HANDSHAKE; to_u8 3; to_u8 3] sh rest eq_refl ltac:(lia) Hb) as (Hf & Ht & _ & _).
  destruct (consume_record debug c _ rest (length sh) Hb) as (b & Hc & Hb'); [by apply (length_record [_; _; _])|].
  exists b. split; [|done]. unfold process_server_hello.
  rewrite get_bind, (lift_bind _ _ _ _ Hf), (lift_bind _ _ _ _ Ht). erewrite run_bind; [|exact Hc].
  assert (0 <= suite_id suite < 65536) as Hid by (by destruct suite).
  erewrite lift_bind; [|by apply server_key_read; try done; lia].
  erewrite lift_bind; [|by apply server_suite_read; try done; lia].
  rewrite suite_from_id_of. cbn [ok_or]. erewrite lift_bind; [|reflexivity].
  rewrite Hagree. cbn [ok_or]. erewrite lift_bind; [|reflexivity].
  fold suite. change (drop TLS_RECORD_HEADER_SIZE _) with sh. erewrite lift_bind; [|exact Hks]. reflexivity.
Qed.


(** *** The encrypted flight *)

Context (key der : bytes) (k : AeadKey) (iv : bytes) (messages : list bytes) (client_secret server_secret : bytes) (rd wr : AeadKey * bytes).
Hypothesis Hder : Z.of_nat (length der) < 2 ^ 23.
Hypothesis Hpeer : peer_der p = der.
Hypothesis Hx509 : x509 der = Ok (key, hmac_sha512 auth_key key).
Hypothesis Hkey : length key = 32%nat.
Hypothesis Hmac : length (hmac_sha512 auth_key key) = 64%nat.
Hypothesis Hsign : forall content, length (peer_sign p content) = 64%nat /\ ed25519_verify key content (peer_sign p content) = true.
Hypothesis Htraffic : traffic suite (server_handshake_traffic_secret ks) = Ok (k, iv).
Hypothesis Hflight : flight p (server_handshake_traffic_secret ks) (hello ++ sh) = Ok messages.
Hypothesis Hsecrets : derive_application_secrets suite (master_secret ks) (digest (suite_hash suite) ((hello ++ sh) ++ concat messages))
                      = Ok (client_secret, server_secret).
Hypothesis Hrd : traffic suite server_secret = Ok rd.
Hypothesis Hwr : traffic suite client_secret = Ok wr.

Let first (m : nat) : bytes := first_messages messages m.

(** The state after [r] records of the flight with [m] of its messages. *)
Definition processing (r : Z) (m : nat) : Processing :=
  let s := scan_at key der m in
  mkProcessing (client_handshake_traffic_secret ks) (server_handshake_traffic_secret ks) (master_secret ks) suite
    (hello ++ sh) auth_key r (first m) (sc_found s) (sc_verified s) (sc_key s) (sc_cv s).

Abbreviation sealed := (sealed k iv messages).

Lemma messages_shape : exists verify_data, Z.of_nat (length verify_data) < 2 ^ 24
  /\ messages = flight_of der (peer_sign p)
       (digest (suite_hash suite) ((hello ++ sh) ++ construct_encrypted_extensions ++ construct_certificate der)) verify_data.
Proof using All.
  unfold flight in Hflight. destruct (compute_finished_verify_data _ _ _) as [v| |] eqn:Ev; [|done..].
  cbn [mbind res_bind] in Hflight. apply Ok_inj in Hflight as <-. exists v. split.
  - match type of Ev with compute_finished_verify_data _ _ ?h = _ =>
      destruct (compute_finished_ok (peer_suite p) (server_handshake_traffic_secret ks) h) as (v' & Hv & Hl) end.
    rewrite Hv in Ev. apply Ok_inj in Ev as <-. rewrite Hl. by destruct (peer_suite p).
  - unfold flight_of. rewrite Hpeer. fold suite. cbn [app concat]. by rewrite app_nil_r.
Qed.

Lemma first_all : first 4 = concat messages.
Proof using All. destruct messages_shape as (v & _ & ->). done. Qed.

Lemma record_scanned m n : (m + n <= 4)%nat ->
  scan_messages x509 (4 - m) (first (m + n)) auth_key (length (first m)) (scan_at key der m) = Ok (scan_at key der (m + n)).
Proof using All. intros H. destruct messages_shape as (v & Hv & Hm). subst first. cbv beta. rewrite Hm. by eapply group_scanned. Qed.

Lemma signature_checked : check_certificate_verify suite (hello ++ sh) (first 4) (scan_at key der 4) = Ok tt.
Proof using All. rewrite first_all. destruct messages_shape as (v & Hv & ->). by eapply flight_signed. Qed.

Lemma finish_ok r m out : exists fin,
  finish_handshake debug (processing r m) (first 4) out = Ok (out ++ fin, (rd, wr)).
Proof using All.
  rewrite first_all. unfold finish_handshake. cbn [hs_cipher_suite transcript_bytes client_hs_secret hs_master_secret processing].
  destruct (compute_finished_ok suite (client_handshake_traffic_secret ks)
              (digest (suite_hash suite) ((hello ++ sh) ++ concat messages))) as (v & -> & Hv). cbn [mbind res_bind].
  destruct (derive_traffic_keys_ok (client_handshake_traffic_secret ks) suite) as (ck & civ & -> & Hck & Hciv). cbn [mbind res_bind].
  rewrite (aead_key_new_ok _ _ Hck). cbn [mbind res_bind].
  destruct (encrypt_handshake_opens debug (mkAeadKey suite ck) civ Hciv (construct_finished v) 0 out) as (c & _ & -> & _).
  { unfold construct_finished, handshake_message. cbn [length]. lia. }
  { unfold construct_finished, handshake_message, len24. cbn [length]. rewrite length_app, length_be_bytes, Hv.
    unfold MAX_TLS_PLAINTEXT_LEN. destruct suite; cbn [hash_len output_len suite_hash]; lia. }
  { done. }
  cbn [mbind res_bind]. rewrite Hsecrets. cbn [mbind res_bind].
  unfold traffic in Hrd, Hwr.
  destruct (derive_traffic_keys client_secret suite) as [[k1 iv1]| |]; [|done..]. cbn [mbind res_bind] in *.
  destruct (derive_traffic_keys server_secret suite) as [[k2 iv2]| |]; [|done..]. cbn [mbind res_bind] in *.
  destruct (aead_key_new suite k1) as [a1| |]; [|done..]. cbn [mbind res_bind] in *. apply Ok_inj in Hwr as <-.
  destruct (aead_key_new suite k2) as [a2| |]; [|done..]. cbn [mbind res_bind] in *. apply Ok_inj in Hrd as <-.
  by eexists.
Qed.

(** What a record of the flight makes of the connection: the handshake goes on
    with the next one, or the connection is complete. *)
Definition goes_on (c c' : Connection) (r : Z) (m : nat) : Prop :=
  exists b, (m < 4)%nat /\ c' = set_state (ProcessingHandshake (processing r m)) (set_cin b c)
            \/ m = 4%nat /\ exists fin, c' = completed (ciphertext_write_buf c ++ fin) rd wr (set_cin b c).

Lemma traffic_keys : exists k0, derive_traffic_keys (server_handshake_traffic_secret ks) suite = Ok (k0, iv) /\ aead_key_new suite k0 = Ok k.
Proof using All.
  unfold traffic in Htraffic. destruct (derive_traffic_keys _ _) as [[k0 iv0]| |]; [|done..]. cbn [mbind res_bind] in Htraffic.
  exists k0. destruct (aead_key_new suite k0) as [a| |]; [|done..]. by apply Ok_inj, pair_equal_spec in Htraffic as [-> ->].
Qed.

Lemma flight_turn c r m n ct rest : (m + n <= 4)%nat -> (length ct <= MAX_TLS_CIPHERTEXT_LEN)%nat ->
  decrypt_record k iv r ct (length ct) = (r + 1, Ok (CT_HANDSHAKE, concat (take n (drop m messages)))) ->
  buffered (ciphertext_read_buf c) (make_record_header (length ct) ++ ct ++ rest) ->
  exists c', handshake_record x509 debug (processing r m) c = (c', Ok (Some true))
    /\ goes_on c c' (r + 1) (m + n) /\ buffered (ciphertext_read_buf c') rest.
Proof using All.
  intros Hmn Hct Hopens Hb. destruct (record_header_parts (length ct)) as (h & Hh & Eh). rewrite Eh, app_assoc in Hb.
  assert (h !! 0%nat = Some (to_u8 CT_APPLICATION_DATA)) as H0 by (destruct h; [done|]; injection Eh; intros _ ->; done).
  destruct (record_front _ h ct rest Hh ltac:(unfold MAX_TLS_CIPHERTEXT_LEN in Hct; lia) Hb) as (Hf & _ & Hr & Hi).
  destruct (consume_record debug c _ rest (length ct) Hb) as (b & Hc & Hb'); [by apply length_record|].
  destruct traffic_keys as (k0 & Ek & Ea).
  unfold handshake_record. cbn [server_hs_secret hs_cipher_suite processing handshake_seq accumulated_plaintext messages_found
    hs_auth_key certificate_verified ed25519_public_key cert_verify_offset transcript_bytes].
  rewrite (lift_bind _ _ _ _ Ek), get_bind, (lift_bind _ _ _ _ Hf), (lift_bind _ _ _ _ (Hi _ H0)).
  change (val8 (to_u8 CT_APPLICATION_DATA) =? CT_CHANGE_CIPHER_SPEC) with false.
  change (negb (val8 (to_u8 CT_APPLICATION_DATA) =? CT_APPLICATION_DATA)) with false. cbv match.
  rewrite (lift_bind _ _ _ _ Hr). erewrite run_bind; [|exact Hc].
  erewrite lift_bind; [|eapply decrypt_handshake_opens; [exact Ea|exact Hopens]].
  cbv zeta. assert (first m ++ concat (take n (drop m messages)) = first (m + n)) as -> by (symmetry; apply first_messages_more).
  erewrite lift_bind; [|exact (record_scanned m n Hmn)]. cbn [sc_found scan_at].
  destruct (Nat.ltb_spec (m + n) 4) as [Hlt|Hge].
  - rewrite modify_bind. eexists. split; [reflexivity|]. split; [|exact Hb']. exists b. by left.
  - assert (m + n = 4)%nat as E4 by lia. rewrite E4. cbn [sc_verified scan_at Nat.leb negb]. cbv match.
    erewrite lift_bind; [|exact signature_checked]. rewrite get_bind.
    destruct (finish_ok r m (ciphertext_write_buf c)) as (fin & Hfin).
    erewrite lift_bind; [|exact Hfin]. eexists. split; [reflexivity|]. split; [|exact Hb'].
    exists b. right. split; [done|]. by exists fin.
Qed.

(** *** Progress *)

(** Before a record of the flight there may be a ChangeCipherSpec. *)
Definition spec_or_nothing (spec : bytes) : Prop := spec = [] \/ spec = change_cipher_spec.

Context (sent : list (nat * bytes)).
Hypothesis Hsent : sealed 0 0 sent.

(** Where the handshake is, and the bytes of the answer that the client has not
    taken in. *)
Inductive progress (c : Connection) : bytes -> Prop :=
| at_hello : handshake_state c = AwaitingServerHello hello private_key auth_key ->
    progress c (hello_record ++ change_cipher_spec ++ flight_wire sent)
| at_flight r m l spec : handshake_state c = ProcessingHandshake (processing r m) -> (m < 4)%nat -> sealed r m l ->
    spec_or_nothing spec -> progress c (spec ++ flight_wire l)
| at_end : handshake_state c = Complete -> app_read c = Some rd -> app_write c = Some wr -> read_seq c = 0 -> progress c [].

Lemma progress_same c c' w : handshake_state c' = handshake_state c -> app_read c' = app_read c -> app_write c' = app_write c ->
  read_seq c' = read_seq c -> progress c w -> progress c' w.
Proof using Type.
  intros H1 H2 H3 H4 Hp. inversion Hp; [apply at_hello|eapply at_flight|apply at_end]; try done; congruence.
Qed.

(** Nothing else is going on. *)
Definition quiet (c : Connection) : Prop :=
  buffered (plaintext_read_buf c) [] /\ received_close_notify c = false /\ fatal_error c = None /\ plaintext_write_buf c = [].

Lemma no_record_turn c r m part : buffered (ciphertext_read_buf c) part -> front_of part = None ->
  handshake_record x509 debug (processing r m) c = (c, Ok (Some false)).
Proof using All.
  intros [room Hs] Hf. destruct traffic_keys as (k0 & Hk & _). unfold handshake_record.
  cbn [server_hs_secret hs_cipher_suite processing]. rewrite (lift_bind _ _ _ _ Hk), get_bind.
  pose proof (front_record_ok _ _ _ Hs) as Hfr. cbn [q_bytes] in Hfr. rewrite Hf in Hfr. by rewrite (lift_bind _ _ _ _ Hfr).
Qed.

(** The bytes in the buffer do not make a record. *)
Definition waits (part : bytes) : Prop := front_of part = None /\ (length part <= TLS_MAX_RECORD_SIZE)%nat.

(** A call of [process_encrypted_handshake] handles the next record of the
    flight, or it waits for more of it. *)
Definition handled (c c' : Connection) (later : bytes) (r : Z) (m : nat) (l : list (nat * bytes)) (more : bool) : Prop :=
  match l with
  | (n, ct) :: l' =>
      exists part', buffered (ciphertext_read_buf c') part' /\
        if more then goes_on c c' (r + 1) (m + n) /\ part' ++ later = flight_wire l'
        else (exists b spec, c' = set_cin b c /\ spec_or_nothing spec /\ part' ++ later = spec ++ flight_wire l) /\ waits part'
  | [] => False
  end.

Lemma flight_progress c r m l part later fuel : (m < 4)%nat -> sealed r m l -> buffered (ciphertext_read_buf c) part ->
  part ++ later = flight_wire l ->
  exists c' more, process_encrypted_handshake x509 debug (S fuel) (processing r m) c = (c', Ok more) /\ handled c c' later r m l more.
Proof using All.
  intros Hm Hl Hb Hw. destruct l as [|[n ct] l]; [cbn in Hl; lia|]. destruct Hl as (Hn & Hmn & Hct & Hopen & Hl).
  destruct (record_header_parts (length ct)) as (h & Hh & Eh).
  assert (part ++ later = ((h ++ len16 (length ct)) ++ ct) ++ flight_wire l) as Hw' by (by rewrite <- Eh, <- app_assoc, Hw).
  cbn [process_encrypted_handshake handled].
  destruct (record_split h ct (flight_wire l) part later Hh Hct Hw') as [[Hf Hlen]|(part' & -> & Hrest)].
  - exists c, false. erewrite run_bind; [|by eapply no_record_turn]. split; [done|]. exists part. split; [done|]. split; [|done].
    exists (ciphertext_read_buf c), []. split; [by destruct c|]. split; [by left|done].
  - rewrite <- Eh, <- app_assoc in Hb. destruct (flight_turn c r m n ct part' Hmn Hct Hopen Hb) as (c' & Hrun & Hgo & Hb').
    exists c', true. erewrite run_bind; [|exact Hrun]. split; [done|]. by exists part'.
Qed.

Lemma encrypted_progress c r m l spec part later fuel : (m < 4)%nat -> sealed r m l -> buffered (ciphertext_read_buf c) part ->
  spec_or_nothing spec -> part ++ later = spec ++ flight_wire l ->
  exists c' more, process_encrypted_handshake x509 debug (S (S fuel)) (processing r m) c = (c', Ok more) /\ handled c c' later r m l more.
Proof using All.
  intros Hm Hl Hb [->| ->] Hw; [by apply (flight_progress c r m l part later (S fuel))|].
  destruct (record_split [to_u8 20; to_u8 3; to_u8 3] [to_u8 1] (flight_wire l) part later eq_refl
              ltac:(unfold MAX_TLS_CIPHERTEXT_LEN; cbn [length]; lia) Hw) as [[Hf Hlen]|(part' & -> & Hn)].
  - exists c, false. cbn [process_encrypted_handshake]. erewrite run_bind; [|by eapply no_record_turn]. split; [done|].
    destruct l as [|[n ct] l]; [cbn in Hl; lia|]. exists part. split; [done|]. split; [|done].
    exists (ciphertext_read_buf c), change_cipher_spec. split; [by destruct c|]. split; [by right|done].
  - destruct traffic_keys as (k0 & Hk & _).
    destruct (change_cipher_spec_turn x509 debug (processing r m) k0 iv c part' Hk Hb) as (b & Hrun & Hb').
    assert (process_encrypted_handshake x509 debug (S (S fuel)) (processing r m) c
            = process_encrypted_handshake x509 debug (S fuel) (processing r m) (set_cin b c)) as ->.
    { cbn [process_encrypted_handshake]. erewrite run_bind; [|exact Hrun]. done. }
    exact (flight_progress (set_cin b c) r m l part' later fuel Hm Hl Hb' Hn).
Qed.

(** *** A call with what has arrived *)

Definition settled (c c' : Connection) (later : bytes) : Prop :=
  exists part, progress c' (part ++ later) /\ quiet c' /\ buffered (ciphertext_read_buf c') part /\ front_of part = None
    /\ (length part <= TLS_MAX_RECORD_SIZE)%nat /\ exists fin, ciphertext_write_buf c' = ciphertext_write_buf c ++ fin.

Lemma nothing_unread c : quiet c -> sb_len (plaintext_read_buf c) = 0%nat.
Proof using. intros [Hb _]. by rewrite (buffered_len _ _ Hb). Qed.

(** With nothing to read, the application loop leaves the connection alone. *)
Lemma complete_waits c fuel part : handshake_state c = Complete -> app_read c = Some rd -> quiet c ->
  buffered (ciphertext_read_buf c) part -> front_of part = None -> process_packets x509 debug (S fuel) c = (c, Ok 0%nat).
Proof using All.
  intros Hs Hr Hq [room Hb] Hf. cbn [process_packets]. rewrite get_bind, Hs.
  pose proof (front_record_ok _ _ _ Hb) as Hfr. cbn [q_bytes] in Hfr. rewrite Hf in Hfr.
  erewrite run_bind with (c' := c) (a := tt).
  - unfold mbind, M_bind, get, mret, M_ret. by rewrite (nothing_unread c Hq).
  - unfold process_application_data. rewrite get_bind, Hr. destruct rd as [rk riv]. cbn [application_records].
    erewrite run_bind with (c' := c) (a := false); [done|].
    unfold application_record. rewrite get_bind. by rewrite (lift_bind _ _ _ _ Hfr).
Qed.

(** The records of the flight one after the other, until one is not complete. *)
Lemma processing_settles l : forall c r m spec part later fuel, handshake_state c = ProcessingHandshake (processing r m) -> quiet c ->
  buffered (ciphertext_read_buf c) part -> (m < 4)%nat -> sealed r m l -> spec_or_nothing spec -> part ++ later = spec ++ flight_wire l ->
  exists c', process_packets x509 debug (S (length l + fuel)) c = (c', Ok 0%nat) /\ settled c c' later.
Proof using All.
  induction l as [|[n ct] l IH]; intros c r m spec part later fuel Hs Hq Hb Hm Hl Hspec Hw; [cbn in Hl; lia|].
  destruct (encrypted_progress c r m _ spec part later (unread c) Hm Hl Hb Hspec Hw) as (c1 & more & Hrun & part' & Hb' & Hres).
  assert (process_encrypted_handshake x509 debug (S (sb_len (ciphertext_read_buf c))) (processing r m) c = (c1, Ok more)) as Hrun'.
  { rewrite <- Hrun. symmetry. apply process_encrypted_fuel. lia. }
  set (f := (length ((n, ct) :: l) + fuel)%nat). cbn [process_packets]. rewrite get_bind, Hs.
  erewrite run_bind; [|exact Hrun']. destruct more.
  - destruct Hres as [(b & [[Hlt ->]|[E4 [fin ->]]]) Hw'].
    + destruct Hl as (_ & _ & _ & _ & Hl).
      destruct (IH (set_state (ProcessingHandshake (processing (r + 1) (m + n))) (set_cin b c)) (r + 1) (m + n)%nat [] part' later fuel)
        as (c' & Hp & Hset); [done..|by left|done|]. exists c'. split; [exact Hp|exact Hset].
    + destruct Hl as (_ & _ & _ & _ & Hl). rewrite E4 in Hl. apply sealed_end in Hl as ->.
      apply app_eq_nil in Hw' as [-> ->]. eexists. split; [unfold f; cbn [length Nat.add]; by eapply complete_waits|].
      exists []. split; [by apply at_end|]. split; [done|]. split; [done|]. split; [done|]. split; [cbn; lia|]. by exists fin.
  - destruct Hres as [(b & spec' & -> & Hspec' & Hw') [Hf Hlen]]. exists (set_cin b c). split.
    + unfold mbind, M_bind, get, mret, M_ret. cbn. by rewrite (nothing_unread c Hq).
    + exists part'. rewrite Hw'. split; [by eapply at_flight|]. do 4 (split; [done|]). exists []. by rewrite app_nil_r.
Qed.

Lemma packets_settle c part later : progress c (part ++ later) -> quiet c -> buffered (ciphertext_read_buf c) part ->
  exists fuel c', (S (unread c) < fuel)%nat /\ process_packets x509 debug fuel c = (c', Ok 0%nat) /\ settled c c' later.
Proof using All.
  intros Hp Hq Hb. inversion Hp as [Hs Hw|r m l spec Hs Hm Hl Hspec Hw|Hs Hr Hwr' H0 Hw].
  - destruct (record_split [to_u8 CT_HANDSHAKE; to_u8 3; to_u8 3] sh (change_cipher_spec ++ flight_wire sent) part later eq_refl
                ltac:(pose proof length_server_hello; unfold MAX_TLS_CIPHERTEXT_LEN; lia) (eq_sym Hw)) as [[Hf Hl]|(part' & -> & Hn)].
    + exists (S (S (unread c))), c. split; [lia|]. split.
      * set (f := S (unread c)). cbn [process_packets]. rewrite get_bind, Hs. erewrite run_bind with (c' := c) (a := false).
        -- unfold mbind, M_bind, get, mret, M_ret. by rewrite (nothing_unread c Hq).
        -- destruct Hb as [room Hb]. pose proof (front_record_ok _ _ _ Hb) as Hfr. cbn [q_bytes] in Hfr. rewrite Hf in Hfr.
           unfold process_server_hello. rewrite get_bind. by rewrite (lift_bind _ _ _ _ Hfr).
      * exists part. do 5 (split; [done|]). exists []. by rewrite app_nil_r.
    + destruct (server_hello_turn c part' Hb) as (b & Hrun & Hb').
      destruct (processing_settles sent (set_state (ProcessingHandshake (processing 0 0)) (set_cin b c)) 0 0 change_cipher_spec part' later (S (unread c)))
        as (c' & Hrun' & Hset); [done|done|done|lia|done|by right|done|].
      exists (S (S (length sent + S (unread c)))), c'. split; [lia|]. split; [|exact Hset].
      rewrite <- Hrun'. set (f := S (length sent + S (unread c))). cbn [process_packets]. rewrite get_bind, Hs.
      erewrite run_bind; [|exact Hrun]. done.
  - destruct (processing_settles l c r m spec part later (S (unread c))) as (c' & Hrun & Hset); [done..|].
    eexists _, c'. split; [|by split]. lia.
  - symmetry in Hw. apply app_eq_nil in Hw as [-> ->]. exists (S (S (unread c))), c. split; [lia|]. split; [by eapply complete_waits|].
    exists []. do 4 (split; [done|]). split; [cbn; lia|]. exists []. by rewrite app_nil_r.
Qed.

Lemma receive_settles c part filled later : progress c (part ++ filled ++ later) -> quiet c ->
  buffered (ciphertext_read_buf c) part -> (length part <= TLS_MAX_RECORD_SIZE)%nat -> (length filled <= NET_BUFFER)%nat ->
  exists c', receive x509 debug filled c = (c', Ok tt) /\ settled c c' later.
Proof using All.
  intros Hp Hq Hb Hl Hn. destruct (feed_ok debug filled c part Hb Hl Hn) as (b & Hfeed & Hb').
  destruct (packets_settle (set_cin b c) (part ++ filled) later) as (fuel & c' & Hfuel & Hrun & Hset).
  { rewrite <- app_assoc. by apply (progress_same c). }
  { done. }
  { done. }
  exists c'. split; [|exact Hset]. unfold receive. erewrite run_bind; [|exact Hfeed].
  destruct Hq as (_ & Hclose & Hfatal & _).
  assert (process_new_packets x509 debug (set_cin b c) = (c', Ok 0%nat)) as Hproc.
  { unfold process_new_packets. rewrite get_bind. cbn [fatal_error set_cin received_close_notify]. rewrite Hfatal, Hclose.
    fold (unread (set_cin b c)). by rewrite <- (process_new_packets_fuel x509 debug _ fuel Hfuel), Hrun. }
  erewrite run_bind; [|exact Hproc]. done.
Qed.

(** *** The loop *)

Lemma drained c : plaintext_write_buf c = [] ->
  drain_tls debug 2 (mkRealityStream c [] 0)
  = (mkRealityStream (set_out (write_seq c) [] [] c) (ciphertext_write_buf c) 0, Ok tt).
Proof using.
  clear. intros Hp. cbn [drain_tls rs_conn]. unfold wants_write. rewrite Hp.
  destruct (ciphertext_write_buf c) as [|x out] eqn:Ec.
  - cbn. f_equal. f_equal. destruct c. cbn in *. by subst.
  - cbn [is_nil negb orb]. assert (write_all_tls debug c = (set_out (write_seq c) [] [] c, Ok (x :: out))) as ->; [|done].
    unfold write_all_tls, write_tls. rewrite get_bind. erewrite run_bind with (c' := c) (a := tt).
    + rewrite get_bind, Ec. erewrite lift_bind; [|reflexivity].
      rewrite (lift_bind _ _ _ (x :: out)).
      * rewrite modify_bind, Hp, drop_all. done.
      * rewrite <- (app_nil_r (x :: out)) at 2. by apply (sub_slice_mid [] (x :: out) []).
    + rewrite Hp. by destruct (handshake_state c).
Qed.

Lemma progress_front c w : progress c w -> front_of w = None -> handshake_state c = Complete /\ w = [].
Proof using All.
  intros Hp. inversion Hp as [Hs Hw|r m l spec Hs Hm Hl Hspec Hw|Hs Hr Hwr' H0 Hw]; [| |done]; intros Hf; exfalso.
  - change (front_of ((([to_u8 CT_HANDSHAKE; to_u8 3; to_u8 3] ++ len16 (length sh)) ++ sh) ++ change_cipher_spec ++ flight_wire sent) = None) in Hf.
    rewrite <- app_assoc, (front_of_record _ (length sh)) in Hf; [done|done|done|].
    pose proof length_server_hello; lia.
  - destruct Hspec as [->| ->].
    + destruct l as [|[n ct] l]; [cbn in Hl; lia|]. destruct Hl as (_ & _ & Hct & _).
      destruct (record_header_parts (length ct)) as (h & Hh & Eh). unfold flight_wire in Hf. cbn [map concat snd app] in Hf.
      rewrite Eh, <- app_assoc in Hf. rewrite front_of_record in Hf; [done|done|done|]. unfold MAX_TLS_CIPHERTEXT_LEN in Hct; lia.
    + assert (front_of (([to_u8 20; to_u8 3; to_u8 3] ++ len16 1) ++ [to_u8 1] ++ flight_wire l) = Some 1%nat) as H1
        by (apply front_of_record; [done|done|lia]).
      change (front_of (change_cipher_spec ++ flight_wire l) = Some 1%nat) in H1. by rewrite H1 in Hf.
Qed.

Definition turns_of (pieces : list bytes) : list (res io_error unit * res io_error bytes) :=
  map (fun x => (Ok tt, Ok x)) pieces ++ [(Ok tt, Ok [])].

Lemma handshake_runs pieces : forall c part, progress c (part ++ concat pieces) -> quiet c ->
  buffered (ciphertext_read_buf c) part -> front_of part = None -> (length part <= TLS_MAX_RECORD_SIZE)%nat ->
  Forall (fun x => x <> [] /\ length x <= NET_BUFFER)%nat pieces ->
  exists c' out, reality_handshake x509 debug (turns_of pieces) c = (c', ciphertext_write_buf c ++ out, Some (Ok tt))
    /\ progress c' [] /\ quiet c' /\ buffered (ciphertext_read_buf c') [] /\ handshake_state c' = Complete.
Proof using All.
  unfold turns_of.
  induction pieces as [|x pieces IH]; intros c part Hp Hq Hb Hf Hl Hall; cbn [map app reality_handshake concat] in *.
  all: pose proof Hq as (_ & _ & _ & Hpw); rewrite (drained c Hpw); cbn [rs_conn wbuf].
  all: set (c1 := set_out (write_seq c) [] [] c).
  all: replace (if is_nil (ciphertext_write_buf c) then Ok tt else Ok tt) with (Ok (E := io_error) tt) by (by destruct (is_nil _)).
  - rewrite app_nil_r in Hp. destruct (progress_front c part Hp Hf) as [Hs ->].
    assert (is_handshaking c1 = false) as -> by (unfold is_handshaking, c1; cbn; by rewrite Hs). cbn [negb].
    exists c1, []. rewrite app_nil_r. split; [done|].
    split; [by apply (progress_same c)|].
    destruct Hq as (H1 & H2 & H3 & _). by repeat split.
  - apply Forall_cons in Hall as [[Hx Hlen] Hall].
    assert (is_handshaking c1 = true) as ->.
    { unfold is_handshaking, c1. cbn. inversion Hp as [Hs Hw|r m l spec Hs ? ? ? Hw|Hs ? ? ? Hw]; rewrite Hs; [done..|].
      symmetry in Hw. apply app_eq_nil in Hw as [_ Hw]. apply app_eq_nil in Hw as [-> _]. done. }
    cbn [negb]. destruct (receive_settles c1 part x (concat pieces)) as (c2 & Hrec & part' & Hp2 & Hq2 & Hb2 & Hf2 & Hl2 & fin & Hfin).
    { by apply (progress_same c). }
    { destruct Hq as (H1 & H2 & H3 & H4). by repeat split. }
    { done. }
    { done. }
    { done. }
    destruct (IH c2 part' Hp2 Hq2 Hb2 Hf2 Hl2 Hall) as (c' & out & Hrun & Hend). rewrite Hrec, Hrun.
    exists c', (fin ++ out). destruct x as [|y x]; [done|]. split; [|exact Hend].
    rewrite Hfin. cbn [ciphertext_write_buf c1 set_out app]. done.
Qed.
End Turns.

(** ** The handshake as a whole *)

(** A new session id does not move anything else of a hello. *)
Lemma put_session_id_new random id id' key name suites alpn : length random = 32%nat -> length id = 32%nat -> length id' = 32%nat ->
  put_session_id id' (construct_client_hello random id key name suites alpn)
  = construct_client_hello random id' key name suites alpn.
Proof.
  intros Hr Hi Hi'. unfold construct_client_hello, handshake_message. set (tail := be_bytes 2 _ ++ _).
  assert (forall id, length id = 32%nat ->
            length (of_zs [3; 3] ++ random ++ of_zs [32] ++ id ++ tail) = (67 + length tail)%nat) as Hl.
  { intros i Hl. rewrite !length_app, Hr, Hl. cbn [length of_zs map]. lia. }
  rewrite !Hl by done. set (pre := to_u8 HS_CLIENT_HELLO :: len24 (67 + length tail) ++ of_zs [3; 3] ++ random ++ of_zs [32]).
  assert (forall i, to_u8 HS_CLIENT_HELLO :: len24 (67 + length tail) ++ of_zs [3; 3] ++ random ++ of_zs [32] ++ i ++ tail
                    = pre ++ i ++ tail) as E.
  { intros i. subst pre. cbn [app]. by rewrite <- !app_assoc. }
  rewrite !E. assert (length pre = 39%nat) as Hp.
  { subst pre. cbn [length]. unfold len24. rewrite !length_app, length_be_bytes, Hr. done. }
  unfold put_session_id. rewrite <- Hp at 1. rewrite take_app_length. do 2 f_equal.
  rewrite app_assoc. replace 71%nat with (length (pre ++ id)) by (rewrite length_app; lia). by rewrite drop_app_length.
Qed.

Lemma buffered_new storage : length storage = CIPHERTEXT_READ_BUF_CAPACITY -> buffered (sb_new storage) [].
Proof. intros Hl. exists CIPHERTEXT_READ_BUF_CAPACITY, [], storage. cbn [q_bytes q_room length app]. by repeat split. Qed.

Lemma traffic_ok `{C : Crypto} {LC : CryptoLaws C} suite secret : exists k iv, traffic suite secret = Ok (k, iv) /\ length iv = 12%nat.
Proof.
  unfold traffic. destruct (derive_traffic_keys_ok secret suite) as (key & iv & -> & Hk & Hiv). cbn [mbind res_bind].
  rewrite aead_key_new_ok by done. by eexists _, iv.
Qed.

Lemma flight_ok `{C : Crypto} {LC : CryptoLaws C} p secret hellos : Z.of_nat (length (peer_der p)) <= 10000 ->
  (forall content, length (peer_sign p content) = 64%nat) ->
  exists messages, flight p secret hellos = Ok messages /\ length messages = 4%nat
    /\ Forall (fun x : bytes => 0 < length x)%nat messages /\ (length (concat messages) <= MAX_TLS_PLAINTEXT_LEN)%nat.
Proof.
  intros Hd Hs. unfold flight.
  match goal with |- context [compute_finished_verify_data _ _ ?h] =>
    destruct (compute_finished_ok (peer_suite p) secret h) as (v & -> & Hv) end.
  cbn [mbind res_bind]. eexists. split; [done|]. split; [done|].
  split; [repeat (apply Forall_cons; split; [cbn; lia|]); by apply Forall_nil|].
  unfold construct_certificate_verify, construct_finished, handshake_message, construct_certificate, len24, len16.
  unfold construct_encrypted_extensions, MAX_TLS_PLAINTEXT_LEN. cbn [app concat].
  repeat progress (rewrite ?length_app, ?length_be_bytes, ?Hs, ?Hv; cbn [length of_zs map]).
  destruct (peer_suite p); cbn [hash_len output_len suite_hash]; lia.
Qed.

Section Completes.
Context `{A : Aead} {LA : AeadLaws A} `{C : Crypto} {LC : CryptoLaws C} (x509 : bytes -> res str (bytes * bytes)) (debug : bool).

(** The first message of a client: a server finds the client's public key in it. *)
Lemma client_hello_is_read cfg private_key random timestamp hello ak shared : client_hello_for cfg private_key random timestamp = Ok (hello, ak) ->
  length random = 32%nat -> length (rc_short_id cfg) = 8%nat -> (length (rc_server_name cfg) < 500)%nat -> (length (rc_cipher_suites cfg) < 100)%nat ->
  perform_ecdh private_key (rc_public_key cfg) = Some shared ->
  exists pk, x25519_public private_key = Some pk /\ derive_auth_key shared (slice 0 20 random) "REALITY" = ak
    /\ extract_client_public_key (write_record_header CT_HANDSHAKE (Z.of_nat (length hello)) ++ hello) = Ok pk.
Proof using LA LC.
  intros Eh Hrandom Hshort Hname Hsuites Hshared.
  unfold client_hello_for in Eh. destruct (x25519_public private_key) as [pk|] eqn:Epk; [|done]. cbn [ok_or mbind res_bind] in Eh.
  rewrite Hshared in Eh. cbn [ok_or mbind res_bind] in Eh.
  destruct (encrypt_session_id _ _ _ _) as [id|] eqn:Eid; [|done]. cbn [ok_or mbind res_bind] in Eh.
  apply Ok_inj, pair_equal_spec in Eh as [Eh Eak].
  assert (length id = 32%nat) as Hid.
  { unfold encrypt_session_id in Eid. destruct (aead_seal _ _ _ _ _) as [x|]; [|done]. cbn in Eid.
    destruct (Nat.eqb_spec (length x) 32); [|done]. by injection Eid as <-. }
  rewrite put_session_id_new in Eh; [|done| |done].
  2:{ unfold session_id_plaintext. rewrite !length_app, length_replicate, length_be_bytes, Hshort. done. }
  pose proof (public_length _ _ Epk) as Hpk. exists pk. split; [done|]. split; [exact Eak|].
  rewrite <- Eh. apply client_key_read; try done.
  - rewrite length_map. unfold offered_suites. destruct (rc_cipher_suites cfg); [cbn; lia|]. done.
  - apply Forall_forall. intros z (s & -> & _)%list_elem_of_fmap. by destruct s.
  - cbn. lia.
Qed.

(** C10. The handshake with a server that holds the right key completes: for every
    certificate that carries the code of the key agreed on and whose key signs,
    whatever suite the server picks, whether it sends its flight in one record,
    each message in one of its own or anything between, and in whatever pieces its
    answer arrives, the handshake ends without an error, and the client then reads
    with the key the server writes with and writes with the key the server reads
    with. What the theorem leaves out is a record boundary inside a message, where
    the code refuses an honest server ([split_flight_is_refused] of
    [RealityPanics.v]). *)
Theorem honest_server_is_accepted (storage_in storage_plain : bytes) (cfg : RealityClientConfig) (private_key random : bytes)
    (timestamp : Z) (c0 : Connection) (p : Peer) (cuts : list nat) (key public shared secret : bytes)
    (Hin : length storage_in = CIPHERTEXT_READ_BUF_CAPACITY) (Hplain : length storage_plain = PLAINTEXT_READ_BUF_CAPACITY)
    (Hnew : new storage_in storage_plain cfg private_key random timestamp = Ok c0)
    (Hrandom : length random = 32%nat) (Hshort : length (rc_short_id cfg) = 8%nat)
    (Hname : (length (rc_server_name cfg) < 500)%nat) (Hsuites : (length (rc_cipher_suites cfg) < 100)%nat)
    (Hshared : perform_ecdh private_key (rc_public_key cfg) = Some shared)
    (Hpeer : length (peer_random p) = 32%nat /\ (length (peer_session p) <= 32)%nat /\ Z.of_nat (length (peer_der p)) <= 10000)
    (Hcert : x509 (peer_der p) = Ok (key, hmac_sha512 (derive_auth_key shared (slice 0 20 random) "REALITY") key))
    (Hkey : length key = 32%nat)
    (Hsign : forall content, length (peer_sign p content) = 64%nat /\ ed25519_verify key content (peer_sign p content) = true)
    (Hcuts : Forall (fun n => 0 < n)%nat cuts /\ sum_list cuts = 4%nat)
    (Hpublic : x25519_public (peer_key p) = Some public) (Hagree : x25519_agree private_key public = Some secret) :
  exists wire rd wr,
    answer debug p cuts (drop 5 (ciphertext_write_buf c0)) = Ok (wire, (rd, wr))
    /\ forall reads, concat reads = wire -> Forall (fun x => x <> [] /\ length x <= NET_BUFFER)%nat reads ->
       exists c out,
         reality_handshake x509 debug (turns_of reads) c0 = (c, ciphertext_write_buf c0 ++ out, Some (Ok tt))
         /\ reading rd.1 rd.2 c /\ app_write c = Some wr /\ read_seq c = 0
         /\ buffered (ciphertext_read_buf c) [] /\ buffered (plaintext_read_buf c) [].
Proof using LA LC.
  destruct Hpeer as (Hpr & Hps & Hpd). unfold new in Hnew.
  destruct (client_hello_for cfg private_key random timestamp) as [[hello ak]| |] eqn:Eh; [|done..].
  cbn [mbind res_bind] in Hnew. apply Ok_inj in Hnew as <-. cbn [ciphertext_write_buf].
  destruct (client_hello_is_read _ _ _ _ _ _ _ Eh Hrandom Hshort Hname Hsuites Hshared) as (pk & Epk & Eak & Hread).
  pose proof (public_length _ _ Hpublic) as Hpub.
  assert (forall h rest : bytes, length h = 5%nat -> drop 5 (h ++ rest) = rest) as Hdrop by (intros h rest <-; apply drop_app_length).
  rewrite Hdrop by done. unfold answer. rewrite Hpublic. cbn [ok_or mbind res_bind]. rewrite Hread. cbn [mbind res_bind].
  rewrite (agree_both _ _ _ _ Hpublic Epk), Hagree. cbn [ok_or mbind res_bind].
  set (suite := peer_suite p). set (sh := server_hello p public).
  destruct (derive_handshake_keys_ok suite secret (digest (suite_hash suite) (hello ++ sh))) as (ks & Hks & Hmaster).
  { by eapply agree_length. }
  { by rewrite length_digest. }
  rewrite Hks. cbn [mbind res_bind].
  destruct (traffic_ok suite (server_handshake_traffic_secret ks)) as (k & iv & Htr & Hiv). rewrite Htr. cbn [mbind res_bind].
  destruct (flight_ok p (server_handshake_traffic_secret ks) (hello ++ sh) Hpd (fun x => proj1 (Hsign x))) as (messages & Hfl & Hfour & Hall & Hml).
  rewrite Hfl. cbn [mbind res_bind].
  destruct Hcuts as [Hpos Hsum].
  destruct (seal_records_ok debug k iv messages Hiv Hall Hfour Hml cuts Hpos 0 0 []) as (s & sent & Hseal & Hsent); [done|lia|].
  rewrite drop_0 in Hseal. rewrite Hseal. cbn [mbind res_bind app].
  destruct (derive_application_secrets_ok suite (master_secret ks) (digest (suite_hash suite) ((hello ++ sh) ++ concat messages)))
    as (cs & ss & Hsec); [done|by rewrite length_digest|]. rewrite Hsec. cbn [mbind res_bind].
  destruct (traffic_ok suite ss) as (k1 & iv1 & Hrd & _). rewrite Hrd. cbn [mbind res_bind].
  destruct (traffic_ok suite cs) as (k2 & iv2 & Hwr & _). rewrite Hwr. cbn [mbind res_bind].
  exists ((write_record_header CT_HANDSHAKE (Z.of_nat (length sh)) ++ sh) ++ change_cipher_spec ++ flight_wire sent),
    (k1, iv1), (k2, iv2).
  split; [done|]. intros reads Hreads Hreads'. set (c0 := mkConnection _ _ _ _ _ _ _ _ _ _ _ _).
  destruct (handshake_runs x509 debug p hello private_key ak public secret Hpub Hpr Hps Hagree ks Hks key (peer_der p) k iv messages cs ss
              (k1, iv1) (k2, iv2) ltac:(lia) eq_refl ltac:(rewrite <- Eak; exact Hcert) Hkey (length_hmac_sha512 _ _) Hsign Htr Hfl
              Hsec Hrd Hwr sent Hsent reads c0 []) as (c & out & Hrun & Hp & Hq & Hb & Hs).
  - cbn [app]. rewrite Hreads. by apply at_hello.
  - repeat split; try done. by apply buffered_new.
  - by apply buffered_new.
  - done.
  - cbn. lia.
  - done.
  - exists c, out. split; [exact Hrun|]. inversion Hp; [congruence..|].
    destruct Hq as (Hpl & Hcl & Hfa & _). by repeat split.
Qed.
End Completes.

Lemma honest_server_is_accepted_witness :
  exists c0, toy_new CIPHERTEXT_READ_BUF_CAPACITY = Ok c0
    /\ exists wire rd wr, answer (A := toy_aead) (C := toy_crypto) true toy_peer [1; 2; 1]%nat (drop 5 (ciphertext_write_buf c0)) = Ok (wire, (rd, wr))
       /\ forall reads, concat reads = wire -> Forall (fun x => x <> [] /\ length x <= NET_BUFFER)%nat reads ->
          exists c out,
            reality_handshake (A := toy_aead) (C := toy_crypto) toy_x509 true (turns_of reads) c0
            = (c, ciphertext_write_buf c0 ++ out, Some (Ok tt))
            /\ reading rd.1 rd.2 c /\ app_write c = Some wr /\ read_seq c = 0
            /\ buffered (ciphertext_read_buf c) [] /\ buffered (plaintext_read_buf c) [].
Proof.
  destruct (toy_new_ok CIPHERTEXT_READ_BUF_CAPACITY) as [c0 Hnew]. exists c0. split; [exact Hnew|].
  eapply (honest_server_is_accepted (A := toy_aead) (C := toy_crypto) toy_x509 true) 
    with (cfg := toy_config) (key := be_bytes 32 31337) (public := be_bytes 32 (99 * 5))
         (shared := be_bytes 32 (12345 * (424242 * 5))) (secret := be_bytes 32 (12345 * (99 * 5)));
    [apply length_replicate|apply length_replicate|exact Hnew|vm_compute; reflexivity|vm_compute; reflexivity
    |cbn; lia|cbn; lia|vm_compute; reflexivity| | | | | | |].
  - split; [vm_compute; reflexivity|]. split; [apply Nat.leb_le; vm_compute; reflexivity|apply Z.leb_le; vm_compute; reflexivity].
  - vm_compute. reflexivity.
  - vm_compute. reflexivity.
  - intros content. split; [apply length_toy_sum|]. cbn [ed25519_verify toy_crypto peer_sign toy_peer].
    apply bool_decide_eq_true_2. vm_compute. reflexivity.
  - split; [|reflexivity]. repeat (apply Forall_cons; split; [lia|]). by apply Forall_nil.
  - vm_compute. reflexivity.
  - vm_compute. reflexivity.
Defined.
