(* ===== verification/RealityPanics.v ===== *)
(** * What makes a REALITY connection panic

    Two inputs at which the methods of [RealityClient.v] panic instead of
    returning an error: a record that announces more bytes than the read buffer
    holds, which needs no key, and a handshake message after the handshake. *)

From S2P Require Import Prelude RustStr NetAddr NetIo SlideBuffer AsyncRead VisionFilter Aead RealityRecords RealityKeys.
From S2P Require Import RealityMessages RealityClient RealityPeer RealityData RealityStream RealityHandshake.

(** ** More than the buffer holds *)

Lemma extend_overflows debug b q bs capacity : stands_for capacity b q -> (q_room q < length bs)%nat ->
  extend_from_slice debug b bs = Panic.
Proof.
  intros (pre & post & -> & Hr & _ & _) Hl. unfold extend_from_slice, debug_assert.
  destruct (debug && _); [done|]. cbn [mbind res_bind sb_end sb_data]. unfold store_at, sub_slice.
  rewrite !length_app. destruct (Nat.leb_spec (length pre + length (q_bytes q) + length bs) (length pre + (length (q_bytes q) + length post))); [lia|].
  by rewrite andb_false_r.
Qed.

Lemma feed_overflows debug data c l : buffered (ciphertext_read_buf c) l ->
  (CIPHERTEXT_READ_BUF_CAPACITY < length l + length data)%nat -> (length l <= CIPHERTEXT_READ_BUF_CAPACITY)%nat ->
  (length data <= NET_BUFFER)%nat ->
  exists c', feed_reality_client_connection debug data c = (c', Panic).
Proof.
  intros [room Hs] Hl Hc Hd. unfold feed_reality_client_connection, NET_BUFFER in *. rewrite capacity_value in Hl, Hc.
  assert (TLS_MAX_RECORD_SIZE = Z.to_nat 16645) as Hmax by reflexivity.
  assert (data <> []) as Hne by (intros ->; cbn in Hl; lia).
  destruct data as [|x data]; [done|]. cbn [length feed_fuel is_nil]. set (d := x :: data) in *.
  set (b1 := if (remaining_capacity (ciphertext_read_buf c) <? TLS_MAX_RECORD_SIZE)%nat
             then compact (ciphertext_read_buf c) else ciphertext_read_buf c).
  assert (stands_for CIPHERTEXT_READ_BUF_CAPACITY b1 (mkQueue l (CIPHERTEXT_READ_BUF_CAPACITY - length l))) as Hs1.
  { assert (remaining_capacity (ciphertext_read_buf c) = room /\ (room + length l <= CIPHERTEXT_READ_BUF_CAPACITY)%nat) as [Hrem Hr].
    { destruct Hs as (pre & post & -> & Hr & Hcap & _). unfold remaining_capacity. cbn [sb_data sb_end q_bytes q_room] in *.
      rewrite !length_app. lia. }
    rewrite capacity_value in Hr. subst b1. rewrite Hrem, Hmax, (proj2 (Nat.ltb_lt _ _)) by lia.
    exact (compact_ok CIPHERTEXT_READ_BUF_CAPACITY _ _ Hs). }
  exists (set_cin b1 c). unfold mbind at 1, M_bind at 1.
  assert (read_tls debug d c = (set_cin b1 c, Panic)) as ->; [|done].
  unfold read_tls. rewrite get_bind. fold b1. rewrite modify_bind, Hmax, Nat.min_r by lia.
  rewrite (proj2 (Nat.ltb_lt _ _)) by (subst d; cbn; lia). rewrite firstn_all.
  unfold mbind, M_bind, lift. rewrite (extend_overflows debug b1 _ d _ Hs1); [done|]. cbn [q_room]. rewrite capacity_value. lia.
Qed.

Section Overflow.
Context `{A : Aead} `{C : Crypto} (x509 : bytes -> res str (bytes * bytes)) (debug : bool) (data : bytes).
Hypothesis Hlong : (CIPHERTEXT_READ_BUF_CAPACITY < length data)%nat.
Hypothesis Hbig : Z.of_nat CIPHERTEXT_READ_BUF_CAPACITY < 5 + be_value (slice 3 5 data).

(** No prefix that fits holds the record. *)
Lemma never_whole part later : part ++ later = data -> (length part <= CIPHERTEXT_READ_BUF_CAPACITY)%nat -> front_of part = None.
Proof using All.
  intros <- Hl. unfold front_of. destruct (Nat.ltb_spec (length part) TLS_RECORD_HEADER_SIZE) as [|H5]; [done|].
  unfold TLS_RECORD_HEADER_SIZE in *.
  assert (slice 3 5 (part ++ later) = slice 3 5 part) as E.
  { unfold slice. rewrite drop_app_le, take_app_le; [done|rewrite length_drop; lia|lia]. }
  rewrite E in Hbig. by rewrite (proj2 (Nat.ltb_lt _ _)) by lia.
Qed.

Lemma awaiting_waits c part h sk ak : handshake_state c = AwaitingServerHello h sk ak -> quiet c ->
  buffered (ciphertext_read_buf c) part -> front_of part = None -> process_new_packets x509 debug c = (c, Ok 0%nat).
Proof using.
  intros Hs Hq [room Hb] Hf. pose proof Hq as (_ & Hcl & Hfa & _). pose proof (front_record_ok _ _ _ Hb) as Hfr.
  cbn [q_bytes] in Hfr. rewrite Hf in Hfr. unfold process_new_packets. rewrite get_bind, Hfa, Hcl. cbn [process_packets].
  rewrite get_bind, Hs. erewrite run_bind with (c' := c) (a := false).
  - unfold mbind, M_bind, get, mret, M_ret. by rewrite (nothing_unread c Hq).
  - unfold process_server_hello. rewrite get_bind. by rewrite (lift_bind _ _ _ _ Hfr).
Qed.

Lemma overflow_runs reads : forall c part h sk ak, handshake_state c = AwaitingServerHello h sk ak -> quiet c ->
  buffered (ciphertext_read_buf c) part -> (length part <= CIPHERTEXT_READ_BUF_CAPACITY)%nat -> part ++ concat reads = data ->
  Forall (fun x => x <> [] /\ length x <= NET_BUFFER)%nat reads ->
  exists c' out, reality_handshake x509 debug (turns_of reads) c = (c', out, Some Panic).
Proof using All.
  unfold turns_of.
  induction reads as [|x reads IH]; intros c part h sk ak Hs Hq Hb Hl Hw Hall; cbn [map app reality_handshake concat] in *.
  { exfalso. rewrite app_nil_r in Hw. subst part. lia. }
  apply Forall_cons in Hall as [[Hx Hlen] Hall]. pose proof Hq as (Hpl & Hcl & Hfa & Hpw). rewrite (drained debug c Hpw).
  cbn [rs_conn wbuf]. set (c1 := set_out (write_seq c) [] [] c).
  replace (if is_nil (ciphertext_write_buf c) then Ok tt else Ok tt) with (Ok (E := io_error) tt) by (by destruct (is_nil _)).
  assert (is_handshaking c1 = true) as -> by (unfold is_handshaking, c1; cbn; by rewrite Hs). cbn [negb].
  destruct x as [|y x]; [done|]. set (d := y :: x) in *. rewrite app_assoc in Hw.
  destruct (decide (length part + length d <= CIPHERTEXT_READ_BUF_CAPACITY)%nat) as [Hfit|Hover].
  - destruct (feed_fits debug d c1 part Hb Hfit (Nat.le_trans _ _ _ Hlen net_buffer_fits)) as (b & Hfeed & Hb'). set (c2 := set_cin b c1) in *.
    assert (quiet c2) as Hq2 by (by repeat split).
    assert (receive x509 debug d c1 = (c2, Ok tt)) as Hrec.
    { unfold receive. erewrite run_bind; [|exact Hfeed]. fold c2. erewrite run_bind; [done|].
      apply (awaiting_waits c2 (part ++ d) h sk ak); try done.
      apply (never_whole _ (concat reads)); [done|]. rewrite length_app. lia. }
    destruct (IH c2 (part ++ d) h sk ak) as (c' & out & Hrun); try done; [rewrite length_app; lia|].
    rewrite Hrec, Hrun. by eexists _, _.
  - destruct (feed_overflows debug d c1 part Hb) as (c' & Hfeed); [lia|done|done|].
    assert (receive x509 debug d c1 = (c', Panic)) as ->.
    { unfold receive. unfold mbind at 1, M_bind at 1. by rewrite Hfeed. }
    by eexists _, _.
Qed.
End Overflow.

(** The bytes of the record at the front, by its header. *)
Definition record_size (data : bytes) : Z := 5 + be_value (slice 3 5 data).

Section Panics.
Context `{A : Aead} {LA : AeadLaws A} `{C : Crypto} (x509 : bytes -> res str (bytes * bytes)) (debug : bool).

(** C12. Anyone who can answer the hello can stop the client's task: a record whose
    header announces more than the read buffer holds is never refused, and once
    more bytes have arrived than fit, in whatever pieces, the handshake panics. *)
Theorem oversized_record_panics (storage_in storage_plain : bytes) (cfg : RealityClientConfig) (private_key random : bytes)
    (timestamp : Z) (c0 : Connection) (data : bytes) (reads : list bytes)
    (Hin : length storage_in = CIPHERTEXT_READ_BUF_CAPACITY) (Hplain : length storage_plain = PLAINTEXT_READ_BUF_CAPACITY)
    (Hnew : new storage_in storage_plain cfg private_key random timestamp = Ok c0)
    (Hlong : (CIPHERTEXT_READ_BUF_CAPACITY < length data)%nat)
    (Hbig : Z.of_nat CIPHERTEXT_READ_BUF_CAPACITY < record_size data)
    (Hreads : concat reads = data) (Hall : Forall (fun x => x <> [] /\ length x <= NET_BUFFER)%nat reads) :
  exists c out, reality_handshake x509 debug (turns_of reads) c0 = (c, out, Some Panic).
Proof using.
  unfold new in Hnew. destruct (client_hello_for _ _ _ _) as [[hello ak]| |]; [|done..].
  cbn [mbind res_bind] in Hnew. apply Ok_inj in Hnew as <-.
  eapply (overflow_runs x509 debug data Hlong Hbig reads _ []); try done.
  - repeat split; try done. by apply buffered_new.
  - by apply buffered_new.
  - cbn. lia.
Qed.

(** A handshake message after the handshake (a new session ticket, a key update)
    panics instead of being refused, as the comment there says it is. *)
Theorem late_handshake_message_panics (key : AeadKey) (iv message : bytes) (c : Connection)
    (Hiv : length iv = 12%nat) (Hc : reading key iv c) (Hseq : 0 <= read_seq c < 2 ^ 64 - 1)
    (Hin : buffered (ciphertext_read_buf c) []) (Hmessage : message <> []) (Hlen : (length message <= Z.to_nat 16000)%nat) :
  exists seq record, encrypt_handshake debug key iv message (read_seq c, []) = Ok (seq, record)
    /\ exists c', receive x509 debug record c = (c', Panic).
Proof using LA.
  destruct (encrypt_handshake_opens debug key iv Hiv message (read_seq c) []) as (ct & Hl & He & Ho).
  { destruct message; [done|]. cbn. lia. }
  { unfold MAX_TLS_PLAINTEXT_LEN. lia. }
  { done. }
  eexists _, _. split; [exact He|]. cbn [app]. destruct Hc as (Hs & Hk & Hcl & Hfa).
  destruct (feed_ok debug (make_record_header (length ct) ++ ct) c [] Hin) as (b & Hfeed & Hb).
  { cbn. lia. }
  { rewrite length_app, length_make_record_header. lia. }
  cbn [app] in Hb. rewrite <- (app_nil_r ct) in Hb at 2.
  destruct (front_opened (set_cin b c) ct [] Hb) as [Hf Hr]; [lia|].
  assert (application_records debug (S (unread (set_cin b c))) key iv (set_cin b c)
          = (set_read_seq (read_seq c + 1) (set_cin b c), Panic)) as Hpanic.
  { cbn [application_records]. unfold mbind at 1, M_bind at 1. unfold application_record.
    rewrite get_bind, (lift_bind _ _ _ _ Hf), (lift_bind _ _ _ _ Hr). change (read_seq (set_cin b c)) with (read_seq c).
    rewrite Ho, modify_bind. erewrite lift_bind; [|reflexivity]. done. }
  eexists. unfold receive. erewrite run_bind; [|exact Hfeed].
  assert (process_new_packets x509 debug (set_cin b c) = (set_read_seq (read_seq c + 1) (set_cin b c), Panic)) as Hproc.
  { unfold process_new_packets. rewrite get_bind. cbn [fatal_error set_cin received_close_notify]. rewrite Hfa, Hcl.
    cbn [process_packets]. rewrite get_bind. cbn [handshake_state set_cin]. rewrite Hs. unfold mbind at 1, M_bind at 1.
    unfold process_application_data. rewrite get_bind. cbn [app_read set_cin]. rewrite Hk.
    fold (unread (set_cin b c)). by rewrite Hpanic. }
  unfold mbind, M_bind. by rewrite Hproc.
Qed.
End Panics.

Lemma oversized_record_panics_witness :
  let zeros := replicate (Z.to_nat 16384) (to_u8 0) in
  let reads := [of_zs [22; 3; 3; 255; 255]; zeros; zeros; zeros] in
  exists c0, toy_new CIPHERTEXT_READ_BUF_CAPACITY = Ok c0
    /\ exists c out, reality_handshake (A := toy_aead) (C := toy_crypto) toy_x509 true (turns_of reads) c0 = (c, out, Some Panic).
Proof.
  intros zeros reads. destruct (toy_new_ok CIPHERTEXT_READ_BUF_CAPACITY) as [c0 Hnew]. exists c0. split; [exact Hnew|].
  assert (length zeros = Z.to_nat 16384) as Hz by apply length_replicate. clearbody zeros.
  apply (oversized_record_panics (A := toy_aead) (C := toy_crypto) toy_x509 true _ _ _ _ _ _ c0 (concat reads) reads
           (length_replicate _ _) (length_replicate _ _) Hnew); [| |reflexivity|].
  - unfold reads. cbn [concat]. rewrite !length_app, Hz, capacity_value. cbn [length]. lia.
  - rewrite capacity_value. unfold record_size. change (be_value (slice 3 5 (concat reads))) with 65535. lia.
  - unfold NET_BUFFER. repeat (apply Forall_cons; split; [split; [intros E; apply (f_equal length) in E; cbn [length] in E; try rewrite Hz in E; cbn in E; lia|
      try rewrite Hz; cbn; lia]|]). by apply Forall_nil.
Defined.

Lemma late_handshake_message_panics_witness :
  let key := mkAeadKey AES_128_GCM_SHA256 (be_bytes 16 7) in
  let iv := be_bytes 12 9 in
  let empty := sb_new (replicate CIPHERTEXT_READ_BUF_CAPACITY (to_u8 0)) in
  let c := mkConnection toy_config Complete (Some (key, iv)) None 5 0 empty [] empty [] false None in
  exists seq record, encrypt_handshake (A := toy_aead) true key iv (of_zs [24; 0; 0; 1; 0]) (5, []) = Ok (seq, record)
    /\ exists c', receive (A := toy_aead) (C := toy_crypto) toy_x509 true record c = (c', Panic).
Proof.
  intros key iv empty c.
  apply (late_handshake_message_panics (A := toy_aead) (C := toy_crypto) toy_x509 true key iv (of_zs [24; 0; 0; 1; 0]) c).
  - reflexivity.
  - by repeat split.
  - change (0 <= 5 < 2 ^ 64 - 1). lia.
  - apply buffered_new. apply length_replicate.
  - done.
  - cbn. lia.
Defined.

(** ** A flight in two records *)

(** The flight of the peer with a record boundary inside the certificate. *)
Definition split_answer (cut : nat) (hello : bytes) : res io_error bytes :=
  public ← ok_or (x25519_public (Crypto := toy_crypto) (peer_key toy_peer)) (IoOther "no public key");
  client_public ← extract_client_public_key (write_record_header CT_HANDSHAKE (Z.of_nat (length hello)) ++ hello);
  shared ← ok_or (x25519_agree (Crypto := toy_crypto) (peer_key toy_peer) client_public) (IoOther "no agreement");
  let sh := server_hello toy_peer public in
  ks ← derive_handshake_keys (C := toy_crypto) (peer_suite toy_peer) shared
         (digest (Crypto := toy_crypto) (suite_hash (peer_suite toy_peer)) (hello ++ sh));
  '(k, iv) ← traffic (C := toy_crypto) (peer_suite toy_peer) (server_handshake_traffic_secret ks);
  messages ← flight (C := toy_crypto) toy_peer (server_handshake_traffic_secret ks) (hello ++ sh);
  '(_, records) ← seal_records (A := toy_aead) true k iv [take cut (concat messages); drop cut (concat messages)] (0, []);
  Ok ((write_record_header CT_HANDSHAKE (Z.of_nat (length sh)) ++ sh) ++ change_cipher_spec ++ records).

(** How the client ends that gets it in one piece. *)
Definition split_result (cut : nat) : res io_error (option (res io_error unit)) :=
  c ← toy_new 600;
  wire ← split_answer cut (drop 5 (ciphertext_write_buf c));
  Ok (reality_handshake (A := toy_aead) (C := toy_crypto) toy_x509 true (turns_of [wire]) c).2.

(** Between two messages the boundary does no harm; inside the certificate, the
    rest of it is read as if it were other messages, and an honest server is
    refused. *)
Lemma split_flight_is_refused : split_result 6 = Ok (Some (Ok tt))
  /\ split_result 60 = Ok (Some (Err (PermissionDenied "REALITY handshake failed: Certificate message not received or not verified"))).
Proof. vm_compute. split; reflexivity. Qed.
