(* ===== verification/RealityConfig.v ===== *)
(** * From the text of a link to a REALITY connection
    ([decode_public_key], [decode_short_id] of [crates/net/src/reality/reality_util.rs],
    [reality_handshake], [reality_connect] of [crates/net/src/reality_transport.rs]) *)

From S2P Require Import Prelude RustStr Utf8 NetAddr NetIo SlideBuffer Aead RealityRecords RealityKeys RealityMessages.
From S2P Require Import RealityClient RealityStream Outbound.

(** [RealityTransport] *)
Record RealityTransport : Type := mkTransport { rt_public_key : str; rt_short_id : str; rt_server_name : str }.

(** [hex_char_to_value] *)
Definition hex_char_to_value (c : u8) : res str Z := ok_or (hex_digit c) (lit "Invalid hex character").

(** The loop of [decode_hex_to_slice] over the pairs of bytes. *)
Fixpoint hex_bytes (hex : bytes) : res str bytes :=
  match hex with
  | a :: b :: hex =>
      high ← hex_char_to_value a; low ← hex_char_to_value b; out ← hex_bytes hex; Ok (to_u8 (high * 16 + low) :: out)
  | _ => Ok []
  end.

Definition decode_hex_to_slice (hex : str) (n : nat) : res str bytes :=
  if negb (length hex =? n * 2)%nat then Err (lit "Invalid hex length") else hex_bytes hex.

(** [format!("{:0<16}", hex)]: the width counts characters. *)
Definition pad_zeros (hex : str) : str := hex ++ replicate (16 - length (chars hex)) "0"%char.

Definition decode_short_id (hex : str) : res io_error bytes :=
  if (16 <? length hex)%nat
  then bad_data ("Short ID too long: " ++ show_uint (Z.of_nat (length hex)) ++ " (max 16 hex chars)")
  else map_err (fun e => InvalidData ("Invalid hex: " ++ e)) (decode_hex_to_slice (pad_zeros hex) 8).

Section Decode.
(** [URL_SAFE_NO_PAD.decode], with the text of its error *)
Context (url_safe_no_pad : str -> res str bytes).

Definition decode_key (what : str) (encoded : str) : res io_error bytes :=
  decoded ← map_err (fun e => InvalidData ("Invalid base64: " ++ e)) (url_safe_no_pad encoded);
  if negb (length decoded =? 32)%nat
  then bad_data ("Invalid " ++ what ++ " key length: " ++ show_uint (Z.of_nat (length decoded)) ++ " (expected 32)")
  else Ok decoded.

Definition decode_public_key : str -> res io_error bytes := decode_key "public".
Definition decode_private_key : str -> res io_error bytes := decode_key "private".

(** The configuration that [reality_handshake] makes of a link. *)
Definition config_of (t : RealityTransport) : res io_error RealityClientConfig :=
  public_key ← decode_public_key (rt_public_key t);
  short_id ← decode_short_id (rt_short_id t);
  Ok (mkRealityConfig public_key short_id (rt_server_name t) []).

Context `{A : Aead} `{C : Crypto} (x509 : bytes -> res str (bytes * bytes)) (debug : bool).

(** [reality_connect], with the random bytes and the clock that [new] takes. *)
Definition reality_connect (storage_in storage_plain private_key random : bytes) (timestamp : Z)
    (turns : list (res io_error unit * res io_error bytes)) (t : RealityTransport)
    : bytes * option (res io_error RealityStream) :=
  match (cfg ← config_of t; new storage_in storage_plain cfg private_key random timestamp) with
  | Ok c =>
      let '(c, out, r) := reality_handshake x509 debug turns c in
      (out, (fun r => _ ← r; Ok (mkRealityStream c [] 0)) <$> r)
  | Err e => ([], Some (Err e))
  | Panic => ([], Some Panic)
  end.
End Decode.

(** ** The short id *)

Lemma hex_bytes_pairs n : forall hex, length hex = (2 * n)%nat ->
  match hex_pairs hex with Some u => hex_bytes hex = Ok u | None => exists e, hex_bytes hex = Err e end.
Proof.
  induction n as [|n IH]; intros hex Hl; [by destruct hex|].
  destruct hex as [|a [|b hex]]; cbn [length] in Hl; [lia..|]. specialize (IH hex ltac:(lia)). cbn [hex_pairs hex_bytes].
  assert (forall c, match to_digit16 c with Some d => hex_char_to_value c = Ok d | None => exists e, hex_char_to_value c = Err e end) as Hc.
  { intros c. unfold to_digit16, to_digit, hex_char_to_value. destruct (hex_digit c) as [d|] eqn:E; [|by eexists].
    apply hex_digit_range in E. by rewrite (proj2 (Z.ltb_lt _ _)) by lia. }
  pose proof (Hc a) as Ha. pose proof (Hc b) as Hb. destruct (to_digit16 a) as [hi|]; [|destruct Ha as [e ->]; by eexists].
  rewrite Ha. cbn. destruct (to_digit16 b) as [lo|]; [|destruct Hb as [e ->]; by eexists]. rewrite Hb. cbn.
  destruct (hex_pairs hex) as [u|]; [by rewrite IH|]. destruct IH as [e ->]. by eexists.
Qed.

Lemma decode_short_id_spec s id : decode_short_id s = Ok id <->
  (length s <= 16)%nat /\ length id = 8%nat /\ to_ascii_lowercase (pad_zeros s) = hex_of id.
Proof.
  unfold decode_short_id, decode_hex_to_slice.
  destruct (Nat.ltb_spec 16 (length s)) as [Hl|Hl]; [split; [done|intros [? _]; lia]|].
  destruct (Nat.eqb_spec (length (pad_zeros s)) (8 * 2)) as [Hp|Hp].
  - pose proof (hex_pairs_spec 8 (pad_zeros s) id Hp) as Hs. pose proof (hex_bytes_pairs 8 (pad_zeros s) Hp) as Hb. cbn [negb].
    destruct (hex_pairs (pad_zeros s)) as [u|].
    + rewrite Hb. cbn [map_err]. split.
      * intros H%Ok_inj. subst u. split; [done|]. by apply Hs.
      * intros (_ & H). apply Hs in H. by injection H as ->.
    + destruct Hb as [e ->]. cbn [map_err]. split; [done|]. intros (_ & H). apply Hs in H. done.
  - cbn [negb map_err]. split; [done|]. intros (_ & Hi & H). exfalso. apply Hp.
    apply (f_equal length) in H. rewrite length_hex_of, Hi in H. unfold to_ascii_lowercase in H. by rewrite length_map in H.
Qed.

(** A configuration that was decoded has the lengths that the hello needs. *)
Lemma config_of_lengths b64 t cfg : config_of b64 t = Ok cfg ->
  length (rc_public_key cfg) = 32%nat /\ length (rc_short_id cfg) = 8%nat /\ rc_cipher_suites cfg = [].
Proof.
  unfold config_of, decode_public_key, decode_key. destruct (map_err _ _) as [k| |]; [|done..]. cbn [mbind res_bind].
  destruct (Nat.eqb_spec (length k) 32) as [Hk|]; [|done]. cbn [negb mbind res_bind].
  destruct (decode_short_id _) as [i| |] eqn:Ei; [|done..]. intros H%Ok_inj. subst cfg. apply decode_short_id_spec in Ei as (_ & Hi & _).
  done.
Qed.
