(* ===== verification/Shadowsocks.v ===== *)
(** * Shadowsocks with AEAD ciphers
    ([crates/net/src/shadowsocks/crypto.rs], [stream.rs], [udp.rs])

    Keys and nonces, the stream of sealed chunks over a polled inner stream, and
    the datagrams. The hash functions and the ciphers are code of other crates. *)

From S2P Require Import Prelude RustStr Utf8 NetAddr NetIo Aead Outbound Socks.

Class SsPrimitives : Type := {
  md5 : bytes -> bytes;
  (** salt, key material, info, length *)
  hkdf_sha1 : bytes -> bytes -> bytes -> nat -> bytes;
  (** context, key material *)
  blake3_derive_key : bytes -> bytes -> bytes;
  blake3_hash : bytes -> bytes;
  (** AES of one block; key, block *)
  aes_encrypt : bytes -> bytes -> bytes;
  aes_decrypt : bytes -> bytes -> bytes
}.

Class SsLaws (P : SsPrimitives) : Prop := {
  length_md5 : forall m, length (md5 m) = 16%nat;
  length_hkdf_sha1 : forall s k i n, length (hkdf_sha1 s k i n) = n;
  length_derive_key : forall c m, length (blake3_derive_key c m) = 32%nat;
  length_blake3 : forall m, length (blake3_hash m) = 32%nat;
  length_aes : forall k b, length b = 16%nat -> length (aes_encrypt k b) = 16%nat;
  aes_inverse : forall k b, length b = 16%nat -> aes_decrypt k (aes_encrypt k b) = b
}.

(** An instance: checksums of everything, and the block reversed. *)
Definition toy_ss : SsPrimitives := {|
  md5 := toy_sum 16;
  hkdf_sha1 := fun s k i n => toy_sum n (s ++ k ++ i);
  blake3_derive_key := fun c m => toy_sum 32 (c ++ m);
  blake3_hash := toy_sum 32;
  aes_encrypt := fun _ b => reverse b;
  aes_decrypt := fun _ b => reverse b
|}.

#[export] Instance toy_ss_laws : SsLaws toy_ss.
Proof.
  constructor; intros; cbn [md5 hkdf_sha1 blake3_derive_key blake3_hash aes_encrypt aes_decrypt toy_ss];
    by rewrite ?length_toy_sum, ?length_reverse, ?reverse_involutive.
Qed.

(** ** Keys and nonces ([crypto.rs]) *)

(** [Method::cipher] *)
Definition cipher (m : Method) : Algorithm :=
  match m with
  | Aes128Gcm | Ss2022Aes128Gcm => AES_128_GCM
  | Aes256Gcm | Ss2022Aes256Gcm => AES_256_GCM
  | Chacha20IetfPoly1305 | Ss2022Chacha20Poly1305 => CHACHA20_POLY1305
  end.

Section Keys.
Context `{P : SsPrimitives}.

(** The loop of [evp_bytes_to_key]; each turn adds sixteen bytes. *)
Fixpoint evp_loop (fuel : nat) (password : bytes) (n : nat) (key prev : bytes) : bytes :=
  if (n <=? length key)%nat then key
  else match fuel with
       | O => key
       | S fuel => let digest := md5 (prev ++ password) in evp_loop fuel password n (key ++ digest) digest
       end.

Definition evp_bytes_to_key (password : bytes) (n : nat) : bytes := take n (evp_loop n password n [] []).

Definition session_subkey (m : Method) (master salt : bytes) : bytes := hkdf_sha1 salt master (lit "ss-subkey") (key_len m).

(** [derived[..method.key_len()]]: 32 bytes were derived. *)
Definition session_subkey_2022 (m : Method) (psk salt : bytes) : bytes :=
  take (key_len m) (blake3_derive_key (lit "shadowsocks 2022 session subkey") (psk ++ salt)).
Definition identity_subkey_2022 (m : Method) (ipsk salt : bytes) : bytes :=
  take (key_len m) (blake3_derive_key (lit "shadowsocks 2022 identity subkey") (ipsk ++ salt)).
Definition psk_hash_16 (psk : bytes) : bytes := take 16 (blake3_hash psk).

Definition aes_ecb_encrypt_block (psk block : bytes) : res io_error bytes :=
  if (length psk =? 16)%nat || (length psk =? 32)%nat then Ok (aes_encrypt psk block)
  else Err (IoOther "ss2022: длина PSK не 16/32").
Definition aes_ecb_decrypt_block (psk block : bytes) : res io_error bytes :=
  if (length psk =? 16)%nat || (length psk =? 32)%nat then Ok (aes_decrypt psk block)
  else Err (IoOther "ss2022: длина PSK не 16/32").

(** [build_identity_headers]: each key of the chain hides the hash of the next. *)
Fixpoint build_identity_headers (m : Method) (identity_psks : list bytes) (session_psk salt : bytes) : res io_error bytes :=
  match identity_psks with
  | [] => Ok []
  | ipsk :: rest =>
      let next := match rest with [] => session_psk | n :: _ => n end in
      block ← aes_ecb_encrypt_block (identity_subkey_2022 m ipsk salt) (psk_hash_16 next);
      out ← build_identity_headers m rest session_psk salt;
      Ok (block ++ out)
  end.
End Keys.

(** [Crypto]: the key and the nonce of one direction. *)
Record Crypto : Type := mkCrypto { cr_cipher : Algorithm; cr_key : bytes; cr_nonce : bytes }.

(** [AeadKey::new] *)
Definition crypto_key (m : Method) (subkey : bytes) : res io_error (Algorithm * bytes) :=
  if (length subkey =? algorithm_key_len (cipher m))%nat then Ok (cipher m, subkey)
  else Err (IoOther "ss: неверная длина подключа").

Definition crypto_new (m : Method) (subkey : bytes) : res io_error Crypto :=
  '(a, k) ← crypto_key m subkey; Ok (mkCrypto a k (replicate 12 (to_u8 0))).

(** [incr_nonce] *)
Fixpoint incr_nonce (nonce : bytes) : bytes :=
  match nonce with
  | [] => []
  | b :: rest =>
      let b := to_u8 (val8 b + 1) in
      if val8 b =? 0 then b :: incr_nonce rest else b :: rest
  end.

Section Cipher.
Context `{A : Aead}.

Definition crypto_seal (c : Crypto) (pt : bytes) : res io_error (Crypto * bytes) :=
  ct ← ok_or (aead_seal (cr_cipher c) (cr_key c) (cr_nonce c) [] pt) (IoOther "ss: ошибка шифрования");
  Ok (mkCrypto (cr_cipher c) (cr_key c) (incr_nonce (cr_nonce c)), ct).

Definition crypto_open (c : Crypto) (ct : bytes) : res io_error (Crypto * bytes) :=
  pt ← ok_or (aead_open (cr_cipher c) (cr_key c) (cr_nonce c) [] ct) (IoOther "ss: ошибка расшифровки (аутентификация)");
  Ok (mkCrypto (cr_cipher c) (cr_key c) (incr_nonce (cr_nonce c)), pt).

(** [seal_nonce], [open_nonce] *)
Definition seal_nonce (m : Method) (subkey nonce pt : bytes) : res io_error bytes :=
  '(a, k) ← crypto_key m subkey; ok_or (aead_seal a k nonce [] pt) (IoOther "ss: ошибка шифрования").
Definition open_nonce (m : Method) (subkey nonce ct : bytes) : res io_error bytes :=
  '(a, k) ← crypto_key m subkey; ok_or (aead_open a k nonce [] ct) (IoOther "ss: ошибка расшифровки (аутентификация)").
End Cipher.

(** ** Datagrams ([udp.rs]) *)

(** [bad] *)
Definition ss_bad {B} (msg : str) : res io_error B := Err (InvalidData msg).

(** [encode_address]: a domain is cut to 255 bytes. *)
Definition encode_address (t : Target) : bytes := clamped_address t.

Definition parse_address (buf : bytes) : res io_error (Target * bytes) :=
  match buf with
  | [] => ss_bad "ss-udp: пустой заголовок"
  | atyp :: _ =>
      if val8 atyp =? 1 then
        if (length buf <? 7)%nat then ss_bad "ss-udp: усечённый IPv4-адрес"
        else
          ip ← sub_slice 1 5 buf; port ← index_be16 buf 5;
          Ok (TSocket {| sa_ip := v4_of_octets ip; sa_port := port |}, drop 7 buf)
      else if val8 atyp =? 4 then
        if (length buf <? 19)%nat then ss_bad "ss-udp: усечённый IPv6-адрес"
        else
          ip ← sub_slice 1 17 buf; port ← index_be16 buf 17;
          Ok (TSocket {| sa_ip := v6_of_octets ip; sa_port := port |}, drop 19 buf)
      else if val8 atyp =? 3 then
        if (length buf <? 2)%nat then ss_bad "ss-udp: домен без байта длины"
        else
          l ← index buf 1;
          let len := Z.to_nat (val8 l) in
          let stop := (2 + len + 2)%nat in
          if (length buf <? stop)%nat then ss_bad "ss-udp: усечённый домен"
          else
            host ← sub_slice 2 (2 + len) buf; port ← index_be16 buf (2 + len);
            Ok (TDomain (from_utf8_lossy host) port, drop stop buf)
      else ss_bad "ss-udp: неизвестный ATYP"
  end.

Section Datagrams.
Context `{A : Aead} `{P : SsPrimitives}.

(** [encrypt_packet], with what [random_salt] gave. *)
Definition encrypt_packet (m : Method) (master : bytes) (salt : res io_error bytes) (t : Target) (payload : bytes) : res io_error bytes :=
  salt ← salt;
  c ← crypto_new m (session_subkey m master salt);
  '(_, ct) ← crypto_seal c (encode_address t ++ payload);
  Ok (salt ++ ct).

Definition decrypt_packet (m : Method) (master packet : bytes) : res io_error (Target * bytes) :=
  let slen := salt_len m in
  if (length packet <? slen)%nat then ss_bad "ss-udp: пакет короче соли"
  else
    c ← crypto_new m (session_subkey m master (take slen packet));
    '(_, pt) ← crypto_open c (drop slen packet);
    parse_address pt.
End Datagrams.

(** ** Addresses and datagrams are read back *)

Lemma parse_encoded_address t payload : short_target t -> parse_address (encode_address t ++ payload) = Ok (t, payload).
Proof.
  intros Ht. unfold encode_address. rewrite (clamped_short t Ht), (address_shape t Ht), <- app_assoc.
  set (buf := [_] ++ _). unfold parse_address. cbn [app] in buf. unfold buf at 1.
  assert (drop 1 buf = address_body t ++ payload) as H1 by done.
  assert (length buf = 1 + length (address_body t) + length payload)%nat as Hlen by (unfold buf; cbn [length]; rewrite length_app; lia).
  clearbody buf. rewrite atyp_byte. destruct Ht as [[Hp Hip] Ht].
  destruct t as [h p|[ip p]]; cbn [atyp_of address_body target_port sa_port sa_ip] in *.
  - destruct Ht as [Hu Hl]. cbn [Z.eqb Pos.eqb]. rewrite <- !app_assoc in H1. cbn [app] in H1.
    rewrite !length_app, length_be_bytes in Hlen. cbn [length] in Hlen.
    rewrite (proj2 (Nat.ltb_ge _ _)), (index_at _ _ _ _ H1) by lia. cbn [mbind res_bind]. rewrite val8_to_u8, Z.mod_small, Nat2Z.id by lia.
    rewrite (proj2 (Nat.ltb_ge _ _)) by lia.
    pose proof (drop_shift 1 1 buf [_] _ H1 eq_refl) as H2. change (1 + 1)%nat with 2%nat in H2.
    rewrite (sub_slice_drop 2 buf h _ H2) by lia. cbn [mbind res_bind].
    pose proof (drop_shift 2 (length h) buf _ _ H2 eq_refl) as H3. rewrite (index_be16_drop _ _ _ _ H3) by lia. cbn [mbind res_bind].
    rewrite lossy_id by done. by rewrite (drop_shift _ 2 buf _ _ H3 (length_be_bytes _ _)).
  - rewrite !length_app, length_ip_octets, length_be_bytes in Hlen. rewrite <- app_assoc in H1.
    destruct ip as [v|v]; cbn [is_ipv4 ip_octets Z.eqb Pos.eqb] in *; rewrite (proj2 (Nat.ltb_ge _ _)) by lia.
    + rewrite (sub_slice_drop 1 buf (be_bytes 4 v) _ H1) by lia. cbn [mbind res_bind].
      pose proof (drop_shift _ 4 buf _ _ H1 (length_be_bytes _ _)) as H3. rewrite (index_be16_drop _ _ _ _ H3) by lia. cbn [mbind res_bind].
      rewrite v4_octets by done. do 2 f_equal. exact (drop_shift _ 2 buf _ _ H3 (length_be_bytes _ _)).
    + rewrite (sub_slice_drop 1 buf (be_bytes 16 v) _ H1) by lia. cbn [mbind res_bind].
      pose proof (drop_shift _ 16 buf _ _ H1 (length_be_bytes _ _)) as H3. rewrite (index_be16_drop _ _ _ _ H3) by lia. cbn [mbind res_bind].
      rewrite v6_octets by done. do 2 f_equal. exact (drop_shift _ 2 buf _ _ H3 (length_be_bytes _ _)).
Qed.

Lemma length_encode_address t : short_target t -> (4 <= length (encode_address t) <= 259)%nat.
Proof.
  intros Ht. unfold encode_address. rewrite (clamped_short t Ht), (address_shape t Ht). destruct Ht as [_ Ht].
  destruct t as [h p|[[v|v] p]]; cbn [address_body ip_octets sa_ip sa_port];
    repeat progress (rewrite ?length_app, ?length_be_bytes; cbn [length]); lia.
Qed.

Lemma ss_parse_address_safe buf : no_panic (parse_address buf).
Proof.
  unfold parse_address. destruct buf as [|a l] eqn:E; [done|]. rewrite <- E. clear E.
  destruct (val8 a =? 1); [|destruct (val8 a =? 4); [|destruct (val8 a =? 3); [|done]]].
  1,2: match goal with |- context [(?x <? ?y)%nat] => destruct (Nat.ltb_spec x y); [done|] end;
    repeat (apply no_panic_bind; [auto with resdb lia|intros ? _]); discriminate.
  destruct (Nat.ltb_spec (length buf) 2); [done|]. apply no_panic_bind; [auto with resdb lia|intros ? _].
  match goal with |- context [(?x <? ?y)%nat] => destruct (Nat.ltb_spec x y); [done|] end.
  repeat (apply no_panic_bind; [(apply sub_slice_no_panic || apply index_be16_no_panic); lia|intros ? _]). discriminate.
Qed.

Section Codec.
Context `{A : Aead} {L : AeadLaws A} `{P : SsPrimitives} {PL : SsLaws P}.

Lemma crypto_key_ok m k : length k = key_len m -> crypto_key m k = Ok (cipher m, k).
Proof using Type. intros H. unfold crypto_key. rewrite H, (proj2 (Nat.eqb_eq _ _)); [done|]. by destruct m. Qed.

(** Datagrams are read back: what [encrypt_packet] makes for a target and a
    payload, with any salt of the method's length, is the target and the payload
    for [decrypt_packet] with the same key; and no packet whatever makes
    [decrypt_packet] panic. *)
Theorem ss_datagram_reads_back (m : Method) (master salt : bytes) (t : Target) (payload packet : bytes)
    (Hs : length salt = salt_len m) (Ht : short_target t) (Hp : Z.of_nat (length payload) < 2 ^ 31) :
  (exists pkt, encrypt_packet m master (Ok salt) t payload = Ok pkt /\ take (salt_len m) pkt = salt
     /\ decrypt_packet m master pkt = Ok (t, payload))
  /\ no_panic (decrypt_packet m master packet).
Proof using L PL.
  assert (forall s, crypto_new m (session_subkey m master s) = Ok (mkCrypto (cipher m) (session_subkey m master s) (replicate 12 (to_u8 0)))) as Hnew.
  { intros s. unfold crypto_new. rewrite crypto_key_ok; [done|]. apply length_hkdf_sha1. }
  split.
  - assert (Z.of_nat (length (encode_address t ++ payload)) < 2 ^ 32) as Hl.
    { rewrite length_app. pose proof (length_encode_address t Ht). lia. }
    destruct (seal_open (cipher m) (session_subkey m master salt) (replicate 12 (to_u8 0)) [] _ Hl) as (ct & Hseal & _ & Hopen).
    exists (salt ++ ct). unfold encrypt_packet. cbn [mbind res_bind]. rewrite Hnew. cbn [mbind res_bind].
    unfold crypto_seal. cbn [cr_cipher cr_key cr_nonce]. rewrite Hseal. cbn [ok_or mbind res_bind].
    split; [done|]. rewrite <- Hs. split; [apply take_app_length|].
    unfold decrypt_packet. rewrite <- Hs, length_app, (proj2 (Nat.ltb_ge _ _)) by lia.
    rewrite take_app_length, drop_app_length, Hnew. cbn [mbind res_bind].
    unfold crypto_open. cbn [cr_cipher cr_key cr_nonce]. rewrite Hopen. cbn [ok_or mbind res_bind]. by apply parse_encoded_address.
  - unfold decrypt_packet. destruct (_ <? _)%nat; [done|]. rewrite Hnew. cbn [mbind res_bind].
    unfold crypto_open. destruct (aead_open _ _ _ _ _); [|done]. cbn [ok_or mbind res_bind]. apply ss_parse_address_safe.
Qed.
End Codec.

Lemma ss_datagram_reads_back_witness :
  (exists pkt, encrypt_packet (A := toy_aead) (P := toy_ss) Aes128Gcm (lit "key") (Ok (replicate 16 (to_u8 1))) (TDomain (lit "a.example") 53) (lit "query") = Ok pkt
     /\ take 16 pkt = replicate 16 (to_u8 1)
     /\ decrypt_packet (A := toy_aead) (P := toy_ss) Aes128Gcm (lit "key") pkt = Ok (TDomain (lit "a.example") 53, lit "query"))
  /\ no_panic (decrypt_packet (A := toy_aead) (P := toy_ss) Aes128Gcm (lit "key") (lit "short")).
Proof.
  apply (ss_datagram_reads_back (A := toy_aead) (P := toy_ss) Aes128Gcm (lit "key") (replicate 16 (to_u8 1)) (TDomain (lit "a.example") 53)).
  - reflexivity.
  - split; [split; vm_compute; intuition congruence|]. split; [vm_compute; reflexivity|cbn; lia].
  - apply Z.ltb_lt. vm_compute. reflexivity.
Defined.

(** ** Keys *)

Lemma le_value_cons b l : le_value (b :: l) = val8 b + 256 * le_value l.
Proof.
  unfold le_value. rewrite reverse_cons. unfold be_value. rewrite <- (app_nil_r (reverse l)) at 2.
  generalize (reverse l) 0. induction l0 as [|x l0 IH]; intros acc; cbn [app be_value_from]; [lia|apply IH].
Qed.

(** The nonce is a counter from its lowest byte. *)
Lemma incr_nonce_counts nonce :
  le_value (incr_nonce nonce) = (le_value nonce + 1) mod 256 ^ Z.of_nat (length nonce) /\ length (incr_nonce nonce) = length nonce.
Proof.
  induction nonce as [|b rest [IH IHl]]; cbn [incr_nonce length]; [done|].
  rewrite val8_to_u8, Nat2Z.inj_succ, Z.pow_succ_r by lia. set (N := 256 ^ Z.of_nat (length rest)) in *.
  assert (0 < N) by (unfold N; apply Z.pow_pos_nonneg; lia). pose proof (val8_range b).
  assert (0 <= le_value rest < N) as Hr by (unfold le_value, N; rewrite <- (length_reverse rest); apply be_value_range).
  destruct (Z.eqb_spec ((val8 b + 1) mod 256) 0) as [E|E]; rewrite ?le_value_cons, ?val8_to_u8; cbn [length]; rewrite ?IHl; (split; [|done]).
  - assert (val8 b = 255) as -> by dlia. rewrite IH, <- Z.mul_mod_distr_l by lia.
    change ((255 + 1) mod 256) with 0. rewrite Z.add_0_l. f_equal. ring.
  - rewrite Z.mod_small by dlia. rewrite Z.mod_small; [ring|]. assert (val8 b <> 255) by dlia. nia.
Qed.

(** After [i] messages it is [i]: no nonce is used twice in [2 ^ 96] messages. *)
Lemma nonces_count i : 0 <= i -> le_value (Nat.iter (Z.to_nat i) incr_nonce (replicate 12 (to_u8 0))) = i mod 2 ^ 96.
Proof.
  intros Hi. rewrite <- (Z2Nat.id i) at 2 by done. generalize (Z.to_nat i) as n. clear i Hi. intros n.
  assert (length (Nat.iter n incr_nonce (replicate 12 (to_u8 0))) = 12%nat /\
    le_value (Nat.iter n incr_nonce (replicate 12 (to_u8 0))) = Z.of_nat n mod 2 ^ 96) as [_ H]; [|exact H].
  induction n as [|n [IHl IH]]; [done|]. rewrite Nat.iter_succ.
  destruct (incr_nonce_counts (Nat.iter n incr_nonce (replicate 12 (to_u8 0)))) as [Hv Hl]. rewrite Hv, Hl, IHl, IH.
  split; [done|]. change (256 ^ Z.of_nat 12) with (2 ^ 96). rewrite Zplus_mod_idemp_l. f_equal. lia.
Qed.

Section KeyLemmas.
Context `{P : SsPrimitives} {PL : SsLaws P}.

(** Sixteen bytes a turn: the fuel is enough. *)
Lemma evp_loop_length fuel password n : forall key prev, (n - length key <= fuel)%nat -> (n <= length (evp_loop fuel password n key prev))%nat.
Proof using PL.
  induction fuel as [|fuel IH]; intros key prev H; cbn [evp_loop]; destruct (Nat.leb_spec n (length key)); try lia.
  apply IH. rewrite length_app, length_md5. lia.
Qed.

Lemma length_evp password n : length (evp_bytes_to_key password n) = n.
Proof using PL. unfold evp_bytes_to_key. rewrite length_take. pose proof (evp_loop_length n password n [] [] ltac:(cbn; lia)). lia. Qed.

Lemma key_len_cases m : key_len m = 16%nat \/ key_len m = 32%nat.
Proof using Type. destruct m; cbn; lia. Qed.

Lemma length_identity_subkey m k salt : length (identity_subkey_2022 m k salt) = key_len m.
Proof using PL. unfold identity_subkey_2022. rewrite length_take, length_derive_key. destruct (key_len_cases m); lia. Qed.

Lemma length_psk_hash k : length (psk_hash_16 k) = 16%nat.
Proof using PL. unfold psk_hash_16. rewrite length_take, length_blake3. lia. Qed.

Lemma aes_block_round m k b : length k = key_len m -> length b = 16%nat ->
  aes_ecb_encrypt_block k b = Ok (aes_encrypt k b) /\ aes_ecb_decrypt_block k (aes_encrypt k b) = Ok b.
Proof using PL.
  intros Hk Hb. unfold aes_ecb_encrypt_block, aes_ecb_decrypt_block. rewrite Hk, aes_inverse by done.
  by destruct (key_len_cases m) as [-> | ->].
Qed.

(** A server of the chain finds in its header the hash of the next key. *)
Lemma identity_header_opens m psk salt ipsks :
  match ipsks with
  | [] => build_identity_headers m ipsks psk salt = Ok []
  | ipsk :: rest => exists block out,
      build_identity_headers m ipsks psk salt = Ok (block ++ out) /\ length block = 16%nat
      /\ length out = (16 * length rest)%nat /\ build_identity_headers m rest psk salt = Ok out
      /\ aes_ecb_decrypt_block (identity_subkey_2022 m ipsk salt) block = Ok (psk_hash_16 (hd psk rest))
  end.
Proof using PL.
  induction ipsks as [|ipsk rest IH]; [done|].
  destruct (aes_block_round m (identity_subkey_2022 m ipsk salt) (psk_hash_16 (hd psk rest))) as [He Hd];
    [apply length_identity_subkey|apply length_psk_hash|].
  assert (exists out, build_identity_headers m rest psk salt = Ok out /\ length out = (16 * length rest)%nat) as (out & Ho & Hl).
  { destruct rest as [|k rest]; [by exists []|]. destruct IH as (block & out & IH & Hb & Hl & _). exists (block ++ out).
    split; [done|]. rewrite length_app. cbn [length]. lia. }
  exists (aes_encrypt (identity_subkey_2022 m ipsk salt) (psk_hash_16 (hd psk rest))), out.
  cbn [build_identity_headers]. rewrite Ho. replace (match rest with [] => psk | n :: _ => n end) with (hd psk rest) by (by destruct rest).
  rewrite He. split; [done|]. split; [apply length_aes, length_psk_hash|done].
Qed.
End KeyLemmas.
