(* ===== verification/SsStream.v ===== *)
(** * Streams of sealed chunks
    ([ShadowsocksStream] of [crates/net/src/shadowsocks/stream.rs])

    The chunks that both Shadowsocks streams have, and the stream of the AEAD
    methods: a salt, then chunks of a sealed length and sealed data. *)

From S2P Require Import Prelude RustStr NetAddr NetIo AsyncRead FrameReader Aead Outbound Socks Shadowsocks.

(** ** Chunks *)

Definition TAG : nat := 16.

(** The keys of the reading side: [recv]. *)
Abbreviation ChunkReader := (Reader (option Crypto)).
Abbreviation ChunkTurn Stage := (Turn (option Crypto) Stage (list Piece)).

Section Reading.
Context `{A : Aead} {Stage : Type}.
Implicit Types me : ChunkReader Stage.

(** [recv.open(&frame)]; [recv] is expected to be set. *)
Definition open_frame (frame : bytes) me (inner : list Piece)
    (k : bytes -> ChunkReader Stage -> list Piece -> ChunkTurn Stage) : ChunkTurn Stage :=
  match recv me with
  | None => inr (me, inner, Ready Panic)
  | Some c =>
      match crypto_open c frame with
      | Ok (c, pt) => k pt (set_recv (Some c) me) inner
      | Err e => inr (me, inner, Ready (Err e))
      | Panic => inr (me, inner, Ready Panic)
      end
  end.

(** The arm of the length of a chunk. *)
Definition read_len (max : nat) (bad_length : str) (next : nat -> Stage) me (inner : list Piece) : ChunkTurn Stage :=
  take_frame (2 + TAG) (Ready (Ok [])) me inner (fun frame me inner =>
    open_frame frame me inner (fun pt me inner =>
      match index_be16 (E := io_error) pt 0 with
      | Ok len =>
          let len := Z.to_nat len in
          if (len =? 0)%nat || (max <? len)%nat then inr (me, inner, Ready (Err (IoOther bad_length)))
          else inl (set_stage (next len) me, inner)
      | _ => inr (me, inner, Ready Panic)
      end)).

(** The arm of the data of a chunk. *)
Definition read_data (len : nat) (next : Stage) (want : nat) me (inner : list Piece) : ChunkTurn Stage :=
  take_frame (len + TAG) (Ready (Err UnexpectedEof)) me inner (fun frame me inner =>
    open_frame frame me inner (fun pt me inner =>
      let '(me, out) := deliver want (set_stage next (set_plain pt me)) in inr (me, inner, Ready (Ok out)))).

(** The key of the other direction, from its salt. *)
Definition read_salt (salt_length : nat) (new_crypto : bytes -> res io_error Crypto) (next : Stage) me (inner : list Piece) : ChunkTurn Stage :=
  take_frame salt_length (Ready (Ok [])) me inner (fun salt me inner =>
    match new_crypto salt with
    | Ok c => inl (set_stage next (set_recv (Some c) me), inner)
    | Err e => inr (me, inner, Ready (Err e))
    | Panic => inr (me, inner, Ready Panic)
    end).
End Reading.

Section Writing.
Context `{A : Aead}.

(** The sealing of one part: what is added to the buffer, and whether it failed. *)
Definition seal_part (pt : bytes) (send : Crypto) : Crypto * bytes * res io_error unit :=
  match crypto_seal send pt with
  | Ok (send, ct) => (send, ct, Ok tt)
  | Err e => (send, [], Err e)
  | Panic => (send, [], Panic)
  end.

(** [len_be], sealed, then the first [take] bytes, sealed. *)
Definition seal_chunk (max : nat) (buf : bytes) (send : Crypto) : Crypto * bytes * res io_error nat :=
  let n := Nat.min (length buf) max in
  match seal_part (be_bytes 2 (Z.of_nat n)) send with
  | (send, l, Ok _) => let '(send, d, r) := seal_part (take n buf) send in (send, l ++ d, _ ← r; Ok n)
  | (send, l, Err e) => (send, l, Err e)
  | (send, l, Panic) => (send, l, Panic)
  end.

End Writing.

(** ** [ShadowsocksStream] *)

Definition MAX_CHUNK : nat := Z.to_nat 0x3FFF.

Inductive ReadStage : Type := Salt | Len | Data (len : nat).

Section Ss.
Context `{A : Aead} `{P : SsPrimitives} (m : Method) (master : bytes).

(** The reading part of [new]. *)
Definition new_reader : ChunkReader ReadStage := mkReader None Salt [] [] 0.

(** [Crypto::new(method, &session_subkey(method, &master, &salt))] *)
Definition salted (salt : bytes) : res io_error Crypto := crypto_new m (session_subkey m master salt).

Definition ss_read_turn (want : nat) (st : ChunkReader ReadStage * list Piece) : ChunkTurn ReadStage :=
  let '(me, inner) := st in
  match stage me with
  | Salt => read_salt (salt_len m) salted Len me inner
  | Len => read_len MAX_CHUNK "ss: неверная длина чанка" Data me inner
  | Data len => read_data len Len want me inner
  end.

(** [poll_read]; a turn that goes on moves to the next of the three stages. *)
Definition ss_poll_read (want : nat) (me : ChunkReader ReadStage) (inner : list Piece)
    : res io_error (ChunkReader ReadStage * list Piece * Poll bytes) :=
  if (ppos me <? length (plain me))%nat then let '(me, out) := deliver want me in Ok (me, inner, Ready (Ok out))
  else loop 4 (fun st => Ok (ss_read_turn want st)) (me, inner).

(** What a write adds to the buffer; the first one begins with a salt
    ([random]: what [getrandom] gave). *)
Definition ss_encrypt (random : res io_error bytes) (buf : bytes) (send : option Crypto) : option Crypto * bytes * res io_error nat :=
  match send with
  | Some c => let '(c, sealed, r) := seal_chunk MAX_CHUNK buf c in (Some c, sealed, r)
  | None =>
      match (salt ← random; c ← salted salt; Ok (salt, c)) with
      | Ok (salt, c) => let '(c, sealed, r) := seal_chunk MAX_CHUNK buf c in (Some c, salt ++ sealed, r)
      | Err e => (None, [], Err e)
      | Panic => (None, [], Panic)
      end
  end.

(** [poll_write] *)
Definition ss_poll_write (random : res io_error bytes) : list WriteStep -> list WriteStep -> bytes -> option Crypto * Writer
    -> option Crypto * Writer * bytes * option (res io_error nat) := poll_write_with (ss_encrypt random).
End Ss.

(** ** The chunks of a stream *)

Section Chunks.
Context `{A : Aead} {L : AeadLaws A} {Stage : Type} (max : nat) (bad_length : str) (SLen : Stage) (SData : nat -> Stage).
Implicit Types me : ChunkReader Stage.

(** The bytes [wire] are the chunks [todo] for a reader with the key [c]. *)
Fixpoint chunks (c : Crypto) (todo : list bytes) (wire : bytes) : Prop :=
  match todo with
  | [] => wire = []
  | chunk :: todo => exists l c1 d c2 rest,
      wire = l ++ d ++ rest
      /\ length l = 18%nat /\ crypto_open c l = Ok (c1, be_bytes 2 (Z.of_nat (length chunk)))
      /\ length d = (length chunk + 16)%nat /\ crypto_open c1 d = Ok (c2, chunk)
      /\ (0 < length chunk <= max)%nat /\ chunks c2 todo rest
  end.

(** Between chunks, or before the data of one. *)
Inductive chunks_at (todo : list bytes) (me : ChunkReader Stage) (wire : bytes) : Prop :=
| at_len c : stage me = SLen -> recv me = Some c -> chunks c todo wire -> (length (rtmp me) <= 18)%nat -> chunks_at todo me wire
| at_data c1 c2 chunk todo' d rest : todo = chunk :: todo' -> stage me = SData (length chunk) -> recv me = Some c1 ->
    wire = d ++ rest -> length d = (length chunk + 16)%nat -> crypto_open c1 d = Ok (c2, chunk) -> (0 < length chunk)%nat ->
    chunks c2 todo' rest -> (length (rtmp me) <= length chunk + 16)%nat -> chunks_at todo me wire.

Definition tail_at (data out : bytes) me (inner : list Piece) : Prop :=
  exists todo, chunk_reader data out todo me inner /\ chunks_at todo me (wire_left me inner).

Lemma open_frame_ok frame me inner k c c' pt : recv me = Some c -> crypto_open c frame = Ok (c', pt) ->
  open_frame frame me inner k = k pt (set_recv (Some c') me) inner.
Proof using Type. intros Hr Ho. unfold open_frame. by rewrite Hr, Ho. Qed.

Lemma read_len_ok data out me inner todo c : (max < Z.to_nat 65536)%nat ->
  chunk_reader data out todo me inner -> ppos me = length (plain me) ->
  stage me = SLen -> recv me = Some c -> chunks c todo (wire_left me inner) -> (length (rtmp me) <= 18)%nat ->
  match read_len max bad_length SData me inner with
  | inl (me', inner') => tail_at data out me' inner' /\ (exists n, stage me' = SData n) /\ ppos me' = length (plain me')
  | inr r => poll_end (tail_at data) data out r
  end.
Proof using Type.
  intros Hmax Hc Hpp Hs Hr Hch Hrt. unfold read_len.
  destruct todo as [|chunk todo].
  - frame_case take_frame_end; [apply Hc|done|unfold TAG; lia|]. intros me' inner' p W Hp.
    assert (got p = []) as Hg by (by destruct Hp as [->| ->]). unfold poll_end. rewrite Hg, app_nil_r.
    split; [|split; [by destruct Hp as [->| ->]|intros _; by eapply chunk_reader_done]].
    exists []. split; [by eapply chunk_reader_waiting|]. destruct W as (r & -> & _ & Hw & Hl).
    eapply at_len; [done|done|rewrite Hw; done|exact Hl].
  - cbn [chunks] in Hch. destruct Hch as (l & c1 & d & c2 & rest & Hw & Hll & Hlo & Hdl & Hdo & Hlen & Hch).
    frame_case take_frame_ok; [apply Hc|exact Hrt|exact Hw|exact Hll|unfold TAG; lia| |].
    { intros me' inner' W. unfold poll_end. cbn [got]. rewrite app_nil_r. split; [|done]. exists (chunk :: todo).
      split; [by eapply chunk_reader_waiting|].
      destruct W as (r & -> & _ & Hw' & Hl). eapply at_len; [done|done| |exact Hl].
      rewrite Hw', Hw. cbn [chunks]. by exists l, c1, d, c2, rest. }
    intros inner' Hf' Ha. erewrite open_frame_ok; [|done..].
    rewrite (index_be16_drop 0 _ (Z.of_nat (length chunk)) []) by (rewrite ?drop_0, ?app_nil_r; lia || done).
    rewrite Nat2Z.id. destruct (Nat.eqb_spec (length chunk) 0); [lia|]. destruct (Nat.ltb_spec max (length chunk)); [lia|]. cbn [orb].
    split; [|split; [by eexists|done]]. exists (chunk :: todo). split; [split; [done|apply Hc..]|].
    eapply (at_data _ _ _ c1 c2 chunk todo d rest); try done; [lia|].
    cbn. lia.
Qed.

Lemma read_data_ok data out me inner todo want n : (0 < want)%nat -> (forall n, SLen <> SData n) ->
  (forall n n', SData n = SData n' -> n = n') ->
  chunk_reader data out todo me inner -> ppos me = length (plain me) ->
  stage me = SData n -> chunks_at todo me (wire_left me inner) ->
  exists r, read_data n SLen want me inner = inr r /\ poll_end (tail_at data) data out r.
Proof using Type.
  intros Hwant Hne Hinj Hc Hpp Hs Hat. destruct Hat as [c Hs'|c1 c2 chunk todo' d rest -> Hs' Hr Hw Hdl Hdo Hlen Hch Hrt].
  { exfalso. apply (Hne n). congruence. }
  assert (n = length chunk) as -> by (apply Hinj; congruence). unfold read_data.
  frame_case take_frame_ok; [apply Hc|exact Hrt|exact Hw|exact Hdl|unfold TAG; lia| |].
  { intros me' inner' W. eexists. split; [done|]. unfold poll_end. cbn [got]. rewrite app_nil_r. split; [|done]. exists (chunk :: todo').
    split; [by eapply chunk_reader_waiting|]. destruct W as (r & -> & _ & Hw' & Hl).
    eapply at_data; [done|done|exact Hr|rewrite Hw'; exact Hw|exact Hdl|exact Hdo|exact Hlen|exact Hch|exact Hl]. }
  intros inner' Hf' Ha. erewrite open_frame_ok; [|done..].
  pose proof (deliver_ok want (set_stage SLen (set_plain chunk (set_recv (Some c2) (set_rtmp [] me)))) ltac:(cbn; lia)) as Hd.
  destruct (deliver want _) as [me' o]. destruct Hd as (E1 & E2 & E3 & Hp' & Ho & Hne').
  cbn [recv stage rtmp plain ppos drop set_stage set_plain set_recv set_rtmp] in *.
  eexists. split; [done|]. unfold poll_end. cbn [got]. split; [|split; [done|]].
  - exists todo'. split; [|eapply at_len; [done|done|unfold wire_left; by rewrite E3, Ha|rewrite E3; cbn; lia]].
    split; [done..|]. destruct Hc as [_ _ Hd]. rewrite Hpp, drop_all in Hd. cbn [app concat] in Hd.
    rewrite <- Hd, <- !app_assoc. f_equal. by rewrite app_assoc, Ho.
  - intros [= ->]. specialize (Hne' eq_refl Hwant). cbn in Hne'. lia.
Qed.

Lemma chunks_at_same todo me me' wire : recv me' = recv me -> stage me' = stage me -> rtmp me' = rtmp me ->
  chunks_at todo me wire -> chunks_at todo me' wire.
Proof using Type.
  intros E1 E2 E3 [c|c1 c2 chunk todo' d rest]; [eapply at_len|eapply at_data]; rewrite ?E1, ?E2, ?E3; done.
Qed.
(** From a point between chunks, or before the data of one, a poll takes two
    turns at most. *)
Lemma chunks_loop turn want k data out todo me inner :
  (0 < want)%nat -> (max < Z.to_nat 65536)%nat -> (forall n, SLen <> SData n) -> (forall n n', SData n = SData n' -> n = n') ->
  (forall me inner, stage me = SLen -> turn (me, inner) = read_len max bad_length SData me inner) ->
  (forall n me inner, stage me = SData n -> turn (me, inner) = read_data n SLen want me inner) ->
  chunk_reader data out todo me inner -> ppos me = length (plain me) -> chunks_at todo me (wire_left me inner) ->
  exists r, loop (E := io_error) (S (S k)) (fun st => Ok (turn st)) (me, inner) = Ok r /\ poll_end (tail_at data) data out r.
Proof using Type.
  intros Hw Hmax Hne Hinj Hl Hd Hc Hp Hat. cbn [loop].
  destruct Hat as [c Hs Hr Hch Hrt|c1 c2 chunk todo' d rest Et Hs Hr Hwl Hdl Hdo Hlen Hch Hrt].
  - rewrite (Hl _ _ Hs). pose proof (read_len_ok data out me inner todo c Hmax Hc Hp Hs Hr Hch Hrt) as Ht.
    destruct (read_len max bad_length SData me inner) as [[me' inner']|r]; cbn [mbind res_bind]; [|by exists r].
    destruct Ht as ((todo' & Hc' & Hat') & (n & Hs') & Hp'). rewrite (Hd _ _ _ Hs').
    destruct (read_data_ok data out me' inner' todo' want n) as (r & -> & He); try done. cbn [mbind res_bind]. by exists r.
  - rewrite (Hd _ _ _ Hs).
    destruct (read_data_ok data out me inner todo want (length chunk)) as (r & -> & He); try done; [by eapply at_data|].
    cbn [mbind res_bind]. by exists r.
Qed.
End Chunks.

(** ** What a stream delivers *)

Section Delivery.
Context `{A : Aead} {L : AeadLaws A} `{P : SsPrimitives} {PL : SsLaws P} (m : Method) (master : bytes).

Abbreviation ss_chunks := (chunks MAX_CHUNK).
Abbreviation ss_chunks_at := (chunks_at MAX_CHUNK Len Data).

(** The bytes of a direction: nothing, or a salt and the chunks. *)
Definition ss_wire (todo : list bytes) (wire : bytes) : Prop :=
  (wire = [] /\ todo = []) \/
  exists salt c rest, wire = salt ++ rest /\ length salt = salt_len m /\ salted m master salt = Ok c /\ ss_chunks c todo rest.

Definition ss_at (data out : bytes) (me : ChunkReader ReadStage) (inner : list Piece) : Prop :=
  exists todo, chunk_reader data out todo me inner /\
    (ss_chunks_at todo me (wire_left me inner) \/
     stage me = Salt /\ (length (rtmp me) <= salt_len m)%nat /\ ss_wire todo (wire_left me inner)).

Lemma salt_len_pos : (0 < salt_len m)%nat.
Proof using Type. destruct m; cbn; lia. Qed.

Lemma max_chunk_16 : (MAX_CHUNK < Z.to_nat 65536)%nat.
Proof using Type. apply Nat.ltb_lt. vm_compute. reflexivity. Qed.

Lemma ss_chunks_loop want k data out todo me inner : (0 < want)%nat ->
  chunk_reader data out todo me inner -> ppos me = length (plain me) -> ss_chunks_at todo me (wire_left me inner) ->
  exists r, loop (E := io_error) (S (S k)) (fun st => Ok (ss_read_turn m master want st)) (me, inner) = Ok r
    /\ poll_end (ss_at data) data out r.
Proof using Type.
  intros Hw Hc Hp Hat. destruct (chunks_loop MAX_CHUNK "ss: неверная длина чанка" Len Data (ss_read_turn m master want)
    want k data out todo me inner) as (r & Hl & He); try done; [apply max_chunk_16|congruence|..].
  - intros me' inner' Hs. unfold ss_read_turn. by rewrite Hs.
  - intros n me' inner' Hs. unfold ss_read_turn. by rewrite Hs.
  - exists r. split; [done|]. eapply poll_end_mono; [|exact He]. intros out' me' inner' (todo' & Hc' & Hat'). exists todo'. split; [done|by left].
Qed.

Lemma ss_poll_ok want data out me inner : (0 < want)%nat -> ss_at data out me inner ->
  exists r, ss_poll_read m master want me inner = Ok r /\ poll_end (ss_at data) data out r.
Proof using Type.
  intros Hw (todo & Hc & Hat). unfold ss_poll_read. destruct (Nat.ltb_spec (ppos me) (length (plain me))) as [Hlt|Hge].
  - pose proof (deliver_tail data out me inner todo want Hw Hlt Hc) as H. destruct (deliver want me) as [me' o].
    destruct H as (Hc' & E1 & E2 & E3 & Hne). eexists. split; [done|]. unfold poll_end. cbn [got].
    split; [|split; [done|intros [= ->]; done]]. exists todo. split; [done|]. unfold wire_left in *. rewrite E2, E3.
    destruct Hat as [Hat|Hat]; [left; by eapply chunks_at_same|by right].
  - assert (ppos me = length (plain me)) as Hp by (destruct Hc; lia).
    destruct Hat as [Hat|(Hs & Hrt & Hwire)]; [by eapply ss_chunks_loop|].
    assert (ss_read_turn m master want (me, inner) = read_salt (salt_len m) (salted m master) Len me inner) as Ht
      by (unfold ss_read_turn; by rewrite Hs).
    rewrite (loop_turn 3). cbn beta. rewrite Ht. unfold read_salt.
    destruct Hwire as [[Hwl ->]|(salt & c & rest & Hwl & Hsl & Hsc & Hch)].
    + frame_case take_frame_end; [apply Hc|done|apply salt_len_pos|]. intros me' inner' p W Hpp. cbn [mbind res_bind].
      assert (got p = []) as Hg by (by destruct Hpp as [->| ->]). eexists. split; [done|]. unfold poll_end. rewrite Hg, app_nil_r.
      split; [|split; [by destruct Hpp as [->| ->]|intros _; by eapply chunk_reader_done]].
      exists []. split; [by eapply chunk_reader_waiting|]. right. destruct W as (r & -> & _ & Hw' & Hl). split; [done|]. split; [done|].
      left. by rewrite Hw'.
    + frame_case take_frame_ok; [apply Hc|exact Hrt|exact Hwl|exact Hsl|apply salt_len_pos| |].
      * intros me' inner' W. cbn [mbind res_bind]. eexists. split; [done|]. unfold poll_end. cbn [got]. rewrite app_nil_r. split; [|done].
        exists todo. split; [by eapply chunk_reader_waiting|]. right. destruct W as (r & -> & _ & Hw' & Hl). split; [done|]. split; [done|].
        right. exists salt, c, rest. by rewrite Hw'.
      * intros inner' Hf' Ha. rewrite Hsc. cbn [mbind res_bind]. eapply ss_chunks_loop; [done| |done|].
        -- split; [done|apply Hc..].
        -- eapply at_len; [done|done|unfold wire_left; cbn [rtmp set_rtmp set_recv set_stage set_plain app]; by rewrite Ha|cbn; lia].
Qed.

Lemma ss_delivers data : delivers (ss_poll_read m master) data (ss_at data).
Proof using Type.
  split.
  - intros out me inner want Hat Hw. destruct (ss_poll_ok want data out me inner Hw Hat) as ([[me' inner'] p] & Hr & He).
    by exists me', inner', p.
  - intros out me inner (todo & [_ _ Hd] & _). by eexists.
Qed.
End Delivery.

(** ** Writing, and the transfer *)

Definition next_crypto (c : Crypto) : Crypto := mkCrypto (cr_cipher c) (cr_key c) (incr_nonce (cr_nonce c)).

Section Transfer.
Context `{A : Aead} {L : AeadLaws A} `{P : SsPrimitives} {PL : SsLaws P}.

Lemma seal_then_open c pt : Z.of_nat (length pt) < 2 ^ 32 ->
  exists ct, crypto_seal c pt = Ok (next_crypto c, ct) /\ length ct = (length pt + 16)%nat /\ crypto_open c ct = Ok (next_crypto c, pt).
Proof using L.
  intros Hl. destruct (seal_open (cr_cipher c) (cr_key c) (cr_nonce c) [] pt Hl) as (ct & Hs & Hlen & Ho).
  exists ct. unfold crypto_seal, crypto_open. by rewrite Hs, Ho.
Qed.

Lemma crypto_open_next c ct c' pt : crypto_open c ct = Ok (c', pt) -> c' = next_crypto c.
Proof using Type. unfold crypto_open. destruct (aead_open _ _ _ _ _); [|done]. cbn. by intros [= <- <-]. Qed.

Lemma chunks_app max todo2 w2 todo1 : forall c w1, chunks max c todo1 w1 ->
  chunks max (Nat.iter (length todo1 * 2) next_crypto c) todo2 w2 -> chunks max c (todo1 ++ todo2) (w1 ++ w2).
Proof using Type.
  induction todo1 as [|chunk todo1 IH]; intros c w1; cbn [chunks app].
  - by intros ->.
  - intros (l & c1 & d & c2 & rest & -> & H1 & H2 & H3 & H4 & H5 & H6) H.
    exists l, c1, d, c2, (rest ++ w2). rewrite !app_assoc. do 5 (split; [done|]). split; [done|].
    apply IH; [done|]. apply crypto_open_next in H2. apply crypto_open_next in H4. subst.
    rewrite <- !Nat.iter_succ_r. done.
Qed.

Lemma seal_chunk_ok max buf c : (max < Z.to_nat 65536)%nat -> (0 < max)%nat -> (0 < length buf)%nat ->
  exists sealed, seal_chunk max buf c = (next_crypto (next_crypto c), sealed, Ok (Nat.min (length buf) max))
    /\ chunks max c [take (Nat.min (length buf) max) buf] sealed.
Proof using L.
  intros Hmax H0 Hb. set (n := Nat.min (length buf) max). assert (length (take n buf) = n) as Hn by (rewrite length_take; lia).
  destruct (seal_then_open c (be_bytes 2 (Z.of_nat n))) as (l & Hls & Hll & Hlo); [by rewrite length_be_bytes|].
  destruct (seal_then_open (next_crypto c) (take n buf)) as (d & Hds & Hdl & Hdo); [rewrite Hn; lia|].
  exists (l ++ d). split.
  - unfold seal_chunk, seal_part. fold n. by rewrite Hls, Hds.
  - cbn [chunks]. exists l, (next_crypto c), d, (next_crypto (next_crypto c)), []. rewrite app_nil_r, Hn.
    rewrite length_be_bytes in Hll. repeat split; (done || lia).
Qed.


Section Stream.
Context (m : Method) (master : bytes).
Abbreviation ss_chunks := (chunks MAX_CHUNK).

Lemma salted_ok salt : exists c, salted m master salt = Ok c.
Proof using PL.
  unfold salted, crypto_new, crypto_key, session_subkey. rewrite length_hkdf_sha1.
  rewrite (proj2 (Nat.eqb_eq _ _)) by (by destruct m). by eexists.
Qed.

(** The bytes after the writes [todo]. *)
Definition ss_sent (todo : list bytes) (wire : bytes) (send : option Crypto) : Prop :=
  match send with
  | None => todo = [] /\ wire = []
  | Some c => exists salt c0 rest, wire = salt ++ rest /\ length salt = salt_len m
      /\ salted m master salt = Ok c0 /\ ss_chunks c0 todo rest /\ c = Nat.iter (length todo * 2) next_crypto c0
  end.

Definition good_salt (random : res io_error bytes) : Prop := exists salt, random = Ok salt /\ length salt = salt_len m.

Lemma max_chunk_pos : (0 < MAX_CHUNK)%nat.
Proof using Type. apply Nat.ltb_lt. vm_compute. reflexivity. Qed.

(** What a write adds, before any flush. *)
Lemma ss_encrypt_ok random buf todo wire send : good_salt random -> buf <> [] -> ss_sent todo wire send ->
  exists send' sealed n, ss_encrypt m master random buf send = (send', sealed, Ok n) /\ ss_sent (todo ++ [take n buf]) (wire ++ sealed) send'.
Proof using L PL.
  intros (salt & -> & Hsl) Hne Hat. assert (0 < length buf)%nat as Hb by (destruct buf; [done|cbn; lia]).
  destruct send as [c|].
  - destruct Hat as (salt0 & c0 & rest & -> & Hl & Hs & Hch & ->).
    destruct (seal_chunk_ok MAX_CHUNK buf (Nat.iter (length todo * 2) next_crypto c0)) as (sealed & Hsc & Hc1);
      [apply max_chunk_16|apply max_chunk_pos|done|].
    eexists _, sealed, _. unfold ss_encrypt. rewrite Hsc. split; [done|].
    exists salt0, c0, (rest ++ sealed). rewrite <- app_assoc.
    split; [done|]. split; [done|]. split; [done|]. split; [by eapply chunks_app|].
    rewrite length_app. cbn [length]. replace ((length todo + 1) * 2)%nat with (S (S (length todo * 2))) by lia. done.
  - destruct Hat as [-> ->]. destruct (salted_ok salt) as (c0 & Hs).
    destruct (seal_chunk_ok MAX_CHUNK buf c0) as (sealed & Hsc & Hc1); [apply max_chunk_16|apply max_chunk_pos|done|].
    eexists _, (salt ++ sealed), _. unfold ss_encrypt. cbn [mbind res_bind]. rewrite Hs. cbn [mbind res_bind]. rewrite Hsc.
    split; [done|]. exists salt, c0, sealed. done.
Qed.

(** C16. What is written arrives. A client writes to a new stream, in any number of
    calls and with an inner writer that takes any part of the bytes at a time or
    none for now. No call fails; and when the bytes written, with those still
    buffered, arrive at a reader with the same password, in any pieces, then its
    reads deliver, in order, the bytes the calls said were taken, and the end of
    the stream only after all of them. *)
Theorem ss_stream_transfers (calls : list (WriteCall (res io_error bytes))) (wants : list nat)
    (Hcalls : Forall (good_call good_salt) calls) (Hwants : Forall (fun w => 0 < w)%nat wants) :
  let '(send, w, written, rs) := writes (ss_encrypt m master) calls (None, mkWriter [] 0) in
  Forall good_write rs /\
  forall inner, flowing inner -> arriving inner = written ++ drop (wpos w) (wbuf w) ->
    exists me inner' ps rest, polls (ss_poll_read m master) wants new_reader inner = Ok (me, inner', ps)
      /\ Forall good_poll ps /\ delivered ps ++ rest = all_taken calls rs /\ (Ready (Ok []) ∈ ps -> rest = []).
Proof using L PL.
  pose proof (writes_ok (ss_encrypt m master) ss_sent good_salt ss_encrypt_ok calls [] [] (None, mkWriter [] 0) Hcalls) as H.
  destruct (writes (ss_encrypt m master) calls _) as [[[send w] written] rs].
  destruct H as (Hg & more & [_ Hw] & Hm); [done|].
  split; [done|]. intros inner Hf Ha. cbn [app] in Hw.
  destruct (polls_deliver _ (all_taken calls rs) _ wants (ss_delivers m master (all_taken calls rs)) [] new_reader inner)
    as (me & inner' & ps & rest & Hps & Hgp & Hd & Hend); [|done|by exists me, inner', ps, rest].
  exists more. split; [split; [done|done|by cbn]|]. right. split; [done|]. split; [cbn; lia|].
  unfold wire_left. cbn [rtmp new_reader app src_left pieces_source]. rewrite Ha. destruct send as [c|].
  - right. destruct Hw as (salt & c0 & rest & E & Hl & Hs & Hch & _). by exists salt, c0, rest.
  - left. by destruct Hw as [-> ->].
Qed.
End Stream.
End Transfer.

Lemma ss_stream_transfers_witness :
  let calls := [mkCall (Ok (replicate 16 (to_u8 7))) [] [Took 5; NotNow] (lit "first");
                mkCall (Ok (replicate 16 (to_u8 8))) [Took 30; NotNow] [] (lit "refused");
                mkCall (Ok (replicate 16 (to_u8 8))) [Took 1000] [Took 7] (lit "second")] in
  let '(send, w, written, rs) := writes (ss_encrypt (A := toy_aead) (P := toy_ss) Aes128Gcm (lit "master")) calls (None, mkWriter [] 0) in
  rs = [Some (Ok 5%nat); None; Some (Ok 6%nat)] /\
  forall inner, flowing inner -> arriving inner = written ++ drop (wpos w) (wbuf w) ->
    exists me inner' ps rest,
      polls (ss_poll_read (A := toy_aead) (P := toy_ss) Aes128Gcm (lit "master")) [3; 100]%nat new_reader inner = Ok (me, inner', ps)
      /\ Forall good_poll ps /\ delivered ps ++ rest = lit "firstsecond" /\ (Ready (Ok []) ∈ ps -> rest = []).
Proof.
  intros calls.
  pose proof (ss_stream_transfers (A := toy_aead) (P := toy_ss) Aes128Gcm (lit "master") calls [3; 100]%nat) as H.
  destruct (writes (ss_encrypt (A := toy_aead) (P := toy_ss) Aes128Gcm (lit "master")) calls (None, mkWriter [] 0)) as [[[send w] written] rs] eqn:E.
  assert (rs = [Some (Ok 5%nat); None; Some (Ok 6%nat)]) as Hrs by (vm_compute in E; congruence).
  assert (all_taken calls rs = lit "firstsecond") as Ht by (by rewrite Hrs).
  rewrite <- Ht. split; [exact Hrs|]. apply H.
  - repeat (apply Forall_cons; split; [split; [|split; [|eexists; split; reflexivity]]; repeat constructor; lia|]). by apply Forall_nil.
  - repeat (apply Forall_cons; split; [lia|]). by apply Forall_nil.
Defined.
