(* ===== verification/Ss2022.v ===== *)
(** * Shadowsocks 2022 streams
    ([Ss2022Stream] of [crates/net/src/shadowsocks/ss2022.rs])

    A request begins with a salt, the headers of the identities and two sealed
    headers; the response names the salt of the request and a time, and only then
    its data begins. *)

From S2P Require Import Prelude RustStr NetAddr NetIo AsyncRead Aead Outbound Socks Shadowsocks FrameReader SsStream.

Definition MAX_CHUNK_2022 : nat := Z.to_nat 0xFFFF.
Definition TYPE_REQUEST : Z := 0.
Definition TYPE_RESPONSE : Z := 1.

Inductive ReadStage : Type := ServerSalt | RespHeader | FirstPayload (len : nat) | Len | Data (len : nat).

(** [u64::abs_diff] *)
Definition abs_diff (a b : Z) : Z := Z.abs (a - b).

Section Ss2022.
Context `{A : Aead} `{P : SsPrimitives} (m : Method) (psk : bytes).

(** [Crypto::new(method, &session_subkey_2022(method, &psk, &salt))] *)
Definition salted_2022 (salt : bytes) : res io_error Crypto := crypto_new m (session_subkey_2022 m psk salt).

(** [variable] and [fixed] of [new]. *)
Definition variable_header (addr : bytes) : bytes := addr ++ of_zs [0; 0].
Definition fixed_header (now : Z) (variable : bytes) : bytes :=
  [to_u8 TYPE_REQUEST] ++ be_bytes 8 now ++ be_bytes 2 (Z.of_nat (length variable) mod 65536).

(** [new], with what [getrandom] gave and the clock: the salt, the key and nonce
    of the sending side, and the buffer with the request. *)
Definition ss2022_new (identity_psks : list bytes) (addr : bytes) (random : res io_error bytes) (now : Z) : res io_error (bytes * Crypto * bytes) :=
  salt ← random;
  send ← salted_2022 salt;
  let variable := variable_header addr in
  let fixed := fixed_header now variable in
  ids ← (if is_nil identity_psks then Ok [] else build_identity_headers m identity_psks psk salt);
  '(send, f) ← crypto_seal send fixed;
  '(send, v) ← crypto_seal send variable;
  Ok (salt, send, salt ++ ids ++ f ++ v).

(** The reading part of [new]. *)
Definition new_reader : ChunkReader ReadStage := mkReader None ServerSalt [] [] 0.

(** The checks of the response header; the length of the first data. *)
Definition response_header (client_salt : bytes) (now : Z) (pt : bytes) : res io_error nat :=
  let sl := salt_len m in
  if negb (length pt =? 1 + 8 + sl + 2)%nat then Err (IoOther "ss2022: размер заголовка")
  else
    ty ← index pt 0;
    if negb (val8 ty =? TYPE_RESPONSE) then Err (IoOther "ss2022: не ответ (type)")
    else
      ts ← sub_slice 1 9 pt;
      if 30 <? abs_diff now (be_value ts) then Err (IoOther "ss2022: timestamp вне окна")
      else
        req_salt ← sub_slice 9 (9 + sl) pt;
        if negb (bool_decide (req_salt = client_salt)) then Err (IoOther "ss2022: соль запроса в ответе не совпала")
        else len ← index_be16 pt (9 + sl); Ok (Z.to_nat len).

Definition read_header (client_salt : bytes) (now : Z) (me : ChunkReader ReadStage) (inner : list Piece) : ChunkTurn ReadStage :=
  take_frame (1 + 8 + salt_len m + 2 + TAG) (Ready (Ok [])) me inner (fun frame me inner =>
    open_frame frame me inner (fun pt me inner =>
      match response_header client_salt now pt with
      | Ok len => inl (set_stage (FirstPayload len) me, inner)
      | Err e => inr (me, inner, Ready (Err e))
      | Panic => inr (me, inner, Ready Panic)
      end)).

(** Empty first data is passed over. *)
Definition read_first (len want : nat) (me : ChunkReader ReadStage) (inner : list Piece) : ChunkTurn ReadStage :=
  take_frame (len + TAG) (Ready (Err UnexpectedEof)) me inner (fun frame me inner =>
    open_frame frame me inner (fun pt me inner =>
      let me := set_stage Len (set_plain pt me) in
      if is_nil pt then inl (me, inner)
      else let '(me, out) := deliver want me in inr (me, inner, Ready (Ok out)))).

Definition ss2022_read_turn (client_salt : bytes) (now : Z) (want : nat) (st : ChunkReader ReadStage * list Piece) : ChunkTurn ReadStage :=
  let '(me, inner) := st in
  match stage me with
  | ServerSalt => read_salt (salt_len m) salted_2022 RespHeader me inner
  | RespHeader => read_header client_salt now me inner
  | FirstPayload len => read_first len want me inner
  | Len => read_len MAX_CHUNK_2022 "ss2022: неверная длина чанка" Data me inner
  | Data len => read_data len Len want me inner
  end.

(** [poll_read]; a turn that goes on moves to the next of the five stages. *)
Definition ss2022_poll_read (client_salt : bytes) (now : Z) (want : nat) (me : ChunkReader ReadStage) (inner : list Piece)
    : res io_error (ChunkReader ReadStage * list Piece * Poll bytes) :=
  if (ppos me <? length (plain me))%nat then let '(me, out) := deliver want me in Ok (me, inner, Ready (Ok out))
  else loop 6 (fun st => Ok (ss2022_read_turn client_salt now want st)) (me, inner).

(** [poll_write] *)
Definition ss2022_poll_write : list WriteStep -> list WriteStep -> bytes -> Crypto * Writer
    -> Crypto * Writer * bytes * option (res io_error nat) := poll_write_with (seal_chunk MAX_CHUNK_2022).
End Ss2022.

(** ** Requests *)

Section Requests.
Context `{A : Aead} {L : AeadLaws A} `{P : SsPrimitives} {PL : SsLaws P} (m : Method) (psk : bytes).

Lemma salted_2022_ok salt : exists c, salted_2022 m psk salt = Ok c.
Proof using PL.
  unfold salted_2022, crypto_new. rewrite crypto_key_ok; [by eexists|].
  unfold session_subkey_2022. rewrite length_take, length_derive_key. destruct m; cbn; lia.
Qed.

(** What a server reads of a request to [t]: after the salt and one block for
    each identity, a header with the type, the client's clock and the length of
    the next header, which is the address of the target and no padding. *)
Theorem ss2022_request_reads_back (identity_psks : list bytes) (t : Target) (salt : bytes) (now : Z)
    (Ht : short_target t) (Hn : 0 <= now < 2 ^ 64) :
  exists c ids f v send, ss2022_new m psk identity_psks (encode_address t) (Ok salt) now = Ok (salt, send, salt ++ ids ++ f ++ v)
    /\ length ids = (16 * length identity_psks)%nat
    /\ salted_2022 m psk salt = Ok c
    /\ crypto_open c f = Ok (next_crypto c, of_zs [0] ++ be_bytes 8 now ++ be_bytes 2 (Z.of_nat (length (encode_address t)) + 2))
    /\ crypto_open (next_crypto c) v = Ok (send, encode_address t ++ of_zs [0; 0])
    /\ parse_address (encode_address t ++ of_zs [0; 0]) = Ok (t, of_zs [0; 0]).
Proof using L PL.
  destruct (salted_2022_ok salt) as (c & Hc).
  pose proof (length_encode_address t Ht) as Hlen.
  assert (length (variable_header (encode_address t)) = length (encode_address t) + 2)%nat as Hvl by (unfold variable_header; by rewrite length_app).
  destruct (seal_then_open c (fixed_header now (variable_header (encode_address t)))) as (f & Hf & _ & Hfo); [done|].
  destruct (seal_then_open (next_crypto c) (variable_header (encode_address t))) as (v & Hv & _ & Hvo); [lia|].
  assert (exists ids, (if is_nil identity_psks then Ok [] else build_identity_headers m identity_psks psk salt) = Ok ids
    /\ length ids = (16 * length identity_psks)%nat) as (ids & Hids & Hidl).
  { pose proof (identity_header_opens m psk salt identity_psks) as H. destruct identity_psks as [|k ks]; [by exists []|].
    destruct H as (block & out & H & Hb & Ho & _). exists (block ++ out). split; [done|]. rewrite length_app. cbn [length]. lia. }
  exists c, ids, f, v, (next_crypto (next_crypto c)). unfold ss2022_new. cbn [mbind res_bind]. rewrite Hc. cbn [mbind res_bind].
  rewrite Hids. cbn [mbind res_bind]. rewrite Hf. cbn [mbind res_bind]. rewrite Hv. split; [done|]. split; [done|]. split; [done|].
  split; [|split; [exact Hvo|by apply parse_encoded_address]].
  rewrite Hfo. unfold fixed_header. rewrite Hvl, Z.mod_small by lia. by rewrite Nat2Z.inj_add.
Qed.
End Requests.

Lemma ss2022_request_reads_back_witness :
  exists c ids f v send, ss2022_new (A := toy_aead) (P := toy_ss) Ss2022Aes256Gcm (lit "psk") [lit "id"] (encode_address (TDomain (lit "a.example") 53)) (Ok (lit "salt")) 5
      = Ok (lit "salt", send, lit "salt" ++ ids ++ f ++ v)
    /\ length ids = 16%nat
    /\ salted_2022 (P := toy_ss) Ss2022Aes256Gcm (lit "psk") (lit "salt") = Ok c
    /\ crypto_open (A := toy_aead) c f = Ok (next_crypto c, of_zs [0; 0; 0; 0; 0; 0; 0; 0; 5; 0; 15])
    /\ crypto_open (A := toy_aead) (next_crypto c) v = Ok (send, encode_address (TDomain (lit "a.example") 53) ++ of_zs [0; 0])
    /\ parse_address (encode_address (TDomain (lit "a.example") 53) ++ of_zs [0; 0]) = Ok (TDomain (lit "a.example") 53, of_zs [0; 0]).
Proof.
  apply (ss2022_request_reads_back (A := toy_aead) (P := toy_ss) Ss2022Aes256Gcm (lit "psk") [lit "id"] (TDomain (lit "a.example") 53) (lit "salt") 5).
  - split; [split; vm_compute; intuition congruence|]. split; [vm_compute; reflexivity|cbn; lia].
  - lia.
Defined.


(** ** Responses *)

(** A server's response: what it says first is in the header's own chunk. *)
Fixpoint seal_all `{A : Aead} (parts : list bytes) (send : Crypto) : bytes :=
  match parts with
  | [] => []
  | part :: parts => let '(send, sealed, _) := seal_chunk MAX_CHUNK_2022 part send in sealed ++ seal_all parts send
  end.

Definition respond `{A : Aead} `{P : SsPrimitives} (m : Method) (psk client_salt salt : bytes) (ts : Z) (first : bytes) (parts : list bytes) : res io_error bytes :=
  send ← salted_2022 m psk salt;
  '(send, h) ← crypto_seal send ([to_u8 TYPE_RESPONSE] ++ be_bytes 8 ts ++ client_salt ++ be_bytes 2 (Z.of_nat (length first)));
  '(send, d) ← crypto_seal send first;
  Ok (salt ++ h ++ d ++ seal_all parts send).

Section Responses.
Context `{A : Aead} {L : AeadLaws A} `{P : SsPrimitives} {PL : SsLaws P} (m : Method) (psk client_salt : bytes) (now : Z).

Abbreviation data_chunks := (chunks MAX_CHUNK_2022).
Abbreviation data_at := (chunks_at MAX_CHUNK_2022 Len Data).
Abbreviation turn := (ss2022_read_turn m psk client_salt now).
Abbreviation header_frame := (1 + 8 + salt_len m + 2 + TAG)%nat.

(** What is on the wire from the first data on, from the header on, and from the
    salt on. *)
Definition first_wire (c : Crypto) (n : nat) (todo : list bytes) (wire : bytes) : Prop :=
  exists first todo' d rest, todo = first :: todo' /\ length first = n /\ wire = d ++ rest /\ length d = (n + 16)%nat
    /\ crypto_open c d = Ok (next_crypto c, first) /\ data_chunks (next_crypto c) todo' rest.
Definition header_wire (c : Crypto) (todo : list bytes) (wire : bytes) : Prop :=
  exists n hdr h rest, wire = h ++ rest /\ length h = header_frame /\ crypto_open c h = Ok (next_crypto c, hdr)
    /\ response_header m client_salt now hdr = Ok n /\ first_wire (next_crypto c) n todo rest.
Definition salt_wire (todo : list bytes) (wire : bytes) : Prop :=
  exists salt c rest, wire = salt ++ rest /\ length salt = salt_len m /\ salted_2022 m psk salt = Ok c /\ header_wire c todo rest.

Inductive stage_at (todo : list bytes) (me : ChunkReader ReadStage) (wire : bytes) : Prop :=
| at_salt : stage me = ServerSalt -> salt_wire todo wire -> (length (rtmp me) <= salt_len m)%nat -> stage_at todo me wire
| at_header c : stage me = RespHeader -> recv me = Some c -> header_wire c todo wire -> (length (rtmp me) <= header_frame)%nat -> stage_at todo me wire
| at_first c n : stage me = FirstPayload n -> recv me = Some c -> first_wire c n todo wire -> (length (rtmp me) <= n + TAG)%nat -> stage_at todo me wire
| at_chunks : data_at todo me wire -> stage_at todo me wire.

Definition ss2022_at (data out : bytes) (me : ChunkReader ReadStage) (inner : list Piece) : Prop :=
  exists todo, chunk_reader data out todo me inner /\ stage_at todo me (wire_left me inner).

Abbreviation ended data out r := (poll_end (ss2022_at data) data out r).

Lemma waits data out todo need me me' inner inner' :
  chunk_reader data out todo me inner -> waiting need me me' inner inner' ->
  (forall r, (length r <= need)%nat -> stage_at todo (set_rtmp r me) (wire_left me inner)) ->
  ended data out (me', inner', Pending).
Proof using Type.
  intros Hc W Hs. unfold poll_end. cbn [got]. rewrite app_nil_r. split; [|done]. exists todo.
  split; [by eapply chunk_reader_waiting|]. destruct W as (r & -> & _ & Hw & Hl). rewrite Hw. by apply Hs.
Qed.

Lemma from_chunks k want data out todo me inner : (0 < want)%nat ->
  chunk_reader data out todo me inner -> ppos me = length (plain me) -> data_at todo me (wire_left me inner) ->
  exists r, loop (E := io_error) (S (S k)) (fun st => Ok (turn want st)) (me, inner) = Ok r /\ ended data out r.
Proof using Type.
  intros Hw Hc Hp Hat. destruct (chunks_loop MAX_CHUNK_2022 "ss2022: неверная длина чанка" Len Data (turn want)
    want k data out todo me inner) as (r & Hl & He); try done; [apply Nat.ltb_lt; vm_compute; reflexivity|congruence|..].
  - intros me' inner' Hs. unfold ss2022_read_turn. by rewrite Hs.
  - intros n me' inner' Hs. unfold ss2022_read_turn. by rewrite Hs.
  - exists r. split; [done|]. eapply poll_end_mono; [|exact He]. intros out' me' inner' (todo' & Hc' & Hat').
    exists todo'. split; [done|by apply at_chunks].
Qed.

Lemma from_first k want data out todo me inner c n : (0 < want)%nat ->
  chunk_reader data out todo me inner -> ppos me = length (plain me) ->
  stage me = FirstPayload n -> recv me = Some c -> first_wire c n todo (wire_left me inner) -> (length (rtmp me) <= n + TAG)%nat ->
  exists r, loop (E := io_error) (S (S (S k))) (fun st => Ok (turn want st)) (me, inner) = Ok r /\ ended data out r.
Proof using Type.
  intros Hw Hc Hp Hs Hr (first & todo' & d & rest & -> & Hn & Hwl & Hdl & Hdo & Hch) Hrt.
  assert (turn want (me, inner) = read_first n want me inner) as Ht by (unfold ss2022_read_turn; by rewrite Hs).
  rewrite (loop_turn (S (S k))). cbn beta. rewrite Ht. unfold read_first.
  frame_case take_frame_ok; [apply Hc|exact Hrt|exact Hwl|exact Hdl|unfold TAG; lia| |].
  { intros me' inner' W. cbn [mbind res_bind]. eexists. split; [done|]. eapply waits; [exact Hc|exact W|].
    intros r Hl. eapply (at_first _ _ _ c n); [exact Hs|exact Hr|by exists first, todo', d, rest|exact Hl]. }
  intros inner' Hf' Ha. erewrite open_frame_ok; [|done..]. cbn zeta.
  destruct Hc as [_ _ Hd]. rewrite Hp, drop_all in Hd. cbn [app concat] in Hd.
  destruct (is_nil first) eqn:Efirst.
  - destruct first; [|done]. cbn [mbind res_bind]. eapply from_chunks; [done| |done|].
    + split; [done|cbn; lia|exact Hd].
    + eapply at_len; [done|done|unfold wire_left; cbn [rtmp set_rtmp set_recv set_stage set_plain app]; rewrite Ha; exact Hch|cbn; lia].
  - pose proof (deliver_ok want (set_stage Len (set_plain first (set_recv (Some (next_crypto c)) (set_rtmp [] me)))) ltac:(cbn; lia)) as Hdel.
    destruct (deliver want _) as [me' o]. destruct Hdel as (E1 & E2 & E3 & Hp' & Ho & Hne).
    cbn [recv stage rtmp plain ppos drop set_stage set_plain set_recv set_rtmp] in *. cbn [mbind res_bind].
    eexists. split; [done|]. unfold poll_end. cbn [got]. split; [|split; [done|]].
    + exists todo'. split; [|apply at_chunks; eapply at_len; [done|done|unfold wire_left; rewrite E3, Ha; exact Hch|rewrite E3; cbn; lia]].
      split; [done..|]. rewrite <- Hd, <- !app_assoc. f_equal. by rewrite app_assoc, Ho.
    + intros [= ->]. specialize (Hne eq_refl Hw). by destruct first.
Qed.

Lemma from_header k want data out todo me inner c : (0 < want)%nat ->
  chunk_reader data out todo me inner -> ppos me = length (plain me) ->
  stage me = RespHeader -> recv me = Some c -> header_wire c todo (wire_left me inner) -> (length (rtmp me) <= header_frame)%nat ->
  exists r, loop (E := io_error) (S (S (S (S k)))) (fun st => Ok (turn want st)) (me, inner) = Ok r /\ ended data out r.
Proof using Type.
  intros Hw Hc Hp Hs Hr (n & hdr & h & rest & Hwl & Hhl & Hho & Hn & Hfirst) Hrt.
  assert (turn want (me, inner) = read_header m client_salt now me inner) as Ht by (unfold ss2022_read_turn; by rewrite Hs).
  rewrite (loop_turn (S (S (S k)))). cbn beta. rewrite Ht. unfold read_header.
  frame_case take_frame_ok; [apply Hc|exact Hrt|exact Hwl|exact Hhl|unfold TAG; lia| |].
  { intros me' inner' W. cbn [mbind res_bind]. eexists. split; [done|]. eapply waits; [exact Hc|exact W|].
    intros r Hl. eapply (at_header _ _ _ c); [exact Hs|exact Hr|by exists n, hdr, h, rest|exact Hl]. }
  intros inner' Hf' Ha. erewrite open_frame_ok; [|done..]. rewrite Hn. cbn [mbind res_bind].
  eapply from_first; [done|split; [done|apply Hc..]|done|done|done|unfold wire_left; cbn [rtmp set_rtmp set_recv set_stage set_plain app]; rewrite Ha; exact Hfirst|cbn; lia].
Qed.

Lemma ss2022_poll_ok want data out me inner : (0 < want)%nat -> ss2022_at data out me inner ->
  exists r, ss2022_poll_read m psk client_salt now want me inner = Ok r /\ ended data out r.
Proof using Type.
  intros Hw (todo & Hc & Hat). unfold ss2022_poll_read. destruct (Nat.ltb_spec (ppos me) (length (plain me))) as [Hlt|Hge].
  - pose proof (deliver_tail data out me inner todo want Hw Hlt Hc) as H. destruct (deliver want me) as [me' o].
    destruct H as (Hc' & E1 & E2 & E3 & Hne). eexists. split; [done|]. unfold poll_end. cbn [got].
    split; [|split; [done|intros [= ->]; done]]. exists todo. split; [done|].
    assert (wire_left me' inner = wire_left me inner) as -> by (unfold wire_left; by rewrite E3).
    destruct Hat as [Hs Hwire Hrt|c Hs Hr Hwire Hrt|c n Hs Hr Hwire Hrt|Hat];
      [apply at_salt|eapply at_header|eapply at_first|apply at_chunks; by eapply chunks_at_same]; rewrite ?E1, ?E2, ?E3; done.
  - assert (ppos me = length (plain me)) as Hp by (destruct Hc; lia).
    destruct Hat as [Hs Hwire Hrt|c Hs Hr Hwire Hrt|c n Hs Hr Hwire Hrt|Hat];
      [|by eapply (from_header 2)|by eapply (from_first 3)|by eapply (from_chunks 4)].
    destruct Hwire as (salt & c & rest & Hwl & Hsl & Hsc & Hh).
    assert (turn want (me, inner) = read_salt (salt_len m) (salted_2022 m psk) RespHeader me inner) as Ht
      by (unfold ss2022_read_turn; by rewrite Hs).
    rewrite (loop_turn 5). cbn beta. rewrite Ht. unfold read_salt.
    frame_case take_frame_ok; [apply Hc|exact Hrt|exact Hwl|exact Hsl|apply salt_len_pos| |].
    + intros me' inner' W. cbn [mbind res_bind]. eexists. split; [done|]. eapply waits; [exact Hc|exact W|].
      intros r Hl. apply at_salt; [exact Hs|by exists salt, c, rest|exact Hl].
    + intros inner' Hf' Ha. rewrite Hsc. cbn [mbind res_bind].
      eapply from_header; [done|split; [done|apply Hc..]|done|done|done|unfold wire_left; cbn [rtmp set_rtmp set_recv set_stage set_plain app]; rewrite Ha; exact Hh|cbn; lia].
Qed.

Lemma ss2022_delivers data : delivers (ss2022_poll_read m psk client_salt now) data (ss2022_at data).
Proof using Type.
  split.
  - intros out me inner want Hat Hw. destruct (ss2022_poll_ok want data out me inner Hw Hat) as ([[me' inner'] p] & Hr & He).
    by exists me', inner', p.
  - intros out me inner (todo & [_ _ Hd] & _). by eexists.
Qed.

Lemma seal_all_chunks parts : Forall (fun p => 0 < length p <= MAX_CHUNK_2022)%nat parts ->
  forall c, data_chunks c parts (seal_all parts c).
Proof using L.
  induction parts as [|part parts IH]; intros Hp c; cbn [seal_all]; [done|].
  apply Forall_cons in Hp as [[Hp0 Hp] Hps].
  destruct (seal_chunk_ok MAX_CHUNK_2022 part c) as (sealed & -> & Hc); [apply Nat.ltb_lt; vm_compute; reflexivity|lia|lia|].
  rewrite Nat.min_l, firstn_all in Hc by lia. apply (chunks_app _ parts _ [part] c); [done|]. by apply IH.
Qed.

Lemma response_header_ok ts n : length client_salt = salt_len m -> 0 <= ts < 2 ^ 64 -> abs_diff now ts <= 30 -> 0 <= n < 65536 ->
  response_header m client_salt now ([to_u8 TYPE_RESPONSE] ++ be_bytes 8 ts ++ client_salt ++ be_bytes 2 n) = Ok (Z.to_nat n).
Proof using Type.
  intros Hs Ht Hd Hn. unfold response_header. set (pt := _ ++ _).
  assert (length pt = 1 + 8 + salt_len m + 2)%nat as Hl by (unfold pt; rewrite !length_app, !length_be_bytes, Hs; cbn [length]; lia).
  assert (drop 1 pt = be_bytes 8 ts ++ client_salt ++ be_bytes 2 n) as H1 by done.
  pose proof (drop_shift 1 8 pt _ _ H1 (length_be_bytes _ _)) as H9. change (1 + 8)%nat with 9%nat in H9.
  pose proof (drop_shift 9 (salt_len m) pt _ _ H9 Hs) as H11. rewrite <- (app_nil_r (be_bytes 2 n)) in H11.
  assert (index (E := io_error) pt 0 = Ok (to_u8 TYPE_RESPONSE)) as H0 by done. clearbody pt.
  rewrite Hl, Nat.eqb_refl, H0. cbn [negb mbind res_bind]. change (val8 (to_u8 TYPE_RESPONSE) =? TYPE_RESPONSE) with true. cbn [negb].
  rewrite (sub_slice_drop 1 pt (be_bytes 8 ts) _ H1) by lia. cbn [mbind res_bind]. rewrite be_value_be_bytes_small by done.
  rewrite (proj2 (Z.ltb_ge _ _)) by done.
  rewrite <- Hs. rewrite (sub_slice_drop 9 pt client_salt _ H9) by lia. cbn [mbind res_bind]. rewrite bool_decide_true by done. cbn [negb].
  rewrite Hs, (index_be16_drop _ _ _ _ H11) by done. done.
Qed.

(** A response is delivered: of a server that answers this request with a clock
    within thirty seconds, in any pieces and for any sizes of the reads, the
    client reads what the server says first and all its later parts, in order,
    no read fails, and the end of the stream is read after everything only. *)
Theorem ss2022_response_delivers (salt first : bytes) (ts : Z) (parts : list bytes) (wants : list nat)
    (Hcs : length client_salt = salt_len m) (Hsl : length salt = salt_len m)
    (Hts : 0 <= ts < 2 ^ 64) (Hclock : abs_diff now ts <= 30) (Hfirst : Z.of_nat (length first) < 65536)
    (Hparts : Forall (fun p => 0 < length p <= MAX_CHUNK_2022)%nat parts) (Hwants : Forall (fun w => 0 < w)%nat wants) :
  exists wire, respond m psk client_salt salt ts first parts = Ok wire /\
    forall inner, flowing inner -> arriving inner = wire ->
      exists me inner' ps rest, polls (ss2022_poll_read m psk client_salt now) wants new_reader inner = Ok (me, inner', ps)
        /\ Forall good_poll ps /\ delivered ps ++ rest = first ++ concat parts /\ (Ready (Ok []) ∈ ps -> rest = []).
Proof using L PL.
  destruct (salted_2022_ok m psk salt) as (c & Hc). set (hdr := [to_u8 TYPE_RESPONSE] ++ be_bytes 8 ts ++ client_salt ++ be_bytes 2 (Z.of_nat (length first))).
  assert (length hdr = 1 + 8 + salt_len m + 2)%nat as Hhdr by (unfold hdr; rewrite !length_app, !length_be_bytes, Hcs; cbn [length]; lia).
  assert (salt_len m <= 32)%nat as H32 by (by destruct m; apply Nat.leb_le).
  destruct (seal_then_open c hdr) as (h & Hh & Hhl & Hho); [lia|].
  destruct (seal_then_open (next_crypto c) first) as (d & Hd & Hdl & Hdo); [lia|].
  eexists. split.
  { unfold respond. rewrite Hc. cbn [mbind res_bind]. fold hdr. rewrite Hh. cbn [mbind res_bind]. rewrite Hd. reflexivity. }
  intros inner Hf Ha.
  destruct (polls_deliver _ (first ++ concat parts) _ wants (ss2022_delivers (first ++ concat parts)) [] new_reader inner)
    as (me & inner' & ps & rest & Hps & Hgp & Hdel & Hend); [|done|by exists me, inner', ps, rest].
  exists (first :: parts). split; [split; [done|done|by cbn]|]. apply at_salt; [done| |cbn; lia].
  exists salt, c, (h ++ d ++ seal_all parts (next_crypto (next_crypto c))). unfold wire_left. cbn [rtmp new_reader app].
  split; [done|]. split; [done|]. split; [done|]. exists (length first), hdr, h, (d ++ seal_all parts (next_crypto (next_crypto c))).
  split; [done|]. split; [rewrite Hhl, Hhdr; unfold TAG; lia|]. split; [done|]. split.
  { unfold hdr. rewrite response_header_ok by (done || lia). by rewrite Nat2Z.id. }
  exists first, parts, d, (seal_all parts (next_crypto (next_crypto c))). split_and!; try done. by apply seal_all_chunks.
Qed.
End Responses.

Lemma ss2022_response_delivers_witness :
  let m := Ss2022Aes128Gcm in
  let mine := replicate 16 (to_u8 1) in
  exists wire, respond (A := toy_aead) (P := toy_ss) m (lit "psk") mine (replicate 16 (to_u8 2)) 1000 [] [lit "some"; lit "thing"] = Ok wire /\
    forall inner, flowing inner -> arriving inner = wire ->
      exists me inner' ps rest, polls (ss2022_poll_read (A := toy_aead) (P := toy_ss) m (lit "psk") mine 1030) [3; 100]%nat new_reader inner = Ok (me, inner', ps)
        /\ Forall good_poll ps /\ delivered ps ++ rest = lit "something" /\ (Ready (Ok []) ∈ ps -> rest = []).
Proof.
  intros m mine.
  apply (ss2022_response_delivers (A := toy_aead) (P := toy_ss) m (lit "psk") mine 1030 (replicate 16 (to_u8 2)) [] 1000 [lit "some"; lit "thing"]).
  - reflexivity.
  - reflexivity.
  - lia.
  - unfold abs_diff. lia.
  - cbn. lia.
  - repeat (apply Forall_cons; split; [split; [cbn; lia|apply Nat.leb_le; vm_compute; reflexivity]|]). by apply Forall_nil.
  - repeat (apply Forall_cons; split; [lia|]). by apply Forall_nil.
Defined.

(** ** Whose answer it is *)

Section Answered.
Context `{A : Aead} {L : AeadLaws A} `{P : SsPrimitives} {PL : SsLaws P} (m : Method) (psk client_salt : bytes) (now : Z).

Abbreviation turn := (ss2022_read_turn m psk client_salt now).
Abbreviation header_frame := (1 + 8 + salt_len m + 2 + TAG)%nat.

(** [c] has the key that the salt gives. *)
Definition keyed (salt : bytes) (c : Crypto) : Prop :=
  exists c0, salted_2022 m psk salt = Ok c0 /\ cr_cipher c = cr_cipher c0 /\ cr_key c = cr_key c0.

(** The bytes that arrived begin with a salt, and among them is a frame (the next
    one, unless a caller went on after an error) that opens, under the key of that
    salt, to the header of an answer to this request, with a clock within thirty
    seconds. *)
Definition answered (arrived : bytes) : Prop :=
  exists salt skipped frame rest c c' hdr, arrived = salt ++ skipped ++ frame ++ rest /\ length salt = salt_len m
    /\ keyed salt c /\ crypto_open c frame = Ok (c', hdr)
    /\ take 1 hdr = [to_u8 TYPE_RESPONSE] /\ abs_diff now (be_value (slice 1 9 hdr)) <= 30
    /\ slice 9 (9 + salt_len m) hdr = client_salt.

Lemma response_header_spec pt : no_panic (response_header m client_salt now pt) /\
  forall n, response_header m client_salt now pt = Ok n -> take 1 pt = [to_u8 TYPE_RESPONSE]
    /\ abs_diff now (be_value (slice 1 9 pt)) <= 30 /\ slice 9 (9 + salt_len m) pt = client_salt.
Proof using Type.
  unfold response_header. destruct (Nat.eqb_spec (length pt) (1 + 8 + salt_len m + 2)) as [Hl|]; cbn [negb]; [|done].
  destruct (index_ok (E := io_error) pt 0 ltac:(lia)) as (ty & -> & Hty). cbn [mbind res_bind].
  destruct (Z.eqb_spec (val8 ty) TYPE_RESPONSE) as [Et|]; cbn [negb]; [|done].
  unfold sub_slice. rewrite !(proj2 (Nat.leb_le _ _)) by lia. cbn [andb mbind res_bind].
  destruct (Z.ltb_spec 30 (abs_diff now (be_value (slice 1 9 pt)))); [done|].
  destruct (bool_decide_reflect (slice 9 (9 + salt_len m) pt = client_salt)) as [Es|]; cbn [negb]; [|done].
  split.
  - apply no_panic_bind; [apply index_be16_no_panic; lia|done].
  - intros n _. split; [|done]. destruct pt as [|b pt]; [done|]. injection Hty as ->. cbn [take]. by rewrite <- (to_u8_val8 ty), Et.
Qed.

(** Where a reader may be in what arrived. *)
Record sound (arrived : bytes) (me : ChunkReader ReadStage) (inner : list Piece) : Prop := {
  s_pos : (ppos me <= length (plain me))%nat;
  s_stage : match stage me with
    | ServerSalt => plain me = [] /\ (length (rtmp me) <= salt_len m)%nat /\ wire_left me inner = arrived
    | RespHeader => plain me = [] /\ (length (rtmp me) <= header_frame)%nat /\
        exists salt skipped c, keyed salt c /\ length salt = salt_len m /\ recv me = Some c /\ salt ++ skipped ++ wire_left me inner = arrived
    | _ => is_Some (recv me) /\ answered arrived
    end
}.

Definition rank (s : ReadStage) : nat :=
  match s with ServerSalt => 5 | RespHeader => 4 | FirstPayload _ => 3 | Len => 2 | Data _ => 1 end.

Definition poll_sound (arrived : bytes) (r : ChunkReader ReadStage * list Piece * Poll bytes) : Prop :=
  let '(me, inner, p) := r in sound arrived me inner /\ p <> Ready Panic /\ (got p <> [] -> answered arrived).
Definition turn_sound (arrived : bytes) (n : nat) (t : ChunkTurn ReadStage) : Prop :=
  match t with inl (me, inner) => sound arrived me inner /\ (rank (stage me) < n)%nat | inr r => poll_sound arrived r end.

Lemma open_frame_any frame me inner k c (Q : ChunkTurn ReadStage -> Prop) : recv me = Some c ->
  (forall e, Q (inr (me, inner, Ready (Err e)))) ->
  (forall c' pt, crypto_open c frame = Ok (c', pt) -> length frame = (length pt + 16)%nat -> Q (k pt (set_recv (Some c') me) inner)) ->
  Q (open_frame frame me inner k).
Proof using L.
  intros Hr He Hk. unfold open_frame. rewrite Hr. destruct (crypto_open c frame) as [[c' pt]|e|] eqn:Eo; [|done|].
  - apply Hk; [done|]. unfold crypto_open in Eo. destruct (aead_open _ _ _ _ _) eqn:Ea; [|done]. cbn in Eo. injection Eo as <- <-.
    by apply open_length in Ea.
  - unfold crypto_open in Eo. by destruct (aead_open _ _ _ _ _).
Qed.

Lemma deliver_sound arrived want me inner : sound arrived me inner -> (match stage me with ServerSalt | RespHeader => False | _ => True end) ->
  let '(me', out) := deliver want me in poll_sound arrived (me', inner, Ready (Ok out)).
Proof using Type.
  intros [Hp Hs] Hst. pose proof (deliver_ok want me Hp) as H. destruct (deliver want me) as [me' out].
  destruct H as (E1 & E2 & E3 & Hp' & _). destruct (stage me) eqn:Es; try done; (split; [|split; [done|intros _; apply Hs]]);
    (split; [done|]); by rewrite E2, E1.
Qed.

Lemma turn_is_sound arrived want me inner : sound arrived me inner -> turn_sound arrived (rank (stage me)) (turn want (me, inner)).
Proof using L PL.
  intros [Hp Hs]. unfold ss2022_read_turn. destruct (stage me) eqn:Es.
  - destruct Hs as (Hpl & Hr & Hw). unfold read_salt. frame_case take_frame_any; [done..| |].
    + intros r inner' p Hw' Hl Hne Hg. split; [|by rewrite Hg]. split; [done|]. cbn [stage set_rtmp]. rewrite Es.
      split; [done|]. split; [by apply Hl|]. unfold wire_left. cbn [rtmp set_rtmp]. by rewrite Hw'.
    + intros salt inner' Hw' _ Hl. specialize (Hl Hr). destruct (salted_2022_ok m psk salt) as (c & Hc). rewrite Hc.
      split; [|cbn; lia]. split; [done|]. cbn [stage set_stage]. split; [done|]. split; [cbn; lia|].
      exists salt, [], c. unfold wire_left. cbn [rtmp set_rtmp set_recv set_stage app]. rewrite Hw'. split_and!; try done. by exists c.
  - destruct Hs as (Hpl & Hr & salt & skipped & c & Hc & Hsl & Hrecv & Hw). unfold read_header. frame_case take_frame_any; [done..| |].
    + intros r inner' p Hw' Hl Hne Hg. split; [|by rewrite Hg]. split; [done|]. cbn [stage set_rtmp]. rewrite Es.
      split; [done|]. split; [by apply Hl|]. exists salt, skipped, c. unfold wire_left. cbn [rtmp set_rtmp recv]. by rewrite Hw'.
    + intros frame inner' Hw' _ Hl. specialize (Hl Hr). rewrite <- Hw' in Hw.
      assert (forall c', cr_cipher c' = cr_cipher c -> cr_key c' = cr_key c ->
        sound arrived (set_recv (Some c') (set_rtmp [] me)) inner') as Hfailed.
      { intros c' E1 E2. split; [done|]. cbn [stage set_rtmp set_recv]. rewrite Es. split; [done|]. split; [cbn; lia|].
        exists salt, (skipped ++ frame), c'. unfold wire_left. cbn [rtmp set_rtmp set_recv recv app]. rewrite <- app_assoc.
        split_and!; try done. destruct Hc as (c0 & Hc & F1 & F2). exists c0. by rewrite E1, E2. }
      apply (open_frame_any frame (set_rtmp [] me) inner' _ c); [done| |].
      * intros e. split; [|done]. specialize (Hfailed c eq_refl eq_refl). unfold set_recv in Hfailed. rewrite <- Hrecv in Hfailed. exact Hfailed.
      * intros c' pt Ho _. pose proof (crypto_open_next _ _ _ _ Ho) as Hnx. destruct (response_header_spec pt) as [Hnp Hok].
        destruct (response_header m client_salt now pt) as [n|e|]; [| |done].
        -- split; [|cbn; lia]. split; [done|]. cbn [stage set_stage]. split; [by eexists|].
           exists salt, skipped, frame, (arriving inner'), c, c', pt. split_and!; try done; by apply (Hok n).
        -- split; [|done]. apply Hfailed; by subst c'.
  - destruct Hs as [[c Hc] Hans].
    unfold read_first. frame_case take_frame_any; [done..| |].
    + intros r inner' p Hw' Hl Hne Hg. split; [|by rewrite Hg]. split; [done|]. cbn [stage set_rtmp]. rewrite Es. by split; [exists c|].
    + intros frame inner' Hw' _ _. apply (open_frame_any frame (set_rtmp [] me) inner' _ c); [done| |].
      * intros e. split; [|done]. split; [done|]. cbn [stage set_rtmp]. rewrite Es. by split; [exists c|].
      * intros c' pt Ho _. cbn zeta. assert (sound arrived (set_stage Len (set_plain pt (set_recv (Some c') (set_rtmp [] me)))) inner') as Hsd
          by (split; [cbn; lia|]; split; [by eexists|done]).
        destruct (is_nil pt); [split; [done|cbn; lia]|].
        pose proof (deliver_sound arrived want _ inner' Hsd I) as Hd. by destruct (deliver want _).
  - destruct Hs as [[c Hc] Hans]. unfold read_len. frame_case take_frame_any; [done..| |].
    + intros r inner' p Hw' Hl Hne Hg. split; [|by rewrite Hg]. split; [done|]. cbn [stage set_rtmp]. rewrite Es. by split; [exists c|].
    + intros frame inner' Hw' Hl _. apply (open_frame_any frame (set_rtmp [] me) inner' _ c); [done| |].
      * intros e. split; [|done]. split; [done|]. cbn [stage set_rtmp]. rewrite Es. by split; [exists c|].
      * intros c' pt Ho Hpt. unfold TAG in Hl. pose proof (index_be16_no_panic (E := io_error) pt 0 ltac:(lia)) as Hnp.
        destruct (index_be16 (E := io_error) pt 0) as [len|e|] eqn:E16; [|exfalso; revert E16; unfold index_be16, index; by destruct (pt !! 0%nat), (pt !! 1%nat)|done].
        cbn zeta. destruct (_ || _).
        -- split; [|done]. split; [done|]. cbn [stage set_rtmp set_recv]. rewrite Es. split; [by eexists|done].
        -- split; [|cbn; lia]. split; [done|]. split; [by eexists|done].
  - destruct Hs as [[c Hc] Hans]. unfold read_data. frame_case take_frame_any; [done..| |].
    + intros r inner' p Hw' Hl Hne Hg. split; [|by rewrite Hg]. split; [done|]. cbn [stage set_rtmp]. rewrite Es. by split; [exists c|].
    + intros frame inner' Hw' _ _. apply (open_frame_any frame (set_rtmp [] me) inner' _ c); [done| |].
      * intros e. split; [|done]. split; [done|]. cbn [stage set_rtmp]. rewrite Es. by split; [exists c|].
      * intros c' pt Ho _. assert (sound arrived (set_stage Len (set_plain pt (set_recv (Some c') (set_rtmp [] me)))) inner') as Hsd
          by (split; [cbn; lia|]; split; [by eexists|done]).
        pose proof (deliver_sound arrived want _ inner' Hsd I) as Hd. by destruct (deliver want _).
Qed.

Lemma turns_are_sound arrived want n : forall me inner, sound arrived me inner -> (rank (stage me) < n)%nat ->
  exists r, loop (E := io_error) n (fun st => Ok (turn want st)) (me, inner) = Ok r /\ poll_sound arrived r.
Proof using L PL.
  induction n as [|n IH]; intros me inner Hs Hn; [lia|]. rewrite loop_turn. cbn beta.
  pose proof (turn_is_sound arrived want me inner Hs) as Ht. destruct (turn want (me, inner)) as [[me' inner']|r]; cbn [mbind res_bind].
  - destruct Ht as [Hs' Hr]. apply IH; [done|lia].
  - by exists r.
Qed.

Lemma poll_is_sound arrived want me inner : sound arrived me inner ->
  exists r, ss2022_poll_read m psk client_salt now want me inner = Ok r /\ poll_sound arrived r.
Proof using L PL.
  intros Hs. unfold ss2022_poll_read. destruct (Nat.ltb_spec (ppos me) (length (plain me))) as [Hlt|_].
  - pose proof (deliver_sound arrived want me inner Hs) as Hd. destruct (deliver want me) as [me' out]. eexists. split; [done|].
    apply Hd. destruct Hs as [_ Hs]. destruct (stage me); try done; destruct Hs as [E _]; rewrite E in Hlt; cbn in Hlt; lia.
  - apply turns_are_sound; [done|]. by destruct (stage me); apply Nat.ltb_lt.
Qed.

(** C13. Only the answer to this request is read. Whatever arrives, in whatever
    pieces and with whatever failures, every poll of a new stream ends and none
    panics; and if a byte is handed out, then what arrived has a header, sealed
    under a key of the shared secret and the salt at its beginning, that is a
    response, made within thirty seconds of the client's clock, and that names
    the salt of this very request. *)
Theorem ss2022_reads_its_answer (arrived : list Piece) (wants : list nat) :
  exists me inner ps, polls (ss2022_poll_read m psk client_salt now) wants new_reader arrived = Ok (me, inner, ps)
    /\ Ready Panic ∉ ps /\ (delivered ps <> [] -> answered (arriving arrived)).
Proof using L PL.
  assert (forall wants me inner, sound (arriving arrived) me inner ->
    exists me' inner' ps, polls (ss2022_poll_read m psk client_salt now) wants me inner = Ok (me', inner', ps)
      /\ Ready Panic ∉ ps /\ (delivered ps <> [] -> answered (arriving arrived))) as H.
  { clear wants. induction wants as [|want wants IH]; intros me inner Hs; cbn [polls].
    - exists me, inner, []. split; [done|]. split; [apply not_elem_of_nil|done].
    - destruct (poll_is_sound _ want me inner Hs) as ([[me1 inner1] p] & -> & Hs1 & Hp & Hg). cbn [mbind res_bind].
      destruct (IH me1 inner1 Hs1) as (me2 & inner2 & ps & -> & Hps & Hgs). cbn [mbind res_bind]. exists me2, inner2, (p :: ps).
      split; [done|]. split; [by apply not_elem_of_cons|]. rewrite delivered_cons. intros Hne.
      destruct (got p) as [|b d] eqn:E; [by apply Hgs|by apply Hg]. }
  apply H. split; [cbn; lia|]. split; [done|]. split; [cbn; lia|done].
Qed.
End Answered.

(** The answer of a server, handed out although one poll found nothing yet. *)
Lemma ss2022_reads_its_answer_witness :
  let m := Ss2022Aes128Gcm in
  let mine := replicate 16 (to_u8 1) in
  match respond (A := toy_aead) (P := toy_ss) m (lit "psk") mine (replicate 16 (to_u8 2)) 1000 [] [lit "some"; lit "thing"] with
  | Ok wire =>
      exists me inner ps,
        polls (ss2022_poll_read (A := toy_aead) (P := toy_ss) m (lit "psk") mine 1030) [3; 3; 3]%nat new_reader [AsyncRead.Data (take 20 wire); NotYet; AsyncRead.Data (drop 20 wire)] = Ok (me, inner, ps)
        /\ Ready Panic ∉ ps /\ delivered ps <> [] /\ answered (A := toy_aead) (P := toy_ss) m (lit "psk") mine 1030 (take 20 wire ++ drop 20 wire)
  | _ => False
  end.
Proof.
  intros m mine. destruct (respond _ _ _ _ _ _ _) as [wire|e|] eqn:E; [|vm_compute in E; discriminate..].
  destruct (ss2022_reads_its_answer (A := toy_aead) (P := toy_ss) m (lit "psk") mine 1030 [AsyncRead.Data (take 20 wire); NotYet; AsyncRead.Data (drop 20 wire)] [3; 3; 3]%nat)
    as (me & inner & ps & Hp & Hn & Ha).
  exists me, inner, ps. split; [exact Hp|]. split; [exact Hn|].
  assert (delivered ps <> []) as Hd.
  { vm_compute in E. injection E as <-. vm_compute in Hp. injection Hp as <- <- <-. vm_compute. discriminate. }
  split; [exact Hd|]. specialize (Ha Hd). cbn [arriving] in Ha. rewrite app_nil_r in Ha. exact Ha.
Defined.
