(* ===== verification/Ss2022Udp.v ===== *)
(** * Shadowsocks 2022 datagrams
    ([crates/net/src/shadowsocks/ss2022_udp.rs])

    A session of the client: its packets have an id of the session and a number,
    and the packets of the server are accepted once, by a window over their
    numbers. *)

From S2P Require Import Prelude RustStr NetAddr NetIo Aead Outbound Socks Shadowsocks Ss2022.

(** XChaCha20-Poly1305 of another crate: key, nonce of 24 bytes, text. *)
Class XChaCha : Type := {
  xchacha_encrypt : bytes -> bytes -> bytes -> option bytes;
  xchacha_decrypt : bytes -> bytes -> bytes -> option bytes
}.
Class XChaChaLaws (X : XChaCha) : Prop := {
  xchacha_inverse : forall k n p, Z.of_nat (length p) < 2 ^ 32 ->
    exists c, xchacha_encrypt k n p = Some c /\ xchacha_decrypt k n c = Some p
}.

Definition TYPE_CLIENT : Z := 0.
Definition TYPE_SERVER : Z := 1.
Definition TIMESTAMP_WINDOW : Z := 30.
Definition REPLAY_WINDOW : Z := 64.

(** ** The window *)

Record Replay : Type := mkReplay { rp_sid : option bytes; rp_highest : Z; rp_window : Z }.

(** [Replay::default] *)
Definition new_replay : Replay := mkReplay None 0 0.

(** [Replay::accept]; the shift is of a [u64]. *)
Definition accept (sid : bytes) (pid : Z) (r : Replay) : Replay * bool :=
  if negb (bool_decide (rp_sid r = Some sid)) then (mkReplay (Some sid) pid 1, true)
  else if rp_highest r <? pid then
    let shift := pid - rp_highest r in
    let w := if REPLAY_WINDOW <=? shift then 0 else Z.shiftl (rp_window r) shift mod 2 ^ 64 in
    (mkReplay (rp_sid r) pid (Z.lor w 1), true)
  else
    let diff := rp_highest r - pid in
    if REPLAY_WINDOW <=? diff then (r, false)
    else
      let bit := Z.shiftl 1 diff in
      if negb (Z.land (rp_window r) bit =? 0) then (r, false)
      else (mkReplay (rp_sid r) (rp_highest r) (Z.lor (rp_window r) bit), true).

(** ** The session *)

Record Ss2022UdpSession : Type := mkSession {
  us_method : Method; us_psk : bytes; us_identity_psks : list bytes; us_session_id : bytes;
  us_next_packet_id : Z; us_replay : Replay
}.

(** [new], [with_identity], with what [random_bytes] gave. *)
Definition with_identity (m : Method) (psk : bytes) (identity_psks : list bytes) (random : res io_error bytes) : res io_error Ss2022UdpSession :=
  id ← random; Ok (mkSession m psk identity_psks id 0 new_replay).

Section Udp.
Context `{A : Aead} `{P : SsPrimitives} `{X : XChaCha}.

Definition xchacha_seal (psk nonce pt : bytes) : res io_error bytes :=
  if negb (length psk =? 32)%nat then ss_bad "ss2022: ключ chacha"
  else ok_or (xchacha_encrypt psk nonce pt) (InvalidData "ss2022: ошибка шифрования").
Definition xchacha_open (psk nonce ct : bytes) : res io_error bytes :=
  if negb (length psk =? 32)%nat then ss_bad "ss2022: ключ chacha"
  else ok_or (xchacha_decrypt psk nonce ct) (InvalidData "ss2022: ошибка расшифровки (аутентификация)").

(** [request_body] *)
Definition request_body (now : Z) (target : Target) (payload : bytes) : bytes :=
  [to_u8 TYPE_CLIENT] ++ be_bytes 8 now ++ be_bytes 2 0 ++ encode_address target ++ payload.

(** [block[j] ^= header[j]] *)
Definition xor_bytes : bytes -> bytes -> bytes := zip_with (fun a b => to_u8 (Z.lxor (val8 a) (val8 b))).

Fixpoint udp_identity_headers (identity_psks : list bytes) (psk header : bytes) : res io_error bytes :=
  match identity_psks with
  | [] => Ok []
  | ipsk :: rest =>
      let next := match rest with [] => psk | n :: _ => n end in
      block ← aes_ecb_encrypt_block ipsk (xor_bytes (psk_hash_16 next) header);
      out ← udp_identity_headers rest psk header;
      Ok (block ++ out)
  end.

(** [encrypt], with the clock and, where one is drawn, the nonce. *)
Definition udp_encrypt (now : Z) (random : res io_error bytes) (target : Target) (payload : bytes) (s : Ss2022UdpSession)
    : Ss2022UdpSession * res io_error bytes :=
  let packet_id := us_next_packet_id s in
  let s' := mkSession (us_method s) (us_psk s) (us_identity_psks s) (us_session_id s) ((packet_id + 1) mod 2 ^ 64) (us_replay s) in
  let body := request_body now target payload in
  (s',
   if is_chacha2022 (us_method s) then
     let pt := us_session_id s ++ be_bytes 8 packet_id ++ body in
     nonce ← random;
     ct ← xchacha_seal (us_psk s) nonce pt;
     Ok (nonce ++ ct)
   else
     let header := us_session_id s ++ be_bytes 8 packet_id in
     nonce ← sub_slice 4 16 header;
     let subkey := session_subkey_2022 (us_method s) (us_psk s) (us_session_id s) in
     sealed ← seal_nonce (us_method s) subkey nonce body;
     id_headers ← udp_identity_headers (us_identity_psks s) (us_psk s) header;
     let header_key := match us_identity_psks s with [] => us_psk s | k :: _ => k end in
     hk ← aes_ecb_encrypt_block header_key header;
     Ok (hk ++ id_headers ++ sealed)).

(** [parse_response_body] *)
Definition parse_response_body (session_id : bytes) (now : Z) (body : bytes) : res io_error bytes :=
  if (length body <? 19)%nat then ss_bad "ss2022-udp: усечённый ответ"
  else
    ty ← index body 0;
    if negb (val8 ty =? TYPE_SERVER) then ss_bad "ss2022-udp: пакет не серверный"
    else
      ts ← sub_slice 1 9 body;
      if TIMESTAMP_WINDOW <? abs_diff now (be_value ts) then ss_bad "ss2022-udp: timestamp вне окна (replay?)"
      else
        client_sid ← sub_slice 9 17 body;
        if negb (bool_decide (client_sid = session_id)) then ss_bad "ss2022-udp: чужой client_session_id"
        else
          padding_len ← index_be16 body 17;
          let pos := (19 + Z.to_nat padding_len)%nat in
          if (length body <? pos)%nat then ss_bad "ss2022-udp: padding за границей"
          else '(_, payload) ← parse_address (drop pos body); Ok payload.

(** The first part of [decrypt]: the session and number of the server, the body. *)
Definition open_packet (m : Method) (psk packet : bytes) : res io_error (bytes * Z * bytes) :=
  if is_chacha2022 m then
    if (length packet <? 24)%nat then ss_bad "ss2022-udp: пакет короче nonce"
    else
      pt ← xchacha_open psk (take 24 packet) (drop 24 packet);
      if (length pt <? 16)%nat then ss_bad "ss2022-udp: усечённый заголовок"
      else Ok (take 8 pt, be_value (slice 8 16 pt), drop 16 pt)
  else if (length packet <? 32)%nat then ss_bad "ss2022-udp: пакет короче минимума"
  else
    header ← aes_ecb_decrypt_block psk (take 16 packet);
    let sid := take 8 header in
    body ← open_nonce m (session_subkey_2022 m psk sid) (slice 4 16 header) (drop 16 packet);
    Ok (sid, be_value (slice 8 16 header), body).

(** [decrypt] *)
Definition udp_decrypt (now : Z) (packet : bytes) (s : Ss2022UdpSession) : Ss2022UdpSession * res io_error bytes :=
  match ('(sid, pid, body) ← open_packet (us_method s) (us_psk s) packet;
         payload ← parse_response_body (us_session_id s) now body;
         Ok (sid, pid, payload)) with
  | Ok (sid, pid, payload) =>
      let '(r, fresh) := accept sid pid (us_replay s) in
      let s := mkSession (us_method s) (us_psk s) (us_identity_psks s) (us_session_id s) (us_next_packet_id s) r in
      (s, if fresh then Ok payload else ss_bad "ss2022-udp: replay/дубликат пакета")
  | Err e => (s, Err e)
  | Panic => (s, Panic)
  end.
End Udp.

(** ** The window is the set of the numbers accepted *)

(** The server's session and the numbers of it that were accepted. *)
Definition Accepted : Type := option (bytes * list Z).

Definition spec_accept (sid : bytes) (pid : Z) (cur : Accepted) : Accepted * bool :=
  match cur with
  | Some (s, seen) =>
      if negb (bool_decide (s = sid)) then (Some (sid, [pid]), true)
      else if bool_decide (pid ∈ seen) || negb (forallb (fun q => q - pid <? REPLAY_WINDOW) seen) then (cur, false)
      else (Some (s, pid :: seen), true)
  | None => (Some (sid, [pid]), true)
  end.

(** What a sequence of packets is answered. *)
Fixpoint answers {W} (acc : bytes -> Z -> W -> W * bool) (packets : list (bytes * Z)) (w : W) : list bool :=
  match packets with
  | [] => []
  | (sid, pid) :: packets => let '(w, ok) := acc sid pid w in ok :: answers acc packets w
  end.

Definition represents (cur : Accepted) (r : Replay) : Prop :=
  match cur with
  | None => rp_sid r = None
  | Some (s, seen) => rp_sid r = Some s /\ rp_highest r ∈ seen /\ (forall q, q ∈ seen -> q <= rp_highest r)
      /\ forall d, 0 <= d < 64 -> Z.testbit (rp_window r) d = bool_decide (rp_highest r - d ∈ seen)
  end.

Lemma land_bit w d : 0 <= d -> (Z.land w (Z.shiftl 1 d) =? 0) = negb (Z.testbit w d).
Proof.
  intros Hd. rewrite Z.shiftl_1_l. destruct (Z.testbit w d) eqn:E; cbn [negb].
  - apply Z.eqb_neq. intros H. apply (f_equal (fun z => Z.testbit z d)) in H.
    rewrite Z.land_spec, E, Z.pow2_bits_true, Z.bits_0 in H by done. done.
  - apply Z.eqb_eq. apply Z.bits_inj'. intros n Hn. rewrite Z.land_spec, Z.pow2_bits_eqb, Z.bits_0 by done.
    destruct (Z.eqb_spec d n) as [->|]; [by rewrite E|by rewrite andb_false_r].
Qed.

Lemma new_session_represents sid pid : represents (Some (sid, [pid])) (mkReplay (Some sid) pid 1).
Proof.
  split; [done|]. cbn [rp_highest rp_window]. split; [apply list_elem_of_singleton; done|].
  split; [intros q ->%list_elem_of_singleton; lia|]. intros d Hd. destruct (decide (d = 0)) as [->|Hne].
  - rewrite bool_decide_true by (apply list_elem_of_singleton; lia). done.
  - rewrite bool_decide_false by (rewrite list_elem_of_singleton; lia). apply (Z.bits_above_log2 1); [lia|]. change (Z.log2 1) with 0. lia.
Qed.

(** An accepted number becomes a bit, and the others stay where they are. *)
Lemma accept_represents sid pid cur r : represents cur r ->
  let '(cur', ok) := spec_accept sid pid cur in
  exists r', accept sid pid r = (r', ok) /\ represents cur' r'.
Proof.
  intros Hr. unfold accept. destruct cur as [[s seen]|]; cbn [spec_accept].
  2: { cbn in Hr. rewrite bool_decide_false by (by rewrite Hr). cbn [negb]. eexists. split; [done|]. apply new_session_represents. }
  destruct Hr as (Hs & Hh & Hle & Hw). rewrite Hs.
  destruct (decide (s = sid)) as [->|Hne].
  2: { rewrite (bool_decide_false (s = sid)), (bool_decide_false (Some s = Some sid)) by congruence. cbn [negb]. eexists. split; [done|]. apply new_session_represents. }
  rewrite (bool_decide_true (sid = sid)), (bool_decide_true (Some sid = Some sid)) by done. cbn [negb].
  set (h := rp_highest r) in *. destruct (Z.ltb_spec h pid) as [Hgt|Hgt].
  - rewrite (bool_decide_false (pid ∈ seen)) by (intros Hin; specialize (Hle _ Hin); lia).
    assert (forallb (fun q => q - pid <? REPLAY_WINDOW) seen = true) as ->.
    { apply forallb_forall. intros q Hq%list_elem_of_In. specialize (Hle _ Hq). apply Z.ltb_lt. unfold REPLAY_WINDOW. lia. }
    cbn [orb negb]. eexists. split; [done|]. split; [done|]. cbn [rp_highest rp_window].
    split; [by left|]. split; [intros q [->|Hq]%elem_of_cons; [lia|specialize (Hle _ Hq); lia]|].
    intros d Hd. rewrite Z.lor_spec. destruct (decide (d = 0)) as [->|Hd0].
    { rewrite orb_true_r. symmetry. apply bool_decide_eq_true, elem_of_cons. left. lia. }
    assert (Z.testbit 1 d = false) as -> by (apply Z.bits_above_log2; [lia|]; change (Z.log2 1) with 0; lia). rewrite orb_false_r.
    assert (bool_decide (pid - d ∈ pid :: seen) = bool_decide (pid - d ∈ seen)) as ->
      by (apply bool_decide_ext; rewrite elem_of_cons; intuition lia).
    destruct (Z.leb_spec REPLAY_WINDOW (pid - h)) as [Hsh|Hsh]; unfold REPLAY_WINDOW in Hsh.
    + rewrite Z.bits_0. symmetry. apply bool_decide_eq_false. intros Hin. specialize (Hle _ Hin). lia.
    + rewrite Z.mod_pow2_bits_low, Z.shiftl_spec by lia. destruct (Z.lt_ge_cases d (pid - h)) as [Hlt|Hge].
      * rewrite Z.testbit_neg_r by lia. symmetry. apply bool_decide_eq_false. intros Hin. specialize (Hle _ Hin). lia.
      * rewrite Hw by lia. apply bool_decide_ext. by replace (h - (d - (pid - h))) with (pid - d) by lia.
  - destruct (Z.leb_spec REPLAY_WINDOW (h - pid)) as [Hold|Hold].
    { assert (forallb (fun q => q - pid <? REPLAY_WINDOW) seen = false) as ->.
      { apply not_true_is_false. intros Hf. rewrite forallb_forall in Hf. apply list_elem_of_In in Hh. specialize (Hf _ Hh).
        apply Z.ltb_lt in Hf. lia. }
      rewrite orb_true_r. eexists. split; [done|]. by split. }
    assert (forallb (fun q => q - pid <? REPLAY_WINDOW) seen = true) as ->.
    { apply forallb_forall. intros q Hq%list_elem_of_In. specialize (Hle _ Hq). apply Z.ltb_lt. lia. }
    unfold REPLAY_WINDOW in Hold. rewrite land_bit, negb_involutive, Hw by lia. replace (h - (h - pid)) with pid by lia. rewrite orb_false_r.
    destruct (bool_decide_reflect (pid ∈ seen)) as [Hin|Hin].
    + eexists. split; [done|]. by split.
    + eexists. split; [done|]. split; [done|]. cbn [rp_highest rp_window]. fold h. split; [by right|].
      split; [intros q [->|Hq]%elem_of_cons; [lia|by apply Hle]|].
      intros d Hd. rewrite Z.lor_spec, Hw, Z.shiftl_1_l, Z.pow2_bits_eqb by lia.
      destruct (Z.eqb_spec (h - pid) d) as [<-|Hne].
      * rewrite orb_true_r. symmetry. apply bool_decide_eq_true, elem_of_cons. left. lia.
      * rewrite orb_false_r. apply bool_decide_ext. rewrite elem_of_cons. intuition lia.
Qed.

Lemma answers_agree packets : forall cur r, represents cur r -> answers accept packets r = answers spec_accept packets cur.
Proof.
  induction packets as [|[sid pid] packets IH]; intros cur r Hr; [done|]. cbn [answers].
  pose proof (accept_represents sid pid cur r Hr) as Ha. destruct (spec_accept sid pid cur) as [cur' ok].
  destruct Ha as (r' & -> & Hr'). f_equal. by apply IH.
Qed.

(** What was just accepted is refused. *)
Lemma accepted_once sid pid r r' : accept sid pid r = (r', true) -> accept sid pid r' = (r', false).
Proof.
  unfold accept. destruct (bool_decide_reflect (rp_sid r = Some sid)) as [Hs|Hs]; cbn [negb].
  2: { intros [= <-]. cbn [rp_sid rp_highest rp_window]. rewrite bool_decide_true by done. cbn [negb]. by rewrite Z.ltb_irrefl, Z.sub_diag. }
  destruct (Z.ltb_spec (rp_highest r) pid) as [Hlt|Hge].
  { intros [= <-]. cbn [rp_sid rp_highest rp_window]. rewrite Hs, bool_decide_true by done. cbn [negb].
    rewrite Z.ltb_irrefl, Z.sub_diag. change (REPLAY_WINDOW <=? 0) with false. cbn iota.
    by rewrite land_bit, negb_involutive, Z.lor_spec, orb_true_r by lia. }
  destruct (Z.leb_spec REPLAY_WINDOW (rp_highest r - pid)) as [|Hd]; [done|].
  destruct (negb _); [done|]. intros [= <-]. cbn [rp_sid rp_highest rp_window]. rewrite Hs, bool_decide_true by done. cbn [negb].
  rewrite (proj2 (Z.ltb_ge _ _)), (proj2 (Z.leb_gt _ _)) by lia.
  by rewrite land_bit, negb_involutive, Z.lor_spec, Z.shiftl_1_l, Z.pow2_bits_true, orb_true_r by lia.
Qed.

(** C14. The window is the set of the numbers accepted. For any packets, [accept]
    answers as a list of all the numbers accepted of the current session of the
    server does: a number is refused if it was accepted before, or if a number
    64 or more ahead of it was; and a packet of another session begins anew. *)
Theorem replay_window_is_the_set (packets : list (bytes * Z)) :
  answers accept packets new_replay = answers spec_accept packets None.
Proof. by apply answers_agree. Qed.

(** The set does not survive a change of session: a packet of each of two
    sessions, sent in turns, is accepted every time. *)
Theorem alternating_sessions_replay (a b : bytes) (i j : Z) (n : nat) (Hab : a <> b) :
  answers accept (concat (replicate n [(a, i); (b, j)])) new_replay = replicate (n * 2) true.
Proof.
  rewrite (answers_agree _ None) by done.
  assert (forall cur, (forall s seen, cur = Some (s, seen) -> s <> a) ->
    answers spec_accept (concat (replicate n [(a, i); (b, j)])) cur = replicate (n * 2) true) as H; [|by apply H].
  induction n as [|n IH]; intros cur Hc; [done|]. cbn [replicate concat app answers Nat.mul Nat.add].
  assert (spec_accept a i cur = (Some (a, [i]), true)) as ->.
  { destruct cur as [[s seen]|]; [|done]. cbn. by rewrite bool_decide_false by (by eapply Hc). }
  cbn [spec_accept]. rewrite bool_decide_false by done. cbn [negb]. do 2 f_equal. apply IH. intros s seen [= <- <-]. congruence.
Qed.

Lemma alternating_sessions_replay_witness :
  answers accept [(lit "aaaaaaaa", 1); (lit "bbbbbbbb", 1); (lit "aaaaaaaa", 1); (lit "bbbbbbbb", 1)] new_replay = [true; true; true; true].
Proof. apply (alternating_sessions_replay (lit "aaaaaaaa") (lit "bbbbbbbb") 1 1 2). discriminate. Defined.

(** ** Packets of the server *)

(** What a server sends back: its session and number, and the body. *)
Definition response_body (ts : Z) (client_sid : bytes) (t : Target) (payload : bytes) : bytes :=
  [to_u8 TYPE_SERVER] ++ be_bytes 8 ts ++ client_sid ++ be_bytes 2 0 ++ encode_address t ++ payload.

Definition server_packet `{A : Aead} `{P : SsPrimitives} `{X : XChaCha} (m : Method) (psk nonce sid : bytes) (pid : Z) (body : bytes) : res io_error bytes :=
  let header := sid ++ be_bytes 8 pid in
  if is_chacha2022 m then ct ← xchacha_seal psk nonce (header ++ body); Ok (nonce ++ ct)
  else
    sealed ← seal_nonce m (session_subkey_2022 m psk sid) (slice 4 16 header) body;
    hk ← aes_ecb_encrypt_block psk header;
    Ok (hk ++ sealed).

Section Server.
Context `{A : Aead} {L : AeadLaws A} `{P : SsPrimitives} {PL : SsLaws P} `{X : XChaCha} {XL : XChaChaLaws X}.

Lemma length_subkey_2022 m psk salt : length (session_subkey_2022 m psk salt) = key_len m.
Proof using PL. unfold session_subkey_2022. rewrite length_take, length_derive_key. destruct (key_len_cases m); lia. Qed.

Lemma open_packet_reads m psk nonce sid pid body : length psk = key_len m -> length nonce = 24%nat -> length sid = 8%nat ->
  0 <= pid < 2 ^ 64 -> Z.of_nat (length body) < 2 ^ 31 ->
  exists packet, server_packet m psk nonce sid pid body = Ok packet /\ open_packet m psk packet = Ok (sid, pid, body).
Proof using L PL XL.
  intros Hpsk Hn Hs Hp Hb. unfold server_packet, open_packet. set (header := sid ++ be_bytes 8 pid).
  assert (length header = 16%nat) as Hh by (unfold header; by rewrite length_app, length_be_bytes, Hs).
  assert (take 8 header = sid) as Hts by (unfold header; by rewrite <- Hs, take_app_length).
  assert (be_value (slice 8 16 header) = pid) as Hpid.
  { unfold header, slice. rewrite drop_app_length' by done. cbn [Nat.sub].
    rewrite firstn_all2 by (by rewrite length_be_bytes). by apply be_value_be_bytes_small. }
  destruct (is_chacha2022 m) eqn:Em.
  - assert (length psk = 32%nat) as H32 by (by destruct m). unfold xchacha_seal, xchacha_open. rewrite H32. cbn [Nat.eqb negb].
    destruct (xchacha_inverse psk nonce (header ++ body)) as (ct & -> & Ho); [rewrite length_app; lia|]. cbn [ok_or mbind res_bind].
    eexists. split; [done|]. rewrite length_app, (proj2 (Nat.ltb_ge _ _)) by lia.
    rewrite take_app_length', drop_app_length', Ho by done. cbn [ok_or mbind res_bind].
    rewrite length_app, (proj2 (Nat.ltb_ge _ _)) by lia.
    unfold slice. rewrite take_app_le, drop_app_le, take_app_le by (rewrite ?length_drop; lia).
    fold (slice 8 16 header). rewrite Hts, Hpid, drop_app_length' by done. done.
  - unfold seal_nonce, open_nonce. rewrite crypto_key_ok by apply length_subkey_2022. cbn [mbind res_bind].
    destruct (seal_open (cipher m) (session_subkey_2022 m psk sid) (slice 4 16 header) [] body) as (ct & -> & Hl & Ho); [lia|].
    cbn [ok_or mbind res_bind]. destruct (aes_block_round m psk header Hpsk Hh) as [-> Hd]. cbn [mbind res_bind].
    assert (length (aes_encrypt psk header) = 16%nat) as Ha by (by apply length_aes).
    eexists. split; [done|]. rewrite length_app, (proj2 (Nat.ltb_ge _ _)) by lia.
    rewrite take_app_length', drop_app_length', Hd by done. cbn [mbind res_bind].
    rewrite Hts, Hpid, crypto_key_ok by apply length_subkey_2022. cbn [mbind res_bind]. rewrite Ho. done.
Qed.

Lemma response_body_reads session_id now ts t payload : length session_id = 8%nat -> 0 <= ts < 2 ^ 64 -> abs_diff now ts <= 30 ->
  short_target t -> parse_response_body session_id now (response_body ts session_id t payload) = Ok payload.
Proof using Type.
  intros Hs Ht Hd Hst. unfold parse_response_body. set (body := response_body _ _ _ _).
  pose proof (length_encode_address t Hst) as Hlen.
  assert (length body = 19 + (length (encode_address t) + length payload))%nat as Hl
    by (unfold body, response_body; rewrite !length_app, !length_be_bytes, Hs; cbn [length]; lia).
  assert (drop 1 body = be_bytes 8 ts ++ session_id ++ be_bytes 2 0 ++ encode_address t ++ payload) as H1 by done.
  pose proof (drop_shift 1 8 body _ _ H1 (length_be_bytes _ _)) as H9. change (1 + 8)%nat with 9%nat in H9.
  pose proof (drop_shift 9 8 body _ _ H9 Hs) as H17. change (9 + 8)%nat with 17%nat in H17.
  pose proof (drop_shift 17 2 body _ _ H17 (length_be_bytes _ _)) as H19. change (17 + 2)%nat with 19%nat in H19.
  assert (index (E := io_error) body 0 = Ok (to_u8 TYPE_SERVER)) as H0 by done. clearbody body.
  rewrite (proj2 (Nat.ltb_ge _ _)), H0 by lia. cbn [mbind res_bind]. change (val8 (to_u8 TYPE_SERVER) =? TYPE_SERVER) with true. cbn [negb].
  rewrite (sub_slice_drop 1 body (be_bytes 8 ts) _ H1) by lia. cbn [mbind res_bind]. rewrite be_value_be_bytes_small by done.
  rewrite (proj2 (Z.ltb_ge _ _)) by done.
  pose proof (sub_slice_drop (E := io_error) 9 body session_id _ H9 ltac:(lia)) as Hsid. rewrite Hs in Hsid. change (9 + 8)%nat with 17%nat in Hsid.
  rewrite Hsid. cbn [mbind res_bind]. rewrite bool_decide_true by done. cbn [negb].
  rewrite (index_be16_drop _ _ _ _ H17) by lia. cbn [mbind res_bind]. change (19 + Z.to_nat 0)%nat with 19%nat.
  rewrite (proj2 (Nat.ltb_ge _ _)), H19 by lia. by rewrite parse_encoded_address.
Qed.

Lemma parse_response_body_safe session_id now body : no_panic (parse_response_body session_id now body).
Proof using Type.
  unfold parse_response_body. destruct (Nat.ltb_spec (length body) 19); [done|].
  apply no_panic_bind; [apply index_no_panic; lia|intros ty _]. destruct (negb _); [done|].
  apply no_panic_bind; [apply sub_slice_no_panic; lia|intros ts _]. destruct (_ <? _); [done|].
  apply no_panic_bind; [apply sub_slice_no_panic; lia|intros sid _]. destruct (negb _); [done|].
  apply no_panic_bind; [apply index_be16_no_panic; lia|intros n _]. destruct (_ <? _)%nat; [done|].
  apply no_panic_bind; [apply ss_parse_address_safe|by intros []].
Qed.

Lemma ok_or_safe {E B} (o : option B) (e : E) : no_panic (ok_or o e).
Proof using Type. by destruct o. Qed.

Lemma open_packet_safe m psk packet : no_panic (open_packet m psk packet).
Proof using PL.
  unfold open_packet. destruct (is_chacha2022 m).
  - destruct (_ <? _)%nat; [done|]. apply no_panic_bind; [unfold xchacha_open; destruct (negb _); [done|apply ok_or_safe]|].
    intros pt _. by destruct (_ <? _)%nat.
  - destruct (_ <? _)%nat; [done|]. apply no_panic_bind; [unfold aes_ecb_decrypt_block; by destruct (_ || _)|].
    intros header _. apply no_panic_bind; [|done]. unfold open_nonce.
    rewrite crypto_key_ok by apply length_subkey_2022. cbn [mbind res_bind]. apply ok_or_safe.
Qed.

(** C15. A server's answer is received once. A packet that the server makes for this
    session, with a clock within thirty seconds, opens to its payload if the
    window takes its number, and the same packet right after that is refused;
    and no packet at all makes [decrypt] panic. *)
Theorem ss2022_datagram_received_once (s : Ss2022UdpSession) (nonce sid : bytes) (pid ts now : Z) (t : Target) (payload packet' : bytes)
    (Hpsk : length (us_psk s) = key_len (us_method s)) (Hid : length (us_session_id s) = 8%nat)
    (Hn : length nonce = 24%nat) (Hsid : length sid = 8%nat) (Hpid : 0 <= pid < 2 ^ 64)
    (Hts : 0 <= ts < 2 ^ 64) (Hclock : abs_diff now ts <= 30) (Ht : short_target t) (Hp : Z.of_nat (length payload) < 2 ^ 30) :
  let refused := Err (InvalidData "ss2022-udp: replay/дубликат пакета") in
  (exists packet, server_packet (us_method s) (us_psk s) nonce sid pid (response_body ts (us_session_id s) t payload) = Ok packet
     /\ let '(s1, r1) := udp_decrypt now packet s in
        r1 = (if snd (accept sid pid (us_replay s)) then Ok payload else refused)
        /\ (r1 = Ok payload -> snd (udp_decrypt now packet s1) = refused))
  /\ no_panic (snd (udp_decrypt now packet' s)).
Proof using L PL XL.
  intros refused. split.
  - destruct (open_packet_reads (us_method s) (us_psk s) nonce sid pid (response_body ts (us_session_id s) t payload))
      as (packet & Hpk & Ho); try done.
    { pose proof (length_encode_address t Ht). unfold response_body. rewrite !length_app, !length_be_bytes, Hid. cbn [length]. lia. }
    exists packet. split; [done|]. unfold udp_decrypt at 1. rewrite Ho. cbn [mbind res_bind].
    rewrite response_body_reads by done. cbn [mbind res_bind].
    destruct (accept sid pid (us_replay s)) as [r fresh] eqn:Ea. cbn [snd]. split; [done|]. destruct fresh; [intros _|done].
    unfold udp_decrypt. cbn [us_method us_psk us_session_id us_replay]. rewrite Ho. cbn [mbind res_bind].
    rewrite response_body_reads by done. cbn [mbind res_bind]. rewrite (accepted_once _ _ _ _ Ea). done.
  - unfold udp_decrypt. set (r := _ ← open_packet _ _ _; _).
    assert (no_panic r) as Hr.
    { apply no_panic_bind; [apply open_packet_safe|]. intros [[sid' pid'] body] _.
      apply no_panic_bind; [apply parse_response_body_safe|done]. }
    destruct r as [[[sid' pid'] pl]|e|]; [|done|done]. by destruct (accept _ _ _) as [? []].
Qed.
End Server.

(** An instance, and a server's answer under it. *)
Definition toy_xchacha : XChaCha := {|
  xchacha_encrypt := fun k n p => aead_seal (Aead := toy_aead) CHACHA20_POLY1305 k n [] p;
  xchacha_decrypt := fun k n c => aead_open (Aead := toy_aead) CHACHA20_POLY1305 k n [] c
|}.

#[export] Instance toy_xchacha_laws : XChaChaLaws toy_xchacha.
Proof.
  constructor. intros k n p Hp. destruct (seal_open (A := toy_aead) CHACHA20_POLY1305 k n [] p Hp) as (c & Hs & _ & Ho).
  by exists c.
Qed.

Lemma ss2022_datagram_received_once_witness :
  let s := mkSession Ss2022Chacha20Poly1305 (replicate 32 (to_u8 3)) [] (lit "ClientID") 4 (mkReplay (Some (lit "ServerID")) 9 5) in
  let refused := Err (InvalidData "ss2022-udp: replay/дубликат пакета") in
  (exists packet, server_packet (A := toy_aead) (P := toy_ss) (X := toy_xchacha) (us_method s) (us_psk s) (replicate 24 (to_u8 1)) (lit "ServerID") 8
       (response_body 1000 (us_session_id s) (TDomain (lit "a.example") 53) (lit "reply")) = Ok packet
     /\ let '(s1, r1) := udp_decrypt (A := toy_aead) (P := toy_ss) (X := toy_xchacha) 1030 packet s in
        r1 = Ok (lit "reply") /\ (r1 = Ok (lit "reply") -> snd (udp_decrypt (A := toy_aead) (P := toy_ss) (X := toy_xchacha) 1030 packet s1) = refused))
  /\ no_panic (snd (udp_decrypt (A := toy_aead) (P := toy_ss) (X := toy_xchacha) 1030 (lit "junk") s)).
Proof.
  intros s refused.
  apply (ss2022_datagram_received_once (A := toy_aead) (P := toy_ss) (X := toy_xchacha) s (replicate 24 (to_u8 1)) (lit "ServerID") 8 1000 1030
    (TDomain (lit "a.example") 53) (lit "reply") (lit "junk")); try reflexivity.
  - lia.
  - lia.
  - split; [split; vm_compute; intuition congruence|]. split; [vm_compute; reflexivity|cbn; lia].
Defined.
