(* ===== verification/VlessXor.v ===== *)
(** * The mask over record headers in VLESS Encryption
    ([crates/net/src/vless_encryption/xor.rs])

    In the mode [random] the headers of the records are masked by a key stream,
    their bodies are not. The writer and the reader go through buffers that are
    cut anywhere; both are shown to be a machine over single bytes, so the cuts
    do not matter and the reader undoes the writer. *)

From S2P Require Import Prelude.

(** AES-256 in counter mode, code of other crates: the byte of the key stream at
    a position, for a key and an initial block; and the key derivation. *)
Class CtrPrimitives : Type := {
  aes_ctr : bytes -> bytes -> nat -> u8;
  derive_key : bytes -> bytes -> bytes
}.

Section Xor.
Context `{P : CtrPrimitives}.

(** [Ctr]: the key, the initial block, the position in the key stream. *)
Record Ctr : Type := mkCtr { ctr_key : bytes; ctr_iv : bytes; ctr_pos : nat }.

(** [new_ctr] *)
Definition new_ctr (key iv : bytes) : Ctr := mkCtr (derive_key (lit "VLESS") key) iv 0.

Definition xor_u8 (a b : u8) : u8 := to_u8 (Z.lxor (val8 a) (val8 b)).

(** [apply_keystream] *)
Fixpoint apply_keystream (c : Ctr) (b : bytes) : Ctr * bytes :=
  match b with
  | [] => (c, [])
  | x :: b =>
      let '(c', out) := apply_keystream (mkCtr (ctr_key c) (ctr_iv c) (S (ctr_pos c))) b in
      (c', xor_u8 x (aes_ctr (ctr_key c) (ctr_iv c) (ctr_pos c)) :: out)
  end.

(** [xor_relays] *)
Definition xor_relays (nfs_pkey_bytes iv relays : bytes) : bytes := snd (apply_keystream (new_ctr nfs_pkey_bytes iv) relays).

(** [decode_header_len] *)
Definition decode_header_len (h : bytes) : nat :=
  match h with
  | [a; b; c; d; e] => if negb ((val8 a =? 23) && (val8 b =? 3) && (val8 c =? 3)) then 0%nat else Z.to_nat (val8 d * 256 + val8 e)
  | _ => 0%nat
  end.

(** One direction of [XorState]: [out_skip], [out_header], [write_ctr] or
    [in_skip], [in_header], [read_ctr]. *)
Record Side : Type := mkSide { sd_skip : nat; sd_header : bytes; sd_ctr : Ctr }.
Record XorState : Type := mkXor { xs_out : Side; xs_in : Side }.

(** [client_1rtt] *)
Definition client_1rtt (united_key iv ticket16 : bytes) (peer_padding_len : nat) : XorState :=
  mkXor (mkSide 0 [] (new_ctr united_key iv)) (mkSide peer_padding_len [] (new_ctr united_key ticket16)).

(** One turn of the loops: the bytes from [off] on, and those before it as they
    are by now. The writer keeps the header as it was, the reader as it comes out. *)
Definition transform_turn (write : bool) (st : Side * bytes * bytes) : (Side * bytes * bytes) + (Side * bytes) :=
  let '(x, out, b) := st in
  if (length b <=? sd_skip x)%nat then inr (mkSide (sd_skip x - length b) (sd_header x) (sd_ctr x), out ++ b)
  else
    let out := out ++ take (sd_skip x) b in
    let b := drop (sd_skip x) b in
    let need := (5 - length (sd_header x))%nat in
    if (length b <? need)%nat then
      let '(ctr, masked) := apply_keystream (sd_ctr x) b in
      inr (mkSide 0 (sd_header x ++ (if write then b else masked)) ctr, out ++ masked)
    else
      let '(ctr, masked) := apply_keystream (sd_ctr x) (take need b) in
      let hdr := sd_header x ++ (if write then take need b else masked) in
      inl (mkSide (decode_header_len hdr) [] ctr, out ++ masked, drop need b).

(** The loop; a turn that goes on takes a byte of the buffer at least. *)
Definition transform (write : bool) (b : bytes) (x : Side) : res unit (Side * bytes) :=
  loop (S (length b)) (fun st => Ok (transform_turn write st)) (x, [], b).

(** [transform_write], [transform_read] *)
Definition transform_write (b : bytes) (x : XorState) : res unit (XorState * bytes) :=
  '(s, out) ← transform true b (xs_out x); Ok (mkXor s (xs_in x), out).
Definition transform_read (b : bytes) (x : XorState) : res unit (XorState * bytes) :=
  '(s, out) ← transform false b (xs_in x); Ok (mkXor (xs_out x) s, out).

(** ** Reference: one byte at a time *)

Definition byte_step (write : bool) (x : Side) (b : u8) : Side * u8 :=
  match sd_skip x with
  | S n => (mkSide n (sd_header x) (sd_ctr x), b)
  | O =>
      let c := sd_ctr x in
      let masked := xor_u8 b (aes_ctr (ctr_key c) (ctr_iv c) (ctr_pos c)) in
      let c := mkCtr (ctr_key c) (ctr_iv c) (S (ctr_pos c)) in
      let hdr := sd_header x ++ [if write then b else masked] in
      if (length hdr =? 5)%nat then (mkSide (decode_header_len hdr) [] c, masked) else (mkSide 0 hdr c, masked)
  end.

Fixpoint byte_run (write : bool) (x : Side) (bs : bytes) : Side * bytes :=
  match bs with
  | [] => (x, [])
  | b :: bs => let '(x, c) := byte_step write x b in let '(x, cs) := byte_run write x bs in (x, c :: cs)
  end.

Lemma byte_run_app w xs : forall x ys,
  byte_run w x (xs ++ ys) = (fst (byte_run w (fst (byte_run w x xs)) ys), snd (byte_run w x xs) ++ snd (byte_run w (fst (byte_run w x xs)) ys)).
Proof using Type.
  induction xs as [|b xs IH]; intros x ys; cbn [app byte_run fst snd].
  - by destruct (byte_run w x ys).
  - destruct (byte_step w x b) as [x1 c]. rewrite IH. by destruct (byte_run w x1 xs).
Qed.

Lemma length_byte_run w bs : forall x, length (snd (byte_run w x bs)) = length bs.
Proof using Type.
  induction bs as [|b bs IH]; intros x; cbn [byte_run]; [done|]. destruct (byte_step w x b) as [x1 c].
  specialize (IH x1). destruct (byte_run w x1 bs). cbn in *. by rewrite IH.
Qed.

(** Bytes of a body pass. *)
Lemma byte_run_skip w bs : forall x, (length bs <= sd_skip x)%nat ->
  byte_run w x bs = (mkSide (sd_skip x - length bs) (sd_header x) (sd_ctr x), bs).
Proof using Type.
  induction bs as [|b bs IH]; intros [n h c] Hl; cbn [byte_run length sd_skip sd_header sd_ctr] in *.
  - by rewrite Nat.sub_0_r.
  - destruct n as [|n]; [lia|]. cbn [byte_step sd_skip sd_header sd_ctr]. rewrite IH by (cbn; lia). done.
Qed.

(** Bytes of a header that does not end there are masked and kept. *)
Lemma byte_run_header w bs : forall x, sd_skip x = 0%nat -> (length (sd_header x) + length bs < 5)%nat ->
  byte_run w x bs = (mkSide 0 (sd_header x ++ (if w then bs else snd (apply_keystream (sd_ctr x) bs))) (fst (apply_keystream (sd_ctr x) bs)),
                     snd (apply_keystream (sd_ctr x) bs)).
Proof using Type.
  induction bs as [|b bs IH]; intros [n h c] Hn Hl; cbn [byte_run length sd_skip sd_header sd_ctr apply_keystream fst snd] in *; subst n.
  - by destruct w; rewrite app_nil_r.
  - unfold byte_step. cbn [sd_skip sd_header sd_ctr]. rewrite length_app. cbn [length].
    destruct (Nat.eqb_spec (length h + 1) 5); [lia|]. rewrite IH by (cbn [sd_skip sd_header]; rewrite ?length_app; cbn [length]; lia || done).
    cbn [sd_skip sd_header sd_ctr]. destruct (apply_keystream _ bs) as [c' out]. cbn [fst snd]. rewrite <- app_assoc. by destruct w.
Qed.

(** The bytes that end a header. *)
Lemma byte_run_header_end w bs x : sd_skip x = 0%nat -> (length (sd_header x) + length bs = 5)%nat -> bs <> [] ->
  byte_run w x bs =
    (mkSide (decode_header_len (sd_header x ++ (if w then bs else snd (apply_keystream (sd_ctr x) bs)))) [] (fst (apply_keystream (sd_ctr x) bs)),
     snd (apply_keystream (sd_ctr x) bs)).
Proof using Type.
  revert x. induction bs as [|b bs IH]; intros [n h c] Hn Hl Hne; [done|].
  cbn [byte_run length sd_skip sd_header sd_ctr apply_keystream fst snd] in *. subst n.
  unfold byte_step. cbn [sd_skip sd_header sd_ctr]. rewrite length_app. cbn [length].
  destruct (Nat.eqb_spec (length h + 1) 5) as [E|E].
  - assert (bs = []) as -> by (apply nil_length_inv; lia). cbn. by destruct w.
  - rewrite IH; [|done|cbn [sd_header]; rewrite length_app; cbn [length]; lia|intros ->; cbn in Hl; lia].
    cbn [sd_skip sd_header sd_ctr]. destruct (apply_keystream _ bs) as [c' out]. cbn [fst snd]. rewrite <- app_assoc. by destruct w.
Qed.

Lemma byte_step_header w x b : (length (sd_header x) < 5)%nat -> (length (sd_header (fst (byte_step w x b))) < 5)%nat.
Proof using Type.
  intros H. unfold byte_step. destruct (sd_skip x); [|done]. rewrite length_app. cbn [length].
  destruct (Nat.eqb_spec (length (sd_header x) + 1) 5); cbn; rewrite ?length_app; cbn [length]; lia.
Qed.

Lemma byte_run_header_short w bs : forall x, (length (sd_header x) < 5)%nat -> (length (sd_header (fst (byte_run w x bs))) < 5)%nat.
Proof using Type.
  induction bs as [|b bs IH]; intros x H; [done|]. cbn [byte_run]. pose proof (byte_step_header w x b H) as Hs.
  destruct (byte_step w x b) as [x1 c]. specialize (IH x1 Hs). by destruct (byte_run w x1 bs).
Qed.

(** The loop over a buffer is the run over its bytes. *)
Lemma transform_loop w n : forall b x out, (length b < n)%nat -> (length (sd_header x) < 5)%nat ->
  loop (E := unit) n (fun st => Ok (transform_turn w st)) (x, out, b) = Ok (fst (byte_run w x b), out ++ snd (byte_run w x b)).
Proof using Type.
  induction n as [|n IH]; intros b x out Hn Hx; [lia|]. cbn [loop mbind res_bind]. unfold transform_turn.
  destruct (Nat.leb_spec (length b) (sd_skip x)) as [Hs|Hs]; [by rewrite byte_run_skip|].
  set (b1 := take (sd_skip x) b). set (b2 := drop (sd_skip x) b).
  assert (length b1 = sd_skip x) as Hl1 by (unfold b1; rewrite length_take; lia).
  assert (byte_run w x b = (fst (byte_run w (mkSide 0 (sd_header x) (sd_ctr x)) b2), b1 ++ snd (byte_run w (mkSide 0 (sd_header x) (sd_ctr x)) b2))) as ->.
  { rewrite <- (take_drop (sd_skip x) b) at 1. fold b1 b2. rewrite byte_run_app, (byte_run_skip w b1) by lia. cbn [fst snd].
    by rewrite Hl1, Nat.sub_diag. }
  set (x0 := mkSide 0 (sd_header x) (sd_ctr x)). set (need := (5 - length (sd_header x))%nat). cbn [fst snd].
  assert (length b2 = length b - sd_skip x)%nat as Hl2 by (unfold b2; by rewrite length_drop).
  destruct (Nat.ltb_spec (length b2) need) as [Hlt|Hge].
  - rewrite byte_run_header; [|done|unfold need in Hlt; cbn [sd_header x0]; lia]. cbn [sd_header sd_ctr x0].
    destruct (apply_keystream (sd_ctr x) b2) as [c masked]. cbn [fst snd]. by rewrite <- app_assoc.
  - assert (length (take need b2) = need) as Ht by (rewrite length_take; lia).
    assert (need = 5 - length (sd_header x))%nat as Hneed by done.
    rewrite <- (take_drop need b2) at 2 3. rewrite byte_run_app.
    rewrite (byte_run_header_end w (take need b2) x0); [|done|cbn [sd_header x0]; lia|intros E; rewrite E in Ht; cbn in Ht; lia].
    cbn [sd_header sd_ctr x0 fst snd]. destruct (apply_keystream (sd_ctr x) (take need b2)) as [c masked]. cbn [fst snd].
    rewrite IH; [|rewrite length_drop; lia|cbn; lia]. by rewrite <- !app_assoc.
Qed.

Lemma transform_is_run w b x : (length (sd_header x) < 5)%nat -> transform w b x = Ok (byte_run w x b).
Proof using Type. intros H. unfold transform. rewrite transform_loop by lia. cbn [app]. by destruct (byte_run w x b). Qed.

(** ** The reader undoes the writer *)

Lemma xor_twice a k : xor_u8 (xor_u8 a k) k = a.
Proof using Type.
  unfold xor_u8. rewrite val8_to_u8.
  assert (0 <= Z.lxor (val8 a) (val8 k) < 256) as H.
  { pose proof (val8_range a). pose proof (val8_range k). split; [by apply Z.lxor_nonneg; lia|].
    change 256 with (2 ^ 8). destruct (decide (Z.lxor (val8 a) (val8 k) = 0)) as [->|]; [done|].
    apply Z.log2_lt_pow2; [assert (0 <= Z.lxor (val8 a) (val8 k)) by (apply Z.lxor_nonneg; lia); lia|].
    eapply Z.le_lt_trans; [apply Z.log2_lxor; lia|].
    assert (forall b, Z.log2 (val8 b) < 8) as Hb; [|pose proof (Hb a); pose proof (Hb k); lia].
    intros b. pose proof (val8_range b). destruct (decide (val8 b = 0)) as [->|]; [done|]. apply Z.log2_lt_pow2; [lia|]. change (2 ^ 8) with 256. lia. }
  rewrite Z.mod_small, Z.lxor_assoc, Z.lxor_nilpotent, Z.lxor_0_r by done. apply to_u8_val8.
Qed.

Lemma byte_step_undone x b : byte_step false x (snd (byte_step true x b)) = (fst (byte_step true x b), b).
Proof using Type.
  unfold byte_step. destruct (sd_skip x) as [|n]; [|done]. rewrite !length_app. cbn [length].
  destruct (length (sd_header x) + 1 =? 5)%nat; cbn [snd fst]; by rewrite xor_twice.
Qed.

Lemma byte_run_undone bs : forall x, byte_run false x (snd (byte_run true x bs)) = (fst (byte_run true x bs), bs).
Proof using Type.
  induction bs as [|b bs IH]; intros x; [done|]. cbn [byte_run]. pose proof (byte_step_undone x b) as Hs.
  destruct (byte_step true x b) as [x1 c]. specialize (IH x1). destruct (byte_run true x1 bs) as [x2 cs]. cbn [fst snd] in *.
  cbn [byte_run]. rewrite Hs. by rewrite IH.
Qed.

(** Buffers, one after the other. *)
Fixpoint transforms (write : bool) (bufs : list bytes) (x : Side) : res unit (Side * bytes) :=
  match bufs with
  | [] => Ok (x, [])
  | b :: bufs => '(x, out) ← transform write b x; '(x, outs) ← transforms write bufs x; Ok (x, out ++ outs)
  end.

Lemma transforms_run w bufs : forall x, (length (sd_header x) < 5)%nat -> transforms w bufs x = Ok (byte_run w x (concat bufs)).
Proof using Type.
  induction bufs as [|b bufs IH]; intros x H; [done|]. cbn [transforms concat]. rewrite transform_is_run by done.
  pose proof (byte_run_header_short w b x H) as H1. rewrite byte_run_app. destruct (byte_run w x b) as [x1 out]. cbn [mbind res_bind fst snd] in *.
  rewrite IH by done. by destruct (byte_run w x1 (concat bufs)).
Qed.

(** What one end masks the other unmasks, and how the bytes are cut into
    buffers does not matter at either end: for any buffers written, and any
    pieces in which the masked bytes arrive after padding that is sent as it is,
    the reader gets the padding and the bytes that were written, and neither
    loop runs out of turns. *)
Theorem mask_is_undone (key iv padding : bytes) (sent received : list bytes) :
  exists w' wire, transforms true sent (mkSide 0 [] (new_ctr key iv)) = Ok (w', wire)
    /\ length wire = length (concat sent)
    /\ (concat received = padding ++ wire ->
        exists r', transforms false received (mkSide (length padding) [] (new_ctr key iv)) = Ok (r', padding ++ concat sent)
          /\ sd_header r' = sd_header w' /\ sd_ctr r' = sd_ctr w').
Proof using Type.
  set (w := mkSide 0 [] (new_ctr key iv)). rewrite transforms_run by (cbn; lia).
  destruct (byte_run true w (concat sent)) as [w' wire] eqn:E. exists w', wire. split; [done|].
  pose proof (length_byte_run true (concat sent) w) as Hl. rewrite E in Hl. split; [done|].
  intros Hr. rewrite transforms_run by (apply Nat.ltb_lt; reflexivity). rewrite Hr, byte_run_app, (byte_run_skip false padding) by (cbn; lia). cbn [fst snd sd_skip sd_header sd_ctr].
  rewrite Nat.sub_diag. pose proof (byte_run_undone (concat sent) w) as Hu. rewrite E in Hu. cbn [snd fst] in Hu.
  change (mkSide 0 [] _) with w. rewrite Hu. cbn [fst snd]. by exists w'.
Qed.
End Xor.

(** An instance: a key stream of checksums. *)
Definition toy_ctr : CtrPrimitives := {|
  aes_ctr := fun k iv n => to_u8 (fold_right (fun b s => val8 b + s) (Z.of_nat n * 7 + 1) (k ++ iv));
  derive_key := fun c k => c ++ k
|}.

Definition masked_sent : bytes := Eval vm_compute in
  snd (byte_run (P := toy_ctr) true (mkSide 0 [] (new_ctr (P := toy_ctr) (lit "key") (lit "iv"))) (of_zs [23; 3; 3; 0; 2; 9; 9; 23; 3; 3; 0; 1; 8])).

(** Two records, cut in the middle of headers at both ends. *)
Lemma mask_is_undone_witness :
  let sent := [of_zs [23; 3]; of_zs [3; 0; 2; 9; 9; 23; 3; 3; 0]; of_zs [1; 8]] in
  exists wire, transforms (P := toy_ctr) true sent (mkSide 0 [] (new_ctr (P := toy_ctr) (lit "key") (lit "iv"))) = Ok (mkSide 0 [] (mkCtr (lit "VLESSkey") (lit "iv") 10), wire)
    /\ exists r', transforms (P := toy_ctr) false [lit "PA"; lit "D" ++ take 4 wire; drop 4 wire] (mkSide 3 [] (new_ctr (P := toy_ctr) (lit "key") (lit "iv")))
         = Ok (r', lit "PAD" ++ concat sent).
Proof.
  intros sent.
  pose (w := mkSide 0 [] (mkCtr (lit "VLESSkey") (lit "iv") 10)). set (W := masked_sent).
  destruct (mask_is_undone (P := toy_ctr) (lit "key") (lit "iv") (lit "PAD") sent [lit "PA"; lit "D" ++ take 4 W; drop 4 W]) as (w' & wire & Hw & _ & Hr).
  assert (Ok (E := unit) (w', wire) = Ok (w, W)) as E by (rewrite <- Hw; vm_compute; reflexivity).
  apply (f_equal (fun r => match r with Ok a => a | _ => (w', wire) end)), pair_equal_spec in E as [Ew EW]. exists W. rewrite Ew, EW in Hw. split; [exact Hw|].
  destruct Hr as (r' & Hr & _); [rewrite EW; vm_compute; reflexivity|]. exists r'. exact Hr.
Defined.
