(* ===== verification/VlessEnc.v ===== *)
(** * The stream of VLESS Encryption
    ([crates/net/src/vless_encryption/aead.rs], [stream.rs])

    Records with a header like that of TLS, sealed under a counter; a key that
    has used up its nonces is replaced by one made of the last record. In the
    mode [random] the headers are masked ([VlessXor.v]). *)

From S2P Require Import Prelude NetAddr NetIo AsyncRead FrameReader Aead Shadowsocks VlessXor.

(** ** Keys with a counter ([aead.rs]) *)

Definition MAX_NONCE : bytes := replicate 12 (to_u8 255).

(** [Aead] *)
Record EncAead : Type := mkEnc { ea_cipher : Algorithm; ea_key : bytes; ea_nonce : bytes }.

(** [increase]: from the last byte on. *)
Definition increase (a : EncAead) : EncAead := mkEnc (ea_cipher a) (ea_key a) (reverse (incr_nonce (reverse (ea_nonce a)))).

(** [at_max] *)
Definition at_max (a : EncAead) : bool := bool_decide (ea_nonce a = MAX_NONCE).

Section EncAead.
Context `{A : Aead} `{P : CtrPrimitives}.

(** [Aead::new] *)
Definition enc_new (ctx key : bytes) (use_aes : bool) : EncAead :=
  mkEnc (if use_aes then AES_256_GCM else CHACHA20_POLY1305) (derive_key ctx key) (replicate 12 (to_u8 0)).

(** [seal_with], [open_with]; sealing is expected not to fail. *)
Definition enc_seal_with (a : EncAead) (nonce pt aad : bytes) : res io_error bytes := unwrap (aead_seal (ea_cipher a) (ea_key a) nonce aad pt).
Definition enc_open_with (a : EncAead) (nonce ct aad : bytes) : res io_error bytes :=
  ok_or (aead_open (ea_cipher a) (ea_key a) nonce aad ct) (IoOther "VLESS encryption: ошибка расшифровки (AEAD)").

(** [seal], [open]: the counter goes on first, also where the result is an error. *)
Definition enc_seal (a : EncAead) (pt aad : bytes) : EncAead * res io_error bytes :=
  let a := increase a in (a, enc_seal_with a (ea_nonce a) pt aad).
Definition enc_open (a : EncAead) (ct aad : bytes) : EncAead * res io_error bytes :=
  let a := increase a in (a, enc_open_with a (ea_nonce a) ct aad).
End EncAead.

(** ** The source: the inner stream, unmasked ([transform_read] in [fill]) *)

Definition Masked : Type := option Side * list Piece.

Section Source.
Context `{P : CtrPrimitives}.

Definition poll_masked (cap : nat) (s : Masked) : Poll bytes * Masked :=
  let '(x, inner) := s in
  match poll_inner cap inner with
  | (Ready (Ok filled), inner) =>
      match x with
      | None => (Ready (Ok filled), (None, inner))
      | Some x =>
          if is_nil filled then (Ready (Ok []), (Some x, inner))
          else match transform false filled x with
               | Ok (x, out) => (Ready (Ok out), (Some x, inner))
               | _ => (Ready Panic, (Some x, inner))
               end
      end
  | (p, inner) => (p, (x, inner))
  end.

(** The bytes that are left, unmasked. *)
Definition unmasked (s : Masked) : bytes :=
  match s with (None, inner) => arriving inner | (Some x, inner) => snd (byte_run false x (arriving inner)) end.
Definition masked_flowing (s : Masked) : Prop :=
  flowing (snd s) /\ match fst s with Some x => (length (sd_header x) < 5)%nat | None => True end.

#[export] Instance masked_source : Source Masked := {| src_poll := poll_masked; src_left := unmasked; src_flowing := masked_flowing |}.

#[export] Instance masked_source_laws : SourceLaws Masked.
Proof using Type.
  intros cap [x inner] [Hf Hx] Hc. cbn [src_poll src_left src_flowing masked_source fst snd] in *. unfold poll_masked.
  pose proof (pieces_source_laws cap inner Hf Hc) as H. cbn [src_poll src_left src_flowing pieces_source] in H.
  destruct (poll_inner cap inner) as [p inner']. destruct H as (Hf' & Hg & Hl & Hn & He).
  destruct p as [|[d|e|]]; [|destruct x as [x|]|done|done].
  - cbn [got app] in Hl. split; [done|]. split; [done|]. cbn [got app length unmasked]. rewrite Hl. split; [by destruct x|]. split; [lia|done].
  - destruct d as [|b d]; cbn [is_nil].
    + cbn [got app] in Hl. split; [done|]. split; [done|]. cbn [got app length unmasked]. rewrite Hl. split; [done|]. split; [lia|].
      intros _. by rewrite (He eq_refl).
    + rewrite transform_is_run by done. cbn [got] in Hl, Hn. destruct (byte_run false x (b :: d)) as [x' out] eqn:E.
      pose proof (byte_run_header_short false (b :: d) x Hx) as Hx'. pose proof (length_byte_run false (b :: d) x) as Hlen.
      rewrite E in Hx', Hlen. cbn [fst snd] in Hx', Hlen. split; [by split|]. split; [done|]. cbn [got unmasked].
      rewrite <- Hl, byte_run_app, E. cbn [fst snd]. split; [done|]. split; [lia|]. intros [= ->]. done.
  - split; [done|]. split; [done|]. cbn [unmasked]. split; [done|]. split; [done|]. intros E. by rewrite (He E).
Qed.
End Source.

(** ** The stream *)

Definition MAX_DATA : nat := Z.to_nat 8192.

Inductive ReadStage : Type := Padding | Header | Data (len : nat).

(** [peer_aead], [hdr] *)
Record PeerKeys : Type := mkPeer { peer_aead : EncAead; peer_hdr : bytes }.

Section Stream.
Context `{A : Aead} `{P : CtrPrimitives} (united_key : bytes) (use_aes : bool) (peer_padding_len : nat).

(** The reading part of [VlessEncStream::new]. *)
Definition enc_reader (a : EncAead) : Reader PeerKeys ReadStage :=
  mkReader (mkPeer a (replicate 5 (to_u8 0))) (if (0 <? peer_padding_len)%nat then Padding else Header) [] [] 0.

(** The key after a record. *)
Definition rekeyed (before after : EncAead) (record : bytes) : EncAead := if at_max before then enc_new record united_key use_aes else after.

Definition read_padding (me : Reader PeerKeys ReadStage) (inner : Masked) : Turn PeerKeys ReadStage Masked :=
  take_frame peer_padding_len (Ready (Ok [])) me inner (fun pad me inner =>
    let '(a, r) := enc_open (peer_aead (recv me)) pad [] in
    let me := set_recv (mkPeer a (peer_hdr (recv me))) me in
    match r with
    | Ok _ => inl (set_stage Header me, inner)
    | Err e => inr (me, inner, Ready (Err e))
    | Panic => inr (me, inner, Ready Panic)
    end).

Definition read_record_header (me : Reader PeerKeys ReadStage) (inner : Masked) : Turn PeerKeys ReadStage Masked :=
  take_frame 5 (Ready (Ok [])) me inner (fun h me inner =>
    let me := set_recv (mkPeer (peer_aead (recv me)) h) me in
    match h with
    | [a; b; c; d; e] =>
        let l := val8 d * 256 + val8 e in
        if negb (val8 a =? 23) || negb (val8 b =? 3) || negb (val8 c =? 3) || negb ((17 <=? l) && (l <=? 16640))
        then inr (me, inner, Ready (Err (IoOther "vless-enc: неверный заголовок записи")))
        else inl (set_stage (Data (Z.to_nat l)) me, inner)
    | _ => inr (me, inner, Ready Panic)
    end).

Definition read_record (l want : nat) (me : Reader PeerKeys ReadStage) (inner : Masked) : Turn PeerKeys ReadStage Masked :=
  take_frame l (Ready (Err UnexpectedEof)) me inner (fun frame me inner =>
    let before := peer_aead (recv me) in
    let hdr := peer_hdr (recv me) in
    let '(after, r) := enc_open before frame hdr in
    match r with
    | Ok pt =>
        let me := set_recv (mkPeer (rekeyed before after (hdr ++ frame)) hdr) me in
        let '(me, out) := deliver want (set_stage Header (set_plain pt me)) in
        inr (me, inner, Ready (Ok out))
    | Err e => inr (set_recv (mkPeer after hdr) me, inner, Ready (Err e))
    | Panic => inr (set_recv (mkPeer after hdr) me, inner, Ready Panic)
    end).

Definition enc_read_turn (want : nat) (st : Reader PeerKeys ReadStage * Masked) : Turn PeerKeys ReadStage Masked :=
  let '(me, inner) := st in
  match stage me with
  | Padding => read_padding me inner
  | Header => read_record_header me inner
  | Data l => read_record l want me inner
  end.

(** [poll_read]; a turn that goes on moves to the next of the three stages. *)
Definition enc_poll_read (want : nat) (me : Reader PeerKeys ReadStage) (inner : Masked)
    : res io_error (Reader PeerKeys ReadStage * Masked * Poll bytes) :=
  if (ppos me <? length (plain me))%nat then let '(me, out) := deliver want me in Ok (me, inner, Ready (Ok out))
  else loop 4 (fun st => Ok (enc_read_turn want st)) (me, inner).

(** The header of a record with [n] bytes of data. *)
Definition record_header (n : nat) : bytes := of_zs [23; 3; 3] ++ be_bytes 2 (Z.of_nat n + 16).

(** What a write adds to the buffer: [write_aead] and [xor] go on. *)
Definition enc_encrypt (_ : unit) (buf : bytes) (send : EncAead * option Side) : EncAead * option Side * bytes * res io_error nat :=
  let '(before, x) := send in
  let n := Nat.min (length buf) MAX_DATA in
  let hdr := record_header n in
  match enc_seal before (take n buf) hdr with
  | (after, Ok sealed) =>
      let record := hdr ++ sealed in
      let a := rekeyed before after record in
      match x with
      | None => (a, None, record, Ok n)
      | Some x =>
          match transform true record x with
          | Ok (x, masked) => (a, Some x, masked, Ok n)
          | _ => (a, Some x, [], Panic)
          end
      end
  | (after, Err e) => (after, x, [], Err e)
  | (after, Panic) => (after, x, [], Panic)
  end.

(** [poll_write] *)
Definition enc_poll_write : list WriteStep -> list WriteStep -> bytes -> EncAead * option Side * Writer
    -> EncAead * option Side * Writer * bytes * option (res io_error nat) := poll_write_with (enc_encrypt tt).
End Stream.

(** ** Records on the wire *)

Section Records.
Context `{A : Aead} {L : AeadLaws A} `{P : CtrPrimitives} (united_key : bytes) (use_aes : bool).

(** The bytes [wire] are records of the parts [todo], from the key [a] on, and
    the key after them is [last]. *)
Fixpoint records (a : EncAead) (todo : list bytes) (wire : bytes) (last : EncAead) : Prop :=
  match todo with
  | [] => wire = [] /\ last = a
  | part :: todo => exists ct rest,
      wire = record_header (length part) ++ ct ++ rest
      /\ (0 < length part <= MAX_DATA)%nat /\ length ct = (length part + 16)%nat
      /\ enc_open a ct (record_header (length part)) = (increase a, Ok part)
      /\ records (rekeyed united_key use_aes a (increase a) (record_header (length part) ++ ct)) todo rest last
  end.

Lemma records_snoc todo2 w2 last todo1 : forall a w1 mid, records a todo1 w1 mid -> records mid todo2 w2 last ->
  records a (todo1 ++ todo2) (w1 ++ w2) last.
Proof using Type.
  induction todo1 as [|part todo1 IH]; intros a w1 mid; cbn [records app].
  - by intros [-> ->].
  - intros (ct & rest & -> & H1 & H2 & H3 & H4) H. exists ct, (rest ++ w2). rewrite <- !app_assoc.
    split; [done|]. split; [done|]. split; [done|]. split; [done|]. by eapply IH.
Qed.

Lemma length_record_header n : length (record_header n) = 5%nat.
Proof using Type. unfold record_header. by rewrite length_app, length_be_bytes. Qed.

(** A key stays a key; sealing and opening go together. *)
Lemma seal_record a pt hdr : Z.of_nat (length pt) < 2 ^ 32 ->
  exists ct, enc_seal a pt hdr = (increase a, Ok ct) /\ length ct = (length pt + 16)%nat /\ enc_open a ct hdr = (increase a, Ok pt).
Proof using L.
  intros Hl. destruct (seal_open (ea_cipher (increase a)) (ea_key (increase a)) (ea_nonce (increase a)) hdr pt Hl) as (ct & Hs & Hlen & Ho).
  exists ct. unfold enc_seal, enc_open, enc_seal_with, enc_open_with. by rewrite Hs, Ho.
Qed.

(** What the reading of a header makes of it. *)
Lemma record_header_reads n : (0 < n <= MAX_DATA)%nat ->
  exists a b c d e, record_header n = [a; b; c; d; e] /\ val8 a = 23 /\ val8 b = 3 /\ val8 c = 3 /\ val8 d * 256 + val8 e = Z.of_nat n + 16.
Proof using Type.
  intros [Hn Hm]. unfold record_header. do 5 eexists. split; [reflexivity|]. split; [done|]. split; [done|]. split; [done|].
  assert (MAX_DATA = Z.to_nat 8192) as Hd by reflexivity. rewrite Hd in Hm.
  exact (be_value_be_bytes_small 2 (Z.of_nat n + 16) ltac:(change (256 ^ Z.of_nat 2) with 65536; lia)).
Qed.
End Records.

(** ** What a reader gets *)

Section Delivery.
Context `{A : Aead} {L : AeadLaws A} `{P : CtrPrimitives} (united_key : bytes) (use_aes : bool) (pad_len : nat).

Abbreviation recs := (records united_key use_aes).
Abbreviation turn := (enc_read_turn united_key use_aes pad_len).
Abbreviation reader := (Reader PeerKeys ReadStage).

Inductive stage_at (todo : list bytes) (me : reader) (wire : bytes) : Prop :=
| at_padding pad rest a last pt : stage me = Padding -> wire = pad ++ rest -> length pad = pad_len -> (0 < pad_len)%nat ->
    enc_open (peer_aead (recv me)) pad [] = (a, Ok pt) -> recs a todo rest last -> (length (rtmp me) <= pad_len)%nat -> stage_at todo me wire
| at_header last : stage me = Header -> recs (peer_aead (recv me)) todo wire last -> (length (rtmp me) <= 5)%nat -> stage_at todo me wire
| at_data part todo' ct rest last : todo = part :: todo' -> stage me = Data (length part + 16) -> peer_hdr (recv me) = record_header (length part) ->
    wire = ct ++ rest -> (0 < length part)%nat -> length ct = (length part + 16)%nat ->
    enc_open (peer_aead (recv me)) ct (record_header (length part)) = (increase (peer_aead (recv me)), Ok part) ->
    recs (rekeyed united_key use_aes (peer_aead (recv me)) (increase (peer_aead (recv me))) (record_header (length part) ++ ct)) todo' rest last ->
    (length (rtmp me) <= length part + 16)%nat -> stage_at todo me wire.

Definition enc_at (data out : bytes) (me : reader) (inner : Masked) : Prop :=
  exists todo, chunk_reader data out todo me inner /\ stage_at todo me (wire_left me inner).

Abbreviation ended data out r := (poll_end (enc_at data) data out r).

Lemma enc_waits data out todo need me me' inner inner' :
  chunk_reader data out todo me inner -> waiting need me me' inner inner' ->
  (forall r, (length r <= need)%nat -> stage_at todo (set_rtmp r me) (wire_left me inner)) ->
  ended data out (me', inner', Pending).
Proof using Type.
  intros Hc W Hs. unfold poll_end. cbn [got]. rewrite app_nil_r. split; [|done]. exists todo.
  split; [by eapply chunk_reader_waiting|]. destruct W as (r & -> & _ & Hw & Hl). rewrite Hw. by apply Hs.
Qed.

Lemma from_data k want data out me inner part todo ct rest last : (0 < want)%nat ->
  chunk_reader data out (part :: todo) me inner -> ppos me = length (plain me) ->
  stage me = Data (length part + 16) -> peer_hdr (recv me) = record_header (length part) ->
  wire_left me inner = ct ++ rest -> (0 < length part)%nat -> length ct = (length part + 16)%nat ->
  enc_open (peer_aead (recv me)) ct (record_header (length part)) = (increase (peer_aead (recv me)), Ok part) ->
  recs (rekeyed united_key use_aes (peer_aead (recv me)) (increase (peer_aead (recv me))) (record_header (length part) ++ ct)) todo rest last ->
  (length (rtmp me) <= length part + 16)%nat ->
  exists r, loop (E := io_error) (S k) (fun st => Ok (turn want st)) (me, inner) = Ok r /\ ended data out r.
Proof using Type.
  intros Hw Hc Hp Hs Hh Hwl Hlp Hlc Ho Hr Hrt.
  assert (turn want (me, inner) = read_record united_key use_aes (length part + 16) want me inner) as Ht by (unfold enc_read_turn; by rewrite Hs).
  rewrite loop_turn. cbn beta. rewrite Ht. unfold read_record.
  frame_case take_frame_ok; [apply Hc|exact Hrt|exact Hwl|exact Hlc|lia| |].
  { intros me' inner' W. cbn [mbind res_bind]. eexists. split; [done|]. eapply enc_waits; [exact Hc|exact W|].
    intros r Hl. by eapply (at_data _ _ _ part todo ct rest last). }
  intros inner' Hf' Ha. cbn [recv set_rtmp]. rewrite Hh, Ho.
  pose proof (deliver_ok want (set_stage Header (set_plain part (set_recv (mkPeer (rekeyed united_key use_aes (peer_aead (recv me))
    (increase (peer_aead (recv me))) (record_header (length part) ++ ct)) (record_header (length part))) (set_rtmp [] me)))) ltac:(cbn; lia)) as Hdel.
  destruct (deliver want _) as [me' o]. destruct Hdel as (E1 & E2 & E3 & Hp' & Hdo & Hne).
  cbn [recv stage rtmp plain ppos drop set_stage set_plain set_recv set_rtmp] in *. cbn [mbind res_bind].
  eexists. split; [done|]. unfold poll_end. cbn [got]. split; [|split; [done|]].
  - exists todo. split.
    + destruct Hc as [_ _ Hd]. rewrite Hp, drop_all in Hd. cbn [app concat] in Hd.
      split; [done..|]. rewrite <- Hd, <- !app_assoc. f_equal. by rewrite app_assoc, Hdo.
    + eapply (at_header _ _ _ last); [done|rewrite E1; unfold wire_left; by rewrite E3, Ha|rewrite E3; cbn; lia].
  - intros [= ->]. specialize (Hne eq_refl Hw). lia.
Qed.

Lemma enc_from_header k want data out todo me inner last : (0 < want)%nat ->
  chunk_reader data out todo me inner -> ppos me = length (plain me) ->
  stage me = Header -> recs (peer_aead (recv me)) todo (wire_left me inner) last -> (length (rtmp me) <= 5)%nat ->
  exists r, loop (E := io_error) (S (S k)) (fun st => Ok (turn want st)) (me, inner) = Ok r /\ ended data out r.
Proof using Type.
  intros Hw Hc Hp Hs Hr Hrt.
  assert (turn want (me, inner) = read_record_header me inner) as Ht by (unfold enc_read_turn; by rewrite Hs).
  rewrite loop_turn. cbn beta. rewrite Ht. unfold read_record_header.
  destruct todo as [|part todo].
  - destruct Hr as [Hwl Hlast]. frame_case take_frame_end; [apply Hc|exact Hwl|lia|]. intros me' inner' p W Hpp. cbn [mbind res_bind].
    assert (got p = []) as Hg by (by destruct Hpp as [->| ->]). eexists. split; [done|]. unfold poll_end. rewrite Hg, app_nil_r.
    split; [|split; [by destruct Hpp as [->| ->]|intros _; exact (chunk_reader_done _ _ _ _ Hc Hp)]].
    exists []. split; [by eapply chunk_reader_waiting|]. destruct W as (r & -> & _ & Hw' & Hl).
    eapply (at_header _ _ _ last); [done|rewrite Hw'; by split|done].
  - destruct Hr as (ct & rest & Hwl & Hlen & Hlc & Ho & Hr).
    frame_case take_frame_ok; [apply Hc|exact Hrt|exact Hwl|apply length_record_header|lia| |].
    { intros me' inner' W. cbn [mbind res_bind]. eexists. split; [done|]. eapply enc_waits; [exact Hc|exact W|].
      intros r Hl. eapply (at_header _ _ _ last); [done| |done]. by exists ct, rest. }
    intros inner' Hf' Ha. destruct (record_header_reads (length part) Hlen) as (a & b & c & d & e & Hh & Ea & Eb & Ec & El).
    assert (MAX_DATA = Z.to_nat 8192) as Hmax by reflexivity. rewrite Hmax in Hlen.
    pose proof Hh as Hh'. rewrite Hh. cbn zeta. rewrite <- Hh'. rewrite Ea, Eb, Ec, El. cbn [Z.eqb Pos.eqb negb orb].
    rewrite (proj2 (Z.leb_le _ _)), (proj2 (Z.leb_le _ _)) by lia. cbn [andb negb mbind res_bind].
    replace (Z.to_nat (Z.of_nat (length part) + 16)) with (length part + 16)%nat by lia.
    eapply (from_data _ _ _ _ _ _ part todo ct rest last); try done.
    + split; [done|apply Hc..].
    + lia.
    + cbn. lia.
Qed.

Lemma enc_poll_ok want data out me inner : (0 < want)%nat -> enc_at data out me inner ->
  exists r, enc_poll_read united_key use_aes pad_len want me inner = Ok r /\ ended data out r.
Proof using Type.
  intros Hw (todo & Hc & Hat). unfold enc_poll_read. destruct (Nat.ltb_spec (ppos me) (length (plain me))) as [Hlt|Hge].
  - pose proof (deliver_tail data out me inner todo want Hw Hlt Hc) as H. destruct (deliver want me) as [me' o].
    destruct H as (Hc' & E1 & E2 & E3 & Hne). eexists. split; [done|]. unfold poll_end. cbn [got].
    split; [|split; [done|intros [= ->]; done]]. exists todo. split; [done|].
    assert (wire_left me' inner = wire_left me inner) as -> by (unfold wire_left; by rewrite E3).
    destruct Hat; [eapply at_padding|eapply at_header|eapply at_data]; rewrite ?E1, ?E2, ?E3; done.
  - assert (ppos me = length (plain me)) as Hp by (destruct Hc; lia).
    destruct Hat as [pad rest a last pt Hs Hwl Hlp Hpos Ho Hr Hrt|last Hs Hr Hrt|part todo' ct rest last -> Hs Hh Hwl Hlp Hlc Ho Hr Hrt];
      [|by eapply (enc_from_header 2)|by eapply (from_data 3)].
    assert (turn want (me, inner) = read_padding pad_len me inner) as Ht by (unfold enc_read_turn; by rewrite Hs).
    rewrite (loop_turn 3). cbn beta. rewrite Ht. unfold read_padding.
    frame_case take_frame_ok; [apply Hc|exact Hrt|exact Hwl|exact Hlp|done| |].
    + intros me' inner' W. cbn [mbind res_bind]. eexists. split; [done|]. eapply enc_waits; [exact Hc|exact W|].
      intros r Hl. by eapply (at_padding _ _ _ pad rest a last pt).
    + intros inner' Hf' Ha. cbn [recv set_rtmp]. rewrite Ho. cbn [mbind res_bind].
      eapply (enc_from_header 1 _ _ _ _ _ _ last); try done; [split; [done|apply Hc..]|unfold wire_left; cbn [rtmp set_rtmp set_recv set_stage app]; by rewrite Ha|cbn; lia].
Qed.

Lemma enc_delivers data : delivers (enc_poll_read united_key use_aes pad_len) data (enc_at data).
Proof using Type.
  split.
  - intros out me inner want Hat Hw. destruct (enc_poll_ok want data out me inner Hw Hat) as ([[me' inner'] p] & Hr & He).
    by exists me', inner', p.
  - intros out me inner (todo & [_ _ Hd] & _). by eexists.
Qed.
End Delivery.

(** ** Writing, and the transfer *)

Section Transfer.
Context `{A : Aead} {L : AeadLaws A} `{P : CtrPrimitives} (united_key : bytes) (use_aes : bool).

Abbreviation recs := (records united_key use_aes).

(** The bytes after the writes [todo] of a stream that began with the key [a0]
    and the mask [x0]. *)
Definition enc_sent (a0 : EncAead) (x0 : option Side) (todo : list bytes) (wire : bytes) (send : EncAead * option Side) : Prop :=
  exists plain, recs a0 todo plain (fst send) /\
    match x0, snd send with
    | None, None => wire = plain
    | Some x0, Some x => byte_run true x0 plain = (x, wire)
    | _, _ => False
    end.

Lemma enc_encrypt_ok a0 x0 (r : unit) buf todo wire send : match x0 with Some x => (length (sd_header x) < 5)%nat | None => True end ->
  True -> buf <> [] -> enc_sent a0 x0 todo wire send ->
  exists send' sealed n, enc_encrypt united_key use_aes r buf send = (send', sealed, Ok n)
    /\ enc_sent a0 x0 (todo ++ [take n buf]) (wire ++ sealed) send'.
Proof using L.
  intros Hx0 _ Hne (plain & Hr & Hm). destruct send as [a x]. cbn [fst snd] in *. unfold enc_encrypt.
  set (n := Nat.min (length buf) MAX_DATA). assert (MAX_DATA = Z.to_nat 8192) as Hmax by reflexivity.
  assert (0 < length buf)%nat as Hb by (destruct buf; [done|cbn; lia]).
  assert (length (take n buf) = n) as Hn by (rewrite length_take; lia).
  destruct (seal_record a (take n buf) (record_header n)) as (ct & Hs & Hl & Ho); [lia|]. rewrite Hs.
  assert (recs a0 (todo ++ [take n buf]) (plain ++ record_header n ++ ct) (rekeyed united_key use_aes a (increase a) (record_header n ++ ct))) as Hr'.
  { eapply records_snoc; [exact Hr|]. cbn [records]. exists ct, []. rewrite Hn, app_nil_r in *.
    split; [done|]. split; [lia|]. split; [lia|]. done. }
  destruct x0 as [x0|], x as [x|]; try done.
  - pose proof (byte_run_header_short true plain x0 Hx0) as Hx. rewrite Hm in Hx. cbn [fst] in Hx.
    rewrite transform_is_run by done. destruct (byte_run true x (record_header n ++ ct)) as [x' masked] eqn:E.
    eexists _, masked, n. split; [done|]. eexists. split; [exact Hr'|]. cbn [snd]. rewrite byte_run_app, Hm. cbn [fst snd]. by rewrite E.
  - eexists _, _, n. split; [done|]. eexists. split; [exact Hr'|]. cbn [snd]. by rewrite Hm.
Qed.

(** The other end's mask: after the padding, which is sent as it is. *)
Definition reading_mask (x0 : option Side) (pad_len : nat) : option Side :=
  match x0 with Some x => Some (mkSide (sd_skip x + pad_len) (sd_header x) (sd_ctr x)) | None => None end.

(** C18. What is written arrives, in every mode. One end writes in any number of
    calls, its inner writer takes any part of the bytes at a time; the other end
    has the same key and mask, with the padding of the handshake still to come,
    if there is any. No call fails; and for any pieces in which the padding and
    the bytes written, with those still buffered, arrive, the reads deliver in
    order the bytes that the calls said were taken, and the end of the stream
    only after all of them. That holds also across changes of the key. *)
Theorem enc_stream_transfers (start a0 : EncAead) (x0 : option Side) (pad pt : bytes) (calls : list (WriteCall unit)) (wants : list nat)
    (Hpad : if (0 <? length pad)%nat then enc_open start pad [] = (a0, Ok pt) else a0 = start)
    (Hx0 : match x0 with Some x => sd_skip x = 0%nat /\ sd_header x = [] | None => True end)
    (Hcalls : Forall (good_call (fun _ => True)) calls) (Hwants : Forall (fun w => 0 < w)%nat wants) :
  let '(send, w, written, rs) := writes (enc_encrypt united_key use_aes) calls ((a0, x0), mkWriter [] 0) in
  Forall good_write rs /\
  forall inner, flowing inner -> arriving inner = pad ++ written ++ drop (wpos w) (wbuf w) ->
    exists me inner' ps rest,
      polls (enc_poll_read united_key use_aes (length pad)) wants (enc_reader (length pad) start) (reading_mask x0 (length pad), inner) = Ok (me, inner', ps)
      /\ Forall good_poll ps /\ delivered ps ++ rest = all_taken calls rs /\ (Ready (Ok []) ∈ ps -> rest = []).
Proof using L.
  assert (match x0 with Some x => (length (sd_header x) < 5)%nat | None => True end) as Hshort.
  { destruct x0 as [x|]; [|done]. destruct Hx0 as [_ ->]. cbn. lia. }
  pose proof (writes_ok (enc_encrypt united_key use_aes) (enc_sent a0 x0) (fun _ => True)
    (fun r buf todo wire send => enc_encrypt_ok a0 x0 r buf todo wire send Hshort) calls [] [] ((a0, x0), mkWriter [] 0) Hcalls) as H.
  destruct (writes (enc_encrypt united_key use_aes) calls _) as [[[send w] written] rs].
  destruct H as (Hg & more & [_ (plain & Hr & Hm)] & Hmore).
  { split; [done|]. exists []. split; [done|]. cbn. by destruct x0. }
  split; [done|]. intros inner Hf Ha. cbn [app] in Hr, Hm.
  destruct (polls_deliver _ (all_taken calls rs) _ wants (enc_delivers united_key use_aes (length pad) (all_taken calls rs)) []
    (enc_reader (length pad) start) (reading_mask x0 (length pad), inner)) as (me & inner' & ps & rest & Hps & Hgp & Hd & Hend);
    [|done|by exists me, inner', ps, rest].
  assert (unmasked (reading_mask x0 (length pad), inner) = pad ++ plain) as Hu.
  { cbn [unmasked reading_mask]. destruct x0 as [x|], (snd send) as [x'|]; try done; cbn [unmasked reading_mask]; rewrite Ha.
    - destruct Hx0 as [Hsk Hhd]. rewrite byte_run_app, (byte_run_skip false pad) by (cbn [sd_skip]; lia). cbn [fst snd sd_skip sd_header sd_ctr].
      rewrite Nat.add_sub. replace (mkSide (sd_skip x) (sd_header x) (sd_ctr x)) with x by (by destruct x).
      pose proof (byte_run_undone plain x) as Hun. rewrite Hm in Hun. cbn [snd fst] in Hun. by rewrite Hun.
    - by rewrite Hm. }
  exists more. split.
  { split; [split; cbn [fst snd]; [done|by destruct x0]|done|by cbn]. }
  unfold wire_left. cbn [rtmp enc_reader app src_left masked_source]. rewrite Hu.
  destruct (Nat.ltb_spec 0 (length pad)) as [Hp|Hp].
  - eapply (at_padding _ _ _ _ _ _ pad plain a0 _ pt); try done; [cbn [stage enc_reader]; by rewrite (proj2 (Nat.ltb_lt _ _))|cbn; lia].
  - assert (pad = []) as -> by (apply nil_length_inv; lia). subst a0. eapply at_header; [done|exact Hr|cbn; lia].
Qed.
End Transfer.

(** Two writes under a key at its last nonce, with a mask and padding. *)
Lemma enc_stream_transfers_witness :
  let start := mkEnc AES_256_GCM (lit "key") (of_zs [255; 255; 255; 255; 255; 255; 255; 255; 255; 255; 255; 254]) in
  let a0 := mkEnc AES_256_GCM (lit "key") MAX_NONCE in
  let pad := lit "padded" ++ toy_tag AES_256_GCM (lit "key") MAX_NONCE [] (lit "padded") in
  let x0 := Some (mkSide 0 [] (new_ctr (P := toy_ctr) (lit "united") (lit "iv"))) in
  let calls := [mkCall tt [] [Took 3; NotNow] (lit "some"); mkCall tt [Took 100] [Took 100] (lit "thing")] in
  let '(send, w, written, rs) := writes (enc_encrypt (A := toy_aead) (P := toy_ctr) (lit "united") true) calls ((a0, x0), mkWriter [] 0) in
  Forall good_write rs /\
  forall inner, flowing inner -> arriving inner = pad ++ written ++ drop (wpos w) (wbuf w) ->
    exists me inner' ps rest,
      polls (enc_poll_read (A := toy_aead) (P := toy_ctr) (lit "united") true (length pad)) [3; 100]%nat (enc_reader (length pad) start)
        (reading_mask x0 (length pad), inner) = Ok (me, inner', ps)
      /\ Forall good_poll ps /\ delivered ps ++ rest = all_taken calls rs /\ (Ready (Ok []) ∈ ps -> rest = []).
Proof.
  intros start a0 pad x0 calls.
  apply (enc_stream_transfers (A := toy_aead) (P := toy_ctr) (lit "united") true start a0 x0 pad (lit "padded") calls [3; 100]%nat).
  - vm_compute. reflexivity.
  - exact (conj eq_refl eq_refl).
  - repeat (apply Forall_cons; split; [split; [|split; [|done]]; repeat constructor; lia|]). by apply Forall_nil.
  - repeat (apply Forall_cons; split; [lia|]). by apply Forall_nil.
Defined.
