(* ===== verification/VlessHandshake.v ===== *)
(** * The handshake of VLESS Encryption
    ([crates/net/src/vless_encryption/mod.rs], [handshake.rs])

    The descriptor of a link, the client's hello and the answer it reads, and a
    server that answers it: both ends then have the same keys. *)

From S2P Require Import Prelude RustStr NetAddr NetIo AsyncRead FrameReader Aead Conn Shadowsocks VlessXor VlessEnc.

(** ** The descriptor ([parse_encryption]) *)

Inductive EncMode : Type := Native | Xorpub | Random.
Inductive NfsKey : Type := X25519 (k : bytes) | MlKem768 (k : bytes).
Record VlessEncryption : Type := mkEncryption { enc_mode : EncMode; zero_rtt : bool; enc_nfs_key : NfsKey; enc_padding : list str }.

Section Descriptor.
(** [URL_SAFE_NO_PAD.decode(..).ok()] of another crate *)
Context (url_safe_no_pad : str -> option bytes).

Definition base64url_decode (s : str) : option bytes := url_safe_no_pad (trim_end_char "="%char s).

Definition parse_mode (m : str) : res str EncMode :=
  if decide (m = lit "native") then Ok Native
  else if decide (m = lit "xorpub") then Ok Xorpub
  else if decide (m = lit "random") then Ok Random
  else Err ("неизвестный режим VLESS encryption: «" ++ m ++ "»").

Definition parse_rtt (r : str) : res str bool :=
  if decide (r = lit "0rtt") then Ok true
  else if decide (r = lit "1rtt") then Ok false
  else Err ("ожидался 0rtt/1rtt, получено «" ++ r ++ "»").

Definition nfs_key_of (key_bytes : bytes) : res str NfsKey :=
  if (length key_bytes =? 32)%nat then Ok (X25519 key_bytes)
  else if (length key_bytes =? Z.to_nat 1184)%nat then Ok (MlKem768 key_bytes)
  else Err ("неожиданная длина ключа VLESS encryption: " ++ show_uint (Z.of_nat (length key_bytes)) ++ " (ожидалось 32 или 1184)").

Definition parse_encryption (desc : str) : res str (option VlessEncryption) :=
  let desc := trim desc in
  if is_nil desc || bool_decide (desc = lit "none") then Ok None
  else
    match split_char "."%char desc with
    | p0 :: p1 :: p2 :: p3 :: rest =>
        if decide (p0 = lit "mlkem768x25519plus") then
          mode ← parse_mode p1;
          rtt ← parse_rtt p2;
          key_bytes ← ok_or (base64url_decode p3) (lit "не удалось декодировать ключ VLESS encryption");
          key ← nfs_key_of key_bytes;
          Ok (Some (mkEncryption mode rtt key rest))
        else Err ("неподдерживаемый VLESS encryption: «" ++ desc ++ "»")
    | _ => Err ("неподдерживаемый VLESS encryption: «" ++ desc ++ "»")
    end.
End Descriptor.

(** ** The client *)

(** X25519 and ML-KEM-768 of another crate: public keys of private ones, key
    agreement; encapsulation with given randomness, decapsulation. *)
Class KemPrimitives : Type := {
  x_public : bytes -> option bytes;
  x_agree : bytes -> bytes -> option bytes;
  kem_public : bytes -> option bytes;
  kem_valid : bytes -> bool;
  kem_encapsulate : bytes -> bytes -> option (bytes * bytes);
  kem_decapsulate : bytes -> bytes -> option bytes
}.

Class KemLaws (K : KemPrimitives) : Prop := {
  x_public_total : forall a, exists p, x_public a = Some p /\ length p = 32%nat;
  x_agree_both : forall a b pa pb, x_public a = Some pa -> x_public b = Some pb ->
    exists s, x_agree a pb = Some s /\ x_agree b pa = Some s /\ length s = 32%nat;
  kem_public_total : forall d, exists p, kem_public d = Some p /\ length p = Z.to_nat 1184 /\ kem_valid p = true;
  kem_round : forall d p r, kem_public d = Some p ->
    kem_valid p = true /\ exists c s, kem_encapsulate p r = Some (c, s) /\ kem_decapsulate d c = Some s /\ length c = Z.to_nat 1088 /\ length s = 32%nat
}.

(** [EncState] *)
Record EncState : Type := mkState {
  write_aead : EncAead; st_peer_aead : EncAead; united_key : bytes; st_use_aes : bool; st_peer_padding_len : nat; st_xor : option XorState
}.

(** What the client draws: [iv], the key of the first layer (or the randomness
    of the encapsulation), the keys of the second. *)
Record HelloRandom : Type := mkRandom { rnd_iv : bytes; rnd_relay : bytes; rnd_kem : bytes; rnd_x : bytes }.

Section Client.
Context `{A : Aead} `{P : CtrPrimitives} `{K : KemPrimitives}.

(** [encode_length], [decode_length] *)
Definition encode_length (l : Z) : bytes := be_bytes 2 l.
Definition decode_length (b : bytes) : res io_error nat := n ← index_be16 b 0; Ok (Z.to_nat n).

(** [x25519_keypair], of the 32 bytes drawn, which are a private key whatever they
    are; [x25519_ecdh]; [mlkem_encapsulate] *)
Definition x25519_keypair (sk : bytes) : res io_error bytes := ok_or (x_public sk) (IoOther "vless-enc: X25519 pub").
Definition x25519_ecdh (my peer : bytes) : res io_error bytes := ok_or (x_agree my peer) (IoOther "vless-enc: X25519 ECDH").
Definition mlkem_encapsulate (ek random : bytes) : res io_error (bytes * bytes) :=
  if negb (kem_valid ek) then Err (IoOther "vless-enc: ML-KEM encap key")
  else ok_or (kem_encapsulate ek random) (IoOther "vless-enc: ML-KEM encapsulate").

Definition nfs_bytes (k : NfsKey) : bytes := match k with X25519 k => k | MlKem768 k => k end.

(** [relays] before the mask, and the key of the first layer. *)
Definition relays_of (k : NfsKey) (random : bytes) : res io_error (bytes * bytes) :=
  match k with
  | X25519 server_static => eph_pub ← x25519_keypair random; shared ← x25519_ecdh random server_static; Ok (eph_pub, shared)
  | MlKem768 ek => mlkem_encapsulate ek random
  end.

Definition masks_relays (m : EncMode) : bool := match m with Native => false | _ => true end.

(** A sealing whose failure panics, and an opening that may fail. *)
Definition c_seal (a : EncAead) (pt : bytes) : conn (EncAead * bytes) := c_lift (let '(a, r) := enc_seal a pt [] in ct ← r; Ok (a, ct)).
Definition c_open (a : EncAead) (ct : bytes) : conn (EncAead * bytes) := c_lift (let '(a, r) := enc_open a ct [] in pt ← r; Ok (a, pt)).

Definition client_handshake (rnd : HelloRandom) (enc : VlessEncryption) : conn EncState :=
  let iv := rnd_iv rnd in
  '(relays, nfs_key) ← c_lift (relays_of (enc_nfs_key enc) (rnd_relay rnd));
  let relays := if masks_relays (enc_mode enc) then xor_relays (nfs_bytes (enc_nfs_key enc)) iv relays else relays in
  let nfs := enc_new iv nfs_key true in
  mlkem_encap_bytes ← c_lift (ok_or (kem_public (rnd_kem rnd)) (IoOther "vless-enc: ML-KEM encap bytes"));
  pfs_x_pub ← c_lift (x25519_keypair (rnd_x rnd));
  let pfs_public_key := mlkem_encap_bytes ++ pfs_x_pub in
  '(nfs, h1) ← c_seal nfs (encode_length (Z.of_nat (length pfs_public_key) + 16));
  '(nfs, h2) ← c_seal nfs pfs_public_key;
  '(nfs, h3) ← c_seal nfs (encode_length 16);
  '(nfs, h4) ← c_seal nfs [];
  _ ← c_write (iv ++ relays ++ h1 ++ h2 ++ h3 ++ h4);
  enc_pfs ← c_read (Z.to_nat (1088 + 32 + 16));
  server_pfs ← c_lift (enc_open_with nfs MAX_NONCE enc_pfs []);
  if negb (length server_pfs =? Z.to_nat 1120)%nat then c_err (IoOther "vless-enc: неверная длина serverPfs")
  else
    mlkem_ct ← c_lift (sub_slice 0 (Z.to_nat 1088) server_pfs);
    mlkem_shared ← c_lift (ok_or (kem_decapsulate (rnd_kem rnd) mlkem_ct) (IoOther "vless-enc: ML-KEM decapsulate"));
    x_pub ← c_lift (sub_slice (Z.to_nat 1088) (Z.to_nat 1120) server_pfs);
    x_shared ← c_lift (x25519_ecdh (rnd_x rnd) x_pub);
    let united := mlkem_shared ++ x_shared ++ nfs_key in
    let write := enc_new pfs_public_key united true in
    let peer := enc_new server_pfs united true in
    enc_ticket ← c_read 32;
    '(peer, ticket_plain) ← c_open peer enc_ticket;
    enc_len ← c_read 18;
    '(peer, dl) ← c_open peer enc_len;
    padding ← c_lift (decode_length dl);
    xor ← match enc_mode enc with
          | Random => t16 ← c_lift (sub_slice 0 16 ticket_plain); mret (Some (client_1rtt united iv t16 padding))
          | _ => mret None
          end;
    mret (mkState write peer united true padding xor).

(** [wrap_client], [VlessEncStream::new]: the reading and the writing side. *)
Definition wrap_client (st : EncState) : Reader PeerKeys ReadStage * option Side * (EncAead * option Side) :=
  (enc_reader (st_peer_padding_len st) (st_peer_aead st), xs_in <$> st_xor st, (write_aead st, xs_out <$> st_xor st)).
End Client.

(** ** A server, and the agreement *)

(** What a server draws: the randomness of its encapsulation, its key of the
    second layer, the ticket, and the padding it announces. *)
Record ServerRandom : Type := mkServer { srv_kem : bytes; srv_x : bytes; srv_ticket : bytes; srv_padding : bytes }.

Section Server.
Context `{A : Aead} `{P : CtrPrimitives} `{K : KemPrimitives}.

(** The key of the first layer, from the server's private key. *)
Definition nfs_agree (k : NfsKey) (private relays : bytes) : option bytes :=
  match k with X25519 _ => x_agree private relays | MlKem768 _ => kem_decapsulate private relays end.
Definition relays_len (k : NfsKey) : nat := match k with X25519 _ => 32 | MlKem768 _ => Z.to_nat 1088 end.

(** The key stream of the mask, as the protocol has it: from the derived key and
    an initial block. *)
Definition key_stream (key block : bytes) : Ctr := mkCtr (derive_key (lit "VLESS") key) block 0.

(** The mask of the server: it reads headers under the key stream that begins
    with the client's initial vector, and writes them, after its padding, under
    the one that begins with the ticket. *)
Definition server_mask (m : EncMode) (united iv ticket : bytes) : option XorState :=
  match m with
  | Random => Some (mkXor (mkSide 0 [] (key_stream united ticket)) (mkSide 0 [] (key_stream united iv)))
  | _ => None
  end.

(** The answer to a hello: the bytes, the keys of the two directions, the united
    key and the mask; the padding follows the answer. *)
Definition serve (m : EncMode) (k : NfsKey) (private : bytes) (rnd : ServerRandom) : conn (EncAead * EncAead * bytes * option XorState) :=
  iv ← c_read 16;
  relays ← c_read (relays_len k);
  let relays := if masks_relays m then snd (apply_keystream (key_stream (nfs_bytes k) iv) relays) else relays in
  nfs_key ← c_lift (ok_or (nfs_agree k private relays) (IoOther ""));
  let nfs := enc_new iv nfs_key true in
  h1 ← c_read 18;
  '(nfs, l1) ← c_open nfs h1;
  n1 ← c_lift (decode_length l1);
  h2 ← c_read n1;
  '(nfs, pfs_public_key) ← c_open nfs h2;
  h3 ← c_read 18;
  '(nfs, l3) ← c_open nfs h3;
  n3 ← c_lift (decode_length l3);
  h4 ← c_read n3;
  '(nfs, _) ← c_open nfs h4;
  '(ct, kem_shared) ← c_lift (mlkem_encapsulate (take (Z.to_nat 1184) pfs_public_key) (srv_kem rnd));
  x_pub ← c_lift (x25519_keypair (srv_x rnd));
  x_shared ← c_lift (x25519_ecdh (srv_x rnd) (drop (Z.to_nat 1184) pfs_public_key));
  let server_pfs := ct ++ x_pub in
  let united := kem_shared ++ x_shared ++ nfs_key in
  enc_pfs ← c_lift (enc_seal_with nfs MAX_NONCE server_pfs []);
  '(mine, ticket) ← c_seal (enc_new server_pfs united true) (srv_ticket rnd);
  '(mine, len) ← c_seal mine (encode_length (Z.of_nat (length (srv_padding rnd))));
  _ ← c_write (enc_pfs ++ ticket ++ len ++ srv_padding rnd);
  mret (enc_new pfs_public_key united true, mine, united, server_mask m united iv (srv_ticket rnd)).
End Server.

Lemma apply_keystream_twice `{P : CtrPrimitives} b : forall c,
  snd (apply_keystream c (snd (apply_keystream c b))) = b.
Proof.
  induction b as [|x b IH]; intros c; [done|]. cbn [apply_keystream].
  specialize (IH (mkCtr (ctr_key c) (ctr_iv c) (S (ctr_pos c)))).
  destruct (apply_keystream _ b) as [c' out]. cbn [snd] in *. cbn [apply_keystream].
  destruct (apply_keystream _ out) as [c'' out']. cbn [snd] in *. by rewrite xor_twice, IH.
Qed.

Lemma length_keystream `{P : CtrPrimitives} b : forall c, length (snd (apply_keystream c b)) = length b.
Proof.
  induction b as [|x b IH]; intros c; [done|]. cbn [apply_keystream].
  specialize (IH (mkCtr (ctr_key c) (ctr_iv c) (S (ctr_pos c)))). destruct (apply_keystream _ b). cbn in *. by rewrite IH.
Qed.

Section Agreement.
Context `{A : Aead} {L : AeadLaws A} `{P : CtrPrimitives} `{K : KemPrimitives} {KL : KemLaws K}.

Lemma c_seal_ok a pt : Z.of_nat (length pt) < 2 ^ 32 ->
  exists ct, c_seal a pt = c_lift (Ok (increase a, ct)) /\ length ct = (length pt + 16)%nat /\ c_open a ct = c_lift (Ok (increase a, pt)).
Proof using L.
  intros Hl. destruct (seal_record a pt [] Hl) as (ct & Hs & Hlen & Ho). exists ct. unfold c_seal, c_open. by rewrite Hs, Ho.
Qed.

(** The server's private key and the key in the link. *)
Definition key_pair (k : NfsKey) (private : bytes) : Prop :=
  match k with X25519 p => x_public private = Some p | MlKem768 p => kem_public private = Some p end.

Lemma relays_agree k private random : key_pair k private ->
  exists relays s, relays_of k random = Ok (relays, s) /\ length relays = relays_len k /\ nfs_agree k private relays = Some s.
Proof using KL.
  destruct k as [p|p]; cbn [key_pair relays_of relays_len nfs_agree]; intros Hp.
  - destruct (x_public_total random) as (e & He & Hl). destruct (x_agree_both random private e p He Hp) as (s & H1 & H2 & _).
    exists e, s. unfold x25519_keypair, x25519_ecdh. rewrite He. cbn [ok_or mbind res_bind]. by rewrite H1.
  - destruct (kem_round private p random Hp) as (Hv & c & s & H1 & H2 & Hl & _). exists c, s. unfold mlkem_encapsulate. by rewrite Hv, H1.
Qed.

(** The client's mask is the other end of the server's: it writes as the server
    reads, and reads as the server writes, behind the server's padding. *)
Definition masks_agree (pad_len : nat) (client server : option XorState) : Prop :=
  match client, server with
  | Some c, Some s => xs_out c = xs_in s /\ Some (xs_in c) = reading_mask (Some (xs_out s)) pad_len
  | None, None => True
  | _, _ => False
  end.

(** C17. The handshake agrees: in every mode and for both kinds of key, a server with
    the private key of the link's public one reads the client's hello to its
    end, the client reads the answer up to the padding, and both have the same
    united key, the same keys and counters for the two directions. In the mode
    that masks headers both have a mask, and in no other; each writes under the
    key stream, from the position, that the other reads with, and the client
    reads the server's padding as it is. *)
Theorem handshake_agrees (enc : VlessEncryption) (private : bytes) (crnd : HelloRandom) (srnd : ServerRandom)
    (Hkey : key_pair (enc_nfs_key enc) private) (Hiv : length (rnd_iv crnd) = 16%nat)
    (Hticket : length (srv_ticket srnd) = 16%nat) (Hpad : Z.of_nat (length (srv_padding srnd)) < 65536) :
  exists hello answer c2s s2c united client_mask server_mask,
    serve (enc_mode enc) (enc_nfs_key enc) private srnd hello = (answer ++ srv_padding srnd, Ok ((c2s, s2c, united, server_mask), []))
    /\ (forall rest, client_handshake crnd enc (answer ++ srv_padding srnd ++ rest) =
         (hello, Ok (mkState c2s s2c united true (length (srv_padding srnd)) client_mask, srv_padding srnd ++ rest)))
    /\ masks_agree (length (srv_padding srnd)) client_mask server_mask
    /\ (is_Some server_mask <-> enc_mode enc = Random).
Proof using L KL.
  destruct (relays_agree _ _ (rnd_relay crnd) Hkey) as (relays & nfs_key & Hrel & Hrl & Hagree).
  destruct (kem_public_total (rnd_kem crnd)) as (ek & Hek & Hekl & _). destruct (x_public_total (rnd_x crnd)) as (cx & Hcx & Hcxl).
  destruct (kem_round (rnd_kem crnd) ek (srv_kem srnd) Hek) as (Hv & ct & ks & Hct & Hks & Hctl & _).
  destruct (x_public_total (srv_x srnd)) as (sx & Hsx & Hsxl). destruct (x_agree_both _ _ _ _ Hcx Hsx) as (xs & Hxs1 & Hxs2 & _).
  set (iv := rnd_iv crnd) in *. set (nfs := enc_new iv nfs_key true). set (pfs := ek ++ cx).
  assert (length pfs = Z.to_nat 1216) as Hpfs by (unfold pfs; rewrite length_app; lia).
  set (masked := if masks_relays (enc_mode enc) then xor_relays (nfs_bytes (enc_nfs_key enc)) iv relays else relays).
  assert (length masked = relays_len (enc_nfs_key enc)) as Hml by (unfold masked; destruct (masks_relays _); [unfold xor_relays; by rewrite length_keystream|done]).
  assert ((if masks_relays (enc_mode enc) then xor_relays (nfs_bytes (enc_nfs_key enc)) iv masked else masked) = relays) as Hun
    by (unfold masked; destruct (masks_relays _); [unfold xor_relays; apply apply_keystream_twice|done]).
  destruct (c_seal_ok nfs (encode_length (Z.of_nat (length pfs) + 16))) as (h1 & Hs1 & Hl1 & Ho1); [done|].
  destruct (c_seal_ok (increase nfs) pfs) as (h2 & Hs2 & Hl2 & Ho2); [rewrite Hpfs; lia|].
  destruct (c_seal_ok (increase (increase nfs)) (encode_length 16)) as (h3 & Hs3 & Hl3 & Ho3); [done|].
  destruct (c_seal_ok (increase (increase (increase nfs))) []) as (h4 & Hs4 & Hl4 & Ho4); [done|].
  set (nfs4 := increase (increase (increase (increase nfs)))) in *. set (spfs := ct ++ sx). set (united := ks ++ xs ++ nfs_key).
  assert (length spfs = Z.to_nat 1120) as Hspfs by (unfold spfs; rewrite length_app; lia).
  destruct (seal_open (ea_cipher nfs4) (ea_key nfs4) MAX_NONCE [] spfs) as (ep & Hep & Hepl & Hepo); [rewrite Hspfs; lia|].
  destruct (c_seal_ok (enc_new spfs united true) (srv_ticket srnd)) as (et & Hst & Htl & Hot); [rewrite Hticket; lia|].
  destruct (c_seal_ok (increase (enc_new spfs united true)) (encode_length (Z.of_nat (length (srv_padding srnd))))) as (el & Hsl & Hll & Hol); [done|].
  exists (iv ++ masked ++ h1 ++ h2 ++ h3 ++ h4), (ep ++ et ++ el), (enc_new pfs united true),
    (increase (increase (enc_new spfs united true))), united,
    (match enc_mode enc with Random => Some (client_1rtt united iv (srv_ticket srnd) (length (srv_padding srnd))) | _ => None end),
    (server_mask (enc_mode enc) united iv (srv_ticket srnd)).
  assert (forall n, 0 <= n < 65536 -> decode_length (encode_length n) = Ok (Z.to_nat n)) as Hdec.
  { intros n Hn. unfold decode_length, encode_length. rewrite (index_be16_drop 0 _ n []) by (rewrite ?drop_0, ?app_nil_r; done). done. }
  assert (take (Z.to_nat 1184) pfs = ek) as Htp by (unfold pfs; by rewrite take_app_length').
  assert (drop (Z.to_nat 1184) pfs = cx) as Hdp by (unfold pfs; by rewrite drop_app_length').
  assert (sub_slice (E := io_error) 0 (Z.to_nat 1088) spfs = Ok ct) as Hs0 by (apply (sub_slice_mid [] ct sx); [done|cbn [length]; lia]).
  assert (sub_slice (E := io_error) (Z.to_nat 1088) (Z.to_nat 1120) spfs = Ok sx) as Hs1'
    by (unfold spfs; rewrite <- (app_nil_r sx) at 1; apply (sub_slice_mid ct sx []); lia).
  assert (sub_slice (E := io_error) 0 16 (srv_ticket srnd) = Ok (srv_ticket srnd)) as Ht16
    by (rewrite <- (app_nil_r (srv_ticket srnd)) at 1; apply (sub_slice_mid [] (srv_ticket srnd) []); [done|cbn [length]; lia]).
  cbn [length encode_length be_bytes] in Hl1, Hl3, Hll. cbn [length] in Hl4.
  change ((if masks_relays (enc_mode enc) then snd (apply_keystream (key_stream (nfs_bytes (enc_nfs_key enc)) iv) masked) else masked) = relays) in Hun.
  split; [|split; [|split; [destruct (enc_mode enc); repeat split|destruct (enc_mode enc); (split; [by intros [x Hx]|by intros; first [discriminate|eexists]])]]].
  - unfold serve. rewrite c_bind_read by done. rewrite c_bind_read by done. cbv zeta. rewrite Hun, Hagree. cbn [ok_or]. rewrite c_bind_lift.
    fold nfs. rewrite c_bind_read by done. rewrite Ho1, c_bind_lift. rewrite Hdec by (rewrite Hpfs; lia). rewrite c_bind_lift.
    rewrite c_bind_read by lia. rewrite Ho2, c_bind_lift. rewrite c_bind_read by done. rewrite Ho3, c_bind_lift.
    rewrite Hdec, c_bind_lift by lia. rewrite <- (app_nil_r h4), c_bind_read by (rewrite Hl4; done). rewrite Ho4, c_bind_lift. fold nfs4.
    rewrite Htp. unfold mlkem_encapsulate. rewrite Hv, Hct. cbn [negb]. cbn [ok_or]. rewrite c_bind_lift.
    unfold x25519_keypair. rewrite Hsx. cbn [ok_or]. rewrite c_bind_lift.
    rewrite Hdp. unfold x25519_ecdh. rewrite Hxs2. cbn [ok_or]. rewrite c_bind_lift.
    fold spfs united. unfold enc_seal_with. rewrite Hep. cbn [unwrap]. rewrite c_bind_lift. rewrite Hst, c_bind_lift, Hsl, c_bind_lift, c_bind_write.
    cbn [mret conn_ret fst snd]. by rewrite app_nil_r, <- !app_assoc.
  - intros rest. unfold client_handshake. rewrite Hrel, c_bind_lift. fold iv masked nfs. rewrite Hek. cbn [ok_or]. rewrite c_bind_lift.
    unfold x25519_keypair. rewrite Hcx. cbn [ok_or]. rewrite c_bind_lift. fold pfs.
    rewrite Hs1, c_bind_lift, Hs2, c_bind_lift, Hs3, c_bind_lift, Hs4, c_bind_lift, c_bind_write. fold nfs4.
    rewrite <- !app_assoc. rewrite c_bind_read by (rewrite Hepl, Hspfs; lia). unfold enc_open_with. rewrite Hepo. cbn [ok_or]. rewrite c_bind_lift.
    rewrite Hspfs, Nat.eqb_refl. cbn [negb].
    rewrite Hs0, c_bind_lift, Hks. cbn [ok_or]. rewrite c_bind_lift, Hs1', c_bind_lift. unfold x25519_ecdh. rewrite Hxs1. cbn [ok_or]. rewrite c_bind_lift.
    cbv zeta. fold united. rewrite c_bind_read by (rewrite Htl, Hticket; done). rewrite Hot, c_bind_lift.
    rewrite c_bind_read by done. rewrite Hol, c_bind_lift, Hdec, c_bind_lift, Nat2Z.id by lia.
    destruct (enc_mode enc); [cbn; by rewrite app_nil_r..|].
    erewrite c_bind_quiet; [|rewrite Ht16, c_bind_lift; reflexivity]. cbn. by rewrite app_nil_r.
Qed.
End Agreement.

(** An instance: keys that hold a sum, secrets that are sums of both. *)
Definition toy_key (n : nat) (z : Z) : bytes := replicate n (to_u8 z).
Definition toy_value (b : bytes) : Z := match b with x :: _ => val8 x | [] => 0 end.
Definition toy_total (b : bytes) : Z := fold_right (fun x s => val8 x + s) 0 b.

Definition toy_kem : KemPrimitives := {|
  x_public := fun a => Some (toy_key 32 (toy_total a));
  x_agree := fun a p => Some (toy_key 32 (toy_total a + toy_value p));
  kem_public := fun d => Some (toy_key (Z.to_nat 1184) (toy_total d));
  kem_valid := fun p => (length p =? Z.to_nat 1184)%nat;
  kem_encapsulate := fun p r => Some (toy_key (Z.to_nat 1088) (toy_total r), toy_key 32 (toy_value p + toy_total r));
  kem_decapsulate := fun d c => Some (toy_key 32 (toy_total d + toy_value c))
|}.

Lemma toy_value_key n z : (0 < n)%nat -> toy_value (toy_key n z) = z mod 256.
Proof. destruct n as [|n]; [lia|]. intros _. cbn. apply val8_to_u8. Qed.

Lemma toy_key_mod n a b : toy_key n (a + b mod 256) = toy_key n (a + b).
Proof. unfold toy_key. f_equal. unfold to_u8. by rewrite Zplus_mod_idemp_r. Qed.

#[export] Instance toy_kem_laws : KemLaws toy_kem.
Proof.
  constructor; cbn [x_public x_agree kem_public kem_valid kem_encapsulate kem_decapsulate toy_kem].
  - intros a. eexists. split; [reflexivity|]. apply length_replicate.
  - intros a b pa pb [= <-] [= <-]. eexists. split; [reflexivity|].
    rewrite !toy_value_key, !toy_key_mod by lia. split; [do 2 f_equal; lia|apply length_replicate].
  - intros d. eexists. split; [reflexivity|]. split; [apply length_replicate|]. unfold toy_key. rewrite length_replicate. apply Nat.eqb_refl.
  - intros d p r [= <-]. split; [unfold toy_key; rewrite length_replicate; apply Nat.eqb_refl|]. eexists _, _. split; [reflexivity|]. rewrite !toy_value_key by lia. split.
    + rewrite toy_key_mod, (Z.add_comm (_ mod _)), toy_key_mod. do 2 f_equal. lia.
    + split; apply length_replicate.
Qed.

Lemma handshake_agrees_witness :
  let enc := mkEncryption Random true (X25519 (toy_key 32 5)) [] in
  let crnd := mkRandom (toy_key 16 9) (toy_key 32 1) (toy_key 64 2) (toy_key 32 3) in
  let srnd := mkServer (toy_key 32 4) (toy_key 32 6) (lit "sixteen of ticks") (lit "padding") in
  exists hello answer c2s s2c united client_mask server_mask,
    serve (A := toy_aead) (P := toy_ctr) (K := toy_kem) Random (X25519 (toy_key 32 5)) [to_u8 5] srnd hello
      = (answer ++ lit "padding", Ok ((c2s, s2c, united, server_mask), []))
    /\ (forall rest, client_handshake (A := toy_aead) (P := toy_ctr) (K := toy_kem) crnd enc (answer ++ lit "padding" ++ rest) =
         (hello, Ok (mkState c2s s2c united true 7 client_mask, lit "padding" ++ rest)))
    /\ masks_agree 7 client_mask server_mask /\ (is_Some server_mask <-> Random = Random).
Proof.
  intros enc crnd srnd.
  apply (handshake_agrees (A := toy_aead) (P := toy_ctr) (K := toy_kem) enc [to_u8 5] crnd srnd).
  - reflexivity.
  - reflexivity.
  - reflexivity.
  - cbn. lia.
Defined.
