(* ===== verification/VisionStream.v ===== *)
(** * The Vision stream over a REALITY session
    ([crates/net/src/vision/vision_stream.rs])

    [VisionStream] drives a TLS session over a TCP stream. It pads what is
    written and takes the padding off what is read, watches the TLS inside for
    the moment when both ends may leave the outer encryption, and then passes
    bytes straight through. This file is the code: a method is a step of a monad
    over the stream and the TCP connection below it. *)

From S2P Require Import Prelude RustStr NetAddr NetIo SlideBuffer AsyncRead VisionPad TlsRecords FuzzyTls VisionFilter.
From S2P Require Import Aead RealityRecords RealityKeys RealityMessages RealityClient.

Definition COMMAND_CONTINUE : Z := 0.
Definition COMMAND_END : Z := 1.
Definition COMMAND_DIRECT : Z := 2.

(** ** The state *)

Inductive VisionMode : Type := PaddingTls | Tls | Direct.

#[export] Instance VisionMode_eq_dec : EqDecision VisionMode.
Proof. solve_decision. Defined.

(** [fmt] *)
Definition show_mode (m : VisionMode) : str :=
  match m with PaddingTls => "PaddingTls" | Tls => "Tls" | Direct => "Direct" end.

(** The fields of [VisionStream] that reading uses; of [tls_read_buffer] the
    size. *)
Record ReadSide : Type := mkReadSide {
  read_mode : VisionMode;
  outer_read_deframer : option TlsDeframer;
  read_unpadder : VisionUnpadder;
  inner_read_deframer : FuzzyTlsDeframer;
  pending_read : bytes;
  vless_response_pending : bool;
  partial_vless_response : bytes;
  tls_read_buffer : nat;
  is_read_eof : bool
}.

(** Those that writing uses, and how many blocks have drawn on the random
    source. *)
Record WriteSide : Type := mkWriteSide {
  write_mode : VisionMode;
  inner_write_deframer : FuzzyTlsDeframer;
  write_first_packet : bool;
  vless_response_to_send : bool;
  pending_direct_mode_switch : bool;
  pending_tls_mode_switch : bool;
  pending_plain_writes : bytes;
  blocks_drawn : nat
}.

Record VisionStream : Type := mkVision {
  session : Connection; user_uuid : bytes; vs_filter : VisionFilter; rside : ReadSide; wside : WriteSide
}.

(** The TCP stream: what arrives, what it will do when it is written to, what
    has been written. *)
Record Tcp : Type := mkTcp { incoming : list Piece; room : list WriteStep; sent : bytes }.

Definition set_session (c : Connection) (s : VisionStream) : VisionStream := mkVision c (user_uuid s) (vs_filter s) (rside s) (wside s).
Definition set_vs_filter (f : VisionFilter) (s : VisionStream) : VisionStream := mkVision (session s) (user_uuid s) f (rside s) (wside s).
Definition on_reads (f : ReadSide -> ReadSide) (s : VisionStream) : VisionStream :=
  mkVision (session s) (user_uuid s) (vs_filter s) (f (rside s)) (wside s).
Definition on_writes (f : WriteSide -> WriteSide) (s : VisionStream) : VisionStream :=
  mkVision (session s) (user_uuid s) (vs_filter s) (rside s) (f (wside s)).

Definition set_read_mode (m : VisionMode) (r : ReadSide) : ReadSide :=
  mkReadSide m (outer_read_deframer r) (read_unpadder r) (inner_read_deframer r) (pending_read r) (vless_response_pending r)
    (partial_vless_response r) (tls_read_buffer r) (is_read_eof r).
Definition set_outer (d : option TlsDeframer) (r : ReadSide) : ReadSide :=
  mkReadSide (read_mode r) d (read_unpadder r) (inner_read_deframer r) (pending_read r) (vless_response_pending r)
    (partial_vless_response r) (tls_read_buffer r) (is_read_eof r).
Definition set_unpadder (u : VisionUnpadder) (r : ReadSide) : ReadSide :=
  mkReadSide (read_mode r) (outer_read_deframer r) u (inner_read_deframer r) (pending_read r) (vless_response_pending r)
    (partial_vless_response r) (tls_read_buffer r) (is_read_eof r).
Definition set_inner_read (f : FuzzyTlsDeframer) (r : ReadSide) : ReadSide :=
  mkReadSide (read_mode r) (outer_read_deframer r) (read_unpadder r) f (pending_read r) (vless_response_pending r)
    (partial_vless_response r) (tls_read_buffer r) (is_read_eof r).
Definition set_pending_read (b : bytes) (r : ReadSide) : ReadSide :=
  mkReadSide (read_mode r) (outer_read_deframer r) (read_unpadder r) (inner_read_deframer r) b (vless_response_pending r)
    (partial_vless_response r) (tls_read_buffer r) (is_read_eof r).
Definition set_response_pending (b : bool) (r : ReadSide) : ReadSide :=
  mkReadSide (read_mode r) (outer_read_deframer r) (read_unpadder r) (inner_read_deframer r) (pending_read r) b
    (partial_vless_response r) (tls_read_buffer r) (is_read_eof r).
Definition set_partial (b : bytes) (r : ReadSide) : ReadSide :=
  mkReadSide (read_mode r) (outer_read_deframer r) (read_unpadder r) (inner_read_deframer r) (pending_read r) (vless_response_pending r)
    b (tls_read_buffer r) (is_read_eof r).
Definition set_read_buffer (n : nat) (r : ReadSide) : ReadSide :=
  mkReadSide (read_mode r) (outer_read_deframer r) (read_unpadder r) (inner_read_deframer r) (pending_read r) (vless_response_pending r)
    (partial_vless_response r) n (is_read_eof r).
Definition set_eof (r : ReadSide) : ReadSide :=
  mkReadSide (read_mode r) (outer_read_deframer r) (read_unpadder r) (inner_read_deframer r) (pending_read r) (vless_response_pending r)
    (partial_vless_response r) (tls_read_buffer r) true.

Definition set_write_mode (m : VisionMode) (w : WriteSide) : WriteSide :=
  mkWriteSide m (inner_write_deframer w) (write_first_packet w) (vless_response_to_send w) (pending_direct_mode_switch w)
    (pending_tls_mode_switch w) (pending_plain_writes w) (blocks_drawn w).
Definition set_inner_write (f : FuzzyTlsDeframer) (w : WriteSide) : WriteSide :=
  mkWriteSide (write_mode w) f (write_first_packet w) (vless_response_to_send w) (pending_direct_mode_switch w)
    (pending_tls_mode_switch w) (pending_plain_writes w) (blocks_drawn w).
(** One more block is padded. *)
Definition drawn (w : WriteSide) : WriteSide :=
  mkWriteSide (write_mode w) (inner_write_deframer w) false (vless_response_to_send w) (pending_direct_mode_switch w)
    (pending_tls_mode_switch w) (pending_plain_writes w) (S (blocks_drawn w)).
Definition set_response_sent (w : WriteSide) : WriteSide :=
  mkWriteSide (write_mode w) (inner_write_deframer w) (write_first_packet w) false (pending_direct_mode_switch w)
    (pending_tls_mode_switch w) (pending_plain_writes w) (blocks_drawn w).
Definition set_direct_switch (b : bool) (w : WriteSide) : WriteSide :=
  mkWriteSide (write_mode w) (inner_write_deframer w) (write_first_packet w) (vless_response_to_send w) b
    (pending_tls_mode_switch w) (pending_plain_writes w) (blocks_drawn w).
Definition set_tls_switch (b : bool) (w : WriteSide) : WriteSide :=
  mkWriteSide (write_mode w) (inner_write_deframer w) (write_first_packet w) (vless_response_to_send w)
    (pending_direct_mode_switch w) b (pending_plain_writes w) (blocks_drawn w).
Definition set_pending_plain (b : bytes) (w : WriteSide) : WriteSide :=
  mkWriteSide (write_mode w) (inner_write_deframer w) (write_first_packet w) (vless_response_to_send w)
    (pending_direct_mode_switch w) (pending_tls_mode_switch w) b (blocks_drawn w).

(** [new_common], and the client's constructor, which panics for a session that
    is not a client's: [is_client] and [is_server] of a REALITY connection are
    constant. *)
Definition is_client (c : Connection) : bool := true.
Definition is_server (c : Connection) : bool := false.

Definition new_common (c : Connection) (uuid : bytes) (response_pending response_to_send : bool) : VisionStream :=
  mkVision c uuid new_filter
    (mkReadSide PaddingTls (Some new_deframer) (new_unpadder uuid) new_fuzzy [] response_pending [] (Z.to_nat 8192) false)
    (mkWriteSide PaddingTls new_fuzzy true response_to_send false false [] 0).

Definition new_client (c : Connection) (uuid : bytes) : VisionStream := new_common c uuid true false.

(** ** The monad of the methods *)

(** A method may wait, as a poll does; [mbind] is [ready!(..)?]. *)
Definition V (A : Type) : Type := VisionStream * Tcp -> VisionStream * Tcp * Poll A.

#[export] Instance V_ret : MRet V := fun A a st => (st, Ready (Ok a)).
#[export] Instance V_bind : MBind V := fun A B f m st =>
  match m st with
  | (st, Ready (Ok a)) => f a st
  | (st, Ready (Err e)) => (st, Ready (Err e))
  | (st, Ready Panic) => (st, Ready Panic)
  | (st, Pending) => (st, Pending)
  end.

Definition answer {A} (p : Poll A) : V A := fun st => (st, p).
Definition fails {A} (e : io_error) : V A := answer (Ready (Err e)).
Definition panics {A} : V A := answer (Ready Panic).
Definition ok_of {A} (r : res io_error A) : V A := answer (Ready r).
Definition this : V VisionStream := fun '(s, w) => ((s, w), Ready (Ok s)).
Definition tcp : V Tcp := fun '(s, w) => ((s, w), Ready (Ok w)).
Definition change (f : VisionStream -> VisionStream) : V unit := fun '(s, w) => ((f s, w), Ready (Ok tt)).

Definition on_session {A} (m : M A) : V A := fun '(s, w) =>
  let '(c, r) := m (session s) in ((set_session c s, w), Ready r).

(** [Poll::Pending => {}]: waiting is an answer. *)
Definition unless_pending {A} (m : V A) : V (option A) := fun st =>
  match m st with
  | (st, Ready (Ok a)) => (st, Ready (Ok (Some a)))
  | (st, Ready (Err e)) => (st, Ready (Err e))
  | (st, Ready Panic) => (st, Ready Panic)
  | (st, Pending) => (st, Ready (Ok None))
  end.

(** [poll_read] of the TCP stream with room for [cap] bytes. *)
Definition tcp_read (cap : nat) : V bytes := fun '(s, w) =>
  let '(p, inc) := poll_inner cap (incoming w) in ((s, mkTcp inc (room w) (sent w)), p).

(** [poll_write] of the TCP stream. *)
Definition next_step (w : Tcp) : WriteStep * list WriteStep :=
  match room w with [] => (NotNow, []) | step :: room => (step, room) end.

Definition tcp_write (buf : bytes) : V nat := fun '(s, w) =>
  let '(step, room') := next_step w in
  match step with
  | Took n => let taken := take n buf in ((s, mkTcp (incoming w) room' (sent w ++ taken)), Ready (Ok (length taken)))
  | NotNow => ((s, mkTcp (incoming w) room' (sent w)), Pending)
  | WriteFailed e => ((s, mkTcp (incoming w) room' (sent w)), Ready (Err e))
  end.

(** A difference of two [usize]; in a release build it wraps around. *)
Definition usize_sub (debug : bool) (a b : nat) : V nat :=
  if (b <=? a)%nat then mret (a - b)%nat
  else if debug then panics else mret (Z.to_nat (2 ^ 64 + Z.of_nat a - Z.of_nat b)).

Definition assert (b : bool) : V unit := if b then mret tt else panics.

Section Vision.
Context `{A : Aead} `{C : Crypto} (x509 : bytes -> res str (bytes * bytes)) (debug : bool)
  (memmem_find : bytes -> bytes -> option nat) (random : nat -> Rng).

(** ** The modes *)

(** [post_padding_cleanup] *)
Definition post_padding_cleanup : V unit :=
  s ← this;
  if bool_decide (read_mode (rside s) = PaddingTls) || bool_decide (write_mode (wside s) = PaddingTls) then mret tt
  else
    change (fun s =>
      on_reads (fun r => set_read_buffer 0 (set_inner_read (deallocate_fuzzy (inner_read_deframer r)) r))
        (on_writes (fun w => set_pending_plain [] (set_inner_write (deallocate_fuzzy (inner_write_deframer w)) w)) s)).

(** [switch_read_to_direct_mode] and the three others. *)
Definition switch_read (name : str) (m : VisionMode) : V unit :=
  s ← this;
  if negb (bool_decide (read_mode (rside s) = PaddingTls))
  then fails (IoOther (name ++ " called from mode " ++ show_mode (read_mode (rside s))))
  else _ ← change (on_reads (set_read_mode m)); post_padding_cleanup.
Definition switch_write (name : str) (m : VisionMode) : V unit :=
  s ← this;
  if negb (bool_decide (write_mode (wside s) = PaddingTls))
  then fails (IoOther (name ++ " called from mode " ++ show_mode (write_mode (wside s))))
  else _ ← change (on_writes (set_write_mode m)); post_padding_cleanup.

Definition switch_read_to_direct_mode : V unit := switch_read "switch_read_to_direct_mode" Direct.
Definition switch_read_to_tls_mode : V unit := switch_read "switch_read_to_tls_mode" Tls.
Definition switch_write_to_direct_mode : V unit := switch_write "switch_write_to_direct_mode" Direct.
Definition switch_write_to_tls_mode : V unit := switch_write "switch_write_to_tls_mode" Tls.

(** ** Draining *)

(** [write_tls_direct]. A TCP stream that is not ready, or fails, leaves what is
    to be sent as it is. *)
Definition write_tls_direct : V nat := fun '(s, w) =>
  let '(step, room') := next_step w in
  let '(c, r) := write_tls debug (fun out => Ok (match step with Took n => Nat.min n (length out) | _ => 0%nat end)) (session s) in
  let s := set_session c s in
  match r with
  | Err e => ((s, w), Ready (Err e))
  | Panic => ((s, w), Ready Panic)
  | Ok taken =>
      let w := mkTcp (incoming w) room' (sent w ++ taken) in
      match step with
      | Took _ => ((s, w), Ready (Ok (length taken)))
      | NotNow => ((s, w), Pending)
      | WriteFailed e => ((s, w), Ready (Err e))
      end
  end.

(** [drain_pending_plain_writes] *)
Fixpoint plain_to_session (fuel : nat) : V unit :=
  match fuel with
  | O => panics
  | S fuel =>
      s ← this;
      let pending := pending_plain_writes (wside s) in
      if is_nil pending then mret tt
      else
        n ← on_session (write_plaintext pending);
        if (n =? 0)%nat then mret tt
        else _ ← change (on_writes (set_pending_plain (drop n pending))); plain_to_session fuel
  end.

Definition drain_pending_plain_writes : V nat :=
  s ← this;
  let initial_len := length (pending_plain_writes (wside s)) in
  if (initial_len =? 0)%nat then mret 0%nat
  else
    _ ← plain_to_session (S initial_len);
    s ← this;
    mret (initial_len - length (pending_plain_writes (wside s)))%nat.

(** [drain_all_writes_padding]; every turn asks the TCP stream, or empties the
    pending plaintext into the session. *)
Fixpoint drain_padding (fuel : nat) : V unit :=
  match fuel with
  | O => panics
  | S fuel =>
      s ← this;
      if wants_write (session s) then
        n ← write_tls_direct;
        if (n =? 0)%nat then fails (WriteZero "") else drain_padding fuel
      else if negb (is_nil (pending_plain_writes (wside s))) then
        written ← drain_pending_plain_writes;
        if (0 <? written)%nat then drain_padding fuel
        else fails (IoOther "drain stuck: session buffer full but wants_write is false")
      else mret tt
  end.

Definition drain_all_writes_padding : V unit := w ← tcp; drain_padding (2 * length (room w) + 4).

(** [drain_all_writes_tls] *)
Fixpoint drain_tls (fuel : nat) : V unit :=
  match fuel with
  | O => panics
  | S fuel =>
      s ← this;
      if wants_write (session s) then
        n ← write_tls_direct;
        if (n =? 0)%nat then fails (WriteZero "") else drain_tls fuel
      else mret tt
  end.

Definition drain_all_writes_tls : V unit := w ← tcp; drain_tls (length (room w) + 2).

(** [write_to_session]; a write takes a byte at least. *)
Fixpoint write_session (fuel : nat) (data : bytes) : V unit :=
  match fuel with
  | O => panics
  | S fuel =>
      if is_nil data then mret tt
      else
        n ← on_session (write_plaintext data);
        if (n =? 0)%nat then change (on_writes (fun w => set_pending_plain (pending_plain_writes w ++ data) w))
        else write_session fuel (drop n data)
  end.

Definition write_to_session (data : bytes) : V unit :=
  s ← this;
  if negb (is_nil (pending_plain_writes (wside s)))
  then change (on_writes (fun w => set_pending_plain (pending_plain_writes w ++ data) w))
  else write_session (S (length data)) data.

(** [poll_write_tls]: the inner loop says whether the TCP stream has had enough. *)
Fixpoint drain_some (fuel : nat) : V bool :=
  match fuel with
  | O => panics
  | S fuel =>
      s ← this;
      if wants_write (session s) then
        r ← unless_pending write_tls_direct;
        match r with
        | None | Some O => mret true
        | Some _ => drain_some fuel
        end
      else mret false
  end.

Fixpoint write_tls_loop (fuel : nat) (buf : bytes) (pos : nat) : V nat :=
  match fuel with
  | O => panics
  | S fuel =>
      if (length buf <=? pos)%nat then mret pos
      else
        n ← on_session (write_plaintext (drop pos buf));
        let pos := (pos + n)%nat in
        w ← tcp;
        would_block ← drain_some (length (room w) + 2);
        if would_block : bool then if (pos =? 0)%nat then answer Pending else mret pos
        else write_tls_loop fuel buf pos
  end.

Definition poll_write_tls (buf : bytes) : V nat := write_tls_loop (S (length buf)) buf 0.

(** ** Reading *)

(** [.map_err(|err| Error::new(InvalidData, err))] *)
Definition io_message (e : io_error) : str :=
  match e with
  | InvalidData m | InvalidInput m | IoOther m | ConnectionAborted m | WriteZero m | IoTimedOut m | PermissionDenied m => m
  | UnexpectedEof => "unexpected end of file"
  end.

Definition invalid_data {B} (m : V B) : V B := fun st =>
  match m st with (st, Ready (Err e)) => (st, Ready (Err (InvalidData (io_message e)))) | r => r end.

Definition process_session : V nat := invalid_data (on_session (process_new_packets x509 debug)).

(** [feed_and_process_crypto_connection] *)
Definition feed_and_process (data : bytes) : V nat :=
  _ ← on_session (feed_reality_client_connection debug data); process_session.

(** The loops that take [plaintext_len] bytes out of the session: what there is
    to do when nothing is available, and when a part is empty, differs. *)
Fixpoint take_plaintext (on_none : io_error) (on_empty : option io_error) (fuel left : nat) : V bytes :=
  if (left =? 0)%nat then mret []
  else match fuel with
       | O => panics
       | S fuel =>
           s ← this;
           buf ← ok_of (fill_buf (session s));
           match buf, on_empty with
           | None, _ => fails on_none
           | Some [], Some e => fails e
           | Some part, _ =>
               _ ← on_session (reader_consume debug (length part));
               rest ← take_plaintext on_none on_empty fuel (left - length part)%nat;
               mret (part ++ rest)
           end
       end.

Definition no_plaintext : io_error := InvalidData "operation would block".

(** [session.reader()] and the loop. *)
Definition read_session (on_none : io_error) (on_empty : option io_error) (n : nat) : V bytes :=
  _ ← on_session (modify (fun c => set_pin (maybe_compact (plaintext_read_buf c) 4096) c));
  take_plaintext on_none on_empty n n.

(** [self.outer_read_deframer.as_mut().expect(..)] *)
Definition on_outer {B} (f : TlsDeframer -> TlsDeframer * res io_error B) : V B := fun '(s, w) =>
  match outer_read_deframer (rside s) with
  | None => ((s, w), Ready Panic)
  | Some d => let '(d, r) := f d in ((on_reads (set_outer (Some d)) s, w), Ready r)
  end.

Definition feed_outer (data : bytes) : V unit := on_outer (fun d => (feed_deframer d data, Ok tt)).

(** The loop of [handle_padded_bytes] over what the inner deframer cuts. *)
Fixpoint filter_cuts (fuel : nat) : V unit :=
  match fuel with
  | O => panics
  | S fuel =>
      s ← this;
      let '(f, r) := next_fuzzy memmem_find (inner_read_deframer (rside s)) in
      _ ← change (on_reads (set_inner_read f));
      match r with
      | Ok (TlsRecord record) =>
          _ ← change (fun s => set_vs_filter (filter_record (vs_filter s) record) s);
          s ← this;
          if is_filtering (vs_filter s) then filter_cuts fuel else mret tt
      | Ok (UnknownPrefix prefix) =>
          if is_nil prefix then fails (IoOther "FuzzyTlsDeframer returned empty prefix")
          else _ ← change (fun s => set_vs_filter (decrement_filter_count (vs_filter s)) s); filter_cuts fuel
      | Ok NeedData => mret tt
      | Err _ => change (fun s => set_vs_filter (stop_filtering (vs_filter s)) s)
      | Panic => panics
      end
  end.

(** The records that the outer deframer still holds after the command [End]. *)
Fixpoint decrypt_rest (fuel : nat) (d : TlsDeframer) : V TlsDeframer :=
  match fuel with
  | O => panics
  | S fuel =>
      let '(d, r) := next_record d in
      record ← ok_of r;
      match record with
      | None => mret d
      | Some record =>
          n ← feed_and_process record;
          data ← (if (0 <? n)%nat then read_session no_plaintext None n else mret []);
          _ ← change (on_reads (fun r => set_pending_read (pending_read r ++ data) r));
          decrypt_rest fuel d
      end
  end.

(** What [handle_padded_bytes] shows to the filter. *)
Definition filter_unpadded (unpadded : bytes) : V unit :=
  s ← this;
  if negb (is_nil unpadded) && is_filtering (vs_filter s) then
    _ ← change (on_reads (fun r => set_inner_read (feed_fuzzy (inner_read_deframer r) unpadded) r));
    s ← this;
    filter_cuts (S (S (fuzzy_pending_bytes (inner_read_deframer (rside s)))))
  else mret tt.

(** What it does with the command. *)
Definition follow_command (unpadded : bytes) (command : option UnpadCommand) : V unit :=
  match command with
  | Some CmdDirect =>
      s ← this;
      match outer_read_deframer (rside s) with
      | None => panics
      | Some d =>
          _ ← change (on_reads (fun r => set_pending_read (pending_read r ++ unpadded ++ remaining_data d) (set_outer None r)));
          switch_read_to_direct_mode
      end
  | Some CmdEnd =>
      _ ← change (on_reads (fun r => set_pending_read (pending_read r ++ unpadded) r));
      s ← this;
      match outer_read_deframer (rside s) with
      | None => panics
      | Some d =>
          _ ← change (on_reads (set_outer None));
          d ← decrypt_rest (S (length (buffer d))) d;
          _ ← (if is_nil (remaining_data d) then mret tt
               else n ← feed_and_process (remaining_data d); assert (n =? 0)%nat);
          switch_read_to_tls_mode
      end
  | _ => change (on_reads (fun r => set_pending_read (pending_read r ++ unpadded) r))
  end.

(** [handle_padded_bytes] *)
Definition handle_padded_bytes (decrypted : bytes) : V unit :=
  s ← this;
  '(u, r) ← ok_of (unpad (read_unpadder (rside s)) decrypted);
  _ ← change (on_reads (set_unpadder u));
  result ← ok_of r;
  _ ← filter_unpadded (content result);
  follow_command (content result) (command result).

(** [feed_initial_read_data] and [feed_initial_session_data]: what arrived with
    the request. *)
Definition feed_initial_read_data (data : bytes) : V unit := if is_nil data then mret tt else handle_padded_bytes data.

Definition feed_initial_session_data : V unit :=
  n ← process_session;
  decrypted ← read_session (InvalidData "failed to read TLS session: operation would block")
    (Some (InvalidData "TLS session filled buffer with zero bytes")) n;
  handle_padded_bytes decrypted.

(** [new_server] *)
Definition new_server (c : Connection) (uuid initial_read_data : bytes) (w : Tcp) : Poll (VisionStream * Tcp) :=
  if negb (is_server c) then Ready (Err (InvalidInput "VisionStream::new_server requires a server-side connection"))
  else match (_ ← feed_initial_read_data initial_read_data; feed_initial_session_data) (new_common c uuid false true, w) with
       | (st, Ready (Ok _)) => Ready (Ok st)
       | (_, Ready (Err e)) => Ready (Err e)
       | (_, Ready Panic) => Ready Panic
       | (_, Pending) => Pending
       end.

(** What is pending goes out, up to [want] bytes. *)
Definition serve_pending (want : nat) : V bytes :=
  s ← this;
  let pending := pending_read (rside s) in
  let len := Nat.min want (length pending) in
  _ ← change (on_reads (set_pending_read (drop len pending)));
  mret (take len pending).

(** Available plaintext goes out. *)
Definition serve_available (want : nat) (available : bytes) : V bytes :=
  let len := Nat.min want (length available) in
  _ ← on_session (reader_consume debug len);
  mret (take len available).

Definition open_reader : V (option bytes) :=
  _ ← on_session (modify (fun c => set_pin (maybe_compact (plaintext_read_buf c) 4096) c));
  s ← this;
  ok_of (fill_buf (session s)).

(** [read_tls] from the TCP stream: it makes room first, and takes all it got. *)
Definition read_tls_tcp : V nat :=
  _ ← on_session (read_tls debug []);
  data ← tcp_read RealityRecords.TLS_MAX_RECORD_SIZE;
  on_session (read_tls debug data).

(** [poll_read_tls] *)
Fixpoint read_tls_loop (fuel want : nat) : V bytes :=
  match fuel with
  | O => panics
  | S fuel =>
      n ← read_tls_tcp;
      if (n =? 0)%nat then _ ← change (on_reads set_eof); mret []
      else
        plaintext_len ← process_session;
        if (plaintext_len =? 0)%nat then read_tls_loop fuel want
        else
          available ← open_reader;
          match available with
          | None => fails no_plaintext
          | Some [] => fails UnexpectedEof
          | Some available => serve_available want available
          end
  end.

Definition poll_read_tls (want : nat) : V bytes :=
  available ← open_reader;
  match available with
  | Some ((_ :: _) as available) => serve_available want available
  | _ =>
      s ← this;
      if is_read_eof (rside s) then mret []
      else w ← tcp; read_tls_loop (S (length (arriving (incoming w)))) want
  end.

(** The reading of [poll_read] and of the switches: what the new mode does. *)
Definition read_in_mode (m : VisionMode) (want : nat) : V bytes :=
  match m with Direct => tcp_read want | _ => poll_read_tls want end.

(** One turn over the records in [poll_read_padding_tls]: [None] when more TCP
    data is needed. *)
Fixpoint padded_records (fuel want : nat) : V (option bytes) :=
  match fuel with
  | O => panics
  | S fuel =>
      record ← on_outer next_record;
      match record with
      | None => mret None
      | Some record =>
          plaintext_len ← feed_and_process record;
          if (plaintext_len =? 0)%nat then padded_records fuel want
          else
            decrypted ← read_session no_plaintext None plaintext_len;
            _ ← handle_padded_bytes decrypted;
            s ← this;
            match read_mode (rside s) with
            | PaddingTls => padded_records fuel want
            | m =>
                out ← (if is_nil (pending_read (rside s)) then read_in_mode m want else serve_pending want);
                mret (Some out)
            end
      end
  end.

(** [poll_read_padding_tls] *)
Fixpoint read_padding_loop (fuel want : nat) : V bytes :=
  match fuel with
  | O => panics
  | S fuel =>
      s ← this;
      tcp_bytes ← tcp_read (tls_read_buffer (rside s));
      if is_nil tcp_bytes then _ ← change (on_reads set_eof); mret []
      else
        _ ← feed_outer tcp_bytes;
        s ← this;
        let held := match outer_read_deframer (rside s) with Some d => length (buffer d) | None => 0%nat end in
        out ← padded_records (S held) want;
        match out with
        | Some out => mret out
        | None =>
            s ← this;
            if is_nil (pending_read (rside s)) then read_padding_loop fuel want else serve_pending want
        end
  end.

Definition poll_read_padding_tls (want : nat) : V bytes :=
  s ← this;
  if is_read_eof (rside s) then mret []
  else w ← tcp; read_padding_loop (S (length (arriving (incoming w)))) want.

(** The records of [poll_read_vless_response], decrypted. *)
Fixpoint response_records (records : list bytes) : V unit :=
  match records with
  | [] => mret tt
  | record :: records =>
      n ← feed_and_process record;
      data ← read_session (IoOther "operation would block") (Some (IoOther "no plaintext data when some is available")) n;
      _ ← change (on_reads (fun r => set_partial (partial_vless_response r ++ data) r));
      response_records records
  end.

(** The header of the response: [None] while it is not whole, else what follows. *)
Definition parse_response (partial : bytes) : res io_error (option bytes) :=
  match partial with
  | version :: addon_length :: _ =>
      if negb (val8 version =? 0) then Err (InvalidData ("Invalid VLESS response version: " ++ show_uint (val8 version)))
      else
        let total_response_len := (2 + Z.to_nat (val8 addon_length))%nat in
        if (length partial <? total_response_len)%nat then Ok None else Ok (Some (drop total_response_len partial))
  | _ => Ok None
  end.

(** [poll_read_vless_response] *)
Fixpoint response_loop (fuel : nat) : V bytes :=
  match fuel with
  | O => panics
  | S fuel =>
      s ← this;
      tcp_bytes ← tcp_read (tls_read_buffer (rside s));
      if is_nil tcp_bytes then fails UnexpectedEof
      else
        _ ← feed_outer tcp_bytes;
        records ← on_outer next_records;
        _ ← response_records records;
        s ← this;
        rest ← ok_of (parse_response (partial_vless_response (rside s)));
        match rest with
        | None => response_loop fuel
        | Some rest => _ ← change (on_reads (set_partial [])); mret rest
        end
  end.

Definition poll_read_vless_response : V bytes := w ← tcp; response_loop (S (length (arriving (incoming w)))).

(** [poll_read] *)
Definition poll_read (want : nat) : V bytes :=
  s ← this;
  if negb (is_nil (pending_read (rside s))) then serve_pending want
  else match read_mode (rside s) with
       | PaddingTls =>
           if vless_response_pending (rside s) then
             decrypted ← poll_read_vless_response;
             _ ← change (on_reads (set_response_pending false));
             if is_nil decrypted then poll_read_padding_tls want
             else
               _ ← handle_padded_bytes decrypted;
               s ← this;
               if negb (is_nil (pending_read (rside s))) then serve_pending want
               else match read_mode (rside s) with
                    | PaddingTls => poll_read_padding_tls want
                    | m => read_in_mode m want
                    end
           else poll_read_padding_tls want
       | m => read_in_mode m want
       end.

(** ** Writing *)

(** The padded block for [data], with the UUID if it is the first. *)
Definition pad_next (data : bytes) (command : Z) (is_tls : bool) : V bytes :=
  s ← this;
  let r := random (blocks_drawn (wside s)) in
  _ ← change (on_writes drawn);
  mret (if write_first_packet (wside s) then pad_with_uuid_and_command r data (user_uuid s) command is_tls
        else pad_with_command r data command is_tls).

(** [record[0] == 0x17 && record[1] == 0x03], and the test beside it. *)
Definition is_app_data (f : VisionFilter) (record : bytes) : bool :=
  vf_is_tls f && (3 <=? length record)%nat && byte_is record 0 23 && byte_is record 1 3.

Definition non_tls_filtering_ended (f : VisionFilter) (record : bytes) : bool :=
  negb (is_app_data f record) && negb (is_filtering f) && negb (is_tls12_or_above f).

(** A block goes to the session, and as much as possible to the TCP stream:
    [None] when that waits. *)
Definition send_block (data : bytes) (command : Z) (is_tls : bool) : V (option unit) :=
  block ← pad_next data command is_tls;
  _ ← write_to_session block;
  unless_pending drain_all_writes_padding.

Definition clear_inner_write : V unit := change (on_writes (fun w => set_inner_write (clear_fuzzy (inner_write_deframer w)) w)).

(** A record that ends the padding. *)
Definition send_last_record (record : bytes) (processed_len existing_inner_len : nat) : V nat :=
  s ← this;
  command ← (if supports_xtls (vs_filter s) then _ ← change (on_writes (set_direct_switch true)); mret COMMAND_DIRECT
             else _ ← change (on_writes (set_tls_switch true)); mret COMMAND_END);
  block ← pad_next record command true;
  _ ← write_to_session block;
  _ ← assert (existing_inner_len <? processed_len)%nat;
  _ ← unless_pending drain_all_writes_padding;
  _ ← clear_inner_write;
  usize_sub debug processed_len existing_inner_len.

(** A record within the padding: [Some] is the answer of [poll_write]. *)
Definition send_record (record : bytes) (buf_len processed_len existing_inner_len : nat) : V (option nat) :=
  s ← this;
  r ← send_block record COMMAND_CONTINUE (vf_is_tls (vs_filter s));
  match r with
  | Some _ => mret None
  | None =>
      n ← usize_sub debug processed_len existing_inner_len;
      unprocessed_buf_len ← usize_sub debug buf_len n;
      s ← this;
      _ ← assert (fuzzy_pending_bytes (inner_write_deframer (wside s)) =? unprocessed_buf_len)%nat;
      _ ← clear_inner_write;
      mret (Some n)
  end.

(** The last bytes that are not TLS. *)
Definition send_last_prefix (prefix : bytes) (processed_len existing_inner_len : nat) : V nat :=
  s ← this;
  _ ← change (on_writes (set_tls_switch true));
  block ← pad_next prefix COMMAND_END (vf_is_tls (vs_filter s));
  _ ← clear_inner_write;
  _ ← write_to_session block;
  _ ← unless_pending drain_all_writes_padding;
  usize_sub debug processed_len existing_inner_len.

(** Invalid TLS after valid records. *)
Definition send_invalid (buf_len : nat) : V nat :=
  _ ← change (on_writes (set_tls_switch true));
  _ ← change (fun s => set_vs_filter (stop_filtering (vs_filter s)) s);
  s ← this;
  _ ← send_block (fuzzy_remaining_data (inner_write_deframer (wside s))) COMMAND_END (vf_is_tls (vs_filter s));
  _ ← clear_inner_write;
  mret buf_len.

(** The loop of [poll_write_padding_tls]; a turn that goes on has cut a byte off
    the deframer at least. *)
Fixpoint padding_loop (fuel buf_len existing_inner_len processed_len : nat) : V nat :=
  match fuel with
  | O => panics
  | S fuel =>
      s ← this;
      let '(f, r) := next_fuzzy memmem_find (inner_write_deframer (wside s)) in
      _ ← change (on_writes (set_inner_write f));
      match r with
      | Ok (TlsRecord record) =>
          let processed_len := (processed_len + length record)%nat in
          _ ← change (fun s => set_vs_filter (filter_record (vs_filter s) record) s);
          s ← this;
          if is_app_data (vs_filter s) record || non_tls_filtering_ended (vs_filter s) record
          then send_last_record record processed_len existing_inner_len
          else
            r ← send_record record buf_len processed_len existing_inner_len;
            match r with Some n => mret n | None => padding_loop fuel buf_len existing_inner_len processed_len end
      | Ok (UnknownPrefix prefix) =>
          let processed_len := (processed_len + length prefix)%nat in
          _ ← change (fun s => set_vs_filter (decrement_filter_count (vs_filter s)) s);
          s ← this;
          if is_filtering (vs_filter s) then
            _ ← send_block prefix COMMAND_CONTINUE (vf_is_tls (vs_filter s));
            padding_loop fuel buf_len existing_inner_len processed_len
          else send_last_prefix prefix processed_len existing_inner_len
      | Ok NeedData => mret buf_len
      | Err _ => send_invalid buf_len
      | Panic => panics
      end
  end.

(** [poll_write_padding_tls] *)
Definition poll_write_padding_tls (buf : bytes) : V nat :=
  s ← this;
  _ ← (if vless_response_to_send (wside s) then
         _ ← write_to_session (of_zs [0; 0]); change (on_writes set_response_sent)
       else mret tt);
  s ← this;
  _ ← (if negb (is_nil (pending_plain_writes (wside s))) || wants_write (session s) then drain_all_writes_padding else mret tt);
  if pending_direct_mode_switch (wside s) then
    _ ← change (on_writes (set_direct_switch false));
    _ ← switch_write_to_direct_mode;
    tcp_write buf
  else if pending_tls_mode_switch (wside s) then
    _ ← change (on_writes (set_tls_switch false));
    _ ← switch_write_to_tls_mode;
    poll_write_tls buf
  else
    let existing_inner_len := fuzzy_pending_bytes (inner_write_deframer (wside s)) in
    _ ← change (on_writes (fun w => set_inner_write (feed_fuzzy (inner_write_deframer w) buf) w));
    padding_loop (S (existing_inner_len + length buf)) (length buf) existing_inner_len 0.

(** [poll_write] *)
Definition poll_write (buf : bytes) : V nat :=
  s ← this;
  match write_mode (wside s) with
  | PaddingTls => poll_write_padding_tls buf
  | Tls => poll_write_tls buf
  | Direct => tcp_write buf
  end.

(** [poll_flush], up to that of the TCP stream. *)
Definition poll_flush : V unit :=
  s ← this;
  match write_mode (wside s) with
  | PaddingTls => drain_all_writes_padding
  | Tls => drain_all_writes_tls
  | Direct => mret tt
  end.
End Vision.
