(* ===== verification/VisionWrite.v ===== *)
(** * What a Vision stream writes

    The writing side of [VisionStream.v], in all its modes: the records that
    reach the TCP stream carry blocks of padding that say what the calls were
    told is taken, and after the switch to the direct mode the bytes follow as
    they are. *)

From S2P Require Import Prelude RustStr NetAddr NetIo AsyncRead FrameReader VisionPad TlsRecords FuzzyTls VisionFilter VisionBlocks VisionPlain.
From S2P Require Import SlideBuffer Aead RealityRecords RealityKeys RealityMessages RealityClient RealityPeer VisionStream.

(** ** Reasoning about the methods *)

(** [Q] holds of what [m] leaves and answers. *)
Definition post {B} (m : V B) (st : VisionStream * Tcp) (Q : VisionStream * Tcp -> Poll B -> Prop) : Prop :=
  let '(st', p) := m st in Q st' p.

Lemma post_bind {B D} (m : V B) (f : B -> V D) st Q :
  post m st (fun st1 p => match p with
    | Ready (Ok a) => post (f a) st1 Q
    | Ready (Err e) => Q st1 (Ready (Err e))
    | Ready Panic => Q st1 (Ready Panic)
    | Pending => Q st1 Pending
    end) -> post (m ≫= f) st Q.
Proof. unfold post, mbind, V_bind. destruct (m st) as [st1 [|[a|e|]]]; done. Qed.

Lemma post_mono {B} (m : V B) st (Q Q' : VisionStream * Tcp -> Poll B -> Prop) :
  (forall st' p, Q st' p -> Q' st' p) -> post m st Q -> post m st Q'.
Proof. intros H. unfold post. destruct (m st). apply H. Qed.

Lemma vbind_ok {B D} (m : V B) (f : B -> V D) st st1 a : m st = (st1, Ready (Ok a)) -> (m ≫= f) st = f a st1.
Proof. intros H. unfold mbind, V_bind. by rewrite H. Qed.

Lemma this_bind {D} (f : VisionStream -> V D) s w : (this ≫= f) (s, w) = f s (s, w).
Proof. done. Qed.
Lemma tcp_bind {D} (f : Tcp -> V D) s w : (tcp ≫= f) (s, w) = f w (s, w).
Proof. done. Qed.
Lemma change_bind {D} g (f : unit -> V D) s w : (change g ≫= f) (s, w) = f tt (g s, w).
Proof. done. Qed.

(** ** The session *)

Lemma pieces_length data : (length (pieces data) <= length data)%nat.
Proof.
  unfold pieces. destruct data as [|b data]; [done|]. cbn [is_nil]. destruct (_ <=? _)%nat; [cbn; lia|].
  assert (0 < MAX_TLS_PLAINTEXT_LEN)%nat as Hm by (unfold MAX_TLS_PLAINTEXT_LEN; lia). rewrite chunks_length by done.
  apply Nat.Div0.div_le_upper_bound. cbn [length]. nia.
Qed.

Lemma next_step_ok w : willing (room w) ->
  let '(step, room') := next_step w in
  willing room' /\ (length room' <= length (room w))%nat /\
  match step with Took n => (0 < n)%nat /\ (length room' < length (room w))%nat | NotNow => True | WriteFailed _ => False end.
Proof.
  unfold next_step, willing. destruct (room w) as [|st r]; [done|]. intros H. apply Forall_cons in H as [H1 H2]. cbn [length].
  split; [done|]. split; [lia|]. destruct st; [split; [done|lia]|done|done].
Qed.

Section Session.
Context `{A : Aead} {L : AeadLaws A} (debug : bool) (key : AeadKey) (iv : bytes) (seq0 : Z).
Hypothesis Hiv : length iv = 12%nat.
Hypothesis Hseq0 : 0 <= seq0.

Abbreviation carried := (carries key iv CT_APPLICATION_DATA).

(** The session was given [given] since number [seq0]: [out], which has left it,
    and its buffer carry a part of it, the rest is not encrypted yet. *)
Definition writes_on (given : bytes) (c : Connection) (out : bytes) : Prop :=
  handshake_state c = Complete /\ app_write c = Some (key, iv) /\
  exists contents, carried seq0 contents (out ++ ciphertext_write_buf c) /\ concat contents ++ plaintext_write_buf c = given
    /\ write_seq c = seq0 + Z.of_nat (length contents) /\ (length contents <= length (concat contents))%nat.

Definition in_bounds (given : bytes) : Prop := seq0 + Z.of_nat (length given) < 2 ^ 64.

(** [c'] differs from [c] in what is to be written only. *)
Definition same_reader (c c' : Connection) : Prop := exists seq out pending, c' = set_out seq out pending c.

Lemma same_reader_refl c : same_reader c c.
Proof using Type. exists (write_seq c), (ciphertext_write_buf c), (plaintext_write_buf c). by destruct c. Qed.

Lemma same_reader_trans c1 c2 c3 : same_reader c1 c2 -> same_reader c2 c3 -> same_reader c1 c3.
Proof using Type. intros (a & b & d & ->) (a' & b' & d' & ->). by exists a', b', d'. Qed.

Lemma write_plaintext_ok given data c out : writes_on given c out ->
  exists c', write_plaintext data c = (c', Ok (length data)) /\ writes_on (given ++ data) c' out /\ same_reader c c'.
Proof using Type.
  intros (Hs & Hk & contents & Hc & Hg & Hn & Hl). eexists. split; [reflexivity|]. split; [|by eexists _, _, _].
  split; [done|]. split; [done|]. exists contents. cbn [ciphertext_write_buf plaintext_write_buf write_seq set_out].
  rewrite app_assoc, Hg. done.
Qed.

(** What is plaintext becomes records, and the writer takes a part. *)
Lemma write_tls_ok given k c out : writes_on given c out -> in_bounds given -> (forall b, (k b <= length b)%nat) ->
  exists c' full, write_tls debug (fun b => Ok (k b)) c = (c', Ok (take (k full) full)) /\ writes_on given c' (out ++ take (k full) full)
    /\ same_reader c c' /\ (wants_write c = true -> full <> []).
Proof using L Hiv Hseq0.
  intros (Hs & Hk & contents & Hc & Hg & Hn & Hl) Hb Hkb. unfold in_bounds in Hb. rewrite <- Hg, length_app in Hb.
  assert (exists seq full more, (match handshake_state c with
      | Complete => if is_nil (plaintext_write_buf c) then mret tt
                    else match app_write c with
                         | Some (key, iv) => '(seq, out) ← lift (encrypt_app_data debug key iv (plaintext_write_buf c) (write_seq c, ciphertext_write_buf c));
                                             modify (set_out seq out [])
                         | None => lift (bad_data "Application keys not available")
                         end
      | _ => mret tt end : M unit) c = (set_out seq full [] c, Ok tt)
      /\ carried seq0 (contents ++ more) (out ++ full) /\ concat more = plaintext_write_buf c /\ seq = seq0 + Z.of_nat (length (contents ++ more))
      /\ (length more <= length (concat more))%nat /\ (wants_write c = true -> full <> []))
    as (seq & full & more & Henc & Hcar & Hmore & Hseq & Hlm & Hne).
  { rewrite Hs, Hk. destruct (plaintext_write_buf c) as [|x p] eqn:Ep; cbn [is_nil].
    - exists (write_seq c), (ciphertext_write_buf c), []. rewrite app_nil_r. split; [by destruct c; cbn in *; subst|]. split; [done|]. split; [done|].
      split; [done|]. split; [done|]. unfold wants_write. rewrite Ep. cbn. rewrite orb_false_r. by destruct (ciphertext_write_buf c).
    - set (pl := x :: p) in *. pose proof (pieces_length pl) as Hpl.
      destruct (encrypt_app_data_carries debug key iv Hiv pl (write_seq c) (ciphertext_write_buf c)) as (wire & He & Hw); [lia|lia|].
      exists (write_seq c + Z.of_nat (length (pieces pl))), (ciphertext_write_buf c ++ wire), (pieces pl).
      split; [by rewrite (lift_bind _ _ _ _ He)|]. split.
      { rewrite app_assoc. apply carries_app; [done|]. by rewrite <- Hn. }
      rewrite concat_pieces. split; [done|]. rewrite length_app. split; [lia|]. split; [done|]. intros _ E. apply app_eq_nil in E as [_ ->].
      assert (pieces pl <> []) as Hp by (intros E; pose proof (concat_pieces pl) as E'; rewrite E in E'; done).
      destruct (pieces pl); [done|]. destruct Hw as (ct & rest & Hw & _). pose proof (length_make_record_header (length ct)) as Hh.
      rewrite Hw in *. by destruct (make_record_header (length ct)). }
  exists (set_out seq (drop (k full) full) [] c), full. split.
  { unfold write_tls. rewrite get_bind. erewrite run_bind; [|exact Henc]. rewrite get_bind. cbn [ciphertext_write_buf set_out].
    rewrite (lift_bind _ _ _ (k full)) by done. rewrite (lift_bind _ _ _ (take (k full) full)).
    - rewrite modify_bind. cbn [write_seq plaintext_write_buf set_out]. done.
    - unfold sub_slice. cbn [Nat.leb andb]. rewrite (proj2 (Nat.leb_le _ _)) by apply Hkb. unfold slice. by rewrite drop_0, Nat.sub_0_r. }
  split; [|split; [by eexists _, _, _|done]].
  split; [done|]. split; [done|]. exists (contents ++ more). cbn [ciphertext_write_buf plaintext_write_buf write_seq set_out].
  rewrite <- app_assoc, take_drop, concat_app, Hmore, app_nil_r. rewrite !length_app in *. rewrite Hmore in Hlm. split; [done|]. split; [done|]. split; [done|]. lia.
Qed.

(** ** Draining *)

(** What a draining method leaves: the same stream over the same session, which
    now was given [given]. *)
Definition moved (given : bytes) (s : VisionStream) (w : Tcp) (st' : VisionStream * Tcp) : Prop :=
  exists c w', st' = (set_session c s, w') /\ writes_on given c (sent w') /\ willing (room w') /\ incoming w' = incoming w
    /\ same_reader (session s) c /\ (length (room w') <= length (room w))%nat.

Lemma moved_refl given s w : writes_on given (session s) (sent w) -> willing (room w) -> moved given s w (s, w).
Proof using Type. intros. exists (session s), w. split; [by destruct s|]. split; [done|]. split; [done|]. split; [done|]. split; [apply same_reader_refl|done]. Qed.

Lemma moved_trans given given' s w c w1 st2 : moved given s w (set_session c s, w1) -> moved given' (set_session c s) w1 st2 -> moved given' s w st2.
Proof using L Hiv Hseq0.
  intros (c1 & w1' & E & _ & _ & Hi & Hr & Hl) (c2 & w2 & -> & H1 & H2 & H3 & H4 & H5). apply pair_equal_spec in E as [E1 <-].
  apply (f_equal session) in E1. cbn in E1. subst c1. exists c2, w2. split; [done|]. split; [done|]. split; [done|]. split; [congruence|].
  split; [by eapply same_reader_trans|lia].
Qed.

Lemma write_tls_direct_ok given s w : writes_on given (session s) (sent w) -> in_bounds given -> willing (room w) ->
  wants_write (session s) = true ->
  post (write_tls_direct debug) (s, w) (fun st' p => moved given s w st' /\
    match p with Pending => True | Ready (Ok n) => (0 < n)%nat /\ (length (room (snd st')) < length (room w))%nat | _ => False end).
Proof using L Hiv Hseq0.
  intros Hw Hb Hr Hwant. unfold post, write_tls_direct. pose proof (next_step_ok w Hr) as Hn. destruct (next_step w) as [step room'].
  destruct Hn as (Hr' & Hl & Hstep).
  set (k := fun out : bytes => match step with Took n => Nat.min n (length out) | _ => 0%nat end).
  destruct (write_tls_ok given k (session s) (sent w) Hw Hb) as (c' & full & Hrun & Hw' & Hsame & Hne).
  { intros b. unfold k. destruct step; lia. }
  change (fun out : bytes => Ok (match step with Took n => Nat.min n (length out) | _ => 0%nat end)) with (fun out : bytes => Ok (E := io_error) (k out)).
  rewrite Hrun.
  assert (moved given s w (set_session c' s, mkTcp (incoming w) room' (sent w ++ take (k full) full))) as Hm by (by exists c', (mkTcp (incoming w) room' (sent w ++ take (k full) full))).
  destruct step as [n|e|]; [|done|by split]. split; [done|]. cbn [snd room]. split; [|lia]. rewrite length_take. unfold k.
  specialize (Hne Hwant). destruct full; [done|]. cbn [length]. lia.
Qed.

(** The two ways to drain end with nothing left to write, or wait. *)
Definition drained (given : bytes) (s : VisionStream) (w : Tcp) (st' : VisionStream * Tcp) (p : Poll unit) : Prop :=
  moved given s w st' /\ match p with Pending => True | Ready (Ok _) => wants_write (session (fst st')) = false | _ => False end.

Lemma drain_padding_ok given fuel : in_bounds given -> forall s w, writes_on given (session s) (sent w) -> willing (room w) ->
  pending_plain_writes (wside s) = [] -> (length (room w) < fuel)%nat ->
  post (drain_padding debug fuel) (s, w) (drained given s w).
Proof using L Hiv Hseq0.
  intros Hb. induction fuel as [|fuel IH]; intros s w Hw Hr Hp Hf; [lia|]. cbn [drain_padding]. unfold post. rewrite this_bind.
  destruct (wants_write (session s)) eqn:Ew.
  - apply post_bind. eapply post_mono; [|by apply (write_tls_direct_ok given)]. intros st1 p [Hm Hp1]. destruct p as [|[n|e|]]; [by split| |done|done].
    destruct Hp1 as [Hn Hl]. rewrite (proj2 (Nat.eqb_neq _ _)) by lia. destruct Hm as (c & w1 & -> & Hw1 & Hr1 & Hi1 & Hs1 & Hl1).
    cbn [snd] in Hl. eapply post_mono; [|apply (IH (set_session c s) w1 Hw1 Hr1 Hp); lia]. intros st2 p [Hm2 Hp2]. split; [|done].
    eapply moved_trans; [|exact Hm2]. by exists c, w1.
  - rewrite Hp. cbn [is_nil negb]. split; [by apply moved_refl|done].
Qed.

Lemma drain_all_writes_padding_ok given s w : writes_on given (session s) (sent w) -> in_bounds given -> willing (room w) ->
  pending_plain_writes (wside s) = [] -> post (drain_all_writes_padding debug) (s, w) (drained given s w).
Proof using L Hiv Hseq0. intros Hw Hb Hr Hp. unfold drain_all_writes_padding, post. rewrite tcp_bind. apply drain_padding_ok; try done. lia. Qed.

Lemma drain_tls_ok given fuel : in_bounds given -> forall s w, writes_on given (session s) (sent w) -> willing (room w) ->
  (length (room w) < fuel)%nat -> post (VisionStream.drain_tls debug fuel) (s, w) (drained given s w).
Proof using L Hiv Hseq0.
  intros Hb. induction fuel as [|fuel IH]; intros s w Hw Hr Hf; [lia|]. cbn [VisionStream.drain_tls]. unfold post. rewrite this_bind.
  destruct (wants_write (session s)) eqn:Ew; [|split; [by apply moved_refl|done]].
  apply post_bind. eapply post_mono; [|by apply (write_tls_direct_ok given)]. intros st1 p [Hm Hp1]. destruct p as [|[n|e|]]; [by split| |done|done].
  destruct Hp1 as [Hn Hl]. rewrite (proj2 (Nat.eqb_neq _ _)) by lia. destruct Hm as (c & w1 & -> & Hw1 & Hr1 & Hi1 & Hs1 & Hl1).
  cbn [snd] in Hl. eapply post_mono; [|apply (IH (set_session c s) w1 Hw1 Hr1); lia]. intros st2 p [Hm2 Hp2]. split; [|done].
  eapply moved_trans; [|exact Hm2]. by exists c, w1.
Qed.

Lemma drain_some_ok given fuel : in_bounds given -> forall s w, writes_on given (session s) (sent w) -> willing (room w) ->
  (length (room w) < fuel)%nat -> post (drain_some debug fuel) (s, w) (fun st' p => moved given s w st' /\ exists b, p = Ready (Ok b)).
Proof using L Hiv Hseq0.
  intros Hb. induction fuel as [|fuel IH]; intros s w Hw Hr Hf; [lia|]. cbn [drain_some]. unfold post. rewrite this_bind.
  destruct (wants_write (session s)) eqn:Ew; [|split; [by apply moved_refl|by eexists]].
  apply post_bind. pose proof (write_tls_direct_ok given s w Hw Hb Hr Ew) as H. unfold post, unless_pending in *.
  destruct (write_tls_direct debug (s, w)) as [st1 [|[n|e|]]]; destruct H as [Hm Hp1]; [split; [done|by eexists]| |done|done].
  destruct Hp1 as [Hn Hl]. destruct n as [|n]; [lia|]. destruct Hm as (c & w1 & -> & Hw1 & Hr1 & Hi1 & Hs1 & Hl1).
  cbn [snd] in Hl. eapply post_mono; [|apply (IH (set_session c s) w1 Hw1 Hr1); lia]. intros st2 p [Hm2 Hp2]. split; [|done].
  eapply moved_trans; [|exact Hm2]. by exists c, w1.
Qed.

Lemma write_to_session_ok given data s w : writes_on given (session s) (sent w) -> willing (room w) -> pending_plain_writes (wside s) = [] ->
  exists c, write_to_session data (s, w) = ((set_session c s, w), Ready (Ok tt)) /\ writes_on (given ++ data) c (sent w) /\ same_reader (session s) c.
Proof using Type.
  intros Hw Hr Hp. unfold write_to_session. rewrite this_bind, Hp. cbn [is_nil negb write_session].
  destruct data as [|b data]; cbn [is_nil].
  - exists (session s). rewrite app_nil_r. split; [by destruct s|]. split; [done|apply same_reader_refl].
  - destruct (write_plaintext_ok given (b :: data) (session s) (sent w) Hw) as (c & Hrun & Hw' & Hs). exists c. split; [|done].
    erewrite vbind_ok; [|unfold on_session; rewrite Hrun; reflexivity]. rewrite drop_all. done.
Qed.
End Session.

(** ** The deframer between two calls *)

Lemma next_fuzzy_need memmem_find f : fuzzy_ok f -> snd (next_fuzzy memmem_find f) = Ok NeedData ->
  (Z.of_nat (length (fuzzy_remaining_data f)) <= 18436).
Proof.
  assert (forall d n, announced (buffer d) = Some n -> snd (read_payload d n) = Ok None -> Z.of_nat (length (buffer d)) <= 18436) as Hp.
  { intros d n Ha. pose proof (announced_bounds _ _ Ha) as Hn. unfold read_payload. unfold TlsRecords.MAX_TLS_CIPHERTEXT_LEN, TlsRecords.TLS_RECORD_HEADER_SIZE in *.
    destruct (Z.ltb_spec (Z.of_nat (length (buffer d))) (5 + n)); [lia|done]. }
  assert (forall d, deframer_ok d -> snd (next_record d) = Ok None -> Z.of_nat (length (buffer d)) <= 18436) as Hd.
  { intros [b st] Hd. unfold next_record. cbn [d_state buffer]. destruct st as [|n]; [|by apply (Hp (mkDeframer b (ReadingPayload n)))].
    destruct b as [|ct [|ma [|mi [|l0 [|l1 b]]]]]; [intros _; cbn [length]; lia..|]. destruct (header_error ct ma mi (be_value [l0; l1])) as [e|] eqn:E; [done|].
    apply (Hp (mkDeframer (ct :: ma :: mi :: l0 :: l1 :: b) (ReadingPayload (be_value [l0; l1])))). cbn [announced buffer]. by rewrite E. }
  assert (forall d b st t, deframer_ok d -> snd (deframing (mkFuzzy d b st t)) = Ok NeedData -> Z.of_nat (length (buffer d)) <= 18436) as Hf.
  { intros d b st t Hok. unfold deframing. cbn [inner]. specialize (Hd d Hok). destruct (next_record d) as [d' [[r|]| |]]; cbn [snd] in *; try done. by intros _; apply Hd. }
  destruct f as [d b st t]. intros Hok. unfold next_fuzzy, fuzzy_remaining_data. cbn [f_state search_buffer inner total_prefix_bytes].
  unfold fuzzy_ok in Hok. cbn [f_state inner] in Hok. destruct st; [|by apply Hf].
  case_bool_decide as Hb; [subst b; cbn; lia|]. destruct (if (_ <=? _)%nat then _ else None) as [offset|].
  - destruct (0 <? offset)%nat; [done|]. intros H. apply Hf in H; [|by subst d]. subst d. cbn [feed_deframer buffer new_deframer app] in H. done.
  - destruct (suffix_len_spec b) as (Hk & _). destruct (Nat.ltb_spec (find_potential_tls_suffix_len b) (length b)); [done|]. intros _. lia.
Qed.

(** ** Phases *)

Section Phases.
Context `{A : Aead} {L : AeadLaws A} (debug : bool) (memmem_find : bytes -> bytes -> option nat) (random : nat -> Rng) {RL : forall n, RngLaws (random n)}.
Context (key : AeadKey) (iv : bytes) (seq0 : Z) (resp uuid : bytes) (limit : nat).
Hypothesis Hiv : length iv = 12%nat.
Hypothesis Hseq0 : 0 <= seq0.
Hypothesis Hresp : (length resp <= 2)%nat.
Hypothesis Hlimit : seq0 + 2 + 8200 * Z.of_nat limit + 8200 < 2 ^ 64.

Abbreviation carried := (carries key iv CT_APPLICATION_DATA).
Abbreviation writes_on := (writes_on key iv seq0).

(** The response that a server sends before anything else. *)
Definition head_written (s : VisionStream) : bytes := if vless_response_to_send (wside s) then [] else resp.

(** A block has at most 8192 bytes more than its data. *)
Definition block_size (blocks data : bytes) (rs : ref_state) : Prop :=
  Z.of_nat (length blocks) <= 8200 * Z.of_nat (length data) + match fst rs with CDone _ => 8200 | _ => 0 end.

(** The session was given blocks that say [data] and stop in [rs]. *)
Record blocks_at (data : bytes) (rs : ref_state) (s : VisionStream) (w : Tcp) : Prop := {
  b_given : exists blocks, writes_on (head_written s ++ blocks) (session s) (sent w)
              /\ says uuid (write_first_packet (wside s)) blocks data rs /\ block_size blocks data rs;
  b_plain : pending_plain_writes (wside s) = [];
  b_room : willing (room w);
  b_uuid : user_uuid s = uuid;
  b_head : vless_response_to_send (wside s) = true -> write_first_packet (wside s) = true /\ resp = of_zs [0; 0]
}.

Lemma given_in_bounds blocks data rs s : block_size blocks data rs -> (length data <= limit)%nat -> in_bounds seq0 (head_written s ++ blocks).
Proof using All.
  unfold block_size, in_bounds, head_written. rewrite length_app. intros Hb Hl.
  assert (length (if vless_response_to_send (wside s) then [] else resp) <= 2)%nat by (destruct (vless_response_to_send _); [cbn; lia|done]).
  destruct (fst rs); lia.
Qed.

Lemma pad_length r part u cmd tls : RngLaws r -> (match u with Some u => length u = 16%nat | None => True end) ->
  Z.of_nat (length (pad r part u cmd tls)) <= Z.of_nat (length part) + 8192.
Proof using All.
  intros HL Hu. unfold pad. set (n := calculate_padding_length _ _ _). assert (n <= MAX_PADDING_SIZE)%nat as Hn.
  { subst n. unfold calculate_padding_length. destruct (tls && _); lia. }
  unfold MAX_PADDING_SIZE in Hn. rewrite !length_app, !length_be_bytes, length_random_fill. cbn [length]. destruct u; cbn [length]; lia.
Qed.

(** The phases of the writing side that has taken [T]. *)
Definition padding_phase (T : bytes) (s : VisionStream) (w : Tcp) : Prop :=
  exists data f, blocks_at data (CCommand, f) s w /\ write_mode (wside s) = PaddingTls
    /\ pending_direct_mode_switch (wside s) = false /\ pending_tls_mode_switch (wside s) = false
    /\ fuzzy_ok (inner_write_deframer (wside s)) /\ data ++ fuzzy_remaining_data (inner_write_deframer (wside s)) = T
    /\ Z.of_nat (length (fuzzy_remaining_data (inner_write_deframer (wside s)))) <= 18436.

Definition ended_phase (cmd : UnpadCommand) (T : bytes) (s : VisionStream) (w : Tcp) : Prop :=
  blocks_at T (CDone cmd, false) s w /\ write_mode (wside s) = PaddingTls /\ write_first_packet (wside s) = false
  /\ fuzzy_remaining_data (inner_write_deframer (wside s)) = []
  /\ match cmd with
     | CmdDirect => pending_direct_mode_switch (wside s) = true
     | CmdEnd => pending_direct_mode_switch (wside s) = false /\ pending_tls_mode_switch (wside s) = true
     | CmdContinue => False
     end.

Definition tls_phase (T : bytes) (s : VisionStream) (w : Tcp) : Prop :=
  blocks_at T (CDone CmdEnd, false) s w /\ write_mode (wside s) = Tls /\ write_first_packet (wside s) = false
  /\ fuzzy_remaining_data (inner_write_deframer (wside s)) = [].

Definition direct_phase (T : bytes) (s : VisionStream) (w : Tcp) : Prop :=
  write_mode (wside s) = Direct /\ wants_write (session s) = false /\ willing (room w) /\ fuzzy_remaining_data (inner_write_deframer (wside s)) = [] /\
  exists data raw wire blocks contents, T = data ++ raw /\ sent w = wire ++ raw /\ carried seq0 contents wire
    /\ concat contents = resp ++ blocks /\ says uuid false blocks data (CDone CmdDirect, false).

Definition writer_has (T : bytes) (st : VisionStream * Tcp) : Prop :=
  let '(s, w) := st in
  padding_phase T s w \/ (exists cmd, ended_phase cmd T s w) \/ tls_phase T s w \/ direct_phase T s w.

(** A drained stream is in the same phase. *)
Definition keeps (data : bytes) (rs : ref_state) (s : VisionStream) (st' : VisionStream * Tcp) : Prop :=
  exists c w', st' = (set_session c s, w') /\ blocks_at data rs (set_session c s) w' /\ (length data <= limit)%nat.

Lemma moved_keeps data rs s w blocks st' : blocks_at data rs s w -> (length data <= limit)%nat ->
  says uuid (write_first_packet (wside s)) blocks data rs -> block_size blocks data rs ->
  moved key iv seq0 (head_written s ++ blocks) s w st' -> keeps data rs s st'.
Proof using All.
  intros [_ Hp Hr Hu Hh] Hl Hs Hz (c & w' & -> & Hw & Hr' & _). exists c, w'. split; [done|]. split; [|done]. split; try done. by exists blocks.
Qed.

Lemma drain_padding_keeps data rs s w : blocks_at data rs s w -> (length data <= limit)%nat ->
  post (drain_all_writes_padding debug) (s, w) (fun st' p => keeps data rs s st' /\
    match p with Pending => True | Ready (Ok _) => wants_write (session (fst st')) = false | _ => False end).
Proof using All.
  intros Hat Hl. pose proof Hat as [(blocks & Hw & Hs & Hz) Hp Hr Hu Hh].
  eapply post_mono; [|apply (drain_all_writes_padding_ok debug key iv seq0 Hiv Hseq0 (head_written s ++ blocks) s w Hw); [by eapply given_in_bounds|done|done]].
  intros st' p [Hm Hd]. split; [|exact Hd]. by eapply moved_keeps.
Qed.

Lemma drain_tls_keeps data rs s w : blocks_at data rs s w -> (length data <= limit)%nat ->
  post (drain_all_writes_tls debug) (s, w) (fun st' p => keeps data rs s st' /\
    match p with Pending => True | Ready (Ok _) => wants_write (session (fst st')) = false | _ => False end).
Proof using All.
  intros Hat Hl. pose proof Hat as [(blocks & Hw & Hs & Hz) Hp Hr Hu Hh].
  unfold drain_all_writes_tls, post. rewrite tcp_bind.
  eapply post_mono; [|apply (drain_tls_ok debug key iv seq0 Hiv Hseq0 (head_written s ++ blocks)); [by eapply given_in_bounds|exact Hw|done|lia]].
  intros st' p [Hm Hd]. split; [|exact Hd]. by eapply moved_keeps.
Qed.

Lemma drain_some_keeps data rs s w : blocks_at data rs s w -> (length data <= limit)%nat ->
  post (drain_some debug (length (room w) + 2)) (s, w) (fun st' p => keeps data rs s st' /\ exists b, p = Ready (Ok b)).
Proof using All.
  intros Hat Hl. pose proof Hat as [(blocks & Hw & Hs & Hz) Hp Hr Hu Hh].
  eapply post_mono; [|apply (drain_some_ok debug key iv seq0 Hiv Hseq0 (head_written s ++ blocks)); [by eapply given_in_bounds|exact Hw|done|lia]].
  intros st' p [Hm Hd]. split; [|exact Hd]. by eapply moved_keeps.
Qed.

(** A block is given to the session, by a stream that differs from [s] in other
    fields only. *)
Lemma block_given data f s s1 w part cmd tls r : RngLaws r -> length uuid = 16%nat -> Z.of_nat (length part) < 65536 -> part <> [] \/ cmd <> CmdContinue ->
  blocks_at data (CCommand, f) s w -> vless_response_to_send (wside s) = false ->
  session s1 = session s -> user_uuid s1 = user_uuid s -> pending_plain_writes (wside s1) = [] ->
  vless_response_to_send (wside s1) = false -> write_first_packet (wside s1) = false ->
  exists c, write_to_session (pad r part (if write_first_packet (wside s) then Some (user_uuid s) else None) (command_code cmd) tls) (s1, w)
              = ((set_session c s1, w), Ready (Ok tt))
    /\ blocks_at (data ++ part) (after_block cmd, false) (set_session c s1) w.
Proof using All.
  intros HL Hu16 Hlen Hne [(blocks & Hw & Hs & Hz) Hp Hr Hu Hh] Hsend Es Eu Ep Et Ef.
  set (blk := pad _ _ _ _ _). rewrite <- Es in Hw.
  destruct (write_to_session_ok key iv seq0 _ blk s1 w Hw Hr Ep) as (c & Hrun & Hw' & _). exists c. split; [exact Hrun|].
  pose proof (says_block uuid r _ blocks data f cmd part tls HL Hlen Hs) as Hs'. rewrite <- Hu in Hs'. fold blk in Hs'.
  split; cbn [set_session wside session user_uuid]; try done; [|congruence|congruence].
  exists (blocks ++ blk). rewrite Ef, app_assoc. unfold head_written in *. cbn [set_session wside]. rewrite Hsend in Hw'. rewrite Et.
  split; [done|]. rewrite <- Hu. split; [exact Hs'|].
  assert (Z.of_nat (length blk) <= Z.of_nat (length part) + 8192) as Hbl by (apply pad_length; [done|]; destruct (write_first_packet _); [congruence|done]).
  unfold block_size in *. rewrite !length_app. cbn [fst] in Hz. destruct Hne as [Hne|Hne].
  - assert (0 < length part)%nat by (destruct part; [done|cbn; lia]). destruct (fst (after_block cmd, false)); lia.
  - destruct cmd; [done|cbn [fst after_block]; lia..].
Qed.
(** ** The loop over what the deframer cuts *)

Lemma pad_next_bind {D} part cmd tls (k : bytes -> V D) s w :
  (pad_next random part cmd tls ≫= k) (s, w)
  = k (pad (random (blocks_drawn (wside s))) part (if write_first_packet (wside s) then Some (user_uuid s) else None) cmd tls) (on_writes drawn s, w).
Proof using All. unfold pad_next, mbind, V_bind, this, change, mret, V_ret, pad_with_uuid_and_command, pad_with_command. by destruct (write_first_packet (wside s)). Qed.

Lemma drain_unless_pending data rs s w : blocks_at data rs s w -> (length data <= limit)%nat ->
  post (unless_pending (drain_all_writes_padding debug)) (s, w) (fun st' p => keeps data rs s st' /\ exists o, p = Ready (Ok o)).
Proof using All.
  intros Hat Hl. pose proof (drain_padding_keeps data rs s w Hat Hl) as H. unfold post, unless_pending in *.
  destruct (drain_all_writes_padding debug (s, w)) as [st1 [|[o|e|]]]; destruct H as [Hk Hd]; [by split; [|eexists]|by split; [|eexists]|done|done].
Qed.

(** Where the blocks are does not depend on the other fields. *)
Lemma blocks_at_as data rs s s1 w : session s1 = session s -> user_uuid s1 = user_uuid s ->
  pending_plain_writes (wside s1) = pending_plain_writes (wside s) -> vless_response_to_send (wside s1) = vless_response_to_send (wside s) ->
  write_first_packet (wside s1) = write_first_packet (wside s) -> blocks_at data rs s w -> blocks_at data rs s1 w.
Proof using All.
  intros E1 E2 E3 E4 E5 [(blocks & Hw & Hs & Hz) Hp Hr Hu Hh]. split; [|congruence|done|congruence|by rewrite E4, E5].
  exists blocks. unfold head_written in *. by rewrite E1, E4, E5.
Qed.

Section Loop.
Context (T buf : bytes) (existing : nat).
Hypothesis Huuid : length uuid = 16%nat.
Hypothesis Hbuf : Z.of_nat (length buf) <= 40000.
Hypothesis Hall : (length (T ++ buf) <= limit)%nat.
Hypothesis Hexisting : Z.of_nat existing <= 18436.

(** The answer of a call: what it says is taken is. *)
Definition call_done (st' : VisionStream * Tcp) (p : Poll nat) : Prop :=
  match p with
  | Ready (Ok n) => ((n <= length buf)%nat -> writer_has (T ++ take n buf) st') /\ (existing = 0%nat -> (n <= length buf)%nat)
  | Ready Panic => existing <> 0%nat
  | _ => False
  end.

(** In the loop: [data] is in blocks, the rest of what was taken and of this
    call's buffer is in the deframer. *)
Record in_loop (processed : nat) (data : bytes) (s : VisionStream) (w : Tcp) : Prop := {
  il_at : exists f, blocks_at data (CCommand, f) s w;
  il_sent : vless_response_to_send (wside s) = false;
  il_mode : write_mode (wside s) = PaddingTls;
  il_flags : pending_direct_mode_switch (wside s) = false /\ pending_tls_mode_switch (wside s) = false;
  il_ok : fuzzy_ok (inner_write_deframer (wside s));
  il_data : data ++ fuzzy_remaining_data (inner_write_deframer (wside s)) = T ++ buf;
  il_count : (length data + existing = length T + processed)%nat;
  il_size : Z.of_nat (length (fuzzy_remaining_data (inner_write_deframer (wside s)))) <= 18436 + Z.of_nat (length buf)
}.

(** What is in blocks is what was taken before and the start of the buffer. *)
Lemma data_taken (data rest : bytes) (processed : nat) : data ++ rest = T ++ buf -> (length data + existing = length T + processed)%nat -> (existing <= processed)%nat ->
  data = T ++ take (processed - existing) buf.
Proof using All.
  intros Hd Hc He. apply (f_equal (take (length data))) in Hd. rewrite take_app_length in Hd. rewrite Hd.
  replace (length data) with (length T + (processed - existing))%nat by lia. apply take_app_add.
Qed.

Lemma usize_sub_done processed st : (processed <= length buf + existing)%nat ->
  ((existing <= processed)%nat -> writer_has (T ++ take (processed - existing) buf) st) ->
  post (usize_sub debug processed existing) st call_done.
Proof using All.
  intros Hp H. unfold usize_sub, post. destruct (Nat.leb_spec existing processed) as [Hle|Hgt].
  - split; [intros _; by apply H|lia].
  - destruct debug; cbn [mret V_ret call_done panics answer]; [lia|]. split; [|lia]. intros Hn. exfalso. lia.
Qed.

Lemma processed_bound (data rest : bytes) (processed : nat) : data ++ rest = T ++ buf -> (length data + existing = length T + processed)%nat ->
  (processed <= length buf + existing)%nat.
Proof using All. intros E. apply (f_equal length) in E. rewrite !length_app in E. lia. Qed.

(** The data of an ended phase never grows past the limit. *)
Lemma loop_limit (data rest : bytes) : data ++ rest = T ++ buf -> (length data <= limit)%nat.
Proof using All. intros E. apply (f_equal length) in E. rewrite length_app in E. lia. Qed.

(** The end of the padding, whichever way it comes: the last block goes to the
    session of a stream with the flag set and the deframer as it may be. *)
Lemma last_block data cut rest f s s1 w cmd tls r :
  RngLaws r -> cmd <> CmdContinue -> blocks_at data (CCommand, f) s w -> vless_response_to_send (wside s) = false ->
  data ++ cut ++ rest = T ++ buf -> Z.of_nat (length cut) < 65536 ->
  session s1 = session s -> user_uuid s1 = user_uuid s -> pending_plain_writes (wside s1) = [] -> vless_response_to_send (wside s1) = false -> write_first_packet (wside s1) = false ->
  exists c, write_to_session (pad r cut (if write_first_packet (wside s) then Some (user_uuid s) else None) (command_code cmd) tls) (s1, w)
              = ((set_session c s1, w), Ready (Ok tt))
    /\ blocks_at (data ++ cut) (CDone cmd, false) (set_session c s1) w /\ (length (data ++ cut) <= limit)%nat.
Proof using All.
  intros HL Hc Hat Hs Hd Hlen Es Eu Ep Et Ef.
  destruct (block_given data f s s1 w cut cmd tls r HL Huuid Hlen (or_intror Hc) Hat Hs Es Eu Ep Et Ef) as (c & Hrun & Hat').
  exists c. split; [exact Hrun|]. split; [by destruct cmd|]. rewrite app_assoc in Hd. by eapply loop_limit.
Qed.

(** The state before a cut goes into a block. *)
Record at_cut (processed : nat) (data cut : bytes) (s : VisionStream) (w : Tcp) : Prop := {
  ac_at : exists f, blocks_at data (CCommand, f) s w;
  ac_sent : vless_response_to_send (wside s) = false;
  ac_mode : write_mode (wside s) = PaddingTls;
  ac_flags : pending_direct_mode_switch (wside s) = false /\ pending_tls_mode_switch (wside s) = false;
  ac_ok : fuzzy_ok (inner_write_deframer (wside s));
  ac_data : data ++ cut ++ fuzzy_remaining_data (inner_write_deframer (wside s)) = T ++ buf;
  ac_count : (length (data ++ cut) + existing = length T + processed)%nat;
  ac_size : Z.of_nat (length (cut ++ fuzzy_remaining_data (inner_write_deframer (wside s)))) <= 18436 + Z.of_nat (length buf)
}.

(** After the last block: drain as far as it goes, forget the deframer, answer. *)
Lemma finish_last data cut cmd s w : blocks_at (data ++ cut) (CDone cmd, false) s w -> (length (data ++ cut) <= limit)%nat ->
  write_mode (wside s) = PaddingTls -> write_first_packet (wside s) = false ->
  match cmd with
  | CmdDirect => pending_direct_mode_switch (wside s) = true
  | CmdEnd => pending_direct_mode_switch (wside s) = false /\ pending_tls_mode_switch (wside s) = true
  | CmdContinue => False
  end ->
  post (unless_pending (drain_all_writes_padding debug)) (s, w) (fun st' p =>
    (exists o, p = Ready (Ok o)) /\ ended_phase cmd (data ++ cut) (on_writes (fun w => set_inner_write (clear_fuzzy (inner_write_deframer w)) w) (fst st')) (snd st')).
Proof using All.
  intros Hat Hl Hm Hf Hc. eapply post_mono; [|by apply (drain_unless_pending (data ++ cut) (CDone cmd, false) s w Hat Hl)].
  intros st' p [(c & w' & -> & Hat' & _) Ho]. split; [exact Ho|]. cbn [fst snd]. split; [by eapply blocks_at_as, Hat'|]. done.
Qed.

Lemma send_last_record_ok data cut processed s w : at_cut processed data cut s w -> (0 < processed)%nat ->
  post (send_last_record debug random cut processed existing) (s, w) call_done.
Proof using All.
  intros [(f & Hat) Hs Hm [Hfd Hft] Hok Hd Hn Hz] Hpos. unfold send_last_record, post. rewrite this_bind.
  pose proof (processed_bound (data ++ cut) _ processed ltac:(by rewrite <- app_assoc) Hn) as Hpb.
  assert (Z.of_nat (length cut) < 65536) as Hlen by (rewrite length_app in Hz; lia).
  assert (forall cmd s1, cmd <> CmdContinue -> session s1 = session s -> user_uuid s1 = user_uuid s -> blocks_drawn (wside s1) = blocks_drawn (wside s) ->
    write_first_packet (wside s1) = write_first_packet (wside s) ->
    pending_plain_writes (wside s1) = pending_plain_writes (wside s) -> vless_response_to_send (wside s1) = false -> write_mode (wside s1) = PaddingTls ->
    match cmd with
    | CmdDirect => pending_direct_mode_switch (wside s1) = true
    | CmdEnd => pending_direct_mode_switch (wside s1) = false /\ pending_tls_mode_switch (wside s1) = true
    | CmdContinue => False
    end ->
    post (block ← pad_next random cut (command_code cmd) true;
          _ ← write_to_session block;
          _ ← assert (existing <? processed)%nat;
          _ ← unless_pending (drain_all_writes_padding debug);
          _ ← clear_inner_write;
          usize_sub debug processed existing) (s1, w) call_done) as H.
  { intros cmd s1 Hc Es Eu Eb Ef Ep Et Em Hflag. unfold post. rewrite pad_next_bind, Eb, Ef, Eu.
    destruct (last_block data cut (fuzzy_remaining_data (inner_write_deframer (wside s))) f s (on_writes drawn s1) w cmd true (random (blocks_drawn (wside s)))) as (c & Hrun & Hat' & Hl); try done.
    { cbn. by rewrite Ep, (b_plain _ _ _ _ Hat). }
    erewrite vbind_ok; [|exact Hrun]. unfold assert at 1. destruct (Nat.ltb_spec existing processed) as [Hlt|]; [|cbn [panics answer]; intros E; lia].
    erewrite vbind_ok; [|reflexivity]. apply post_bind. eapply post_mono; [|by apply (finish_last data cut cmd _ w Hat' Hl)].
    intros [s2 w2] p [[o ->] He]. unfold clear_inner_write, post. rewrite change_bind. apply usize_sub_done; [exact Hpb|]. intros Hle.
    pose proof (data_taken (data ++ cut) _ processed ltac:(by rewrite <- app_assoc) Hn Hle) as E. rewrite <- E. right. left. by exists cmd. }
  destruct (supports_xtls (vs_filter s)).
  - erewrite vbind_ok; [|reflexivity]. by apply (H CmdDirect).
  - erewrite vbind_ok; [|reflexivity]. by apply (H CmdEnd).
Qed.
Lemma send_last_prefix_ok data cut processed s w : at_cut processed data cut s w ->
  post (send_last_prefix debug random cut processed existing) (s, w) call_done.
Proof using All.
  intros [(f & Hat) Hs Hm [Hfd Hft] Hok Hd Hn Hz].
  pose proof (processed_bound (data ++ cut) _ processed ltac:(by rewrite <- app_assoc) Hn) as Hpb. unfold send_last_prefix, post. rewrite this_bind, change_bind, pad_next_bind.
  assert (Z.of_nat (length cut) < 65536) as Hlen by (rewrite length_app in Hz; lia).
  unfold clear_inner_write. rewrite change_bind. set (s1 := on_writes _ (on_writes drawn _)).
  destruct (last_block data cut (fuzzy_remaining_data (inner_write_deframer (wside s))) f s s1 w CmdEnd (vf_is_tls (vs_filter s)) (random (blocks_drawn (wside s))))
    as (c & Hrun & Hat' & Hl); try done; [by apply (b_plain _ _ _ _ Hat)|].
  erewrite vbind_ok; [|exact Hrun]. apply post_bind.
  eapply post_mono; [|by apply (drain_unless_pending (data ++ cut) (CDone CmdEnd, false) _ w Hat' Hl)].
  intros st' p [(c' & w' & -> & Hat2 & _) [o ->]]. apply usize_sub_done; [exact Hpb|]. intros Hle.
  pose proof (data_taken (data ++ cut) _ processed ltac:(by rewrite <- app_assoc) Hn Hle) as E. rewrite <- E. right. left. by exists CmdEnd.
Qed.

(** A block within the padding. *)
Lemma send_block_ok data cut processed tls s w : at_cut processed data cut s w -> cut <> [] ->
  post (send_block debug random cut COMMAND_CONTINUE tls) (s, w) (fun st' p =>
    in_loop processed (data ++ cut) (fst st') (snd st') /\ inner_write_deframer (wside (fst st')) = inner_write_deframer (wside s) /\ exists o, p = Ready (Ok o)).
Proof using All.
  intros [(f & Hat) Hs Hm [Hfd Hft] Hok Hd Hn Hz] Hne. unfold send_block, post. rewrite pad_next_bind.
  assert (Z.of_nat (length cut) < 65536) as Hlen by (rewrite length_app in Hz; lia).
  destruct (block_given data f s (on_writes drawn s) w cut CmdContinue tls (random (blocks_drawn (wside s)))) as (c & Hrun & Hat'); try done;
    [by left|by apply (b_plain _ _ _ _ Hat)|].
  change (command_code CmdContinue) with COMMAND_CONTINUE in Hrun. erewrite vbind_ok; [|exact Hrun].
  assert (length (data ++ cut) <= limit)%nat as Hl by (rewrite app_assoc in Hd; by eapply loop_limit).
  eapply post_mono; [|by apply (drain_unless_pending (data ++ cut) _ _ w Hat' Hl)].
  intros st' p [(c' & w' & -> & Hat2 & _) Ho]. split; [|by split]. cbn [fst snd].
  split; try done; [by eexists|by rewrite <- app_assoc|]. cbn [set_session wside on_writes drawn inner_write_deframer]. rewrite length_app in Hz. lia.
Qed.

Lemma send_record_ok data cut processed s w : at_cut processed data cut s w -> cut <> [] ->
  post (send_record debug random cut (length buf) processed existing) (s, w) (fun st' p =>
    match p with
    | Ready (Ok None) => in_loop processed (data ++ cut) (fst st') (snd st') /\ inner_write_deframer (wside (fst st')) = inner_write_deframer (wside s)
    | Ready (Ok (Some n)) => call_done st' (Ready (Ok n))
    | Ready Panic => existing <> 0%nat
    | _ => False
    end).
Proof using All.
  intros Hat Hne. unfold send_record, post. rewrite this_bind. apply post_bind. eapply post_mono; [|by apply send_block_ok].
  intros [s1 w1] p (Hin & Hd & o & ->). destruct o as [o|]; [done|]. apply post_bind. cbn [fst snd] in *.
  destruct Hin as [(f & Ha) Hsn Hmo [Hfd Hft] Hok Hda Hco Hsz]. pose proof (processed_bound _ _ processed Hda Hco) as Hpb.
  pose proof (f_equal length Hda) as Hlen. rewrite !length_app in Hlen. rewrite length_app in Hco.
  assert (forall n m, fuzzy_pending_bytes (inner_write_deframer (wside s1)) = m \/ existing <> 0%nat ->
    ((n <= length buf)%nat -> n = (processed - existing)%nat /\ (existing <= processed)%nat) -> (existing = 0%nat -> (n <= length buf)%nat) ->
    post (s ← this;
          _ ← assert (fuzzy_pending_bytes (inner_write_deframer (wside s)) =? m)%nat;
          _ ← clear_inner_write;
          mret (Some n)) (s1, w1) (fun st' p =>
      match p with
      | Ready (Ok None) => in_loop processed (data ++ cut) (fst st') (snd st') /\ inner_write_deframer (wside (fst st')) = inner_write_deframer (wside s)
      | Ready (Ok (Some n)) => call_done st' (Ready (Ok n))
      | Ready Panic => existing <> 0%nat
      | _ => False
      end)) as H.
  { intros n m Hm Hn H0. unfold post. rewrite this_bind. unfold assert. destruct (Nat.eqb_spec (fuzzy_pending_bytes (inner_write_deframer (wside s1))) m); [|by destruct Hm].
    erewrite vbind_ok; [|reflexivity]. unfold clear_inner_write. rewrite change_bind. split; [|exact H0]. intros Hle. destruct (Hn Hle) as [-> He].
    rewrite <- length_app in Hco. pose proof (data_taken _ _ processed Hda Hco He) as E. rewrite <- E. left. exists (data ++ cut), f.
    split; [by eapply blocks_at_as, Ha|]. split; [done|]. split; [done|]. split; [done|]. split; [apply clear_fuzzy_ok|].
    cbn [wside on_writes set_inner_write inner_write_deframer]. split; [change (fuzzy_remaining_data (clear_fuzzy _)) with (@nil ascii); apply app_nil_r|done]. }
  unfold usize_sub, post at 1. destruct (Nat.leb_spec existing processed) as [Hle|Hgt].
  - cbn [mret V_ret]. apply post_bind. unfold post at 1. rewrite (proj2 (Nat.leb_le _ _)) by lia. cbn [mret V_ret].
    apply H; [left; rewrite fuzzy_pending_length; lia|lia..].
  - destruct debug; [cbn [panics answer]; lia|]. cbn [mret V_ret]. apply post_bind. unfold post at 1. rewrite (proj2 (Nat.leb_gt _ _)) by lia.
    cbn [mret V_ret]. apply H; [right; lia|lia..].
Qed.

Lemma send_invalid_ok data processed s w : in_loop processed data s w -> post (send_invalid debug random (length buf)) (s, w) call_done.
Proof using All.
  intros [(f & Hat) Hs Hm [Hfd Hft] Hok Hd Hn Hz]. unfold send_invalid, send_block, post. rewrite !change_bind, this_bind. cbn [wside on_writes set_vs_filter set_tls_switch].
  set (cut := fuzzy_remaining_data _) in *. cbn [inner_write_deframer] in cut. fold cut in Hd, Hz.
  assert (Z.of_nat (length cut) < 65536) as Hlen by lia.
  set (s1 := set_vs_filter _ _). rewrite <- (app_nil_r cut) in Hd.
  destruct (last_block data cut [] f s (on_writes drawn s1) w CmdEnd (vf_is_tls (vs_filter s1)) (random (blocks_drawn (wside s)))) as (c & Hrun & Hat' & Hl); try done;
    [by apply (b_plain _ _ _ _ Hat)|].
  apply post_bind. unfold post. rewrite pad_next_bind. cbn [s1 wside on_writes set_vs_filter set_tls_switch write_first_packet user_uuid blocks_drawn]. erewrite vbind_ok; [|exact Hrun].
  eapply post_mono; [|by apply (drain_unless_pending (data ++ cut) (CDone CmdEnd, false) _ w Hat' Hl)].
  intros st' p [(c' & w' & -> & Hat2 & _) [o ->]]. unfold clear_inner_write, post. rewrite change_bind. split; [intros _|done]. rewrite firstn_all.
  rewrite app_nil_r in Hd. rewrite <- Hd. right. left. exists CmdEnd. split; [by eapply blocks_at_as, Hat2|]. done.
Qed.

Lemma padding_loop_ok fuel : forall processed data s w, in_loop processed data s w ->
  (length (fuzzy_remaining_data (inner_write_deframer (wside s))) < fuel)%nat ->
  post (padding_loop debug memmem_find random fuel (length buf) existing processed) (s, w) call_done.
Proof using All.
  induction fuel as [|fuel IH]; intros processed data s w Hin Hf; [lia|]. pose proof Hin as [(f & Hat) Hs Hm Hfl Hok Hd Hn Hz].
  cbn [padding_loop]. unfold post. rewrite this_bind. pose proof (next_fuzzy_ok memmem_find _ Hok) as Hnext.
  pose proof (next_fuzzy_need memmem_find _ Hok) as Hneed.
  destruct (next_fuzzy memmem_find (inner_write_deframer (wside s))) as [d r]. destruct Hnext as [Hok' Hr]. rewrite change_bind.
  assert (forall cut (g : VisionFilter -> VisionFilter), fuzzy_remaining_data (inner_write_deframer (wside s)) = cut ++ fuzzy_remaining_data d ->
    at_cut (processed + length cut) data cut (set_vs_filter (g (vs_filter s)) (on_writes (set_inner_write d) s)) w) as Hcut.
  { intros cut g E. rewrite E in *. split; try done; [exists f; by eapply blocks_at_as, Hat|]. rewrite length_app. lia. }
  destruct r as [[cut|cut|]|e|]; [| | | |done].
  - destruct Hr as [Hc Hne]. rewrite change_bind, this_bind. specialize (Hcut cut (fun f => filter_record f cut) Hc).
    change (vs_filter (on_writes (set_inner_write d) s)) with (vs_filter s) in *. set (s1 := set_vs_filter _ _) in *.
    destruct (_ || _); [eapply send_last_record_ok; [exact Hcut|]; destruct cut; [done|cbn; lia]|]. apply post_bind. eapply post_mono; [|by eapply send_record_ok].
    intros [s2 w2] p Hp. destruct p as [|[[n|]|e|]]; [done|exact Hp| |done|exact Hp]. destruct Hp as [Hin2 Hd2].
    eapply IH; [exact Hin2|]. cbn [fst] in Hd2. rewrite Hd2. cbn [s1 wside set_vs_filter on_writes set_inner_write inner_write_deframer]. rewrite Hc, length_app in Hf.
    destruct cut; [done|]. cbn [length] in Hf. lia.
  - destruct Hr as [Hc Hne]. rewrite change_bind, this_bind. specialize (Hcut cut decrement_filter_count Hc).
    change (vs_filter (on_writes (set_inner_write d) s)) with (vs_filter s) in *. set (s1 := set_vs_filter _ _) in *.
    destruct (is_filtering _); [|by eapply send_last_prefix_ok]. apply post_bind. eapply post_mono; [|by eapply send_block_ok].
    intros [s2 w2] p (Hin2 & Hd2 & o & ->).
    eapply IH; [exact Hin2|]. cbn [fst] in Hd2. rewrite Hd2. cbn [s1 wside set_vs_filter on_writes set_inner_write inner_write_deframer]. rewrite Hc, length_app in Hf.
    destruct cut; [done|]. cbn [length] in Hf. lia.
  - split; [intros _|done]. rewrite firstn_all. left. exists data, f. split; [by eapply blocks_at_as, Hat|]. split; [done|]. split; [apply Hfl|]. split; [apply Hfl|].
    cbn [wside on_writes set_inner_write inner_write_deframer]. rewrite Hr. split; [done|]. split; [done|]. by apply Hneed.
  - apply (send_invalid_ok data processed). split; try done; [exists f; by eapply blocks_at_as, Hat| |];
      cbn [wside on_writes set_inner_write inner_write_deframer]; by rewrite Hr.
Qed.
End Loop.

(** ** A call *)

Section Write.
Context (T buf : bytes).
Hypothesis Huuid : length uuid = 16%nat.
Hypothesis Hbuf : Z.of_nat (length buf) <= 40000.
Hypothesis Hall : (length (T ++ buf) <= limit)%nat.

(** What a call leaves and answers, with [held] bytes in the deframer before. *)
Definition wrote (held : nat) (st' : VisionStream * Tcp) (p : Poll nat) : Prop :=
  match p with
  | Ready (Ok n) => ((n <= length buf)%nat -> writer_has (T ++ take n buf) st') /\ (held = 0%nat -> (n <= length buf)%nat)
  | Pending => writer_has T st'
  | Ready Panic => held <> 0%nat
  | Ready (Err _) => False
  end.

Lemma call_done_wrote held st' p : call_done T buf held st' p -> wrote held st' p.
Proof using Type. destruct p as [|[n|e|]]; done. Qed.

(** In the TLS mode the session takes everything, whatever TCP does. *)
Lemma tls_bytes_given data s w : tls_phase data s w -> (length (data ++ buf) <= limit)%nat ->
  exists c, write_plaintext buf (session s) = (c, Ok (length buf)) /\ tls_phase (data ++ buf) (set_session c s) w.
Proof using All.
  intros ([(blocks & Hw & Hs & Hz) Hp Hr Hu Hh] & Hm & Hf & Hd) Hl.
  destruct (write_plaintext_ok key iv seq0 _ buf (session s) (sent w) Hw) as (c & Hrun & Hw' & _). exists c. split; [exact Hrun|].
  split; [|done]. split; cbn [set_session wside user_uuid]; try done. exists (blocks ++ buf). rewrite Hf in *.
  unfold head_written in *. cbn [set_session wside session]. rewrite app_assoc. split; [done|]. split; [by apply says_tail|].
  unfold block_size in *. rewrite !length_app. cbn [fst] in *. lia.
Qed.

Lemma tls_phase_keeps data s c w' w : tls_phase data s w -> blocks_at data (CDone CmdEnd, false) (set_session c s) w' -> tls_phase data (set_session c s) w'.
Proof using All. intros (_ & Hm & Hf & Hd) Hat. done. Qed.

Lemma write_tls_loop_end fuel : (0 < fuel)%nat -> write_tls_loop debug fuel buf (length buf) = mret (length buf).
Proof using All. destruct fuel; [lia|]. intros _. cbn [write_tls_loop]. by rewrite Nat.leb_refl. Qed.

Lemma poll_write_tls_ok s w : tls_phase T s w -> post (poll_write_tls debug buf) (s, w) (fun st' p =>
  (forall held, wrote held st' p) /\ match p with Ready (Ok n) => n = length buf | Ready _ => False | Pending => buf = [] end).
Proof using All.
  intros Ht. unfold poll_write_tls. cbn [write_tls_loop]. unfold post. destruct (Nat.leb_spec (length buf) 0) as [H0|H0].
  { split; [|cbn; lia]. intros held. split; [intros _|cbn; lia]. cbn [mret V_ret take]. rewrite app_nil_r. by right; right; left. }
  rewrite drop_0. destruct (tls_bytes_given T s w Ht Hall) as (c & Hrun & Ht').
  erewrite vbind_ok; [|unfold on_session; rewrite Hrun; reflexivity]. rewrite tcp_bind. apply post_bind.
  pose proof Ht' as (Hat & _). eapply post_mono; [|apply (drain_some_keeps (T ++ buf) _ _ w Hat Hall)].
  intros [s2 w2] p [(c' & w' & E & Hat2 & _) [b ->]]. apply pair_equal_spec in E as [-> ->]. cbn [Nat.add].
  assert (writer_has (T ++ take (length buf) buf) (set_session c' (set_session c s), w')) as Hwr.
  { rewrite firstn_all. right. right. left. by eapply tls_phase_keeps. }
  destruct b.
  - rewrite (proj2 (Nat.eqb_neq _ _)) by lia. unfold post. cbn [mret V_ret]. split; [intros held; split; [intros _; exact Hwr|done]|done].
  - unfold post. rewrite write_tls_loop_end by lia. cbn [mret V_ret]. split; [intros held; split; [intros _; exact Hwr|done]|done].
Qed.

Lemma tcp_write_ok s w : direct_phase T s w -> post (tcp_write buf) (s, w) (fun st' p => forall held, wrote held st' p).
Proof using All.
  intros (Hm & Hwant & Hr & Hd & data & raw & wire & blocks & contents & HT & Hs & Hc & Hb & Hsay). unfold post, tcp_write.
  pose proof (next_step_ok w Hr) as Hn. destruct (next_step w) as [step room']. destruct Hn as (Hr' & _ & Hstep). destruct step as [n|e|]; [|done|].
  - intros held. split; [intros _|rewrite length_take; lia]. right. right. right. split; [done|]. split; [done|]. split; [done|]. split; [done|]. rewrite length_take.
    exists data, (raw ++ take n buf), wire, blocks, contents. cbn [sent]. rewrite Hs, !app_assoc.
    split; [|done]. by rewrite <- take_take, firstn_all, HT.
  - intros held. right. right. right. split; [done|]. split; [done|]. split; [done|]. split; [done|]. by exists data, raw, wire, blocks, contents.
Qed.

(** The response goes first. *)
Lemma head_given s w : padding_phase T s w -> post (if vless_response_to_send (wside s) then
    _ ← write_to_session (of_zs [0; 0]); change (on_writes set_response_sent) else mret tt) (s, w)
  (fun st' p => p = Ready (Ok tt) /\ exists s', st' = (s', w) /\ padding_phase T s' w /\ vless_response_to_send (wside s') = false
    /\ inner_write_deframer (wside s') = inner_write_deframer (wside s)).
Proof using All.
  intros Hp. pose proof Hp as (data & f & [(blocks & Hw & Hs & Hz) Hpl Hr Hu Hh] & Hm & Hfd & Hft & Hok & Hd & Hn).
  destruct (vless_response_to_send (wside s)) eqn:Es; [|split; [done|by exists s]].
  destruct (Hh eq_refl) as [Hf Er]. rewrite Hf in Hs. destruct Hs as (-> & -> & [= ->]). unfold post.
  destruct (write_to_session_ok key iv seq0 _ (of_zs [0; 0]) s w Hw Hr Hpl) as (c & Hrun & Hw' & _). erewrite vbind_ok; [|exact Hrun].
  split; [done|]. eexists. split; [reflexivity|]. split; [|done]. exists [], true. split; [|done].
  split; cbn; try done. exists []. unfold head_written in *. rewrite Es in Hw'. rewrite Hf, Er. done.
Qed.

(** What is waiting goes first. *)
Lemma drained_first data rs s w : blocks_at data rs s w -> (length data <= limit)%nat ->
  post (if negb (is_nil (pending_plain_writes (wside s))) || wants_write (session s) then drain_all_writes_padding debug else mret tt) (s, w)
    (fun st' p => keeps data rs s st' /\ match p with Pending => True | Ready (Ok _) => wants_write (session (fst st')) = false | _ => False end).
Proof using All.
  intros Hat Hl. rewrite (b_plain _ _ _ _ Hat). cbn [is_nil negb orb]. destruct (wants_write (session s)) eqn:E; [by apply drain_padding_keeps|].
  split; [|done]. exists (session s), w. split; [by destruct s|]. split; [by destruct s|done].
Qed.

Lemma keeps_phase data rs s st' : keeps data rs s st' -> exists c w', st' = (set_session c s, w') /\ blocks_at data rs (set_session c s) w'.
Proof using All. intros (c & w' & -> & Hat & _). by exists c, w'. Qed.

(** The switch to the direct mode finds nothing left to encrypt. *)
Lemma direct_entered name s w : ended_phase CmdDirect T s w -> wants_write (session s) = false ->
  post (_ ← change (on_writes (set_direct_switch false)); switch_write name Direct) (s, w) (fun '(s', w') p => p = Ready (Ok tt) /\ direct_phase T s' w').
Proof using All.
  intros ([(blocks & (Hs & Hk & contents & Hc & Hg & _) & Hsay & _) Hp Hr Hu Hh] & Hm & Hf & Hd & _) Hwant.
  assert (ciphertext_write_buf (session s) = [] /\ plaintext_write_buf (session s) = []) as [Ec Ep].
  { unfold wants_write in Hwant. by destruct (ciphertext_write_buf (session s)), (plaintext_write_buf (session s)). }
  rewrite Ec, app_nil_r in Hc. rewrite Ep, app_nil_r in Hg. rewrite Hf in Hsay.
  assert (head_written s = resp) as Eh by (unfold head_written; destruct (vless_response_to_send _); [destruct (Hh eq_refl); congruence|done]).
  rewrite Eh in Hg.
  unfold switch_write, post. rewrite change_bind, this_bind. cbn [wside on_writes set_direct_switch write_mode].
  rewrite Hm. cbn [negb bool_decide]. rewrite bool_decide_eq_true_2 by done. cbn [negb]. rewrite change_bind.
  unfold post_padding_cleanup. rewrite this_bind. cbn [wside rside on_writes set_write_mode write_mode read_mode].
  rewrite (bool_decide_eq_false_2 (Direct = PaddingTls)) by done. rewrite orb_false_r.
  destruct (bool_decide _); (split; [done|]); (split; [done|]); (split; [done|]); (split; [done|]).
  - split; [exact Hd|]. exists T, [], (sent w), blocks, contents. by rewrite !app_nil_r.
  - split; [cbn; unfold fuzzy_remaining_data, deallocate_fuzzy; cbn; by destruct (f_state _)|]. exists T, [], (sent w), blocks, contents. by rewrite !app_nil_r.
Qed.

Lemma tls_entered name s w : ended_phase CmdEnd T s w ->
  post (_ ← change (on_writes (set_tls_switch false)); switch_write name Tls) (s, w) (fun '(s', w') p => p = Ready (Ok tt) /\ tls_phase T s' w').
Proof using All.
  intros (Hat & Hm & Hf & Hd & _). unfold switch_write, post. rewrite change_bind, this_bind. cbn [wside on_writes set_tls_switch write_mode].
  rewrite Hm. rewrite bool_decide_eq_true_2 by done. cbn [negb]. rewrite change_bind.
  unfold post_padding_cleanup. rewrite this_bind. cbn [wside rside on_writes set_write_mode write_mode read_mode].
  rewrite (bool_decide_eq_false_2 (Tls = PaddingTls)) by done. rewrite orb_false_r. pose proof (b_plain _ _ _ _ Hat) as Hp.
  destruct (bool_decide _); (split; [done|]);
    (split; [eapply blocks_at_as, Hat; first [done|cbn; by rewrite Hp]|]); (split; [done|]); (split; [done|]); [done|].
  cbn. unfold fuzzy_remaining_data, deallocate_fuzzy. cbn. by destruct (f_state _).
Qed.

Lemma vbind_assoc {B D E} (m : V B) (f : B -> V D) (g : D -> V E) st : ((m ≫= f) ≫= g) st = (m ≫= (fun a => f a ≫= g)) st.
Proof using Type. unfold mbind, V_bind. by destruct (m st) as [st1 [|[a|e|]]]. Qed.

Lemma writing_padded_ok s w : padding_phase T s w -> post (poll_write_padding_tls debug memmem_find random buf) (s, w)
  (wrote (length (fuzzy_remaining_data (inner_write_deframer (wside s))))).
Proof using All.
  intros Hp. unfold poll_write_padding_tls, post. rewrite this_bind. apply post_bind. eapply post_mono; [|by apply (head_given s w)].
  intros st1 p (-> & s1 & -> & Hp1 & Hsent & <-). clear s Hp. rename s1 into s, Hp1 into Hp. pose proof Hp as (data & f & Hat & Hm & Hfd & Hft & Hok & Hd & Hn).
  assert (length data <= limit)%nat as Hl by (rewrite length_app, <- Hd, length_app in Hall; lia).
  unfold post. rewrite this_bind. apply post_bind. eapply post_mono; [|by apply (drained_first data _ s w Hat)].
  intros st2 p [Hk Hdr]. apply keeps_phase in Hk as (c & w2 & -> & Hat2). destruct p as [|[u|e|]]; [|clear Hdr|done|done].
  { left. exists data, f. done. }
  rewrite Hfd, Hft. unfold post. rewrite change_bind. rewrite !fuzzy_pending_length. rewrite length_app, <- Hd, length_app in Hall.
  destruct (feed_fuzzy_ok (inner_write_deframer (wside s)) buf Hok) as [Hok' Hd'].
  eapply post_mono; [|apply (padding_loop_ok T buf (length (fuzzy_remaining_data (inner_write_deframer (wside s)))) Huuid Hbuf) with (data := data)].
  - intros st3 p. apply call_done_wrote.
  - rewrite length_app, <- Hd, length_app. lia.
  - lia.
  - split; try done; [exists f; by eapply blocks_at_as, Hat2| | |]; cbn [wside on_writes set_session set_inner_write inner_write_deframer];
      [rewrite Hd'; by rewrite app_assoc, Hd|rewrite <- Hd, length_app; lia|rewrite Hd', length_app; lia].
  - cbn [wside on_writes set_session set_inner_write inner_write_deframer]. rewrite Hd', length_app. lia.
Qed.

(** After the last block: what is left of it first, then the other mode. *)
Lemma writing_ended_ok cmd s w : ended_phase cmd T s w -> post (poll_write_padding_tls debug memmem_find random buf) (s, w) (fun st' p => forall held, wrote held st' p).
Proof using All.
  intros He. pose proof He as (Hat & Hm & Hf & Hd & Hc). pose proof Hat as [_ _ _ _ Hh].
  assert (vless_response_to_send (wside s) = false) as Hs by (destruct (vless_response_to_send _); [destruct (Hh eq_refl); congruence|done]).
  assert (length T <= limit)%nat as Hl by (rewrite length_app in Hall; lia).
  unfold poll_write_padding_tls, post. rewrite this_bind, Hs. erewrite vbind_ok; [|reflexivity]. rewrite this_bind. apply post_bind.
  eapply post_mono; [|by apply (drained_first T _ s w Hat)]. intros st2 p [Hk Hdr]. apply keeps_phase in Hk as (c & w2 & -> & Hat2).
  assert (ended_phase cmd T (set_session c s) w2) as He2 by done.
  destruct p as [|[u|e|]]; [right; left; by exists cmd| |done|done]. cbn [fst] in Hdr. destruct cmd; [done| |].
  - destruct Hc as [-> ->]. cbv match. unfold post. rewrite <- (vbind_assoc (change _) (fun _ => switch_write_to_tls_mode) (fun _ => poll_write_tls debug buf)). apply post_bind.
    eapply post_mono; [|by apply tls_entered]. intros [s3 w3] p [-> Ht]. eapply post_mono; [|by apply poll_write_tls_ok]. intros st4 p [H _]. apply H.
  - rewrite Hc. cbv match. unfold post. rewrite <- (vbind_assoc (change _) (fun _ => switch_write_to_direct_mode) (fun _ => tcp_write buf)). apply post_bind.
    eapply post_mono; [|by apply direct_entered]. intros [s3 w3] p [-> Ht]. by apply tcp_write_ok.
Qed.

(** A call in any phase. *)
Lemma vision_poll_write_ok st : writer_has T st -> post (poll_write debug memmem_find random buf) st
  (wrote (length (fuzzy_remaining_data (inner_write_deframer (wside (fst st)))))).
Proof using All.
  destruct st as [s w]. unfold poll_write, post. rewrite this_bind. intros [H|[[cmd H]|[H|H]]].
  - pose proof H as (_ & _ & _ & -> & _). by apply writing_padded_ok.
  - pose proof H as (_ & -> & _). eapply post_mono; [|by apply (writing_ended_ok cmd)]. intros st' p Hp. apply Hp.
  - pose proof H as (_ & -> & _). eapply post_mono; [|by apply poll_write_tls_ok]. intros st' p [Hp _]. apply Hp.
  - pose proof H as (-> & _). eapply post_mono; [|by apply tcp_write_ok]. intros st' p Hp. apply Hp.
Qed.

Lemma poll_flush_ok st : writer_has T st -> post (poll_flush debug) st (fun st' p => writer_has T st' /\
  match p with Ready (Ok _) => wants_write (session (fst st')) = false | Pending => True | _ => False end).
Proof using All.
  destruct st as [s w]. unfold poll_flush, post. rewrite this_bind. assert (length T <= limit)%nat as Hl by (rewrite length_app in Hall; lia).
  intros [H|[[cmd H]|[H|H]]].
  - pose proof H as (data & f & Hat & Hm & Hfd & Hft & Hok & Hd & Hn). rewrite Hm. eapply post_mono; [|apply (drain_padding_keeps data _ s w Hat)].
    + intros st' p [Hk Hp]. apply keeps_phase in Hk as (c & w2 & -> & Hat2). split; [left; by exists data, f|]. destruct p as [|[u|e|]]; done.
    + rewrite <- Hd, length_app in Hl. lia.
  - pose proof H as (Hat & Hm & _). rewrite Hm. destruct H as (_ & H). eapply post_mono; [|apply (drain_padding_keeps T _ s w Hat Hl)].
    intros st' p [Hk Hp]. apply keeps_phase in Hk as (c & w2 & -> & Hat2). split; [right; left; exists cmd; by split|]. destruct p as [|[u|e|]]; done.
  - pose proof H as (Hat & Hm & _). rewrite Hm. eapply post_mono; [|apply (drain_tls_keeps T _ s w Hat Hl)].
    intros st' p [Hk Hp]. apply keeps_phase in Hk as (c & w2 & -> & Hat2). split; [right; right; left; by eapply tls_phase_keeps|]. destruct p as [|[u|e|]]; done.
  - pose proof H as (E & Hwant & _). rewrite E. split; [by right; right; right|done].
Qed.
End Write.
End Phases.

(** ** Sequences of calls *)

Inductive VisionCall : Type := CallWrite (buf : bytes) | CallFlush.

Definition call_buf (c : VisionCall) : bytes := match c with CallWrite buf => buf | CallFlush => [] end.

Definition vision_call `{Aead} (debug : bool) (memmem_find : bytes -> bytes -> option nat) (random : nat -> Rng) (c : VisionCall) : V nat :=
  match c with
  | CallWrite buf => poll_write debug memmem_find random buf
  | CallFlush => _ ← poll_flush debug; mret 0%nat
  end.

(** What a call says is taken is within its buffer. *)
Definition sound_answer (c : VisionCall) (p : Poll nat) : bool :=
  match p with Ready (Ok n) => (n <=? length (call_buf c))%nat | Pending => true | _ => false end.

(** The caller stops when an answer is not. *)
Fixpoint vision_calls `{Aead} (debug : bool) (memmem_find : bytes -> bytes -> option nat) (random : nat -> Rng) (calls : list VisionCall)
    (st : VisionStream * Tcp) : VisionStream * Tcp * list (Poll nat) :=
  match calls with
  | [] => (st, [])
  | c :: calls =>
      let '(st, p) := vision_call debug memmem_find random c st in
      if sound_answer c p then let '(st, ps) := vision_calls debug memmem_find random calls st in (st, p :: ps) else (st, [p])
  end.

Definition call_taken (c : VisionCall) (p : Poll nat) : bytes := match p with Ready (Ok n) => take n (call_buf c) | _ => [] end.

Definition said_taken (calls : list VisionCall) (ps : list (Poll nat)) : bytes := concat (zip_with call_taken calls ps).

Definition held (s : VisionStream) : bytes := fuzzy_remaining_data (inner_write_deframer (wside s)).

Definition asked (calls : list VisionCall) : nat := length (concat (map call_buf calls)).

(** The first call whose answer is not sound, after sound ones: it panics, or
    says that more was taken than its buffer holds, and it is a write that found
    bytes in the deframer which the calls before it had left there. *)
Definition stopped_by_held_bytes `{Aead} (debug : bool) (memmem_find : bytes -> bytes -> option nat) (random : nat -> Rng) (calls : list VisionCall)
    (st : VisionStream * Tcp) (ps : list (Poll nat)) : Prop :=
  exists calls1 buf calls2 st1 ps1 p, calls = calls1 ++ CallWrite buf :: calls2
    /\ vision_calls debug memmem_find random calls1 st = (st1, ps1) /\ Forall2 sound_answer calls1 ps1
    /\ held (fst st1) <> []
    /\ snd (poll_write debug memmem_find random buf st1) = p /\ ps = ps1 ++ [p]
    /\ (p = Ready Panic \/ exists n, p = Ready (Ok n) /\ (length buf < n)%nat).

Section Calls.
Context `{A : Aead} {L : AeadLaws A} (debug : bool) (memmem_find : bytes -> bytes -> option nat) (random : nat -> Rng) {RL : forall n, RngLaws (random n)}.
Context (key : AeadKey) (iv : bytes) (seq0 : Z) (resp uuid : bytes) (limit : nat).
Hypothesis Hiv : length iv = 12%nat.
Hypothesis Hseq0 : 0 <= seq0.
Hypothesis Hresp : (length resp <= 2)%nat.
Hypothesis Hlimit : seq0 + 2 + 8200 * Z.of_nat limit + 8200 < 2 ^ 64.
Hypothesis Huuid : length uuid = 16%nat.

Abbreviation writer_has := (writer_has key iv seq0 resp uuid).

Lemma vision_call_ok c T st : writer_has T st -> Z.of_nat (length (call_buf c)) <= 40000 -> (length (T ++ call_buf c) <= limit)%nat ->
  post (vision_call debug memmem_find random c) st (fun st' p =>
    if sound_answer c p then writer_has (T ++ call_taken c p) st'
    else held (fst st) <> [] /\ exists buf, c = CallWrite buf /\ (p = Ready Panic \/ exists n, p = Ready (Ok n) /\ (length buf < n)%nat)).
Proof using All.
  intros Hw Hb Hl. destruct c as [buf|]; cbn [call_buf] in *.
  - eapply post_mono; [|by eapply (vision_poll_write_ok debug memmem_find random key iv seq0 resp uuid limit)].
    intros st' [|[n|e|]]; cbn [sound_answer call_taken call_buf wrote]; [by rewrite app_nil_r| |done|].
    + intros [H1 H2]. destruct (Nat.leb_spec n (length buf)) as [Hle|Hgt]; [by apply H1|]. split; [|exists buf; split; [done|right; by exists n]].
      intros Hh. unfold held in Hh. rewrite Hh in H2. specialize (H2 eq_refl). lia.
    + intros H. split; [|exists buf; split; [done|by left]]. unfold held. intros E. by rewrite E in H.
  - apply post_bind. eapply post_mono; [|by eapply (poll_flush_ok debug memmem_find random key iv seq0 resp uuid limit) with (buf := [])].
    intros st' [|[n|e|]] [H1 H2]; [| |done|done]; unfold post; cbn; by rewrite app_nil_r.
Qed.

Lemma vision_calls_ok calls : forall T st, writer_has T st -> Forall (fun c => Z.of_nat (length (call_buf c)) <= 40000) calls ->
  (length T + asked calls <= limit)%nat ->
  let '(st', ps) := vision_calls debug memmem_find random calls st in
  (forall e, Ready (Err e) ∉ ps) /\
  (Forall2 sound_answer calls ps -> writer_has (T ++ said_taken calls ps) st') /\
  (~ Forall2 sound_answer calls ps -> stopped_by_held_bytes debug memmem_find random calls st ps).
Proof using All.
  unfold asked. induction calls as [|c calls IH]; intros T st Hw Hf Hl.
  { cbn. split; [intros e H; by apply elem_of_nil in H|]. split; [intros _; by rewrite app_nil_r|]. intros H. by destruct H. }
  apply Forall_cons in Hf as [Hc Hf]. cbn [map concat] in Hl. rewrite length_app in Hl.
  pose proof (vision_call_ok c T st Hw Hc ltac:(rewrite length_app; lia)) as H. cbn [vision_calls]. unfold post in H.
  destruct (vision_call debug memmem_find random c st) as [st1 p] eqn:Est. destruct (sound_answer c p) eqn:Es.
  - assert (length (call_taken c p) <= length (call_buf c))%nat as Ht by (destruct p as [|[n|e|]]; cbn [call_taken length]; rewrite ?length_take; lia).
    specialize (IH _ st1 H Hf ltac:(rewrite length_app; lia)). destruct (vision_calls debug memmem_find random calls st1) as [st2 ps] eqn:Ec.
    destruct IH as (H1 & H2 & H3). split; [|split].
    + intros e He. apply elem_of_cons in He as [<-|He]; [done|by apply (H1 e)].
    + intros Hs. apply Forall2_cons in Hs as [_ Hs]. specialize (H2 Hs). by rewrite <- app_assoc in H2.
    + intros Hs. destruct H3 as (calls1 & buf & calls2 & st' & ps1 & q & -> & Hr & Hs1 & Hh & Hq & -> & Hc'); [intros Hs2; apply Hs; constructor; [by rewrite Es|done]|].
      exists (c :: calls1), buf, calls2, st', (p :: ps1), q. split; [done|]. cbn [vision_calls]. rewrite Est, Es, Hr.
      split; [done|]. split; [constructor; [by rewrite Es|done]|]. by repeat (split; [done|]).
  - destruct H as (Hh & buf & -> & Hp). split; [|split].
    + intros e He. apply list_elem_of_singleton in He as <-. destruct Hp as [?|(n & ? & _)]; discriminate.
    + intros Hs. apply Forall2_cons in Hs as [Hs _]. by rewrite Es in Hs.
    + intros _. exists [], buf, calls, st, [], p. split; [done|]. split; [done|]. split; [by constructor|]. split; [exact Hh|].
      cbn [vision_call] in Est. rewrite Est. by repeat (split; [done|]).
Qed.
End Calls.

(** Records of the session carry blocks that say [T], but for what the deframer
    holds and what went directly. *)
Definition carried_by_tcp `{Aead} (key : AeadKey) (iv : bytes) (seq0 : Z) (uuid T : bytes) (s : VisionStream) (w : Tcp) : Prop :=
  exists wire raw contents first data state,
    sent w ++ ciphertext_write_buf (session s) = wire ++ raw /\ carries key iv CT_APPLICATION_DATA seq0 contents wire
    /\ says uuid first (concat contents ++ plaintext_write_buf (session s)) data state
    /\ T = data ++ held s ++ raw
    /\ (raw <> [] -> write_mode (wside s) = Direct /\ state = (CDone CmdDirect, false)).

Lemma nothing_waits c : wants_write c = false -> ciphertext_write_buf c = [] /\ plaintext_write_buf c = [].
Proof. unfold wants_write. by destruct (ciphertext_write_buf c), (plaintext_write_buf c). Qed.

Lemma blocks_are_carried `{A : Aead} key iv seq0 uuid data rs s w : blocks_at key iv seq0 [] uuid data rs s w ->
  carried_by_tcp key iv seq0 uuid (data ++ held s) s w.
Proof.
  intros [(blocks & (_ & _ & contents & Hc & Hg & _) & Hsay & _) _ _ _ _].
  assert (head_written [] s = []) as Eh by (unfold head_written; by destruct (vless_response_to_send _)). rewrite Eh in Hg.
  exists (sent w ++ ciphertext_write_buf (session s)), [], contents, (write_first_packet (wside s)), data, rs.
  rewrite !app_nil_r, Hg. done.
Qed.

Lemma what_is_carried `{A : Aead} key iv seq0 uuid T s w : writer_has key iv seq0 [] uuid T (s, w) -> carried_by_tcp key iv seq0 uuid T s w.
Proof.
  intros [H|[[cmd H]|[H|H]]].
  - destruct H as (data & f & Hat & _ & _ & _ & _ & <- & _). by eapply blocks_are_carried.
  - destruct H as (Hat & _ & _ & Hd & _). apply blocks_are_carried in Hat. unfold held in Hat. by rewrite Hd, app_nil_r in Hat.
  - destruct H as (Hat & _ & _ & Hd). apply blocks_are_carried in Hat. unfold held in Hat. by rewrite Hd, app_nil_r in Hat.
  - destruct H as (Hm & Hw & _ & Hd & data & raw & wire & blocks & contents & -> & Hs & Hc & Hb & Hsay).
    apply nothing_waits in Hw as [Ec Ep]. exists wire, raw, contents, false, data, (CDone CmdDirect, false).
    unfold held. by rewrite Ec, Ep, Hd, !app_nil_r, Hb.
Qed.

(** C19. What the TCP stream and the session's buffer hold is records that carry
    blocks, and what follows the switch to the direct mode. The blocks say, with
    what is still held to be looked at and what went directly, the bytes that the
    calls said were taken, in order. No call fails while TCP takes what it is
    given. The first call that panics, or says that more was taken than its
    buffer holds, is a write before which, all earlier calls having gone well,
    the deframer held bytes that they left there; so a write that finds nothing
    held never does, nor does a flush. *)
Theorem vision_writes_are_carried `{A : Aead} {L : AeadLaws A} (debug : bool) (memmem_find : bytes -> bytes -> option nat) (random : nat -> Rng)
    (c : Connection) (key : AeadKey) (iv uuid : bytes) (arriving : list Piece) (room : list WriteStep) (calls : list VisionCall)
    (Hrandom : forall n, RngLaws (random n)) (Huuid : length uuid = 16%nat) (Hiv : length iv = 12%nat)
    (Hc : handshake_state c = Complete /\ app_write c = Some (key, iv) /\ wants_write c = false)
    (Hseq : 0 <= write_seq c /\ write_seq c + 2 + 8200 * Z.of_nat (asked calls) + 8200 < 2 ^ 64)
    (Hroom : willing room) (Hcalls : Forall (fun c => Z.of_nat (length (call_buf c)) <= 40000) calls) :
  let '((s, w), ps) := vision_calls debug memmem_find random calls (new_client c uuid, mkTcp arriving room []) in
  (forall e, Ready (Err e) ∉ ps) /\
  (Forall2 sound_answer calls ps -> carried_by_tcp key iv (write_seq c) uuid (said_taken calls ps) s w) /\
  (~ Forall2 sound_answer calls ps ->
     stopped_by_held_bytes debug memmem_find random calls (new_client c uuid, mkTcp arriving room []) ps).
Proof.
  destruct Hc as (Hs & Hk & Hw), Hseq as [Hseq0 Hseq]. apply nothing_waits in Hw as [Ec Ep].
  pose proof (vision_calls_ok debug memmem_find random key iv (write_seq c) [] uuid (asked calls) Hiv Hseq0 ltac:(cbn; lia) Hseq Huuid calls []
    (new_client c uuid, mkTcp arriving room [])) as H.
  destruct (vision_calls _ _ _ calls _) as [[s w] ps]. destruct H as (H1 & H2 & H3); [|done|cbn; lia|].
  { left. exists [], true. split; [|done]. split; try done. exists []. split; [|done]. split; [done|]. split; [done|]. exists [].
    cbn. rewrite Ec, Ep. split; [done|]. split; [done|]. split; lia. }
  split; [done|]. split; [|done]. intros Hf. by apply what_is_carried, H2.
Qed.

(** ** Concrete streams *)

(** A session that has finished its handshake. *)
Definition toy_session : Connection :=
  mkConnection toy_config Complete None (Some (mkAeadKey AES_128_GCM_SHA256 (be_bytes 16 7), be_bytes 12 9)) 0 0 (sb_new []) [] (sb_new []) [] false None.

Definition toy_writes (debug : bool) (calls : list VisionCall) (room : list WriteStep) : VisionStream * Tcp * list (Poll nat) :=
  vision_calls (H := toy_aead) debug find_str (fun _ => no_padding) calls (new_client toy_session (lit "0123456789abcdef"), mkTcp [] room []).

(** Seven bytes that are no TLS, and what follows. *)
Definition after_seven (rest : list bytes) : list VisionCall := map CallWrite (replicate 7 (lit "x") ++ rest).

Lemma vision_writes_are_carried_witness :
  let calls := after_seven [lit "the end of the padding, "; lit "the rest"] ++ [CallFlush] in
  let '((s, w), ps) := toy_writes true calls (NotNow :: replicate 20 (Took 50)) in
  ps = map (fun n => Ready (Ok n)) [1; 1; 1; 1; 1; 1; 1; 24; 8; 0]%nat /\ write_mode (wside s) = Tls /\
  carried_by_tcp (H := toy_aead) (mkAeadKey AES_128_GCM_SHA256 (be_bytes 16 7)) (be_bytes 12 9) 0 (lit "0123456789abcdef") (lit "xxxxxxxthe end of the padding, the rest") s w.
Proof.
  intros calls. pose proof (vision_writes_are_carried (A := toy_aead) true find_str (fun _ => no_padding) toy_session
    (mkAeadKey AES_128_GCM_SHA256 (be_bytes 16 7)) (be_bytes 12 9) (lit "0123456789abcdef") [] (NotNow :: replicate 20 (Took 50)) calls
    (fun _ => no_padding_laws) eq_refl eq_refl (conj eq_refl (conj eq_refl eq_refl)) ltac:(split; [done|vm_compute; reflexivity])) as H.
  unfold toy_writes. destruct (vision_calls _ _ _ calls _) as [[s w] ps] eqn:E.
  assert (write_mode (wside s) = Tls /\ ps = map (fun n => Ready (Ok n)) [1; 1; 1; 1; 1; 1; 1; 24; 8; 0]%nat) as [Hm ->].
  { vm_compute in E. injection E as <- <- <-. done. }
  split; [reflexivity|]. split; [exact Hm|]. destruct H as (_ & H & _).
  - repeat (apply Forall_cons; split; [repeat constructor|]). by apply Forall_nil.
  - repeat (apply Forall_cons; split; [vm_compute; done|]). by apply Forall_nil.
  - apply H. repeat constructor.
Defined.

(** A record that ends within the bytes an earlier call left: the assertion that
    a last record is longer than those does not hold. *)
Lemma record_inside_held_bytes_panics :
  snd (toy_writes false (after_seven [of_zs [22; 3; 1; 0; 0]; of_zs [1]]) (replicate 20 (Took 1000)))
  = replicate 7 (Ready (Ok 1%nat)) ++ [Ready (Ok 5%nat); Ready Panic].
Proof. vm_compute. done. Qed.

(** The same with bytes that turn out not to be TLS: the difference of the two
    lengths is below zero. *)
Lemma prefix_inside_held_bytes_underflows :
  snd (toy_writes true (after_seven [of_zs [22; 3; 3; 22; 3]; of_zs [3; 0; 5; 1]]) (replicate 20 (Took 1000)))
  = replicate 7 (Ready (Ok 1%nat)) ++ [Ready (Ok 5%nat); Ready Panic].
Proof. vm_compute. done. Qed.

(** In the TLS mode a call takes all of its buffer though TCP takes nothing. *)
Lemma tls_mode_takes_without_room :
  let '((s, w), ps) := toy_writes true (after_seven [lit "end"; lit "and"; lit "more"; lit "and more"]) (replicate 8 (Took 1000)) in
  write_mode (wside s) = Tls /\ skipn 8 ps = map (fun n => Ready (Ok n)) [3; 4; 8]%nat /\ room w = []
  /\ (0 < length (ciphertext_write_buf (session s)))%nat.
Proof. vm_compute. repeat split; lia. Qed.
