(* ===== verification/VisionRead.v ===== *)
(** * What a Vision stream reads

    The reading side of [VisionStream.v], in all its modes: for any pieces in
    which the records of the other end arrive, and any buffers of the caller,
    what is handed out is what the blocks say, then what follows them in the
    session or directly. *)

From S2P Require Import Prelude RustStr NetAddr NetIo AsyncRead FrameReader VisionPad TlsRecords FuzzyTls VisionFilter VisionBlocks VisionPlain.
From S2P Require Import SlideBuffer Aead RealityRecords RealityKeys RealityMessages RealityClient RealityPeer RealityData RealityStream VisionStream VisionWrite.

(** ** Records in the outer deframer *)

Section Outer.
Context `{A : Aead} {L : AeadLaws A} (key : AeadKey) (iv : bytes).

Abbreviation carried := (carries key iv CT_APPLICATION_DATA).

Lemma record_complete ct : (length ct <= RealityRecords.MAX_TLS_CIPHERTEXT_LEN)%nat -> complete (make_record_header (length ct) ++ ct).
Proof using Type.
  intros Hl. unfold RealityRecords.MAX_TLS_CIPHERTEXT_LEN in Hl. exists (Z.of_nat (length ct)). split.
  - unfold make_record_header. destruct (be_bytes 2 (Z.of_nat (length ct))) as [|a [|b [|]]] eqn:E;
      pose proof (length_be_bytes 2 (Z.of_nat (length ct))) as H; rewrite E in H; try done.
    cbn [app announced]. rewrite <- E, be_value_be_bytes_small by lia. unfold header_error. rewrite !val8_to_u8.
    change (_ || _) with false at 1. cbn iota. unfold TlsRecords.MAX_TLS_CIPHERTEXT_LEN. by rewrite (proj2 (Z.ltb_ge _ _)) by lia.
  - rewrite length_app, length_make_record_header. unfold TlsRecords.TLS_RECORD_HEADER_SIZE, RealityRecords.TLS_RECORD_HEADER_SIZE. lia.
Qed.

(** What the deframer has next of a stream of records and what follows them. *)
Lemma outer_next d later seq todo wire raw : deframer_ok d -> carried seq todo wire -> buffer d ++ later = wire ++ raw -> (todo = [] -> raw = []) ->
  exists d', deframer_ok d' /\
    ((next_record d = (d', Ok None) /\ buffer d' = buffer d /\ partial (buffer d) /\ (length (buffer d) <= RealityRecords.TLS_MAX_RECORD_SIZE)%nat)
     \/ exists record content todo' wire', next_record d = (d', Ok (Some record)) /\ buffer d = record ++ buffer d' /\ wire = record ++ wire'
          /\ todo = content :: todo' /\ carried seq [content] record /\ carried (seq + 1) todo' wire' /\ buffer d' ++ later = wire' ++ raw
          /\ (length record <= RealityRecords.TLS_MAX_RECORD_SIZE)%nat /\ complete record).
Proof using L.
  assert (RealityRecords.TLS_MAX_RECORD_SIZE = Z.to_nat 16645) as Hmax by reflexivity. rewrite Hmax. clear Hmax. intros Hd Hc Hb Hr. destruct todo as [|content todo]; cbn [carries] in Hc.
  - subst wire. rewrite Hr in Hb by done. apply app_eq_nil in Hb as [Hb _].
    destruct (next_record_partial d Hd) as (d' & Hn & Hd' & Hb'); [rewrite Hb; left; cbn; unfold TlsRecords.TLS_RECORD_HEADER_SIZE; lia|].
    exists d'. split; [done|]. left. split; [done|]. split; [done|]. rewrite Hb. split; [|cbn; lia]. left. cbn. unfold TlsRecords.TLS_RECORD_HEADER_SIZE. lia.
  - destruct Hc as (ct & rest & -> & Hl & Hdec & Hc). pose proof (record_complete ct Hl) as Hcomp. rewrite app_assoc in Hb |- *.
    assert (length (make_record_header (length ct) ++ ct) <= Z.to_nat 16645)%nat as Hlr.
    { rewrite length_app, length_make_record_header. unfold RealityRecords.MAX_TLS_CIPHERTEXT_LEN, RealityRecords.TLS_RECORD_HEADER_SIZE in *. lia. }
    set (record := make_record_header (length ct) ++ ct) in *. rewrite <- app_assoc in Hb. apply app_eq_app in Hb as (k & [[E1 E2]|[E1 E2]]).
    + rewrite (next_record_complete d record k Hd E1 Hcomp). exists (mkDeframer k ReadingHeader). split; [done|]. right. exists record, content, todo, rest.
      cbn [buffer]. split_and!; try done. cbn [carries]. exists ct, []. unfold record. rewrite app_nil_r. done.
    + destruct k as [|b k].
      * rewrite app_nil_r in E1. rewrite (next_record_complete d record [] Hd); [|by rewrite app_nil_r|done].
        exists (mkDeframer [] ReadingHeader). split; [done|]. right. exists record, content, todo, rest. cbn [buffer]. rewrite app_nil_r. split_and!; try done.
        cbn [carries]. exists ct, []. unfold record. rewrite app_nil_r. done.
      * assert (partial (buffer d)) as Hp by (apply (partial_prefix _ (b :: k)); left; by exists record).
        destruct (next_record_partial d Hd Hp) as (d' & Hn & Hd' & Hb'). exists d'. split; [done|]. left.
        split_and!; try done. apply (f_equal length) in E1. rewrite length_app in E1. lia.
Qed.

Lemma partial_front p : partial p -> front_of p = None.
Proof using Type.
  unfold front_of, partial, TlsRecords.TLS_RECORD_HEADER_SIZE, RealityRecords.TLS_RECORD_HEADER_SIZE. intros H.
  destruct (Nat.ltb_spec (length p) 5) as [|H5]; [done|]. destruct H as [|(n & Ha & Hl)]; [lia|].
  destruct p as [|a [|b [|c [|x [|y p]]]]]; cbn [length] in H5; try lia. cbn [announced] in Ha. destruct (header_error _ _ _ _); [done|].
  injection Ha as <-. change (slice 3 5 (a :: b :: c :: x :: y :: p)) with [x; y]. by rewrite (proj2 (Nat.ltb_lt _ _)) by lia.
Qed.
End Outer.

(** ** The session *)

Section Reads.
Context `{A : Aead} {L : AeadLaws A} `{C : Crypto} (x509 : bytes -> res str (bytes * bytes)) (debug : bool)
  (memmem_find : bytes -> bytes -> option nat) (key : AeadKey) (iv : bytes).

Abbreviation carried := (carries key iv CT_APPLICATION_DATA).
Abbreviation MAX_RECORD := RealityRecords.TLS_MAX_RECORD_SIZE.

(** The session has read up to number [seq]; it holds a part of a record, and
    plaintext that nobody has taken. *)
Record session_at (seq : Z) (part here : bytes) (c : Connection) : Prop := {
  sa_reading : reading key iv c;
  sa_seq : read_seq c = seq;
  sa_part : buffered (ciphertext_read_buf c) part;
  sa_here : buffered (plaintext_read_buf c) here
}.

(** Feeding and processing: whole records become plaintext. *)
Lemma fed data seq part got whole part' s w : session_at seq part [] (session s) -> (length part + length data <= CAP)%nat -> (length data <= MAX_RECORD)%nat ->
  part ++ data = whole ++ part' -> front_of part' = None -> carried seq got whole -> (length (concat got) <= CAP)%nat ->
  exists c, feed_and_process x509 debug data (s, w) = ((set_session c s, w), Ready (Ok (length (concat got))))
    /\ session_at (seq + Z.of_nat (length got)) part' (concat got) c.
Proof using L.
  intros [Hr Hs Hp Hh] Hl Hd E Hf Hc Hg. destruct (feed_fits debug data (session s) part Hp Hl Hd) as (b & Hfeed & Hb). rewrite E in Hb.
  destruct (process_ok debug key iv x509 (set_cin b (session s)) got whole part') as (cin & pin & Hrun & Hcin & Hpin); try done.
  { cbn [read_seq set_cin]. by rewrite Hs. }
  eexists. split.
  - unfold feed_and_process. erewrite vbind_ok; [|unfold on_session; rewrite Hfeed; reflexivity].
    unfold process_session, invalid_data, on_session. cbn [session set_session]. rewrite Hrun. reflexivity.
  - split; [exact Hr| |exact Hcin|exact Hpin]. cbn [read_seq set_read_seq set_cin]. by rewrite Hs.
Qed.

Lemma set_session_set c c' s : set_session c (set_session c' s) = set_session c s.
Proof using Type. done. Qed.

(** Taking all the plaintext there is. *)
Lemma taken on_none on_empty seq part here s w : session_at seq part here (session s) ->
  exists c, read_session debug on_none on_empty (length here) (s, w) = ((set_session c s, w), Ready (Ok here)) /\ session_at seq part [] c.
Proof using Type.
  intros [Hr Hs Hp [room Hh]].
  assert (exists room1, stands_for CAP (maybe_compact (plaintext_read_buf (session s)) 4096) (mkQueue here room1)) as [room1 Hs1].
  { unfold maybe_compact. destruct (_ <? _)%nat; [|by eexists]. eexists. exact (compact_ok CAP _ _ Hh). }
  unfold read_session. erewrite vbind_ok; [|reflexivity]. cbv beta. set (b1 := maybe_compact _ _) in *. clearbody b1.
  destruct (stands_for_len CAP _ _ Hs1) as (Hlen & Hem & _). cbn [q_bytes] in Hlen.
  destruct here as [|x here].
  - cbn [length]. eexists. split; [reflexivity|]. split; [exact Hr|exact Hs|exact Hp|by eexists].
  - cbn [length take_plaintext Nat.eqb]. rewrite this_bind. unfold fill_buf. cbn [session set_session plaintext_read_buf set_pin q_bytes] in *.
    assert (sb_is_empty b1 = false) as -> by (apply Nat.leb_gt; cbn [length] in Hem; lia). cbn [negb].
    assert (as_slice b1 = Ok (x :: here)) as ->.
    { unfold as_slice. rewrite Hem. rewrite (front_ok CAP b1 (mkQueue (x :: here) room1)) by first [exact Hs1|cbn; lia]. cbn [q_bytes]. by rewrite firstn_all. }
    cbn [mbind res_bind]. unfold ok_of, answer. erewrite vbind_ok; [|reflexivity].
    destruct (consume_ok debug CAP b1 (mkQueue (x :: here) room1) (length (x :: here)) Hs1) as (b2 & Hb2 & Hs2); [done|].
    erewrite vbind_ok.
    2: { unfold on_session. cbn [session set_session]. unfold reader_consume. rewrite get_bind. cbn [plaintext_read_buf set_pin].
         rewrite Hlen, Nat.min_id, (lift_bind _ _ _ b2) by exact Hb2. reflexivity. }
    cbn [length]. rewrite Nat.sub_diag.
    assert (forall fuel, take_plaintext debug on_none on_empty fuel 0 = mret []) as Hz by (by destruct fuel). rewrite Hz. unfold mbind, V_bind, mret, V_ret. cbv match.
    rewrite app_nil_r. eexists. split; [reflexivity|]. unfold q_drop in Hs2. cbn [q_bytes q_room] in Hs2. rewrite drop_all in Hs2.
    split; [exact Hr|exact Hs|exact Hp|by eexists].
Qed.

(** ** Padded bytes *)

(** Before the UUID, or within the blocks. *)
Definition unpadder_at (uuid : bytes) (p : option ref_state) : VisionUnpadder :=
  match p with None => new_unpadder uuid | Some s => resting s end.

(** [b] takes the unpadder to a state and gives [o]. *)
Definition unpads (uuid : bytes) (p : option ref_state) (b : bytes) (rs : ref_state) (o : bytes) : Prop :=
  match p with
  | Some s => ref_ok s /\ ~ finished s /\ ref_run s b = Ok (rs, o)
  | None => exists v, b = uuid ++ v /\ ref_run (CCommand, true) v = Ok (rs, o)
  end.

Lemma unpads_app uuid p part s1 o1 b rs o : unpads uuid p part s1 o1 -> ref_run s1 b = Ok (rs, o) -> unpads uuid p (part ++ b) rs (o1 ++ o).
Proof using Type.
  intros Hu Hr. destruct p as [s|]; [destruct Hu as (H1 & H2 & Hu); split; [done|]; split; [done|]|destruct Hu as (v & -> & Hu); exists (v ++ b); rewrite app_assoc; split; [done|]];
    by rewrite ref_run_app, Hu; cbn [mbind res_bind]; rewrite Hr.
Qed.

Lemma unpads_part uuid p part later rs o : length uuid = 16%nat -> unpads uuid p (part ++ later) rs o -> (p = None -> (16 <= length part)%nat) ->
  exists s1 o1 o2, unpad (unpadder_at uuid p) part = Ok (resting s1, Ok (mkUnpadResult o1 (result_command s1))) /\ o = o1 ++ o2 /\ unpads uuid p part s1 o1 /\
    match fst s1 with
    | CDone c => c <> CmdContinue /\ o2 = later
    | _ => unpads uuid (Some s1) later rs o2
    end.
Proof using Type.
  intros Huuid Hu Hpart.
  assert (forall s v, ref_ok s -> ~ finished s -> ref_run s (v ++ later) = Ok (rs, o) -> unpad (unpadder_at uuid p) part = unpad (resting s) v ->
    (forall s' o', ref_run s v = Ok (s', o') -> unpads uuid p part s' o') ->
    exists s1 o1 o2, unpad (unpadder_at uuid p) part = Ok (resting s1, Ok (mkUnpadResult o1 (result_command s1))) /\ o = o1 ++ o2 /\ unpads uuid p part s1 o1 /\
      match fst s1 with
      | CDone c => c <> CmdContinue /\ o2 = later
      | _ => unpads uuid (Some s1) later rs o2
      end) as H.
  { intros s v Hok Hnf Hrun Hun Hback. destruct (unpad_part s v later rs o Hok Hnf Hrun) as (s1 & o1 & o2 & H1 & -> & Hok1 & Hv & Hnext).
    exists s1, o1, o2. rewrite Hun. split; [done|]. split; [done|]. split; [by apply Hback|].
    destruct s1 as [[] f1]; cbn [fst] in *; [by destruct Hnext..|done]. }
  destruct p as [s|]; cbn [unpads unpadder_at] in *.
  - destruct Hu as (H1 & H2 & H3). by apply (H s part).
  - destruct Hu as (v & E & Hr). specialize (Hpart eq_refl).
    assert (exists v1, part = uuid ++ v1 /\ v = v1 ++ later) as (v1 & -> & ->).
    { apply app_eq_app in E as (k & [[E1 E2]|[E1 E2]]); [by exists k|].
      assert (length k = 0%nat) as Hk by (pose proof (f_equal length E1) as E3; rewrite length_app in E3; lia). apply nil_length_inv in Hk as ->.
      rewrite app_nil_r in E1. exists []. rewrite app_nil_r. cbn [app] in *. by subst. }
    apply (H (CCommand, true) v1); [done|by intros []|done|by apply unpad_initial|]. intros s' o' Hr'. by exists v1.
Qed.

(** The filter takes its records out of what was unpadded; nothing else changes. *)
Lemma filter_cuts_ok fuel : forall s w, fuzzy_ok (inner_read_deframer (rside s)) ->
  (length (fuzzy_remaining_data (inner_read_deframer (rside s))) < fuel)%nat ->
  exists f d, filter_cuts memmem_find fuel (s, w) = ((on_reads (set_inner_read d) (set_vs_filter f s), w), Ready (Ok tt)) /\ fuzzy_ok d.
Proof using Type.
  induction fuel as [|fuel IH]; intros s w Hok Hf; [lia|]. cbn [filter_cuts]. rewrite this_bind.
  pose proof (next_fuzzy_ok memmem_find _ Hok) as Hn. destruct (next_fuzzy memmem_find (inner_read_deframer (rside s))) as [d r].
  destruct Hn as [Hok' Hr]. rewrite change_bind.
  assert (forall cut g, fuzzy_remaining_data (inner_read_deframer (rside s)) = cut ++ fuzzy_remaining_data d -> cut <> [] ->
    exists f d', filter_cuts memmem_find fuel (set_vs_filter (g (vs_filter s)) (on_reads (set_inner_read d) s), w)
      = ((on_reads (set_inner_read d') (set_vs_filter f s), w), Ready (Ok tt)) /\ fuzzy_ok d') as Hgo.
  { intros cut g E Hne. destruct (IH (set_vs_filter (g (vs_filter s)) (on_reads (set_inner_read d) s)) w) as (f & d' & Hrun & Hd'); [exact Hok'| |].
    - cbn [rside set_vs_filter on_reads set_inner_read inner_read_deframer]. rewrite E, length_app in Hf. destruct cut; [done|]. cbn [length] in Hf. lia.
    - exists f, d'. rewrite Hrun. by split. }
  destruct r as [[cut|cut|]|e|]; [| | | |done].
  - destruct Hr as [E Hne]. rewrite change_bind, this_bind. cbn [vs_filter set_vs_filter on_reads]. destruct (is_filtering _).
    + by apply (Hgo cut (fun f => filter_record f cut)).
    + exists (filter_record (vs_filter s) cut), d. done.
  - destruct Hr as [E Hne]. destruct cut as [|x cut]; [done|]. cbn [is_nil]. rewrite change_bind. by apply (Hgo (x :: cut) decrement_filter_count).
  - exists (vs_filter s), d. split; [by destruct s as [a b c0 [] e]|done].
  - exists (stop_filtering (vs_filter s)), d. done.
Qed.

(** The padding phase over the outer deframer [d]; the session has nothing left. *)
Record padded (uuid : bytes) (p : option ref_state) (seq : Z) (d : TlsDeframer) (s : VisionStream) : Prop := {
  pp_mode : read_mode (rside s) = PaddingTls;
  pp_outer : outer_read_deframer (rside s) = Some d;
  pp_ok : deframer_ok d;
  pp_unpadder : read_unpadder (rside s) = unpadder_at uuid p;
  pp_inner : fuzzy_ok (inner_read_deframer (rside s));
  pp_session : session_at seq [] [] (session s);
  pp_room : (0 < tls_read_buffer (rside s))%nat
}.

(** What unpadding does not touch. *)
Definition same_reads (s s1 : VisionStream) : Prop :=
  pending_read (rside s1) = pending_read (rside s) /\ is_read_eof (rside s1) = is_read_eof (rside s)
  /\ vless_response_pending (rside s1) = vless_response_pending (rside s).

Lemma filter_unpadded_ok unpadded s w : fuzzy_ok (inner_read_deframer (rside s)) ->
  exists f d, filter_unpadded memmem_find unpadded (s, w) = ((on_reads (set_inner_read d) (set_vs_filter f s), w), Ready (Ok tt)) /\ fuzzy_ok d.
Proof using Type.
  intros Hok. unfold filter_unpadded. rewrite this_bind. destruct (_ && _).
  - rewrite change_bind, this_bind. destruct (feed_fuzzy_ok _ unpadded Hok) as [Hok' _].
    destruct (filter_cuts_ok (S (S (fuzzy_pending_bytes (inner_read_deframer (rside (on_reads (fun r => set_inner_read (feed_fuzzy (inner_read_deframer r) unpadded) r) s))))))
      (on_reads (fun r => set_inner_read (feed_fuzzy (inner_read_deframer r) unpadded) r) s) w) as (f & d & Hrun & Hd); [exact Hok'|rewrite fuzzy_pending_length; lia|].
    exists f, d. rewrite Hrun. by split.
  - exists (vs_filter s), (inner_read_deframer (rside s)). split; [by destruct s as [a b c0 [] e]|done].
Qed.

Lemma unpadding_ok uuid p part later rs o seq d s w : length uuid = 16%nat -> padded uuid p seq d s -> unpads uuid p (part ++ later) rs o ->
  (p = None -> (16 <= length part)%nat) ->
  exists s1 o1 o2 s', o = o1 ++ o2 /\ unpads uuid p part s1 o1
    /\ match fst s1 with CDone c => c <> CmdContinue /\ o2 = later | _ => unpads uuid (Some s1) later rs o2 end
    /\ handle_padded_bytes x509 debug memmem_find part (s, w) = follow_command x509 debug o1 (result_command s1) (s', w)
    /\ padded uuid (Some s1) seq d s' /\ same_reads s s'.
Proof using Type.
  intros Huuid [H1 H2 H3 H4 H5 H6 H7] Hu Hfirst. destruct (unpads_part uuid p part later rs o Huuid Hu Hfirst) as (s1 & o1 & o2 & Hun & -> & Hu1 & Hnext).
  set (s2 := on_reads (set_unpadder (resting s1)) s).
  destruct (filter_unpadded_ok o1 s2 w) as (f & d' & Hrun & Hd'); [exact H5|].
  exists s1, o1, o2, (on_reads (set_inner_read d') (set_vs_filter f s2)). split; [done|]. split; [done|]. split; [done|]. split; [|by split].
  unfold handle_padded_bytes. rewrite this_bind, H4, Hun. unfold ok_of, answer. erewrite vbind_ok; [|reflexivity]. cbv beta match. rewrite change_bind.
  erewrite vbind_ok; [|reflexivity]. cbn [content command]. fold s2. erewrite vbind_ok; [|exact Hrun]. done.
Qed.

(** ** The phases *)

Section Phases.
Context (uuid data : bytes).
Hypothesis Huuid : length uuid = 16%nat.

(** The blocks that are still to come: before the first part the whole UUID comes
    at once, and what follows a final [Direct] is not in records. *)
Record blocks_left (p : option ref_state) (todo : list bytes) (raw : bytes) (rs : ref_state) (o : bytes) : Prop := {
  bl_says : (p = None /\ todo = [] /\ o = [] /\ raw = []) \/ unpads uuid p (concat todo) rs o;
  bl_first : p = None -> match todo with [] => True | c :: _ => (16 <= length c)%nat end;
  bl_direct : forall c1 c2 f o', todo = c1 ++ c2 -> unpads uuid p (concat c1) (CDone CmdDirect, f) o' -> c2 = [];
  bl_raw : raw <> [] -> exists f, rs = (CDone CmdDirect, f)
}.

(** [pre] has been handed out or is pending. *)
Definition padding_at (pre : bytes) (s : VisionStream) (inner : list Piece) : Prop :=
  exists p seq d todo wire raw rs o, padded uuid p seq d s /\ vless_response_pending (rside s) = false /\ carried seq todo wire
    /\ buffer d ++ arriving inner = wire ++ raw /\ blocks_left p todo raw rs o /\ pre ++ o ++ raw = data /\ partial (buffer d)
    /\ (is_read_eof (rside s) = true -> arriving inner = []).

Definition tls_at (pre : bytes) (s : VisionStream) (inner : list Piece) : Prop :=
  read_mode (rside s) = Tls /\ exists seq todo part here, session_at seq part here (session s) /\ front_of part = None /\ (length part <= MAX_RECORD)%nat
    /\ carried seq todo (part ++ arriving inner) /\ pre ++ here ++ concat todo = data /\ (is_read_eof (rside s) = true -> arriving inner = []).

Definition direct_at (pre : bytes) (s : VisionStream) (inner : list Piece) : Prop :=
  read_mode (rside s) = Direct /\ pre ++ arriving inner = data.

Definition phase_at (pre : bytes) (s : VisionStream) (inner : list Piece) : Prop := padding_at pre s inner \/ tls_at pre s inner \/ direct_at pre s inner.

Record reads_at (out : bytes) (st : VisionStream * Tcp) : Prop := {
  ra_flow : flowing (incoming (snd st));
  ra_phase : phase_at (out ++ pending_read (rside (fst st))) (fst st) (incoming (snd st))
}.

Definition poll_done (out : bytes) (st : VisionStream * Tcp) (p : Poll bytes) : Prop :=
  reads_at (out ++ got p) st /\ good_poll p /\ (p = Ready (Ok []) -> out = data).

(** What is pending is served in any phase. *)
Lemma phase_at_pending pre x s inner : phase_at pre s inner -> phase_at pre (on_reads (set_pending_read x) s) inner.
Proof using All.
  intros [(p & seq & d & todo & wire & raw & rs & o & [] & H)|[H|H]]; [|by right; left|by right; right].
  left. exists p, seq, d, todo, wire, raw, rs, o. by split.
Qed.

Lemma serve_pending_ok want out s w : reads_at out (s, w) -> (0 < want)%nat -> pending_read (rside s) <> [] ->
  post (serve_pending want) (s, w) (poll_done out).
Proof using All.
  intros [Hf Hp] Hw Hne. cbn [fst snd] in *. unfold serve_pending, post. rewrite this_bind, change_bind. set (n := Nat.min want _). cbn [mret V_ret].
  split; [|split; [done|]].
  - split; [exact Hf|]. cbn [fst snd got pending_read rside on_reads set_pending_read]. rewrite <- app_assoc, take_drop. by apply phase_at_pending.
  - intros E. assert (take n (pending_read (rside s)) = []) as E' by congruence. apply (f_equal length) in E'. rewrite length_take in E'.
    destruct (pending_read (rside s)); [done|]. unfold n in E'. cbn [length] in E'. lia.
Qed.

(** TCP as it is. *)
Lemma tcp_read_ok want s w : flowing (incoming w) -> (0 < want)%nat -> post (tcp_read want) (s, w) (fun st' p =>
  exists inner', st' = (s, mkTcp inner' (room w) (sent w)) /\ flowing inner' /\ good_poll p /\
    match p with
    | Ready (Ok b) => b ++ arriving inner' = arriving (incoming w) /\ (length b <= want)%nat /\ (b = [] -> arriving (incoming w) = [])
    | _ => arriving inner' = arriving (incoming w)
    end).
Proof using All.
  intros Hf Hw. unfold tcp_read, post. pose proof (poll_inner_ok want (incoming w) Hf Hw) as H. destruct (poll_inner want (incoming w)) as [p inner'].
  destruct H as (Hf' & Hg & Hp). exists inner'. split; [done|]. split; [done|]. split; [done|]. destruct p as [|[b|e|]]; try done.
  destruct Hp as (H1 & H2 & H3). split; [done|]. split; [done|]. intros E. by rewrite (H3 E).
Qed.

Lemma direct_read_ok want out s w : flowing (incoming w) -> direct_at out s (incoming w) -> pending_read (rside s) = [] -> (0 < want)%nat ->
  post (tcp_read want) (s, w) (poll_done out).
Proof using All.
  intros Hf [Hm Hd] Hn Hw. eapply post_mono; [|by apply tcp_read_ok]. intros st' p (inner' & -> & Hf' & Hg & Hp).
  assert (out ++ got p ++ arriving inner' = data) as Hd'.
  { destruct p as [|[b|e|]]; cbn [got app]; [by rewrite Hp|destruct Hp as [-> _]; done|done|done]. }
  split; [|split; [done|]].
  - split; [done|]. cbn [fst snd incoming]. rewrite Hn, app_nil_r. right. right. split; [done|]. by rewrite <- app_assoc.
  - intros ->. destruct Hp as (_ & _ & He). specialize (He eq_refl). rewrite He, app_nil_r in Hd. done.
Qed.

(** *** The session after the padding *)

(** The reader of the session, opened. *)
Lemma open_reader_ok seq part here s w : session_at seq part here (session s) ->
  exists c p, open_reader (s, w) = ((set_session c s, w), Ready (Ok p)) /\ session_at seq part here c
    /\ match here with [] => p = None | _ => p = Some here end.
Proof using All.
  intros [Hr Hs Hp [room Hh]].
  assert (exists room1, stands_for CAP (maybe_compact (plaintext_read_buf (session s)) 4096) (mkQueue here room1)) as [room1 Hs1].
  { unfold maybe_compact. destruct (_ <? _)%nat; [|by eexists]. eexists. exact (compact_ok CAP _ _ Hh). }
  unfold open_reader. erewrite vbind_ok; [|reflexivity]. cbv beta. set (b1 := maybe_compact _ _) in *. clearbody b1. rewrite this_bind.
  destruct (stands_for_len CAP _ _ Hs1) as (Hlen & Hem & _). cbn [q_bytes] in Hlen, Hem.
  assert (session_at seq part here (set_pin b1 (session s))) as Hat by (split; [exact Hr|exact Hs|exact Hp|by eexists]).
  unfold fill_buf, ok_of, answer. cbn [session set_session plaintext_read_buf set_pin]. destruct here as [|x here].
  - assert (sb_is_empty b1 = true) as -> by (apply Nat.leb_le; cbn [length] in Hem; lia). cbn [negb].
    destruct Hr as (_ & _ & Hcl & _). cbn [received_close_notify set_pin]. rewrite Hcl. by eexists _, _.
  - assert (sb_is_empty b1 = false) as -> by (apply Nat.leb_gt; cbn [length] in Hem; lia). cbn [negb].
    assert (as_slice b1 = Ok (x :: here)) as ->.
    { unfold as_slice. rewrite Hem. rewrite (front_ok CAP b1 (mkQueue (x :: here) room1)) by first [exact Hs1|cbn; lia]. cbn [q_bytes]. by rewrite firstn_all. }
    by eexists _, _.
Qed.

Lemma serve_available_ok want seq part here s w : session_at seq part here (session s) ->
  exists c, serve_available debug want here (s, w) = ((set_session c s, w), Ready (Ok (take want here))) /\ session_at seq part (drop want here) c.
Proof using All.
  intros [Hr Hs Hp [room1 Hs1]]. destruct (stands_for_len CAP _ _ Hs1) as (Hlen & _ & _). cbn [q_bytes] in Hlen.
  destruct (consume_ok debug CAP _ (mkQueue here room1) (Nat.min want (length here)) Hs1) as (b2 & Hb2 & Hs2); [cbn; lia|].
  unfold serve_available. erewrite vbind_ok.
  2: { unfold on_session, reader_consume. rewrite get_bind. rewrite Hlen, (Nat.min_l (Nat.min want (length here))) by lia. rewrite (lift_bind _ _ _ b2) by exact Hb2. reflexivity. }
  assert (take (Nat.min want (length here)) here = take want here /\ drop (Nat.min want (length here)) here = drop want here) as [-> Ed].
  { destruct (Nat.min_spec want (length here)) as [[? ->]|[? ->]]; [done|]. rewrite !take_ge, !drop_ge by lia. done. }
  eexists. split; [reflexivity|]. unfold q_drop in Hs2. cbn [q_bytes q_room] in Hs2. rewrite Ed in Hs2. split; [exact Hr|exact Hs|exact Hp|by eexists].
Qed.

Lemma read_tls_tcp_ok seq part s w : session_at seq part [] (session s) -> (length part <= MAX_RECORD)%nat -> flowing (incoming w) ->
  post (read_tls_tcp debug) (s, w) (fun st' p =>
    exists c inner' d, st' = (set_session c s, mkTcp inner' (room w) (sent w)) /\ flowing inner' /\ session_at seq (part ++ d) [] c
      /\ d ++ arriving inner' = arriving (incoming w) /\ (length d <= MAX_RECORD)%nat
      /\ match p with Ready (Ok n) => n = length d /\ (d = [] -> arriving (incoming w) = []) | Pending => d = [] | _ => False end).
Proof using All.
  intros [Hr Hs Hp Hh] Hl Hf. assert (MAX_RECORD = Z.to_nat 16645) as Hmax by reflexivity. pose proof capacity_value as Hcap.
  destruct (read_tls_ok debug [] (session s) part Hp) as (b & Hread & Hb); [cbn [length]; lia|cbn; lia|]. rewrite app_nil_r in Hb.
  unfold read_tls_tcp, post. erewrite vbind_ok; [|unfold on_session; rewrite Hread; reflexivity]. apply post_bind.
  eapply post_mono; [|apply tcp_read_ok; [exact Hf|lia]]. intros st1 p (inner' & -> & Hf' & Hg & Hpr). destruct p as [|[d|e|]]; [| |by destruct Hg..].
  - eexists _, inner', []. split; [reflexivity|]. split; [exact Hf'|]. rewrite app_nil_r. split; [by split|]. split; [exact Hpr|]. split; [cbn; lia|reflexivity].
  - destruct Hpr as (Ha & Hd & He). destruct (read_tls_ok debug d (set_cin b (session s)) part Hb) as (b2 & Hread2 & Hb2); [lia|exact Hd|]. clear Hmax Hcap.
    unfold post, on_session. cbn [session set_session]. rewrite Hread2. eexists _, inner', d. split; [reflexivity|]. split; [done|]. split; [by split|]. done.
Qed.

Lemma reads_tls out s w : flowing (incoming w) -> tls_at (out ++ pending_read (rside s)) s (incoming w) -> reads_at out (s, w).
Proof using All. intros H1 H2. split; [done|]. by right; left. Qed.

Lemma read_tls_loop_ok want fuel : (0 < want)%nat -> forall out seq todo part s w, flowing (incoming w) -> read_mode (rside s) = Tls ->
  pending_read (rside s) = [] -> is_read_eof (rside s) = false -> session_at seq part [] (session s) -> front_of part = None -> (length part <= MAX_RECORD)%nat ->
  carried seq todo (part ++ arriving (incoming w)) -> out ++ concat todo = data -> (length (arriving (incoming w)) < fuel)%nat ->
  post (read_tls_loop x509 debug fuel want) (s, w) (poll_done out).
Proof using All.
  intros Hwant. induction fuel as [|fuel IH]; intros out seq todo part s w Hf Hm Hn He Hat Hfr Hl Hc Hd Hfuel; [lia|]. cbn [read_tls_loop]. apply post_bind.
  eapply post_mono; [|by apply (read_tls_tcp_ok seq part)]. intros st1 p (c & inner' & d & -> & Hf' & Hat' & Ha & Hld & Hp).
  destruct p as [|[n|e|]]; [| |done|done].
  { subst d. rewrite app_nil_r in Hat'. cbn [app] in Ha. split; [|done]. cbn [got]. rewrite app_nil_r. apply reads_tls; [done|]. cbn [rside set_session]. rewrite Hn, app_nil_r.
    split; [exact Hm|]. exists seq, todo, part, []. cbn [rside set_session incoming]. rewrite He, Ha. done. }
  destruct Hp as [-> Hend]. destruct d as [|x d].
  { cbn [length Nat.eqb]. unfold post. rewrite change_bind. rewrite (Hend eq_refl), app_nil_r in Hc. pose proof (carried_nothing key iv _ _ _ Hc Hfr) as ->.
    rewrite app_nil_r in Hd, Hat'. cbn [app] in Ha. split; [|split; [done|done]]. cbn [got]. rewrite app_nil_r. apply reads_tls; [done|].
    cbn [rside set_session on_reads set_eof pending_read]. rewrite Hn, app_nil_r. split; [exact Hm|]. exists seq, [], part, []. cbn [incoming]. rewrite Ha, (Hend eq_refl), app_nil_r.
    split; [exact Hat'|]. split; [done|]. split; [done|]. split; [done|]. by rewrite Hd, app_nil_r. }
  set (dd := x :: d) in *. assert (0 < length dd)%nat as Hpos by (cbn; lia). clearbody dd. clear x d. rewrite (proj2 (Nat.eqb_neq _ _)) by lia.
  rewrite <- Ha, app_assoc in Hc.
  destruct (carries_split key iv CT_APPLICATION_DATA todo seq _ (part ++ dd) (arriving inner') Hc eq_refl) as (gt & todo' & part' & whole & -> & Hw & Hfr' & Hl' & Hgot & Htodo).
  destruct Hat' as [Hr Hs Hp Hh]. rewrite Hw in Hp.
  destruct (process_ok debug key iv x509 c gt whole part') as (cin & pin & Hrun & Hcin & Hpin); try done; [by rewrite Hs| |].
  { apply carried_content_length in Hgot. apply (f_equal length) in Hw. rewrite !length_app in Hw.
    assert (MAX_RECORD = Z.to_nat 16645) as Hmax by reflexivity. pose proof capacity_value as Hcap. lia. }
  set (c' := set_read_seq _ _) in *. assert (session_at (seq + Z.of_nat (length gt)) part' (concat gt) c') as Hat2.
  { split; [exact Hr| |exact Hcin|exact Hpin]. unfold c'. cbn [read_seq set_read_seq]. by rewrite Hs. }
  unfold post at 1. erewrite vbind_ok; [|unfold process_session, invalid_data, on_session; cbn [session set_session]; rewrite Hrun; reflexivity].
  rewrite concat_app in Hd. assert (length (arriving inner') < fuel)%nat as Hf2 by (rewrite <- Ha, length_app in Hfuel; lia).
  destruct (Nat.eqb_spec (length (concat gt)) 0) as [Hz|Hz].
  - apply length_zero_iff_nil in Hz. rewrite Hz in *. eapply IH; [done|exact Hm|exact Hn|exact He|exact Hat2|done|done|exact Htodo|exact Hd|done].
  - destruct (open_reader_ok _ _ _ (set_session c' (set_session c s)) (mkTcp inner' (room w) (sent w)) Hat2) as (c2 & p & Hopen & Hat3 & Hp2).
    erewrite vbind_ok; [|exact Hopen]. destruct (concat gt) as [|y ys] eqn:Eg; [done|]. subst p.
    destruct (serve_available_ok want _ _ _ (set_session c2 (set_session c' (set_session c s))) (mkTcp inner' (room w) (sent w)) Hat3) as (c3 & Hserve & Hat4).
    rewrite Hserve. destruct want as [|want]; [lia|]. cbn [take drop] in *. split; [|done]. cbn [got]. apply reads_tls; [done|]. cbn [rside set_session]. rewrite Hn, app_nil_r.
    split; [exact Hm|]. eexists _, todo', part', _. split; [exact Hat4|]. split; [done|]. split; [done|]. split; [exact Htodo|]. split; [|by change (is_read_eof _) with (is_read_eof (rside s)); rewrite He].
    rewrite <- Hd, <- !app_assoc. cbn [app]. by rewrite (app_assoc (take want ys)), take_drop.
Qed.

Lemma poll_read_tls_ok want out s w : flowing (incoming w) -> tls_at out s (incoming w) -> pending_read (rside s) = [] -> (0 < want)%nat ->
  post (poll_read_tls x509 debug want) (s, w) (poll_done out).
Proof using All.
  intros Hf (Hm & seq & todo & part & here & Hat & Hfr & Hl & Hc & Hd & He) Hn Hw. unfold poll_read_tls.
  destruct (open_reader_ok _ _ _ s w Hat) as (c & p & Hopen & Hat' & Hp). unfold post. erewrite vbind_ok; [|exact Hopen]. destruct here as [|x here].
  - subst p. rewrite this_bind. cbn [rside set_session]. destruct (is_read_eof (rside s)) eqn:Ee.
    + specialize (He eq_refl). rewrite He, app_nil_r in Hc. pose proof (carried_nothing key iv _ _ _ Hc Hfr) as ->. rewrite app_nil_r in Hd. cbn [mret V_ret].
      split; [|split; [done|]]; cbn [got concat app] in *; rewrite ?app_nil_r in *; [|done]. apply reads_tls; [done|]. cbn [rside set_session]. rewrite Hn, app_nil_r.
      split; [exact Hm|]. exists seq, [], part, []. rewrite He, app_nil_r. split; [exact Hat'|]. split; [done|]. split; [done|]. split; [done|]. by rewrite !app_nil_r.
    + rewrite tcp_bind. eapply read_tls_loop_ok; [done|done|exact Hm|exact Hn|exact Ee|exact Hat'|done|done|exact Hc|exact Hd|lia].
  - subst p. destruct (serve_available_ok want _ _ _ (set_session c s) w Hat') as (c3 & Hserve & Hat4). rewrite Hserve.
    destruct want as [|want]; [lia|]. cbn [take drop] in *. split; [|done]. cbn [got]. apply reads_tls; [done|]. cbn [rside set_session]. rewrite Hn, app_nil_r.
    split; [exact Hm|]. eexists _, todo, part, _. split; [exact Hat4|]. split; [done|]. split; [done|]. split; [exact Hc|]. split; [|done].
    rewrite <- Hd, <- !app_assoc. cbn [app]. by rewrite (app_assoc (take want here)), take_drop.
Qed.

(** *** The end of the padding *)

Lemma switch_read_ok name m s w : read_mode (rside s) = PaddingTls ->
  exists s', switch_read name m (s, w) = ((s', w), Ready (Ok tt)) /\ read_mode (rside s') = m /\ session s' = session s
    /\ pending_read (rside s') = pending_read (rside s) /\ is_read_eof (rside s') = is_read_eof (rside s).
Proof using All.
  intros Hm. unfold switch_read. rewrite this_bind, Hm. rewrite bool_decide_eq_true_2 by done. cbn [negb]. rewrite change_bind.
  unfold post_padding_cleanup. rewrite this_bind. destruct (_ || _); by eexists.
Qed.

Lemma decrypt_rest_ok fuel : forall d later seq todo wire s w, deframer_ok d -> session_at seq [] [] (session s) -> carried seq todo wire ->
  buffer d ++ later = wire -> (length (buffer d) < fuel)%nat ->
  exists d' c gt todo', decrypt_rest x509 debug fuel d (s, w) = ((on_reads (set_pending_read (pending_read (rside s) ++ concat gt)) (set_session c s), w), Ready (Ok d'))
    /\ session_at (seq + Z.of_nat (length gt)) [] [] c /\ todo = gt ++ todo' /\ carried (seq + Z.of_nat (length gt)) todo' (buffer d' ++ later)
    /\ partial (buffer d') /\ (length (buffer d') <= MAX_RECORD)%nat.
Proof using All.
  induction fuel as [|fuel IH]; intros d later seq todo wire s w Hd Hat Hc Hb Hf; [lia|]. cbn [decrypt_rest].
  destruct (outer_next key iv d later seq todo wire [] Hd Hc ltac:(by rewrite app_nil_r) ltac:(done)) as (d1 & Hd1 & [(-> & Hb1 & Hpart & Hl)|Hnext]).
  - unfold ok_of, answer. erewrite vbind_ok; [|reflexivity]. exists d1, (session s), [], todo. rewrite Hb1. cbn [concat length]. rewrite app_nil_r, Z.add_0_r, Hb.
    split; [by destruct s as [a b c0 [] e]|done].
  - destruct Hnext as (record & content & todo1 & wire1 & -> & Hbd & -> & -> & Hrec & Hc1 & Hb1 & Hl & _). rewrite app_nil_r in Hb1.
    unfold ok_of, answer. erewrite vbind_ok; [|reflexivity]. cbv match.
    pose proof (carried_content_length key iv _ _ _ Hrec) as Hcl. assert (MAX_RECORD <= CAP)%nat as Hmc by (rewrite capacity_value; assert (MAX_RECORD = Z.to_nat 16645) as -> by reflexivity; lia).
    destruct (fed record seq [] [content] record [] s w Hat ltac:(cbn [length]; lia) Hl ltac:(by rewrite app_nil_r) eq_refl Hrec ltac:(lia)) as (c1 & Hfed & Hat1).
    cbn [concat length] in Hfed, Hat1. rewrite app_nil_r in Hfed, Hat1. erewrite vbind_ok; [|exact Hfed].
    assert (exists c2, (if (0 <? length content)%nat then read_session debug no_plaintext None (length content) else mret []) (set_session c1 s, w)
      = ((set_session c2 (set_session c1 s), w), Ready (Ok content)) /\ session_at (seq + 1) [] [] c2) as (c2 & Htake & Hat2).
    { destruct content as [|x content].
      - exists c1. split; [done|exact Hat1].
      - cbn [length Nat.ltb Nat.leb]. by apply (taken no_plaintext None (seq + 1) [] (x :: content) (set_session c1 s) w). }
    erewrite vbind_ok; [|exact Htake]. rewrite change_bind.
    destruct (IH d1 later (seq + 1) todo1 wire1 (on_reads (fun r => set_pending_read (pending_read r ++ content) r) (set_session c2 (set_session c1 s))) w)
      as (d2 & c3 & gt & todo2 & Hrun & Hat3 & -> & Hc3 & Hp3 & Hl3); try done.
    { apply (f_equal length) in Hbd. rewrite length_app in Hbd. destruct record; [|cbn [length] in Hbd; lia].
      cbn [carries] in Hrec. destruct Hrec as (ct & rest & E & _). pose proof (length_make_record_header (length ct)) as Hh. by destruct (make_record_header (length ct)). }
    exists d2, c3, (content :: gt), todo2. rewrite Hrun. cbn [concat length].
    replace (seq + Z.of_nat (S (length gt))) with (seq + 1 + Z.of_nat (length gt)) by lia.
    split; [|done]. cbn [rside on_reads set_session set_pending_read pending_read]. by rewrite <- app_assoc.
Qed.

Lemma unpads_fun p b rs o rs' o' : unpads uuid p b rs o -> unpads uuid p b rs' o' -> rs = rs' /\ o = o'.
Proof using All.
  assert (forall s v, ref_run s v = Ok (rs, o) -> ref_run s v = Ok (rs', o') -> rs = rs' /\ o = o') as H.
  { intros s v -> E. apply Ok_inj in E. by apply pair_equal_spec in E. }
  destruct p as [s|]; cbn [unpads].
  - intros (_ & _ & H1) (_ & _ & H2). by eapply H.
  - intros (v & -> & H1) (v' & E & H2). apply app_inv_head in E as <-. by eapply H.
Qed.

(** The rest of the records, and the part of one, go to the session. *)
Lemma end_followed out pre seq todo wire o1 f d s w : padded uuid (Some (CDone CmdEnd, f)) seq d s -> carried seq todo wire ->
  buffer d ++ arriving (incoming w) = wire -> pre ++ o1 ++ concat todo = data -> pre = out ++ pending_read (rside s) -> is_read_eof (rside s) = false ->
  exists s', follow_command x509 debug o1 (Some CmdEnd) (s, w) = ((s', w), Ready (Ok tt))
    /\ tls_at (out ++ pending_read (rside s')) s' (incoming w) /\ is_read_eof (rside s') = false.
Proof using All.
  intros [H1 H2 H3 H4 H5 H6 H7] Hc Hb Hd Hpre He. unfold follow_command. rewrite change_bind, this_bind. cbn [rside on_reads set_pending_read outer_read_deframer].
  rewrite H2, change_bind. set (s2 := on_reads (set_outer None) _).
  destruct (decrypt_rest_ok (S (length (buffer d))) d (arriving (incoming w)) seq todo wire s2 w H3 H6 Hc Hb ltac:(lia))
    as (d' & c & gt & todo' & Hrun & Hat & -> & Hc' & Hp & Hl). erewrite vbind_ok; [|exact Hrun]. set (s3 := on_reads _ (set_session c s2)).
  unfold remaining_data. assert (exists c', (if is_nil (buffer d') then mret tt else n ← feed_and_process x509 debug (buffer d'); VisionStream.assert (n =? 0)%nat) (s3, w)
      = ((set_session c' s3, w), Ready (Ok tt)) /\ session_at (seq + Z.of_nat (length gt)) (buffer d') [] c') as (c' & Hfeed & Hat').
  { destruct (buffer d') as [|x b] eqn:Eb; cbn [is_nil]; [by exists c|]. rewrite <- Eb in *.
    assert (MAX_RECORD <= CAP)%nat as Hmc by (rewrite capacity_value; assert (MAX_RECORD = Z.to_nat 16645) as -> by reflexivity; lia).
    destruct (fed (buffer d') (seq + Z.of_nat (length gt)) [] [] [] (buffer d') s3 w Hat ltac:(cbn [length]; lia) Hl eq_refl (partial_front _ Hp) eq_refl ltac:(cbn; lia))
      as (c' & Hfed & Hat'). exists c'. cbn [length] in Hat'. rewrite Z.add_0_r in Hat'. split; [|exact Hat'].
    erewrite vbind_ok; [|exact Hfed]. done. }
  erewrite vbind_ok; [|exact Hfeed]. destruct (switch_read_ok "switch_read_to_tls_mode" Tls (set_session c' s3) w H1) as (s' & Hsw & Hm & Hs & Hpn & Hef).
  exists s'. split; [exact Hsw|]. split; [|rewrite Hef; exact He]. split; [exact Hm|]. exists (seq + Z.of_nat (length gt)), todo', (buffer d'), [].
  rewrite Hs, Hef. split; [exact Hat'|]. split; [by apply partial_front|]. split; [exact Hl|]. split; [exact Hc'|].
  split; [|intros E; change (is_read_eof (rside s) = true) in E; by rewrite He in E].
  rewrite Hpn. cbn [rside set_session on_reads set_pending_read pending_read s3 s2 set_outer]. rewrite <- Hd, Hpre, concat_app. by rewrite <- !app_assoc.
Qed.

(** A part of the blocks is taken in. *)
Lemma handled_ok out p seq d s w part todo wire raw rs o : padded uuid p seq d s -> vless_response_pending (rside s) = false -> is_read_eof (rside s) = false ->
  carried seq todo wire -> buffer d ++ arriving (incoming w) = wire ++ raw -> unpads uuid p (part ++ concat todo) rs o -> (p = None -> (16 <= length part)%nat) ->
  (forall c1 c2 f o', todo = c1 ++ c2 -> unpads uuid p (part ++ concat c1) (CDone CmdDirect, f) o' -> c2 = []) ->
  (raw <> [] -> exists f, rs = (CDone CmdDirect, f)) -> (out ++ pending_read (rside s)) ++ o ++ raw = data ->
  exists s', handle_padded_bytes x509 debug memmem_find part (s, w) = ((s', w), Ready (Ok tt)) /\ is_read_eof (rside s') = false /\
    ((exists p' o', p' <> None /\ padded uuid p' seq d s' /\ vless_response_pending (rside s') = false /\ blocks_left p' todo raw rs o'
        /\ (out ++ pending_read (rside s')) ++ o' ++ raw = data)
     \/ tls_at (out ++ pending_read (rside s')) s' (incoming w) \/ direct_at (out ++ pending_read (rside s')) s' (incoming w)).
Proof using All.
  intros Hpad Hrp He Hc Hb Hu Hfirst Hdir Hraw Hd.
  destruct (unpadding_ok uuid p part (concat todo) rs o seq d s w Huuid Hpad Hu Hfirst) as (s1 & o1 & o2 & s' & -> & Hu1 & Hnext & -> & Hpad' & (Hpn & Hef & Hrf)).
  rewrite <- Hpn in Hd. rewrite <- Hef in He. rewrite <- Hrf in Hrp. clear Hpn Hef Hrf Hpad s. rename s' into s.
  assert (unpads uuid (Some s1) (concat todo) rs o2 -> exists s', (result_command s1 = None \/ result_command s1 = Some CmdContinue) ->
    follow_command x509 debug o1 (result_command s1) (s, w) = ((s', w), Ready (Ok tt)) /\ is_read_eof (rside s') = false /\
    exists p' o', p' <> None /\ padded uuid p' seq d s' /\ vless_response_pending (rside s') = false /\ blocks_left p' todo raw rs o'
        /\ (out ++ pending_read (rside s')) ++ o' ++ raw = data) as Hgo.
  { intros Hn. exists (on_reads (fun r => set_pending_read (pending_read r ++ o1) r) s). intros Hcmd. split; [by destruct Hcmd as [-> | ->]|]. split; [exact He|].
    exists (Some s1), o2. split; [done|]. split; [by destruct Hpad'|]. split; [exact Hrp|]. split.
    - split; [by right|done| |exact Hraw]. intros c1 c2 f o' -> Hu2. destruct Hu2 as (_ & _ & Hu2). eapply Hdir; [done|]. by eapply unpads_app.
    - cbn [rside on_reads set_pending_read pending_read]. rewrite <- Hd. by rewrite <- !app_assoc. }
  destruct s1 as [c1 f1]. destruct c1 as [|? ?|? ? ?|? ? ?|? ?|c1]; cbn [fst] in Hnext;
    [destruct (Hgo Hnext) as (s' & Hs'); exists s'; cbn [result_command] in *; destruct (Hs' ltac:(destruct f1; [by left|by right])) as (? & ? & ?); split; [done|]; split; [done|]; by left..|].
  destruct Hnext as [Hne ->]. cbn [result_command]. destruct c1; [done| |].
  - assert (raw = []) as ->.
    { destruct raw as [|x raw]; [done|]. destruct (Hraw ltac:(done)) as [f E]. subst rs.
      destruct (unpads_fun p (part ++ concat todo) _ _ _ _ Hu (unpads_app uuid p part _ o1 (concat todo) _ _ Hu1 (ref_done CmdEnd f1 (concat todo)))) as [E _]. done. }
    rewrite app_nil_r in *. destruct (end_followed out _ seq todo wire o1 f1 d s w Hpad' Hc Hb Hd eq_refl He) as (s' & Hrun & Htls & He').
    exists s'. split; [exact Hrun|]. split; [exact He'|]. right. by left.
  - assert (todo = []) as ->.
    { eapply (Hdir [] todo f1 o1); [done|]. cbn [concat]. by rewrite app_nil_r. }
    cbn [carries] in Hc. subst wire. cbn [app concat] in Hb. destruct Hpad' as [H1 H2 H3 H4 H5 H6 H7].
    unfold follow_command. rewrite this_bind, H2, change_bind. unfold remaining_data.
    destruct (switch_read_ok "switch_read_to_direct_mode" Direct (on_reads (fun r => set_pending_read (pending_read r ++ o1 ++ buffer d) (set_outer None r)) s) w H1)
      as (s' & Hsw & Hm & Hs & Hpn & Hef). exists s'. split; [exact Hsw|]. split; [rewrite Hef; exact He|]. right. right. split; [exact Hm|].
    rewrite Hpn. cbn [rside on_reads set_pending_read pending_read]. rewrite <- Hd, <- Hb. cbn [concat]. by rewrite app_nil_r, <- !app_assoc.
Qed.

(** *** The padding *)

Lemma no_record_left record x : complete record -> ~ partial (record ++ x).
Proof using All.
  intros (n & Ha & Hl). unfold partial, TlsRecords.TLS_RECORD_HEADER_SIZE in *. pose proof (announced_bounds _ _ Ha) as Hn.
  rewrite length_app. intros [H|(n' & Ha' & H)]; [lia|]. rewrite (announced_app _ x _ Ha) in Ha'. injection Ha' as <-. lia.
Qed.

Lemma carried_partial seq todo wire raw : carried seq todo wire -> partial (wire ++ raw) -> todo = [].
Proof using All.
  destruct todo as [|content todo]; [done|]. cbn [carries]. intros (ct & rest & -> & Hl & _ & _). rewrite <- !app_assoc, app_assoc.
  intros H. by destruct (no_record_left _ _ (record_complete ct Hl) H).
Qed.

Lemma no_blocks_left p raw rs o : blocks_left p [] raw rs o -> raw = [] /\ o = [].
Proof using All.
  intros [Hs _ _ Hr]. cbn [concat] in Hs. destruct Hs as [(_ & _ & -> & ->)|Hs]; [done|].
  destruct p as [s|]; cbn [unpads ref_run] in Hs.
  - destruct Hs as (_ & Hf & E). apply Ok_inj, pair_equal_spec in E as [<- <-]. split; [|done]. destruct raw; [done|].
    destruct (Hr ltac:(done)) as [f ->]. by destruct Hf.
  - destruct Hs as (v & E & _). symmetry in E. apply app_eq_nil in E as [E _]. rewrite E in Huuid. done.
Qed.

Lemma read_in_mode_ok want out s w : flowing (incoming w) -> tls_at out s (incoming w) \/ direct_at out s (incoming w) -> pending_read (rside s) = [] -> (0 < want)%nat ->
  post (read_in_mode x509 debug (read_mode (rside s)) want) (s, w) (poll_done out).
Proof using All.
  intros Hf [H|H] Hn Hw; pose proof H as [Hm _]; rewrite Hm; cbn [read_in_mode].
  - by apply poll_read_tls_ok.
  - by apply direct_read_ok.
Qed.

(** After the padding: what is pending first. *)
Lemma after_padding_ok want out s w : flowing (incoming w) -> tls_at (out ++ pending_read (rside s)) s (incoming w) \/ direct_at (out ++ pending_read (rside s)) s (incoming w) ->
  (0 < want)%nat ->
  post (if is_nil (pending_read (rside s)) then read_in_mode x509 debug (read_mode (rside s)) want else serve_pending want) (s, w) (poll_done out).
Proof using All.
  intros Hf Hp Hw. destruct (pending_read (rside s)) as [|x b] eqn:En; cbn [is_nil].
  - rewrite app_nil_r in Hp. by apply read_in_mode_ok.
  - apply serve_pending_ok; [|done|by rewrite En]. split; [exact Hf|]. cbn [fst snd]. rewrite En. by right.
Qed.

Lemma padded_outer p seq d d' s : padded uuid p seq d s -> deframer_ok d' -> padded uuid p seq d' (on_reads (set_outer (Some d')) s).
Proof using All. by intros [] ?. Qed.

Lemma padded_session p seq d seq' c s : padded uuid p seq d s -> session_at seq' [] [] c -> padded uuid p seq' d (set_session c s).
Proof using All. by intros [] ?. Qed.

(** A record is decrypted. *)
Lemma record_opened record content seq s w (on_none : io_error) (on_empty : option io_error) : session_at seq [] [] (session s) -> carried seq [content] record -> (length record <= MAX_RECORD)%nat ->
  exists c1 c2, feed_and_process x509 debug record (s, w) = ((set_session c1 s, w), Ready (Ok (length content)))
    /\ read_session debug on_none on_empty (length content) (set_session c1 s, w) = ((set_session c2 s, w), Ready (Ok content))
    /\ session_at (seq + 1) [] [] c2 /\ (content = [] -> session_at (seq + 1) [] [] c1).
Proof using All.
  intros Hat Hrec Hl. pose proof (carried_content_length key iv _ _ _ Hrec) as Hcl.
  assert (MAX_RECORD <= CAP)%nat as Hmc by (rewrite capacity_value; assert (MAX_RECORD = Z.to_nat 16645) as -> by reflexivity; lia).
  destruct (fed record seq [] [content] record [] s w Hat ltac:(cbn [length]; lia) Hl ltac:(by rewrite app_nil_r) eq_refl Hrec ltac:(lia)) as (c1 & Hfed & Hat1).
  cbn [concat length] in Hfed, Hat1. rewrite app_nil_r in Hfed, Hat1.
  destruct (taken on_none on_empty (seq + 1) [] content (set_session c1 s) w Hat1) as (c2 & Htake & Hat2).
  exists c1, c2. split; [exact Hfed|]. split; [exact Htake|]. split; [exact Hat2|]. intros ->. exact Hat1.
Qed.

Definition records_done (out : bytes) (w : Tcp) (st' : VisionStream * Tcp) (p : Poll (option bytes)) : Prop :=
  match p with
  | Ready (Ok None) => exists s', st' = (s', w) /\ is_read_eof (rside s') = false /\ padding_at (out ++ pending_read (rside s')) s' (incoming w)
  | Ready (Ok (Some b)) => poll_done out st' (Ready (Ok b))
  | Pending => poll_done out st' Pending
  | _ => False
  end.

Lemma padded_records_ok want out w fuel : (0 < want)%nat -> flowing (incoming w) -> forall p seq d todo wire raw rs o s,
  padded uuid p seq d s -> vless_response_pending (rside s) = false -> is_read_eof (rside s) = false ->
  carried seq todo wire -> buffer d ++ arriving (incoming w) = wire ++ raw -> blocks_left p todo raw rs o ->
  (out ++ pending_read (rside s)) ++ o ++ raw = data -> (length (buffer d) < fuel)%nat ->
  post (padded_records x509 debug memmem_find fuel want) (s, w) (records_done out w).
Proof using All.
  intros Hwant Hfl. induction fuel as [|fuel IH]; intros p seq d todo wire raw rs o s Hpad Hrp He Hc Hb Hbl Hd Hf; [lia|].
  cbn [padded_records]. pose proof Hpad as [_ Ho Hok _ _ Hat _].
  assert (todo = [] -> raw = []) as Hr0 by (intros ->; by apply no_blocks_left in Hbl as [-> _]).
  destruct (outer_next key iv d (arriving (incoming w)) seq todo wire raw Hok Hc Hb Hr0) as (d1 & Hd1 & [(Hnext & Hb1 & Hpart & _)|Hnext]); unfold post.
  - erewrite vbind_ok; [|unfold on_outer; rewrite Ho, Hnext; reflexivity]. cbv match. cbn [mret V_ret]. exists (on_reads (set_outer (Some d1)) s). split; [done|]. split; [exact He|].
    exists p, seq, d1, todo, wire, raw, rs, o. rewrite Hb1. split; [by apply (padded_outer p seq d)|]. split; [exact Hrp|]. split; [done|]. split; [done|]. split; [done|].
    split; [exact Hd|]. split; [done|]. intros E. change (is_read_eof (rside s) = true) in E. by rewrite He in E.
  - destruct Hnext as (record & content & todo1 & wire1 & Hnext & Hbd & -> & -> & Hrec & Hc1 & Hb1 & Hl & Hcomp).
    erewrite vbind_ok; [|unfold on_outer; rewrite Ho, Hnext; reflexivity]. cbv match.
    assert (length (buffer d1) < fuel)%nat as Hf1.
    { apply (f_equal length) in Hbd. rewrite length_app in Hbd. apply complete_length in Hcomp. lia. }
    set (s1 := on_reads (set_outer (Some d1)) s). assert (padded uuid p seq d1 s1) as Hpad1 by (by apply (padded_outer p seq d)).
    destruct (record_opened record content seq s1 w no_plaintext None (pp_session _ _ _ _ _ Hpad1) Hrec Hl) as (c1 & c2 & Hfed & Htake & Hat2 & Hat1).
    erewrite vbind_ok; [|exact Hfed]. destruct Hbl as [Hs Hfirst Hdir Hraw]. destruct Hs as [(_ & E & _)|Hs]; [done|].
    destruct content as [|x content].
    + cbn [length Nat.eqb]. cbn [concat app] in *. destruct p as [s0|]; [|specialize (Hfirst eq_refl); cbn in Hfirst; lia].
      eapply (IH (Some s0) (seq + 1) d1 todo1 wire1 raw rs o (set_session c1 s1)); try done; [eapply padded_session; [exact Hpad1|by apply Hat1]|].
      split; [by right|done| |exact Hraw]. intros e1 e2 f o' -> Hu. apply (Hdir ([] :: e1) e2 f o'); [done|exact Hu].
    + assert ((length (x :: content) =? 0)%nat = false) as -> by done. erewrite vbind_ok; [|exact Htake]. set (s2 := set_session c2 s1).
      destruct (handled_ok out p (seq + 1) d1 s2 w (x :: content) todo1 wire1 raw rs o) as (s3 & Hrun & He3 & Hcases); try done;
        [eapply padded_session; [exact Hpad1|exact Hat2]|intros e1 e2 f o' -> Hu; by apply (Hdir ((x :: content) :: e1) e2 f o')|].
      erewrite vbind_ok; [|exact Hrun]. rewrite this_bind.
      destruct Hcases as [(p' & o' & _ & Hpad3 & Hrp3 & Hbl3 & Hd3)|Hcases].
      * rewrite (pp_mode _ _ _ _ _ Hpad3). by eapply IH.
      * assert (read_mode (rside s3) <> PaddingTls) as Hm by (destruct Hcases as [[-> _]|[-> _]]; done).
        assert (post (out ← (if is_nil (pending_read (rside s3)) then read_in_mode x509 debug (read_mode (rside s3)) want else serve_pending want); mret (Some out)) (s3, w) (records_done out w)) as H.
        { apply post_bind. eapply post_mono; [|by apply (after_padding_ok want out s3 w)]. intros st' [|[b|e|]] Hdone; [done| | |]; [exact Hdone|by destruct Hdone as (_ & [] & _)..]. }
        destruct (read_mode (rside s3)); [done|exact H..].
Qed.

Lemma reads_padding out s w : flowing (incoming w) -> padding_at (out ++ pending_read (rside s)) s (incoming w) -> reads_at out (s, w).
Proof using All. intros H1 H2. split; [done|]. by left. Qed.

(** At the end of the stream nothing is left. *)
Lemma padding_end pre s inner : padding_at pre s inner -> arriving inner = [] -> pre = data.
Proof using All.
  intros (p & seq & d & todo & wire & raw & rs & o & Hpad & _ & Hc & Hb & Hbl & Hd & Hpart & _) Ha. rewrite Ha, app_nil_r in Hb. rewrite Hb in Hpart.
  pose proof (carried_partial _ _ _ _ Hc Hpart) as ->. apply no_blocks_left in Hbl as [-> ->]. by rewrite !app_nil_r in Hd.
Qed.

Lemma read_padding_loop_ok want fuel : (0 < want)%nat -> forall out s w, flowing (incoming w) -> padding_at out s (incoming w) -> pending_read (rside s) = [] ->
  is_read_eof (rside s) = false -> (length (arriving (incoming w)) < fuel)%nat ->
  post (read_padding_loop x509 debug memmem_find fuel want) (s, w) (poll_done out).
Proof using All.
  intros Hwant. induction fuel as [|fuel IH]; intros out s w Hfl Hat Hn He Hf; [lia|]. cbn [read_padding_loop]. unfold post. rewrite this_bind.
  pose proof Hat as (p & seq & d & todo & wire & raw & rs & o & Hpad & Hrp & Hc & Hb & Hbl & Hd & Hpart & _).
  apply post_bind. eapply post_mono; [|apply (tcp_read_ok _ s w Hfl (pp_room _ _ _ _ _ Hpad))]. intros st1 q (inner' & -> & Hf' & Hg & Hq). destruct q as [|[b|e|]]; [| |by destruct Hg..].
  { split; [|done]. cbn [got]. rewrite app_nil_r. apply reads_padding; [done|]. rewrite Hn, app_nil_r. exists p, seq, d, todo, wire, raw, rs, o. cbn [incoming]. rewrite Hq, He. done. }
  destruct Hq as (Ha & _ & Hend). destruct b as [|x b]; cbn [is_nil].
  { unfold post. rewrite change_bind. cbn [mret V_ret]. specialize (Hend eq_refl). rewrite Hend in *. cbn [app] in Ha. split; [|split; [done|]].
    - cbn [got]. rewrite app_nil_r. apply reads_padding; [done|]. cbn [rside on_reads set_eof pending_read]. rewrite Hn, app_nil_r.
      exists p, seq, d, todo, wire, raw, rs, o. cbn [incoming]. rewrite Ha. split; [by destruct Hpad|]. done.
    - intros _. by eapply padding_end. }
  set (bb := x :: b) in *. assert (0 < length bb)%nat as Hpos by (cbn; lia). clearbody bb. clear x b.
  unfold post, feed_outer. erewrite vbind_ok; [|unfold on_outer; rewrite (pp_outer _ _ _ _ _ Hpad); reflexivity]. rewrite this_bind.
  cbn [rside on_reads set_outer outer_read_deframer].
  set (d1 := feed_deframer d bb). assert (deframer_ok d1 /\ buffer d1 = buffer d ++ bb) as [Hd1 Hb1].
  { split; [|done]. pose proof (pp_ok _ _ _ _ _ Hpad) as Hok. unfold deframer_ok, d1, feed_deframer in *. cbn [d_state buffer]. destruct (d_state d); [done|]. by apply announced_app. }
  set (w1 := mkTcp inner' (room w) (sent w)). apply post_bind.
  eapply post_mono; [|apply (padded_records_ok want out w1 (S (length (buffer d1))) Hwant Hf' p seq d1 todo wire raw rs o (on_reads (set_outer (Some d1)) s)); try done;
    [by apply (padded_outer p seq d)|cbn [incoming w1]; by rewrite Hb1, <- app_assoc, Ha|cbn [rside on_reads set_outer pending_read]; by rewrite Hn, app_nil_r|lia]].
  intros st2 [|[[b|]|e|]] Hdone; [exact Hdone|exact Hdone| |done|done]. destruct Hdone as (s2 & -> & He2 & Hat2). unfold post. rewrite this_bind.
  assert (length (arriving inner') < fuel)%nat as Hf1 by (rewrite <- Ha, length_app in Hf; lia).
  destruct (pending_read (rside s2)) as [|y ys] eqn:En; cbn [is_nil].
  - rewrite app_nil_r in Hat2. by apply IH.
  - apply serve_pending_ok; [|done|by rewrite En]. apply reads_padding; [done|]. by rewrite En.
Qed.

Lemma poll_read_padding_tls_ok want out s w : (0 < want)%nat -> flowing (incoming w) -> padding_at out s (incoming w) -> pending_read (rside s) = [] ->
  post (poll_read_padding_tls x509 debug memmem_find want) (s, w) (poll_done out).
Proof using All.
  intros Hwant Hf Hat Hn. unfold poll_read_padding_tls, post. rewrite this_bind. destruct (is_read_eof (rside s)) eqn:He.
  - cbn [mret V_ret]. assert (arriving (incoming w) = []) as Ha by (destruct Hat as (? & ? & ? & ? & ? & ? & ? & ? & _ & _ & _ & _ & _ & _ & _ & H); by apply H).
    split; [|split; [done|]].
    + cbn [got]. rewrite app_nil_r. apply reads_padding; [done|]. by rewrite Hn, app_nil_r.
    + intros _. by eapply padding_end.
  - rewrite tcp_bind. apply read_padding_loop_ok; try done. lia.
Qed.

(** *** The response *)

Fixpoint each_carried (seq : Z) (contents records : list bytes) : Prop :=
  match contents, records with
  | [], [] => True
  | content :: contents, record :: records => carried seq [content] record /\ (length record <= MAX_RECORD)%nat /\ complete record /\ each_carried (seq + 1) contents records
  | _, _ => False
  end.

Lemma each_complete contents : forall seq records, each_carried seq contents records -> Forall complete records.
Proof using All.
  induction contents as [|content contents IH]; intros seq [|record records]; cbn [each_carried]; try done.
  intros (_ & _ & Hc & H). constructor; [done|by eapply IH].
Qed.

(** What has arrived is some records and a part of the next. *)
Lemma records_split todo : forall seq wire l k, carried seq todo wire -> l ++ k = wire ->
  exists records gt todo' part, l = concat records ++ part /\ todo = gt ++ todo' /\ partial part /\ each_carried seq gt records
    /\ carried (seq + Z.of_nat (length gt)) todo' (part ++ k).
Proof using All.
  induction todo as [|content todo IH]; intros seq wire l k Hc Hw.
  - cbn [carries] in Hc. subst wire. apply app_eq_nil in Hw as [-> ->]. exists [], [], [], []. split_and!; try done. left. cbn. unfold TlsRecords.TLS_RECORD_HEADER_SIZE. lia.
  - destruct (outer_next key iv (mkDeframer l ReadingHeader) k seq (content :: todo) wire [] I Hc ltac:(by rewrite app_nil_r) ltac:(done))
      as (d' & _ & [(_ & _ & Hp & _)|(record & c & t & wire' & _ & Hb & -> & E & Hrec & Hc' & Hb' & Hl & Hcomp)]).
    + exists [], [], (content :: todo), l. rewrite Hw. cbn [concat length app]. by rewrite Z.add_0_r.
    + injection E as <- <-. rewrite app_nil_r in Hb'. destruct (IH (seq + 1) wire' (buffer d') k Hc' Hb') as (records & gt & todo' & part & E & -> & Hp & He & Hc2).
      exists (record :: records), (content :: gt), todo', part. cbn [buffer] in Hb. rewrite Hb, E. cbn [concat each_carried length]. rewrite <- app_assoc.
      split; [done|]. split; [done|]. split; [done|]. split; [done|]. by replace (seq + Z.of_nat (S (length gt))) with (seq + 1 + Z.of_nat (length gt)) by lia.
Qed.

(** The state of the response: [pv] of it is there. *)
Definition with_partial (pv : bytes) (s : VisionStream) : VisionStream := on_reads (set_partial pv) s.

Lemma response_records_ok records : forall seq gt s w, session_at seq [] [] (session s) -> each_carried seq gt records ->
  exists c, response_records x509 debug records (s, w)
      = ((with_partial (partial_vless_response (rside s) ++ concat gt) (set_session c s), w), Ready (Ok tt))
    /\ session_at (seq + Z.of_nat (length gt)) [] [] c.
Proof using All.
  induction records as [|record records IH]; intros seq [|content gt] s w Hat He; cbn [each_carried response_records] in *; try done.
  - exists (session s). cbn [concat length]. rewrite app_nil_r, Z.add_0_r. split; [by destruct s as [a b c0 [] e]|done].
  - destruct He as (Hrec & Hl & _ & He).
    destruct (record_opened record content seq s w (IoOther "operation would block") (Some (IoOther "no plaintext data when some is available")) Hat Hrec Hl)
      as (c1 & c2 & Hfed & Htake & Hat2 & _). erewrite vbind_ok; [|exact Hfed]. erewrite vbind_ok; [|exact Htake]. rewrite change_bind.
    destruct (IH (seq + 1) gt (on_reads (fun r => set_partial (partial_vless_response r ++ content) r) (set_session c2 s)) w Hat2 He) as (c3 & Hrun & Hat3).
    exists c3. rewrite Hrun. cbn [concat length]. replace (seq + Z.of_nat (S (length gt))) with (seq + 1 + Z.of_nat (length gt)) by lia.
    split; [|done]. unfold with_partial. cbn [rside on_reads set_session set_partial partial_vless_response]. by rewrite <- app_assoc.
Qed.

Section Response.
Context (v m : u8) (addon : bytes).
Hypothesis Hv : val8 v = 0.
Hypothesis Hm : length addon = Z.to_nat (val8 m).

Abbreviation header := (v :: m :: addon).

Lemma parse_header_part pv rest : pv ++ rest = header -> rest <> [] -> parse_response pv = Ok None.
Proof using All.
  intros E Hne. destruct pv as [|a [|b pv]]; [done..|]. cbn [app] in E. injection E as -> -> E. cbn [parse_response]. rewrite Hv. change (negb (0 =? 0)) with false. cbn iota.
  rewrite (proj2 (Nat.ltb_lt _ _)); [done|]. apply (f_equal length) in E. rewrite length_app in E. destruct rest; [done|]. cbn [length] in *. lia.
Qed.

Lemma parse_header rest : parse_response (header ++ rest) = Ok (Some rest).
Proof using All.
  cbn [app parse_response]. rewrite Hv. change (negb (0 =? 0)) with false. cbn iota.
  rewrite (proj2 (Nat.ltb_ge _ _)) by (cbn [length]; rewrite length_app; lia). cbn [Nat.add drop]. rewrite <- Hm. by rewrite drop_app_length.
Qed.

(** The blocks behind the header, when the records are cut as [todo]: no cut lies
    within the UUID, and a final [Direct] is in the last one. *)
Record response_left (pv : bytes) (todo : list bytes) (body raw : bytes) (rs : ref_state) (o : bytes) : Prop := {
  rl_bytes : pv ++ concat todo = header ++ body;
  rl_says : (body = [] /\ o = [] /\ raw = []) \/ unpads uuid None body rs o;
  rl_first : forall c1 c2, todo = c1 ++ c2 -> (length header < length (pv ++ concat c1))%nat -> (length header + 16 <= length (pv ++ concat c1))%nat;
  rl_full : Forall (fun c => c <> []) todo;
  rl_direct : forall c1 c2 b f o', todo = c1 ++ c2 -> pv ++ concat c1 = header ++ b -> unpads uuid None b (CDone CmdDirect, f) o' -> c2 = [];
  rl_raw : raw <> [] -> exists f, rs = (CDone CmdDirect, f)
}.

(** The header and the records that hold it arrive before what follows. *)
Definition response_at (s : VisionStream) (inner : list Piece) : Prop :=
  exists seq d todo1 todo2 wire1 wire2 first rest body raw rs o,
    padded uuid None seq d s /\ vless_response_pending (rside s) = true /\ is_read_eof (rside s) = false /\ pending_read (rside s) = []
    /\ partial (buffer d) /\ inner = first ++ rest /\ carried seq todo1 wire1 /\ carried (seq + Z.of_nat (length todo1)) todo2 wire2
    /\ buffer d ++ arriving first = wire1 /\ arriving rest = wire2 ++ raw
    /\ (length (partial_vless_response (rside s)) < length header <= length (partial_vless_response (rside s) ++ concat todo1))%nat
    /\ response_left (partial_vless_response (rside s)) (todo1 ++ todo2) body raw rs o /\ o ++ raw = data.

Lemma arriving_app a b : arriving (a ++ b) = arriving a ++ arriving b.
Proof using Type. induction a as [|[d| |e] a IH]; cbn [app arriving]; [done| |done..]. by rewrite IH, app_assoc. Qed.

Lemma poll_first cap first rest : (0 < cap)%nat -> flowing (first ++ rest) -> arriving first <> [] ->
  exists first' p, poll_inner cap (first ++ rest) = (p, first' ++ rest) /\ flowing (first' ++ rest) /\ arriving first = got p ++ arriving first'
    /\ match p with Pending => True | Ready (Ok b) => b <> [] /\ (length (arriving first') < length (arriving first))%nat | _ => False end.
Proof using All.
  intros Hcap Hf Hne. pose proof (poll_inner_ok cap (first ++ rest) Hf Hcap) as H.
  destruct first as [|[d| |e] first]; cbn [app poll_inner arriving] in *; [done| | |by apply Forall_cons in Hf as [[] _]].
  - apply Forall_cons in Hf as [Hd Hf]. destruct (Nat.leb_spec (length d) cap) as [Hle|Hgt].
    + exists first, (Ready (Ok d)). split; [done|]. split; [done|]. split; [done|]. split; [done|]. rewrite length_app. destruct d; [done|]. cbn [length]. lia.
    + exists (Data (drop cap d) :: first), (Ready (Ok (take cap d))). destruct H as (Hf' & _). split; [done|]. split; [done|]. cbn [got arriving].
      rewrite app_assoc, take_drop. split; [done|]. split; [intros E; apply (f_equal length) in E; rewrite length_take in E; cbn in E; lia|].
      rewrite !length_app, length_drop. lia.
  - exists first, Pending. apply Forall_cons in Hf as [_ Hf]. done.
Qed.

Lemma response_shift pv gt todo body raw rs o : response_left pv (gt ++ todo) body raw rs o -> response_left (pv ++ concat gt) todo body raw rs o.
Proof using All.
  intros [Hb Hs Hf Hfull Hd Hr]. split; [|done| | | |done].
  - rewrite <- Hb, concat_app. by rewrite <- app_assoc.
  - intros c1 c2 -> Hl. rewrite <- app_assoc, <- concat_app in *. apply (Hf (gt ++ c1) c2); [by rewrite <- app_assoc|done].
  - by apply Forall_app in Hfull as [_ Hfull].
  - intros c1 c2 b f o' -> E Hu. rewrite <- app_assoc, <- concat_app in E. eapply (Hd (gt ++ c1) c2); [by rewrite <- app_assoc|exact E|exact Hu].
Qed.

(** The header is off. *)
Definition after_response (rest : bytes) (s : VisionStream) (inner : list Piece) : Prop :=
  exists seq d todo wire raw rs o,
    padded uuid None seq d s /\ is_read_eof (rside s) = false /\ pending_read (rside s) = [] /\ partial (buffer d) /\ carried seq todo wire
    /\ buffer d ++ arriving inner = wire ++ raw
    /\ ((rest = [] /\ todo = [] /\ o = [] /\ raw = []) \/ unpads uuid None (rest ++ concat todo) rs o)
    /\ (rest = [] -> match todo with [] => True | c :: _ => (16 <= length c)%nat end) /\ (rest <> [] -> (16 <= length rest)%nat)
    /\ (forall c1 c2 f o', todo = c1 ++ c2 -> unpads uuid None (rest ++ concat c1) (CDone CmdDirect, f) o' -> c2 = [])
    /\ (raw <> [] -> exists f, rs = (CDone CmdDirect, f)) /\ o ++ raw = data.

Lemma header_off rest s inner seq d todo wire body raw rs o : padded uuid None seq d s -> is_read_eof (rside s) = false -> pending_read (rside s) = [] ->
  partial (buffer d) -> carried seq todo wire -> buffer d ++ arriving inner = wire ++ raw -> response_left (header ++ rest) todo body raw rs o -> o ++ raw = data ->
  after_response rest s inner.
Proof using All.
  intros Hpad He Hn Hp Hc Hb [Hby Hs Hf Hfull Hd Hr] Hda. rewrite <- app_assoc in Hby. apply app_inv_head in Hby. subst body.
  exists seq, d, todo, wire, raw, rs, o. split_and!; try done.
  - destruct Hs as [(E & -> & ->)|Hs]; [|by right]. left. apply app_eq_nil in E as [-> E]. split_and!; try done. destruct todo as [|c todo]; [done|].
    cbn [concat] in E. apply app_eq_nil in E as [-> _]. apply Forall_cons in Hfull as [? _]. done.
  - intros ->. destruct todo as [|c todo]; [done|]. apply Forall_cons in Hfull as [Hne _]. specialize (Hf [c] todo eq_refl). cbn [concat] in Hf.
    rewrite !app_nil_r, length_app in Hf. destruct c as [|x c]; [done|]. cbn [length] in *. lia.
  - intros Hne. specialize (Hf [] todo eq_refl). cbn [concat] in Hf. rewrite app_nil_r, length_app in Hf. destruct rest as [|x rest]; [done|]. cbn [length] in *. lia.
  - intros c1 c2 f o' E Hu. eapply (Hd c1 c2); [exact E|by rewrite <- app_assoc|exact Hu].
Qed.

Definition response_done (st' : VisionStream * Tcp) (p : Poll bytes) : Prop :=
  flowing (incoming (snd st')) /\
  match p with
  | Pending => response_at (fst st') (incoming (snd st'))
  | Ready (Ok rest) => after_response rest (fst st') (incoming (snd st'))
  | _ => False
  end.

Lemma response_loop_ok fuel : forall s w, flowing (incoming w) -> response_at s (incoming w) -> (length (arriving (incoming w)) < fuel)%nat ->
  post (response_loop x509 debug fuel) (s, w) response_done.
Proof using All.
  induction fuel as [|fuel IH]; intros s w Hfl Hat Hf; [lia|]. cbn [response_loop]. unfold post. rewrite this_bind.
  destruct Hat as (seq & d & todo1 & todo2 & wire1 & wire2 & first & rest & body & raw & rs & o & Hpad & Hrp & He & Hn & Hpart & Ei & Hc1 & Hc2 & Hb1 & Hb2 & Hlen & Hleft & Hda).
  assert (arriving first <> []) as Hne.
  { intros E. rewrite E, app_nil_r in Hb1. subst wire1. rewrite <- (app_nil_r (buffer d)) in Hpart. pose proof (carried_partial _ _ _ _ Hc1 Hpart) as ->.
    cbn [concat] in Hlen. rewrite app_nil_r in Hlen. lia. }
  rewrite Ei in Hfl. destruct (poll_first _ first rest (pp_room _ _ _ _ _ Hpad) Hfl Hne) as (first' & p & Hpoll & Hf' & Ha & Hp).
  unfold mbind at 1, V_bind at 1, tcp_read at 1. rewrite Ei, Hpoll. destruct p as [|[bb|e|]]; [| |done|done].
  { split; [exact Hf'|]. cbn [fst snd incoming]. exists seq, d, todo1, todo2, wire1, wire2, first', rest, body, raw, rs, o. cbn [got app] in Ha. rewrite <- Ha. done. }
  destruct Hp as [Hbb Hlt]. cbn [got] in Ha. assert (is_nil bb = false) as -> by (by destruct bb).
  unfold feed_outer. erewrite vbind_ok; [|unfold on_outer; rewrite (pp_outer _ _ _ _ _ Hpad); reflexivity].
  set (d1 := feed_deframer d bb). assert (deframer_ok d1 /\ buffer d1 = buffer d ++ bb) as [Hd1 Hbd1].
  { split; [|done]. pose proof (pp_ok _ _ _ _ _ Hpad) as Hok. unfold deframer_ok, d1, feed_deframer in *. cbn [d_state buffer]. destruct (d_state d); [done|]. by apply announced_app. }
  rewrite Ha, app_assoc, <- Hbd1 in Hb1.
  destruct (records_split todo1 seq wire1 (buffer d1) (arriving first') Hc1 Hb1) as (records & gt & todo1' & part & Eb & -> & Hp' & Hec & Hc1').
  destruct (next_records_spec d1 records part Hd1 (each_complete _ _ _ Hec) Hp' Eb) as (d2 & Hnext & Hd2 & Hbd2).
  erewrite vbind_ok; [|unfold on_outer; cbn [rside on_reads set_outer outer_read_deframer]; rewrite Hnext; reflexivity].
  set (s1 := on_reads (set_outer (Some d2)) (on_reads (set_outer (Some d1)) s)). set (w1 := mkTcp (first' ++ rest) (room w) (sent w)).
  destruct (response_records_ok records seq gt s1 w1 (pp_session _ _ _ _ _ Hpad) Hec) as (c & Hrun & Hat2). erewrite vbind_ok; [|exact Hrun]. rewrite this_bind.
  set (pv := partial_vless_response (rside s)) in *. change (partial_vless_response (rside s1)) with pv.
  cbn [rside with_partial on_reads set_partial partial_vless_response].
  assert (padded uuid None (seq + Z.of_nat (length gt)) d2 (with_partial (pv ++ concat gt) (set_session c s1))) as Hpad2 by (destruct Hpad; by split).
  rewrite <- app_assoc in Hleft. apply response_shift in Hleft. set (pv' := pv ++ concat gt) in *.
  rewrite length_app in Hc2. replace (seq + Z.of_nat (length gt + length todo1')) with (seq + Z.of_nat (length gt) + Z.of_nat (length todo1')) in Hc2 by lia.
  rewrite concat_app, app_assoc in Hlen. fold pv' in Hlen. pose proof (rl_bytes _ _ _ _ _ _ Hleft) as Hby.
  apply app_eq_app in Hby as (k & Hk).
  assert (length (arriving (first' ++ rest)) < fuel)%nat as Hf1 by (rewrite Ei, arriving_app, length_app in Hf; rewrite arriving_app, length_app; lia).
  destruct (decide (length pv' < length header)%nat) as [Hshort|Hlong].
  - assert (header = pv' ++ k /\ k <> []) as [E1 Hkn].
    { destruct Hk as [[E1 _]|[E1 _]]; apply (f_equal length) in E1 as El; rewrite length_app in El; [lia|]. split; [exact E1|]. intros ->. change (length []) with 0%nat in El. lia. }
    unfold ok_of, answer. rewrite (parse_header_part pv' k) by done. erewrite vbind_ok; [|reflexivity]. apply IH; [exact Hf'| |exact Hf1].
    exists (seq + Z.of_nat (length gt)), d2, todo1', todo2, (part ++ arriving first'), wire2, first', rest, body, raw, rs, o. rewrite Hbd2.
    split; [exact Hpad2|]. split; [exact Hrp|]. split; [exact He|]. split; [exact Hn|]. split; [exact Hp'|]. split; [done|]. split; [exact Hc1'|]. split; [exact Hc2|].
    split; [done|]. split; [exact Hb2|]. split; [split; [exact Hshort|apply Hlen]|]. split; [exact Hleft|exact Hda].
  - assert (pv' = header ++ k) as E1.
    { destruct Hk as [[E1 _]|[E1 _]]; [exact E1|]. apply (f_equal length) in E1 as El. rewrite length_app in El. destruct k as [|x k]; [by rewrite app_nil_r in *|]. change (length (x :: k)) with (S (length k)) in El. lia. }
    unfold ok_of, answer. rewrite E1, (parse_header k). erewrite vbind_ok; [|reflexivity]. cbv beta match. rewrite change_bind. cbn [mret V_ret]. split; [exact Hf'|]. cbn [fst snd incoming w1].
    rewrite E1 in Hleft. eapply (header_off k _ _ (seq + Z.of_nat (length gt)) d2 (todo1' ++ todo2) ((part ++ arriving first') ++ wire2) body raw rs o); try done.
    + destruct Hpad2 as [G1 G2 G3 G4 G5 G6 G7]. by split.
    + by rewrite Hbd2.
    + by apply carries_app.
    + rewrite Hbd2, arriving_app, Hb2. by rewrite <- !app_assoc.
Qed.

Lemma after_response_padding s inner : after_response [] s inner -> vless_response_pending (rside s) = false -> padding_at [] s inner.
Proof using All.
  intros (seq & d & todo & wire & raw & rs & o & Hpad & He & Hn & Hp & Hc & Hb & Hs & Hf & _ & Hd & Hr & Hda) Hrp.
  exists None, seq, d, todo, wire, raw, rs, o. split; [done|]. split; [done|]. split; [done|]. split; [done|]. split; [|split; [exact Hda|split; [done|by rewrite He]]].
  split; [|by intros _; apply Hf|exact Hd|exact Hr]. destruct Hs as [(_ & -> & -> & ->)|Hs]; [by left|by right].
Qed.

(** Where a stream is: [out] has been handed out. *)
Definition vision_at (out : bytes) (st : VisionStream * Tcp) : Prop :=
  reads_at out st \/ out = [] /\ flowing (incoming (snd st)) /\ response_at (fst st) (incoming (snd st)).

Definition vision_done (out : bytes) (st : VisionStream * Tcp) (p : Poll bytes) : Prop :=
  vision_at (out ++ got p) st /\ good_poll p /\ (p = Ready (Ok []) -> out = data).

Lemma vision_poll_done out st p : poll_done out st p -> vision_done out st p.
Proof using All. intros (H1 & H2 & H3). split; [by left|done]. Qed.

Lemma set_response_pending_after rest s inner : after_response rest s inner -> after_response rest (on_reads (set_response_pending false) s) inner.
Proof using All.
  intros (seq & d & todo & wire & raw & rs & o & [] & H). exists seq, d, todo, wire, raw, rs, o. by split.
Qed.

(** What came with the header. *)
Lemma first_blocks_ok want rest s w : (0 < want)%nat -> flowing (incoming w) -> rest <> [] -> after_response rest s (incoming w) -> vless_response_pending (rside s) = false ->
  post (_ ← handle_padded_bytes x509 debug memmem_find rest;
        s ← this;
        if negb (is_nil (pending_read (rside s))) then serve_pending want
        else match read_mode (rside s) with
             | PaddingTls => poll_read_padding_tls x509 debug memmem_find want
             | m => read_in_mode x509 debug m want
             end) (s, w) (poll_done []).
Proof using All.
  intros Hw Hfl Hne (seq & d & todo & wire & raw & rs & o & Hpad & He & Hn & Hp & Hc & Hb & Hs & _ & Hf & Hd & Hr & Hda) Hrp.
  destruct Hs as [(E & _)|Hs]; [done|].
  destruct (handled_ok [] None seq d s w rest todo wire raw rs o Hpad Hrp He Hc Hb Hs (fun _ => Hf Hne) Hd Hr) as (s' & Hrun & He' & Hcases); [by rewrite Hn|].
  unfold post. erewrite vbind_ok; [|exact Hrun]. rewrite this_bind. destruct Hcases as [(p' & o' & _ & Hpad' & Hrp' & Hbl & Hda')|Hcases].
  - assert (padding_at ([] ++ pending_read (rside s')) s' (incoming w)) as Hat.
    { exists p', seq, d, todo, wire, raw, rs, o'. split_and!; try done. by rewrite He'. }
    destruct (pending_read (rside s')) as [|x b] eqn:En; cbn [is_nil negb].
    + rewrite (pp_mode _ _ _ _ _ Hpad'). by apply poll_read_padding_tls_ok.
    + apply serve_pending_ok; [|done|by rewrite En]. apply reads_padding; [done|]. by rewrite En.
  - assert (read_mode (rside s') <> PaddingTls) as Hmode by (destruct Hcases as [[-> _]|[-> _]]; done).
    pose proof (after_padding_ok want [] s' w Hfl Hcases Hw) as H. unfold post in H.
    destruct (pending_read (rside s')); cbn [is_nil negb] in *; [|exact H]. destruct (read_mode (rside s')); [done|exact H..].
Qed.

Lemma vision_poll_ok want out s w : (0 < want)%nat -> vision_at out (s, w) -> post (poll_read x509 debug memmem_find want) (s, w) (vision_done out).
Proof using All.
  intros Hw [Hat|(-> & Hfl & Hat)]; unfold poll_read, post; rewrite this_bind; cbn [fst snd] in *.
  - eapply post_mono; [intros st' p; apply vision_poll_done|]. destruct (pending_read (rside s)) as [|x b] eqn:En; cbn [is_nil negb].
    + destruct Hat as [Hfl Hph]. cbn [fst snd] in *. rewrite En, app_nil_r in Hph. destruct Hph as [Hph|Hph].
      * pose proof Hph as (p & seq & d & todo & wire & raw & rs & o & Hpad & -> & _). rewrite (pp_mode _ _ _ _ _ Hpad). by apply poll_read_padding_tls_ok.
      * assert (read_mode (rside s) <> PaddingTls) as Hmode by (destruct Hph as [[-> _]|[-> _]]; done).
        pose proof (read_in_mode_ok want out s w Hfl Hph En Hw) as H. destruct (read_mode (rside s)); [done|exact H..].
    + apply serve_pending_ok; [done|done|by rewrite En].
  - pose proof Hat as (seq & d & todo1 & todo2 & wire1 & wire2 & first & rest & body & raw & rs & o & Hpad & Hrp & He & Hn & _).
    rewrite Hn. cbn [is_nil negb]. rewrite (pp_mode _ _ _ _ _ Hpad), Hrp. apply post_bind.
    unfold poll_read_vless_response, post. rewrite tcp_bind. eapply post_mono; [|apply response_loop_ok; [exact Hfl|exact Hat|lia]].
    intros [s1 w1] [|[after|e|]] [Hf1 Hd]; cbn [fst snd] in *; [|clear Hat Hpad|done|done].
    { split; [|done]. right. done. }
    unfold post. rewrite change_bind. apply set_response_pending_after in Hd. set (s2 := on_reads _ s1) in *. destruct after as [|x b]; cbn [is_nil].
    + eapply post_mono; [intros st' p; apply vision_poll_done|]. apply poll_read_padding_tls_ok; try done; [by apply after_response_padding|].
      by destruct Hd as (? & ? & ? & ? & ? & ? & ? & _ & _ & Hn2 & _).
    + eapply post_mono; [intros st' p; apply vision_poll_done|]. by apply first_blocks_ok.
Qed.

(** [poll_read] over pieces that arrive. *)
Definition vision_poll_read (want : nat) (s : VisionStream) (inner : list Piece) : res io_error (VisionStream * list Piece * Poll bytes) :=
  let '(s, w, p) := poll_read x509 debug memmem_find want (s, mkTcp inner [] []) in Ok (s, incoming w, p).

Lemma vision_delivers : delivers vision_poll_read data (fun out s inner => vision_at out (s, mkTcp inner [] [])).
Proof using All.
  split.
  - intros out s inner want Hat Hw. pose proof (vision_poll_ok want out s _ Hw Hat) as H. unfold post, vision_poll_read in *.
    destruct (poll_read x509 debug memmem_find want (s, mkTcp inner [] [])) as [[s' w'] p]. exists s', (incoming w'), p. split; [done|].
    destruct H as (H1 & H2 & H3). split; [|done]. destruct H1 as [[Hf Hp]|H1]; [left; by split|by right].
  - intros out s inner [[Hf Hp]|(-> & _)]; [|by exists data]. cbn [fst snd] in Hp. destruct Hp as [(p & seq & d & todo & wire & raw & rs & o & _ & _ & _ & _ & _ & <- & _)|[(_ & seq & todo & part & here & _ & _ & _ & _ & <- & _)|[_ <-]]];
      rewrite <- !app_assoc; by eexists.
Qed.
End Response.
End Phases.
End Reads.

(** C20. What is read is what the blocks say. The other end sends records that
    carry the header of a response and blocks of padding, and after a last block
    with the command [Direct] bytes as they are. In whatever pieces that arrives,
    the records that hold the header before the bytes that are no records, every
    poll of a new stream ends, none fails or panics, and they hand out in order
    what the blocks say and what follows them, in the session or directly; the
    end of the stream is read only after all of it. No cut between records may
    lie within the sixteen bytes of the UUID. *)
Theorem vision_reads_are_delivered `{A : Aead} {L : AeadLaws A} `{C : Crypto} (x509 : bytes -> res str (bytes * bytes)) (debug : bool)
    (memmem_find : bytes -> bytes -> option nat) (c : Connection) (key : AeadKey) (iv uuid : bytes) (v m : u8) (addon : bytes)
    (contents1 contents2 : list bytes) (wire1 wire2 body said raw : bytes) (rs : ref_state) (first rest : list Piece) (wants : list nat)
    (Huuid : length uuid = 16%nat) (Hv : val8 v = 0) (Hm : length addon = Z.to_nat (val8 m))
    (Hc : reading key iv c) (Hcin : buffered (ciphertext_read_buf c) []) (Hpin : buffered (plaintext_read_buf c) [])
    (Hw1 : carries key iv CT_APPLICATION_DATA (read_seq c) contents1 wire1)
    (Hw2 : carries key iv CT_APPLICATION_DATA (read_seq c + Z.of_nat (length contents1)) contents2 wire2)
    (Hheader : (2 + length addon <= length (concat contents1))%nat)
    (Hleft : response_left uuid v m addon [] (contents1 ++ contents2) body raw rs said)
    (Hflow : flowing (first ++ rest)) (Hfirst : arriving first = wire1) (Hrest : arriving rest = wire2 ++ raw)
    (Hwants : Forall (fun w => 0 < w)%nat wants) :
  exists s inner ps left, polls (vision_poll_read x509 debug memmem_find) wants (new_client c uuid) (first ++ rest) = Ok (s, inner, ps)
    /\ Forall good_poll ps /\ delivered ps ++ left = said ++ raw /\ (Ready (Ok []) ∈ ps -> left = []).
Proof.
  destruct (polls_deliver _ (said ++ raw) _ wants (vision_delivers x509 debug memmem_find key iv uuid (said ++ raw) Huuid v m addon Hv Hm) [] (new_client c uuid) (first ++ rest))
    as (s & inner & ps & left & Hp & Hg & Hd & He); [|done|by exists s, inner, ps, left].
  right. split; [done|]. split; [exact Hflow|]. exists (read_seq c), new_deframer, contents1, contents2, wire1, wire2, first, rest, body, raw, rs, said.
  split; [split; try done; change (0 < Z.to_nat 8192)%nat; lia|]. split_and!; try done; [left; cbn; unfold TlsRecords.TLS_RECORD_HEADER_SIZE; lia|cbn; lia].
Qed.

Lemma vision_reads_are_delivered_witness :
  let key := mkAeadKey AES_128_GCM_SHA256 (be_bytes 16 7) in
  let iv := be_bytes 12 9 in
  let empty := sb_new (replicate CIPHERTEXT_READ_BUF_CAPACITY (to_u8 0)) in
  let c := mkConnection toy_config Complete (Some (key, iv)) None 5 0 empty [] empty [] false None in
  let uuid := lit "0123456789abcdef" in
  let block1 := of_zs [0; 1; 7] ++ pad no_padding (lit "hel") (Some uuid) COMMAND_CONTINUE false in
  let block2 := pad no_padding (lit "lo") None COMMAND_DIRECT true in
  exists wire1 wire2, encrypt_app_data (A := toy_aead) true key iv block1 (5, []) = Ok (6, wire1)
    /\ encrypt_app_data (A := toy_aead) true key iv block2 (6, []) = Ok (7, wire2)
    /\ forall first rest, flowing (first ++ rest) -> arriving first = wire1 -> arriving rest = wire2 ++ lit " there" ->
       exists s inner ps left, polls (vision_poll_read (A := toy_aead) (C := toy_crypto) toy_x509 true find_str) [3; 100; 100]%nat (new_client c uuid) (first ++ rest) = Ok (s, inner, ps)
         /\ Forall good_poll ps /\ delivered ps ++ left = lit "hello there" /\ (Ready (Ok []) ∈ ps -> left = []).
Proof.
  intros key iv empty c uuid block1 block2.
  assert (buffered empty []) as He.
  { exists CIPHERTEXT_READ_BUF_CAPACITY, [], (replicate CIPHERTEXT_READ_BUF_CAPACITY (to_u8 0)).
    split; [reflexivity|]. split; [apply length_replicate|]. split; [|done]. cbn [length app q_bytes]. apply length_replicate. }
  assert (length iv = 12%nat) as Hiv by reflexivity.
  destruct (encrypt_app_data_carries (A := toy_aead) true key iv Hiv block1 5 []) as (wire1 & He1 & Hw1); [lia|vm_compute; reflexivity|].
  destruct (encrypt_app_data_carries (A := toy_aead) true key iv Hiv block2 6 []) as (wire2 & He2 & Hw2); [lia|vm_compute; reflexivity|].
  assert (pieces block1 = [block1] /\ pieces block2 = [block2]) as [Hp1 Hp2] by (vm_compute; done). rewrite Hp1 in He1, Hw1. rewrite Hp2 in He2, Hw2.
  exists wire1, wire2. split; [exact He1|]. split; [exact He2|]. intros first rest Hflow Hfirst Hrest.
  apply (vision_reads_are_delivered (A := toy_aead) (C := toy_crypto) toy_x509 true find_str c key iv uuid (to_u8 0) (to_u8 1) [to_u8 7]
    [block1] [block2] wire1 wire2 (drop 3 block1 ++ block2) (lit "hello") (lit " there") (CDone CmdDirect, false) first rest [3; 100; 100]%nat);
    [reflexivity|reflexivity|reflexivity|by repeat split|exact He|exact He|exact Hw1|exact Hw2|vm_compute; lia| |exact Hflow|exact Hfirst|exact Hrest|].
  - split.
    + vm_compute. reflexivity.
    + right. exists (drop 19 block1 ++ block2). split; vm_compute; reflexivity.
    + intros c1 c2 E. destruct c1 as [|x [|y [|z c1]]]; [|injection E as <- _|injection E as <- <- _|discriminate E]; vm_compute; lia.
    + repeat (apply Forall_cons; split; [discriminate|]). by apply Forall_nil.
    + intros c1 c2 b f o' E Eb (v & -> & Hr). destruct c1 as [|x [|y [|z c1]]]; [discriminate Eb| |by injection E as _ _ <-|discriminate E].
      injection E as <- <-. cbn [concat app] in Eb.
      assert (v = drop 19 block1) as ->.
      { apply (f_equal (drop 19)) in Eb. rewrite app_nil_r in Eb. symmetry. exact Eb. }
      vm_compute in Hr. discriminate Hr.
    + intros _. by exists false.
  - repeat (apply Forall_cons; split; [lia|]). by apply Forall_nil.
Defined.

(** Bytes that follow a [Direct] in the very read that brings the header are
    taken for a record: the header and the bytes may not come together. *)
Lemma direct_with_the_header_fails :
  let key := mkAeadKey AES_128_GCM_SHA256 (be_bytes 16 7) in
  let iv := be_bytes 12 9 in
  let empty := sb_new (replicate CIPHERTEXT_READ_BUF_CAPACITY (to_u8 0)) in
  let c := mkConnection toy_config Complete (Some (key, iv)) None 5 0 empty [] empty [] false None in
  let uuid := lit "0123456789abcdef" in
  let block := of_zs [0; 1; 7] ++ pad no_padding (lit "hello") (Some uuid) COMMAND_DIRECT true in
  match encrypt_app_data (A := toy_aead) true key iv block (5, []) with
  | Ok (_, wire) =>
      match vision_poll_read (A := toy_aead) (C := toy_crypto) toy_x509 true find_str 100 (new_client c uuid) [Data (wire ++ lit " there")] with
      | Ok (_, _, p) => exists message, p = Ready (Err (InvalidData message))
      | _ => False
      end
  | _ => False
  end.
Proof. vm_compute. by eexists. Qed.
